(* ===== verification/_CoqProject ===== *)
-Q . S2P
Prelude.v
Tlv.v
Encoding.v
Blocks.v
BlockHelpers.v
Text.v
NameComponents.v
Names.v
NameRegex.v
NameRegexFacts.v
Scheduler.v
Fields.v
DataPacket.v
InterestPacket.v
InMemoryStorage.v
Announcements.v
Certificates.v
Signatures.v
Validation.v
ValidationFacts.v
Pib.v
PibFacts.v
Tpm.v
KeyChain.v
KeyChainFacts.v
ValidatorConfig.v
ValidatorConfigFacts.v
RttEstimator.v
LinkProtocol.v
FaceTables.v
SegmentFetcher.v
SegmentFetcherFacts.v
FaceImpl.v
FaceFacts.v
Delegations.v
NfdStatus.v
NfdStatusFacts.v
NfdControl.v
NfdControlFacts.v
Dispatcher.v
DispatcherFacts.v
