(* ===== verification/Prelude.v ===== *)
(** * A verification library for ndn-cxx

    ndn-cxx is a C++ library for Named Data Networking.  This development
    models the part of it that turns packets into octets and back: the TLV
    format, names, the Interest and Data packets, the packets of the link
    protocol and the records of NFD management, from the readers of single
    numbers up to the member functions of the packet classes; and what is
    built on them: the in-memory storage of Data packets, the regular
    expressions over names, the scheduler, the tables and callbacks of the face,
    the segment fetcher, the server side of management, and the security
    framework: key chain, certificates, validators and their configuration.

    ** The parts and how they interact

    Every packet is a tree of TLV elements.  [tlv::readVarNumber] and its
    relatives read the numbers of a header; [Encoder] writes an element from
    its last octet to its first into a buffer that grows at both ends, and
    [Estimator] runs the same template to compute the size beforehand.  A
    [Block] is one element, with its octets, or its sub-elements, or both; it
    is parsed one level at a time.  A name component is a Block with a checked
    type and value; a Name is a Block whose sub-elements are components.
    MetaInfo, KeyLocator and SignatureInfo are the fields packets share; Data
    and Interest hold such fields, cache the Block they were decoded from or
    encoded to, and drop that cache in every setter.  An Interest with
    parameters carries their SHA-256 as a component of its name.

    The in-memory storage keeps Data packets ordered by full name and answers
    Interests from them; what it evicts is up to one of four derived classes.
    A Link and a prefix announcement are Data packets whose content is a list
    of names or an announced route.  A link protocol packet is a container of
    header fields around a fragment of an Interest or Data.  Management speaks
    in control parameters, which a command validates and puts into the name of
    an Interest, in control responses, and in datasets, sequences of status
    records.  A regular expression over names is compiled into a tree of
    matchers that share a list of back references.  The scheduler keeps a queue
    of callbacks and one timer.

    A face keeps the pending Interests of the application and of the forwarder,
    the filters behind which the application answers, and the prefixes it has
    registered; packets from the transport, calls of the application and
    time-outs are tasks of one io_service, and the callbacks they run may call
    the face again.  The dispatcher sets such filters, one for every handler
    under every top-level prefix: it hands parsed control commands to their
    handlers, lets a dataset handler write its records through a context that
    cuts them into segments, and answers from its in-memory storage.  The
    segment fetcher is on the other side: it retrieves the segments of an object
    through a face, within a congestion window, has each one validated, and
    hands their contents to the application as one buffer or in order.

    The key chain signs packets with the keys of a TPM and keeps the public
    side, identities, keys and certificates, in a PIB.  A validator decides
    about packets by a policy: it asks for the certificate of the key that
    signed, looks for it among the trust anchors and in its caches, fetches it
    from the network, and validates it in turn.  Policies are nested: one for
    command Interests or signed Interests checks for replays and passes on to an
    inner one; the configured policy reads rules with filters and checkers.

    ** Files

    - [Prelude]: octets, machine widths, exceptions, member functions as a
      state and exception monad with a small program logic ([triple],
      [keeps]), tactics and lemmas on lists and numbers.
    - [Tlv] (Module [tlv]; [encoding/tlv.hpp], [tlv.cpp]): type numbers,
      VAR-NUMBER and NonNegativeInteger, fast and slow readers.
    - [Encoding] (Modules [Encoder], [Estimator]; [encoding/encoder.cpp],
      [estimator.cpp]): both encoders; the class [EncodingImpl] is the template
      parameter [TAG], and a [prepender] is a function template over it.
    - [Blocks] (Module [Block]; [encoding/block.cpp]).
    - [BlockHelpers] (Module [encoding]; [encoding/block-helpers.cpp]): the
      class [WireEncodable] is the concept of the same name, and
      [WireEncodableLaws] what it promises to a container of such values.
    - [Text] ([util/string-helper.cpp], [security/transform/hex-*.cpp]).
    - [NameComponents] (Modules [ComponentType], [Component];
      [name-component.cpp], [impl/name-component-types.hpp]).
    - [Names] (Module [Name]; [name.cpp]).
    - [NameRegex] (Module [regex]; [util/regex/*.cpp]): the matchers, whose
      mutable match results live in a store of objects ([objects]), the
      compiler, expansion of back references, and expressions made from
      names.  [NameRegexFacts]: the language of a tree of matchers.
    - [Scheduler] (Module [scheduler]; [util/scheduler.cpp]): the queue, the
      timer, and a step relation for the scheduler among callbacks, the clock
      and the io_service; the class [Timer] is Asio's timer.
    - [Fields] (Modules [MetaInfo], [KeyLocator], [SignatureInfo]).
    - [DataPacket] (Module [Data]; [data.cpp]).
    - [InterestPacket] (Module [Interest]; [interest.cpp]).
    - [InMemoryStorage] (Module [ims]; [ims/*.cpp]): the class [Policy] is the
      virtual functions of the storage, [PolicyLaws] what the storage relies
      on; FIFO, LRU, LFU and the persistent storage are instances.
    - [Announcements] (Modules [time], [ValidityPeriod], [PrefixAnnouncement];
      [util/time.cpp], [security/validity-period.cpp],
      [prefix-announcement.cpp]).
    - [Certificates] (Modules [Certificate], [CertificateCache],
      [TrustAnchors]; [security/certificate.cpp], [certificate-cache.cpp],
      [trust-anchor-container.cpp], [trust-anchor-group.cpp]).
    - [Signatures] (Modules [security], [verification];
      [security/verification-helpers.cpp]).
    - [Validation] (Modules [ValidationError], [CertificateRequest],
      [Validator]; [security/validator.cpp], [validation-state.cpp],
      [validation-policy-*.cpp], [certificate-fetcher*.cpp]): the validator
      with the states of its validations and what it fetches.
      [ValidationFacts]: trust, outcomes and replays.
    - [Pib] (Modules [NameMap], [KeyName], [PibMemory], [Pib];
      [security/pib/*.cpp], [impl/pib-memory.cpp]) and [PibFacts].
    - [Tpm] (Modules [KeyParams], [KeyHandle], [BackEndMem], [Tpm];
      [security/tpm/*.cpp], [security/key-params.cpp]).
    - [KeyChain] (Modules [SafeBag], [SigningInfo], [KeyChain];
      [security/key-chain.cpp], [signing-info.cpp], [safe-bag.cpp]) and
      [KeyChainFacts], which has the lemmas on the TPM too.
    - [ValidatorConfig] (Module [validator_config];
      [security/validator-config/*.cpp],
      [security/validation-policy-config.cpp]) and [ValidatorConfigFacts].
    - [RttEstimator] (Modules [Double], [RttEstimator],
      [RttEstimatorWithStats]; [util/rtt-estimator.cpp]).
    - [SegmentFetcher] (Module [SegmentFetcher]; [util/segment-fetcher.cpp]):
      the fetcher with the Interests, timers and validations under way, and
      the events it reacts to.  [SegmentFetcherFacts].
    - [LinkProtocol] (Modules [lp_tlv], [CachePolicy], [NackHeader], [Nack],
      [PitToken], [PrefixAnnouncementHeader], [Field], [lp_Packet]; [lp/*]): a
      field is a [Decl] of its type, location and codecs, as the template
      [FieldDecl] has it; [FieldLaws] is what a codec promises to the packet.
    - [FaceTables] (Modules [TagHost], [RecordContainer], [InterestFilter],
      [PendingInterest], [InterestFilterRecord], [RegisteredPrefix];
      [impl/record-container.hpp], [impl/pending-interest.hpp] and the like,
      [interest-filter.cpp]), [FaceImpl] (Module [Face]; [face.cpp],
      [impl/face-impl.hpp]): the state of a face with its io_service, the class
      [FaceEnv] of what it is connected to, and a step relation.  [FaceFacts].
    - [Delegations] (Modules [Delegation], [DelegationList], [Link];
      [delegation-list.cpp], [link.cpp]).
    - [NfdStatus] (a Module per record of [mgmt/nfd/*.cpp], and
      [StatusDataset]): the class [StatusDatasetItem] is the concept of a
      record that a dataset is made of.  [NfdStatusFacts]: its laws, proved
      for all eleven records.
    - [NfdControl] (Modules [ControlParameters], [ControlResponse],
      [ControlCommand]; [mgmt/nfd/control-parameters.cpp],
      [mgmt/control-response.cpp], [mgmt/nfd/control-command.cpp]) and
      [NfdControlFacts].
    - [Dispatcher] (Modules [StatusDatasetContext], [Dispatcher];
      [mgmt/status-dataset-context.cpp], [mgmt/dispatcher.cpp]) and
      [DispatcherFacts].

    A definition that models code is preceded by the file, the lines and the
    symbol it models, and keeps the name of that symbol.  A Module [XFacts]
    holds the lemmas on component [X], a Module [XTheorems] what the
    development claims of it.

    ** How code is modelled

    - A [uint8_t] is a [Byte.byte]; other integers are [Z] with the wrap-around
      written out ([u32], [u64], [i32], [i64]) where the code can reach it.
    - Exceptions are the constructors of [exn], one per C++ class; a function
      that may throw returns a [result].
    - A member function that may throw and changes its object is a function of
      type [M S A]: it returns the object also when it throws.  Where it can
      also run into undefined behaviour, an assertion or a loop without end, it
      has type [P S A], and [None] is that.
    - Shared buffers are immutable once a Block refers to them, so a Block
      holds the octets of its ranges instead of pointers.  [Block::parse] fills
      a mutable cache; the packet decoders keep the parsed form of the packet
      itself, and parse nested elements in a copy.
    - Undefined behaviour ([operator[]] behind the end of a name, a shift by
      the width of its type or more, reading a field that is absent) is [None].

    Recursion is structural on lists wherever the code iterates over a
    container.  Where it consumes octets ([Block.parse_loop],
    [Name.uri_loop]) the fuel is the number of octets left: every turn
    consumes at least one, and a lemma next to the definition shows that more
    fuel does not change the result.  [ims.right_loop] has one turn per entry
    left, [ims.shrink_loop] one per packet to evict and per allowed failure.
    Compiling an expression recurses at most as deep as the expression is long
    ([regex_compile_terminates]); matching one whose repeated groups consume
    something needs one more than the number of components
    ([regex_match_language]); the loop of the scheduler runs once per due event
    ([scheduler_run]); parsing a dataset has one turn per octet and one to stop
    ([status_dataset_parse]); cutting a block into segments has one turn per
    octet and one more ([dataset_context_refines]).  Requesting certificates
    goes at most as deep as the depth limit of the validator
    ([validator_progress]); filling the window of the segment fetcher takes a
    turn for each segment in the retransmission queue and, for each segment to
    request, as many as there are segments in the buffer and one more, and
    delivering in order one for each segment in the buffer
    ([fetcher_loops_end]).  [Interest::refreshNonce] draws until the nonce
    changes; it is a function of the list of draws.

    ** Parameters

    SHA-256 (OpenSSL) is a function [sha256] of which only the length of the
    result is assumed, where it matters; nonces and the current time are
    arguments; so are the process-wide settings (the naming convention, the
    URI format of the environment, automatic digest checking).  The container
    behind the LFU policy leaves open which of several least frequent entries
    comes first; that choice is the parameter [first].  [std::regex] is the
    class [StdRegex], Asio's timer the class [Timer], Boost's [posix_time] the
    class [PosixTime]; the laws a theorem needs of them are the classes
    [StdRegexLaws], [StdRegexSyntax], [TimerLaws] and [PosixTimeLaws].
    The filters of [security/transform] around OpenSSL (signing, verifying,
    encrypting, PKCS #8) and the keys they work on are the classes [Crypto] and
    [PrivateKeys]: their C++ code is under [src/], but what it does is
    OpenSSL's; a theorem says what it relies on, and of which key.  The files
    trust anchors are loaded from are the class [Files]; parsed configuration
    files, the resolution of paths and generated keys are arguments.  Where a
    packet is only signed on the way, [KeyChain::sign] is an argument, as are
    the bodies of scheduled callbacks and the authorization and the handlers of
    a dispatcher.  The class [FaceEnv] is
    what a face is connected to: the transport, and what each callback of the
    application calls on the face and whether it throws; the answers to
    registration commands arrive as steps, in any order.

    ** What the theorems show

    - Round trips: numbers ([tlv_number_roundtrip]), blocks
      ([block_decode_encoded], [block_encode_roundtrip]), the block helpers
      ([make_read_roundtrip], [makeNestedBlocks_parse]), escapes
      ([escape_roundtrip]), naming conventions ([convention_roundtrip]),
      components and names on the wire and as URIs ([component_wire],
      [component_uri_roundtrip], [name_wire_roundtrip], [name_uri_roundtrip]),
      [signature_info_roundtrip], [data_wire_roundtrip],
      [interest_wire_roundtrip], [validity_period_roundtrip],
      [prefix_announcement_roundtrip], [lp_packet_wire_roundtrip],
      [delegation_list_roundtrip], [link_roundtrip], all status records
      ([status_item_roundtrip]) and datasets of them
      ([status_dataset_roundtrip]), also through the segments of a dispatcher
      ([dataset_served_roundtrip]), [control_parameters_roundtrip], and commands
      from the client to the handler ([dispatcher_command_roundtrip]); what the
      key chain signs is verified ([keychain_sign_verify]), and a key survives
      export and import ([safe_bag_transport]).
    - Refinements: the two-ended encoder implements prepending and appending to
      a string of octets ([encoder_refines_octets]); comparing components and
      names is the canonical order ([component_compare_canonical],
      [name_compare_order]); [matchesData] is the matching rule of the packet
      specification ([interest_matches_data]), and looking up in the storage
      finds a packet that answers an Interest exactly if there is one
      ([ims_find]); a link protocol packet is a multimap of fields
      ([lp_packet_refines_multimap]), control parameters are a partial map
      ([control_parameters_refines_map]), the context of a dataset is a
      machine that collects octets ([dataset_context_refines]), and a TPM is a
      map from names to keys ([tpm_refines_map]).
    - Equivalences of optimised and plain routines: [readNumber_fast_slow],
      [estimate_then_encode], [makeBinaryBlock_fast_slow], [hex_decode_chunks],
      and the two ways of signing a Data packet ([data_signing]); a backtracking
      matcher decides the language of its expression
      ([regex_match_language], with [regex_anchors] and [regex_from_name]), and
      a filter matches the names behind its prefix that are in it
      ([interest_filter_matches]);
      comparing entries with flags is equality of multisets
      ([entry_equality_multiset]).
    - Invariants over every sequence of operations, exceptions included:
      [block_invariant], [interest_invariant], the parameters digest
      ([interest_digest_maintained]), [ims_invariant], [lp_packet_invariant],
      [delegation_list_invariant], [scheduler_invariant], with the liveness of
      the scheduler ([scheduler_liveness]), each Interest of a face is answered
      at most once ([face_answers_once]) and never after it was cancelled
      ([face_cancel]), handlers do not compete
      ([dispatcher_unique_handler]), and the tables of the PIB stay together
      ([pib_memory_integrity]).
    - Security and transport: what a validator accepts is trusted
      ([validator_sound]), it decides once ([validator_answers_once]) and goes on
      without a failed assertion ([validator_progress]), for the policies without
      configuration other than the one for signed Interests; replayed commands
      are rejected ([command_interest_replay]); the rules of a configuration
      ([config_rules_typed], [config_first_match]) and the hierarchical checker
      ([hierarchical_checker_sound]); a segment fetcher delivers validated
      segments in order, with one outcome ([fetcher_delivers]).
    - Bounds: the time-out and the statistics of an RTT estimator
      ([rtt_bounds]).
    - Termination: [regex_compile_terminates], [status_dataset_parse],
      [fetcher_loops_end].
    - Functional behaviour: [block_parse_spec], [component_successor],
      [name_successor], [name_ranges], [meta_info_decode],
      [signature_info_custom_tlvs], the grammar the Data decoder accepts
      ([data_decode_grammar]), inserting into and erasing from the storage
      ([ims_insert], [ims_erase]), what the policies evict
      ([ims_replacement_order]), what groups of an expression capture
      ([regex_captures]), what a run of the scheduler executes
      ([scheduler_run]), the rounding of validity periods
      ([validity_period_rounding]), what control commands accept
      ([control_command_requests]), which callbacks a Data packet or a Nack
      reaches ([face_data_dispatch], [face_least_severe_nack]), and the numbers
      of notifications ([dispatcher_notification_sequence]).
    - Error paths and edges, several of which depart from the documentation:
      [readVarNumber_truncated], [block_parse_failure],
      [component_compare_nonminimal], [name_decode_unchecked],
      [name_successor_not_adjacent], [name_range_wraparound],
      [signature_info_cached_type], [interest_setSignatureInfo_partial],
      [interest_isSigned_throws], [interest_lifetime_negative],
      [ims_small_limit], [regex_empty_repetition],
      [prefix_announcement_unsigned], [validity_period_before_epoch],
      [lp_lone_fragment], [control_flag_bits], [face_nack_assertion],
      [face_cancel_registration], [dispatcher_short_command],
      [signed_interest_double_failure], [command_interest_accepted_twice],
      [static_anchor_removed], [pib_remove_key_default], [pib_remove_identity],
      [keychain_prefix_certificate], [stale_capture_accepts] and
      [fetcher_flight_undercount].

    ** What is not modelled

    Printing to streams; iterators and hashing; [Interest::extractSignedRanges],
    which compares pointers into one buffer; the tags of packets other than
    those a face reads and writes; the controller of management; FaceUri.
    Transports, clocks, logging, the SQLite back end of the PIB, the file and
    keychain back ends of the TPM, the transforms around OpenSSL, the
    operating-system side of [net] and the command-line tools are I/O, foreign
    code or glue. *)

From Stdlib Require Export ZArith Lia.
From Stdlib Require Import Init.Byte Strings.Byte Strings.String Sorting.Sorted.
From stdpp Require Export prelude strings countable.

#[global] Open Scope Z_scope.

(** ** Octets

    A [uint8_t] is a [Byte.byte], so every byte of the model is in range by
    typing; [b2z] and [z2b] are the conversions to and from mathematical
    integers, [z2b] truncating like a [static_cast<uint8_t>]. *)

Abbreviation byte := Byte.byte.
Abbreviation bytes := (list Byte.byte).

Definition b2z (b : byte) : Z := Z.of_N (Byte.to_N b).

Definition z2b (z : Z) : byte :=
  default Byte.x00 (Byte.of_N (Z.to_N (z mod 256))).

(** A C++ string literal (or a [std::string]) as its octets. *)
Definition str (s : string) : bytes := String.list_byte_of_string s.

(** The size of a byte range, as [size_t]. *)
Definition len {A} (l : list A) : Z := Z.of_nat (length l).

#[export] Instance byte_eq_dec : EqDecision byte := Byte.byte_eq_dec.

#[export] Program Instance byte_countable : Countable byte :=
  inj_countable Byte.to_N Byte.of_N _.
Next Obligation. intros b. apply Byte.of_to_N. Qed.

(** ** Machine widths *)

Definition UINT8_MAX : Z := 255.
Definition UINT16_MAX : Z := 65535.
Definition UINT32_MAX : Z := 4294967295.
Definition UINT64_MAX : Z := 18446744073709551615.

Definition u32 (z : Z) : Z := z mod 2 ^ 32.
Definition u64 (z : Z) : Z := z mod 2 ^ 64.

(** [static_cast<int32_t>] of a value modulo 2^32. *)
Definition i32 (z : Z) : Z := (z + 2 ^ 31) mod 2 ^ 32 - 2 ^ 31.

(** [static_cast<int64_t>] of a value modulo 2^64. *)
Definition i64 (z : Z) : Z := (z + 2 ^ 63) mod 2 ^ 64 - 2 ^ 63.

(** ** Big-endian numbers

    [be_bytes n z] is the memory image of [native_to_big] applied to an
    [8*n]-bit unsigned integer; [be_number] is the value that
    [big_to_native] gives to such an image. *)

Fixpoint be_bytes (n : nat) (z : Z) : bytes :=
  match n with
  | O => []
  | S k => z2b (Z.shiftr z (8 * Z.of_nat k)) :: be_bytes k z
  end.

Definition be_number (bs : bytes) : Z :=
  foldl (fun acc b => Z.lor (Z.shiftl acc 8) (b2z b)) 0 bs.

(** ** Exceptions

    Throwing code returns a [result].  The class of the exception is kept,
    since callers dispatch on it; of the message only the fixed part is. *)

Inductive exn :=
| TlvError (what : string)            (* ndn::tlv::Error *)
| BlockError (what : string)          (* ndn::Block::Error, a tlv::Error *)
| ComponentError (what : string)      (* ndn::name::Component::Error, a Block::Error *)
| NameError (what : string)           (* ndn::Name::Error, a tlv::Error *)
| PacketError (what : string)         (* the Error class of a packet field or packet, a tlv::Error *)
| InvalidArgument (what : string)     (* std::invalid_argument *)
| OutOfRange (what : string)          (* std::out_of_range *)
| RegexError (what : string)          (* ndn::RegexMatcher::Error, a std::runtime_error *)
| BadCast (what : string)             (* std::bad_cast and boost::bad_lexical_cast *)
| LogicError (what : string)          (* other std::logic_error, such as std::domain_error *)
| PibError (what : string)            (* ndn::security::Pib::Error, a std::runtime_error *)
| TpmError (what : string)            (* ndn::security::Tpm::Error, a std::runtime_error *)
| KeyChainError (what : string)       (* ndn::security::KeyChain::Error, a std::runtime_error *)
| RuntimeError (what : string).       (* other std::runtime_error *)

Inductive result (A : Type) :=
| Ok (a : A)
| Throw (e : exn).
Arguments Ok {A} a.
Arguments Throw {A} e.

#[export] Instance result_ret : MRet result := @Ok.
#[export] Instance result_bind : MBind result := fun A B f m =>
  match m with Ok a => f a | Throw e => Throw e end.
#[export] Instance result_fmap : FMap result := fun A B f m =>
  match m with Ok a => Ok (f a) | Throw e => Throw e end.

(** [if (c) NDN_THROW(e);] *)
Definition throw_if (c : bool) (e : exn) : result unit :=
  if c then Throw e else Ok tt.

(** Whether [catch (const tlv::Error&)] catches the exception. *)
Definition is_tlv_error (e : exn) : bool :=
  match e with
  | TlvError _ | BlockError _ | ComponentError _ | NameError _ | PacketError _ => true
  | _ => false
  end.

Definition is_Ok {A} (r : result A) : bool :=
  match r with Ok _ => true | Throw _ => false end.

Fixpoint mapR {A B} (f : A -> result B) (l : list A) : result (list B) :=
  match l with
  | [] => Ok []
  | x :: xs => y ← f x; ys ← mapR f xs; Ok (y :: ys)
  end.

(** ** Mutable objects

    A member function that may throw is a state transformer on the fields of
    its object: it returns the object as it is when the call ends, together
    with the value or the exception, so that the state left behind by an
    exception is part of the model. *)

Definition M (S A : Type) : Type := S -> S * result A.

#[export] Instance M_ret S : MRet (M S) := fun A a s => (s, Ok a).
#[export] Instance M_bind S : MBind (M S) := fun A B f m s =>
  match m s with
  | (s', Ok a) => f a s'
  | (s', Throw e) => (s', Throw e)
  end.

Definition liftR {S A} (r : result A) : M S A := fun s => (s, r).
Definition self {S} : M S S := fun s => (s, Ok s).
Definition modify {S} (f : S -> S) : M S unit := fun s => (f s, Ok tt).
Definition throwM {S A} (e : exn) : M S A := fun s => (s, Throw e).

(** [if (c) NDN_THROW(e);] *)
Definition throwM_if {S} (c : bool) (e : exn) : M S unit := liftR (throw_if c e).

(** A call on a member object. *)
Definition zoom {S T A} (get : S -> T) (set : T -> S -> S) (m : M T A) : M S A := fun s =>
  let '(t, r) := m (get s) in (set t s, r).

(** The object after a call that did not throw. *)
Definition exec {S A} (m : M S A) (s : S) : result S :=
  match m s with
  | (s', Ok _) => Ok s'
  | (_, Throw e) => Throw e
  end.

Fixpoint forM {S A} (l : list A) (f : A -> M S unit) : M S unit :=
  match l with
  | [] => mret tt
  | x :: l => _ ← f x; forM l f
  end.

(** ** Code that may not return

    A call changes the objects it can reach, ends normally or by an exception,
    or gives nothing: [None] is a call that has not returned within the depth
    of recursion it was given, or undefined behaviour. *)
Definition P (S A : Type) : Type := S -> option (S * result A).

#[export] Instance P_ret S : MRet (P S) := fun A a s => Some (s, Ok a).
#[export] Instance P_bind S : MBind (P S) := fun A B f m s =>
  match m s with
  | Some (s', Ok a) => f a s'
  | Some (s', Throw e) => Some (s', Throw e)
  | None => None
  end.

Definition liftP {S A} (r : result A) : P S A := fun s => Some (s, r).
Definition throwP {S A} (e : exn) : P S A := liftP (Throw e).
Definition modifyP {S} (f : S -> S) : P S unit := fun s => Some (f s, Ok tt).
Definition undefinedP {S A} : P S A := fun _ => None.

(** [BOOST_ASSERT] and what else has no defined result. *)
Definition definedP {S A} (x : option A) : P S A := fun s => match x with Some a => Some (s, Ok a) | None => None end.

Definition selfP {S} : P S S := fun s => Some (s, Ok s).

(** A member function of a part of the object. *)
Definition zoomP {S T A} (get : S -> T) (set : T -> S -> S) (m : M T A) : P S A := fun s =>
  let '(t, r) := m (get s) in Some (set t s, r).
Definition zoomPP {S T A} (get : S -> T) (set : T -> S -> S) (m : P T A) : P S A := fun s =>
  match m (get s) with Some (t, r) => Some (set t s, r) | None => None end.

(** [try { m } catch (const E&) { handler }], for the exceptions of a class *)
Definition catchP {S A} (caught : exn -> bool) (m handler : P S A) : P S A := fun s =>
  match m s with
  | Some (s', Throw e) => if caught e then handler s' else Some (s', Throw e)
  | r => r
  end.

(** ** A program logic for member functions

    [triple P m Q E]: called on an object in [P], the member function [m] ends
    normally in [Q], or throws and leaves an object in [E]. *)

Definition triple {S A} (P : S -> Prop) (m : M S A) (Q : A -> S -> Prop) (E : S -> Prop) : Prop :=
  forall s, P s -> match m s with (s', Ok a) => Q a s' | (s', Throw _) => E s' end.

(** [m] keeps the class invariant [I], also when it throws. *)
Definition keeps {S A} (I : S -> Prop) (m : M S A) : Prop := triple I m (fun _ => I) I.

Section triple.
Context {S A B : Type}.
Implicit Types (P E : S -> Prop) (m : M S A).

Lemma triple_conseq P P' m (Q Q' : A -> S -> Prop) E E' :
  (forall s, P s -> P' s) -> (forall a s, Q' a s -> Q a s) -> (forall s, E' s -> E s) ->
  triple P' m Q' E' -> triple P m Q E.
Proof.
  intros HP HQ HE H s Hs. specialize (H s (HP s Hs)). destruct (m s) as [s' [a|e]]; [by apply HQ|by apply HE].
Qed.

Lemma triple_bind P m (Q : A -> S -> Prop) (f : A -> M S B) R E :
  triple P m Q E -> (forall a, triple (Q a) (f a) R E) -> triple P (m ≫= f) R E.
Proof.
  intros Hm Hf s Hs. specialize (Hm s Hs). unfold mbind, M_bind.
  destruct (m s) as [s' [a|e]]; [by apply Hf|done].
Qed.

Lemma triple_ret P (a : A) (Q : A -> S -> Prop) E : (forall s, P s -> Q a s) -> triple P (mret a) Q E.
Proof. intros H s Hs. by apply H. Qed.

Lemma triple_self P (f : S -> M S B) R E :
  (forall o, P o -> triple (fun s => s = o) (f o) R E) -> triple P (self ≫= f) R E.
Proof. intros H s Hs. by apply (H s Hs s). Qed.

Lemma triple_modify P (g : S -> S) (Q : unit -> S -> Prop) E :
  (forall s, P s -> Q tt (g s)) -> triple P (modify g) Q E.
Proof. intros H s Hs. by apply H. Qed.

Lemma triple_lift P (r : result A) (Q : A -> S -> Prop) E :
  (forall s a, P s -> r = Ok a -> Q a s) -> (forall s, P s -> E s) -> triple P (liftR r) Q E.
Proof. intros HQ HE s Hs. unfold liftR. destruct r; [by apply HQ|by apply HE]. Qed.

Lemma triple_throw P e (Q : A -> S -> Prop) E : (forall s, P s -> E s) -> triple P (throwM e) Q E.
Proof. intros HE s Hs. by apply HE. Qed.

Lemma triple_throw_if P (c : bool) e (f : unit -> M S B) R E :
  (c = true -> forall s, P s -> E s) -> (c = false -> triple P (f tt) R E) ->
  triple P (throwM_if c e ≫= f) R E.
Proof. intros HE Hf s Hs. destruct c; [by apply HE|by apply Hf]. Qed.

Lemma triple_run P m (Q : A -> S -> Prop) E s s' a :
  triple P m Q E -> P s -> m s = (s', Ok a) -> Q a s'.
Proof. intros H Hs Hm. specialize (H s Hs). by rewrite Hm in H. Qed.

Lemma keeps_run (I : S -> Prop) m s s' r : keeps I m -> I s -> m s = (s', r) -> I s'.
Proof. intros H Hs Hm. specialize (H s Hs). rewrite Hm in H. by destruct r. Qed.

Lemma keeps_bind (I : S -> Prop) m (f : A -> M S B) :
  keeps I m -> (forall a, keeps I (f a)) -> keeps I (m ≫= f).
Proof. apply triple_bind. Qed.

Lemma keeps_self (I : S -> Prop) (f : S -> M S B) :
  (forall o, I o -> keeps I (f o)) -> keeps I (self ≫= f).
Proof. intros H s Hs. by apply (H s Hs s). Qed.

Lemma keeps_throw_if (I : S -> Prop) (c : bool) e (f : unit -> M S B) :
  (c = false -> keeps I (f tt)) -> keeps I (throwM_if c e ≫= f).
Proof. intros H. by apply triple_throw_if. Qed.

Lemma keeps_ret (I : S -> Prop) (a : A) : keeps I (mret a).
Proof. by apply triple_ret. Qed.

Lemma keeps_lift (I : S -> Prop) (r : result A) : keeps I (liftR r).
Proof. by apply triple_lift. Qed.

Lemma keeps_throw (I : S -> Prop) e : keeps I (throwM (A := A) e).
Proof. by apply triple_throw. Qed.

Lemma keeps_modify (I : S -> Prop) (g : S -> S) : (forall s, I s -> I (g s)) -> keeps I (modify g).
Proof. intros H. by apply triple_modify. Qed.

Lemma keeps_if (I : S -> Prop) (c : bool) m m' :
  (c = true -> keeps I m) -> (c = false -> keeps I m') -> keeps I (if c then m else m').
Proof. destruct c; auto. Qed.

End triple.

Create HintDb keeps.
#[export] Hint Resolve keeps_throw_if keeps_ret keeps_lift keeps_throw keeps_modify keeps_if : keeps.

(** ** Tactics *)

(** Case analysis on every boolean test or [match] scrutinee of the goal. *)
Ltac case_all :=
  repeat (case_match; simplify_eq/=; try done).

(** Turns boolean comparisons of the context into propositions. *)
Ltac bool_to_prop :=
  repeat match goal with
  | H : (_ =? _) = true |- _ => apply Z.eqb_eq in H
  | H : (_ =? _) = false |- _ => apply Z.eqb_neq in H
  | H : (_ <? _) = true |- _ => apply Z.ltb_lt in H
  | H : (_ <? _) = false |- _ => apply Z.ltb_ge in H
  | H : (_ <=? _) = true |- _ => apply Z.leb_le in H
  | H : (_ <=? _) = false |- _ => apply Z.leb_gt in H
  | H : negb _ = true |- _ => apply negb_true_iff in H
  | H : negb _ = false |- _ => apply negb_false_iff in H
  | H : _ && _ = true |- _ => apply andb_true_iff in H as [? ?]
  | H : _ || _ = false |- _ => apply orb_false_iff in H as [? ?]
  end.

(** Reduces a [result] computation in a hypothesis to the branch that
    succeeded. *)
Ltac result_inv H :=
  repeat (unfold throw_if in H; simpl in H;
    match type of H with
    | context [match ?x with _ => _ end] => destruct x eqn:?; simplify_eq/=
    end); simplify_eq/=.

(** ** Facts on octets and numbers *)

Create HintDb octets.

Lemma b2z_range b : 0 <= b2z b < 256.
Proof.
  unfold b2z. pose proof (Byte.to_N_bounded b). lia.
Qed.

Lemma z2b_b2z b : z2b (b2z b) = b.
Proof.
  unfold z2b. pose proof (b2z_range b) as H. rewrite Z.mod_small by done.
  unfold b2z. by rewrite N2Z.id, Byte.of_to_N.
Qed.

Lemma b2z_z2b z : b2z (z2b z) = z mod 256.
Proof.
  unfold z2b. pose proof (Z.mod_pos_bound z 256 ltac:(lia)) as H.
  destruct (Byte.of_N (Z.to_N (z mod 256))) as [b|] eqn:E; simpl.
  - unfold b2z. rewrite (Byte.to_of_N _ E). lia.
  - apply Byte.of_N_None_iff in E. lia.
Qed.

Lemma b2z_inj a b : b2z a = b2z b -> a = b.
Proof. intros H. by rewrite <- (z2b_b2z a), <- (z2b_b2z b), H. Qed.

Lemma z2b_mod z : z2b (z mod 256) = z2b z.
Proof. apply b2z_inj. rewrite !b2z_z2b. apply Z.mod_mod. lia. Qed.

Lemma lor_shiftl8 a b : 0 <= b < 256 -> Z.lor (Z.shiftl a 8) b = a * 256 + b.
Proof.
  intros Hb. rewrite Z.shiftl_mul_pow2 by lia.
  change (2 ^ 8) with 256. rewrite <- Z.add_lor_land.
  assert (Z.land (a * 256) b = 0) as ->; [|lia].
  apply Z.bits_inj'. intros n Hn. rewrite Z.land_spec, Z.bits_0.
  change 256 with (2 ^ 8). destruct (decide (n < 8)).
  - by rewrite Z.mul_pow2_bits_low.
  - rewrite (Z.bits_above_log2 b n), andb_false_r; [done|lia|].
    destruct (decide (b = 0)) as [->|]; [simpl; lia|].
    apply Z.log2_lt_pow2; [lia|]. apply Z.lt_le_trans with 256; [lia|].
    change 256 with (2 ^ 8). apply Z.pow_le_mono_r; lia.
Qed.

Lemma be_step acc b : Z.lor (Z.shiftl acc 8) (b2z b) = acc * 256 + b2z b.
Proof. apply lor_shiftl8, b2z_range. Qed.

Lemma len_nonneg {A} (l : list A) : 0 <= len l.
Proof. unfold len; lia. Qed.

Lemma len_app {A} (l k : list A) : len (l ++ k) = len l + len k.
Proof. unfold len. rewrite length_app. lia. Qed.

Lemma len_cons {A} (x : A) l : len (x :: l) = 1 + len l.
Proof. unfold len. simpl. lia. Qed.

Lemma len_nil {A} : len (@nil A) = 0.
Proof. done. Qed.

Lemma len_zero {A} (l : list A) : len l = 0 -> l = [].
Proof. unfold len. destruct l; simpl; [done|lia]. Qed.

Lemma to_nat_len {A} (l : list A) : Z.to_nat (len l) = length l.
Proof. unfold len. apply Nat2Z.id. Qed.

#[export] Hint Rewrite @len_app @len_cons @len_nil : len.
#[export] Hint Resolve len_nonneg : octets.

Lemma length_be_bytes n z : length (be_bytes n z) = n.
Proof. induction n; simpl; auto. Qed.

Lemma len_be_bytes n z : len (be_bytes n z) = Z.of_nat n.
Proof. unfold len. by rewrite length_be_bytes. Qed.
#[export] Hint Rewrite len_be_bytes : len.

Lemma be_number_acc bs acc :
  foldl (fun acc b => Z.lor (Z.shiftl acc 8) (b2z b)) acc bs
  = acc * 256 ^ len bs + be_number bs.
Proof.
  unfold be_number. revert acc. induction bs as [|b bs IH]; intros acc.
  - simpl. rewrite len_nil. lia.
  - cbn [foldl]. rewrite !be_step, IH, (IH (0 * 256 + b2z b)).
    rewrite len_cons, Z.pow_add_r by (try apply len_nonneg; lia).
    rewrite Z.pow_1_r. ring.
Qed.

Lemma be_number_cons b bs : be_number (b :: bs) = b2z b * 256 ^ len bs + be_number bs.
Proof.
  unfold be_number at 1. cbn [foldl].
  rewrite be_step, be_number_acc. simpl. ring.
Qed.

Lemma be_number_app l k : be_number (l ++ k) = be_number l * 256 ^ len k + be_number k.
Proof. unfold be_number at 1. rewrite foldl_app. apply be_number_acc. Qed.

Lemma be_number_range bs : 0 <= be_number bs < 256 ^ len bs.
Proof.
  induction bs as [|b bs IH]; [by vm_compute|].
  rewrite be_number_cons, len_cons, Z.pow_add_r by (try apply len_nonneg; lia).
  rewrite Z.pow_1_r. pose proof (b2z_range b). nia.
Qed.

Lemma be_number_bytes n z : be_number (be_bytes n z) = z mod 256 ^ Z.of_nat n.
Proof.
  induction n as [|n IH]; [simpl; by rewrite Z.mod_1_r|].
  simpl be_bytes. rewrite be_number_cons, IH, b2z_z2b, len_be_bytes.
  rewrite Z.shiftr_div_pow2 by lia.
  rewrite Z.pow_mul_r by lia. change (2 ^ 8) with 256.
  rewrite Nat2Z.inj_succ, Z.pow_succ_r, (Z.mul_comm 256) by lia.
  rewrite Z.rem_mul_r by (try apply Z.pow_nonzero; lia). ring.
Qed.

Lemma be_bytes_app n k z :
  be_bytes (n + k) z = be_bytes n (Z.shiftr z (8 * Z.of_nat k)) ++ be_bytes k z.
Proof.
  induction n as [|n IH]; [done|]. simpl. rewrite IH, Z.shiftr_shiftr by lia.
  repeat f_equal. lia.
Qed.

Lemma be_bytes_number bs : be_bytes (length bs) (be_number bs) = bs.
Proof.
  induction bs as [|b bs IH] using rev_ind; [done|].
  rewrite length_app, be_bytes_app. simpl length. f_equal.
  - rewrite be_number_app. change (len [b]) with 1. rewrite Z.shiftr_div_pow2 by lia.
    change (2 ^ (8 * Z.of_nat 1)) with 256. change (256 ^ 1) with 256.
    pose proof (be_number_range [b]) as Hr. change (256 ^ len [b]) with 256 in Hr.
    rewrite Z.div_add_l, (Z.div_small (be_number [b])), Z.add_0_r by lia. done.
  - simpl. f_equal. apply b2z_inj. rewrite b2z_z2b, Z.shiftr_0_r, be_number_app.
    change (len [b]) with 1. change (256 ^ 1) with 256.
    rewrite be_number_cons. change (be_number []) with 0. rewrite len_nil.
    rewrite Z.add_comm, Z.mod_add by lia. rewrite Z.mul_1_r, Z.add_0_r.
    apply Z.mod_small, b2z_range.
Qed.

Lemma be_number_inj l k : length l = length k -> be_number l = be_number k -> l = k.
Proof.
  intros Hl Hn. rewrite <- (be_bytes_number l), <- (be_bytes_number k). congruence.
Qed.

(** ** Algorithms of the standard library *)

(** [std::upper_bound] on a range that [comp value] partitions: the first
    position whose element is greater than the value. *)
Fixpoint upper_bound {A V} (comp : V -> A -> bool) (value : V) (l : list A) : nat :=
  match l with
  | [] => 0
  | x :: l => if comp value x then 0 else S (upper_bound comp value l)
  end.

Lemma upper_bound_split {A V} (comp : V -> A -> bool) v l : exists a b,
  l = a ++ b /\ upper_bound comp v l = length a /\ Forall (fun x => comp v x = false) a /\
  match b with x :: _ => comp v x = true | [] => True end.
Proof.
  induction l as [|x l IH]; [by exists [], []|]. cbn. destruct (comp v x) eqn:E; [by exists [], (x :: l)|].
  destruct IH as (a & b & -> & -> & Ha & Hb). exists (x :: a), b. split_and!; [done..|by constructor|done].
Qed.

(** ** A program logic for [P] *)

Lemma bindP_run {S A B} (m : P S A) (k : A -> P S B) s s' a : m s = Some (s', Ok a) -> (m ≫= k) s = k a s'.
Proof. intros H. unfold mbind, P_bind. by rewrite H. Qed.

Section logicP.
Context {S : Type}.

(** From a state with [pre], [m] ends normally with [post], or throws with
    [exc], or does not end in a defined way. *)
Definition tripleP {A} (pre : S -> Prop) (m : P S A) (post : A -> S -> Prop) (exc : S -> Prop) : Prop :=
  forall s, pre s -> match m s with
                     | Some (s', Ok a) => post a s'
                     | Some (s', Throw _) => exc s'
                     | None => True
                     end.

Lemma tripleP_bind {A B} pre (m : P S A) (k : A -> P S B) mid post exc :
  tripleP pre m mid exc -> (forall a, tripleP (mid a) (k a) post exc) -> tripleP pre (m ≫= k) post exc.
Proof.
  intros Hm Hk s Hs. specialize (Hm s Hs). unfold mbind, P_bind. destruct (m s) as [[s' [a|e]]|]; [|done..]. by apply Hk.
Qed.

Lemma tripleP_conseq {A} (pre pre' : S -> Prop) (m : P S A) (post post' : A -> S -> Prop) (exc exc' : S -> Prop) :
  tripleP pre m post exc -> (forall s, pre' s -> pre s) -> (forall a s, post a s -> post' a s) -> (forall s, exc s -> exc' s) ->
  tripleP pre' m post' exc'.
Proof.
  intros H H1 H2 H3 s Hs. specialize (H s (H1 s Hs)). destruct (m s) as [[s' [a|e]]|]; auto.
Qed.

Lemma tripleP_ret {A} (a : A) post exc : tripleP (post a) (mret a) post exc.
Proof. by intros s Hs. Qed.

Lemma tripleP_lift {A} (r : result A) (pre exc : S -> Prop) : (forall s, pre s -> exc s) -> tripleP pre (liftP r) (fun _ => pre) exc.
Proof. intros H s Hs. unfold liftP. destruct r; auto. Qed.

Lemma tripleP_self pre exc : tripleP pre selfP (fun a s => a = s /\ pre s) exc.
Proof. by intros s Hs. Qed.

Lemma tripleP_defined {A} (x : option A) pre exc : tripleP pre (definedP x) (fun a s => x = Some a /\ pre s) exc.
Proof. intros s Hs. unfold definedP. by destruct x. Qed.

Lemma tripleP_modify (f : S -> S) (pre : S -> Prop) (post exc : S -> Prop) : (forall s, pre s -> post (f s)) -> tripleP pre (modifyP f) (fun _ => post) exc.
Proof. intros H s Hs. cbn. auto. Qed.

End logicP.

(** ** Total correctness for [P] *)

Section totalP.
Context {S : Type}.

(** From a state with [pre], [m] does end in a defined way: normally with
    [post], or throwing with [exc]. *)
Definition totalP {A} (pre : S -> Prop) (m : P S A) (post : A -> S -> Prop) (exc : S -> Prop) : Prop :=
  forall s, pre s -> exists s' r, m s = Some (s', r) /\ match r with Ok a => post a s' | Throw _ => exc s' end.

Lemma totalP_bind {A B} pre (m : P S A) (k : A -> P S B) mid post exc :
  totalP pre m mid exc -> (forall a, totalP (mid a) (k a) post exc) -> totalP pre (m ≫= k) post exc.
Proof.
  intros Hm Hk s Hs. destruct (Hm s Hs) as (s1 & r & E & H1). unfold mbind, P_bind. rewrite E.
  destruct r as [a|e]; [exact (Hk a s1 H1)|]. by exists s1, (Throw e).
Qed.

Lemma totalP_conseq {A} (pre pre' : S -> Prop) (m : P S A) (post post' : A -> S -> Prop) (exc exc' : S -> Prop) :
  totalP pre m post exc -> (forall s, pre' s -> pre s) -> (forall a s, post a s -> post' a s) -> (forall s, exc s -> exc' s) ->
  totalP pre' m post' exc'.
Proof. intros H H1 H2 H3 s Hs. destruct (H s (H1 s Hs)) as (s' & r & E & Hr). exists s', r. split; [done|]. destruct r; auto. Qed.

Lemma totalP_ret {A} (a : A) (post : A -> S -> Prop) exc : totalP (post a) (mret a) post exc.
Proof. intros s Hs. by exists s, (Ok a). Qed.

Lemma totalP_lift {A} (r : result A) (pre exc : S -> Prop) : (forall s, pre s -> exc s) -> totalP pre (liftP r) (fun a s => r = Ok a /\ pre s) exc.
Proof. intros H s Hs. exists s, r. split; [done|]. destruct r; auto. Qed.

Lemma totalP_self (pre exc : S -> Prop) : totalP pre selfP (fun a s => a = s /\ pre s) exc.
Proof. intros s Hs. by exists s, (Ok s). Qed.

Lemma totalP_modify (f : S -> S) (pre post exc : S -> Prop) : (forall s, pre s -> post (f s)) -> totalP pre (modifyP f) (fun _ => post) exc.
Proof. intros H s Hs. exists (f s), (Ok tt). auto. Qed.

Lemma totalP_defined {A B} (a : A) (k : A -> P S B) pre post exc : totalP pre (k a) post exc -> totalP pre (definedP (Some a) ≫= k) post exc.
Proof. done. Qed.

Lemma zoomPP_run {T A} (get : S -> T) (set : T -> S -> S) (m : P T A) s t r : m (get s) = Some (t, r) -> zoomPP get set m s = Some (set t s, r).
Proof. intros E. unfold zoomPP. by rewrite E. Qed.

Lemma zoomP_run {T A} (get : S -> T) (set : T -> S -> S) (m : M T A) s t r : m (get s) = (t, r) -> zoomP get set m s = Some (set t s, r).
Proof. intros E. unfold zoomP. by rewrite E. Qed.

End totalP.

Lemma alter_last {A} (f : A -> A) l x : alter f (length l) (l ++ [x]) = l ++ [f x].
Proof. by rewrite <- (Nat.add_0_r (length l)), alter_app_r. Qed.

(** ** Sublists *)

Lemma Forall_sublist {A} (Q : A -> Prop) (l k : list A) : l `sublist_of` k -> Forall Q k -> Forall Q l.
Proof.
  intros Hl Hk. apply Forall_forall. intros x Hx. rewrite Forall_forall in Hk. apply Hk, list_elem_of_In.
  eapply elem_of_sublist; [by apply list_elem_of_In|done].
Qed.

Lemma StronglySorted_sublist {A} (R : A -> A -> Prop) (l k : list A) : l `sublist_of` k -> StronglySorted R k -> StronglySorted R l.
Proof.
  induction 1 as [|x l k Hlk IH|x l k Hlk IH]; intros Hs; [constructor| |];
    apply StronglySorted_inv in Hs as [Hs Hx]; [|by apply IH].
  constructor; [by apply IH|]. by eapply Forall_sublist.
Qed.

Lemma filterb_sublist {A} (f : A -> bool) (l : list A) : List.filter f l `sublist_of` l.
Proof. induction l as [|x l IH]; cbn; [done|]. destruct (f x); by constructor. Qed.

(** ** Facts on results *)

Lemma mapR_app {A B} (f : A -> result B) l k :
  mapR f (l ++ k) = (x ← mapR f l; y ← mapR f k; Ok (x ++ y)).
Proof.
  induction l as [|a l IH]; simpl.
  - by destruct (mapR f k).
  - destruct (f a); simpl; [|done]. rewrite IH.
    destruct (mapR f l); simpl; [|done]. by destruct (mapR f k).
Qed.

Lemma mapR_map {A B} (f : A -> result B) (g : B -> A) l :
  (forall x, x ∈ l -> f (g x) = Ok x) -> mapR f (map g l) = Ok l.
Proof.
  induction l as [|a l IH]; intros H; [done|]. simpl.
  rewrite H by set_solver. simpl. rewrite IH; [done|set_solver].
Qed.
