(* ===== verification/Tlv.v ===== *)
(** TLV numbers of [ndn-cxx/encoding/tlv.hpp]: TLV-TYPE assignments,
    VAR-NUMBER and NonNegativeInteger readers, writers and size functions.

    An iterator range [[begin, end)] is the list of octets it delimits; a
    reader that moves [begin] forward returns the octets that are left. *)

From S2P Require Import Prelude.

Module tlv.

(** [ndn-cxx/encoding/tlv.hpp:41-41] MAX_NDN_PACKET_SIZE *)
Definition MAX_NDN_PACKET_SIZE : Z := 8800.

(** [ndn-cxx/encoding/tlv.hpp:64-64] tlv::Invalid *)
Definition Invalid : Z := 0.
(** [ndn-cxx/encoding/tlv.hpp:65-65] tlv::Interest *)
Definition Interest : Z := 5.
(** [ndn-cxx/encoding/tlv.hpp:66-66] tlv::Data *)
Definition Data : Z := 6.
(** [ndn-cxx/encoding/tlv.hpp:67-67] tlv::Name *)
Definition Name : Z := 7.
(** [ndn-cxx/encoding/tlv.hpp:68-68] tlv::GenericNameComponent *)
Definition GenericNameComponent : Z := 8.
(** [ndn-cxx/encoding/tlv.hpp:69-69] tlv::ImplicitSha256DigestComponent *)
Definition ImplicitSha256DigestComponent : Z := 1.
(** [ndn-cxx/encoding/tlv.hpp:70-70] tlv::ParametersSha256DigestComponent *)
Definition ParametersSha256DigestComponent : Z := 2.
(** [ndn-cxx/encoding/tlv.hpp:71-71] tlv::CanBePrefix *)
Definition CanBePrefix : Z := 33.
(** [ndn-cxx/encoding/tlv.hpp:72-72] tlv::MustBeFresh *)
Definition MustBeFresh : Z := 18.
(** [ndn-cxx/encoding/tlv.hpp:73-73] tlv::ForwardingHint *)
Definition ForwardingHint : Z := 30.
(** [ndn-cxx/encoding/tlv.hpp:74-74] tlv::Nonce *)
Definition Nonce : Z := 10.
(** [ndn-cxx/encoding/tlv.hpp:75-75] tlv::InterestLifetime *)
Definition InterestLifetime : Z := 12.
(** [ndn-cxx/encoding/tlv.hpp:76-76] tlv::HopLimit *)
Definition HopLimit : Z := 34.
(** [ndn-cxx/encoding/tlv.hpp:77-77] tlv::ApplicationParameters *)
Definition ApplicationParameters : Z := 36.
(** [ndn-cxx/encoding/tlv.hpp:78-78] tlv::InterestSignatureInfo *)
Definition InterestSignatureInfo : Z := 44.
(** [ndn-cxx/encoding/tlv.hpp:79-79] tlv::InterestSignatureValue *)
Definition InterestSignatureValue : Z := 46.
(** [ndn-cxx/encoding/tlv.hpp:80-80] tlv::MetaInfo *)
Definition MetaInfo : Z := 20.
(** [ndn-cxx/encoding/tlv.hpp:81-81] tlv::Content *)
Definition Content : Z := 21.
(** [ndn-cxx/encoding/tlv.hpp:82-82] tlv::SignatureInfo *)
Definition SignatureInfo : Z := 22.
(** [ndn-cxx/encoding/tlv.hpp:83-83] tlv::SignatureValue *)
Definition SignatureValue : Z := 23.
(** [ndn-cxx/encoding/tlv.hpp:84-84] tlv::ContentType *)
Definition ContentType : Z := 24.
(** [ndn-cxx/encoding/tlv.hpp:85-85] tlv::FreshnessPeriod *)
Definition FreshnessPeriod : Z := 25.
(** [ndn-cxx/encoding/tlv.hpp:86-86] tlv::FinalBlockId *)
Definition FinalBlockId : Z := 26.
(** [ndn-cxx/encoding/tlv.hpp:87-87] tlv::SignatureType *)
Definition SignatureType : Z := 27.
(** [ndn-cxx/encoding/tlv.hpp:88-88] tlv::KeyLocator *)
Definition KeyLocator : Z := 28.
(** [ndn-cxx/encoding/tlv.hpp:89-89] tlv::KeyDigest *)
Definition KeyDigest : Z := 29.
(** [ndn-cxx/encoding/tlv.hpp:90-90] tlv::SignatureNonce *)
Definition SignatureNonce : Z := 38.
(** [ndn-cxx/encoding/tlv.hpp:91-91] tlv::SignatureTime *)
Definition SignatureTime : Z := 40.
(** [ndn-cxx/encoding/tlv.hpp:92-92] tlv::SignatureSeqNum *)
Definition SignatureSeqNum : Z := 42.
(** [ndn-cxx/encoding/tlv.hpp:96-96] tlv::NameComponentMin *)
Definition NameComponentMin : Z := 1.
(** [ndn-cxx/encoding/tlv.hpp:97-97] tlv::NameComponentMax *)
Definition NameComponentMax : Z := 65535.
(** [ndn-cxx/encoding/tlv.hpp:121-121] tlv::SegmentNameComponent *)
Definition SegmentNameComponent : Z := 50.
(** [ndn-cxx/encoding/tlv.hpp:122-122] tlv::ByteOffsetNameComponent *)
Definition ByteOffsetNameComponent : Z := 52.
(** [ndn-cxx/encoding/tlv.hpp:123-123] tlv::VersionNameComponent *)
Definition VersionNameComponent : Z := 54.
(** [ndn-cxx/encoding/tlv.hpp:124-124] tlv::TimestampNameComponent *)
Definition TimestampNameComponent : Z := 56.
(** [ndn-cxx/encoding/tlv.hpp:125-125] tlv::SequenceNumNameComponent *)
Definition SequenceNumNameComponent : Z := 58.

(** [ndn-cxx/encoding/tlv.hpp:181-185] tlv::isCriticalType *)
Definition isCriticalType (type : Z) : bool :=
  (type <=? 31) || negb (Z.land type 1 =? 0).

(** [ndn-cxx/encoding/tlv.hpp:306-320] detail::ReadNumberSlow
    The result is the returned flag, the number and the octets left. *)
Fixpoint readNumberSlow_loop (size : nat) (number : Z) (rest : bytes) : bool * Z * bytes :=
  match size, rest with
  | O, _ => (true, number, rest)
  | S _, [] => (false, number, [])
  | S k, b :: rest' =>
      readNumberSlow_loop k (u64 (Z.lor (Z.shiftl number 8) (b2z b))) rest'
  end.

(** [ndn-cxx/encoding/tlv.hpp:309-319] detail::ReadNumberSlow::operator() *)
Definition readNumberSlow (size : nat) (rest : bytes) : bool * Z * bytes :=
  readNumberSlow_loop size 0 rest.

(** [ndn-cxx/encoding/tlv.hpp:324-367] detail::ReadNumberFast
    Only sizes 1, 2, 4 and 8 reach the switch; the default branch is
    unreachable in the source and fails here. *)
Definition readNumberFast (size : nat) (rest : bytes) : bool * Z * bytes :=
  if (length rest <? size)%nat then (false, 0, rest)
  else match size with
       | 1%nat => (true, be_number (take 1 rest), drop 1 rest)
       | 2%nat => (true, be_number (take 2 rest), drop 2 rest)
       | 4%nat => (true, be_number (take 4 rest), drop 4 rest)
       | 8%nat => (true, be_number (take 8 rest), drop 8 rest)
       | _ => (false, 0, rest)
       end.

(** [ndn-cxx/encoding/tlv.hpp:387-391] detail::ReadNumber
    The buffers of this library are contiguous, which selects the fast
    reader; [None] is the returned [false], after which no caller looks at
    the output parameters. *)
Definition readNumber (size : nat) (rest : bytes) : option (Z * bytes) :=
  match readNumberFast size rest with
  | (true, number, rest') => Some (number, rest')
  | (false, _, _) => None
  end.

(** [ndn-cxx/encoding/tlv.hpp:395-412] tlv::readVarNumber (noexcept) *)
Definition readVarNumber_noexcept (rest : bytes) : option (Z * bytes) :=
  match rest with
  | [] => None
  | b :: rest' =>
      let firstOctet := b2z b in
      if firstOctet <? 253 then Some (firstOctet, rest')
      else
        let size := if firstOctet =? 253 then 2%nat
                    else if firstOctet =? 254 then 4%nat else 8%nat in
        readNumber size rest'
  end.

(** [ndn-cxx/encoding/tlv.hpp:414-426] tlv::readType (noexcept) *)
Definition readType_noexcept (rest : bytes) : option (Z * bytes) :=
  match readVarNumber_noexcept rest with
  | None => None
  | Some (number, rest') =>
      if (number =? Invalid) || (UINT32_MAX <? number) then None
      else Some (number, rest')
  end.

(** [ndn-cxx/encoding/tlv.hpp:428-443] tlv::readVarNumber *)
Definition readVarNumber (rest : bytes) : result (Z * bytes) :=
  match rest with
  | [] => Throw (TlvError "Empty buffer during TLV parsing")
  | _ =>
      match readVarNumber_noexcept rest with
      | None => Throw (TlvError "Insufficient data during TLV parsing")
      | Some r => Ok r
      end
  end.

(** [ndn-cxx/encoding/tlv.hpp:445-455] tlv::readType *)
Definition readType (rest : bytes) : result (Z * bytes) :=
  '(type, rest') ← readVarNumber rest;
  _ ← throw_if ((type =? Invalid) || (UINT32_MAX <? type)) (TlvError "Illegal TLV-TYPE");
  Ok (type, rest').

(** [ndn-cxx/encoding/tlv.hpp:457-463] tlv::sizeOfVarNumber *)
Definition sizeOfVarNumber (number : Z) : Z :=
  if number <? 253 then 1
  else if number <=? UINT16_MAX then 3
  else if number <=? UINT32_MAX then 5 else 9.

(** [ndn-cxx/encoding/tlv.hpp:465-490] tlv::writeVarNumber
    The octets put on the stream; the returned length is theirs. *)
Definition writeVarNumber (number : Z) : bytes :=
  if number <? 253 then [z2b number]
  else if number <=? UINT16_MAX then z2b 253 :: be_bytes 2 number
  else if number <=? UINT32_MAX then z2b 254 :: be_bytes 4 number
  else z2b 255 :: be_bytes 8 number.

(** [ndn-cxx/encoding/tlv.hpp:492-507] tlv::readNonNegativeInteger *)
Definition readNonNegativeInteger (size : Z) (rest : bytes) : result (Z * bytes) :=
  _ ← throw_if (negb (size =? 1) && negb (size =? 2) && negb (size =? 4) && negb (size =? 8))
        (TlvError "Invalid length for NonNegativeInteger");
  match readNumber (Z.to_nat size) rest with
  | None => Throw (TlvError "Insufficient data during NonNegativeInteger parsing")
  | Some r => Ok r
  end.

(** [ndn-cxx/encoding/tlv.hpp:509-515] tlv::sizeOfNonNegativeInteger *)
Definition sizeOfNonNegativeInteger (integer : Z) : Z :=
  if integer <=? UINT8_MAX then 1
  else if integer <=? UINT16_MAX then 2
  else if integer <=? UINT32_MAX then 4 else 8.

(** [ndn-cxx/encoding/tlv.hpp:517-539] tlv::writeNonNegativeInteger *)
Definition writeNonNegativeInteger (integer : Z) : bytes :=
  if integer <=? UINT8_MAX then [z2b integer]
  else if integer <=? UINT16_MAX then be_bytes 2 integer
  else if integer <=? UINT32_MAX then be_bytes 4 integer
  else be_bytes 8 integer.

End tlv.

(** ** Lemmas *)

(** A number a [uint64_t] holds, and a legal TLV-TYPE. *)
Definition is_u64 (z : Z) : Prop := 0 <= z <= UINT64_MAX.
Definition is_tlv_type (z : Z) : Prop := 0 < z <= UINT32_MAX.

#[export] Instance is_u64_dec z : Decision (is_u64 z).
Proof. unfold is_u64. apply _. Defined.
#[export] Instance is_tlv_type_dec z : Decision (is_tlv_type z).
Proof. unfold is_tlv_type. apply _. Defined.

Ltac width := unfold is_u64, is_tlv_type, UINT8_MAX, UINT16_MAX, UINT32_MAX, UINT64_MAX in *.

Section tlv_facts.
Import tlv.

Lemma is_tlv_type_u64 z : is_tlv_type z -> is_u64 z.
Proof. width. lia. Qed.

Lemma legal_type_check n : is_tlv_type n -> (n =? Invalid) || (UINT32_MAX <? n) = false.
Proof. unfold Invalid. width. lia. Qed.

Lemma readNumberSlow_loop_spec size : forall acc rest,
  0 <= acc -> (size <= length rest)%nat -> acc * 256 ^ Z.of_nat size + 256 ^ Z.of_nat size <= 2 ^ 64 ->
  readNumberSlow_loop size acc rest
  = (true, acc * 256 ^ Z.of_nat size + be_number (take size rest), drop size rest).
Proof.
  induction size as [|k IH]; intros acc rest Hacc Hlen Hb.
  - simpl. rewrite drop_0. f_equal. f_equal.
    rewrite take_0. change (be_number []) with 0. lia.
  - destruct rest as [|b rest]; simpl in Hlen; [lia|].
    rewrite Nat2Z.inj_succ, Z.pow_succ_r in Hb |- * by lia.
    pose proof (b2z_range b) as Hr.
    assert (0 < 256 ^ Z.of_nat k) by (apply Z.pow_pos_nonneg; lia).
    cbn [readNumberSlow_loop take drop]. rewrite be_step.
    unfold u64. rewrite Z.mod_small by nia.
    rewrite IH by (try lia; nia).
    rewrite be_number_cons. do 2 f_equal.
    unfold len. rewrite length_take_le by lia. ring.
Qed.

Lemma readNumberSlow_loop_short size : forall acc rest,
  (length rest < size)%nat -> fst (fst (readNumberSlow_loop size acc rest)) = false.
Proof.
  induction size as [|k IH]; intros acc rest H; [lia|].
  destruct rest as [|b rest]; simpl in *; [done|]. apply IH. lia.
Qed.

Lemma readNumber_spec size rest : size ∈ [1; 2; 4; 8]%nat -> (size <= length rest)%nat ->
  readNumber size rest = Some (be_number (take size rest), drop size rest).
Proof.
  intros Hs Hl. unfold readNumber, readNumberFast.
  replace (length rest <? size)%nat with false by (symmetry; apply Nat.ltb_ge; lia).
  set_unfold in Hs. by destruct Hs as [->|[->|[->|[->|[]]]]].
Qed.

Lemma readNumber_short size rest : (length rest < size)%nat -> readNumber size rest = None.
Proof.
  intros Hl. unfold readNumber, readNumberFast.
  replace (length rest <? size)%nat with true by (symmetry; apply Nat.ltb_lt; lia). done.
Qed.

Lemma readNumber_some size rest n rest' : readNumber size rest = Some (n, rest') ->
  size ∈ [1; 2; 4; 8]%nat /\ (size <= length rest)%nat /\
  n = be_number (take size rest) /\ rest' = drop size rest.
Proof.
  intros H. destruct (decide (length rest < size)%nat) as [Hl|Hl].
  { by rewrite readNumber_short in H. }
  assert (size ∈ [1; 2; 4; 8]%nat) as Hs.
  { unfold readNumber, readNumberFast in H.
    destruct (length rest <? size)%nat; [done|].
    do 9 (destruct size as [|size]; [set_solver|]). done. }
  rewrite readNumber_spec in H by (done || lia). simplify_eq.
  repeat split; [done|lia].
Qed.

(** Reading back [k] octets in front of a tail. *)
Lemma readNumber_be k z tail : k ∈ [1; 2; 4; 8]%nat -> 0 <= z < 256 ^ Z.of_nat k ->
  readNumber k (be_bytes k z ++ tail) = Some (z, tail).
Proof.
  intros Hk Hz. rewrite readNumber_spec; [|done|rewrite length_app, length_be_bytes; lia].
  rewrite take_app_length', drop_app_length' by (by rewrite length_be_bytes).
  rewrite be_number_bytes, Z.mod_small by done. done.
Qed.

Lemma len_writeVarNumber n : len (writeVarNumber n) = sizeOfVarNumber n.
Proof. unfold writeVarNumber, sizeOfVarNumber. case_all. Qed.

Lemma len_writeNonNegativeInteger n :
  len (writeNonNegativeInteger n) = sizeOfNonNegativeInteger n.
Proof. unfold writeNonNegativeInteger, sizeOfNonNegativeInteger. case_all. Qed.

Lemma readVarNumber_noexcept_write n tail : is_u64 n ->
  readVarNumber_noexcept (writeVarNumber n ++ tail) = Some (n, tail).
Proof.
  intros Hn. unfold writeVarNumber.
  destruct (n <? 253) eqn:E1; [|destruct (n <=? UINT16_MAX) eqn:E2;
    [|destruct (n <=? UINT32_MAX) eqn:E3]]; bool_to_prop; width;
    cbn [app readVarNumber_noexcept]; rewrite b2z_z2b.
  - rewrite Z.mod_small by lia.
    replace (n <? 253) with true by (symmetry; apply Z.ltb_lt; lia). done.
  - apply readNumber_be; [set_solver|]. change (256 ^ Z.of_nat 2) with 65536. lia.
  - apply readNumber_be; [set_solver|]. change (256 ^ Z.of_nat 4) with 4294967296. lia.
  - apply readNumber_be; [set_solver|].
    change (256 ^ Z.of_nat 8) with 18446744073709551616. lia.
Qed.

Lemma writeVarNumber_nonempty n tail : writeVarNumber n ++ tail <> [].
Proof. unfold writeVarNumber. case_all. Qed.

Lemma readVarNumber_write n tail : is_u64 n ->
  readVarNumber (writeVarNumber n ++ tail) = Ok (n, tail).
Proof.
  intros Hn. unfold readVarNumber. rewrite readVarNumber_noexcept_write by done.
  destruct (writeVarNumber n ++ tail) eqn:E; [|done].
  by apply writeVarNumber_nonempty in E.
Qed.

Lemma readType_write n tail : is_tlv_type n ->
  readType (writeVarNumber n ++ tail) = Ok (n, tail).
Proof.
  intros Hn. unfold readType. rewrite readVarNumber_write by by apply is_tlv_type_u64.
  simpl. by rewrite legal_type_check.
Qed.

Lemma readType_noexcept_write n tail : is_tlv_type n ->
  readType_noexcept (writeVarNumber n ++ tail) = Some (n, tail).
Proof.
  intros Hn. unfold readType_noexcept.
  rewrite readVarNumber_noexcept_write by by apply is_tlv_type_u64.
  by rewrite legal_type_check.
Qed.

Lemma readNonNegativeInteger_be k z tail : k ∈ [1; 2; 4; 8]%nat -> 0 <= z < 256 ^ Z.of_nat k ->
  readNonNegativeInteger (Z.of_nat k) (be_bytes k z ++ tail) = Ok (z, tail).
Proof.
  intros Hk Hz. unfold readNonNegativeInteger.
  rewrite Nat2Z.id, readNumber_be by done.
  set_unfold in Hk. by destruct Hk as [->|[->|[->|[->|[]]]]].
Qed.

(** The shortest of the four widths is chosen. *)
Lemma writeNonNegativeInteger_be n : is_u64 n -> exists k, k ∈ [1; 2; 4; 8]%nat /\
  sizeOfNonNegativeInteger n = Z.of_nat k /\
  writeNonNegativeInteger n = be_bytes k n /\ 0 <= n < 256 ^ Z.of_nat k.
Proof.
  intros Hn. unfold sizeOfNonNegativeInteger, writeNonNegativeInteger.
  destruct (n <=? UINT8_MAX) eqn:E1; [exists 1%nat|destruct (n <=? UINT16_MAX) eqn:E2;
    [exists 2%nat|destruct (n <=? UINT32_MAX) eqn:E3; [exists 4%nat|exists 8%nat]]];
    bool_to_prop; width; (split; [set_solver|]); (split; [done|]); (split; [done|lia]).
Qed.

Lemma readNonNegativeInteger_write n tail : is_u64 n ->
  readNonNegativeInteger (sizeOfNonNegativeInteger n) (writeNonNegativeInteger n ++ tail)
  = Ok (n, tail).
Proof.
  intros Hn. destruct (writeNonNegativeInteger_be n Hn) as (k & Hk & -> & -> & Hr).
  by apply readNonNegativeInteger_be.
Qed.

(** Whatever a reader accepts, it splits off the front of its input; the
    encoding read is at least as long as the one the writer would produce. *)
Lemma readVarNumber_noexcept_split bs n rest : readVarNumber_noexcept bs = Some (n, rest) ->
  exists hdr, bs = hdr ++ rest /\ is_u64 n /\ sizeOfVarNumber n <= len hdr.
Proof.
  unfold readVarNumber_noexcept. destruct bs as [|b bs]; [done|].
  pose proof (b2z_range b) as Hb. case_match eqn:E.
  { intros [= <- <-]. exists [b]. bool_to_prop. split; [done|]. split; [width; lia|].
    unfold sizeOfVarNumber. by replace (b2z b <? 253) with true by lia. }
  intros H. apply readNumber_some in H as (Hs & Hl & -> & ->).
  set (k := if b2z b =? 253 then 2%nat else if b2z b =? 254 then 4%nat else 8%nat) in *.
  exists (b :: take k bs). split; [simpl; by rewrite take_drop|].
  pose proof (be_number_range (take k bs)) as Hr.
  assert (len (take k bs) = Z.of_nat k) as Hk by (unfold len; rewrite length_take; lia).
  rewrite len_cons, Hk in *. unfold sizeOfVarNumber.
  assert (k = 2 \/ k = 4 \/ k = 8)%nat as [Hk2|[Hk4|Hk8]]
    by (unfold k; repeat case_match; lia).
  - rewrite Hk2 in Hr |- *. change (256 ^ Z.of_nat 2) with 65536 in Hr. width.
    split; [lia|]. repeat case_match; bool_to_prop; lia.
  - rewrite Hk4 in Hr |- *. change (256 ^ Z.of_nat 4) with 4294967296 in Hr. width.
    split; [lia|]. repeat case_match; bool_to_prop; lia.
  - rewrite Hk8 in Hr |- *. change (256 ^ Z.of_nat 8) with 18446744073709551616 in Hr. width.
    split; [lia|]. repeat case_match; bool_to_prop; lia.
Qed.

Lemma sizeOfVarNumber_pos n : 1 <= sizeOfVarNumber n.
Proof. unfold sizeOfVarNumber. repeat case_match; lia. Qed.

Lemma sizeOfVarNumber_mono n m : n <= m -> sizeOfVarNumber n <= sizeOfVarNumber m.
Proof. intros H. unfold sizeOfVarNumber. width. repeat case_match; bool_to_prop; lia. Qed.

Lemma readVarNumber_inv bs n rest :
  readVarNumber bs = Ok (n, rest) <-> readVarNumber_noexcept bs = Some (n, rest).
Proof.
  unfold readVarNumber. destruct bs; [done|].
  destruct (readVarNumber_noexcept (_ :: _)); split; intros; by simplify_eq.
Qed.

Lemma readVarNumber_split bs n rest : readVarNumber bs = Ok (n, rest) ->
  exists hdr, bs = hdr ++ rest /\ is_u64 n /\ sizeOfVarNumber n <= len hdr.
Proof. intros H. by apply readVarNumber_noexcept_split, readVarNumber_inv. Qed.

Lemma drop_is_tail {A} k (h t : list A) : (k <= length (h ++ t))%nat -> t = drop k (h ++ t) -> k = length h.
Proof. intros Hk H%(f_equal length). rewrite length_drop, length_app in *. lia. Qed.

(** Reading depends on the octets read only, not on what follows them. *)
Lemma readVarNumber_prefix h n t t' :
  readVarNumber (h ++ t) = Ok (n, t) -> readVarNumber (h ++ t') = Ok (n, t').
Proof.
  rewrite !readVarNumber_inv. unfold readVarNumber_noexcept. destruct h as [|b h]; simpl.
  - destruct t as [|c t]; [done|]. case_match.
    + intros [= _ Ht]. apply (f_equal length) in Ht. simpl in Ht. lia.
    + intros (_ & _ & _ & Ht)%readNumber_some. apply (f_equal length) in Ht.
      rewrite length_drop in Ht. simpl in Ht. lia.
  - case_match.
    + intros [= <- Ht]. apply (f_equal length) in Ht. rewrite length_app in Ht.
      destruct h; simpl in Ht; [done|lia].
    + intros (Hs & Hl & -> & Hd)%readNumber_some.
      pose proof (drop_is_tail _ _ _ Hl Hd) as Hh. rewrite Hh in Hs |- *.
      rewrite readNumber_spec; [|done|rewrite length_app; lia].
      by rewrite !take_app_length, drop_app_length.
Qed.

Lemma readType_inv bs n rest :
  readType bs = Ok (n, rest) <-> readVarNumber bs = Ok (n, rest) /\ is_tlv_type n.
Proof.
  unfold readType. destruct (readVarNumber bs) as [[m r]|] eqn:E; simpl; [|naive_solver].
  apply readVarNumber_split in E as (hdr & _ & Hm & _). unfold throw_if.
  case_match eqn:Hc; simpl.
  - split; [done|]. intros [? Ht]. simplify_eq. by rewrite legal_type_check in Hc.
  - split; [|naive_solver]. intros ?; simplify_eq. split; [done|].
    apply orb_false_iff in Hc as [H1 H2]. bool_to_prop. unfold Invalid in H1. width. lia.
Qed.

Lemma readType_noexcept_inv bs n rest :
  readType_noexcept bs = Some (n, rest) <-> readType bs = Ok (n, rest).
Proof.
  unfold readType_noexcept, readType.
  destruct (readVarNumber bs) as [[m r]|] eqn:E.
  - apply readVarNumber_inv in E. rewrite E. simpl. unfold throw_if.
    case_match; simpl; split; intros; by simplify_eq.
  - destruct (readVarNumber_noexcept bs) as [[m r]|] eqn:E2; [|done].
    apply readVarNumber_inv in E2. congruence.
Qed.

Lemma readType_split bs n rest : readType bs = Ok (n, rest) ->
  exists hdr, bs = hdr ++ rest /\ is_tlv_type n /\ sizeOfVarNumber n <= len hdr.
Proof.
  intros [H Ht]%readType_inv. apply readVarNumber_split in H as (hdr & ? & ? & ?). eauto.
Qed.

End tlv_facts.

(** ** Theorems *)

Section tlv_theorems.
Import tlv.

(** Writing a number and reading it back gives the number and leaves
    exactly the octets that followed, for VAR-NUMBER, TLV-TYPE and
    NonNegativeInteger; the size functions give the number of octets written,
    and no accepted VAR-NUMBER encoding of the number is shorter. *)
Theorem tlv_number_roundtrip (n : Z) (tail : bytes) (Hn : is_u64 n) :
  readVarNumber (writeVarNumber n ++ tail) = Ok (n, tail) /\
  (is_tlv_type n -> readType (writeVarNumber n ++ tail) = Ok (n, tail)) /\
  readNonNegativeInteger (sizeOfNonNegativeInteger n) (writeNonNegativeInteger n ++ tail)
    = Ok (n, tail) /\
  len (writeVarNumber n) = sizeOfVarNumber n /\
  len (writeNonNegativeInteger n) = sizeOfNonNegativeInteger n /\
  (forall bs rest, readVarNumber bs = Ok (n, rest) -> len (writeVarNumber n) <= len bs - len rest).
Proof.
  split_and!.
  - by apply readVarNumber_write.
  - by apply readType_write.
  - by apply readNonNegativeInteger_write.
  - apply len_writeVarNumber.
  - apply len_writeNonNegativeInteger.
  - intros bs rest (hdr & -> & _ & Hs)%readVarNumber_split.
    rewrite len_writeVarNumber, len_app. lia.
Qed.

Lemma tlv_number_roundtrip_witness :
  readVarNumber (writeVarNumber 70000 ++ [z2b 1]) = Ok (70000, [z2b 1]) /\
  readVarNumber_noexcept (writeVarNumber 70000) = Some (70000, []).
Proof.
  split; [|by vm_compute].
  apply (tlv_number_roundtrip 70000 [z2b 1]). by vm_compute.
Defined.

(** The contiguous-buffer reader and the octet-by-octet reader agree on
    every size a TLV number can have: they accept the same inputs, and then
    give the same number and leave the same octets. *)
Theorem readNumber_fast_slow (size : nat) (rest : bytes) (Hs : size ∈ [1; 2; 4; 8]%nat) :
  fst (fst (readNumberFast size rest)) = fst (fst (readNumberSlow size rest)) /\
  (fst (fst (readNumberFast size rest)) = true -> readNumberFast size rest = readNumberSlow size rest).
Proof.
  destruct (decide (size <= length rest)%nat) as [Hl|Hl].
  - pose proof (readNumber_spec size rest Hs Hl) as Hf. unfold readNumber in Hf.
    unfold readNumberSlow. rewrite readNumberSlow_loop_spec; [|lia|done|].
    + destruct (readNumberFast size rest) as [[[] n] r]; [|done]. simplify_eq. done.
    + set_unfold in Hs. destruct Hs as [->|[->|[->|[->|[]]]]]; vm_compute; done.
  - unfold readNumberSlow. rewrite readNumberSlow_loop_short by lia.
    assert (readNumberFast size rest = (false, 0, rest)) as ->; [|done].
    unfold readNumberFast. by replace (length rest <? size)%nat with true
      by (symmetry; apply Nat.ltb_lt; lia).
Qed.

Lemma readNumber_fast_slow_witness :
  readNumberFast 2 [z2b 1; z2b 2; z2b 3] = readNumberSlow 2 [z2b 1; z2b 2; z2b 3].
Proof. apply (readNumber_fast_slow 2); [set_solver|by vm_compute]. Defined.

Lemma truncated_be k n (h : bytes) : (k < S (length h))%nat ->
  (if b2z n =? 253 then 2%nat else if b2z n =? 254 then 4%nat else 8%nat) = length h ->
  253 <= b2z n ->
  exists what, readVarNumber (take k (n :: h)) = Throw (TlvError what).
Proof.
  intros Hk Hl Hn. destruct k as [|k]; [by eexists|].
  unfold readVarNumber. cbn [take]. unfold readVarNumber_noexcept.
  replace (b2z n <? 253) with false by lia.
  rewrite readNumber_short; [by eexists|]. rewrite Hl, length_take. lia.
Qed.

(** A truncated VAR-NUMBER is an error, at every cut: reading any proper
    prefix of a written number throws [tlv::Error] and never yields a
    number. *)
Theorem readVarNumber_truncated (n : Z) (k : nat) (Hk : (k < length (writeVarNumber n))%nat) :
  exists what, readVarNumber (take k (writeVarNumber n)) = Throw (TlvError what).
Proof.
  revert Hk. unfold writeVarNumber.
  destruct (n <? 253); [|destruct (n <=? UINT16_MAX); [|destruct (n <=? UINT32_MAX)]].
  { intros Hk. destruct k; simpl in Hk; [by eexists|lia]. }
  all: intros Hk; apply truncated_be; rewrite ?length_be_bytes, ?b2z_z2b;
    [simpl in Hk; rewrite ?length_be_bytes in Hk; lia|done|done].
Qed.

Lemma readVarNumber_truncated_witness :
  exists what, readVarNumber (take 2 (writeVarNumber 300)) = Throw (TlvError what).
Proof. apply (readVarNumber_truncated 300 2). vm_compute. lia. Defined.

End tlv_theorems.
