(* ===== verification/Encoding.v ===== *)
(** The two encoders of [ndn-cxx/encoding/]: [Encoder], which writes TLV
    octets into a buffer that grows at either end, and [Estimator], which
    only adds up sizes.  Code that is a template over the tag
    ([EncodingImpl<TAG>]) in C++ is polymorphic over the class
    [EncodingImpl] here, and its theorems are proved against the interface
    [EncodingLaws], which both encoders implement. *)

From S2P Require Import Prelude Tlv.

(** ** The interface of [EncodingImpl<TAG>]

    Every operation returns the encoder and the number of octets added. *)
Class EncodingImpl (E : Type) := {
  prependBytes : bytes -> E -> E * Z;
  prependVarNumber : Z -> E -> E * Z;
  prependNonNegativeInteger : Z -> E -> E * Z;
}.

(** A function template [template<Tag TAG> size_t f(EncodingImpl<TAG>&)]. *)
Definition prepender := forall E : Type, EncodingImpl E -> E -> E * Z.

Definition pBytes (bs : bytes) : prepender := fun E _ => prependBytes bs.
Definition pVarNumber (n : Z) : prepender := fun E _ => prependVarNumber n.
Definition pNonNegativeInteger (n : Z) : prepender := fun E _ => prependNonNegativeInteger n.

(** No octet. *)
Definition pNone : prepender := fun E _ e => (e, 0).

(** [totalLength += f(encoder); totalLength += g(encoder);] *)
Definition pThen (f g : prepender) : prepender := fun E H e =>
  let '(e1, n1) := f E H e in
  let '(e2, n2) := g E H e1 in
  (e2, n1 + n2).

(** [if (c) totalLength += f(encoder);] *)
Definition pWhen (c : bool) (f : prepender) : prepender := if c then f else pNone.

(** [for (x : l | reversed) totalLength += f(encoder, x);] *)
Fixpoint pReversed {A} (f : A -> prepender) (l : list A) : prepender :=
  match l with
  | [] => pNone
  | x :: xs => pThen (pReversed f xs) (f x)
  end.

(** [totalLength += prependVarNumber(totalLength);
    totalLength += prependVarNumber(type);] after [f]. *)
Definition pTL (type : Z) (f : prepender) : prepender := fun E H e =>
  let '(e1, n1) := f E H e in
  let '(e2, n2) := prependVarNumber n1 e1 in
  let '(e3, n3) := prependVarNumber type e2 in
  (e3, n1 + n2 + n3).

Declare Scope prepender_scope.
Delimit Scope prepender_scope with prepender.
Bind Scope prepender_scope with prepender.
Notation "f ;+ g" := (pThen f g) (at level 60, right associativity) : prepender_scope.
Open Scope prepender_scope.

(** ** [Encoder] *)
Module Encoder.

(** [ndn-cxx/encoding/encoder.hpp:336-343] encoding::Encoder
    The iterators [m_begin] and [m_end] are offsets into [m_buffer]. *)
Record t := mk { m_buffer : bytes; m_begin : nat; m_end : nat }.

(** [ndn-cxx/encoding/encoder.cpp:31-35] Encoder::Encoder(size_t, size_t) *)
Definition make (totalReserve reserveFromBack : Z) : t :=
  let buffer := replicate (Z.to_nat totalReserve) Byte.x00 in
  let back := if reserveFromBack <? totalReserve then reserveFromBack else 0 in
  let pos := (length buffer - Z.to_nat back)%nat in
  mk buffer pos pos.

(** [ndn-cxx/encoding/encoder.hpp:227-231] Encoder::capacity *)
Definition capacity (e : t) : Z := len (m_buffer e).

(** [ndn-cxx/encoding/encoder.hpp:320-324] Encoder::size *)
Definition size (e : t) : Z := Z.of_nat (m_end e - m_begin e).

(** [ndn-cxx/encoding/encoder.cpp:64-95] Encoder::reserve *)
Definition reserve (size : nat) (addInFront : bool) (e : t) : t :=
  let old := length (m_buffer e) in
  let size := if (size <? old)%nat then old else size in
  let zeros := replicate (size - old) Byte.x00 in
  if addInFront then
    let diffEnd := (old - m_end e)%nat in
    let diffBegin := (old - m_begin e)%nat in
    let buf := zeros ++ m_buffer e in
    mk buf (length buf - diffBegin) (length buf - diffEnd)
  else
    mk (m_buffer e ++ zeros) (m_begin e) (m_end e).

(** [ndn-cxx/encoding/encoder.cpp:44-49] Encoder::reserveBack *)
Definition reserveBack (size : nat) (e : t) : t :=
  if (length (m_buffer e) <? m_end e + size)%nat
  then reserve (length (m_buffer e) * 2 + size) false e else e.

(** [ndn-cxx/encoding/encoder.cpp:51-56] Encoder::reserveFront *)
Definition reserveFront (size : nat) (e : t) : t :=
  if (m_begin e <? size)%nat
  then reserve (length (m_buffer e) * 2 + size) true e else e.

(** [std::copy(first, last, buffer.begin() + off)] *)
Definition overwrite (off : nat) (bs buf : bytes) : bytes :=
  take off buf ++ bs ++ drop (off + length bs) buf.

(** [ndn-cxx/encoding/encoder.hpp:345-358] Encoder::prependRange *)
Definition prependRange (bs : bytes) (e : t) : t * Z :=
  let length := length bs in
  let e := reserveFront length e in
  let begin := (m_begin e - length)%nat in
  (mk (overwrite begin bs (m_buffer e)) begin (m_end e), Z.of_nat length).

(** [ndn-cxx/encoding/encoder.hpp:360-373] Encoder::appendRange *)
Definition appendRange (bs : bytes) (e : t) : t * Z :=
  let length := length bs in
  let e := reserveBack length e in
  (mk (overwrite (m_end e) bs (m_buffer e)) (m_begin e) (m_end e + length), Z.of_nat length).

(** [ndn-cxx/encoding/encoder.cpp:97-101] Encoder::prependBytes *)
Definition prependBytes (bs : bytes) (e : t) : t * Z := prependRange bs e.

(** [ndn-cxx/encoding/encoder.cpp:103-107] Encoder::appendBytes *)
Definition appendBytes (bs : bytes) (e : t) : t * Z := appendRange bs e.

(** [ndn-cxx/encoding/encoder.cpp:109-134] Encoder::prependVarNumber *)
Definition prependVarNumber (varNumber : Z) (e : t) : t * Z :=
  if varNumber <? 253 then
    let '(e, _) := prependBytes [z2b varNumber] e in (e, 1)
  else if varNumber <=? UINT16_MAX then
    let '(e, _) := prependBytes (be_bytes 2 varNumber) e in
    let '(e, _) := prependBytes [z2b 253] e in (e, 3)
  else if varNumber <=? UINT32_MAX then
    let '(e, _) := prependBytes (be_bytes 4 varNumber) e in
    let '(e, _) := prependBytes [z2b 254] e in (e, 5)
  else
    let '(e, _) := prependBytes (be_bytes 8 varNumber) e in
    let '(e, _) := prependBytes [z2b 255] e in (e, 9).

(** [ndn-cxx/encoding/encoder.cpp:136-161] Encoder::appendVarNumber *)
Definition appendVarNumber (varNumber : Z) (e : t) : t * Z :=
  if varNumber <? 253 then
    let '(e, _) := appendBytes [z2b varNumber] e in (e, 1)
  else if varNumber <=? UINT16_MAX then
    let '(e, _) := appendBytes [z2b 253] e in
    let '(e, _) := appendBytes (be_bytes 2 varNumber) e in (e, 3)
  else if varNumber <=? UINT32_MAX then
    let '(e, _) := appendBytes [z2b 254] e in
    let '(e, _) := appendBytes (be_bytes 4 varNumber) e in (e, 5)
  else
    let '(e, _) := appendBytes [z2b 255] e in
    let '(e, _) := appendBytes (be_bytes 8 varNumber) e in (e, 9).

(** [ndn-cxx/encoding/encoder.cpp:163-181] Encoder::prependNonNegativeInteger *)
Definition prependNonNegativeInteger (varNumber : Z) (e : t) : t * Z :=
  if varNumber <=? UINT8_MAX then prependBytes [z2b varNumber] e
  else if varNumber <=? UINT16_MAX then prependBytes (be_bytes 2 varNumber) e
  else if varNumber <=? UINT32_MAX then prependBytes (be_bytes 4 varNumber) e
  else prependBytes (be_bytes 8 varNumber) e.

(** [ndn-cxx/encoding/encoder.cpp:183-201] Encoder::appendNonNegativeInteger *)
Definition appendNonNegativeInteger (varNumber : Z) (e : t) : t * Z :=
  if varNumber <=? UINT8_MAX then appendBytes [z2b varNumber] e
  else if varNumber <=? UINT16_MAX then appendBytes (be_bytes 2 varNumber) e
  else if varNumber <=? UINT32_MAX then appendBytes (be_bytes 4 varNumber) e
  else appendBytes (be_bytes 8 varNumber) e.

(** [ndn-cxx/encoding/encoder.cpp:203-211] Encoder::prependByteArrayBlock *)
Definition prependByteArrayBlock (type : Z) (array : bytes) (e : t) : t * Z :=
  let '(e, n1) := prependBytes array e in
  let '(e, n2) := prependVarNumber (len array) e in
  let '(e, n3) := prependVarNumber type e in (e, n1 + n2 + n3).

(** [ndn-cxx/encoding/encoder.cpp:213-221] Encoder::appendByteArrayBlock *)
Definition appendByteArrayBlock (type : Z) (array : bytes) (e : t) : t * Z :=
  let '(e, n1) := appendVarNumber type e in
  let '(e, n2) := appendVarNumber (len array) e in
  let '(e, n3) := appendBytes array e in (e, n1 + n2 + n3).

(** The octets written so far, [[m_begin, m_end)]. *)
Definition view (e : t) : bytes := take (m_end e - m_begin e) (drop (m_begin e) (m_buffer e)).

(** The iterators are ordered and inside the buffer. *)
Definition wf (e : t) : Prop := (m_begin e <= m_end e <= length (m_buffer e))%nat.

End Encoder.

(** ** [Estimator], whose operations are stateless. *)
Module Estimator.

Definition t : Type := unit.

(** [ndn-cxx/encoding/estimator.hpp:43-47] Estimator::prependBytes *)
Definition prependBytes (bs : bytes) (e : t) : t * Z := (e, len bs).

(** [ndn-cxx/encoding/estimator.hpp:125-129] Estimator::prependVarNumber *)
Definition prependVarNumber (n : Z) (e : t) : t * Z := (e, tlv.sizeOfVarNumber n).

(** [ndn-cxx/encoding/estimator.hpp:143-147] Estimator::prependNonNegativeInteger *)
Definition prependNonNegativeInteger (n : Z) (e : t) : t * Z :=
  (e, tlv.sizeOfNonNegativeInteger n).

End Estimator.

#[export] Instance Encoder_EncodingImpl : EncodingImpl Encoder.t := {
  prependBytes := Encoder.prependBytes;
  prependVarNumber := Encoder.prependVarNumber;
  prependNonNegativeInteger := Encoder.prependNonNegativeInteger;
}.

#[export] Instance Estimator_EncodingImpl : EncodingImpl Estimator.t := {
  prependBytes := Estimator.prependBytes;
  prependVarNumber := Estimator.prependVarNumber;
  prependNonNegativeInteger := Estimator.prependNonNegativeInteger;
}.

(** ** What an encoder promises to the templates *)
Class EncodingLaws (E : Type) `{EncodingImpl E} := {
  enc_wf : E -> Prop;
  (** [prepended e bs e']: [e'] is [e] with the octets [bs] in front. *)
  prepended : E -> bytes -> E -> Prop;
  prepended_nil : forall e, enc_wf e -> prepended e [] e;
  prepended_trans : forall e1 e2 e3 b1 b2,
    prepended e1 b1 e2 -> prepended e2 b2 e3 -> prepended e1 (b2 ++ b1) e3;
  prependBytes_law : forall bs e, enc_wf e ->
    let '(e', n) := prependBytes bs e in
    enc_wf e' /\ prepended e bs e' /\ n = len bs;
  prependVarNumber_law : forall k e, enc_wf e ->
    let '(e', n) := prependVarNumber k e in
    enc_wf e' /\ prepended e (tlv.writeVarNumber k) e' /\ n = len (tlv.writeVarNumber k);
  prependNonNegativeInteger_law : forall k e, enc_wf e ->
    let '(e', n) := prependNonNegativeInteger k e in
    enc_wf e' /\ prepended e (tlv.writeNonNegativeInteger k) e' /\
    n = len (tlv.writeNonNegativeInteger k);
}.

(** The template [f] puts exactly [bs] in front of whatever the encoder
    holds, and returns its size, for every lawful encoder. *)
Definition Encodes (f : prepender) (bs : bytes) : Prop :=
  forall E (HE : EncodingImpl E) (HL : EncodingLaws E) e, enc_wf e ->
    let '(e', n) := f E HE e in enc_wf e' /\ prepended e bs e' /\ n = len bs.

(** The octets of one TLV element. *)
Definition tlv_bytes (type : Z) (value : bytes) : bytes :=
  tlv.writeVarNumber type ++ tlv.writeVarNumber (len value) ++ value.

Create HintDb encodes.

Section templates.

Lemma Encodes_bytes bs : Encodes (pBytes bs) bs.
Proof. intros E HE HL e He. exact (prependBytes_law bs e He). Qed.

Lemma Encodes_varnumber n : Encodes (pVarNumber n) (tlv.writeVarNumber n).
Proof. intros E HE HL e He. exact (prependVarNumber_law n e He). Qed.

Lemma Encodes_nni n : Encodes (pNonNegativeInteger n) (tlv.writeNonNegativeInteger n).
Proof. intros E HE HL e He. exact (prependNonNegativeInteger_law n e He). Qed.

Lemma Encodes_none : Encodes pNone [].
Proof. intros E HE HL e He. simpl. split_and!; auto using prepended_nil. Qed.

Lemma Encodes_then f g bf bg : Encodes f bf -> Encodes g bg -> Encodes (f ;+ g) (bg ++ bf).
Proof.
  intros Hf Hg E HE HL e He. unfold pThen.
  specialize (Hf E HE HL e He). destruct (f E HE e) as [e1 n1]. destruct Hf as (H1 & H2 & ->).
  specialize (Hg E HE HL e1 H1). destruct (g E HE e1) as [e2 n2]. destruct Hg as (H3 & H4 & ->).
  split_and!; [done|by eapply prepended_trans|]. rewrite len_app. lia.
Qed.

Lemma Encodes_when c f bf : Encodes f bf -> Encodes (pWhen c f) (if c then bf else []).
Proof. destruct c; [done|]. intros _. apply Encodes_none. Qed.

Lemma Encodes_TL type f bf : Encodes f bf -> Encodes (pTL type f) (tlv_bytes type bf).
Proof.
  intros Hf E HE HL e He. unfold pTL, tlv_bytes.
  specialize (Hf E HE HL e He). destruct (f E HE e) as [e1 n1]. destruct Hf as (H1 & H2 & ->).
  pose proof (prependVarNumber_law (len bf) e1 H1) as H3.
  destruct (prependVarNumber (len bf) e1) as [e2 n2]. destruct H3 as (H3 & H4 & ->).
  pose proof (prependVarNumber_law type e2 H3) as H5.
  destruct (prependVarNumber type e2) as [e3 n3]. destruct H5 as (H5 & H6 & ->).
  split_and!; [done| |rewrite !len_app; lia].
  eapply prepended_trans; [|done]. by eapply prepended_trans.
Qed.

Lemma Encodes_reversed {A} (f : A -> prepender) (b : A -> bytes) l :
  (forall x, x ∈ l -> Encodes (f x) (b x)) -> Encodes (pReversed f l) (mjoin (b <$> l)).
Proof.
  induction l as [|x l IH]; intros H; simpl; [apply Encodes_none|].
  apply Encodes_then; [apply IH|apply H]; set_solver.
Qed.

Lemma Encodes_eq f b b' : Encodes f b -> b = b' -> Encodes f b'.
Proof. by intros ? <-. Qed.

End templates.

#[export] Hint Resolve Encodes_bytes Encodes_varnumber Encodes_nni Encodes_none
  Encodes_then Encodes_when Encodes_TL Encodes_reversed : encodes.

(** ** The encoders implement the interface *)

#[export] Program Instance Estimator_laws : EncodingLaws Estimator.t := {
  enc_wf _ := True;
  prepended _ _ _ := True;
}.
Solve All Obligations with
  (intros; simpl; rewrite ?len_writeVarNumber, ?len_writeNonNegativeInteger; auto).

Module EncoderFacts.
Import Encoder.

Lemma length_overwrite off bs buf : (off + length bs <= length buf)%nat ->
  length (overwrite off bs buf) = length buf.
Proof.
  intros H. unfold overwrite. rewrite !length_app, length_take, length_drop. lia.
Qed.

(** Octets in front of, inside and behind the overwritten range. *)
Lemma overwrite_drop off bs buf : (off + length bs <= length buf)%nat ->
  drop off (overwrite off bs buf) = bs ++ drop (off + length bs) buf.
Proof.
  intros H. unfold overwrite. rewrite drop_app_length'; [done|]. rewrite length_take. lia.
Qed.

Lemma overwrite_take off bs buf : (off <= length buf)%nat ->
  take off (overwrite off bs buf) = take off buf.
Proof.
  intros H. unfold overwrite. rewrite take_app_length'; [done|]. rewrite length_take. lia.
Qed.

Lemma reserve_front_facts n e : wf e ->
  let e' := reserve n true e in
  exists d, m_begin e' = (m_begin e + d)%nat /\ m_end e' = (m_end e + d)%nat /\
    m_buffer e' = replicate d Byte.x00 ++ m_buffer e /\
    d = (Nat.max n (length (m_buffer e)) - length (m_buffer e))%nat.
Proof.
  intros [H1 H2]. unfold reserve. cbn zeta beta iota.
  set (s := if (n <? _)%nat then _ else _).
  assert (s = Nat.max n (length (m_buffer e))) as ->.
  { unfold s. destruct (Nat.ltb_spec n (length (m_buffer e))); lia. }
  eexists _. simpl. rewrite length_app, length_replicate.
  split_and!; [| |done|]; lia.
Qed.

Lemma view_shift d buf b e : view (mk (replicate d Byte.x00 ++ buf) (b + d) (e + d)) = view (mk buf b e).
Proof.
  unfold view; simpl. replace (e + d - (b + d))%nat with (e - b)%nat by lia. f_equal.
  rewrite drop_app_ge by (rewrite length_replicate; lia).
  rewrite length_replicate. f_equal. lia.
Qed.

(** [reserveFront] keeps the view and the distance of [m_end] to the end, and
    leaves at least the requested room in front. *)
Lemma reserveFront_spec n e : wf e -> let e' := reserveFront n e in
  wf e' /\ view e' = view e /\ (n <= m_begin e')%nat /\
  (length (m_buffer e') - m_end e' = length (m_buffer e) - m_end e)%nat /\
  ((n <= m_begin e)%nat -> e' = e).
Proof.
  intros Hwf. cbn zeta. unfold reserveFront.
  destruct (Nat.ltb_spec (m_begin e) n); [|split_and!; auto; lia].
  destruct (reserve_front_facts (length (m_buffer e) * 2 + n) e Hwf)
    as (d & Hb & He & Hbuf & Hd).
  set (e' := reserve _ true e) in *. destruct Hwf as [? ?].
  assert (length (m_buffer e') = d + length (m_buffer e))%nat as Hl.
  { rewrite Hbuf, length_app, length_replicate. lia. }
  split_and!; [unfold wf; lia| |lia|lia|lia].
  destruct e as [buf b en], e' as [buf' b' en']; simpl in *; subst. apply view_shift.
Qed.

Lemma prependRange_spec bs e : wf e -> let '(e', n) := prependRange bs e in
  wf e' /\ view e' = bs ++ view e /\ n = len bs /\
  (length (m_buffer e') - m_end e' = length (m_buffer e) - m_end e)%nat /\
  ((length bs <= m_begin e)%nat ->
     m_begin e' = (m_begin e - length bs)%nat /\ length (m_buffer e') = length (m_buffer e)).
Proof.
  intros Hwf. unfold prependRange.
  destruct (reserveFront_spec (length bs) e Hwf) as (Hwf' & Hv & Hroom & Hend & Hsame).
  set (e' := reserveFront (length bs) e) in *. destruct Hwf' as [H1 H2]. simpl.
  assert (length (overwrite (m_begin e' - length bs) bs (m_buffer e')) = length (m_buffer e')) as Hlo.
  { apply length_overwrite. lia. }
  split_and!; [unfold wf; simpl; lia| |done|lia|].
  - rewrite <- Hv. unfold view; simpl.
    rewrite overwrite_drop by lia.
    replace (m_begin e' - length bs + length bs)%nat with (m_begin e') by lia.
    rewrite take_app_ge by lia. f_equal. f_equal. lia.
  - intros Hle. by rewrite Hlo, (Hsame Hle).
Qed.

Lemma appendRange_spec bs e : wf e -> let '(e', n) := appendRange bs e in
  wf e' /\ view e' = view e ++ bs /\ n = len bs /\ m_begin e' = m_begin e.
Proof.
  intros [H1 H2]. unfold appendRange.
  assert (exists d, reserveBack (length bs) e
            = mk (m_buffer e ++ replicate d Byte.x00) (m_begin e) (m_end e) /\
          (m_end e + length bs <= length (m_buffer e) + d)%nat) as (d & -> & Hd).
  { unfold reserveBack. destruct (Nat.ltb_spec (length (m_buffer e)) (m_end e + length bs)).
    - eexists. split; [unfold reserve; reflexivity|].
      destruct (Nat.ltb_spec (length (m_buffer e) * 2 + length bs) (length (m_buffer e))); lia.
    - exists 0%nat. simpl. rewrite app_nil_r. split; [by destruct e|lia]. }
  simpl. set (buf := m_buffer e ++ _).
  assert (length buf = length (m_buffer e) + d)%nat as Hl.
  { unfold buf. rewrite length_app, length_replicate. done. }
  assert (take (m_end e) buf = take (m_end e) (m_buffer e)) as Ht.
  { unfold buf. by rewrite take_app_le by lia. }
  split_and!; [| |done|done].
  - unfold wf; simpl. rewrite length_overwrite by lia. lia.
  - unfold view; simpl.
    replace (m_end e + length bs - m_begin e)%nat with ((m_end e - m_begin e) + length bs)%nat by lia.
    rewrite !take_drop_commute. unfold overwrite.
    replace (m_begin e + (m_end e - m_begin e + length bs))%nat
      with (m_end e + length bs)%nat by lia.
    replace (m_begin e + (m_end e - m_begin e))%nat with (m_end e) by lia.
    rewrite Ht, app_assoc, take_app_length'
      by (rewrite length_app, length_take; lia).
    rewrite drop_app_le by (rewrite length_take; lia). done.
Qed.

(** With room in front the buffer is overwritten in place, whatever [m_end]. *)
Lemma prependRange_room bs buf b en : (length bs <= b <= length buf)%nat ->
  prependRange bs (mk buf b en)
  = (mk (take (b - length bs) buf ++ bs ++ drop b buf) (b - length bs) en, len bs).
Proof.
  intros H. unfold prependRange, reserveFront. cbn [m_begin].
  replace (b <? length bs)%nat with false by (symmetry; apply Nat.ltb_ge; lia).
  cbn [m_begin m_buffer m_end]. unfold overwrite.
  by replace (b - length bs + length bs)%nat with b by lia.
Qed.

Lemma prependRange_room2 b1 b2 buf b en : (length b1 + length b2 <= b <= length buf)%nat ->
  fst (prependRange b2 (fst (prependRange b1 (mk buf b en))))
  = mk (take (b - (length b2 + length b1)) buf ++ (b2 ++ b1) ++ drop b buf)
       (b - (length b2 + length b1)) en.
Proof.
  intros H. rewrite prependRange_room by lia. cbn [fst].
  rewrite prependRange_room by (rewrite !length_app, length_take, length_drop; lia). cbn [fst].
  replace (b - (length b2 + length b1))%nat with (b - length b1 - length b2)%nat by lia.
  f_equal. rewrite take_app_le, take_take by (rewrite length_take; lia).
  rewrite Nat.min_l by lia. f_equal. rewrite <- app_assoc. f_equal.
  apply drop_app_length'. rewrite length_take. lia.
Qed.

Lemma prependVarNumber_room n buf b en : (length (tlv.writeVarNumber n) <= b <= length buf)%nat ->
  fst (Encoder.prependVarNumber n (mk buf b en))
  = mk (take (b - length (tlv.writeVarNumber n)) buf ++ tlv.writeVarNumber n ++ drop b buf)
       (b - length (tlv.writeVarNumber n)) en.
Proof.
  assert (forall b1 b2 (k : Z), (length (b2 ++ b1) <= b <= length buf)%nat ->
    fst (let '(e, _) := prependBytes b1 (mk buf b en) in let '(e, _) := prependBytes b2 e in (e, k))
    = mk (take (b - length (b2 ++ b1)) buf ++ (b2 ++ b1) ++ drop b buf) (b - length (b2 ++ b1)) en)
    as H2.
  { intros b1 b2 k H. rewrite length_app in *. rewrite <- prependRange_room2 by lia.
    unfold prependBytes. destruct (prependRange b1 _) as [e1 n1]. cbn [fst].
    by destruct (prependRange b2 e1). }
  unfold Encoder.prependVarNumber, tlv.writeVarNumber.
  destruct (n <? 253); [|destruct (n <=? UINT16_MAX); [|destruct (n <=? UINT32_MAX)]]; intros H.
  - unfold prependBytes. by rewrite prependRange_room.
  - by apply (H2 (be_bytes 2 n) [z2b 253]).
  - by apply (H2 (be_bytes 4 n) [z2b 254]).
  - by apply (H2 (be_bytes 8 n) [z2b 255]).
Qed.

End EncoderFacts.

#[global] Arguments Encoder.prependRange : simpl never.
#[global] Arguments Encoder.prependBytes : simpl never.
#[global] Arguments Encoder.prependVarNumber : simpl never.
#[global] Arguments Encoder.prependNonNegativeInteger : simpl never.
#[global] Arguments Encoder.make : simpl never.
#[global] Arguments Encoder.appendRange : simpl never.
#[global] Arguments Encoder.appendBytes : simpl never.
#[global] Arguments Encoder.appendVarNumber : simpl never.
#[global] Arguments tlv.writeVarNumber : simpl never.
#[global] Arguments tlv.sizeOfVarNumber : simpl never.
#[global] Arguments tlv.writeNonNegativeInteger : simpl never.
#[global] Arguments tlv.sizeOfNonNegativeInteger : simpl never.

(** One octet string in front of the view, the room used being taken from the
    front of the buffer whenever it is there. *)
Definition Encoder_prepended (e : Encoder.t) (bs : bytes) (e' : Encoder.t) : Prop :=
  Encoder.view e' = bs ++ Encoder.view e /\
  (length (Encoder.m_buffer e') - Encoder.m_end e'
     = length (Encoder.m_buffer e) - Encoder.m_end e)%nat /\
  ((length bs <= Encoder.m_begin e)%nat ->
     Encoder.m_begin e' = (Encoder.m_begin e - length bs)%nat /\
     length (Encoder.m_buffer e') = length (Encoder.m_buffer e)).

Section encoder_laws.
Import Encoder EncoderFacts.

Lemma Encoder_prepended_nil e : Encoder_prepended e [] e.
Proof. unfold Encoder_prepended. simpl. split_and!; auto. lia. Qed.

Lemma Encoder_prepended_trans e1 e2 e3 b1 b2 :
  Encoder_prepended e1 b1 e2 -> Encoder_prepended e2 b2 e3 -> Encoder_prepended e1 (b2 ++ b1) e3.
Proof.
  intros (V1 & E1 & R1) (V2 & E2 & R2). unfold Encoder_prepended.
  rewrite length_app. split_and!.
  - by rewrite V2, V1, app_assoc.
  - congruence.
  - intros H. destruct R1 as [B1 L1]; [lia|]. destruct R2 as [B2 L2]; [lia|]. lia.
Qed.

Lemma Encoder_prependBytes_law bs e : wf e ->
  let '(e', n) := Encoder.prependBytes bs e in wf e' /\ Encoder_prepended e bs e' /\ n = len bs.
Proof.
  intros Hwf. pose proof (prependRange_spec bs e Hwf) as H. unfold Encoder.prependBytes.
  destruct (prependRange bs e) as [e' n]. unfold Encoder_prepended. naive_solver.
Qed.

(** Two [prependBytes] in a row, as the multi-octet VAR-NUMBERs do. *)
Lemma Encoder_prepend2_law b1 b2 e : wf e ->
  let '(e1, _) := Encoder.prependBytes b1 e in
  let '(e2, _) := Encoder.prependBytes b2 e1 in wf e2 /\ Encoder_prepended e (b2 ++ b1) e2.
Proof.
  intros Hwf. pose proof (Encoder_prependBytes_law b1 e Hwf) as H1.
  destruct (Encoder.prependBytes b1 e) as [e1 n1]. destruct H1 as (W1 & P1 & _).
  pose proof (Encoder_prependBytes_law b2 e1 W1) as H2.
  destruct (Encoder.prependBytes b2 e1) as [e2 n2]. destruct H2 as (W2 & P2 & _).
  split; [done|]. by eapply Encoder_prepended_trans.
Qed.

Lemma Encoder_prependVarNumber_law k e : wf e ->
  let '(e', n) := Encoder.prependVarNumber k e in
  wf e' /\ Encoder_prepended e (tlv.writeVarNumber k) e' /\ n = len (tlv.writeVarNumber k).
Proof.
  intros Hwf. unfold Encoder.prependVarNumber, tlv.writeVarNumber.
  destruct (k <? 253); [|destruct (k <=? UINT16_MAX); [|destruct (k <=? UINT32_MAX)]].
  1: pose proof (Encoder_prependBytes_law [z2b k] e Hwf) as H;
     destruct (Encoder.prependBytes _ e); naive_solver.
  all: match goal with |- context [Encoder.prependBytes (be_bytes ?n ?v) _] =>
         match goal with |- context [Encoder.prependBytes [z2b ?m] _] =>
         pose proof (Encoder_prepend2_law (be_bytes n v) [z2b m] e Hwf) as H end end;
     destruct (Encoder.prependBytes (be_bytes _ k) e) as [e1 ?];
     destruct (Encoder.prependBytes _ e1) as [e2 ?]; naive_solver.
Qed.

Lemma Encoder_prependNonNegativeInteger_law k e : wf e ->
  let '(e', n) := Encoder.prependNonNegativeInteger k e in
  wf e' /\ Encoder_prepended e (tlv.writeNonNegativeInteger k) e' /\
  n = len (tlv.writeNonNegativeInteger k).
Proof.
  intros Hwf. unfold Encoder.prependNonNegativeInteger, tlv.writeNonNegativeInteger.
  destruct (k <=? UINT8_MAX); [|destruct (k <=? UINT16_MAX); [|destruct (k <=? UINT32_MAX)]];
    by apply Encoder_prependBytes_law.
Qed.

End encoder_laws.

#[export] Instance Encoder_laws : EncodingLaws Encoder.t := {
  enc_wf := Encoder.wf;
  prepended := Encoder_prepended;
  prepended_nil e _ := Encoder_prepended_nil e;
  prepended_trans := Encoder_prepended_trans;
  prependBytes_law := Encoder_prependBytes_law;
  prependVarNumber_law := Encoder_prependVarNumber_law;
  prependNonNegativeInteger_law := Encoder_prependNonNegativeInteger_law;
}.

(** ** Estimate, allocate, encode

    The two-pass idiom of every [wireEncode()]: the estimator's result sizes
    the buffer of the encoder that then runs the same template. *)
Definition run_encoder (f : prepender) : Encoder.t :=
  let '(_, totalLength) := f Estimator.t _ tt in
  fst (f Encoder.t _ (Encoder.make totalLength 0)).

Section two_pass.

Lemma estimator_exact f bs : Encodes f bs -> snd (f Estimator.t _ tt) = len bs.
Proof.
  intros H. specialize (H _ Estimator_EncodingImpl Estimator_laws tt I).
  destruct (f Estimator.t Estimator_EncodingImpl tt). by destruct H as (_ & _ & ->).
Qed.

(** The estimate is exact: the encoder never reallocates, and when it is done
    the buffer holds the encoding and nothing else. *)
Lemma run_encoder_spec f bs : Encodes f bs ->
  run_encoder f = Encoder.mk bs 0 (length bs).
Proof.
  intros H. pose proof (estimator_exact f bs H) as Hn. unfold run_encoder.
  destruct (f Estimator.t _ tt) as [[] n]. simpl in Hn. subst n.
  set (e0 := Encoder.make (len bs) 0).
  assert (e0 = Encoder.mk (replicate (length bs) Byte.x00) (length bs) (length bs)) as He0.
  { unfold e0, Encoder.make, len. rewrite Nat2Z.id, length_replicate.
    by destruct (0 <? _); simpl; rewrite Nat.sub_0_r. }
  assert (Encoder.wf e0) as W0.
  { rewrite He0. unfold Encoder.wf. simpl. rewrite length_replicate. lia. }
  specialize (H _ Encoder_EncodingImpl Encoder_laws e0 W0). destruct (f Encoder.t _ e0) as [[buf b e] n]. simpl.
  destruct H as ([W1 W2] & (V & E & R) & _). rewrite He0 in V, E, R. unfold Encoder.view in V.
  simpl in *. rewrite length_replicate in *. destruct (R ltac:(lia)) as [-> L].
  rewrite Nat.sub_diag in *. rewrite take_0, app_nil_r, drop_0, Nat.sub_0_r in V.
  f_equal; [|lia]. rewrite <- V. symmetry. apply take_ge. lia.
Qed.

End two_pass.

Section append.
Import Encoder EncoderFacts.

(** [e'] is [e] with the octets [bs] behind. *)
Definition Encoder_appended (e : t) (bs : bytes) (r : t * Z) : Prop :=
  wf (fst r) /\ view (fst r) = view e ++ bs /\ snd r = len bs.

Lemma Encoder_appendBytes_law bs e : wf e -> Encoder_appended e bs (appendBytes bs e).
Proof.
  intros We. pose proof (appendRange_spec bs e We) as H. unfold appendBytes, Encoder_appended.
  destruct (appendRange bs e). naive_solver.
Qed.

Lemma Encoder_append2_law b1 b2 n e : wf e -> n = len (b1 ++ b2) ->
  Encoder_appended e (b1 ++ b2)
    (let '(e, _) := appendBytes b1 e in let '(e, _) := appendBytes b2 e in (e, n)).
Proof.
  intros We ->. pose proof (Encoder_appendBytes_law b1 e We) as H1.
  destruct (appendBytes b1 e) as [e1 n1]. destruct H1 as (W1 & V1 & _). cbn [fst snd] in *.
  pose proof (Encoder_appendBytes_law b2 e1 W1) as H2.
  destruct (appendBytes b2 e1) as [e2 n2]. destruct H2 as (W2 & V2 & _). cbn [fst snd] in *.
  unfold Encoder_appended; cbn [fst snd]. split; [done|]. split; [|done]. by rewrite V2, V1, app_assoc.
Qed.

Lemma Encoder_appendVarNumber_law k e : wf e ->
  Encoder_appended e (tlv.writeVarNumber k) (appendVarNumber k e).
Proof.
  intros We. unfold appendVarNumber, tlv.writeVarNumber.
  destruct (k <? 253); [|destruct (k <=? UINT16_MAX); [|destruct (k <=? UINT32_MAX)]].
  - pose proof (Encoder_appendBytes_law [z2b k] e We) as H.
    destruct (appendBytes [z2b k] e). destruct H as (W & V & _). by split.
  - apply (Encoder_append2_law [z2b 253] (be_bytes 2 k)); done.
  - apply (Encoder_append2_law [z2b 254] (be_bytes 4 k)); done.
  - apply (Encoder_append2_law [z2b 255] (be_bytes 8 k)); done.
Qed.

Lemma Encoder_appendNonNegativeInteger_law k e : wf e ->
  Encoder_appended e (tlv.writeNonNegativeInteger k) (appendNonNegativeInteger k e).
Proof.
  intros We. unfold appendNonNegativeInteger, tlv.writeNonNegativeInteger.
  destruct (k <=? UINT8_MAX); [|destruct (k <=? UINT16_MAX); [|destruct (k <=? UINT32_MAX)]];
    by apply Encoder_appendBytes_law.
Qed.

Lemma Encoder_appendByteArrayBlock_law ty v e : wf e ->
  Encoder_appended e (tlv_bytes ty v) (appendByteArrayBlock ty v e).
Proof.
  intros We. unfold appendByteArrayBlock, tlv_bytes.
  pose proof (Encoder_appendVarNumber_law ty e We) as H1.
  destruct (appendVarNumber ty e) as [e1 n1]. destruct H1 as (W1 & V1 & N1). cbn [fst snd] in *.
  pose proof (Encoder_appendVarNumber_law (len v) e1 W1) as H2.
  destruct (appendVarNumber (len v) e1) as [e2 n2]. destruct H2 as (W2 & V2 & N2). cbn [fst snd] in *.
  pose proof (Encoder_appendBytes_law v e2 W2) as H3.
  destruct (appendBytes v e2) as [e3 n3]. destruct H3 as (W3 & V3 & N3). cbn [fst snd] in *.
  unfold Encoder_appended; cbn [fst snd]. split; [done|]. split; [|rewrite !len_app; lia].
  by rewrite V3, V2, V1, <- !app_assoc.
Qed.

End append.

Lemma Encoder_prependByteArrayBlock_law ty v e : Encoder.wf e ->
  let '(e', n) := Encoder.prependByteArrayBlock ty v e in
  Encoder.wf e' /\ Encoder_prepended e (tlv_bytes ty v) e' /\ n = len (tlv_bytes ty v).
Proof.
  intros We. pose proof (Encodes_TL ty _ _ (Encodes_bytes v) Encoder.t _ _ e We) as H.
  unfold pTL, pBytes in H. unfold Encoder.prependByteArrayBlock.
  pose proof (Encoder_prependBytes_law v e We) as H1.
  change (prependBytes v e) with (Encoder.prependBytes v e) in H.
  destruct (Encoder.prependBytes v e) as [e1 n1]. destruct H1 as (_ & _ & ->). exact H.
Qed.

(** ** Theorems *)

Section encoder_theorems.
Import Encoder EncoderFacts.

(** C19: the growing buffer refines a plain octet string: every prepend puts its
    octets in front of what the encoder holds, every append puts them behind,
    both return the number of octets added and keep the iterators inside the
    buffer, whatever reallocation they trigger. *)
Theorem encoder_refines_octets (e : t) (bs : bytes) (n ty : Z) (We : wf e) :
  let adds_front r x := wf (fst r) /\ view (fst r) = x ++ view e /\ snd r = len x in
  let adds_back r x := wf (fst r) /\ view (fst r) = view e ++ x /\ snd r = len x in
  adds_front (Encoder.prependBytes bs e) bs /\
  adds_front (Encoder.prependVarNumber n e) (tlv.writeVarNumber n) /\
  adds_front (Encoder.prependNonNegativeInteger n e) (tlv.writeNonNegativeInteger n) /\
  adds_front (prependByteArrayBlock ty bs e) (tlv_bytes ty bs) /\
  adds_back (appendBytes bs e) bs /\
  adds_back (appendVarNumber n e) (tlv.writeVarNumber n) /\
  adds_back (appendNonNegativeInteger n e) (tlv.writeNonNegativeInteger n) /\
  adds_back (appendByteArrayBlock ty bs e) (tlv_bytes ty bs).
Proof.
  assert (forall r x, (let '(e', k) := r in wf e' /\ Encoder_prepended e x e' /\ k = len x) ->
    wf (fst r) /\ view (fst r) = x ++ view e /\ snd r = len x) as Hf.
  { intros [e' k] x (W & (V & _) & N). done. }
  cbn zeta. split; [apply Hf, Encoder_prependBytes_law, We|].
  split; [apply Hf, Encoder_prependVarNumber_law, We|].
  split; [apply Hf, Encoder_prependNonNegativeInteger_law, We|].
  split; [apply Hf, Encoder_prependByteArrayBlock_law, We|].
  split; [apply Encoder_appendBytes_law, We|].
  split; [apply Encoder_appendVarNumber_law, We|].
  split; [apply Encoder_appendNonNegativeInteger_law, We|].
  apply Encoder_appendByteArrayBlock_law, We.
Qed.

Lemma encoder_refines_octets_witness :
  view (fst (appendVarNumber 300 (fst (Encoder.prependBytes [z2b 7] (make 0 0)))))
  = [z2b 7; z2b 253; z2b 1; z2b 44].
Proof.
  destruct (encoder_refines_octets (fst (Encoder.prependBytes [z2b 7] (make 0 0))) [] 300 1)
    as (_ & _ & _ & _ & _ & (_ & -> & _) & _).
  - vm_compute. lia.
  - by vm_compute.
Defined.

(** C37: Estimate, allocate, encode: for every encoding template the estimator
    returns exactly the number of octets the encoder then writes, so the
    buffer allocated for it is filled from its first to its last octet and
    never reallocated. *)
Theorem estimate_then_encode (f : prepender) (bs : bytes) (Hf : Encodes f bs) :
  snd (f Estimator.t _ tt) = len bs /\
  capacity (run_encoder f) = snd (f Estimator.t _ tt) /\
  m_begin (run_encoder f) = 0%nat /\ view (run_encoder f) = bs.
Proof.
  rewrite (run_encoder_spec f bs Hf), (estimator_exact f bs Hf).
  split_and!; try done. unfold view; simpl. rewrite Nat.sub_0_r. by apply take_ge.
Qed.

Lemma estimate_then_encode_witness :
  view (run_encoder (pTL 7 (pBytes [z2b 65]))) = [z2b 7; z2b 1; z2b 65].
Proof.
  apply (estimate_then_encode (pTL 7 (pBytes [z2b 65])) [z2b 7; z2b 1; z2b 65]).
  exact (Encodes_TL 7 _ _ (Encodes_bytes [z2b 65])).
Defined.

End encoder_theorems.
