(* ===== verification/Blocks.v ===== *)
(** [Block], the TLV element of [ndn-cxx/encoding/block.hpp] and [block.cpp].

    A C++ [Block] points into a shared immutable buffer: [m_begin, m_end)
    delimits the whole element (empty when only the value is there) and
    [m_valueBegin, m_valueEnd) its TLV-VALUE.  The model keeps the two octet
    ranges; [m_buf = None] is the null [m_buffer].  [parse() const] fills the
    mutable [m_elements], so it returns the updated block together with the
    exception it ends with, if any. *)

From S2P Require Import Prelude Tlv Encoding.

Module Block.

(** [ndn-cxx/encoding/block.hpp:463-482] Block *)
Inductive t : Type := mk {
  m_type : Z;
  m_buf : option (bytes * bytes);
  m_size : Z;
  m_elements : list t;
}.

(** [ndn-cxx/encoding/block.cpp:44-44] Block::Block() *)
Definition empty : t := mk tlv.Invalid None 0 [].

(** [ndn-cxx/encoding/block.hpp:211-215] Block::isValid *)
Definition isValid (b : t) : bool := negb (m_type b =? tlv.Invalid).

(** [ndn-cxx/encoding/block.hpp:240-244] Block::hasWire *)
Definition hasWire (b : t) : bool :=
  match m_buf b with Some (_ :: _, _) => true | _ => false end.

(** [ndn-cxx/encoding/block.hpp:297-301] Block::hasValue *)
Definition hasValue (b : t) : bool :=
  match m_buf b with Some _ => true | None => false end.

(** [ndn-cxx/encoding/block.hpp:284-288] Block::type *)
Definition type (b : t) : Z := m_type b.

(** [ndn-cxx/encoding/block.cpp:295-302] Block::wire
    The octets of the encoded element. *)
Definition wire (b : t) : result bytes :=
  match m_buf b with
  | Some ((_ :: _) as w, _) => Ok w
  | _ => Throw (BlockError "Underlying wire buffer is empty")
  end.

(** [ndn-cxx/encoding/block.cpp:304-312] Block::size *)
Definition size (b : t) : result Z :=
  _ ← throw_if (negb (isValid b)) (BlockError "Cannot determine size of invalid block");
  Ok (m_size b).

(** [ndn-cxx/encoding/block.cpp:316-320] Block::value
    The octets of [m_valueBegin, m_valueEnd), none for a null pointer. *)
Definition value (b : t) : bytes :=
  match m_buf b with Some (_, v) => v | None => [] end.

(** [ndn-cxx/encoding/block.cpp:322-326] Block::value_size *)
Definition value_size (b : t) : Z := len (value b).

(** [ndn-cxx/encoding/block.hpp:402-405] Block::elements *)
Definition elements (b : t) : list t := m_elements b.

(** [ndn-cxx/encoding/block.cpp:51-73] Block::Block(span<const uint8_t>) *)
Definition fromSpan (buffer : bytes) : result t :=
  '(type, pos) ← tlv.readType buffer;
  '(length, pos) ← tlv.readVarNumber pos;
  _ ← throw_if (len pos <? length)
        (BlockError "Not enough bytes in the buffer to fully parse TLV");
  let value := take (Z.to_nat length) pos in
  let wire := take (List.length buffer - List.length pos + List.length value) buffer in
  Ok (mk type (Some (wire, value)) (len wire) []).

(** [ndn-cxx/encoding/block.cpp:85-112] Block::Block(ConstBufferPtr, begin, end, verifyLength) *)
Definition fromRange (buffer : bytes) (begin_ end_ : nat) (verifyLength : bool) : result t :=
  let range := take (end_ - begin_) (drop begin_ buffer) in
  _ ← throw_if (len buffer =? 0) (InvalidArgument "Buffer is empty");
  _ ← throw_if ((length buffer <? begin_)%nat || (length buffer <? end_)%nat)
        (InvalidArgument "Begin/end iterators point outside the buffer");
  '(type, value) ← tlv.readType range;
  '(length, value) ← tlv.readVarNumber value;
  _ ← throw_if (verifyLength && negb (length =? len value))
        (BlockError "TLV-LENGTH does not match buffer size");
  Ok (mk type (Some (range, value)) (len range) []).

(** [ndn-cxx/encoding/block.cpp:80-83] Block::Block(const ConstBufferPtr&) *)
Definition fromBufferPtr (buffer : bytes) : result t :=
  fromRange buffer 0 (length buffer) true.

(** [ndn-cxx/encoding/block.cpp:75-78] Block::Block(const EncodingBuffer&) *)
Definition fromEncodingBuffer (e : Encoder.t) : result t :=
  fromRange (Encoder.m_buffer e) (Encoder.m_begin e) (Encoder.m_end e) true.

(** [ndn-cxx/encoding/block.cpp:138-142] Block::Block(uint32_t) *)
Definition ofType (type : Z) : t :=
  mk type None (tlv.sizeOfVarNumber type + tlv.sizeOfVarNumber 0) [].

(** [ndn-cxx/encoding/block.cpp:144-153] Block::Block(uint32_t, ConstBufferPtr) *)
Definition ofTypeValue (type : Z) (value : bytes) : t :=
  mk type (Some ([], value))
     (tlv.sizeOfVarNumber type + tlv.sizeOfVarNumber (len value) + len value) [].

(** [ndn-cxx/encoding/block.cpp:155-164] Block::Block(uint32_t, const Block&) *)
Definition ofTypeBlock (type : Z) (value : t) : result t :=
  w ← wire value;
  Ok (mk type (Some ([], w)) (tlv.sizeOfVarNumber type + tlv.sizeOfVarNumber (len w) + len w) []).

(** [ndn-cxx/encoding/block.cpp:194-222] Block::fromBuffer(span<const uint8_t>)
    [None] is [(false, Block())]. *)
Definition fromBufferSpan (buffer : bytes) : option t :=
  match tlv.readType_noexcept buffer with
  | None => None
  | Some (type, pos) =>
      match tlv.readVarNumber_noexcept pos with
      | None => None
      | Some (length, pos) =>
          if len pos <? length then None
          else
            let value := take (Z.to_nat length) pos in
            let wire := take (List.length buffer - List.length pos + List.length value) buffer in
            Some (mk type (Some (wire, value)) (len wire) [])
      end
  end.

(** [ndn-cxx/encoding/block.cpp:166-192] Block::fromBuffer(ConstBufferPtr, size_t) *)
Definition fromBuffer (buffer : bytes) (offset : nat) : option t :=
  let begin_ := drop offset buffer in
  match tlv.readType_noexcept begin_ with
  | None => None
  | Some (type, pos) =>
      match tlv.readVarNumber_noexcept pos with
      | None => None
      | Some (length, pos) =>
          if len pos <? length then None
          else
            let value := take (Z.to_nat length) pos in
            let wire := take (List.length begin_ - List.length pos + List.length value) begin_ in
            Some (mk type (Some (wire, value)) (len wire) [])
      end
  end.

(** [ndn-cxx/encoding/block.cpp:40-40] MAX_SIZE_OF_BLOCK_FROM_STREAM *)
Definition MAX_SIZE_OF_BLOCK_FROM_STREAM : Z := tlv.MAX_NDN_PACKET_SIZE.

(** [ndn-cxx/encoding/block.cpp:230-260] Block::fromStream
    The stream is the octets it still delivers; the block comes with the
    octets left in the stream.  The sum that is compared with the limit is a
    64-bit one. *)
Definition fromStream (stream : bytes) : result (t * bytes) :=
  '(type, stream) ← tlv.readType stream;
  '(length, stream) ← tlv.readVarNumber stream;
  let tlSize := tlv.sizeOfVarNumber type + tlv.sizeOfVarNumber length in
  _ ← throw_if (MAX_SIZE_OF_BLOCK_FROM_STREAM <? u64 (tlSize + length))
        (BlockError "TLV-LENGTH from stream exceeds limit");
  let eb := Encoder.make (u64 (tlSize + length)) length in
  _ ← throw_if (len stream <? length)
        (BlockError "Not enough bytes from stream to fully parse TLV");
  let value := take (Z.to_nat length) stream in
  let eb := Encoder.mk (Encoder.overwrite (Encoder.m_begin eb) value (Encoder.m_buffer eb))
                       (Encoder.m_begin eb) (Encoder.m_end eb) in
  let '(eb, _) := Encoder.prependVarNumber length eb in
  let '(eb, _) := Encoder.prependVarNumber type eb in
  b ← fromBufferPtr (Encoder.m_buffer eb);
  Ok (b, drop (Z.to_nat length) stream).

(** [ndn-cxx/encoding/block.cpp:264-268] Block::reset *)
Definition reset (b : t) : t := empty.

(** [ndn-cxx/encoding/block.cpp:270-275] Block::resetWire *)
Definition resetWire (b : t) : t := mk (m_type b) None (m_size b) (m_elements b).

(** [ndn-cxx/encoding/block.cpp:328-336] Block::blockFromValue *)
Definition blockFromValue (b : t) : result t :=
  _ ← throw_if (value_size b =? 0) (BlockError "Cannot construct block from empty TLV-VALUE");
  fromRange (value b) 0 (length (value b)) true.

(** [ndn-cxx/encoding/block.cpp:346-364] Block::parse (the loop)
    [elements] is [m_elements] so far; the octets left shrink by at least two
    at every turn, so [length rest] turns are enough. *)
Fixpoint parse_loop (fuel : nat) (rest : bytes) (elements : list t) : list t * option exn :=
  match rest with
  | [] => (elements, None)
  | _ =>
      match fuel with
      | O => (elements, None)
      | S fuel =>
          match tlv.readType rest with
          | Throw e => (elements, Some e)
          | Ok (type, pos) =>
              match tlv.readVarNumber pos with
              | Throw e => (elements, Some e)
              | Ok (length, pos) =>
                  if len pos <? length then
                    ([], Some (BlockError "TLV-LENGTH of sub-element exceeds TLV-VALUE boundary of parent block"))
                  else
                    let value := take (Z.to_nat length) pos in
                    let wire := take (List.length rest - List.length pos + List.length value) rest in
                    parse_loop fuel (drop (Z.to_nat length) pos)
                      (elements ++ [mk type (Some (wire, value)) (len wire) []])
              end
          end
      end
  end.

(** [ndn-cxx/encoding/block.cpp:340-365] Block::parse *)
Definition parse (b : t) : t * option exn :=
  if negb (len (m_elements b) =? 0) || (value_size b =? 0) then (b, None)
  else
    let '(els, e) := parse_loop (length (value b)) (value b) [] in
    (mk (m_type b) (m_buf b) (m_size b) els, e).

(** [b.parse();] in a function that lets the exception through. *)
Definition parsed (b : t) : result t :=
  match parse b with
  | (b', None) => Ok b'
  | (_, Some e) => Throw e
  end.

(** [ndn-cxx/encoding/block.cpp:380-401] Block::encode(EncodingEstimator&), Block::encodeValue *)
Fixpoint encode_estimate (b : t) : Z :=
  match m_buf b with
  | Some _ => m_size b
  | None =>
      let len :=
        (fix encodeValue (l : list t) : Z :=
           match l with [] => 0 | x :: xs => encodeValue xs + encode_estimate x end)
          (m_elements b) in
      let len := len + tlv.sizeOfVarNumber len in
      len + tlv.sizeOfVarNumber (m_type b)
  end.

(** [ndn-cxx/encoding/block.cpp:403-426] Block::encode(EncodingBuffer&)
    The block after the call, the encoder and the returned length. *)
Fixpoint encode_into (b : t) (encoder : Encoder.t) : t * Encoder.t * Z :=
  let '(els, encoder, len) :=
    match m_buf b with
    | Some (_, v) =>
        let '(encoder, n) := Encoder.prependRange v encoder in (m_elements b, encoder, n)
    | None =>
        (fix encode_elements (l : list t) (encoder : Encoder.t) : list t * Encoder.t * Z :=
           match l with
           | [] => ([], encoder, 0)
           | x :: xs =>
               let '(xs', encoder, n) := encode_elements xs encoder in
               let '(x', encoder, k) := encode_into x encoder in
               (x' :: xs', encoder, n + k)
           end) (m_elements b) encoder
    end in
  let value := take (Z.to_nat len) (Encoder.view encoder) in
  let '(encoder, n) := Encoder.prependVarNumber len encoder in
  let len := len + n in
  let '(encoder, n) := Encoder.prependVarNumber (m_type b) encoder in
  let len := len + n in
  let wire := take (Z.to_nat len) (Encoder.view encoder) in
  (mk (m_type b) (Some (wire, value)) len els, encoder, len).

(** [ndn-cxx/encoding/block.cpp:367-378] Block::encode() *)
Definition encode (b : t) : t :=
  if hasWire b then b
  else
    let estimatedSize := encode_estimate b in
    let buffer := Encoder.make estimatedSize 0 in
    let '(b', _, _) := encode_into b buffer in b'.

(** [ndn-cxx/encoding/block.cpp:440-445] Block::find
    The index of the element, [elements_end()] being [length (elements b)]. *)
Fixpoint find_from (type : Z) (l : list t) : nat :=
  match l with
  | [] => 0
  | x :: xs => if m_type x =? type then 0 else S (find_from type xs)
  end.

(** [ndn-cxx/encoding/block.cpp:440-445] Block::find *)
Definition find (type : Z) (b : t) : option t := m_elements b !! find_from type (m_elements b).

(** [ndn-cxx/encoding/block.cpp:428-438] Block::get *)
Definition get (type : Z) (b : t) : result t :=
  match find type b with
  | Some x => Ok x
  | None => Throw (BlockError "No sub-element of type found in block")
  end.

(** [ndn-cxx/encoding/block.cpp:447-455] Block::remove *)
Definition remove (type : Z) (b : t) : t :=
  let b := resetWire b in
  mk (m_type b) (m_buf b) (m_size b)
     (base.filter (fun x => m_type x <> type) (m_elements b)).

(** [ndn-cxx/encoding/block.cpp:457-462] Block::erase(position) *)
Definition erase (pos : nat) (b : t) : t :=
  let b := resetWire b in
  mk (m_type b) (m_buf b) (m_size b) (take pos (m_elements b) ++ drop (S pos) (m_elements b)).

(** [ndn-cxx/encoding/block.cpp:464-469] Block::erase(first, last) *)
Definition eraseRange (first last : nat) (b : t) : t :=
  let b := resetWire b in
  mk (m_type b) (m_buf b) (m_size b) (take first (m_elements b) ++ drop last (m_elements b)).

(** [ndn-cxx/encoding/block.cpp:471-476] Block::push_back *)
Definition push_back (element : t) (b : t) : t :=
  let b := resetWire b in
  mk (m_type b) (m_buf b) (m_size b) (m_elements b ++ [element]).

(** [ndn-cxx/encoding/block.cpp:478-483] Block::insert *)
Definition insert (pos : nat) (element : t) (b : t) : t :=
  let b := resetWire b in
  mk (m_type b) (m_buf b) (m_size b) (take pos (m_elements b) ++ element :: drop pos (m_elements b)).

(** [ndn-cxx/encoding/block.cpp:492-499] operator==(const Block&, const Block&) *)
Definition eqb (lhs rhs : t) : bool :=
  (type lhs =? type rhs) && (value_size lhs =? value_size rhs) &&
  ((value_size lhs =? 0) || bool_decide (value lhs = value rhs)).

(** A canonically encoded element: what decoding [tlv_bytes type value]
    gives. *)
Definition of_tlv (type : Z) (value : bytes) : t :=
  mk type (Some (tlv_bytes type value, value)) (len (tlv_bytes type value)) [].

End Block.

(** [ndn-cxx/encoding/encoder.cpp:58-62] Encoder::block *)
Definition Encoder_block (e : Encoder.t) (verifyLength : bool) : result Block.t :=
  Block.fromRange (Encoder.m_buffer e) (Encoder.m_begin e) (Encoder.m_end e) verifyLength.

(** [ndn-cxx/encoding/encoder.cpp:225-234] Encoder::prependBlock *)
Definition Encoder_prependBlock (b : Block.t) (e : Encoder.t) : Encoder.t * Z :=
  match Block.wire b with
  | Ok w => Encoder.prependBytes w e
  | Throw _ => Encoder.prependByteArrayBlock (Block.type b) (Block.value b) e
  end.

(** ** Lemmas *)

Section tlv_element.

Lemma len_tlv_bytes ty v :
  len (tlv_bytes ty v) = tlv.sizeOfVarNumber ty + tlv.sizeOfVarNumber (len v) + len v.
Proof. unfold tlv_bytes. rewrite !len_app, !len_writeVarNumber. lia. Qed.

Lemma tlv_bytes_nonempty ty v tail : tlv_bytes ty v ++ tail <> [].
Proof. unfold tlv_bytes. rewrite <- app_assoc. apply writeVarNumber_nonempty. Qed.

(** What reading TLV-TYPE and TLV-LENGTH from the front of [bs] tells. *)
Lemma read_header_split bs ty pos1 n pos :
  tlv.readType bs = Ok (ty, pos1) -> tlv.readVarNumber pos1 = Ok (n, pos) ->
  exists hdr, bs = hdr ++ pos /\ is_tlv_type ty /\ is_u64 n /\
    tlv.sizeOfVarNumber ty + tlv.sizeOfVarNumber n <= len hdr.
Proof.
  intros (h1 & -> & Ht & S1)%readType_split (h2 & -> & Hn & S2)%readVarNumber_split.
  exists (h1 ++ h2). rewrite app_assoc, len_app. split_and!; auto; lia.
Qed.

(** The octets from the start of the header to the end of the value. *)
Lemma take_header_value (hdr pos : bytes) (k : nat) :
  take (length (hdr ++ pos) - length pos + length (take k pos)) (hdr ++ pos) = hdr ++ take k pos.
Proof.
  rewrite length_app. replace (length hdr + length pos - length pos)%nat with (length hdr) by lia.
  rewrite take_app_add'; [|done]. f_equal. rewrite length_take.
  destruct (decide (k <= length pos)%nat).
  - by rewrite Nat.min_l.
  - rewrite Nat.min_r by lia. by rewrite !take_ge by lia.
Qed.

Lemma read_header_tlv ty v tail : is_tlv_type ty -> is_u64 (len v) ->
  exists pos1, tlv.readType (tlv_bytes ty v ++ tail) = Ok (ty, pos1) /\
    tlv.readVarNumber pos1 = Ok (len v, v ++ tail).
Proof.
  intros Ht Hv. unfold tlv_bytes. rewrite <- !app_assoc. eexists.
  split; [by apply readType_write|by apply readVarNumber_write].
Qed.

End tlv_element.

Module BlockFacts.
Import Block.

(** Induction over the tree of sub-elements. *)
Fixpoint block_ind (P : t -> Prop)
    (IH : forall ty buf sz els, Forall P els -> P (mk ty buf sz els)) (b : t) : P b :=
  match b with
  | mk ty buf sz els => IH ty buf sz els
      ((fix go (l : list t) : Forall P l :=
          match l with
          | [] => Forall_nil_2 P
          | x :: xs => Forall_cons_2 P x xs (block_ind P IH x) (go xs)
          end) els)
  end.

(** The octets of [m_begin, m_end). *)
Definition wire_bytes (b : t) : bytes :=
  match m_buf b with Some (w, _) => w | None => [] end.

(** [w] is an encoding of the element, not necessarily the shortest one. *)
Definition header_ok (ty : Z) (w v : bytes) : Prop :=
  exists pos, tlv.readType w = Ok (ty, pos) /\ tlv.readVarNumber pos = Ok (len v, v).

(** The class invariant of [Block] (for blocks with a legal TLV-TYPE). *)
Inductive wf : t -> Prop :=
| wf_intro ty buf sz els :
    is_tlv_type ty ->
    match buf with
    | None => True
    | Some ([], v) => sz = len (tlv_bytes ty v)
    | Some (w, v) => header_ok ty w v /\ sz = len w
    end ->
    match buf with
    | Some (_, v) => els = [] \/ mjoin (wire_bytes <$> els) = v
    | None => True
    end ->
    Forall wf els ->
    wf (mk ty buf sz els).

(** The canonical encoding of a block: its value if it has one, else its
    sub-elements, under a shortest header. *)
Fixpoint encoding (b : t) : bytes :=
  tlv_bytes (m_type b)
    match m_buf b with
    | Some (_, v) => v
    | None => mjoin (encoding <$> m_elements b)
    end.

Lemma fromSpan_tlv ty v tail : is_tlv_type ty -> is_u64 (len v) ->
  fromSpan (tlv_bytes ty v ++ tail) = Ok (of_tlv ty v).
Proof.
  intros Ht Hv. unfold fromSpan.
  destruct (read_header_tlv ty v tail Ht Hv) as (pos1 & R1 & R2).
  rewrite R1; simpl. rewrite R2; simpl. unfold throw_if.
  rewrite len_app. replace (len v + len tail <? len v) with false
    by (pose proof (len_nonneg tail); lia). simpl.
  rewrite to_nat_len.
  assert (tlv_bytes ty v ++ tail
    = (tlv.writeVarNumber ty ++ tlv.writeVarNumber (len v)) ++ (v ++ tail)) as ->.
  { unfold tlv_bytes. by rewrite <- !app_assoc. }
  rewrite take_header_value, take_app_length.
  unfold of_tlv, tlv_bytes. by rewrite <- !app_assoc.
Qed.

Lemma fromSpan_of_tlv ty v : is_tlv_type ty -> is_u64 (len v) ->
  fromSpan (tlv_bytes ty v) = Ok (of_tlv ty v).
Proof. intros. rewrite <- (app_nil_r (tlv_bytes ty v)). by apply fromSpan_tlv. Qed.

Lemma fromRange_of_tlv ty v verify : is_tlv_type ty -> is_u64 (len v) ->
  fromRange (tlv_bytes ty v) 0 (length (tlv_bytes ty v)) verify = Ok (of_tlv ty v).
Proof.
  intros Ht Hv. unfold fromRange. rewrite Nat.sub_0_r, drop_0, take_ge by done.
  pose proof (tlv_bytes_nonempty ty v []) as Hne. rewrite app_nil_r in Hne.
  assert (len (tlv_bytes ty v) =? 0 = false) as ->.
  { apply Z.eqb_neq. intros ?%len_zero. done. }
  rewrite !Nat.ltb_irrefl. cbn [Nat.ltb Nat.leb orb].
  destruct (read_header_tlv ty v [] Ht Hv) as (pos1 & R1 & R2). rewrite app_nil_r in R1, R2.
  simpl. rewrite R1; simpl. rewrite R2; simpl. rewrite Z.eqb_refl, andb_false_r. done.
Qed.

(** The element a successful read of the front of [bs] produces. *)
Lemma read_element bs ty pos1 n pos :
  tlv.readType bs = Ok (ty, pos1) -> tlv.readVarNumber pos1 = Ok (n, pos) -> n <= len pos ->
  let v := take (Z.to_nat n) pos in
  let w := take (length bs - length pos + length v) bs in
  header_ok ty w v /\ is_tlv_type ty /\ bs = w ++ drop (Z.to_nat n) pos /\
  (length (drop (Z.to_nat n) pos) < length bs)%nat.
Proof.
  intros R1 R2 Hn. cbn zeta.
  pose proof R1 as (h1 & E1 & Ht & S1)%readType_split.
  pose proof R2 as (h2 & E2 & [Hn0 Hn1] & S2)%readVarNumber_split.
  subst pos1 bs. set (k := Z.to_nat n) in *.
  assert (length (take k pos) = k) as Hlk.
  { rewrite length_take. unfold k, len in *. lia. }
  pose proof (sizeOfVarNumber_pos ty). pose proof (sizeOfVarNumber_pos n).
  rewrite (app_assoc h1 h2 pos), take_header_value.
  split_and!; [|done| |].
  - apply readType_inv in R1 as [R1 _].
    exists (h2 ++ take k pos).
    rewrite <- app_assoc. split.
    + apply readType_inv. split; [|done]. by eapply readVarNumber_prefix.
    + unfold len. rewrite Hlk. unfold k. rewrite Z2Nat.id by lia.
      by eapply readVarNumber_prefix.
  - by rewrite <- !app_assoc, take_drop.
  - rewrite length_drop, !length_app. unfold len in *. lia.
Qed.

(** *** Parsing *)

(** A raw sub-element, as [parse] creates it. *)
Definition raw_ok (b : t) : Prop :=
  m_elements b = [] /\ wf b /\ hasWire b = true.

Lemma header_ok_nonempty ty w v : header_ok ty w v -> w <> [].
Proof. intros (pos & H & _) ->. done. Qed.

Lemma raw_intro ty w v : header_ok ty w v -> is_tlv_type ty -> raw_ok (mk ty (Some (w, v)) (len w) []).
Proof.
  intros H Ht. pose proof (header_ok_nonempty _ _ _ H). split; [done|].
  destruct w as [|c w]; [done|]. split; [|done].
  constructor; auto.
Qed.

(** Fuel: the octets left decrease, so [length rest] turns suffice. *)
Lemma parse_loop_fuel fuel : forall rest acc, (length rest <= fuel)%nat ->
  parse_loop fuel rest acc = parse_loop (length rest) rest acc.
Proof.
  induction fuel as [fuel IH] using lt_wf_ind. intros rest acc Hf.
  destruct rest as [|c rest']; [by destruct fuel|].
  destruct fuel as [|fuel]; simpl in Hf; [lia|].
  set (rest := c :: rest') in *. simpl.
  destruct (tlv.readType rest) as [[ty pos1]|] eqn:R1; [|done].
  destruct (tlv.readVarNumber pos1) as [[n pos]|] eqn:R2; [|done].
  case_match eqn:Hn; [done|]. bool_to_prop.
  destruct (read_element _ _ _ _ _ R1 R2 Hn) as (_ & _ & _ & Hl). simpl in Hl.
  rewrite (IH fuel), (IH (length rest')) by lia. done.
Qed.

(** One turn of the loop. *)
Lemma parse_loop_step rest acc ty pos1 n pos :
  tlv.readType rest = Ok (ty, pos1) -> tlv.readVarNumber pos1 = Ok (n, pos) -> n <= len pos ->
  let v := take (Z.to_nat n) pos in
  let w := take (length rest - length pos + length v) rest in
  parse_loop (length rest) rest acc
  = parse_loop (length (drop (Z.to_nat n) pos)) (drop (Z.to_nat n) pos)
      (acc ++ [mk ty (Some (w, v)) (len w) []]).
Proof.
  intros R1 R2 Hn. cbn zeta.
  destruct (read_element _ _ _ _ _ R1 R2 Hn) as (_ & _ & _ & Hl).
  destruct rest as [|c rest']; [done|]. set (rest := c :: rest') in *.
  simpl. rewrite R1, R2. replace (len pos <? n) with false by lia.
  rewrite parse_loop_fuel by (simpl in Hl; lia). done.
Qed.

(** Soundness: the elements are well-formed and tile the input. *)
Lemma parse_loop_sound rest : forall acc els,
  parse_loop (length rest) rest acc = (els, None) ->
  exists new, els = acc ++ new /\ Forall raw_ok new /\ mjoin (wire_bytes <$> new) = rest.
Proof.
  remember (length rest) as k eqn:Hk. revert rest Hk.
  induction k as [k IH] using lt_wf_ind. intros rest -> acc els.
  destruct (decide (rest = [])) as [->|Hne].
  { simpl. intros [= <-]. exists []. by rewrite app_nil_r. }
  destruct (tlv.readType rest) as [[ty pos1]|] eqn:R1.
  2: { destruct rest; [done|]. simpl. by rewrite R1. }
  destruct (tlv.readVarNumber pos1) as [[n pos]|] eqn:R2.
  2: { destruct rest; [done|]. simpl. by rewrite R1, R2. }
  destruct (decide (n <= len pos)) as [Hn|Hn].
  2: { destruct rest; [done|]. simpl. rewrite R1, R2.
       by replace (len pos <? n) with true by lia. }
  rewrite (parse_loop_step _ _ _ _ _ _ R1 R2 Hn).
  destruct (read_element _ _ _ _ _ R1 R2 Hn) as (Hh & Ht & Hsplit & Hl).
  set (v := take (Z.to_nat n) pos) in *. set (w := take _ rest) in *.
  intros H. destruct (IH _ Hl _ eq_refl _ _ H) as (new & -> & Hnew & Hj).
  exists (mk ty (Some (w, v)) (len w) [] :: new). rewrite <- app_assoc. split_and!; [done| |].
  - constructor; [by apply raw_intro|done].
  - change (w ++ mjoin (wire_bytes <$> new) = rest). by rewrite Hj.
Qed.

(** Completeness: whatever is tiled by encodings of elements, shortest or not,
    is split back into these elements. *)
Lemma header_ok_tail ty w v tail : header_ok ty w v -> exists pos,
  tlv.readType (w ++ tail) = Ok (ty, pos ++ tail) /\ tlv.readVarNumber (pos ++ tail) = Ok (len v, v ++ tail).
Proof.
  intros (pos & R1 & R2). exists pos. apply readType_inv in R1 as [R1 Ht].
  destruct (readVarNumber_split _ _ _ R1) as (h1 & -> & _). destruct (readVarNumber_split _ _ _ R2) as (h2 & -> & _). split.
  - apply readType_inv. split; [|done]. rewrite <- app_assoc. by eapply readVarNumber_prefix.
  - rewrite <- app_assoc. by eapply readVarNumber_prefix.
Qed.

Lemma raw_cases x : raw_ok x -> exists ty w v, x = mk ty (Some (w, v)) (len w) [] /\ header_ok ty w v.
Proof.
  intros (He & Hw & Hh). destruct Hw as [ty buf sz els Ht Hb _ _]. simpl in He. subst els.
  destruct buf as [[[|c w] v]|]; [done| |done]. destruct Hb as [Hh' ->]. by exists ty, (c :: w), v.
Qed.

Lemma parse_loop_complete new : forall acc, Forall raw_ok new ->
  parse_loop (length (mjoin (wire_bytes <$> new))) (mjoin (wire_bytes <$> new)) acc = (acc ++ new, None).
Proof.
  induction new as [|x new IH]; intros acc Hn; [simpl; by rewrite app_nil_r|]. apply Forall_cons_iff in Hn as [Hx Hn].
  destruct (raw_cases x Hx) as (ty & w & v & -> & Hh). change (mjoin (wire_bytes <$> _)) with (w ++ mjoin (wire_bytes <$> new)).
  set (tail := mjoin (wire_bytes <$> new)) in *. destruct (header_ok_tail ty w v tail Hh) as (pos & R1 & R2).
  rewrite (parse_loop_step _ _ _ _ _ _ R1 R2) by (rewrite len_app; pose proof (len_nonneg tail); lia).
  rewrite to_nat_len, take_app_length, drop_app_length, (IH _ Hn), <- app_assoc. simpl. do 3 f_equal.
  assert (length v <= length w)%nat as Hl.
  { destruct Hh as (p & P1 & P2). apply readType_inv in P1 as [P1 _].
    destruct (readVarNumber_split _ _ _ P1) as (h1 & -> & _). destruct (readVarNumber_split _ _ _ P2) as (h2 & -> & _). rewrite !length_app. lia. }
  assert (take (length (w ++ tail) - length (v ++ tail) + length v) (w ++ tail) = w) as ->; [|done].
  apply take_app_length'. rewrite !length_app. lia.
Qed.

(** Completeness on canonical input: a sequence of elements is split back
    into these elements. *)
Definition tlv_seq (l : list (Z * bytes)) : bytes := mjoin ((fun '(ty, v) => tlv_bytes ty v) <$> l).
Definition tlv_ok (x : Z * bytes) : Prop := is_tlv_type x.1 /\ is_u64 (len x.2).
Definition of_pair (x : Z * bytes) : t := of_tlv x.1 x.2.

Lemma parse_loop_tlv_tail l tail : forall acc, Forall tlv_ok l ->
  parse_loop (length (tlv_seq l ++ tail)) (tlv_seq l ++ tail) acc
  = parse_loop (length tail) tail (acc ++ (of_pair <$> l)).
Proof.
  induction l as [|[ty v] l IH]; intros acc Hl; [simpl; by rewrite app_nil_r|].
  apply Forall_cons_iff in Hl as [[Ht Hv] Hl]. simpl in Ht, Hv.
  change (tlv_seq ((ty, v) :: l)) with (tlv_bytes ty v ++ tlv_seq l).
  rewrite <- app_assoc. set (rest := tlv_seq l ++ tail).
  destruct (read_header_tlv ty v rest Ht Hv) as (pos1 & R1 & R2).
  rewrite (parse_loop_step _ _ _ _ _ _ R1 R2) by (rewrite len_app; pose proof (len_nonneg rest); lia).
  rewrite to_nat_len, take_app_length, drop_app_length. unfold rest at 1 2. rewrite IH by done.
  rewrite <- app_assoc. simpl. do 3 f_equal.
  assert (take (length (tlv_bytes ty v ++ rest) - length (v ++ rest) + length v)
            (tlv_bytes ty v ++ rest) = tlv_bytes ty v) as ->; [|done].
  apply take_app_length'. unfold tlv_bytes. rewrite !length_app. lia.
Qed.

Lemma parse_loop_tlv l acc : Forall tlv_ok l ->
  parse_loop (length (tlv_seq l)) (tlv_seq l) acc = (acc ++ (of_pair <$> l), None).
Proof.
  intros Hl. rewrite <- (app_nil_r (tlv_seq l)). by rewrite parse_loop_tlv_tail.
Qed.

Lemma parsed_of_tlv ty l : Forall tlv_ok l ->
  parsed (of_tlv ty (tlv_seq l))
  = Ok (mk ty (m_buf (of_tlv ty (tlv_seq l))) (m_size (of_tlv ty (tlv_seq l))) (of_pair <$> l)).
Proof.
  intros Hl. unfold parsed, parse. simpl.
  destruct (value_size (of_tlv ty (tlv_seq l)) =? 0) eqn:E; simpl.
  - apply Z.eqb_eq, len_zero in E. unfold value in E. simpl in E.
    destruct l as [|[a b] l]; [done|]. by apply tlv_bytes_nonempty in E.
  - unfold value. simpl. rewrite parse_loop_tlv by done. done.
Qed.

(** *** Encoding *)

(** The value a block is encoded with, and the block after encoding. *)
Definition encoded_value (b : t) : bytes :=
  match m_buf b with
  | Some (_, v) => v
  | None => mjoin (encoding <$> m_elements b)
  end.

Fixpoint encoded (b : t) : t :=
  mk (m_type b) (Some (encoding b, encoded_value b)) (len (encoding b))
     match m_buf b with
     | Some _ => m_elements b
     | None => encoded <$> m_elements b
     end.

Lemma encoding_unfold b : encoding b = tlv_bytes (m_type b) (encoded_value b).
Proof. by destruct b as [ty [[w v]|] sz els]. Qed.

Lemma take_prepended e bs e' n : Encoder_prepended e bs e' -> n = len bs ->
  take (Z.to_nat n) (Encoder.view e') = bs.
Proof. intros (-> & _) ->. by rewrite to_nat_len, take_app_length. Qed.

(** Writing TLV-LENGTH and TLV-TYPE in front of a value just written. *)
Lemma encode_header ty v e0 e : Encoder.wf e -> Encoder_prepended e0 v e ->
  let '(e1, n1) := Encoder.prependVarNumber (len v) e in
  let '(e2, n2) := Encoder.prependVarNumber ty e1 in
  Encoder.wf e2 /\ Encoder_prepended e0 (tlv_bytes ty v) e2 /\
  len v + n1 + n2 = len (tlv_bytes ty v).
Proof.
  intros We P0. pose proof (Encoder_prependVarNumber_law (len v) e We) as H1.
  destruct (Encoder.prependVarNumber (len v) e) as [e1 n1]. destruct H1 as (W1 & P1 & ->).
  pose proof (Encoder_prependVarNumber_law ty e1 W1) as H2.
  destruct (Encoder.prependVarNumber ty e1) as [e2 n2]. destruct H2 as (W2 & P2 & ->).
  split_and!; [done| |unfold tlv_bytes; rewrite !len_app; lia].
  unfold tlv_bytes. eapply Encoder_prepended_trans; [|done].
  by eapply Encoder_prepended_trans.
Qed.

Lemma encode_into_spec b : forall e, Encoder.wf e ->
  let '(b', e', n) := encode_into b e in
  b' = encoded b /\ Encoder.wf e' /\ Encoder_prepended e (encoding b) e' /\ n = len (encoding b).
Proof.
  induction b as [ty buf sz els IH] using block_ind. intros e We.
  assert (exists els' e1, Encoder.wf e1 /\
    Encoder_prepended e (encoded_value (mk ty buf sz els)) e1 /\
    els' = m_elements (encoded (mk ty buf sz els)) /\
    encode_into (mk ty buf sz els) e =
      let len1 := len (encoded_value (mk ty buf sz els)) in
      let value := take (Z.to_nat len1) (Encoder.view e1) in
      let '(e2, n) := Encoder.prependVarNumber len1 e1 in
      let '(e3, n') := Encoder.prependVarNumber ty e2 in
      (mk ty (Some (take (Z.to_nat (len1 + n + n')) (Encoder.view e3), value)) (len1 + n + n') els',
       e3, len1 + n + n'))
    as (els' & e1 & W1 & P1 & -> & ->).
  { destruct buf as [[w v]|]; cbn [encode_into m_buf m_elements m_type encoded].
    - pose proof (EncoderFacts.prependRange_spec v e We) as H.
      destruct (Encoder.prependRange v e) as [e1 n]. destruct H as (W1 & V1 & -> & E1 & R1).
      exists els, e1. split; [done|]. split; [by unfold Encoder_prepended; split_and!|]. split; [done|].
      done.
    - set (go := fix encode_elements (l : list t) (encoder : Encoder.t) := _).
      assert (forall e, Encoder.wf e -> let '(xs, e', n) := go els e in
        xs = (encoded <$> els) /\ Encoder.wf e' /\
        Encoder_prepended e (mjoin (encoding <$> els)) e' /\
        n = len (mjoin (encoding <$> els))) as Hgo.
      { clear e We. induction IH as [|x xs Hx Hxs IHxs]; intros e We; simpl.
        { split_and!; auto using Encoder_prepended_nil. }
        specialize (IHxs e We). destruct (go xs e) as [[xs' e1] n1].
        destruct IHxs as (-> & W1 & P1 & ->). specialize (Hx e1 W1).
        destruct (encode_into x e1) as [[x' e2] n2]. destruct Hx as (-> & W2 & P2 & ->).
        split_and!; [done|done|by eapply Encoder_prepended_trans|].
        rewrite len_app. apply Z.add_comm. }
      specialize (Hgo e We). destruct (go els e) as [[xs e1] n]. destruct Hgo as (-> & W1 & P1 & ->).
      eexists _, e1. split_and!; done. }
  pose proof (encode_header ty _ _ _ W1 P1) as H. cbn zeta.
  rewrite (take_prepended _ _ _ _ P1 eq_refl).
  destruct (Encoder.prependVarNumber _ e1) as [e2 n2].
  destruct (Encoder.prependVarNumber ty e2) as [e3 n3]. destruct H as (W3 & P3 & Hn).
  rewrite Hn, (take_prepended _ _ _ _ P3 eq_refl).
  split_and!; [|done| |]; by destruct buf as [[w v]|].
Qed.

(** *** The estimate bounds what is written, so [encode] never reallocates *)

Lemma header_ok_len ty w v : header_ok ty w v -> len (tlv_bytes ty v) <= len w.
Proof.
  intros (pos & R1 & R2).
  destruct (read_header_split _ _ _ _ _ R1 R2) as (hdr & -> & _ & _ & Hs).
  rewrite len_tlv_bytes, len_app. lia.
Qed.

Lemma tlv_bytes_len_mono ty v n : len v <= n ->
  len (tlv_bytes ty v) <= n + tlv.sizeOfVarNumber n + tlv.sizeOfVarNumber ty.
Proof.
  intros H. rewrite len_tlv_bytes. pose proof (sizeOfVarNumber_mono _ _ H). lia.
Qed.

Lemma encode_estimate_bound b : wf b -> len (encoding b) <= encode_estimate b.
Proof.
  induction b as [ty buf sz els IH] using block_ind. intros Hwf.
  inversion Hwf as [? ? ? ? Ht Hbuf Hels Hwfs]; subst.
  destruct buf as [[w v]|]; simpl.
  - destruct w as [|c w]; [by subst|]. destruct Hbuf as [Hh ->]. by apply header_ok_len.
  - apply tlv_bytes_len_mono.
    clear -IH Hwfs. induction els as [|x xs IHxs]; simpl; [done|].
    change (list_fmap t bytes encoding xs) with (encoding <$> xs). rewrite len_app. apply Forall_cons_iff in IH as [Hx IH].
    apply Forall_cons_iff in Hwfs as [Wx Wxs].
    specialize (Hx Wx). specialize (IHxs IH Wxs). lia.
Qed.

Lemma encode_no_realloc b : wf b ->
  let '(_, e', _) := encode_into b (Encoder.make (encode_estimate b) 0) in
  Encoder.capacity e' = encode_estimate b.
Proof.
  intros Hwf. pose proof (encode_estimate_bound b Hwf) as Hb.
  set (n := encode_estimate b) in *. pose proof (len_nonneg (encoding b)) as H0.
  assert (Encoder.make n 0
    = Encoder.mk (replicate (Z.to_nat n) Byte.x00) (Z.to_nat n) (Z.to_nat n)) as ->.
  { unfold Encoder.make. rewrite length_replicate.
    by destruct (0 <? n); simpl; rewrite Nat.sub_0_r. }
  set (e := Encoder.mk _ _ _).
  assert (Encoder.wf e) as We by (unfold Encoder.wf, e; simpl; rewrite length_replicate; lia).
  pose proof (encode_into_spec b e We) as H. destruct (encode_into b e) as [[b' e'] k].
  destruct H as (_ & _ & (_ & _ & R) & _).
  destruct R as [_ HR]; [unfold e, len in *; simpl; lia|].
  unfold Encoder.capacity, len. rewrite HR. unfold e; simpl.
  rewrite length_replicate. lia.
Qed.

Lemma encode_spec b : hasWire b = false -> encode b = encoded b.
Proof.
  intros H. unfold encode. rewrite H.
  set (e := Encoder.make _ _).
  assert (Encoder.wf e) as We.
  { unfold e, Encoder.make, Encoder.wf. simpl. rewrite length_replicate. lia. }
  pose proof (encode_into_spec b e We) as Hs. destruct (encode_into b e) as [[b' e'] k].
  by destruct Hs as [-> _].
Qed.

(** *** The invariant is kept *)

Create HintDb block_wf.

Lemma wf_type b : wf b -> is_tlv_type (m_type b).
Proof. by inversion 1. Qed.

Lemma wf_elements b : wf b -> Forall wf (m_elements b).
Proof. by inversion 1. Qed.

Lemma wf_raw ty w v : header_ok ty w v -> is_tlv_type ty -> wf (mk ty (Some (w, v)) (len w) []).
Proof. intros H1 H2. by destruct (raw_intro ty w v H1 H2) as (_ & ? & _). Qed.

Lemma fromSpan_wf bs b : fromSpan bs = Ok b -> wf b.
Proof.
  unfold fromSpan. intros H.
  destruct (tlv.readType bs) as [[ty pos1]|] eqn:R1; simpl in H; [|done].
  destruct (tlv.readVarNumber pos1) as [[n pos]|] eqn:R2; simpl in H; [|done].
  unfold throw_if in H. destruct (len pos <? n) eqn:Hn; simpl in H; [done|].
  bool_to_prop. simplify_eq. destruct (read_element _ _ _ _ _ R1 R2 Hn) as (? & ? & _).
  by apply wf_raw.
Qed.

(** The [noexcept] variant succeeds exactly when the constructor does. *)
Lemma fromBufferSpan_spec bs b : fromBufferSpan bs = Some b <-> fromSpan bs = Ok b.
Proof.
  unfold fromBufferSpan, fromSpan.
  destruct (tlv.readType bs) as [[ty pos1]|] eqn:R1.
  - pose proof R1 as R1'. apply readType_noexcept_inv in R1'. rewrite R1'. simpl.
    destruct (tlv.readVarNumber pos1) as [[n pos]|] eqn:R2.
    + pose proof R2 as R2'. apply readVarNumber_inv in R2'. rewrite R2'. simpl. unfold throw_if.
      destruct (len pos <? n); simpl; split; intros; by simplify_eq.
    + destruct (tlv.readVarNumber_noexcept pos1) as [[n pos]|] eqn:R3; [|done].
      apply readVarNumber_inv in R3. congruence.
  - destruct (tlv.readType_noexcept bs) as [[ty pos1]|] eqn:R3; [|done].
    apply readType_noexcept_inv in R3. congruence.
Qed.

Lemma fromBuffer_spec bs off : fromBuffer bs off = fromBufferSpan (drop off bs).
Proof. done. Qed.

Lemma fromRange_wf bs i j b : fromRange bs i j true = Ok b -> wf b.
Proof.
  unfold fromRange, throw_if. intros H. set (r := take (j - i) (drop i bs)) in *.
  destruct (len bs =? 0); [done|]. cbn [mbind result_bind] in H.
  destruct (_ || _); [done|]. cbn [mbind result_bind] in H.
  destruct (tlv.readType r) as [[ty pos]|] eqn:R1; simpl in H; [|done].
  destruct (tlv.readVarNumber pos) as [[n v]|] eqn:R2; simpl in H; [|done].
  destruct (n =? len v) eqn:E; simpl in H; [|done]. bool_to_prop. subst n. simplify_eq.
  apply wf_raw; [by exists pos|]. by apply readType_split in R1 as (? & _ & ? & _).
Qed.

Lemma parse_wf b b' : wf b -> parse b = (b', None) -> wf b'.
Proof.
  intros Hb. unfold parse. destruct (negb _ || _); [intros; by simplify_eq|].
  destruct (parse_loop _ _ _) as [els [e|]] eqn:E; [done|]. intros; simplify_eq.
  apply parse_loop_sound in E as (new & -> & Hr & Hj). simpl.
  destruct b as [ty buf sz els0]. inversion Hb as [? ? ? ? Ht Hbuf _ _]; subst. simpl in *.
  constructor; auto.
  - destruct buf as [[w v]|]; [|done]. by right.
  - eapply Forall_impl; [|exact Hr]. by intros x (_ & ? & _).
Qed.

Lemma resetWire_wf b els : wf b -> Forall wf els -> wf (mk (m_type b) None (m_size b) els).
Proof. intros Hb He. constructor; auto. by apply wf_type. Qed.

Lemma len_mjoin_elem (f : t -> bytes) els x : x ∈ els -> len (f x) <= len (mjoin (f <$> els)).
Proof.
  induction 1 as [x els|x y els _ IH]; rewrite fmap_cons; cbn [mjoin list_join];
    rewrite len_app; [pose proof (len_nonneg (list_join _ (f <$> els)))|pose proof (len_nonneg (f y))];
    unfold mjoin in *; lia.
Qed.

Lemma header_ok_tlv ty v : is_tlv_type ty -> is_u64 (len v) -> header_ok ty (tlv_bytes ty v) v.
Proof.
  intros Ht Hv. destruct (read_header_tlv ty v [] Ht Hv) as (pos & R1 & R2).
  rewrite app_nil_r in R1, R2. by exists pos.
Qed.

Lemma len_value_tlv ty v : len v <= len (tlv_bytes ty v).
Proof.
  rewrite len_tlv_bytes. pose proof (sizeOfVarNumber_pos ty).
  pose proof (sizeOfVarNumber_pos (len v)). lia.
Qed.

Lemma wire_bytes_encoded (els : list t) : wire_bytes <$> (encoded <$> els) = encoding <$> els.
Proof. rewrite <- list_fmap_compose. apply list_fmap_ext. by intros ? [] _. Qed.

Lemma encoded_wf b : wf b -> len (encoding b) <= UINT64_MAX -> wf (encoded b).
Proof.
  induction b as [ty buf sz els IH] using block_ind. intros Hb Hlen.
  inversion Hb as [? ? ? ? Ht Hbuf Hels Hwfs]; subst. rewrite encoding_unfold in Hlen.
  set (v := encoded_value (mk ty buf sz els)) in *. cbn [m_type] in Hlen.
  pose proof (len_value_tlv ty v) as Hv. pose proof (len_nonneg v).
  assert (header_ok ty (tlv_bytes ty v) v) as Hh by (apply header_ok_tlv; [done|width; lia]).
  cbn [encoded]. rewrite encoding_unfold. cbn [m_type m_buf m_elements]. fold v.
  constructor; [done| | |].
  - destruct (tlv_bytes ty v) eqn:E; [|done].
    by apply header_ok_nonempty in Hh.
  - destruct buf as [[w v']|]; [done|]. right. by rewrite wire_bytes_encoded.
  - destruct buf as [[w v']|]; [done|]. apply Forall_fmap, Forall_forall. intros x Hx.
    rewrite Forall_forall in IH, Hwfs. apply IH; [done|by apply Hwfs|].
    pose proof (len_mjoin_elem encoding els x (proj2 (list_elem_of_In _ _) Hx)). change v with (mjoin (encoding <$> els)) in Hv, Hlen. lia.
Qed.

End BlockFacts.

(** ** Theorems *)

Module BlockTheorems.
Import Block BlockFacts.

(** The blocks a program can build and reach: the constructors and factory
    functions, successful [parse], access to sub-elements, and every
    operation that edits or encodes. *)
Inductive reachable : t -> Prop :=
| reach_fromSpan bs b : fromSpan bs = Ok b -> reachable b
| reach_fromRange bs i j b : fromRange bs i j true = Ok b -> reachable b
| reach_fromBuffer bs off b : fromBuffer bs off = Some b -> reachable b
| reach_fromStream bs b rest : fromStream bs = Ok (b, rest) -> reachable b
| reach_blockFromValue b b' : reachable b -> blockFromValue b = Ok b' -> reachable b'
| reach_ofType ty : is_tlv_type ty -> reachable (ofType ty)
| reach_ofTypeValue ty v : is_tlv_type ty -> reachable (ofTypeValue ty v)
| reach_ofTypeBlock ty b b' : is_tlv_type ty -> reachable b -> ofTypeBlock ty b = Ok b' -> reachable b'
| reach_parse b b' : reachable b -> parse b = (b', None) -> reachable b'
| reach_element b x : reachable b -> x ∈ elements b -> reachable x
| reach_encode b : reachable b -> len (encoding b) <= UINT64_MAX -> reachable (encode b)
| reach_resetWire b : reachable b -> reachable (resetWire b)
| reach_push_back b x : reachable b -> reachable x -> reachable (push_back x b)
| reach_insert b pos x : reachable b -> reachable x -> reachable (insert pos x b)
| reach_erase b pos : reachable b -> reachable (erase pos b)
| reach_eraseRange b i j : reachable b -> reachable (eraseRange i j b)
| reach_remove b ty : reachable b -> reachable (remove ty b).

Lemma fromStream_range bs b rest : fromStream bs = Ok (b, rest) ->
  exists buf, fromRange buf 0 (length buf) true = Ok b.
Proof.
  unfold fromStream. intros H.
  destruct (tlv.readType bs) as [[ty s1]|]; [|done]. cbn [mbind result_bind] in H.
  destruct (tlv.readVarNumber s1) as [[n s]|]; [|done]. cbn [mbind result_bind] in H.
  unfold throw_if in H. destruct (MAX_SIZE_OF_BLOCK_FROM_STREAM <? _); [done|].
  cbn [mbind result_bind] in H. destruct (len s <? n); [done|]. cbn [mbind result_bind] in H.
  destruct (Encoder.prependVarNumber n _) as [e1 n1].
  destruct (Encoder.prependVarNumber ty e1) as [e2 n2]. exists (Encoder.m_buffer e2).
  unfold fromBufferPtr in H.
  destruct (fromRange _ _ _ _) eqn:E; simpl in H; by simplify_eq.
Qed.

(** A prepend into a buffer with exactly the room needed, the octets behind
    [m_begin] being kept. *)
Lemma prepend_front n buf b en hd tl :
  buf = hd ++ tl -> b = length hd -> (length (tlv.writeVarNumber n) <= b)%nat ->
  exists hd', length hd' = (b - length (tlv.writeVarNumber n))%nat /\
  fst (Encoder.prependVarNumber n (Encoder.mk buf b en))
  = Encoder.mk (hd' ++ tlv.writeVarNumber n ++ tl) (length hd') en.
Proof.
  intros -> -> Hle. exists (take (length hd - length (tlv.writeVarNumber n)) hd).
  rewrite length_take, EncoderFacts.prependVarNumber_room by (rewrite length_app; lia).
  split; [lia|]. rewrite take_app_le, drop_app_length by lia. f_equal. lia.
Qed.

(** The buffer [fromStream] hands over: TLV-VALUE is written behind the room
    kept for TLV-TYPE and TLV-LENGTH, which are then filled in. *)
Lemma stream_buffer ty v :
  let tl := tlv.sizeOfVarNumber ty + tlv.sizeOfVarNumber (len v) in
  let eb := Encoder.make (tl + len v) (len v) in
  let eb := Encoder.mk (Encoder.overwrite (Encoder.m_begin eb) v (Encoder.m_buffer eb))
                       (Encoder.m_begin eb) (Encoder.m_end eb) in
  let eb := fst (Encoder.prependVarNumber (len v) eb) in
  Encoder.m_buffer (fst (Encoder.prependVarNumber ty eb)) = tlv_bytes ty v.
Proof.
  cbn zeta. pose proof (len_nonneg v) as H0.
  pose proof (sizeOfVarNumber_pos ty) as Hs1. pose proof (sizeOfVarNumber_pos (len v)) as Hs2.
  pose proof (len_writeVarNumber (len v)) as L1. pose proof (len_writeVarNumber ty) as L2.
  unfold len in L1 at 1. unfold len in L2.
  set (tl := tlv.sizeOfVarNumber ty + tlv.sizeOfVarNumber (len v)) in *.
  assert (Encoder.make (tl + len v) (len v)
    = Encoder.mk (replicate (Z.to_nat tl + length v) Byte.x00) (Z.to_nat tl) (Z.to_nat tl)) as ->.
  { unfold Encoder.make. replace (len v <? tl + len v) with true by lia.
    rewrite to_nat_len. replace (Z.to_nat (tl + len v)) with (Z.to_nat tl + length v)%nat
      by (unfold len; lia). rewrite length_replicate. f_equal; lia. }
  cbn [Encoder.m_begin Encoder.m_end Encoder.m_buffer].
  assert (Encoder.overwrite (Z.to_nat tl) v (replicate (Z.to_nat tl + length v) Byte.x00)
    = replicate (Z.to_nat tl) Byte.x00 ++ v) as ->.
  { unfold Encoder.overwrite. rewrite replicate_add, take_app_length' by (by rewrite length_replicate).
    rewrite drop_ge by (rewrite length_app, !length_replicate; lia). by rewrite app_nil_r. }
  destruct (prepend_front (len v) _ (Z.to_nat tl) (Z.to_nat tl) (replicate (Z.to_nat tl) Byte.x00) v
    eq_refl) as (hd1 & Hl1 & ->); [by rewrite length_replicate|lia|].
  destruct (prepend_front ty _ (length hd1) (Z.to_nat tl) hd1 (tlv.writeVarNumber (len v) ++ v)
    eq_refl eq_refl) as (hd2 & Hl2 & ->); [lia|].
  cbn [Encoder.m_buffer]. destruct hd2; simpl in Hl2; [done|lia].
Qed.



(** Decoding inverts encoding, for each way of decoding a buffer: from a
    span that may continue behind the element, without exceptions, from an
    offset, from a buffer holding exactly the element, and from a stream (up
    to the size limit of a packet), which is left at the octets behind. *)
Theorem block_decode_encoded (ty : Z) (v pre tail : bytes)
    (Ht : is_tlv_type ty) (Hv : is_u64 (len v)) :
  let w := tlv_bytes ty v in
  let b := of_tlv ty v in
  type b = ty /\ value b = v /\ wire b = Ok w /\ size b = Ok (len w) /\
  fromSpan (w ++ tail) = Ok b /\
  fromBufferSpan (w ++ tail) = Some b /\
  fromBuffer (pre ++ w ++ tail) (length pre) = Some b /\
  fromBufferPtr w = Ok b /\
  (len w <= MAX_SIZE_OF_BLOCK_FROM_STREAM -> fromStream (w ++ tail) = Ok (b, tail)) /\
  (MAX_SIZE_OF_BLOCK_FROM_STREAM < len w -> len w <= UINT64_MAX ->
     fromStream (w ++ tail) = Throw (BlockError "TLV-LENGTH from stream exceeds limit")).
Proof.
  cbn zeta.
  assert (fromSpan (tlv_bytes ty v ++ tail) = Ok (of_tlv ty v)) as HS by by apply fromSpan_tlv.
  pose proof (tlv_bytes_nonempty ty v []) as Hne. rewrite app_nil_r in Hne.
  split; [done|]. split; [done|].
  split; [unfold wire; simpl; by destruct (tlv_bytes ty v)|].
  split. { unfold size, isValid; simpl. width. unfold tlv.Invalid.
    by replace (ty =? 0) with false by lia. }
  split; [done|]. split; [by apply fromBufferSpan_spec|].
  split. { rewrite fromBuffer_spec, drop_app_length. by apply fromBufferSpan_spec. }
  split; [by apply fromRange_of_tlv|].
  destruct (read_header_tlv ty v tail Ht Hv) as (pos1 & R1 & R2).
  unfold fromStream. rewrite R1. cbn [mbind result_bind]. rewrite R2. cbn [mbind result_bind].
  rewrite len_tlv_bytes. pose proof (len_nonneg v) as H0.
  pose proof (sizeOfVarNumber_pos ty) as Hs1. pose proof (sizeOfVarNumber_pos (len v)) as Hs2.
  set (tl := tlv.sizeOfVarNumber ty + tlv.sizeOfVarNumber (len v)) in *.
  split.
  - unfold MAX_SIZE_OF_BLOCK_FROM_STREAM, tlv.MAX_NDN_PACKET_SIZE. intros Hle.
    unfold u64, throw_if. rewrite Z.mod_small by lia.
    replace (8800 <? tl + len v) with false by lia. cbn [mbind result_bind].
    rewrite len_app. replace (len v + len tail <? len v) with false
      by (pose proof (len_nonneg tail); lia). cbn [mbind result_bind].
    rewrite to_nat_len, take_app_length, drop_app_length.
    pose proof (stream_buffer ty v) as HB. cbn zeta in HB. fold tl in HB.
    destruct (Encoder.prependVarNumber (len v) _) as [e1 n1]. cbn [fst] in HB.
    destruct (Encoder.prependVarNumber ty e1) as [e2 n2]. cbn [fst] in HB.
    rewrite HB. unfold fromBufferPtr. by rewrite fromRange_of_tlv by done.
  - unfold MAX_SIZE_OF_BLOCK_FROM_STREAM, tlv.MAX_NDN_PACKET_SIZE. intros Hgt Hle.
    width. unfold u64, throw_if. rewrite Z.mod_small by lia.
    by replace (8800 <? tl + len v) with true by lia.
Qed.

Lemma block_decode_encoded_witness :
  fromStream (tlv_bytes 7 [z2b 8; z2b 0] ++ [z2b 1]) = Ok (of_tlv 7 [z2b 8; z2b 0], [z2b 1]).
Proof. apply (block_decode_encoded 7 [z2b 8; z2b 0] [] [z2b 1]); by vm_compute. Defined.

(** C18: [parse] splits TLV-VALUE into sub-elements: it succeeds with a list of
    sub-elements exactly if these are well-formed elements, not parsed
    themselves, whose wires put together are the value; the rest of the block
    is then untouched and a second [parse] does nothing.  In particular a value
    that is a sequence of elements in their shortest encodings is split into
    exactly these. *)
Theorem block_parse_spec (b : t) (Hb : wf b) (Hu : elements b = []) :
  (forall els, (exists b', parse b = (b', None) /\ elements b' = els) <->
     Forall raw_ok els /\ mjoin (wire_bytes <$> els) = value b) /\
  (forall b', parse b = (b', None) -> wf b' /\ type b' = type b /\ m_buf b' = m_buf b /\ size b' = size b /\ parse b' = (b', None)) /\
  (forall l, Forall tlv_ok l -> value b = tlv_seq l -> exists b', parse b = (b', None) /\ elements b' = (of_pair <$> l)).
Proof.
  unfold elements in *.
  assert (Hrun : parse b = if value_size b =? 0 then (b, None) else
    let '(els, e) := parse_loop (length (value b)) (value b) [] in (mk (m_type b) (m_buf b) (m_size b) els, e)).
  { unfold parse. by rewrite Hu. }
  assert (Hempty : value_size b =? 0 = true -> value b = []) by (intros E; by apply Z.eqb_eq, len_zero in E).
  split_and!.
  - intros els. rewrite Hrun. destruct (value_size b =? 0) eqn:E.
    + rewrite (Hempty eq_refl). split; [intros (b' & [= <-] & <-); by rewrite Hu|]. intros [Hr Hj]. exists b. split; [done|].
      rewrite Hu. destruct els as [|x els]; [done|]. apply Forall_cons_iff in Hr as [Hx _].
      destruct (raw_cases x Hx) as (ty & w & v & -> & Hh). apply header_ok_nonempty in Hh. by destruct w.
    + split.
      * destruct (parse_loop _ _ _) as [es [e|]] eqn:L; intros (b' & Eb & <-); [done|]. injection Eb as <-.
        apply parse_loop_sound in L as (new & -> & Hr & Hj). done.
      * intros [Hr Hj]. rewrite <- Hj, (parse_loop_complete els [] Hr). by eexists.
  - intros b' Hp. pose proof (parse_wf b b' Hb Hp) as Hw. split; [done|]. rewrite Hrun in Hp. destruct (value_size b =? 0) eqn:E.
    + injection Hp as <-. split_and!; done.
    + destruct (parse_loop _ _ _) as [es [e|]] eqn:L; [done|]. injection Hp as <-. split_and!; try done.
      apply parse_loop_sound in L as (new & -> & _ & Hj). unfold parse. cbn [m_elements app]. destruct new; [|done].
      simpl. unfold value_size, value in *. cbn [m_buf]. simpl in Hj. destruct (m_buf b) as [[w v]|]; [|done]. simpl in Hj. by subst v.
  - intros l Hl Hv. rewrite Hrun. destruct (value_size b =? 0) eqn:E.
    + rewrite (Hempty eq_refl) in Hv. exists b. split; [done|]. rewrite Hu. destruct l as [|[ty v] l]; [done|].
      symmetry in Hv. by apply tlv_bytes_nonempty in Hv.
    + rewrite Hv, parse_loop_tlv by done. by eexists.
Qed.

Lemma block_parse_spec_witness : exists b',
  parse (of_tlv 7 (tlv_seq [(8, [z2b 65]); (8, [])])) = (b', None) /\ elements b' = [of_tlv 8 [z2b 65]; of_tlv 8 []].
Proof.
  destruct (block_parse_spec (of_tlv 7 (tlv_seq [(8, [z2b 65]); (8, [])]))) as (_ & _ & H).
  - apply (fromSpan_wf (tlv_bytes 7 (tlv_seq [(8, [z2b 65]); (8, [])]))). by vm_compute.
  - reflexivity.
  - apply (H [(8, [z2b 65]); (8, [])]); [|reflexivity]. repeat constructor; by vm_compute.
Defined.

(** A block edited through its sub-elements survives the wire: [encode]
    never reallocates the buffer it estimated, the wire it leaves decodes to
    the type of the block, and parsing that gives the sub-elements back in
    order, each with its type and value. *)
Theorem block_encode_roundtrip (b : t) (Hb : wf b) (Hn : m_buf b = None)
    (Hs : len (encoding b) <= UINT64_MAX) :
  wf (encode b) /\ wire (encode b) = Ok (encoding b) /\
  (let '(_, e, _) := encode_into b (Encoder.make (encode_estimate b) 0) in
   Encoder.capacity e = encode_estimate b) /\
  exists d d', fromSpan (encoding b) = Ok d /\ type d = type b /\ parsed d = Ok d' /\
    elements d' = (fun x => of_tlv (type x) (encoded_value x)) <$> elements b.
Proof.
  assert (hasWire b = false) as Hw by (unfold hasWire; by rewrite Hn).
  rewrite encode_spec by done. pose proof (encoding_unfold b) as Hu.
  pose proof (wf_type b Hb) as Ht. set (v := encoded_value b) in *.
  pose proof (len_value_tlv (m_type b) v) as Hv. rewrite <- Hu in Hv.
  pose proof (len_nonneg v) as H0.
  set (l := (fun x => (type x, encoded_value x)) <$> elements b).
  assert (v = tlv_seq l) as Hl.
  { unfold v, encoded_value, tlv_seq, l. rewrite Hn, <- list_fmap_compose. f_equal.
    apply list_fmap_ext. intros i x _. apply encoding_unfold. }
  assert (Forall tlv_ok l) as Hok.
  { unfold l. apply Forall_fmap, Forall_forall. intros x Hx. apply list_elem_of_In in Hx.
    pose proof (wf_elements b Hb) as Hwf. rewrite Forall_forall in Hwf. split; simpl.
    - by apply wf_type, Hwf, list_elem_of_In.
    - pose proof (len_mjoin_elem encoding _ _ Hx) as Hm. rewrite encoding_unfold in Hm.
      pose proof (len_value_tlv (m_type x) (encoded_value x)).
      pose proof (len_nonneg (encoded_value x)).
      assert (v = mjoin (encoding <$> m_elements b)) as Ev by (unfold v, encoded_value; by rewrite Hn).
      rewrite Ev in Hv. unfold elements in Hm. width. lia. }
  split; [by apply encoded_wf|]. split.
  { unfold wire. destruct b; cbn [encoded m_buf]. rewrite Hu. cbn [m_type].
    destruct (tlv_bytes m_type0 v) eqn:E; [|done].
    exfalso. apply (tlv_bytes_nonempty m_type0 v []). by rewrite E. }
  split; [by apply encode_no_realloc|].
  exists (of_tlv (m_type b) v). rewrite Hl. eexists. rewrite Hu, Hl.
  rewrite fromSpan_of_tlv by (try done; rewrite <- Hl; width; lia).
  split; [done|]. split; [done|]. split; [by apply parsed_of_tlv|].
  cbn [elements m_elements]. unfold l. by rewrite <- list_fmap_compose.
Qed.

Lemma block_encode_roundtrip_witness :
  wire (encode (push_back (ofTypeValue 8 [z2b 65]) (ofType 7))) = Ok [z2b 7; z2b 3; z2b 8; z2b 1; z2b 65].
Proof.
  apply (block_encode_roundtrip (push_back (ofTypeValue 8 [z2b 65]) (ofType 7))).
  - apply (resetWire_wf (ofType 7)); repeat constructor; by vm_compute.
  - done.
  - by vm_compute.
Defined.

Lemma parse_loop_overrun acc : exists e, parse_loop 2 [z2b 8; z2b 1] acc = ([], Some e).
Proof.
  cbn [parse_loop].
  assert (tlv.readType [z2b 8; z2b 1] = Ok (8, [z2b 1])) as -> by by vm_compute.
  assert (tlv.readVarNumber [z2b 1] = Ok (1, [])) as -> by by vm_compute.
  by eexists.
Qed.

Lemma parse_loop_cut acc : exists e, parse_loop 1 [z2b 8] acc = (acc, Some e).
Proof.
  cbn [parse_loop]. assert (tlv.readType [z2b 8] = Ok (8, [])) as -> by by vm_compute.
  by eexists.
Qed.

(** How [parse] fails.  A TLV-LENGTH that runs over the end of the value
    clears the sub-elements found so far, but a TLV-TYPE without TLV-LENGTH
    leaves them in place: the block then counts as parsed, and calling [parse]
    again reports no error although the value is malformed. *)
Theorem block_parse_failure (ty : Z) (l : list (Z * bytes)) (Hl : Forall tlv_ok l) (Hne : l <> []) :
  let overrun := of_tlv ty (tlv_seq l ++ [z2b 8; z2b 1]) in
  let cut := of_tlv ty (tlv_seq l ++ [z2b 8]) in
  (exists e, parse overrun = (overrun, Some e)) /\
  (exists e b', parse cut = (b', Some e) /\ elements b' = (of_pair <$> l) /\
     parse b' = (b', None)).
Proof.
  assert (forall x tail, parse (of_tlv ty (tlv_seq l ++ x :: tail))
    = let '(els, e) := parse_loop (length (x :: tail)) (x :: tail) (of_pair <$> l) in
      let b := of_tlv ty (tlv_seq l ++ x :: tail) in (mk ty (m_buf b) (m_size b) els, e)) as Hp.
  { intros x tail. unfold parse. cbn [of_tlv m_elements m_type].
    change (len (@nil t) =? 0) with true. cbn [negb orb].
    destruct (value_size _ =? 0) eqn:E.
    - apply Z.eqb_eq, len_zero in E. unfold value in E. simpl in E. by destruct (tlv_seq l).
    - unfold value. cbn [m_buf of_tlv]. by rewrite parse_loop_tlv_tail. }
  cbn zeta. split; rewrite Hp.
  - cbn [length]. destruct (parse_loop_overrun (of_pair <$> l)) as [e ->]. by eexists.
  - cbn [length]. destruct (parse_loop_cut (of_pair <$> l)) as [e ->]. eexists _, _. split; [reflexivity|]. split; [done|].
    unfold parse. cbn [m_elements]. by destruct l.
Qed.

Lemma block_parse_failure_witness :
  exists e, parse (of_tlv 7 (tlv_seq [(8, [])] ++ [z2b 8; z2b 1]))
            = (of_tlv 7 (tlv_seq [(8, [])] ++ [z2b 8; z2b 1]), Some e).
Proof.
  apply (block_parse_failure 7 [(8, [])]); [|done]. repeat constructor; by vm_compute.
Defined.

End BlockTheorems.
