(* ===== verification/BlockHelpers.v ===== *)
(** The helpers of [ndn-cxx/encoding/block-helpers.hpp] and
    [block-helpers.cpp]: templates that prepend a whole TLV element, factory
    functions that make a [Block] of one, and readers of simple values.

    A [double] is its IEEE-754 bit pattern, a number of 64 bits. *)

From S2P Require Import Prelude Tlv Encoding Blocks.

(** What the C++ concept [WireEncodableWithEncodingBuffer] asks of a type, and
    what its template promises: one element, of some type and value. *)
Class WireEncodable (U : Type) := wireEncode : U -> prepender.

Class WireEncodableLaws (U : Type) `{WireEncodable U} := {
  we_type : U -> Z;
  we_value : U -> bytes;
  we_encodes : forall x, Encodes (wireEncode x) (tlv_bytes (we_type x) (we_value x));
}.

(** Estimate, allocate, encode, [encoder.block()]. *)
Definition makeBlock (f : prepender) : result Block.t := Encoder_block (run_encoder f) true.

Module encoding.

(** [ndn-cxx/encoding/block-helpers.cpp:33-42] encoding::prependNonNegativeIntegerBlock *)
Definition prependNonNegativeIntegerBlock (type value : Z) : prepender :=
  pTL type (pNonNegativeInteger value).

(** [ndn-cxx/encoding/block-helpers.cpp:50-60] encoding::makeNonNegativeIntegerBlock *)
Definition makeNonNegativeIntegerBlock (type value : Z) : result Block.t :=
  makeBlock (prependNonNegativeIntegerBlock type value).

(** [ndn-cxx/encoding/block-helpers.cpp:62-67] encoding::readNonNegativeInteger *)
Definition readNonNegativeInteger (block : Block.t) : result Z :=
  '(n, _) ← tlv.readNonNegativeInteger (Block.value_size block) (Block.value block);
  Ok n.

(** [ndn-cxx/encoding/block-helpers.hpp:70-79] encoding::readNonNegativeIntegerAs
    [max] is [std::numeric_limits<R>::max()] of the target type. *)
Definition readNonNegativeIntegerAs (max : Z) (block : Block.t) : result Z :=
  value ← readNonNegativeInteger block;
  _ ← throw_if (max <? value) (TlvError "Value in TLV element is too large");
  Ok value.

(** [ndn-cxx/encoding/block-helpers.cpp:71-79] encoding::prependEmptyBlock *)
Definition prependEmptyBlock (type : Z) : prepender := pVarNumber 0 ;+ pVarNumber type.

(** [ndn-cxx/encoding/block-helpers.cpp:87-97] encoding::makeEmptyBlock *)
Definition makeEmptyBlock (type : Z) : result Block.t := makeBlock (prependEmptyBlock type).

(** [ndn-cxx/encoding/block-helpers.cpp:179-188] encoding::prependBinaryBlock *)
Definition prependBinaryBlock (type : Z) (value : bytes) : prepender := pTL type (pBytes value).

(** [ndn-cxx/encoding/block-helpers.cpp:196-206] encoding::makeBinaryBlock *)
Definition makeBinaryBlock (type : Z) (value : bytes) : result Block.t :=
  makeBlock (prependBinaryBlock type value).

(** [ndn-cxx/encoding/block-helpers.cpp:101-106] encoding::prependStringBlock *)
Definition prependStringBlock (type : Z) (value : bytes) : prepender := prependBinaryBlock type value.

(** [ndn-cxx/encoding/block-helpers.cpp:114-118] encoding::makeStringBlock *)
Definition makeStringBlock (type : Z) (value : bytes) : result Block.t := makeBinaryBlock type value.

(** [ndn-cxx/encoding/block-helpers.cpp:120-124] encoding::readString *)
Definition readString (block : Block.t) : bytes := Block.value block.

(** [ndn-cxx/encoding/block-helpers.cpp:130-138] encoding::prependDoubleBlock *)
Definition prependDoubleBlock (type value : Z) : prepender :=
  prependBinaryBlock type (be_bytes 8 value).

(** [ndn-cxx/encoding/block-helpers.cpp:146-156] encoding::makeDoubleBlock *)
Definition makeDoubleBlock (type value : Z) : result Block.t :=
  makeBlock (prependDoubleBlock type value).

(** [ndn-cxx/encoding/block-helpers.cpp:158-175] encoding::readDouble *)
Definition readDouble (block : Block.t) : result Z :=
  _ ← throw_if (negb (Block.value_size block =? 8)) (TlvError "Invalid length for double (must be 8)");
  Ok (be_number (Block.value block)).

(** [ndn-cxx/encoding/block-helpers.hpp:240-262] encoding::detail::BinaryBlockFast::makeBlock *)
Definition BinaryBlockFast_makeBlock (type : Z) (range : bytes) : result Block.t :=
  let valueLength := len range in
  let totalLength := valueLength + tlv.sizeOfVarNumber valueLength + tlv.sizeOfVarNumber type in
  let encoder := Encoder.make totalLength 0 in
  let '(encoder, _) := Encoder.prependRange range encoder in
  let '(encoder, _) := Encoder.prependVarNumber valueLength encoder in
  let '(encoder, _) := Encoder.prependVarNumber type encoder in
  Encoder_block encoder true.

(** [ndn-cxx/encoding/block-helpers.hpp:267-285] encoding::detail::BinaryBlockSlow::makeBlock *)
Definition BinaryBlockSlow_makeBlock (type : Z) (range : bytes) : result Block.t :=
  let encoder := Encoder.make 4 4 in
  let '(encoder, valueLength) := Encoder.appendRange range encoder in
  let '(encoder, _) := Encoder.prependVarNumber valueLength encoder in
  let '(encoder, _) := Encoder.prependVarNumber type encoder in
  Encoder_block encoder true.

(** [ndn-cxx/encoding/block-helpers.cpp:210-221] encoding::prependBlock *)
Definition prependBlock (block : Block.t) : prepender :=
  match Block.wire block with
  | Ok w => pBytes w
  | Throw _ => prependBinaryBlock (Block.type block) (Block.value block)
  end.

(** [ndn-cxx/encoding/block-helpers.hpp:332-342] encoding::prependNestedBlock(encoder, type, value) *)
Definition prependNestedBlock {U} `{WireEncodable U} (type : Z) (value : U) : prepender :=
  pTL type (wireEncode value).

(** [ndn-cxx/encoding/block-helpers.hpp:350-360] encoding::makeNestedBlock(type, value) *)
Definition makeNestedBlock {U} `{WireEncodable U} (type : Z) (value : U) : result Block.t :=
  makeBlock (prependNestedBlock type value).

(** [ndn-cxx/encoding/block-helpers.hpp:370-387] encoding::prependNestedBlock(encoder, type, first, last) *)
Definition prependNestedBlocks {U} `{WireEncodable U} (type : Z) (range : list U) : prepender :=
  pTL type (pReversed wireEncode range).

(** [ndn-cxx/encoding/block-helpers.hpp:396-406] encoding::makeNestedBlock(type, first, last) *)
Definition makeNestedBlocks {U} `{WireEncodable U} (type : Z) (range : list U) : result Block.t :=
  makeBlock (prependNestedBlocks type range).

End encoding.

(** ** Lemmas *)

Section helper_facts.
Import encoding BlockFacts.

Lemma Encoder_block_view e ty v : Encoder.wf e -> Encoder.view e = tlv_bytes ty v ->
  is_tlv_type ty -> is_u64 (len v) -> Encoder_block e true = Ok (Block.of_tlv ty v).
Proof.
  intros [W1 W2] HV Ht Hv. unfold Encoder_block, Block.fromRange.
  change (take (Encoder.m_end e - Encoder.m_begin e) (drop (Encoder.m_begin e) (Encoder.m_buffer e)))
    with (Encoder.view e). rewrite HV.
  assert (length (tlv_bytes ty v) <= length (Encoder.m_buffer e))%nat as Hl.
  { rewrite <- HV. unfold Encoder.view. rewrite length_take, length_drop. lia. }
  pose proof (tlv_bytes_nonempty ty v []) as Hne. rewrite app_nil_r in Hne.
  unfold throw_if. assert (len (Encoder.m_buffer e) =? 0 = false) as ->.
  { apply Z.eqb_neq. destruct (tlv_bytes ty v); [done|]. unfold len. simpl in Hl. lia. }
  replace (length (Encoder.m_buffer e) <? Encoder.m_begin e)%nat with false
    by (symmetry; apply Nat.ltb_ge; lia).
  replace (length (Encoder.m_buffer e) <? Encoder.m_end e)%nat with false
    by (symmetry; apply Nat.ltb_ge; lia).
  destruct (header_ok_tlv ty v Ht Hv) as (pos & R1 & R2).
  cbn [mbind result_bind orb]. rewrite R1. cbn [mbind result_bind]. rewrite R2.
  cbn [mbind result_bind]. rewrite Z.eqb_refl. done.
Qed.

Lemma makeBlock_tlv f ty v : Encodes f (tlv_bytes ty v) -> is_tlv_type ty -> is_u64 (len v) ->
  makeBlock f = Ok (Block.of_tlv ty v).
Proof.
  intros Hf Ht Hv. unfold makeBlock. rewrite (run_encoder_spec _ _ Hf).
  apply Encoder_block_view; auto.
  - unfold Encoder.wf. simpl. lia.
  - unfold Encoder.view. simpl. rewrite Nat.sub_0_r. by apply take_ge.
Qed.

Lemma Encodes_nniBlock ty n :
  Encodes (prependNonNegativeIntegerBlock ty n) (tlv_bytes ty (tlv.writeNonNegativeInteger n)).
Proof. apply Encodes_TL, Encodes_nni. Qed.

Lemma Encodes_binaryBlock ty v : Encodes (prependBinaryBlock ty v) (tlv_bytes ty v).
Proof. apply Encodes_TL, Encodes_bytes. Qed.

Lemma Encodes_emptyBlock ty : Encodes (prependEmptyBlock ty) (tlv_bytes ty []).
Proof. apply Encodes_then; apply Encodes_varnumber. Qed.

Lemma Encodes_stringBlock ty v : Encodes (prependStringBlock ty v) (tlv_bytes ty v).
Proof. apply Encodes_binaryBlock. Qed.

Lemma Encodes_doubleBlock ty d : Encodes (prependDoubleBlock ty d) (tlv_bytes ty (be_bytes 8 d)).
Proof. apply Encodes_binaryBlock. Qed.

(** A block is prepended with its wire when it has one, else under a shortest
    header. *)
Definition block_bytes (b : Block.t) : bytes :=
  match Block.wire b with Ok w => w | Throw _ => tlv_bytes (Block.type b) (Block.value b) end.

Lemma Encodes_block b : Encodes (prependBlock b) (block_bytes b).
Proof.
  unfold prependBlock, block_bytes. destruct (Block.wire b); [apply Encodes_bytes|apply Encodes_binaryBlock].
Qed.

Lemma block_bytes_of_tlv ty v : block_bytes (Block.of_tlv ty v) = tlv_bytes ty v.
Proof.
  unfold block_bytes, Block.wire. cbn [Block.of_tlv Block.m_buf].
  destruct (tlv_bytes ty v) eqn:E; [|done].
  exfalso. apply (tlv_bytes_nonempty ty v []). by rewrite app_nil_r.
Qed.

Lemma Encodes_of_tlv ty v : Encodes (prependBlock (Block.of_tlv ty v)) (tlv_bytes ty v).
Proof. rewrite <- block_bytes_of_tlv. apply Encodes_block. Qed.

Lemma len_nni n : is_u64 (len (tlv.writeNonNegativeInteger n)).
Proof.
  rewrite len_writeNonNegativeInteger. unfold tlv.sizeOfNonNegativeInteger.
  repeat case_match; by vm_compute.
Qed.

Lemma readNNI_value b n : is_u64 n -> Block.value b = tlv.writeNonNegativeInteger n ->
  readNonNegativeInteger b = Ok n.
Proof.
  intros Hn Hb. unfold readNonNegativeInteger, Block.value_size. rewrite Hb.
  rewrite len_writeNonNegativeInteger.
  pose proof (readNonNegativeInteger_write n [] Hn) as H. rewrite app_nil_r in H. by rewrite H.
Qed.

Lemma readNNI_of_tlv ty n : is_u64 n ->
  readNonNegativeInteger (Block.of_tlv ty (tlv.writeNonNegativeInteger n)) = Ok n.
Proof. intros Hn. by apply readNNI_value. Qed.

Lemma readNNIAs_of_tlv max ty n : is_u64 n -> n <= max ->
  readNonNegativeIntegerAs max (Block.of_tlv ty (tlv.writeNonNegativeInteger n)) = Ok n.
Proof.
  intros Hn Hm. unfold readNonNegativeIntegerAs. rewrite readNNI_of_tlv by done. simpl.
  unfold throw_if. by replace (max <? n) with false by lia.
Qed.

(** What a reader accepts: one of the four widths. *)
Lemma readNNI_inv b n : readNonNegativeInteger b = Ok n ->
  length (Block.value b) ∈ [1; 2; 4; 8]%nat /\ n = be_number (Block.value b) /\ is_u64 n.
Proof.
  unfold readNonNegativeInteger, tlv.readNonNegativeInteger, Block.value_size.
  set (v := Block.value b). destruct (throw_if _ _); [|done]. cbn [mbind result_bind].
  rewrite to_nat_len. destruct (tlv.readNumber (length v) v) as [[m r]|] eqn:E; [|done].
  simpl. intros [= <-]. apply readNumber_some in E as (Hs & _ & -> & _).
  rewrite take_ge by done. split; [done|]. split; [done|].
  pose proof (be_number_range v) as Hr. unfold len in Hr. width.
  set_unfold in Hs. destruct Hs as [Hs|[Hs|[Hs|[Hs|[]]]]]; rewrite Hs in Hr; simpl in Hr; lia.
Qed.

End helper_facts.

#[export] Hint Resolve Encodes_nniBlock Encodes_binaryBlock Encodes_emptyBlock Encodes_stringBlock
  Encodes_doubleBlock Encodes_block Encodes_of_tlv : encodes.
#[export] Hint Resolve we_encodes : encodes.

(** ** Theorems *)

Section helper_theorems.
Import encoding.

(** Each factory function makes the block its reader reads back: integers
    of 64 bits, strings, binary values, doubles and empty elements, all with a
    wire that is the shortest encoding. *)
Theorem make_read_roundtrip (ty n d : Z) (v : bytes)
    (Ht : is_tlv_type ty) (Hn : is_u64 n) (Hd : is_u64 d) (Hv : is_u64 (len v)) :
  (exists b, makeNonNegativeIntegerBlock ty n = Ok b /\ readNonNegativeInteger b = Ok n /\
     Block.wire b = Ok (tlv_bytes ty (tlv.writeNonNegativeInteger n)) /\
     (forall max, readNonNegativeIntegerAs max b =
        if max <? n then Throw (TlvError "Value in TLV element is too large") else Ok n)) /\
  (exists b, makeStringBlock ty v = Ok b /\ readString b = v /\ Block.wire b = Ok (tlv_bytes ty v)) /\
  (exists b, makeBinaryBlock ty v = Ok b /\ Block.value b = v /\ Block.type b = ty) /\
  (exists b, makeDoubleBlock ty d = Ok b /\ readDouble b = Ok d) /\
  (exists b, makeEmptyBlock ty = Ok b /\ Block.value b = [] /\ Block.wire b = Ok (tlv_bytes ty [])).
Proof.
  assert (forall w, Block.wire (Block.of_tlv ty w) = Ok (tlv_bytes ty w)) as Hw.
  { intros w. unfold Block.wire. simpl. destruct (tlv_bytes ty w) eqn:E; [|done].
    exfalso. apply (tlv_bytes_nonempty ty w []). by rewrite app_nil_r. }
  split_and!; eexists.
  - split; [apply makeBlock_tlv; auto using Encodes_nniBlock, len_nni|].
    split; [by apply readNNI_of_tlv|]. split; [done|]. intros max.
    unfold readNonNegativeIntegerAs. rewrite readNNI_of_tlv by done. simpl. by destruct (max <? n).
  - split; [apply makeBlock_tlv; auto using Encodes_binaryBlock|]. done.
  - split; [apply makeBlock_tlv; auto using Encodes_binaryBlock|]. done.
  - split; [apply makeBlock_tlv; auto using Encodes_doubleBlock; by vm_compute|].
    unfold readDouble, Block.value_size, Block.value. cbn [Block.of_tlv Block.m_buf].
    rewrite len_be_bytes. change (Z.of_nat 8 =? 8) with true. cbn [negb throw_if mbind result_bind].
    rewrite be_number_bytes, Z.mod_small; [done|].
    change (256 ^ Z.of_nat 8) with 18446744073709551616. width. lia.
  - split; [apply makeBlock_tlv; auto using Encodes_emptyBlock; by vm_compute|]. done.
Qed.

Lemma make_read_roundtrip_witness :
  exists b, makeNonNegativeIntegerBlock 12 4000 = Ok b /\ readNonNegativeInteger b = Ok 4000.
Proof.
  destruct (make_read_roundtrip 12 4000 0 []) as ((b & H1 & H2 & _) & _); try by vm_compute.
  by exists b.
Defined.

(** The single-pass construction of a binary block from an input range,
    which appends to a four-octet buffer and lets it grow at both ends, makes
    the same block as the two-pass construction from a random-access range. *)
Theorem makeBinaryBlock_fast_slow (ty : Z) (range : bytes)
    (Ht : is_tlv_type ty) (Hr : is_u64 (len range)) :
  BinaryBlockSlow_makeBlock ty range = BinaryBlockFast_makeBlock ty range /\
  BinaryBlockFast_makeBlock ty range = makeBinaryBlock ty range /\
  makeBinaryBlock ty range = Ok (Block.of_tlv ty range).
Proof.
  assert (makeBinaryBlock ty range = Ok (Block.of_tlv ty range)) as HM.
  { apply makeBlock_tlv; auto using Encodes_binaryBlock. }
  assert (forall n k, Encoder.wf (Encoder.make n k) /\ Encoder.view (Encoder.make n k) = []) as HE.
  { intros n k. unfold Encoder.wf, Encoder.view, Encoder.make; cbn [Encoder.m_begin Encoder.m_end Encoder.m_buffer].
    rewrite length_replicate, Nat.sub_diag. split; [lia|done]. }
  assert (BinaryBlockFast_makeBlock ty range = Ok (Block.of_tlv ty range)) as HF.
  { unfold BinaryBlockFast_makeBlock. destruct (HE (len range + tlv.sizeOfVarNumber (len range) +
      tlv.sizeOfVarNumber ty) 0) as [W0 V0]. set (e0 := Encoder.make _ _) in *.
    pose proof (Encoder_prependBytes_law range e0 W0) as H1. unfold Encoder.prependBytes in H1.
    destruct (Encoder.prependRange range e0) as [e1 n1]. destruct H1 as (W1 & P1 & _).
    pose proof (BlockFacts.encode_header ty range e0 e1 W1 P1) as H2.
    destruct (Encoder.prependVarNumber (len range) e1) as [e2 n2].
    destruct (Encoder.prependVarNumber ty e2) as [e3 n3]. destruct H2 as (W3 & (V3 & _) & _).
    apply Encoder_block_view; auto. by rewrite V3, V0, app_nil_r. }
  split_and!; [|congruence|done]. rewrite HF.
  unfold BinaryBlockSlow_makeBlock. destruct (HE 4 4) as [W0 V0].
  set (e0 := Encoder.make 4 4) in *.
  pose proof (EncoderFacts.appendRange_spec range e0 W0) as H1.
  destruct (Encoder.appendRange range e0) as [e1 n1]. destruct H1 as (W1 & V1 & -> & _).
  pose proof (Encoder_prependVarNumber_law (len range) e1 W1) as H2.
  destruct (Encoder.prependVarNumber (len range) e1) as [e2 n2]. destruct H2 as (W2 & (V2 & _) & _).
  pose proof (Encoder_prependVarNumber_law ty e2 W2) as H3.
  destruct (Encoder.prependVarNumber ty e2) as [e3 n3]. destruct H3 as (W3 & (V3 & _) & _).
  apply Encoder_block_view; auto. by rewrite V3, V2, V1, V0.
Qed.

Lemma makeBinaryBlock_fast_slow_witness :
  BinaryBlockSlow_makeBlock 8 (str "hello world") = BinaryBlockFast_makeBlock 8 (str "hello world").
Proof. apply (makeBinaryBlock_fast_slow 8 (str "hello world")); by vm_compute. Defined.

(** A range of encodable values nested in one element is laid out in
    order, although it is written from the last to the first: the value of the
    resulting block parses back into the elements of the range, one by one. *)
Theorem makeNestedBlocks_parse {U} `{WireEncodableLaws U} (ty : Z) (range : list U)
    (Ht : is_tlv_type ty)
    (Hr : Forall (fun x => is_tlv_type (we_type x) /\ is_u64 (len (we_value x))) range)
    (Hl : is_u64 (len (mjoin ((fun x => tlv_bytes (we_type x) (we_value x)) <$> range)))) :
  exists b b', makeNestedBlocks ty range = Ok b /\ Block.type b = ty /\
    Block.parsed b = Ok b' /\
    Block.elements b' = (fun x => Block.of_tlv (we_type x) (we_value x)) <$> range.
Proof.
  set (l := (fun x => (we_type x, we_value x)) <$> range).
  assert (mjoin ((fun x => tlv_bytes (we_type x) (we_value x)) <$> range) = BlockFacts.tlv_seq l) as Hj.
  { unfold BlockFacts.tlv_seq, l. by rewrite <- list_fmap_compose. }
  eexists (Block.of_tlv ty (BlockFacts.tlv_seq l)), _. split; [|split; [done|split]].
  - apply makeBlock_tlv; [|done|by rewrite <- Hj]. apply Encodes_TL. rewrite <- Hj.
    apply Encodes_reversed. intros x _. apply we_encodes.
  - apply BlockFacts.parsed_of_tlv. unfold l. apply Forall_fmap. exact Hr.
  - cbn [Block.elements Block.m_elements]. unfold l. by rewrite <- list_fmap_compose.
Qed.

End helper_theorems.

(** Integers as elements of a fixed type, an instance of the interface. *)
Definition nni_element (ty n : Z) : prepender := encoding.prependNonNegativeIntegerBlock ty n.

Lemma makeNestedBlocks_parse_witness :
  let H : WireEncodable Z := nni_element 9 in
  let L : @WireEncodableLaws Z H := {|
    we_type := fun _ : Z => 9; we_value := tlv.writeNonNegativeInteger;
    we_encodes := Encodes_nniBlock 9 |} in
  exists b b', @encoding.makeNestedBlocks Z H 7 [1; 300] = Ok b /\ Block.type b = 7 /\
    Block.parsed b = Ok b' /\
    Block.elements b' = (fun x => Block.of_tlv 9 (tlv.writeNonNegativeInteger x)) <$> [1; 300].
Proof.
  intros H L. apply (@makeNestedBlocks_parse Z H L 7 [1; 300]).
  - by vm_compute.
  - repeat constructor; by vm_compute.
  - by vm_compute.
Defined.
