(* ===== verification/Text.v ===== *)
(** Text conversions: percent-encoding of [ndn-cxx/util/string-helper.cpp],
    the hexadecimal codecs of [ndn-cxx/security/transform/], and the decimal
    conversions of the C++ library that the URI code uses ([std::to_string],
    [std::strtoul], [std::stoull]).  A [std::string] is its octets. *)

From S2P Require Import Prelude.

(** A character literal. *)
Definition chr (s : string) : byte := default Byte.x00 (head (str s)).

Definition between (lo hi : string) (c : byte) : bool :=
  (b2z (chr lo) <=? b2z c) && (b2z c <=? b2z (chr hi)).

(** ** Percent-encoding *)

(** [ndn-cxx/util/string-helper.hpp:160-166] toHexChar *)
Definition toHexChar (n : Z) (wantUpperCase : bool) : byte :=
  default Byte.x00 ((if wantUpperCase then str "0123456789ABCDEF" else str "0123456789abcdef")
    !! Z.to_nat (Z.land n 15)).

(** [ndn-cxx/util/string-helper.hpp:171-178] fromHexChar *)
Definition fromHexChar (c : byte) : Z :=
  if between "0" "9" c then b2z c - b2z (chr "0")
  else if between "A" "F" c then b2z c - b2z (chr "A") + 10
  else if between "a" "f" c then b2z c - b2z (chr "a") + 10
  else -1.

(** [ndn-cxx/util/string-helper.cpp:88-93] escape (the test for unreserved characters) *)
Definition isUnreserved (c : byte) : bool :=
  between "a" "z" c || between "A" "Z" c || between "0" "9" c ||
  bool_decide (c = chr "-") || bool_decide (c = chr ".") ||
  bool_decide (c = chr "_") || bool_decide (c = chr "~").

(** [ndn-cxx/util/string-helper.cpp:83-102] escape *)
Fixpoint escape (s : bytes) : bytes :=
  match s with
  | [] => []
  | c :: s' =>
      (if isUnreserved c then [c]
       else [chr "%"; toHexChar (Z.shiftr (Z.land (b2z c) 240) 4) true;
             toHexChar (Z.land (b2z c) 15) true]) ++ escape s'
  end.

(** [ndn-cxx/util/string-helper.cpp:112-134] unescape *)
Fixpoint unescape (s : bytes) : bytes :=
  match s with
  | [] => []
  | c :: tail =>
      match tail with
      | h :: l :: rest =>
          if bool_decide (c = chr "%") then
            let hi := fromHexChar h in
            let lo := fromHexChar l in
            (if (hi <? 0) || (lo <? 0) then [c; h; l]
             else [z2b (Z.lor (Z.shiftl hi 4) lo)]) ++ unescape rest
          else c :: unescape tail
      | _ => c :: unescape tail
      end
  end.

(** ** Hexadecimal codecs *)

Module HexEncode.

(** [ndn-cxx/security/transform/hex-encode.cpp:28-31] H2CL *)
Definition H2CL : bytes := str "0123456789abcdef".

(** [ndn-cxx/security/transform/hex-encode.cpp:34-37] H2CU *)
Definition H2CU : bytes := str "0123456789ABCDEF".

(** [ndn-cxx/security/transform/hex-encode.cpp:53-67] HexEncode::toHex *)
Definition toHex (useUpperCase : bool) (data : bytes) : bytes :=
  let encodePad := if useUpperCase then H2CU else H2CL in
  mjoin ((fun b => [default Byte.x00 (encodePad !! Z.to_nat (Z.land (Z.shiftr (b2z b) 4) 15));
                    default Byte.x00 (encodePad !! Z.to_nat (Z.land (b2z b) 15))]) <$> data).

End HexEncode.

Module HexDecode.

(** [ndn-cxx/security/transform/hex-decode.cpp:28-47] C2H *)
Definition C2H_table : list Z :=
  [
   -1; -1; -1; -1; -1; -1; -1; -1; -1; -1; -1; -1; -1; -1; -1; -1;
   -1; -1; -1; -1; -1; -1; -1; -1; -1; -1; -1; -1; -1; -1; -1; -1;
   -1; -1; -1; -1; -1; -1; -1; -1; -1; -1; -1; -1; -1; -1; -1; -1;
   0; 1; 2; 3; 4; 5; 6; 7; 8; 9; -1; -1; -1; -1; -1; -1;
   -1; 10; 11; 12; 13; 14; 15; -1; -1; -1; -1; -1; -1; -1; -1; -1;
   -1; -1; -1; -1; -1; -1; -1; -1; -1; -1; -1; -1; -1; -1; -1; -1;
   -1; 10; 11; 12; 13; 14; 15; -1; -1; -1; -1; -1; -1; -1; -1; -1;
   -1; -1; -1; -1; -1; -1; -1; -1; -1; -1; -1; -1; -1; -1; -1; -1;
   -1; -1; -1; -1; -1; -1; -1; -1; -1; -1; -1; -1; -1; -1; -1; -1;
   -1; -1; -1; -1; -1; -1; -1; -1; -1; -1; -1; -1; -1; -1; -1; -1;
   -1; -1; -1; -1; -1; -1; -1; -1; -1; -1; -1; -1; -1; -1; -1; -1;
   -1; -1; -1; -1; -1; -1; -1; -1; -1; -1; -1; -1; -1; -1; -1; -1;
   -1; -1; -1; -1; -1; -1; -1; -1; -1; -1; -1; -1; -1; -1; -1; -1;
   -1; -1; -1; -1; -1; -1; -1; -1; -1; -1; -1; -1; -1; -1; -1; -1;
   -1; -1; -1; -1; -1; -1; -1; -1; -1; -1; -1; -1; -1; -1; -1; -1;
   -1; -1; -1; -1; -1; -1; -1; -1; -1; -1; -1; -1; -1; -1; -1; -1].

Definition C2H (b : byte) : Z := default (-1) (C2H_table !! Z.to_nat (b2z b)).

(** [ndn-cxx/security/transform/hex-decode.cpp:51-55] HexDecode *)
Record t := mk { m_hasOddByte : bool; m_oddByte : byte }.

(** [ndn-cxx/security/transform/hex-decode.cpp:51-55] HexDecode::HexDecode *)
Definition init : t := mk false Byte.x00.

Definition wrongByte : exn := RuntimeError "Wrong input byte".

(** [ndn-cxx/security/transform/hex-decode.cpp:101-109] HexDecode::toBytes (the loop) *)
Fixpoint toBytes_loop (hex : bytes) : result bytes :=
  match hex with
  | a :: b :: rest =>
      _ ← throw_if ((C2H a <? 0) || (C2H b <? 0)) wrongByte;
      out ← toBytes_loop rest;
      Ok (z2b (Z.shiftl (C2H a) 4 + C2H b) :: out)
  | _ => Ok []
  end.

(** [ndn-cxx/security/transform/hex-decode.cpp:84-112] HexDecode::toBytes *)
Definition toBytes (d : t) (hex : bytes) : result bytes :=
  match m_hasOddByte d, hex with
  | true, h :: rest =>
      _ ← throw_if ((C2H h <? 0) || (C2H (m_oddByte d) <? 0)) wrongByte;
      out ← toBytes_loop rest;
      Ok (z2b (Z.shiftl (C2H (m_oddByte d)) 4 + C2H h) :: out)
  | _, _ => toBytes_loop hex
  end.

(** [ndn-cxx/security/transform/hex-decode.cpp:57-75] HexDecode::convert
    The next state and the octets passed downstream. *)
Definition convert (d : t) (hex : bytes) : result (t * bytes) :=
  match hex with
  | [] => Ok (d, [])
  | _ =>
      out ← toBytes d hex;
      let totalDecodedLen := len hex + (if m_hasOddByte d then 1 else 0) in
      if totalDecodedLen mod 2 =? 1
      then Ok (mk true (default Byte.x00 (list.last hex)), out)
      else Ok (mk false (m_oddByte d), out)
  end.

(** [ndn-cxx/security/transform/hex-decode.cpp:77-82] HexDecode::finalize *)
Definition finalize (d : t) : result unit :=
  throw_if (m_hasOddByte d) (RuntimeError "Incomplete input").

(** The octets a chain [source >> hexDecode() >> sink] delivers when the
    source writes the given pieces one after the other. *)
Fixpoint decode_chunks (d : t) (chunks : list bytes) : result bytes :=
  match chunks with
  | [] => _ ← finalize d; Ok []
  | c :: cs =>
      '(d', out) ← convert d c;
      more ← decode_chunks d' cs;
      Ok (out ++ more)
  end.

End HexDecode.

(** [ndn-cxx/util/string-helper.cpp:44-57] printHex(os, buffer, wantUpperCase), toHex *)
Definition toHex (buffer : bytes) (wantUpperCase : bool) : bytes := HexEncode.toHex wantUpperCase buffer.

(** [ndn-cxx/util/string-helper.cpp:59-73] fromHex *)
Definition fromHex (hexString : bytes) : result bytes :=
  match HexDecode.decode_chunks HexDecode.init [hexString] with
  | Ok out => Ok out
  | Throw _ => Throw (InvalidArgument "Conversion from hex failed")
  end.

(** ** Decimal conversions of the C++ library *)

Definition digit (d : Z) : byte := z2b (48 + d).

Fixpoint dec_digits (fuel : nat) (n : Z) : bytes :=
  match fuel with
  | O => []
  | S fuel => if n <? 10 then [digit n] else dec_digits fuel (n / 10) ++ [digit (n mod 10)]
  end.

(** [std::to_string] of an unsigned integer of at most 64 bits, which has at
    most twenty digits. *)
Definition to_string (n : Z) : bytes := dec_digits 20 n.

Definition isDigit (c : byte) : bool := between "0" "9" c.
Definition isSpace (c : byte) : bool := (b2z c =? 32) || ((9 <=? b2z c) && (b2z c <=? 13)).

Fixpoint skipSpace (s : bytes) : bytes :=
  match s with
  | c :: s' => if isSpace c then skipSpace s' else s
  | [] => []
  end.

(** The longest sequence of digits in front and its value after [acc]. *)
Fixpoint scan_digits (acc : Z) (s : bytes) : Z :=
  match s with
  | c :: s' => if isDigit c then scan_digits (acc * 10 + (b2z c - 48)) s' else acc
  | [] => acc
  end.

(** The subject sequence of [strtoul(s, nullptr, 10)]: [None] when there is no
    digit, else the sign and the value. *)
Definition strto_subject (s : bytes) : option (bool * Z) :=
  let s := skipSpace s in
  let '(neg, s) := match s with
                   | c :: s' => if bool_decide (c = chr "-") then (true, s')
                                else if bool_decide (c = chr "+") then (false, s') else (false, s)
                   | [] => (false, s)
                   end in
  match s with
  | c :: _ => if isDigit c then Some (neg, scan_digits 0 s) else None
  | [] => None
  end.

(** [std::strtoul(s, nullptr, 10)] with a 64-bit [unsigned long]. *)
Definition strtoul (s : bytes) : Z :=
  match strto_subject s with
  | None => 0
  | Some (neg, n) => if UINT64_MAX <? n then UINT64_MAX else if neg then u64 (- n) else n
  end.

(** [std::stoull(s)] *)
Definition stoull (s : bytes) : result Z :=
  match strto_subject s with
  | None => Throw (InvalidArgument "stoull")
  | Some (neg, n) =>
      if UINT64_MAX <? n then Throw (OutOfRange "stoull") else Ok (if neg then u64 (- n) else n)
  end.

(** ** Facts *)

Module TextFacts.

(** Decides a property of one octet by evaluating its 256 cases. *)
Ltac each_byte c := destruct c; vm_compute; try done; try (repeat split; done).

Lemma isUnreserved_safe c : isUnreserved c = true ->
  c <> chr "%" /\ c <> chr "/" /\ c <> chr "=" /\ c <> chr ":" /\ c <> chr "?" /\ c <> chr "#".
Proof. each_byte c. Qed.

Lemma escaped_octet c :
  let hi := fromHexChar (toHexChar (Z.shiftr (Z.land (b2z c) 240) 4) true) in
  let lo := fromHexChar (toHexChar (Z.land (b2z c) 15) true) in
  (hi <? 0) || (lo <? 0) = false /\ z2b (Z.lor (Z.shiftl hi 4) lo) = c.
Proof. each_byte c. Qed.

Lemma unescape_plain c s : c <> chr "%" -> unescape (c :: s) = c :: unescape s.
Proof.
  intros Hc. cbn [unescape]. destruct s as [|h [|l s]]; try done.
  by rewrite bool_decide_eq_false_2.
Qed.

Lemma unescape_percent h l s :
  unescape (chr "%" :: h :: l :: s) =
  (if (fromHexChar h <? 0) || (fromHexChar l <? 0) then [chr "%"; h; l]
   else [z2b (Z.lor (Z.shiftl (fromHexChar h) 4) (fromHexChar l))]) ++ unescape s.
Proof. cbn [unescape]. by rewrite bool_decide_eq_true_2. Qed.

Lemma unescape_escape s : unescape (escape s) = s.
Proof.
  induction s as [|c s IH]; [done|]. cbn [escape]. destruct (isUnreserved c) eqn:Hc.
  - cbn [app]. rewrite unescape_plain by apply (isUnreserved_safe c Hc). by rewrite IH.
  - cbn [app]. rewrite unescape_percent.
    destruct (escaped_octet c) as [E1 E2]. rewrite E1, E2, IH. done.
Qed.

(** The characters a percent-encoded string is made of. *)
Definition uri_char (c : byte) : bool := isUnreserved c || bool_decide (c = chr "%").

Lemma toHexChar_uri n up : uri_char (toHexChar n up) = true.
Proof.
  unfold toHexChar.
  assert (Hb : 0 <= Z.land n 15 < 16).
  { change 15 with (Z.ones 4). rewrite Z.land_ones by lia. apply Z.mod_pos_bound. lia. }
  revert Hb. generalize (Z.land n 15) as k. intros k Hk.
  rewrite <- (Z2Nat.id k) by lia. assert (Z.to_nat k < 16)%nat as Hn by lia.
  rewrite Nat2Z.id. revert Hn. generalize (Z.to_nat k) as n'. intros n' Hn.
  destruct up; do 16 (destruct n' as [|n']; [done|]); lia.
Qed.

Lemma escape_chars s : Forall (fun c => uri_char c = true) (escape s).
Proof.
  induction s as [|c s IH]; [constructor|]. cbn [escape]. apply Forall_app. split; [|done].
  destruct (isUnreserved c) eqn:Hc.
  - repeat constructor. unfold uri_char. by rewrite Hc.
  - repeat constructor; apply toHexChar_uri.
Qed.

Lemma escape_app s t : escape (s ++ t) = escape s ++ escape t.
Proof.
  induction s as [|c s IH]; [done|]. cbn [escape app]. by rewrite IH, (assoc_L (++)).
Qed.

Lemma escape_not_in s c : uri_char c = false -> c ∉ escape s.
Proof.
  intros Hc Hin. pose proof (escape_chars s) as H. rewrite Forall_forall in H.
  rewrite H in Hc; [done|]. by apply list_elem_of_In.
Qed.

Lemma escape_nil s : escape s = [] -> s = [].
Proof. destruct s as [|c s]; [done|]. simpl. by destruct (isUnreserved c). Qed.

(** *** Hexadecimal *)

Lemma C2H_fromHexChar c : HexDecode.C2H c = fromHexChar c.
Proof. each_byte c. Qed.

Lemma hex_octet (up : bool) b :
  let e := if up then HexEncode.H2CU else HexEncode.H2CL in
  let hi := HexDecode.C2H (default Byte.x00 (e !! Z.to_nat (Z.land (Z.shiftr (b2z b) 4) 15))) in
  let lo := HexDecode.C2H (default Byte.x00 (e !! Z.to_nat (Z.land (b2z b) 15))) in
  (hi <? 0) || (lo <? 0) = false /\ z2b (Z.shiftl hi 4 + lo) = b.
Proof. destruct up; each_byte b. Qed.

Lemma toHex_cons (up : bool) b bs :
  let e := if up then HexEncode.H2CU else HexEncode.H2CL in
  HexEncode.toHex up (b :: bs) =
  default Byte.x00 (e !! Z.to_nat (Z.land (Z.shiftr (b2z b) 4) 15)) ::
  default Byte.x00 (e !! Z.to_nat (Z.land (b2z b) 15)) :: HexEncode.toHex up bs.
Proof. done. Qed.

Lemma toBytes_loop_hex up bs :
  HexDecode.toBytes_loop (HexEncode.toHex up bs) = Ok bs.
Proof.
  induction bs as [|b bs IH]; [done|]. rewrite toHex_cons. cbn [HexDecode.toBytes_loop].
  destruct (hex_octet up b) as [E1 E2]. cbv zeta in E1, E2. rewrite E1.
  cbn [throw_if mbind result_bind]. rewrite IH. cbn [mbind result_bind]. by rewrite E2.
Qed.

Lemma length_toHex up bs : len (HexEncode.toHex up bs) = 2 * len bs.
Proof.
  induction bs as [|b bs IH]; [done|]. rewrite toHex_cons, !len_cons. lia.
Qed.

(** Decoding with the pending nibble written in front of the input. *)
Definition pending (d : HexDecode.t) : bytes :=
  if HexDecode.m_hasOddByte d then [HexDecode.m_oddByte d] else [].

Definition decode_spec (hex : bytes) : result bytes :=
  out ← HexDecode.toBytes_loop hex;
  _ ← throw_if (Z.odd (len hex)) (RuntimeError "Incomplete input");
  Ok out.

(** An even and an odd split of the input. *)
Lemma two_step_ind (P : bytes -> Prop) :
  P [] -> (forall x, P [x]) -> (forall x y l, P l -> P (x :: y :: l)) -> forall l, P l.
Proof.
  intros H0 H1 H2. fix IH 1. intros [|x [|y l]]; [done|apply H1|]. apply H2, IH.
Qed.

Lemma odd_cons2 {A} (x y : A) l : Z.odd (len (x :: y :: l)) = Z.odd (len l).
Proof. rewrite !len_cons, Z.add_assoc, Z.odd_add. by destruct (Z.odd (len l)). Qed.

Lemma toBytes_loop_app l r : Z.odd (len l) = false ->
  HexDecode.toBytes_loop (l ++ r) =
  (x ← HexDecode.toBytes_loop l; y ← HexDecode.toBytes_loop r; Ok (x ++ y)).
Proof.
  induction l as [|x|x y l IH] using two_step_ind; intros Hl; [|done|].
  - cbn [app HexDecode.toBytes_loop mbind result_bind]. by destruct (HexDecode.toBytes_loop r).
  - rewrite odd_cons2 in Hl. cbn [app HexDecode.toBytes_loop].
    rewrite IH by done. destruct (throw_if _ _); cbn [mbind result_bind]; [|done].
    destruct (HexDecode.toBytes_loop l); cbn [mbind result_bind]; [|done].
    by destruct (HexDecode.toBytes_loop r).
Qed.

Lemma toBytes_loop_odd l z : Z.odd (len l) = false ->
  HexDecode.toBytes_loop (l ++ [z]) = HexDecode.toBytes_loop l.
Proof.
  intros Hl. rewrite toBytes_loop_app by done. simpl.
  destruct (HexDecode.toBytes_loop l); simpl; [|done]. by rewrite app_nil_r.
Qed.

Lemma toBytes_pending d hex : hex <> [] ->
  HexDecode.toBytes d hex = HexDecode.toBytes_loop (pending d ++ hex).
Proof.
  intros Hne. unfold HexDecode.toBytes, pending.
  destruct (HexDecode.m_hasOddByte d); [|done]. destruct hex as [|h rest]; [done|].
  cbn [app HexDecode.toBytes_loop]. by rewrite orb_comm.
Qed.

(** The step of [convert]: it splits the pending nibble and the piece into
    an even part, which it decodes, and the rest, which it keeps. *)
Lemma convert_spec d c : exists d' even,
  pending d ++ c = even ++ pending d' /\ Z.odd (len even) = false /\
  HexDecode.convert d c = (out ← HexDecode.toBytes_loop even; Ok (d', out)).
Proof.
  destruct c as [|x c].
  { exists d, []. by rewrite app_nil_r. }
  assert (Hne : x :: c <> []) by done. revert Hne. generalize (x :: c) as hex. intros hex Hne.
  assert (Hlen : len hex + (if HexDecode.m_hasOddByte d then 1 else 0) = len (pending d ++ hex)).
  { unfold pending. destruct (HexDecode.m_hasOddByte d); rewrite len_app; unfold len; simpl; lia. }
  assert (Hlast : list.last (pending d ++ hex) = list.last hex).
  { rewrite last_app. destruct (list.last hex) eqn:E; [done|]. by apply last_None in E. }
  pose proof (toBytes_pending d hex Hne) as Hb.
  unfold HexDecode.convert. destruct hex as [|h t] eqn:Eh; [done|]. rewrite <- Eh in *.
  rewrite Hlen, Hb, <- Hlast. rewrite Zmod_odd. revert Hne Hlast.
  destruct (Z.odd (len (pending d ++ hex))) eqn:Ho; intros Hne Hlast.
  - destruct (pending d ++ hex) as [|z l _] eqn:El using rev_ind; [done|].
    rewrite len_app, Z.odd_add in Ho. change (Z.odd (len [z])) with true in Ho.
    exists (HexDecode.mk true z), l. rewrite last_snoc. split_and!; [done|by destruct (Z.odd (len l))|].
    rewrite toBytes_loop_odd by (by destruct (Z.odd (len l))).
    by destruct (HexDecode.toBytes_loop l).
  - exists (HexDecode.mk false (HexDecode.m_oddByte d)), (pending d ++ hex).
    split_and!; [by rewrite app_nil_r|done|]. by destruct (HexDecode.toBytes_loop _).
Qed.

Lemma decode_chunks_spec d cs :
  HexDecode.decode_chunks d cs = decode_spec (pending d ++ mjoin cs).
Proof.
  revert d. induction cs as [|c cs IH]; intros d.
  - simpl. rewrite app_nil_r. unfold decode_spec, HexDecode.finalize, pending.
    by destruct (HexDecode.m_hasOddByte d).
  - cbn [HexDecode.decode_chunks mjoin list_join].
    destruct (convert_spec d c) as (d' & even & Hs & Hev & ->).
    rewrite (assoc_L (++)), Hs, <- (assoc_L (++)). unfold decode_spec.
    rewrite toBytes_loop_app, len_app, Z.odd_add, Hev, xorb_false_l by done.
    destruct (HexDecode.toBytes_loop even); cbn [mbind result_bind]; [|done].
    rewrite IH. unfold decode_spec.
    destruct (HexDecode.toBytes_loop (pending d' ++ mjoin cs)); cbn [mbind result_bind]; [|done].
    destruct (throw_if _ _); done.
Qed.

(** *** Decimal numbers *)

Lemma isDigit_digit d : 0 <= d < 10 -> isDigit (digit d) = true /\ b2z (digit d) - 48 = d.
Proof.
  intros Hd. unfold digit, isDigit, between. rewrite b2z_z2b, Z.mod_small by lia.
  change (b2z (chr "0")) with 48. change (b2z (chr "9")) with 57. split; [|lia].
  apply andb_true_iff; split; apply Z.leb_le; lia.
Qed.

Lemma isDigit_plain c : isDigit c = true ->
  isSpace c = false /\ c <> chr "-" /\ c <> chr "+".
Proof. each_byte c. Qed.

Lemma scan_digits_app acc s t : forallb isDigit s = true ->
  scan_digits acc (s ++ t) = scan_digits (scan_digits acc s) t.
Proof.
  revert acc. induction s as [|c s IH]; intros acc Hs; [done|]. simpl in *.
  destruct (isDigit c); [|done]. by apply IH.
Qed.

Lemma dec_digits_spec fuel n acc : 0 <= n < 10 ^ Z.of_nat fuel -> (0 < fuel)%nat ->
  forallb isDigit (dec_digits fuel n) = true /\ dec_digits fuel n <> [] /\
  exists k, 0 < k /\ scan_digits acc (dec_digits fuel n) = acc * 10 ^ k + n.
Proof.
  revert n acc. induction fuel as [|fuel IH]; intros n acc Hn Hf; [lia|].
  cbn [dec_digits]. rewrite Nat2Z.inj_succ, Z.pow_succ_r in Hn by lia.
  destruct (Z.ltb_spec n 10).
  - destruct (isDigit_digit n) as [E1 E2]; [lia|]. simpl. rewrite E1, E2.
    split_and!; [done|done|]. exists 1. lia.
  - assert (Hf' : (0 < fuel)%nat) by (destruct fuel; [simpl in Hn|]; lia).
    assert (Hq : 0 <= n / 10 < 10 ^ Z.of_nat fuel).
    { split; [apply Z.div_pos; lia|apply Z.div_lt_upper_bound; lia]. }
    destruct (IH (n / 10) acc Hq Hf') as (D & Hne & k & Hk & Hv).
    destruct (isDigit_digit (n mod 10)) as [E1 E2]; [apply Z.mod_pos_bound; lia|].
    rewrite forallb_app, D. cbn [forallb andb]. rewrite E1. split_and!; [done| |].
    { intros E. by apply app_eq_nil in E as [_ ?]. }
    exists (k + 1). split; [lia|]. rewrite scan_digits_app, Hv by done.
    cbn [scan_digits]. rewrite E1, E2, Z.pow_add_r by lia.
    pose proof (Z.div_mod n 10). lia.
Qed.

Lemma to_string_digits n : 0 <= n <= UINT64_MAX ->
  forallb isDigit (to_string n) = true /\ to_string n <> [] /\ scan_digits 0 (to_string n) = n.
Proof.
  unfold UINT64_MAX. intros Hn.
  destruct (dec_digits_spec 20 n 0) as (D & Hne & k & Hk & Hv); [lia..|].
  split_and!; [done..|]. unfold to_string. rewrite Hv. lia.
Qed.

Lemma strto_subject_digits s : forallb isDigit s = true -> s <> [] ->
  strto_subject s = Some (false, scan_digits 0 s).
Proof.
  intros Hs Hne. destruct s as [|c s]; [done|]. pose proof Hs as Hs'. simpl in Hs.
  destruct (isDigit c) eqn:Hc; [|done]. destruct (isDigit_plain c Hc) as (S1 & S2 & S3).
  unfold strto_subject. cbn [skipSpace]. rewrite S1.
  rewrite !bool_decide_eq_false_2 by done. by rewrite Hc.
Qed.

Lemma strto_subject_to_string n : 0 <= n <= UINT64_MAX ->
  strto_subject (to_string n) = Some (false, n).
Proof.
  intros Hn. destruct (to_string_digits n Hn) as (D & Hne & Hv).
  by rewrite strto_subject_digits, Hv.
Qed.

Lemma strtoul_to_string n : 0 <= n <= UINT64_MAX -> strtoul (to_string n) = n.
Proof.
  intros Hn. unfold strtoul. rewrite strto_subject_to_string by done.
  destruct (Z.ltb_spec UINT64_MAX n); [lia|done].
Qed.

Lemma stoull_to_string n : 0 <= n <= UINT64_MAX -> stoull (to_string n) = Ok n.
Proof.
  intros Hn. unfold stoull. rewrite strto_subject_to_string by done.
  destruct (Z.ltb_spec UINT64_MAX n); [lia|done].
Qed.

End TextFacts.

Module TextTheorems.
Import TextFacts.

(** Percent-encoding is lossless and safe inside a URI: unescaping the
    escaped form of any octet string gives the string back, and the escaped
    form consists only of unreserved characters and percent signs, so it never
    contains a slash, an equals sign or a colon. *)
Theorem escape_roundtrip (s : bytes) :
  unescape (escape s) = s /\ Forall (fun c => uri_char c = true) (escape s) /\
  chr "/" ∉ escape s /\ chr "=" ∉ escape s /\ chr ":" ∉ escape s.
Proof.
  split_and!; [apply unescape_escape|apply escape_chars|by apply escape_not_in..].
Qed.

(** The streaming hexadecimal decoder does not depend on how its input is
    cut: whatever pieces the text is written in, with an odd nibble carried
    from one piece to the next, the decoder gives the same octets or the same
    error as for the text in one piece; and it inverts the encoder in both
    letter cases. *)
Theorem hex_decode_chunks (cs : list bytes) (up : bool) (bs : bytes) :
  HexDecode.decode_chunks HexDecode.init cs =
    HexDecode.decode_chunks HexDecode.init [mjoin cs] /\
  (mjoin cs = HexEncode.toHex up bs -> HexDecode.decode_chunks HexDecode.init cs = Ok bs) /\
  fromHex (toHex bs up) = Ok bs.
Proof.
  assert (Hd : decode_spec (HexEncode.toHex up bs) = Ok bs).
  { unfold decode_spec. rewrite toBytes_loop_hex, length_toHex. cbn [mbind result_bind].
    by rewrite Z.odd_mul. }
  split_and!.
  - rewrite !decode_chunks_spec. simpl. by rewrite app_nil_r.
  - intros E. by rewrite decode_chunks_spec, E.
  - unfold fromHex, toHex. rewrite decode_chunks_spec. simpl. by rewrite app_nil_r, Hd.
Qed.

Lemma hex_decode_chunks_witness :
  HexDecode.decode_chunks HexDecode.init [str "0"; str "AF"; str ""; str "F"] = Ok [Byte.x0a; Byte.xff].
Proof.
  apply (proj1 (proj2 (hex_decode_chunks [str "0"; str "AF"; str ""; str "F"] true
    [Byte.x0a; Byte.xff]))).
  vm_compute. reflexivity.
Defined.

End TextTheorems.
