(* ===== verification/NameComponents.v ===== *)
(** Name components: [ndn-cxx/name-component.hpp], [name-component.cpp] and
    the table of component types, [ndn-cxx/impl/name-component-types.hpp].

    A [Component] is a [Block] whose type and value were checked.  The two
    process-wide convention settings are the argument [conv], and the
    environment variable [NDN_NAME_ALT_URI] the argument [env].  [memcmp] is
    modelled by the sign of its result. *)

From S2P Require Import Prelude Tlv Encoding Blocks BlockHelpers Text.

(** [std::memcmp] over [n] octets: -1, 0 or 1. *)
Fixpoint memcmp (n : nat) (a b : bytes) : Z :=
  match n, a, b with
  | S n, x :: a, y :: b =>
      if b2z x <? b2z y then -1 else if b2z y <? b2z x then 1 else memcmp n a b
  | _, _, _ => 0
  end.

Module name.

(** [ndn-cxx/name-component.hpp:36-47] UriFormat *)
Inductive UriFormat := CANONICAL | ALTERNATE | ENV_OR_CANONICAL | ENV_OR_ALTERNATE.

(** [ndn-cxx/name-component.hpp:52-56] Convention *)
Inductive Convention := MARKER | TYPED | EITHER.

(** [ndn-cxx/name-component.cpp:82-82] to_underlying(Convention) *)
Definition to_underlying (c : Convention) : Z :=
  match c with MARKER => Z.shiftl 1 0 | TYPED => Z.shiftl 1 1 | EITHER => Z.lor (Z.shiftl 1 0) (Z.shiftl 1 1) end.

(** [ndn-cxx/name-component.hpp:61-67] SEGMENT_MARKER and the other markers *)
Definition SEGMENT_MARKER : byte := Byte.x00.
Definition SEGMENT_OFFSET_MARKER : byte := Byte.xfb.
Definition VERSION_MARKER : byte := Byte.xfd.
Definition TIMESTAMP_MARKER : byte := Byte.xfc.
Definition SEQUENCE_NUMBER_MARKER : byte := Byte.xfe.

(** [ndn-cxx/name-component.cpp:45-46] g_conventionEncoding, g_conventionDecoding *)
Record Conventions := mkConventions {
  g_conventionEncoding : Convention;
  g_conventionDecoding : Convention;
}.

(** [ndn-cxx/name-component.cpp:45-46] g_conventionEncoding, g_conventionDecoding *)
Definition defaultConventions : Conventions := mkConventions TYPED EITHER.

(** [ndn-cxx/name-component.cpp:54-65] setConventionEncoding *)
Definition setConventionEncoding (convention : Convention) (conv : Conventions) : result Conventions :=
  match convention with
  | MARKER | TYPED => Ok (mkConventions convention (g_conventionDecoding conv))
  | EITHER => Throw (InvalidArgument "Unknown naming convention")
  end.

(** [ndn-cxx/name-component.cpp:73-77] setConventionDecoding *)
Definition setConventionDecoding (convention : Convention) (conv : Conventions) : Conventions :=
  mkConventions (g_conventionEncoding conv) convention.

(** [ndn-cxx/name-component.cpp:79-83] canDecodeMarkerConvention *)
Definition canDecodeMarkerConvention (conv : Conventions) : bool :=
  negb (Z.land (to_underlying (g_conventionDecoding conv)) (to_underlying MARKER) =? 0).

(** [ndn-cxx/name-component.cpp:85-89] canDecodeTypedConvention *)
Definition canDecodeTypedConvention (conv : Conventions) : bool :=
  negb (Z.land (to_underlying (g_conventionDecoding conv)) (to_underlying TYPED) =? 0).

(** [ndn-cxx/name-component.cpp:91-117] wantAltUri
    [env] is the value of the environment variable, if it is set; the inner
    [None] is [boost::indeterminate]. *)
Definition wantAltUri (env : option bytes) (format : UriFormat) : bool :=
  let wantAltEnv : option bool :=
    match env with
    | None => None
    | Some s =>
        let c := default Byte.x00 (head s) in
        if bool_decide (c = chr "0") then Some false
        else if bool_decide (c = chr "1") then Some true else None
    end in
  match format with
  | ENV_OR_CANONICAL => default false wantAltEnv
  | ENV_OR_ALTERNATE => default true wantAltEnv
  | ALTERNATE => true
  | CANONICAL => false
  end.

End name.
Import name.

(** ** Component types *)

Module ComponentType.

(** [ndn-cxx/impl/name-component-types.hpp:172-180] ComponentType and its subclasses
    The dynamic type of a rule with its fields [m_type], [m_typeName] and
    [m_uriPrefix]. *)
Inductive t :=
| Base
| Generic
| Sha256 (m_type : Z) (m_typeName : string) (m_uriPrefix : bytes)
| Decimal (m_type : Z) (m_typeName : string) (m_uriPrefix : bytes).

(** [ndn-cxx/util/sha256.hpp:56-56] Sha256::DIGEST_SIZE *)
Definition DIGEST_SIZE : Z := 32.

(** [ndn-cxx/impl/name-component-types.hpp:48-51] ComponentType::check *)
Definition check (ct : t) (comp : Block.t) : result unit :=
  match ct with
  | Sha256 _ _ _ =>
      throw_if (negb (Block.value_size comp =? DIGEST_SIZE)) (ComponentError "TLV-LENGTH must be 32")
  | _ => Ok tt
  end.

(** [ndn-cxx/impl/name-component-types.hpp:182-186] Sha256ComponentType::match *)
Definition match_ (ct : t) (comp : Block.t) : bool :=
  match ct with
  | Sha256 m_type _ _ => (Block.type comp =? m_type) && (Block.value_size comp =? DIGEST_SIZE)
  | _ => false
  end.

(** [ndn-cxx/impl/name-component-types.hpp:64-71] ComponentType::getMinValue *)
Definition getMinValue (ct : t) : bytes :=
  match ct with
  | Sha256 _ _ _ => replicate (Z.to_nat DIGEST_SIZE) Byte.x00
  | _ => []
  end.

(** [ndn-cxx/impl/name-component-types.hpp:82-86] ComponentType::getAltUriPrefix *)
Definition getAltUriPrefix (ct : t) : option bytes :=
  match ct with
  | Sha256 _ _ p | Decimal _ _ p => Some p
  | _ => None
  end.

(** [ndn-cxx/impl/name-component-types.hpp:260-266] getComponentType1 *)
Definition getComponentType1 : t :=
  Sha256 tlv.ImplicitSha256DigestComponent "ImplicitSha256DigestComponent" (str "sha256digest").

(** [ndn-cxx/impl/name-component-types.hpp:268-274] getComponentType2 *)
Definition getComponentType2 : t :=
  Sha256 tlv.ParametersSha256DigestComponent "ParametersSha256DigestComponent" (str "params-sha256").

(** [ndn-cxx/impl/name-component-types.hpp:382-403] ComponentTypeTable::ComponentTypeTable
    The pairs given to [set], in order. *)
Definition table : list (Z * t) :=
  [(tlv.ImplicitSha256DigestComponent, getComponentType1);
   (tlv.ParametersSha256DigestComponent, getComponentType2);
   (tlv.GenericNameComponent, Generic);
   (tlv.SegmentNameComponent, Decimal tlv.SegmentNameComponent "SegmentNameComponent" (str "seg"));
   (tlv.ByteOffsetNameComponent, Decimal tlv.ByteOffsetNameComponent "ByteOffsetNameComponent" (str "off"));
   (tlv.VersionNameComponent, Decimal tlv.VersionNameComponent "VersionNameComponent" (str "v"));
   (tlv.TimestampNameComponent, Decimal tlv.TimestampNameComponent "TimestampNameComponent" (str "t"));
   (tlv.SequenceNumNameComponent, Decimal tlv.SequenceNumNameComponent "SequenceNumNameComponent" (str "seq"))].

Fixpoint assoc {K V} `{EqDecision K} (k : K) (l : list (K * V)) : option V :=
  match l with
  | [] => None
  | (k', v) :: l => if decide (k = k') then Some v else assoc k l
  end.

(** [ndn-cxx/impl/name-component-types.hpp:345-352] ComponentTypeTable::get *)
Definition get (type : Z) : t := default Base (assoc type table).

(** [ndn-cxx/impl/name-component-types.hpp:356-364] ComponentTypeTable::findByUriPrefix
    [m_uriPrefixes] holds the types of the table that have a prefix. *)
Definition findByUriPrefix (prefix : bytes) : option t :=
  assoc prefix (omap (fun '(_, ct) => p ← getAltUriPrefix ct; Some (p, ct)) table).

End ComponentType.

(** ** Components *)

Module Component.

(** The class adds no field to [Block]. *)
Abbreviation t := Block.t.

(** [ndn-cxx/name-component.cpp:119-126] Component::ensureValid *)
Definition ensureValid (c : t) : result unit :=
  _ ← throw_if ((Block.type c <? tlv.NameComponentMin) || (tlv.NameComponentMax <? Block.type c))
        (ComponentError "TLV-TYPE is not a valid NameComponent");
  ComponentType.check (ComponentType.get (Block.type c)) c.

(** [ndn-cxx/name-component.cpp:134-138] Component::Component(const Block&) *)
Definition ofBlock (wire : Block.t) : result t := _ ← ensureValid wire; Ok wire.

(** [ndn-cxx/name-component.cpp:128-132] Component::Component(uint32_t) *)
Definition ofType (type : Z) : result t := ofBlock (Block.ofType type).

(** [ndn-cxx/name-component.cpp:140-144] Component::Component(uint32_t, ConstBufferPtr) *)
Definition ofBuffer (type : Z) (buffer : bytes) : result t := ofBlock (Block.ofTypeValue type buffer).

(** [ndn-cxx/name-component.cpp:146-150] Component::Component(uint32_t, span<const uint8_t>) *)
Definition ofSpan (type : Z) (value : bytes) : result t :=
  b ← encoding.makeBinaryBlock type value; ofBlock b.

(** [ndn-cxx/name-component.cpp:152-160] Component::Component(const std::string&), Component::Component(const char* ) *)
Definition ofString (s : bytes) : result t := encoding.makeStringBlock tlv.GenericNameComponent s.

(** [ndn-cxx/name-component.hpp:193-197] Component::Component(uint32_t, Iterator, Iterator)
    This constructor does not call [ensureValid]. *)
Definition ofRange (type : Z) (range : bytes) : result t := encoding.BinaryBlockFast_makeBlock type range.

(** *** Numbers and naming conventions *)

(** [ndn-cxx/name-component.cpp:222-227] Component::isNumber *)
Definition isNumber (c : t) : bool :=
  (Block.value_size c =? 1) || (Block.value_size c =? 2) ||
  (Block.value_size c =? 4) || (Block.value_size c =? 8).

(** [ndn-cxx/name-component.cpp:229-234] Component::isNumberWithMarker *)
Definition isNumberWithMarker (marker : byte) (c : t) : bool :=
  ((Block.value_size c =? 2) || (Block.value_size c =? 3) ||
   (Block.value_size c =? 5) || (Block.value_size c =? 9)) &&
  bool_decide (head (Block.value c) = Some marker).

(** [ndn-cxx/name-component.cpp:239-240] Component::isVersion (the test, for a marker and a type) *)
Definition isConvention (conv : Conventions) (marker : byte) (typed : Z) (c : t) : bool :=
  (canDecodeMarkerConvention conv && (Block.type c =? tlv.GenericNameComponent) && isNumberWithMarker marker c) ||
  (canDecodeTypedConvention conv && (Block.type c =? typed) && isNumber c).

(** [ndn-cxx/name-component.cpp:236-241] Component::isVersion *)
Definition isVersion conv (c : t) : bool := isConvention conv VERSION_MARKER tlv.VersionNameComponent c.

(** [ndn-cxx/name-component.cpp:243-248] Component::isSegment *)
Definition isSegment conv (c : t) : bool := isConvention conv SEGMENT_MARKER tlv.SegmentNameComponent c.

(** [ndn-cxx/name-component.cpp:250-255] Component::isByteOffset *)
Definition isByteOffset conv (c : t) : bool :=
  isConvention conv SEGMENT_OFFSET_MARKER tlv.ByteOffsetNameComponent c.

(** [ndn-cxx/name-component.cpp:257-262] Component::isTimestamp *)
Definition isTimestamp conv (c : t) : bool := isConvention conv TIMESTAMP_MARKER tlv.TimestampNameComponent c.

(** [ndn-cxx/name-component.cpp:264-269] Component::isSequenceNumber *)
Definition isSequenceNumber conv (c : t) : bool :=
  isConvention conv SEQUENCE_NUMBER_MARKER tlv.SequenceNumNameComponent c.

(** [ndn-cxx/name-component.cpp:273-280] Component::toNumber *)
Definition toNumber (c : t) : result Z :=
  _ ← throw_if (negb (isNumber c)) (ComponentError "Name component does not have NonNegativeInteger value");
  encoding.readNonNegativeInteger c.

(** [ndn-cxx/name-component.cpp:282-291] Component::toNumberWithMarker *)
Definition toNumberWithMarker (marker : byte) (c : t) : result Z :=
  _ ← throw_if (negb (isNumberWithMarker marker c))
        (ComponentError "Name component does not have the requested marker or the value is not a NonNegativeInteger");
  '(n, _) ← tlv.readNonNegativeInteger (Block.value_size c - 1) (drop 1 (Block.value c));
  Ok n.

(** [ndn-cxx/name-component.cpp:296-302] Component::toVersion (the body, for a marker and a type) *)
Definition toConvention (conv : Conventions) (marker : byte) (typed : Z) (what : string) (c : t) : result Z :=
  if canDecodeMarkerConvention conv && (Block.type c =? tlv.GenericNameComponent)
  then toNumberWithMarker marker c
  else if canDecodeTypedConvention conv && (Block.type c =? typed)
  then toNumber c
  else Throw (ComponentError what).

(** [ndn-cxx/name-component.cpp:293-303] Component::toVersion *)
Definition toVersion conv (c : t) : result Z :=
  toConvention conv VERSION_MARKER tlv.VersionNameComponent "Not a Version component" c.

(** [ndn-cxx/name-component.cpp:305-315] Component::toSegment *)
Definition toSegment conv (c : t) : result Z :=
  toConvention conv SEGMENT_MARKER tlv.SegmentNameComponent "Not a Segment component" c.

(** [ndn-cxx/name-component.cpp:317-327] Component::toByteOffset *)
Definition toByteOffset conv (c : t) : result Z :=
  toConvention conv SEGMENT_OFFSET_MARKER tlv.ByteOffsetNameComponent "Not a ByteOffset component" c.

(** [ndn-cxx/name-component.cpp:329-343] Component::toTimestamp
    The value is the time since the Unix epoch in microseconds, as the
    unsigned number that [time::microseconds] is constructed from. *)
Definition toTimestamp conv (c : t) : result Z :=
  toConvention conv TIMESTAMP_MARKER tlv.TimestampNameComponent "Not a Timestamp component" c.

(** [ndn-cxx/name-component.cpp:345-355] Component::toSequenceNumber *)
Definition toSequenceNumber conv (c : t) : result Z :=
  toConvention conv SEQUENCE_NUMBER_MARKER tlv.SequenceNumNameComponent "Not a SequenceNumber component" c.

(** [ndn-cxx/name-component.cpp:359-363] Component::fromNumber *)
Definition fromNumber (number type : Z) : result t :=
  b ← encoding.makeNonNegativeIntegerBlock type number; ofBlock b.

(** [ndn-cxx/name-component.cpp:368-379] Component::fromNumberWithMarker (what is written, twice) *)
Definition numberWithMarker_template (marker : byte) (number : Z) : prepender :=
  pTL tlv.GenericNameComponent (pNonNegativeInteger number ;+ pBytes [marker]).

(** [ndn-cxx/name-component.cpp:365-382] Component::fromNumberWithMarker *)
Definition fromNumberWithMarker (marker : byte) (number : Z) : result t :=
  b ← makeBlock (numberWithMarker_template marker number); ofBlock b.

(** [ndn-cxx/name-component.cpp:387-389] Component::fromVersion (the body, for a marker and a type) *)
Definition fromConvention (conv : Conventions) (marker : byte) (typed : Z) (number : Z) : result t :=
  match g_conventionEncoding conv with
  | MARKER => fromNumberWithMarker marker number
  | _ => fromNumber number typed
  end.

(** [ndn-cxx/name-component.cpp:384-390] Component::fromVersion *)
Definition fromVersion conv (version : Z) : result t :=
  fromConvention conv VERSION_MARKER tlv.VersionNameComponent version.

(** [ndn-cxx/name-component.cpp:392-398] Component::fromSegment *)
Definition fromSegment conv (segmentNo : Z) : result t :=
  fromConvention conv SEGMENT_MARKER tlv.SegmentNameComponent segmentNo.

(** [ndn-cxx/name-component.cpp:400-406] Component::fromByteOffset *)
Definition fromByteOffset conv (offset : Z) : result t :=
  fromConvention conv SEGMENT_OFFSET_MARKER tlv.ByteOffsetNameComponent offset.

(** [ndn-cxx/name-component.cpp:408-415] Component::fromTimestamp
    [micros] is [duration_cast<microseconds>(timePoint - getUnixEpoch()).count()]. *)
Definition fromTimestamp conv (micros : Z) : result t :=
  let value := u64 micros in
  fromConvention conv TIMESTAMP_MARKER tlv.TimestampNameComponent value.

(** [ndn-cxx/name-component.cpp:417-423] Component::fromSequenceNumber *)
Definition fromSequenceNumber conv (seqNo : Z) : result t :=
  fromConvention conv SEQUENCE_NUMBER_MARKER tlv.SequenceNumNameComponent seqNo.

(** [ndn-cxx/name-component.cpp:427-431] Component::isGeneric *)
Definition isGeneric (c : t) : bool := Block.type c =? tlv.GenericNameComponent.

(** [ndn-cxx/name-component.cpp:433-437] Component::isImplicitSha256Digest *)
Definition isImplicitSha256Digest (c : t) : bool := ComponentType.match_ ComponentType.getComponentType1 c.

(** [ndn-cxx/name-component.cpp:451-455] Component::isParametersSha256Digest *)
Definition isParametersSha256Digest (c : t) : bool := ComponentType.match_ ComponentType.getComponentType2 c.

(** [ndn-cxx/impl/name-component-types.hpp:197-201] Sha256ComponentType::create(ConstBufferPtr) *)
Definition createFromBuffer (ct : ComponentType.t) (value : bytes) : result t :=
  match ct with
  | ComponentType.Sha256 m_type _ _ => ofBlock (Block.ofTypeValue m_type value)
  | _ => Throw (RuntimeError "not a digest type")
  end.

(** [ndn-cxx/impl/name-component-types.hpp:203-207] Sha256ComponentType::create(span) *)
Definition createFromSpan (ct : ComponentType.t) (value : bytes) : result t :=
  match ct with
  | ComponentType.Sha256 m_type _ _ => b ← encoding.makeBinaryBlock m_type value; ofBlock b
  | _ => Throw (RuntimeError "not a digest type")
  end.

(** [ndn-cxx/name-component.cpp:445-449] Component::fromImplicitSha256Digest(span) *)
Definition fromImplicitSha256Digest (digest : bytes) : result t :=
  createFromSpan ComponentType.getComponentType1 digest.

(** [ndn-cxx/name-component.cpp:463-467] Component::fromParametersSha256Digest(span) *)
Definition fromParametersSha256Digest (digest : bytes) : result t :=
  createFromSpan ComponentType.getComponentType2 digest.

(** *** URIs *)

(** [ndn-cxx/name-component.cpp:162-175] parseUriEscapedValue *)
Definition parseUriEscapedValue (type : Z) (input : bytes) : result t :=
  let value := unescape input in
  if forallb (fun c => bool_decide (c = chr ".")) value then
    _ ← throw_if (len value <? 3) (ComponentError "Illegal URI (name component cannot be . or ..)");
    ofSpan type (take (length value - 3) value)
  else ofSpan type value.

(** [ndn-cxx/impl/name-component-types.hpp:93-97] ComponentType::parseAltUriValue
    The digest types read hexadecimal (234-245), the number types decimal
    (300-317); the others are not in the prefix table. *)
Definition parseAltUriValue (ct : ComponentType.t) (input : bytes) : result t :=
  match ct with
  | ComponentType.Sha256 m_type _ _ =>
      match fromHex input with
      | Throw (InvalidArgument _) => Throw (ComponentError "Cannot convert (invalid hex encoding)")
      | Throw e => Throw e
      | Ok value => ofBuffer m_type value
      end
  | ComponentType.Decimal m_type _ _ =>
      match stoull input with
      | Throw (InvalidArgument _) => Throw (ComponentError "Cannot convert (invalid format)")
      | Throw (OutOfRange _) => Throw (ComponentError "Cannot convert (out of range)")
      | Throw e => Throw e
      | Ok n =>
          _ ← throw_if (negb (bool_decide (to_string n = input))) (ComponentError "Cannot convert (invalid format)");
          fromNumber n m_type
      end
  | _ => Throw (RuntimeError "unreachable")
  end.

(** [input.find(c)] with the text before and after the first occurrence. *)
Fixpoint split_at (c : byte) (input : bytes) : option (bytes * bytes) :=
  match input with
  | [] => None
  | x :: rest =>
      if bool_decide (x = c) then Some ([], rest)
      else '(a, b) ← split_at c rest; Some (x :: a, b)
  end.

(** [ndn-cxx/name-component.cpp:177-199] Component::fromEscapedString *)
Definition fromEscapedString (input : bytes) : result t :=
  match split_at (chr "=") input with
  | None => parseUriEscapedValue tlv.GenericNameComponent input
  | Some (typePrefix, value) =>
      let type := strtoul typePrefix in
      if (tlv.NameComponentMin <=? type) && (type <=? tlv.NameComponentMax) &&
         bool_decide (to_string type = typePrefix)
      then parseUriEscapedValue (u32 type) value
      else
        match ComponentType.findByUriPrefix typePrefix with
        | None => Throw (ComponentError "Unknown TLV-TYPE in NameComponent URI")
        | Some ct => parseAltUriValue ct value
        end
  end.

(** [ndn-cxx/impl/name-component-types.hpp:142-151] ComponentType::writeUriEscapedValue *)
Definition writeUriEscapedValue (c : t) : bytes :=
  (if forallb (fun c => bool_decide (c = chr ".")) (Block.value c) then str "..." else []) ++
  escape (Block.value c).

(** [ndn-cxx/impl/name-component-types.hpp:104-109] ComponentType::writeUri *)
Definition writeUriBase (c : t) : bytes :=
  to_string (Block.type c) ++ str "=" ++ writeUriEscapedValue c.

(** [ndn-cxx/impl/name-component-types.hpp:247-252] writeUri of the subclasses
    The generic type (162-166) and the number types (319-328). *)
Definition writeUri (ct : ComponentType.t) (c : t) : result bytes :=
  match ct with
  | ComponentType.Base => Ok (writeUriBase c)
  | ComponentType.Generic => Ok (writeUriEscapedValue c)
  | ComponentType.Sha256 _ _ m_uriPrefix => Ok (m_uriPrefix ++ str "=" ++ toHex (Block.value c) false)
  | ComponentType.Decimal _ _ m_uriPrefix =>
      if isNumber c then n ← toNumber c; Ok (m_uriPrefix ++ str "=" ++ to_string n)
      else Ok (writeUriBase c)
  end.

(** [ndn-cxx/name-component.cpp:201-210] Component::toUri *)
Definition toUri (env : option bytes) (c : t) (format : UriFormat) : result bytes :=
  if wantAltUri env format
  then writeUri (ComponentType.get (Block.type c)) c
  else writeUri ComponentType.Base c.

(** *** Comparison and successor *)

(** [ndn-cxx/name-component.cpp:471-477] Component::equals *)
Definition equals (c other : t) : bool :=
  (Block.type c =? Block.type other) && (Block.value_size c =? Block.value_size other) &&
  bool_decide (Block.value c = Block.value other).

(** [ndn-cxx/name-component.cpp:479-502] Component::compare *)
Definition compare (c other : t) : result Z :=
  if Block.hasWire c && Block.hasWire other then
    w ← Block.wire c;
    w' ← Block.wire other;
    n ← Block.size c;
    n' ← Block.size other;
    Ok (memcmp (Z.to_nat (Z.min n n')) w w')
  else
    let cmpType := i32 (Block.type c - Block.type other) in
    if negb (cmpType =? 0) then Ok cmpType
    else
      let cmpSize := i32 (Block.value_size c - Block.value_size other) in
      if negb (cmpSize =? 0) then Ok cmpSize
      else if Block.value_size c =? 0 then Ok 0
      else Ok (memcmp (Z.to_nat (Block.value_size c)) (Block.value c) (Block.value other)).

(** [ndn-cxx/impl/name-component-types.hpp:121-127] ComponentType::getSuccessorImpl (the loop)
    The index, the overflow flag and the encoder when the loop ends. *)
Fixpoint successor_loop (value : bytes) (i : nat) (isOverflow : bool) (encoder : Encoder.t) : nat * bool * Encoder.t :=
  match i with
  | O => (O, isOverflow, encoder)
  | S j =>
      if isOverflow then
        let newValue := z2b (Z.land (b2z (default Byte.x00 (value !! j)) + 1) 255) in
        let '(encoder, _) := Encoder.prependBytes [newValue] encoder in
        successor_loop value j (b2z newValue =? 0) encoder
      else (i, isOverflow, encoder)
  end.

(** [ndn-cxx/impl/name-component-types.hpp:115-138] ComponentType::getSuccessorImpl *)
Definition getSuccessorImpl (c : t) : result (bool * Block.t) :=
  n ← Block.size c;
  let encoder := Encoder.make (n + 9) 9 in
  let '(i, isOverflow, encoder) :=
    successor_loop (Block.value c) (Z.to_nat (Block.value_size c)) true encoder in
  let '(encoder, _) := Encoder.prependBytes (take i (Block.value c)) encoder in
  let encoder := if isOverflow then fst (Encoder.appendBytes [Byte.x00] encoder) else encoder in
  let '(encoder, _) := Encoder.prependVarNumber (Encoder.size encoder) encoder in
  let '(encoder, _) := Encoder.prependVarNumber (Block.type c) encoder in
  b ← Encoder_block encoder true;
  Ok (isOverflow, b).

(** [ndn-cxx/impl/name-component-types.hpp:58-62] ComponentType::getSuccessor
    The digest types (209-219) report the overflow instead of growing. *)
Definition typeGetSuccessor (ct : ComponentType.t) (c : t) : result (bool * t) :=
  r ← getSuccessorImpl c;
  let '(isExtended, successor) := r : bool * Block.t in
  match ct with
  | ComponentType.Sha256 _ _ _ =>
      if isExtended then Ok (true, c) else s ← ofBlock successor; Ok (false, s)
  | _ => s ← ofBlock successor; Ok (false, s)
  end.

(** [ndn-cxx/name-component.cpp:504-517] Component::getSuccessor *)
Definition getSuccessor (c : t) : result t :=
  r ← typeGetSuccessor (ComponentType.get (Block.type c)) c;
  let '(isOverflow, successor) := r : bool * t in
  if negb isOverflow then Ok successor
  else
    let type := u32 (Block.type c + 1) in
    let value := ComponentType.getMinValue (ComponentType.get type) in
    ofSpan type value.

(** *** Wire format *)

(** [ndn-cxx/name-component.cpp:519-529] Component::wireEncode(EncodingImpl&) *)
Definition wireEncode_template (c : t) : prepender :=
  pWhen (0 <? Block.value_size c) (pBytes (Block.value c)) ;+
  pVarNumber (Block.value_size c) ;+ pVarNumber (Block.type c).

(** [ndn-cxx/name-component.cpp:533-547] Component::wireEncode
    The component after the call; assigning [buffer.block()] goes through the
    checking constructor. *)
Definition wireEncode (c : t) : result t :=
  if Block.hasWire c then Ok c
  else b ← makeBlock (wireEncode_template c); ofBlock b.

(** [ndn-cxx/name-component.cpp:549-554] Component::wireDecode *)
Definition wireDecode (wire : Block.t) : result t := ofBlock wire.

End Component.

(** ** Lemmas *)

Module ComponentFacts.
Import Component.

(** *** Validity *)

(** What [ensureValid] accepts. *)
Definition valid (ty : Z) (v : bytes) : Prop :=
  1 <= ty <= 65535 /\ (ty = 1 \/ ty = 2 -> len v = 32).

Definition is_decimal (ty : Z) : Prop := ty = 50 \/ ty = 52 \/ ty = 54 \/ ty = 56 \/ ty = 58.

(** The rows of the table. *)
Lemma get_cases ty :
  (ty = 1 /\ ComponentType.get ty = ComponentType.getComponentType1) \/
  (ty = 2 /\ ComponentType.get ty = ComponentType.getComponentType2) \/
  (ty = 8 /\ ComponentType.get ty = ComponentType.Generic) \/
  (is_decimal ty /\ exists n p, ComponentType.get ty = ComponentType.Decimal ty n p /\
     ComponentType.findByUriPrefix p = Some (ComponentType.Decimal ty n p) /\
     split_at (chr "=") p = None /\ strtoul p = 0) \/
  (ty <> 1 /\ ty <> 2 /\ ty <> 8 /\ ~ is_decimal ty /\ ComponentType.get ty = ComponentType.Base).
Proof.
  unfold is_decimal.
  destruct (decide (ty = 1)) as [->|]; [by left|].
  destruct (decide (ty = 2)) as [->|]; [by right; left|].
  destruct (decide (ty = 8)) as [->|]; [by do 2 right; left|].
  destruct (decide (ty = 50 \/ ty = 52 \/ ty = 54 \/ ty = 56 \/ ty = 58)) as [Hd|Hd].
  - do 3 right. left. split; [done|].
    destruct Hd as [->|[->|[->|[->| ->]]]]; eexists _, _; (split; [reflexivity|]);
      vm_compute; done.
  - do 4 right. split_and!; try done. unfold ComponentType.get, ComponentType.table.
    cbn [ComponentType.assoc]. unfold tlv.ImplicitSha256DigestComponent,
      tlv.ParametersSha256DigestComponent, tlv.GenericNameComponent, tlv.SegmentNameComponent,
      tlv.ByteOffsetNameComponent, tlv.VersionNameComponent, tlv.TimestampNameComponent,
      tlv.SequenceNumNameComponent.
    rewrite !decide_False by tauto. done.
Qed.

Lemma check_spec ty b : ComponentType.check (ComponentType.get ty) b =
  throw_if (((ty =? 1) || (ty =? 2)) && negb (Block.value_size b =? 32)) (ComponentError "TLV-LENGTH must be 32").
Proof.
  destruct (get_cases ty) as [[-> ->]|[[-> ->]|[[-> ->]|[(Hd & n & p & -> & _)|(H1 & H2 & _ & _ & ->)]]]].
  - done.
  - done.
  - done.
  - destruct Hd as [->|[->|[->|[->| ->]]]]; done.
  - by rewrite (proj2 (Z.eqb_neq ty 1)), (proj2 (Z.eqb_neq ty 2)) by done.
Qed.

Lemma ofBlock_spec b : valid (Block.type b) (Block.value b) -> ofBlock b = Ok b.
Proof.
  intros [Ht Hl]. unfold ofBlock, ensureValid, tlv.NameComponentMin, tlv.NameComponentMax.
  rewrite (proj2 (Z.ltb_ge (Block.type b) 1)), (proj2 (Z.ltb_ge 65535 (Block.type b))) by lia.
  cbn [throw_if orb mbind result_bind]. rewrite check_spec. unfold Block.value_size.
  destruct ((Block.type b =? 1) || (Block.type b =? 2)) eqn:E; [|done].
  rewrite Hl; [done|]. apply orb_true_iff in E as [E|E]; bool_to_prop; auto.
Qed.

Lemma ofBlock_inv b c : ofBlock b = Ok c -> c = b /\ valid (Block.type b) (Block.value b).
Proof.
  unfold ofBlock, ensureValid, tlv.NameComponentMin, tlv.NameComponentMax. rewrite check_spec.
  unfold throw_if, valid, Block.value_size.
  destruct ((Block.type b <? 1) || (65535 <? Block.type b)) eqn:E1; [done|].
  cbn [mbind result_bind].
  destruct (((Block.type b =? 1) || (Block.type b =? 2)) && _) eqn:E2; [done|].
  cbn [mbind result_bind]. intros [= ->]. bool_to_prop. split_and!; [done|lia..].
Qed.

Lemma valid_tlv_type ty v : valid ty v -> is_tlv_type ty.
Proof. intros [H _]. width. lia. Qed.

Lemma ofSpan_spec ty v : valid ty v -> is_u64 (len v) -> ofSpan ty v = Ok (Block.of_tlv ty v).
Proof.
  intros Hv Hl. unfold ofSpan, encoding.makeBinaryBlock.
  rewrite (makeBlock_tlv _ ty v) by eauto using Encodes_binaryBlock, valid_tlv_type.
  cbn [mbind result_bind]. by apply ofBlock_spec.
Qed.

Lemma fromNumber_spec n ty : valid ty (tlv.writeNonNegativeInteger n) ->
  fromNumber n ty = Ok (Block.of_tlv ty (tlv.writeNonNegativeInteger n)).
Proof.
  intros Hv. unfold fromNumber, encoding.makeNonNegativeIntegerBlock.
  rewrite (makeBlock_tlv _ ty (tlv.writeNonNegativeInteger n))
    by eauto using Encodes_nniBlock, valid_tlv_type, len_nni.
  cbn [mbind result_bind]. by apply ofBlock_spec.
Qed.

Lemma Encodes_component c :
  Encodes (wireEncode_template c) (tlv_bytes (Block.type c) (Block.value c)).
Proof.
  unfold wireEncode_template. eapply Encodes_eq.
  { apply Encodes_then; [apply Encodes_when, Encodes_bytes|].
    apply Encodes_then; apply Encodes_varnumber. }
  unfold tlv_bytes, Block.value_size. rewrite <- (assoc_L (++)). do 2 f_equal.
  destruct (Z.ltb_spec 0 (len (Block.value c))); [done|].
  pose proof (len_nonneg (Block.value c)). symmetry. apply len_zero. lia.
Qed.

(** *** Numbers *)

Lemma value_size_nni n : Block.value_size (Block.of_tlv 0 (tlv.writeNonNegativeInteger n)) ∈ [1; 2; 4; 8].
Proof.
  change (Block.value_size _) with (len (tlv.writeNonNegativeInteger n)).
  rewrite len_writeNonNegativeInteger.
  unfold tlv.sizeOfNonNegativeInteger. repeat case_match; set_solver.
Qed.

Lemma isNumber_iff c : isNumber c = true <-> Block.value_size c ∈ [1; 2; 4; 8].
Proof.
  unfold isNumber. rewrite !orb_true_iff, !Z.eqb_eq. set_solver.
Qed.

Lemma isNumber_nni ty n : isNumber (Block.of_tlv ty (tlv.writeNonNegativeInteger n)) = true.
Proof. apply isNumber_iff, (value_size_nni n). Qed.

Lemma toNumber_nni ty n : is_u64 n -> toNumber (Block.of_tlv ty (tlv.writeNonNegativeInteger n)) = Ok n.
Proof.
  intros Hn. unfold toNumber. rewrite isNumber_nni. simpl. by apply readNNI_of_tlv.
Qed.

Definition marked (marker : byte) (n : Z) : bytes := marker :: tlv.writeNonNegativeInteger n.

Lemma len_marked marker n : len (marked marker n) ∈ [2; 3; 5; 9].
Proof.
  unfold marked. rewrite len_cons. pose proof (value_size_nni n) as H.
  change (Block.value_size _) with (len (tlv.writeNonNegativeInteger n)) in H. set_unfold. lia.
Qed.

Lemma is_u64_marked marker n : is_u64 (len (marked marker n)).
Proof. pose proof (len_marked marker n) as H. set_unfold. width. lia. Qed.

Lemma fromNumberWithMarker_spec marker n :
  fromNumberWithMarker marker n = Ok (Block.of_tlv 8 (marked marker n)).
Proof.
  unfold fromNumberWithMarker. rewrite (makeBlock_tlv _ 8 (marked marker n)).
  - cbn [mbind result_bind]. apply ofBlock_spec. split; simpl; lia.
  - apply Encodes_TL. eapply Encodes_eq; [apply Encodes_then; [apply Encodes_nni|apply Encodes_bytes]|done].
  - by vm_compute.
  - apply is_u64_marked.
Qed.

Lemma isNumberWithMarker_marked m marker ty n :
  isNumberWithMarker m (Block.of_tlv ty (marked marker n)) = bool_decide (marker = m).
Proof.
  unfold isNumberWithMarker, Block.value_size. cbn [Block.of_tlv Block.value Block.m_buf].
  pose proof (len_marked marker n) as H.
  replace (_ || _ || _ || _) with true.
  - simpl. apply bool_decide_ext. split; congruence.
  - symmetry. rewrite !orb_true_iff, !Z.eqb_eq. set_unfold. lia.
Qed.

Lemma toNumberWithMarker_marked m ty n : is_u64 n ->
  toNumberWithMarker m (Block.of_tlv ty (marked m n)) = Ok n.
Proof.
  intros Hn. unfold toNumberWithMarker. rewrite isNumberWithMarker_marked, bool_decide_eq_true_2 by done.
  cbn [negb throw_if mbind result_bind]. unfold Block.value_size, marked.
  cbn [Block.of_tlv Block.value Block.m_buf drop]. rewrite len_cons.
  replace (1 + _ - 1) with (tlv.sizeOfNonNegativeInteger n) by (rewrite len_writeNonNegativeInteger; lia).
  pose proof (readNonNegativeInteger_write n [] Hn) as H. rewrite app_nil_r in H.
  by rewrite drop_0, H.
Qed.

(** *** The canonical order *)

(** Components are ordered by type, then length, then value; values of the
    same length are ordered as big-endian numbers. *)
Definition key (c : Block.t) : Z * Z * Z :=
  (Block.type c, Block.value_size c, be_number (Block.value c)).

Definition key_cmp (a b : Z * Z * Z) : comparison :=
  match Z.compare a.1.1 b.1.1 with
  | Eq => match Z.compare a.1.2 b.1.2 with
          | Eq => Z.compare a.2 b.2
          | c => c
          end
  | c => c
  end.

Definition cmpZ (c : comparison) : Z := match c with Lt => -1 | Eq => 0 | Gt => 1 end.

Lemma memcmp_refl n a : memcmp n a a = 0.
Proof.
  revert a. induction n as [|n IH]; intros [|x a]; simpl; try done.
  rewrite Z.ltb_irrefl. apply IH.
Qed.

Lemma memcmp_app n a b x y : length a = length b ->
  memcmp (length a + n) (a ++ x) (b ++ y) =
  match Z.compare (be_number a) (be_number b) with
  | Eq => memcmp n x y
  | c => cmpZ c
  end.
Proof.
  revert b. induction a as [|p a IH]; intros [|q b] Hl; try done.
  simpl in Hl. cbn [length app Nat.add memcmp]. rewrite IH by lia.
  rewrite !be_number_cons. replace (len b) with (len a) by (unfold len; lia).
  pose proof (be_number_range a) as Ra. pose proof (be_number_range b) as Rb.
  replace (len b) with (len a) in Rb by (unfold len; lia).
  destruct (Z.ltb_spec (b2z p) (b2z q)).
  { destruct (Z.compare_spec (b2z p * 256 ^ len a + be_number a) (b2z q * 256 ^ len a + be_number b));
      [nia|done|nia]. }
  destruct (Z.ltb_spec (b2z q) (b2z p)).
  { destruct (Z.compare_spec (b2z p * 256 ^ len a + be_number a) (b2z q * 256 ^ len a + be_number b));
      [nia|nia|done]. }
  replace (b2z q) with (b2z p) by lia. by rewrite Z.add_compare_mono_l.
Qed.

Lemma memcmp_values a b : length a = length b ->
  memcmp (length a) a b = cmpZ (Z.compare (be_number a) (be_number b)).
Proof.
  intros Hl. pose proof (memcmp_app 0 a b [] [] Hl) as H.
  rewrite Nat.add_0_r, !app_nil_r in H. rewrite H. by destruct (_ ?= _).
Qed.

(** The VAR-NUMBER encoding preserves the order: the first octet orders the
    widths, and numbers of one width are big-endian. *)
Lemma memcmp_varnumber n m x y : is_u64 n -> is_u64 m ->
  memcmp (Nat.min (length (tlv.writeVarNumber n ++ x)) (length (tlv.writeVarNumber m ++ y)))
    (tlv.writeVarNumber n ++ x) (tlv.writeVarNumber m ++ y) =
  match Z.compare n m with
  | Eq => memcmp (Nat.min (length x) (length y)) x y
  | c => cmpZ c
  end.
Proof.
  intros Hn Hm.
  assert (Hsame : forall (h : bytes) w, 256 ^ Z.of_nat w > n -> 256 ^ Z.of_nat w > m ->
    memcmp (Nat.min (length ((h ++ be_bytes w n) ++ x)) (length ((h ++ be_bytes w m) ++ y)))
      ((h ++ be_bytes w n) ++ x) ((h ++ be_bytes w m) ++ y) =
    match Z.compare n m with Eq => memcmp (Nat.min (length x) (length y)) x y | c => cmpZ c end).
  { intros h w H1 H2. rewrite <- !(assoc_L (++)), !length_app, !length_be_bytes.
    rewrite !Nat.add_min_distr_l.
    rewrite (memcmp_app _ h h), Z.compare_refl by done.
    rewrite <- (length_be_bytes w n) at 1. rewrite memcmp_app by (by rewrite !length_be_bytes).
    rewrite !be_number_bytes, !Z.mod_small by (width; lia). done. }
  assert (Hdiff : forall i j a b, 0 <= i < 256 -> 0 <= j < 256 -> (i < j /\ n < m \/ j < i /\ m < n) ->
    memcmp (Nat.min (length ((z2b i :: a) ++ x)) (length ((z2b j :: b) ++ y)))
      ((z2b i :: a) ++ x) ((z2b j :: b) ++ y) =
    match Z.compare n m with Eq => memcmp (Nat.min (length x) (length y)) x y | c => cmpZ c end).
  { intros i j a b Hi Hj Hij. cbn [app length Nat.min memcmp].
    rewrite !b2z_z2b, !Z.mod_small by lia.
    destruct (Z.compare_spec n m), (Z.ltb_spec i j), (Z.ltb_spec j i); try done; lia. }
  assert (Hc : forall z, z < 253 -> [z2b z] = [] ++ be_bytes 1 z).
  { intros z _. simpl. by rewrite Z.shiftr_0_r. }
  unfold tlv.writeVarNumber. width.
  destruct (Z.ltb_spec n 253), (Z.ltb_spec m 253).
  { rewrite !Hc by done. apply (Hsame [] 1%nat); simpl; lia. }
  all: repeat match goal with |- context [?a <=? ?b] => destruct (Z.leb_spec a b) end; try lia.
  all: first [ apply (Hsame [z2b 253] 2%nat); simpl; lia | apply (Hsame [z2b 254] 4%nat); simpl; lia
             | apply (Hsame [z2b 255] 8%nat); simpl; lia | apply Hdiff; lia ].
Qed.

Lemma memcmp_tlv t1 v1 t2 v2 : is_tlv_type t1 -> is_tlv_type t2 -> is_u64 (len v1) -> is_u64 (len v2) ->
  memcmp (Nat.min (length (tlv_bytes t1 v1)) (length (tlv_bytes t2 v2))) (tlv_bytes t1 v1) (tlv_bytes t2 v2) =
  cmpZ (key_cmp (t1, len v1, be_number v1) (t2, len v2, be_number v2)).
Proof.
  intros H1 H2 L1 L2. unfold tlv_bytes.
  rewrite memcmp_varnumber by auto using is_tlv_type_u64. unfold key_cmp. cbn [fst snd].
  destruct (Z.compare_spec t1 t2); [|done..].
  rewrite memcmp_varnumber by done. destruct (Z.compare_spec (len v1) (len v2)) as [E| |]; [|done..].
  assert (length v1 = length v2) as E' by (unfold len in E; lia).
  rewrite <- E', Nat.min_id. by apply memcmp_values.
Qed.

(** A component as the constructors make it from a value or from a shortest
    encoding: valid, and with a shortest wire if it has one. *)
Definition canonical (c : Block.t) : Prop :=
  valid (Block.type c) (Block.value c) /\ is_u64 (Block.value_size c) /\
  (Block.hasWire c = false \/
   Block.m_buf c = Some (tlv_bytes (Block.type c) (Block.value c), Block.value c) /\
   Block.m_size c = len (tlv_bytes (Block.type c) (Block.value c))).

Lemma canonical_of_tlv ty v : valid ty v -> is_u64 (len v) -> canonical (Block.of_tlv ty v).
Proof. intros Hv Hl. split_and!; try done. by right. Qed.

Lemma wire_of_tlv ty v : Block.wire (Block.of_tlv ty v) = Ok (tlv_bytes ty v).
Proof.
  unfold Block.wire. cbn [Block.of_tlv Block.m_buf]. destruct (tlv_bytes ty v) eqn:E; [|done].
  exfalso. apply (tlv_bytes_nonempty ty v []). by rewrite app_nil_r.
Qed.

Lemma canonical_wire c : canonical c -> Block.hasWire c = true ->
  Block.wire c = Ok (tlv_bytes (Block.type c) (Block.value c)) /\
  Block.size c = Ok (len (tlv_bytes (Block.type c) (Block.value c))).
Proof.
  intros ([Hv _] & _ & [H|[Hb Hs]]) Hw; [congruence|]. split.
  - unfold Block.hasWire in Hw. unfold Block.wire. rewrite Hb in *.
    by destruct (tlv_bytes (Block.type c) (Block.value c)).
  - unfold Block.size, Block.isValid. change (Block.m_type c) with (Block.type c).
    rewrite (proj2 (Z.eqb_neq _ tlv.Invalid)) by (unfold tlv.Invalid; lia).
    cbn [negb throw_if mbind result_bind]. by rewrite Hs.
Qed.

Lemma i32_small z : - 2 ^ 31 <= z < 2 ^ 31 -> i32 z = z.
Proof. intros H. unfold i32. rewrite Z.mod_small by lia. lia. Qed.

Lemma sgn_cmpZ c : Z.sgn (cmpZ c) = cmpZ c.
Proof. by destruct c. Qed.

Lemma sgn_sub a b : Z.sgn (a - b) = cmpZ (Z.compare a b).
Proof. destruct (Z.compare_spec a b); simpl; lia. Qed.

(** Both paths of [compare] realise the canonical order. *)
Lemma compare_spec c d : canonical c -> canonical d ->
  Block.value_size c < 2 ^ 31 -> Block.value_size d < 2 ^ 31 ->
  exists r, compare c d = Ok r /\ Z.sgn r = cmpZ (key_cmp (key c) (key d)).
Proof.
  intros Hc Hd Sc Sd. pose proof Hc as ([Tc _] & Uc & _). pose proof Hd as ([Td _] & Ud & _).
  unfold compare. destruct (Block.hasWire c && Block.hasWire d) eqn:Hw.
  - apply andb_true_iff in Hw as [Wc Wd].
    destruct (canonical_wire c Hc Wc) as [-> ->]. destruct (canonical_wire d Hd Wd) as [-> ->].
    eexists. split; [reflexivity|]. rewrite Z2Nat.inj_min, !to_nat_len.
    rewrite memcmp_tlv by (done || (width; lia)). apply sgn_cmpZ.
  - unfold key, key_cmp. cbn [fst snd]. rewrite i32_small by lia.
    assert (0 <= Block.value_size c /\ 0 <= Block.value_size d) as [Pc Pd]
      by (split; apply len_nonneg).
    destruct (Z.eqb_spec (Block.type c - Block.type d) 0) as [E|E]; cbn [negb].
    + replace (Block.type d) with (Block.type c) by lia. rewrite Z.compare_refl.
      rewrite i32_small by lia.
      destruct (Z.eqb_spec (Block.value_size c - Block.value_size d) 0) as [E1|E1]; cbn [negb].
      * replace (Block.value_size d) with (Block.value_size c) by lia. rewrite Z.compare_refl.
        assert (length (Block.value c) = length (Block.value d)) as EL
          by (unfold Block.value_size, len in E1; lia).
        destruct (Z.eqb_spec (Block.value_size c) 0) as [E2|E2].
        -- eexists. split; [done|]. unfold Block.value_size in *.
           apply len_zero in E2. rewrite E2 in *. by destruct (Block.value d).
        -- eexists. split; [done|]. unfold Block.value_size. rewrite to_nat_len, memcmp_values by done.
           apply sgn_cmpZ.
      * eexists. split; [done|]. rewrite sgn_sub.
        destruct (Z.compare_spec (Block.value_size c) (Block.value_size d)); [lia|done..].
    + eexists. split; [done|]. rewrite sgn_sub.
      destruct (Z.compare_spec (Block.type c) (Block.type d)); [lia|done..].
Qed.

(** *** The order on keys *)

Definition key_lt (a b : Z * Z * Z) : Prop :=
  a.1.1 < b.1.1 \/ a.1.1 = b.1.1 /\ (a.1.2 < b.1.2 \/ a.1.2 = b.1.2 /\ a.2 < b.2).

Lemma key_cmp_spec a b : CompareSpec (a = b) (key_lt a b) (key_lt b a) (key_cmp a b).
Proof.
  destruct a as [[a1 a2] a3], b as [[b1 b2] b3]. unfold key_cmp, key_lt. cbn [fst snd].
  destruct (Z.compare_spec a1 b1); [|constructor; lia..].
  destruct (Z.compare_spec a2 b2); [|constructor; lia..].
  destruct (Z.compare_spec a3 b3); constructor; [congruence|lia..].
Qed.

Lemma key_cmp_antisym a b : key_cmp b a = CompOpp (key_cmp a b).
Proof.
  unfold key_cmp. rewrite (Z.compare_antisym a.1.1), (Z.compare_antisym a.1.2), (Z.compare_antisym a.2).
  destruct (a.1.1 ?= b.1.1); [|done..]. destruct (a.1.2 ?= b.1.2); done.
Qed.

Lemma key_cmp_refl a : key_cmp a a = Eq.
Proof. unfold key_cmp. by rewrite !Z.compare_refl. Qed.

Lemma key_lt_trans a b c : key_lt a b -> key_lt b c -> key_lt a c.
Proof. unfold key_lt. lia. Qed.

Lemma key_lt_irrefl a : ~ key_lt a a.
Proof. unfold key_lt. lia. Qed.

Lemma key_inj c d : key c = key d -> Block.type c = Block.type d /\ Block.value c = Block.value d.
Proof.
  unfold key, Block.value_size. intros [= H1 H2 H3]. split; [done|].
  apply be_number_inj; [unfold len in H2; lia|done].
Qed.

Lemma equals_spec c d : equals c d = bool_decide (key c = key d).
Proof.
  unfold equals. destruct (bool_decide_reflect (key c = key d)) as [H|H].
  - destruct (key_inj c d H) as [-> Hv]. unfold Block.value_size. rewrite Hv, !Z.eqb_refl.
    by rewrite bool_decide_eq_true_2.
  - destruct (Z.eqb_spec (Block.type c) (Block.type d)) as [E1|]; [|done].
    destruct (bool_decide_reflect (Block.value c = Block.value d)) as [E2|]; [|by rewrite andb_false_r].
    exfalso. apply H. unfold key, Block.value_size. by rewrite E1, E2.
Qed.

(** *** Successor *)

Lemma be_number_snoc l b : be_number (l ++ [b]) = be_number l * 256 + b2z b.
Proof. rewrite be_number_app, be_number_cons. change (len [b]) with 1. change (be_number []) with 0. rewrite len_nil. lia. Qed.

Lemma take_S_snoc (v : bytes) j b : v !! j = Some b -> take (S j) v = take j v ++ [b].
Proof. apply take_S_r. Qed.

Lemma newValue_spec b :
  let nv := z2b (Z.land (b2z b + 1) 255) in
  if b2z nv =? 0 then b2z b = 255 else b2z nv = b2z b + 1.
Proof.
  pose proof (b2z_range b) as R. change 255 with (Z.ones 8). rewrite Z.land_ones by lia.
  change (2 ^ 8) with 256. cbn zeta. rewrite z2b_mod, b2z_z2b.
  destruct (decide (b2z b = 255)) as [E|E]; [by rewrite E|].
  rewrite Z.mod_small by lia. destruct (Z.eqb_spec (b2z b + 1) 0); lia.
Qed.

(** The carry loop: what it prepends, followed by the untouched octets in
    front, is the number one above; on overflow it is all zero. *)
Lemma successor_loop_spec v i : forall e, Encoder.wf e -> (i <= length v)%nat ->
  exists i' ov e' w, successor_loop v i true e = (i', ov, e') /\ Encoder.wf e' /\
    Encoder.view e' = w ++ Encoder.view e /\
    if ov then i' = O /\ w = replicate i Byte.x00 /\ be_number (take i v) + 1 = 256 ^ Z.of_nat i
    else length (take i' v ++ w) = i /\ be_number (take i' v ++ w) = be_number (take i v) + 1.
Proof.
  induction i as [|j IH]; intros e We Hi.
  { exists O, true, e, []. done. }
  destruct (lookup_lt_is_Some_2 v j) as [b Hb]; [lia|].
  cbn [successor_loop]. rewrite Hb. change (default Byte.x00 (Some b)) with b.
  pose proof (newValue_spec b) as Hnv. cbn zeta in Hnv.
  set (nv := z2b (Z.land (b2z b + 1) 255)) in *.
  pose proof (Encoder_prependBytes_law [nv] e We) as HP.
  destruct (Encoder.prependBytes [nv] e) as [e1 n1]. destruct HP as (W1 & (V1 & _) & _).
  rewrite (take_S_snoc v j b Hb). destruct (Z.eqb_spec (b2z nv) 0) as [E|E].
  - destruct (IH e1 W1) as (i' & ov & e' & w & HL & W' & V' & Hres); [lia|].
    assert (Ez : nv = Byte.x00) by (apply b2z_inj; rewrite E; done).
    exists i', ov, e', (w ++ [nv]). do 2 (split; [done|]). split.
    { by rewrite V', V1, <- (assoc_L (++)). }
    destruct ov.
    + destruct Hres as (-> & -> & Hn). split_and!; [done| |].
      * rewrite Ez. by rewrite replicate_S_end.
      * rewrite be_number_snoc, Hnv, Nat2Z.inj_succ, Z.pow_succ_r by lia. lia.
    + destruct Hres as (Hl & Hn). rewrite (assoc_L (++)), length_app, Hl. split; [simpl; lia|].
      rewrite !be_number_snoc, Hn. lia.
  - assert (successor_loop v j false e1 = (j, false, e1)) as -> by (by destruct j).
    exists j, false, e1, [nv]. do 3 (split; [done|]).
    rewrite length_app, length_take, Nat.min_l by lia. split; [simpl; lia|].
    rewrite !be_number_snoc. lia.
Qed.

(** [getSuccessorImpl] increments the value, or replaces an all-ones value by
    the zeros of the next length. *)
Lemma getSuccessorImpl_spec c : valid (Block.type c) (Block.value c) ->
  Block.value_size c < UINT64_MAX ->
  exists ov v', getSuccessorImpl c = Ok (ov, Block.of_tlv (Block.type c) v') /\
    if ov then be_number (Block.value c) + 1 = 256 ^ Block.value_size c /\
               v' = replicate (S (length (Block.value c))) Byte.x00
    else len v' = Block.value_size c /\ be_number v' = be_number (Block.value c) + 1.
Proof.
  intros Hv Hs. unfold getSuccessorImpl, Block.size, Block.isValid.
  change (Block.m_type c) with (Block.type c).
  rewrite (proj2 (Z.eqb_neq _ tlv.Invalid)) by (unfold tlv.Invalid; destruct Hv; lia).
  cbn [negb throw_if mbind result_bind]. set (e0 := Encoder.make _ _).
  assert (W0 : Encoder.wf e0 /\ Encoder.view e0 = []).
  { unfold e0, Encoder.wf, Encoder.view, Encoder.make; cbn [Encoder.m_begin Encoder.m_end Encoder.m_buffer].
    rewrite length_replicate, Nat.sub_diag. split; [lia|done]. }
  destruct W0 as [W0 V0]. unfold Block.value_size at 1. rewrite to_nat_len.
  destruct (successor_loop_spec (Block.value c) (length (Block.value c)) e0 W0)
    as (i & ov & e1 & w & -> & W1 & V1 & Hres); [done|].
  rewrite V0, app_nil_r in V1. rewrite (take_ge (Block.value c) (length _)) in Hres by done.
  pose proof (Encoder_prependBytes_law (take i (Block.value c)) e1 W1) as H2.
  destruct (Encoder.prependBytes _ e1) as [e2 n2]. destruct H2 as (W2 & (V2 & _) & _).
  rewrite V1 in V2.
  set (e3 := if ov then _ else _).
  assert (exists v', Encoder.wf e3 /\ Encoder.view e3 = v' /\
    if ov then be_number (Block.value c) + 1 = 256 ^ Block.value_size c /\
               v' = replicate (S (length (Block.value c))) Byte.x00
    else len v' = Block.value_size c /\ be_number v' = be_number (Block.value c) + 1)
    as (v' & W3 & V3 & Hv').
  { unfold e3. destruct ov.
    - destruct (Encoder_appendBytes_law [Byte.x00] e2 W2) as (W3 & V3 & _).
      destruct Hres as (-> & -> & Hn). exists (replicate (S (length (Block.value c))) Byte.x00).
      split; [done|]. split; [|done]. cbn [fst] in V3. rewrite V3, V2. cbn [take app].
      by rewrite replicate_S_end.
    - destruct Hres as [Hl Hn]. exists (take i (Block.value c) ++ w).
      do 2 (split; [done|]). split; [|done]. unfold len, Block.value_size, len. by rewrite Hl. }
  assert (Hl : len v' <= Block.value_size c + 1).
  { unfold Block.value_size in *. destruct ov; destruct Hv' as [H1 H2].
    - rewrite H2. unfold len. rewrite length_replicate. lia.
    - lia. }
  assert (Hsz : Encoder.size e3 = len v').
  { rewrite <- V3. unfold Encoder.size, Encoder.view, len. rewrite length_take, length_drop.
    destruct W3. lia. }
  rewrite Hsz.
  pose proof (Encoder_prependVarNumber_law (len v') e3 W3) as H4.
  destruct (Encoder.prependVarNumber (len v') e3) as [e4 n4]. destruct H4 as (W4 & (V4 & _) & _).
  pose proof (Encoder_prependVarNumber_law (Block.type c) e4 W4) as H5.
  destruct (Encoder.prependVarNumber (Block.type c) e4) as [e5 n5]. destruct H5 as (W5 & (V5 & _) & _).
  rewrite (Encoder_block_view e5 (Block.type c) v').
  - exists ov, v'. done.
  - done.
  - by rewrite V5, V4, V3.
  - by eapply valid_tlv_type.
  - pose proof (len_nonneg v'). width. lia.
Qed.

Lemma be_number_zeros n : be_number (replicate n Byte.x00) = 0.
Proof.
  induction n as [|n IH]; [done|]. cbn [replicate]. rewrite be_number_cons, IH.
  change (b2z Byte.x00) with 0. lia.
Qed.

Lemma value_number_range c : 0 <= be_number (Block.value c) < 256 ^ Block.value_size c.
Proof. apply be_number_range. Qed.

(** [s] is the least valid component above [c]. *)
Definition least_above (c s : Block.t) : Prop :=
  valid (Block.type s) (Block.value s) /\ key_lt (key c) (key s) /\
  forall d, valid (Block.type d) (Block.value d) -> key_lt (key c) (key d) ->
    key d = key s \/ key_lt (key s) (key d).

Lemma least_above_incr c v' : valid (Block.type c) (Block.value c) ->
  len v' = Block.value_size c -> be_number v' = be_number (Block.value c) + 1 ->
  least_above c (Block.of_tlv (Block.type c) v').
Proof.
  intros [Hv1 Hv2] Hl Hn. unfold least_above, valid, key, key_lt, Block.value_size in *. cbn [fst snd].
  cbn [Block.of_tlv Block.type Block.m_type Block.value Block.m_buf]. rewrite Hl, Hn.
  split_and!; [lia..|lia|]. intros d _ H.
  set (nd := be_number (Block.value d)) in *. set (ld := len (Block.value d)) in *.
  set (td := Block.type d) in *. change (Block.m_type c) with (Block.type c).
  destruct (decide (td = Block.type c /\ ld = len (Block.value c) /\ nd = be_number (Block.value c) + 1))
    as [(-> & -> & ->)|]; [by left|right; lia].
Qed.

Lemma least_above_grow c : valid (Block.type c) (Block.value c) ->
  Block.type c <> 1 -> Block.type c <> 2 -> be_number (Block.value c) + 1 = 256 ^ Block.value_size c ->
  least_above c (Block.of_tlv (Block.type c) (replicate (S (length (Block.value c))) Byte.x00)).
Proof.
  intros [Hv1 Hv2] N1 N2 Hn. unfold least_above, valid, key, key_lt in *. cbn [fst snd].
  assert (Hl : Block.value_size (Block.of_tlv (Block.type c) (replicate (S (length (Block.value c))) Byte.x00))
    = Block.value_size c + 1).
  { unfold Block.value_size, len. cbn [Block.of_tlv Block.value Block.m_buf]. rewrite length_replicate. lia. }
  rewrite Hl. cbn [Block.of_tlv Block.type Block.m_type Block.value Block.m_buf].
  rewrite be_number_zeros. change (Block.m_type c) with (Block.type c).
  split_and!; [lia..|lia|]. intros d _ H. pose proof (value_number_range d) as R.
  set (nd := be_number (Block.value d)) in *. set (ld := Block.value_size d) in *.
  set (td := Block.type d) in *.
  destruct (decide (td = Block.type c /\ ld = Block.value_size c)) as [[E1 E2]|E].
  { rewrite E2 in R. lia. }
  destruct (decide (td = Block.type c /\ ld = Block.value_size c + 1 /\ nd = 0)) as [(-> & -> & ->)|];
    [by left|right; lia].
Qed.

Lemma least_above_next_type c ty v : valid (Block.type c) (Block.value c) ->
  Block.type c = 1 /\ ty = 2 /\ v = replicate 32 Byte.x00 \/ Block.type c = 2 /\ ty = 3 /\ v = [] ->
  be_number (Block.value c) + 1 = 256 ^ Block.value_size c -> least_above c (Block.of_tlv ty v).
Proof.
  intros [Hv1 Hv2] Hty Hn. unfold least_above, key, key_lt. cbn [fst snd].
  assert (Hk : Block.value_size (Block.of_tlv ty v) = len v) by done. rewrite Hk.
  cbn [Block.of_tlv Block.type Block.m_type Block.value Block.m_buf].
  change (Block.m_type c) with (Block.type c).
  assert (Hv : valid ty v /\ be_number v = 0).
  { destruct Hty as [(_ & -> & ->)|(_ & -> & ->)]; split; try done; split; try done; lia. }
  destruct Hv as [Hv Hz]. rewrite Hz. split_and!; [done|lia|].
  intros d [D1 D2] H. pose proof (value_number_range d) as R. unfold Block.value_size in *.
  set (nd := be_number (Block.value d)) in *. set (ld := len (Block.value d)) in *.
  set (td := Block.type d) in *. pose proof (len_nonneg (Block.value d)) as P. fold ld in P.
  assert (td <> Block.type c).
  { intros E. assert (ld = len (Block.value c)) as E2 by (rewrite D2, Hv2; lia).
    rewrite E2 in R. lia. }
  destruct Hty as [(T1 & -> & ->)|(T1 & -> & ->)].
  - destruct (decide (td = 2)) as [E|]; [|right; lia]. rewrite E, D2 by lia.
    change (len (replicate 32 Byte.x00)) with 32. destruct (decide (nd = 0)) as [->|]; [by left|right; lia].
  - destruct (decide (td = 3)) as [E|]; [|right; lia]. change (len (@nil byte)) with 0.
    destruct (decide (ld = 0 /\ nd = 0)) as [[-> ->]|]; [rewrite E; by left|right; lia].
Qed.

Lemma typeGetSuccessor_plain c : Block.type c <> 1 -> Block.type c <> 2 ->
  typeGetSuccessor (ComponentType.get (Block.type c)) c =
  (r ← getSuccessorImpl c; s ← ofBlock (snd r); Ok (false, s)).
Proof.
  intros N1 N2. unfold typeGetSuccessor. destruct (getSuccessorImpl c) as [[ov b]|]; [|done].
  cbn [mbind result_bind snd].
  destruct (get_cases (Block.type c)) as [[? _]|[[? _]|[[_ ->]|[(_ & n & p & -> & _)|(_ & _ & _ & _ & ->)]]]]; done.
Qed.

Lemma typeGetSuccessor_digest c : Block.type c = 1 \/ Block.type c = 2 ->
  typeGetSuccessor (ComponentType.get (Block.type c)) c =
  (r ← getSuccessorImpl c;
   if fst (r : bool * Block.t) then Ok (true, c) else s ← ofBlock (snd r); Ok (false, s)).
Proof.
  intros [-> | ->]; unfold typeGetSuccessor; by destruct (getSuccessorImpl c) as [[ov b]|].
Qed.

Lemma getSuccessor_spec c : valid (Block.type c) (Block.value c) -> Block.value_size c < UINT64_MAX ->
  exists ty v, getSuccessor c = Ok (Block.of_tlv ty v) /\ len v <= Block.value_size c + 1 /\
    least_above c (Block.of_tlv ty v).
Proof.
  intros Hv Hs. destruct (getSuccessorImpl_spec c Hv Hs) as (ov & v' & Himpl & Hres).
  unfold getSuccessor. destruct (decide (Block.type c = 1 \/ Block.type c = 2)) as [Hd|Hd].
  - rewrite typeGetSuccessor_digest, Himpl by done. cbn [mbind result_bind fst snd]. destruct ov.
    + cbn [mbind result_bind negb]. destruct Hres as [Hn _].
      assert (L : Block.value_size c = 32) by (apply Hv; done).
      destruct Hd as [Hd|Hd]; rewrite Hd.
      * exists 2, (replicate 32 Byte.x00). rewrite L. split_and!; [reflexivity|done|].
        apply least_above_next_type; auto.
      * exists 3, []. rewrite L. split_and!; [reflexivity|done|].
        apply least_above_next_type; auto.
    + destruct Hres as [Hl Hn]. pose proof (least_above_incr c v' Hv Hl Hn) as HL.
      exists (Block.type c), v'. rewrite ofBlock_spec by apply HL. split_and!; [done|lia|done].
  - rewrite typeGetSuccessor_plain, Himpl by tauto. cbn [mbind result_bind snd].
    assert (HL : least_above c (Block.of_tlv (Block.type c) v')).
    { destruct ov; destruct Hres as [H1 H2]; [|by apply least_above_incr].
      rewrite H2. apply least_above_grow; tauto. }
    exists (Block.type c), v'. rewrite ofBlock_spec by apply HL. split_and!; [done| |done].
    unfold Block.value_size in *. destruct ov; destruct Hres as [H1 H2]; [|lia].
    rewrite H2. unfold len. rewrite length_replicate. lia.
Qed.

(** *** URIs *)

Lemma split_at_none c s : c ∉ s -> split_at c s = None.
Proof.
  induction s as [|x s IH]; intros H; [done|]. cbn [split_at].
  rewrite bool_decide_eq_false_2 by set_solver. by rewrite IH by set_solver.
Qed.

Lemma split_at_app c a b : c ∉ a -> split_at c (a ++ c :: b) = Some (a, b).
Proof.
  induction a as [|x a IH]; intros H; cbn [split_at app].
  - by rewrite bool_decide_eq_true_2.
  - rewrite bool_decide_eq_false_2 by set_solver. by rewrite IH by set_solver.
Qed.

Lemma unescape_dots s : unescape (str "..." ++ s) = str "..." ++ unescape s.
Proof. change (str "...") with [chr "."; chr "."; chr "."]. cbn [app]. by rewrite !TextFacts.unescape_plain by done. Qed.

Lemma all_dots v : forallb (fun c => bool_decide (c = chr ".")) v = true ->
  forallb (fun c => bool_decide (c = chr ".")) (str "..." ++ v) = true /\
  take (length (str "..." ++ v) - 3) (str "..." ++ v) = v.
Proof.
  intros H. split; [done|].
  assert (v = replicate (length v) (chr ".")) as Hv.
  { induction v as [|x v IH]; [done|]. cbn [forallb] in H. apply andb_true_iff in H as [H1 H2].
    apply bool_decide_eq_true in H1. rewrite H1. cbn [length replicate]. f_equal. by apply IH. }
  rewrite Hv. change (str "...") with (replicate 3 (chr ".")). rewrite <- replicate_add, length_replicate.
  rewrite take_replicate. f_equal. lia.
Qed.

Lemma parse_writeUriEscapedValue c : valid (Block.type c) (Block.value c) -> is_u64 (Block.value_size c) ->
  parseUriEscapedValue (Block.type c) (writeUriEscapedValue c) =
  Ok (Block.of_tlv (Block.type c) (Block.value c)).
Proof.
  intros Hv Hs. unfold parseUriEscapedValue, writeUriEscapedValue.
  destruct (forallb _ (Block.value c)) eqn:E.
  - rewrite unescape_dots, TextFacts.unescape_escape. destruct (all_dots _ E) as [-> ->].
    rewrite len_app. change (len (str "...")) with 3. pose proof (len_nonneg (Block.value c)).
    rewrite (proj2 (Z.ltb_ge _ 3)) by lia. cbn [throw_if mbind result_bind]. by apply ofSpan_spec.
  - cbn [app]. rewrite TextFacts.unescape_escape, E. by apply ofSpan_spec.
Qed.

(** Characters that structure a URI do not occur in an escaped value. *)
Lemma writeUriEscapedValue_safe c x : TextFacts.uri_char x = false -> x ∉ writeUriEscapedValue c.
Proof.
  intros Hx. unfold writeUriEscapedValue. rewrite elem_of_app. intros [H|H].
  - destruct (forallb _ _); [|set_solver]. change (str "...") with [chr "."; chr "."; chr "."] in H.
    set_unfold. destruct H as [->|[->|[->|[]]]]; done.
  - revert H. by apply TextFacts.escape_not_in.
Qed.

Lemma to_string_safe n x : 0 <= n <= UINT64_MAX -> isDigit x = false -> x ∉ to_string n.
Proof.
  intros Hn Hx Hin. destruct (TextFacts.to_string_digits n Hn) as (D & _ & _).
  rewrite forallb_forall in D. rewrite D in Hx; [done|]. by apply list_elem_of_In.
Qed.

Lemma toHex_safe up v x : TextFacts.uri_char x = false -> x ∉ toHex v up.
Proof.
  intros Hx. unfold toHex. induction v as [|b v IH]; [set_solver|].
  rewrite TextFacts.toHex_cons. cbv zeta.
  assert (Hd : forall (n : nat), x <> default Byte.x00
      ((if up then HexEncode.H2CU else HexEncode.H2CL) !! n) \/ (16 <= n)%nat).
  { intros n. destruct (decide (16 <= n)%nat) as [|Hn]; [by right|left]. intros E. revert Hx. rewrite E.
    clear -Hn. destruct up; do 16 (destruct n as [|n]; [done|]); lia. }
  assert (Hb : forall z, (Z.to_nat (Z.land z 15) < 16)%nat).
  { intros z. change 15 with (Z.ones 4). rewrite Z.land_ones by lia.
    pose proof (Z.mod_pos_bound z (2 ^ 4)). lia. }
  pose proof (Hb (Z.shiftr (b2z b) 4)) as H1. pose proof (Hb (b2z b)) as H2.
  rewrite !not_elem_of_cons. split_and!; [|..|done].
  - destruct (Hd (Z.to_nat (Z.land (Z.shiftr (b2z b) 4) 15))); [done|lia].
  - destruct (Hd (Z.to_nat (Z.land (b2z b) 15))); [done|lia].
Qed.

Definition is_decimalb (ty : Z) : bool := bool_decide (ty ∈ [50; 52; 54; 56; 58]).

(** The value that is written: the alternate format of a number component
    shows the number only, so that a longer encoding of it is shortened. *)
Definition uri_value (alt : bool) (c : Block.t) : bytes :=
  if alt && is_decimalb (Block.type c) && isNumber c
  then tlv.writeNonNegativeInteger (be_number (Block.value c))
  else Block.value c.

Lemma toNumber_be c : isNumber c = true ->
  toNumber c = Ok (be_number (Block.value c)) /\ is_u64 (be_number (Block.value c)).
Proof.
  intros Hn. pose proof Hn as Hn'. apply isNumber_iff in Hn'. unfold toNumber. rewrite Hn.
  cbn [negb throw_if mbind result_bind].
  destruct (encoding.readNonNegativeInteger c) as [m|e] eqn:E.
  - apply readNNI_inv in E as (_ & -> & ?). done.
  - exfalso. revert E. unfold encoding.readNonNegativeInteger, Block.value_size in *.
    destruct (Block.value c) as [|b0 v] eqn:Ev; [by vm_compute in Hn'; set_solver|].
    rewrite <- Ev in *. unfold tlv.readNonNegativeInteger. rewrite to_nat_len.
    assert (Hw : length (Block.value c) ∈ [1; 2; 4; 8]%nat) by (unfold len in Hn'; set_unfold; lia).
    replace (negb (len (Block.value c) =? 1) && _ && _ && _) with false
      by (symmetry; unfold len in *; set_unfold; lia).
    cbn [throw_if mbind result_bind].
    pose proof (readNumber_be (length (Block.value c)) (be_number (Block.value c)) []) as HR.
    rewrite be_bytes_number, app_nil_r in HR. rewrite HR; [done|done|apply be_number_range].
Qed.

Lemma fromEscaped_base c : valid (Block.type c) (Block.value c) -> is_u64 (Block.value_size c) ->
  fromEscapedString (writeUriBase c) = Ok (Block.of_tlv (Block.type c) (Block.value c)).
Proof.
  intros Hv Hs. pose proof Hv as [Ht _].
  assert (Hu : 0 <= Block.type c <= UINT64_MAX) by (unfold UINT64_MAX; lia).
  unfold fromEscapedString, writeUriBase. change (str "=") with [chr "="]. cbn [app].
  rewrite split_at_app by (by apply to_string_safe). rewrite TextFacts.strtoul_to_string by done.
  unfold tlv.NameComponentMin, tlv.NameComponentMax.
  rewrite (proj2 (Z.leb_le 1 _)), (proj2 (Z.leb_le _ 65535)) by lia.
  rewrite bool_decide_eq_true_2 by done. cbn [andb].
  unfold u32. rewrite Z.mod_small by lia. by apply parse_writeUriEscapedValue.
Qed.

Lemma fromEscaped_generic c : Block.type c = 8 -> is_u64 (Block.value_size c) ->
  fromEscapedString (writeUriEscapedValue c) = Ok (Block.of_tlv 8 (Block.value c)).
Proof.
  intros Ht Hs. unfold fromEscapedString.
  rewrite split_at_none by (by apply writeUriEscapedValue_safe).
  unfold tlv.GenericNameComponent. rewrite <- Ht.
  apply parse_writeUriEscapedValue; [|done]. rewrite Ht. split; lia.
Qed.

(** A prefix of the alternate format leads to the rule of its type. *)
Lemma fromEscaped_prefix p ct value : chr "=" ∉ p -> strtoul p = 0 ->
  ComponentType.findByUriPrefix p = Some ct ->
  fromEscapedString (p ++ str "=" ++ value) = parseAltUriValue ct value.
Proof.
  intros Hp Hz Hf. unfold fromEscapedString. change (str "=") with [chr "="]. cbn [app].
  rewrite split_at_app, Hz by done. cbn [andb Z.leb]. by rewrite Hf.
Qed.

Lemma parseAlt_digest ty n p v : ty = 1 \/ ty = 2 -> len v = 32 ->
  parseAltUriValue (ComponentType.Sha256 ty n p) (toHex v false) = Ok (Block.ofTypeValue ty v).
Proof.
  intros Ht Hl. unfold parseAltUriValue, fromHex, toHex.
  rewrite TextFacts.decode_chunks_spec. cbn [TextFacts.pending HexDecode.init HexDecode.m_hasOddByte app mjoin list_join].
  rewrite app_nil_r. unfold TextFacts.decode_spec.
  rewrite TextFacts.toBytes_loop_hex, TextFacts.length_toHex. cbn [mbind result_bind].
  rewrite Z.odd_mul. cbn [Z.odd andb throw_if mbind result_bind].
  apply ofBlock_spec. split; [destruct Ht as [-> | ->]; simpl; lia|done].
Qed.

Lemma parseAlt_decimal ty n p k : is_decimal ty -> is_u64 k ->
  parseAltUriValue (ComponentType.Decimal ty n p) (to_string k) =
  Ok (Block.of_tlv ty (tlv.writeNonNegativeInteger k)).
Proof.
  intros Ht Hk. unfold parseAltUriValue. rewrite TextFacts.stoull_to_string by (width; lia).
  rewrite bool_decide_eq_true_2 by done. cbn [negb throw_if mbind result_bind].
  apply fromNumber_spec. unfold is_decimal in Ht. split; [|]; lia.
Qed.

Lemma split_at_none_inv c s : split_at c s = None -> c ∉ s.
Proof.
  induction s as [|x s IH]; intros H; [set_solver|]. cbn [split_at] in H.
  destruct (bool_decide_reflect (x = c)); [done|].
  destruct (split_at c s) as [[a b]|]; [done|]. set_unfold. naive_solver.
Qed.

Lemma is_decimalb_spec ty : is_decimalb ty = true <-> is_decimal ty.
Proof. unfold is_decimalb, is_decimal. rewrite bool_decide_eq_true. set_solver. Qed.

Lemma not_elem_of_app3 (x : byte) a b d : x ∉ a -> x ∉ b -> x ∉ d -> x ∉ a ++ b ++ d.
Proof. set_solver. Qed.

Lemma prefix_safe ty n p x : ComponentType.get ty = ComponentType.Decimal ty n p ->
  is_decimal ty -> TextFacts.uri_char x = false -> x ∉ p.
Proof.
  intros Hg Hd Hx Hin. assert (forallb TextFacts.uri_char p = true) as H.
  { destruct Hd as [->|[->|[->|[->| ->]]]]; injection Hg as <- <-; done. }
  rewrite forallb_forall in H. rewrite H in Hx; [done|]. by apply list_elem_of_In.
Qed.

Lemma writeUriBase_safe c x : valid (Block.type c) (Block.value c) -> TextFacts.uri_char x = false ->
  isDigit x = false -> x <> chr "=" -> x ∉ writeUriBase c.
Proof.
  intros [Ht _] Hx Hd He. unfold writeUriBase. apply not_elem_of_app3.
  - apply to_string_safe; [unfold UINT64_MAX; lia|done].
  - change (str "=") with [chr "="]. set_solver.
  - by apply writeUriEscapedValue_safe.
Qed.

Lemma toUri_parse_digest c ty n p : ty = 1 \/ ty = 2 -> Block.type c = ty ->
  valid (Block.type c) (Block.value c) -> ComponentType.findByUriPrefix p = Some (ComponentType.Sha256 ty n p) ->
  split_at (chr "=") p = None -> strtoul p = 0 -> forallb TextFacts.uri_char p = true ->
  exists u c', Ok (p ++ str "=" ++ toHex (Block.value c) false) = Ok u /\ fromEscapedString u = Ok c' /\
    Block.type c' = Block.type c /\
    Block.value c' = (if is_decimalb (Block.type c) && isNumber c
        then tlv.writeNonNegativeInteger (be_number (Block.value c)) else Block.value c) /\
    (forall x, TextFacts.uri_char x = false -> isDigit x = false -> x <> chr "=" -> x ∉ u).
Proof.
  intros Ht E Hv Hf Hp Hz Hc. eexists _, (Block.ofTypeValue ty (Block.value c)). split; [done|].
  rewrite (fromEscaped_prefix p _ _ (split_at_none_inv _ _ Hp) Hz Hf), E.
  rewrite parseAlt_digest by (done || (apply Hv; by rewrite E)).
  split_and!; [done|done| |].
  - by destruct Ht as [-> | ->].
  - intros x Hx Hd He. apply not_elem_of_app3;
      [|change (str "=") with [chr "="]; set_solver|by apply toHex_safe].
    intros Hin. rewrite forallb_forall in Hc. rewrite Hc in Hx; [done|by apply list_elem_of_In].
Qed.

(** Writing a component and reading it back, in every format. *)
Lemma toUri_parse env fmt c : valid (Block.type c) (Block.value c) -> is_u64 (Block.value_size c) ->
  exists u c', toUri env c fmt = Ok u /\ fromEscapedString u = Ok c' /\
    Block.type c' = Block.type c /\ Block.value c' = uri_value (wantAltUri env fmt) c /\
    (forall x, TextFacts.uri_char x = false -> isDigit x = false -> x <> chr "=" -> x ∉ u).
Proof.
  intros Hv Hs. unfold toUri, uri_value. destruct (wantAltUri env fmt); cbn [andb].
  2: { eexists _, (Block.of_tlv (Block.type c) (Block.value c)). cbn [writeUri]. split; [done|].
       rewrite fromEscaped_base by done. split_and!; try done. intros x. by apply writeUriBase_safe. }
  assert (Hbase : is_decimalb (Block.type c) && isNumber c = false ->
    exists c', fromEscapedString (writeUriBase c) = Ok c' /\ Block.type c' = Block.type c /\
      Block.value c' = if is_decimalb (Block.type c) && isNumber c
        then tlv.writeNonNegativeInteger (be_number (Block.value c)) else Block.value c).
  { intros ->. exists (Block.of_tlv (Block.type c) (Block.value c)). by rewrite fromEscaped_base by done. }
  destruct (get_cases (Block.type c)) as [[E ->]|[[E ->]|[[E ->]|[(Hd & n & p & Hg & Hf & Hp & Hz)|(N1 & N2 & N8 & Nd & ->)]]]];
    cbn [writeUri ComponentType.getComponentType1 ComponentType.getComponentType2].
  - apply (toUri_parse_digest c 1 "ImplicitSha256DigestComponent" (str "sha256digest")); [by left|done..].
  - apply (toUri_parse_digest c 2 "ParametersSha256DigestComponent" (str "params-sha256")); [by right|done..].
  - eexists _, (Block.of_tlv 8 (Block.value c)). split; [done|]. rewrite fromEscaped_generic by done.
    rewrite E. split_and!; try done.
    intros x Hx _ _. by apply writeUriEscapedValue_safe.
  - rewrite Hg. cbn [writeUri]. pose proof Hd as Hd'. apply is_decimalb_spec in Hd'. rewrite Hd' in *.
    cbn [andb] in *. destruct (isNumber c) eqn:Hn.
    + destruct (toNumber_be c Hn) as [-> Hu]. cbn [mbind result_bind].
      eexists _, (Block.of_tlv (Block.type c) (tlv.writeNonNegativeInteger (be_number (Block.value c)))).
      split; [done|].
      rewrite (fromEscaped_prefix p (ComponentType.Decimal (Block.type c) n p)) by (done || by apply split_at_none_inv).
      rewrite parseAlt_decimal by done. split_and!; try done.
      intros x Hx Hdg He. apply not_elem_of_app3;
        [by eapply prefix_safe|change (str "=") with [chr "="]; set_solver|by apply to_string_safe; [width; lia|]].
    + destruct (Hbase eq_refl) as (c' & H1 & H2 & H3). eexists _, c'. split_and!; try done.
      intros x. by apply writeUriBase_safe.
  - assert (is_decimalb (Block.type c) = false) as Nd'.
    { apply not_true_is_false. by rewrite is_decimalb_spec. }
    rewrite Nd' in *. destruct (Hbase eq_refl) as (c' & H1 & H2 & H3). eexists _, c'. split_and!; try done.
    intros x. by apply writeUriBase_safe.
Qed.

End ComponentFacts.

(** The five kinds of number components of the naming conventions, with the
    operations of each. *)
Module Kind.

Inductive t := Version | Segment | ByteOffset | Timestamp | SequenceNumber.

#[global] Instance kind_eq_dec : EqDecision t.
Proof. solve_decision. Defined.

Definition from (k : t) : Conventions -> Z -> result Component.t :=
  match k with
  | Version => Component.fromVersion
  | Segment => Component.fromSegment
  | ByteOffset => Component.fromByteOffset
  | Timestamp => Component.fromTimestamp
  | SequenceNumber => Component.fromSequenceNumber
  end.

Definition test (k : t) : Conventions -> Component.t -> bool :=
  match k with
  | Version => Component.isVersion
  | Segment => Component.isSegment
  | ByteOffset => Component.isByteOffset
  | Timestamp => Component.isTimestamp
  | SequenceNumber => Component.isSequenceNumber
  end.

Definition to (k : t) : Conventions -> Component.t -> result Z :=
  match k with
  | Version => Component.toVersion
  | Segment => Component.toSegment
  | ByteOffset => Component.toByteOffset
  | Timestamp => Component.toTimestamp
  | SequenceNumber => Component.toSequenceNumber
  end.

Definition marker (k : t) : byte :=
  match k with
  | Version => VERSION_MARKER
  | Segment => SEGMENT_MARKER
  | ByteOffset => SEGMENT_OFFSET_MARKER
  | Timestamp => TIMESTAMP_MARKER
  | SequenceNumber => SEQUENCE_NUMBER_MARKER
  end.

Definition typed (k : t) : Z :=
  match k with
  | Version => tlv.VersionNameComponent
  | Segment => tlv.SegmentNameComponent
  | ByteOffset => tlv.ByteOffsetNameComponent
  | Timestamp => tlv.TimestampNameComponent
  | SequenceNumber => tlv.SequenceNumNameComponent
  end.

(** Decoding accepts what encoding writes. *)
Definition compatible (conv : Conventions) : bool :=
  match g_conventionEncoding conv with
  | MARKER => canDecodeMarkerConvention conv
  | _ => canDecodeTypedConvention conv
  end.

End Kind.

Module ComponentTheorems.
Import Component ComponentFacts.

Lemma from_kind k conv n : is_u64 n ->
  Kind.from k conv n = Ok (match g_conventionEncoding conv with
    | MARKER => Block.of_tlv 8 (marked (Kind.marker k) n)
    | _ => Block.of_tlv (Kind.typed k) (tlv.writeNonNegativeInteger n)
    end).
Proof.
  intros Hn. assert (H : forall m ty, 50 <= ty <= 58 ->
    fromConvention conv m ty n = Ok (match g_conventionEncoding conv with
      | MARKER => Block.of_tlv 8 (marked m n) | _ => Block.of_tlv ty (tlv.writeNonNegativeInteger n) end)).
  { intros m ty Ht. unfold fromConvention. destruct (g_conventionEncoding conv);
      [apply fromNumberWithMarker_spec|apply fromNumber_spec..]; split; lia. }
  destruct k; try (apply H; simpl; done).
  cbn [Kind.from Kind.marker Kind.typed]. unfold fromTimestamp, u64. rewrite Z.mod_small by (width; lia).
  by apply H.
Qed.

Lemma is_kind k conv c : Kind.test k conv c = isConvention conv (Kind.marker k) (Kind.typed k) c.
Proof. by destruct k. Qed.

Lemma to_kind k conv c : exists what,
  Kind.to k conv c = toConvention conv (Kind.marker k) (Kind.typed k) what c.
Proof. destruct k; by eexists. Qed.

Lemma typed_inj k k' : Kind.typed k =? Kind.typed k' = bool_decide (k' = k).
Proof. by destruct k, k'. Qed.

Lemma marker_inj k k' : bool_decide (Kind.marker k = Kind.marker k') = bool_decide (k' = k).
Proof. by destruct k, k'. Qed.

(** Numbers survive the naming conventions: for each of the five kinds,
    in the marker and in the typed style, the component made from a 64-bit
    number reads back as that number, its own test recognises it and the tests
    of the four other kinds do not, as long as decoding accepts the style that
    encoding uses. *)
Theorem convention_roundtrip (conv : Conventions) (k k' : Kind.t) (n : Z)
    (Hn : is_u64 n) (Hc : Kind.compatible conv = true) :
  exists c, Kind.from k conv n = Ok c /\ Kind.to k conv c = Ok n /\
    Kind.test k' conv c = bool_decide (k' = k).
Proof.
  rewrite from_kind by done. set (c := match g_conventionEncoding conv with MARKER => _ | _ => _ end).
  exists c. split; [done|]. rewrite is_kind. destruct (to_kind k conv c) as [what ->]. subst c.
  unfold Kind.compatible in Hc. unfold toConvention, isConvention.
  destruct (g_conventionEncoding conv); rewrite Hc; unfold tlv.GenericNameComponent;
    cbn [Block.type Block.of_tlv Block.m_type].
  - rewrite Z.eqb_refl. cbn [andb]. rewrite toNumberWithMarker_marked by done.
    rewrite isNumberWithMarker_marked, marker_inj. replace (8 =? Kind.typed k') with false by (by destruct k').
    rewrite andb_false_r, orb_false_r. done.
  - replace (Kind.typed k =? 8) with false by (by destruct k). rewrite andb_false_r, Z.eqb_refl. cbn [andb orb].
    rewrite toNumber_nni, isNumber_nni, andb_true_r, typed_inj by done. done.
  - replace (Kind.typed k =? 8) with false by (by destruct k). rewrite andb_false_r, Z.eqb_refl. cbn [andb orb].
    rewrite toNumber_nni, isNumber_nni, andb_true_r, typed_inj by done. done.
Qed.

Lemma convention_roundtrip_witness :
  exists c, Kind.from Kind.Segment defaultConventions 70000 = Ok c /\
    Kind.to Kind.Segment defaultConventions c = Ok 70000 /\ Kind.test Kind.Version defaultConventions c = false.
Proof.
  apply (convention_roundtrip defaultConventions Kind.Segment Kind.Version 70000); by vm_compute.
Defined.

(** The wire format of components: encoding a valid component makes the
    shortest TLV element of its type and value, whatever the component was
    made from; decoding that element gives an equal component; and a block is
    accepted as a component exactly when its type lies in 1..65535 and a
    digest component has 32 octets. *)
Theorem component_wire (c : Component.t) (b : Block.t)
    (Hv : valid (Block.type c) (Block.value c)) (Hs : is_u64 (Block.value_size c)) (Hw : Block.hasWire c = false) :
  (exists c', wireEncode c = Ok c' /\ Block.wire c' = Ok (tlv_bytes (Block.type c) (Block.value c)) /\
     equals c c' = true /\
     (x ← Block.fromSpan (tlv_bytes (Block.type c) (Block.value c)); wireDecode x) = Ok c') /\
  (wireDecode b = Ok b <-> valid (Block.type b) (Block.value b)) /\
  (~ valid (Block.type b) (Block.value b) -> exists e, wireDecode b = Throw (ComponentError e)).
Proof.
  pose proof (valid_tlv_type _ _ Hv) as Ht. split_and!.
  - exists (Block.of_tlv (Block.type c) (Block.value c)). split_and!.
    + unfold wireEncode. rewrite Hw. rewrite (makeBlock_tlv _ (Block.type c) (Block.value c)).
      * cbn [mbind result_bind]. by apply ofBlock_spec.
      * apply Encodes_component.
      * done.
      * done.
    + apply wire_of_tlv.
    + rewrite equals_spec. by apply bool_decide_eq_true.
    + rewrite BlockFacts.fromSpan_of_tlv by done. cbn [mbind result_bind]. by apply ofBlock_spec.
  - split; [|apply ofBlock_spec]. intros H. by apply ofBlock_inv in H as [_ ?].
  - intros Hn. unfold wireDecode. destruct (ofBlock b) as [x|e] eqn:E.
    { by apply ofBlock_inv in E as [_ ?]. }
    revert E. unfold ofBlock, ensureValid. rewrite check_spec. unfold throw_if.
    destruct ((_ <? _) || _); cbn [mbind result_bind]; [intros [= <-]; by eexists|].
    destruct (((_ =? _) || _) && _); cbn [mbind result_bind]; [intros [= <-]; by eexists|done].
Qed.

Lemma component_wire_witness :
  let c := Block.ofTypeValue 8 (str "A") in let b := Block.ofTypeValue 1 (str "A") in
  (exists c', wireEncode c = Ok c' /\ Block.wire c' = Ok [Byte.x08; Byte.x01; Byte.x41]) /\
  exists e, wireDecode b = Throw (ComponentError e).
Proof.
  intros c b. destruct (component_wire c b) as ((c' & H1 & H2 & _) & _ & H3).
  - split; [by vm_compute|]. intros [H|H]; by vm_compute in H.
  - by vm_compute.
  - reflexivity.
  - split; [by exists c'|]. apply H3. intros [_ H]. specialize (H (or_introl eq_refl)). by vm_compute in H.
Defined.

(** [compare] is the canonical order: by type, then length, then value.
    Both its paths, comparing wire octets and comparing the fields, have the
    sign of that order on components that are valid and encoded the shortest
    way, and the result is zero exactly on equal components. *)
Theorem component_compare_canonical (c d : Component.t) (Hc : canonical c) (Hd : canonical d)
    (Sc : Block.value_size c < 2 ^ 31) (Sd : Block.value_size d < 2 ^ 31) :
  exists r, compare c d = Ok r /\
    (r < 0 <-> key_lt (key c) (key d)) /\ (0 < r <-> key_lt (key d) (key c)) /\
    (r = 0 <-> equals c d = true).
Proof.
  destruct (compare_spec c d Hc Hd Sc Sd) as (r & -> & Hr). exists r. split; [done|].
  rewrite equals_spec, bool_decide_eq_true.
  destruct (key_cmp_spec (key c) (key d)) as [E|L|L]; cbn [cmpZ] in Hr.
  - rewrite E. pose proof (key_lt_irrefl (key d)). split_and!; split; intros; try lia; tauto.
  - assert (~ key_lt (key d) (key c)) by (intros G; exact (key_lt_irrefl _ (key_lt_trans _ _ _ L G))).
    split_and!; split; intros H'; try lia; try tauto.
    rewrite H' in L. by apply key_lt_irrefl in L.
  - assert (~ key_lt (key c) (key d)) by (intros G; exact (key_lt_irrefl _ (key_lt_trans _ _ _ L G))).
    split_and!; split; intros H'; try lia; try tauto.
    rewrite H' in L. by apply key_lt_irrefl in L.
Qed.

Lemma component_compare_canonical_witness :
  exists r, compare (Block.of_tlv 8 (str "b")) (Block.ofTypeValue 8 (str "aa")) = Ok r /\ r < 0.
Proof.
  destruct (component_compare_canonical (Block.of_tlv 8 (str "b")) (Block.ofTypeValue 8 (str "aa")))
    as (r & Hr & Hlt & _).
  - apply canonical_of_tlv; [split; [by vm_compute|]; intros [H|H]; by vm_compute in H|by vm_compute].
  - split; [split; [by vm_compute|]; intros [H|H]; by vm_compute in H|].
    split; [by vm_compute|]. by left.
  - by vm_compute.
  - by vm_compute.
  - exists r. split; [exact Hr|]. apply Hlt. right. split; [reflexivity|]. left. by vm_compute.
Defined.

(** [compare] and [equals] disagree on components whose wire is not the
    shortest encoding: the decoder accepts both elements below, [equals] finds
    them equal, and [compare] orders one after the other. *)
Theorem component_compare_nonminimal :
  exists c d, (x ← Block.fromSpan [Byte.x08; Byte.xfd; Byte.x00; Byte.x01; Byte.x41]; wireDecode x) = Ok c /\
    (x ← Block.fromSpan [Byte.x08; Byte.x01; Byte.x41]; wireDecode x) = Ok d /\
    equals c d = true /\ compare c d = Ok 1 /\ compare d c = Ok (-1).
Proof. eexists _, _. repeat split; vm_compute; reflexivity. Qed.

(** [getSuccessor] is exact: it returns a valid component above the given
    one in canonical order, with no valid component in between.  A value of
    all ones is extended by an octet, or, for a digest, followed by the least
    component of the next type. *)
Theorem component_successor (c : Component.t)
    (Hv : valid (Block.type c) (Block.value c)) (Hs : Block.value_size c < UINT64_MAX) :
  exists s, getSuccessor c = Ok s /\ valid (Block.type s) (Block.value s) /\
    key_lt (key c) (key s) /\
    forall d, valid (Block.type d) (Block.value d) -> key_lt (key c) (key d) ->
      equals d s = true \/ key_lt (key s) (key d).
Proof.
  destruct (getSuccessor_spec c Hv Hs) as (ty & v & Hs' & _ & Hva & Hlt & Hleast).
  eexists. split; [exact Hs'|]. split_and!; try done; try apply Hva.
  intros d Hd Hcd. rewrite equals_spec, bool_decide_eq_true. by apply Hleast.
Qed.

Lemma component_successor_witness :
  exists s, getSuccessor (Block.ofTypeValue 1 (replicate 32 Byte.xff)) = Ok s /\
    key_lt (key (Block.ofTypeValue 1 (replicate 32 Byte.xff))) (key s).
Proof.
  destruct (component_successor (Block.ofTypeValue 1 (replicate 32 Byte.xff))) as (s & H1 & _ & H2 & _).
  - split; [by vm_compute|]. intros _. by vm_compute.
  - by vm_compute.
  - exists s. split; assumption.
Defined.

(** The URI form of a component is faithful: in every format, under every
    setting of the environment variable, writing a valid component and parsing
    the text gives a component of the same type and value; only the alternate
    format of a number component normalises the value, to the shortest
    encoding of the same number. *)
Theorem component_uri_roundtrip (env : option bytes) (fmt : UriFormat) (c : Component.t)
    (Hv : valid (Block.type c) (Block.value c)) (Hs : is_u64 (Block.value_size c)) :
  exists u c', toUri env c fmt = Ok u /\ fromEscapedString u = Ok c' /\
    Block.type c' = Block.type c /\ chr "/" ∉ u /\
    (if wantAltUri env fmt && is_decimalb (Block.type c) && isNumber c
     then Block.value c' = tlv.writeNonNegativeInteger (be_number (Block.value c)) /\ toNumber c' = toNumber c
     else equals c' c = true).
Proof.
  destruct (toUri_parse env fmt c Hv Hs) as (u & c' & H1 & H2 & H3 & H4 & H5).
  exists u, c'. split_and!; [done..|by apply H5|]. unfold uri_value in H4.
  destruct (wantAltUri env fmt && is_decimalb (Block.type c) && isNumber c) eqn:E.
  - split; [done|]. apply andb_true_iff in E as [_ Hn]. destruct (toNumber_be c Hn) as [-> Hu].
    unfold toNumber. assert (isNumber c' = true) as ->.
    { unfold isNumber, Block.value_size. rewrite H4. apply (isNumber_nni 0). }
    cbn [negb throw_if mbind result_bind]. by apply readNNI_value.
  - rewrite equals_spec. apply bool_decide_eq_true. unfold key, Block.value_size. by rewrite H3, H4.
Qed.

Lemma component_uri_roundtrip_witness :
  exists u c', toUri None (Block.ofTypeValue 8 (str "..")) ENV_OR_ALTERNATE = Ok u /\ fromEscapedString u = Ok c' /\
    equals c' (Block.ofTypeValue 8 (str "..")) = true.
Proof.
  destruct (component_uri_roundtrip None ENV_OR_ALTERNATE (Block.ofTypeValue 8 (str ".."))) as (u & c' & H1 & H2 & _ & _ & H3).
  - split; [by vm_compute|]. intros [H|H]; by vm_compute in H.
  - by vm_compute.
  - exists u, c'. split; [exact H1|]. split; [exact H2|]. exact H3.
Defined.

End ComponentTheorems.
