(* ===== verification/Names.v ===== *)
(** Names: [ndn-cxx/name.hpp] and [name.cpp].

    A [Name] is one field, the block [m_wire]; its components are the
    sub-elements of that block, seen as [Component] without a check.  Indexing
    out of range without a bounds check is undefined behaviour, [None] here. *)

From S2P Require Import Prelude Tlv Encoding Blocks BlockHelpers Text NameComponents.
Import name.

Module Name.

(** [ndn-cxx/name.hpp:672-673] Name *)
Record t := mk { m_wire : Block.t }.

(** [ndn-cxx/name.cpp:50-50] Name::npos *)
Definition npos : Z := UINT64_MAX.

(** [ndn-cxx/name.cpp:54-57] Name::Name() *)
Definition empty : t := mk (Block.ofType tlv.Name).

(** [ndn-cxx/name.hpp:154-158] Name::size *)
Definition size (n : t) : Z := len (Block.elements (m_wire n)).

(** [ndn-cxx/name.hpp:146-150] Name::empty *)
Definition isEmpty (n : t) : bool := size n =? 0.

(** [ndn-cxx/name.hpp:113-117] Name::hasWire *)
Definition hasWire (n : t) : bool := Block.hasWire (m_wire n).

(** [ndn-cxx/name.hpp:224-236] Name::begin, Name::end *)
Definition components (n : t) : list Component.t := Block.elements (m_wire n).

(** [ndn-cxx/name.cpp:59-63] Name::Name(const Block&) *)
Definition ofBlock (wire : Block.t) : result t := b ← Block.parsed wire; Ok (mk b).

(** [ndn-cxx/name.cpp:149-157] Name::wireDecode
    The name after the call and the exception it ends with, if any. *)
Definition wireDecode (wire : Block.t) (n : t) : t * option exn :=
  if negb (Block.type wire =? tlv.Name) then (n, Some (TlvError "Name"))
  else let '(b, e) := Block.parse wire in (mk b, e).

(** [Name n; n.wireDecode(wire);] letting the exception through. *)
Definition decode (wire : Block.t) : result t :=
  match wireDecode wire empty with
  | (n, None) => Ok n
  | (_, Some e) => Throw e
  end.

(** [ndn-cxx/name.hpp:278-293] Name::append(const Component&), Name::append(Component&&) *)
Definition append (component : Component.t) (n : t) : t := mk (Block.push_back component (m_wire n)).

(** [ndn-cxx/name.cpp:115-127] Name::wireEncode(EncodingImpl&) *)
Definition wireEncode_template (n : t) : prepender :=
  pTL tlv.Name (pReversed Component.wireEncode_template (components n)).

(** [ndn-cxx/name.cpp:131-147] Name::wireEncode
    The name after the call; the wire is its [m_wire]. *)
Definition wireEncode (n : t) : result t :=
  if Block.hasWire (m_wire n) then Ok n
  else
    b ← makeBlock (wireEncode_template n);
    b ← Block.parsed b;
    Ok (mk b).

(** [ndn-cxx/name.cpp:159-166] Name::deepCopy *)
Definition deepCopy (n : t) : result t := wireEncode (mk (Block.resetWire (m_wire n))).

(** *** Access *)

(** [ndn-cxx/name.hpp:165-172] Name::get *)
Definition get (i : Z) (n : t) : option Component.t :=
  let i := if i <? 0 then i + size n else i in
  if i <? 0 then None else components n !! Z.to_nat i.

(** [ndn-cxx/name.cpp:170-182] Name::at *)
Definition at_ (i : Z) (n : t) : result Component.t :=
  let i := if i <? 0 then i + size n else i in
  if (i <? 0) || (size n <=? i) then Throw (ComponentError "Requested component does not exist (out of bounds)")
  else match components n !! Z.to_nat i with
       | Some c => Ok c
       | None => Throw (RuntimeError "unreachable")
       end.

(** [ndn-cxx/name.cpp:197-198] Name::getSubName (the loop, [k] turns from index [i]) *)
Fixpoint getSubName_loop (k : nat) (i : Z) (n result : t) : Prelude.result t :=
  match k with
  | O => Ok result
  | S k => c ← at_ i n; getSubName_loop k (i + 1) n (append c result)
  end.

(** [ndn-cxx/name.cpp:184-201] Name::getSubName *)
Definition getSubName (iStartComponent nComponents : Z) (n : t) : result t :=
  let iStartComponent := if iStartComponent <? 0 then iStartComponent + size n else iStartComponent in
  let iStart := if iStartComponent <? 0 then 0 else iStartComponent in
  let iEnd := if negb (nComponents =? npos) then Z.min (size n) (u64 (iStart + nComponents)) else size n in
  getSubName_loop (Z.to_nat (iEnd - iStart)) iStart n empty.

(** [ndn-cxx/name.hpp:212-219] Name::getPrefix *)
Definition getPrefix (nComponents : Z) (n : t) : result t :=
  if nComponents <? 0 then getSubName 0 (u64 (size n + nComponents)) n
  else getSubName 0 nComponents n.

(** *** Modifiers *)

(** [ndn-cxx/name.cpp:205-215] Name::set *)
Definition set (i : Z) (component : Component.t) (n : t) : option t :=
  let i := if i <? 0 then i + size n else i in
  if (i <? 0) || (size n <=? i) then None
  else
    let w := m_wire n in
    Some (mk (Block.resetWire (Block.mk (Block.m_type w) (Block.m_buf w) (Block.m_size w)
                                        (<[Z.to_nat i := component]> (Block.m_elements w))))).

(** [ndn-cxx/name.hpp:360-371] Name::append(Block) *)
Definition appendBlock (value : Block.t) (n : t) : result t :=
  if Block.type value =? tlv.GenericNameComponent then Ok (mk (Block.push_back value (m_wire n)))
  else b ← Block.ofTypeBlock tlv.GenericNameComponent value; Ok (mk (Block.push_back b (m_wire n))).

(** [ndn-cxx/name.cpp:248-249] Name::append(const PartialName&) (the loop) *)
Fixpoint appendName_loop (k : nat) (i : Z) (name n : t) : result t :=
  match k with
  | O => Ok n
  | S k => c ← at_ i name; appendName_loop k (i + 1) name (append c n)
  end.

(** [ndn-cxx/name.cpp:241-252] Name::append(const PartialName&)
    Appending a name to itself goes through a copy, so the argument is the
    value it has at the call. *)
Definition appendName (name n : t) : result t :=
  appendName_loop (Z.to_nat (size name)) 0 name n.

(** [ndn-cxx/name.hpp:384-388] Name::appendNumber *)
Definition appendNumber (number : Z) (n : t) : result t :=
  c ← Component.fromNumber number tlv.GenericNameComponent; Ok (append c n).

(** [ndn-cxx/name.hpp:400-404] Name::appendNumberWithMarker *)
Definition appendNumberWithMarker (marker : byte) (number : Z) (n : t) : result t :=
  c ← Component.fromNumberWithMarker marker number; Ok (append c n).

(** [ndn-cxx/name.cpp:229-233] Name::appendVersion
    [now] is the current Unix time in milliseconds. *)
Definition appendVersion conv (now : Z) (version : option Z) (n : t) : result t :=
  c ← Component.fromVersion conv (default now version); Ok (append c n).

(** [ndn-cxx/name.hpp:423-427] Name::appendSegment *)
Definition appendSegment conv (segmentNo : Z) (n : t) : result t :=
  c ← Component.fromSegment conv segmentNo; Ok (append c n).

(** [ndn-cxx/name.hpp:435-439] Name::appendByteOffset *)
Definition appendByteOffset conv (offset : Z) (n : t) : result t :=
  c ← Component.fromByteOffset conv offset; Ok (append c n).

(** [ndn-cxx/name.cpp:235-239] Name::appendTimestamp
    [now] and [timestamp] in microseconds since the Unix epoch. *)
Definition appendTimestamp conv (now : Z) (timestamp : option Z) (n : t) : result t :=
  c ← Component.fromTimestamp conv (default now timestamp); Ok (append c n).

(** [ndn-cxx/name.hpp:457-461] Name::appendSequenceNumber *)
Definition appendSequenceNumber conv (seqNo : Z) (n : t) : result t :=
  c ← Component.fromSequenceNumber conv seqNo; Ok (append c n).

(** [ndn-cxx/name.hpp:477-481] Name::appendImplicitSha256Digest *)
Definition appendImplicitSha256Digest (digest : bytes) (n : t) : result t :=
  c ← Component.fromImplicitSha256Digest digest; Ok (append c n).

(** [ndn-cxx/name.hpp:497-501] Name::appendParametersSha256Digest *)
Definition appendParametersSha256Digest (digest : bytes) (n : t) : result t :=
  c ← Component.fromParametersSha256Digest digest; Ok (append c n).

(** [ndn-cxx/name.cpp:254-259] SHA256_OF_EMPTY_STRING *)
Definition SHA256_OF_EMPTY_STRING : bytes := z2b <$>
  [0xe3; 0xb0; 0xc4; 0x42; 0x98; 0xfc; 0x1c; 0x14;
   0x9a; 0xfb; 0xf4; 0xc8; 0x99; 0x6f; 0xb9; 0x24;
   0x27; 0xae; 0x41; 0xe4; 0x64; 0x9b; 0x93; 0x4c;
   0xa4; 0x95; 0x99; 0x1b; 0x78; 0x52; 0xb8; 0x55].

(** [ndn-cxx/name.cpp:261-267] Name::appendParametersSha256DigestPlaceholder *)
Definition appendParametersSha256DigestPlaceholder (n : t) : result t :=
  c ← Component.ofSpan tlv.ParametersSha256DigestComponent SHA256_OF_EMPTY_STRING; Ok (append c n).

(** [ndn-cxx/name.cpp:269-277] Name::erase *)
Definition erase (i : Z) (n : t) : option t :=
  let i := if i <? 0 then i + size n else i in
  if (i <? 0) || (size n <=? i) then None
  else Some (mk (Block.erase (Z.to_nat i) (m_wire n))).

(** [ndn-cxx/name.cpp:279-283] Name::clear *)
Definition clear (n : t) : t := mk (Block.ofType tlv.Name).

(** *** URIs *)

(** [ndn-cxx/name.cpp:75-83] Name::Name(std::string) (the scheme) *)
Definition strip_scheme (uri : bytes) : bytes :=
  match Component.split_at (chr ":") uri with
  | None => uri
  | Some (scheme, rest) =>
      match Component.split_at (chr "/") uri with
      | None => rest
      | Some (before, _) => if (length scheme <? length before)%nat then rest else uri
      end
  end.

(** [ndn-cxx/name.cpp:86-100] Name::Name(std::string) (the leading slash and the authority)
    [None] when there is only an authority. *)
Definition strip_authority (uri : bytes) : option bytes :=
  match uri with
  | c :: rest =>
      if bool_decide (c = chr "/") then
        match rest with
        | d :: rest' =>
            if bool_decide (d = chr "/")
            then '(_, after) ← Component.split_at (chr "/") rest'; Some after
            else Some rest
        | [] => Some rest
        end
      else Some uri
  | [] => Some uri
  end.

(** [ndn-cxx/name.cpp:102-112] Name::Name(std::string) (the loop)
    Every turn consumes at least one character of the text that is left. *)
Fixpoint uri_loop (fuel : nat) (uri : bytes) (n : t) : result t :=
  match uri, fuel with
  | [], _ => Ok n
  | _, O => Ok n
  | _, S fuel =>
      let '(component, rest) := default (uri, []) (Component.split_at (chr "/") uri) in
      c ← Component.fromEscapedString component;
      uri_loop fuel rest (append c n)
  end.

(** [ndn-cxx/name.cpp:70-113] Name::Name(std::string)
    The constructor leaves [m_wire] default-initialised. *)
Definition fromUri (uri : bytes) : result t :=
  match uri with
  | [] => Ok (mk Block.empty)
  | _ =>
      match strip_authority (strip_scheme uri) with
      | None => Ok (mk Block.empty)
      | Some uri => uri_loop (length uri) uri (mk Block.empty)
      end
  end.

(** [ndn-cxx/name.cpp:355-358] Name::toUri (the loop) *)
Fixpoint toUri_loop (env : option bytes) (format : UriFormat) (l : list Component.t) : result bytes :=
  match l with
  | [] => Ok []
  | c :: l =>
      u ← Component.toUri env c format;
      rest ← toUri_loop env format l;
      Ok (str "/" ++ u ++ rest)
  end.

(** [ndn-cxx/name.cpp:347-359] Name::toUri *)
Definition toUri (env : option bytes) (n : t) (format : UriFormat) : result bytes :=
  if isEmpty n then Ok (str "/") else toUri_loop env format (components n).

(** *** Algorithms *)

(** [ndn-cxx/name.cpp:287-296] Name::getSuccessor
    [None] of [get] does not arise on a non-empty name. *)
Definition getSuccessor (n : t) : result t :=
  if isEmpty n then
    fromUri (str "/sha256digest=0000000000000000000000000000000000000000000000000000000000000000")
  else
    prefix ← getPrefix (-1) n;
    match get (-1) n with
    | Some c => s ← Component.getSuccessor c; Ok (append s prefix)
    | None => Throw (RuntimeError "undefined behaviour")
    end.

(** [ndn-cxx/name.cpp:306-311] Name::isPrefixOf (the loop over [get(i)], [other.get(i)]) *)
Fixpoint match_components (k : nat) (i : Z) (n other : t) : bool :=
  match k with
  | O => true
  | S k =>
      match get i n, get i other with
      | Some c, Some d => if negb (Component.equals c d) then false else match_components k (i + 1) n other
      | _, _ => false
      end
  end.

(** [ndn-cxx/name.cpp:298-312] Name::isPrefixOf *)
Definition isPrefixOf (n other : t) : bool :=
  if size other <? size n then false else match_components (Z.to_nat (size n)) 0 n other.

(** [ndn-cxx/name.cpp:314-326] Name::equals *)
Definition equals (n other : t) : bool :=
  if negb (size n =? size other) then false else match_components (Z.to_nat (size n)) 0 n other.

(** [ndn-cxx/name.cpp:335-342] Name::compare (the loop, [k] turns from index [i]) *)
Fixpoint compare_loop (k : nat) (i pos1 count1 : Z) (n : t) (pos2 count2 : Z) (other : t) : option (result Z) :=
  match k with
  | O => Some (Ok (i32 (u64 (count1 - count2))))
  | S k =>
      c ← get (pos1 + i) n;
      d ← get (pos2 + i) other;
      match Component.compare c d with
      | Ok comp => if negb (comp =? 0) then Some (Ok comp)
                   else compare_loop k (i + 1) pos1 count1 n pos2 count2 other
      | Throw e => Some (Throw e)
      end
  end.

(** [ndn-cxx/name.cpp:328-343] Name::compare(pos1, count1, other, pos2, count2)
    [None] is undefined behaviour. *)
Definition compareRange (pos1 count1 : Z) (n : t) (pos2 count2 : Z) (other : t) : option (result Z) :=
  let count1 := Z.min count1 (u64 (size n - pos1)) in
  let count2 := Z.min count2 (u64 (size other - pos2)) in
  let count := Z.min count1 count2 in
  compare_loop (Z.to_nat count) 0 pos1 count1 n pos2 count2 other.

(** [ndn-cxx/name.hpp:602-606] Name::compare(other) *)
Definition compare (n other : t) : option (result Z) := compareRange 0 npos n 0 npos other.

End Name.

(** ** Lemmas *)

Module NameFacts.
Import Name ComponentFacts.

(** What the algorithms look at: the types and values of the components. *)
Definition keys (n : t) : list (Z * Z * Z) := key <$> components n.

Lemma size_len n : size n = len (components n).
Proof. done. Qed.

Lemma length_keys n : length (keys n) = length (components n).
Proof. unfold keys. by rewrite length_fmap. Qed.

Lemma len_keys n : len (keys n) = size n.
Proof. unfold keys, len. by rewrite length_fmap. Qed.

Lemma components_append c n : components (append c n) = components n ++ [c].
Proof. done. Qed.

Lemma components_clear n : components (clear n) = [].
Proof. done. Qed.

Lemma keys_lookup n i c : components n !! i = Some c -> keys n !! i = Some (key c).
Proof. intros H. unfold keys. rewrite list_lookup_fmap. by rewrite H. Qed.

(** *** Sub-names *)

Lemma at_in i n c : 0 <= i -> components n !! Z.to_nat i = Some c -> at_ i n = Ok c.
Proof.
  intros Hi Hc. pose proof (lookup_lt_Some _ _ _ Hc) as Hl. unfold at_.
  rewrite (proj2 (Z.ltb_ge i 0)) by done.
  rewrite (proj2 (Z.ltb_ge i 0)), (proj2 (Z.leb_gt (size n) i)) by (rewrite ?size_len; unfold len; lia).
  cbn [orb]. by rewrite Hc.
Qed.

Lemma drop_lookup {A} (l : list A) i c : l !! i = Some c -> drop i l = c :: drop (S i) l.
Proof. intros H. by erewrite drop_S. Qed.

(** Both copying loops append the components of a range. *)
Lemma getSubName_loop_spec k : forall i n r, 0 <= i -> i + Z.of_nat k <= size n ->
  exists r', getSubName_loop k i n r = Ok r' /\
    components r' = components r ++ take k (drop (Z.to_nat i) (components n)) /\
    (hasWire r = false -> hasWire r' = false).
Proof.
  induction k as [|k IH]; intros i n r Hi Hk.
  { exists r. by rewrite take_0, app_nil_r. }
  destruct (lookup_lt_is_Some_2 (components n) (Z.to_nat i)) as [c Hc].
  { rewrite size_len in Hk. unfold len in Hk. lia. }
  cbn [getSubName_loop]. rewrite (at_in i n c Hi Hc). cbn [mbind result_bind].
  destruct (IH (i + 1) n (append c r)) as (r' & -> & Hr & Hw); [lia..|].
  exists r'. split; [done|]. split; [|intros _; by apply Hw].
  rewrite Hr, components_append, (drop_lookup _ _ _ Hc), <- (assoc_L (++)).
  replace (Z.to_nat (i + 1)) with (S (Z.to_nat i)) by lia. done.
Qed.

Lemma appendName_loop_eq k : forall i name n, appendName_loop k i name n = getSubName_loop k i name n.
Proof. induction k as [|k IH]; intros; [done|]. cbn. destruct (at_ i name); [apply IH|done]. Qed.

Lemma take_min_length {A} k (l : list A) : take (k `min` length l) l = take k l.
Proof.
  destruct (decide (k <= length l)%nat).
  - by rewrite Nat.min_l.
  - rewrite Nat.min_r by lia. by rewrite !take_ge by lia.
Qed.

(** A range of the components, as the documentation of [getSubName] has it. *)
Definition sub (start count : Z) (l : list Component.t) : list Component.t :=
  let start := if start <? 0 then start + len l else start in
  let start := Z.max start 0 in
  if count =? npos then drop (Z.to_nat start) l else take (Z.to_nat count) (drop (Z.to_nat start) l).

Lemma getSubName_spec start count n : start < 2 ^ 63 -> size n < 2 ^ 63 ->
  count = npos \/ 0 <= count /\ count + size n <= UINT64_MAX ->
  exists r, getSubName start count n = Ok r /\ components r = sub start count (components n) /\ hasWire r = false.
Proof.
  intros Hs Hn Hc. unfold getSubName, sub. rewrite <- size_len.
  pose proof (len_nonneg (components n)) as Hp. rewrite <- size_len in Hp.
  set (s0 := if start <? 0 then start + size n else start).
  replace (if s0 <? 0 then 0 else s0) with (Z.max s0 0) by (destruct (Z.ltb_spec s0 0); lia).
  set (s := Z.max s0 0). set (e := if negb (count =? npos) then _ else _).
  assert (S1 : 0 <= s) by lia.
  assert (He : Z.to_nat (e - s) = length (if count =? npos then drop (Z.to_nat s) (components n)
     else take (Z.to_nat count) (drop (Z.to_nat s) (components n))) /\ (e <= size n \/ e - s <= 0)).
  { unfold e, u64. destruct (Z.eqb_spec count npos) as [Ec|Ec]; cbn [negb].
    - rewrite length_drop, size_len. unfold len. lia.
    - rewrite length_take, length_drop.
      destruct (decide (s < size n)) as [Hlt|Hge].
      + rewrite Z.mod_small by (unfold UINT64_MAX in Hc; lia). rewrite size_len in *. unfold len in *. lia.
      + rewrite size_len in *. unfold len in *. lia. }
  destruct He as [He1 He2]. destruct (decide (e - s <= 0)) as [Hz|Hz].
  - replace (Z.to_nat (e - s)) with O in * by lia. exists empty. split_and!; [done| |done].
    symmetry. by apply length_zero_iff_nil.
  - destruct (getSubName_loop_spec (Z.to_nat (e - s)) s n empty) as (r & Hr & Hcomp & Hw); [lia..|].
    exists r. split_and!; [done| |by apply Hw]. rewrite Hcomp. cbn [app].
    change (components empty ++ ?x) with x. rewrite He1.
    destruct (count =? npos); [by rewrite take_ge|].
    rewrite length_take. apply take_min_length.
Qed.

Lemma getPrefix_spec k n : 0 <= k <= size n -> size n < 2 ^ 62 ->
  exists r, getPrefix k n = Ok r /\ components r = take (Z.to_nat k) (components n) /\ hasWire r = false.
Proof.
  intros Hk Hn. unfold getPrefix. rewrite (proj2 (Z.ltb_ge k 0)) by lia.
  destruct (getSubName_spec 0 k n) as (r & Hr & Hc & Hw); [lia..|unfold UINT64_MAX; right; lia|].
  exists r. split_and!; [done| |done]. rewrite Hc. unfold sub, npos, UINT64_MAX. cbn [Z.ltb Z.compare Z.max].
  rewrite (proj2 (Z.eqb_neq k _)) by lia. done.
Qed.

Lemma getPrefix_neg_spec k n : 0 < k <= size n -> size n < 2 ^ 62 ->
  exists r, getPrefix (- k) n = Ok r /\ components r = take (Z.to_nat (size n - k)) (components n) /\ hasWire r = false.
Proof.
  intros Hk Hn. assert (H : getPrefix (- k) n = getPrefix (size n - k) n).
  { unfold getPrefix. rewrite (proj2 (Z.ltb_lt (- k) 0)), (proj2 (Z.ltb_ge (size n - k) 0)) by lia.
    unfold u64. rewrite Z.mod_small by lia. f_equal. }
  rewrite H. apply getPrefix_spec; lia.
Qed.

Lemma appendName_spec name n : exists r, appendName name n = Ok r /\
  components r = components n ++ components name.
Proof.
  unfold appendName. rewrite appendName_loop_eq.
  destruct (getSubName_loop_spec (Z.to_nat (size name)) 0 name n) as (r & -> & Hr & _);
    [lia|pose proof (len_nonneg (components name)); rewrite <- size_len in *; lia|].
  exists r. split; [done|]. rewrite Hr, take_ge; [done|]. rewrite length_drop, size_len. unfold len. lia.
Qed.

(** *** Matching *)

Lemma get_nat i n : get (Z.of_nat i) n = components n !! i.
Proof.
  unfold get. rewrite (proj2 (Z.ltb_ge (Z.of_nat i) 0)) by lia.
  rewrite (proj2 (Z.ltb_ge (Z.of_nat i) 0)) by lia. by rewrite Nat2Z.id.
Qed.

Lemma match_components_spec k : forall i n other, (i + k <= length (components n))%nat ->
  (i + k <= length (components other))%nat ->
  match_components k (Z.of_nat i) n other =
  bool_decide (take k (drop i (keys n)) = take k (drop i (keys other))).
Proof.
  induction k as [|k IH]; intros i n other H1 H2.
  { by rewrite !take_0, bool_decide_eq_true_2. }
  destruct (lookup_lt_is_Some_2 (components n) i) as [c Hc]; [lia|].
  destruct (lookup_lt_is_Some_2 (components other) i) as [d Hd]; [lia|].
  cbn [match_components]. rewrite !get_nat, Hc, Hd.
  assert (Kc : keys n !! i = Some (key c)) by (by apply keys_lookup).
  assert (Kd : keys other !! i = Some (key d)) by (by apply keys_lookup).
  rewrite (drop_lookup _ _ _ Kc), (drop_lookup _ _ _ Kd), !firstn_cons, equals_spec.
  destruct (bool_decide_reflect (key c = key d)) as [->|E]; cbn [negb].
  - replace (Z.of_nat i + 1) with (Z.of_nat (S i)) by lia. rewrite IH by lia.
    apply bool_decide_ext. split; congruence.
  - symmetry. apply bool_decide_eq_false. congruence.
Qed.

Lemma isPrefixOf_spec n other : isPrefixOf n other = bool_decide (keys n `prefix_of` keys other).
Proof.
  unfold isPrefixOf. rewrite !size_len. unfold len.
  assert (Hl : length (keys n) = length (components n)) by apply length_keys.
  assert (Hl' : length (keys other) = length (components other)) by apply length_keys.
  destruct (Z.ltb_spec (Z.of_nat (length (components other))) (Z.of_nat (length (components n)))) as [L|L].
  - symmetry. apply bool_decide_eq_false. intros P%prefix_length. lia.
  - rewrite Nat2Z.id. rewrite (match_components_spec _ 0) by lia. rewrite !drop_0, <- Hl, take_ge by done.
    apply bool_decide_ext. split.
    + intros E. rewrite E. apply prefix_take.
    + intros [k ->]. by rewrite take_app_length.
Qed.

Lemma nequals_spec n other : equals n other = bool_decide (keys n = keys other).
Proof.
  unfold equals. rewrite !size_len. unfold len.
  assert (Hl : length (keys n) = length (components n)) by apply length_keys.
  assert (Hl' : length (keys other) = length (components other)) by apply length_keys.
  destruct (Z.eqb_spec (Z.of_nat (length (components n))) (Z.of_nat (length (components other)))) as [L|L]; cbn [negb].
  - rewrite Nat2Z.id, (match_components_spec _ 0) by lia. rewrite !drop_0, !take_ge by lia. done.
  - symmetry. apply bool_decide_eq_false. intros E. rewrite E in Hl. lia.
Qed.

(** *** Order *)

Fixpoint keys_cmp (l m : list (Z * Z * Z)) : comparison :=
  match l, m with
  | [], [] => Eq
  | [], _ :: _ => Lt
  | _ :: _, [] => Gt
  | a :: l, b :: m => match key_cmp a b with Eq => keys_cmp l m | c => c end
  end.

(** The conditions under which the comparisons of 32-bit differences are
    exact and wires compare like the fields. *)
Definition ordered_name (n : t) : Prop :=
  size n < 2 ^ 31 /\ Forall (fun c => canonical c /\ Block.value_size c < 2 ^ 31) (components n).

Lemma i32_u64 z : i32 (u64 z) = i32 z.
Proof.
  unfold i32, u64. rewrite (Z.mod_eq z (2 ^ 64)) by lia.
  replace (z - 2 ^ 64 * (z / 2 ^ 64) + 2 ^ 31) with (z + 2 ^ 31 + (- (2 ^ 32) * (z / 2 ^ 64)) * 2 ^ 32) by ring.
  by rewrite Z.mod_add by lia.
Qed.

Lemma compare_loop_spec k : forall (i : nat) pos1 c1 n pos2 c2 other,
  Forall (fun c => canonical c /\ Block.value_size c < 2 ^ 31) (components n) ->
  Forall (fun c => canonical c /\ Block.value_size c < 2 ^ 31) (components other) ->
  0 <= c1 < 2 ^ 31 -> 0 <= c2 < 2 ^ 31 -> Z.of_nat (i + k) = Z.min c1 c2 ->
  (pos1 + Z.to_nat c1 <= length (components n))%nat -> (pos2 + Z.to_nat c2 <= length (components other))%nat ->
  exists r, compare_loop k (Z.of_nat i) (Z.of_nat pos1) c1 n (Z.of_nat pos2) c2 other = Some (Ok r) /\
    Z.sgn r = cmpZ (keys_cmp (drop i (take (Z.to_nat c1) (drop pos1 (keys n))))
                             (drop i (take (Z.to_nat c2) (drop pos2 (keys other))))).
Proof.
  induction k as [|k IH]; intros i pos1 c1 n pos2 c2 other F1 F2 H1 H2 Hk L1 L2; cbn [compare_loop].
  - eexists. split; [done|].
    rewrite i32_u64, i32_small, sgn_sub by lia.
    assert (Hl1 : length (drop i (take (Z.to_nat c1) (drop pos1 (keys n)))) = (Z.to_nat c1 - i)%nat).
    { rewrite length_drop, length_take, length_drop, length_keys. lia. }
    assert (Hl2 : length (drop i (take (Z.to_nat c2) (drop pos2 (keys other)))) = (Z.to_nat c2 - i)%nat).
    { rewrite length_drop, length_take, length_drop, length_keys. lia. }
    destruct (Z.compare_spec c1 c2); destruct (drop i (take _ (drop pos1 _)));
      destruct (drop i (take _ (drop pos2 _))); simpl in *; try lia; try done.
  - destruct (lookup_lt_is_Some_2 (components n) (pos1 + i)) as [c Hc]; [lia|].
    destruct (lookup_lt_is_Some_2 (components other) (pos2 + i)) as [d Hd]; [lia|].
    rewrite <- !Nat2Z.inj_add, !get_nat, Hc, Hd. cbn [mbind option_bind].
    destruct (Forall_lookup_1 _ _ _ _ F1 Hc) as [Cc Sc]. destruct (Forall_lookup_1 _ _ _ _ F2 Hd) as [Cd Sd].
    destruct (compare_spec c d Cc Cd Sc Sd) as (r & -> & Hr).
    assert (Kc : take (Z.to_nat c1) (drop pos1 (keys n)) !! i = Some (key c)).
    { rewrite lookup_take_lt, lookup_drop by lia. by apply keys_lookup. }
    assert (Kd : take (Z.to_nat c2) (drop pos2 (keys other)) !! i = Some (key d)).
    { rewrite lookup_take_lt, lookup_drop by lia. by apply keys_lookup. }
    rewrite (drop_lookup _ _ _ Kc), (drop_lookup _ _ _ Kd). cbn [keys_cmp].
    destruct (key_cmp (key c) (key d)); cbn [cmpZ] in Hr.
    + replace r with 0 by lia. cbn [Z.eqb negb].
      replace (Z.of_nat i + 1) with (Z.of_nat (S i)) by lia. apply IH; try done. lia.
    + exists r. rewrite (proj2 (Z.eqb_neq r 0)) by lia. done.
    + exists r. rewrite (proj2 (Z.eqb_neq r 0)) by lia. done.
Qed.

Lemma compareRange_spec pos1 c1 n pos2 c2 other : ordered_name n -> ordered_name other ->
  0 <= pos1 <= size n -> 0 <= pos2 <= size other -> 0 <= c1 -> 0 <= c2 ->
  exists r, compareRange pos1 c1 n pos2 c2 other = Some (Ok r) /\
    Z.sgn r = cmpZ (keys_cmp (take (Z.to_nat (Z.min c1 (size n - pos1))) (drop (Z.to_nat pos1) (keys n)))
      (take (Z.to_nat (Z.min c2 (size other - pos2))) (drop (Z.to_nat pos2) (keys other)))).
Proof.
  intros [S1 F1] [S2 F2] P1 P2 C1 C2. unfold compareRange, u64.
  rewrite !Z.mod_small by lia.
  destruct (compare_loop_spec (Z.to_nat (Z.min (Z.min c1 (size n - pos1)) (Z.min c2 (size other - pos2)))) 0
    (Z.to_nat pos1) (Z.min c1 (size n - pos1)) n (Z.to_nat pos2) (Z.min c2 (size other - pos2)) other)
    as (r & Hr & Hs); try done; try (rewrite ?size_len in *; unfold len in *; lia).
  rewrite !Z2Nat.id in Hr by lia. exists r. split; [exact Hr|]. exact Hs.
Qed.

Lemma compare_names n other : ordered_name n -> ordered_name other ->
  exists r, compare n other = Some (Ok r) /\ Z.sgn r = cmpZ (keys_cmp (keys n) (keys other)).
Proof.
  intros Hn Ho. pose proof Hn as [S1 _]. pose proof Ho as [S2 _].
  pose proof (len_nonneg (components n)) as P1. pose proof (len_nonneg (components other)) as P2.
  rewrite <- size_len in P1, P2.
  destruct (compareRange_spec 0 npos n 0 npos other Hn Ho) as (r & Hr & Hs); try (unfold npos, UINT64_MAX; lia).
  exists r. split; [exact Hr|]. rewrite Hs, !drop_0, !Z.sub_0_r. unfold npos, UINT64_MAX.
  rewrite !Z.min_r by lia. rewrite !size_len. rewrite !to_nat_len, <- !length_keys, !take_ge by done. done.
Qed.

Definition keys_lt (l m : list (Z * Z * Z)) : Prop := keys_cmp l m = Lt.

Lemma keys_cmp_refl l : keys_cmp l l = Eq.
Proof. induction l as [|a l IH]; [done|]. cbn [keys_cmp]. by rewrite key_cmp_refl. Qed.

Lemma keys_cmp_eq l m : keys_cmp l m = Eq -> l = m.
Proof.
  revert m. induction l as [|a l IH]; intros [|b m]; try done. cbn [keys_cmp].
  destruct (key_cmp_spec a b); try done. intros ?. f_equal; auto.
Qed.

Lemma keys_cmp_antisym l m : keys_cmp m l = CompOpp (keys_cmp l m).
Proof.
  revert m. induction l as [|a l IH]; intros [|b m]; try done. cbn [keys_cmp].
  rewrite (key_cmp_antisym a b). destruct (key_cmp a b); simpl; auto.
Qed.

Lemma key_cmp_lt a b : key_cmp a b = Lt <-> key_lt a b.
Proof.
  destruct (key_cmp_spec a b) as [->|H|H]; split; try done; intros H'.
  - by apply key_lt_irrefl in H'.
  - exfalso. eapply key_lt_irrefl, key_lt_trans; eauto.
Qed.

Lemma keys_lt_cons a l b m : keys_lt (a :: l) (b :: m) <-> key_lt a b \/ a = b /\ keys_lt l m.
Proof.
  unfold keys_lt. cbn [keys_cmp]. rewrite <- key_cmp_lt.
  destruct (key_cmp_spec a b) as [->|H|H]; split; try tauto; try done.
  - intros [?|[_ ?]]; done.
  - intros [?|[-> ?]]; [done|]. by apply key_lt_irrefl in H.
Qed.

Lemma keys_lt_trans l m k : keys_lt l m -> keys_lt m k -> keys_lt l k.
Proof.
  revert m k. induction l as [|a l IH]; intros [|b m] [|c k]; try done.
  rewrite !keys_lt_cons. intros [H1|[-> H1]] [H2|[-> H2]]; eauto using key_lt_trans.
Qed.

Lemma keys_lt_app p l m : keys_lt (p ++ l) (p ++ m) <-> keys_lt l m.
Proof.
  induction p as [|a p IH]; [done|]. cbn [app]. rewrite keys_lt_cons, IH. split; [|tauto].
  intros [H|[_ H]]; [|done]. by apply key_lt_irrefl in H.
Qed.

Lemma keys_lt_irrefl l : ~ keys_lt l l.
Proof. unfold keys_lt. by rewrite keys_cmp_refl. Qed.

Lemma keys_lt_nil l : keys_lt [] l <-> l <> [].
Proof. by destruct l. Qed.

(** A name above [p ++ [a]] extends it, or has a component above [a] in that
    place or before. *)
Lemma keys_above p a z : keys_lt (p ++ [a]) z ->
  (p ++ [a]) `prefix_of` z \/
  (exists b r, z = p ++ b :: r /\ key_lt a b) \/
  (forall x, keys_lt (p ++ x) z).
Proof.
  revert z. induction p as [|q p IH]; intros [|c z] H; try done.
  - cbn [app] in *. apply keys_lt_cons in H as [H|[-> _]]; [right; left; eauto|].
    left. exists z. done.
  - cbn [app] in H. apply keys_lt_cons in H as [H|[-> H]].
    + right. right. intros x. cbn [app]. apply keys_lt_cons. by left.
    + destruct (IH z H) as [[k ->]|[(b & r & -> & Hb)|Hx]].
      * left. exists k. done.
      * right. left. exists b, r. done.
      * right. right. intros x. cbn [app]. apply keys_lt_cons. right. split; [done|apply Hx].
Qed.

(** *** Wire format *)

(** The type and value of each component. *)
Definition tlvs (n : t) : list (Z * bytes) := (fun c => (Block.type c, Block.value c)) <$> components n.

(** The TLV-VALUE of the encoded name. *)
Definition value (n : t) : bytes := BlockFacts.tlv_seq (tlvs n).

(** A name that decoding can produce from a shortest encoding: every
    component has a legal type and the whole fits into the length field. *)
Definition name_ok (n : t) : Prop := Forall BlockFacts.tlv_ok (tlvs n) /\ is_u64 (len (value n)).

(** The name decoded from a shortest encoding. *)
Definition of_tlvs (l : list (Z * bytes)) : t :=
  mk (Block.mk tlv.Name (Block.m_buf (Block.of_tlv tlv.Name (BlockFacts.tlv_seq l)))
        (Block.m_size (Block.of_tlv tlv.Name (BlockFacts.tlv_seq l))) (BlockFacts.of_pair <$> l)).

Lemma components_of_tlvs l : components (of_tlvs l) = BlockFacts.of_pair <$> l.
Proof. done. Qed.

Lemma tlvs_of_tlvs l : tlvs (of_tlvs l) = l.
Proof.
  unfold tlvs. rewrite components_of_tlvs, <- list_fmap_compose. rewrite <- (list_fmap_id l) at 2.
  apply list_fmap_ext. by intros ? [ty v] _.
Qed.

Lemma keys_tlvs n : keys n = (fun x => (x.1, len x.2, be_number x.2)) <$> tlvs n.
Proof. unfold keys, tlvs. rewrite <- list_fmap_compose. by apply list_fmap_ext. Qed.

Lemma keys_of_tlvs n : keys (of_tlvs (tlvs n)) = keys n.
Proof. by rewrite !keys_tlvs, tlvs_of_tlvs. Qed.

Lemma Encodes_name n : Encodes (wireEncode_template n) (tlv_bytes tlv.Name (value n)).
Proof.
  apply Encodes_TL. eapply Encodes_eq; [apply (Encodes_reversed _ (fun c => tlv_bytes (Block.type c) (Block.value c)))|].
  - intros c _. apply Encodes_component.
  - unfold value, BlockFacts.tlv_seq, tlvs. rewrite <- list_fmap_compose. done.
Qed.

Lemma decode_of_tlvs l : Forall BlockFacts.tlv_ok l ->
  decode (Block.of_tlv tlv.Name (BlockFacts.tlv_seq l)) = Ok (of_tlvs l) /\
  ofBlock (Block.of_tlv tlv.Name (BlockFacts.tlv_seq l)) = Ok (of_tlvs l).
Proof.
  intros Hl. pose proof (BlockFacts.parsed_of_tlv tlv.Name l Hl) as HP. split.
  - unfold decode, wireDecode. cbn [Block.type Block.of_tlv Block.m_type]. rewrite Z.eqb_refl. cbn [negb].
    unfold Block.parsed in HP. destruct (Block.parse _) as [b [e|]]; [done|]. by injection HP as ->.
  - unfold ofBlock. rewrite HP. done.
Qed.

Lemma wireEncode_spec n : hasWire n = false -> name_ok n -> wireEncode n = Ok (of_tlvs (tlvs n)).
Proof.
  intros Hw [Ho Hl]. unfold wireEncode. unfold hasWire in Hw. rewrite Hw.
  rewrite (makeBlock_tlv _ tlv.Name (value n)) by (apply Encodes_name || done).
  cbn [mbind result_bind]. apply (decode_of_tlvs (tlvs n) Ho).
Qed.

(** *** URIs *)

Definition comp_ok (c : Block.t) : Prop := valid (Block.type c) (Block.value c) /\ is_u64 (Block.value_size c).

(** What parsing the text of a component list gives. *)
Lemma uri_loop_toUri env fmt l : Forall comp_ok l -> exists us,
  toUri_loop env fmt l = Ok (mjoin ((fun u => chr "/" :: u) <$> us)) /\
  length us = length l /\
  Forall (fun u => u <> [] /\ chr "/" ∉ u /\ chr ":" ∉ u) us /\
  Forall2 (fun c u => exists c', Component.fromEscapedString u = Ok c' /\
    Block.type c' = Block.type c /\ Block.value c' = uri_value (wantAltUri env fmt) c) l us.
Proof.
  induction 1 as [|c l [Hv Hs] Hl (us & E & Hlen & Hus & H2)].
  { by exists []. }
  destruct (toUri_parse env fmt c Hv Hs) as (u & c' & Hu & Hp & Ht & Hval & Hsafe).
  exists (u :: us). cbn [toUri_loop]. rewrite Hu. cbn [mbind result_bind]. rewrite E. cbn [mbind result_bind].
  split_and!; [done|simpl; lia| |].
  - constructor; [|done]. split_and!; [|by apply Hsafe..]. intros ->. done.
  - constructor; [by exists c'|done].
Qed.

Lemma uri_loop_spec us : forall l n fuel, Forall (fun u => u <> [] /\ chr "/" ∉ u) us ->
  Forall2 (fun (c : Block.t) u => Component.fromEscapedString u = Ok c) l us ->
  (length (drop 1 (mjoin ((fun u => chr "/" :: u) <$> us))) <= fuel)%nat ->
  exists r, uri_loop fuel (drop 1 (mjoin ((fun u => chr "/" :: u) <$> us))) n = Ok r /\
    components r = components n ++ l.
Proof.
  induction us as [|u us IH]; intros l n fuel Hus H2 Hf.
  { apply Forall2_nil_inv_r in H2 as ->. exists n. rewrite app_nil_r. by destruct fuel. }
  apply Forall_cons_iff in Hus as [[Hne Hu] Hus].
  apply Forall2_cons_inv_r in H2 as (c & l' & Hc & H2 & ->).
  set (rest := mjoin ((fun u => chr "/" :: u) <$> us)) in *.
  change (mjoin ((fun u => chr "/" :: u) <$> u :: us)) with ((chr "/" :: u) ++ rest) in *.
  cbn [app drop] in *. change (drop 0 (u ++ rest)) with (u ++ rest) in *.
  assert (Hfuel : fuel <> O).
  { intros ->. rewrite length_app in Hf. destruct u; [done|]. simpl in Hf. lia. }
  destruct fuel as [|fuel]; [done|].
  assert (Hstep : uri_loop (S fuel) (u ++ rest) n = uri_loop fuel (drop 1 rest) (append c n)).
  { destruct us as [|u' us].
    - change rest with (@nil byte). rewrite app_nil_r. destruct u as [|x u]; [done|].
      cbn [uri_loop]. rewrite split_at_none by done. change (default (x :: u, []) None) with (x :: u, @nil byte).
      cbv beta iota. rewrite Hc. done.
    - change rest with (chr "/" :: (u' ++ mjoin ((fun u => chr "/" :: u) <$> us))).
      destruct u as [|x u]; [done|]. cbn [app uri_loop].
      change (x :: u ++ ?z) with ((x :: u) ++ z). rewrite split_at_app by done. cbn [from_option id].
      cbv beta iota. rewrite Hc. done. }
  rewrite Hstep. destruct (IH l' (append c n) fuel Hus H2) as (r & Hr & Hcomp).
  { rewrite length_app in Hf. destruct u; [done|]. simpl in Hf. unfold rest in *. rewrite length_drop. lia. }
  exists r. split; [done|]. by rewrite Hcomp, components_append, <- (assoc_L (++)).
Qed.

Lemma fromUri_join us l : Forall (fun u => u <> [] /\ chr "/" ∉ u /\ chr ":" ∉ u) us -> us <> [] ->
  Forall2 (fun (c : Block.t) u => Component.fromEscapedString u = Ok c) l us ->
  exists r, fromUri (mjoin ((fun u => chr "/" :: u) <$> us)) = Ok r /\ components r = l.
Proof.
  intros Hus Hne H2. set (text := mjoin ((fun u => chr "/" :: u) <$> us)).
  assert (Hcolon : chr ":" ∉ text).
  { unfold text. clear Hne H2. induction Hus as [|u us (_ & _ & Hu) _ IH]; [set_solver|].
    change (mjoin ((fun u => chr "/" :: u) <$> u :: us)) with (chr "/" :: (u ++ mjoin ((fun u => chr "/" :: u) <$> us))).
    rewrite not_elem_of_cons, not_elem_of_app. split; [done|]. split; done. }
  assert (Ha : strip_authority text = Some (drop 1 text)).
  { unfold text. destruct us as [|u us]; [done|]. inversion Hus as [|? ? (Hn & Hs & _) _]; subst.
    destruct u as [|x u]; [done|].
    change (mjoin ((fun u => chr "/" :: u) <$> (x :: u) :: us))
      with (chr "/" :: x :: (u ++ mjoin ((fun u => chr "/" :: u) <$> us))).
    cbn [strip_authority drop]. rewrite bool_decide_eq_true_2 by done.
    rewrite bool_decide_eq_false_2 by set_solver. done. }
  assert (Hs : strip_scheme text = text).
  { unfold strip_scheme. by rewrite split_at_none by done. }
  destruct (uri_loop_spec us l (mk Block.empty) (length (drop 1 text))) as (r & Hr & Hc).
  - eapply Forall_impl; [|exact Hus]. naive_solver.
  - done.
  - done.
  - fold text in Hr. exists r. split; [|by rewrite Hc].
    unfold fromUri. rewrite Hs, Ha. destruct text eqn:Et; [|exact Hr].
    by destruct us.
Qed.

(** *** Successor *)

Lemma get_last n c l : components n = l ++ [c] -> get (-1) n = Some c.
Proof.
  intros H. unfold get. rewrite size_len, H, len_app. change (len [c]) with 1.
  change (-1 <? 0) with true. cbn [Z.ltb Z.compare].
  pose proof (len_nonneg l). rewrite (proj2 (Z.ltb_ge (-1 + (len l + 1)) 0)) by lia.
  replace (Z.to_nat (-1 + (len l + 1))) with (length l) by (unfold len; lia).
  by rewrite lookup_app_r, Nat.sub_diag.
Qed.

Definition comps_valid (n : t) : Prop := Forall (fun c => valid (Block.type c) (Block.value c)) (components n).

Lemma getSuccessor_nonempty n l c : components n = l ++ [c] -> size n < 2 ^ 62 ->
  valid (Block.type c) (Block.value c) -> Block.value_size c < UINT64_MAX ->
  exists s ty v, getSuccessor n = Ok s /\ components s = l ++ [Block.of_tlv ty v] /\
    least_above c (Block.of_tlv ty v).
Proof.
  intros Hc Hn Hv Hs. unfold getSuccessor, isEmpty.
  assert (Hsz : size n = len l + 1) by (rewrite size_len, Hc, len_app; done).
  pose proof (len_nonneg l). rewrite (proj2 (Z.eqb_neq (size n) 0)) by lia.
  destruct (getPrefix_neg_spec 1 n) as (p & Hp & Hcomp & _); [lia..|].
  change (getPrefix (-1) n = Ok p) in Hp. rewrite Hp. cbn [mbind result_bind].
  rewrite (get_last n c l Hc). destruct (ComponentFacts.getSuccessor_spec c Hv Hs) as (ty & v & Hg & _ & HL).
  rewrite Hg. cbn [mbind result_bind]. exists (append (Block.of_tlv ty v) p), ty, v.
  split_and!; [done| |done]. rewrite components_append, Hcomp, Hc.
  replace (Z.to_nat (size n - 1)) with (length l) by (rewrite Hsz; unfold len; lia).
  by rewrite take_app_length.
Qed.

End NameFacts.

Module NameTheorems.
Import Name ComponentFacts NameFacts.

(** A name survives its wire format: encoding a name gives one Name
    element with its components in order, each under a shortest header;
    decoding that element, by [wireDecode] or by the constructor, gives an
    equal name that has a wire, and encoding it again changes nothing. *)
Theorem name_wire_roundtrip (n : Name.t) (Hn : name_ok n) (Hw : hasWire n = false) :
  exists n', wireEncode n = Ok n' /\
    Block.wire (m_wire n') = Ok (tlv_bytes tlv.Name (BlockFacts.tlv_seq (tlvs n))) /\
    equals n n' = true /\ hasWire n' = true /\ wireEncode n' = Ok n' /\
    (b ← Block.fromSpan (tlv_bytes tlv.Name (BlockFacts.tlv_seq (tlvs n))); decode b) = Ok n' /\
    (b ← Block.fromSpan (tlv_bytes tlv.Name (BlockFacts.tlv_seq (tlvs n))); ofBlock b) = Ok n'.
Proof.
  exists (of_tlvs (tlvs n)). pose proof (wire_of_tlv tlv.Name (BlockFacts.tlv_seq (tlvs n))) as HW.
  assert (hasWire (of_tlvs (tlvs n)) = true) as Hw'.
  { unfold hasWire, Block.hasWire. revert HW. unfold Block.wire, of_tlvs. cbn [Block.m_buf m_wire].
    destruct (Block.m_buf _) as [[[|x w] v]|]; done. }
  destruct (decode_of_tlvs (tlvs n) (proj1 Hn)) as [D1 D2].
  rewrite BlockFacts.fromSpan_of_tlv by (done || apply Hn). cbn [mbind result_bind].
  split_and!; [by apply wireEncode_spec|exact HW| |done| |done|done].
  - rewrite nequals_spec. apply bool_decide_eq_true. by rewrite keys_of_tlvs.
  - unfold wireEncode. unfold hasWire in Hw'. by rewrite Hw'.
Qed.

Lemma name_wire_roundtrip_witness :
  let n := append (Block.ofTypeValue 8 (str "B")) (append (Block.ofTypeValue 8 (str "A")) empty) in
  exists n', wireEncode n = Ok n' /\ equals n n' = true /\
    Block.wire (m_wire n') = Ok (z2b <$> [7; 6; 8; 1; 65; 8; 1; 66]).
Proof.
  intros n. destruct (name_wire_roundtrip n) as (n' & H1 & H2 & H3 & _).
  - split; [repeat constructor; by vm_compute|by vm_compute].
  - reflexivity.
  - exists n'. split; [exact H1|]. split; [exact H3|exact H2].
Defined.

(** Neither decoding path checks the components: an element of type Name
    whose component is a three-octet implicit digest decodes without an error,
    although the component constructor refuses that block; and the
    constructor, unlike [wireDecode], accepts an element of another type. *)
Theorem name_decode_unchecked :
  (exists b n c, Block.fromSpan (z2b <$> [7; 5; 1; 3; 1; 2; 3]) = Ok b /\ decode b = Ok n /\
     components n = [c] /\ exists e, Component.ofBlock c = Throw (ComponentError e)) /\
  (exists b n, Block.fromSpan (z2b <$> [6; 3; 8; 1; 65]) = Ok b /\ ofBlock b = Ok n /\ size n = 1 /\
     decode b = Throw (TlvError "Name")).
Proof. split; repeat eexists; vm_compute; reflexivity. Qed.

(** A name survives its URI: in every format, the text of a name with
    valid components parses to a name with the same component types, and with
    the same values except that the alternate format normalises number
    components; so in the canonical format the parsed name is equal. *)
Theorem name_uri_roundtrip (env : option bytes) (fmt : UriFormat) (n : Name.t)
    (Hn : Forall comp_ok (components n)) :
  exists u n', toUri env n fmt = Ok u /\ fromUri u = Ok n' /\
    tlvs n' = (fun c => (Block.type c, uri_value (wantAltUri env fmt) c)) <$> components n /\
    (wantAltUri env fmt = false -> equals n n' = true).
Proof.
  assert (Hfin : forall n', tlvs n' = (fun c => (Block.type c, uri_value (wantAltUri env fmt) c)) <$> components n ->
    wantAltUri env fmt = false -> equals n n' = true).
  { intros n' Ht Ha. rewrite nequals_spec. apply bool_decide_eq_true. rewrite (keys_tlvs n'), Ht, Ha.
    unfold keys. rewrite <- list_fmap_compose. by apply list_fmap_ext. }
  unfold toUri, isEmpty. destruct (Z.eqb_spec (size n) 0) as [E|E].
  { exists (str "/"), (mk Block.empty). rewrite size_len in E. apply len_zero in E.
    assert (Ht : tlvs (mk Block.empty) = (fun c => (Block.type c, uri_value (wantAltUri env fmt) c)) <$> components n)
      by (by rewrite E).
    split_and!; [done|done|done|by apply Hfin]. }
  destruct (uri_loop_toUri env fmt (components n) Hn) as (us & Hu & Hlen & Hus & H2).
  assert (exists l, Forall2 (fun (c : Block.t) u => Component.fromEscapedString u = Ok c) l us /\
    ((fun c => (Block.type c, Block.value c)) <$> l) =
    (fun c => (Block.type c, uri_value (wantAltUri env fmt) c)) <$> components n) as (l & Hl & Hv).
  { clear -H2. induction H2 as [|c u cs us (c' & Hc & Ht & Hv) _ (l & Hl & Hm)].
    - by exists [].
    - exists (c' :: l). split; [by constructor|]. rewrite !fmap_cons, Hm, Ht, Hv. done. }
  destruct (fromUri_join us l Hus) as (n' & Hn' & Hc').
  - intros ->. simpl in Hlen. rewrite size_len in E. unfold len in E. lia.
  - done.
  - exists (mjoin ((fun u => chr "/" :: u) <$> us)), n'.
    assert (Ht : tlvs n' = (fun c => (Block.type c, uri_value (wantAltUri env fmt) c)) <$> components n).
    { unfold tlvs. rewrite Hc'. exact Hv. }
    split_and!; [done|done|done|by apply Hfin].
Qed.

Lemma name_uri_roundtrip_witness :
  let n := append (Block.ofTypeValue 8 (str "a/b=c")) empty in
  exists u n', toUri None n CANONICAL = Ok u /\ fromUri u = Ok n' /\ equals n n' = true.
Proof.
  intros n. destruct (name_uri_roundtrip None CANONICAL n) as (u & n' & H1 & H2 & _ & H3).
  - constructor; [|constructor]. split; [|by vm_compute]. split; [by vm_compute|].
    intros [H|H]; by vm_compute in H.
  - exists u, n'. split; [exact H1|]. split; [exact H2|]. apply H3. reflexivity.
Defined.

(** [compare] is the canonical order of names, [equals] its equality and
    [isPrefixOf] the prefix order: comparing proceeds component by component
    and a proper prefix comes first; the result is zero exactly on equal
    names, a prefix never comes after, and comparing is transitive and
    antisymmetric. *)
Theorem name_compare_order (a b c : Name.t)
    (Ha : ordered_name a) (Hb : ordered_name b) (Hc : ordered_name c) :
  exists ab ba bc ac, compare a b = Some (Ok ab) /\ compare b a = Some (Ok ba) /\
    compare b c = Some (Ok bc) /\ compare a c = Some (Ok ac) /\
    (ab = 0 <-> equals a b = true) /\ Z.sgn ba = - Z.sgn ab /\
    (ab < 0 -> bc < 0 -> ac < 0) /\
    (isPrefixOf a b = true -> ab <= 0) /\ (isPrefixOf a b = true -> size a < size b -> ab < 0) /\
    (ab < 0 <-> keys_lt (keys a) (keys b)).
Proof.
  destruct (compare_names a b Ha Hb) as (ab & E1 & S1). destruct (compare_names b a Hb Ha) as (ba & E2 & S2).
  destruct (compare_names b c Hb Hc) as (bc & E3 & S3). destruct (compare_names a c Ha Hc) as (ac & E4 & S4).
  exists ab, ba, bc, ac. do 4 (split; [done|]).
  assert (HS : forall r k, Z.sgn r = cmpZ k -> (r < 0 <-> k = Lt) /\ (r = 0 <-> k = Eq)).
  { intros r k Hk. destruct k; cbn [cmpZ] in Hk; split; split; intros; try lia; done. }
  pose proof (HS _ _ S1) as [L1 Z1]. pose proof (HS _ _ S3) as [L3 _]. pose proof (HS _ _ S4) as [L4 _].
  rewrite nequals_spec, isPrefixOf_spec, !bool_decide_eq_true, L1, L3, L4, Z1.
  assert (Hpre : keys a `prefix_of` keys b -> keys a = keys b \/ keys_lt (keys a) (keys b)).
  { intros [[|k ks] ->]; [left; by rewrite app_nil_r|right].
    rewrite <- (app_nil_r (keys a)) at 1. by apply keys_lt_app. }
  split_and!.
  - split; [apply keys_cmp_eq|intros ->; apply keys_cmp_refl].
  - rewrite S1, S2, (keys_cmp_antisym (keys a)). by destruct (keys_cmp _ _).
  - apply keys_lt_trans.
  - intros [E|H]%Hpre; [rewrite E, keys_cmp_refl in S1; cbn in S1; lia|].
    apply L1 in H. lia.
  - intros [E|H]%Hpre Hs; [|done]. rewrite <- !len_keys, E in Hs. lia.
  - done.
Qed.

Lemma name_compare_order_witness :
  let nm s := append (Block.ofTypeValue 8 s) empty in
  exists ab, compare (nm (str "c")) (nm (str "bb")) = Some (Ok ab) /\ ab < 0.
Proof.
  intros nm. assert (H : forall s, (len s <? 100) = true -> ordered_name (nm s)).
  { intros s Hs. apply Z.ltb_lt in Hs. pose proof (len_nonneg s). split; [by vm_compute|].
    constructor; [|constructor]. cbn -[len]. split; [|unfold Block.value_size; cbn -[len]; lia].
    split; [split; [cbn; lia|]; intros [G|G]; by vm_compute in G|].
    split; [unfold Block.value_size; cbn -[len]; width; lia|by left]. }
  destruct (name_compare_order (nm (str "c")) (nm (str "bb")) (nm (str "bb")))
    as (ab & _ & _ & _ & H1 & _ & _ & _ & _ & _ & _ & _ & _ & H2); [apply H; reflexivity..|].
  exists ab. split; [exact H1|]. apply H2. reflexivity.
Defined.

(** [getSuccessor] of a name is the least name above it that it is not a
    prefix of: the result is greater, and every greater name with valid
    components either extends the given name or is not below the result.  The
    empty name has the all-zero implicit digest as its exact successor. *)
Theorem name_successor (n z : Name.t) (Hn : comps_valid n) (Hs : size n < 2 ^ 62)
    (Hl : Forall (fun c => Block.value_size c < UINT64_MAX) (components n))
    (Hz : comps_valid z) (Hlt : keys_lt (keys n) (keys z)) :
  exists s, getSuccessor n = Ok s /\ keys_lt (keys n) (keys s) /\ isPrefixOf n s = isEmpty n /\
    (isPrefixOf n z = true /\ isEmpty n = false \/ keys z = keys s \/ keys_lt (keys s) (keys z)).
Proof.
  destruct (components n) as [|c0 l0] eqn:Ec using rev_ind.
  - assert (isEmpty n = true) as Hemp by (unfold isEmpty; by rewrite size_len, Ec).
    unfold getSuccessor. rewrite Hemp. eexists. split; [vm_compute; reflexivity|].
    set (s := mk _). assert (Hk : keys s = [(1, 32, 0)]) by (vm_compute; reflexivity).
    assert (keys n = []) as Hkn by (unfold keys; by rewrite Ec). rewrite Hkn in *.
    rewrite Hk, isPrefixOf_spec, Hkn, Hk. split_and!; [done|by apply bool_decide_eq_true, prefix_nil|].
    right. apply keys_lt_nil in Hlt. unfold comps_valid, keys in *.
    destruct (components z) as [|d r]; [done|]. cbn [fmap list_fmap].
    apply Forall_cons_iff in Hz as [[[V1 V2] V3] _]. pose proof (value_number_range d) as R.
    unfold key in *. set (ty := Block.type d) in *.
    destruct (decide ((ty, Block.value_size d, be_number (Block.value d)) = (1, 32, 0))) as [->|Hne].
    + destruct r; [by left|right; done].
    + right. apply keys_lt_cons. left. unfold key_lt. cbn [fst snd].
      destruct (decide (ty = 1)) as [E1|]; [|lia]. unfold Block.value_size in *. rewrite V3 in * by auto.
      right. split; [done|]. right. split; [done|].
      destruct (decide (be_number (Block.value d) = 0)) as [E2|]; [|lia]. exfalso. apply Hne. by rewrite E1, E2.
  - clear IHl0. unfold comps_valid in Hn. rewrite Ec in Hn.
    apply Forall_app in Hn as [Hn1 [Hv _]%Forall_cons_iff]. apply Forall_app in Hl as [_ [Hvs _]%Forall_cons_iff].
    destruct (getSuccessor_nonempty n l0 c0 Ec Hs Hv Hvs) as (s & ty & v & Hg & Hcs & HV & HL & Hleast).
    exists s. split; [done|].
    assert (Hkn : keys n = (key <$> l0) ++ [key c0]) by (unfold keys; rewrite Ec, fmap_app; done).
    assert (Hks : keys s = (key <$> l0) ++ [key (Block.of_tlv ty v)]) by (unfold keys; rewrite Hcs, fmap_app; done).
    assert (Hemp : isEmpty n = false).
    { unfold isEmpty. rewrite size_len, Ec, len_app. change (len [c0]) with 1. pose proof (len_nonneg l0). lia. }
    rewrite !isPrefixOf_spec, Hemp, Hkn, Hks in *. split_and!.
    + apply keys_lt_app, keys_lt_cons. by left.
    + apply bool_decide_eq_false. intros P. apply prefix_app_inv in P.
      apply prefix_cons_inv_1 in P. rewrite P in HL. by apply key_lt_irrefl in HL.
    + rewrite bool_decide_eq_true.
      destruct (keys_above _ _ _ Hlt) as [?|[(b & r & Hzk & Hb)|Hx]]; [by left| |right; right; apply Hx].
      assert (exists d, b = key d /\ valid (Block.type d) (Block.value d)) as (d & -> & Hd).
      { assert (b ∈ keys z) as Hin by (rewrite Hzk; set_solver).
        apply list_elem_of_fmap in Hin as (d & -> & Hin). exists d. split; [done|].
        unfold comps_valid in Hz. rewrite Forall_forall in Hz. by apply Hz, list_elem_of_In. }
      right. rewrite Hzk. destruct (Hleast d Hd Hb) as [E|E].
      * rewrite E. destruct r as [|x r]; [by left|right]. apply keys_lt_app, keys_lt_cons. by right.
      * right. apply keys_lt_app, keys_lt_cons. by left.
Qed.

Lemma name_successor_witness :
  let nm s := append (Block.ofTypeValue 8 s) empty in
  exists s, getSuccessor (nm (str "A")) = Ok s /\ keys_lt (keys (nm (str "A"))) (keys s) /\
    (isPrefixOf (nm (str "A")) (nm (str "C")) = true /\ isEmpty (nm (str "A")) = false \/
     keys (nm (str "C")) = keys s \/ keys_lt (keys s) (keys (nm (str "C")))).
Proof.
  intros nm. assert (H : forall s, comps_valid (nm s)).
  { intros s. constructor; [|constructor]. split; [cbn; lia|intros [G|G]; by vm_compute in G]. }
  destruct (name_successor (nm (str "A")) (nm (str "C"))) as (s & H1 & H2 & _ & H3);
    [apply H|by vm_compute| |apply H|by vm_compute|by exists s].
  constructor; [by vm_compute|constructor].
Defined.

(** The definition of the successor given in the header is not met by
    non-empty names: a name extended by a component lies strictly between the
    name and its successor. *)
Theorem name_successor_not_adjacent (n : Name.t) (c : Component.t) (Hn : comps_valid n) (Hs : size n < 2 ^ 62)
    (Hl : Forall (fun c => Block.value_size c < UINT64_MAX) (components n)) (Hne : isEmpty n = false) :
  exists s, getSuccessor n = Ok s /\ keys_lt (keys n) (keys (append c n)) /\ keys_lt (keys (append c n)) (keys s).
Proof.
  destruct (components n) as [|c0 l0 _] eqn:Ec using rev_ind.
  { unfold isEmpty in Hne. by rewrite size_len, Ec in Hne. }
  unfold comps_valid in Hn. rewrite Ec in Hn.
  apply Forall_app in Hn as [_ [Hv _]%Forall_cons_iff]. apply Forall_app in Hl as [_ [Hvs _]%Forall_cons_iff].
  destruct (getSuccessor_nonempty n l0 c0 Ec Hs Hv Hvs) as (s & ty & v & Hg & Hcs & HV & HL & _).
  exists s. split; [done|]. unfold keys. rewrite components_append, Hcs, Ec, !fmap_app, <- !(assoc_L (++)).
  split; apply keys_lt_app, keys_lt_cons; [by right|by left].
Qed.

Lemma name_successor_not_adjacent_witness :
  let n := append (Block.ofTypeValue 8 (str "A")) empty in
  exists s, getSuccessor n = Ok s /\ keys_lt (keys (append (Block.ofTypeValue 8 (str "x")) n)) (keys s).
Proof.
  intros n. destruct (name_successor_not_adjacent n (Block.ofTypeValue 8 (str "x"))) as (s & H1 & _ & H2).
  - constructor; [|constructor]. split; [cbn; lia|intros [G|G]; by vm_compute in G].
  - by vm_compute.
  - constructor; [by vm_compute|constructor].
  - reflexivity.
  - exists s. split; assumption.
Defined.

(** [getSubName], [getPrefix] and [append] take and join ranges of
    components as documented, negative arguments counting from the end, as
    long as the counts stay clear of the 64-bit limit; and the range form of
    [compare] agrees in sign with comparing the sub-names. *)
Theorem name_ranges (n m : Name.t) (start count pos k : Z)
    (Hs : start < 2 ^ 63) (Hn : size n < 2 ^ 31) (Hm : size m < 2 ^ 31)
    (Hc : count = npos \/ 0 <= count < 2 ^ 63) (Hk : 0 < k <= size n) :
  (exists r, getSubName start count n = Ok r /\ components r = sub start count (components n)) /\
  (exists r, getPrefix k n = Ok r /\ components r = take (Z.to_nat k) (components n)) /\
  (exists r, getPrefix (- k) n = Ok r /\ components r = take (Z.to_nat (size n - k)) (components n)) /\
  (exists r, appendName m n = Ok r /\ components r = components n ++ components m) /\
  (ordered_name n -> ordered_name m -> 0 <= pos <= size n ->
   exists p r r', getSubName pos count n = Ok p /\ compareRange pos count n 0 npos m = Some (Ok r) /\
     compare p m = Some (Ok r') /\ Z.sgn r = Z.sgn r').
Proof.
  assert (Hc' : count = npos \/ 0 <= count /\ count + size n <= UINT64_MAX) by (unfold UINT64_MAX; lia).
  split_and!.
  - destruct (getSubName_spec start count n) as (r & H1 & H2 & _); [lia..|done|]. by exists r.
  - destruct (getPrefix_spec k n) as (r & H1 & H2 & _); [lia..|]. by exists r.
  - destruct (getPrefix_neg_spec k n) as (r & H1 & H2 & _); [lia..|]. by exists r.
  - apply appendName_spec.
  - intros On Om Hp. destruct (getSubName_spec pos count n) as (p & H1 & H2 & _); [lia..|done|].
    assert (Op : ordered_name p).
    { split; [rewrite size_len, H2; unfold sub; rewrite size_len in Hn; unfold len in *;
        repeat case_match; rewrite ?length_take, ?length_drop; lia|].
      rewrite H2. unfold sub. destruct On as [_ F]. repeat case_match; auto using Forall_take, Forall_drop. }
    destruct (compare_names p m Op Om) as (r' & Hr' & Sr').
    pose proof (len_nonneg (components m)) as Pm. rewrite <- size_len in Pm.
    destruct (compareRange_spec pos count n 0 npos m On Om) as (r & Hr & Sr); try (unfold npos, UINT64_MAX in *; lia).
    exists p, r, r'. split_and!; [done..|]. rewrite Sr, Sr'. do 2 f_equal.
    + unfold keys at 2. rewrite H2. unfold sub. rewrite (proj2 (Z.ltb_ge pos 0)), Z.max_l by lia.
      destruct (Z.eqb_spec count npos) as [E|E].
      * rewrite fmap_drop. rewrite take_ge; [done|]. rewrite length_drop, length_keys.
        rewrite E, size_len in *. unfold npos, UINT64_MAX, len in *. lia.
      * rewrite fmap_take, fmap_drop. fold (keys n). rewrite <- (take_min_length (Z.to_nat count)). f_equal.
        rewrite length_drop, length_keys, size_len. unfold len. rewrite size_len in Hp. unfold len in Hp. lia.
    + rewrite drop_0, Z.sub_0_r, Z.min_r by (unfold npos, UINT64_MAX; lia).
      rewrite take_ge; [done|]. rewrite length_keys, size_len. unfold len. lia.
Qed.

Lemma name_ranges_witness :
  let n := append (Block.ofTypeValue 8 (str "B")) (append (Block.ofTypeValue 8 (str "A")) empty) in
  exists r, getPrefix (-1) n = Ok r /\ components r = [Block.ofTypeValue 8 (str "A")].
Proof.
  intros n. destruct (name_ranges n empty 0 npos 0 1) as (_ & _ & H & _); [by vm_compute..|by left|by vm_compute|].
  exact H.
Defined.

(** At the edge of the 64-bit range the documented meaning is lost:
    dropping more components than there are returns the whole name instead of
    an empty one; a count close to the limit returns nothing instead of the
    rest; and the range form of [compare], started behind the end, differs
    from comparing the (empty) sub-names. *)
Theorem name_range_wraparound :
  let c x := Block.ofTypeValue 8 (str x) in
  let n := append (c "C") (append (c "B") (append (c "A") empty)) in
  (exists r, getPrefix (-5) n = Ok r /\ equals r n = true) /\
  (exists r, getSubName 2 (npos - 1) n = Ok r /\ size r = 0) /\
  (exists r, getSubName 4 npos n = Ok r /\ compare r empty = Some (Ok 0) /\
     compareRange 4 npos n 0 npos empty = Some (Ok (-1))).
Proof. cbn zeta. split_and!; eexists; repeat split; vm_compute; reflexivity. Qed.

End NameTheorems.
