(* ===== verification/NameRegex.v ===== *)
(** * NDN regular expressions

    The matchers of [util/regex]: how an expression is compiled into a tree of
    matchers, how the tree is matched against a range of name components by
    backtracking, what the groups capture, and the top matcher with its
    anchors, its expansion of back references and its construction from a name.

    Component patterns are [std::regex] objects; the class [StdRegex] is what
    the code uses of them. *)

From Stdlib Require Import Init.Byte.
From stdpp Require Import list.
From S2P Require Import Prelude Tlv Encoding Blocks BlockHelpers Text NameComponents Names.

(** ** The pattern matcher of the standard library

    [regex_assign] is [std::regex::assign], which throws [std::regex_error];
    [regex_match] gives the sub-matches from the first one on. *)
Class StdRegex := {
  regex : Type;
  regex_assign : bytes -> result regex;
  mark_count : regex -> nat;
  regex_match : regex -> bytes -> option (list bytes);
}.

(** What the matchers rely on: a sub-match is a part of the subject, so it is
    no longer, and there is one per marked sub-expression. *)
Class StdRegexLaws `(StdRegex) := {
  regex_match_bounded r s subs : regex_match r s = Some subs -> Forall (fun x => len x <= len s) subs;
  regex_match_marks r s subs : regex_match r s = Some subs -> length subs = mark_count r;
}.

Module regex.

(** ** Objects

    The matchers of one tree share a back reference manager.  Every matcher
    object has a number; its [m_matchResult] is at that position.  The manager
    holds weak pointers, here the numbers of the matchers. *)

(** [ndn-cxx/util/regex/regex-backref-manager.hpp:34-58] RegexBackrefManager *)
Record objects := mkObjects {
  m_matchResults : list (list Component.t);
  m_backrefs : list nat;
}.

Definition noObjects : objects := mkObjects [] [].

(** [ndn-cxx/util/regex/regex-matcher.cpp:28-37] RegexMatcher::RegexMatcher
    A new matcher has no match result. *)
Definition RegexMatcher_ : P objects nat := fun s =>
  Some (mkObjects (m_matchResults s ++ [[]]) (m_backrefs s), Ok (length (m_matchResults s))).

(** [ndn-cxx/util/regex/regex-backref-manager.cpp:28-34] RegexBackrefManager::pushRef *)
Definition pushRef (matcher : nat) : P objects nat := fun s =>
  Some (mkObjects (m_matchResults s) (m_backrefs s ++ [matcher]), Ok (length (m_backrefs s))).

(** [ndn-cxx/util/regex/regex-backref-manager.hpp:46-50] RegexBackrefManager::size *)
Definition size (s : objects) : Z := len (m_backrefs s).

(** [ndn-cxx/util/regex/regex-matcher.hpp:67-71] RegexMatcher::getMatchResult *)
Definition getMatchResult (self : nat) (s : objects) : list Component.t :=
  default [] (m_matchResults s !! self).

(** [ndn-cxx/util/regex/regex-backref-manager.cpp:36-42] RegexBackrefManager::getBackref
    The matchers live as long as the tree, so [lock] succeeds. *)
Definition getBackref (i : Z) (s : objects) : option nat := m_backrefs s !! Z.to_nat i.

Definition setResult (self : nat) (v : list Component.t) : P objects unit :=
  modifyP (fun s => mkObjects (<[self := v]> (m_matchResults s)) (m_backrefs s)).

(** [m_matchResult.clear()] *)
Definition clearResult (self : nat) : P objects unit := setResult self [].

(** [m_matchResult.push_back(c)] *)
Definition pushResult (self : nat) (c : Component.t) : P objects unit := fun s =>
  setResult self (getMatchResult self s ++ [c]) s.

(** [name.get(i)] *)
Definition getM (name : Name.t) (i : nat) : P objects Component.t := fun s =>
  match Name.get (Z.of_nat i) name with
  | Some c => Some (s, Ok c)
  | None => None
  end.

(** [ndn-cxx/util/regex/regex-pseudo-matcher.cpp:28-31] RegexPseudoMatcher::RegexPseudoMatcher *)
Definition RegexPseudoMatcher_ : P objects nat := RegexMatcher_.

(** [ndn-cxx/util/regex/regex-pseudo-matcher.cpp:33-37] RegexPseudoMatcher::setMatchResult *)
Definition setMatchResult (self : nat) (s : bytes) : P objects unit :=
  c ← liftP (Component.ofSpan tlv.GenericNameComponent s);
  pushResult self c.

(** [ndn-cxx/util/regex/regex-pseudo-matcher.cpp:39-43] RegexPseudoMatcher::resetMatchResult *)
Definition resetMatchResult (self : nat) : P objects unit := clearResult self.

Definition error (what : string) : exn := RegexError what.

Section matchers.
Context `{StdRegex}.

(** ** Matchers *)

(** [ndn-cxx/util/regex/regex-component-matcher.hpp:35-59] RegexComponentMatcher *)
Record component_matcher := mkComponentMatcher {
  c_self : nat;
  c_expr : bytes;
  m_isExactMatch : bool;
  m_componentRegex : regex;
  m_pseudoMatchers : list nat;
}.

(** [ndn-cxx/util/regex/regex-matcher.hpp:41-49] RegexMatcher and its subclasses
    A repeat matcher has exactly one sub-matcher. *)
Inductive matcher :=
| RegexPatternListMatcher (self : nat) (m_expr : bytes) (m_matchers : list matcher)
| RegexBackrefMatcher (self : nat) (m_expr : bytes) (m_matchers : list matcher)
| RegexRepeatMatcher (self : nat) (m_expr : bytes) (m_matcher : matcher) (m_repeatMin m_repeatMax : Z)
| RegexComponentSetMatcher (self : nat) (m_expr : bytes) (m_isInclusion : bool)
    (m_components : list component_matcher).

(** *** Component matcher *)

(** [ndn-cxx/util/regex/regex-component-matcher.cpp:46-49] RegexComponentMatcher::compile (the loop) *)
Fixpoint pseudo_loop (k : nat) : P objects (list nat) :=
  match k with
  | O => mret []
  | S k =>
      p ← RegexPseudoMatcher_;
      _ ← pushRef p;
      ps ← pseudo_loop k;
      mret (p :: ps)
  end.

(** [ndn-cxx/util/regex/regex-component-matcher.cpp:29-50] RegexComponentMatcher::RegexComponentMatcher and compile *)
Definition newComponentMatcher (expr : bytes) (isExactMatch : bool) : P objects component_matcher :=
  self ← RegexMatcher_;
  r ← liftP (regex_assign expr);
  p0 ← RegexPseudoMatcher_;
  ps ← pseudo_loop (mark_count r);
  mret (mkComponentMatcher self expr isExactMatch r (p0 :: ps)).

(** [ndn-cxx/util/regex/regex-component-matcher.cpp:68-71] RegexComponentMatcher::match (the loop) *)
Fixpoint sub_loop (pseudo : list nat) (subResult : list bytes) : P objects unit :=
  match pseudo with
  | [] => mret tt
  | p :: pseudo =>
      _ ← resetMatchResult p;
      _ ← setMatchResult p (default [] (head subResult));
      sub_loop pseudo (tail subResult)
  end.

(** [ndn-cxx/util/regex/regex-component-matcher.cpp:52-77] RegexComponentMatcher::match *)
Definition component_match (env : option bytes) (name : Name.t) (m : component_matcher) (offset : nat) : P objects bool :=
  _ ← clearResult (c_self m);
  if bool_decide (c_expr m = []) then
    c ← getM name offset; _ ← pushResult (c_self m) c; mret true
  else if negb (m_isExactMatch m) then throwP (error "Non-exact component search is not supported yet")
  else
    c ← getM name offset;
    targetStr ← liftP (Component.toUri env c name.ENV_OR_ALTERNATE);
    match regex_match (m_componentRegex m) targetStr with
    | Some subResult =>
        _ ← sub_loop (tail (m_pseudoMatchers m)) subResult;
        _ ← pushResult (c_self m) c;
        mret true
    | None => mret false
    end.

(** *** Component set matcher

    A position in [m_expr] is the list of the characters from there on; the
    character behind the last one is NUL. *)

(** [ndn-cxx/util/regex/regex-component-set-matcher.cpp:121-142] RegexComponentSetMatcher::extractComponent
    [depth] is [lcount - rcount]; the result is the component without its
    closing bracket, and what follows that. *)
Fixpoint extractComponent (depth : nat) (rest : bytes) : result (bytes * bytes) :=
  match rest with
  | [] => Throw (error "Angle brackets mismatch")
  | c :: rest =>
      if bool_decide (c = Byte.x00) then Throw (error "Angle brackets mismatch")
      else if bool_decide (c = chr "<") then
        '(comp, next) ← extractComponent (S depth) rest; Ok (c :: comp, next)
      else if bool_decide (c = chr ">") then
        match depth with
        | S (S depth) => '(comp, next) ← extractComponent (S depth) rest; Ok (c :: comp, next)
        | _ => Ok ([], rest)
        end
      else '(comp, next) ← extractComponent depth rest; Ok (c :: comp, next)
  end.

(** [ndn-cxx/util/regex/regex-component-set-matcher.cpp:66-74] RegexComponentSetMatcher::compileSingleComponent *)
Definition compileSingleComponent (m_expr : bytes) : P objects (list component_matcher) :=
  r ← liftP (extractComponent 1 (drop 1 m_expr));
  let '(comp, next) := r : bytes * bytes in
  if negb (bool_decide (next = [])) then throwP (error "Component expr error")
  else m ← newComponentMatcher comp true; mret [m].

(** [ndn-cxx/util/regex/regex-component-set-matcher.cpp:76-94] RegexComponentSetMatcher::compileMultipleComponents
    The position [lastIndex] is the one with one character left. *)
Fixpoint compileMultipleComponents (fuel : nat) (rest : bytes) : P objects (list component_matcher) :=
  match fuel with
  | O => undefinedP
  | S fuel =>
      if 1 <? len rest then
        match rest with
        | c :: rest' =>
            if negb (bool_decide (c = chr "<")) then throwP (error "Component expr error")
            else
              r ← liftP (extractComponent 1 rest');
              let '(comp, next) := r : bytes * bytes in
              m ← newComponentMatcher comp true;
              ms ← compileMultipleComponents fuel next;
              mret (m :: ms)
        | [] => undefinedP
        end
      else if negb (len rest =? 1) then throwP (error "Not sufficient expr to parse")
      else mret []
  end.

(** [ndn-cxx/util/regex/regex-component-set-matcher.cpp:29-64] RegexComponentSetMatcher::RegexComponentSetMatcher and compile *)
Definition newComponentSetMatcher (expr : bytes) : P objects matcher :=
  self ← RegexMatcher_;
  if len expr <? 2 then throwP (error "Invalid component set syntax")
  else if bool_decide (head expr = Some (chr "<")) then
    cs ← compileSingleComponent expr;
    mret (RegexComponentSetMatcher self expr true cs)
  else if bool_decide (head expr = Some (chr "[")) then
    if negb (bool_decide (list.last expr = Some (chr "]"))) then throwP (error "Missing ']' in regex")
    else if bool_decide (expr !! 1%nat = Some (chr "^")) then
      cs ← compileMultipleComponents (length expr) (drop 2 expr);
      mret (RegexComponentSetMatcher self expr false cs)
    else
      cs ← compileMultipleComponents (length expr) (drop 1 expr);
      mret (RegexComponentSetMatcher self expr true cs)
  else throwP (error "Invalid component set syntax").

(** [ndn-cxx/util/regex/regex-component-set-matcher.cpp:103-109] RegexComponentSetMatcher::match (the loop) *)
Fixpoint any_match (env : option bytes) (name : Name.t) (cs : list component_matcher) (offset : nat) : P objects bool :=
  match cs with
  | [] => mret false
  | c :: cs =>
      b ← component_match env name c offset;
      if b : bool then mret true else any_match env name cs offset
  end.

(** [ndn-cxx/util/regex/regex-component-set-matcher.cpp:96-119] RegexComponentSetMatcher::match *)
Definition set_match (env : option bytes) (name : Name.t) (self : nat) (m_isInclusion : bool)
    (m_components : list component_matcher) (offset len : nat) : P objects bool :=
  if negb (len =? 1)%nat then mret false
  else
    isMatched ← any_match env name m_components offset;
    _ ← clearResult self;
    if (if m_isInclusion then isMatched else negb isMatched) : bool then
      c ← getM name offset; _ ← pushResult self c; mret true
    else mret false.

(** *** Backtracking *)

(** [ndn-cxx/util/regex/regex-matcher.cpp:61-71] RegexMatcher::recursiveMatch (the loop)
    Also the loop of RegexRepeatMatcher::recursiveMatch, at lines 159-169 of
    [regex-repeat-matcher.cpp]: [matcher] is the call on the sub-matcher,
    [next] the recursive call on what it leaves. *)
Fixpoint try_loop (matcher next : nat -> nat -> P objects bool) (offset len tried : nat) : P objects bool :=
  b ← matcher offset tried;
  b ← (if b : bool then next (offset + tried)%nat (len - tried)%nat else mret false);
  if b : bool then mret true
  else match tried with
       | O => mret false
       | S tried => try_loop matcher next offset len tried
       end.

(** [ndn-cxx/util/regex/regex-matcher.cpp:55-72] RegexMatcher::recursiveMatch
    [ms] is [m_matchers] from [matcherNo] on, as calls. *)
Fixpoint recursiveMatch (ms : list (nat -> nat -> P objects bool)) (offset len : nat) : P objects bool :=
  match ms with
  | [] => mret (len =? 0)%nat
  | m :: ms => try_loop m (recursiveMatch ms) offset len len
  end.

(** [ndn-cxx/util/regex/regex-matcher.cpp:47-48] RegexMatcher::match (the loop) *)
Fixpoint push_loop (name : Name.t) (self i len : nat) : P objects unit :=
  match len with
  | O => mret tt
  | S len => c ← getM name i; _ ← pushResult self c; push_loop name self (S i) len
  end.

(** [ndn-cxx/util/regex/regex-matcher.cpp:41-53] RegexMatcher::match *)
Definition RegexMatcher_match (name : Name.t) (self : nat) (ms : list (nat -> nat -> P objects bool))
    (offset len : nat) : P objects bool :=
  _ ← clearResult self;
  b ← recursiveMatch ms offset len;
  if b : bool then _ ← push_loop name self offset len; mret true else mret false.

(** [ndn-cxx/util/regex/regex-repeat-matcher.cpp:144-170] RegexRepeatMatcher::recursiveMatch
    [fuel] bounds the depth of the recursion. *)
Fixpoint repeat_recursiveMatch (fuel : nat) (matcher : nat -> nat -> P objects bool) (m_repeatMin m_repeatMax : Z)
    (repeat : Z) (offset len : nat) : P objects bool :=
  match fuel with
  | O => undefinedP
  | S fuel =>
      if (0 <? len)%nat && (m_repeatMax <=? repeat) then mret false
      else if (len =? 0)%nat && (repeat <? m_repeatMin) then mret false
      else if (len =? 0)%nat && (m_repeatMin <=? repeat) then mret true
      else try_loop matcher (repeat_recursiveMatch fuel matcher m_repeatMin m_repeatMax (repeat + 1)) offset len len
  end.

(** [ndn-cxx/util/regex/regex-repeat-matcher.cpp:125-142] RegexRepeatMatcher::match *)
Definition repeat_match (fuel : nat) (name : Name.t) (self : nat) (matcher : nat -> nat -> P objects bool)
    (m_repeatMin m_repeatMax : Z) (offset len : nat) : P objects bool :=
  _ ← clearResult self;
  if (m_repeatMin =? 0) && (len =? 0)%nat then mret true
  else
    b ← repeat_recursiveMatch fuel matcher m_repeatMin m_repeatMax 0 offset len;
    if b : bool then _ ← push_loop name self offset len; mret true else mret false.

(** [ndn-cxx/util/regex/regex-matcher.hpp:54-55] RegexMatcher::match (the virtual call)
    Pattern lists and groups inherit it, the others override it. *)
Fixpoint match_ (env : option bytes) (fuel : nat) (name : Name.t) (m : matcher) : nat -> nat -> P objects bool :=
  match m with
  | RegexPatternListMatcher self _ ms => RegexMatcher_match name self (map (match_ env fuel name) ms)
  | RegexBackrefMatcher self _ ms => RegexMatcher_match name self (map (match_ env fuel name) ms)
  | RegexRepeatMatcher self _ m m_repeatMin m_repeatMax =>
      repeat_match fuel name self (match_ env fuel name m) m_repeatMin m_repeatMax
  | RegexComponentSetMatcher self _ m_isInclusion cs => set_match env name self m_isInclusion cs
  end.

(** ** Compilation *)

(** *** Repeat matcher *)

Definition MAX_REPETITIONS : Z := UINT64_MAX.

(** [ndn-cxx/util/regex/regex-repeat-matcher.cpp:93] find_first_of(',') on a quantifier
    The parts before and behind the first comma. *)
Definition split_comma (s : bytes) : option (bytes * bytes) := Component.split_at (chr ",") s.

(** Whether [s] is [[0-9]+]. *)
Definition is_number (s : bytes) : bool := negb (bool_decide (s = [])) && forallb isDigit s.

(** [std::stoul] under [catch (const std::logic_error&)], which
    [std::invalid_argument] and [std::out_of_range] are. *)
Definition stoul_or_error (s : bytes) : result Z :=
  match stoull s with
  | Ok n => Ok n
  | Throw _ => Throw (error "Invalid number of repetitions")
  end.

(** [ndn-cxx/util/regex/regex-repeat-matcher.cpp:88-121] RegexRepeatMatcher::parseRepetition (braces)
    The four [std::regex_match] calls with fixed patterns, on the text between
    the braces. [std::stoul] stops at the first character that is not a digit. *)
Definition parseBraces (repeatStruct : bytes) : result (Z * Z) :=
  let body := take (length repeatStruct - 2) (drop 1 repeatStruct) in
  let braces := bool_decide (head repeatStruct = Some (chr "{")) && bool_decide (list.last repeatStruct = Some (chr "}")) in
  if negb braces then Throw (error "Invalid quantifier")
  else
    match split_comma body with
    | Some (lo, hi) =>
        if is_number lo && is_number hi then
          m_repeatMin ← stoul_or_error lo;
          m_repeatMax ← stoul_or_error hi;
          if m_repeatMax <? m_repeatMin then Throw (error "Invalid number of repetitions")
          else Ok (m_repeatMin, m_repeatMax)
        else if bool_decide (lo = []) && is_number hi then
          m_repeatMax ← stoul_or_error hi; Ok (0, m_repeatMax)
        else if is_number lo && bool_decide (hi = []) then
          m_repeatMin ← stoul_or_error lo; Ok (m_repeatMin, MAX_REPETITIONS)
        else Throw (error "Invalid quantifier")
    | None =>
        if is_number body then m_repeatMin ← stoul_or_error body; Ok (m_repeatMin, m_repeatMin)
        else Throw (error "Invalid quantifier")
    end.

(** [ndn-cxx/util/regex/regex-repeat-matcher.cpp:59-123] RegexRepeatMatcher::parseRepetition
    [quantifier] is [m_expr] from [m_indicator] on. *)
Definition parseRepetition (quantifier : bytes) : result (Z * Z) :=
  match quantifier with
  | [] => Ok (1, 1)
  | [c] =>
      if bool_decide (c = chr "?") then Ok (0, 1)
      else if bool_decide (c = chr "+") then Ok (1, MAX_REPETITIONS)
      else if bool_decide (c = chr "*") then Ok (0, MAX_REPETITIONS)
      else Throw (error "Unrecognized quantifier")
  | _ => parseBraces quantifier
  end.

Section compile.
(** [make_shared<RegexPatternListMatcher>(expr, m_backrefManager)], which
    groups call recursively. *)
Variable newPatternListMatcher : bytes -> P objects matcher.

(** [ndn-cxx/util/regex/regex-backref-matcher.cpp:35-50] RegexBackrefMatcher::compile *)
Definition backref_compile (m_expr : bytes) : P objects (list matcher) :=
  if len m_expr <? 2 then throwP (error "Invalid capture group syntax")
  else if bool_decide (head m_expr = Some (chr "(")) && bool_decide (list.last m_expr = Some (chr ")")) then
    m ← newPatternListMatcher (take (length m_expr - 2) (drop 1 m_expr)); mret [m]
  else throwP (error "Invalid capture group syntax").

(** [ndn-cxx/util/regex/regex-pattern-list-matcher.cpp:66-70] RegexBackrefMatcher, registered and compiled
    Also lines 45-49 of [regex-repeat-matcher.cpp]. *)
Definition newBackrefMatcher (expr : bytes) : P objects matcher :=
  self ← RegexMatcher_;
  _ ← pushRef self;
  ms ← backref_compile expr;
  mret (RegexBackrefMatcher self expr ms).

(** [ndn-cxx/util/regex/regex-repeat-matcher.cpp:32-57] RegexRepeatMatcher::RegexRepeatMatcher and compile
    [pattern] is [m_expr] up to [m_indicator], [quantifier] the rest. *)
Definition newRepeatMatcher (pattern quantifier : bytes) : P objects matcher :=
  self ← RegexMatcher_;
  m ← (if bool_decide (head (pattern ++ quantifier) = Some (chr "(")) then newBackrefMatcher pattern
       else newComponentSetMatcher pattern);
  r ← liftP (parseRepetition quantifier);
  let '(m_repeatMin, m_repeatMax) := r : Z * Z in
  mret (RegexRepeatMatcher self (pattern ++ quantifier) m m_repeatMin m_repeatMax).

(** [ndn-cxx/util/regex/regex-pattern-list-matcher.cpp:104-124] RegexPatternListMatcher::extractSubPattern
    [depth] is [lcount - rcount]; the result is what was read, with the closing
    character, and what follows it. *)
Fixpoint extractSubPattern (left right : byte) (depth : nat) (rest : bytes) : result (bytes * bytes) :=
  match depth with
  | O => Ok ([], rest)
  | S depth' =>
      match rest with
      | [] => Throw (error "Parenthesis mismatch")
      | c :: rest =>
          let depth := if bool_decide (c = left) then S depth else if bool_decide (c = right) then depth' else depth in
          '(sub, next) ← extractSubPattern left right depth rest;
          Ok (c :: sub, next)
      end
  end.

(** [ndn-cxx/util/regex/regex-pattern-list-matcher.cpp:139-143] RegexPatternListMatcher::extractRepetition (the loop) *)
Fixpoint brace_loop (rest : bytes) : result (bytes * bytes) :=
  match rest with
  | [] => Throw (error "Missing closing brace")
  | c :: rest =>
      if bool_decide (c = chr "}") then Ok ([c], rest)
      else '(q, next) ← brace_loop rest; Ok (c :: q, next)
  end.

(** [ndn-cxx/util/regex/regex-pattern-list-matcher.cpp:126-152] RegexPatternListMatcher::extractRepetition
    The quantifier and what follows it. *)
Definition extractRepetition (rest : bytes) : result (bytes * bytes) :=
  match rest with
  | [] => Ok ([], [])
  | c :: next =>
      if bool_decide (c ∈ [chr "+"; chr "?"; chr "*"]) then Ok ([c], next)
      else if bool_decide (c = chr "{") then brace_loop rest
      else Ok ([], rest)
  end.

(** [ndn-cxx/util/regex/regex-pattern-list-matcher.cpp:52-102] RegexPatternListMatcher::extractPattern
    The sub-matcher and the position behind its expression. *)
Definition extractPattern (rest : bytes) : P objects (matcher * bytes) :=
  match rest with
  | [] => throwP (error "Unexpected character ")
  | c :: rest =>
      if bool_decide (c = chr "(") then
        r ← liftP (extractSubPattern (chr "(") (chr ")") 1 rest);
        let '(sub, next) := r : bytes * bytes in
        r ← liftP (extractRepetition next);
        let '(q, next) := r : bytes * bytes in
        m ← (if bool_decide (q = []) then newBackrefMatcher (c :: sub) else newRepeatMatcher (c :: sub) q);
        mret (m, next)
      else if bool_decide (c = chr "<") then
        r ← liftP (extractSubPattern (chr "<") (chr ">") 1 rest);
        let '(sub, next) := r : bytes * bytes in
        r ← liftP (extractRepetition next);
        let '(q, next) := r : bytes * bytes in
        m ← newRepeatMatcher (c :: sub) q;
        mret (m, next)
      else if bool_decide (c = chr "[") then
        r ← liftP (extractSubPattern (chr "[") (chr "]") 1 rest);
        let '(sub, next) := r : bytes * bytes in
        r ← liftP (extractRepetition next);
        let '(q, next) := r : bytes * bytes in
        m ← newRepeatMatcher (c :: sub) q;
        mret (m, next)
      else throwP (error "Unexpected character ")
  end.

(** [ndn-cxx/util/regex/regex-pattern-list-matcher.cpp:37-50] RegexPatternListMatcher::compile *)
Fixpoint patterns_loop (fuel : nat) (rest : bytes) : P objects (list matcher) :=
  match rest with
  | [] => mret []
  | _ =>
      match fuel with
      | O => undefinedP
      | S fuel =>
          r ← extractPattern rest;
          let '(m, next) := r : matcher * bytes in
          ms ← patterns_loop fuel next;
          mret (m :: ms)
      end
  end.

End compile.

(** [ndn-cxx/util/regex/regex-pattern-list-matcher.cpp:30-35] RegexPatternListMatcher::RegexPatternListMatcher
    [fuel] bounds the depth of nested groups. *)
Fixpoint newPatternListMatcher (fuel : nat) (expr : bytes) : P objects matcher :=
  match fuel with
  | O => undefinedP
  | S fuel =>
      self ← RegexMatcher_;
      ms ← patterns_loop (newPatternListMatcher fuel) (length expr) expr;
      mret (RegexPatternListMatcher self expr ms)
  end.

(** ** The top matcher *)

(** [ndn-cxx/util/regex/regex-top-matcher.hpp:62-68] RegexTopMatcher
    Each pattern list with the objects of its tree. *)
Record top_matcher := mkTopMatcher {
  m_expr : bytes;
  m_expand : bytes;
  m_primaryMatcher : matcher;
  m_primary : objects;
  m_secondaryMatcher : option matcher;
  m_secondary : objects;
  m_isSecondaryUsed : bool;
  m_matchResult : list Component.t;
}.

Definition wildcard : bytes := str "<.*>*".

(** [ndn-cxx/util/regex/regex-top-matcher.cpp:51-54] RegexTopMatcher::compile (the end anchor)
    The last character of an empty expression is undefined. *)
Definition end_anchor (expr : bytes) : option bytes :=
  match list.last expr with
  | None => None
  | Some c => Some (if bool_decide (c = chr "$") then take (length expr - 1) expr else expr ++ wildcard)
  end.

(** A tree compiled from [expr] with a manager of its own. *)
Definition compileTree (expr : bytes) : option (result (matcher * objects)) :=
  match newPatternListMatcher (S (length expr)) expr noObjects with
  | Some (s, Ok m) => Some (Ok (m, s))
  | Some (_, Throw e) => Some (Throw e)
  | None => None
  end.

(** [ndn-cxx/util/regex/regex-top-matcher.cpp:33-66] RegexTopMatcher::RegexTopMatcher and compile *)
Definition newTopMatcher (expr expand : bytes) : option (result top_matcher) :=
  match end_anchor expr with
  | None => None
  | Some e =>
      if bool_decide (head e = Some (chr "^")) then
        match compileTree (drop 1 e) with
        | Some (Ok (m, s)) => Some (Ok (mkTopMatcher expr expand m s None noObjects false []))
        | Some (Throw e) => Some (Throw e)
        | None => None
        end
      else
        match compileTree (wildcard ++ e) with
        | Some (Ok (m2, s2)) =>
            match compileTree e with
            | Some (Ok (m, s)) => Some (Ok (mkTopMatcher expr expand m s (Some m2) s2 false []))
            | Some (Throw e) => Some (Throw e)
            | None => None
            end
        | Some (Throw e) => Some (Throw e)
        | None => None
        end
  end.

(** The number of the object of a matcher. *)
Definition selfOf (m : matcher) : nat :=
  match m with
  | RegexPatternListMatcher i _ _ | RegexBackrefMatcher i _ _ | RegexRepeatMatcher i _ _ _ _
  | RegexComponentSetMatcher i _ _ _ => i
  end.

(** [ndn-cxx/util/regex/regex-top-matcher.cpp:68-88] RegexTopMatcher::match *)
Definition top_match (env : option bytes) (fuel : nat) (name : Name.t) (t : top_matcher) : option (top_matcher * result bool) :=
  let size := Z.to_nat (Name.size name) in
  let set s s2 used r := mkTopMatcher (m_expr t) (m_expand t) (m_primaryMatcher t) s (m_secondaryMatcher t) s2 used r in
  match match_ env fuel name (m_primaryMatcher t) 0 size (m_primary t) with
  | None => None
  | Some (s, Throw e) => Some (set s (m_secondary t) false [], Throw e)
  | Some (s, Ok true) => Some (set s (m_secondary t) false (getMatchResult (selfOf (m_primaryMatcher t)) s), Ok true)
  | Some (s, Ok false) =>
      match m_secondaryMatcher t with
      | None => Some (set s (m_secondary t) false [], Ok false)
      | Some m2 =>
          match match_ env fuel name m2 0 size (m_secondary t) with
          | None => None
          | Some (s2, Throw e) => Some (set s s2 false [], Throw e)
          | Some (s2, Ok true) => Some (set s s2 true (getMatchResult (selfOf m2) s2), Ok true)
          | Some (s2, Ok false) => Some (set s s2 false [], Ok false)
          end
      end
  end.

(** *** Expansion *)

Definition wrongFormat : exn := error "Wrong format of expand string".

(** [ndn-cxx/util/regex/regex-top-matcher.cpp:143-147] RegexTopMatcher::getItemFromExpand (digits) *)
Fixpoint digits_loop (rest : bytes) : bytes * bytes :=
  match rest with
  | [] => ([], [])
  | c :: rest' =>
      if isDigit c then let '(d, next) := digits_loop rest' in (c :: d, next) else ([], rest)
  end.

(** [ndn-cxx/util/regex/regex-top-matcher.cpp:160-168] RegexTopMatcher::getItemFromExpand (angle brackets)
    [depth] is [left - right]; the position must stay inside the string after
    every character. *)
Fixpoint bracket_loop (depth : nat) (rest : bytes) : result (bytes * bytes) :=
  match depth with
  | O => Ok ([], rest)
  | S depth' =>
      match rest with
      | [] => Throw wrongFormat
      | c :: rest =>
          let depth := if bool_decide (c = chr "<") then S depth else if bool_decide (c = chr ">") then depth' else depth in
          if bool_decide (rest = []) then Throw wrongFormat
          else '(sub, next) ← bracket_loop depth rest; Ok (c :: sub, next)
      end
  end.

(** [ndn-cxx/util/regex/regex-top-matcher.cpp:133-173] RegexTopMatcher::getItemFromExpand
    The item and the position behind it. *)
Definition getItemFromExpand (rest : bytes) : result (bytes * bytes) :=
  match rest with
  | [] => Throw wrongFormat
  | c :: rest =>
      if bool_decide (c = chr "\") then
        let '(d, next) := digits_loop rest in
        if bool_decide (d = []) then Throw wrongFormat else Ok (c :: d, next)
      else if bool_decide (c = chr "<") then
        if bool_decide (rest = []) then Throw wrongFormat
        else '(sub, next) ← bracket_loop 1 rest; Ok (c :: sub, next)
      else Throw wrongFormat
  end.

(** [boost::lexical_cast<size_t>] of a string of digits. *)
Definition lexical_cast (s : bytes) : result Z :=
  match stoull s with
  | Ok n => Ok n
  | Throw _ => Throw (BadCast "bad lexical cast")
  end.

(** [ndn-cxx/util/regex/regex-top-matcher.cpp:111-127] RegexTopMatcher::expand (one item) *)
Definition expand_item (t : top_matcher) (item : bytes) (result : Name.t) : Prelude.result Name.t :=
  let backrefManager := if m_isSecondaryUsed t then m_secondary t else m_primary t in
  if bool_decide (head item = Some (chr "<")) then
    part ← Name.fromUri (take (length item - 2) (drop 1 item));
    Name.appendName part result
  else if bool_decide (head item = Some (chr "\")) then
    index ← lexical_cast (drop 1 item);
    if index =? 0 then Ok (foldl (fun n c => Name.append c n) result (m_matchResult t))
    else if index <=? size backrefManager then
      match getBackref (index - 1) backrefManager with
      | Some m => Ok (foldl (fun n c => Name.append c n) result (getMatchResult m backrefManager))
      | None => Throw (error "Exceeded the range of back reference")
      end
    else Throw (error "Exceeded the range of back reference")
  else Ok result.

(** [ndn-cxx/util/regex/regex-top-matcher.cpp:109-128] RegexTopMatcher::expand (the loop)
    Every item has at least one character. *)
Fixpoint expand_loop (fuel : nat) (t : top_matcher) (rest : bytes) (result : Name.t) : Prelude.result Name.t :=
  match rest, fuel with
  | [], _ | _, O => Ok result
  | _, S fuel =>
      '(item, next) ← getItemFromExpand rest;
      result ← expand_item t item result;
      expand_loop fuel t next result
  end.

(** [ndn-cxx/util/regex/regex-top-matcher.cpp:96-131] RegexTopMatcher::expand *)
Definition expand (t : top_matcher) (expandStr : bytes) : Prelude.result Name.t :=
  let e := if negb (bool_decide (expandStr = [])) then expandStr else m_expand t in
  expand_loop (length e) t e Name.empty.

(** *** Expressions from names *)

(** [ndn-cxx/util/regex/regex-top-matcher.cpp:198-213] RegexTopMatcher::convertSpecialChar (the cases) *)
Definition isSpecialChar (c : byte) : bool :=
  bool_decide (c ∈ str ".[{}()\*+?|^$").

(** [ndn-cxx/util/regex/regex-top-matcher.cpp:191-217] RegexTopMatcher::convertSpecialChar *)
Fixpoint convertSpecialChar (s : bytes) : bytes :=
  match s with
  | [] => []
  | c :: s => (if isSpecialChar c then [chr "\"; c] else [c]) ++ convertSpecialChar s
  end.

(** [ndn-cxx/util/regex/regex-top-matcher.cpp:180-184] RegexTopMatcher::fromName (the loop) *)
Fixpoint name_loop (env : option bytes) (l : list Component.t) : Prelude.result bytes :=
  match l with
  | [] => Ok []
  | c :: l =>
      u ← Component.toUri env c name.ENV_OR_ALTERNATE;
      rest ← name_loop env l;
      Ok (str "<" ++ convertSpecialChar u ++ str ">" ++ rest)
  end.

(** [ndn-cxx/util/regex/regex-top-matcher.cpp:175-189] RegexTopMatcher::fromName *)
Definition fromName (env : option bytes) (name : Name.t) (hasAnchor : bool) : option (Prelude.result top_matcher) :=
  match name_loop env (Name.components name) with
  | Ok body => newTopMatcher (str "^" ++ body ++ (if hasAnchor then str "$" else [])) []
  | Throw e => Some (Throw e)
  end.

End matchers.
End regex.
