(* ===== verification/NameRegexFacts.v ===== *)
(** * NDN regular expressions: what is proved

    The language of a matcher and the reading of a name it records, both by
    recursion on the tree; that compiling returns well-formed trees, does not
    depend on what was compiled before, and is compositional; that matching
    decides the language; and what anchors, groups and expressions made from
    names mean. *)

From Stdlib Require Import Init.Byte.
From stdpp Require Import list.
From S2P Require Import Prelude Tlv Encoding Blocks BlockHelpers Text NameComponents Names NameRegex.

Module RegexFacts.
Import regex.

(** The characters of the URI of a component. *)
Definition component_char (c : byte) : bool := TextFacts.uri_char c || bool_decide (c = chr "=").

(** What is documented of the syntax of patterns, on such characters: [.*]
    matches every string, and a string with its special characters escaped
    matches itself only. *)
Class StdRegexSyntax `(StdRegex) := {
  wildcard_regex : exists r, regex_assign (str ".*") = Ok r /\ mark_count r = 0%nat /\
    forall u, forallb component_char u = true -> is_Some (regex_match r u);
  literal_regex s : forallb component_char s = true -> exists r, regex_assign (convertSpecialChar s) = Ok r /\
    mark_count r = 0%nat /\ forall u, forallb component_char u = true -> is_Some (regex_match r u) <-> u = s;
}.

(** *** Languages

    The specification of a matcher: the sequences of components it stands
    for. *)

Section languages.
Context {A : Type}.
Implicit Types (L : list A -> Prop) (w : list A).

Fixpoint seq_language (Ls : list (list A -> Prop)) w : Prop :=
  match Ls with
  | [] => w = []
  | L :: Ls => exists u v, w = u ++ v /\ L u /\ seq_language Ls v
  end.

(** [n] repetitions. *)
Definition power L (n : nat) : list A -> Prop := seq_language (replicate n L).

Lemma seq_language_app Ls1 Ls2 w :
  seq_language (Ls1 ++ Ls2) w <-> exists u v, w = u ++ v /\ seq_language Ls1 u /\ seq_language Ls2 v.
Proof.
  revert w. induction Ls1 as [|L Ls1 IH]; intros w; simpl.
  - split; [intros ?; by exists [], w|]. intros (u & v & -> & -> & ?). done.
  - split.
    + intros (u & v & -> & Hu & (a & b & -> & Ha & Hb)%IH).
      exists (u ++ a), b. split; [by rewrite app_assoc|]. split; [by exists u, a|done].
    + intros (u & v & -> & (a & b & -> & Ha & Hb) & Hv).
      exists a, (b ++ v). split; [by rewrite <- app_assoc|]. split; [done|]. apply IH. by exists b, v.
Qed.

Lemma power_S L n w : power L (S n) w <-> exists u v, w = u ++ v /\ L u /\ power L n v.
Proof. done. Qed.

Lemma power_snoc L n u v : power L n u -> L v -> power L (S n) (u ++ v).
Proof.
  intros Hu Hv. unfold power. replace (S n) with (n + 1)%nat by lia. rewrite replicate_add.
  apply seq_language_app. exists u, v. split; [done|]. split; [done|]. exists v, []. by rewrite app_nil_r.
Qed.

Lemma power_add L n m w : power L (n + m) w <-> exists u v, w = u ++ v /\ power L n u /\ power L m v.
Proof. unfold power. rewrite replicate_add. apply seq_language_app. Qed.

(** Repetitions of a language without the empty sequence have at least as many
    elements as there are repetitions. *)
Lemma power_length L n w : ~ L [] -> power L n w -> (n <= length w)%nat.
Proof.
  intros HL. revert w. induction n as [|n IH]; intros w; [lia|]. rewrite power_S.
  intros (u & v & -> & Hu & Hv%IH). rewrite length_app. destruct u; [done|]. simpl. lia.
Qed.

Lemma seq_language_equiv (Ls Ks : list (list A -> Prop)) w :
  Forall2 (fun L K => forall w, L w <-> K w) Ls Ks -> seq_language Ls w <-> seq_language Ks w.
Proof.
  intros HF. revert w. induction HF as [|L K Ls Ks HLK _ IH]; intros w; [done|]. simpl.
  split; intros (u & v & -> & Hu & Hv); exists u, v; (split; [done|]); (split; [by apply HLK|by apply IH]).
Qed.

End languages.

(** *** Ranges of components *)

Definition slice (name : Name.t) (offset len : nat) : list Component.t :=
  take len (drop offset (Name.components name)).

Definition in_range (name : Name.t) (offset len : nat) : Prop :=
  (offset + len <= length (Name.components name))%nat.

Lemma length_slice name o l : in_range name o l -> length (slice name o l) = l.
Proof. unfold in_range, slice. rewrite length_take, length_drop. lia. Qed.

Lemma slice_split name o l k : (k <= l)%nat -> slice name o l = slice name o k ++ slice name (o + k) (l - k).
Proof.
  intros Hk. unfold slice. rewrite <- (take_drop k (take l _)). rewrite take_take, Nat.min_l by done. f_equal.
  rewrite skipn_firstn_comm, drop_drop. f_equal; f_equal; lia.
Qed.

Lemma slice_app name o l u v : in_range name o l -> slice name o l = u ++ v ->
  (length u <= l)%nat /\ u = slice name o (length u) /\ v = slice name (o + length u) (l - length u).
Proof.
  intros Hr H. pose proof (length_slice _ _ _ Hr) as Hl. rewrite H, length_app in Hl.
  rewrite (slice_split _ _ _ (length u)) in H by lia.
  apply app_inj_1 in H as [H1 H2]; [|unfold in_range in *; rewrite length_slice; unfold in_range; lia].
  split; [lia|]. by rewrite H1, H2.
Qed.

Lemma slice_S name o l c : Name.components name !! o = Some c -> slice name o (S l) = c :: slice name (S o) l.
Proof. intros H. unfold slice. by rewrite (NameFacts.drop_lookup _ _ _ H). Qed.

Lemma slice_full name : slice name 0 (Z.to_nat (Name.size name)) = Name.components name.
Proof. unfold slice. rewrite NameFacts.size_len, to_nat_len, drop_0. by rewrite firstn_all. Qed.

Lemma in_range_lookup name o l : in_range name o (S l) -> exists c, Name.components name !! o = Some c.
Proof. intros H. apply lookup_lt_is_Some. unfold in_range in H. lia. Qed.

Lemma getM_in name o c s : Name.components name !! o = Some c -> getM name o s = Some (s, Ok c).
Proof. intros H. unfold getM. by rewrite NameFacts.get_nat, H. Qed.

Section facts.
Context `{SR : StdRegex} {SRL : StdRegexLaws SR} (env : option bytes).
Implicit Types (m : matcher) (c : Component.t) (w : list Component.t) (s : objects) (name : Name.t).

(** Induction on matchers, with the hypothesis for every sub-matcher. *)
Lemma matcher_list_ind (Q : matcher -> Prop) :
  (forall i e ms, Forall Q ms -> Q (RegexPatternListMatcher i e ms)) ->
  (forall i e ms, Forall Q ms -> Q (RegexBackrefMatcher i e ms)) ->
  (forall i e m lo hi, Q m -> Q (RegexRepeatMatcher i e m lo hi)) ->
  (forall i e b cs, Q (RegexComponentSetMatcher i e b cs)) ->
  forall m, Q m.
Proof.
  intros H1 H2 H3 H4.
  assert (Hl : (forall m, Q m) -> forall ms, Forall Q ms) by (intros ? ms; induction ms; constructor; auto).
  fix IH 1. intros [i e ms|i e ms|i e m lo hi|i e b cs]; [apply H1|apply H2|apply H3, IH|apply H4].
  - induction ms as [|m ms IHm]; constructor; [apply IH|apply IHm].
  - induction ms as [|m ms IHm]; constructor; [apply IH|apply IHm].
Qed.

Definition uri (c : Component.t) : bytes :=
  match Component.toUri env c name.ENV_OR_ALTERNATE with Ok u => u | Throw _ => [] end.

(** The URI of a component can be printed and its length fits a [size_t]. *)
Definition uri_ok (c : Component.t) : Prop :=
  Component.toUri env c name.ENV_OR_ALTERNATE = Ok (uri c) /\ is_u64 (len (uri c)).

(** A component matcher accepts every component if it has no expression, else
    those whose URI matches. *)
Definition accepts (cm : component_matcher) (c : Component.t) : bool :=
  bool_decide (c_expr cm = []) || bool_decide (is_Some (regex_match (m_componentRegex cm) (uri c))).

Fixpoint language (m : matcher) : list Component.t -> Prop :=
  match m with
  | RegexPatternListMatcher _ _ ms | RegexBackrefMatcher _ _ ms => seq_language (map language ms)
  | RegexRepeatMatcher _ _ m lo hi => fun w => exists n, lo <= Z.of_nat n <= hi /\ power (language m) n w
  | RegexComponentSetMatcher _ _ incl cs => fun w => exists c, w = [c] /\ existsb (fun cm => accepts cm c) cs = incl
  end.

(** Whether a matcher accepts the empty sequence. *)
Fixpoint nullable (m : matcher) : bool :=
  match m with
  | RegexPatternListMatcher _ _ ms | RegexBackrefMatcher _ _ ms => forallb nullable ms
  | RegexRepeatMatcher _ _ m lo _ => (lo =? 0) || nullable m
  | RegexComponentSetMatcher _ _ _ _ => false
  end.

(** Whether no repeated group accepts the empty sequence. *)
Fixpoint progresses (m : matcher) : bool :=
  match m with
  | RegexPatternListMatcher _ _ ms | RegexBackrefMatcher _ _ ms => forallb progresses ms
  | RegexRepeatMatcher _ _ m _ _ => negb (nullable m) && progresses m
  | RegexComponentSetMatcher _ _ _ _ => true
  end.

(** What every compiled matcher satisfies. *)
Definition component_wf (cm : component_matcher) : Prop :=
  m_isExactMatch cm = true /\ length (m_pseudoMatchers cm) = S (mark_count (m_componentRegex cm)).

Fixpoint wf (m : matcher) : Prop :=
  match m with
  | RegexPatternListMatcher _ _ ms | RegexBackrefMatcher _ _ ms => foldr (fun m P => wf m /\ P) True ms
  | RegexRepeatMatcher _ _ m lo hi => 0 <= lo <= hi /\ wf m
  | RegexComponentSetMatcher _ _ _ cs => Forall component_wf cs
  end.

Lemma wf_list ms : foldr (fun m P => wf m /\ P) True ms <-> Forall wf ms.
Proof. induction ms; simpl; [done|]. by rewrite Forall_cons_iff, IHms. Qed.

Lemma language_nullable m : wf m -> language m [] -> nullable m = true.
Proof.
  induction m as [i e ms IH|i e ms IH|i e m lo hi IH|i e b cs] using matcher_list_ind; simpl.
  1,2: induction IH as [|m ms Hm _ IHms]; simpl; [done|];
    intros [Hw Hws] (u & v & Huv & Hu & Hv); symmetry in Huv; apply app_eq_nil in Huv as [-> ->];
    by rewrite Hm, IHms.
  - intros [Hlo Hw] (n & Hn & Hp). destruct n as [|n]; [apply orb_true_iff; left; lia|].
    apply power_S in Hp as (u & v & Huv & Hu & _). symmetry in Huv. apply app_eq_nil in Huv as [-> _].
    by rewrite IH, orb_true_r.
  - by intros _ (c & ? & _).
Qed.

(** *** Calls *)

Lemma bind_some {A B} (f : P objects A) (g : A -> P objects B) s s' a :
  f s = Some (s', Ok a) -> (f ≫= g) s = g a s'.
Proof. intros Hf. unfold mbind, P_bind. by rewrite Hf. Qed.

(** The result of a call that returned comes from the result of its first
    part. *)
Lemma bind_inv {A B} (f : P objects A) (g : A -> P objects B) s s' r :
  (f ≫= g) s = Some (s', r) ->
  (exists s1 a, f s = Some (s1, Ok a) /\ g a s1 = Some (s', r)) \/
  (exists e, f s = Some (s', Throw e) /\ r = Throw e).
Proof.
  unfold mbind, P_bind. destruct (f s) as [[s1 [a|e]]|]; intros Hr; simplify_eq; eauto 10.
Qed.

(** [f] decides membership of the range in [L], and returns. *)
Definition decides name (f : nat -> nat -> P objects bool) (L : list Component.t -> Prop) (N : nat) : Prop :=
  forall o l s, in_range name o l -> (l <= N)%nat ->
  exists s' b, f o l s = Some (s', Ok b) /\ (b = true <-> L (slice name o l)).

Lemma try_next_total (g : P objects bool) (b1 : bool) s (A B : Prop) : (b1 = true <-> A) ->
  (A -> exists s' b, g s = Some (s', Ok b) /\ (b = true <-> B)) ->
  exists s' b, (if b1 then g else mret false) s = Some (s', Ok b) /\ (b = true <-> A /\ B).
Proof.
  intros HA Hg. destruct b1.
  - destruct Hg as (s' & b & E & HB); [by apply HA|]. exists s', b. split; [done|]. rewrite HB. tauto.
  - exists s, false. split; [done|]. rewrite <- HA. split; [done|by intros [? _]].
Qed.

Lemma try_loop_total f g o l t s (A B : nat -> Prop) :
  (forall k s, (k <= t)%nat -> exists s' b, f o k s = Some (s', Ok b) /\ (b = true <-> A k)) ->
  (forall k s, (k <= t)%nat -> A k -> exists s' b, g (o + k)%nat (l - k)%nat s = Some (s', Ok b) /\ (b = true <-> B k)) ->
  exists s' b, try_loop f g o l t s = Some (s', Ok b) /\ (b = true <-> exists k, (k <= t)%nat /\ A k /\ B k).
Proof.
  intros Hf Hg. revert s. induction t as [|t IH]; intros s.
  all: destruct (Hf _ s (le_n _)) as (s1 & b1 & E1 & HA); cbn [try_loop]; rewrite (bind_some _ _ _ _ _ E1).
  all: destruct (try_next_total _ b1 s1 _ _ HA (Hg _ s1 (le_n _))) as (s2 & b2 & E2 & HB);
    rewrite (bind_some _ _ _ _ _ E2); destruct b2.
  - eexists _, _. split; [done|]. split; [intros _|done]. exists 0%nat. split; [lia|]. by apply HB.
  - eexists _, _. split; [done|]. split; [done|]. intros (k & Hk & HAB). replace k with 0%nat in HAB by lia. by apply HB.
  - eexists _, _. split; [done|]. split; [intros _|done]. exists (S t). split; [lia|]. by apply HB.
  - destruct (IH ltac:(intros; apply Hf; lia) ltac:(intros; apply Hg; auto; lia) s2) as (s3 & b3 & E3 & Hb3).
    exists s3, b3. split; [done|]. rewrite Hb3. split; intros (k & Hk & HAB); exists k; (split; [|done]); [lia|].
    destruct (decide (k = S t)) as [->|]; [|lia]. exfalso. apply HB in HAB. done.
Qed.

(** Splitting a range into a first and a second part. *)
Lemma try_loop_decides name f g o l s (L K : list Component.t -> Prop) N : in_range name o l -> (l <= N)%nat ->
  decides name f L N ->
  (forall k s, (k <= l)%nat -> L (slice name o k) -> exists s' b, g (o + k)%nat (l - k)%nat s = Some (s', Ok b) /\
    (b = true <-> K (slice name (o + k) (l - k)))) ->
  exists s' b, try_loop f g o l l s = Some (s', Ok b) /\
    (b = true <-> exists u v, slice name o l = u ++ v /\ L u /\ K v).
Proof.
  intros Hr HN Hf Hg.
  destruct (try_loop_total f g o l l s (fun k => L (slice name o k)) (fun k => K (slice name (o + k) (l - k)))) as (s' & b & E & Hb).
  - intros k s0 Hk. apply Hf; [unfold in_range in *; lia|lia].
  - intros k s0 Hk HA. by apply Hg.
  - exists s', b. split; [done|]. rewrite Hb. split.
    + intros (k & Hk & HA & HB). eexists _, _. split; [by apply slice_split|done].
    + intros (u & v & E2 & Hu & Hv). apply slice_app in E2 as (Hk & Eu & Ev); [|done].
      exists (length u). by rewrite <- Eu, <- Ev.
Qed.

Lemma recursiveMatch_decides name fs Ls N :
  Forall2 (fun f L => decides name f L N) fs Ls -> decides name (recursiveMatch fs) (seq_language Ls) N.
Proof.
  induction 1 as [|f L fs Ls Hf _ IH]; intros o l s Hr HN; simpl.
  - exists s, (l =? 0)%nat. split; [done|]. rewrite Nat.eqb_eq. split.
    + by intros ->.
    + intros E. apply (f_equal length) in E. by rewrite length_slice in E.
  - apply (try_loop_decides name _ _ _ _ _ L _ N); auto. intros k s0 Hk _. apply IH; [unfold in_range in *; lia|lia].
Qed.

Lemma push_loop_total name i o l s : in_range name o l -> exists s', push_loop name i o l s = Some (s', Ok tt).
Proof.
  revert o s. induction l as [|l IH]; intros o s Hr; [by exists s|]. destruct (in_range_lookup _ _ _ Hr) as [c Hc].
  cbn [push_loop]. rewrite (bind_some _ _ _ _ _ (getM_in _ _ _ s Hc)).
  erewrite bind_some by done. apply IH. unfold in_range in *. lia.
Qed.

(** Recording the range does not change the answer. *)
Lemma decides_recording name i f L N : decides name f L N ->
  decides name (fun o l => b ← f o l; if b : bool then _ ← push_loop name i o l; mret true else mret false) L N.
Proof.
  intros Hf o l s Hr HN. destruct (Hf o l s Hr HN) as (s1 & b & E & Hb). rewrite (bind_some _ _ _ _ _ E).
  destruct b; [|by exists s1, false]. destruct (push_loop_total name i o l s1 Hr) as [s2 E2].
  rewrite (bind_some _ _ _ _ _ E2). by exists s2, true.
Qed.

Lemma decides_clear name i f L N : decides name f L N -> decides name (fun o l => _ ← clearResult i; f o l) L N.
Proof. intros Hf o l s Hr HN. erewrite bind_some by done. by apply Hf. Qed.

Lemma RegexMatcher_match_decides name i fs Ls N :
  Forall2 (fun f L => decides name f L N) fs Ls -> decides name (RegexMatcher_match name i fs) (seq_language Ls) N.
Proof. intros HF. by apply decides_clear, decides_recording, recursiveMatch_decides. Qed.

Lemma repeat_recursiveMatch_decides name f L lo hi N fuel : decides name f L N -> ~ L [] -> 0 <= lo <= hi ->
  forall r o l s, 0 <= r <= hi -> in_range name o l -> (l <= N)%nat -> (l < fuel)%nat ->
  exists s' b, repeat_recursiveMatch fuel f lo hi r o l s = Some (s', Ok b) /\
    (b = true <-> exists n, lo <= r + Z.of_nat n <= hi /\ power L n (slice name o l)).
Proof.
  intros Hf HL Hlo. induction fuel as [|fuel IH]; intros r o l s Hrep Hr HN Hfuel; [lia|]. cbn [repeat_recursiveMatch].
  destruct (decide (l = 0%nat)) as [->|Hl].
  - simpl. assert (Hp : forall n, power L n (slice name o 0) -> n = 0%nat).
    { intros n Hn. apply power_length in Hn; [|done]. rewrite length_slice in Hn by done. lia. }
    destruct (r <? lo) eqn:E; bool_to_prop.
    + eexists _, _. split; [done|]. split; [done|]. intros (n & Hn & Hpn%Hp). lia.
    + replace (lo <=? r) with true by lia. eexists _, _. split; [done|]. split; [intros _|done]. exists 0%nat. split; [lia|done].
  - replace (0 <? l)%nat with true by (symmetry; apply Nat.ltb_lt; lia). replace (l =? 0)%nat with false by (symmetry; apply Nat.eqb_neq; lia).
    assert (Hp : forall n, power L n (slice name o l) -> n <> 0%nat).
    { intros n Hn ->. apply (f_equal length) in Hn. rewrite length_slice in Hn by done. done. }
    simpl. destruct (hi <=? r) eqn:E; bool_to_prop.
    + eexists _, _. split; [done|]. split; [done|]. intros (n & Hn & Hpn%Hp). lia.
    + destruct (try_loop_decides name f (repeat_recursiveMatch fuel f lo hi (r + 1)) o l s L
        (fun w => exists n, lo <= r + 1 + Z.of_nat n <= hi /\ power L n w) N) as (s' & b & E' & Hb); try done.
      * intros k s0 Hk HLk. apply IH; try lia; unfold in_range in *; try lia.
        destruct k; [done|]. lia.
      * exists s', b. split; [done|]. rewrite Hb. split.
        -- intros (u & v & -> & Hu & n & Hn & Hv). exists (S n). split; [lia|]. apply power_S. by exists u, v.
        -- intros (n & Hn & Hpn). pose proof (Hp _ Hpn). destruct n as [|n]; [done|].
           apply power_S in Hpn as (u & v & -> & Hu & Hv). exists u, v. split; [done|]. split; [done|]. exists n. split; [lia|done].
Qed.

Lemma repeat_match_decides name i f L lo hi N fuel : decides name f L N -> ~ L [] -> 0 <= lo <= hi -> (N < fuel)%nat ->
  decides name (repeat_match fuel name i f lo hi) (fun w => exists n, lo <= Z.of_nat n <= hi /\ power L n w) N.
Proof.
  intros Hf HL Hlo Hfuel. apply decides_clear.
  assert (Hd : decides name (repeat_recursiveMatch fuel f lo hi 0) (fun w => exists n, lo <= Z.of_nat n <= hi /\ power L n w) N).
  { intros o l s Hr HN. apply (repeat_recursiveMatch_decides name f L lo hi N); auto; lia. }
  apply (decides_recording name i) in Hd. intros o l s Hr HN.
  destruct ((lo =? 0) && (l =? 0)%nat) eqn:E; [|by apply Hd].
  bool_to_prop. apply Nat.eqb_eq in H0 as ->. eexists _, _. split; [done|]. split; [intros _|done].
  exists 0%nat. split; [lia|done].
Qed.

Lemma setMatchResult_ok p x s : is_u64 (len x) ->
  setMatchResult p x s = pushResult p (Block.of_tlv tlv.GenericNameComponent x) s.
Proof.
  intros Hx. unfold setMatchResult. erewrite bind_some; [done|]. unfold liftP. rewrite ComponentFacts.ofSpan_spec; [done| |done].
  split; [by vm_compute|]. by intros [].
Qed.

Lemma sub_loop_total ps subs s : Forall (fun x => is_u64 (len x)) subs -> exists s', sub_loop ps subs s = Some (s', Ok tt).
Proof.
  revert subs s. induction ps as [|p ps IH]; intros subs s Hs; [by exists s|]. cbn [sub_loop].
  erewrite bind_some by done. erewrite bind_some by (rewrite setMatchResult_ok; [done|]; by destruct Hs).
  apply IH. by destruct Hs.
Qed.

Lemma sub_bounded cm c subs : uri_ok c -> regex_match (m_componentRegex cm) (uri c) = Some subs ->
  Forall (fun x => is_u64 (len x)) subs.
Proof.
  intros [_ Hu] Hm. apply regex_match_bounded in Hm. eapply Forall_impl; [|exact Hm]. intros x Hx. simpl in Hx.
  pose proof (len_nonneg x). unfold is_u64 in *. lia.
Qed.

Lemma component_match_total name cm o c s : component_wf cm -> Name.components name !! o = Some c -> uri_ok c ->
  exists s', component_match env name cm o s = Some (s', Ok (accepts cm c)).
Proof.
  intros [He _] Hc Hu. unfold component_match, accepts. erewrite bind_some by done.
  destruct (decide (c_expr cm = [])) as [E|E].
  - rewrite !bool_decide_eq_true_2 by done. rewrite (bind_some _ _ _ _ _ (getM_in _ _ _ _ Hc)). by eexists.
  - rewrite !(bool_decide_eq_false_2 (c_expr cm = [])), He by done. cbn [negb].
    rewrite (bind_some _ _ _ _ _ (getM_in _ _ _ _ Hc)). erewrite bind_some by (unfold liftP; by rewrite (proj1 Hu)).
    destruct (regex_match _ _) as [subs|] eqn:Hm.
    + destruct (sub_loop_total (tail (m_pseudoMatchers cm)) subs
        (mkObjects (<[c_self cm:=[]]> (m_matchResults s)) (m_backrefs s))) as [s1 E1].
      { by eapply sub_bounded. }
      rewrite (bind_some _ _ _ _ _ E1). by eexists.
    + by eexists.
Qed.

Lemma any_match_total name cs o c s : Forall component_wf cs -> Name.components name !! o = Some c -> uri_ok c ->
  exists s', any_match env name cs o s = Some (s', Ok (existsb (fun cm => accepts cm c) cs)).
Proof.
  intros Hcs Hc Hu. revert s. induction Hcs as [|cm cs Hcm _ IH]; intros s; [by exists s|]. cbn [any_match existsb].
  destruct (component_match_total name cm o c s Hcm Hc Hu) as [s1 E1]. rewrite (bind_some _ _ _ _ _ E1).
  destruct (accepts cm c); [by exists s1|]. apply IH.
Qed.

Lemma set_match_decides name i (incl : bool) cs N : Forall component_wf cs -> Forall uri_ok (Name.components name) ->
  decides name (set_match env name i incl cs) (fun w => exists c, w = [c] /\ existsb (fun cm => accepts cm c) cs = incl) N.
Proof.
  intros Hcs Hn o l s Hr _. unfold set_match. destruct (decide (l = 1%nat)) as [->|Hl].
  - destruct (in_range_lookup _ _ _ Hr) as [c Hc].
    assert (Hu : uri_ok c) by (rewrite Forall_lookup in Hn; by eapply Hn).
    assert (Hw : slice name o 1 = [c]) by by rewrite (slice_S _ _ _ _ Hc).
    simpl. destruct (any_match_total name cs o c s Hcs Hc Hu) as [s1 E1]. rewrite (bind_some _ _ _ _ _ E1).
    erewrite bind_some by done. rewrite Hw.
    assert (Hiff : (exists c0, [c] = [c0] /\ existsb (fun cm => accepts cm c0) cs = incl) <->
                   existsb (fun cm => accepts cm c) cs = incl).
    { split; [by intros (c0 & [= <-] & ?)|]. intros ?. by exists c. }
    destruct (if incl then _ else _) eqn:E.
    + rewrite (bind_some _ _ _ _ _ (getM_in _ _ _ _ Hc)). eexists _, _. split; [done|]. rewrite Hiff. split; [intros _|done].
      destruct incl; [done|]. by apply negb_true_iff.
    + eexists _, _. split; [done|]. rewrite Hiff. split; [done|]. intros Hx. rewrite Hx in E. by destruct incl.
  - replace (l =? 1)%nat with false by (symmetry; by apply Nat.eqb_neq). eexists _, _. split; [done|]. split; [done|].
    intros (c & E & _). apply (f_equal length) in E. rewrite length_slice in E by done. done.
Qed.

(** Matching a tree whose repeated groups make progress returns, and decides
    its language. *)
Lemma match_decides name m N fuel : wf m -> progresses m = true -> Forall uri_ok (Name.components name) -> (N < fuel)%nat ->
  decides name (match_ env fuel name m) (language m) N.
Proof.
  intros Hw Hp Hn Hfuel.
  induction m as [i e ms IH|i e ms IH|i e m lo hi IH|i e b cs] using matcher_list_ind; simpl in Hw, Hp |- *.
  1,2: apply RegexMatcher_match_decides; induction IH as [|m ms Hm _ IHms]; simpl in Hw, Hp |- *; [constructor|];
    destruct Hw as [Hw Hws]; apply andb_true_iff in Hp as [Hp Hps]; constructor; auto.
  - apply andb_true_iff in Hp as [Hnl Hp]. destruct Hw as [Hlo Hw]. apply repeat_match_decides; auto.
    intros Hl%language_nullable; [|done]. by rewrite Hl in Hnl.
  - by apply set_match_decides.
Qed.

(** *** Captures

    What the objects of a tree hold after a match that succeeded: the range
    each of them took in one reading of the expression; a repeated group holds
    its last repetition. *)

Definition component_recorded (cm : component_matcher) s c : Prop :=
  getMatchResult (c_self cm) s = [c] /\
  (c_expr cm = [] \/
   exists subs, regex_match (m_componentRegex cm) (uri c) = Some subs /\
     Forall2 (fun p sub => getMatchResult p s = [Block.of_tlv tlv.GenericNameComponent sub]) (tail (m_pseudoMatchers cm)) subs).

Fixpoint seq_recorded (Rs : list (objects -> list Component.t -> Prop)) s w : Prop :=
  match Rs with
  | [] => w = []
  | R :: Rs => exists u v, w = u ++ v /\ R s u /\ seq_recorded Rs s v
  end.

Fixpoint recorded (m : matcher) s w : Prop :=
  match m with
  | RegexPatternListMatcher i _ ms | RegexBackrefMatcher i _ ms =>
      getMatchResult i s = w /\ seq_recorded (map recorded ms) s w
  | RegexRepeatMatcher i _ m lo hi =>
      getMatchResult i s = w /\
      (w = [] /\ lo = 0 \/
       exists n u v, w = u ++ v /\ lo <= Z.of_nat (S n) <= hi /\ power (language m) n u /\ recorded m s v)
  | RegexComponentSetMatcher i _ incl cs => exists c, w = [c] /\ getMatchResult i s = w /\
      existsb (fun cm => accepts cm c) cs = incl /\
      (incl = true -> exists cm, cm ∈ cs /\ component_recorded cm s c)
  end.

(** The numbers of the objects of a tree. *)
Definition component_ids (cm : component_matcher) : list nat := c_self cm :: m_pseudoMatchers cm.

Fixpoint ids (m : matcher) : list nat :=
  match m with
  | RegexPatternListMatcher i _ ms | RegexBackrefMatcher i _ ms => i :: concat (map ids ms)
  | RegexRepeatMatcher i _ m _ _ => i :: ids m
  | RegexComponentSetMatcher i _ _ cs => i :: concat (map component_ids cs)
  end.

(** Only the objects [T] have changed. *)
Definition frame (T : list nat) s s' : Prop :=
  m_backrefs s' = m_backrefs s /\ length (m_matchResults s') = length (m_matchResults s) /\
  forall i, i ∉ T -> getMatchResult i s' = getMatchResult i s.

Definition allocated (T : list nat) s : Prop := Forall (fun i => (i < length (m_matchResults s))%nat) T.

Lemma frame_refl T s : frame T s s.
Proof. done. Qed.

Lemma frame_trans T s1 s2 s3 : frame T s1 s2 -> frame T s2 s3 -> frame T s1 s3.
Proof. intros (H1 & H2 & H3) (K1 & K2 & K3). split_and!; try congruence. intros i Hi. by rewrite K3, H3. Qed.

Lemma frame_mono T T' s s' : frame T s s' -> (forall i, i ∈ T -> i ∈ T') -> frame T' s s'.
Proof. intros (H1 & H2 & H3) HT. split_and!; auto. Qed.

Lemma frame_app_l T T' s s' : frame T s s' -> frame (T ++ T') s s'.
Proof. intros Hf. eapply frame_mono; [done|]. intros i Hi. apply elem_of_app. by left. Qed.

Lemma frame_app_r T T' s s' : frame T' s s' -> frame (T ++ T') s s'.
Proof. intros Hf. eapply frame_mono; [done|]. intros i Hi. apply elem_of_app. by right. Qed.

Lemma frame_head i T s s' : frame [i] s s' -> frame (i :: T) s s'.
Proof. apply (frame_app_l [i]). Qed.

Lemma frame_tail i T s s' : frame T s s' -> frame (i :: T) s s'.
Proof. apply (frame_app_r [i]). Qed.

Lemma frame_of_tail T s s' : frame (tail T) s s' -> frame T s s'.
Proof. destruct T as [|i T]; [done|]. apply frame_tail. Qed.

Lemma allocated_frame T T' s s' : frame T' s s' -> allocated T s -> allocated T s'.
Proof. intros (_ & H & _). unfold allocated. by rewrite H. Qed.

Lemma getMatchResult_set i v s s' r : setResult i v s = Some (s', r) -> (i < length (m_matchResults s))%nat ->
  r = Ok tt /\ frame [i] s s' /\ getMatchResult i s' = v.
Proof.
  intros [= <- <-] Hi. split; [done|]. split.
  - split; [done|]. split; [apply length_insert|]. intros j Hj. unfold getMatchResult. simpl.
    rewrite list_lookup_insert_ne; [done|]. set_solver.
  - unfold getMatchResult. simpl. by rewrite list_lookup_insert_eq.
Qed.

Lemma elem_concat_map {A B} (f : A -> list B) x l y : x ∈ l -> y ∈ f x -> y ∈ concat (map f l).
Proof. induction 1; simpl; set_solver. Qed.

Lemma component_recorded_local cm s s' c : (forall i, i ∈ component_ids cm -> getMatchResult i s' = getMatchResult i s) ->
  component_recorded cm s c -> component_recorded cm s' c.
Proof.
  unfold component_ids. intros Hin [H1 H2]. split; [rewrite Hin; [done|by left]|].
  destruct H2 as [?|(subs & Hm & HF)]; [by left|right]. exists subs. split; [done|].
  assert (Ht : forall j, j ∈ tail (m_pseudoMatchers cm) -> getMatchResult j s' = getMatchResult j s).
  { intros j Hj. apply Hin. right. destruct (m_pseudoMatchers cm); [done|]. by right. }
  clear Hin Hm. induction HF as [|p x ps subs Hp _ IH]; constructor; [rewrite Ht; [done|by left]|].
  apply IH. intros j Hj. apply Ht. by right.
Qed.

Lemma recorded_list_local ms s s' w : Forall (fun m => forall w, (forall i, i ∈ ids m -> getMatchResult i s' = getMatchResult i s) ->
    recorded m s w -> recorded m s' w) ms ->
  (forall i, i ∈ concat (map ids ms) -> getMatchResult i s' = getMatchResult i s) ->
  seq_recorded (map recorded ms) s w -> seq_recorded (map recorded ms) s' w.
Proof.
  intros HF. revert w. induction HF as [|m ms Hm _ IH]; intros w Hi; simpl; [done|].
  intros (u & v & -> & Hu & Hv). exists u, v. split; [done|]. split.
  - apply Hm; [|done]. intros i Hin. apply Hi. simpl. set_solver.
  - apply IH; [|done]. intros i Hin. apply Hi. simpl. set_solver.
Qed.

(** What a tree records is in its own objects. *)
Lemma recorded_local m s s' w : (forall i, i ∈ ids m -> getMatchResult i s' = getMatchResult i s) ->
  recorded m s w -> recorded m s' w.
Proof.
  revert w. induction m as [i e ms IH|i e ms IH|i e m lo hi IH|i e b cs] using matcher_list_ind; intros w Hi; cbn [recorded ids] in *.
  1,2: intros [Hr Hs]; rewrite Hi by set_solver; split; [done|];
    apply (recorded_list_local ms s); [by eapply Forall_impl; [|exact IH]; auto|set_solver|done].
  - intros [Hr Hs]. rewrite Hi by set_solver. split; [done|]. destruct Hs as [?|(n & u & v & -> & Hn & Hu & Hv)]; [by left|right].
    exists n, u, v. split_and!; try done; try lia. apply IH; [set_solver|done].
  - intros (c & -> & Hr & Hb & Hc). exists c. split; [done|]. rewrite Hi by set_solver. split_and!; try done.
    intros Hbt. destruct (Hc Hbt) as (cm & Hcm & Hrec). exists cm. split; [done|].
    apply (component_recorded_local cm s); [|done]. intros j Hj. apply Hi. right. by eapply elem_concat_map.
Qed.

(** Recorded ranges are in the language. *)
Lemma recorded_language m s w : wf m -> recorded m s w -> language m w.
Proof.
  revert w. induction m as [i e ms IH|i e ms IH|i e m lo hi IH|i e b cs] using matcher_list_ind; intros w Hw; cbn [recorded language].
  1,2: intros [_ Hs]; apply wf_list in Hw; revert w Hs; induction IH as [|m ms Hm _ IHms]; intros w; simpl; [done|];
    apply Forall_cons_iff in Hw as [Hw Hws]; intros (u & v & -> & Hu & Hv); exists u, v; auto.
  - destruct Hw as [Hlo Hw]. intros [_ [[-> ->]|(n & u & v & -> & Hn & Hu & Hv)]].
    + exists 0%nat. split; [lia|done].
    + exists (S n). split; [done|]. apply power_snoc; auto.
  - intros (c & -> & _ & Hb & _). by exists c.
Qed.

(** [f] changes only the objects [T], does not throw, and leaves [R] behind if
    it succeeds. *)
Definition sound name (f : nat -> nat -> P objects bool) (R : objects -> list Component.t -> Prop) (T : list nat) : Prop :=
  forall o l s s' r, in_range name o l -> allocated T s -> f o l s = Some (s', r) ->
  frame T s s' /\ exists b, r = Ok b /\ (b = true -> R s' (slice name o l)).

Lemma try_next_sound (g : P objects bool) (b1 : bool) s s' r (Q : objects -> Prop) : Q s ->
  (forall s' r, g s = Some (s', r) -> Q s' /\ exists b, r = Ok b) ->
  (if b1 then g else mret false) s = Some (s', r) ->
  Q s' /\ exists b, r = Ok b /\ (b = true -> b1 = true /\ g s = Some (s', Ok true)).
Proof.
  intros HQ Hg. destruct b1.
  - intros E. destruct (Hg _ _ E) as [HQ' [b ->]]. split; [done|]. exists b. split; [done|]. by intros ->.
  - intros [= <- <-]. split; [done|]. by exists false.
Qed.

Lemma try_loop_sound f g o l t s s' r (Q : objects -> Prop) : Q s ->
  (forall k s s' r, (k <= t)%nat -> Q s -> f o k s = Some (s', r) -> Q s' /\ exists b, r = Ok b) ->
  (forall k s s' r, (k <= t)%nat -> Q s -> g (o + k)%nat (l - k)%nat s = Some (s', r) -> Q s' /\ exists b, r = Ok b) ->
  try_loop f g o l t s = Some (s', r) ->
  Q s' /\ exists b, r = Ok b /\ (b = true -> exists k s0 s1, (k <= t)%nat /\ Q s0 /\ f o k s0 = Some (s1, Ok true) /\
    Q s1 /\ g (o + k)%nat (l - k)%nat s1 = Some (s', Ok true)).
Proof.
  revert s. induction t as [|t IH]; intros s HQ Hf Hg; cbn [try_loop].
  all: intros [(s1 & b1 & E1 & Hr)|(e & E1 & ->)]%bind_inv;
    [|by destruct (Hf _ _ _ _ (le_n _) HQ E1) as [_ [? ?]]];
    destruct (Hf _ _ _ _ (le_n _) HQ E1) as [HQ1 _].
  all: apply bind_inv in Hr as [(s2 & b2 & E2 & Hr)|(e & E2 & ->)];
    destruct (try_next_sound _ _ _ _ _ Q HQ1 (fun s' r => Hg _ s1 s' r (le_n _) HQ1) E2) as [HQ2 (b3 & Hb3 & Hb)]; simplify_eq;
    destruct b3.
  1,3: injection Hr as <- <-; split; [done|]; exists true; split; [done|]; intros _; destruct (Hb eq_refl) as [-> E3];
    eexists _, s, s1; split; [apply le_n|done].
  - injection Hr as <- <-. split; [done|]. by exists false.
  - destruct (IH s2 HQ2 (fun k s s' r Hk => Hf k s s' r (le_S _ _ Hk)) (fun k s s' r Hk => Hg k s s' r (le_S _ _ Hk)) Hr)
      as [HQ' (b & -> & Hb')]. split; [done|]. exists b. split; [done|].
    intros Hbt. destruct (Hb' Hbt) as (k & s0 & s3 & Hk & Hrest). exists k, s0, s3. split; [lia|done].
Qed.

Lemma recursiveMatch_sound name fuel ms :
  Forall (fun m => sound name (match_ env fuel name m) (recorded m) (ids m)) ms -> NoDup (concat (map ids ms)) ->
  sound name (recursiveMatch (map (match_ env fuel name) ms)) (seq_recorded (map recorded ms)) (concat (map ids ms)).
Proof.
  induction 1 as [|m ms Hm _ IH]; intros HD o l s s' r Hr Hal; simpl.
  - intros [= <- <-]. split; [done|]. exists (l =? 0)%nat. split; [done|]. intros ->%Nat.eqb_eq. done.
  - simpl in HD, Hal. apply list.NoDup_app in HD as (HD1 & HD2 & HD3). apply Forall_app in Hal as [Hal1 Hal2].
    intros E. pose proof (frame_refl (ids m ++ concat (map ids ms)) s) as HQ.
    eapply (try_loop_sound _ _ _ _ _ _ _ _ (frame (ids m ++ concat (map ids ms)) s)) in E as [Hfr (b & -> & Hb)]; [|done|..].
    + split; [done|]. exists b. split; [done|]. intros Hbt. destruct (Hb Hbt) as (k & s0 & s1 & Hk & HQ0 & E1 & HQ1 & E2).
      apply Hm in E1 as [Hf1 (? & [= <-] & Hrec)]; [|unfold in_range in *; lia|by eapply allocated_frame].
      apply (IH HD3) in E2 as [Hf2 (? & [= <-] & Hrec2)]; [|unfold in_range in *; lia|by eapply allocated_frame].
      exists (slice name o k), (slice name (o + k) (l - k)). split; [by apply slice_split|]. split; [|auto].
      apply (recorded_local m s1); [|auto]. intros i Hi. apply Hf2. intros Hi2. by apply (HD2 i).
    + intros k s0 s1 r0 Hk HQ0 E1. apply Hm in E1 as [Hf1 (b0 & -> & _)]; [|unfold in_range in *; lia|by eapply allocated_frame].
      split; [|by exists b0]. eapply frame_trans; [done|]. auto using frame_app_l, frame_app_r, frame_head, frame_tail, frame_of_tail.
    + intros k s0 s1 r0 Hk HQ0 E1. apply (IH HD3) in E1 as [Hf1 (b0 & -> & _)]; [|unfold in_range in *; lia|by eapply allocated_frame].
      split; [|by exists b0]. eapply frame_trans; [done|]. auto using frame_app_l, frame_app_r, frame_head, frame_tail, frame_of_tail.
Qed.

Lemma push_loop_sound name i l : forall o s s' r, in_range name o l -> (i < length (m_matchResults s))%nat ->
  push_loop name i o l s = Some (s', r) ->
  r = Ok tt /\ frame [i] s s' /\ getMatchResult i s' = getMatchResult i s ++ slice name o l.
Proof.
  induction l as [|l IH]; intros o s s' r Hr Hi E; cbn [push_loop] in E.
  - injection E as <- <-. split_and!; try done. by rewrite app_nil_r.
  - destruct (in_range_lookup _ _ _ Hr) as [c Hc]. rewrite (bind_some _ _ _ _ _ (getM_in _ _ _ s Hc)) in E.
    destruct (pushResult i c s) as [[s1 r1]|] eqn:E1; [|done].
    destruct (getMatchResult_set _ _ _ _ _ E1 Hi) as (-> & Hf & Hv). rewrite (bind_some _ _ _ _ _ E1) in E.
    apply IH in E as (-> & Hf' & ->); [|unfold in_range in *; lia|by rewrite (proj1 (proj2 Hf))].
    split; [done|]. split; [by eapply frame_trans|]. by rewrite Hv, (slice_S _ _ _ _ Hc), <- app_assoc.
Qed.

(** Clearing the result, matching, and recording the range on success. *)
Lemma recording_sound name i f R T : sound name f R T -> i ∉ T ->
  (forall s s' w, (forall j, j ∈ T -> getMatchResult j s' = getMatchResult j s) -> R s w -> R s' w) ->
  sound name (fun o l => _ ← clearResult i; b ← f o l; if b : bool then _ ← push_loop name i o l; mret true else mret false)
    (fun s w => getMatchResult i s = w /\ R s w) (i :: T).
Proof.
  intros Hf HiT HR o l s s' r Hr [Hi Hal]%Forall_cons_iff E.
  destruct (clearResult i s) as [[s1 r1]|] eqn:E1; [|done].
  destruct (getMatchResult_set _ _ _ _ _ E1 Hi) as (-> & Hf1 & Hv1). rewrite (bind_some _ _ _ _ _ E1) in E.
  assert (Hm1 : frame (i :: T) s s1) by (auto using frame_app_l, frame_app_r, frame_head, frame_tail).
  apply bind_inv in E as [(s2 & b & E2 & E)|(e & E2 & ->)]; (apply Hf in E2 as [Hf2 (b' & Hb & Hrec)];
    [|done|by eapply allocated_frame]); simplify_eq.
  assert (Hm2 : frame (i :: T) s s2) by (eapply frame_trans; [done|]; auto using frame_app_l, frame_app_r, frame_head, frame_tail, frame_of_tail).
  destruct b'; [|injection E as <- <-; split; [done|]; by exists false].
  assert (Hi2 : (i < length (m_matchResults s2))%nat) by (by rewrite (proj1 (proj2 Hm2))).
  apply bind_inv in E as [(s3 & [] & E3 & E)|(e & E3 & ->)]; apply push_loop_sound in E3 as (Hok & Hf3 & Hv3); try done.
  injection E as <- <-. split; [eapply frame_trans; [done|]; auto using frame_app_l, frame_app_r, frame_head, frame_tail, frame_of_tail|].
  exists true. split; [done|]. intros _. split.
  - rewrite Hv3, (proj2 (proj2 Hf2) i HiT), Hv1. done.
  - apply (HR s2); [|auto]. intros j Hj. apply Hf3. set_solver.
Qed.

Lemma repeat_recursiveMatch_sound name f R L T lo hi fuel : sound name f R T -> (forall s w, R s w -> L w) -> 0 <= lo <= hi ->
  forall rep o l s s' r, 0 <= rep <= hi -> in_range name o l -> allocated T s ->
  repeat_recursiveMatch fuel f lo hi rep o l s = Some (s', r) ->
  frame T s s' /\ exists b, r = Ok b /\ (b = true ->
    l = 0%nat /\ lo <= rep /\ s' = s \/
    exists n u v, slice name o l = u ++ v /\ lo <= rep + Z.of_nat (S n) <= hi /\ power L n u /\ R s' v).
Proof.
  intros Hf HRL Hlo. induction fuel as [|fuel IH]; intros rep o l s s' r Hrep Hr Hal E; cbn [repeat_recursiveMatch] in E; [done|].
  destruct (decide (l = 0%nat)) as [->|Hl].
  { simpl in E. destruct (rep <? lo) eqn:El.
    - injection E as <- <-. split; [done|]. by exists false.
    - bool_to_prop. replace (lo <=? rep) with true in E by lia. injection E as <- <-. split; [done|]. exists true.
      split; [done|]. by left. }
  replace (0 <? l)%nat with true in E by (symmetry; apply Nat.ltb_lt; lia).
  replace (l =? 0)%nat with false in E by (symmetry; apply Nat.eqb_neq; lia). cbn [andb] in E.
  destruct (hi <=? rep) eqn:Eh; bool_to_prop; [injection E as <- <-; split; [done|]; by exists false|].
  eapply (try_loop_sound _ _ _ _ _ _ _ _ (frame T s)) in E as [Hfr (b & -> & Hb)]; [|done|..].
  - split; [done|]. exists b. split; [done|]. intros Hbt. right. destruct (Hb Hbt) as (k & s0 & s1 & Hk & HQ0 & E1 & HQ1 & E2).
    apply Hf in E1 as [Hf1 (? & [= <-] & Hrec)]; [|unfold in_range in *; lia|by eapply allocated_frame].
    apply IH in E2 as [Hf2 (? & [= <-] & Hrec2)]; [|lia|unfold in_range in *; lia|by eapply allocated_frame].
    specialize (Hrec eq_refl). rewrite (slice_split _ _ _ k) by done.
    destruct (Hrec2 eq_refl) as [(E0 & Hlo1 & ->)|(n & u & v & -> & Hn & Hu & Hv)].
    + exists 0%nat, [], (slice name o k). rewrite E0. split; [by rewrite app_nil_r|]. split; [lia|]. done.
    + exists (S n), (slice name o k ++ u), v. split; [by rewrite app_assoc|]. split; [lia|]. split; [|done].
      apply power_S. eauto 10.
  - intros k s0 s1 r0 Hk HQ0 E1. apply Hf in E1 as [Hf1 (b0 & -> & _)]; [|unfold in_range in *; lia|by eapply allocated_frame].
    split; [|by exists b0]. by eapply frame_trans.
  - intros k s0 s1 r0 Hk HQ0 E1. apply IH in E1 as [Hf1 (b0 & -> & _)]; [|lia|unfold in_range in *; lia|by eapply allocated_frame].
    split; [|by exists b0]. by eapply frame_trans.
Qed.

Lemma repeat_match_sound name fuel i e m lo hi : sound name (match_ env fuel name m) (recorded m) (ids m) -> wf m ->
  0 <= lo <= hi -> i ∉ ids m ->
  sound name (repeat_match fuel name i (match_ env fuel name m) lo hi) (recorded (RegexRepeatMatcher i e m lo hi)) (i :: ids m).
Proof.
  intros Hm Hw Hlo Hi. pose (R := fun s w => w = [] /\ lo = 0 \/
    exists n u v, w = u ++ v /\ lo <= Z.of_nat (S n) <= hi /\ power (language m) n u /\ recorded m s v).
  assert (Hrec : sound name (repeat_recursiveMatch fuel (match_ env fuel name m) lo hi 0) R (ids m)).
  { intros o l s s' r Hr Hal E. eapply repeat_recursiveMatch_sound in E as [Hf (b & -> & Hb)]; try done; [|by intros; eapply recorded_language|lia].
    split; [done|]. exists b. split; [done|]. intros Hbt. destruct (Hb Hbt) as [(-> & Hl0 & ->)|?]; [left; split; [done|lia]|by right]. }
  assert (HR : forall s s' w, (forall j, j ∈ ids m -> getMatchResult j s' = getMatchResult j s) -> R s w -> R s' w).
  { intros s s' w Hj [?|(n & u & v & -> & Hn & Hu & Hv)]; [by left|right]. exists n, u, v. split_and!; try done; try lia.
    by apply (recorded_local m s). }
  pose proof (recording_sound name i _ R (ids m) Hrec Hi HR) as Hs.
  intros o l s s' r Hr Hal E. unfold repeat_match in E.
  destruct (decide (lo = 0 /\ l = 0%nat)) as [[-> ->]|Hn].
  - apply Forall_cons_iff in Hal as [Hal _]. simpl in E. injection E as <- <-.
    destruct (getMatchResult_set i [] s _ _ eq_refl Hal) as (_ & Hf & Hv).
    split; [auto using frame_app_l, frame_app_r, frame_head, frame_tail|]. exists true. split; [done|]. intros _. split; [done|]. by left.
  - destruct ((lo =? 0) && (l =? 0)%nat) eqn:Eb; [|by eapply Hs].
    bool_to_prop. destruct Hn. split; [done|by apply Nat.eqb_eq].
Qed.

Lemma sub_loop_sound ps : forall subs s s' r, length ps = length subs -> NoDup ps -> allocated ps s ->
  Forall (fun x => is_u64 (len x)) subs -> sub_loop ps subs s = Some (s', r) ->
  r = Ok tt /\ frame ps s s' /\ Forall2 (fun p x => getMatchResult p s' = [Block.of_tlv tlv.GenericNameComponent x]) ps subs.
Proof.
  induction ps as [|p ps IH]; intros [|x subs] s s' r Hl HD Hal Hs E; try done; cbn [sub_loop] in E.
  - injection E as <- <-. by split_and!.
  - apply list.NoDup_cons in HD as [Hp HD]. apply Forall_cons_iff in Hal as [Hal1 Hal]. apply Forall_cons_iff in Hs as [Hx Hs].
    destruct (resetMatchResult p s) as [[s1 r1]|] eqn:E1; [|done].
    destruct (getMatchResult_set _ _ _ _ _ E1 Hal1) as (-> & Hf1 & Hv1). rewrite (bind_some _ _ _ _ _ E1) in E.
    change (default [] (head (x :: subs))) with x in E. change (tail (x :: subs)) with subs in E.
    destruct (setMatchResult p x s1) as [[s2 r2]|] eqn:E2; [|by unfold mbind, P_bind in E; rewrite E2 in E].
    pose proof E2 as E2'. rewrite setMatchResult_ok in E2' by done. unfold pushResult in E2'. rewrite Hv1 in E2'.
    destruct (getMatchResult_set _ _ _ _ _ E2' ltac:(by rewrite (proj1 (proj2 Hf1)))) as (-> & Hf2 & Hv2).
    rewrite (bind_some _ _ _ _ _ E2) in E.
    assert (Hf12 : frame [p] s s2) by by eapply frame_trans.
    apply IH in E as (-> & Hf3 & HF); [|by simpl in Hl; lia|done|by eapply allocated_frame|done].
    split; [done|]. split.
    + eapply frame_trans; eauto using frame_app_l, frame_app_r, frame_head, frame_tail.
    + constructor; [|done]. by rewrite (proj2 (proj2 Hf3)).
Qed.

Lemma component_match_sound name cm o c s s' r : component_wf cm -> Name.components name !! o = Some c -> uri_ok c ->
  NoDup (component_ids cm) -> allocated (component_ids cm) s -> component_match env name cm o s = Some (s', r) ->
  frame (component_ids cm) s s' /\ r = Ok (accepts cm c) /\ (accepts cm c = true -> component_recorded cm s' c).
Proof.
  intros Hw Hc Hu HD Hal E. destruct (component_match_total name cm o c s Hw Hc Hu) as [s2 E2]. rewrite E2 in E. injection E as <- <-.
  destruct Hw as [He Hlen]. unfold component_ids in *. apply Forall_cons_iff in Hal as [Hal1 Hal]. apply list.NoDup_cons in HD as [Hni HD].
  unfold component_match in E2. destruct (clearResult (c_self cm) s) as [[s1 r1]|] eqn:E1; [|done].
  destruct (getMatchResult_set _ _ _ _ _ E1 Hal1) as (-> & Hf1 & Hv1). rewrite (bind_some _ _ _ _ _ E1) in E2.
  assert (Hm1 : frame (c_self cm :: m_pseudoMatchers cm) s s1) by (auto using frame_app_l, frame_app_r, frame_head, frame_tail).
  unfold accepts in *. destruct (decide (c_expr cm = [])) as [Ee|Ee].
  - rewrite !bool_decide_eq_true_2 in E2 |- * by done. rewrite (bind_some _ _ _ _ _ (getM_in _ _ _ _ Hc)) in E2. injection E2 as <-.
    destruct (getMatchResult_set (c_self cm) (getMatchResult (c_self cm) s1 ++ [c]) s1 _ _ eq_refl) as (_ & Hf2 & Hv2);
      [by rewrite (proj1 (proj2 Hf1))|]. split; [|split; [done|]; intros _; split; [|by left]].
    + eapply frame_trans; [done|]. auto using frame_app_l, frame_app_r, frame_head, frame_tail, frame_of_tail.
    + etrans; [exact Hv2|]. by rewrite Hv1.
  - rewrite (bool_decide_eq_false_2 (c_expr cm = [])) in E2 |- * by done. rewrite He in E2. cbn [negb] in E2.
    rewrite (bind_some _ _ _ _ _ (getM_in _ _ _ _ Hc)) in E2. erewrite bind_some in E2 by (unfold liftP; by rewrite (proj1 Hu)).
    destruct (regex_match _ _) as [subs|] eqn:Hm.
    + assert (Hsub : Forall (fun x => is_u64 (len x)) subs) by by eapply sub_bounded.
      assert (Ht : forall j, j ∈ tail (m_pseudoMatchers cm) -> j ∈ m_pseudoMatchers cm) by (destruct (m_pseudoMatchers cm); set_solver).
      apply bind_inv in E2 as [(s3 & [] & E3 & E2)|(e & E3 & ?)];
        (apply sub_loop_sound in E3 as (Hok & Hf3 & HF); [|by rewrite (regex_match_marks _ _ _ Hm); destruct (m_pseudoMatchers cm); simpl in *; lia
          |by destruct (m_pseudoMatchers cm); [constructor|apply list.NoDup_cons in HD as [_ HD]]
          |eapply allocated_frame; [exact Hf1|]; by destruct (m_pseudoMatchers cm); [constructor|apply Forall_cons_iff in Hal as [_ Hal]]
          |done]); try done.
      assert (Hm3 : frame (c_self cm :: m_pseudoMatchers cm) s s3) by (eapply frame_trans; [done|]; auto using frame_app_l, frame_app_r, frame_head, frame_tail, frame_of_tail).
      injection E2 as <-.
      destruct (getMatchResult_set (c_self cm) (getMatchResult (c_self cm) s3 ++ [c]) s3 _ _ eq_refl) as (_ & Hf2 & Hv2);
        [by rewrite (proj1 (proj2 Hm3))|]. split; [eapply frame_trans; [done|]; auto using frame_app_l, frame_app_r, frame_head, frame_tail, frame_of_tail|].
      split; [done|]. intros _. split.
      * etrans; [exact Hv2|]. rewrite (proj2 (proj2 Hf3)), Hv1 by (intros ?%Ht; done). done.
      * right. exists subs. split; [done|].
        assert (Hne : forall j, j ∈ tail (m_pseudoMatchers cm) -> j <> c_self cm) by (intros j Hj%Ht ->; done).
        clear -HF Hf2 Hne. induction HF as [|p x ps subs Hp _ IH]; constructor; [|apply IH; set_solver].
        rewrite <- Hp. apply Hf2. set_solver.
    + injection E2 as <-. split; [done|]. split; [done|]. done.
Qed.

Lemma any_match_sound name cs o c : Forall component_wf cs -> Name.components name !! o = Some c -> uri_ok c ->
  NoDup (concat (map component_ids cs)) -> forall s s' r, allocated (concat (map component_ids cs)) s ->
  any_match env name cs o s = Some (s', r) ->
  frame (concat (map component_ids cs)) s s' /\ r = Ok (existsb (fun cm => accepts cm c) cs) /\
  (existsb (fun cm => accepts cm c) cs = true -> exists cm, cm ∈ cs /\ component_recorded cm s' c).
Proof.
  intros Hcs Hc Hu. induction Hcs as [|cm cs Hcm _ IH]; intros HD s s' r Hal E; cbn [any_match existsb map concat] in *.
  - injection E as <- <-. by split_and!.
  - apply list.NoDup_app in HD as (HD1 & HD2 & HD3). apply Forall_app in Hal as [Hal1 Hal2].
    apply bind_inv in E as [(s1 & b & E1 & E)|(e & E1 & ->)];
      apply (component_match_sound name cm o c) in E1 as (Hf1 & Hb & Hrec); try done.
    injection Hb as ->. destruct (accepts cm c) eqn:Ea; cbn [orb].
    + injection E as <- <-. split; [auto using frame_app_l, frame_app_r, frame_head, frame_tail|]. split; [done|]. intros _.
      exists cm. split; [by left|by apply Hrec].
    + apply IH in E as (Hf2 & -> & Hrec2); [|done|by eapply allocated_frame]. split.
      * eapply frame_trans; eauto using frame_app_l, frame_app_r, frame_head, frame_tail.
      * split; [done|]. intros He. destruct (Hrec2 He) as (cm' & Hin & Hr'). exists cm'. split; [by right|done].
Qed.

Lemma set_match_sound name i e (incl : bool) cs : Forall component_wf cs -> Forall uri_ok (Name.components name) ->
  NoDup (ids (RegexComponentSetMatcher i e incl cs)) ->
  sound name (set_match env name i incl cs) (recorded (RegexComponentSetMatcher i e incl cs)) (ids (RegexComponentSetMatcher i e incl cs)).
Proof.
  intros Hcs Hn HD o l s s' r Hr Hal E. unfold set_match in E. cbn [ids] in *.
  destruct (decide (l = 1%nat)) as [->|Hl].
  2:{ replace (l =? 1)%nat with false in E by (symmetry; by apply Nat.eqb_neq). injection E as <- <-. split; [done|]. by exists false. }
  apply list.NoDup_cons in HD as [Hni HD]. apply Forall_cons_iff in Hal as [Hi Hal].
  destruct (in_range_lookup _ _ _ Hr) as [c Hc].
  assert (Hu : uri_ok c) by (rewrite Forall_lookup in Hn; by eapply Hn).
  simpl in E. apply bind_inv in E as [(s1 & b & E1 & E)|(e0 & E1 & ->)];
    destruct (any_match_sound name cs o c Hcs Hc Hu HD _ _ _ Hal E1) as (Hf1 & Hb & Hrec); try done. injection Hb as ->.
  destruct (clearResult i s1) as [[s2 r2]|] eqn:E2; [|done].
  destruct (getMatchResult_set _ _ _ _ _ E2 ltac:(by rewrite (proj1 (proj2 Hf1)))) as (-> & Hf2 & Hv2). rewrite (bind_some _ _ _ _ _ E2) in E.
  assert (Hm2 : frame (i :: concat (map component_ids cs)) s s2).
  { eapply frame_trans; eauto using frame_app_l, frame_app_r, frame_head, frame_tail. }
  destruct (if incl then _ else _) eqn:Eb; [|injection E as <- <-; split; [done|]; by exists false].
  rewrite (bind_some _ _ _ _ _ (getM_in _ _ _ _ Hc)) in E. injection E as <- <-.
  destruct (getMatchResult_set i (getMatchResult i s2 ++ [c]) s2 _ _ eq_refl) as (_ & Hf3 & Hv3); [by rewrite (proj1 (proj2 Hm2))|].
  split; [eapply frame_trans; [done|]; auto using frame_app_l, frame_app_r, frame_head, frame_tail, frame_of_tail|]. exists true. split; [done|]. intros _.
  cbn [recorded]. exists c. split; [by rewrite (slice_S _ _ _ _ Hc)|]. split.
  { etrans; [exact Hv3|]. by rewrite Hv2, (slice_S _ _ _ _ Hc). }
  split; [destruct incl; [done|by apply negb_true_iff]|]. intros ->. destruct (Hrec Eb) as (cm & Hin & Hr'). exists cm. split; [done|].
  assert (Hne : forall j, j ∈ component_ids cm -> j <> i) by (intros j Hj ->; apply Hni; by eapply elem_concat_map).
  apply (component_recorded_local cm s1); [|done]. intros j Hj. specialize (Hne j Hj).
  transitivity (getMatchResult j s2); [apply Hf3|apply Hf2]; set_solver.
Qed.

(** Matching a tree leaves in its objects a reading of the range it
    succeeded on. *)
Lemma match_sound name m fuel : wf m -> NoDup (ids m) -> Forall uri_ok (Name.components name) ->
  sound name (match_ env fuel name m) (recorded m) (ids m).
Proof.
  intros Hw HD Hn. induction m as [i e ms IH|i e ms IH|i e m lo hi IH|i e b cs] using matcher_list_ind.
  1,2: cbn [wf ids] in Hw, HD; apply list.NoDup_cons in HD as [Hi HD]; apply wf_list in Hw;
    apply (recording_sound name i (recursiveMatch _) (seq_recorded (map recorded ms)) (concat (map ids ms)));
    [|done|intros s s' w Hj; apply recorded_list_local; [|done]; apply Forall_forall; intros m _ w'; apply recorded_local];
    apply recursiveMatch_sound; [|done]; clear Hi;
    induction IH as [|m ms Hm _ IHms]; [constructor|]; inversion_clear Hw;
    cbn [map concat] in HD; apply list.NoDup_app in HD as (HD1 & _ & HD2); constructor; auto.
  - cbn [wf ids] in Hw, HD. apply list.NoDup_cons in HD as [Hi HD]. destruct Hw as [Hlo Hw]. apply repeat_match_sound; auto.
  - by apply set_match_sound.
Qed.

(** *** Compilation

    [builds f Q]: the constructor [f] returns, with an object or an exception;
    the matchers it makes have new numbers [T], all different, and [Q] relates
    them to the object. *)
Definition builds {A} (f : P objects A) (Q : A -> list nat -> Prop) : Prop :=
  forall s, exists s' r, f s = Some (s', r) /\ (length (m_matchResults s) <= length (m_matchResults s'))%nat /\
    forall a, r = Ok a -> exists T, NoDup T /\
      Forall (fun i => (length (m_matchResults s) <= i < length (m_matchResults s'))%nat) T /\ Q a T.

Lemma builds_ret {A} (a : A) (Q : A -> list nat -> Prop) : Q a [] -> builds (mret a) Q.
Proof. intros HQ s. exists s, (Ok a). split; [done|]. split; [done|]. intros ? [= <-]. exists []. split_and!; [constructor|constructor|done]. Qed.

Lemma builds_lift {A} (r : result A) (Q : A -> list nat -> Prop) : (forall a, r = Ok a -> Q a []) -> builds (liftP r) Q.
Proof. intros HQ s. exists s, r. split; [done|]. split; [done|]. intros a Ha. exists []. split_and!; [constructor|constructor|by apply HQ]. Qed.

Lemma builds_throw {A} e (Q : A -> list nat -> Prop) : builds (throwP e) Q.
Proof. by apply builds_lift. Qed.

Lemma builds_bind {A B} (f : P objects A) (g : A -> P objects B) (Q : A -> list nat -> Prop) (Q' : B -> list nat -> Prop) :
  builds f Q -> (forall a T, Q a T -> builds (g a) (fun b T' => Q' b (T ++ T'))) -> builds (f ≫= g) Q'.
Proof.
  intros Hf Hg s. destruct (Hf s) as (s1 & [a|e] & E1 & Hl & Ha).
  - destruct (Ha a eq_refl) as (T & HD & HT & HQ). destruct (Hg a T HQ s1) as (s2 & r & E2 & Hl2 & Hb).
    exists s2, r. rewrite (bind_some _ _ _ _ _ E1). split; [done|]. split; [lia|]. intros b Hr.
    destruct (Hb b Hr) as (T' & HD' & HT' & HQ'). exists (T ++ T'). split; [|split; [|done]].
    + apply list.NoDup_app. split_and!; [done| |done]. intros i Hi Hi'.
      rewrite Forall_forall in HT, HT'. apply list_elem_of_In in Hi, Hi'. specialize (HT i Hi). specialize (HT' i Hi'). lia.
    + apply Forall_app. split; (eapply Forall_impl; [|done]); simpl; lia.
  - exists s1, (Throw e). split; [unfold mbind, P_bind; by rewrite E1|]. by split.
Qed.

(** A step that makes no matcher that is kept. *)
Lemma builds_new : builds RegexMatcher_ (fun i T => T = [i]).
Proof.
  intros s. eexists _, _. split; [done|]. simpl. rewrite length_app. simpl. split; [lia|].
  intros a [= <-]. eexists. split; [|split; [|done]]; [apply NoDup_singleton|]. constructor; [lia|constructor].
Qed.

Lemma builds_pushRef i : builds (pushRef i) (fun _ T => T = []).
Proof.
  intros s. eexists _, _. split; [done|]. simpl. split; [lia|]. intros a _. eexists. split; [|split; [|done]]; constructor.
Qed.

Lemma builds_mono {A} (f : P objects A) (Q Q' : A -> list nat -> Prop) :
  builds f Q -> (forall a T, Q a T -> Q' a T) -> builds f Q'.
Proof.
  intros Hf HQ s. destruct (Hf s) as (s1 & r & E1 & Hl & Ha). exists s1, r. split; [done|]. split; [done|].
  intros a Hr. destruct (Ha a Hr) as (T & HD & HT & HQT). eauto.
Qed.

Lemma pseudo_loop_builds k : builds (pseudo_loop k) (fun ps T => T = ps /\ length ps = k).
Proof.
  induction k as [|k IH]; simpl; [by apply builds_ret|].
  eapply builds_bind; [apply builds_new|]. intros p ? ->. eapply builds_bind; [apply builds_pushRef|]. intros _ ? ->.
  eapply builds_bind; [exact IH|]. intros ps ? [-> <-]. by apply builds_ret; rewrite app_nil_r.
Qed.

Lemma newComponentMatcher_builds e :
  builds (newComponentMatcher e true) (fun cm T => T = component_ids cm /\ component_wf cm /\ c_expr cm = e).
Proof.
  eapply builds_bind; [apply builds_new|]. intros i ? ->.
  eapply (builds_bind _ _ (fun _ T => T = [])); [by apply builds_lift|]. intros r ? ->.
  eapply builds_bind; [apply builds_new|]. intros p0 ? ->. eapply builds_bind; [apply pseudo_loop_builds|]. intros ps ? [-> Hps].
  apply builds_ret. rewrite app_nil_r. split; [done|]. split; [|done]. split; [done|]. simpl. by rewrite Hps.
Qed.

Lemma extractComponent_shrinks d rest comp next : extractComponent d rest = Ok (comp, next) -> (length next < length rest)%nat.
Proof.
  revert d comp next. induction rest as [|c rest IH]; intros d comp next H; simpl in *; [done|].
  assert (Hd : forall d', (r ← extractComponent d' rest; let '(comp, next) := r : bytes * bytes in Ok (c :: comp, next))
    = Ok (comp, next) -> (length next < S (length rest))%nat).
  { intros d' H'. destruct (extractComponent d' rest) as [[a b]|] eqn:E; simplify_eq/=. apply IH in E. lia. }
  case_match; [done|]. case_match; [by eapply Hd|]. case_match; [|by eapply Hd].
  destruct d as [|[|d]]; simplify_eq; try lia. by eapply Hd.
Qed.

Lemma compileMultipleComponents_builds fuel rest : (length rest < fuel)%nat ->
  builds (compileMultipleComponents fuel rest) (fun cs T => T = concat (map component_ids cs) /\ Forall component_wf cs).
Proof.
  revert rest. induction fuel as [|fuel IH]; intros rest Hl; [lia|]. cbn [compileMultipleComponents].
  destruct (1 <? len rest) eqn:E1; [|destruct (negb _); [apply builds_throw|by apply builds_ret]].
  destruct rest as [|c rest]; [done|]. destruct (negb _); [apply builds_throw|].
  destruct (extractComponent 1 rest) as [[comp next]|] eqn:Ec; [|apply builds_throw].
  change (builds (m ← newComponentMatcher comp true; ms ← compileMultipleComponents fuel next; mret (m :: ms))
    (fun cs T => T = concat (map component_ids cs) /\ Forall component_wf cs)).
  eapply builds_bind; [apply newComponentMatcher_builds|]. intros cm ? (-> & Hcm & _).
  eapply builds_bind; [apply IH; apply extractComponent_shrinks in Ec; simpl in Hl; lia|]. intros cs ? [-> Hcs].
  apply builds_ret. rewrite app_nil_r. split; [done|]. by constructor.
Qed.

Definition built (m : matcher) (T : list nat) : Prop := T = ids m /\ wf m.

Lemma newComponentSetMatcher_builds e : builds (newComponentSetMatcher e) built.
Proof.
  eapply builds_bind; [apply builds_new|]. intros i ? ->.
  assert (Hset : forall (incl : bool) (f : P objects (list component_matcher)),
    builds f (fun cs T => T = concat (map component_ids cs) /\ Forall component_wf cs) ->
    builds (cs ← f; mret (RegexComponentSetMatcher i e incl cs)) (fun m T => built m ([i] ++ T))).
  { intros incl f Hf. eapply builds_bind; [exact Hf|]. intros cs ? [-> Hcs]. apply builds_ret. rewrite app_nil_r. done. }
  case_match; [apply builds_throw|]. case_match.
  - apply Hset. unfold compileSingleComponent. destruct (extractComponent 1 (drop 1 e)) as [[comp next]|]; [|apply builds_throw].
    change (builds (if negb (bool_decide (next = [])) then throwP (error "Component expr error")
      else m ← newComponentMatcher comp true; mret [m]) (fun cs T => T = concat (map component_ids cs) /\ Forall component_wf cs)).
    case_match; [apply builds_throw|]. eapply builds_bind; [apply newComponentMatcher_builds|]. intros cm ? (-> & Hcm & _).
    apply builds_ret. simpl. rewrite !app_nil_r. split; [done|]. by constructor.
  - case_match; [|apply builds_throw]. case_match; [apply builds_throw|].
    bool_to_prop. assert (0 < length e)%nat by (unfold len in *; lia).
    case_match; apply Hset, compileMultipleComponents_builds; rewrite length_drop; lia.
Qed.

Lemma scan_digits_nonneg x : forall acc, 0 <= acc -> 0 <= scan_digits acc x.
Proof.
  induction x as [|c x IH]; intros acc Hacc; simpl; [done|]. destruct (isDigit c) eqn:E; [|done].
  apply IH. unfold isDigit, between in E. bool_to_prop. change (b2z (chr "0")) with 48 in *. lia.
Qed.

Lemma stoul_range x n : stoul_or_error x = Ok n -> 0 <= n <= UINT64_MAX.
Proof.
  unfold stoul_or_error, stoull. destruct (strto_subject x) as [[neg k]|] eqn:E; [|done].
  assert (Hk : 0 <= k).
  { unfold strto_subject in E. repeat case_match; simplify_eq; by apply scan_digits_nonneg. }
  destruct (UINT64_MAX <? k) eqn:Ek; [done|]. intros [= <-]. bool_to_prop. destruct neg; [|done].
  unfold u64, UINT64_MAX. pose proof (Z.mod_pos_bound (- k) (2 ^ 64) ltac:(lia)). lia.
Qed.

Lemma parseRepetition_range q lo hi : parseRepetition q = Ok (lo, hi) -> 0 <= lo <= hi.
Proof.
  assert (Hb : forall q, parseBraces q = Ok (lo, hi) -> 0 <= lo <= hi).
  { clear q. intros q. unfold parseBraces. case_match; [done|]. destruct (split_comma _) as [[a b]|].
    - repeat case_match; simpl;
        try destruct (stoul_or_error a) eqn:Ea; simpl; try destruct (stoul_or_error b) eqn:Eb; simpl; try done.
      all: try (case_match; try done; bool_to_prop). all: intros [= <- <-].
      all: repeat match goal with H : stoul_or_error _ = Ok _ |- _ => apply stoul_range in H end; unfold MAX_REPETITIONS; lia.
    - case_match; [|done]. destruct (stoul_or_error _) eqn:Ea; [|done]. intros [= <- <-]. apply stoul_range in Ea. lia. }
  destruct q as [|c [|d q]]; simpl.
  - intros [= <- <-]. lia.
  - repeat case_match; intros E; simplify_eq; unfold MAX_REPETITIONS, UINT64_MAX; lia.
  - apply Hb.
Qed.

Lemma extractSubPattern_app l r d rest sub next : extractSubPattern l r d rest = Ok (sub, next) ->
  rest = sub ++ next /\ (0 < d -> 0 < length sub)%nat.
Proof.
  revert d sub. induction rest as [|c rest IH]; intros [|d] sub H; simpl in H; simplify_eq/=; try (split; [done|lia]).
  destruct (extractSubPattern _ _ _ rest) as [[a b]|] eqn:E; simplify_eq/=. apply IH in E as [-> _]. split; [done|lia].
Qed.

Lemma brace_loop_app rest q next : brace_loop rest = Ok (q, next) -> rest = q ++ next.
Proof.
  revert q. induction rest as [|c rest IH]; intros q H; simpl in H; [done|].
  case_match; simplify_eq/=; [done|]. destruct (brace_loop rest) as [[a b]|] eqn:E; simplify_eq/=. by rewrite (IH a).
Qed.

Lemma extractRepetition_app rest q next : extractRepetition rest = Ok (q, next) -> rest = q ++ next.
Proof.
  destruct rest as [|c rest]; simpl; intros H; simplify_eq/=; [done|]. case_match; simplify_eq/=; [done|].
  case_match; simplify_eq/=; [by apply brace_loop_app|done].
Qed.

Lemma newBackrefMatcher_builds rec e :
  (forall e', (length e' + 2 <= length e)%nat -> builds (rec e') built) -> builds (newBackrefMatcher rec e) built.
Proof.
  intros Hrec. eapply builds_bind; [apply builds_new|]. intros i ? ->. eapply builds_bind; [apply builds_pushRef|]. intros _ ? ->.
  eapply (builds_bind _ _ (fun ms T => T = concat (map ids ms) /\ Forall wf ms)).
  - unfold backref_compile. case_match; [apply builds_throw|]. bool_to_prop. case_match; [|apply builds_throw].
    eapply builds_bind; [apply Hrec; rewrite length_take, length_drop; unfold len in *; lia|]. intros m ? [-> Hw]. apply builds_ret.
    simpl. split; [done|by constructor].
  - intros ms ? [-> Hw]. apply builds_ret. rewrite !app_nil_r. split; [done|]. simpl. by apply wf_list.
Qed.

Lemma newRepeatMatcher_builds rec p q :
  (forall e', (length e' + 2 <= length p)%nat -> builds (rec e') built) -> builds (newRepeatMatcher rec p q) built.
Proof.
  intros Hrec. eapply builds_bind; [apply builds_new|]. intros i ? ->.
  eapply (builds_bind _ _ built); [case_match; [by apply newBackrefMatcher_builds|apply newComponentSetMatcher_builds]|].
  intros m ? [-> Hw]. eapply (builds_bind _ _ (fun r T => T = [] /\ 0 <= r.1 <= r.2)).
  - apply builds_lift. intros [lo hi] E. split; [done|]. by apply parseRepetition_range in E.
  - intros [lo hi] ? [-> Hr]. apply builds_ret. rewrite !app_nil_r. split; [done|]. done.
Qed.

(** The three kinds of brackets are treated alike. *)
Definition build (group : bool) (rec : bytes -> P objects matcher) (p q : bytes) : P objects matcher :=
  if group && bool_decide (q = []) then newBackrefMatcher rec p else newRepeatMatcher rec p q.

Definition bracketed (left right : byte) (f : bytes -> bytes -> P objects matcher) (c : byte) (rest : bytes) : P objects (matcher * bytes) :=
  r ← liftP (extractSubPattern left right 1 rest);
  let '(sub, next) := r : bytes * bytes in
  r ← liftP (extractRepetition next);
  let '(q, next) := r : bytes * bytes in
  m ← f (c :: sub) q; mret (m, next).

Lemma extractPattern_cases (c : byte) :
  (exists left right group, forall rec rest, extractPattern rec (c :: rest) = bracketed left right (build group rec) c rest) \/
  (forall rec rest, extractPattern rec (c :: rest) = throwP (error "Unexpected character ")).
Proof.
  simpl. repeat case_match; [left; by exists (chr "("), (chr ")"), true|left; by exists (chr "<"), (chr ">"), false|
    left; by exists (chr "["), (chr "]"), false|by right].
Qed.

(** How a bracketed pattern is read. *)
Lemma bracketed_inv left right (c : byte) rest :
  (exists e, forall f, bracketed left right f c rest = throwP e) \/
  (exists sub q next, rest = sub ++ q ++ next /\ extractSubPattern left right 1 rest = Ok (sub, q ++ next) /\
    extractRepetition (q ++ next) = Ok (q, next) /\ forall f, bracketed left right f c rest = (m ← f (c :: sub) q; mret (m, next))).
Proof.
  unfold bracketed, mbind, P_bind, liftP. destruct (extractSubPattern left right 1 rest) as [[sub next1]|e] eqn:E1; [|left; by exists e].
  destruct (extractRepetition next1) as [[q next]|e] eqn:E2; [right|left; by exists e].
  pose proof (extractSubPattern_app _ _ _ _ _ _ E1) as [-> _]. pose proof (extractRepetition_app _ _ _ E2) as ->.
  exists sub, q, next. done.
Qed.

Lemma extractPattern_builds rec rest :
  (forall e', (length e' + 2 <= length rest)%nat -> builds (rec e') built) ->
  builds (extractPattern rec rest) (fun r T => built r.1 T /\ (length r.2 < length rest)%nat).
Proof.
  intros Hrec. destruct rest as [|c rest]; [apply builds_throw|].
  destruct (extractPattern_cases c) as [(left & right & g & ->)| ->]; [|apply builds_throw].
  destruct (bracketed_inv left right c rest) as [[e ->]|(sub & q & next & -> & _ & _ & ->)]; [apply builds_throw|].
  eapply builds_bind.
  - unfold build. case_match; [apply newBackrefMatcher_builds|apply newRepeatMatcher_builds]; intros e' He'; apply Hrec;
      simpl in *; rewrite !length_app; lia.
  - intros m ? [-> Hw]. apply builds_ret. rewrite app_nil_r. split; [done|]. simpl. rewrite !length_app. lia.
Qed.

Lemma patterns_loop_builds rec fuel rest : (length rest <= fuel)%nat ->
  (forall e', (length e' + 2 <= length rest)%nat -> builds (rec e') built) ->
  builds (patterns_loop rec fuel rest) (fun ms T => T = concat (map ids ms) /\ Forall wf ms).
Proof.
  revert rest. induction fuel as [|fuel IH]; intros [|c rest] Hl Hrec; try (by apply builds_ret); [simpl in Hl; lia|].
  cbn [patterns_loop]. eapply builds_bind; [by apply extractPattern_builds|]. intros [m next] T [[-> Hw] Hlt]. simpl in Hlt.
  eapply builds_bind; [apply IH; [simpl in *; lia|intros e' He'; apply Hrec; simpl in *; lia]|]. intros ms ? [-> Hws]. apply builds_ret.
  rewrite app_nil_r. split; [done|]. by constructor.
Qed.

(** Compiling an expression returns, with a well-formed tree of different
    matchers or with an exception. *)
Lemma newPatternListMatcher_builds fuel e : (length e < fuel)%nat -> builds (newPatternListMatcher fuel e) built.
Proof.
  revert e. induction fuel as [|fuel IH]; intros e Hl; [lia|]. simpl.
  eapply builds_bind; [apply builds_new|]. intros i ? ->.
  eapply builds_bind; [apply patterns_loop_builds; [done|intros e' He'; apply IH; lia]|]. intros ms ? [-> Hw].
  apply builds_ret. rewrite app_nil_r. split; [done|]. simpl. by apply wf_list.
Qed.

(** *** The top matcher *)

(** A tree and its objects, as compilation makes them and matching keeps
    them. *)
Definition tree_wf (m : matcher) (s : objects) : Prop := wf m /\ NoDup (ids m) /\ allocated (ids m) s.

Definition top_wf (t : top_matcher) : Prop :=
  tree_wf (m_primaryMatcher t) (m_primary t) /\
  forall m2, m_secondaryMatcher t = Some m2 -> tree_wf m2 (m_secondary t).

Lemma compileTree_wf e : exists r, compileTree e = Some r /\ forall m s, r = Ok (m, s) -> tree_wf m s.
Proof.
  unfold compileTree. destruct (newPatternListMatcher_builds (S (length e)) e ltac:(lia) noObjects) as (s & r & -> & _ & Hr).
  destruct r as [m|e']; eexists; (split; [done|]); intros ? ? [=]; subst.
  destruct (Hr _ eq_refl) as (T & HD & HT & -> & Hw). split; [done|]. split; [done|]. eapply Forall_impl; [|exact HT]. simpl. lia.
Qed.

Lemma tree_wf_frame m s s' : tree_wf m s -> frame (ids m) s s' -> tree_wf m s'.
Proof. intros (H1 & H2 & H3) Hf. split; [done|]. split; [done|]. by eapply allocated_frame. Qed.

(** What a call on a whole tree does. *)
Lemma tree_match name m s fuel : tree_wf m s -> Forall uri_ok (Name.components name) -> progresses m = true ->
  (length (Name.components name) < fuel)%nat ->
  exists s' b, match_ env fuel name m 0 (Z.to_nat (Name.size name)) s = Some (s', Ok b) /\ tree_wf m s' /\
    (b = true <-> language m (Name.components name)) /\ (b = true -> recorded m s' (Name.components name)) /\ m_backrefs s' = m_backrefs s.
Proof.
  intros Ht Hn Hp Hf. destruct Ht as (Hw & HD & Hal).
  assert (Hr : in_range name 0 (Z.to_nat (Name.size name))).
  { unfold in_range. rewrite NameFacts.size_len, to_nat_len. lia. }
  destruct (match_decides name m (length (Name.components name)) fuel Hw Hp Hn Hf 0%nat (Z.to_nat (Name.size name)) s Hr) as (s' & b & E & Hb).
  { rewrite NameFacts.size_len, to_nat_len. lia. }
  destruct (match_sound name m fuel Hw HD Hn _ _ _ _ _ Hr Hal E) as [Hfr (? & [= <-] & Hrec)]. rewrite slice_full in Hb, Hrec.
  exists s', b. split; [done|]. split; [by eapply tree_wf_frame|]. split; [done|]. split; [done|]. apply Hfr.
Qed.

Lemma recorded_self m s w : recorded m s w -> getMatchResult (selfOf m) s = w.
Proof. destruct m; simpl; [by intros [? _]..|]. by intros (c & -> & ? & _). Qed.

(** The names a top matcher stands for. *)
Definition top_language (t : top_matcher) (w : list Component.t) : Prop :=
  language (m_primaryMatcher t) w \/ exists m2, m_secondaryMatcher t = Some m2 /\ language m2 w.

(** No repeated group of the expression accepts the empty sequence. *)
Definition top_progresses (t : top_matcher) : bool :=
  progresses (m_primaryMatcher t) && match m_secondaryMatcher t with Some m2 => progresses m2 | None => true end.

(** The tree and the objects the last successful match used. *)
Definition used_tree (t : top_matcher) : option (matcher * objects) :=
  if m_isSecondaryUsed t then (fun m2 => (m2, m_secondary t)) <$> m_secondaryMatcher t
  else Some (m_primaryMatcher t, m_primary t).

Lemma top_match_spec fuel name t : top_wf t -> top_progresses t = true -> Forall uri_ok (Name.components name) ->
  (length (Name.components name) < fuel)%nat ->
  exists t' b, top_match env fuel name t = Some (t', Ok b) /\ top_wf t' /\
    m_primaryMatcher t' = m_primaryMatcher t /\ m_secondaryMatcher t' = m_secondaryMatcher t /\
    (b = true <-> top_language t (Name.components name)) /\
    m_matchResult t' = (if b then Name.components name else []) /\
    (b = true -> exists m s, used_tree t' = Some (m, s) /\ recorded m s (Name.components name)).
Proof.
  intros [Ht1 Ht2] [Hp1 Hp2]%andb_true_iff Hn Hf.
  destruct (tree_match name _ _ fuel Ht1 Hn Hp1 Hf) as (s1 & b1 & E1 & Hw1 & Hb1 & Hr1 & _). unfold top_match. rewrite E1.
  unfold top_language. destruct b1.
  { eexists _, _. split; [done|]. split; [done|]. split; [done|]. split; [done|]. split; [split; [intros _; left; by apply Hb1|done]|].
    split; [apply recorded_self, Hr1; done|]. intros _. eexists _, _. split; [done|]. by apply Hr1. }
  destruct (m_secondaryMatcher t) as [m2|] eqn:E2.
  - destruct (tree_match name _ _ fuel (Ht2 m2 eq_refl) Hn Hp2 Hf) as (s2 & b2 & E3 & Hw2 & Hb2 & Hr2 & _). rewrite E3.
    destruct b2; eexists _, _; (split; [done|]); (split; [split; [done|]; simpl; intros ? [= <-]; done|]); (split; [done|]); (split; [done|]).
    + split; [split; [intros _; right; exists m2; split; [done|]; by apply Hb2|done]|]. split; [apply recorded_self, Hr2; done|].
      intros _. eexists _, _. split; [done|]. by apply Hr2.
    + split; [|done]. split; [done|]. intros [?%Hb1|(? & [= <-] & ?%Hb2)]; done.
  - eexists _, _. split; [done|]. split; [done|]. split; [done|]. split; [done|]. split; [|done].
    split; [done|]. intros [?%Hb1|(? & ? & _)]; done.
Qed.

Lemma newTopMatcher_wf e x : e <> [] -> exists r, newTopMatcher e x = Some r /\ forall t, r = Ok t -> top_wf t.
Proof.
  intros He. unfold newTopMatcher, end_anchor. destruct (list.last e) as [c|] eqn:El; [|by apply last_None in El].
  set (e' := if bool_decide (c = chr "$") then _ else _). clearbody e'. cbn iota. case_match.
  - destruct (compileTree_wf (drop 1 e')) as (r & -> & Hr). destruct r as [[m s]|]; eexists; (split; [done|]); intros t [=]; subst.
    split; [by apply Hr|done].
  - destruct (compileTree_wf (wildcard ++ e')) as (r & -> & Hr). destruct r as [[m2 s2]|]; [|by eexists].
    destruct (compileTree_wf e') as (r & -> & Hr'). destruct r as [[m s]|]; eexists; (split; [done|]); intros t [=]; subst.
    split; [by apply Hr'|]. intros ? [= <-]. by apply Hr.
Qed.

(** *** Compiling the same expression twice

    The tree an expression compiles to does not depend, up to the numbers of
    its objects, on the matchers made before, nor on the depth allowed. *)

Definition similar (m m' : matcher) : Prop :=
  (forall w, language m w <-> language m' w) /\ nullable m = nullable m' /\ progresses m = progresses m'.

Definition csimilar (c c' : component_matcher) : Prop :=
  c_expr c = c_expr c' /\ m_componentRegex c = m_componentRegex c'.

Lemma similar_refl m : similar m m.
Proof. done. Qed.

Lemma similar_list ms ms' : Forall2 similar ms ms' ->
  (forall w, seq_language (map language ms) w <-> seq_language (map language ms') w) /\
  forallb nullable ms = forallb nullable ms' /\ forallb progresses ms = forallb progresses ms'.
Proof.
  intros HF. split; [|split].
  - intros w. apply seq_language_equiv. induction HF as [|m m' ms ms' Hm _ IH]; constructor; [apply Hm|done].
  - induction HF as [|m m' ms ms' (_ & Hm & _) _ IH]; simpl; congruence.
  - induction HF as [|m m' ms ms' (_ & _ & Hm) _ IH]; simpl; congruence.
Qed.

Lemma similar_repeat i i' e e' m m' lo hi : similar m m' ->
  similar (RegexRepeatMatcher i e m lo hi) (RegexRepeatMatcher i' e' m' lo hi).
Proof.
  intros (Hl & Hn & Hp). split; [|simpl; split; congruence]. intros w. simpl.
  assert (Hpow : forall n, power (language m) n w <-> power (language m') n w).
  { intros n. apply seq_language_equiv. by apply Forall2_replicate. }
  split; intros (n & ? & ?%Hpow); eauto.
Qed.

Lemma similar_set i i' e e' b cs cs' : Forall2 csimilar cs cs' ->
  similar (RegexComponentSetMatcher i e b cs) (RegexComponentSetMatcher i' e' b cs').
Proof.
  intros HF. split; [|done]. intros w. simpl.
  assert (Hex : forall c, existsb (fun cm => accepts cm c) cs = existsb (fun cm => accepts cm c) cs').
  { intros c. induction HF as [|cm cm' cs cs' [H1 H2] _ IH]; [done|]. simpl. unfold accepts at 1 3. by rewrite H1, H2, IH. }
  by setoid_rewrite Hex.
Qed.

Definition same {A} (f g : P objects A) (E : A -> A -> Prop) : Prop := forall s s',
  match f s, g s' with
  | Some (_, Ok a), Some (_, Ok b) => E a b
  | Some (_, Throw x), Some (_, Throw y) => x = y
  | None, None => True
  | _, _ => False
  end.

Lemma same_bind {A B} (f f' : P objects A) (g g' : A -> P objects B) E E' :
  same f f' E -> (forall a b, E a b -> same (g a) (g' b) E') -> same (f ≫= g) (f' ≫= g') E'.
Proof.
  intros Hf Hg s s'. specialize (Hf s s'). unfold mbind, P_bind.
  destruct (f s) as [[s1 [a|x]]|], (f' s') as [[s1' [b|y]]|]; try done. by apply Hg.
Qed.

Lemma same_ret {A} (a b : A) (E : A -> A -> Prop) : E a b -> same (mret a) (mret b) E.
Proof. by intros ? s s'. Qed.

Lemma same_lift {A} (r : result A) : same (liftP r) (liftP r) eq.
Proof. intros s s'. by destruct r. Qed.

Lemma same_throw {A} x (E : A -> A -> Prop) : same (throwP x) (throwP x) E.
Proof. by intros s s'. Qed.

Lemma same_new : same RegexMatcher_ RegexMatcher_ (fun _ _ => True).
Proof. by intros s s'. Qed.

Lemma same_pushRef i i' : same (pushRef i) (pushRef i') (fun _ _ => True).
Proof. by intros s s'. Qed.

Lemma pseudo_loop_same k : same (pseudo_loop k) (pseudo_loop k) (fun _ _ => True).
Proof.
  induction k as [|k IH]; simpl; [by apply same_ret|]. eapply same_bind; [apply same_new|]. intros ? ? _.
  eapply same_bind; [apply same_pushRef|]. intros ? ? _. eapply same_bind; [exact IH|]. intros ? ? _. by apply same_ret.
Qed.

Lemma newComponentMatcher_same e : same (newComponentMatcher e true) (newComponentMatcher e true) csimilar.
Proof.
  eapply same_bind; [apply same_new|]. intros ? ? _. eapply same_bind; [apply same_lift|]. intros ? ? <-.
  eapply same_bind; [apply same_new|]. intros ? ? _. eapply same_bind; [apply pseudo_loop_same|]. intros ? ? _. by apply same_ret.
Qed.

Lemma compileMultipleComponents_same fuel rest :
  same (compileMultipleComponents fuel rest) (compileMultipleComponents fuel rest) (Forall2 csimilar).
Proof.
  revert rest. induction fuel as [|fuel IH]; intros rest; [by intros s s'|]. cbn [compileMultipleComponents].
  case_match; [|case_match; [apply same_throw|by apply same_ret]]. destruct rest as [|c rest]; [by intros s s'|].
  case_match; [apply same_throw|]. eapply same_bind; [apply same_lift|]. intros [comp next] ? <-.
  eapply same_bind; [apply newComponentMatcher_same|]. intros ? ? ?. eapply same_bind; [apply IH|]. intros ? ? ?.
  apply same_ret. by constructor.
Qed.

Lemma newComponentSetMatcher_same e : same (newComponentSetMatcher e) (newComponentSetMatcher e) similar.
Proof.
  eapply same_bind; [apply same_new|]. intros ? ? _.
  repeat (case_match; try apply same_throw); (eapply same_bind; [|intros ? ? ?; apply same_ret; by apply similar_set]);
    try apply compileMultipleComponents_same.
  eapply same_bind; [apply same_lift|]. intros [comp next] ? <-. case_match; [apply same_throw|].
  eapply same_bind; [apply newComponentMatcher_same|]. intros ? ? ?. apply same_ret. constructor; [done|constructor].
Qed.

Lemma newBackrefMatcher_same rec rec' e :
  (forall e', (length e' + 2 <= length e)%nat -> same (rec e') (rec' e') similar) ->
  same (newBackrefMatcher rec e) (newBackrefMatcher rec' e) similar.
Proof.
  intros Hrec. eapply same_bind; [apply same_new|]. intros ? ? _. eapply same_bind; [apply same_pushRef|]. intros ? ? _.
  eapply (same_bind _ _ _ _ (Forall2 similar)); [|intros ms ms' HF; apply same_ret; by apply similar_list].
  unfold backref_compile. case_match; [apply same_throw|]. bool_to_prop. case_match; [|apply same_throw].
  eapply same_bind; [apply Hrec; rewrite length_take, length_drop; unfold len in *; lia|]. intros ? ? ?. apply same_ret. constructor; [done|constructor].
Qed.

Lemma newRepeatMatcher_same rec rec' p q :
  (forall e', (length e' + 2 <= length p)%nat -> same (rec e') (rec' e') similar) ->
  same (newRepeatMatcher rec p q) (newRepeatMatcher rec' p q) similar.
Proof.
  intros Hrec. eapply same_bind; [apply same_new|]. intros ? ? _.
  eapply (same_bind _ _ _ _ similar); [case_match; [by apply newBackrefMatcher_same|apply newComponentSetMatcher_same]|].
  intros m m' Hm. eapply same_bind; [apply same_lift|]. intros [lo hi] ? <-. apply same_ret. by apply similar_repeat.
Qed.

Lemma extractPattern_same rec rec' rest :
  (forall e', (length e' + 2 <= length rest)%nat -> same (rec e') (rec' e') similar) ->
  same (extractPattern rec rest) (extractPattern rec' rest)
    (fun r r' => similar r.1 r'.1 /\ r.2 = r'.2 /\ (length r.2 < length rest)%nat).
Proof.
  intros Hrec. destruct rest as [|c rest]; [apply same_throw|].
  destruct (extractPattern_cases c) as [(left & right & g & HE)|HE]; rewrite !HE; [|apply same_throw].
  destruct (bracketed_inv left right c rest) as [[e HB]|(sub & q & next & -> & _ & _ & HB)]; rewrite !HB; [apply same_throw|].
  eapply same_bind.
  - unfold build. case_match; [apply newBackrefMatcher_same|apply newRepeatMatcher_same]; intros e' He'; apply Hrec;
      simpl in *; rewrite !length_app; lia.
  - intros m m' Hm. apply same_ret. simpl. split; [done|]. split; [done|]. rewrite !length_app. lia.
Qed.

Lemma patterns_loop_same rec rec' fuel fuel' rest : (length rest <= fuel)%nat -> (length rest <= fuel')%nat ->
  (forall e', (length e' + 2 <= length rest)%nat -> same (rec e') (rec' e') similar) ->
  same (patterns_loop rec fuel rest) (patterns_loop rec' fuel' rest) (Forall2 similar).
Proof.
  revert fuel' rest. induction fuel as [|fuel IH]; intros [|fuel'] [|c rest] Hl Hl' Hrec; try (by apply same_ret); try (simpl in *; lia).
  cbn [patterns_loop]. eapply same_bind; [by apply extractPattern_same|]. intros [m next] [m' next'] (Hm & Hn & Hlt). simpl in Hm, Hn, Hlt. subst.
  eapply same_bind; [apply IH; [simpl in *; lia|simpl in *; lia|intros e' He'; apply Hrec; simpl in *; lia]|].
  intros ms ms' Hms. apply same_ret. by constructor.
Qed.

Lemma newPatternListMatcher_same fuel fuel' e : (length e < fuel)%nat -> (length e < fuel')%nat ->
  same (newPatternListMatcher fuel e) (newPatternListMatcher fuel' e) similar.
Proof.
  revert fuel' e. induction fuel as [|fuel IH]; intros [|fuel'] e Hl Hl'; try lia. simpl.
  eapply same_bind; [apply same_new|]. intros ? ? _.
  eapply same_bind; [apply patterns_loop_same; [done|done|intros e' He'; apply IH; lia]|]. intros ms ms' HF.
  apply same_ret. by apply similar_list.
Qed.

(** *** Concatenation of expressions *)

(** [x] does not start with a quantifier. *)
Definition no_quantifier (x : bytes) : Prop := extractRepetition x = Ok ([], x).

Lemma extractSubPattern_ext l r d rest sub next x : extractSubPattern l r d rest = Ok (sub, next) ->
  extractSubPattern l r d (rest ++ x) = Ok (sub, next ++ x).
Proof.
  revert d sub. induction rest as [|c rest IH]; intros [|d] sub H; simpl in H |- *; simplify_eq/=; try done.
  - by destruct x.
  - destruct (extractSubPattern _ _ _ rest) as [[a b]|] eqn:E; simplify_eq/=. by rewrite (IH _ a).
Qed.

Lemma extractRepetition_ext rest q next x : no_quantifier x -> extractRepetition rest = Ok (q, next) ->
  extractRepetition (rest ++ x) = Ok (q, next ++ x).
Proof.
  intros Hx. destruct rest as [|c rest]; intros H.
  - simpl in H. injection H as <- <-. exact Hx.
  - simpl in H |- *. case_match; [by simplify_eq|]. case_match; [|by simplify_eq].
    assert (Hb : forall l q, brace_loop l = Ok (q, next) -> brace_loop (l ++ x) = Ok (q, next ++ x)); [|by apply (Hb (c :: rest))].
    clear. induction l as [|c l IH]; intros q H; simpl in H |- *; [done|]. case_match; [by simplify_eq|].
    destruct (brace_loop l) as [[a b]|] eqn:E; simplify_eq/=. by rewrite (IH a).
Qed.

Lemma extractPattern_ext rec rest s s1 m next x : no_quantifier x ->
  extractPattern rec rest s = Some (s1, Ok (m, next)) ->
  extractPattern rec (rest ++ x) s = Some (s1, Ok (m, next ++ x)) /\ (length next < length rest)%nat.
Proof.
  intros Hx. destruct rest as [|c rest]; [done|]. cbn [app].
  destruct (extractPattern_cases c) as [(left & right & g & HE)|HE]; rewrite !HE; [|done].
  destruct (bracketed_inv left right c rest) as [[e ->]|(sub & q & next' & -> & E1 & E2 & ->)]; [done|].
  intros [(s2 & m2 & E & [= <- <- <-])|(? & _ & ?)]%bind_inv; [|done]. split.
  - unfold bracketed. unfold mbind, P_bind, liftP.
    rewrite (extractSubPattern_ext _ _ _ _ _ _ x E1), (extractRepetition_ext _ _ _ x Hx E2), E. done.
  - simpl. rewrite !length_app. lia.
Qed.

Lemma patterns_app rec fuel : forall fuel' e1 x s s1 ms1, no_quantifier x ->
  patterns_loop rec fuel e1 s = Some (s1, Ok ms1) -> (length e1 + length x <= fuel')%nat ->
  exists fuel'', (length x <= fuel'')%nat /\
    patterns_loop rec fuel' (e1 ++ x) s = (ms2 ← patterns_loop rec fuel'' x; mret (ms1 ++ ms2)) s1.
Proof.
  induction fuel as [|fuel IH]; intros fuel' [|c e1] x s s1 ms1 Hx E Hl; try done.
  1,2: injection E as <- <-; exists fuel'; split; [simpl in Hl; lia|]; simpl; unfold mbind, P_bind;
    by destruct (patterns_loop rec fuel' x s) as [[? []]|].
  cbn [patterns_loop] in E. apply bind_inv in E as [(s2 & [m next] & E1 & E)|(? & _ & ?)]; [|done].
  apply bind_inv in E as [(s3 & ms & E2 & E)|(? & _ & ?)]; [|done]. injection E as <- <-.
  destruct fuel' as [|fuel']; [simpl in Hl; lia|].
  apply (extractPattern_ext _ _ _ _ _ _ x Hx) in E1 as [E1 Hlt].
  destruct (IH fuel' next x s2 s3 ms Hx E2 ltac:(simpl in *; lia)) as (fuel'' & Hf & E3). exists fuel''. split; [done|].
  cbn [app patterns_loop]. change (c :: e1 ++ x) with ((c :: e1) ++ x). rewrite (bind_some _ _ _ _ _ E1).
  unfold mbind, P_bind in E3 |- *. rewrite E3. by destruct (patterns_loop rec fuel'' x s3) as [[? []]|].
Qed.

(** What compiling a list of patterns comes to, from any state and with enough
    depth. *)
Definition compiles (e : bytes) (ms : list matcher) : Prop :=
  forall fuel lf s, (length e <= fuel)%nat -> (length e <= lf)%nat ->
  exists s' ms', patterns_loop (newPatternListMatcher fuel) lf e s = Some (s', Ok ms') /\ Forall2 similar ms ms'.

Lemma compileTree_inv e m s : compileTree e = Some (Ok (m, s)) -> exists i ms, m = RegexPatternListMatcher i e ms /\ compiles e ms.
Proof.
  unfold compileTree. destruct (newPatternListMatcher _ e noObjects) as [[s' [m'|]]|] eqn:E; intros [=]; subst.
  cbn [newPatternListMatcher] in E.
  apply bind_inv in E as [(s1 & i & E1 & E)|(? & _ & ?)]; [|done].
  apply bind_inv in E as [(s2 & ms & E2 & [= <- <-])|(? & _ & ?)]; [|done].
  exists i, ms. split; [done|]. intros fuel lf s0 Hf Hlf.
  pose proof (patterns_loop_same (newPatternListMatcher (length e)) (newPatternListMatcher fuel) (length e) lf e (le_n _) Hlf) as Hs.
  specialize (Hs ltac:(intros; apply newPatternListMatcher_same; lia) s1 s0). rewrite E2 in Hs.
  destruct (patterns_loop _ lf e s0) as [[s' [ms'|]]|]; try done. by exists s', ms'.
Qed.

Lemma compiles_tree e ms : compiles e ms -> exists i ms' s, compileTree e = Some (Ok (RegexPatternListMatcher i e ms', s)) /\ Forall2 similar ms ms'.
Proof.
  intros Hc. unfold compileTree. cbn [newPatternListMatcher]. erewrite bind_some by done.
  destruct (Hc (length e) (length e) (mkObjects (m_matchResults noObjects ++ [[]]) (m_backrefs noObjects)) (le_n _) (le_n _)) as (s' & ms' & E & HF).
  rewrite (bind_some _ _ _ _ _ E). by eexists _, ms', s'.
Qed.

Lemma compiles_app e1 e2 ms1 ms2 : compiles e1 ms1 -> compiles e2 ms2 -> no_quantifier e2 -> compiles (e1 ++ e2) (ms1 ++ ms2).
Proof.
  intros H1 H2 Hq fuel lf s Hf Hlf. rewrite length_app in *.
  destruct (H1 fuel lf s ltac:(lia) ltac:(lia)) as (s1 & ms1' & E1 & F1).
  destruct (patterns_app _ _ lf e1 e2 s s1 ms1' Hq E1 ltac:(lia)) as (lf' & Hlf' & ->).
  destruct (H2 fuel lf' s1 ltac:(lia) ltac:(lia)) as (s2 & ms2' & E2 & F2). rewrite (bind_some _ _ _ _ _ E2).
  eexists _, _. split; [done|]. by apply Forall2_app.
Qed.

Lemma compiles_nil : compiles [] [].
Proof. intros fuel lf s _ _. exists s, []. split; [by destruct lf|constructor]. Qed.

(** A component pattern, which has no angle brackets inside. *)
Definition plain (comp : bytes) : bool :=
  forallb (fun c : byte => negb (bool_decide (c = Byte.x00)) && negb (bool_decide (c = chr "<")) && negb (bool_decide (c = chr ">"))) comp.

Lemma plain_cons (c : byte) comp : plain (c :: comp) = true ->
  bool_decide (c = Byte.x00) = false /\ bool_decide (c = chr "<") = false /\ bool_decide (c = chr ">") = false /\ plain comp = true.
Proof. unfold plain. cbn [forallb]. rewrite !andb_true_iff, !negb_true_iff. tauto. Qed.

Lemma extractSubPattern_plain comp x : plain comp = true ->
  extractSubPattern (chr "<") (chr ">") 1 (comp ++ chr ">" :: x) = Ok (comp ++ [chr ">"], x).
Proof.
  induction comp as [|c comp IH]; [by destruct x|]. intros (_ & H1 & H2 & Hp)%plain_cons.
  cbn [extractSubPattern app]. by rewrite H1, H2, IH.
Qed.

Lemma extractComponent_plain comp : plain comp = true -> extractComponent 1 (comp ++ [chr ">"]) = Ok (comp, []).
Proof.
  induction comp as [|c comp IH]; [done|]. intros (H0 & H1 & H2 & Hp)%plain_cons.
  cbn [extractComponent app]. by rewrite H0, H1, H2, IH.
Qed.

Lemma pseudo_loop_ok k : forall s, exists s' ps, pseudo_loop k s = Some (s', Ok ps).
Proof.
  induction k as [|k IH]; intros s; [by exists s, []|]. cbn [pseudo_loop]. erewrite bind_some by done. erewrite bind_some by done.
  destruct (IH (mkObjects (m_matchResults s ++ [[]]) (m_backrefs s ++ [length (m_matchResults s)]))) as (s' & ps & E).
  rewrite (bind_some _ _ _ _ _ E). by eexists _, _.
Qed.

Lemma newComponentMatcher_ok comp r s : regex_assign comp = Ok r -> exists s' cm,
  newComponentMatcher comp true s = Some (s', Ok cm) /\ c_expr cm = comp /\ m_componentRegex cm = r.
Proof.
  intros Hr. unfold newComponentMatcher. erewrite bind_some by done. erewrite bind_some by (unfold liftP; by rewrite Hr).
  erewrite bind_some by done.
  destruct (pseudo_loop_ok (mark_count r) (mkObjects ((m_matchResults s ++ [[]]) ++ [[]]) (m_backrefs s))) as (s' & ps & E).
  rewrite (bind_some _ _ _ _ _ E). by eexists _, _.
Qed.

Lemma newComponentSetMatcher_plain comp r s : plain comp = true -> regex_assign comp = Ok r -> exists s' j e cm,
  newComponentSetMatcher (chr "<" :: comp ++ [chr ">"]) s = Some (s', Ok (RegexComponentSetMatcher j e true [cm])) /\
  c_expr cm = comp /\ m_componentRegex cm = r.
Proof.
  intros Hp Hr. unfold newComponentSetMatcher. erewrite bind_some by done.
  assert (Hl : len (chr "<" :: comp ++ [chr ">"]) <? 2 = false).
  { rewrite len_cons, len_app. change (len [chr ">"]) with 1. pose proof (len_nonneg comp). lia. }
  rewrite Hl. cbn [head]. rewrite bool_decide_eq_true_2 by done. unfold compileSingleComponent.
  change (drop 1 (chr "<" :: comp ++ [chr ">"])) with (comp ++ [chr ">"]).
  rewrite extractComponent_plain by done.
  destruct (newComponentMatcher_ok comp r (mkObjects (m_matchResults s ++ [[]]) (m_backrefs s)) Hr) as (s' & cm & E & He & Hm).
  erewrite bind_some; [|erewrite bind_some by done; cbn beta iota; rewrite bool_decide_eq_true_2 by done; cbn [negb]; rewrite (bind_some _ _ _ _ _ E); done].
  by eexists _, _, _, cm.
Qed.

Lemma power_single (Q : Component.t -> Prop) n w :
  power (fun w => exists c, w = [c] /\ Q c) n w <-> length w = n /\ Forall Q w.
Proof.
  revert w. induction n as [|n IH]; intros w.
  - split; [by intros ->|]. by intros [->%nil_length_inv _].
  - rewrite power_S. split.
    + intros (u & v & -> & (c & -> & Hc) & [Hl Hv]%IH). simpl. split; [congruence|by constructor].
    + intros [Hl Hw]. destruct w as [|c w]; [done|]. apply Forall_cons_iff in Hw as [Hc Hw]. exists [c], w.
      split; [done|]. split; [by exists c|]. apply IH. split; [simpl in Hl; lia|done].
Qed.

(** The language of one component pattern under a quantifier. *)
Lemma compiles_component comp q lo hi r : plain comp = true -> extractRepetition q = Ok (q, []) ->
  parseRepetition q = Ok (lo, hi) -> regex_assign comp = Ok r ->
  exists m, compiles (chr "<" :: comp ++ chr ">" :: q) [m] /\ progresses m = true /\
    forall w, language m w <-> lo <= len w <= hi /\
      Forall (fun c => comp = [] \/ is_Some (regex_match r (uri c))) w.
Proof.
  intros Hp Hq Hr Hass.
  pose (cm := mkComponentMatcher 0 comp true r []).
  exists (RegexRepeatMatcher 0 [] (RegexComponentSetMatcher 0 [] true [cm]) lo hi). split; [|split; [done|]].
  - intros fuel lf s Hf Hlf. destruct lf as [|lf]; [simpl in Hlf; lia|]. cbn [patterns_loop].
    destruct (newComponentSetMatcher_plain comp r (mkObjects (m_matchResults s ++ [[]]) (m_backrefs s)) Hp Hass) as (s' & j & e & cm' & E & He & Hm).
    erewrite bind_some.
    2:{ cbn [extractPattern]. rewrite (bool_decide_eq_false_2 (chr "<" = chr "(")), bool_decide_eq_true_2 by done.
        erewrite bind_some by (unfold liftP; by rewrite extractSubPattern_plain). cbn beta iota.
        erewrite bind_some by (unfold liftP; by rewrite Hq). cbn beta iota. erewrite bind_some; [done|].
        unfold newRepeatMatcher. erewrite bind_some by done. cbn [head app]. rewrite bool_decide_eq_false_2 by done.
        rewrite (bind_some _ _ _ _ _ E). erewrite bind_some by (unfold liftP; by rewrite Hr). done. }
    cbn beta iota. erewrite bind_some by (by destruct lf). eexists _, _. split; [done|]. constructor; [|constructor].
    apply similar_repeat, similar_set. constructor; [|constructor]. split; simpl; congruence.
  - intros w. simpl. assert (Hpow : forall n, power (fun w => exists c, w = [c] /\ accepts cm c || false = true) n w <->
      length w = n /\ Forall (fun c => comp = [] \/ is_Some (regex_match r (uri c))) w).
    { intros n. rewrite power_single. apply and_iff_compat_l.
      assert (Hacc : forall c, accepts cm c || false = true <-> comp = [] \/ is_Some (regex_match r (uri c))).
      { intros c. rewrite orb_false_r. unfold accepts. simpl. by rewrite orb_true_iff, !bool_decide_eq_true. }
      split; (intros HF; eapply Forall_impl; [|exact HF]; intros c; apply Hacc). }
    setoid_rewrite Hpow. unfold len. split.
    + intros (n & Hn & <- & HF). done.
    + intros [Hn HF]. by exists (length w).
Qed.

(** *** Anchors *)

Section syntax.
Context {SRS : StdRegexSyntax SR}.

(** Components as they occur in names. *)
Definition printable (c : Component.t) : Prop := uri_ok c /\ uri c <> [] /\ forallb component_char (uri c) = true.

Definition any_sequence (w : list Component.t) : Prop := len w <= UINT64_MAX.

Lemma compiles_wildcard : exists mw, compiles wildcard [mw] /\ progresses mw = true /\
  forall w, Forall printable w -> language mw w <-> any_sequence w.
Proof.
  destruct wildcard_regex as (r & Hr & _ & Hm).
  destruct (compiles_component (str ".*") (str "*") 0 MAX_REPETITIONS r) as (mw & Hc & Hp & Hl); try done.
  exists mw. split; [exact Hc|]. split; [done|]. intros w Hw. rewrite Hl. unfold any_sequence, MAX_REPETITIONS. pose proof (len_nonneg w). split; [lia|].
  intros Hlen. split; [lia|]. eapply Forall_impl; [|exact Hw]. intros c (_ & _ & Hc'). right. by apply Hm.
Qed.

Lemma compiles_head (c : byte) e ms : compiles (c :: e) ms -> c ∈ [chr "("; chr "<"; chr "["].
Proof.
  intros Hc. destruct (Hc (length (c :: e)) (length (c :: e)) noObjects (le_n _) (le_n _)) as (s' & ms' & E & _).
  cbn [length patterns_loop extractPattern] in E.
  destruct (bool_decide (c = chr "(")) eqn:E1; [apply bool_decide_eq_true in E1; set_solver|].
  destruct (bool_decide (c = chr "<")) eqn:E2; [apply bool_decide_eq_true in E2; set_solver|].
  destruct (bool_decide (c = chr "[")) eqn:E3; [apply bool_decide_eq_true in E3; set_solver|]. done.
Qed.

Lemma compiles_no_quantifier e ms : compiles e ms -> no_quantifier e.
Proof.
  destruct e as [|c e]; [done|]. intros Hc%compiles_head. unfold no_quantifier. simpl.
  rewrite !elem_of_cons in Hc. destruct Hc as [->|[->|[->|Hc]]]; [done..|]. by apply elem_of_nil in Hc.
Qed.

Lemma seq_language_single (L : list Component.t -> Prop) w : seq_language [L] w <-> L w.
Proof. split; [by intros (u & v & -> & Hu & ->); rewrite app_nil_r|]. intros ?. exists w, []. by rewrite app_nil_r. Qed.

(** Whether the expression [e], with or without its anchors, accepts [w]. *)
Definition found (start fin : bool) (L : list Component.t -> Prop) (w : list Component.t) : Prop :=
  exists p u q, w = p ++ u ++ q /\ L u /\ (start = true -> p = []) /\ (fin = true -> q = []).

Lemma any_sequence_app u v : any_sequence (u ++ v) -> any_sequence u /\ any_sequence v.
Proof. unfold any_sequence. rewrite len_app. pose proof (len_nonneg u). pose proof (len_nonneg v). lia. Qed.

(** The tree of an expression followed, unless it is anchored, by the wildcard. *)
Lemma compiles_tail (fin : bool) e ms : compiles e ms -> exists ms', compiles (if fin then e else e ++ wildcard) ms' /\
  forallb progresses ms' = forallb progresses ms /\
  forall w, Forall printable w -> any_sequence w ->
    seq_language (map language ms') w <-> found true fin (seq_language (map language ms)) w.
Proof.
  intros Hc. destruct fin.
  - exists ms. split; [done|]. split; [done|]. intros w _ _. unfold found. split.
    + intros Hw. exists [], w, []. rewrite app_nil_r. by split_and!.
    + intros (p & u & q & -> & Hu & -> & ->); [|done..]. by rewrite app_nil_r.
  - destruct compiles_wildcard as (mw & Hw & Hpw & Hlw). exists (ms ++ [mw]). split; [apply compiles_app; [done|done|by eapply compiles_no_quantifier]|].
    split; [rewrite forallb_app; simpl; by rewrite Hpw, !andb_true_r|]. intros w Hpr Hany.
    rewrite map_app, seq_language_app. unfold found. split.
    + intros (u & q & -> & Hu & _). exists [], u, q. by split_and!.
    + intros (p & u & q & -> & Hu & -> & _); [|done]. exists u, q. split; [done|]. split; [done|]. apply seq_language_single.
      apply Forall_app in Hpr as [_ Hpr]. apply Forall_app in Hpr as [_ Hpr]. apply Hlw; [done|].
      apply any_sequence_app in Hany as [_ Hany]. by apply any_sequence_app in Hany as [_ ?].
Qed.

(** The tree of the unanchored expression: the wildcard in front. *)
Lemma compiles_front e ms : compiles e ms -> exists ms', compiles (wildcard ++ e) ms' /\
  forallb progresses ms' = forallb progresses ms /\
  forall w, Forall printable w -> any_sequence w ->
    seq_language (map language ms') w <-> exists p v, w = p ++ v /\ seq_language (map language ms) v.
Proof.
  intros Hc. destruct compiles_wildcard as (mw & Hw & Hpw & Hlw). exists ([mw] ++ ms).
  split; [apply compiles_app; [done|done|by eapply compiles_no_quantifier]|]. split; [simpl; by rewrite Hpw|].
  intros w Hpr Hany. rewrite map_app, seq_language_app. split.
  - intros (p & v & -> & _ & Hv). by exists p, v.
  - intros (p & v & -> & Hv). exists p, v. split; [done|]. split; [|done]. apply seq_language_single.
    apply Forall_app in Hpr as [Hpr _]. apply Hlw; [done|]. by apply any_sequence_app in Hany as [? _].
Qed.

Lemma compiles_compileTree e ms : compiles e ms -> exists m s, compileTree e = Some (Ok (m, s)) /\
  progresses m = forallb progresses ms /\ forall w, language m w <-> seq_language (map language ms) w.
Proof.
  intros (i & ms' & s & E & HF)%compiles_tree. eexists _, _. split; [done|].
  destruct (similar_list _ _ HF) as (HL & _ & HP). split; [simpl; congruence|]. intros w. simpl. by rewrite HL.
Qed.

(** What the anchors mean. *)
Lemma newTopMatcher_anchors (start fin : bool) e x ms : compiles e ms -> e <> [] \/ start = true -> list.last e <> Some (chr "$") ->
  exists t, newTopMatcher ((if start then str "^" else []) ++ e ++ (if fin then str "$" else [])) x = Some (Ok t) /\
    top_wf t /\ top_progresses t = forallb progresses ms /\
    forall w, Forall printable w -> any_sequence w -> top_language t w <-> found start fin (seq_language (map language ms)) w.
Proof.
  intros Hc Hne Hlast.
  set (body := if fin then e else e ++ wildcard). set (pre := if start then str "^" else []).
  assert (He : end_anchor (pre ++ e ++ (if fin then str "$" else [])) = Some (pre ++ body)).
  { unfold end_anchor, body. destruct fin.
    - rewrite (app_assoc pre e). change (str "$") with [chr "$"]. rewrite last_snoc, bool_decide_eq_true_2 by done.
      rewrite length_app. change (length [chr "$"]) with 1%nat. rewrite Nat.add_sub. by rewrite take_app_length.
    - rewrite app_nil_r. destruct (list.last e) as [c|] eqn:El.
      + rewrite last_app, El. rewrite bool_decide_eq_false_2 by congruence. by rewrite app_assoc.
      + apply last_None in El as ->. destruct Hne as [?|Hst]; [done|]. unfold pre. by rewrite Hst. }
  destruct (compiles_tail fin e ms Hc) as (msb & Hcb & Hpb & Hlb). fold body in Hcb.
  destruct (compiles_compileTree _ _ Hcb) as (m & s & Em & Pm & Lm).
  assert (Hx : pre ++ e ++ (if fin then str "$" else []) <> []).
  { intros [Hpre [? _]%app_eq_nil]%app_eq_nil. destruct Hne as [?|Hst]; [done|]. unfold pre in Hpre. by rewrite Hst in Hpre. }
  destruct (newTopMatcher_wf _ x Hx) as (r & Er & Hwf).
  assert (Hhead : start = false -> bool_decide (head body = Some (chr "^")) = false).
  { intros Hst. apply bool_decide_eq_false. intros Hh. destruct e as [|c e]; [destruct Hne; congruence|]. apply compiles_head in Hc.
    assert (Hcc : c = chr "^") by (unfold body in Hh; destruct fin; simpl in Hh; congruence). subst c.
    rewrite !elem_of_cons in Hc. destruct Hc as [?|[?|[?|Hc]]]; [done..|]. by apply elem_of_nil in Hc. }
  assert (Hfront : start = false -> exists m2 s2, compileTree (wildcard ++ body) = Some (Ok (m2, s2)) /\
    progresses m2 = forallb progresses ms /\ forall w, Forall printable w -> any_sequence w ->
      language m2 w <-> exists p v, w = p ++ v /\ found true fin (seq_language (map language ms)) v).
  { intros _. destruct (compiles_front body msb Hcb) as (msf & Hcf & Hpf & Hlf).
    destruct (compiles_compileTree _ _ Hcf) as (m2 & s2 & E2 & P2 & L2). exists m2, s2. split; [done|]. split; [congruence|].
    intros w Hpr Hany. rewrite L2, Hlf by done. split; intros (p & v & -> & Hv); exists p, v; (split; [done|]);
      apply Forall_app in Hpr as [_ Hpr]; apply any_sequence_app in Hany as [_ Hany]; by apply Hlb. }
  unfold newTopMatcher in Er |- *. rewrite He in Er |- *. destruct start.
  - change (pre ++ body) with (chr "^" :: body) in Er |- *. cbn [head] in Er |- *.
    rewrite bool_decide_eq_true_2 in Er |- * by done. change (drop 1 (chr "^" :: body)) with body in Er |- *. rewrite Em in Er |- *. eexists. split; [done|]. injection Er as <-. split; [by apply Hwf|].
    split; [unfold top_progresses; simpl; by rewrite andb_true_r, Pm|]. intros w Hpr Hany. unfold top_language. simpl.
    rewrite Lm, Hlb by done. split; [intros [?|(? & ? & _)]; done|by left].
  - unfold pre in Er |- *. cbn [app] in Er |- *. rewrite (Hhead eq_refl) in Er |- *.
    destruct (Hfront eq_refl) as (m2 & s2 & E2 & P2 & L2). rewrite E2, Em in Er |- *. eexists. split; [done|]. injection Er as <-. split; [by apply Hwf|].
    split; [unfold top_progresses; simpl; rewrite Pm, P2, Hpb; apply andb_diag|]. intros w Hpr Hany. unfold top_language. simpl.
    rewrite Lm, Hlb by done. unfold found. split.
    + intros [(p & u & q & -> & Hu & Hp & Hq)|(? & [= <-] & Hl2)]; [by exists p, u, q|].
      apply (L2 _ Hpr Hany) in Hl2 as (p & v & -> & p' & u & q & -> & Hu & Hp' & Hq). rewrite Hp' by done. by exists p, u, q.
    + intros (p & u & q & -> & Hu & _ & Hq). right. exists m2. split; [done|]. apply (L2 _ Hpr Hany). exists p, (u ++ q). split; [done|]. by exists [], u, q.
Qed.

(** *** Expressions from names *)

Lemma plain_convert u : forallb component_char u = true -> plain (convertSpecialChar u) = true.
Proof.
  induction u as [|c u IH]; [done|]. cbn [forallb]. intros [Hc Hu]%andb_true_iff. cbn [convertSpecialChar].
  unfold plain in *. rewrite forallb_app, IH, andb_true_r by done.
  assert (Hcc : negb (bool_decide (c = Byte.x00)) && negb (bool_decide (c = chr "<")) && negb (bool_decide (c = chr ">")) = true).
  { destruct (bool_decide_reflect (c = Byte.x00)) as [->|]; [done|]. destruct (bool_decide_reflect (c = chr "<")) as [->|]; [done|].
    by destruct (bool_decide_reflect (c = chr ">")) as [->|]. }
  case_match; cbn [forallb]; by rewrite Hcc.
Qed.

Lemma convert_nil u : convertSpecialChar u = [] -> u = [].
Proof. destruct u; [done|]. simpl. by case_match. Qed.

Lemma name_loop_compiles l : Forall printable l -> exists body ms, name_loop env l = Ok body /\ compiles body ms /\
  forallb progresses ms = true /\ list.last body <> Some (chr "$") /\
  forall w, Forall printable w -> seq_language (map language ms) w <-> map uri w = map uri l.
Proof.
  induction 1 as [|c l [[Hu Hlen] [Hne Hch]] _ IH].
  { exists [], []. split; [done|]. split; [apply compiles_nil|]. split; [done|]. split; [done|]. intros w _. simpl.
    split; [by intros ->|]. by intros ?%map_eq_nil. }
  destruct IH as (body & ms & Eb & Hc & Hp & Hl & HL).
  destruct (literal_regex (uri c) Hch) as (r & Hr & _ & Hm).
  destruct (compiles_component (convertSpecialChar (uri c)) [] 1 1 r) as (m & Hcm & Hpm & Hlm);
    [by apply plain_convert|done|done|done|].
  exists ((chr "<" :: convertSpecialChar (uri c) ++ [chr ">"]) ++ body), ([m] ++ ms).
  split. { cbn [name_loop]. rewrite Hu. cbn [mbind result_bind]. rewrite Eb. cbn [mbind result_bind].
    f_equal. simpl. by rewrite <- app_assoc. }
  split; [apply compiles_app; [done|done|by eapply compiles_no_quantifier]|]. split; [simpl; by rewrite Hpm|]. split.
  { destruct (list.last body) as [x|] eqn:El; [by rewrite last_app, El|].
    apply last_None in El as ->. rewrite app_nil_r, app_comm_cons, last_snoc. done. }
  intros w Hw. rewrite map_app, seq_language_app. cbn [map]. setoid_rewrite seq_language_single. setoid_rewrite Hlm.
  assert (Hone : forall c', printable c' -> (convertSpecialChar (uri c) = [] \/ is_Some (regex_match r (uri c'))) <-> uri c' = uri c).
  { intros c' (_ & _ & Hc'). rewrite Hm by done. split; [intros [?%convert_nil|?]; done|by right]. }
  split.
  - intros (u & v & -> & [Hlu Hu1] & Hv). apply Forall_app in Hw as [Hwu Hwv]. apply HL in Hv; [|done].
    destruct u as [|c' [|c'' u]]; [rewrite len_nil in Hlu; lia| |rewrite !len_cons in Hlu; pose proof (len_nonneg u); lia].
    simpl. f_equal; [|done]. apply Forall_cons_iff in Hu1 as [Hu1 _]. apply Forall_cons_iff in Hwu as [Hwu _]. by apply Hone.
  - destruct w as [|c' w]; [done|]. intros [= Hc' Hw']. apply Forall_cons_iff in Hw as [Hpc Hw]. exists [c'], w. split; [done|].
    split; [|by apply HL]. split; [done|]. constructor; [|constructor]. by apply Hone.
Qed.

(** The components an expression from a name accepts have the same URIs. *)
Lemma fromName_spec name (hasAnchor : bool) : Forall printable (Name.components name) ->
  exists t, fromName env name hasAnchor = Some (Ok t) /\ top_wf t /\ top_progresses t = true /\
    forall w, Forall printable w -> any_sequence w -> top_language t w <->
      exists q, map uri w = map uri (Name.components name) ++ q /\ (hasAnchor = true -> q = []).
Proof.
  intros Hn. destruct (name_loop_compiles _ Hn) as (body & ms & Eb & Hc & Hp & Hl & HL). unfold fromName. rewrite Eb.
  destruct (newTopMatcher_anchors true hasAnchor body [] ms Hc ltac:(by right) Hl) as (t & Et & Hwf & Hpr & Ht).
  exists t. split; [done|]. split; [done|]. split; [congruence|]. intros w Hw Hany. rewrite Ht by done. unfold found. split.
  - intros (p & u & q & -> & Hu & Hpe & Hq). rewrite Hpe by done. apply Forall_app in Hw as [_ [Hwu _]%Forall_app].
    exists (map uri q). simpl. rewrite map_app. apply HL in Hu; [|done]. rewrite Hu. split; [done|]. intros Ha. by rewrite Hq.
  - intros (q & Hq & Ha). exists [], (take (length (Name.components name)) w), (drop (length (Name.components name)) w).
    split; [simpl; by rewrite take_drop|]. split.
    + apply HL; [by apply Forall_take|]. rewrite <- firstn_map, Hq. rewrite <- (length_map uri). by rewrite take_app_length.
    + split; [done|]. intros Hf. apply (f_equal length) in Hq. rewrite length_app, !length_map, Ha in Hq by done. simpl in Hq.
      apply nil_length_inv. rewrite length_drop. lia.
Qed.

(** Valid components are printable, and their URI determines them but for the
    spelling of numbers. *)
Lemma comp_printable c : NameFacts.comp_ok c -> is_u64 (len (uri c)) -> printable c.
Proof.
  intros [Hv Hs] Hl. destruct (ComponentFacts.toUri_parse env name.ENV_OR_ALTERNATE c Hv Hs) as (u & c' & Hu & Hp & _ & _ & Hsafe).
  assert (Huri : uri c = u) by (unfold uri; by rewrite Hu). split; [split; [congruence|done]|]. rewrite Huri. split.
  - intros ->. done.
  - apply forallb_forall. intros x Hx%list_elem_of_In. unfold component_char. destruct (TextFacts.uri_char x) eqn:E1; [done|].
    destruct (bool_decide_reflect (x = chr "=")); [done|]. exfalso. apply (Hsafe x); try done.
    unfold TextFacts.uri_char, isUnreserved in E1. rewrite !orb_false_iff in E1. unfold isDigit. tauto.
Qed.


(** A component whose URI does not print a number in decimal. *)
Definition ordinary (c : Component.t) : Prop := ComponentFacts.is_decimalb (Block.type c) && Component.isNumber c = false.

Lemma uri_same c d : Block.type c = Block.type d -> Block.value c = Block.value d -> uri c = uri d.
Proof.
  intros Ht Hv. assert (Hn : Component.isNumber c = Component.isNumber d).
  { unfold Component.isNumber, Block.value_size. by rewrite Hv. }
  assert (Hto : Component.toNumber c = Component.toNumber d).
  { unfold Component.toNumber, encoding.readNonNegativeInteger, Block.value_size. by rewrite Hn, Hv. }
  unfold uri, Component.toUri, Component.writeUri, Component.writeUriBase, Component.writeUriEscapedValue. by rewrite Ht, Hv, Hn, Hto.
Qed.

Lemma uri_key c d : NameFacts.comp_ok c -> NameFacts.comp_ok d -> ordinary c -> ordinary d ->
  uri c = uri d <-> ComponentFacts.key c = ComponentFacts.key d.
Proof.
  intros [Hvc Hsc] [Hvd Hsd] Hc Hd. split.
  - intros Heq. destruct (ComponentFacts.toUri_parse env name.ENV_OR_ALTERNATE c Hvc Hsc) as (u & c' & Hu & Hp & Ht & Hv & _).
    destruct (ComponentFacts.toUri_parse env name.ENV_OR_ALTERNATE d Hvd Hsd) as (u2 & d' & Hu2 & Hp2 & Ht2 & Hv2 & _).
    unfold uri in Heq. rewrite Hu, Hu2 in Heq. subst u2. rewrite Hp in Hp2. injection Hp2 as <-.
    unfold ComponentFacts.uri_value in Hv, Hv2. unfold ordinary in Hc, Hd.
    rewrite <- andb_assoc, Hc, andb_false_r in Hv. rewrite <- andb_assoc, Hd, andb_false_r in Hv2.
    unfold ComponentFacts.key, Block.value_size. congruence.
  - intros [Ht Hv]%ComponentFacts.key_inj. by apply uri_same.
Qed.

End syntax.

(** *** Repetitions of nothing *)

Lemma try_loop_none f g o l t s :
  (forall k s, (1 <= k <= t)%nat -> exists s', f o k s = Some (s', Ok false)) ->
  (forall s, exists s', f o 0%nat s = Some (s', Ok true)) -> (forall s, g (o + 0)%nat (l - 0)%nat s = None) ->
  try_loop f g o l t s = None.
Proof.
  intros Hf H0 Hg. revert s. induction t as [|t IH]; intros s; cbn [try_loop].
  - destruct (H0 s) as [s1 E1]. rewrite (bind_some _ _ _ _ _ E1). unfold mbind, P_bind. by rewrite Hg.
  - destruct (Hf (S t) s ltac:(lia)) as [s1 E1]. rewrite (bind_some _ _ _ _ _ E1). erewrite bind_some by done.
    apply IH. intros k s0 Hk. apply Hf. lia.
Qed.

(** A group that accepts nothing of the name but the empty sequence is repeated
    without progress, up to the largest number of repetitions. *)
Lemma repeat_depth name f L N lo hi o l fuel : decides name f L N -> in_range name o l -> (0 < l <= N)%nat ->
  L [] -> (forall k, (1 <= k <= l)%nat -> ~ L (slice name o k)) ->
  forall rep s, rep + Z.of_nat fuel <= hi -> repeat_recursiveMatch fuel f lo hi rep o l s = None.
Proof.
  intros Hf Hr Hl H0 HL. induction fuel as [|fuel IH]; intros rep s Hrep; [done|]. cbn [repeat_recursiveMatch].
  replace (0 <? l)%nat with true by (symmetry; apply Nat.ltb_lt; lia). replace (l =? 0)%nat with false by (symmetry; apply Nat.eqb_neq; lia).
  cbn [andb]. replace (hi <=? rep) with false by lia. apply try_loop_none.
  - intros k s0 Hk. destruct (Hf o k s0) as (s1 & b & E & Hb); [unfold in_range in *; lia|lia|]. destruct b; [|by exists s1].
    exfalso. apply (HL k Hk). by apply Hb.
  - intros s0. destruct (Hf o 0%nat s0) as (s1 & b & E & Hb); [unfold in_range in *; lia|lia|]. exists s1. rewrite E.
    assert (b = true) as -> by (by apply Hb). done.
  - intros s0. rewrite Nat.add_0_r, Nat.sub_0_r. apply IH. lia.
Qed.

End facts.
End RegexFacts.

(** ** Theorems *)

Module RegexTheorems.
Import regex RegexFacts.

(** *** A small pattern matcher for examples

    Patterns are the wildcard, the wildcard as a marked sub-expression, and
    literal strings in which a backslash escapes the next character. *)

Fixpoint unescape_literal (p : bytes) : bytes :=
  match p with
  | [] => []
  | c :: p =>
      if bool_decide (c = chr "\") then
        match p with d :: p => d :: unescape_literal p | [] => [c] end
      else c :: unescape_literal p
  end.

Definition toy_match (p s : bytes) : option (list bytes) :=
  if bool_decide (p = str ".*") then Some []
  else if bool_decide (p = str "(.*)") then Some [s]
  else if bool_decide (s = unescape_literal p) then Some [] else None.

#[local] Instance toy : StdRegex := {|
  regex := bytes;
  regex_assign := Ok;
  mark_count p := if bool_decide (p = str "(.*)") then 1%nat else 0%nat;
  regex_match := toy_match;
|}.

Lemma toy_cases p s subs : toy_match p s = Some subs ->
  p = str "(.*)" /\ subs = [s] \/ p <> str "(.*)" /\ subs = [].
Proof.
  unfold toy_match. destruct (bool_decide_reflect (p = str ".*")) as [->|]; [intros [= <-]; by right|].
  destruct (bool_decide_reflect (p = str "(.*)")); [intros [= <-]; by left|]. case_match; intros [= <-]. by right.
Qed.

#[local] Instance toy_laws : StdRegexLaws toy.
Proof.
  split; intros p s subs H; apply toy_cases in H as [[-> ->]|[Hp ->]]; simpl.
  - constructor; [lia|constructor].
  - constructor.
  - done.
  - by rewrite bool_decide_eq_false_2.
Qed.

Lemma unescape_convert s : unescape_literal (convertSpecialChar s) = s.
Proof.
  induction s as [|c s IH]; [done|]. cbn [convertSpecialChar]. destruct (isSpecialChar c) eqn:E; cbn [app unescape_literal].
  - rewrite bool_decide_eq_true_2 by done. by rewrite IH.
  - rewrite bool_decide_eq_false_2; [by rewrite IH|]. intros ->. done.
Qed.

#[local] Instance toy_syntax : StdRegexSyntax toy.
Proof.
  split.
  - exists (str ".*"). by split_and!.
  - intros s Hs. exists (convertSpecialChar s). split; [done|].
    assert (H1 : forall c p, isSpecialChar c = true -> c <> chr "\" -> convertSpecialChar s <> c :: p).
    { intros c p Hc Hb. destruct s as [|d s]; [done|]. cbn [convertSpecialChar]. destruct (isSpecialChar d) eqn:E; cbn [app]; congruence. }
    assert (Hd : convertSpecialChar s <> str ".*") by by apply H1.
    assert (Hp : convertSpecialChar s <> str "(.*)") by by apply H1.
    split; [simpl; by rewrite bool_decide_eq_false_2|]. intros u _. simpl. unfold toy_match.
    rewrite !bool_decide_eq_false_2 by done. rewrite unescape_convert.
    destruct (bool_decide_reflect (u = s)); split; intros H; done.
Qed.

Definition name_of (u : string) : Name.t := match Name.fromUri (str u) with Ok n => n | Throw _ => Name.empty end.

Definition compiled (e : string) : top_matcher :=
  match newTopMatcher (str e) [] with
  | Some (Ok t) => t
  | _ => mkTopMatcher [] [] (RegexPatternListMatcher 0 [] []) noObjects None noObjects false []
  end.

(** C29: compiling an expression terminates: for every expression but the empty
    one, whose last character is read although there is none, the constructor
    of the top matcher returns a matcher or an exception, whatever patterns
    the components are; nesting and length of the expression bound the
    recursion.  The trees it returns are well formed: every matcher is a
    different object, repetition bounds are ordered, and every component
    pattern has a place for each of its sub-matches. *)
Theorem regex_compile_terminates `{SR : StdRegex} (expr expand : bytes) (He : expr <> []) :
  exists r, newTopMatcher expr expand = Some r /\ forall t, r = Ok t -> top_wf t.
Proof. by apply newTopMatcher_wf. Qed.

Lemma regex_compile_terminates_witness :
  str "^(<a>*)[<b><c>]{2,3}$" <> [] /\
  exists r, newTopMatcher (str "^(<a>*)[<b><c>]{2,3}$") [] = Some r /\ forall t, r = Ok t -> top_wf t.
Proof. split; [done|]. by apply regex_compile_terminates. Defined.

(** The empty expression. *)
Theorem regex_empty_expression `{SR : StdRegex} (expand : bytes) : newTopMatcher [] expand = None.
Proof. done. Qed.

(** C13: matching decides the language of the expression: if no repeated group
    accepts the empty sequence, matching a name returns, at a depth of
    recursion of one more than the number of its components, and answers
    whether the name is in the language of the expression, the sequences of
    components its concatenations, repetitions, groups, sets and component
    patterns stand for.  The match result is the whole name. *)
Theorem regex_match_language `{SRL : StdRegexLaws} (env : option bytes) (t : top_matcher) (name : Name.t) (fuel : nat)
  (Ht : top_wf t) (Hp : top_progresses t = true) (Hn : Forall (uri_ok env) (Name.components name))
  (Hf : Z.of_nat fuel > Name.size name) :
  exists t' b, top_match env fuel name t = Some (t', Ok b) /\ top_wf t' /\
    (b = true <-> top_language env t (Name.components name)) /\
    m_matchResult t' = (if b then Name.components name else []).
Proof.
  destruct (top_match_spec env fuel name t) as (t' & b & E & Hw & _ & _ & Hb & Hr & _); try done.
  { rewrite NameFacts.size_len in Hf. unfold len in Hf. lia. }
  by exists t', b.
Qed.

Definition printableb (env : option bytes) (c : Component.t) : bool :=
  match Component.toUri env c name.ENV_OR_ALTERNATE with
  | Ok u => (len u <=? UINT64_MAX) && negb (bool_decide (u = [])) && forallb component_char u
  | Throw _ => false
  end.

Lemma printableb_spec env l : forallb (printableb env) l = true -> Forall (printable env) l.
Proof.
  intros H. apply Forall_forall. intros c Hc. rewrite forallb_forall in H. specialize (H c Hc).
  unfold printableb, printable, uri_ok, uri in *. destruct (Component.toUri _ _ _) as [u|]; [|done].
  apply andb_true_iff in H as [[H1 H2]%andb_true_iff H3]. split_and!; [done|by pose proof (len_nonneg u); unfold is_u64, UINT64_MAX in *; lia| |done].
  by apply negb_true_iff, bool_decide_eq_false in H2.
Qed.

Lemma printable_uri_ok env l : Forall (printable env) l -> Forall (uri_ok env) l.
Proof. intros H. eapply Forall_impl; [|exact H]. by intros c [? _]. Qed.

Lemma compiled_wf e : match newTopMatcher (str e) [] with Some (Ok _) => true | _ => false end = true -> top_wf (compiled e).
Proof.
  intros E. unfold compiled. destruct (newTopMatcher (str e) []) as [[t|]|] eqn:Et; try done.
  destruct (newTopMatcher_wf (str e) []) as (r & Er & Hr); [by intros H; rewrite H in Et|]. apply Hr. congruence.
Qed.

Lemma regex_match_language_witness :
  exists t' b, top_match None 4 (name_of "/n/a/b") (compiled "^<n>[<a><b>]{2}$") = Some (t', Ok b) /\
    (b = true <-> top_language None (compiled "^<n>[<a><b>]{2}$") (Name.components (name_of "/n/a/b"))).
Proof.
  destruct (regex_match_language None (compiled "^<n>[<a><b>]{2}$") (name_of "/n/a/b") 4) as (t' & b & E & _ & Hb & _).
  - apply compiled_wf. vm_compute; reflexivity.
  - vm_compute; reflexivity.
  - apply printable_uri_ok, printableb_spec. vm_compute; reflexivity.
  - vm_compute; reflexivity.
  - exists t', b. exact (conj E Hb).
Defined.

Lemma top_match_sound `{SRL : StdRegexLaws} env fuel name t t' r : top_wf t -> Forall (uri_ok env) (Name.components name) ->
  top_match env fuel name t = Some (t', r) ->
  top_wf t' /\ exists b, r = Ok b /\ (b = true -> m_matchResult t' = Name.components name /\
    exists m s, used_tree t' = Some (m, s) /\ recorded env m s (Name.components name)).
Proof.
  intros [(Hw1 & HD1 & Hal1) Ht2] Hn. unfold top_match.
  assert (Hr : in_range name 0 (Z.to_nat (Name.size name))) by (unfold in_range; rewrite NameFacts.size_len, to_nat_len; lia).
  destruct (match_ _ _ _ (m_primaryMatcher t) _ _ _) as [[s1 r1]|] eqn:E1; [|done].
  destruct (match_sound env name _ fuel Hw1 HD1 Hn _ _ _ _ _ Hr Hal1 E1) as [Hf1 (b1 & -> & Hrec1)]. rewrite slice_full in Hrec1.
  assert (Htree1 : tree_wf (m_primaryMatcher t) s1) by (eapply tree_wf_frame; [|done]; done).
  destruct b1.
  { intros [= <- <-]. split; [done|]. exists true. split; [done|]. intros _. split; [by apply (recorded_self env), Hrec1|].
    eexists _, _. split; [done|]. by apply Hrec1. }
  destruct (m_secondaryMatcher t) as [m2|] eqn:E2.
  - destruct (Ht2 m2 eq_refl) as (Hw2 & HD2 & Hal2).
    destruct (match_ _ _ _ m2 _ _ _) as [[s2 r2]|] eqn:E3; [|done].
    destruct (match_sound env name _ fuel Hw2 HD2 Hn _ _ _ _ _ Hr Hal2 E3) as [Hf2 (b2 & -> & Hrec2)]. rewrite slice_full in Hrec2.
    assert (Htree2 : tree_wf m2 s2) by (eapply tree_wf_frame; [|done]; done).
    assert (Hwf : forall u rs, top_wf (mkTopMatcher (m_expr t) (m_expand t) (m_primaryMatcher t) s1 (Some m2) s2 u rs)).
    { intros u rs. split; [done|]. by intros ? [= <-]. }
    destruct b2; intros [= <- <-]; (split; [apply Hwf|]); [|by exists false].
    exists true. split; [done|]. intros _. split; [by apply (recorded_self env), Hrec2|].
    eexists _, _. split; [done|]. by apply Hrec2.
  - intros [= <- <-]. split; [done|]. by exists false.
Qed.
Lemma expand_reference `{SR : StdRegex} t k g s : 0 < k <= UINT64_MAX ->
  s = (if m_isSecondaryUsed t then m_secondary t else m_primary t) -> m_backrefs s !! Z.to_nat (k - 1) = Some g ->
  exists n, expand t (str "\" ++ to_string k) = Ok n /\ Name.components n = getMatchResult g s.
Proof.
  intros Hk Hs Hg. destruct (TextFacts.to_string_digits k ltac:(lia)) as (Hd & Hne & _).
  assert (Hdig : forall l, forallb isDigit l = true -> digits_loop l = (l, [])).
  { induction l as [|c l IH]; [done|]. simpl. intros [-> Hl]%andb_true_iff. by rewrite IH. }
  assert (Hfold : forall l n, Name.components (foldl (fun n c => Name.append c n) n l) = Name.components n ++ l).
  { induction l as [|c l IH]; intros n; simpl; [by rewrite app_nil_r|]. rewrite IH, NameFacts.components_append, <- app_assoc. done. }
  unfold expand. change (str "\" ++ to_string k) with (chr "\" :: to_string k). rewrite bool_decide_eq_false_2 by done.
  cbn [negb length expand_loop getItemFromExpand]. rewrite bool_decide_eq_true_2, Hdig by done. rewrite bool_decide_eq_false_2 by done.
  cbn [mbind result_bind]. unfold expand_item. cbn [head]. rewrite bool_decide_eq_false_2, bool_decide_eq_true_2 by done.
  change (drop 1 (chr "\" :: to_string k)) with (to_string k). unfold lexical_cast. rewrite TextFacts.stoull_to_string by lia.
  cbn [mbind result_bind]. rewrite <- Hs. replace (k =? 0) with false by lia.
  assert (Hsz : k <=? size s = true).
  { apply lookup_lt_Some in Hg. unfold size, len. lia. }
  rewrite Hsz. unfold getBackref. rewrite Hg. cbn [mbind result_bind]. eexists. split; [by destruct (to_string k)|]. by rewrite Hfold.
Qed.

(** What groups capture: after a match that succeeded, every matcher of the
    tree that was used holds the components it took in one reading of the
    whole name as the expression, where a repeated group holds its last
    repetition and the marked sub-expressions of a component pattern hold
    what they matched; the match result is the whole name, and expanding a
    back reference gives the components of the group of that number. *)
Theorem regex_captures `{SRL : StdRegexLaws} (env : option bytes) (t t' : top_matcher) (name : Name.t) (fuel : nat)
  (Ht : top_wf t) (Hn : Forall (uri_ok env) (Name.components name))
  (Hm : top_match env fuel name t = Some (t', Ok true)) :
  m_matchResult t' = Name.components name /\
  exists m s, used_tree t' = Some (m, s) /\ recorded env m s (Name.components name) /\
    forall k g, 0 < k <= UINT64_MAX -> m_backrefs s !! Z.to_nat (k - 1) = Some g ->
      exists n, expand t' (str "\" ++ to_string k) = Ok n /\ Name.components n = getMatchResult g s.
Proof.
  destruct (top_match_sound env fuel name t t' (Ok true) Ht Hn Hm) as [_ (? & [= <-] & Hb)].
  destruct (Hb eq_refl) as (Hr & m & s & Hu & Hrec). split; [done|]. exists m, s. split; [done|]. split; [done|].
  intros k g Hk Hg. apply expand_reference; [done| |done]. unfold used_tree in Hu.
  destruct (m_isSecondaryUsed t'); [|congruence]. by destruct (m_secondaryMatcher t'); simplify_eq/=.
Qed.

Definition after (e u : string) : top_matcher :=
  match top_match None 10 (name_of u) (compiled e) with
  | Some (t, _) => t
  | None => compiled e
  end.

Lemma after_match e u :
  match top_match None 10 (name_of u) (compiled e) with Some (_, Ok b) => b | _ => false end = true ->
  top_match None 10 (name_of u) (compiled e) = Some (after e u, Ok true).
Proof. unfold after. by destruct (top_match None 10 (name_of u) (compiled e)) as [[t [[]|]]|]. Qed.

Lemma regex_captures_witness :
  m_matchResult (after "<n>([<a><b>])+$" "/m/n/a/b") = Name.components (name_of "/m/n/a/b") /\
  exists m s, used_tree (after "<n>([<a><b>])+$" "/m/n/a/b") = Some (m, s) /\
    recorded None m s (Name.components (name_of "/m/n/a/b")).
Proof.
  destruct (regex_captures None (compiled "<n>([<a><b>])+$") (after "<n>([<a><b>])+$" "/m/n/a/b") (name_of "/m/n/a/b") 10)
    as [Hr (m & s & Hu & Hrec & _)].
  - apply compiled_wf. vm_compute; reflexivity.
  - apply printable_uri_ok, printableb_spec. vm_compute; reflexivity.
  - apply after_match. vm_compute; reflexivity.
  - exact (conj Hr (ex_intro _ m (ex_intro _ s (conj Hu Hrec)))).
Defined.

(** The examples of the documentation: the groups of the first two expressions
    take the whole range and the last of its components. *)
Definition expansion (e u x : string) : option string :=
  match expand (after e u) (str x) with
  | Ok n => match Name.toUri None n name.ALTERNATE with
            | Ok b => Some (String.string_of_list_byte b)
            | Throw _ => None
            end
  | Throw _ => None
  end.

Example documented_captures :
  expansion "^([<A><B><C>]+)$" "/C/A/B" "\1" = Some "/C/A/B"%string /\
  expansion "^([<A><B><C>])+$" "/C/A/B" "\1" = Some "/B"%string /\
  expansion "^<A>(<>{2})<B>(<>)" "/A/C/D/B/E" "\1\2" = Some "/C/D/E"%string /\
  expansion "<a>(<>*)<>$" "/n/a/b/c" "<ndn>\1" = Some "/ndn/b"%string.
Proof. split_and!; vm_compute; reflexivity. Qed.

(** Where the code departs from what it means: an expansion that ends in a
    component is rejected; a group that took no part in the match keeps what
    an earlier match left in it; a repetition of a group that accepts the
    empty sequence does not count empty repetitions. *)
Example regex_departures :
  expansion "<a>(<>*)<>$" "/n/a/b/c" "\1<ndn>" = None /\
  (match top_match None 10 Name.empty (after "^(<a>)?$" "/a") with
   | Some (t, Ok true) => map Block.value (getMatchResult 2 (m_primary t))
   | _ => []
   end) = [str "a"] /\
  (match top_match None 10 Name.empty (compiled "^(<a>*){2}$") with
   | Some (_, Ok b) => Some b
   | _ => None
   end) = Some false.
Proof. split_and!; vm_compute; reflexivity. Qed.

(** What the anchors of an expression mean: an expression matches if it
    matches some part of the name, which starts where the name does if the
    expression starts with a caret, and ends where the name does if it ends
    with a dollar sign.  The missing anchors are compiled into wildcards in
    front of and behind the expression. *)
Theorem regex_anchors `{SRL : StdRegexLaws} {SRS : StdRegexSyntax _} (env : option bytes) (start fin : bool)
  (e x : bytes) (m : matcher) (s : objects)
  (He : compileTree e = Some (Ok (m, s))) (Hne : e <> []) (Hl : list.last e <> Some (chr "$")) :
  exists t, newTopMatcher ((if start then str "^" else []) ++ e ++ (if fin then str "$" else [])) x = Some (Ok t) /\
    top_progresses t = progresses m /\
    forall w, Forall (printable env) w -> any_sequence w -> top_language env t w <-> found start fin (language env m) w.
Proof.
  destruct (compileTree_inv env e m s He) as (i & ms & -> & Hc).
  destruct (newTopMatcher_anchors env start fin e x ms Hc (or_introl Hne) Hl) as (t & Et & _ & Hp & Ht).
  by exists t.
Qed.

Lemma compileTree_ok e : match compileTree e with Some (Ok _) => true | _ => false end = true ->
  exists m s, compileTree e = Some (Ok (m, s)).
Proof. destruct (compileTree e) as [[[m s]|]|]; try done. by exists m, s. Qed.

Lemma regex_anchors_witness : exists t,
  newTopMatcher ((if true then str "^" else []) ++ str "<a><b>" ++ (if false then str "$" else [])) [] = Some (Ok t).
Proof.
  destruct (compileTree_ok (str "<a><b>")) as (m & s & E); [vm_compute; reflexivity|].
  destruct (regex_anchors None true false (str "<a><b>") [] m s E) as (t & Et & _).
  - discriminate.
  - vm_compute. discriminate.
  - exact (ex_intro _ t Et).
Defined.

Lemma uris_keys env l k : Forall NameFacts.comp_ok l -> Forall NameFacts.comp_ok k -> Forall ordinary l -> Forall ordinary k ->
  map (uri env) k = map (uri env) l <-> map ComponentFacts.key l = map ComponentFacts.key k.
Proof.
  intros Hl. revert k. induction Hl as [|c l Hc _ IH]; intros [|d k] Hk Ol Ok'; try done; simpl.
  apply Forall_cons_iff in Hk as [Hd Hk]. apply Forall_cons_iff in Ol as [Oc Ol]. apply Forall_cons_iff in Ok' as [Od Ok'].
  pose proof (uri_key env c d Hc Hd Oc Od) as H1. specialize (IH k Hk Ol Ok'). split; intros Heq; apply (f_equal2 cons); injection Heq as Ha Hb.
  - apply H1. congruence.
  - by apply IH.
  - symmetry. apply H1. unfold ComponentFacts.key. congruence.
  - by apply IH.
Qed.

Lemma prefix_map {A B} (f : A -> B) l k : (exists q, map f k = map f l ++ q) <-> map f l = map f (take (length l) k).
Proof.
  split.
  - intros [q Hq]. rewrite <- firstn_map, Hq. rewrite <- (length_map f). by rewrite take_app_length.
  - intros H. exists (map f (drop (length l) k)). by rewrite H, <- map_app, take_drop.
Qed.

(** The expression made from a name matches the names that start with it,
    and with the anchor only the name itself, as far as the URIs of the
    components tell them apart; if no component of either is a number printed
    in decimal, that is whether the name is a prefix of the other. *)
Theorem regex_from_name `{SRL : StdRegexLaws} {SRS : StdRegexSyntax _} (env : option bytes) (name n : Name.t) (hasAnchor : bool) (fuel : nat)
  (Hc : Forall NameFacts.comp_ok (Name.components name)) (Hd : Forall NameFacts.comp_ok (Name.components n))
  (Hl : Forall (fun c => is_u64 (len (uri env c))) (Name.components name ++ Name.components n))
  (Hf : Name.size n < Z.of_nat fuel <= UINT64_MAX) :
  exists t t' b, fromName env name hasAnchor = Some (Ok t) /\ top_match env fuel n t = Some (t', Ok b) /\
    (b = true <-> exists q, map (uri env) (Name.components n) = map (uri env) (Name.components name) ++ q /\ (hasAnchor = true -> q = [])) /\
    (Forall ordinary (Name.components name ++ Name.components n) ->
     b = (if hasAnchor then Name.equals name n else Name.isPrefixOf name n)).
Proof.
  apply Forall_app in Hl as [Hl1 Hl2].
  assert (Hpr : forall l, Forall NameFacts.comp_ok l -> Forall (fun c => is_u64 (len (uri env c))) l -> Forall (printable env) l).
  { intros l H1 H2. apply Forall_forall. intros c Hin. rewrite Forall_forall in H1, H2. apply comp_printable; auto. }
  pose proof (Hpr _ Hc Hl1) as Hp1. pose proof (Hpr _ Hd Hl2) as Hp2.
  destruct (fromName_spec env name hasAnchor Hp1) as (t & Et & Hwf & Hprog & Ht).
  assert (Hany : any_sequence (Name.components n)) by (unfold any_sequence; rewrite NameFacts.size_len in Hf; lia).
  destruct (top_match_spec env fuel n t Hwf Hprog (printable_uri_ok _ _ Hp2)) as (t' & b & Em & _ & _ & _ & Hb & _).
  { rewrite NameFacts.size_len in Hf. unfold len in Hf. lia. }
  assert (Hiff : b = true <-> exists q, map (uri env) (Name.components n) = map (uri env) (Name.components name) ++ q /\ (hasAnchor = true -> q = [])).
  { by rewrite Hb, Ht. }
  exists t, t', b. split; [done|]. split; [done|]. split; [done|]. intros [Ho1 Ho2]%Forall_app.
  apply eq_bool_prop_intro. rewrite !Is_true_true, Hiff. destruct hasAnchor.
  - rewrite NameFacts.nequals_spec, bool_decide_eq_true. split.
    + intros (q & Hq & Hn). rewrite Hn, app_nil_r in Hq by done. by apply (uris_keys env).
    + intros Hk. exists []. rewrite app_nil_r. split; [|done]. by apply (uris_keys env).
  - rewrite NameFacts.isPrefixOf_spec, bool_decide_eq_true. split.
    + intros (q & Hq & _). apply (prefix_map ComponentFacts.key). apply (uris_keys env); try done; try (by apply Forall_take).
      symmetry. apply prefix_map. by exists q.
    + intros Hpx. apply (prefix_map ComponentFacts.key) in Hpx. apply (uris_keys env) in Hpx; try done; try (by apply Forall_take).
      symmetry in Hpx. apply prefix_map in Hpx as [q Hq]. by exists q.
Qed.

(** The hypotheses of the theorem, as tests. *)
Definition comp_okb (c : Component.t) : bool :=
  (8 <=? Block.type c) && (Block.type c <=? 49) && (Block.value_size c <=? UINT64_MAX) && (len (uri None c) <=? UINT64_MAX).

Lemma comp_okb_spec l : forallb comp_okb l = true ->
  Forall NameFacts.comp_ok l /\ Forall (fun c => is_u64 (len (uri None c))) l /\ Forall ordinary l.
Proof.
  intros H. assert (Hc : forall c, In c l -> comp_okb c = true) by (by apply forallb_forall).
  split_and!; apply Forall_forall; intros c Hin; specialize (Hc c Hin); unfold comp_okb in Hc; bool_to_prop.
  - split; [split; [lia|lia]|]. pose proof (len_nonneg (Block.value c)). unfold is_u64, Block.value_size in *. lia.
  - pose proof (len_nonneg (uri None c)). unfold is_u64. lia.
  - unfold ordinary. assert (Hd : ComponentFacts.is_decimalb (Block.type c) = false); [|by rewrite Hd].
    apply bool_decide_eq_false. rewrite !elem_of_cons, elem_of_nil. lia.
Qed.

Lemma regex_from_name_witness : exists t t' b,
  fromName None (name_of "/a/b.c") false = Some (Ok t) /\ top_match None 10 (name_of "/a/b.c/d") t = Some (t', Ok b) /\
  b = Name.isPrefixOf (name_of "/a/b.c") (name_of "/a/b.c/d").
Proof.
  destruct (comp_okb_spec (Name.components (name_of "/a/b.c"))) as (H1 & H2 & H3); [vm_compute; reflexivity|].
  destruct (comp_okb_spec (Name.components (name_of "/a/b.c/d"))) as (K1 & K2 & K3); [vm_compute; reflexivity|].
  destruct (regex_from_name None (name_of "/a/b.c") (name_of "/a/b.c/d") false 10) as (t & t' & b & Et & Em & _ & Hb).
  - exact H1.
  - exact K1.
  - apply Forall_app. exact (conj H2 K2).
  - vm_compute. split; [reflexivity|discriminate].
  - exists t, t', b. split; [exact Et|]. split; [exact Em|]. apply Hb. apply Forall_app. exact (conj H3 K3).
Defined.

(** Repeating a group that accepts the empty sequence: if the group accepts
    no other part of the name from where the repetition starts, a repetition
    without an upper bound repeats it with nothing until the counter reaches
    2^64-1; a recursion of any smaller depth has not returned. *)
Theorem regex_empty_repetition `{SRL : StdRegexLaws} (env : option bytes) (name : Name.t) (i : nat) (e : bytes) (m : matcher) (lo : Z)
  (fuel : nat) (s : objects) (Hw : wf m) (Hp : progresses m = true) (Hn : Forall (uri_ok env) (Name.components name))
  (Hs : 0 < Name.size name < Z.of_nat fuel) (Hf : Z.of_nat fuel <= UINT64_MAX)
  (H0 : language env m []) (HL : forall k, (0 < k)%nat -> ~ language env m (take k (Name.components name))) :
  match_ env fuel name (RegexRepeatMatcher i e m lo MAX_REPETITIONS) 0 (Z.to_nat (Name.size name)) s = None.
Proof.
  rewrite NameFacts.size_len in *. unfold len in Hs. rewrite to_nat_len. cbn [match_]. unfold repeat_match. erewrite bind_some by done.
  replace (length (Name.components name) =? 0)%nat with false by (symmetry; apply Nat.eqb_neq; lia). rewrite andb_false_r.
  unfold mbind at 1, P_bind. erewrite (repeat_depth name _ (language env m) (length (Name.components name))); try done.
  - apply match_decides; try done. lia.
  - unfold in_range. lia.
  - lia.
  - intros k Hk. apply HL. lia.
Qed.

(** The group of the expression with an optional component [a] inside a
    repetition, on the name [/b]. *)
Definition empty_group : matcher :=
  RegexBackrefMatcher 1 [] [RegexPatternListMatcher 2 []
    [RegexRepeatMatcher 3 [] (RegexComponentSetMatcher 4 [] true [mkComponentMatcher 5 (str "a") true (str "a") [6%nat]]) 0 MAX_REPETITIONS]].

Lemma empty_group_only k : (0 < k)%nat -> ~ language None empty_group (take k (Name.components (name_of "/b"))).
Proof.
  intros Hk Hl. destruct (match_decides None (name_of "/b") empty_group 1 2) with (o := 0%nat) (l := 1%nat) (s := noObjects) as (s' & b & E & Hb).
  - repeat split; try done. constructor; [done|constructor].
  - done.
  - apply printable_uri_ok, printableb_spec. vm_compute; reflexivity.
  - lia.
  - vm_compute. lia.
  - lia.
  - assert (Hb' : b = match match_ None 2 (name_of "/b") empty_group 0 1 noObjects with Some (_, Ok b) => b | _ => true end) by by rewrite E.
    assert (Hf : match match_ None 2 (name_of "/b") empty_group 0 1 noObjects with Some (_, Ok b) => b | _ => true end = false) by (vm_compute; reflexivity).
    rewrite Hf in Hb'. subst b. assert (Ht : false = true); [|done]. apply Hb. destruct k as [|k]; [lia|].
    unfold slice. rewrite drop_0. replace (take 1 (Name.components (name_of "/b"))) with (take (S k) (Name.components (name_of "/b"))); [done|].
    rewrite !firstn_all2; [done| |]; vm_compute; lia.
Qed.

Lemma regex_empty_repetition_witness :
  match_ None 1000 (name_of "/b") (RegexRepeatMatcher 0 [] empty_group 0 MAX_REPETITIONS) 0 (Z.to_nat (Name.size (name_of "/b"))) noObjects = None.
Proof.
  apply regex_empty_repetition.
  - repeat split; try done. constructor; [done|constructor].
  - reflexivity.
  - apply printable_uri_ok, printableb_spec. vm_compute; reflexivity.
  - vm_compute. split; reflexivity.
  - vm_compute. discriminate.
  - exists [], []. split; [done|]. split; [|done]. exists [], []. split; [done|]. split; [|done]. exists 0%nat. split; [|done].
    unfold MAX_REPETITIONS, UINT64_MAX. lia.
  - exact empty_group_only.
Defined.

End RegexTheorems.
