(* ===== verification/Scheduler.v ===== *)
(** * The scheduler

    [util/scheduler]: a queue of events ordered by expiry, one timer that is
    armed for the first of them, and callbacks that may schedule and cancel
    events, take time, or throw.  The timer is Boost.Asio's; the class [Timer]
    is what the code uses of it.  Times are unbounded integers: the overflow
    of 64-bit nanoseconds, for an event some 292 years ahead, is not modelled,
    and the clock does not advance between the two readings of it while the
    timer is armed. *)

From stdpp Require Import list sorting.
From S2P Require Import Prelude.

(** ** The timer

    [expires_from_now now d] sets the expiry to [now + d] and cancels the waits
    that are pending; [async_wait] starts a wait; [cancel] cancels the pending
    waits, whose handlers then run with an error code; [complete] is the
    completion of the pending wait after its expiry, from which on it can no
    longer be cancelled. *)
Class Timer := {
  timer : Type;
  expires_from_now : Z -> Z -> timer -> timer;
  async_wait : timer -> timer;
  cancel : timer -> timer;
  complete : timer -> timer;
  pending : timer -> option Z;  (* the expiry of the wait that is pending *)
}.

Class TimerLaws `(Timer) := {
  pending_wait now d t : 0 <= d -> pending (async_wait (expires_from_now now d t)) = Some (now + d);
  pending_cancel t : pending (cancel t) = None;
  pending_complete t : pending (complete t) = None;
}.

Module scheduler.

Section scheduler.
Context `{Timer} {callback : Type}.

(** What a callback does: the calls it makes on the scheduler, the time it
    takes, and whether it ends by an exception. *)
Inductive request :=
| Schedule (after : Z) (cb : callback)
| Cancel (id : nat)
| CancelAll
| Elapse (d : Z)
| Raise.

Variable body : callback -> list request.

(** [ndn-cxx/util/scheduler.cpp:31-51] EventInfo
    Events are numbered in the order in which they are scheduled; the number
    stands for the shared pointer.  [queueIt] is the position in the queue of
    the event with this number, and [isExpired] holds once it has left the
    queue for execution. *)
Record EventInfo := mkEventInfo {
  id : nat;
  cb : callback;
  expireTime : Z;
}.

(** The scheduler, with what it shares with its environment: the clock, how
    many waits have completed whose handler has not run yet, and the history:
    which events were executed and when, and which were cancelled. *)
(** [ndn-cxx/util/scheduler.hpp:176-181] Scheduler *)
Record Scheduler := mkScheduler {
  m_queue : list EventInfo;
  m_timer : timer;
  m_isEventExecuting : bool;
  clock : Z;
  nextId : nat;
  completions : nat;
  executed : list (EventInfo * Z);
  cancelled : list nat;
}.

Definition setQueue q (s : Scheduler) : Scheduler :=
  mkScheduler q (m_timer s) (m_isEventExecuting s) (clock s) (nextId s) (completions s) (executed s) (cancelled s).
Definition setTimer t (s : Scheduler) : Scheduler :=
  mkScheduler (m_queue s) t (m_isEventExecuting s) (clock s) (nextId s) (completions s) (executed s) (cancelled s).
Definition setExecuting b (s : Scheduler) : Scheduler :=
  mkScheduler (m_queue s) (m_timer s) b (clock s) (nextId s) (completions s) (executed s) (cancelled s).
Definition setClock t (s : Scheduler) : Scheduler :=
  mkScheduler (m_queue s) (m_timer s) (m_isEventExecuting s) t (nextId s) (completions s) (executed s) (cancelled s).
Definition setCompletions n (s : Scheduler) : Scheduler :=
  mkScheduler (m_queue s) (m_timer s) (m_isEventExecuting s) (clock s) (nextId s) n (executed s) (cancelled s).
Definition setNextId n (s : Scheduler) : Scheduler :=
  mkScheduler (m_queue s) (m_timer s) (m_isEventExecuting s) (clock s) n (completions s) (executed s) (cancelled s).
Definition logExecuted e (s : Scheduler) : Scheduler :=
  mkScheduler (m_queue s) (m_timer s) (m_isEventExecuting s) (clock s) (nextId s) (completions s) (executed s ++ [e]) (cancelled s).
Definition logCancelled l (s : Scheduler) : Scheduler :=
  mkScheduler (m_queue s) (m_timer s) (m_isEventExecuting s) (clock s) (nextId s) (completions s) (executed s) (cancelled s ++ l).

(** [ndn-cxx/util/scheduler.cpp:81-86] Scheduler::Scheduler *)
Definition init (t : timer) (now : Z) : Scheduler := mkScheduler [] t false now 0 0 [] [].

(** [ndn-cxx/util/scheduler.cpp:40-44] EventInfo::expiresFromNow *)
Definition expiresFromNow (now : Z) (e : EventInfo) : Z := Z.max (expireTime e - now) 0.

(** [ndn-cxx/util/scheduler.cpp:74-79] Scheduler::EventQueueCompare *)
Definition before (a b : EventInfo) : bool := expireTime a <? expireTime b.

(** [std::multiset::insert]: behind the events that are not later. *)
Fixpoint insert (e : EventInfo) (q : list EventInfo) : list EventInfo :=
  match q with
  | [] => [e]
  | x :: q' => if before e x then e :: q else x :: insert e q'
  end.

(** [info->queueIt == m_queue.begin()] for the event with number [i] *)
Definition isFirst (i : nat) (q : list EventInfo) : bool :=
  match q with
  | [] => false
  | x :: _ => (id x =? i)%nat
  end.

Definition contains (i : nat) (q : list EventInfo) : bool := existsb (fun x => (id x =? i)%nat) q.

Definition remove (i : nat) (q : list EventInfo) : list EventInfo := base.filter (fun x => id x <> i) q.

(** [ndn-cxx/util/scheduler.cpp:131-138] Scheduler::scheduleNext *)
Definition scheduleNext (s : Scheduler) : Scheduler :=
  match m_queue s with
  | [] => s
  | e :: _ => setTimer (async_wait (expires_from_now (clock s) (expiresFromNow (clock s) e) (m_timer s))) s
  end.

(** [ndn-cxx/util/scheduler.cpp:90-104] Scheduler::schedule *)
Definition schedule (after : Z) (callback : callback) (s : Scheduler) : Scheduler * nat :=
  let i := nextId s in
  let s := setNextId (S i) (setQueue (insert (mkEventInfo i callback (clock s + after)) (m_queue s)) s) in
  let s := if negb (m_isEventExecuting s) && isFirst i (m_queue s) then scheduleNext s else s in
  (s, i).

(** [ndn-cxx/util/scheduler.cpp:59-63] EventId::operator bool
    The handle of an event that is neither executed nor cancelled. *)
Definition isValid (i : nat) (s : Scheduler) : bool := contains i (m_queue s).

(** [ndn-cxx/util/scheduler.cpp:106-121] Scheduler::cancelImpl
    Also [EventId::EventId], lines 53-57, which makes it the effect of
    cancelling the handle. *)
Definition cancelImpl (i : nat) (s : Scheduler) : Scheduler :=
  if negb (isValid i s) then s
  else
    let s := if isFirst i (m_queue s) then setTimer (cancel (m_timer s)) s else s in
    let s := logCancelled [i] (setQueue (remove i (m_queue s)) s) in
    if negb (m_isEventExecuting s) then scheduleNext s else s.

(** [ndn-cxx/util/scheduler.cpp:123-128] Scheduler::cancelAllEvents *)
Definition cancelAllEvents (s : Scheduler) : Scheduler :=
  let s := logCancelled (map id (m_queue s)) (setQueue [] s) in
  setTimer (cancel (m_timer s)) s.

(** One call a callback makes; [true] when it throws. *)
Definition perform (r : request) (s : Scheduler) : Scheduler * bool :=
  match r with
  | Schedule after cb => ((schedule after cb s).1, false)
  | Cancel i => (cancelImpl i s, false)
  | CancelAll => (cancelAllEvents s, false)
  | Elapse d => (setClock (clock s + Z.max d 0) s, false)
  | Raise => (s, true)
  end.

Fixpoint performAll (rs : list request) (s : Scheduler) : Scheduler * bool :=
  match rs with
  | [] => (s, false)
  | r :: rs => let '(s, threw) := perform r s in if threw : bool then (s, true) else performAll rs s
  end.

(** [ndn-cxx/util/scheduler.cpp:155-166] Scheduler::executeEvent (the loop)
    [None]: more than [fuel] events are due. *)
Fixpoint execute_loop (fuel : nat) (now : Z) (s : Scheduler) : option (Scheduler * bool) :=
  match m_queue s with
  | [] => Some (s, false)
  | info :: q =>
      if now <? expireTime info then Some (s, false)
      else
        match fuel with
        | O => None
        | S fuel =>
            let s := logExecuted (info, clock s) (setQueue q s) in
            let '(s, threw) := performAll (body (cb info)) s in
            if threw : bool then Some (s, true) else execute_loop fuel now s
        end
  end.

(** [ndn-cxx/util/scheduler.cpp:140-167] Scheduler::executeEvent
    The guard runs also when a callback throws. *)
Definition executeEvent (fuel : nat) (error : bool) (s : Scheduler) : option (Scheduler * bool) :=
  if error then Some (s, false)
  else
    match execute_loop fuel (clock s) (setExecuting true s) with
    | None => None
    | Some (s, threw) => Some (scheduleNext (setExecuting false s), threw)
    end.

(** ** The scheduler and its environment

    Outside of callbacks the program schedules and cancels events, time
    passes, a pending wait completes once its time has come, a completed wait
    has its handler run, and so has a cancelled one, with an error. *)
Inductive step : Scheduler -> Scheduler -> Prop :=
| step_schedule after cb s : step s (schedule after cb s).1
| step_cancel i s : step s (cancelImpl i s)
| step_cancelAll s : step s (cancelAllEvents s)
| step_time d s : 0 <= d -> step s (setClock (clock s + d) s)
| step_complete e s : pending (m_timer s) = Some e -> e <= clock s ->
    step s (setCompletions (S (completions s)) (setTimer (complete (m_timer s)) s))
| step_run fuel n threw s s' : completions s = S n ->
    executeEvent fuel false (setCompletions n s) = Some (s', threw) -> step s s'
| step_aborted fuel threw s s' : executeEvent fuel true s = Some (s', threw) -> step s s'.

Inductive reachable (t : timer) (now : Z) : Scheduler -> Prop :=
| reachable_init : reachable t now (init t now)
| reachable_step s s' : reachable t now s -> step s s' -> reachable t now s'.

(** The io_service runs at time [t]: the pending wait completes if its time
    has come, and one handler runs. *)
Definition poll (fuel : nat) (t : Z) (s : Scheduler) : option (Scheduler * bool) :=
  let s := setClock (Z.max (clock s) t) s in
  let s := match pending (m_timer s) with
           | Some e => if e <=? clock s then setCompletions (S (completions s)) (setTimer (complete (m_timer s)) s) else s
           | None => s
           end in
  match completions s with
  | O => Some (s, false)
  | S n => executeEvent fuel false (setCompletions n s)
  end.

End scheduler.
End scheduler.

(** ** Facts *)

Module SchedulerFacts.
Import scheduler.

Section facts.
Context `{HT : Timer} {HTL : TimerLaws HT} {callback : Type} (body : callback -> list (request (callback := callback))).
Implicit Types (s : Scheduler (callback := callback)) (e x : EventInfo (callback := callback)) (q : list (EventInfo (callback := callback))).

Definition earlier e x : Prop := expireTime e <= expireTime x.

#[export] Instance earlier_trans : Transitive earlier.
Proof. intros a b c. unfold earlier. lia. Qed.

(** *** The queue *)

Lemma insert_perm e q : insert e q ≡ₚ e :: q.
Proof.
  induction q as [|x q IH]; [done|]. simpl. destruct (before e x); [done|]. rewrite IH. apply Permutation_swap.
Qed.

Lemma insert_sorted e q : StronglySorted earlier q -> StronglySorted earlier (insert e q).
Proof.
  induction q as [|x q IH]; simpl; intros Hs; [by repeat constructor|]. inversion_clear Hs as [|? ? Hq Hx].
  unfold before. destruct (Z.ltb_spec (expireTime e) (expireTime x)) as [Hlt|Hge].
  - constructor; [by constructor|]. constructor; [unfold earlier; lia|]. eapply Forall_impl; [|exact Hx]. unfold earlier. lia.
  - constructor; [by apply IH|]. rewrite insert_perm. constructor; [unfold earlier; lia|done].
Qed.

(** A new event goes behind an event that is not later. *)
Lemma insert_behind e l1 x l2 : StronglySorted earlier (l1 ++ x :: l2) -> expireTime x <= expireTime e ->
  insert e (l1 ++ x :: l2) = l1 ++ x :: insert e l2.
Proof.
  intros Hs Hx. induction l1 as [|y l1 IH]; simpl in *; unfold before.
  - by rewrite (proj2 (Z.ltb_ge _ _) Hx).
  - inversion_clear Hs as [|? ? Hq Hy]. apply Forall_app in Hy as [_ [Hyx _]%Forall_cons_iff]. unfold earlier in Hyx.
    rewrite (proj2 (Z.ltb_ge _ _)) by lia. by rewrite IH.
Qed.

Lemma insert_head e q : isFirst (id e) (insert e q) = false -> exists x q' q'', q = x :: q' /\ insert e q = x :: q''.
Proof.
  destruct q as [|x q]; simpl; [by rewrite Nat.eqb_refl|]. destruct (before e x) eqn:E; simpl; [by rewrite Nat.eqb_refl|]. eauto.
Qed.

Lemma remove_sublist i q : remove i q `sublist_of` q.
Proof. apply sublist_filter. Qed.

Lemma contains_spec i q : contains i q = true <-> i ∈ map id q.
Proof.
  unfold contains. rewrite existsb_exists, list_elem_of_fmap. split.
  - intros (x & Hx & He). exists x. apply Nat.eqb_eq in He. apply list_elem_of_In in Hx. by subst.
  - intros (x & -> & Hx). exists x. split; [by apply list_elem_of_In|]. apply Nat.eqb_refl.
Qed.

Lemma remove_perm i q : i ∈ map id q -> NoDup (map id q) -> map id q ≡ₚ i :: map id (remove i q).
Proof.
  induction q as [|x q IH]; simpl; intros Hi HD; [by apply elem_of_nil in Hi|]. apply list.NoDup_cons in HD as [Hx HD].
  unfold remove. rewrite filter_cons. destruct (decide (id x <> i)) as [Hne|Heq].
  - apply elem_of_cons in Hi as [->|Hi]; [done|]. simpl. rewrite IH by done. apply Permutation_swap.
  - apply dec_stable in Heq. subst i. constructor.
    assert (Hall : forall k : list (EventInfo (callback := callback)), (forall y, y ∈ k -> id y <> id x) -> base.filter (fun y => id y <> id x) k = k).
    { induction k as [|y k IHk]; intros Hk; [done|]. rewrite filter_cons_True by (apply Hk; by left). f_equal. apply IHk.
      intros z Hz. apply Hk. by right. }
    rewrite Hall; [done|]. intros y Hy Heq. apply Hx. rewrite <- Heq. by apply list_elem_of_fmap_2.
Qed.

(** *** The invariant

    Every event that was scheduled is waiting in the queue, or was executed, or
    was cancelled, and only one of these. *)
Definition accounted s : Prop :=
  map id (m_queue s) ++ map (fun p => id p.1) (executed s) ++ cancelled s ≡ₚ seq 0 (nextId s).

(** No event was executed before its time. *)
Definition on_time s : Prop := Forall (fun p => expireTime p.1 <= p.2 <= clock s) (executed s).

Definition core s : Prop := StronglySorted earlier (m_queue s) /\ accounted s /\ on_time s.

(** If an event waits, the timer will wake the scheduler in time for it. *)
Definition armed s : Prop :=
  match m_queue s with
  | [] => True
  | x :: _ => (0 < completions s)%nat \/ exists t, pending (m_timer s) = Some t /\ t <= Z.max (expireTime x) (clock s)
  end.

Definition inv s : Prop := core s /\ armed s /\ m_isEventExecuting s = false.

Lemma accounted_NoDup s : accounted s -> NoDup (map id (m_queue s)).
Proof.
  unfold accounted. intros Ha. assert (HD : NoDup (map id (m_queue s) ++ map (fun p => id p.1) (executed s) ++ cancelled s)).
  { rewrite Ha. apply NoDup_seq. }
  by apply list.NoDup_app in HD as [? _].
Qed.

Lemma scheduleNext_fields s : m_queue (scheduleNext s) = m_queue s /\ clock (scheduleNext s) = clock s /\
  nextId (scheduleNext s) = nextId s /\ completions (scheduleNext s) = completions s /\ executed (scheduleNext s) = executed s /\
  cancelled (scheduleNext s) = cancelled s /\ m_isEventExecuting (scheduleNext s) = m_isEventExecuting s.
Proof. unfold scheduleNext. destruct (m_queue s) eqn:E; by rewrite ?E. Qed.

Lemma scheduleNext_armed s : armed (scheduleNext s).
Proof.
  unfold armed. destruct (scheduleNext_fields s) as (Hq & Hc & _ & Hn & _). rewrite Hq, Hc, Hn.
  unfold scheduleNext. destruct (m_queue s) as [|x q] eqn:E; [done|]. right. simpl.
  exists (clock s + expiresFromNow (clock s) x). split; [apply pending_wait; unfold expiresFromNow; lia|]. unfold expiresFromNow. lia.
Qed.

Lemma scheduleNext_core s : core (scheduleNext s) <-> core s.
Proof.
  destruct (scheduleNext_fields s) as (Hq & Hc & Hi & _ & He & Hx & _). unfold core, accounted, on_time. by rewrite Hq, Hc, Hi, He, Hx.
Qed.

Lemma schedule_core after cb s : core s -> core (schedule after cb s).1.
Proof.
  intros (Hs & Ha & Ht). unfold schedule. simpl.
  set (s1 := setNextId _ _). assert (Hc : core s1).
  { split; [by apply insert_sorted|]. split; [|done]. unfold accounted in *. cbn [m_queue executed cancelled nextId s1 setNextId setQueue].
    rewrite insert_perm. cbn [map]. cbn [id]. rewrite seq_S, <- Ha. simpl. apply Permutation_cons_append. }
  destruct (_ && _); [by apply scheduleNext_core|done].
Qed.

Lemma cancelImpl_core i s : core s -> core (cancelImpl i s).
Proof.
  intros (Hs & Ha & Ht). unfold cancelImpl, isValid. destruct (contains i (m_queue s)) eqn:E; [|done]. cbn [negb].
  set (s1 := if isFirst i (m_queue s) then _ else s).
  assert (Hf : m_queue s1 = m_queue s /\ executed s1 = executed s /\ cancelled s1 = cancelled s /\ nextId s1 = nextId s /\ clock s1 = clock s)
    by (unfold s1; by destruct (isFirst i (m_queue s))).
  destruct Hf as (Hq & He & Hx & Hi & Hc). apply contains_spec in E.
  assert (Hcore : core (logCancelled [i] (setQueue (remove i (m_queue s1)) s1))).
  { split; [simpl; rewrite Hq; eapply StronglySorted_sublist; [apply remove_sublist|done]|]. unfold accounted, on_time in *.
    simpl. rewrite Hq, He, Hx, Hi, Hc. split; [|done]. rewrite <- Ha, (remove_perm i (m_queue s) E) by by apply accounted_NoDup.
    rewrite !app_assoc. rewrite Permutation_app_comm. simpl. by rewrite <- !app_assoc. }
  destruct (negb _); [by apply scheduleNext_core|done].
Qed.

Lemma cancelAll_core s : core s -> core (cancelAllEvents s).
Proof.
  intros (Hs & Ha & Ht). split; [constructor|]. split; [|done]. unfold accounted in *. simpl. rewrite <- Ha.
  rewrite (app_assoc (map _ (executed s))). by rewrite Permutation_app_comm.
Qed.

Lemma setClock_core d s : 0 <= d -> core s -> core (setClock (clock s + d) s).
Proof.
  intros Hd (Hs & Ha & Ht). split; [done|]. split; [done|]. unfold on_time in *. eapply Forall_impl; [|exact Ht]. simpl. intros p. lia.
Qed.

Lemma perform_core r s : core s -> core (perform r s).1 /\ clock s <= clock (perform r s).1.
Proof.
  intros Hc. destruct r as [after cb|i| |d|]; cbn [perform fst].
  - split; [by apply schedule_core|]. unfold schedule. simpl. destruct (_ && _); [|simpl; lia].
    rewrite (proj1 (proj2 (scheduleNext_fields _))). simpl. lia.
  - split; [by apply cancelImpl_core|]. unfold cancelImpl. destruct (negb (isValid i s)); [lia|].
    set (s1 := if isFirst i (m_queue s) then _ else s). assert (Hcl : clock s1 = clock s) by (unfold s1; by destruct (isFirst i (m_queue s))).
    destruct (negb _); [rewrite (proj1 (proj2 (scheduleNext_fields _)))|]; simpl; lia.
  - split; [by apply cancelAll_core|]. simpl. lia.
  - split; [apply setClock_core; [lia|done]|]. simpl. lia.
  - split; [done|lia].
Qed.

Lemma performAll_core rs : forall s, core s -> core (performAll rs s).1 /\ clock s <= clock (performAll rs s).1.
Proof.
  induction rs as [|r rs IH]; intros s Hc; [by split|]. cbn [performAll]. destruct (perform_core r s Hc) as [Hc1 Hcl].
  destruct (perform r s) as [s1 [|]] eqn:E; [by split|]. simpl in Hc1, Hcl. destruct (IH s1 Hc1). split; [done|lia].
Qed.

Lemma pop_core s info q : core s -> m_queue s = info :: q -> expireTime info <= clock s ->
  core (logExecuted (info, clock s) (setQueue q s)).
Proof.
  intros (Hs & Ha & Ht) Hq Hi. unfold accounted, on_time in *. rewrite Hq in *. split; [by inversion Hs|]. simpl. split.
  - unfold accounted. simpl. rewrite map_app. simpl. rewrite <- Ha. simpl. rewrite <- app_assoc, (app_assoc (map id q)). simpl.
    rewrite <- Permutation_middle. by rewrite <- app_assoc.
  - unfold on_time. simpl. apply Forall_app. split; [done|]. constructor; [simpl; lia|constructor].
Qed.

Lemma execute_loop_core fuel now : forall s s' threw, core s -> now <= clock s ->
  execute_loop body fuel now s = Some (s', threw) -> core s' /\ clock s <= clock s'.
Proof.
  induction fuel as [|fuel IH]; intros s s' threw Hc Hn; cbn [execute_loop]; destruct (m_queue s) as [|info q] eqn:Hq;
    try (intros [= <- <-]; by split); destruct (Z.ltb_spec now (expireTime info)); try (intros [= <- <-]; by split).
  pose proof (pop_core s info q Hc Hq ltac:(lia)) as Hc1.
  destruct (performAll_core (body (cb info)) _ Hc1) as [Hc2 Hcl].
  destruct (performAll (body (cb info)) _) as [s2 [|]]; simpl in Hc2, Hcl; [intros [= <- <-]; by split|].
  intros E. apply IH in E as [Hc3 Hcl3]; [split; [done|lia]|done|lia].
Qed.

Lemma setExecuting_core b s : core (setExecuting b s) <-> core s.
Proof. done. Qed.

Lemma executeEvent_inv fuel s s' threw : core s -> executeEvent body fuel false s = Some (s', threw) ->
  inv s' /\ clock s <= clock s'.
Proof.
  intros Hc. unfold executeEvent. destruct (execute_loop _ _ _ _) as [[s1 t1]|] eqn:E; [|done]. intros [= <- <-].
  apply execute_loop_core in E as [Hc1 Hcl]; [|done|simpl; lia].
  destruct (scheduleNext_fields (setExecuting false s1)) as (_ & Hclk & _ & _ & _ & _ & Hex). rewrite Hclk. split; [|done].
  split; [by apply scheduleNext_core|]. split; [apply scheduleNext_armed|]. by rewrite Hex.
Qed.

Lemma schedule_inv after cb s : inv s -> inv (schedule after cb s).1.
Proof.
  intros (Hc & Ha & He). split; [by apply schedule_core|]. unfold schedule. simpl. rewrite He. cbn [negb andb].
  set (s1 := setNextId _ _). destruct (isFirst (nextId s) _) eqn:Ef; cbv zeta.
  - split; [apply scheduleNext_armed|]. destruct (scheduleNext_fields s1) as (_ & _ & _ & _ & _ & _ & ->). done.
  - split; [|done]. apply (insert_head (mkEventInfo (nextId s) cb (clock s + after))) in Ef as (x & q' & q'' & Hq & Hins).
    unfold armed in *. simpl. rewrite Hins. by rewrite Hq in Ha.
Qed.

Lemma cancelImpl_inv i s : inv s -> inv (cancelImpl i s).
Proof.
  intros (Hc & Ha & He). split; [by apply cancelImpl_core|]. unfold cancelImpl. destruct (negb (isValid i s)); [done|].
  set (s1 := if isFirst i (m_queue s) then _ else s). assert (Hex : m_isEventExecuting s1 = false) by (unfold s1; by destruct (isFirst i (m_queue s))).
  simpl. rewrite Hex. cbn [negb]. split; [apply scheduleNext_armed|].
  by destruct (scheduleNext_fields (logCancelled [i] (setQueue (remove i (m_queue s1)) s1))) as (_ & _ & _ & _ & _ & _ & ->).
Qed.

Lemma step_inv s s' : inv s -> step body s s' -> inv s'.
Proof.
  intros Hi Hst. destruct Hst as [after cb s|i s|s|d s Hd|e s Hp He|fuel n threw s s' Hn E|fuel threw s s' E].
  - by apply schedule_inv.
  - by apply cancelImpl_inv.
  - destruct Hi as (Hc & _ & He). split; [by apply cancelAll_core|]. by split.
  - destruct Hi as (Hc & Ha & He). split; [by apply setClock_core|]. split; [|done]. unfold armed in *. simpl.
    destruct (m_queue s) as [|x q]; [done|]. destruct Ha as [?|(t & Ht & Hle)]; [by left|right]. exists t. split; [done|lia].
  - destruct Hi as (Hc & _ & Hx). split; [done|]. split; [|done]. unfold armed. simpl. destruct (m_queue s); [done|]. left. lia.
  - destruct Hi as (Hc & _ & _). by apply executeEvent_inv in E as [? _].
  - injection E as <- <-. done.
Qed.

(** *** Runs

    If callbacks schedule further events with positive delays only, the events
    that are due when a run starts are the ones it can execute. *)

Definition positive (r : request (callback := callback)) : Prop :=
  match r with Schedule after _ => 0 < after | _ => True end.

Definition due (now : Z) q : list EventInfo := base.filter (fun e => expireTime e <= now) q.

Lemma filter_sublist_mono now q q' : q' `sublist_of` q -> due now q' `sublist_of` due now q.
Proof.
  induction 1 as [|x q' q _ IH|x q' q _ IH]; [done| |]; unfold due in *; rewrite !filter_cons; case_decide; try done.
  - by apply sublist_skip.
  - by apply sublist_cons.
Qed.

Lemma insert_due now e q : now < expireTime e -> due now (insert e q) = due now q.
Proof.
  intros He. assert (Hd : forall k, due now (e :: k) = due now k) by (intros k; unfold due; rewrite filter_cons_False; [done|lia]).
  induction q as [|x q IH]; [apply Hd|]. simpl. destruct (before e x); [apply Hd|]. unfold due in *. rewrite !filter_cons. by rewrite IH.
Qed.

(** What a call of a callback leaves unchanged. *)
Definition grows s s' : Prop :=
  executed s' = executed s /\ (exists l, cancelled s' = cancelled s ++ l) /\ clock s <= clock s'.

Lemma grows_trans s1 s2 s3 : grows s1 s2 -> grows s2 s3 -> grows s1 s3.
Proof.
  intros (H1 & (l & H2) & H3) (K1 & (k & K2) & K3). split; [congruence|]. split; [|lia]. exists (l ++ k). by rewrite K2, H2, app_assoc.
Qed.

Lemma scheduleNext_grows s s' : grows s s' -> grows s (scheduleNext s').
Proof.
  destruct (scheduleNext_fields s') as (_ & Hc & _ & _ & He & Hx & _). unfold grows. by rewrite Hc, He, Hx.
Qed.

(** The effect of one call on the queue: new events behind [ev], if it is due,
    and at most the cancelled ones removed. *)
Definition retains ev l1 s' : Prop :=
  id ev ∈ cancelled s' \/ exists l1' l2', m_queue s' = l1' ++ ev :: l2' /\ l1' `sublist_of` l1.

Lemma remove_retains i (ev : EventInfo (callback := callback)) l1 l2 : i <> id ev ->
  exists l1' l2', remove i (l1 ++ ev :: l2) = l1' ++ ev :: l2' /\ l1' `sublist_of` l1.
Proof.
  intros Hi. exists (remove i l1), (remove i l2). split; [|apply remove_sublist]. unfold remove. rewrite list.filter_app, filter_cons_True; [done|congruence].
Qed.

Lemma perform_spec r s now ev l1 l2 : core s -> positive r -> now <= clock s ->
  grows s (perform r s).1 /\ due now (m_queue (perform r s).1) `sublist_of` due now (m_queue s) /\
  (m_queue s = l1 ++ ev :: l2 -> expireTime ev <= now -> retains ev l1 (perform r s).1).
Proof.
  intros (Hs & Hacc & _) Hp Hn. destruct r as [after cb|i| |d|]; cbn [perform fst].
  - unfold schedule. cbn [fst]. set (s1 := setNextId _ _).
    assert (Hq : forall s2, s2 = s1 \/ s2 = scheduleNext s1 -> m_queue s2 = insert (mkEventInfo (nextId s) cb (clock s + after)) (m_queue s)).
    { intros s2 [->| ->]; [done|]. by rewrite (proj1 (scheduleNext_fields s1)). }
    match goal with |- grows s ?s2 /\ _ => assert (Hs2 : s2 = s1 \/ s2 = scheduleNext s1) by (destruct (_ && _); auto); set (s' := s2) in * end.
    split; [|split].
    + assert (grows s s1) by (split; [done|]; split; [by exists []; rewrite app_nil_r|simpl; lia]).
      destruct Hs2 as [->| ->]; [done|by apply scheduleNext_grows].
    + rewrite (Hq _ Hs2), insert_due; [done|]. simpl in Hp |- *. lia.
    + intros Hq0 He. right. rewrite (Hq _ Hs2), Hq0, insert_behind; [by eexists _, _|congruence|]. simpl in Hp |- *. lia.
  - unfold cancelImpl. cbv zeta. destruct (negb (isValid i s)) eqn:Ev.
    { split; [split; [done|]; split; [by exists []; rewrite app_nil_r|lia]|]. split; [done|]. intros Hq0 _. right. by exists l1, l2. }
    set (s1 := if isFirst i (m_queue s) then _ else s).
    assert (Hf : m_queue s1 = m_queue s /\ executed s1 = executed s /\ cancelled s1 = cancelled s /\ clock s1 = clock s)
      by (unfold s1; by destruct (isFirst i (m_queue s))). destruct Hf as (Hq & He & Hx & Hc).
    set (s2 := logCancelled [i] (setQueue (remove i (m_queue s1)) s1)).
    match goal with |- grows s ?s3 /\ _ => assert (Hs3 : s3 = s2 \/ s3 = scheduleNext s2) by (destruct (m_isEventExecuting s2); [by left|by right]); set (s' := s3) in * end.
    assert (Hq' : m_queue s' = remove i (m_queue s)).
    { destruct Hs3 as [->| ->]; [simpl; by rewrite Hq|]. rewrite (proj1 (scheduleNext_fields s2)). simpl. by rewrite Hq. }
    assert (Hg : grows s s2) by (split; [done|]; split; [exists [i]; simpl; by rewrite Hx|simpl; lia]).
    split; [destruct Hs3 as [->| ->]; [done|by apply scheduleNext_grows]|]. rewrite Hq'.
    split; [apply filter_sublist_mono, remove_sublist|]. intros Hq0 _. destruct (decide (i = id ev)) as [->|Hne].
    + left. destruct Hs3 as [->| ->]; [|rewrite (proj1 (proj2 (proj2 (proj2 (proj2 (proj2 (scheduleNext_fields s2)))))))]; simpl; set_solver.
    + right. rewrite Hq', Hq0. by apply remove_retains.
  - split; [split; [done|]; split; [by eexists|simpl; lia]|]. split; [apply sublist_nil_l|]. intros Hq0 _. left. simpl. rewrite Hq0, map_app. simpl. set_solver.
  - split; [split; [done|]; split; [by exists []; rewrite app_nil_r|simpl; lia]|]. split; [done|]. intros Hq0 _. right. by exists l1, l2.
  - split; [split; [done|]; split; [by exists []; rewrite app_nil_r|lia]|]. split; [done|]. intros Hq0 _. right. by exists l1, l2.
Qed.

Lemma cancelled_grows i s s' : grows s s' -> i ∈ cancelled s -> i ∈ cancelled s'.
Proof. intros (_ & (l & ->) & _) Hi. set_solver. Qed.

Lemma performAll_spec rs now ev : forall s l1 l2, core s -> Forall positive rs -> now <= clock s ->
  grows s (performAll rs s).1 /\ due now (m_queue (performAll rs s).1) `sublist_of` due now (m_queue s) /\
  (m_queue s = l1 ++ ev :: l2 -> expireTime ev <= now -> retains ev l1 (performAll rs s).1).
Proof.
  induction rs as [|r rs IH]; intros s l1 l2 Hc Hp Hn.
  { split; [split; [done|]; split; [by exists []; rewrite app_nil_r|simpl; lia]|]. split; [done|]. intros Hq _. right. by exists l1, l2. }
  apply Forall_cons_iff in Hp as [Hr Hp]. destruct (perform_spec r s now ev l1 l2 Hc Hr Hn) as (Hg & Hd & Hw).
  destruct (perform_core r s Hc) as [Hc1 Hcl]. cbn [performAll]. destruct (perform r s) as [s1 [|]]; simpl in *; [done|].
  destruct (IH s1 l1 l2 Hc1 Hp ltac:(lia)) as (Hg2 & Hd2 & _). split; [by eapply grows_trans|]. split; [by etrans|].
  intros Hq He. destruct (Hw Hq He) as [Hx|(l1' & l2' & Hq1 & Hsub)]; [left; by eapply cancelled_grows|].
  destruct (IH s1 l1' l2' Hc1 Hp ltac:(lia)) as (_ & _ & Hw2).
  destruct (Hw2 Hq1 He) as [Hx|(l1'' & l2'' & Hq2 & Hsub2)]; [by left|right]. exists l1'', l2''. split; [done|]. by etrans.
Qed.

Definition all_positive : Prop := forall c, Forall positive (body c).

Lemma due_cons now x q : expireTime x <= now -> due now (x :: q) = x :: due now q.
Proof. intros Hx. unfold due. by rewrite filter_cons_True. Qed.

Lemma due_stop now x q : StronglySorted earlier (x :: q) -> now < expireTime x -> due now (x :: q) = [].
Proof.
  intros Hs Hx. inversion_clear Hs as [|? ? _ Hf]. unfold due. rewrite filter_cons_False by lia.
  induction Hf as [|y q Hy _ IH]; [done|]. unfold earlier in Hy. rewrite filter_cons_False; [done|lia].
Qed.

(** A run ends, having executed, in order, the events that were due but for
    those its own callbacks cancelled; if a callback throws, those up to it. *)
Lemma execute_loop_total fuel now : all_positive -> forall s, core s -> now <= clock s -> (length (due now (m_queue s)) <= fuel)%nat ->
  exists s' threw l, execute_loop body fuel now s = Some (s', threw) /\ executed s' = executed s ++ l /\
    map fst l `sublist_of` due now (m_queue s) /\ (exists k, cancelled s' = cancelled s ++ k) /\
    (threw = false -> forall ev, ev ∈ due now (m_queue s) -> ev ∈ map fst l \/ id ev ∈ cancelled s').
Proof.
  intros Hpos. induction fuel as [|fuel IH]; intros s Hc Hn Hf; cbn [execute_loop]; destruct (m_queue s) as [|info q] eqn:Hq.
  1,3: exists s, false, []; split; [done|]; split; [by rewrite app_nil_r|]; split; [done|]; split; [by exists []; rewrite app_nil_r|];
    intros _ ev Hev; by apply elem_of_nil in Hev.
  all: destruct (Z.ltb_spec now (expireTime info)) as [Hlt|Hge].
  1,3: exists s, false, []; split; [done|]; split; [by rewrite app_nil_r|]; rewrite (due_stop now info q) by (rewrite <- ?Hq; by try apply Hc);
    split; [done|]; split; [by exists []; rewrite app_nil_r|]; intros _ ev Hev; by apply elem_of_nil in Hev.
  { rewrite due_cons in Hf by done. simpl in Hf. lia. }
  rewrite due_cons in Hf |- * by done. pose proof (pop_core s info q Hc Hq ltac:(lia)) as Hc1.
  set (s1 := logExecuted (info, clock s) (setQueue q s)) in *.
  destruct (performAll_spec (body (cb info)) now info s1 [] [] Hc1 (Hpos _) Hn) as ((He & (k & Hx) & Hcl) & Hd & _).
  destruct (performAll_core (body (cb info)) s1 Hc1) as [Hc2 _].
  assert (Hrun : forall ev, ev ∈ due now q -> ev ∈ due now (m_queue (performAll (body (cb info)) s1).1) \/ id ev ∈ cancelled (performAll (body (cb info)) s1).1).
  { intros ev [He1 He2]%list_elem_of_filter. apply list_elem_of_split in He2 as (a & b & Hab).
    destruct (performAll_spec (body (cb info)) now ev s1 a b Hc1 (Hpos _) Hn) as (_ & _ & Hw).
    destruct (Hw Hab He1) as [?|(a' & b' & Hq' & _)]; [by right|left]. apply list_elem_of_filter. split; [done|]. rewrite Hq'. set_solver. }
  destruct (performAll (body (cb info)) s1) as [s2 [|]]; simpl in *.
  { exists s2, true, [(info, clock s)]. split; [done|]. split; [by rewrite He|]. split; [apply sublist_skip, sublist_nil_l|]. split; [|done].
    by exists k. }
  destruct (IH s2 Hc2 ltac:(lia)) as (s' & threw & l & E & Hex & Hsub & (k' & Hk') & Hall).
  { apply sublist_length in Hd. lia. }
  exists s', threw, ((info, clock s) :: l). split; [done|]. split; [rewrite Hex, He; simpl; by rewrite <- app_assoc|]. simpl.
  split; [apply sublist_skip; by etrans|]. split; [exists (k ++ k'); by rewrite Hk', Hx, app_assoc|].
  intros Ht ev [->|Hev]%elem_of_cons; [left; by left|]. destruct (Hrun ev Hev) as [Hd'|Hx'].
  - destruct (Hall Ht ev Hd') as [?|?]; [left; by right|by right].
  - right. rewrite Hk'. set_solver.
Qed.

Lemma execute_loop_grows fuel now : all_positive -> forall s s' t, core s -> now <= clock s -> execute_loop body fuel now s = Some (s', t) ->
  (exists l, executed s' = executed s ++ l) /\ (exists k, cancelled s' = cancelled s ++ k).
Proof.
  intros Hpos. induction fuel as [|fuel IH]; intros s s' t Hc Hn E; cbn [execute_loop] in E; destruct (m_queue s) as [|info q] eqn:Hq.
  all: try (injection E as <- <-; split; exists []; by rewrite app_nil_r).
  all: destruct (Z.ltb_spec now (expireTime info)); try done; try (injection E as <- <-; split; exists []; by rewrite app_nil_r).
  pose proof (pop_core s info q Hc Hq ltac:(lia)) as Hc1. destruct (performAll_core (body (cb info)) _ Hc1) as [Hc2 Hcl].
  destruct (performAll_spec (body (cb info)) now info _ [] [] Hc1 (Hpos _) Hn) as ((Hex & (k & Hx) & _) & _).
  destruct (performAll _ _) as [s2 [|]]; simpl in *; [injection E as <- <-; split; [by eexists|by exists k]|].
  apply IH in E as [(l' & ->) (k' & ->)]; [|done|lia]. rewrite Hex, Hx. split; [|by rewrite <- app_assoc; eexists].
  rewrite <- app_assoc. by eexists.
Qed.

(** Each run brings an event that is due nearer to its execution. *)
Lemma execute_loop_progress fuel now ev : all_positive -> forall s s' threw l1 l2, core s -> now <= clock s ->
  m_queue s = l1 ++ ev :: l2 -> expireTime ev <= now -> execute_loop body fuel now s = Some (s', threw) ->
  ev ∈ map fst (executed s') \/ id ev ∈ cancelled s' \/
  exists l1' l2', m_queue s' = l1' ++ ev :: l2' /\ (length l1' < length l1)%nat.
Proof.
  intros Hpos. induction fuel as [|fuel IH]; intros s s' threw l1 l2 Hc Hn Hq He E; cbn [execute_loop] in E.
  all: destruct (m_queue s) as [|info q] eqn:Hq0; [by destruct l1|].
  all: assert (Hle : expireTime info <= expireTime ev) by (destruct Hc as [Hs _]; rewrite Hq0, Hq in Hs;
    destruct l1 as [|y l1]; simplify_eq/=; [lia|]; inversion_clear Hs as [|? ? _ Hf]; apply Forall_app in Hf as [_ [Hy _]%Forall_cons_iff]; done).
  all: rewrite (proj2 (Z.ltb_ge _ _)) in E by lia; try done.
  pose proof (pop_core s info q Hc Hq0 ltac:(lia)) as Hc1. set (s1 := logExecuted (info, clock s) (setQueue q s)) in *.
  destruct (performAll_core (body (cb info)) s1 Hc1) as [Hc2 Hcl].
  destruct l1 as [|y l1]; simplify_eq/=.
  - destruct (performAll_spec (body (cb ev)) now ev s1 [] [] Hc1 (Hpos _) Hn) as ((Hex & _ & Hcl2) & _ & _).
    left. destruct (performAll (body (cb ev)) s1) as [s2 [|]]; simpl in *.
    + injection E as <- <-. rewrite Hex, map_app. simpl. set_solver.
    + apply execute_loop_grows in E as [(l & ->) _]; [|done|done|lia]. rewrite Hex, !map_app. simpl. set_solver.
  - destruct (performAll_spec (body (cb y)) now ev s1 l1 l2 Hc1 (Hpos _) Hn) as (Hg & _ & Hw).
    destruct (performAll (body (cb y)) s1) as [s2 [|]]; simpl in *.
    + injection E as <- <-. destruct (Hw eq_refl He) as [?|(l1' & l2' & Hq2 & Hsub)]; [by right; left|]. right; right. exists l1', l2'.
      split; [done|]. apply sublist_length in Hsub. lia.
    + destruct (Hw eq_refl He) as [Hx|(l1' & l2' & Hq2 & Hsub)].
      * right; left. apply execute_loop_grows in E as [_ (k & ->)]; [set_solver|done|done|lia].
      * apply (IH s2 s' threw l1' l2') in E; [|done|lia|done|done]. apply sublist_length in Hsub.
        destruct E as [?|[?|(a & b & Ha & Hl)]]; [by left|by right; left|]. right; right. exists a, b. split; [done|lia].
Qed.

(** *** Polling *)

Lemma due_length now q : (length (due now q) <= length q)%nat.
Proof. apply sublist_length, sublist_filter. Qed.

Lemma executeEvent_total fuel s : all_positive -> core s -> (length (m_queue s) <= fuel)%nat ->
  exists s' threw l, executeEvent body fuel false s = Some (s', threw) /\ executed s' = executed s ++ l /\
    map fst l `sublist_of` due (clock s) (m_queue s) /\
    (threw = false -> forall ev, ev ∈ due (clock s) (m_queue s) -> ev ∈ map fst l \/ id ev ∈ cancelled s').
Proof.
  intros Hpos Hc Hf. destruct (execute_loop_total fuel (clock s) Hpos (setExecuting true s) Hc) as (s1 & threw & l & E & Hex & Hsub & _ & Hall).
  { done. } { pose proof (due_length (clock s) (m_queue s)). simpl. lia. }
  unfold executeEvent. rewrite E. destruct (scheduleNext_fields (setExecuting false s1)) as (_ & _ & _ & _ & He & Hx & _).
  exists (scheduleNext (setExecuting false s1)), threw, l. rewrite He, Hx. done.
Qed.

(** In a state of the invariant, once the first event is due, the poll runs the
    handler of the timer. *)
Lemma poll_runs fuel t s x q : inv s -> m_queue s = x :: q -> expireTime x <= Z.max (clock s) t ->
  exists s0, core s0 /\ m_queue s0 = m_queue s /\ clock s0 = Z.max (clock s) t /\ executed s0 = executed s /\ cancelled s0 = cancelled s /\
    nextId s0 = nextId s /\ poll body fuel t s = executeEvent body fuel false s0.
Proof.
  intros (Hc & Ha & He) Hq Hx. unfold armed in Ha. rewrite Hq in Ha.
  assert (Hcore : core (setClock (Z.max (clock s) t) s)).
  { replace (Z.max (clock s) t) with (clock s + (Z.max (clock s) t - clock s)) by lia. apply setClock_core; [lia|done]. }
  unfold poll. cbv zeta. set (s1 := setClock (Z.max (clock s) t) s) in *.
  assert (Hp : exists n s2, (match pending (m_timer s1) with
      | Some e => if e <=? clock s1 then setCompletions (S (completions s1)) (setTimer (complete (m_timer s1)) s1) else s1
      | None => s1 end) = s2 /\ completions s2 = S n /\ core (setCompletions n s2) /\ m_queue s2 = m_queue s /\ clock s2 = clock s1 /\
      executed s2 = executed s /\ cancelled s2 = cancelled s /\ nextId s2 = nextId s).
  { destruct Ha as [Hn|(e & Hpe & Hle)].
    - destruct (pending (m_timer s1)) as [e|]; [destruct (e <=? clock s1)|]; [by exists (completions s), (setCompletions (S (completions s1)) (setTimer (complete (m_timer s1)) s1))| |];
        destruct (completions s) as [|n] eqn:Ec; try lia; by exists n, s1.
    - change (pending (m_timer s1)) with (pending (m_timer s)). rewrite Hpe.
      replace (e <=? clock s1) with true by (simpl; lia). by eexists _, _. }
  destruct Hp as (n & s2 & -> & Hn & Hc2 & Hq2 & Hcl & Hex & Hca & Hid). rewrite Hn. exists (setCompletions n s2). done.
Qed.

Lemma sorted_head x q ev l1 l2 : StronglySorted earlier (x :: q) -> x :: q = l1 ++ ev :: l2 -> expireTime x <= expireTime ev.
Proof.
  intros Hs Hq. destruct l1 as [|y l1]; simplify_eq/=; [lia|]. inversion_clear Hs as [|? ? _ Hf].
  apply Forall_app in Hf as [_ [Hy _]%Forall_cons_iff]. done.
Qed.

Lemma poll_progress t s ev l1 l2 : all_positive -> inv s -> m_queue s = l1 ++ ev :: l2 -> expireTime ev <= t ->
  exists fuel s' threw, poll body fuel t s = Some (s', threw) /\ inv s' /\
    (ev ∈ map fst (executed s') \/ id ev ∈ cancelled s' \/ exists l1' l2', m_queue s' = l1' ++ ev :: l2' /\ (length l1' < length l1)%nat).
Proof.
  intros Hpos Hi Hq He. destruct (m_queue s) as [|x q] eqn:Hq0; [by destruct l1|].
  assert (Hx : expireTime x <= expireTime ev).
  { destruct Hi as ((Hs & _) & _). rewrite Hq0 in Hs. by eapply sorted_head. }
  exists (length (x :: q)). destruct (poll_runs (length (x :: q)) t s x q Hi Hq0 ltac:(lia)) as (s0 & Hc0 & Hq1 & Hcl & _ & _ & _ & ->).
  destruct (executeEvent_total (length (x :: q)) s0 Hpos Hc0) as (s' & threw & _ & E & _); [by rewrite Hq1, Hq0|].
  exists s', threw. split; [done|]. split; [by apply executeEvent_inv in E as [? _]|].
  unfold executeEvent in E. destruct (execute_loop _ _ _ _) as [[s1 t1]|] eqn:El; [|done]. injection E as <- <-.
  destruct (scheduleNext_fields (setExecuting false s1)) as (Hqs & _ & _ & _ & Hes & Hxs & _). rewrite Hqs, Hes, Hxs.
  apply (execute_loop_progress _ _ ev Hpos _ _ _ l1 l2) in El; [done|done|simpl; lia|simpl; congruence|simpl; lia].
Qed.

(** [n] polls at time [t]. *)
Inductive polled (t : Z) : nat -> Scheduler -> Scheduler -> Prop :=
| polled_O s : polled t 0 s s
| polled_S fuel n s s1 s2 threw : poll body fuel t s = Some (s1, threw) -> polled t n s1 s2 -> polled t (S n) s s2.

Lemma polls_execute t ev : all_positive -> expireTime ev <= t -> forall k s l1 l2, inv s -> m_queue s = l1 ++ ev :: l2 -> (length l1 < k)%nat ->
  exists n s', (0 < n <= k)%nat /\ polled t n s s' /\ (ev ∈ map fst (executed s') \/ id ev ∈ cancelled s').
Proof.
  intros Hpos He. induction k as [|k IH]; intros s l1 l2 Hi Hq Hl; [lia|].
  destruct (poll_progress t s ev l1 l2 Hpos Hi Hq He) as (fuel & s1 & threw & Ep & Hi1 & Hcase).
  destruct Hcase as [Hx|[Hx|(l1' & l2' & Hq1 & Hl1)]].
  1,2: exists 1%nat, s1; split; [lia|]; split; [by econstructor; [|constructor]|by auto].
  destruct (IH s1 l1' l2' Hi1 Hq1 ltac:(lia)) as (n & s2 & Hn & Hp & Hx). exists (S n), s2. split; [lia|]. split; [by econstructor|done].
Qed.

End facts.
End SchedulerFacts.

(** ** Theorems *)

Module SchedulerTheorems.
Import scheduler SchedulerFacts.

(** A timer for examples: the pending expiry itself. *)
#[local] Instance toy_timer : Timer := {|
  timer := option Z * option Z;
  expires_from_now now d t := (Some (now + d), None);
  async_wait t := (t.1, t.1);
  cancel t := (t.1, None);
  complete t := (t.1, None);
  pending t := t.2;
|}.

#[local] Instance toy_timer_laws : TimerLaws toy_timer.
Proof. by split. Qed.

(** Callbacks for examples: the first schedules another event and cancels the
    third one, the second throws. *)
Definition sample_body (c : nat) : list (request (callback := nat)) :=
  match c with
  | 0%nat => [Schedule 5 3%nat; Cancel 2]
  | 1%nat => [Elapse 2; Raise]
  | _ => []
  end.

Lemma sample_positive : all_positive sample_body.
Proof. intros [|[|c]]; repeat (constructor; [simpl; try lia; done|]); constructor. Qed.

Definition sample_scheduler : Scheduler (callback := nat) :=
  (schedule 10 7%nat (schedule 10 8%nat (schedule 30 1%nat (schedule 10 0%nat (init (None, None) 0)).1).1).1).1.

Lemma sample_reachable : reachable sample_body (None, None) 0 sample_scheduler.
Proof. unfold sample_scheduler. do 4 (eapply reachable_step; [|apply step_schedule]). apply reachable_init. Qed.

Lemma reachable_inv `{TimerLaws} {callback} (body : callback -> list request) t now s :
  reachable body t now s -> inv s.
Proof.
  induction 1 as [|s s' _ IH Hst]; [|by eapply step_inv]. split; [|by split]. split; [constructor|]. split; [by unfold accounted|]. by apply List.Forall_nil.
Qed.

(** C16: the invariant of the scheduler, in every state it reaches by its own
    calls, by calls from callbacks, by callbacks that throw and by what the
    timer does: the queue is ordered by expiry; every event that was ever
    scheduled is waiting in the queue, or was executed, or was cancelled, and
    only one of these, once; no event was executed before its time; and while
    an event is waiting, a wake-up is due no later than the first expiry, so
    that the timer is never left unarmed. *)
Theorem scheduler_invariant `{TimerLaws} {callback : Type} (body : callback -> list request) (t : timer) (now : Z)
  (s : Scheduler) (Hr : reachable body t now s) :
  StronglySorted earlier (m_queue s) /\
  map id (m_queue s) ++ map (fun p => id p.1) (executed s) ++ cancelled s ≡ₚ seq 0 (nextId s) /\
  Forall (fun p => expireTime p.1 <= p.2 <= clock s) (executed s) /\
  (forall x q, m_queue s = x :: q ->
    (0 < completions s)%nat \/ exists e, pending (m_timer s) = Some e /\ e <= Z.max (expireTime x) (clock s)).
Proof.
  destruct (reachable_inv body t now s Hr) as ((Hs & Ha & Ht) & Harm & _). split; [done|]. split; [done|]. split; [done|].
  intros x q Hq. unfold armed in Harm. by rewrite Hq in Harm.
Qed.

Lemma scheduler_invariant_witness :
  map id (m_queue sample_scheduler) = [0; 2; 3; 1]%nat /\ StronglySorted earlier (m_queue sample_scheduler).
Proof.
  split; [reflexivity|]. exact (proj1 (scheduler_invariant sample_body (None, None) 0 sample_scheduler sample_reachable)).
Defined.

(** What one run executes: if callbacks schedule further events with
    positive delays only, the handler of the timer returns, having executed,
    in the order of their expiry and once each, only events that were due when
    it started; unless a callback throws, all of them but those a callback
    cancelled.  Two events with the same expiry run in the order in which they
    were scheduled. *)
Theorem scheduler_run `{TimerLaws} {callback : Type} (body : callback -> list request) (s : Scheduler) (fuel : nat)
  (Hpos : all_positive body) (Hc : core s) (Hf : (length (m_queue s) <= fuel)%nat) :
  exists s' threw l, executeEvent body fuel false s = Some (s', threw) /\ executed s' = executed s ++ l /\
    map fst l `sublist_of` due (clock s) (m_queue s) /\
    (threw = false -> forall ev, ev ∈ due (clock s) (m_queue s) -> ev ∈ map fst l \/ id ev ∈ cancelled s').
Proof. by apply executeEvent_total. Qed.

Lemma scheduler_run_witness :
  exists s' threw l, executeEvent sample_body 4 false (setClock 40 sample_scheduler) = Some (s', threw) /\
    executed s' = [] ++ l /\ map fst l `sublist_of` due 40 (m_queue sample_scheduler).
Proof.
  destruct (scheduler_run sample_body (setClock 40 sample_scheduler) 4) as (s' & threw & l & E & Hex & Hsub & _).
  - exact sample_positive.
  - apply (setClock_core 40 sample_scheduler); [lia|]. exact (proj1 (reachable_inv sample_body (None, None) 0 sample_scheduler sample_reachable)).
  - simpl. lia.
  - exists s', threw, l. exact (conj E (conj Hex Hsub)).
Defined.

(** The run of the example: the first event cancels the second one and
    schedules another, the third is executed, the fourth throws. *)
Example sample_run :
  match executeEvent sample_body 4 false (setClock 40 sample_scheduler) with
  | Some (s, threw) => (map (fun p => id p.1) (executed s), cancelled s, map id (m_queue s), clock s, threw)
  | None => ([], [], [], 0, false)
  end = ([0; 3; 1]%nat, [2]%nat, [4]%nat, 42, true).
Proof. reflexivity. Qed.

(** C30: no event is forgotten: if callbacks schedule further events with
    positive delays only, an event that is waiting is executed or cancelled
    once its time has come and the io_service is polled, whatever callbacks
    throw in between: every poll that does not get to it has executed at least
    one of the events in front of it. *)
Theorem scheduler_liveness `{TimerLaws} {callback : Type} (body : callback -> list request) (t0 : timer) (now t : Z)
  (s : Scheduler) (ev : EventInfo) (Hpos : all_positive body) (Hr : reachable body t0 now s)
  (Hev : ev ∈ m_queue s) (Ht : expireTime ev <= t) :
  exists n s', (0 < n <= length (m_queue s))%nat /\ polled body t n s s' /\
    (ev ∈ map fst (executed s') \/ id ev ∈ cancelled s').
Proof.
  apply list_elem_of_split in Hev as (l1 & l2 & Hq).
  apply (polls_execute body t ev Hpos Ht (length (m_queue s)) s l1 l2); [by eapply reachable_inv|done|].
  rewrite Hq, length_app. simpl. lia.
Qed.

Lemma scheduler_liveness_witness :
  exists n s', (0 < n <= 4)%nat /\ polled sample_body 40 n sample_scheduler s' /\
    (mkEventInfo 1 1%nat 30 ∈ map fst (executed s') \/ 1%nat ∈ cancelled s').
Proof.
  apply (@scheduler_liveness toy_timer toy_timer_laws nat sample_body (None, None) 0 40 sample_scheduler (mkEventInfo 1 1%nat 30)).
  - exact sample_positive.
  - exact sample_reachable.
  - simpl. right. right. right. left.
  - simpl. lia.
Defined.

(** An event that reschedules itself without delay, on a clock that has not
    advanced meanwhile, keeps one run busy. *)
Theorem scheduler_zero_delay (fuel : nat) :
  executeEvent (fun _ : nat => [Schedule 0 0%nat]) fuel false (schedule 0 0%nat (init (None, None) 0)).1 = None.
Proof.
  unfold executeEvent. cut (forall s e, m_queue s = [e] -> expireTime e = 0 -> clock s = 0 -> execute_loop (fun _ : nat => [Schedule 0 0%nat]) fuel 0 s = None).
  { intros Hcut. by erewrite Hcut. }
  induction fuel as [|fuel IH]; intros s e Hq He Hc; cbn [execute_loop]; rewrite Hq, He; [done|].
  cbn [Z.ltb Z.compare performAll perform]. cbv zeta. unfold schedule. cbn [fst].
  destruct (_ && _).
  - eapply IH; rewrite ?(proj1 (scheduleNext_fields _)), ?(proj1 (proj2 (scheduleNext_fields _))); [done| |done]. simpl. lia.
  - eapply IH; [done| |done]. simpl. lia.
Qed.

End SchedulerTheorems.
