(* ===== verification/Fields.v ===== *)
(** The fields that packets share: [ndn-cxx/meta-info.cpp],
    [ndn-cxx/key-locator.cpp] and [ndn-cxx/signature-info.cpp].

    Times are counts of milliseconds.  A template that may throw before it
    writes anything is a [result prepender]. *)

From S2P Require Import Prelude Tlv Encoding Blocks BlockHelpers Text NameComponents Names.

(** [m_wire = wire; m_wire.parse();] *)
Definition assignParsed {S} (set : Block.t -> S -> S) (wire : Block.t) : M S unit := fun s =>
  let '(b, e) := Block.parse wire in
  (set b s, match e with None => Ok tt | Some e => Throw e end).

#[export] Instance Name_WireEncodable : WireEncodable Name.t := Name.wireEncode_template.

#[export] Program Instance Name_WireEncodableLaws : WireEncodableLaws Name.t := {|
  we_type := fun _ => tlv.Name;
  we_value := NameFacts.value;
|}.
Next Obligation. intros n. apply NameFacts.Encodes_name. Qed.

(** ** MetaInfo *)

Module MetaInfo.

(** [ndn-cxx/encoding/tlv.hpp:165-165] tlv::ContentType_Blob *)
Definition ContentType_Blob : Z := 0.

(** [ndn-cxx/meta-info.hpp:35-35] DEFAULT_FRESHNESS_PERIOD *)
Definition DEFAULT_FRESHNESS_PERIOD : Z := 0.

(** [ndn-cxx/meta-info.hpp:192-198] MetaInfo *)
Record t := mk {
  m_type : Z;
  m_freshnessPeriod : Z;
  m_finalBlockId : option Component.t;
  m_appMetaInfo : list Block.t;
  m_wire : Block.t;
}.

Definition with_type x m := mk x (m_freshnessPeriod m) (m_finalBlockId m) (m_appMetaInfo m) (m_wire m).
Definition with_freshness x m := mk (m_type m) x (m_finalBlockId m) (m_appMetaInfo m) (m_wire m).
Definition with_final x m := mk (m_type m) (m_freshnessPeriod m) x (m_appMetaInfo m) (m_wire m).
Definition with_app x m := mk (m_type m) (m_freshnessPeriod m) (m_finalBlockId m) x (m_wire m).
Definition with_wire x m := mk (m_type m) (m_freshnessPeriod m) (m_finalBlockId m) (m_appMetaInfo m) x.

(** [ndn-cxx/meta-info.cpp:35-39] MetaInfo::MetaInfo() *)
Definition init : t := mk ContentType_Blob DEFAULT_FRESHNESS_PERIOD None [] Block.empty.

(** [ndn-cxx/meta-info.cpp:46-52] MetaInfo::setType *)
Definition setType (type : Z) : M t unit :=
  _ ← modify (with_wire Block.empty); modify (with_type type).

(** [ndn-cxx/meta-info.cpp:54-63] MetaInfo::setFreshnessPeriod *)
Definition setFreshnessPeriod (freshnessPeriod : Z) : M t unit :=
  _ ← throwM_if (freshnessPeriod <? 0) (InvalidArgument "FreshnessPeriod must be >= 0");
  _ ← modify (with_wire Block.empty);
  modify (with_freshness freshnessPeriod).

(** [ndn-cxx/meta-info.cpp:65-71] MetaInfo::setFinalBlock *)
Definition setFinalBlock (finalBlockId : option Component.t) : M t unit :=
  _ ← modify (with_wire Block.empty); modify (with_final finalBlockId).

Definition outside_app_range (b : Block.t) : bool := (Block.type b <? 128) || (252 <? Block.type b).

(** [ndn-cxx/meta-info.cpp:79-90] MetaInfo::setAppMetaInfo *)
Definition setAppMetaInfo (info : list Block.t) : M t unit :=
  _ ← throwM_if (existsb outside_app_range info)
        (PacketError "AppMetaInfo block has type outside the application range [128, 252]");
  _ ← modify (with_wire Block.empty);
  modify (with_app info).

(** [ndn-cxx/meta-info.cpp:92-101] MetaInfo::addAppMetaInfo *)
Definition addAppMetaInfo (block : Block.t) : M t unit :=
  _ ← throwM_if (negb ((128 <=? Block.type block) && (Block.type block <=? 252)))
        (PacketError "AppMetaInfo block has type outside the application range [128, 252]");
  _ ← modify (with_wire Block.empty);
  modify (fun m => with_app (m_appMetaInfo m ++ [block]) m).

(** [ndn-cxx/meta-info.cpp:106-112] MetaInfo::removeAppMetaInfo (the search)
    The list without the first block of the type, if there is one. *)
Fixpoint remove_first (tlvType : Z) (l : list Block.t) : option (list Block.t) :=
  match l with
  | [] => None
  | b :: l => if Block.type b =? tlvType then Some l else r ← remove_first tlvType l; Some (b :: r)
  end.

(** [ndn-cxx/meta-info.cpp:103-114] MetaInfo::removeAppMetaInfo *)
Definition removeAppMetaInfo (tlvType : Z) : M t bool :=
  m ← self;
  match remove_first tlvType (m_appMetaInfo m) with
  | Some l =>
      _ ← modify (with_wire Block.empty);
      _ ← modify (with_app l);
      mret true
  | None => mret false
  end.

(** [ndn-cxx/meta-info.cpp:116-122] MetaInfo::findAppMetaInfo *)
Definition findAppMetaInfo (tlvType : Z) (m : t) : option Block.t :=
  List.find (fun b => Block.type b =? tlvType) (m_appMetaInfo m).

(** [ndn-cxx/meta-info.cpp:124-160] MetaInfo::wireEncode(EncodingImpl&) *)
Definition wireEncode_template (m : t) : prepender :=
  pTL tlv.MetaInfo
    (pReversed encoding.prependBlock (m_appMetaInfo m) ;+
     match m_finalBlockId m with
     | Some c => @encoding.prependNestedBlock Component.t Component.wireEncode_template tlv.FinalBlockId c
     | None => pNone
     end ;+
     pWhen (negb (m_freshnessPeriod m =? DEFAULT_FRESHNESS_PERIOD))
       (encoding.prependNonNegativeIntegerBlock tlv.FreshnessPeriod (u64 (m_freshnessPeriod m))) ;+
     pWhen (negb (m_type m =? ContentType_Blob))
       (encoding.prependNonNegativeIntegerBlock tlv.ContentType (m_type m))).

(** [ndn-cxx/meta-info.cpp:164-178] MetaInfo::wireEncode *)
Definition wireEncode : M t Block.t :=
  m ← self;
  if Block.hasWire (m_wire m) then mret (m_wire m)
  else
    b ← liftR (makeBlock (wireEncode_template m));
    _ ← modify (with_wire b);
    mret b.

(** One optional field of [wireDecode]: the element in front, if it has the
    type, is consumed by [found]; else [missing] is run. *)
Definition optional_field {S} (type : Z) (val : list Block.t) (found : Block.t -> M S unit) (missing : M S unit) : M S (list Block.t) :=
  match val with
  | v :: rest => if Block.type v =? type then _ ← found v; mret rest else _ ← missing; mret val
  | [] => _ ← missing; mret []
  end.

(** [ndn-cxx/meta-info.cpp:180-225] MetaInfo::wireDecode
    [optional::emplace] destroys the old value before it constructs. *)
Definition wireDecode (wire : Block.t) : M t unit :=
  _ ← assignParsed with_wire wire;
  m ← self;
  let val := Block.elements (m_wire m) in
  val ← optional_field tlv.ContentType val
          (fun v => n ← liftR (encoding.readNonNegativeIntegerAs UINT32_MAX v); modify (with_type n))
          (modify (with_type ContentType_Blob));
  val ← optional_field tlv.FreshnessPeriod val
          (fun v => n ← liftR (encoding.readNonNegativeInteger v); modify (with_freshness (i64 n)))
          (modify (with_freshness DEFAULT_FRESHNESS_PERIOD));
  val ← optional_field tlv.FinalBlockId val
          (fun v => b ← liftR (Block.blockFromValue v);
                    _ ← modify (with_final None);
                    c ← liftR (Component.ofBlock b);
                    modify (with_final (Some c)))
          (modify (with_final None));
  forM val (fun v => modify (fun m => with_app (m_appMetaInfo m ++ [v]) m)).

(** [ndn-cxx/meta-info.cpp:41-44] MetaInfo::MetaInfo(const Block&) *)
Definition ofBlock (block : Block.t) : result t := exec (wireDecode block) init.

End MetaInfo.

(** ** KeyLocator *)

Module KeyLocator.

(** [ndn-cxx/key-locator.hpp:143-147] KeyLocator::m_locator *)
Inductive locator :=
| Monostate
| LName (n : Name.t)
| LDigest (digest : Block.t)
| LType (type : Z).

(** [ndn-cxx/key-locator.hpp:142-149] KeyLocator *)
Record t := mk { m_locator : locator; m_wire : Block.t }.

Definition with_wire b k := mk (m_locator k) b.
Definition with_locator l k := mk l (m_wire k).

(** [ndn-cxx/key-locator.cpp:38-38] KeyLocator::KeyLocator() *)
Definition init : t := mk Monostate Block.empty.

(** [ndn-cxx/key-locator.cpp:45-48] KeyLocator::KeyLocator(const Name&) *)
Definition ofName (name : Name.t) : t := mk (LName name) Block.empty.

(** [ndn-cxx/key-locator.cpp:50-69] KeyLocator::wireEncode(EncodingImpl&) *)
Definition wireEncode_template (k : t) : result prepender :=
  match m_locator k with
  | Monostate => Ok (pTL tlv.KeyLocator pNone)
  | LName n => Ok (pTL tlv.KeyLocator (Name.wireEncode_template n))
  | LDigest d => Ok (pTL tlv.KeyLocator (encoding.prependBlock d))
  | LType _ => Throw (PacketError "Unsupported KeyLocator type")
  end.

(** [ndn-cxx/key-locator.cpp:73-87] KeyLocator::wireEncode *)
Definition wireEncode : M t Block.t :=
  k ← self;
  if Block.hasWire (m_wire k) then mret (m_wire k)
  else
    f ← liftR (wireEncode_template k);
    b ← liftR (makeBlock f);
    _ ← modify (with_wire b);
    mret b.

(** [ndn-cxx/key-locator.cpp:134-140] KeyLocator::clear *)
Definition clear : M t unit :=
  _ ← modify (with_locator Monostate); modify (with_wire Block.empty).

(** [ndn-cxx/key-locator.cpp:89-115] KeyLocator::wireDecode
    A variant whose [emplace] throws is represented as [Monostate]. *)
Definition wireDecode (wire : Block.t) : M t unit :=
  _ ← throwM_if (negb (Block.type wire =? tlv.KeyLocator)) (PacketError "KeyLocator");
  _ ← clear;
  _ ← assignParsed with_wire wire;
  k ← self;
  match Block.elements (m_wire k) with
  | [] => mret tt
  | element :: _ =>
      if Block.type element =? tlv.Name then
        n ← liftR (Name.ofBlock element); modify (with_locator (LName n))
      else if Block.type element =? tlv.KeyDigest then modify (with_locator (LDigest element))
      else modify (with_locator (LType (Block.type element)))
  end.

(** [ndn-cxx/key-locator.cpp:40-43] KeyLocator::KeyLocator(const Block&) *)
Definition ofBlock (wire : Block.t) : result t := exec (wireDecode wire) init.

(** [ndn-cxx/key-locator.cpp:117-132] KeyLocator::getType *)
Definition getType (k : t) : Z :=
  match m_locator k with
  | Monostate => tlv.Invalid
  | LName _ => tlv.Name
  | LDigest _ => tlv.KeyDigest
  | LType type => type
  end.

(** [ndn-cxx/key-locator.cpp:142-151] KeyLocator::getName *)
Definition getName (k : t) : result Name.t :=
  match m_locator k with
  | LName n => Ok n
  | _ => Throw (PacketError "KeyLocator does not contain a Name")
  end.

(** [ndn-cxx/key-locator.cpp:153-159] KeyLocator::setName *)
Definition setName (name : Name.t) : M t unit :=
  _ ← modify (with_locator (LName name)); modify (with_wire Block.empty).

(** [ndn-cxx/key-locator.cpp:161-170] KeyLocator::getKeyDigest *)
Definition getKeyDigest (k : t) : result Block.t :=
  match m_locator k with
  | LDigest d => Ok d
  | _ => Throw (PacketError "KeyLocator does not contain a KeyDigest")
  end.

(** [ndn-cxx/key-locator.cpp:172-181] KeyLocator::setKeyDigest(const Block&) *)
Definition setKeyDigest (keyDigest : Block.t) : M t unit :=
  _ ← throwM_if (negb (Block.type keyDigest =? tlv.KeyDigest)) (InvalidArgument "Invalid KeyDigest block");
  _ ← modify (with_locator (LDigest keyDigest));
  modify (with_wire Block.empty).

(** [ndn-cxx/key-locator.cpp:183-190] KeyLocator::setKeyDigest(const ConstBufferPtr&) *)
Definition setKeyDigestBuffer (keyDigest : bytes) : M t unit :=
  b ← liftR (encoding.makeBinaryBlock tlv.KeyDigest keyDigest);
  _ ← modify (with_locator (LDigest b));
  modify (with_wire Block.empty).

(** [ndn-cxx/key-locator.hpp:130-134] operator==(const KeyLocator&, const KeyLocator&) *)
Definition eqb (lhs rhs : t) : bool :=
  match m_locator lhs, m_locator rhs with
  | Monostate, Monostate => true
  | LName n, LName n' => Name.equals n n'
  | LDigest d, LDigest d' => Block.eqb d d'
  | LType x, LType y => x =? y
  | _, _ => false
  end.

End KeyLocator.

(** ** SignatureInfo *)

Module SignatureInfo.

(** [ndn-cxx/signature-info.hpp:41-44] SignatureInfo::Type *)
Inductive Type_ := TData | TInterest.

(** [ndn-cxx/signature-info.hpp:41-44] to_underlying(SignatureInfo::Type) *)
Definition to_underlying (type : Type_) : Z :=
  match type with TData => tlv.SignatureInfo | TInterest => tlv.InterestSignatureInfo end.

(** [ndn-cxx/encoding/tlv.hpp:151-151] tlv::ValidityPeriod *)
Definition ValidityPeriod : Z := 253.

(** [ndn-cxx/signature-info.hpp:226-231] SignatureInfo *)
Record t := mk {
  m_type : Z;
  m_keyLocator : option KeyLocator.t;
  m_otherTlvs : list Block.t;
  m_wire : Block.t;
}.

Definition with_type x s := mk x (m_keyLocator s) (m_otherTlvs s) (m_wire s).
Definition with_keyLocator x s := mk (m_type s) x (m_otherTlvs s) (m_wire s).
Definition with_others x s := mk (m_type s) (m_keyLocator s) x (m_wire s).
Definition with_wire x s := mk (m_type s) (m_keyLocator s) (m_otherTlvs s) x.

(** [ndn-cxx/signature-info.cpp:38-38] SignatureInfo::SignatureInfo() *)
Definition init : t := mk (-1) None [] Block.empty.

(** [ndn-cxx/signature-info.cpp:40-44] SignatureInfo::SignatureInfo(type, keyLocator) *)
Definition make (type : Z) (keyLocator : option KeyLocator.t) : t := mk type keyLocator [] Block.empty.

(** [ndn-cxx/signature-info.hpp:64-68] SignatureInfo::operator bool *)
Definition isSet (s : t) : bool := negb (m_type s =? -1).

(** [ndn-cxx/signature-info.cpp:51-92] SignatureInfo::wireEncode(EncodingImpl&, Type) *)
Definition wireEncode_template (type : Type_) (s : t) : result prepender :=
  _ ← throw_if (m_type s =? -1) (PacketError "Cannot encode invalid SignatureInfo");
  k ← match m_keyLocator s with
      | Some k => KeyLocator.wireEncode_template k
      | None => Ok pNone
      end;
  Ok (pTL (to_underlying type)
       (pReversed encoding.prependBlock (m_otherTlvs s) ;+
        k ;+
        encoding.prependNonNegativeIntegerBlock tlv.SignatureType (u64 (m_type s)))).

(** [ndn-cxx/signature-info.cpp:100-114] SignatureInfo::wireEncode(Type) *)
Definition wireEncode (type : Type_) : M t Block.t :=
  s ← self;
  if Block.hasWire (m_wire s) then mret (m_wire s)
  else
    f ← liftR (wireEncode_template type s);
    b ← liftR (makeBlock f);
    _ ← modify (with_wire b);
    mret b.

Definition push_other (b : Block.t) : M t unit := modify (fun s => with_others (m_otherTlvs s ++ [b]) s).

(** [ndn-cxx/signature-info.cpp:131-172] SignatureInfo::wireDecode (the loop) *)
Fixpoint decode_elements (lastCriticalElement : Z) (elements : list Block.t) : M t unit :=
  match elements with
  | [] => mret tt
  | element :: rest =>
      let ty := Block.type element in
      if ty =? tlv.SignatureType then
        _ ← throwM_if (0 <? lastCriticalElement) (PacketError "SignatureType element is repeated or out-of-order");
        n ← liftR (encoding.readNonNegativeIntegerAs UINT16_MAX element);
        _ ← modify (with_type n);
        decode_elements 1 rest
      else if ty =? tlv.KeyLocator then
        _ ← throwM_if (1 <? lastCriticalElement) (PacketError "KeyLocator element is repeated or out-of-order");
        _ ← modify (with_keyLocator None);
        k ← liftR (KeyLocator.ofBlock element);
        _ ← modify (with_keyLocator (Some k));
        decode_elements 2 rest
      else if ty =? tlv.SignatureNonce then
        _ ← throwM_if (Block.value_size element <? 1) (PacketError "SignatureNonce element cannot be empty");
        _ ← push_other element;
        decode_elements lastCriticalElement rest
      else if ty =? ValidityPeriod then
        _ ← push_other element;
        decode_elements lastCriticalElement rest
      else
        _ ← throwM_if (tlv.isCriticalType ty) (PacketError "Unrecognized element of critical type");
        _ ← push_other element;
        decode_elements lastCriticalElement rest
  end.

(** [ndn-cxx/signature-info.cpp:116-177] SignatureInfo::wireDecode *)
Definition wireDecode (wire : Block.t) (type : Type_) : M t unit :=
  _ ← modify (with_type (-1));
  _ ← modify (with_keyLocator None);
  _ ← modify (with_others []);
  _ ← assignParsed with_wire wire;
  s ← self;
  _ ← throwM_if (negb (Block.type (m_wire s) =? to_underlying type)) (PacketError "SignatureInfo");
  _ ← decode_elements 0 (Block.elements (m_wire s));
  s ← self;
  throwM_if (m_type s =? -1) (PacketError "Missing SignatureType in SignatureInfo").

(** [ndn-cxx/signature-info.cpp:46-49] SignatureInfo::SignatureInfo(const Block&, Type) *)
Definition ofBlock (block : Block.t) (type : Type_) : result t := exec (wireDecode block type) init.

(** [ndn-cxx/signature-info.cpp:179-187] SignatureInfo::setSignatureType *)
Definition setSignatureType (type : Z) : M t unit :=
  s ← self;
  if negb (type =? m_type s) then _ ← modify (with_type type); modify (with_wire Block.empty)
  else mret tt.

(** [ndn-cxx/signature-info.cpp:189-196] SignatureInfo::getKeyLocator *)
Definition getKeyLocator (s : t) : result KeyLocator.t :=
  match m_keyLocator s with
  | Some k => Ok k
  | None => Throw (PacketError "KeyLocator does not exist in SignatureInfo")
  end.

(** Equality of optional values, as [std::optional] has it. *)
Definition option_eqb {A} (eqb : A -> A -> bool) (x y : option A) : bool :=
  match x, y with
  | Some a, Some b => eqb a b
  | None, None => true
  | _, _ => false
  end.

(** [ndn-cxx/signature-info.cpp:198-206] SignatureInfo::setKeyLocator *)
Definition setKeyLocator (keyLocator : option KeyLocator.t) : M t unit :=
  s ← self;
  if negb (option_eqb KeyLocator.eqb keyLocator (m_keyLocator s))
  then _ ← modify (with_keyLocator keyLocator); modify (with_wire Block.empty)
  else mret tt.

(** [ndn-cxx/signature-info.cpp:336-342] SignatureInfo::findOtherTlv *)
Definition findOtherTlv (type : Z) (s : t) : option Block.t :=
  List.find (fun b => Block.type b =? type) (m_otherTlvs s).

(** [ndn-cxx/signature-info.cpp:297-305] SignatureInfo::getCustomTlv *)
Definition getCustomTlv (type : Z) (s : t) : option Block.t := findOtherTlv type s.

(** [ndn-cxx/signature-info.cpp:310-320] SignatureInfo::addCustomTlv (the search and replacement)
    The new list, [None] when the block is already there. *)
Fixpoint replace_or_append (block : Block.t) (l : list Block.t) : option (list Block.t) :=
  match l with
  | [] => Some [block]
  | b :: l =>
      if Block.type b =? Block.type block
      then if negb (Block.eqb b block) then Some (block :: l) else None
      else r ← replace_or_append block l; Some (b :: r)
  end.

(** [ndn-cxx/signature-info.cpp:307-321] SignatureInfo::addCustomTlv *)
Definition addCustomTlv (block : Block.t) : M t unit :=
  s ← self;
  match replace_or_append block (m_otherTlvs s) with
  | Some l => _ ← modify (with_others l); modify (with_wire Block.empty)
  | None => mret tt
  end.

(** [ndn-cxx/signature-info.cpp:323-334] SignatureInfo::removeCustomTlv *)
Definition removeCustomTlv (type : Z) : M t unit :=
  s ← self;
  let l := base.filter (fun b => Block.type b <> type) (m_otherTlvs s) in
  if (length l <? length (m_otherTlvs s))%nat
  then _ ← modify (with_others l); modify (with_wire Block.empty)
  else mret tt.

(** [ndn-cxx/signature-info.cpp:230-238] SignatureInfo::getNonce *)
Definition getNonce (s : t) : option bytes := Block.value <$> findOtherTlv tlv.SignatureNonce s.

(** [ndn-cxx/signature-info.cpp:240-250] SignatureInfo::setNonce *)
Definition setNonce (nonce : option bytes) : M t unit :=
  match nonce with
  | None => removeCustomTlv tlv.SignatureNonce
  | Some v => b ← liftR (encoding.makeBinaryBlock tlv.SignatureNonce v); addCustomTlv b
  end.

(** [ndn-cxx/signature-info.cpp:252-260] SignatureInfo::getTime
    In milliseconds since the Unix epoch. *)
Definition getTime (s : t) : result (option Z) :=
  match findOtherTlv tlv.SignatureTime s with
  | None => Ok None
  | Some b => n ← encoding.readNonNegativeInteger b; Ok (Some (i64 n))
  end.

(** [ndn-cxx/signature-info.cpp:262-273] SignatureInfo::setTime *)
Definition setTime (time : option Z) : M t unit :=
  match time with
  | None => removeCustomTlv tlv.SignatureTime
  | Some ms => b ← liftR (encoding.makeNonNegativeIntegerBlock tlv.SignatureTime (u64 ms)); addCustomTlv b
  end.

(** [ndn-cxx/signature-info.cpp:275-283] SignatureInfo::getSeqNum *)
Definition getSeqNum (s : t) : result (option Z) :=
  match findOtherTlv tlv.SignatureSeqNum s with
  | None => Ok None
  | Some b => n ← encoding.readNonNegativeInteger b; Ok (Some n)
  end.

(** [ndn-cxx/signature-info.cpp:285-295] SignatureInfo::setSeqNum *)
Definition setSeqNum (seqNum : option Z) : M t unit :=
  match seqNum with
  | None => removeCustomTlv tlv.SignatureSeqNum
  | Some n => b ← liftR (encoding.makeNonNegativeIntegerBlock tlv.SignatureSeqNum n); addCustomTlv b
  end.

(** [ndn-cxx/signature-info.cpp:218-228] SignatureInfo::setValidityPeriod
    The argument is the encoded validity period. *)
Definition setValidityPeriod (validityPeriod : option Block.t) : M t unit :=
  match validityPeriod with
  | None => removeCustomTlv ValidityPeriod
  | Some b => addCustomTlv b
  end.

Fixpoint blocks_eqb (l k : list Block.t) : bool :=
  match l, k with
  | [], [] => true
  | x :: l, y :: k => Block.eqb x y && blocks_eqb l k
  | _, _ => false
  end.

(** [ndn-cxx/signature-info.cpp:344-350] operator==(const SignatureInfo&, const SignatureInfo&) *)
Definition eqb (lhs rhs : t) : bool :=
  (m_type lhs =? m_type rhs) &&
  option_eqb KeyLocator.eqb (m_keyLocator lhs) (m_keyLocator rhs) &&
  blocks_eqb (m_otherTlvs lhs) (m_otherTlvs rhs).

End SignatureInfo.

(** ** Lemmas *)

Module FieldFacts.

(** Type and value of a block, all that survives encoding. *)
Definition tv (b : Block.t) : Z * bytes := (Block.type b, Block.value b).

(** A block that is encoded under a shortest header. *)
Definition block_ok (b : Block.t) : Prop :=
  BlockFacts.tlv_ok (tv b) /\ block_bytes b = tlv_bytes (Block.type b) (Block.value b).

Lemma block_ok_of_tlv ty v : BlockFacts.tlv_ok (ty, v) -> block_ok (Block.of_tlv ty v).
Proof. intros H. split; [done|]. apply block_bytes_of_tlv. Qed.

Lemma block_ok_of_value ty v : BlockFacts.tlv_ok (ty, v) -> block_ok (Block.ofTypeValue ty v).
Proof. intros H. split; done. Qed.

(** [f] writes the sequence of elements [l]. *)
Definition EncSeq (f : prepender) (l : list (Z * bytes)) : Prop := Encodes f (BlockFacts.tlv_seq l).

Lemma tlv_seq_app l k : BlockFacts.tlv_seq (l ++ k) = BlockFacts.tlv_seq l ++ BlockFacts.tlv_seq k.
Proof. unfold BlockFacts.tlv_seq. by rewrite fmap_app, join_app. Qed.

Lemma tlv_seq_one ty v : BlockFacts.tlv_seq [(ty, v)] = tlv_bytes ty v.
Proof. unfold BlockFacts.tlv_seq. simpl. apply app_nil_r. Qed.

Lemma EncSeq_one f ty v : Encodes f (tlv_bytes ty v) -> EncSeq f [(ty, v)].
Proof. intros H. unfold EncSeq. by rewrite tlv_seq_one. Qed.

Lemma EncSeq_none : EncSeq pNone [].
Proof. apply Encodes_none. Qed.

Lemma EncSeq_then f g l k : EncSeq f l -> EncSeq g k -> EncSeq (f ;+ g) (k ++ l).
Proof. intros Hf Hg. unfold EncSeq. rewrite tlv_seq_app. by apply Encodes_then. Qed.

Lemma EncSeq_when (c : bool) f l : EncSeq f l -> EncSeq (pWhen c f) (if c then l else []).
Proof. intros Hf. unfold pWhen. destruct c; [done|apply EncSeq_none]. Qed.

Lemma EncSeq_TL ty f l : EncSeq f l -> EncSeq (pTL ty f) [(ty, BlockFacts.tlv_seq l)].
Proof. intros Hf. apply EncSeq_one. by apply Encodes_TL. Qed.

Lemma EncSeq_nni ty n : EncSeq (encoding.prependNonNegativeIntegerBlock ty n) [(ty, tlv.writeNonNegativeInteger n)].
Proof. apply EncSeq_one, Encodes_nniBlock. Qed.

Lemma EncSeq_binary ty v : EncSeq (encoding.prependBinaryBlock ty v) [(ty, v)].
Proof. apply EncSeq_one, Encodes_binaryBlock. Qed.

Lemma EncSeq_empty ty : EncSeq (encoding.prependEmptyBlock ty) [(ty, [])].
Proof. apply EncSeq_one, Encodes_emptyBlock. Qed.

Lemma EncSeq_block b : block_ok b -> EncSeq (encoding.prependBlock b) [tv b].
Proof. intros [_ H]. apply EncSeq_one. rewrite <- H. apply Encodes_block. Qed.

Lemma EncSeq_reversed {A} (f : A -> prepender) (g : A -> list (Z * bytes)) l :
  (forall x, x ∈ l -> EncSeq (f x) (g x)) -> EncSeq (pReversed f l) (mjoin (g <$> l)).
Proof.
  induction l as [|x l IH]; intros H; [apply EncSeq_none|]. cbn [pReversed fmap list_fmap mjoin list_join].
  apply EncSeq_then; [apply IH|apply H]; set_solver.
Qed.

Lemma join_singletons {A B} (f : A -> B) (l : list A) : mjoin ((fun x => [f x]) <$> l) = f <$> l.
Proof. induction l as [|b l IH]; [done|]. cbn [fmap list_fmap mjoin list_join app]. f_equal. exact IH. Qed.

Lemma EncSeq_blocks l : Forall block_ok l -> EncSeq (pReversed encoding.prependBlock l) (tv <$> l).
Proof.
  intros H. rewrite <- (join_singletons tv).
  apply EncSeq_reversed. intros b Hb. apply EncSeq_block. rewrite Forall_forall in H. by apply H, list_elem_of_In.
Qed.

Lemma EncSeq_name n : EncSeq (Name.wireEncode_template n) [(tlv.Name, NameFacts.value n)].
Proof. apply EncSeq_one, NameFacts.Encodes_name. Qed.

Lemma EncSeq_component c : EncSeq (Component.wireEncode_template c) [tv c].
Proof. apply EncSeq_one, ComponentFacts.Encodes_component. Qed.

(** The block that holds such a sequence, before and after [parse]. *)
Definition seq_block (ty : Z) (l : list (Z * bytes)) : Block.t := Block.of_tlv ty (BlockFacts.tlv_seq l).

Definition parsed_block (ty : Z) (l : list (Z * bytes)) : Block.t :=
  Block.mk ty (Block.m_buf (seq_block ty l)) (Block.m_size (seq_block ty l)) (BlockFacts.of_pair <$> l).

Lemma makeBlock_seq f ty l : EncSeq f [(ty, BlockFacts.tlv_seq l)] -> is_tlv_type ty ->
  is_u64 (len (BlockFacts.tlv_seq l)) -> makeBlock f = Ok (seq_block ty l).
Proof. intros Hf Ht Hl. apply makeBlock_tlv; [|done..]. unfold EncSeq in Hf. by rewrite tlv_seq_one in Hf. Qed.

Lemma assignParsed_seq {S} (set : Block.t -> S -> S) ty l s : Forall BlockFacts.tlv_ok l ->
  assignParsed set (seq_block ty l) s = (set (parsed_block ty l) s, Ok tt).
Proof.
  intros Hl. unfold assignParsed. pose proof (BlockFacts.parsed_of_tlv ty l Hl) as HP.
  unfold Block.parsed, seq_block in *. destruct (Block.parse _) as [b [e|]]; [done|]. by injection HP as ->.
Qed.

Lemma tv_of_pair x : tv (BlockFacts.of_pair x) = x.
Proof. by destruct x. Qed.

Lemma tv_of_pairs (l : list (Z * bytes)) : tv <$> (BlockFacts.of_pair <$> l) = l.
Proof. rewrite <- list_fmap_compose. rewrite <- (list_fmap_id l) at 2. apply list_fmap_ext. intros. apply tv_of_pair. Qed.

Lemma of_pair_hasWire x : Block.hasWire (BlockFacts.of_pair x) = true.
Proof.
  unfold Block.hasWire, BlockFacts.of_pair, Block.of_tlv. cbn [Block.m_buf].
  pose proof (tlv_bytes_nonempty x.1 x.2 []) as H. rewrite app_nil_r in H. by destruct (tlv_bytes _ _).
Qed.

Lemma parsed_hasWire ty l : Block.hasWire (parsed_block ty l) = true.
Proof. exact (of_pair_hasWire (ty, BlockFacts.tlv_seq l)). Qed.

Lemma i64_small z : - 2 ^ 63 <= z < 2 ^ 63 -> i64 z = z.
Proof. intros H. unfold i64. rewrite Z.mod_small by lia. lia. Qed.

Lemma u64_small z : 0 <= z <= UINT64_MAX -> u64 z = z.
Proof. intros H. unfold u64. apply Z.mod_small. unfold UINT64_MAX in H. lia. Qed.

(** The steps of the state monad, one rewrite each. *)
Lemma bindM_ok {S A B} (m : M S A) (f : A -> M S B) s s' a : m s = (s', Ok a) -> (m ≫= f) s = f a s'.
Proof. intros H. unfold mbind, M_bind. by rewrite H. Qed.

Lemma bindM_throw {S A B} (m : M S A) (f : A -> M S B) s s' e : m s = (s', Throw e) -> (m ≫= f) s = (s', Throw e).
Proof. intros H. unfold mbind, M_bind. by rewrite H. Qed.

Lemma bindM_self {S B} (f : S -> M S B) s : (self ≫= f) s = f s s.
Proof. done. Qed.

Lemma bindM_modify {S B} (g : S -> S) (f : unit -> M S B) s : (modify g ≫= f) s = f tt (g s).
Proof. done. Qed.

Lemma bindM_lift {S A B} (r : result A) (f : A -> M S B) s a : r = Ok a -> (liftR r ≫= f) s = f a s.
Proof. by intros ->. Qed.

Lemma bindM_pass {S B} (c : bool) e (f : unit -> M S B) s : c = false -> (throwM_if c e ≫= f) s = f tt s.
Proof. by intros ->. Qed.

Lemma assoc_bindM {S A B C} (m : M S A) (f : A -> M S B) (g : B -> M S C) s :
  ((m ≫= f) ≫= g) s = (m ≫= (fun x => f x ≫= g)) s.
Proof. unfold mbind, M_bind. by destruct (m s) as [s' [a|e]]. Qed.

Lemma len_tlv_seq_elem l x : x ∈ l -> len (tlv_bytes x.1 x.2) <= len (BlockFacts.tlv_seq l).
Proof.
  induction l as [|y l IH]; intros Hx; [set_solver|].
  change (y :: l) with ([y] ++ l). rewrite tlv_seq_app, len_app. destruct y as [ty v].
  rewrite tlv_seq_one. apply elem_of_cons in Hx as [->|Hx].
  - pose proof (len_nonneg (BlockFacts.tlv_seq l)). simpl. lia.
  - pose proof (len_nonneg (tlv_bytes ty v)). specialize (IH Hx). lia.
Qed.

(** A sequence with legal types that fits into a length field is decodable. *)
Lemma tlv_seq_ok l : Forall (fun x => is_tlv_type x.1) l -> is_u64 (len (BlockFacts.tlv_seq l)) ->
  Forall BlockFacts.tlv_ok l.
Proof.
  intros Ht Hl. rewrite Forall_forall in *. intros x Hx. split; [by apply Ht|].
  apply list_elem_of_In in Hx. pose proof (len_tlv_seq_elem l x Hx).
  pose proof (BlockFacts.len_value_tlv x.1 x.2). pose proof (len_nonneg x.2). width. lia.
Qed.

(** *** MetaInfo *)

Definition meta_ok (m : MetaInfo.t) : Prop :=
  0 <= MetaInfo.m_type m <= UINT32_MAX /\ 0 <= MetaInfo.m_freshnessPeriod m < 2 ^ 63 /\
  (forall c, MetaInfo.m_finalBlockId m = Some c -> ComponentFacts.valid (Block.type c) (Block.value c)) /\
  Forall (fun b => block_ok b /\ 128 <= Block.type b <= 252) (MetaInfo.m_appMetaInfo m).

(** At most one element. *)
Definition olist {A} (o : option A) : list A := match o with Some x => [x] | None => [] end.

Lemma EncSeq_option {A} (o : option A) (f : A -> prepender) (x : A -> Z * bytes) :
  (forall a, o = Some a -> EncSeq (f a) [x a]) ->
  EncSeq match o with Some a => f a | None => pNone end (olist (x <$> o)).
Proof. intros H. destruct o; [by apply H|apply EncSeq_none]. Qed.

Lemma EncSeq_guard (c : bool) f (x : Z * bytes) : EncSeq f [x] ->
  EncSeq (pWhen c f) (olist (if c then Some x else None)).
Proof. intros H. destruct c; [done|apply EncSeq_none]. Qed.

(** The elements inside an encoded MetaInfo. *)
Definition meta_type (m : MetaInfo.t) : option (Z * bytes) :=
  if negb (MetaInfo.m_type m =? 0) then Some (tlv.ContentType, tlv.writeNonNegativeInteger (MetaInfo.m_type m)) else None.
Definition meta_fresh (m : MetaInfo.t) : option (Z * bytes) :=
  if negb (MetaInfo.m_freshnessPeriod m =? 0)
  then Some (tlv.FreshnessPeriod, tlv.writeNonNegativeInteger (MetaInfo.m_freshnessPeriod m)) else None.
Definition meta_final (m : MetaInfo.t) : option (Z * bytes) :=
  (fun c => (tlv.FinalBlockId, tlv_bytes (Block.type c) (Block.value c))) <$> MetaInfo.m_finalBlockId m.
Definition meta_seq (m : MetaInfo.t) : list (Z * bytes) :=
  olist (meta_type m) ++ olist (meta_fresh m) ++ olist (meta_final m) ++ (tv <$> MetaInfo.m_appMetaInfo m).

Lemma EncSeq_meta m : meta_ok m ->
  EncSeq (MetaInfo.wireEncode_template m) [(tlv.MetaInfo, BlockFacts.tlv_seq (meta_seq m))].
Proof.
  intros (_ & Hf & _ & Ha). apply EncSeq_TL. unfold meta_seq. rewrite !(assoc_L (++)). apply EncSeq_then.
  - apply EncSeq_blocks. eapply Forall_impl; [|exact Ha]. tauto.
  - apply EncSeq_then.
    + apply EncSeq_option. intros c _. apply EncSeq_one, Encodes_TL, ComponentFacts.Encodes_component.
    + apply EncSeq_then; apply EncSeq_guard; [|apply EncSeq_nni].
      rewrite u64_small by (unfold UINT64_MAX; lia). apply EncSeq_nni.
Qed.

Lemma meta_seq_types m : meta_ok m -> Forall (fun x => is_tlv_type x.1) (meta_seq m).
Proof.
  intros (_ & _ & _ & Ha). unfold meta_seq, meta_type, meta_fresh, meta_final. rewrite !Forall_app. split_and!.
  - destruct (negb _); repeat constructor; by vm_compute.
  - destruct (negb _); repeat constructor; by vm_compute.
  - destruct (MetaInfo.m_finalBlockId m); repeat constructor; by vm_compute.
  - apply Forall_fmap. eapply Forall_impl; [|exact Ha]. intros b [_ Hb]. simpl. width. lia.
Qed.

Lemma forM_app_loop (l : list Block.t) m :
  forM l (fun v => modify (fun m => MetaInfo.with_app (MetaInfo.m_appMetaInfo m ++ [v]) m)) m =
  (MetaInfo.with_app (MetaInfo.m_appMetaInfo m ++ l) m, Ok tt).
Proof.
  revert m. induction l as [|b l IH]; intros m.
  - cbn. rewrite app_nil_r. by destruct m.
  - cbn [forM]. rewrite bindM_modify, IH. destruct m. cbn. by rewrite <- (assoc_L (++)).
Qed.

Lemma olist_fmap {A B} (f : A -> B) (o : option A) : f <$> olist o = olist (f <$> o).
Proof. by destruct o. Qed.

(** One optional field: the element is there and consumed, or it is not and
    the elements behind it have other types. *)
Lemma optional_step {S} ty (o : option (Z * bytes)) rest (found : Block.t -> M S unit) missing s s' :
  (forall x, o = Some x -> x.1 = ty) -> Forall (fun x => x.1 <> ty) rest ->
  (forall x, o = Some x -> found (BlockFacts.of_pair x) s = (s', Ok tt)) ->
  (o = None -> missing s = (s', Ok tt)) ->
  MetaInfo.optional_field ty (BlockFacts.of_pair <$> (olist o ++ rest)) found missing s =
  (s', Ok (BlockFacts.of_pair <$> rest)).
Proof.
  intros Ht Hr Hf Hm. unfold MetaInfo.optional_field. destruct o as [x|]; cbn [olist app].
  - rewrite fmap_cons. change (Block.type (BlockFacts.of_pair x)) with (x.1). rewrite (Ht x eq_refl), Z.eqb_refl.
    by rewrite (bindM_ok _ _ _ _ _ (Hf x eq_refl)).
  - specialize (Hm eq_refl). destruct rest as [|x rest]; [cbn [fmap list_fmap]; by rewrite (bindM_ok _ _ _ _ _ Hm)|].
    apply Forall_cons_iff in Hr as [Hx _]. rewrite fmap_cons. change (Block.type (BlockFacts.of_pair x)) with (x.1).
    rewrite (proj2 (Z.eqb_neq _ _)) by done. by rewrite (bindM_ok _ _ _ _ _ Hm).
Qed.

(** The element in a FinalBlockId reads back as a component. *)
Lemma final_block ty ct v : ComponentFacts.valid ct v -> is_u64 (len (tlv_bytes ct v)) ->
  Block.blockFromValue (BlockFacts.of_pair (ty, tlv_bytes ct v)) = Ok (Block.of_tlv ct v) /\
  Component.ofBlock (Block.of_tlv ct v) = Ok (Block.of_tlv ct v).
Proof.
  intros Hv Hl. split; [|by apply ComponentFacts.ofBlock_spec].
  unfold Block.blockFromValue, Block.value_size. cbn [BlockFacts.of_pair fst snd Block.value Block.of_tlv Block.m_buf].
  assert (Hne : len (tlv_bytes ct v) <> 0).
  { intros E%len_zero. apply (tlv_bytes_nonempty ct v []). by rewrite app_nil_r. }
  rewrite (proj2 (Z.eqb_neq _ 0)) by done. cbn [throw_if mbind result_bind].
  apply BlockFacts.fromRange_of_tlv; [by eapply ComponentFacts.valid_tlv_type|].
  pose proof (BlockFacts.len_value_tlv ct v). pose proof (len_nonneg v). width. lia.
Qed.

(** What an application block is not taken for. *)
Lemma app_types m : meta_ok m ->
  Forall (fun x => x.1 <> tlv.ContentType /\ x.1 <> tlv.FreshnessPeriod /\ x.1 <> tlv.FinalBlockId)
    (tv <$> MetaInfo.m_appMetaInfo m).
Proof.
  intros (_ & _ & _ & Ha). apply Forall_fmap. eapply Forall_impl; [|exact Ha]. intros b [_ Hb]. simpl.
  unfold tlv.ContentType, tlv.FreshnessPeriod, tlv.FinalBlockId. change (Block.m_type b) with (Block.type b). lia.
Qed.

(** Decoding an encoded MetaInfo into any object: the three optional fields
    are overwritten, the application blocks are added to those there are. *)
Lemma meta_decode m m0 : meta_ok m -> is_u64 (len (BlockFacts.tlv_seq (meta_seq m))) ->
  MetaInfo.wireDecode (seq_block tlv.MetaInfo (meta_seq m)) m0 =
  (MetaInfo.mk (MetaInfo.m_type m) (MetaInfo.m_freshnessPeriod m)
     ((fun c => Block.of_tlv (Block.type c) (Block.value c)) <$> MetaInfo.m_finalBlockId m)
     (MetaInfo.m_appMetaInfo m0 ++ (BlockFacts.of_pair <$> (tv <$> MetaInfo.m_appMetaInfo m)))
     (parsed_block tlv.MetaInfo (meta_seq m)), Ok tt).
Proof.
  intros Hm Hl. pose proof (tlv_seq_ok _ (meta_seq_types m Hm) Hl) as Hok.
  pose proof (app_types m Hm) as Happ. pose proof Hm as (Ht & Hf & Hc & _). unfold MetaInfo.wireDecode.
  erewrite bindM_ok by (by apply assignParsed_seq). rewrite bindM_self.
  change (Block.elements _) with (BlockFacts.of_pair <$> meta_seq m). unfold meta_seq at 2.
  set (m1 := MetaInfo.with_wire _ m0).
  erewrite bindM_ok.
  2: { apply (optional_step _ _ _ _ _ m1 (MetaInfo.with_type (MetaInfo.m_type m) m1)); unfold meta_type.
       - intros x. case_match; naive_solver.
       - rewrite !Forall_app. split_and!; [unfold meta_fresh; by destruct (negb _); repeat constructor|
           unfold meta_final; by destruct (MetaInfo.m_finalBlockId m); repeat constructor|].
         eapply Forall_impl; [|exact Happ]. naive_solver.
       - intros x. destruct (negb _); [|done]. intros [= <-]. cbn beta.
         erewrite bindM_lift; [done|]. apply readNNIAs_of_tlv; [width; lia|lia].
       - destruct (Z.eqb_spec (MetaInfo.m_type m) 0) as [E|]; [|done]. by rewrite E. }
  set (m2 := MetaInfo.with_type _ m1). erewrite bindM_ok.
  2: { apply (optional_step _ _ _ _ _ m2 (MetaInfo.with_freshness (MetaInfo.m_freshnessPeriod m) m2)); unfold meta_fresh.
       - intros x. case_match; naive_solver.
       - rewrite !Forall_app. split_and!; [unfold meta_final; by destruct (MetaInfo.m_finalBlockId m); repeat constructor|].
         eapply Forall_impl; [|exact Happ]. naive_solver.
       - intros x. destruct (negb _); [|done]. intros [= <-]. cbn beta.
         erewrite bindM_lift; [|apply readNNI_of_tlv; width; lia]. by rewrite i64_small by lia.
       - destruct (Z.eqb_spec (MetaInfo.m_freshnessPeriod m) 0) as [E|]; [|done]. by rewrite E. }
  set (m3 := MetaInfo.with_freshness _ m2). erewrite bindM_ok.
  2: { apply (optional_step _ _ _ _ _ m3 (MetaInfo.with_final
         ((fun c => Block.of_tlv (Block.type c) (Block.value c)) <$> MetaInfo.m_finalBlockId m) m3)); unfold meta_final.
       - intros x. destruct (MetaInfo.m_finalBlockId m); naive_solver.
       - eapply Forall_impl; [|exact Happ]. naive_solver.
       - intros x. destruct (MetaInfo.m_finalBlockId m) as [c|] eqn:Ec; [|done]. intros [= <-]. cbn beta.
         destruct (final_block tlv.FinalBlockId (Block.type c) (Block.value c) (Hc c eq_refl)) as [B1 B2].
         { rewrite Forall_forall in Hok. eapply (proj2 (Hok (tlv.FinalBlockId, _) _)). Unshelve.
           apply list_elem_of_In. unfold meta_seq, meta_final. rewrite Ec. set_solver. }
         rewrite (bindM_lift _ _ _ _ B1), bindM_modify, (bindM_lift _ _ _ _ B2). done.
       - by destruct (MetaInfo.m_finalBlockId m). }
  rewrite forM_app_loop. done.
Qed.

(** *** KeyLocator *)

Definition types_ok (n : Name.t) : Prop := Forall (fun x => is_tlv_type x.1) (NameFacts.tlvs n).

Definition kl_ok (k : KeyLocator.t) : Prop :=
  match KeyLocator.m_locator k with
  | KeyLocator.Monostate => True
  | KeyLocator.LName n => types_ok n
  | KeyLocator.LDigest d => block_ok d /\ Block.type d = tlv.KeyDigest
  | KeyLocator.LType _ => False
  end.

Definition kl_seq (k : KeyLocator.t) : list (Z * bytes) :=
  match KeyLocator.m_locator k with
  | KeyLocator.LName n => [(tlv.Name, NameFacts.value n)]
  | KeyLocator.LDigest d => [tv d]
  | _ => []
  end.

(** The locator after decoding: the same content, with wires. *)
Definition kl_norm (l : KeyLocator.locator) : KeyLocator.locator :=
  match l with
  | KeyLocator.LName n => KeyLocator.LName (NameFacts.of_tlvs (NameFacts.tlvs n))
  | KeyLocator.LDigest d => KeyLocator.LDigest (BlockFacts.of_pair (tv d))
  | l => l
  end.

Lemma EncSeq_kl k : kl_ok k -> exists f, KeyLocator.wireEncode_template k = Ok f /\
  EncSeq f [(tlv.KeyLocator, BlockFacts.tlv_seq (kl_seq k))].
Proof.
  unfold kl_ok, kl_seq, KeyLocator.wireEncode_template. destruct (KeyLocator.m_locator k); intros H; [..|done];
    eexists; (split; [done|]); apply EncSeq_TL.
  - apply EncSeq_none.
  - apply EncSeq_name.
  - apply EncSeq_block, H.
Qed.

Lemma kl_seq_types k : kl_ok k -> Forall (fun x => is_tlv_type x.1) (kl_seq k).
Proof.
  unfold kl_ok, kl_seq. destruct (KeyLocator.m_locator k); intros H; [constructor|..|done];
    (constructor; [|constructor]); [by vm_compute|apply H].
Qed.

Lemma nested_len l x : x ∈ l -> is_u64 (len (BlockFacts.tlv_seq l)) -> is_u64 (len x.2).
Proof.
  intros Hx Hl. pose proof (len_tlv_seq_elem l x Hx). pose proof (BlockFacts.len_value_tlv x.1 x.2).
  pose proof (len_nonneg x.2). width. lia.
Qed.

Lemma name_decode_pair n : types_ok n -> is_u64 (len (NameFacts.value n)) ->
  Name.ofBlock (BlockFacts.of_pair (tlv.Name, NameFacts.value n)) = Ok (NameFacts.of_tlvs (NameFacts.tlvs n)) /\
  Name.decode (BlockFacts.of_pair (tlv.Name, NameFacts.value n)) = Ok (NameFacts.of_tlvs (NameFacts.tlvs n)).
Proof.
  intros Ht Hl. destruct (NameFacts.decode_of_tlvs (NameFacts.tlvs n)) as [D1 D2]; [by apply tlv_seq_ok|].
  split; [exact D2|exact D1].
Qed.

Lemma kl_decode k k0 : kl_ok k -> is_u64 (len (BlockFacts.tlv_seq (kl_seq k))) ->
  KeyLocator.wireDecode (seq_block tlv.KeyLocator (kl_seq k)) k0 =
  (KeyLocator.mk (kl_norm (KeyLocator.m_locator k)) (parsed_block tlv.KeyLocator (kl_seq k)), Ok tt).
Proof.
  intros Hk Hl. pose proof (tlv_seq_ok _ (kl_seq_types k Hk) Hl) as Hok. unfold KeyLocator.wireDecode.
  rewrite bindM_pass by done. erewrite bindM_ok by done. erewrite bindM_ok by (by apply assignParsed_seq).
  rewrite bindM_self. change (Block.elements _) with (BlockFacts.of_pair <$> kl_seq k).
  unfold kl_ok, kl_seq in *. destruct (KeyLocator.m_locator k) as [|n|d|]; [done| | |done]; cbn [fmap list_fmap kl_norm].
  - change (Block.type _) with tlv.Name. rewrite Z.eqb_refl.
    assert (Hn : is_u64 (len (NameFacts.value n))).
    { apply (nested_len [(tlv.Name, NameFacts.value n)] (tlv.Name, NameFacts.value n)); [left|exact Hl]. }
    destruct (name_decode_pair n Hk Hn) as [D _]. by rewrite (bindM_lift _ _ _ _ D).
  - destruct Hk as [_ Ht]. change (Block.type (BlockFacts.of_pair (tv d))) with (Block.type d). rewrite Ht. done.
Qed.

Lemma keys_norm n : NameFacts.keys (NameFacts.of_tlvs (NameFacts.tlvs n)) = NameFacts.keys n.
Proof. apply NameFacts.keys_of_tlvs. Qed.

Lemma eqb_pair b : Block.eqb b (BlockFacts.of_pair (tv b)) = true.
Proof.
  unfold Block.eqb. change (Block.type (BlockFacts.of_pair (tv b))) with (Block.type b).
  unfold Block.value_size. change (Block.value (BlockFacts.of_pair (tv b))) with (Block.value b).
  rewrite !Z.eqb_refl, bool_decide_eq_true_2 by done. by rewrite orb_true_r.
Qed.

Lemma kl_eqb_norm k w : kl_ok k -> KeyLocator.eqb k (KeyLocator.mk (kl_norm (KeyLocator.m_locator k)) w) = true.
Proof.
  unfold kl_ok, KeyLocator.eqb. cbn [KeyLocator.m_locator]. destruct (KeyLocator.m_locator k); intros H; cbn [kl_norm]; [done| |apply eqb_pair|done].
  rewrite NameFacts.nequals_spec. apply bool_decide_eq_true. by rewrite keys_norm.
Qed.

(** *** SignatureInfo *)

(** A block that the decoder keeps among the other elements. *)
Definition other_ok (x : Z * bytes) : Prop :=
  x.1 <> tlv.SignatureType /\ x.1 <> tlv.KeyLocator /\
  (x.1 = tlv.SignatureNonce -> 1 <= len x.2) /\
  (x.1 <> tlv.SignatureNonce -> x.1 <> SignatureInfo.ValidityPeriod -> tlv.isCriticalType x.1 = false).

Definition sig_ok (s : SignatureInfo.t) : Prop :=
  0 <= SignatureInfo.m_type s <= UINT16_MAX /\
  (forall k, SignatureInfo.m_keyLocator s = Some k -> kl_ok k) /\
  Forall (fun b => block_ok b /\ other_ok (tv b)) (SignatureInfo.m_otherTlvs s).

Definition sig_seq (s : SignatureInfo.t) : list (Z * bytes) :=
  (tlv.SignatureType, tlv.writeNonNegativeInteger (SignatureInfo.m_type s)) ::
  olist ((fun k => (tlv.KeyLocator, BlockFacts.tlv_seq (kl_seq k))) <$> SignatureInfo.m_keyLocator s) ++
  (tv <$> SignatureInfo.m_otherTlvs s).

Lemma EncSeq_sig type s : sig_ok s -> exists f, SignatureInfo.wireEncode_template type s = Ok f /\
  EncSeq f [(SignatureInfo.to_underlying type, BlockFacts.tlv_seq (sig_seq s))].
Proof.
  intros (Ht & Hk & Ho). unfold SignatureInfo.wireEncode_template.
  rewrite (proj2 (Z.eqb_neq (SignatureInfo.m_type s) (-1))) by lia. cbn [throw_if mbind result_bind].
  assert (exists f, match SignatureInfo.m_keyLocator s with
      Some k => KeyLocator.wireEncode_template k | None => Ok pNone end = Ok f /\
    EncSeq f (olist ((fun k => (tlv.KeyLocator, BlockFacts.tlv_seq (kl_seq k))) <$> SignatureInfo.m_keyLocator s)))
    as (f & Hf & Ef).
  { destruct (SignatureInfo.m_keyLocator s) as [k|]; [apply EncSeq_kl; by apply Hk|].
    exists pNone. split; [done|apply EncSeq_none]. }
  rewrite Hf. cbn [mbind result_bind]. eexists. split; [done|]. apply EncSeq_TL. unfold sig_seq.
  change (?x :: ?l ++ ?r) with ([x] ++ l ++ r). rewrite (assoc_L (++)). apply EncSeq_then.
  - apply EncSeq_blocks. eapply Forall_impl; [|exact Ho]. tauto.
  - apply EncSeq_then; [done|]. rewrite u64_small by (unfold UINT64_MAX, UINT16_MAX in *; lia). apply EncSeq_nni.
Qed.

Lemma sig_seq_types s : sig_ok s -> Forall (fun x => is_tlv_type x.1) (sig_seq s).
Proof.
  intros (_ & _ & Ho). unfold sig_seq. constructor; [by vm_compute|]. apply Forall_app. split.
  - destruct (SignatureInfo.m_keyLocator s); repeat constructor; by vm_compute.
  - apply Forall_fmap. eapply Forall_impl; [|exact Ho]. intros b [[[Hb _] _] _]. done.
Qed.

Lemma decode_others last l s : Forall other_ok l ->
  SignatureInfo.decode_elements last (BlockFacts.of_pair <$> l) s =
  (SignatureInfo.with_others (SignatureInfo.m_otherTlvs s ++ (BlockFacts.of_pair <$> l)) s, Ok tt).
Proof.
  intros Hl. revert s. induction Hl as [|x l (H1 & H2 & H3 & H4) _ IH]; intros s.
  { cbn. rewrite app_nil_r. by destruct s. }
  rewrite fmap_cons. cbn [SignatureInfo.decode_elements]. change (Block.type (BlockFacts.of_pair x)) with (x.1).
  rewrite (proj2 (Z.eqb_neq _ tlv.SignatureType)), (proj2 (Z.eqb_neq _ tlv.KeyLocator)) by done.
  assert (Hnext : SignatureInfo.decode_elements last (BlockFacts.of_pair <$> l)
      (SignatureInfo.with_others (SignatureInfo.m_otherTlvs s ++ [BlockFacts.of_pair x]) s) =
    (SignatureInfo.with_others (SignatureInfo.m_otherTlvs s ++ BlockFacts.of_pair x :: (BlockFacts.of_pair <$> l)) s, Ok tt)).
  { rewrite IH. destruct s. cbn. by rewrite <- (assoc_L (++)). }
  unfold SignatureInfo.push_other. destruct (Z.eqb_spec x.1 tlv.SignatureNonce) as [E|E].
  - rewrite bindM_pass by (specialize (H3 E); apply Z.ltb_ge; exact H3). by rewrite bindM_modify.
  - destruct (Z.eqb_spec x.1 SignatureInfo.ValidityPeriod) as [E'|E']; [by rewrite bindM_modify|].
    rewrite bindM_pass by auto. by rewrite bindM_modify.
Qed.

Definition sig_norm (type : SignatureInfo.Type_) (s : SignatureInfo.t) : SignatureInfo.t :=
  SignatureInfo.mk (SignatureInfo.m_type s)
    ((fun k => KeyLocator.mk (kl_norm (KeyLocator.m_locator k)) (parsed_block tlv.KeyLocator (kl_seq k)))
       <$> SignatureInfo.m_keyLocator s)
    (BlockFacts.of_pair <$> (tv <$> SignatureInfo.m_otherTlvs s))
    (parsed_block (SignatureInfo.to_underlying type) (sig_seq s)).

Lemma sig_decode type s s0 : sig_ok s -> is_u64 (len (BlockFacts.tlv_seq (sig_seq s))) ->
  SignatureInfo.wireDecode (seq_block (SignatureInfo.to_underlying type) (sig_seq s)) type s0 =
  (sig_norm type s, Ok tt).
Proof.
  intros Hs Hl. pose proof (tlv_seq_ok _ (sig_seq_types s Hs) Hl) as Hok. pose proof Hs as (Ht & Hk & Ho).
  assert (Hoth : Forall other_ok (tv <$> SignatureInfo.m_otherTlvs s)).
  { apply Forall_fmap. eapply Forall_impl; [|exact Ho]. by intros b [_ ?]. }
  unfold SignatureInfo.wireDecode. rewrite !bindM_modify. erewrite bindM_ok by (by apply assignParsed_seq).
  rewrite bindM_self, bindM_pass by (by rewrite Z.eqb_refl). change (Block.elements _) with (BlockFacts.of_pair <$> sig_seq s).
  rewrite (bindM_ok _ _ _ (sig_norm type s) tt).
  - rewrite bindM_self. unfold throwM_if, liftR. change (SignatureInfo.m_type (sig_norm type s)) with (SignatureInfo.m_type s).
    rewrite (proj2 (Z.eqb_neq (SignatureInfo.m_type s) (-1))) by lia. cbn [throw_if]. reflexivity.
  - unfold sig_seq at 1. rewrite fmap_cons. cbn [SignatureInfo.decode_elements].
    change (Block.type (BlockFacts.of_pair (tlv.SignatureType, _))) with tlv.SignatureType. rewrite Z.eqb_refl.
    rewrite bindM_pass by done.
    rewrite (bindM_lift _ _ _ (SignatureInfo.m_type s)) by (apply readNNIAs_of_tlv; [width; lia|lia]).
    rewrite bindM_modify, fmap_app, olist_fmap. destruct (SignatureInfo.m_keyLocator s) as [k|] eqn:Ek.
    + cbn [fmap option_fmap option_map olist app SignatureInfo.decode_elements].
      change (Block.type _) with tlv.KeyLocator. change (tlv.KeyLocator =? tlv.SignatureType) with false.
      rewrite Z.eqb_refl. rewrite bindM_pass by done. rewrite bindM_modify.
      erewrite bindM_lift.
      2: { unfold KeyLocator.ofBlock, exec. change (BlockFacts.of_pair (tlv.KeyLocator, BlockFacts.tlv_seq (kl_seq k)))
             with (seq_block tlv.KeyLocator (kl_seq k)). rewrite kl_decode; [done|by apply Hk|].
           eapply (nested_len (sig_seq s) (tlv.KeyLocator, _)); [|exact Hl]. unfold sig_seq. rewrite Ek. right. left. }
      rewrite bindM_modify, decode_others by done. unfold sig_norm. rewrite Ek. reflexivity.
    + cbn [fmap option_fmap option_map olist app]. rewrite decode_others by done. unfold sig_norm. rewrite Ek. reflexivity.
Qed.

Lemma sig_eqb_norm type s : sig_ok s -> SignatureInfo.eqb s (sig_norm type s) = true.
Proof.
  intros (_ & Hk & _). unfold SignatureInfo.eqb, sig_norm.
  cbn [SignatureInfo.m_type SignatureInfo.m_keyLocator SignatureInfo.m_otherTlvs].
  rewrite Z.eqb_refl. cbn [andb]. apply andb_true_iff. split.
  - destruct (SignatureInfo.m_keyLocator s) as [k|]; [|done]. cbn. apply kl_eqb_norm. by apply Hk.
  - clear. induction (SignatureInfo.m_otherTlvs s) as [|b l IH]; [done|]. cbn [fmap list_fmap SignatureInfo.blocks_eqb].
    by rewrite eqb_pair.
Qed.

End FieldFacts.

Module FieldTheorems.
Import FieldFacts.

(** MetaInfo through its wire format: decoding the encoding of a MetaInfo
    into an object restores the content type, the freshness period and the
    final block identifier whatever the object held before; the application
    blocks, however, are added behind those the object already has, because
    [wireDecode] does not clear its list. *)
Theorem meta_info_decode (m m0 : MetaInfo.t) (Hm : meta_ok m)
    (Hl : is_u64 (len (BlockFacts.tlv_seq (meta_seq m)))) :
  exists b m', makeBlock (MetaInfo.wireEncode_template m) = Ok b /\
    MetaInfo.wireDecode b m0 = (m', Ok tt) /\
    MetaInfo.m_type m' = MetaInfo.m_type m /\
    MetaInfo.m_freshnessPeriod m' = MetaInfo.m_freshnessPeriod m /\
    ComponentFacts.key <$> MetaInfo.m_finalBlockId m' = ComponentFacts.key <$> MetaInfo.m_finalBlockId m /\
    tv <$> MetaInfo.m_appMetaInfo m' = (tv <$> MetaInfo.m_appMetaInfo m0) ++ (tv <$> MetaInfo.m_appMetaInfo m).
Proof.
  exists (seq_block tlv.MetaInfo (meta_seq m)). eexists.
  split; [apply makeBlock_seq; [by apply EncSeq_meta|by vm_compute|done]|].
  split; [by apply meta_decode|]. split_and!; [done|done| |].
  - cbn [MetaInfo.m_finalBlockId]. by destruct (MetaInfo.m_finalBlockId m).
  - cbn [MetaInfo.m_appMetaInfo]. by rewrite fmap_app, tv_of_pairs.
Qed.

Lemma meta_info_decode_witness :
  let m := MetaInfo.mk 1 5000 (Some (Block.ofTypeValue 8 (str "9"))) [Block.ofTypeValue 130 (str "x")] Block.empty in
  exists b m1 m2, makeBlock (MetaInfo.wireEncode_template m) = Ok b /\
    MetaInfo.wireDecode b MetaInfo.init = (m1, Ok tt) /\ MetaInfo.wireDecode b m1 = (m2, Ok tt) /\
    length (MetaInfo.m_appMetaInfo m1) = 1%nat /\ length (MetaInfo.m_appMetaInfo m2) = 2%nat.
Proof.
  intros m. assert (Hm : meta_ok m).
  { split; [by vm_compute|]. split; [by vm_compute|]. split.
    - intros c [= <-]. split; [by vm_compute|]. intros [H|H]; by vm_compute in H.
    - constructor; [|constructor]. split; [apply block_ok_of_value; split; by vm_compute|by vm_compute]. }
  assert (Hl : is_u64 (len (BlockFacts.tlv_seq (meta_seq m)))) by (by vm_compute).
  destruct (meta_info_decode m MetaInfo.init Hm Hl) as (b & m1 & H1 & H2 & _ & _ & _ & H3).
  destruct (meta_info_decode m m1 Hm Hl) as (b' & m2 & H1' & H2' & _ & _ & _ & H3').
  exists b, m1, m2. rewrite H1 in H1'. injection H1' as <-. split; [exact H1|]. split; [exact H2|]. split; [exact H2'|].
  apply (f_equal length) in H3, H3'. rewrite !length_app, !length_fmap in H3, H3'. cbn in H3.
  rewrite H3 in H3'. cbn in H3'. split; assumption.
Defined.

(** SignatureInfo through its wire format, in both roles: the encoding of
    a well-formed SignatureInfo decodes, into any object and under the role it
    was encoded for, to an equal SignatureInfo; under the other role it is
    refused. *)
Theorem signature_info_roundtrip (type : SignatureInfo.Type_) (s s0 : SignatureInfo.t) (Hs : sig_ok s)
    (Hl : is_u64 (len (BlockFacts.tlv_seq (sig_seq s)))) :
  exists f b s', SignatureInfo.wireEncode_template type s = Ok f /\ makeBlock f = Ok b /\
    SignatureInfo.wireDecode b type s0 = (s', Ok tt) /\ SignatureInfo.eqb s s' = true /\
    (forall type', type' <> type -> SignatureInfo.ofBlock b type' = Throw (PacketError "SignatureInfo")).
Proof.
  destruct (EncSeq_sig type s Hs) as (f & Hf & Ef). pose proof (tlv_seq_ok _ (sig_seq_types s Hs) Hl) as Hok.
  exists f, (seq_block (SignatureInfo.to_underlying type) (sig_seq s)), (sig_norm type s). split; [done|].
  split; [apply makeBlock_seq; [done|by destruct type; vm_compute|done]|]. split; [by apply sig_decode|]. split.
  - by apply sig_eqb_norm.
  - intros type' Hne. unfold SignatureInfo.ofBlock, exec, SignatureInfo.wireDecode. rewrite !bindM_modify.
    erewrite bindM_ok by (by apply assignParsed_seq). rewrite bindM_self. by destruct type, type'.
Qed.

Lemma signature_info_roundtrip_witness :
  let s := SignatureInfo.mk 3 (Some (KeyLocator.ofName (Name.append (Block.ofTypeValue 8 (str "K")) Name.empty)))
             [Block.ofTypeValue 38 (str "nonce")] Block.empty in
  exists f b s', SignatureInfo.wireEncode_template SignatureInfo.TInterest s = Ok f /\ makeBlock f = Ok b /\
    SignatureInfo.ofBlock b SignatureInfo.TInterest = Ok s' /\ SignatureInfo.eqb s s' = true.
Proof.
  intros s. destruct (signature_info_roundtrip SignatureInfo.TInterest s SignatureInfo.init)
    as (f & b & s' & H1 & H2 & H3 & H4 & _).
  - split; [by vm_compute|]. split.
    + intros k [= <-]. constructor; [by vm_compute|constructor].
    + constructor; [|constructor]. split; [apply block_ok_of_value; split; by vm_compute|].
      split; [by vm_compute|]. split; [by vm_compute|]. split; intros H; by vm_compute in H |- *.
  - by vm_compute.
  - exists f, b, s'. split; [exact H1|]. split; [exact H2|]. split; [|exact H4].
    unfold SignatureInfo.ofBlock, exec. by rewrite H3.
Defined.

(** The cached encoding of a SignatureInfo ignores the requested role: once
    it has been encoded for a Data packet, asking for the encoding for an
    Interest returns the element of the Data role again. *)
Theorem signature_info_cached_type (s s' : SignatureInfo.t) (b : Block.t) (type : SignatureInfo.Type_)
    (H : SignatureInfo.wireEncode SignatureInfo.TData s = (s', Ok b)) (Hw : Block.hasWire b = true) :
  SignatureInfo.wireEncode type s' = (s', Ok b).
Proof.
  unfold SignatureInfo.wireEncode in *. rewrite bindM_self in H |- *.
  destruct (Block.hasWire (SignatureInfo.m_wire s)) eqn:E.
  - injection H as <- <-. by rewrite E.
  - unfold liftR in H. unfold mbind, M_bind in H.
    destruct (SignatureInfo.wireEncode_template SignatureInfo.TData s) as [f|]; [|done].
    destruct (makeBlock f); [|done]. injection H as <- <-. cbn [SignatureInfo.m_wire SignatureInfo.with_wire]. by rewrite Hw.
Qed.

Lemma signature_info_cached_type_witness :
  exists s' b, SignatureInfo.wireEncode SignatureInfo.TData (SignatureInfo.make 0 None) = (s', Ok b) /\
    SignatureInfo.wireEncode SignatureInfo.TInterest s' = (s', Ok b) /\ Block.type b = tlv.SignatureInfo.
Proof.
  destruct (SignatureInfo.wireEncode SignatureInfo.TData (SignatureInfo.make 0 None)) as [s' [b|e]] eqn:E;
    [|vm_compute in E; discriminate E].
  exists s', b. split; [reflexivity|]. split.
  - apply (signature_info_cached_type (SignatureInfo.make 0 None) s' b SignatureInfo.TInterest E).
    vm_compute in E. injection E as <- <-. reflexivity.
  - vm_compute in E. injection E as <- <-. reflexivity.
Defined.

Lemma replace_or_append_some b l l' : SignatureInfo.replace_or_append b l = Some l' ->
  List.find (fun x => Block.type x =? Block.type b) l' = Some b /\
  (forall ty, ty <> Block.type b ->
     List.find (fun x => Block.type x =? ty) l' = List.find (fun x => Block.type x =? ty) l) /\
  (Block.type <$> l') = (Block.type <$> l) ++ (if bool_decide (Block.type b ∈ Block.type <$> l) then [] else [Block.type b]).
Proof.
  revert l'. induction l as [|x l IH]; intros l'.
  - cbn [SignatureInfo.replace_or_append]. intros [= <-]. cbn. rewrite Z.eqb_refl. split_and!; [done| |].
    + intros ty Hty. by rewrite (proj2 (Z.eqb_neq _ _)) by done.
    + rewrite bool_decide_eq_false_2; [done|]. set_solver.
  - cbn [SignatureInfo.replace_or_append]. destruct (Z.eqb_spec (Block.type x) (Block.type b)) as [E|E].
    + destruct (negb _); [|done]. intros [= <-]. cbn [List.find]. rewrite Z.eqb_refl. split_and!; [done| |].
      * intros ty Hty. rewrite E, (proj2 (Z.eqb_neq (Block.type b) ty)) by done. done.
      * rewrite !fmap_cons, E, bool_decide_eq_true_2 by left. by rewrite app_nil_r.
    + destruct (SignatureInfo.replace_or_append b l) as [r|]; [|done]. intros [= <-].
      destruct (IH r eq_refl) as (H1 & H2 & H3). cbn [List.find]. rewrite (proj2 (Z.eqb_neq (Block.type x) (Block.type b))) by done.
      split_and!; [done| |].
      * intros ty Hty. destruct (Block.type x =? ty); [done|by apply H2].
      * rewrite !fmap_cons, H3. cbn [app]. do 2 f_equal.
        rewrite (bool_decide_ext (Block.type b ∈ Block.type x :: (Block.type <$> l)) (Block.type b ∈ Block.type <$> l));
          [done|]. set_solver.
Qed.

Lemma replace_or_append_none b l : SignatureInfo.replace_or_append b l = None ->
  exists x, List.find (fun x => Block.type x =? Block.type b) l = Some x /\ Block.eqb x b = true.
Proof.
  induction l as [|x l IH]; [done|]. cbn [SignatureInfo.replace_or_append List.find].
  destruct (Block.type x =? Block.type b).
  - destruct (Block.eqb x b) eqn:E; [|done]. intros _. by exists x.
  - destruct (SignatureInfo.replace_or_append b l); [done|]. intros _. by apply IH.
Qed.

Lemma filter_full {A} (P : A -> Prop) `{!forall x, Decision (P x)} (l : list A) :
  (length l <= length (base.filter P l))%nat -> base.filter P l = l.
Proof.
  induction l as [|x l IH]; [done|]. rewrite filter_cons. pose proof (length_filter P l).
  destruct (decide (P x)); cbn [length]; intros H'; [|lia]. f_equal. apply IH. lia.
Qed.

(** The custom elements of a SignatureInfo behave as a map that keeps its
    order: after adding a block the element of its type equals that block,
    elements of other types are untouched, and the order of the types only
    grows at the end; after removing a type there is none of it; and the
    cached encoding is dropped exactly when an element changes. *)
Theorem signature_info_custom_tlvs (b : Block.t) (ty : Z) (s : SignatureInfo.t) :
  (exists s', SignatureInfo.addCustomTlv b s = (s', Ok tt) /\
     (exists x, SignatureInfo.getCustomTlv (Block.type b) s' = Some x /\ Block.eqb x b = true) /\
     (ty <> Block.type b -> SignatureInfo.getCustomTlv ty s' = SignatureInfo.getCustomTlv ty s) /\
     (Block.type <$> SignatureInfo.m_otherTlvs s) `prefix_of` (Block.type <$> SignatureInfo.m_otherTlvs s') /\
     (s' = s \/ Block.hasWire (SignatureInfo.m_wire s') = false)) /\
  (exists s', SignatureInfo.removeCustomTlv ty s = (s', Ok tt) /\
     SignatureInfo.getCustomTlv ty s' = None /\
     (Block.type b <> ty -> SignatureInfo.getCustomTlv (Block.type b) s' = SignatureInfo.getCustomTlv (Block.type b) s) /\
     (s' = s \/ Block.hasWire (SignatureInfo.m_wire s') = false)).
Proof.
  assert (Hrefl : Block.eqb b b = true).
  { unfold Block.eqb. rewrite !Z.eqb_refl, bool_decide_eq_true_2 by done. by rewrite orb_true_r. }
  split.
  - unfold SignatureInfo.addCustomTlv, SignatureInfo.getCustomTlv, SignatureInfo.findOtherTlv. rewrite bindM_self.
    destruct (SignatureInfo.replace_or_append b (SignatureInfo.m_otherTlvs s)) as [l|] eqn:E.
    + destruct (replace_or_append_some _ _ _ E) as (H1 & H2 & H3). eexists. split; [reflexivity|].
      cbn [SignatureInfo.m_otherTlvs SignatureInfo.with_others SignatureInfo.with_wire]. split_and!; [by exists b| | |by right].
      * apply H2.
      * rewrite H3. by eexists.
    + exists s. split; [done|]. split_and!; [by apply replace_or_append_none|done|done|by left].
  - unfold SignatureInfo.removeCustomTlv, SignatureInfo.getCustomTlv, SignatureInfo.findOtherTlv. rewrite bindM_self.
    set (l := base.filter _ (SignatureInfo.m_otherTlvs s)).
    assert (Hnone : List.find (fun x => Block.type x =? ty) l = None).
    { unfold l. clear. induction (SignatureInfo.m_otherTlvs s) as [|x k IH]; [done|]. rewrite filter_cons.
      destruct (decide (Block.type x <> ty)); [|done]. cbn [List.find]. by rewrite (proj2 (Z.eqb_neq _ _)) by done. }
    assert (Hother : Block.type b <> ty -> List.find (fun x => Block.type x =? Block.type b) l =
      List.find (fun x => Block.type x =? Block.type b) (SignatureInfo.m_otherTlvs s)).
    { intros Hne. unfold l. clear -Hne. induction (SignatureInfo.m_otherTlvs s) as [|x k IH]; [done|]. rewrite filter_cons.
      destruct (decide (Block.type x <> ty)) as [|Ex]; cbn [List.find].
      - by rewrite IH.
      - rewrite (proj2 (Z.eqb_neq (Block.type x) (Block.type b))); [done|]. intros E. apply Ex. congruence. }
    destruct (Nat.ltb_spec (length l) (length (SignatureInfo.m_otherTlvs s))) as [Hlt|Hge].
    + eexists. split; [reflexivity|]. split_and!; [done|done|by right].
    + exists s. assert (l = SignatureInfo.m_otherTlvs s) as El.
      { by apply filter_full. }
      rewrite <- El. split_and!; [done|done|done|by left].
Qed.

End FieldTheorems.
