(* ===== verification/DataPacket.v ===== *)
(** Data packets: [ndn-cxx/data.hpp] and [data.cpp].

    The digest function of [util::Sha256] (OpenSSL) is the parameter [sha256];
    all that is used of it is the length of its result. *)

From Stdlib Require Import Sorted.
From S2P Require Import Prelude Tlv Encoding Blocks BlockHelpers Text NameComponents Names Fields.

(** [m_name.wireDecode(wire)] on a member object. *)
Definition nameWireDecode (wire : Block.t) : M Name.t unit := fun n =>
  let '(n', e) := Name.wireDecode wire n in
  (n', match e with None => Ok tt | Some e => Throw e end).

Module Data.

(** [ndn-cxx/data.hpp:324-332] Data *)
Record t := mk {
  m_name : Name.t;
  m_metaInfo : MetaInfo.t;
  m_content : Block.t;
  m_signatureInfo : SignatureInfo.t;
  m_signatureValue : Block.t;
  m_wire : Block.t;
  m_fullName : Name.t;
}.

Definition with_name x d := mk x (m_metaInfo d) (m_content d) (m_signatureInfo d) (m_signatureValue d) (m_wire d) (m_fullName d).
Definition with_metaInfo x d := mk (m_name d) x (m_content d) (m_signatureInfo d) (m_signatureValue d) (m_wire d) (m_fullName d).
Definition with_content x d := mk (m_name d) (m_metaInfo d) x (m_signatureInfo d) (m_signatureValue d) (m_wire d) (m_fullName d).
Definition with_signatureInfo x d := mk (m_name d) (m_metaInfo d) (m_content d) x (m_signatureValue d) (m_wire d) (m_fullName d).
Definition with_signatureValue x d := mk (m_name d) (m_metaInfo d) (m_content d) (m_signatureInfo d) x (m_wire d) (m_fullName d).
Definition with_wire x d := mk (m_name d) (m_metaInfo d) (m_content d) (m_signatureInfo d) (m_signatureValue d) x (m_fullName d).
Definition with_fullName x d := mk (m_name d) (m_metaInfo d) (m_content d) (m_signatureInfo d) (m_signatureValue d) (m_wire d) x.

(** [ndn-cxx/data.cpp:34-37] Data::Data(const Name&) *)
Definition ofName (name : Name.t) : t :=
  mk name MetaInfo.init Block.empty SignatureInfo.init Block.empty Block.empty Name.empty.

(** [ndn-cxx/data.hpp:155-159] Data::hasContent *)
Definition hasContent (d : t) : bool := Block.isValid (m_content d).

(** [ndn-cxx/data.cpp:44-85] Data::wireEncode(EncodingImpl&, bool) *)
Definition wireEncode_template (wantUnsignedPortionOnly : bool) (d : t) : result prepender :=
  _ ← throw_if (negb wantUnsignedPortionOnly && negb (SignatureInfo.isSet (m_signatureInfo d)))
        (PacketError "Requested wire format, but Data has not been signed");
  info ← SignatureInfo.wireEncode_template SignatureInfo.TData (m_signatureInfo d);
  let body :=
    pWhen (negb wantUnsignedPortionOnly) (encoding.prependBlock (m_signatureValue d)) ;+
    info ;+
    pWhen (hasContent d) (encoding.prependBlock (m_content d)) ;+
    MetaInfo.wireEncode_template (m_metaInfo d) ;+
    Name.wireEncode_template (m_name d) in
  Ok (if wantUnsignedPortionOnly then body else pTL tlv.Data body).

(** [ndn-cxx/data.cpp:153-196] Data::wireDecode (the loop) *)
Fixpoint decode_elements (lastElement : Z) (elements : list Block.t) : M t unit :=
  match elements with
  | [] => mret tt
  | element :: rest =>
      let ty := Block.type element in
      if ty =? tlv.MetaInfo then
        _ ← throwM_if (2 <=? lastElement) (PacketError "MetaInfo element is out of order");
        _ ← zoom m_metaInfo with_metaInfo (MetaInfo.wireDecode element);
        decode_elements 2 rest
      else if ty =? tlv.Content then
        _ ← throwM_if (3 <=? lastElement) (PacketError "Content element is out of order");
        _ ← modify (with_content element);
        decode_elements 3 rest
      else if ty =? tlv.SignatureInfo then
        _ ← throwM_if (4 <=? lastElement) (PacketError "SignatureInfo element is out of order");
        _ ← zoom m_signatureInfo with_signatureInfo (SignatureInfo.wireDecode element SignatureInfo.TData);
        decode_elements 4 rest
      else if ty =? tlv.SignatureValue then
        _ ← throwM_if (5 <=? lastElement) (PacketError "SignatureValue element is out of order");
        _ ← modify (with_signatureValue element);
        decode_elements 5 rest
      else
        _ ← throwM_if (tlv.isCriticalType ty) (PacketError "Unrecognized element of critical type");
        decode_elements lastElement rest
  end.

(** [ndn-cxx/data.cpp:124-204] Data::wireDecode *)
Definition wireDecode (wire : Block.t) : M t unit :=
  _ ← throwM_if (negb (Block.type wire =? tlv.Data)) (PacketError "Data");
  _ ← assignParsed with_wire wire;
  d ← self;
  match Block.elements (m_wire d) with
  | element :: rest =>
      _ ← throwM_if (negb (Block.type element =? tlv.Name)) (PacketError "Name element is missing or out of order");
      _ ← zoom m_name with_name (nameWireDecode element);
      _ ← modify (with_metaInfo MetaInfo.init);
      _ ← modify (with_content Block.empty);
      _ ← modify (with_signatureInfo SignatureInfo.init);
      _ ← modify (with_signatureValue Block.empty);
      _ ← modify (fun d => with_fullName (Name.clear (m_fullName d)) d);
      _ ← decode_elements 1 rest;
      d ← self;
      _ ← throwM_if (negb (SignatureInfo.isSet (m_signatureInfo d))) (PacketError "SignatureInfo element is missing");
      throwM_if (negb (Block.isValid (m_signatureValue d))) (PacketError "SignatureValue element is missing")
  | [] => throwM (PacketError "Name element is missing or out of order")
  end.

(** [ndn-cxx/data.cpp:39-42] Data::Data(const Block&) *)
Definition ofBlock (wire : Block.t) : result t := exec (wireDecode wire) (ofName Name.empty).

(** [ndn-cxx/data.cpp:93-106] Data::wireEncode(EncodingBuffer&, span<const uint8_t>) *)
Definition wireEncodeSigned (encoder : Encoder.t) (signature : bytes) : M t Block.t :=
  let totalLength := Encoder.size encoder in
  let '(encoder, n1) := Encoder.appendVarNumber tlv.SignatureValue encoder in
  let '(encoder, n2) := Encoder.appendVarNumber (len signature) encoder in
  let '(encoder, n3) := Encoder.appendBytes signature encoder in
  let totalLength := totalLength + n1 + n2 + n3 in
  let '(encoder, _) := Encoder.prependVarNumber totalLength encoder in
  let '(encoder, _) := Encoder.prependVarNumber tlv.Data encoder in
  b ← liftR (Encoder_block encoder true);
  _ ← wireDecode b;
  d ← self;
  mret (m_wire d).

(** [ndn-cxx/data.cpp:108-122] Data::wireEncode *)
Definition wireEncode : M t Block.t :=
  d ← self;
  if Block.hasWire (m_wire d) then mret (m_wire d)
  else
    f ← liftR (wireEncode_template false d);
    b ← liftR (makeBlock f);
    _ ← wireDecode b;
    d ← self;
    mret (m_wire d).

(** [ndn-cxx/data.cpp:220-225] Data::resetWire *)
Definition resetWire : M t unit :=
  _ ← modify (with_wire Block.empty);
  modify (fun d => with_fullName (Name.clear (m_fullName d)) d).

(** [ndn-cxx/data.cpp:227-235] Data::setName *)
Definition setName (name : Name.t) : M t unit :=
  d ← self;
  if negb (Name.equals name (m_name d)) then _ ← modify (with_name name); resetWire else mret tt.

(** [ndn-cxx/data.cpp:237-243] Data::setMetaInfo *)
Definition setMetaInfo (metaInfo : MetaInfo.t) : M t unit :=
  _ ← modify (with_metaInfo metaInfo); resetWire.

(** [ndn-cxx/data.cpp:245-261] Data::setContent(const Block&) *)
Definition setContentBlock (block : Block.t) : M t unit :=
  _ ← throwM_if (negb (Block.isValid block)) (InvalidArgument "Content block must be valid");
  c ← (if Block.type block =? tlv.Content then mret block
       else liftR (Block.ofTypeBlock tlv.Content block));
  _ ← modify (with_content (Block.encode c));
  resetWire.

(** [ndn-cxx/data.cpp:263-269] Data::setContent(span<const uint8_t>) *)
Definition setContent (value : bytes) : M t unit :=
  b ← liftR (encoding.makeBinaryBlock tlv.Content value);
  _ ← modify (with_content b);
  resetWire.

(** [ndn-cxx/data.cpp:271-279] Data::setContent(const uint8_t*, size_t)
    [None] is the null pointer. *)
Definition setContentPtr (value : option bytes) (length : Z) : M t unit :=
  _ ← throwM_if (match value with None => negb (length =? 0) | Some _ => false end)
        (InvalidArgument "Content buffer cannot be nullptr");
  setContent (take (Z.to_nat length) (default [] value)).

(** [ndn-cxx/data.cpp:281-291] Data::setContent(ConstBufferPtr)
    [None] is the null pointer. *)
Definition setContentBuffer (value : option bytes) : M t unit :=
  match value with
  | None => throwM (InvalidArgument "Content buffer cannot be nullptr")
  | Some v => _ ← modify (with_content (Block.ofTypeValue tlv.Content v)); resetWire
  end.

(** [ndn-cxx/data.cpp:293-299] Data::unsetContent *)
Definition unsetContent : M t unit := _ ← modify (with_content Block.empty); resetWire.

(** [ndn-cxx/data.cpp:301-307] Data::setSignatureInfo *)
Definition setSignatureInfo (info : SignatureInfo.t) : M t unit :=
  _ ← modify (with_signatureInfo info); resetWire.

(** [ndn-cxx/data.cpp:309-319] Data::setSignatureValue *)
Definition setSignatureValue (value : option bytes) : M t unit :=
  match value with
  | None => throwM (InvalidArgument "SignatureValue buffer cannot be nullptr")
  | Some v => _ ← modify (with_signatureValue (Block.ofTypeValue tlv.SignatureValue v)); resetWire
  end.

(** The octets of the elements in front of the first one of the type. *)
Fixpoint size_before (type : Z) (els : list Block.t) : Z :=
  match els with
  | [] => 0
  | x :: els => if Block.type x =? type then 0 else Block.m_size x + size_before type els
  end.

(** [ndn-cxx/data.cpp:321-333] Data::extractSignedRanges
    The one range of octets it returns. *)
Definition extractSignedRanges : M t bytes :=
  _ ← wireEncode;
  d ← self;
  mret (take (Z.to_nat (size_before tlv.SignatureValue (Block.elements (m_wire d)))) (Block.value (m_wire d))).

(** [ndn-cxx/data.cpp:335-343] Data::setContentType *)
Definition setContentType (type : Z) : M t unit :=
  d ← self;
  if negb (type =? MetaInfo.m_type (m_metaInfo d))
  then _ ← zoom m_metaInfo with_metaInfo (MetaInfo.setType type); resetWire
  else mret tt.

(** [ndn-cxx/data.cpp:345-353] Data::setFreshnessPeriod *)
Definition setFreshnessPeriod (freshnessPeriod : Z) : M t unit :=
  d ← self;
  if negb (freshnessPeriod =? MetaInfo.m_freshnessPeriod (m_metaInfo d))
  then _ ← zoom m_metaInfo with_metaInfo (MetaInfo.setFreshnessPeriod freshnessPeriod); resetWire
  else mret tt.

(** [ndn-cxx/data.cpp:355-363] Data::setFinalBlock *)
Definition setFinalBlock (finalBlockId : option Component.t) : M t unit :=
  d ← self;
  if negb (SignatureInfo.option_eqb Component.equals finalBlockId (MetaInfo.m_finalBlockId (m_metaInfo d)))
  then _ ← zoom m_metaInfo with_metaInfo (MetaInfo.setFinalBlock finalBlockId); resetWire
  else mret tt.

(** [ndn-cxx/data.cpp:365-373] operator==(const Data&, const Data&) *)
Definition eqb (lhs rhs : t) : result bool :=
  if negb (Name.equals (m_name lhs) (m_name rhs)) then Ok false
  else
    bl ← snd (MetaInfo.wireEncode (m_metaInfo lhs));
    br ← snd (MetaInfo.wireEncode (m_metaInfo rhs));
    Ok (Block.eqb bl br && Block.eqb (m_content lhs) (m_content rhs) &&
        SignatureInfo.eqb (m_signatureInfo lhs) (m_signatureInfo rhs) &&
        Block.eqb (m_signatureValue lhs) (m_signatureValue rhs)).

Section full_name.
Variable sha256 : bytes -> bytes.

(** [ndn-cxx/data.cpp:206-218] Data::getFullName *)
Definition getFullName : M t Name.t :=
  d ← self;
  if Name.isEmpty (m_fullName d) then
    if negb (Block.hasWire (m_wire d))
    then throwM (PacketError "Cannot compute full name because Data has no wire encoding (not signed)")
    else
      _ ← modify (fun d => with_fullName (m_name d) d);
      w ← liftR (Block.wire (m_wire d));
      n ← liftR (Name.appendImplicitSha256Digest (sha256 w) (m_name d));
      _ ← modify (with_fullName n);
      mret n
  else mret (m_fullName d).

End full_name.

End Data.

(** ** Lemmas *)

Module DataFacts.
Import FieldFacts.

Definition content_ok (d : Data.t) : Prop :=
  if Data.hasContent d then block_ok (Data.m_content d) /\ Block.type (Data.m_content d) = tlv.Content
  else Data.m_content d = Block.empty.

(** A Data packet ready to be encoded, but for the signature value. *)
Definition unsigned_ok (d : Data.t) : Prop :=
  types_ok (Data.m_name d) /\ meta_ok (Data.m_metaInfo d) /\ content_ok d /\ sig_ok (Data.m_signatureInfo d).

Definition data_ok (d : Data.t) : Prop :=
  unsigned_ok d /\ block_ok (Data.m_signatureValue d) /\ Block.type (Data.m_signatureValue d) = tlv.SignatureValue.

(** The elements of the signed portion, and of the packet. *)
Definition signed_seq (d : Data.t) : list (Z * bytes) :=
  [(tlv.Name, NameFacts.value (Data.m_name d));
   (tlv.MetaInfo, BlockFacts.tlv_seq (meta_seq (Data.m_metaInfo d)))] ++
  olist (if Data.hasContent d then Some (tv (Data.m_content d)) else None) ++
  [(tlv.SignatureInfo, BlockFacts.tlv_seq (sig_seq (Data.m_signatureInfo d)))].

Definition data_seq (d : Data.t) : list (Z * bytes) := signed_seq d ++ [tv (Data.m_signatureValue d)].

Lemma EncSeq_data_body only d info :
  (only = false -> block_ok (Data.m_signatureValue d)) -> unsigned_ok d ->
  EncSeq info [(tlv.SignatureInfo, BlockFacts.tlv_seq (sig_seq (Data.m_signatureInfo d)))] ->
  EncSeq (pWhen (negb only) (encoding.prependBlock (Data.m_signatureValue d)) ;+
    info ;+ pWhen (Data.hasContent d) (encoding.prependBlock (Data.m_content d)) ;+
    MetaInfo.wireEncode_template (Data.m_metaInfo d) ;+ Name.wireEncode_template (Data.m_name d))
   (signed_seq d ++ olist (if negb only then Some (tv (Data.m_signatureValue d)) else None)).
Proof.
  intros Hv (Hn & Hm & Hc & Hs) Hi. unfold signed_seq. change ([?x; ?y] ++ ?l) with ([x] ++ [y] ++ l).
  apply EncSeq_then.
  - destruct only; [apply EncSeq_none|]. apply EncSeq_guard, EncSeq_block. by apply Hv.
  - rewrite !(assoc_L (++)). apply EncSeq_then; [done|]. rewrite <- !(assoc_L (++)), (assoc_L (++) [_] [_]). apply EncSeq_then.
    + unfold content_ok in Hc. destruct (Data.hasContent d); [|apply EncSeq_none]. apply EncSeq_block, Hc.
    + apply EncSeq_then; [by apply EncSeq_meta|apply EncSeq_name].
Qed.

Lemma EncSeq_data d : data_ok d -> exists f, Data.wireEncode_template false d = Ok f /\
  EncSeq f [(tlv.Data, BlockFacts.tlv_seq (data_seq d))].
Proof.
  intros (Hu & Hv & Hvt). pose proof Hu as (_ & _ & _ & Hs). unfold Data.wireEncode_template.
  assert (SignatureInfo.isSet (Data.m_signatureInfo d) = true) as Hset.
  { unfold SignatureInfo.isSet. destruct Hs as [Ht _]. by rewrite (proj2 (Z.eqb_neq _ (-1))) by lia. }
  rewrite Hset. cbn [negb andb throw_if mbind result_bind].
  destruct (EncSeq_sig SignatureInfo.TData _ Hs) as (info & -> & Hi). cbn [mbind result_bind].
  eexists. split; [done|]. apply EncSeq_TL. by apply (EncSeq_data_body false).
Qed.

Lemma EncSeq_data_unsigned d : unsigned_ok d -> exists f, Data.wireEncode_template true d = Ok f /\
  EncSeq f (signed_seq d).
Proof.
  intros Hu. pose proof Hu as (_ & _ & _ & Hs). unfold Data.wireEncode_template.
  cbn [negb andb throw_if mbind result_bind].
  destruct (EncSeq_sig SignatureInfo.TData _ Hs) as (info & -> & Hi). cbn [mbind result_bind].
  eexists. split; [done|]. rewrite <- (app_nil_r (signed_seq d)). by apply (EncSeq_data_body true).
Qed.

Lemma data_seq_types d : data_ok d -> Forall (fun x => is_tlv_type x.1) (data_seq d).
Proof.
  intros ((_ & _ & Hc & _) & Hv & _). unfold data_seq, signed_seq. rewrite !Forall_app. unfold content_ok in Hc.
  split_and!.
  - constructor; [by vm_compute|]. constructor; [by vm_compute|constructor].
  - destruct (Data.hasContent d); [|constructor]. constructor; [apply Hc|constructor].
  - constructor; [by vm_compute|constructor].
  - constructor; [apply Hv|constructor].
Qed.

(** The packet after decoding: the same content, with wires. *)
Definition data_norm (d : Data.t) : Data.t :=
  Data.mk (NameFacts.of_tlvs (NameFacts.tlvs (Data.m_name d)))
    (MetaInfo.mk (MetaInfo.m_type (Data.m_metaInfo d)) (MetaInfo.m_freshnessPeriod (Data.m_metaInfo d))
       ((fun c => Block.of_tlv (Block.type c) (Block.value c)) <$> MetaInfo.m_finalBlockId (Data.m_metaInfo d))
       (BlockFacts.of_pair <$> (tv <$> MetaInfo.m_appMetaInfo (Data.m_metaInfo d)))
       (parsed_block tlv.MetaInfo (meta_seq (Data.m_metaInfo d))))
    (if Data.hasContent d then BlockFacts.of_pair (tv (Data.m_content d)) else Block.empty)
    (sig_norm SignatureInfo.TData (Data.m_signatureInfo d))
    (BlockFacts.of_pair (tv (Data.m_signatureValue d)))
    (parsed_block tlv.Data (data_seq d)) (Name.clear Name.empty).

Lemma nameWireDecode_pair n n0 : types_ok n -> is_u64 (len (NameFacts.value n)) ->
  nameWireDecode (BlockFacts.of_pair (tlv.Name, NameFacts.value n)) n0 =
  (NameFacts.of_tlvs (NameFacts.tlvs n), Ok tt).
Proof.
  intros Ht Hl. destruct (name_decode_pair n Ht Hl) as [_ D]. unfold nameWireDecode, Name.decode in *.
  unfold Name.wireDecode in *. change (Block.type _) with tlv.Name in *. rewrite Z.eqb_refl in *. cbn [negb] in *.
  destruct (Block.parse _) as [b [e|]]; [done|]. by injection D as ->.
Qed.

Lemma zoom_ok {S T A} (get : S -> T) (set : T -> S -> S) (m : M T A) s t a :
  m (get s) = (t, Ok a) -> zoom get set m s = (set t s, Ok a).
Proof. intros H. unfold zoom. by rewrite H. Qed.

(** The loop over the elements of a well-formed packet behind its name. *)
Lemma data_decode_elements d d0 : data_ok d -> is_u64 (len (BlockFacts.tlv_seq (data_seq d))) ->
  Data.m_metaInfo d0 = MetaInfo.init -> Data.m_content d0 = Block.empty ->
  Data.decode_elements 1 (BlockFacts.of_pair <$> drop 1 (data_seq d)) d0 =
  (Data.mk (Data.m_name d0) (Data.m_metaInfo (data_norm d)) (Data.m_content (data_norm d))
     (Data.m_signatureInfo (data_norm d)) (Data.m_signatureValue (data_norm d)) (Data.m_wire d0) (Data.m_fullName d0), Ok tt).
Proof.
  intros ((Hn & Hm & Hc & Hs) & Hv & Hvt) Hl Em Ec.
  assert (Hin : forall x, x ∈ data_seq d -> is_u64 (len x.2)) by (intros x Hx; by eapply nested_len).
  unfold data_seq, signed_seq in *. cbn [app drop] in *. rewrite fmap_cons.
  cbn [Data.decode_elements]. change (Block.type (BlockFacts.of_pair (tlv.MetaInfo, _))) with tlv.MetaInfo.
  rewrite Z.eqb_refl. rewrite bindM_pass by done.
  rewrite (bindM_ok _ _ _ (Data.with_metaInfo (Data.m_metaInfo (data_norm d)) d0) tt).
  2: { apply zoom_ok. rewrite Em. apply (meta_decode _ MetaInfo.init Hm).
       apply (Hin (tlv.MetaInfo, _)). right. left. }
  set (d1 := Data.with_metaInfo _ d0).
  assert (Hcont : exists last, last < 4 /\ forall rest,
    Data.decode_elements 2 (BlockFacts.of_pair <$> (olist (if Data.hasContent d then Some (tv (Data.m_content d)) else None) ++ rest)) d1 =
    Data.decode_elements last (BlockFacts.of_pair <$> rest) (Data.with_content (Data.m_content (data_norm d)) d1)).
  { unfold content_ok, data_norm in *. cbn [Data.m_content]. destruct (Data.hasContent d).
    - exists 3. split; [done|]. intros rest. cbn [olist app]. rewrite fmap_cons. cbn [Data.decode_elements].
      change (Block.type (BlockFacts.of_pair (tv (Data.m_content d)))) with (Block.type (Data.m_content d)).
      rewrite (proj2 Hc). change (tlv.Content =? tlv.MetaInfo) with false. rewrite Z.eqb_refl.
      rewrite bindM_pass by done. by rewrite bindM_modify.
    - exists 2. split; [done|]. intros rest. cbn [olist app]. f_equal. subst d1. destruct d0. cbn in *. by rewrite Ec. }
  destruct Hcont as (last & Hlast & Hcont). rewrite <- (assoc_L (++)), Hcont. cbn [app fmap list_fmap].
  cbn [Data.decode_elements]. change (Block.type (BlockFacts.of_pair (tlv.SignatureInfo, _))) with tlv.SignatureInfo.
  change (tlv.SignatureInfo =? tlv.MetaInfo) with false. change (tlv.SignatureInfo =? tlv.Content) with false.
  rewrite Z.eqb_refl. rewrite bindM_pass by (apply Z.leb_gt; lia).
  erewrite bindM_ok.
  2: { apply zoom_ok. apply (sig_decode SignatureInfo.TData _ _ Hs). apply (Hin (tlv.SignatureInfo, _)).
       rewrite <- (assoc_L (++)). do 2 right. apply elem_of_app. right. left. }
  change (Block.type (BlockFacts.of_pair (tv (Data.m_signatureValue d)))) with (Block.type (Data.m_signatureValue d)).
  rewrite Hvt. reflexivity.
Qed.

(** Decoding an encoded packet, into any object. *)
Lemma data_decode d d0 : data_ok d -> is_u64 (len (BlockFacts.tlv_seq (data_seq d))) ->
  Data.wireDecode (seq_block tlv.Data (data_seq d)) d0 = (data_norm d, Ok tt).
Proof.
  intros Hd Hl. pose proof (tlv_seq_ok _ (data_seq_types d Hd) Hl) as Hok.
  pose proof Hd as ((Hn & _ & _ & Hs) & _ & Hvt). unfold Data.wireDecode.
  rewrite bindM_pass by done. erewrite bindM_ok by (by apply assignParsed_seq). rewrite bindM_self.
  change (Block.elements _) with (BlockFacts.of_pair <$> data_seq d).
  change (data_seq d) with ((tlv.Name, NameFacts.value (Data.m_name d)) :: drop 1 (data_seq d)) at 1. rewrite fmap_cons.
  rewrite bindM_pass by done.
  erewrite bindM_ok.
  2: { apply zoom_ok. apply nameWireDecode_pair; [done|]. apply (nested_len (data_seq d) (tlv.Name, _)); [left|done]. }
  rewrite !bindM_modify. erewrite bindM_ok by (apply data_decode_elements; done).
  rewrite bindM_self. cbn [Data.m_signatureInfo Data.m_signatureValue data_norm].
  rewrite bindM_pass.
  2: { unfold SignatureInfo.isSet. cbn [SignatureInfo.m_type sig_norm]. destruct Hs as [Ht _].
       by rewrite (proj2 (Z.eqb_neq _ (-1))) by lia. }
  assert (Block.isValid (BlockFacts.of_pair (tv (Data.m_signatureValue d))) = true) as ->.
  { unfold Block.isValid. change (Block.m_type _) with (Block.type (Data.m_signatureValue d)). by rewrite Hvt. }
  reflexivity.
Qed.

End DataFacts.

Module DataTheorems.
Import FieldFacts DataFacts.

(** Equality of everything but the cached wires. *)
Definition same_data (d d' : Data.t) : Prop :=
  Name.equals (Data.m_name d) (Data.m_name d') = true /\
  MetaInfo.m_type (Data.m_metaInfo d) = MetaInfo.m_type (Data.m_metaInfo d') /\
  MetaInfo.m_freshnessPeriod (Data.m_metaInfo d) = MetaInfo.m_freshnessPeriod (Data.m_metaInfo d') /\
  ComponentFacts.key <$> MetaInfo.m_finalBlockId (Data.m_metaInfo d) =
    ComponentFacts.key <$> MetaInfo.m_finalBlockId (Data.m_metaInfo d') /\
  tv <$> MetaInfo.m_appMetaInfo (Data.m_metaInfo d) = tv <$> MetaInfo.m_appMetaInfo (Data.m_metaInfo d') /\
  Data.hasContent d = Data.hasContent d' /\ Block.eqb (Data.m_content d) (Data.m_content d') = true /\
  SignatureInfo.eqb (Data.m_signatureInfo d) (Data.m_signatureInfo d') = true /\
  Block.eqb (Data.m_signatureValue d) (Data.m_signatureValue d') = true.

Lemma same_data_norm d : data_ok d -> same_data d (data_norm d).
Proof.
  intros ((Hn & Hm & Hc & Hs) & Hv & Hvt). unfold same_data, data_norm.
  cbn [Data.m_name Data.m_metaInfo Data.m_content Data.m_signatureInfo Data.m_signatureValue MetaInfo.m_type
       MetaInfo.m_freshnessPeriod MetaInfo.m_finalBlockId MetaInfo.m_appMetaInfo].
  split_and!; [|done|done| | | | |by apply sig_eqb_norm|apply eqb_pair].
  - rewrite NameFacts.nequals_spec. apply bool_decide_eq_true. by rewrite NameFacts.keys_of_tlvs.
  - by destruct (MetaInfo.m_finalBlockId _).
  - by rewrite tv_of_pairs.
  - unfold Data.hasContent at 2. cbn [Data.m_content]. unfold content_ok in Hc.
    destruct (Data.hasContent d) eqn:E; [|done]. unfold Block.isValid.
    change (Block.m_type (BlockFacts.of_pair (tv (Data.m_content d)))) with (Block.type (Data.m_content d)). by rewrite (proj2 Hc).
  - unfold content_ok in Hc. destruct (Data.hasContent d); [apply eqb_pair|]. by rewrite Hc.
Qed.

Lemma data_norm_hasWire d : Block.hasWire (Data.m_wire (data_norm d)) = true /\
  Block.wire (Data.m_wire (data_norm d)) = Ok (tlv_bytes tlv.Data (BlockFacts.tlv_seq (data_seq d))).
Proof.
  pose proof (ComponentFacts.wire_of_tlv tlv.Data (BlockFacts.tlv_seq (data_seq d))) as HW. revert HW.
  unfold Block.wire, Block.hasWire, data_norm, parsed_block, seq_block. cbn [Data.m_wire Block.m_buf].
  destruct (Block.m_buf _) as [[[|x w] v]|]; done.
Qed.

Lemma data_wireEncode d : data_ok d -> is_u64 (len (BlockFacts.tlv_seq (data_seq d))) ->
  Block.hasWire (Data.m_wire d) = false ->
  Data.wireEncode d = (data_norm d, Ok (Data.m_wire (data_norm d))).
Proof.
  intros Hd Hl Hw. destruct (EncSeq_data d Hd) as (f & Hf & Ef). unfold Data.wireEncode. rewrite bindM_self, Hw.
  rewrite (bindM_lift _ _ _ _ Hf).
  erewrite bindM_lift by (apply makeBlock_seq; [exact Ef|by vm_compute|done]).
  erewrite bindM_ok by (by apply data_decode). done.
Qed.

(** C1: a signed Data packet survives its wire format: encoding gives one
    Data element with the elements of the specification in order; the object
    keeps its content; decoding the octets, into any object, gives an equal
    packet; and encoding again returns the cached element. *)
Theorem data_wire_roundtrip (d d0 : Data.t) (Hd : data_ok d)
    (Hl : is_u64 (len (BlockFacts.tlv_seq (data_seq d)))) (Hw : Block.hasWire (Data.m_wire d) = false) :
  exists d' b, Data.wireEncode d = (d', Ok b) /\ same_data d d' /\
    Block.wire b = Ok (tlv_bytes tlv.Data (BlockFacts.tlv_seq (data_seq d))) /\
    Data.wireEncode d' = (d', Ok b) /\
    exists w, Block.fromSpan (tlv_bytes tlv.Data (BlockFacts.tlv_seq (data_seq d))) = Ok w /\
      Data.wireDecode w d0 = (d', Ok tt).
Proof.
  destruct (data_norm_hasWire d) as [W1 W2].
  exists (data_norm d), (Data.m_wire (data_norm d)). split_and!.
  - by apply data_wireEncode.
  - by apply same_data_norm.
  - done.
  - unfold Data.wireEncode. by rewrite bindM_self, W1.
  - exists (seq_block tlv.Data (data_seq d)). split; [apply BlockFacts.fromSpan_of_tlv; [by vm_compute|done]|].
    by apply data_decode.
Qed.

(** A packet for the witnesses. *)
Definition sample_data : Data.t :=
  Data.mk (Name.append (Block.ofTypeValue 8 (str "A")) Name.empty)
    (MetaInfo.mk 0 1000 None [] Block.empty) (Block.ofTypeValue tlv.Content (str "hi"))
    (SignatureInfo.make 0 None) (Block.ofTypeValue tlv.SignatureValue (str "sig")) Block.empty Name.empty.

Lemma sample_data_ok : data_ok sample_data.
Proof.
  split; [split; [|split; [|split]]|split].
  - constructor; [by vm_compute|constructor].
  - split; [by vm_compute|]. split; [by vm_compute|]. split; [done|constructor].
  - split; [apply block_ok_of_value; split; by vm_compute|reflexivity].
  - split; [by vm_compute|]. split; [done|constructor].
  - apply block_ok_of_value; split; by vm_compute.
  - reflexivity.
Qed.

Lemma data_wire_roundtrip_witness :
  exists d' b, Data.wireEncode sample_data = (d', Ok b) /\ same_data sample_data d' /\
    exists w, Block.wire b = Ok w /\ len w = 27.
Proof.
  destruct (data_wire_roundtrip sample_data sample_data) as (d' & b & H1 & H2 & H3 & _).
  - apply sample_data_ok.
  - by vm_compute.
  - reflexivity.
  - exists d', b. split; [exact H1|]. split; [exact H2|]. eexists. split; [exact H3|]. by vm_compute.
Defined.

Lemma size_before_seq l k ty : Forall (fun x => x.1 <> ty) l ->
  Data.size_before ty (BlockFacts.of_pair <$> (l ++ (ty, k) :: [])) = len (BlockFacts.tlv_seq l).
Proof.
  intros Hl. induction Hl as [|[t v] l Hx _ IH].
  - cbn. by rewrite Z.eqb_refl.
  - cbn [app]. rewrite fmap_cons. cbn [Data.size_before]. change (Block.type (BlockFacts.of_pair (t, v))) with t.
    rewrite (proj2 (Z.eqb_neq t ty)) by done. rewrite IH.
    change ((t, v) :: l) with ([(t, v)] ++ l). rewrite tlv_seq_app, len_app, tlv_seq_one. done.
Qed.

Lemma signed_seq_types d : content_ok d -> Forall (fun x => x.1 <> tlv.SignatureValue) (signed_seq d).
Proof.
  intros Hc. unfold signed_seq, content_ok in *. rewrite !Forall_app. split_and!; [|destruct (Data.hasContent d)|];
    repeat constructor; try done. simpl. change (Block.m_type (Data.m_content d)) with (Block.type (Data.m_content d)).
  by rewrite (proj2 Hc).
Qed.

(** The packet with its signature value, as [setSignatureValue] leaves it. *)
Definition signed_with (d : Data.t) (signature : bytes) : Data.t :=
  Data.with_fullName (Name.clear (Data.m_fullName d))
    (Data.with_wire Block.empty (Data.with_signatureValue (Block.ofTypeValue tlv.SignatureValue signature) d)).

Lemma data_signed (d : Data.t) (signature : bytes) (e0 : Encoder.t)
    (Hd : unsigned_ok d) (He : Encoder.wf e0) (Hv : Encoder.view e0 = [])
    (Hl : is_u64 (len (BlockFacts.tlv_seq (signed_seq d ++ [(tlv.SignatureValue, signature)])))) :
  let d2 := data_norm (signed_with d signature) in
  exists f, Data.wireEncode_template true d = Ok f /\
    Data.wireEncodeSigned (fst (f Encoder.t _ e0)) signature d = (d2, Ok (Data.m_wire d2)) /\
    Data.wireEncode (signed_with d signature) = (d2, Ok (Data.m_wire d2)) /\
    Data.extractSignedRanges d2 = (d2, Ok (Encoder.view (fst (f Encoder.t _ e0)))).
Proof.
  destruct (EncSeq_data_unsigned d Hd) as (f & Hf & Ef).
  cbv zeta. set (d1 := signed_with d signature).
  assert (Hl' : is_u64 (len signature)).
  { apply (nested_len _ (tlv.SignatureValue, signature)) in Hl; [done|]. apply elem_of_app. right. left. }
  assert (Hd1 : data_ok d1).
  { split; [exact Hd|]. split; [apply block_ok_of_value; split; [by vm_compute|done]|done]. }
  assert (Hseq : data_seq d1 = signed_seq d ++ [(tlv.SignatureValue, signature)]) by done.
  exists f.
  pose proof (Ef Encoder.t _ _ e0 He) as HE. destruct (f Encoder.t _ e0) as [e1 n1]. destruct HE as (W1 & (V1 & _) & _).
  rewrite Hv, app_nil_r in V1. cbn [fst]. split; [done|]. split; [|split].
  - unfold Data.wireEncodeSigned.
    destruct (Encoder_appendVarNumber_law tlv.SignatureValue e1 W1) as (W2 & V2 & N2).
    destruct (Encoder.appendVarNumber tlv.SignatureValue e1) as [e2 n2]. cbn [fst snd] in *.
    destruct (Encoder_appendVarNumber_law (len signature) e2 W2) as (W3 & V3 & N3).
    destruct (Encoder.appendVarNumber (len signature) e2) as [e3 n3]. cbn [fst snd] in *.
    destruct (Encoder_appendBytes_law signature e3 W3) as (W4 & V4 & N4).
    destruct (Encoder.appendBytes signature e3) as [e4 n4]. cbn [fst snd] in *.
    assert (Vall : Encoder.view e4 = BlockFacts.tlv_seq (data_seq d1)).
    { rewrite V4, V3, V2, V1, Hseq, tlv_seq_app, tlv_seq_one. unfold tlv_bytes. by rewrite !(assoc_L (++)). }
    assert (Htot : Encoder.size e1 + n2 + n3 + n4 = len (BlockFacts.tlv_seq (data_seq d1))).
    { rewrite <- Vall, V4, V3, V2, !len_app, N2, N3, N4. unfold Encoder.size, Encoder.view, len.
      rewrite length_take, length_drop. destruct W1. lia. }
    rewrite Htot. pose proof (Encoder_prependVarNumber_law (len (BlockFacts.tlv_seq (data_seq d1))) e4 W4) as H5.
    destruct (Encoder.prependVarNumber _ e4) as [e5 n5]. destruct H5 as (W5 & (V5 & _) & _).
    pose proof (Encoder_prependVarNumber_law tlv.Data e5 W5) as H6.
    destruct (Encoder.prependVarNumber tlv.Data e5) as [e6 n6]. destruct H6 as (W6 & (V6 & _) & _).
    erewrite bindM_lift.
    2: { apply (Encoder_block_view e6 tlv.Data (BlockFacts.tlv_seq (data_seq d1)) W6);
           [by rewrite V6, V5, Vall|by vm_compute|by rewrite Hseq]. }
    erewrite bindM_ok by (apply data_decode; [exact Hd1|by rewrite Hseq]). done.
  - apply data_wireEncode; [done|by rewrite Hseq|done].
  - unfold Data.extractSignedRanges. destruct (data_norm_hasWire d1) as [Hw1 _].
    erewrite bindM_ok.
    2: { unfold Data.wireEncode. rewrite bindM_self, Hw1. done. }
    rewrite bindM_self. change (Block.elements (Data.m_wire (data_norm d1))) with (BlockFacts.of_pair <$> data_seq d1).
    rewrite Hseq. rewrite size_before_seq by (apply signed_seq_types, Hd).
    change (Block.value (Data.m_wire (data_norm d1))) with (BlockFacts.tlv_seq (data_seq d1)).
    rewrite Hseq, tlv_seq_app, to_nat_len, take_app_length, V1. done.
Qed.

(** C22: the two ways of signing agree, and the signature covers what the
    packet says it does: encoding the unsigned portion, signing those octets
    and appending the signature makes the same packet and the same element as
    setting the signature value and encoding; and the signed range extracted
    from the packet is exactly the octets of the unsigned portion. *)
Theorem data_signing (d : Data.t) (signature : bytes) (e0 : Encoder.t)
    (Hd : unsigned_ok d) (He : Encoder.wf e0) (Hv : Encoder.view e0 = []) (Hw : Block.hasWire (Data.m_wire d) = false)
    (Hl : is_u64 (len (BlockFacts.tlv_seq (signed_seq d ++ [(tlv.SignatureValue, signature)])))) :
  exists f e1 d1 d2 b, Data.wireEncode_template true d = Ok f /\ fst (f Encoder.t _ e0) = e1 /\
    Data.wireEncodeSigned e1 signature d = (d2, Ok b) /\
    Data.setSignatureValue (Some signature) d = (d1, Ok tt) /\ Data.wireEncode d1 = (d2, Ok b) /\
    Data.extractSignedRanges d2 = (d2, Ok (Encoder.view e1)).
Proof.
  destruct (data_signed d signature e0 Hd He Hv Hl) as (f & Hf & H1 & H2 & H3).
  exists f, (fst (f Encoder.t _ e0)), (signed_with d signature). eexists _, _. split; [exact Hf|]. split; [done|]. split; [exact H1|].
  split; [done|]. split; [exact H2|exact H3].
Qed.

Lemma data_signing_witness :
  exists f e1 d2 b, Data.wireEncode_template true sample_data = Ok f /\ fst (f Encoder.t _ (Encoder.make 100 20)) = e1 /\
    Data.wireEncodeSigned e1 (str "signature") sample_data = (d2, Ok b) /\
    Data.extractSignedRanges d2 = (d2, Ok (Encoder.view e1)).
Proof.
  destruct (data_signing sample_data (str "signature") (Encoder.make 100 20)) as (f & e1 & d1 & d2 & b & H1 & H2 & H3 & _ & _ & H4).
  - apply (proj1 sample_data_ok).
  - vm_compute. lia.
  - reflexivity.
  - reflexivity.
  - by vm_compute.
  - exists f, e1, d2, b. split; [exact H1|]. split; [exact H2|]. split; [exact H3|exact H4].
Defined.

(** The recognised elements behind the name, in the order of the specification. *)
Definition recognised (ty : Z) : Prop := tlv.MetaInfo <= ty <= tlv.SignatureValue.

(** What the loop accepts, from the index of the last recognised element on. *)
Definition accepted (last : Z) (els : list Block.t) (d d' : Data.t) : Prop :=
  StronglySorted Z.lt (base.filter recognised (Block.type <$> els)) /\
  Forall (fun ty => recognised ty -> 18 + last < ty) (Block.type <$> els) /\
  Forall (fun ty => recognised ty \/ tlv.isCriticalType ty = false) (Block.type <$> els) /\
  (tlv.SignatureInfo ∈ Block.type <$> els \/ Data.m_signatureInfo d' = Data.m_signatureInfo d) /\
  (tlv.SignatureValue ∈ Block.type <$> els \/ Data.m_signatureValue d' = Data.m_signatureValue d) /\
  Data.m_wire d' = Data.m_wire d.

Lemma accepted_cons x els next last d d1 d' : last < next -> 18 + next = Block.type x -> 2 <= next <= 5 ->
  accepted next els d1 d' -> Data.m_wire d1 = Data.m_wire d ->
  (Block.type x = tlv.SignatureInfo \/ Data.m_signatureInfo d1 = Data.m_signatureInfo d) ->
  (Block.type x = tlv.SignatureValue \/ Data.m_signatureValue d1 = Data.m_signatureValue d) ->
  accepted last (x :: els) d d'.
Proof.
  intros Hlt Hx Hn (S1 & S2 & S3 & S4 & S5 & S6) Hw Hi Hv. unfold accepted.
  assert (Hr : recognised (Block.type x)) by (rewrite <- Hx; unfold recognised, tlv.MetaInfo, tlv.SignatureValue; lia).
  rewrite !fmap_cons, filter_cons, decide_True by done. split_and!.
  - constructor; [done|]. rewrite Forall_forall in S2 |- *. intros ty Hty. apply list_elem_of_In in Hty.
    apply list_elem_of_filter in Hty as [Hy Hin]. rewrite <- Hx. apply S2; [by apply list_elem_of_In|done].
  - constructor; [lia|]. eapply Forall_impl; [|exact S2]. cbn. intros ty Hty Hrec. specialize (Hty Hrec). lia.
  - constructor; [by left|done].
  - destruct Hi as [->|<-]; [left; left|]. destruct S4; [left; by right|by right].
  - destruct Hv as [->|<-]; [left; left|]. destruct S5; [left; by right|by right].
  - congruence.
Qed.

Lemma accepted_skip x els last d d' : tlv.isCriticalType (Block.type x) = false -> ~ recognised (Block.type x) ->
  accepted last els d d' -> accepted last (x :: els) d d'.
Proof.
  intros Hc Hr (S1 & S2 & S3 & S4 & S5 & S6). unfold accepted. rewrite !fmap_cons, filter_cons, decide_False by done.
  split_and!; [done| | | | |done].
  - constructor; [tauto|done].
  - constructor; [by right|done].
  - destruct S4; [left; by right|by right].
  - destruct S5; [left; by right|by right].
Qed.

Lemma decode_elements_inv els : forall last d d',
  Data.decode_elements last els d = (d', Ok tt) -> accepted last els d d'.
Proof.
  induction els as [|x els IH]; intros last d d'.
  { cbn. intros [= <-]. unfold accepted. split_and!; [constructor..|by right|by right|done]. }
  cbn [Data.decode_elements]. set (ty := Block.type x) in *. unfold mbind, M_bind, throwM_if, liftR, throw_if.
  destruct (Z.eqb_spec ty tlv.MetaInfo) as [E|E].
  { destruct (Z.leb_spec 2 last); [done|]. unfold zoom. destruct (MetaInfo.wireDecode x _) as [m [[]|]]; [|done].
    intros H'%IH. eapply (accepted_cons x els 2); eauto; lia. }
  destruct (Z.eqb_spec ty tlv.Content) as [E1|E1].
  { destruct (Z.leb_spec 3 last); [done|]. unfold modify.
    intros H'%IH. eapply (accepted_cons x els 3); eauto; lia. }
  destruct (Z.eqb_spec ty tlv.SignatureInfo) as [E2|E2].
  { destruct (Z.leb_spec 4 last); [done|]. unfold zoom. destruct (SignatureInfo.wireDecode x _ _) as [m [[]|]]; [|done].
    intros H'%IH. eapply (accepted_cons x els 4); eauto; lia. }
  destruct (Z.eqb_spec ty tlv.SignatureValue) as [E3|E3].
  { destruct (Z.leb_spec 5 last); [done|]. unfold modify.
    intros H'%IH. eapply (accepted_cons x els 5); eauto; lia. }
  destruct (tlv.isCriticalType ty) eqn:Ecrit; [done|]. intros H'%IH. apply accepted_skip; [done| |done].
  fold ty. unfold recognised, tlv.MetaInfo, tlv.Content, tlv.SignatureInfo, tlv.SignatureValue in *. lia.
Qed.

(** C31: the decoder accepts only what the packet format allows: if decoding
    succeeds, the element is a Data whose first sub-element is the name, the
    recognised sub-elements behind it come in the order MetaInfo, Content,
    SignatureInfo, SignatureValue with none repeated, the last two are there,
    and every other sub-element has a non-critical type. *)
Theorem data_decode_grammar (wire : Block.t) (d d' : Data.t)
    (H : Data.wireDecode wire d = (d', Ok tt)) :
  Block.type wire = tlv.Data /\ exists name rest,
    Block.elements (Data.m_wire d') = name :: rest /\ Block.type name = tlv.Name /\
    StronglySorted Z.lt (base.filter recognised (Block.type <$> rest)) /\
    tlv.SignatureInfo ∈ Block.type <$> rest /\ tlv.SignatureValue ∈ Block.type <$> rest /\
    Forall (fun ty => recognised ty \/ tlv.isCriticalType ty = false) (Block.type <$> rest).
Proof.
  revert H. unfold Data.wireDecode. destruct (Z.eqb_spec (Block.type wire) tlv.Data) as [Ht|]; [|done].
  rewrite bindM_pass by done. unfold assignParsed at 1. unfold mbind at 1, M_bind at 1.
  destruct (Block.parse wire) as [b [e|]]; [done|]. rewrite bindM_self.
  change (Block.elements (Data.m_wire (Data.with_wire b d))) with (Block.elements b).
  destruct (Block.elements b) as [|name rest] eqn:Eb; [done|].
  destruct (Z.eqb_spec (Block.type name) tlv.Name) as [Hn|]; [|done]. rewrite bindM_pass by done.
  unfold zoom. unfold mbind at 1, M_bind at 1. destruct (nameWireDecode name _) as [n' [[]|]]; [|done].
  rewrite !bindM_modify. set (d2 := Data.with_fullName _ _). unfold mbind at 1, M_bind at 1.
  destruct (Data.decode_elements 1 rest d2) as [d3 [[]|]] eqn:ED; [|done]. rewrite bindM_self.
  destruct (SignatureInfo.isSet (Data.m_signatureInfo d3)) eqn:Esi; [|done]. rewrite bindM_pass by done.
  destruct (Block.isValid (Data.m_signatureValue d3)) eqn:Esv; [|done].
  intros [= ->]. split; [done|]. apply decode_elements_inv in ED as (S1 & _ & S3 & S4 & S5 & S6).
  exists name, rest. rewrite S6. split_and!; [done|done|done| | |done].
  - destruct S4 as [|E]; [done|]. by rewrite E in Esi.
  - destruct S5 as [|E]; [done|]. by rewrite E in Esv.
Qed.

Lemma data_decode_grammar_witness :
  exists w d', Block.fromSpan (tlv_bytes tlv.Data (BlockFacts.tlv_seq (data_seq sample_data))) = Ok w /\
    Data.wireDecode w (Data.ofName Name.empty) = (d', Ok tt) /\ Block.type w = tlv.Data.
Proof.
  destruct (Block.fromSpan (tlv_bytes tlv.Data (BlockFacts.tlv_seq (data_seq sample_data)))) as [w|e] eqn:E;
    [|vm_compute in E; discriminate E].
  destruct (Data.wireDecode w (Data.ofName Name.empty)) as [d' [[]|e]] eqn:E2.
  - exists w, d'. split; [reflexivity|]. split; [exact E2|]. apply (data_decode_grammar w (Data.ofName Name.empty) d' E2).
  - vm_compute in E. injection E as <-. vm_compute in E2. discriminate E2.
Defined.

End DataTheorems.
