(* ===== verification/InterestPacket.v ===== *)
(** Interest packets: [ndn-cxx/interest.hpp] and [interest.cpp].

    Parameters of the model: [sha256], the digest of OpenSSL; [autoCheck], the
    process-wide setting [s_autoCheckParametersDigest]; and the nonces that
    the random generator delivers, which are arguments of the operations that
    draw one.  Times are counts of milliseconds. *)

From S2P Require Import Prelude Tlv Encoding Blocks BlockHelpers Text NameComponents Names Fields DataPacket.

Module Interest.

(** [ndn-cxx/interest.hpp:44-44] DEFAULT_INTEREST_LIFETIME *)
Definition DEFAULT_INTEREST_LIFETIME : Z := 4000.

(** [ndn-cxx/encoding/tlv.hpp:93-93] tlv::LinkDelegation *)
Definition LinkDelegation : Z := 31.

(** [ndn-cxx/interest.hpp:491-511] Interest *)
Record t := mk {
  m_name : Name.t;
  m_forwardingHint : list Name.t;
  m_nonce : option bytes;
  m_interestLifetime : Z;
  m_hopLimit : option byte;
  m_canBePrefix : bool;
  m_mustBeFresh : bool;
  m_parameters : list Block.t;
  m_wire : Block.t;
}.

Definition with_name x i := mk x (m_forwardingHint i) (m_nonce i) (m_interestLifetime i) (m_hopLimit i) (m_canBePrefix i) (m_mustBeFresh i) (m_parameters i) (m_wire i).
Definition with_hint x i := mk (m_name i) x (m_nonce i) (m_interestLifetime i) (m_hopLimit i) (m_canBePrefix i) (m_mustBeFresh i) (m_parameters i) (m_wire i).
Definition with_nonce x i := mk (m_name i) (m_forwardingHint i) x (m_interestLifetime i) (m_hopLimit i) (m_canBePrefix i) (m_mustBeFresh i) (m_parameters i) (m_wire i).
Definition with_lifetime x i := mk (m_name i) (m_forwardingHint i) (m_nonce i) x (m_hopLimit i) (m_canBePrefix i) (m_mustBeFresh i) (m_parameters i) (m_wire i).
Definition with_hopLimit x i := mk (m_name i) (m_forwardingHint i) (m_nonce i) (m_interestLifetime i) x (m_canBePrefix i) (m_mustBeFresh i) (m_parameters i) (m_wire i).
Definition with_canBePrefix x i := mk (m_name i) (m_forwardingHint i) (m_nonce i) (m_interestLifetime i) (m_hopLimit i) x (m_mustBeFresh i) (m_parameters i) (m_wire i).
Definition with_mustBeFresh x i := mk (m_name i) (m_forwardingHint i) (m_nonce i) (m_interestLifetime i) (m_hopLimit i) (m_canBePrefix i) x (m_parameters i) (m_wire i).
Definition with_parameters x i := mk (m_name i) (m_forwardingHint i) (m_nonce i) (m_interestLifetime i) (m_hopLimit i) (m_canBePrefix i) (m_mustBeFresh i) x (m_wire i).
Definition with_wire x i := mk (m_name i) (m_forwardingHint i) (m_nonce i) (m_interestLifetime i) (m_hopLimit i) (m_canBePrefix i) (m_mustBeFresh i) (m_parameters i) x.

(** [m_wire.reset();] *)
Definition resetWire : M t unit := modify (with_wire Block.empty).

(** The fields before the body of a constructor runs. *)
Definition init : t := mk Name.empty [] None DEFAULT_INTEREST_LIFETIME None false false [] Block.empty.

(** [ndn-cxx/interest.hpp:309-313] Interest::hasApplicationParameters *)
Definition hasApplicationParameters (i : t) : bool := negb (len (m_parameters i) =? 0).

(** [ndn-cxx/interest.cpp:739-745] Interest::findParametersDigestComponent (the loop) *)
Fixpoint findDigest_loop (pos i : Z) (l : list Component.t) : Z :=
  match l with
  | [] => pos
  | c :: l =>
      if Component.isParametersSha256Digest c
      then if negb (pos =? -1) then -2 else findDigest_loop i (i + 1) l
      else findDigest_loop pos (i + 1) l
  end.

(** [ndn-cxx/interest.cpp:735-747] Interest::findParametersDigestComponent *)
Definition findParametersDigestComponent (name : Name.t) : Z := findDigest_loop (-1) 0 (Name.components name).

(** [ndn-cxx/interest.cpp:749-755] Interest::findFirstParameter
    The index, the length of the list standing for [end()]. *)
Fixpoint find_index (type : Z) (l : list Block.t) : nat :=
  match l with
  | [] => O
  | b :: l => if Block.type b =? type then O else S (find_index type l)
  end.

(** [ndn-cxx/interest.cpp:749-755] Interest::findFirstParameter *)
Definition findFirstParameter (type : Z) (i : t) : option Block.t :=
  m_parameters i !! find_index type (m_parameters i).

(** [ndn-cxx/interest.cpp:79-87] Interest::wireEncode (the sanity check) *)
Definition check_digest (i : t) : result unit :=
  let digestIndex := findParametersDigestComponent (m_name i) in
  if digestIndex =? -1
  then throw_if (hasApplicationParameters i)
         (PacketError "Interest with parameters must have a ParametersSha256DigestComponent")
  else throw_if (negb (hasApplicationParameters i))
         (PacketError "Interest without parameters must not have a ParametersSha256DigestComponent").

(** [ndn-cxx/interest.cpp:89-133] Interest::wireEncode(EncodingImpl&) (the elements)
    The nonce is there when this runs. *)
Definition wireEncode_template (i : t) : prepender :=
  pTL tlv.Interest
    (pReversed encoding.prependBlock (m_parameters i) ;+
     match m_hopLimit i with Some h => encoding.prependBinaryBlock tlv.HopLimit [h] | None => pNone end ;+
     pWhen (negb (m_interestLifetime i =? DEFAULT_INTEREST_LIFETIME))
       (encoding.prependNonNegativeIntegerBlock tlv.InterestLifetime (u64 (m_interestLifetime i))) ;+
     encoding.prependBinaryBlock tlv.Nonce (default [] (m_nonce i)) ;+
     pWhen (negb (len (m_forwardingHint i) =? 0))
       (encoding.prependNestedBlocks tlv.ForwardingHint (m_forwardingHint i)) ;+
     pWhen (m_mustBeFresh i) (encoding.prependEmptyBlock tlv.MustBeFresh) ;+
     pWhen (m_canBePrefix i) (encoding.prependEmptyBlock tlv.CanBePrefix) ;+
     Name.wireEncode_template (m_name i)).

(** [ndn-cxx/interest.cpp:406-414] Interest::getNonce
    [fresh] is what the generator delivers if it is asked. *)
Definition getNonce (fresh : bytes) : M t bytes :=
  i ← self;
  match m_nonce i with
  | Some n => mret n
  | None =>
      _ ← modify (with_nonce (Some fresh));
      _ ← resetWire;
      mret fresh
  end.

(** [ndn-cxx/interest.cpp:416-424] Interest::setNonce *)
Definition setNonce (nonce : option bytes) : M t unit :=
  i ← self;
  if negb (bool_decide (nonce = m_nonce i)) then _ ← modify (with_nonce nonce); resetWire else mret tt.

(** [ndn-cxx/interest.cpp:433-434] Interest::refreshNonce (the loop, over the nonces drawn)
    [None] when the draws run out. *)
Fixpoint draw_other (old : bytes) (draws : list bytes) : option bytes :=
  match draws with
  | [] => None
  | n :: draws => if bool_decide (n = old) then draw_other old draws else Some n
  end.

(** [ndn-cxx/interest.cpp:426-437] Interest::refreshNonce
    [None] is a loop that has not ended within the draws. *)
Definition refreshNonce (draws : list bytes) (i : t) : option t :=
  match m_nonce i with
  | None => Some i
  | Some old => n ← draw_other old draws; Some (with_wire Block.empty (with_nonce (Some n) i))
  end.

(** [ndn-cxx/interest.cpp:439-451] Interest::setInterestLifetime *)
Definition setInterestLifetime (lifetime : Z) : M t unit :=
  _ ← throwM_if (lifetime <? 0) (InvalidArgument "InterestLifetime must be >= 0");
  i ← self;
  if negb (lifetime =? m_interestLifetime i) then _ ← modify (with_lifetime lifetime); resetWire else mret tt.

(** [ndn-cxx/interest.cpp:453-461] Interest::setHopLimit *)
Definition setHopLimit (hopLimit : option byte) : M t unit :=
  i ← self;
  if negb (bool_decide (hopLimit = m_hopLimit i)) then _ ← modify (with_hopLimit hopLimit); resetWire else mret tt.

(** [ndn-cxx/interest.hpp:215-221] Interest::setCanBePrefix *)
Definition setCanBePrefix (canBePrefix : bool) : M t unit := _ ← modify (with_canBePrefix canBePrefix); resetWire.

(** [ndn-cxx/interest.hpp:234-240] Interest::setMustBeFresh *)
Definition setMustBeFresh (mustBeFresh : bool) : M t unit := _ ← modify (with_mustBeFresh mustBeFresh); resetWire.

(** [ndn-cxx/interest.cpp:389-395] Interest::setForwardingHint *)
Definition setForwardingHint (value : list Name.t) : M t unit := _ ← modify (with_hint value); resetWire.

(** [ndn-cxx/interest.cpp:463-474] Interest::setApplicationParametersInternal *)
Definition setApplicationParametersInternal (parameters : Block.t) : M t unit :=
  let parameters := Block.encode parameters in
  modify (fun i => with_parameters
    (match m_parameters i with [] => [parameters] | _ :: rest => parameters :: rest end) i).

(** [ndn-cxx/interest.cpp:230-255] Interest::wireDecode (the names of the forwarding hint) *)
Fixpoint decode_hint (delegations : list Block.t) : M t unit :=
  match delegations with
  | [] => mret tt
  | del :: rest =>
      let add (r : result Name.t) (what : string) : M t unit :=
        match r with
        | Ok n => modify (fun i => with_hint (m_forwardingHint i ++ [n]) i)
        | Throw e => throwM (if is_tlv_error e then PacketError what else e)
        end in
      if Block.type del =? tlv.Name then
        _ ← add (Name.ofBlock del) "Invalid Name in ForwardingHint";
        decode_hint rest
      else if Block.type del =? LinkDelegation then
        _ ← add (b ← Block.parsed del; n ← Block.get tlv.Name b; Name.ofBlock n) "Invalid Name in ForwardingHint.Delegation";
        decode_hint rest
      else
        _ ← throwM_if (tlv.isCriticalType (Block.type del)) (PacketError "Unexpected TLV-TYPE while decoding ForwardingHint");
        decode_hint rest
  end.

(** [ndn-cxx/interest.cpp:197-312] Interest::wireDecode (the loop) *)
Fixpoint decode_elements (lastElement : Z) (elements : list Block.t) : M t unit :=
  match elements with
  | [] => mret tt
  | element :: rest =>
      let ty := Block.type element in
      if ty =? tlv.CanBePrefix then
        _ ← throwM_if (2 <=? lastElement) (PacketError "CanBePrefix element is out of order");
        _ ← throwM_if (negb (Block.value_size element =? 0)) (PacketError "CanBePrefix element has non-zero TLV-LENGTH");
        _ ← modify (with_canBePrefix true);
        decode_elements 2 rest
      else if ty =? tlv.MustBeFresh then
        _ ← throwM_if (3 <=? lastElement) (PacketError "MustBeFresh element is out of order");
        _ ← throwM_if (negb (Block.value_size element =? 0)) (PacketError "MustBeFresh element has non-zero TLV-LENGTH");
        _ ← modify (with_mustBeFresh true);
        decode_elements 3 rest
      else if ty =? tlv.ForwardingHint then
        _ ← throwM_if (4 <=? lastElement) (PacketError "ForwardingHint element is out of order");
        b ← liftR (Block.parsed element);
        _ ← decode_hint (Block.elements b);
        decode_elements 4 rest
      else if ty =? tlv.Nonce then
        _ ← throwM_if (5 <=? lastElement) (PacketError "Nonce element is out of order");
        _ ← throwM_if (negb (Block.value_size element =? 4)) (PacketError "Nonce element is malformed");
        _ ← modify (with_nonce (Some (Block.value element)));
        decode_elements 5 rest
      else if ty =? tlv.InterestLifetime then
        _ ← throwM_if (6 <=? lastElement) (PacketError "InterestLifetime element is out of order");
        n ← liftR (encoding.readNonNegativeInteger element);
        _ ← modify (with_lifetime (i64 n));
        decode_elements 6 rest
      else if ty =? tlv.HopLimit then
        if 7 <=? lastElement then decode_elements lastElement rest
        else
          _ ← throwM_if (negb (Block.value_size element =? 1)) (PacketError "HopLimit element is malformed");
          _ ← modify (with_hopLimit (head (Block.value element)));
          decode_elements 7 rest
      else if ty =? tlv.ApplicationParameters then
        if 8 <=? lastElement then decode_elements lastElement rest
        else
          _ ← modify (fun i => with_parameters (m_parameters i ++ [element]) i);
          decode_elements 8 rest
      else
        _ ← throwM_if (tlv.isCriticalType ty) (PacketError "Unrecognized element of critical type");
        _ ← modify (fun i => if hasApplicationParameters i then with_parameters (m_parameters i ++ [element]) i else i);
        decode_elements lastElement rest
  end.

(** [ndn-cxx/interest.cpp:592-600] Interest::getSignatureValue *)
Definition getSignatureValue (i : t) : Block.t :=
  default Block.empty (findFirstParameter tlv.InterestSignatureValue i).

(** [ndn-cxx/interest.cpp:548-556] Interest::getSignatureInfo *)
Definition getSignatureInfo (i : t) : result (option SignatureInfo.t) :=
  match findFirstParameter tlv.InterestSignatureInfo i with
  | Some b => s ← SignatureInfo.ofBlock b SignatureInfo.TInterest; Ok (Some s)
  | None => Ok None
  end.

(** [ndn-cxx/interest.cpp:538-546] Interest::isSigned
    The function is [noexcept]: a [Throw] here ends the process. *)
Definition isSigned (i : t) : result bool :=
  if negb (3 <=? len (m_parameters i)) then Ok false
  else
    s ← getSignatureInfo i;
    match s with
    | None => Ok false
    | Some _ =>
        Ok (Block.isValid (getSignatureValue i) && negb (Name.isEmpty (m_name i)) &&
            match Name.get (-1) (m_name i) with
            | Some c => Block.type c =? tlv.ParametersSha256DigestComponent
            | None => false
            end)
    end.

(** [ndn-cxx/interest.cpp:526-536] Interest::unsetApplicationParameters *)
Definition unsetApplicationParameters : M t unit :=
  _ ← modify (with_parameters []);
  i ← self;
  let digestIndex := findParametersDigestComponent (m_name i) in
  _ ← (if 0 <=? digestIndex
       then modify (fun i => with_name (default (m_name i) (Name.erase digestIndex (m_name i))) i)
       else mret tt);
  resetWire.

(** [ndn-cxx/interest.cpp:361-367] Interest::matchesInterest *)
Definition matchesInterest (i other : t) : bool :=
  Name.equals (m_name i) (m_name other) && Bool.eqb (m_canBePrefix i) (m_canBePrefix other) &&
  Bool.eqb (m_mustBeFresh i) (m_mustBeFresh other).

Section digest.
Variable sha256 : bytes -> bytes.

(** [ndn-cxx/interest.cpp:698-713] Interest::computeParametersDigest *)
Definition computeParametersDigest (i : t) : result bytes :=
  ws ← mapR Block.wire (m_parameters i);
  Ok (sha256 (mjoin ws)).

(** [ndn-cxx/interest.cpp:677-696] Interest::isParametersDigestValid *)
Definition isParametersDigestValid (i : t) : result bool :=
  let digestIndex := findParametersDigestComponent (m_name i) in
  if digestIndex =? -1 then Ok (negb (hasApplicationParameters i))
  else if negb (hasApplicationParameters i) then Ok false
  else
    match Name.get digestIndex (m_name i) with
    | Some digestComponent =>
        digest ← computeParametersDigest i;
        Ok (bool_decide (Block.value digestComponent = digest))
    | None => Throw (RuntimeError "undefined behaviour")
    end.

(** [ndn-cxx/interest.cpp:715-733] Interest::addOrReplaceParametersDigestComponent *)
Definition addOrReplaceParametersDigestComponent : M t unit :=
  i ← self;
  let digestIndex := findParametersDigestComponent (m_name i) in
  digest ← liftR (computeParametersDigest i);
  digestComponent ← liftR (Component.createFromBuffer ComponentType.getComponentType2 digest);
  if digestIndex =? -1
  then modify (fun i => with_name (Name.append digestComponent (m_name i)) i)
  else modify (fun i => with_name (default (m_name i) (Name.set digestIndex digestComponent (m_name i))) i).

(** [ndn-cxx/interest.cpp:154-317] Interest::wireDecode *)
Definition wireDecode (autoCheck : bool) (wire : Block.t) : M t unit :=
  _ ← throwM_if (negb (Block.type wire =? tlv.Interest)) (PacketError "Interest");
  _ ← assignParsed with_wire wire;
  i ← self;
  match Block.elements (m_wire i) with
  | [] => throwM (PacketError "Name element is missing or out of order")
  | element :: rest =>
      _ ← throwM_if (negb (Block.type element =? tlv.Name)) (PacketError "Name element is missing or out of order");
      tempName ← liftR (Name.ofBlock element);
      _ ← throwM_if (Name.isEmpty tempName) (PacketError "Name has zero name components");
      _ ← throwM_if (findParametersDigestComponent tempName =? -2)
            (PacketError "Name has more than one ParametersSha256DigestComponent");
      _ ← modify (fun i => mk tempName [] None DEFAULT_INTEREST_LIFETIME None false false [] (m_wire i));
      _ ← decode_elements 1 rest;
      i ← self;
      if autoCheck then
        ok ← liftR (isParametersDigestValid i);
        throwM_if (negb ok)
          (PacketError "ParametersSha256DigestComponent does not match the SHA-256 of Interest parameters")
      else mret tt
  end.

(** [ndn-cxx/interest.cpp:56-59] Interest::Interest(const Block&) *)
Definition ofBlock (autoCheck : bool) (wire : Block.t) : result t := exec (wireDecode autoCheck wire) init.

(** [ndn-cxx/interest.cpp:138-152] Interest::wireEncode *)
Definition wireEncode (autoCheck : bool) (fresh : bytes) : M t Block.t :=
  i ← self;
  if Block.hasWire (m_wire i) then mret (m_wire i)
  else
    _ ← liftR (check_digest i);
    _ ← getNonce fresh;
    i ← self;
    b ← liftR (makeBlock (wireEncode_template i));
    _ ← wireDecode autoCheck b;
    i ← self;
    mret (m_wire i).

(** [ndn-cxx/interest.cpp:642-673] Interest::extractSignedRanges
    After encoding, the components of the name, and the parameters, follow each
    other in one buffer, so the range between two of them is their wires. *)
Definition extractSignedRanges (autoCheck : bool) (fresh : bytes) : M t (list bytes) :=
  _ ← wireEncode autoCheck fresh;
  i ← self;
  match Name.get (-1) (m_name i) with
  | None => throwM (RuntimeError "undefined behaviour")
  | Some digest =>
      _ ← throwM_if (negb (Block.type digest =? tlv.ParametersSha256DigestComponent))
            (PacketError "Interest Name must end with a ParametersSha256DigestComponent");
      name ← liftR (mapR Block.wire (take (Z.to_nat (Name.size (m_name i) - 1)) (Name.components (m_name i))));
      _ ← throwM_if (match findFirstParameter tlv.InterestSignatureInfo i with None => true | Some _ => false end)
            (PacketError "Interest missing InterestSignatureInfo");
      parameters ← liftR (mapR Block.wire (take (find_index tlv.InterestSignatureValue (m_parameters i)) (m_parameters i)));
      mret [mjoin name; mjoin parameters]
  end.

(** [ndn-cxx/interest.cpp:371-387] Interest::setName *)
Definition setName (name : Name.t) : M t unit :=
  _ ← throwM_if (findParametersDigestComponent name =? -2)
        (InvalidArgument "Name cannot have more than one ParametersSha256DigestComponent");
  i ← self;
  if negb (Name.equals name (m_name i)) then
    _ ← modify (with_name name);
    i ← self;
    _ ← (if hasApplicationParameters i then addOrReplaceParametersDigestComponent else mret tt);
    resetWire
  else mret tt.

(** [ndn-cxx/interest.cpp:46-54] Interest::Interest(const Name&, time::milliseconds)
    [canBePrefix] is [s_defaultCanBePrefix], [None] if indeterminate. *)
Definition ofName (canBePrefix : option bool) (name : Name.t) (lifetime : Z) : result t :=
  exec (_ ← setName name;
        _ ← setInterestLifetime lifetime;
        match canBePrefix with Some b => setCanBePrefix b | None => mret tt end) init.

(** [ndn-cxx/interest.cpp:476-492] Interest::setApplicationParameters(const Block&) *)
Definition setApplicationParametersBlock (parameters : Block.t) : M t unit :=
  _ ← throwM_if (negb (Block.isValid parameters)) (InvalidArgument "ApplicationParameters block must be valid");
  b ← (if Block.type parameters =? tlv.ApplicationParameters then mret parameters
       else liftR (Block.ofTypeBlock tlv.ApplicationParameters parameters));
  _ ← setApplicationParametersInternal b;
  _ ← addOrReplaceParametersDigestComponent;
  resetWire.

(** [ndn-cxx/interest.cpp:494-501] Interest::setApplicationParameters(span<const uint8_t>) *)
Definition setApplicationParameters (value : bytes) : M t unit :=
  b ← liftR (encoding.makeBinaryBlock tlv.ApplicationParameters value);
  _ ← setApplicationParametersInternal b;
  _ ← addOrReplaceParametersDigestComponent;
  resetWire.

(** [ndn-cxx/interest.cpp:503-511] Interest::setApplicationParameters(const uint8_t*, size_t)
    [None] is the null pointer. *)
Definition setApplicationParametersPtr (value : option bytes) (length : Z) : M t unit :=
  _ ← throwM_if (match value with None => negb (length =? 0) | Some _ => false end)
        (InvalidArgument "ApplicationParameters buffer cannot be nullptr");
  setApplicationParameters (take (Z.to_nat length) (default [] value)).

(** [ndn-cxx/interest.cpp:513-524] Interest::setApplicationParameters(ConstBufferPtr) *)
Definition setApplicationParametersBuffer (value : option bytes) : M t unit :=
  match value with
  | None => throwM (InvalidArgument "ApplicationParameters buffer cannot be nullptr")
  | Some v =>
      _ ← setApplicationParametersInternal (Block.ofTypeValue tlv.ApplicationParameters v);
      _ ← addOrReplaceParametersDigestComponent;
      resetWire
  end.

(** [ndn-cxx/interest.cpp:558-590] Interest::setSignatureInfo *)
Definition setSignatureInfo (info : SignatureInfo.t) : M t unit :=
  i ← self;
  _ ← (match m_parameters i with
       | [] => b ← liftR (encoding.makeEmptyBlock tlv.ApplicationParameters); modify (with_parameters [b])
       | _ => mret tt
       end);
  encodedInfo ← liftR (snd (SignatureInfo.wireEncode SignatureInfo.TInterest info));
  i ← self;
  let params := m_parameters i in
  let at_ := find_index tlv.InterestSignatureInfo params in
  match params !! at_ with
  | Some old =>
      if Block.eqb old encodedInfo then mret tt
      else
        _ ← modify (with_parameters (<[at_ := encodedInfo]> params));
        _ ← addOrReplaceParametersDigestComponent;
        resetWire
  | None =>
      let valueAt := find_index tlv.InterestSignatureValue params in
      _ ← modify (with_parameters (take valueAt params ++ encodedInfo :: drop valueAt params));
      _ ← addOrReplaceParametersDigestComponent;
      resetWire
  end.

(** [ndn-cxx/interest.cpp:602-640] Interest::setSignatureValue *)
Definition setSignatureValue (value : option bytes) : M t unit :=
  match value with
  | None => throwM (InvalidArgument "InterestSignatureValue buffer cannot be nullptr")
  | Some v =>
      i ← self;
      let params := m_parameters i in
      let infoAt := find_index tlv.InterestSignatureInfo params in
      _ ← throwM_if (length params <=? infoAt)%nat
            (PacketError "InterestSignatureInfo must be present to set InterestSignatureValue");
      let valueBlock := Block.ofTypeValue tlv.InterestSignatureValue v in
      let valueAt := find_index tlv.InterestSignatureValue params in
      match params !! valueAt with
      | Some old =>
          if Block.eqb old valueBlock then mret tt
          else
            _ ← modify (with_parameters (<[valueAt := Block.encode valueBlock]> params));
            _ ← addOrReplaceParametersDigestComponent;
            resetWire
      | None =>
          _ ← modify (with_parameters (take (S infoAt) params ++ Block.encode valueBlock :: drop (S infoAt) params));
          _ ← addOrReplaceParametersDigestComponent;
          resetWire
      end
  end.

(** [ndn-cxx/interest.cpp:329-359] Interest::matchesData
    [getFullName] updates the cache of the packet. *)
Definition matchesData (i : t) : M Data.t bool :=
  data ← self;
  let dataName := Data.m_name data in
  let fullNameLength := Name.size dataName + 1 in
  let fresh := negb (m_mustBeFresh i && (MetaInfo.m_freshnessPeriod (Data.m_metaInfo data) <=? 0)) in
  if Name.size (m_name i) =? fullNameLength then
    match Name.get (-1) (m_name i) with
    | Some c =>
        if Component.isImplicitSha256Digest c then
          fullName ← Data.getFullName sha256;
          if negb (Name.equals (m_name i) fullName) then mret false else mret fresh
        else mret false
    | None => throwM (RuntimeError "undefined behaviour")
    end
  else if (if m_canBePrefix i then negb (Name.isPrefixOf (m_name i) dataName)
           else negb (Name.equals (m_name i) dataName))
  then mret false
  else mret fresh.

End digest.

End Interest.

(** ** Lemmas *)

Module InterestFacts.
Import FieldFacts.

Definition is_digest (c : Component.t) : Prop := Component.isParametersSha256Digest c = true.

Lemma is_digest_spec c : is_digest c <-> Block.type c = tlv.ParametersSha256DigestComponent /\ len (Block.value c) = 32.
Proof.
  unfold is_digest, Component.isParametersSha256Digest. simpl. rewrite andb_true_iff, !Z.eqb_eq.
  unfold Block.value_size. done.
Qed.

(** *** The parameters digest in a name *)

Lemma findDigest_none l : forall pos i, Forall (fun c => ~ is_digest c) l -> Interest.findDigest_loop pos i l = pos.
Proof.
  induction l as [|c l IH]; intros pos i H; [done|]. inversion H as [|? ? Hc Hl]; subst. cbn [Interest.findDigest_loop].
  unfold is_digest in Hc. destruct (Component.isParametersSha256Digest c); [done|]. by apply IH.
Qed.

(** A second digest component is an error, whatever follows. *)
Lemma findDigest_found l : forall pos i, 0 <= pos -> 
  (Forall (fun c => ~ is_digest c) l /\ Interest.findDigest_loop pos i l = pos) \/ Interest.findDigest_loop pos i l = -2.
Proof.
  induction l as [|c l IH]; intros pos i Hp; [by left|]. cbn [Interest.findDigest_loop].
  destruct (Component.isParametersSha256Digest c) eqn:E.
  - right. by rewrite (proj2 (Z.eqb_neq pos (-1))) by lia.
  - destruct (IH pos (i + 1) Hp) as [[H1 H2]|H]; [left|by right].
    split; [constructor; [unfold is_digest; by rewrite E|done]|done].
Qed.

Inductive digest_at (n : Name.t) : Z -> Prop :=
| digest_absent : Forall (fun c => ~ is_digest c) (Name.components n) -> digest_at n (-1)
| digest_one pre c post : Name.components n = pre ++ c :: post -> is_digest c ->
    Forall (fun c => ~ is_digest c) pre -> Forall (fun c => ~ is_digest c) post -> digest_at n (len pre)
| digest_many : digest_at n (-2).

Lemma findDigest_split l : forall i, 0 <= i ->
  Forall (fun c => ~ is_digest c) l \/ Interest.findDigest_loop (-1) i l = -2 \/
  exists pre c post, l = pre ++ c :: post /\ is_digest c /\ Forall (fun c => ~ is_digest c) pre /\
    Forall (fun c => ~ is_digest c) post /\ Interest.findDigest_loop (-1) i l = i + len pre.
Proof.
  induction l as [|c l IH]; intros i Hi; [by left|]. cbn [Interest.findDigest_loop].
  destruct (Component.isParametersSha256Digest c) eqn:E; cbn [negb Z.eqb].
  - right. change (-1 =? -1) with true. cbn [negb].
    destruct (findDigest_found l i (i + 1) Hi) as [[H1 H2]|H]; [right|by left].
    exists [], c, l. rewrite H2, len_nil, Z.add_0_r. by split_and!.
  - assert (Hc : ~ is_digest c) by (unfold is_digest; by rewrite E).
    destruct (IH (i + 1)) as [H|[H|(pre & d & post & -> & H1 & H2 & H3 & H4)]]; [lia|left; by constructor|by right; left|].
    right. right. exists (c :: pre), d, post. rewrite len_cons, H4. split_and!; [done|done|by constructor|done|lia].
Qed.

Lemma find_digest n : digest_at n (Interest.findParametersDigestComponent n).
Proof.
  unfold Interest.findParametersDigestComponent.
  destruct (findDigest_split (Name.components n) 0) as [H|[H|(pre & c & post & E & H1 & H2 & H3 & H4)]]; [lia| | |].
  - rewrite findDigest_none by done. by constructor.
  - rewrite H. constructor.
  - rewrite H4. change (0 + len pre) with (len pre). by econstructor.
Qed.

Lemma find_digest_equals n m : Name.equals n m = true ->
  Interest.findParametersDigestComponent n = Interest.findParametersDigestComponent m.
Proof.
  rewrite NameFacts.nequals_spec, bool_decide_eq_true. unfold NameFacts.keys, Interest.findParametersDigestComponent.
  generalize (-1) as pos, 0 as i. generalize (Name.components m) as l'. induction (Name.components n) as [|c l IH].
  - intros [|] pos i; [done|discriminate].
  - intros [|d l'] pos i; [discriminate|]. rewrite !fmap_cons. intros [= Hty Hsz Hv Hl]. cbn [Interest.findDigest_loop].
    replace (Component.isParametersSha256Digest d) with (Component.isParametersSha256Digest c)
      by (unfold Component.isParametersSha256Digest; simpl; unfold Block.value_size in *; congruence).
    repeat case_match; eauto.
Qed.

Lemma find_absent n : Forall (fun c => ~ is_digest c) (Name.components n) ->
  Interest.findParametersDigestComponent n = -1.
Proof. apply findDigest_none. Qed.

Lemma find_one n pre c post : Name.components n = pre ++ c :: post -> is_digest c ->
  Forall (fun c => ~ is_digest c) pre -> Forall (fun c => ~ is_digest c) post ->
  Interest.findParametersDigestComponent n = len pre.
Proof.
  intros E Hc Hpre Hpost. unfold Interest.findParametersDigestComponent. rewrite E. clear E.
  change (len pre) with (0 + len pre). generalize 0 at 1 2 as i. induction Hpre as [|d pre Hd _ IH]; intros i.
  - cbn [app Interest.findDigest_loop]. unfold is_digest in Hc. rewrite Hc. change (-1 =? -1) with true. cbn [negb].
    rewrite findDigest_none by done. rewrite len_nil. lia.
  - cbn [app Interest.findDigest_loop]. unfold is_digest in Hd. destruct (Component.isParametersSha256Digest d); [done|].
    rewrite IH, len_cons. lia.
Qed.

Lemma get_at n pre c post : Name.components n = pre ++ c :: post -> Name.get (len pre) n = Some c.
Proof.
  intros E. change (len pre) with (Z.of_nat (length pre)). rewrite NameFacts.get_nat, E. by apply list_lookup_middle.
Qed.

Lemma set_at n pre c post d : Name.components n = pre ++ c :: post ->
  exists n', Name.set (len pre) d n = Some n' /\ Name.components n' = pre ++ d :: post.
Proof.
  intros E. unfold Name.set. rewrite (proj2 (Z.ltb_ge (len pre) 0)) by apply len_nonneg.
  rewrite (proj2 (Z.ltb_ge (len pre) 0)) by apply len_nonneg. cbn [orb].
  rewrite NameFacts.size_len, E, len_app, len_cons. rewrite (proj2 (Z.leb_gt _ _)) by (pose proof (len_nonneg post); lia).
  eexists. split; [done|]. unfold Name.components in *. cbn. rewrite to_nat_len.
  change (Block.m_elements (Name.m_wire n)) with (Block.elements (Name.m_wire n)). rewrite E.
  by rewrite insert_app_r_alt, Nat.sub_diag by done.
Qed.

Lemma erase_at n pre c post : Name.components n = pre ++ c :: post ->
  exists n', Name.erase (len pre) n = Some n' /\ Name.components n' = pre ++ post.
Proof.
  intros E. unfold Name.erase. rewrite (proj2 (Z.ltb_ge (len pre) 0)) by apply len_nonneg.
  rewrite (proj2 (Z.ltb_ge (len pre) 0)) by apply len_nonneg. cbn [orb].
  rewrite NameFacts.size_len, E, len_app, len_cons. rewrite (proj2 (Z.leb_gt _ _)) by (pose proof (len_nonneg post); lia).
  eexists. split; [done|]. unfold Name.components in *. cbn. rewrite to_nat_len.
  change (Block.m_elements (Name.m_wire n)) with (Block.elements (Name.m_wire n)). rewrite E.
  rewrite take_app_length. f_equal. change (c :: post) with ([c] ++ post).
  rewrite (assoc_L (++)), drop_app_length'; [done|]. rewrite length_app. simpl. lia.
Qed.

(** *** The class invariant *)

(** The name has at most one digest component, the parameters are empty or
    begin with ApplicationParameters, all of them have wires (so that the
    digest can be computed), and a nonce has four octets. *)
Definition params_ok (l : list Block.t) : Prop :=
  match l with [] => True | b :: _ => Block.type b = tlv.ApplicationParameters end /\
  Forall (fun b => Block.hasWire b = true) l.

Definition inv (i : Interest.t) : Prop :=
  Interest.findParametersDigestComponent (Interest.m_name i) <> -2 /\
  params_ok (Interest.m_parameters i) /\
  (forall n, Interest.m_nonce i = Some n -> len n = 4).

Lemma inv_intro i i' : inv i -> Interest.m_name i' = Interest.m_name i ->
  Interest.m_parameters i' = Interest.m_parameters i -> Interest.m_nonce i' = Interest.m_nonce i -> inv i'.
Proof. unfold inv. by intros H -> -> ->. Qed.

Lemma inv_init : inv Interest.init.
Proof. split; [done|]. split; [by split|done]. Qed.

Lemma wires_of l : Forall (fun b => Block.hasWire b = true) l ->
  mapR Block.wire l = Ok (BlockFacts.wire_bytes <$> l).
Proof.
  induction 1 as [|b l Hb _ IH]; [done|]. cbn [mapR]. rewrite IH. revert Hb.
  unfold Block.hasWire, Block.wire, BlockFacts.wire_bytes. rewrite fmap_cons.
  by destruct (Block.m_buf b) as [[[|x w] v]|].
Qed.

Lemma encode_hasWire b : Block.hasWire (Block.encode b) = true.
Proof.
  destruct (Block.hasWire b) eqn:E; [unfold Block.encode; by rewrite E|].
  rewrite BlockFacts.encode_spec by done. unfold Block.hasWire. destruct b as [ty buf sz els].
  cbn [BlockFacts.encoded Block.m_buf]. rewrite BlockFacts.encoding_unfold.
  pose proof (tlv_bytes_nonempty ty (BlockFacts.encoded_value (Block.mk ty buf sz els)) []) as Hne.
  rewrite app_nil_r in Hne. cbn [Block.m_type] in *. by destruct (tlv_bytes _ _).
Qed.

Lemma encode_type b : Block.type (Block.encode b) = Block.type b.
Proof.
  destruct (Block.hasWire b) eqn:E; [unfold Block.encode; by rewrite E|].
  rewrite BlockFacts.encode_spec by done. by destruct b.
Qed.

Lemma makeBlock_inv f b : makeBlock f = Ok b -> Block.hasWire b = true /\ Block.elements b = [].
Proof.
  unfold makeBlock, Encoder_block, Block.fromRange. set (r := take _ _).
  destruct (_ =? 0); [done|]. cbn [throw_if mbind result_bind]. destruct (_ || _); [done|].
  cbn [throw_if mbind result_bind]. destruct (tlv.readType r) as [[ty pos]|] eqn:E; [|done].
  cbn [mbind result_bind]. destruct (tlv.readVarNumber pos) as [[k v]|]; [|done]. cbn [mbind result_bind].
  destruct (_ && _); [done|]. intros [= <-]. split; [|done]. unfold Block.hasWire. cbn. by destruct r.
Qed.

Lemma parse_hasWire b b' : Forall (fun x => Block.hasWire x = true) (Block.elements b) -> Block.parse b = (b', None) ->
  Forall (fun x => Block.hasWire x = true) (Block.elements b').
Proof.
  intros Hb. unfold Block.parse. destruct (negb _ || _); [intros; by simplify_eq|].
  destruct (Block.parse_loop _ _ _) as [els [e|]] eqn:E; [done|]. intros; simplify_eq.
  apply BlockFacts.parse_loop_sound in E as (new & -> & Hr & _). cbn.
  eapply Forall_impl; [|exact Hr]. by intros x (_ & _ & ?).
Qed.

Section ops.
Variable sha256 : bytes -> bytes.

Definition digest_of (i : Interest.t) : bytes := sha256 (mjoin (BlockFacts.wire_bytes <$> Interest.m_parameters i)).

Lemma compute_digest i : params_ok (Interest.m_parameters i) ->
  Interest.computeParametersDigest sha256 i = Ok (digest_of i).
Proof. intros [_ H]. unfold Interest.computeParametersDigest. by rewrite (wires_of _ H). Qed.

(** The name with the digest of the parameters in its place. *)
Definition digest_named (i : Interest.t) (n' : Name.t) : Prop := exists pre c post,
  Name.components n' = pre ++ c :: post /\ is_digest c /\ Block.value c = digest_of i /\
  Forall (fun c => ~ is_digest c) pre /\ Forall (fun c => ~ is_digest c) post.

Lemma create_digest v : len v = 32 ->
  Component.createFromBuffer ComponentType.getComponentType2 v =
  Ok (Block.ofTypeValue tlv.ParametersSha256DigestComponent v).
Proof. intros H. apply ComponentFacts.ofBlock_spec. split; [by vm_compute|done]. Qed.

Lemma create_digest_inv v c : Component.createFromBuffer ComponentType.getComponentType2 v = Ok c ->
  c = Block.ofTypeValue tlv.ParametersSha256DigestComponent v /\ len v = 32.
Proof.
  intros H. change (Component.ofBlock (Block.ofTypeValue tlv.ParametersSha256DigestComponent v) = Ok c) in H.
  pose proof (ComponentFacts.ofBlock_inv _ _ H) as [-> [_ Hl]]. split; [done|]. apply Hl. by right.
Qed.

Lemma addOrReplace_run i i' r : inv i ->
  Interest.addOrReplaceParametersDigestComponent sha256 i = (i', r) ->
  (exists n', i' = Interest.with_name n' i /\ r = Ok tt /\ digest_named i n') \/
  (i' = i /\ len (digest_of i) <> 32).
Proof.
  intros (Hn & Hp & _). unfold Interest.addOrReplaceParametersDigestComponent. rewrite bindM_self.
  erewrite bindM_lift by (by apply compute_digest).
  destruct (Component.createFromBuffer _ _) as [c|e] eqn:Ec.
  2: { erewrite bindM_throw by done. intros [= <- <-]. right. split; [done|]. intros Hl.
       by rewrite create_digest in Ec. }
  apply create_digest_inv in Ec as [-> Hl]. erewrite bindM_lift by done. set (c := Block.ofTypeValue _ _).
  assert (Hc : is_digest c) by (apply is_digest_spec; done).
  destruct (find_digest (Interest.m_name i)) as [Ha|pre d post E Hd Hpre Hpost|]; [..|done].
  - rewrite Z.eqb_refl. intros [= <- <-]. left. eexists. split_and!; [done|done|].
    exists (Name.components (Interest.m_name i)), c, []. rewrite NameFacts.components_append. by split_and!.
  - rewrite (proj2 (Z.eqb_neq (len pre) (-1))) by (pose proof (len_nonneg pre); lia).
    destruct (set_at _ _ _ _ c E) as (n' & Hs & En). intros [= <- <-]. rewrite Hs. left. exists n'.
    split_and!; [done|done|]. exists pre, c, post. by split_and!.
Qed.

Lemma digest_named_find i n' : digest_named i n' -> Interest.findParametersDigestComponent n' <> -2.
Proof.
  intros (pre & c & post & E & Hc & _ & H1 & H2). rewrite (find_one _ _ _ _ E Hc H1 H2).
  pose proof (len_nonneg pre). lia.
Qed.

Lemma keeps_addOrReplace : keeps inv (Interest.addOrReplaceParametersDigestComponent sha256).
Proof.
  intros i Hi. destruct (Interest.addOrReplaceParametersDigestComponent sha256 i) as [i' r] eqn:E.
  cut (inv i'); [by destruct r|].
  destruct (addOrReplace_run _ _ _ Hi E) as [(n' & -> & _ & Hn)|[-> _]]; [|done].
  destruct Hi as (_ & Hp & Hq). split; [|done]. by eapply digest_named_find.
Qed.

(** With parameters, the name with their digest makes the check succeed. *)
Lemma digest_named_valid i n' : params_ok (Interest.m_parameters i) -> Interest.m_parameters i <> [] ->
  digest_named i n' -> Interest.isParametersDigestValid sha256 (Interest.with_name n' i) = Ok true.
Proof.
  intros Hp Hne (pre & c & post & E & Hc & Hv & H1 & H2). unfold Interest.isParametersDigestValid.
  cbn [Interest.m_name Interest.with_name]. rewrite (find_one _ _ _ _ E Hc H1 H2).
  rewrite (proj2 (Z.eqb_neq (len pre) (-1))) by (pose proof (len_nonneg pre); lia).
  assert (Interest.hasApplicationParameters (Interest.with_name n' i) = true) as ->.
  { unfold Interest.hasApplicationParameters. cbn. destruct (Interest.m_parameters i); [done|].
    rewrite len_cons. pose proof (len_nonneg l). by rewrite (proj2 (Z.eqb_neq _ 0)) by lia. }
  cbn [negb]. rewrite (get_at _ _ _ _ E). rewrite compute_digest by done. cbn [mbind result_bind].
  rewrite Hv. by rewrite bool_decide_true.
Qed.

(** *** Every operation keeps the invariant *)

Lemma keeps_resetWire : keeps inv Interest.resetWire.
Proof. apply keeps_modify. intros i Hi. by apply (inv_intro i). Qed.
#[local] Hint Resolve keeps_resetWire keeps_addOrReplace : keeps.

(** Writing a field that the invariant does not mention. *)
Lemma keeps_set (g : Interest.t -> Interest.t) : (forall i, Interest.m_name (g i) = Interest.m_name i) ->
  (forall i, Interest.m_parameters (g i) = Interest.m_parameters i) ->
  (forall i, Interest.m_nonce (g i) = Interest.m_nonce i) -> keeps inv (modify g).
Proof. intros H1 H2 H3. apply keeps_modify. intros i Hi. by apply (inv_intro i). Qed.

Lemma keeps_set_reset (g : Interest.t -> Interest.t) : (forall i, Interest.m_name (g i) = Interest.m_name i) ->
  (forall i, Interest.m_parameters (g i) = Interest.m_parameters i) ->
  (forall i, Interest.m_nonce (g i) = Interest.m_nonce i) -> keeps inv (_ ← modify g; Interest.resetWire).
Proof. intros. apply keeps_bind; [by apply keeps_set|]. auto with keeps. Qed.

Lemma keeps_set_nonce n : len n = 4 -> keeps inv (_ ← modify (Interest.with_nonce (Some n)); Interest.resetWire).
Proof.
  intros Hn. apply keeps_bind; [|auto with keeps]. apply keeps_modify. intros i (H1 & H2 & _).
  split; [done|]. split; [done|]. by intros ? [= <-].
Qed.

Lemma keeps_getNonce fresh : len fresh = 4 -> keeps inv (Interest.getNonce fresh).
Proof.
  intros Hf. apply keeps_self. intros o _. destruct (Interest.m_nonce o); [apply keeps_ret|].
  intros i Hi. pose proof (keeps_set_nonce fresh Hf i Hi) as H. revert H. unfold mbind, M_bind, modify, Interest.resetWire. done.
Qed.

Lemma keeps_setNonce n : (forall x, n = Some x -> len x = 4) -> keeps inv (Interest.setNonce n).
Proof.
  intros Hn. apply keeps_self. intros o _. apply keeps_if; intros _; [|apply keeps_ret]. apply keeps_bind; [|auto with keeps].
  apply keeps_modify. intros i (H1 & H2 & _). by split.
Qed.

Lemma keeps_setInterestLifetime l : keeps inv (Interest.setInterestLifetime l).
Proof. apply keeps_throw_if. intros _. apply keeps_self. intros o _. apply keeps_if; intros _; [by apply keeps_set_reset|auto with keeps]. Qed.

Lemma keeps_setHopLimit l : keeps inv (Interest.setHopLimit l).
Proof. apply keeps_self. intros o _. apply keeps_if; intros _; [by apply keeps_set_reset|auto with keeps]. Qed.

(** Writing the parameters. *)
Lemma keeps_params (g : Interest.t -> list Block.t) :
  (forall i, params_ok (Interest.m_parameters i) -> params_ok (g i)) ->
  keeps inv (modify (fun i => Interest.with_parameters (g i) i)).
Proof. intros H. apply keeps_modify. intros i (H1 & H2 & H3). split; [done|]. split; [by apply H|done]. Qed.

Lemma keeps_update (m : M Interest.t unit) : keeps inv m ->
  keeps inv (_ ← m; _ ← Interest.addOrReplaceParametersDigestComponent sha256; Interest.resetWire).
Proof. intros H. apply keeps_bind; [done|]. intros _. apply keeps_bind; auto with keeps. Qed.

Lemma keeps_setApplicationParametersInternal b : Block.type b = tlv.ApplicationParameters ->
  keeps inv (Interest.setApplicationParametersInternal b).
Proof.
  intros Hb. apply (keeps_params (fun i => match Interest.m_parameters i with [] => [Block.encode b] | _ :: rest => Block.encode b :: rest end)).
  intros i [_ Hp]. assert (H1 : Block.hasWire (Block.encode b) = true) by apply encode_hasWire.
  assert (H2 : Block.type (Block.encode b) = tlv.ApplicationParameters) by (by rewrite encode_type).
  destruct (Interest.m_parameters i) as [|x l]; (split; [done|]); [by repeat constructor|].
  inversion Hp; subst. by constructor.
Qed.

(** The three ways of making ApplicationParameters lead to the same steps. *)
Definition setParams (b : Block.t) : M Interest.t unit :=
  _ ← Interest.setApplicationParametersInternal b;
  _ ← Interest.addOrReplaceParametersDigestComponent sha256;
  Interest.resetWire.

Lemma makeBinary_params v : is_u64 (len v) -> exists b,
  encoding.makeBinaryBlock tlv.ApplicationParameters v = Ok b /\ Block.type b = tlv.ApplicationParameters.
Proof.
  intros Hv. exists (Block.of_tlv tlv.ApplicationParameters v). split; [|done].
  apply makeBlock_tlv; [apply Encodes_binaryBlock|by vm_compute|done].
Qed.

Lemma setApplicationParameters_run v i : is_u64 (len v) -> exists b, Block.type b = tlv.ApplicationParameters /\
  Interest.setApplicationParameters sha256 v i = setParams b i.
Proof.
  intros Hv. destruct (makeBinary_params v Hv) as (b & Hb & Ht). exists b. split; [done|].
  unfold Interest.setApplicationParameters. by rewrite (bindM_lift _ _ _ _ Hb).
Qed.

Lemma setApplicationParametersBlock_run b i :
  (exists e, Interest.setApplicationParametersBlock sha256 b i = (i, Throw e) /\
    (Block.isValid b = false \/ Block.type b <> tlv.ApplicationParameters /\ Block.hasWire b = false)) \/
  exists b', Block.type b' = tlv.ApplicationParameters /\
    Interest.setApplicationParametersBlock sha256 b i = setParams b' i.
Proof.
  unfold Interest.setApplicationParametersBlock. destruct (Block.isValid b); [|left; eexists; by split; [|left]].
  rewrite bindM_pass by done. destruct (Z.eqb_spec (Block.type b) tlv.ApplicationParameters); [right; by exists b|].
  destruct (Block.ofTypeBlock tlv.ApplicationParameters b) as [b'|e] eqn:E; revert E;
    unfold Block.ofTypeBlock, Block.wire, Block.hasWire; destruct (Block.m_buf b) as [[[|x w] v]|]; try done.
  - intros [= <-]. right. eexists. split; [|reflexivity]. done.
  - intros _. left. eexists. split; [done|by right].
  - intros _. left. eexists. split; [done|by right].
Qed.

Lemma keeps_setParams b : Block.type b = tlv.ApplicationParameters -> keeps inv (setParams b).
Proof. intros Hb. by apply keeps_update, keeps_setApplicationParametersInternal. Qed.

Lemma keeps_setApplicationParameters v : is_u64 (len v) -> keeps inv (Interest.setApplicationParameters sha256 v).
Proof.
  intros Hv i Hi. destruct (setApplicationParameters_run v i Hv) as (b & Hb & ->). by apply keeps_setParams.
Qed.

Lemma keeps_setApplicationParametersBlock b : keeps inv (Interest.setApplicationParametersBlock sha256 b).
Proof.
  intros i Hi. destruct (setApplicationParametersBlock_run b i) as [(e & -> & _)|(b' & Hb & ->)]; [done|].
  by apply keeps_setParams.
Qed.

Lemma keeps_setName n : keeps inv (Interest.setName sha256 n).
Proof.
  apply keeps_throw_if. intros Hn. apply Z.eqb_neq in Hn. apply keeps_self. intros o _.
  apply keeps_if; intros _; [|apply keeps_ret]. apply keeps_bind; [apply keeps_modify; by intros i (_ & ? & ?)|].
  intros _. apply keeps_self. intros o' _. apply keeps_bind; [|auto with keeps]. apply keeps_if; auto with keeps.
Qed.

Lemma unset_run i : inv i -> exists n', Interest.unsetApplicationParameters i =
  (Interest.with_wire Block.empty (Interest.with_name n' (Interest.with_parameters [] i)), Ok tt) /\
  Forall (fun c => ~ is_digest c) (Name.components n').
Proof.
  intros (Hn & _ & _). unfold Interest.unsetApplicationParameters. rewrite bindM_modify, bindM_self.
  change (Interest.m_name (Interest.with_parameters [] i)) with (Interest.m_name i).
  destruct (find_digest (Interest.m_name i)) as [Ha|pre d post E Hd Hpre Hpost|]; [..|done].
  - exists (Interest.m_name i). split; [by destruct i|done].
  - rewrite (proj2 (Z.leb_le 0 (len pre))) by apply len_nonneg.
    destruct (erase_at _ _ _ _ E) as (n' & He & En). exists n'. rewrite bindM_modify. cbn [Interest.m_name Interest.with_parameters].
    rewrite He. split; [done|]. rewrite En. by apply Forall_app.
Qed.

Lemma keeps_unset : keeps inv Interest.unsetApplicationParameters.
Proof.
  intros i Hi. destruct (unset_run i Hi) as (n' & -> & Hn). destruct Hi as (_ & _ & Hq).
  split; [cbn; by rewrite find_absent|]. split; [by split|done].
Qed.

(** An element of another type does not come in front of ApplicationParameters. *)
Lemma find_index_tail ty l : params_ok l -> l <> [] -> ty <> tlv.ApplicationParameters ->
  exists b l', l = b :: l' /\ Interest.find_index ty l = S (Interest.find_index ty l').
Proof.
  destruct l as [|b l]; [done|]. intros [Hb _] _ Hty. exists b, l. split; [done|]. cbn [Interest.find_index].
  by rewrite Hb, (proj2 (Z.eqb_neq _ _)) by congruence.
Qed.

Lemma params_insert x k b l : params_ok (b :: l) -> Block.hasWire x = true -> params_ok (<[S k := x]> (b :: l)).
Proof.
  intros [Hb Hl] Hx. split; [exact Hb|]. by apply Forall_insert.
Qed.

Lemma params_add x k b l : params_ok (b :: l) -> Block.hasWire x = true ->
  params_ok (take (S k) (b :: l) ++ x :: drop (S k) (b :: l)).
Proof.
  intros [Hb Hl] Hx. split; [exact Hb|]. apply Forall_app. split; [by apply Forall_take|].
  constructor; [done|by apply Forall_drop].
Qed.

Lemma keeps_with_params l : params_ok l -> keeps inv (modify (Interest.with_parameters l)).
Proof. intros Hl. apply keeps_modify. intros i (H1 & _ & H3). by split. Qed.

Lemma sig_wire_hasWire info b : snd (SignatureInfo.wireEncode SignatureInfo.TInterest info) = Ok b ->
  Block.hasWire b = true.
Proof.
  unfold SignatureInfo.wireEncode. rewrite bindM_self. destruct (Block.hasWire _) eqn:E; [by intros [= <-]|].
  destruct (SignatureInfo.wireEncode_template _ info) as [f|]; [|done]. erewrite bindM_lift by done.
  destruct (makeBlock f) as [b'|] eqn:Eb; [|done]. erewrite bindM_lift by done. rewrite bindM_modify.
  intros [= <-]. by eapply makeBlock_inv.
Qed.

Lemma makeEmpty_params : encoding.makeEmptyBlock tlv.ApplicationParameters = Ok (Block.of_tlv tlv.ApplicationParameters []).
Proof. apply makeBlock_tlv; [apply Encodes_emptyBlock|by vm_compute|by vm_compute]. Qed.

Lemma params_one : params_ok [Block.of_tlv tlv.ApplicationParameters []].
Proof. split; [done|]. constructor; [by vm_compute|constructor]. Qed.

(** The parameters with an empty ApplicationParameters in front if there were none. *)
Definition with_default_params (i : Interest.t) : Interest.t :=
  match Interest.m_parameters i with
  | [] => Interest.with_parameters [Block.of_tlv tlv.ApplicationParameters []] i
  | _ => i
  end.

Lemma inv_default i : inv i -> inv (with_default_params i) /\ Interest.m_parameters (with_default_params i) <> [].
Proof.
  intros Hi. unfold with_default_params. destruct (Interest.m_parameters i) eqn:E; [|by rewrite E].
  split; [|done]. destruct Hi as (H1 & _ & H3). split; [done|]. split; [apply params_one|done].
Qed.

(** What the two setters of signature elements do: they throw and leave [o],
    or find the element there already and change nothing, or store a list of parameters and
    refresh the digest. *)
Definition sig_setter (m : M Interest.t unit) (i o : Interest.t) : Prop :=
  (exists e, m i = (o, Throw e)) \/ m i = (i, Ok tt) \/
  exists l, params_ok l /\ l <> [] /\
    m i = (_ ← modify (Interest.with_parameters l); _ ← Interest.addOrReplaceParametersDigestComponent sha256; Interest.resetWire) o.

Lemma setSignatureInfo_run info i : inv i ->
  sig_setter (Interest.setSignatureInfo sha256 info) i (with_default_params i).
Proof.
  intros Hi. destruct (inv_default i Hi) as [(_ & Hp & _) Hne]. unfold sig_setter, Interest.setSignatureInfo. rewrite bindM_self.
  rewrite (bindM_ok _ _ _ (with_default_params i) tt).
  2: { unfold with_default_params. destruct (Interest.m_parameters i); [|done]. by rewrite (bindM_lift _ _ _ _ makeEmpty_params). }
  set (o := with_default_params i) in *. destruct (snd (SignatureInfo.wireEncode _ _)) as [b|e] eqn:Eb.
  2: { left. by exists e. }
  right. apply sig_wire_hasWire in Eb. erewrite bindM_lift by done. rewrite bindM_self.
  destruct (find_index_tail tlv.InterestSignatureInfo _ Hp Hne) as (x & l & El & Ei); [done|].
  destruct (find_index_tail tlv.InterestSignatureValue _ Hp Hne) as (? & ? & El' & Ev); [done|].
  destruct (_ !! _) as [old|] eqn:Eold; [destruct (Block.eqb old b); [left|]|];
    [|right; (eexists; split; [|split; [|done]])..].
  - subst o. revert Eold Ei. unfold with_default_params. by destruct (Interest.m_parameters i) eqn:Ep.
  - rewrite Ei, El. apply params_insert; [by rewrite <- El|done].
  - intros E%(f_equal length). by rewrite length_insert, El in E.
  - rewrite Ev, El. apply params_add; [by rewrite <- El|done].
  - by destruct (take _ _).
Qed.

Lemma setSignatureValue_run v i : inv i -> sig_setter (Interest.setSignatureValue sha256 v) i i.
Proof.
  intros (_ & Hp & _). unfold sig_setter, Interest.setSignatureValue. destruct v as [v|]; [|left; by eexists].
  rewrite bindM_self. set (params := Interest.m_parameters i) in *.
  destruct (length params <=? Interest.find_index tlv.InterestSignatureInfo params)%nat eqn:El; [left; by eexists|].
  apply Nat.leb_gt in El. rewrite bindM_pass by done. right.
  assert (Hne : params <> []) by (intros E; rewrite E in El; simpl in El; lia).
  destruct (find_index_tail tlv.InterestSignatureInfo _ Hp Hne) as (x & l & Ex & Ei); [done|].
  destruct (find_index_tail tlv.InterestSignatureValue _ Hp Hne) as (? & ? & Ex' & Ev); [done|].
  set (b := Block.ofTypeValue tlv.InterestSignatureValue v).
  assert (Hb : Block.hasWire (Block.encode b) = true) by apply encode_hasWire.
  destruct (_ !! _) as [old|]; [destruct (Block.eqb old b); [by left|]|]; right; (eexists; split; [|split; [|done]]).
  - rewrite Ev, Ex. apply params_insert; [by rewrite <- Ex|done].
  - intros E%(f_equal length). by rewrite length_insert, Ex in E.
  - rewrite Ex. apply params_add; [by rewrite <- Ex|done].
  - by destruct (take _ _).
Qed.

Lemma keeps_sig_setter m : (forall i, inv i -> exists o, inv o /\ sig_setter m i o) -> keeps inv m.
Proof.
  intros H i Hi. destruct (H i Hi) as (o & Ho & [[e ->]|[->|(l & Hl & _ & ->)]]); [done..|].
  apply (keeps_update _ (keeps_with_params l Hl)). done.
Qed.

Lemma keeps_setSignatureInfo info : keeps inv (Interest.setSignatureInfo sha256 info).
Proof.
  apply keeps_sig_setter. intros i Hi. exists (with_default_params i).
  split; [by apply inv_default|by apply setSignatureInfo_run].
Qed.

Lemma keeps_setSignatureValue v : keeps inv (Interest.setSignatureValue sha256 v).
Proof. apply keeps_sig_setter. intros i Hi. exists i. split; [done|by apply setSignatureValue_run]. Qed.

Lemma keeps_decode_hint dels : keeps inv (Interest.decode_hint dels).
Proof.
  assert (Hadd : forall (r : result Name.t) what,
    keeps inv match r with
              | Ok n => modify (fun i => Interest.with_hint (Interest.m_forwardingHint i ++ [n]) i)
              | Throw e => throwM (if is_tlv_error e then PacketError what else e)
              end).
  { intros [n|e] what; [by apply keeps_set|apply keeps_throw]. }
  induction dels as [|del dels IH]; [apply keeps_ret|]. cbn [Interest.decode_hint].
  apply keeps_if; intros _; [by apply keeps_bind|]. apply keeps_if; intros _; [by apply keeps_bind|auto with keeps].
Qed.

Lemma keeps_decode_elements els : Forall (fun x => Block.hasWire x = true) els ->
  forall last, keeps inv (Interest.decode_elements last els).
Proof.
  induction 1 as [|x els Hx _ IH]; intros last; [apply keeps_ret|]. cbn [Interest.decode_elements].
  apply keeps_if; intros _.
  { apply keeps_throw_if; intros _. apply keeps_throw_if; intros _. apply keeps_bind; [by apply keeps_set|done]. }
  apply keeps_if; intros _.
  { apply keeps_throw_if; intros _. apply keeps_throw_if; intros _. apply keeps_bind; [by apply keeps_set|done]. }
  apply keeps_if; intros _.
  { apply keeps_throw_if; intros _. apply keeps_bind; [auto with keeps|]. intros b.
    apply keeps_bind; [apply keeps_decode_hint|done]. }
  apply keeps_if; intros _.
  { apply keeps_throw_if; intros _. apply keeps_throw_if; intros Hl. apply keeps_bind; [|done].
    apply keeps_modify. intros i (H1 & H2 & _). split; [done|]. split; [done|]. intros n [= <-].
    apply negb_false_iff, Z.eqb_eq in Hl. done. }
  apply keeps_if; intros _.
  { apply keeps_throw_if; intros _. apply keeps_bind; [auto with keeps|]. intros n. apply keeps_bind; [by apply keeps_set|done]. }
  apply keeps_if; intros _.
  { apply keeps_if; intros _; [done|]. apply keeps_throw_if; intros _. apply keeps_bind; [by apply keeps_set|done]. }
  apply keeps_if; intros Hty.
  { apply keeps_if; intros _; [done|]. apply Z.eqb_eq in Hty. apply keeps_bind; [|done].
    apply (keeps_params (fun i => Interest.m_parameters i ++ [x])). intros i [H1 H2]. split.
    - by destruct (Interest.m_parameters i).
    - apply Forall_app. by repeat constructor. }
  apply keeps_throw_if; intros _. apply keeps_bind; [|done]. apply keeps_modify. intros i Hi.
  unfold Interest.hasApplicationParameters. destruct Hi as (H1 & [H2 H3] & H4).
  destruct (Interest.m_parameters i) as [|b l] eqn:E; [change (inv i); unfold inv; rewrite E; by split|].
  rewrite len_cons, (proj2 (Z.eqb_neq _ 0)) by (pose proof (len_nonneg l); lia). cbn [negb].
  split; [done|]. split; [|done]. split; [done|].
  apply (Forall_app _ (b :: l) [x]). split; [done|by repeat constructor].
Qed.

Lemma keeps_wireDecode autoCheck wire : Forall (fun x => Block.hasWire x = true) (Block.elements wire) ->
  keeps inv (Interest.wireDecode sha256 autoCheck wire).
Proof.
  intros Hw. apply keeps_throw_if; intros _. intros i Hi. unfold mbind at 1, M_bind at 1, assignParsed.
  destruct (Block.parse wire) as [b [e|]] eqn:Eb; [by apply (inv_intro i)|].
  pose proof (parse_hasWire _ _ Hw Eb) as Hb. rewrite bindM_self.
  change (Block.elements (Interest.m_wire (Interest.with_wire b i))) with (Block.elements b).
  assert (Hi' : inv (Interest.with_wire b i)) by (by apply (inv_intro i)). revert Hi'.
  generalize (Interest.with_wire b i) as o. clear i Hi Eb. intros o Ho.
  destruct (Block.elements b) as [|x els]; [done|]. inversion Hb as [|? ? Hx Hels]; subst.
  revert o Ho. apply keeps_throw_if; intros _. apply keeps_bind; [auto with keeps|]. intros n.
  apply keeps_throw_if; intros _. apply keeps_throw_if; intros Hn. apply Z.eqb_neq in Hn.
  apply keeps_bind; [apply keeps_modify; intros i _; split; [done|by split]|]. intros _.
  apply keeps_bind; [by apply keeps_decode_elements|]. intros _. apply keeps_self. intros o _.
  apply keeps_if; intros _; [|auto with keeps]. apply keeps_bind; [auto with keeps|]. intros ok. apply keeps_lift.
Qed.

Lemma keeps_wireEncode autoCheck fresh : len fresh = 4 -> keeps inv (Interest.wireEncode sha256 autoCheck fresh).
Proof.
  intros Hf. apply keeps_self. intros o _. apply keeps_if; intros _; [auto with keeps|].
  apply keeps_bind; [auto with keeps|]. intros _. apply keeps_bind; [by apply keeps_getNonce|]. intros _.
  apply keeps_self. intros o' _. intros i Hi. destruct (makeBlock _) as [b|e] eqn:Eb; [|done].
  rewrite (bindM_lift _ _ _ _ eq_refl). revert i Hi. apply keeps_bind; [|intros _; apply keeps_self; auto with keeps].
  apply keeps_wireDecode. apply makeBlock_inv in Eb as [_ ->]. constructor.
Qed.

(** *** Operations that bring the digest up to date *)

Hypothesis sha256_length : forall x, len (sha256 x) = 32.

Definition digest_valid (i : Interest.t) : Prop := Interest.isParametersDigestValid sha256 i = Ok true.

Lemma refresh_valid l i : inv i -> params_ok l -> l <> [] -> exists i',
  (_ ← modify (Interest.with_parameters l); _ ← Interest.addOrReplaceParametersDigestComponent sha256; Interest.resetWire) i
    = (i', Ok tt) /\ digest_valid i'.
Proof.
  intros (H1 & _ & H3) Hl Hne. rewrite bindM_modify. set (o := Interest.with_parameters l i).
  assert (Ho : inv o) by (by split).
  destruct (Interest.addOrReplaceParametersDigestComponent sha256 o) as [i' r] eqn:E.
  destruct (addOrReplace_run _ _ _ Ho E) as [(n' & -> & -> & Hn)|[_ Hl32]]; [|by destruct Hl32; apply sha256_length].
  erewrite bindM_ok by done. eexists. split; [done|]. by apply (digest_named_valid o n').
Qed.

Lemma setParams_valid b i : inv i -> Block.type b = tlv.ApplicationParameters -> exists i',
  setParams b i = (i', Ok tt) /\ digest_valid i'.
Proof.
  intros Hi Hb. set (l := match Interest.m_parameters i with [] => [Block.encode b] | _ :: rest => Block.encode b :: rest end).
  assert (Hl : params_ok l) by apply (keeps_setApplicationParametersInternal b Hb i Hi).
  destruct (refresh_valid l i Hi Hl) as (i' & E & V); [subst l; by destruct (Interest.m_parameters i)|by exists i'].
Qed.

Lemma sig_setter_valid m i o i' : inv o -> digest_valid i ->
  sig_setter m i o -> m i = (i', Ok tt) -> digest_valid i'.
Proof.
  intros Ho Hv [[e E]|[E|(l & Hl & Hne & E)]] Hm; rewrite E in Hm; [done|by injection Hm as <-|].
  destruct (refresh_valid l o Ho Hl Hne) as (x & Ex & V). rewrite Ex in Hm. by injection Hm as <-.
Qed.

Lemma setName_valid n i i' : inv i -> digest_valid i ->
  Interest.findParametersDigestComponent n = -1 \/ Interest.hasApplicationParameters i = true ->
  Interest.setName sha256 n i = (i', Ok tt) -> digest_valid i'.
Proof.
  intros Hi Hv Hn. pose proof Hi as (_ & Hp & Hq). unfold Interest.setName.
  destruct (Z.eqb_spec (Interest.findParametersDigestComponent n) (-2)) as [|Hn2]; [done|]. rewrite bindM_pass by done.
  rewrite bindM_self. destruct (negb (Name.equals n (Interest.m_name i))); [|by intros [= <-]].
  rewrite bindM_modify, bindM_self. change (Interest.hasApplicationParameters (Interest.with_name n i)) with (Interest.hasApplicationParameters i).
  set (o := Interest.with_name n i) in *. assert (Ho : inv o) by (by split).
  destruct (Interest.hasApplicationParameters i) eqn:Eh.
  - destruct (Interest.addOrReplaceParametersDigestComponent sha256 o) as [x r] eqn:E.
    destruct (addOrReplace_run _ _ _ Ho E) as [(n' & -> & -> & Hn')|[_ Hl32]]; [|by destruct Hl32; apply sha256_length].
    erewrite bindM_ok by done. intros [= <-]. apply (digest_named_valid o n'); [done| |done].
    change (Interest.m_parameters o) with (Interest.m_parameters i). intros E0.
    unfold Interest.hasApplicationParameters in Eh. by rewrite E0 in Eh.
  - destruct Hn as [Hn|]; [|done]. intros [= <-]. unfold digest_valid, Interest.isParametersDigestValid.
    change (Interest.m_name _) with n. rewrite Hn, Z.eqb_refl.
    change (Interest.hasApplicationParameters _) with (Interest.hasApplicationParameters i). by rewrite Eh.
Qed.

(** The name decides if there are no parameters. *)
Lemma setName_digest n i i' : inv i -> digest_valid i -> Interest.setName sha256 n i = (i', Ok tt) ->
  Interest.isParametersDigestValid sha256 i' = Ok (Interest.hasApplicationParameters i || (Interest.findParametersDigestComponent n =? -1)).
Proof.
  intros Hi Hv Hs. destruct (Interest.hasApplicationParameters i) eqn:Eh; [exact (setName_valid n i i' Hi Hv (or_intror Eh) Hs)|]. cbn [orb].
  destruct (Z.eqb_spec (Interest.findParametersDigestComponent n) (-1)) as [E|E]; [exact (setName_valid n i i' Hi Hv (or_introl E) Hs)|].
  revert Hs. unfold Interest.setName. destruct (Z.eqb_spec (Interest.findParametersDigestComponent n) (-2)) as [|Hn2]; [done|]. rewrite bindM_pass by done.
  rewrite bindM_self. destruct (negb (Name.equals n (Interest.m_name i))) eqn:En.
  - rewrite bindM_modify, bindM_self. change (Interest.hasApplicationParameters (Interest.with_name n i)) with (Interest.hasApplicationParameters i).
    rewrite Eh. intros [= <-]. unfold Interest.isParametersDigestValid. change (Interest.m_name _) with n.
    rewrite (proj2 (Z.eqb_neq _ _) E). change (Interest.hasApplicationParameters _) with (Interest.hasApplicationParameters i). by rewrite Eh.
  - exfalso. apply negb_false_iff in En. revert Hv. unfold digest_valid, Interest.isParametersDigestValid.
    rewrite <- (find_digest_equals n (Interest.m_name i) En), (proj2 (Z.eqb_neq _ _) E), Eh. done.
Qed.

End ops.

End InterestFacts.

(** *** Wire format *)

Module InterestWire.
Import FieldFacts InterestFacts.

(** The elements of an encoded Interest. *)
Definition hint_seq (l : list Name.t) : list (Z * bytes) := (fun n => (tlv.Name, NameFacts.value n)) <$> l.

Definition hint_element (i : Interest.t) : option (Z * bytes) :=
  if negb (len (Interest.m_forwardingHint i) =? 0)
  then Some (tlv.ForwardingHint, BlockFacts.tlv_seq (hint_seq (Interest.m_forwardingHint i))) else None.

Definition lifetime_element (i : Interest.t) : option (Z * bytes) :=
  if negb (Interest.m_interestLifetime i =? Interest.DEFAULT_INTEREST_LIFETIME)
  then Some (tlv.InterestLifetime, tlv.writeNonNegativeInteger (u64 (Interest.m_interestLifetime i))) else None.

Definition interest_seq (i : Interest.t) : list (Z * bytes) :=
  (tlv.Name, NameFacts.value (Interest.m_name i)) ::
  olist (if Interest.m_canBePrefix i then Some (tlv.CanBePrefix, []) else None) ++
  olist (if Interest.m_mustBeFresh i then Some (tlv.MustBeFresh, []) else None) ++
  olist (hint_element i) ++
  [(tlv.Nonce, default [] (Interest.m_nonce i))] ++
  olist (lifetime_element i) ++
  olist ((fun h => (tlv.HopLimit, [h])) <$> Interest.m_hopLimit i) ++
  (tv <$> Interest.m_parameters i).

Lemma EncSeq_interest i : Forall block_ok (Interest.m_parameters i) ->
  EncSeq (Interest.wireEncode_template i) [(tlv.Interest, BlockFacts.tlv_seq (interest_seq i))].
Proof.
  intros Hp. apply EncSeq_TL. unfold interest_seq. change (?x :: ?l) with ([x] ++ l).
  rewrite !(assoc_L (++)). repeat apply EncSeq_then.
  - by apply EncSeq_blocks.
  - apply EncSeq_option. intros h _. apply EncSeq_binary.
  - apply EncSeq_guard, EncSeq_nni.
  - apply EncSeq_binary.
  - apply EncSeq_guard. apply EncSeq_TL. unfold hint_seq.
    rewrite <- (join_singletons (fun n => (tlv.Name, NameFacts.value n))).
    apply EncSeq_reversed. intros n _. apply EncSeq_name.
  - apply EncSeq_guard, EncSeq_empty.
  - apply EncSeq_guard, EncSeq_empty.
  - apply EncSeq_name.
Qed.

(** An element that may follow ApplicationParameters. *)
Definition extra_ok (ty : Z) : Prop :=
  tlv.isCriticalType ty = false /\ ty <> tlv.HopLimit /\ ty <> tlv.ApplicationParameters.

(** An Interest that can be encoded and decoded again: a non-empty name, every
    field within the range of its type, and parameters that begin with
    ApplicationParameters. *)
Definition interest_ok (i : Interest.t) : Prop :=
  types_ok (Interest.m_name i) /\ Name.isEmpty (Interest.m_name i) = false /\
  Forall types_ok (Interest.m_forwardingHint i) /\
  - 2 ^ 63 <= Interest.m_interestLifetime i < 2 ^ 63 /\
  Forall block_ok (Interest.m_parameters i) /\
  Forall (fun b => extra_ok (Block.type b)) (tail (Interest.m_parameters i)) /\ inv i.

Definition norm_name (n : Name.t) : Name.t := NameFacts.of_tlvs (NameFacts.tlvs n).

(** The Interest after decoding: the same content, with wires. *)
Definition interest_norm (i : Interest.t) : Interest.t :=
  Interest.mk (norm_name (Interest.m_name i)) (norm_name <$> Interest.m_forwardingHint i) (Interest.m_nonce i)
    (Interest.m_interestLifetime i) (Interest.m_hopLimit i) (Interest.m_canBePrefix i) (Interest.m_mustBeFresh i)
    (BlockFacts.of_pair <$> (tv <$> Interest.m_parameters i)) (parsed_block tlv.Interest (interest_seq i)).

Lemma decode_hint_seq l : forall i, Forall types_ok l -> Forall (fun n => is_u64 (len (NameFacts.value n))) l ->
  Interest.decode_hint (BlockFacts.of_pair <$> hint_seq l) i =
  (Interest.with_hint (Interest.m_forwardingHint i ++ (norm_name <$> l)) i, Ok tt).
Proof.
  induction l as [|n l IH]; intros i Ht Hl.
  { cbn. rewrite app_nil_r. by destruct i. }
  inversion Ht as [|? ? Hn Ht']; subst. inversion Hl as [|? ? Hln Hl']; subst.
  unfold hint_seq. rewrite !fmap_cons. cbn [Interest.decode_hint].
  change (Block.type (BlockFacts.of_pair (tlv.Name, _))) with tlv.Name. rewrite Z.eqb_refl.
  destruct (name_decode_pair n Hn Hln) as [-> _]. rewrite bindM_modify.
  rewrite IH by done. cbn [Interest.m_forwardingHint Interest.with_hint].
  by rewrite <- (assoc_L (++)).
Qed.

(** One step of the loop per element; [g] is what it does to the object. *)
Definition segment (lo hi : Z) (l : list (Z * bytes)) (g : Interest.t -> Interest.t) : Prop :=
  forall last i rest, last <= lo -> exists last', last' <= hi /\
    Interest.decode_elements last (BlockFacts.of_pair <$> (l ++ rest)) i =
    Interest.decode_elements last' (BlockFacts.of_pair <$> rest) (g i).

Lemma segment_nil lo hi : lo <= hi -> segment lo hi [] id.
Proof. intros H last i rest Hl. exists last. split; [lia|done]. Qed.

Lemma segment_app lo mid hi l k g h : segment lo mid l g -> segment mid hi k h ->
  segment lo hi (l ++ k) (fun i => h (g i)).
Proof.
  intros Hl Hk last i rest Hlast. rewrite <- (assoc_L (++)).
  destruct (Hl last i (k ++ rest) Hlast) as (last' & H' & ->).
  destruct (Hk last' (g i) rest H') as (last'' & H'' & ->). by exists last''.
Qed.

Lemma segment_option {A} lo hi (o : option A) (f : A -> Z * bytes) (g : A -> Interest.t -> Interest.t) :
  lo <= hi -> (forall a, o = Some a -> segment lo hi [f a] (g a)) ->
  segment lo hi (olist (f <$> o)) (match o with Some a => g a | None => id end).
Proof. intros H Ha. destruct o; [by apply Ha|by apply segment_nil]. Qed.

Lemma segment_guard lo hi (c : bool) x g : lo <= hi -> (c = true -> segment lo hi [x] g) ->
  segment lo hi (olist (if c then Some x else None)) (if c then g else id).
Proof. intros H Ha. destruct c; [by apply Ha|by apply segment_nil]. Qed.

(** Opens a segment of one element and picks its branch of the switch. *)
Ltac segment_step hi :=
  intros last i rest Hlast; exists hi; split; [done|]; cbn [app]; rewrite fmap_cons; cbn [Interest.decode_elements];
  repeat match goal with |- context [Block.type (BlockFacts.of_pair (?t, ?v))] =>
    change (Block.type (BlockFacts.of_pair (t, v))) with t end;
  repeat match goal with |- context [?a =? ?b] =>
    is_const a; is_const b; let c := eval vm_compute in (a =? b) in
    match c with true => change (a =? b) with true | false => change (a =? b) with false end end; cbn iota.

Lemma segment_canBePrefix : segment 1 2 [(tlv.CanBePrefix, [])] (Interest.with_canBePrefix true).
Proof. segment_step 2. rewrite !bindM_pass by (done || lia). done. Qed.

Lemma segment_mustBeFresh : segment 2 3 [(tlv.MustBeFresh, [])] (Interest.with_mustBeFresh true).
Proof. segment_step 3. rewrite !bindM_pass by (done || lia). done. Qed.

Lemma segment_nonce n : len n = 4 -> segment 4 5 [(tlv.Nonce, n)] (Interest.with_nonce (Some n)).
Proof.
  intros Hn. segment_step 5. rewrite bindM_pass by lia. change (Block.value_size _) with (len n).
  rewrite Hn, bindM_pass by done. done.
Qed.

Lemma is_u64_wrap z : is_u64 (u64 z).
Proof. unfold u64. pose proof (Z.mod_pos_bound z (2 ^ 64)). unfold is_u64, UINT64_MAX. lia. Qed.

Lemma segment_lifetime l : - 2 ^ 63 <= l < 2 ^ 63 ->
  segment 5 6 [(tlv.InterestLifetime, tlv.writeNonNegativeInteger (u64 l))] (Interest.with_lifetime l).
Proof.
  intros Hl. segment_step 6. rewrite bindM_pass by lia.
  rewrite (bindM_lift _ _ _ (u64 l)) by (apply readNNI_of_tlv, is_u64_wrap).
  rewrite bindM_modify. do 2 f_equal. unfold i64, u64. rewrite Zplus_mod_idemp_l. apply i64_small. done.
Qed.

Lemma segment_hopLimit h : segment 6 7 [(tlv.HopLimit, [h])] (Interest.with_hopLimit (Some h)).
Proof. segment_step 7. replace (7 <=? last) with false by lia. by rewrite bindM_pass. Qed.

Lemma segment_hint l : Forall types_ok l -> is_u64 (len (BlockFacts.tlv_seq (hint_seq l))) ->
  segment 3 4 [(tlv.ForwardingHint, BlockFacts.tlv_seq (hint_seq l))]
    (fun i => Interest.with_hint (Interest.m_forwardingHint i ++ (norm_name <$> l)) i).
Proof.
  intros Ht Hl. assert (Hs : Forall BlockFacts.tlv_ok (hint_seq l)).
  { apply tlv_seq_ok; [|done]. unfold hint_seq. apply Forall_fmap. apply Forall_true. intros n. by vm_compute. }
  segment_step 4. rewrite bindM_pass by lia.
  rewrite (bindM_lift _ _ _ (parsed_block tlv.ForwardingHint (hint_seq l))) by (by apply BlockFacts.parsed_of_tlv).
  erewrite bindM_ok; [done|]. apply decode_hint_seq; [done|].
  unfold hint_seq in Hs. rewrite Forall_fmap in Hs. eapply Forall_impl; [|exact Hs]. by intros n [_ Hn].
Qed.

Lemma extra_other ty x : extra_ok ty -> tlv.isCriticalType x = true -> (ty =? x) = false.
Proof. intros (H & _) Hx. apply Z.eqb_neq. intros ->. congruence. Qed.

Lemma decode_extras l : forall last i, Forall (fun x => extra_ok x.1) l -> Interest.m_parameters i <> [] ->
  Interest.decode_elements last (BlockFacts.of_pair <$> l) i =
  (Interest.with_parameters (Interest.m_parameters i ++ (BlockFacts.of_pair <$> l)) i, Ok tt).
Proof.
  induction l as [|[ty v] l IH]; intros last i Hl Hne.
  { cbn. rewrite app_nil_r. by destruct i. }
  inversion Hl as [|? ? Hx Hl']; subst. rewrite fmap_cons. cbn [Interest.decode_elements].
  change (Block.type (BlockFacts.of_pair (ty, v))) with ty. cbn [fst] in Hx.
  rewrite !(extra_other ty _ Hx) by done. destruct Hx as (Hc & H1 & H2).
  rewrite (proj2 (Z.eqb_neq ty tlv.HopLimit)), (proj2 (Z.eqb_neq ty tlv.ApplicationParameters)) by done.
  rewrite bindM_pass by done. rewrite bindM_modify.
  assert (Interest.hasApplicationParameters i = true) as ->.
  { unfold Interest.hasApplicationParameters. destruct (Interest.m_parameters i) as [|b k]; [done|].
    rewrite len_cons. pose proof (len_nonneg k). by rewrite (proj2 (Z.eqb_neq _ 0)) by lia. }
  rewrite IH; [|done|by destruct (Interest.m_parameters i)]. cbn [Interest.m_parameters Interest.with_parameters].
  by rewrite <- (assoc_L (++)).
Qed.

Lemma decode_params l last i : last <= 7 -> Interest.m_parameters i = [] ->
  match l with [] => True | b :: _ => Block.type b = tlv.ApplicationParameters end ->
  Forall (fun b => extra_ok (Block.type b)) (tail l) ->
  Interest.decode_elements last (BlockFacts.of_pair <$> (tv <$> l)) i =
  (Interest.with_parameters (BlockFacts.of_pair <$> (tv <$> l)) i, Ok tt).
Proof.
  intros Hlast Hi Hb Hx. destruct l as [|b l]; [cbn; destruct i; cbn in *; by rewrite Hi|].
  rewrite !fmap_cons. cbn [Interest.decode_elements tail] in *.
  change (Block.type (BlockFacts.of_pair (tv b))) with (Block.type b). rewrite Hb.
  repeat match goal with |- context [tlv.ApplicationParameters =? ?b] =>
    let c := eval vm_compute in (tlv.ApplicationParameters =? b) in change (tlv.ApplicationParameters =? b) with c end.
  replace (8 <=? last) with false by lia. rewrite bindM_modify. rewrite decode_extras.
  - cbn [Interest.m_parameters Interest.with_parameters]. by rewrite Hi.
  - by apply Forall_fmap.
  - cbn. by rewrite Hi.
Qed.

Lemma interest_seq_types i : Forall block_ok (Interest.m_parameters i) -> Forall (fun x => is_tlv_type x.1) (interest_seq i).
Proof.
  intros Hp. unfold interest_seq. change (?x :: ?l ++ ?k) with ([x] ++ l ++ k). rewrite !Forall_app. split_and!.
  1, 5: constructor; [by vm_compute|constructor].
  1, 2: case_match; [constructor; [by vm_compute|constructor]|constructor].
  - unfold hint_element. case_match; [constructor; [by vm_compute|constructor]|constructor].
  - unfold lifetime_element. case_match; [constructor; [by vm_compute|constructor]|constructor].
  - destruct (Interest.m_hopLimit i); [constructor; [by vm_compute|constructor]|constructor].
  - apply Forall_fmap. eapply Forall_impl; [|exact Hp]. by intros b [[Hb _] _].
Qed.

(** Everything behind the name. *)
Lemma decode_rest i o n : interest_ok i -> Interest.m_nonce i = Some n ->
  is_u64 (len (BlockFacts.tlv_seq (interest_seq i))) ->
  Interest.decode_elements 1 (BlockFacts.of_pair <$> drop 1 (interest_seq i))
    (Interest.mk (Interest.m_name o) [] None Interest.DEFAULT_INTEREST_LIFETIME None false false [] (Interest.m_wire o)) =
  (Interest.mk (Interest.m_name o) (norm_name <$> Interest.m_forwardingHint i) (Interest.m_nonce i)
    (Interest.m_interestLifetime i) (Interest.m_hopLimit i) (Interest.m_canBePrefix i) (Interest.m_mustBeFresh i)
    (BlockFacts.of_pair <$> (tv <$> Interest.m_parameters i)) (Interest.m_wire o), Ok tt).
Proof.
  intros (_ & _ & Hh & Hlt & Hp & Hx & Hinv) En Hl. destruct Hinv as (_ & [Hb _] & Hn). specialize (Hn n En).
  assert (Hhint : segment 3 4 (olist (hint_element i))
    (if negb (len (Interest.m_forwardingHint i) =? 0)
     then fun j => Interest.with_hint (Interest.m_forwardingHint j ++ (norm_name <$> Interest.m_forwardingHint i)) j else id)).
  { apply segment_guard; [done|]. intros Hne. apply segment_hint; [done|].
    apply (nested_len (interest_seq i) (tlv.ForwardingHint, _)); [|done]. unfold interest_seq, hint_element. rewrite Hne.
    right. apply elem_of_app. right. apply elem_of_app. right. left. }
  pose proof (segment_guard 1 2 (Interest.m_canBePrefix i) _ _ ltac:(done) (fun _ => segment_canBePrefix)) as S1.
  pose proof (segment_guard 2 3 (Interest.m_mustBeFresh i) _ _ ltac:(done) (fun _ => segment_mustBeFresh)) as S2.
  pose proof (segment_guard 5 6 (negb (Interest.m_interestLifetime i =? Interest.DEFAULT_INTEREST_LIFETIME)) _ _ ltac:(done)
    (fun _ => segment_lifetime (Interest.m_interestLifetime i) Hlt)) as S5.
  pose proof (segment_option 6 7 (Interest.m_hopLimit i) _ _ ltac:(done) (fun h _ => segment_hopLimit h)) as S6.
  pose proof (segment_app _ _ _ _ _ _ _ S1 (segment_app _ _ _ _ _ _ _ S2 (segment_app _ _ _ _ _ _ _ Hhint
    (segment_app _ _ _ _ _ _ _ (segment_nonce n Hn) (segment_app _ _ _ _ _ _ _ S5 S6))))) as S.
  cbv beta in S. change (drop 1 (interest_seq i)) with (tail (interest_seq i)). unfold interest_seq. cbn [tail].
  rewrite En. cbn [default]. set (o1 := Interest.mk _ _ _ _ _ _ _ _ _).
  destruct (S 1 o1 (tv <$> Interest.m_parameters i) ltac:(done)) as (last & Hlast & E).
  rewrite <- !(assoc_L (++)) in E. etransitivity; [exact E|]. clear E S S1 S2 S5 S6 Hhint.
  rewrite decode_params; [|done| |done|done].
  - subst o1. f_equal.
    destruct (Z.eqb_spec (Interest.m_interestLifetime i) Interest.DEFAULT_INTEREST_LIFETIME) as [->|]; cbn [negb];
    destruct (Interest.m_canBePrefix i), (Interest.m_mustBeFresh i), (Interest.m_hopLimit i),
      (Interest.m_forwardingHint i); reflexivity.
  - subst o1. repeat case_match; reflexivity.
Qed.

Lemma components_norm n : Name.components (norm_name n) = (fun c => BlockFacts.of_pair (tv c)) <$> Name.components n.
Proof. unfold norm_name. rewrite NameFacts.components_of_tlvs. unfold NameFacts.tlvs. by rewrite <- list_fmap_compose. Qed.

Lemma find_norm n : Interest.findParametersDigestComponent (norm_name n) = Interest.findParametersDigestComponent n.
Proof.
  unfold Interest.findParametersDigestComponent. rewrite components_norm. generalize (-1) as pos, 0 as k.
  induction (Name.components n) as [|c l IH]; intros pos k; [done|]. rewrite fmap_cons. cbn [Interest.findDigest_loop].
  change (Component.isParametersSha256Digest (BlockFacts.of_pair (tv c))) with (Component.isParametersSha256Digest c).
  by rewrite !IH.
Qed.

Lemma get_norm k n : Name.get k (norm_name n) = (fun c => BlockFacts.of_pair (tv c)) <$> Name.get k n.
Proof.
  unfold Name.get. rewrite !NameFacts.size_len, components_norm. unfold len. rewrite length_fmap.
  set (j := if k <? 0 then _ else _). destruct (j <? 0); [done|]. by rewrite list_lookup_fmap.
Qed.

(** Blocks in canonical form have the same octets after decoding. *)
Lemma wire_bytes_norm b : block_ok b -> Block.hasWire b = true ->
  BlockFacts.wire_bytes (BlockFacts.of_pair (tv b)) = BlockFacts.wire_bytes b.
Proof.
  intros [_ H] Hw. change (BlockFacts.wire_bytes (BlockFacts.of_pair (tv b))) with (tlv_bytes (Block.type b) (Block.value b)).
  rewrite <- H. unfold block_bytes, Block.wire, BlockFacts.wire_bytes, Block.hasWire in *.
  by destruct (Block.m_buf b) as [[[|x w] v]|].
Qed.

Lemma digest_valid_norm sha256 i : interest_ok i ->
  Interest.isParametersDigestValid sha256 (interest_norm i) = Interest.isParametersDigestValid sha256 i.
Proof.
  intros (_ & _ & _ & _ & Hp & _ & (_ & [Hb Hw] & _)). unfold Interest.isParametersDigestValid.
  cbn [Interest.m_name interest_norm]. rewrite find_norm.
  assert (Interest.hasApplicationParameters (interest_norm i) = Interest.hasApplicationParameters i) as ->.
  { unfold Interest.hasApplicationParameters, len. cbn [Interest.m_parameters interest_norm]. by rewrite !length_fmap. }
  assert (Interest.computeParametersDigest sha256 (interest_norm i) = Interest.computeParametersDigest sha256 i) as ->.
  { unfold Interest.computeParametersDigest. cbn [Interest.m_parameters interest_norm]. rewrite !wires_of; [|done|].
    - cbn [mbind result_bind]. do 3 f_equal. rewrite <- !list_fmap_compose. apply list_fmap_ext. intros k b Hk.
      apply wire_bytes_norm; [by eapply Forall_lookup_1|by eapply (Forall_lookup_1 (fun b => Block.hasWire b = true))].
    - apply Forall_fmap, Forall_true. intros x. apply of_pair_hasWire. }
  destruct (_ =? -1); [done|]. destruct (negb _); [done|].
  rewrite get_norm. by destruct (Name.get _ _).
Qed.

(** Decoding an encoded Interest, into any object. *)
Lemma interest_decode sha256 autoCheck i i0 n : interest_ok i -> Interest.m_nonce i = Some n ->
  (autoCheck = true -> Interest.isParametersDigestValid sha256 i = Ok true) ->
  is_u64 (len (BlockFacts.tlv_seq (interest_seq i))) ->
  Interest.wireDecode sha256 autoCheck (seq_block tlv.Interest (interest_seq i)) i0 = (interest_norm i, Ok tt).
Proof.
  intros Hi En Hd Hl. pose proof Hi as (Hn & Hne & _ & _ & Hp & _ & (Hf & _)).
  pose proof (tlv_seq_ok _ (interest_seq_types i Hp) Hl) as Hok. unfold Interest.wireDecode.
  rewrite bindM_pass by done. erewrite bindM_ok by (by apply assignParsed_seq). rewrite bindM_self.
  change (Block.elements _) with (BlockFacts.of_pair <$> interest_seq i).
  change (interest_seq i) with ((tlv.Name, NameFacts.value (Interest.m_name i)) :: drop 1 (interest_seq i)) at 1.
  rewrite fmap_cons. rewrite bindM_pass by done.
  assert (Hln : is_u64 (len (NameFacts.value (Interest.m_name i)))) by (apply (nested_len (interest_seq i) (tlv.Name, _)); [left|done]).
  rewrite (bindM_lift _ _ _ _ (proj1 (name_decode_pair _ Hn Hln))). fold (norm_name (Interest.m_name i)).
  rewrite bindM_pass.
  2: { unfold Name.isEmpty in *. rewrite NameFacts.size_len in *. rewrite components_norm. unfold len in *. by rewrite length_fmap. }
  rewrite bindM_pass by (rewrite find_norm; by apply Z.eqb_neq). rewrite bindM_modify.
  set (o := Interest.with_name (norm_name (Interest.m_name i)) (Interest.with_wire (parsed_block tlv.Interest (interest_seq i)) i0)).
  erewrite bindM_ok by apply (decode_rest i o n Hi En Hl). rewrite bindM_self.
  change (Interest.mk _ _ _ _ _ _ _ _ _) with (interest_norm i). destruct autoCheck; [|done].
  rewrite digest_valid_norm, Hd by done. done.
Qed.

End InterestWire.

Module InterestTheorems.
Import FieldFacts DataTheorems InterestFacts InterestWire.

(** The member functions that may change an Interest, with arguments of their
    types: a nonce has four octets, a span at most [SIZE_MAX], and the
    sub-elements of a block that is decoded, if it was parsed before, have
    wires. *)
Inductive op (sha256 : bytes -> bytes) : M Interest.t unit -> Prop :=
| op_setName n : op sha256 (Interest.setName sha256 n)
| op_setForwardingHint l : op sha256 (Interest.setForwardingHint l)
| op_setCanBePrefix b : op sha256 (Interest.setCanBePrefix b)
| op_setMustBeFresh b : op sha256 (Interest.setMustBeFresh b)
| op_getNonce fresh : len fresh = 4 -> op sha256 (_ ← Interest.getNonce fresh; mret tt)
| op_setNonce n : (forall x, n = Some x -> len x = 4) -> op sha256 (Interest.setNonce n)
| op_setInterestLifetime l : op sha256 (Interest.setInterestLifetime l)
| op_setHopLimit h : op sha256 (Interest.setHopLimit h)
| op_setApplicationParametersBlock b : op sha256 (Interest.setApplicationParametersBlock sha256 b)
| op_setApplicationParameters v : is_u64 (len v) -> op sha256 (Interest.setApplicationParameters sha256 v)
| op_setApplicationParametersPtr v k : is_u64 k -> op sha256 (Interest.setApplicationParametersPtr sha256 v k)
| op_setApplicationParametersBuffer v : op sha256 (Interest.setApplicationParametersBuffer sha256 v)
| op_unsetApplicationParameters : op sha256 Interest.unsetApplicationParameters
| op_setSignatureInfo s : op sha256 (Interest.setSignatureInfo sha256 s)
| op_setSignatureValue v : op sha256 (Interest.setSignatureValue sha256 v)
| op_wireDecode c w : Forall (fun x => Block.hasWire x = true) (Block.elements w) -> op sha256 (Interest.wireDecode sha256 c w)
| op_wireEncode c fresh : len fresh = 4 -> op sha256 (_ ← Interest.wireEncode sha256 c fresh; mret tt).

(** The Interests a program can have: constructed, then changed by member
    functions that return or throw. *)
Inductive reachable (sha256 : bytes -> bytes) : Interest.t -> Prop :=
| reach_name cbp n l i : Interest.ofName sha256 cbp n l = Ok i -> reachable sha256 i
| reach_block c w i : Forall (fun x => Block.hasWire x = true) (Block.elements w) ->
    Interest.ofBlock sha256 c w = Ok i -> reachable sha256 i
| reach_op m i i' r : reachable sha256 i -> op sha256 m -> m i = (i', r) -> reachable sha256 i'
| reach_refreshNonce draws i i' : reachable sha256 i -> Forall (fun n => len n = 4) draws ->
    Interest.refreshNonce draws i = Some i' -> reachable sha256 i'.

Lemma keeps_op sha256 m : op sha256 m -> keeps inv m.
Proof.
  intros [].
  - apply keeps_setName.
  - by apply keeps_set_reset.
  - by apply keeps_set_reset.
  - by apply keeps_set_reset.
  - apply keeps_bind; [by apply keeps_getNonce|auto with keeps].
  - by apply keeps_setNonce.
  - apply keeps_setInterestLifetime.
  - apply keeps_setHopLimit.
  - apply keeps_setApplicationParametersBlock.
  - by apply keeps_setApplicationParameters.
  - apply keeps_throw_if. intros _. apply keeps_setApplicationParameters. unfold len. rewrite length_take. width. lia.
  - destruct v; [|apply keeps_throw]. by apply keeps_setParams.
  - apply keeps_unset.
  - apply keeps_setSignatureInfo.
  - apply keeps_setSignatureValue.
  - by apply keeps_wireDecode.
  - apply keeps_bind; [by apply keeps_wireEncode|auto with keeps].
Qed.

Lemma draw_other_in old draws n : Interest.draw_other old draws = Some n -> n ∈ draws.
Proof.
  induction draws as [|x draws IH]; [done|]. cbn [Interest.draw_other]. destruct (bool_decide (x = old)).
  - intros H. right. by apply IH.
  - intros [= <-]. left.
Qed.

(** C8: the class invariant of Interest: however it was constructed and
    whatever member functions were called on it, whether they returned or
    threw, the name has at most one ParametersSha256DigestComponent, the
    parameters are empty or begin with ApplicationParameters, each of them has
    a wire, and a nonce has four octets.  So the assertions of the code on
    these hold, and the digest of the parameters can always be computed. *)
Theorem interest_invariant (sha256 : bytes -> bytes) (i : Interest.t) (Hi : reachable sha256 i) :
  inv i /\ exists d, Interest.computeParametersDigest sha256 i = Ok d.
Proof.
  cut (inv i). { intros H. split; [done|]. eexists. apply compute_digest, H. }
  induction Hi as [cbp n l i Hi|c w i Hw Hi|m i i' r _ IH Hm E|draws i i' _ IH Hd E].
  - revert Hi. unfold Interest.ofName, exec. set (m := (_ ← _; _)). destruct (m Interest.init) as [x [[]|e]] eqn:E; [|done].
    intros [= <-]. apply (keeps_run inv m Interest.init x (Ok tt)); [|apply inv_init|done].
    apply keeps_bind; [apply keeps_setName|]. intros _. apply keeps_bind; [apply keeps_setInterestLifetime|]. intros _.
    destruct cbp; [by apply keeps_set_reset|auto with keeps].
  - revert Hi. unfold Interest.ofBlock, exec. destruct (Interest.wireDecode _ _ _ _) as [x [[]|e]] eqn:E; [|done].
    intros [= <-]. eapply keeps_run; [by apply keeps_wireDecode|apply inv_init|exact E].
  - eapply keeps_run; [by eapply keeps_op|exact IH|exact E].
  - revert E. unfold Interest.refreshNonce. destruct (Interest.m_nonce i) as [old|]; [|by intros [= <-]].
    destruct (Interest.draw_other old draws) as [n|] eqn:En; [|done]. intros [= <-]. destruct IH as (H1 & H2 & _).
    split; [done|]. split; [done|]. intros ? [= <-]. apply draw_other_in in En. rewrite Forall_forall in Hd.
    by apply Hd, list_elem_of_In.
Qed.

(** A digest function for the witnesses: the first 32 octets, padded. *)
Definition toy_digest (x : bytes) : bytes := take 32 (x ++ replicate 32 (z2b 0)).

Lemma toy_digest_length x : len (toy_digest x) = 32.
Proof. unfold len, toy_digest. rewrite length_take, length_app, length_replicate. lia. Qed.

Definition name_A : Name.t := Name.append (Block.ofTypeValue 8 (str "A")) Name.empty.

(** /A with parameters. *)
Definition sample_interest : Interest.t :=
  fst (Interest.setApplicationParameters toy_digest (str "hello")
    (Interest.mk name_A [] (Some (str "1234")) 4000 None false true [] Block.empty)).

Lemma interest_invariant_witness :
  exists i, Interest.ofName toy_digest None name_A 1000 = Ok i /\
    inv (fst (Interest.setApplicationParameters toy_digest (str "hello") i)).
Proof.
  destruct (Interest.ofName toy_digest None name_A 1000) as [i|e] eqn:E; [|vm_compute in E; discriminate E].
  exists i. split; [reflexivity|]. apply (interest_invariant toy_digest).
  apply (reach_op _ (Interest.setApplicationParameters toy_digest (str "hello")) i _
    (snd (Interest.setApplicationParameters toy_digest (str "hello") i))).
  - apply (reach_name _ None name_A 1000). exact E.
  - apply op_setApplicationParameters. by vm_compute.
  - apply surjective_pairing.
Defined.

(** The member functions that write the parameters. *)
Inductive updates (sha256 : bytes -> bytes) : M Interest.t unit -> Prop :=
| up_span v : is_u64 (len v) -> updates sha256 (Interest.setApplicationParameters sha256 v)
| up_buffer v : updates sha256 (Interest.setApplicationParametersBuffer sha256 (Some v))
| up_block b : Block.isValid b = true -> Block.type b = tlv.ApplicationParameters \/ Block.hasWire b = true ->
    updates sha256 (Interest.setApplicationParametersBlock sha256 b)
| up_unset : updates sha256 Interest.unsetApplicationParameters.

(** The others that touch the parameters. *)
Inductive touches (sha256 : bytes -> bytes) : M Interest.t unit -> Prop :=
| to_info s : touches sha256 (Interest.setSignatureInfo sha256 s)
| to_value v : touches sha256 (Interest.setSignatureValue sha256 v).

(** C9: the parameters digest is kept up to date, for an Interest in its class
    invariant.  Writing the application parameters, from a span or a buffer
    that is not null or from a valid block that has a wire or is of type
    ApplicationParameters (the code throws for a null buffer and for an invalid
    block), or removing them, does not throw and leaves a name whose digest
    component is the SHA-256 of the encoded parameters, whatever the digest
    was before; setting the signature elements, if it returns, keeps a valid
    digest valid; setting the name, if it returns, keeps it valid unless there
    are no parameters and the new name has a digest component, and then the
    digest is invalid; and with automatic checking on, an Interest that was
    decoded has a valid digest.  All that is assumed of the digest function is
    the length of its results. *)
Theorem interest_digest_maintained (sha256 : bytes -> bytes) (Hlen : forall x, len (sha256 x) = 32)
    (i : Interest.t) (Hi : inv i) (m : M Interest.t unit) :
  (updates sha256 m -> exists i', m i = (i', Ok tt) /\ Interest.isParametersDigestValid sha256 i' = Ok true) /\
  (forall i', touches sha256 m -> Interest.isParametersDigestValid sha256 i = Ok true -> m i = (i', Ok tt) ->
     Interest.isParametersDigestValid sha256 i' = Ok true) /\
  (forall n i', Interest.isParametersDigestValid sha256 i = Ok true -> Interest.setName sha256 n i = (i', Ok tt) ->
     Interest.isParametersDigestValid sha256 i' =
       Ok (Interest.hasApplicationParameters i || (Interest.findParametersDigestComponent n =? -1))) /\
  (forall w i', Interest.wireDecode sha256 true w i = (i', Ok tt) ->
     Interest.isParametersDigestValid sha256 i' = Ok true).
Proof.
  split_and!.
  - intros [v Hv|v|b Hv Hb|].
    + destruct (setApplicationParameters_run sha256 v i Hv) as (b & Hb & ->). by apply setParams_valid.
    + by apply setParams_valid.
    + destruct (setApplicationParametersBlock_run sha256 b i) as [(e & _ & Hbad)|(b' & Hb' & ->)]; [|by apply setParams_valid].
      destruct Hbad as [Hbad|[Hbad Hw]]; [congruence|]. destruct Hb; congruence.
    + destruct (unset_run i Hi) as (n' & E & Hn). eexists. split; [exact E|].
      unfold Interest.isParametersDigestValid. cbn [Interest.m_name Interest.with_wire Interest.with_name].
      by rewrite find_absent.
  - intros i' [s|v] Hv Hm.
    + eapply (sig_setter_valid sha256 Hlen); [by apply inv_default|done|by apply setSignatureInfo_run|done].
    + eapply (sig_setter_valid sha256 Hlen); [exact Hi|done|by apply setSignatureValue_run|done].
  - intros n i' Hv Hn. by apply (setName_digest sha256 Hlen).
  - intros w i'. unfold Interest.wireDecode. destruct (negb _); [done|]. rewrite bindM_pass by done.
    unfold mbind at 1, M_bind at 1. destruct (assignParsed _ _ _) as [o [[]|]]; [|done]. rewrite bindM_self.
    destruct (Block.elements _) as [|x els]; [done|]. destruct (negb _); [done|]. rewrite bindM_pass by done.
    destruct (Name.ofBlock x) as [n|]; [|done]. erewrite bindM_lift by done. destruct (Name.isEmpty n); [done|].
    rewrite bindM_pass by done. destruct (_ =? -2); [done|]. rewrite bindM_pass by done. rewrite bindM_modify.
    unfold mbind at 1, M_bind at 1. destruct (Interest.decode_elements _ _ _) as [o' [[]|]]; [|done]. rewrite bindM_self.
    destruct (Interest.isParametersDigestValid sha256 o') as [[]|] eqn:E; [|done..]. by intros [= <-].
Qed.

Lemma interest_digest_maintained_witness :
  exists i', Interest.setApplicationParameters toy_digest (str "bye") sample_interest = (i', Ok tt) /\
    Interest.isParametersDigestValid toy_digest i' = Ok true.
Proof.
  apply (interest_digest_maintained toy_digest toy_digest_length sample_interest).
  - split; [by vm_compute|]. split; [|intros n [= <-]; by vm_compute].
    split; [by vm_compute|]. constructor; [by vm_compute|constructor].
  - apply up_span. by vm_compute.
Defined.

(** *** Matching *)

(** The digest component of a packet with the given octets, as a key. *)
Definition digest_key (digest : bytes) : Z * Z * Z := (tlv.ImplicitSha256DigestComponent, 32, be_number digest).

Lemma appendDigest_spec digest n : len digest = 32 -> exists n',
  Name.appendImplicitSha256Digest digest n = Ok n' /\ NameFacts.keys n' = NameFacts.keys n ++ [digest_key digest].
Proof.
  intros Hl. unfold Name.appendImplicitSha256Digest.
  change (Component.fromImplicitSha256Digest digest) with (Component.ofSpan tlv.ImplicitSha256DigestComponent digest).
  rewrite ComponentFacts.ofSpan_spec; [|split; [by vm_compute|done]|width; lia].
  eexists. split; [done|]. unfold NameFacts.keys. rewrite NameFacts.components_append, fmap_app.
  cbn [fmap list_fmap]. unfold ComponentFacts.key, digest_key, Block.value_size. cbn. by rewrite Hl.
Qed.

(** The full name is cached, or not computed yet. *)
Definition full_name_ok (sha256 : bytes -> bytes) (d : Data.t) : Prop := exists w,
  Block.wire (Data.m_wire d) = Ok w /\
  (Name.isEmpty (Data.m_fullName d) = true \/
   NameFacts.keys (Data.m_fullName d) = NameFacts.keys (Data.m_name d) ++ [digest_key (sha256 w)]).

Lemma getFullName_spec sha256 d w : (forall x, len (sha256 x) = 32) -> Block.wire (Data.m_wire d) = Ok w ->
  Name.isEmpty (Data.m_fullName d) = true \/
    NameFacts.keys (Data.m_fullName d) = NameFacts.keys (Data.m_name d) ++ [digest_key (sha256 w)] ->
  exists n, Data.getFullName sha256 d = (Data.with_fullName n d, Ok n) /\
    NameFacts.keys n = NameFacts.keys (Data.m_name d) ++ [digest_key (sha256 w)].
Proof.
  intros H32 Hw Hf. unfold Data.getFullName. rewrite bindM_self. destruct (Name.isEmpty (Data.m_fullName d)) eqn:E.
  - destruct (Block.hasWire (Data.m_wire d)) eqn:Ew.
    2: { revert Ew Hw. unfold Block.hasWire, Block.wire. by destruct (Block.m_buf _) as [[[|x w'] v]|]. }
    cbn [negb]. rewrite bindM_modify, (bindM_lift _ _ _ _ Hw).
    destruct (appendDigest_spec (sha256 w) (Data.m_name d) (H32 w)) as (n & En & Kn).
    rewrite (bindM_lift _ _ _ _ En), bindM_modify. exists n. by split.
  - destruct Hf as [|Hf]; [done|]. exists (Data.m_fullName d). split; [by destruct d|done].
Qed.

(** The rule of the packet specification: with CanBePrefix the name of the
    Interest is a prefix of the full name of the Data, without it the name or
    the full name itself; and with MustBeFresh the Data has a positive
    FreshnessPeriod. *)
Definition matches (i : Interest.t) (d : Data.t) (full : list (Z * Z * Z)) : Prop :=
  (if Interest.m_canBePrefix i then NameFacts.keys (Interest.m_name i) `prefix_of` full
   else NameFacts.keys (Interest.m_name i) = NameFacts.keys (Data.m_name d) \/ NameFacts.keys (Interest.m_name i) = full) /\
  (Interest.m_mustBeFresh i = true -> 0 < MetaInfo.m_freshnessPeriod (Data.m_metaInfo d)).

Lemma prefix_snoc_cases {A} (l k : list A) x : l `prefix_of` k ++ [x] <-> l `prefix_of` k \/ l = k ++ [x].
Proof.
  split.
  - intros [t Ht]. destruct t as [|y t _] using rev_ind.
    + right. by rewrite app_nil_r in Ht.
    + left. rewrite (assoc_L (++)) in Ht. apply app_inj_tail in Ht as [-> _]. by exists t.
  - intros [H| ->]; [|done]. by apply prefix_app_r.
Qed.

Lemma prefix_length_neq {A} (l k : list A) x : len l <> len k + 1 -> l `prefix_of` k ++ [x] <-> l `prefix_of` k.
Proof.
  intros H. rewrite prefix_snoc_cases. split; [|by left]. intros [|E]; [done|]. subst l.
  rewrite len_app in H. by destruct H.
Qed.

Lemma freshness_spec i d : negb (Interest.m_mustBeFresh i && (MetaInfo.m_freshnessPeriod (Data.m_metaInfo d) <=? 0)) = true <->
  (Interest.m_mustBeFresh i = true -> 0 < MetaInfo.m_freshnessPeriod (Data.m_metaInfo d)).
Proof. destruct (Interest.m_mustBeFresh i); cbn; [rewrite negb_true_iff, Z.leb_gt|]; split; auto; by intros. Qed.

(** What [matchesData] returns and what it caches. *)
Lemma matchesData_spec (sha256 : bytes -> bytes) (Hlen : forall x, len (sha256 x) = 32)
    (i : Interest.t) (d : Data.t) (w : bytes) (Hw : Block.wire (Data.m_wire d) = Ok w)
    (Hf : Name.isEmpty (Data.m_fullName d) = true \/
      NameFacts.keys (Data.m_fullName d) = NameFacts.keys (Data.m_name d) ++ [digest_key (sha256 w)]) :
  exists n r, Interest.matchesData sha256 i d = (Data.with_fullName n d, Ok r) /\
    (n = Data.m_fullName d \/ NameFacts.keys n = NameFacts.keys (Data.m_name d) ++ [digest_key (sha256 w)]) /\
    (r = true <-> matches i d (NameFacts.keys (Data.m_name d) ++ [digest_key (sha256 w)])).
Proof.
  unfold Interest.matchesData, matches. rewrite bindM_self.
  pose proof (freshness_spec i d) as HF.
  set (fresh := negb (_ && _)) in *.
  set (full := NameFacts.keys (Data.m_name d) ++ [digest_key (sha256 w)]).
  rewrite <- !NameFacts.len_keys, NameFacts.isPrefixOf_spec, (NameFacts.nequals_spec (Interest.m_name i) (Data.m_name d)).
  assert (Hfull : len full = len (NameFacts.keys (Data.m_name d)) + 1) by apply len_app.
  destruct (Z.eqb_spec (len (NameFacts.keys (Interest.m_name i))) (len (NameFacts.keys (Data.m_name d)) + 1)) as [El|El].
  - assert (Hrule : (if Interest.m_canBePrefix i then NameFacts.keys (Interest.m_name i) `prefix_of` full
       else NameFacts.keys (Interest.m_name i) = NameFacts.keys (Data.m_name d) \/ NameFacts.keys (Interest.m_name i) = full)
      <-> NameFacts.keys (Interest.m_name i) = full).
    { destruct (Interest.m_canBePrefix i).
      - unfold full. rewrite prefix_snoc_cases. split; [|by right]. intros [H%prefix_length|]; [|done].
        unfold len in *. lia.
      - split; [|by right]. intros [H|]; [|done]. rewrite H in El. lia. }
    destruct (Name.components (Interest.m_name i)) as [|c l _] eqn:Ec using rev_ind.
    { exfalso. unfold NameFacts.keys at 1 in El. rewrite Ec in El. unfold len in El. simpl in El. lia. }
    rewrite (NameFacts.get_last _ _ _ Ec).
    assert (Hk : NameFacts.keys (Interest.m_name i) = (ComponentFacts.key <$> l) ++ [ComponentFacts.key c]).
    { unfold NameFacts.keys. by rewrite Ec, fmap_app. }
    destruct (Component.isImplicitSha256Digest c) eqn:Eimp.
    + destruct (getFullName_spec sha256 d w Hlen Hw Hf) as (n & En & Kn). rewrite (bindM_ok _ _ _ _ _ En).
      rewrite NameFacts.nequals_spec, Kn. fold full. exists n.
      destruct (decide (NameFacts.keys (Interest.m_name i) = full)) as [E|E].
      * rewrite bool_decide_true by done. exists fresh. split; [done|]. split; [by right|]. rewrite <- HF, Hrule. tauto.
      * rewrite bool_decide_false by done. exists false. split; [done|]. split; [by right|]. rewrite Hrule. split; [done|tauto].
    + exists (Data.m_fullName d), false. split; [by destruct d|]. split; [by left|]. rewrite Hrule. split; [done|]. intros [H _]. exfalso.
      rewrite Hk in H. apply app_inj_tail in H as [_ H]. injection H as Ht Hl _.
      revert Eimp. unfold Component.isImplicitSha256Digest. simpl. by rewrite Ht, Hl.
  - exists (Data.m_fullName d). pose proof (prefix_length_neq _ _ (digest_key (sha256 w)) El) as HP. fold full in HP.
    set (name_ok := if Interest.m_canBePrefix i then _ else _ : bool).
    exists (negb name_ok && fresh). split; [|split; [by left|]].
    + destruct name_ok; [by destruct d|]. cbn [negb andb]. by destruct d.
    + rewrite andb_true_iff, <- HF. apply and_iff_compat_r. subst name_ok. rewrite negb_true_iff.
      destruct (Interest.m_canBePrefix i); rewrite negb_false_iff, bool_decide_eq_true; [by rewrite HP|].
      split; [by left|]. intros [|H]; [done|]. unfold full in H. rewrite H, len_app in El. by destruct El.
Qed.

(** C23: [matchesData] decides the matching rule of the packet specification,
    for a Data packet that has been encoded: it returns, leaves the packet as
    it was but for the cached full name, and the result is true exactly when
    the Interest matches. *)
Theorem interest_matches_data (sha256 : bytes -> bytes) (Hlen : forall x, len (sha256 x) = 32)
    (i : Interest.t) (d : Data.t) (Hd : full_name_ok sha256 d) :
  exists w n r, Block.wire (Data.m_wire d) = Ok w /\
    Interest.matchesData sha256 i d = (Data.with_fullName n d, Ok r) /\
    (r = true <-> matches i d (NameFacts.keys (Data.m_name d) ++ [digest_key (sha256 w)])).
Proof.
  destruct Hd as (w & Hw & Hf). destruct (matchesData_spec sha256 Hlen i d w Hw Hf) as (n & r & H1 & _ & H2).
  exists w, n, r. by split_and!.
Qed.

Lemma interest_matches_data_witness :
  exists d w n r, Data.wireEncode sample_data = (d, Ok w) /\
    Interest.matchesData toy_digest (Interest.mk name_A [] None 4000 None false true [] Block.empty) d =
      (Data.with_fullName n d, Ok r) /\
    (r = true <-> matches (Interest.mk name_A [] None 4000 None false true [] Block.empty) d
      (NameFacts.keys (Data.m_name d) ++ [digest_key (toy_digest (BlockFacts.wire_bytes w))])).
Proof.
  destruct (Data.wireEncode sample_data) as [d [w|e]] eqn:E; [|vm_compute in E; discriminate E].
  assert (Hd : Block.wire (Data.m_wire d) = Ok (BlockFacts.wire_bytes w) /\ Name.isEmpty (Data.m_fullName d) = true).
  { vm_compute in E. injection E as <- <-. split; reflexivity. }
  destruct (interest_matches_data toy_digest toy_digest_length
    (Interest.mk name_A [] None 4000 None false true [] Block.empty) d) as (w' & n & r & H1 & H2 & H3).
  - exists (BlockFacts.wire_bytes w). split; [apply Hd|left; apply Hd].
  - rewrite (proj1 Hd) in H1. injection H1 as <-. exists d, w, n, r. split; [reflexivity|]. split; [exact H2|exact H3].
Defined.

(** *** The wire format *)

(** Equality of everything but the cached wires. *)
Definition same_interest (i j : Interest.t) : Prop :=
  Name.equals (Interest.m_name i) (Interest.m_name j) = true /\
  Forall2 (fun n m => Name.equals n m = true) (Interest.m_forwardingHint i) (Interest.m_forwardingHint j) /\
  Interest.m_nonce i = Interest.m_nonce j /\ Interest.m_interestLifetime i = Interest.m_interestLifetime j /\
  Interest.m_hopLimit i = Interest.m_hopLimit j /\ Interest.m_canBePrefix i = Interest.m_canBePrefix j /\
  Interest.m_mustBeFresh i = Interest.m_mustBeFresh j /\
  Forall2 (fun b c => Block.eqb b c = true) (Interest.m_parameters i) (Interest.m_parameters j).

Lemma same_interest_norm i : same_interest i (interest_norm i).
Proof.
  unfold same_interest, interest_norm. cbn [Interest.m_name Interest.m_forwardingHint Interest.m_parameters].
  split_and!; try done.
  - rewrite NameFacts.nequals_spec. unfold norm_name. rewrite keys_norm. by apply bool_decide_true.
  - apply Forall2_fmap_r, Forall2_same_length_lookup. split; [done|]. intros k n m En Em. replace m with n by congruence.
    change (Name.equals n (norm_name n) = true). rewrite NameFacts.nequals_spec. unfold norm_name. rewrite keys_norm. by apply bool_decide_true.
  - rewrite <- list_fmap_compose. apply Forall2_fmap_r, Forall2_same_length_lookup. split; [done|].
    intros k b c Eb Ec. replace c with b by congruence. exact (eqb_pair b).
Qed.

(** A consistent digest is what the encoder asks for. *)
Lemma check_digest_valid sha256 i : Interest.isParametersDigestValid sha256 i = Ok true -> Interest.check_digest i = Ok tt.
Proof.
  unfold Interest.isParametersDigestValid, Interest.check_digest. destruct (_ =? -1).
  - intros [= H]. by destruct (Interest.hasApplicationParameters i).
  - by destruct (Interest.hasApplicationParameters i).
Qed.

(** The Interest with the nonce that encoding gives it. *)
Definition with_fresh_nonce (fresh : bytes) (i : Interest.t) : Interest.t :=
  match Interest.m_nonce i with
  | Some _ => i
  | None => Interest.with_wire Block.empty (Interest.with_nonce (Some fresh) i)
  end.

Lemma getNonce_run fresh i : exists n, Interest.getNonce fresh i = (with_fresh_nonce fresh i, Ok n) /\
  Interest.m_nonce (with_fresh_nonce fresh i) = Some n.
Proof.
  unfold Interest.getNonce, with_fresh_nonce. rewrite bindM_self.
  destruct (Interest.m_nonce i) as [n|] eqn:E; [by exists n|by exists fresh].
Qed.

(** C2: an Interest survives its wire format: when its digest is consistent,
    encoding draws a nonce if there is none, gives one Interest element with
    the elements of the specification in order, and keeps the content of the
    object; decoding those octets, into any object, gives an equal Interest;
    and encoding again returns the cached element. *)
Theorem interest_wire_roundtrip (sha256 : bytes -> bytes) (autoCheck : bool) (fresh : bytes) (i i0 : Interest.t)
    (Hi : interest_ok i) (Hf : len fresh = 4) (Hw : Block.hasWire (Interest.m_wire i) = false)
    (Hd : Interest.isParametersDigestValid sha256 i = Ok true)
    (Hl : is_u64 (len (BlockFacts.tlv_seq (interest_seq (with_fresh_nonce fresh i))))) :
  exists i' b, Interest.wireEncode sha256 autoCheck fresh i = (i', Ok b) /\
    same_interest (with_fresh_nonce fresh i) i' /\
    Block.wire b = Ok (tlv_bytes tlv.Interest (BlockFacts.tlv_seq (interest_seq (with_fresh_nonce fresh i)))) /\
    Interest.wireEncode sha256 autoCheck fresh i' = (i', Ok b) /\
    exists w, Block.fromSpan (tlv_bytes tlv.Interest (BlockFacts.tlv_seq (interest_seq (with_fresh_nonce fresh i)))) = Ok w /\
      Interest.wireDecode sha256 autoCheck w i0 = (i', Ok tt).
Proof.
  destruct (getNonce_run fresh i) as (n & En & Hn). set (j := with_fresh_nonce fresh i) in *.
  assert (Hj : interest_ok j).
  { subst j. unfold with_fresh_nonce in *. destruct (Interest.m_nonce i) as [n'|] eqn:E; [done|].
    destruct Hi as (H1 & H2 & H3 & H4 & H5 & H6 & (H7 & H8 & H9)). split_and!; try done; [apply H4..|].
    split; [exact H7|]. split; [exact H8|]. by intros ? [= <-]. }
  assert (Hdj : Interest.isParametersDigestValid sha256 j = Ok true).
  { subst j. unfold with_fresh_nonce. destruct (Interest.m_nonce i); [done|]. exact Hd. }
  pose proof (interest_decode sha256 autoCheck j) as HD.
  assert (HW : Block.wire (Interest.m_wire (interest_norm j)) =
    Ok (tlv_bytes tlv.Interest (BlockFacts.tlv_seq (interest_seq j)))) by apply ComponentFacts.wire_of_tlv.
  assert (HW' : Block.hasWire (Interest.m_wire (interest_norm j)) = true).
  { revert HW. unfold Block.wire, Block.hasWire. by destruct (Block.m_buf _) as [[[|x w] v]|]. }
  exists (interest_norm j), (Interest.m_wire (interest_norm j)). split_and!.
  - unfold Interest.wireEncode. rewrite bindM_self, Hw.
    rewrite (bindM_lift _ _ _ tt) by (by eapply check_digest_valid).
    rewrite (bindM_ok _ _ _ _ _ En), bindM_self.
    rewrite (bindM_lift _ _ _ (seq_block tlv.Interest (interest_seq j))).
    + by rewrite (bindM_ok _ _ _ _ _ (HD j n Hj Hn (fun _ => Hdj) Hl)).
    + apply makeBlock_seq; [apply EncSeq_interest, Hj|by vm_compute|done].
  - apply same_interest_norm.
  - exact HW.
  - unfold Interest.wireEncode. by rewrite bindM_self, HW'.
  - exists (seq_block tlv.Interest (interest_seq j)). split; [apply BlockFacts.fromSpan_of_tlv; [by vm_compute|done]|].
    by apply (HD i0 n).
Qed.

Lemma sample_interest_inv : inv sample_interest.
Proof.
  split; [by vm_compute|]. split; [|by intros n [= <-]]. split; [by vm_compute|].
  constructor; [by vm_compute|constructor].
Qed.

Lemma sample_interest_ok : interest_ok sample_interest.
Proof.
  split; [|split; [|split; [|split; [|split; [|split]]]]].
  - constructor; [by vm_compute|]. constructor; [by vm_compute|constructor].
  - by vm_compute.
  - constructor.
  - by vm_compute.
  - constructor; [|constructor]. split; [split|]; by vm_compute.
  - constructor.
  - apply sample_interest_inv.
Qed.

Lemma interest_wire_roundtrip_witness :
  exists i' b, Interest.wireEncode toy_digest true (str "wxyz") sample_interest = (i', Ok b) /\
    same_interest sample_interest i' /\ exists w, Block.wire b = Ok w /\ len w = 56.
Proof.
  destruct (interest_wire_roundtrip toy_digest true (str "wxyz") sample_interest sample_interest) as (i' & b & H1 & H2 & H3 & _).
  - apply sample_interest_ok.
  - reflexivity.
  - reflexivity.
  - by vm_compute.
  - by vm_compute.
  - exists i', b. split; [exact H1|]. split; [exact H2|]. eexists. split; [exact H3|]. by vm_compute.
Defined.

(** *** Error paths *)

(** Setting an unset SignatureInfo throws, but only after an empty
    ApplicationParameters has been stored: an Interest without parameters is
    left with parameters and without their digest, and a cached wire that has
    neither is kept. *)
Theorem interest_setSignatureInfo_partial (sha256 : bytes -> bytes) (i : Interest.t)
    (Hp : Interest.m_parameters i = [])
    (Hd : Interest.findParametersDigestComponent (Interest.m_name i) = -1) :
  exists i' e, Interest.setSignatureInfo sha256 SignatureInfo.init i = (i', Throw e) /\
    Interest.isParametersDigestValid sha256 i = Ok true /\
    Interest.isParametersDigestValid sha256 i' = Ok false /\
    Interest.hasApplicationParameters i' = true /\ Interest.m_wire i' = Interest.m_wire i.
Proof.
  exists (with_default_params i). eexists. unfold Interest.isParametersDigestValid, with_default_params. rewrite Hp, Hd.
  cbn [Interest.m_name Interest.with_parameters]. rewrite Hd, Z.eqb_refl. unfold Interest.hasApplicationParameters. rewrite Hp.
  split; [|done]. unfold Interest.setSignatureInfo. rewrite bindM_self, Hp.
  erewrite bindM_ok; [reflexivity|]. by rewrite (bindM_lift _ _ _ _ makeEmpty_params).
Qed.

Lemma interest_setSignatureInfo_partial_witness :
  exists i' e, Interest.setSignatureInfo toy_digest SignatureInfo.init
      (Interest.mk name_A [] None 4000 None false true [] Block.empty) = (i', Throw e) /\
    Interest.isParametersDigestValid toy_digest i' = Ok false.
Proof.
  destruct (interest_setSignatureInfo_partial toy_digest (Interest.mk name_A [] None 4000 None false true [] Block.empty))
    as (i' & e & H1 & _ & H3 & _).
  - reflexivity.
  - reflexivity.
  - exists i', e. split; [exact H1|exact H3].
Defined.

(** An Interest can be decoded although its InterestSignatureInfo is
    malformed; asking whether it is signed then throws, out of a function that
    is [noexcept]. *)
Definition bad_signed_wire : bytes :=
  tlv_bytes tlv.Interest (BlockFacts.tlv_seq
    [(tlv.Name, tlv_bytes 8 (str "A") ++ tlv_bytes 2 (replicate 32 (z2b 7)));
     (tlv.ApplicationParameters, []);
     (tlv.InterestSignatureInfo, []);
     (tlv.InterestSignatureValue, [])]).

Theorem interest_isSigned_throws :
  exists w i e, Block.fromSpan bad_signed_wire = Ok w /\
    Interest.ofBlock (fun _ => replicate 32 (z2b 7)) true w = Ok i /\ Interest.isSigned i = Throw e.
Proof.
  destruct (Block.fromSpan bad_signed_wire) as [w|e] eqn:E; [|vm_compute in E; discriminate E]. exists w.
  vm_compute in E. injection E as <-. do 2 eexists. split; [reflexivity|]. split; vm_compute; reflexivity.
Qed.

(** A lifetime of 2^63 milliseconds or more on the wire is negative in the
    object, although the setter refuses negative lifetimes. *)
Definition long_lifetime_wire : bytes :=
  tlv_bytes tlv.Interest (BlockFacts.tlv_seq
    [(tlv.Name, tlv_bytes 8 (str "A")); (tlv.InterestLifetime, be_bytes 8 (2 ^ 63 + 5))]).

Theorem interest_lifetime_negative :
  exists w i, Block.fromSpan long_lifetime_wire = Ok w /\
    Interest.ofBlock toy_digest true w = Ok i /\ Interest.m_interestLifetime i = - 2 ^ 63 + 5.
Proof.
  destruct (Block.fromSpan long_lifetime_wire) as [w|e] eqn:E; [|vm_compute in E; discriminate E]. exists w.
  vm_compute in E. injection E as <-. eexists. split; [reflexivity|]. split; vm_compute; reflexivity.
Qed.

End InterestTheorems.
