(* ===== verification/InMemoryStorage.v ===== *)
(** In-memory storage of Data packets: [ndn-cxx/ims/*].

    The storage keeps its entries in one container ordered by full name, takes
    them from a pool, grows by doubling up to a limit and then evicts.  The
    virtual functions of the derived classes are the class [Policy], the
    members of the base class are proved against it; FIFO, LRU, LFU and the
    persistent storage are its instances.

    An entry is identified by its address, a number; [new] takes the next one.
    The ordered index is the list of the stored entries in ascending order.
    The timer events that mark entries as stale are an operation of their own,
    which may run at any time while the event is pending. *)

From Stdlib Require Import Sorted.
From S2P Require Import Prelude Tlv Encoding Blocks BlockHelpers Text NameComponents Names Fields DataPacket InterestPacket.

Module ims.

(** [ndn-cxx/ims/in-memory-storage-entry.hpp:33-95] InMemoryStorageEntry
    [e_fullName] is the full name that the packet caches, [e_pending] whether
    an event to mark the entry as stale is scheduled. *)
Record entry := mk_entry {
  e_address : nat;
  e_data : Data.t;
  e_fullName : Name.t;
  e_isFresh : bool;
  e_pending : bool;
}.

(** [ndn-cxx/ims/in-memory-storage.hpp:220-250] InMemoryStorage (the virtual functions)
    An entry is passed by its address.  [victim] is the first entry of the
    clean-up index, [drop] erases it there. *)
Class Policy (P : Type) := {
  afterInsert : nat -> P -> P;
  beforeErase : nat -> P -> P;
  afterAccess : nat -> P -> P;
  victim : P -> option nat;
  drop_victim : P -> P;
}.

(** [ndn-cxx/ims/in-memory-storage.hpp:331-345] InMemoryStorage (the fields)
    [m_heap] is the next address, [m_hasScheduler] whether [m_scheduler] is set. *)
Record t (P : Type) := mk {
  m_cache : list entry;
  m_limit : Z;
  m_capacity : Z;
  m_nPackets : Z;
  m_freeEntries : list nat;
  m_heap : nat;
  m_hasScheduler : bool;
  m_policy : P;
}.
Arguments mk {P}. Arguments m_cache {P}. Arguments m_limit {P}. Arguments m_capacity {P}.
Arguments m_nPackets {P}. Arguments m_freeEntries {P}. Arguments m_heap {P}.
Arguments m_hasScheduler {P}. Arguments m_policy {P}.

(** [ndn-cxx/ims/in-memory-storage.hpp:336-336] InMemoryStorage::m_initCapacity *)
Definition m_initCapacity : Z := 16.

(** [ndn-cxx/name.hpp:633-637] operator<(const Name&, const Name&)
    The order of the index; it is total on names that can be compared. *)
Definition less (a b : Name.t) : bool :=
  match Name.compare a b with Some (Ok z) => z <? 0 | _ => false end.

Section storage.
Context {P : Type} `{Policy P}.
Variable sha256 : bytes -> bytes.
Implicit Types s : t P.

Definition with_cache x (s : t P) := mk x (m_limit s) (m_capacity s) (m_nPackets s) (m_freeEntries s) (m_heap s) (m_hasScheduler s) (m_policy s).
Definition with_capacity x (s : t P) := mk (m_cache s) (m_limit s) x (m_nPackets s) (m_freeEntries s) (m_heap s) (m_hasScheduler s) (m_policy s).
Definition with_nPackets x (s : t P) := mk (m_cache s) (m_limit s) (m_capacity s) x (m_freeEntries s) (m_heap s) (m_hasScheduler s) (m_policy s).
Definition with_free x (s : t P) := mk (m_cache s) (m_limit s) (m_capacity s) (m_nPackets s) x (m_heap s) (m_hasScheduler s) (m_policy s).
Definition with_heap x (s : t P) := mk (m_cache s) (m_limit s) (m_capacity s) (m_nPackets s) (m_freeEntries s) x (m_hasScheduler s) (m_policy s).
Definition with_policy (x : P) (s : t P) := mk (m_cache s) (m_limit s) (m_capacity s) (m_nPackets s) (m_freeEntries s) (m_heap s) (m_hasScheduler s) x.

(** [m_freeEntries.push(new InMemoryStorageEntry());], [k] times *)
Fixpoint push_new (k : nat) s : t P :=
  match k with
  | O => s
  | S k => push_new k (with_heap (S (m_heap s)) (with_free (m_heap s :: m_freeEntries s) s))
  end.

(** [ndn-cxx/ims/in-memory-storage.cpp:84-112] InMemoryStorage::InMemoryStorage, InMemoryStorage::init *)
Definition init (p : P) (hasScheduler : bool) (limit : Z) : t P :=
  let capacity := if negb (limit =? UINT64_MAX) && (limit <? m_initCapacity) then limit else m_initCapacity in
  push_new (Z.to_nat capacity) (mk [] limit capacity 0 [] O hasScheduler p).

(** [ndn-cxx/ims/in-memory-storage.hpp:198-202] InMemoryStorage::size *)
Definition size s : Z := m_nPackets s.

(** [ndn-cxx/ims/in-memory-storage.hpp:268-272] InMemoryStorage::isFull *)
Definition isFull s : bool := m_capacity s <=? size s.

(** The position of the first entry whose key is not less than [name]. *)
Fixpoint lower_bound (name : Name.t) (l : list entry) : nat :=
  match l with
  | [] => O
  | e :: l => if less (e_fullName e) name then S (lower_bound name l) else O
  end.

(** The entry with an equivalent key, if any. *)
Definition find_entry (name : Name.t) (l : list entry) : option entry :=
  match l !! lower_bound name l with
  | Some e => if less name (e_fullName e) then None else Some e
  | None => None
  end.

(** [m_cache.insert(entry)] for a key that is not there. *)
Definition insert_entry (e : entry) (l : list entry) : list entry :=
  let k := lower_bound (e_fullName e) l in take k l ++ e :: drop k l.

(** [ndn-cxx/ims/in-memory-storage.cpp:310-318] InMemoryStorage::freeEntry *)
Definition freeEntry (e : entry) s : t P :=
  let s := with_free (e_address e :: m_freeEntries s) s in
  let s := with_nPackets (m_nPackets s - 1) s in
  with_cache (base.filter (fun x => e_address x <> e_address e) (m_cache s)) s.

(** [ndn-cxx/ims/in-memory-storage.cpp:345-353] InMemoryStorage::eraseImpl *)
Definition eraseImpl (name : Name.t) s : t P :=
  match find_entry name (m_cache s) with
  | Some e => freeEntry e s
  | None => s
  end.

(** The entry at an address. *)
Definition deref (a : nat) (l : list entry) : option entry := List.find (fun e => Nat.eqb (e_address e) a) l.

(** [ndn-cxx/ims/in-memory-storage-fifo.cpp:43-54] InMemoryStorageFifo::evictItem
    The same in [InMemoryStorageLru] and [InMemoryStorageLfu] with their
    index; a dangling pointer in the index would be undefined behaviour. *)
Definition evictItem : M (t P) bool :=
  s ← self;
  match victim (m_policy s) with
  | Some a =>
      match deref a (m_cache s) with
      | Some e =>
          _ ← modify (eraseImpl (e_fullName e));
          _ ← modify (fun s => with_policy (drop_victim (m_policy s)) s);
          mret true
      | None => throwM (RuntimeError "undefined behaviour: dangling entry in the clean-up index")
      end
  | None => mret false
  end.

(** [ndn-cxx/ims/in-memory-storage.cpp:138-142] InMemoryStorage::setCapacity (the loop)
    Every turn evicts a packet or uses up an allowed failure. *)
Fixpoint shrink_loop (fuel : nat) (nAllowedFailures : Z) : M (t P) unit :=
  match fuel with
  | O => mret tt
  | S fuel =>
      s ← self;
      if m_capacity s <? size s then
        ok ← evictItem;
        if negb ok then
          let nAllowedFailures := nAllowedFailures - 1 in
          _ ← throwM_if (nAllowedFailures <? 0) (RuntimeError "Cannot reduce the capacity of the in-memory storage!");
          shrink_loop fuel nAllowedFailures
        else shrink_loop fuel nAllowedFailures
      else mret tt
  end.

(** [ndn-cxx/ims/in-memory-storage.cpp:130-158] InMemoryStorage::setCapacity *)
Definition setCapacity (capacity : Z) : M (t P) unit :=
  s ← self;
  let oldCapacity := m_capacity s in
  _ ← modify (with_capacity (Z.max capacity m_initCapacity));
  s ← self;
  _ ← (if m_capacity s <? size s
       then shrink_loop (S (Z.to_nat (2 * size s))) (i64 (size s - m_capacity s))
       else mret tt);
  s ← self;
  if oldCapacity <=? m_capacity s then modify (push_new (Z.to_nat (m_capacity s - oldCapacity)))
  else
    let k := Z.to_nat (oldCapacity - m_capacity s) in
    _ ← throwM_if (length (m_freeEntries s) <? k)%nat (RuntimeError "undefined behaviour: top() of an empty stack");
    modify (fun s => with_free (drop k (m_freeEntries s)) s).

(** [ndn-cxx/ims/in-memory-storage.cpp:160-195] InMemoryStorage::insert
    [window] is [mustBeFreshProcessingWindow] in milliseconds. *)
Definition insert (data : Data.t) (window : Z) : M (t P) unit :=
  let '(data, fullName) := Data.getFullName sha256 data in
  fullName ← liftR fullName;
  s ← self;
  match find_entry fullName (m_cache s) with
  | Some _ => mret tt
  | None =>
      let doesReachLimit := m_limit s =? m_capacity s in
      _ ← (if isFull s && negb doesReachLimit
           then setCapacity (Z.min (u64 (2 * m_capacity s)) (m_limit s)) else mret tt);
      s ← self;
      _ ← (if isFull s && doesReachLimit then _ ← evictItem; mret tt else mret tt);
      s ← self;
      match m_freeEntries s with
      | [] => throwM (RuntimeError "assertion m_freeEntries.size() > 0 failed")
      | a :: free =>
          let e := mk_entry a data fullName true (m_hasScheduler s && (0 <? window)) in
          _ ← modify (with_free free);
          _ ← modify (fun s => with_nPackets (m_nPackets s + 1) s);
          _ ← modify (fun s => with_cache (insert_entry e (m_cache s)) s);
          modify (fun s => with_policy (afterInsert a (m_policy s)) s)
      end
  end.

(** [ndn-cxx/ims/in-memory-storage-entry.cpp:45-49] InMemoryStorageEntry::scheduleMarkStale
    The event, when the timer of the entry at [a] expires. *)
Definition markStale (a : nat) s : t P :=
  with_cache ((fun e => if Nat.eqb (e_address e) a && e_pending e
                        then mk_entry a (e_data e) (e_fullName e) false false else e) <$> m_cache s) s.

Definition accessed (e : entry) : M (t P) unit :=
  modify (fun s => with_policy (afterAccess (e_address e) (m_policy s)) s).

(** [ndn-cxx/ims/in-memory-storage.cpp:197-214] InMemoryStorage::find(const Name&) *)
Definition findName (name : Name.t) : M (t P) (option Data.t) :=
  s ← self;
  match m_cache s !! lower_bound name (m_cache s) with
  | None => mret None
  | Some e =>
      if negb (Name.isPrefixOf name (e_fullName e)) then mret None
      else _ ← accessed e; mret (Some (e_data e))
  end.

(** [ndn-cxx/ims/in-memory-storage.cpp:250-259] InMemoryStorage::findNextFresh
    An iterator is the rest of the index from it on. *)
Fixpoint findNextFresh (it : list entry) : list entry :=
  match it with
  | [] => []
  | e :: l => if e_isFresh e then it else findNextFresh l
  end.

(** [interest.matchesData(entry->getData())], the full name being cached *)
Definition matchesEntry (interest : Interest.t) (e : entry) : result bool :=
  snd (Interest.matchesData sha256 interest (e_data e)).

(** [ndn-cxx/ims/in-memory-storage.cpp:284-305] InMemoryStorage::selectChild (the loop to the right)
    Every turn leaves the entry it looked at behind. *)
Fixpoint right_loop (fuel : nat) (interest : Interest.t) (it : list entry) : result (option entry) :=
  match fuel with
  | O => Ok None
  | S fuel =>
      let it := if Interest.m_mustBeFresh interest then findNextFresh it else it in
      match it with
      | [] => Ok None
      | e :: rest =>
          if Name.isPrefixOf (Interest.m_name interest) (e_fullName e) then
            m ← matchesEntry interest e;
            if m : bool then Ok (Some e) else right_loop fuel interest rest
          else Ok None
      end
  end.

(** [ndn-cxx/ims/in-memory-storage.cpp:261-308] InMemoryStorage::selectChild *)
Definition selectChild (interest : Interest.t) (startingPoint : list entry) : result (option entry) :=
  let startingPoint := if Interest.m_mustBeFresh interest then findNextFresh startingPoint else startingPoint in
  match startingPoint with
  | [] => Ok None
  | e :: rest =>
      m ← matchesEntry interest e;
      if m : bool then Ok (Some e) else right_loop (S (length rest)) interest rest
  end.

(** [ndn-cxx/ims/in-memory-storage.cpp:216-248] InMemoryStorage::find(const Interest&) *)
Definition findInterest (interest : Interest.t) : M (t P) (option Data.t) :=
  s ← self;
  let name := Interest.m_name interest in
  match find_entry name (m_cache s) with
  | Some e => mret (Some (e_data e))
  | None =>
      let k := lower_bound name (m_cache s) in
      match drop k (m_cache s) with
      | [] => mret None
      | _ :: _ =>
          ret ← liftR (selectChild interest (drop (pred k) (m_cache s)));
          match ret with
          | None => mret None
          | Some e => _ ← accessed e; mret (Some (e_data e))
          end
      end
  end.

(** [ndn-cxx/ims/in-memory-storage.cpp:325-329] InMemoryStorage::erase (the loop) *)
Fixpoint erase_loop (prefix : Name.t) (it : list entry) s : t P :=
  match it with
  | [] => s
  | e :: rest =>
      if Name.isPrefixOf prefix (Data.m_name (e_data e)) then
        erase_loop prefix rest (freeEntry e (with_policy (beforeErase (e_address e) (m_policy s)) s))
      else s
  end.

(** [ndn-cxx/ims/in-memory-storage.cpp:320-343] InMemoryStorage::erase *)
Definition erase (prefix : Name.t) (isPrefix : bool) : M (t P) unit :=
  s ← self;
  let shrink : M (t P) unit :=
    s ← self;
    if 2 * size s <? len (m_freeEntries s) then setCapacity (m_capacity s / 2) else mret tt in
  if isPrefix then
    _ ← modify (erase_loop prefix (drop (lower_bound prefix (m_cache s)) (m_cache s)));
    shrink
  else
    match find_entry prefix (m_cache s) with
    | None => mret tt
    | Some e =>
        _ ← modify (fun s => freeEntry e (with_policy (beforeErase (e_address e) (m_policy s)) s));
        shrink
    end.

End storage.

(** *** The replacement policies *)

(** [ndn-cxx/ims/in-memory-storage-fifo.hpp:62-85] InMemoryStorageFifo::CleanupIndex
    Entries in the order of arrival, each at most once. *)
Definition fifo := list nat.

(** [ndn-cxx/ims/in-memory-storage-fifo.cpp:36-41] InMemoryStorageFifo::afterInsert *)
Definition fifo_insert (a : nat) (l : list nat) : list nat := if bool_decide (a ∈ l) then l else l ++ [a].

(** [ndn-cxx/ims/in-memory-storage-fifo.cpp:56-62] InMemoryStorageFifo::beforeErase *)
Definition fifo_erase (a : nat) (l : list nat) : list nat := base.filter (fun b => b <> a) l.

(** [ndn-cxx/ims/in-memory-storage-fifo.cpp:36-62] InMemoryStorageFifo *)
#[export] Instance Fifo : Policy fifo := {|
  afterInsert := fifo_insert;
  beforeErase := fifo_erase;
  afterAccess := fun _ l => l;
  victim := head;
  drop_victim := tail;
|}.

(** [ndn-cxx/ims/in-memory-storage-lru.hpp:71-94] InMemoryStorageLru::CleanupIndex
    Entries in the order of their last use. *)
Record lru := Lru_index { lru_list : list nat }.

(** [ndn-cxx/ims/in-memory-storage-lru.cpp:37-71] InMemoryStorageLru *)
#[export] Instance Lru : Policy lru := {|
  afterInsert := fun a l => Lru_index (fifo_insert a (lru_list l));
  beforeErase := fun a l => Lru_index (fifo_erase a (lru_list l));
  afterAccess := fun a l => Lru_index (fifo_insert a (fifo_erase a (lru_list l)));
  victim := fun l => head (lru_list l);
  drop_victim := fun l => Lru_index (tail (lru_list l));
|}.

(** [ndn-cxx/ims/in-memory-storage-lfu.hpp:73-114] InMemoryStorageLfu::CleanupIndex
    Entries with their frequency.  Which of the least frequent ones comes first
    in the [byFrequency] index is up to the container: [first] is a parameter. *)
Record lfu := Lfu_index { lfu_list : list (nat * Z) }.

(** [ndn-cxx/ims/in-memory-storage-lfu.cpp:36-44] InMemoryStorageLfu::afterInsert *)
Definition lfu_insert (a : nat) (l : list (nat * Z)) : list (nat * Z) :=
  if bool_decide (a ∈ l.*1) then l else l ++ [(a, 0)].

(** [ndn-cxx/ims/in-memory-storage-lfu.cpp:59-65] InMemoryStorageLfu::beforeErase *)
Definition lfu_erase (a : nat) (l : list (nat * Z)) : list (nat * Z) := base.filter (fun x => x.1 <> a) l.

(** [ndn-cxx/ims/in-memory-storage-lfu.cpp:67-72] InMemoryStorageLfu::afterAccess *)
Definition lfu_access (a : nat) (l : list (nat * Z)) : list (nat * Z) :=
  (fun x => if Nat.eqb x.1 a then (x.1, u64 (x.2 + 1)) else x) <$> l.

Section lfu.
Variable first : list (nat * Z) -> option nat.

(** [ndn-cxx/ims/in-memory-storage-lfu.cpp:36-72] InMemoryStorageLfu *)
Definition Lfu : Policy lfu := {|
  afterInsert := fun a l => Lfu_index (lfu_insert a (lfu_list l));
  beforeErase := fun a l => Lfu_index (lfu_erase a (lfu_list l));
  afterAccess := fun a l => Lfu_index (lfu_access a (lfu_list l));
  victim := fun l => first (lfu_list l);
  drop_victim := fun l => match first (lfu_list l) with
                          | Some a => Lfu_index (lfu_erase a (lfu_list l))
                          | None => l
                          end;
|}.

End lfu.

(** [ndn-cxx/ims/in-memory-storage-persistent.cpp:36-40] InMemoryStoragePersistent
    No clean-up index: nothing is evicted. *)
#[export] Instance Persistent : Policy unit := {|
  afterInsert := fun _ p => p;
  beforeErase := fun _ p => p;
  afterAccess := fun _ p => p;
  victim := fun _ => None;
  drop_victim := fun p => p;
|}.

End ims.

(** ** Lemmas *)

Module ImsFacts.
Import ims NameFacts.

(** *** The order of the index *)

Definition ekey (e : entry) : list (Z * Z * Z) := keys (e_fullName e).

Lemma less_spec a b : ordered_name a -> ordered_name b -> less a b = true <-> keys_lt (keys a) (keys b).
Proof.
  intros Ha Hb. unfold less. destruct (compare_names a b Ha Hb) as (r & -> & Hs).
  unfold keys_lt. rewrite Z.ltb_lt. destruct (keys_cmp _ _); cbn in Hs; split; intros; try done; lia.
Qed.

Lemma keys_lt_total a b : keys_lt a b \/ a = b \/ keys_lt b a.
Proof.
  unfold keys_lt. rewrite (keys_cmp_antisym a b). destruct (keys_cmp a b) eqn:E; auto. right. left. by apply keys_cmp_eq.
Qed.

(** The extensions of a name are an interval that begins at the name. *)
Lemma prefix_interval n a b : ~ keys_lt a n -> keys_lt a b -> n `prefix_of` b -> n `prefix_of` a.
Proof.
  revert a b. induction n as [|x n IH]; intros a b Hn Hab [k ->]; [apply prefix_nil|].
  destruct a as [|y a]; [by destruct Hn|]. cbn [app] in Hab. rewrite keys_lt_cons in Hn, Hab.
  destruct Hab as [Hab|[-> Hab]]; [tauto|]. apply prefix_cons. apply (IH a (n ++ k)); [tauto|done|by eexists].
Qed.

Lemma prefix_not_lt n a : n `prefix_of` a -> ~ keys_lt a n.
Proof.
  intros [k ->] H. rewrite <- (app_nil_r n) in H at 2. apply (proj1 (keys_lt_app n k [])) in H. by destruct k.
Qed.

Definition elt (e e' : entry) : Prop := keys_lt (ekey e) (ekey e').

(** A sorted index whose keys can be compared. *)
Definition index_ok (l : list entry) : Prop :=
  StronglySorted elt l /\ Forall (fun e => ordered_name (e_fullName e)) l.

Lemma index_cons e l : index_ok (e :: l) ->
  index_ok l /\ Forall (elt e) l /\ ordered_name (e_fullName e).
Proof. intros [Hs Ho]. inversion Hs; inversion Ho; subst. split_and!; [by split|done|done]. Qed.

Lemma index_drop k l : index_ok l -> index_ok (drop k l).
Proof.
  revert l. induction k as [|k IH]; intros l Hl; [by rewrite drop_0|]. destruct l as [|e l]; [done|].
  apply index_cons in Hl as [Hl _]. by apply IH.
Qed.

Lemma lower_bound_spec n l : ordered_name n -> index_ok l ->
  Forall (fun e => keys_lt (ekey e) (keys n)) (take (lower_bound n l) l) /\
  Forall (fun e => ~ keys_lt (ekey e) (keys n)) (drop (lower_bound n l) l).
Proof.
  intros Hn. induction l as [|e l IH]; intros Hl; [by repeat constructor|].
  apply index_cons in Hl as (Hl & He & Ho). cbn [lower_bound].
  destruct (less (e_fullName e) n) eqn:E.
  - apply less_spec in E; [|done..]. destruct (IH Hl) as [H1 H2]. cbn [take drop]. split; [by constructor|done].
  - cbn [take drop]. split; [constructor|].
    assert (Hlt : ~ keys_lt (ekey e) (keys n)) by (intros H; apply less_spec in H; [congruence|done..]).
    constructor; [done|]. eapply Forall_impl; [|exact He]. intros e' He' H. apply Hlt. by eapply keys_lt_trans.
Qed.

Lemma take_drop_elem {A} k (l : list A) x : x ∈ l <-> x ∈ take k l \/ x ∈ drop k l.
Proof. by rewrite <- elem_of_app, take_drop. Qed.

Lemma Forall_elem {A} (P : A -> Prop) l x : Forall P l -> x ∈ l -> P x.
Proof. rewrite Forall_forall. intros H Hx. by apply H, list_elem_of_In. Qed.

(** Keys are unique. *)
Lemma index_unique l e e' : index_ok l -> e ∈ l -> e' ∈ l -> ekey e = ekey e' -> e = e'.
Proof.
  induction l as [|x l IH]; intros Hl He He' E; [by inversion He|].
  apply index_cons in Hl as (Hl & Hx & _). apply elem_of_cons in He as [->|He]; apply elem_of_cons in He' as [->|He']; [done| | |].
  - pose proof (Forall_elem _ _ _ Hx He') as H. unfold elt in H. rewrite E in H. by apply keys_lt_irrefl in H.
  - pose proof (Forall_elem _ _ _ Hx He) as H. unfold elt in H. rewrite E in H. by apply keys_lt_irrefl in H.
  - by apply IH.
Qed.

Lemma find_entry_spec n l : ordered_name n -> index_ok l ->
  match find_entry n l with
  | Some e => e ∈ l /\ ekey e = keys n
  | None => forall e, e ∈ l -> ekey e <> keys n
  end.
Proof.
  intros Hn Hl. destruct (lower_bound_spec n l Hn Hl) as [H1 H2]. unfold find_entry.
  destruct (l !! lower_bound n l) as [e|] eqn:E.
  - pose proof (drop_S _ _ _ E) as Ed. rewrite Ed in H2. inversion H2 as [|? ? Hlt Hrest]; subst.
    assert (Ho : ordered_name (e_fullName e)) by (apply (Forall_elem _ _ _ (proj2 Hl)); by eapply list_elem_of_lookup_2).
    destruct (less n (e_fullName e)) eqn:El.
    + apply less_spec in El; [|done..]. intros e' He' Ek. rewrite (take_drop_elem (lower_bound n l)), Ed in He'.
      destruct He' as [He'|He'].
      * pose proof (Forall_elem _ _ _ H1 He') as H. cbn in H. rewrite Ek in H. by apply keys_lt_irrefl in H.
      * apply elem_of_cons in He' as [->|He'].
        -- rewrite <- Ek in El. by apply keys_lt_irrefl in El.
        -- pose proof (index_drop (lower_bound n l) l Hl) as Hd. rewrite Ed in Hd. apply index_cons in Hd as (_ & Hd & _).
           pose proof (Forall_elem _ _ _ Hd He') as H. unfold elt in H. rewrite Ek in H.
           apply (keys_lt_irrefl (keys n)). by eapply keys_lt_trans.
    + split; [by eapply list_elem_of_lookup_2|]. destruct (keys_lt_total (ekey e) (keys n)) as [|[|H]]; [done|done|].
      apply less_spec in H; [congruence|done..].
  - intros e He Ek. rewrite take_ge in H1 by (by apply lookup_ge_None). pose proof (Forall_elem _ _ _ H1 He) as H.
    cbn in H. rewrite Ek in H. by apply keys_lt_irrefl in H.
Qed.

Lemma sorted_app {A} (R : A -> A -> Prop) l k : StronglySorted R l -> StronglySorted R k ->
  (forall x y, x ∈ l -> y ∈ k -> R x y) -> StronglySorted R (l ++ k).
Proof.
  induction 1 as [|x l Hl IH Hx]; intros Hk H; [done|]. cbn [app]. constructor.
  - apply IH; [done|]. intros y z Hy Hz. apply H; [by right|done].
  - apply Forall_app. split; [done|]. rewrite Forall_forall. intros y Hy. apply H; [left|by apply list_elem_of_In].
Qed.

Lemma sorted_split {A} (R : A -> A -> Prop) k l : StronglySorted R l ->
  StronglySorted R (take k l) /\ StronglySorted R (drop k l).
Proof.
  revert l. induction k as [|k IH]; intros l Hl; [by rewrite drop_0; split; [constructor|]|].
  destruct Hl as [|x l Hl Hx]; [by split; constructor|]. cbn [take drop]. destruct (IH l Hl) as [H1 H2]. split; [|done].
  constructor; [done|]. by apply Forall_take.
Qed.

Lemma insert_entry_ok e l : index_ok l -> ordered_name (e_fullName e) -> (forall x, x ∈ l -> ekey x <> ekey e) ->
  index_ok (insert_entry e l) /\ insert_entry e l ≡ₚ e :: l.
Proof.
  intros Hl He Hne. unfold insert_entry. set (k := lower_bound (e_fullName e) l).
  destruct (lower_bound_spec (e_fullName e) l He Hl) as [H1 H2]. fold k in H1, H2.
  assert (Hp : take k l ++ e :: drop k l ≡ₚ e :: l) by (rewrite <- Permutation_middle, take_drop; done).
  split; [|done]. destruct Hl as [Hs Ho]. split; [|by rewrite Hp; constructor].
  destruct (sorted_split elt k l Hs) as [Hs1 Hs2]. apply sorted_app; [done| |].
  - constructor; [done|]. rewrite Forall_forall. intros x Hx. apply list_elem_of_In in Hx.
    pose proof (Forall_elem _ _ _ H2 Hx) as Hlt. unfold elt.
    destruct (keys_lt_total (ekey e) (ekey x)) as [|[Eq|]]; [done| |done].
    exfalso. apply (Hne x); [|done]. rewrite (take_drop_elem k). by right.
  - intros x y Hx Hy. pose proof (Forall_elem _ _ _ H1 Hx) as Hlt. apply elem_of_cons in Hy as [->|Hy]; [done|].
    pose proof (Forall_elem _ _ _ H2 Hy) as Hge. unfold elt.
    destruct (keys_lt_total (ekey x) (ekey y)) as [|[Eq|Hgt]]; [done| |].
    + exfalso. apply Hge. cbn. by rewrite <- Eq.
    + exfalso. apply Hge. by eapply keys_lt_trans.
Qed.

Lemma filter_index_ok (Q : entry -> Prop) `{!forall x, Decision (Q x)} l : index_ok l -> index_ok (base.filter Q l).
Proof.
  intros [Hs Ho]. split.
  - clear Ho. induction Hs as [|x l Hs IH Hx]; [constructor|]. rewrite filter_cons. destruct (decide (Q x)); [|done].
    constructor; [done|]. rewrite Forall_forall in *. intros y Hy. apply Hx. apply list_elem_of_In in Hy.
    apply list_elem_of_filter in Hy as [_ Hy]. by apply list_elem_of_In.
  - rewrite Forall_forall in *. intros y Hy. apply list_elem_of_In, list_elem_of_filter in Hy as [_ Hy].
    by apply Ho, list_elem_of_In.
Qed.

(** *** What a policy promises to the storage *)

(** [tracked] is the set of entries in the clean-up index. *)
Class PolicyLaws (P : Type) `{Policy P} := {
  tracked : P -> list nat;
  tracked_insert a p : a ∉ tracked p -> tracked (afterInsert a p) ≡ₚ a :: tracked p;
  tracked_erase a p : tracked (beforeErase a p) = base.filter (fun b => b <> a) (tracked p);
  tracked_access a p : a ∈ tracked p -> NoDup (tracked p) -> tracked (afterAccess a p) ≡ₚ tracked p;
  victim_spec p : match victim p with Some a => a ∈ tracked p | None => tracked p = [] end;
  tracked_drop a p : NoDup (tracked p) -> victim p = Some a ->
    tracked (drop_victim p) = base.filter (fun b => b <> a) (tracked p);
}.

Lemma tail_drop {A} k (l : list A) : tail (drop k l) = drop (S k) l.
Proof. revert l. induction k as [|k IH]; intros [|x l]; try done. apply IH. Qed.

Lemma take_S_elem {A} k (l : list A) x : x ∈ take k l -> x ∈ take (S k) l.
Proof.
  replace (take k l) with (take k (take (S k) l)) by (rewrite take_take; f_equal; lia).
  intros Hx. rewrite (take_drop_elem k). by left.
Qed.

Lemma list_filter_iff' {A} (Q R : A -> Prop) `{!forall x, Decision (Q x), !forall x, Decision (R x)} (l : list A) :
  (forall x, x ∈ l -> Q x <-> R x) -> base.filter Q l = base.filter R l.
Proof.
  induction l as [|x l IH]; intros HQ; [done|]. rewrite !filter_cons, IH by (intros y Hy; apply HQ; by right).
  pose proof (HQ x ltac:(left)). destruct (decide (Q x)), (decide (R x)); tauto.
Qed.

Lemma NoDup_fmap_elem {A B} (f : A -> B) (l : list A) x y : NoDup (f <$> l) -> x ∈ l -> y ∈ l -> f x = f y -> x = y.
Proof.
  induction l as [|z l IH]; intros Hn Hx Hy E; [by inversion Hx|]. rewrite fmap_cons in Hn. inversion Hn as [|? ? Hz Hn']; subst.
  apply elem_of_cons in Hx as [->|Hx]; apply elem_of_cons in Hy as [->|Hy]; [done| | |by apply IH].
  - destruct Hz. apply list_elem_of_fmap. by exists y.
  - destruct Hz. apply list_elem_of_fmap. by exists x.
Qed.

Section invariant.
Context {P : Type} `{PolicyLaws P}.
Variable sha256 : bytes -> bytes.
Implicit Types s : t P.

(** An entry holds a packet with a wire and its full name, cached. *)
Definition stored (e : entry) : Prop :=
  Data.m_fullName (e_data e) = e_fullName e /\ exists w, Block.wire (Data.m_wire (e_data e)) = Ok w /\
  ekey e = keys (Data.m_name (e_data e)) ++ [InterestTheorems.digest_key (sha256 w)].

Definition addresses (l : list entry) : list nat := e_address <$> l.

(** The invariant; [c] is the number of allocated entries. *)
Record wf_at (c : Z) s : Prop := {
  wf_index : index_ok (m_cache s);
  wf_stored : Forall stored (m_cache s);
  wf_count : m_nPackets s = len (m_cache s);
  wf_pool : m_nPackets s + len (m_freeEntries s) = c;
  wf_nodup : NoDup (addresses (m_cache s) ++ m_freeEntries s);
  wf_heap : Forall (fun a => (a < m_heap s)%nat) (addresses (m_cache s) ++ m_freeEntries s);
  wf_tracked : tracked (m_policy s) ≡ₚ addresses (m_cache s);
}.

Definition wf s : Prop :=
  wf_at (m_capacity s) s /\ m_initCapacity <= m_capacity s <= m_limit s.

Lemma wf_push_new k : forall c s, wf_at c s ->
  wf_at (c + Z.of_nat k) (push_new k s) /\ m_cache (push_new k s) = m_cache s /\
  m_limit (push_new k s) = m_limit s /\ m_capacity (push_new k s) = m_capacity s /\
  m_nPackets (push_new k s) = m_nPackets s /\ m_policy (push_new k s) = m_policy s.
Proof.
  induction k as [|k IH]; intros c s Hs; [rewrite Z.add_0_r; by split_and!|]. cbn [push_new].
  set (s1 := with_heap _ _). assert (H1 : wf_at (c + 1) s1).
  { destruct Hs as [W1 W2 W3 W4 W5 W6 W7].
    assert (Hfresh : m_heap s ∉ addresses (m_cache s) ++ m_freeEntries s).
    { intros Hin. pose proof (Forall_elem _ _ _ W6 Hin). cbn in *. lia. }
    split; try done.
    - cbn. rewrite len_cons. lia.
    - cbn. rewrite <- Permutation_middle. by constructor.
    - cbn. rewrite <- Permutation_middle. constructor; [lia|]. eapply Forall_impl; [|exact W6]. cbn. lia. }
  destruct (IH (c + 1) s1 H1) as (H2 & H3 & H4 & H5 & H6 & H7). replace (c + Z.of_nat (S k)) with (c + 1 + Z.of_nat k) by lia.
  split_and!; [done|by rewrite H3|by rewrite H4|by rewrite H5|by rewrite H6|by rewrite H7].
Qed.

(** Removing an entry from the index and from the clean-up index. *)
Definition removed (e : entry) (p : P) s : t P := with_policy p (freeEntry e s).

Lemma addresses_filter a l : addresses (base.filter (fun x => e_address x <> a) l) = base.filter (fun b => b <> a) (addresses l).
Proof.
  induction l as [|x l IH]; [done|]. unfold addresses in *. rewrite fmap_cons, !filter_cons.
  destruct (decide (e_address x <> a)); [rewrite fmap_cons|]; by rewrite IH.
Qed.

Lemma filter_all {A} (Q : A -> Prop) `{!forall x, Decision (Q x)} (l : list A) :
  (forall x, x ∈ l -> Q x) -> base.filter Q l = l.
Proof.
  induction l as [|x l IH]; intros HQ; [done|]. rewrite filter_cons, decide_True by (apply HQ; left).
  f_equal. apply IH. intros y Hy. apply HQ. by right.
Qed.

Lemma filter_remove (a : nat) l : NoDup l -> a ∈ l -> l ≡ₚ a :: base.filter (fun b => b <> a) l.
Proof.
  induction 1 as [|x l Hx Hl IH]; intros Ha; [by inversion Ha|]. rewrite filter_cons.
  apply elem_of_cons in Ha as [->|Ha].
  - rewrite decide_False by tauto. constructor. rewrite filter_all; [done|].
    intros y Hy ->. done.
  - destruct (decide (x <> a)) as [Hne|Heq]; [|by destruct Heq; intros ->].
    rewrite IH at 1 by done. apply Permutation_swap.
Qed.

Lemma wf_removed c e p s : wf_at c s -> e ∈ m_cache s ->
  tracked p = base.filter (fun b => b <> e_address e) (tracked (m_policy s)) -> wf_at c (removed e p s).
Proof.
  intros [W1 W2 W3 W4 W5 W6 W7] He Hp.
  assert (Ha : e_address e ∈ addresses (m_cache s)) by (apply list_elem_of_fmap; by exists e).
  assert (Hn : NoDup (addresses (m_cache s))) by (by apply list.NoDup_app in W5 as (? & _)).
  pose proof (filter_remove _ _ Hn Ha) as Hperm. rewrite <- addresses_filter in Hperm.
  assert (Hall : addresses (m_cache (removed e p s)) ++ m_freeEntries (removed e p s) ≡ₚ
                 addresses (m_cache s) ++ m_freeEntries s).
  { cbn. rewrite Hperm. cbn [app]. by rewrite Permutation_middle. }
  assert (Hlen : len (m_cache s) = 1 + len (m_cache (removed e p s))).
  { apply Permutation_length in Hperm. unfold addresses in Hperm. cbn [length] in Hperm. rewrite !length_fmap in Hperm.
    unfold len. cbn. lia. }
  split.
  - cbn. by apply filter_index_ok.
  - cbn. rewrite Forall_forall in *. intros x Hx. apply W2. apply list_elem_of_In, list_elem_of_filter in Hx as [_ Hx].
    by apply list_elem_of_In.
  - cbn [m_nPackets removed with_policy freeEntry with_cache with_nPackets]. change (m_nPackets (with_free _ s)) with (m_nPackets s). lia.
  - cbn [m_nPackets m_freeEntries removed with_policy freeEntry with_cache with_nPackets with_free]. rewrite len_cons. lia.
  - by rewrite Hall.
  - cbn [m_heap removed with_policy freeEntry with_cache with_nPackets with_free]. by rewrite Hall.
  - cbn [m_policy removed with_policy]. rewrite Hp, W7. cbn. by rewrite addresses_filter.
Qed.

Lemma deref_spec a l : NoDup (addresses l) -> a ∈ addresses l ->
  exists e, deref a l = Some e /\ e ∈ l /\ e_address e = a.
Proof.
  intros _. induction l as [|x l IH]; intros Ha; [by inversion Ha|]. cbn [deref List.find].
  destruct (Nat.eqb_spec (e_address x) a) as [E|E]; [exists x; split_and!; [done|left|done]|].
  apply elem_of_cons in Ha as [->|Ha]; [done|]. destruct (IH Ha) as (e & H1 & H2 & H3).
  exists e. split_and!; [exact H1|by right|done].
Qed.

Lemma find_stored c s e : wf_at c s -> e ∈ m_cache s -> find_entry (e_fullName e) (m_cache s) = Some e.
Proof.
  intros [W1 _ _ _ _ _ _] He. pose proof (Forall_elem _ _ _ (proj2 W1) He) as Ho. cbn in Ho.
  pose proof (find_entry_spec (e_fullName e) (m_cache s) Ho W1) as Hf.
  destruct (find_entry _ _) as [e'|]; [|by destruct (Hf e He)]. destruct Hf as [He' Hk]. f_equal.
  by apply (index_unique (m_cache s)).
Qed.

(** Evicting: with a packet in the storage it succeeds, and removes the victim. *)
Lemma evictItem_run c s : wf_at c s -> m_cache s <> [] ->
  exists e, victim (m_policy s) = Some (e_address e) /\ e ∈ m_cache s /\
    evictItem s = (removed e (drop_victim (m_policy s)) s, Ok true) /\
    wf_at c (removed e (drop_victim (m_policy s)) s).
Proof.
  intros Hs Hne. pose proof Hs as [W1 W2 W3 W4 W5 W6 W7]. pose proof (victim_spec (m_policy s)) as Hv.
  assert (Hn : NoDup (addresses (m_cache s))) by (by apply list.NoDup_app in W5 as (? & _)).
  destruct (victim (m_policy s)) as [a|] eqn:Ev.
  2: { exfalso. rewrite Hv in W7. symmetry in W7. apply Permutation_nil_r in W7. by destruct (m_cache s). }
  rewrite W7 in Hv. destruct (deref_spec a _ Hn Hv) as (e & Hd & He & Ea). exists e. subst a.
  split_and!; [done|done| |].
  - unfold evictItem. unfold mbind, M_bind, self. rewrite Ev, Hd. unfold modify. cbn beta iota.
    unfold eraseImpl. by rewrite (find_stored c s e Hs He).
  - apply wf_removed; [done|done|]. apply tracked_drop; [by rewrite W7|done].
Qed.

(** Changing the capacity without evicting. *)
Lemma setCapacity_run cap s : wf_at (m_capacity s) s -> m_nPackets s <= Z.max cap m_initCapacity ->
  exists s', setCapacity cap s = (s', Ok tt) /\ wf_at (m_capacity s') s' /\
    m_capacity s' = Z.max cap m_initCapacity /\ m_cache s' = m_cache s /\ m_limit s' = m_limit s /\
    m_nPackets s' = m_nPackets s /\ m_policy s' = m_policy s.
Proof.
  intros Hs Hn. unfold setCapacity. rewrite FieldFacts.bindM_self, FieldFacts.bindM_modify, FieldFacts.bindM_self.
  set (s1 := with_capacity _ s). change (size s1) with (m_nPackets s). change (m_capacity s1) with (Z.max cap m_initCapacity).
  rewrite (proj2 (Z.ltb_ge _ _)) by lia. erewrite FieldFacts.bindM_ok by done. rewrite FieldFacts.bindM_self.
  change (m_capacity s1) with (Z.max cap m_initCapacity).
  assert (H1 : wf_at (m_capacity s) s1) by (by destruct Hs; split).
  destruct (Z.leb_spec (m_capacity s) (Z.max cap m_initCapacity)) as [Hle|Hlt].
  - set (k := Z.to_nat _). destruct (wf_push_new k _ s1 H1) as (W & E1 & E2 & E3 & E4 & E5).
    eexists. split; [done|]. rewrite E3. change (m_capacity s1) with (Z.max cap m_initCapacity).
    replace (m_capacity s + Z.of_nat k) with (Z.max cap m_initCapacity) in W by (subst k; lia).
    split_and!; [done|done|by rewrite E1|by rewrite E2|by rewrite E4|by rewrite E5].
  - set (k := Z.to_nat _). change (m_freeEntries s1) with (m_freeEntries s).
    pose proof (wf_pool _ _ Hs) as Hp. assert (Hk : (k <= length (m_freeEntries s))%nat) by (subst k; unfold len in Hp; lia).
    rewrite FieldFacts.bindM_pass by (by apply Nat.ltb_ge). eexists. split; [done|].
    split_and!; try done. destruct Hs as [W1 W2 W3 W4 W5 W6 W7]. cbn [m_capacity with_free s1 with_capacity].
    assert (Hsub : sublist (addresses (m_cache s) ++ drop k (m_freeEntries s)) (addresses (m_cache s) ++ m_freeEntries s)).
    { apply sublist_app; [done|]. rewrite <- (take_drop k (m_freeEntries s)) at 2. by apply sublist_inserts_l. }
    split; try done.
    + cbn. unfold len in *. rewrite length_drop. subst k. lia.
    + cbn. by eapply sublist_NoDup.
    + cbn. rewrite Forall_app in *. split; [apply W6|]. by apply Forall_drop, W6.
Qed.

(** A packet that can be stored under the full name [n]. *)
Definition storable (d : Data.t) (n : Name.t) : Prop := ordered_name n /\ exists w,
  Block.wire (Data.m_wire d) = Ok w /\
  Data.getFullName sha256 d = (Data.with_fullName n d, Ok n) /\
  keys n = keys (Data.m_name d) ++ [InterestTheorems.digest_key (sha256 w)].

(** Taking an entry from the pool. *)
Lemma wf_add c s a free d n fresh pending : wf_at c s -> m_freeEntries s = a :: free -> storable d n ->
  find_entry n (m_cache s) = None ->
  wf_at c (with_policy (afterInsert a (m_policy s))
    (with_cache (insert_entry (mk_entry a (Data.with_fullName n d) n fresh pending) (m_cache s))
      (with_nPackets (m_nPackets s + 1) (with_free free s)))).
Proof.
  intros [W1 W2 W3 W4 W5 W6 W7] Ef (Hn & w & Hw & _ & Hk) Hnew. set (e := mk_entry _ _ _ _ _).
  pose proof (find_entry_spec n (m_cache s) Hn W1) as Hf. rewrite Hnew in Hf.
  destruct (insert_entry_ok e (m_cache s) W1 Hn Hf) as [Hi Hp].
  assert (Hadd : addresses (insert_entry e (m_cache s)) ≡ₚ a :: addresses (m_cache s)) by (unfold addresses; by rewrite Hp).
  assert (Hall : addresses (insert_entry e (m_cache s)) ++ free ≡ₚ addresses (m_cache s) ++ m_freeEntries s).
  { rewrite Hadd, Ef. cbn [app]. apply Permutation_middle. }
  assert (Ha : a ∉ addresses (m_cache s)).
  { rewrite Ef in W5. apply list.NoDup_app in W5 as (_ & Hd & _). intros Hin. apply (Hd a Hin). left. }
  rewrite Ef, len_cons in W4. pose proof (Permutation_length Hp) as Hlen. cbn [length] in Hlen.
  split; cbn [m_cache m_nPackets m_freeEntries m_heap m_policy with_policy with_cache with_nPackets with_free].
  - done.
  - rewrite Hp. constructor; [|done]. split; [done|]. by exists w.
  - rewrite W3. unfold len. rewrite Hlen. lia.
  - lia.
  - by rewrite Hall.
  - by rewrite Hall.
  - rewrite Hadd, tracked_insert by (by rewrite W7). by rewrite W7.
Qed.

(** Inserting.  A packet that is there already changes nothing; otherwise it
    is added, and if the storage holds as many packets as its limit allows, the
    victim of the policy makes room. *)
Definition inserted (d : Data.t) (n : Name.t) s s' : Prop :=
  match find_entry n (m_cache s) with
  | Some _ => s' = s
  | None => exists e kept, e_data e = Data.with_fullName n d /\ e_fullName e = n /\ e_isFresh e = true /\
      m_cache s' = insert_entry e kept /\ m_cache s' ≡ₚ e :: kept /\
      if m_nPackets s =? m_limit s
      then exists v, victim (m_policy s) = Some v /\ kept = base.filter (fun x => e_address x <> v) (m_cache s) /\
             m_policy s' = afterInsert (e_address e) (drop_victim (m_policy s))
      else kept = m_cache s /\ m_policy s' = afterInsert (e_address e) (m_policy s)
  end.

(** The last steps, from the entry on. *)
Lemma insert_tail c s d n window k : wf_at c s -> 0 < len (m_freeEntries s) -> storable d n ->
  find_entry n (m_cache s) = None -> exists e s',
  match m_freeEntries s with
  | [] => throwM (RuntimeError k)
  | a :: free =>
      let e := mk_entry a (Data.with_fullName n d) n true (m_hasScheduler s && (0 <? window)) in
      _ ← modify (with_free free);
      _ ← modify (fun s => with_nPackets (m_nPackets s + 1) s);
      _ ← modify (fun s => with_cache (insert_entry e (m_cache s)) s);
      modify (fun s => with_policy (afterInsert a (m_policy s)) s)
  end s = (s', Ok tt) /\ wf_at c s' /\ m_capacity s' = m_capacity s /\ m_limit s' = m_limit s /\
  e_data e = Data.with_fullName n d /\ e_fullName e = n /\ e_isFresh e = true /\
  m_cache s' = insert_entry e (m_cache s) /\ m_cache s' ≡ₚ e :: m_cache s /\
  m_policy s' = afterInsert (e_address e) (m_policy s).
Proof.
  intros Hs Hf Hd Hnew. destruct (m_freeEntries s) as [|a free] eqn:Ef; [done|]. set (e := mk_entry _ _ _ _ _).
  exists e, (with_policy (afterInsert a (m_policy s)) (with_cache (insert_entry e (m_cache s))
    (with_nPackets (m_nPackets s + 1) (with_free free s)))).
  split; [reflexivity|]. split; [by apply (wf_add c s a free d n)|]. split_and!; try done.
  cbn. destruct Hd as (Hn & _). pose proof (find_entry_spec n (m_cache s) Hn (wf_index _ _ Hs)) as Hne. rewrite Hnew in Hne.
  by apply insert_entry_ok; [apply (wf_index _ _ Hs)|..].
Qed.

Lemma find_entry_filter n v l : ordered_name n -> index_ok l -> find_entry n l = None ->
  find_entry n (base.filter (fun x => e_address x <> v) l) = None.
Proof.
  intros Hn Hl E. pose proof (find_entry_spec n l Hn Hl) as Hf. rewrite E in Hf.
  pose proof (find_entry_spec n _ Hn (filter_index_ok (fun x => e_address x <> v) l Hl)) as Hf'.
  destruct (find_entry n (base.filter _ l)) as [e|]; [|done]. destruct Hf' as [He Hk].
  apply list_elem_of_filter in He as [_ He]. by destruct (Hf e He).
Qed.

Lemma insert_run d n window s : wf s -> m_capacity s < 2 ^ 63 -> storable d n ->
  exists s', insert sha256 d window s = (s', Ok tt) /\ wf s' /\ m_limit s' = m_limit s /\ inserted d n s s'.
Proof.
  intros [Hs Hc] Hcap Hd. pose proof Hd as (Hn & w & Hw & Hfull & _). unfold insert, inserted. rewrite Hfull.
  rewrite (FieldFacts.bindM_lift _ _ _ n eq_refl), FieldFacts.bindM_self.
  destruct (find_entry n (m_cache s)) as [e0|] eqn:Ef; [exists s; by split_and!|].
  pose proof (wf_pool _ _ Hs) as Hpool. pose proof (len_nonneg (m_freeEntries s)) as Hfree. unfold isFull, size, m_initCapacity in *.
  destruct (Z.leb_spec (m_capacity s) (m_nPackets s)) as [Hfull'|Hroom]; cbn [andb].
  - destruct (Z.eqb_spec (m_limit s) (m_capacity s)) as [El|El]; cbn [negb].
    + (* at the limit: evict *)
      erewrite FieldFacts.bindM_ok by done. rewrite FieldFacts.bindM_self.
      rewrite (proj2 (Z.leb_le _ _)) by lia. cbn [andb].
      assert (Hne : m_cache s <> []) by (intros E; pose proof (wf_count _ _ Hs) as Hk; rewrite E in Hk; unfold len in *; simpl in Hk; lia).
      destruct (evictItem_run _ s Hs Hne) as (v & Ev & Hv & Erun & Hs').
      rewrite (FieldFacts.bindM_ok _ _ _ (removed v (drop_victim (m_policy s)) s) tt).
      2: { by rewrite (FieldFacts.bindM_ok _ _ _ _ _ Erun). }
      rewrite FieldFacts.bindM_self. set (s1 := removed _ _ s) in *.
      destruct (insert_tail _ s1 d n window "assertion m_freeEntries.size() > 0 failed" Hs')
        as (e & s' & Er & Hwf & E1 & E2 & E3 & E4 & E5 & E6 & E7 & E8).
      { subst s1. cbn. rewrite len_cons. lia. }
      { done. }
      { apply find_entry_filter; [done|apply (wf_index _ _ Hs)|done]. }
      exists s'. split; [exact Er|]. split; [split; [by rewrite E1|rewrite E1, E2; unfold m_initCapacity; subst s1; cbn; lia]|].
      split; [by rewrite E2|]. exists e, (m_cache s1). split_and!; try done.
      rewrite (proj2 (Z.eqb_eq _ _)) by lia. by exists (e_address v).
    + (* grow *)
      set (cap := Z.min _ _). assert (Ecap : cap = Z.min (2 * m_capacity s) (m_limit s)).
      { subst cap. f_equal. unfold u64. apply Z.mod_small. lia. }
      destruct (setCapacity_run cap s Hs) as (s1 & Er1 & Hs1 & C1 & C2 & C3 & C4 & C5); [unfold m_initCapacity; lia|].
      rewrite (FieldFacts.bindM_ok _ _ _ _ _ Er1), FieldFacts.bindM_self.
      unfold m_initCapacity in C1. rewrite andb_false_r. erewrite FieldFacts.bindM_ok by done. rewrite FieldFacts.bindM_self.
      pose proof (wf_pool _ _ Hs1) as Hpool1.
      destruct (insert_tail _ s1 d n window "assertion m_freeEntries.size() > 0 failed" Hs1)
        as (e & s' & Er & Hwf & E1 & E2 & E3 & E4 & E5 & E6 & E7 & E8); [lia|done|by rewrite C2|].
      exists s'. split; [exact Er|]. split; [split; [by rewrite E1|rewrite E1, E2; unfold m_initCapacity; lia]|].
      split; [by rewrite E2|]. exists e, (m_cache s1). split_and!; try done.
      rewrite (proj2 (Z.eqb_neq _ _)) by lia. split; [done|by rewrite E8, C5].
  - erewrite FieldFacts.bindM_ok by done. rewrite FieldFacts.bindM_self.
    rewrite (proj2 (Z.leb_gt _ _)) by lia. cbn [andb]. erewrite FieldFacts.bindM_ok by done. rewrite FieldFacts.bindM_self.
    destruct (insert_tail _ s d n window "assertion m_freeEntries.size() > 0 failed" Hs)
      as (e & s' & Er & Hwf & E1 & E2 & E3 & E4 & E5 & E6 & E7 & E8); [lia|done|done|].
    exists s'. split; [exact Er|]. split; [split; [by rewrite E1|rewrite E1, E2; unfold m_initCapacity; lia]|].
    split; [by rewrite E2|]. exists e, (m_cache s). split_and!; try done.
    rewrite (proj2 (Z.eqb_neq _ _)) by lia. by split.
Qed.

(** *** Erasing *)

Definition under (prefix : Name.t) (e : entry) : Prop := keys prefix `prefix_of` keys (Data.m_name (e_data e)).

#[local] Instance under_dec prefix e : Decision (under prefix e).
Proof. unfold under. apply _. Defined.

Lemma erase_loop_run prefix it : forall c s, wf_at c s -> (forall e, e ∈ it -> e ∈ m_cache s) -> NoDup (addresses it) ->
  exists gone rest, it = gone ++ rest /\ Forall (under prefix) gone /\
    match rest with [] => True | e :: _ => ~ under prefix e end /\
    wf_at c (erase_loop prefix it s) /\
    m_cache (erase_loop prefix it s) = base.filter (fun x => e_address x ∉ addresses gone) (m_cache s) /\
    m_capacity (erase_loop prefix it s) = m_capacity s /\ m_limit (erase_loop prefix it s) = m_limit s.
Proof.
  induction it as [|e it IH]; intros c s Hs Hin Hnd.
  { exists [], []. split_and!; try done. symmetry. apply filter_all. intros x _. by apply not_elem_of_nil. }
  cbn [erase_loop]. rewrite isPrefixOf_spec. case_bool_decide as Hu.
  2: { exists [], (e :: it). split_and!; try done. symmetry. apply filter_all. intros x _. by apply not_elem_of_nil. }
  unfold addresses in Hnd. rewrite fmap_cons in Hnd. inversion Hnd as [|? ? Hx Hnd']; subst.
  set (s1 := freeEntry e _). assert (H1 : wf_at c s1).
  { apply (wf_removed c e (beforeErase (e_address e) (m_policy s)) s); [done|apply Hin; left|apply tracked_erase]. }
  destruct (IH c s1 H1) as (gone & rest & -> & Hg & Hr & W & Ec & E1 & E2); [|done|].
  { intros x Hxi. cbn. apply list_elem_of_filter. split; [|apply Hin; by right].
    intros Ea. apply Hx. rewrite <- Ea. apply list_elem_of_fmap. by exists x. }
  exists (e :: gone), rest. split_and!; try done; [by constructor|].
  rewrite Ec. cbn. rewrite list_filter_filter. apply list_filter_iff. intros x. rewrite not_elem_of_cons. tauto.
Qed.

Lemma under_full prefix e : stored e -> keys prefix `prefix_of` ekey e -> ekey e <> keys prefix -> under prefix e.
Proof.
  intros (_ & w & _ & Hk) Hp Hne. unfold under. rewrite Hk in *. apply InterestTheorems.prefix_snoc_cases in Hp as [|Hp]; [done|congruence].
Qed.

Lemma full_under prefix e : stored e -> under prefix e -> keys prefix `prefix_of` ekey e.
Proof. intros (_ & w & _ & Hk) Hu. rewrite Hk. by apply prefix_app_r. Qed.

(** Erasing by prefix removes exactly the packets under the prefix. *)
Lemma erase_loop_exact prefix c s : wf_at c s -> ordered_name prefix -> (forall e, e ∈ m_cache s -> ekey e <> keys prefix) ->
  let s' := erase_loop prefix (drop (lower_bound prefix (m_cache s)) (m_cache s)) s in
  wf_at c s' /\ m_cache s' = base.filter (fun e => ~ under prefix e) (m_cache s) /\
  m_capacity s' = m_capacity s /\ m_limit s' = m_limit s.
Proof.
  intros Hs Hp Hne. set (k := lower_bound prefix (m_cache s)). pose proof Hs as [W1 W2 W3 W4 W5 W6 W7].
  destruct (lower_bound_spec prefix (m_cache s) Hp W1) as [L1 L2]. fold k in L1, L2.
  assert (Hnd : NoDup (addresses (m_cache s))) by (by apply list.NoDup_app in W5 as (? & _)).
  destruct (erase_loop_run prefix (drop k (m_cache s)) c s Hs) as (gone & rest & E & Hg & Hr & W & Ec & E1 & E2).
  { intros e He. rewrite (take_drop_elem k). by right. }
  { rewrite <- (take_drop k (m_cache s)) in Hnd. unfold addresses in *. rewrite fmap_app in Hnd.
    by apply list.NoDup_app in Hnd as (_ & _ & ?). }
  split_and!; try done. rewrite Ec. apply list_filter_iff'. intros x Hx.
  assert (Hsx : stored x) by (by apply (Forall_elem _ _ _ W2)).
  assert (Hgone : x ∈ gone <-> under prefix x).
  { split; [by apply (Forall_elem _ _ _ Hg)|]. intros Hu. pose proof (full_under _ _ Hsx Hu) as Hfx.
    rewrite (take_drop_elem k) in Hx. destruct Hx as [Hx|Hx].
    { exfalso. apply (prefix_not_lt _ _ Hfx). apply (Forall_elem _ _ _ L1 Hx). }
    rewrite E in Hx. apply elem_of_app in Hx as [Hx|Hx]; [done|]. exfalso.
    destruct rest as [|b rest]; [by inversion Hx|]. apply elem_of_cons in Hx as [->|Hx]; [done|].
    pose proof (index_drop k _ W1) as Hd. rewrite E in Hd. destruct Hd as [Hd _].
    pose proof (proj2 (sorted_split elt (length gone) _ Hd)) as Hd2. rewrite drop_app_length in Hd2.
    inversion Hd2 as [|? ? _ Hlt]; subst. pose proof (Forall_elem _ _ _ Hlt Hx) as Hbx.
    assert (Hb : b ∈ drop k (m_cache s)) by (rewrite E; apply elem_of_app; right; left).
    assert (Hbs : b ∈ m_cache s) by (rewrite (take_drop_elem k); by right).
    apply Hr. apply under_full; [by apply (Forall_elem _ _ _ W2)| |by apply Hne].
    apply (prefix_interval _ _ (ekey x)); [by apply (Forall_elem _ _ _ L2 Hb)|done|done]. }
  assert (Haddr : e_address x ∈ addresses gone <-> x ∈ gone).
  { split; [|intros; apply list_elem_of_fmap; by exists x]. intros (y & Ey & Hy)%list_elem_of_fmap.
    assert (Hys : y ∈ m_cache s) by (rewrite (take_drop_elem k), E; right; apply elem_of_app; by left).
    by rewrite (NoDup_fmap_elem e_address (m_cache s) x y Hnd Hx Hys Ey). }
  by rewrite Haddr, Hgone.
Qed.

(** The storage gives memory back when most of the pool is unused. *)
Lemma shrink_run s : wf s -> exists s',
  (s0 ← self; if 2 * size s0 <? len (m_freeEntries s0) then setCapacity (m_capacity s0 / 2) else mret tt) s = (s', Ok tt) /\
  wf s' /\ m_cache s' = m_cache s /\ m_limit s' = m_limit s /\ m_policy s' = m_policy s.
Proof.
  intros [Hs Hc]. rewrite FieldFacts.bindM_self. unfold size, m_initCapacity in *. pose proof (wf_pool _ _ Hs) as Hp.
  pose proof (wf_count _ _ Hs) as Hk. pose proof (len_nonneg (m_cache s)).
  destruct (Z.ltb_spec (2 * m_nPackets s) (len (m_freeEntries s))) as [Hlt|]; [|exists s; by split_and!].
  destruct (setCapacity_run (m_capacity s / 2) s Hs) as (s' & E & W & C1 & C2 & C3 & C4 & C5).
  { pose proof (Z.div_mod (m_capacity s) 2). pose proof (Z.mod_pos_bound (m_capacity s) 2). lia. }
  exists s'. split_and!; try done. split; [done|]. rewrite C3. unfold m_initCapacity in *.
  pose proof (Z.div_mod (m_capacity s) 2). pose proof (Z.mod_pos_bound (m_capacity s) 2). lia.
Qed.

Definition gone (prefix : Name.t) (isPrefix : bool) (e : entry) : Prop :=
  if isPrefix then under prefix e else ekey e = keys prefix.

#[local] Instance gone_dec prefix isPrefix e : Decision (gone prefix isPrefix e).
Proof. unfold gone. destruct isPrefix; apply _. Defined.

Lemma erase_run prefix isPrefix s : wf s -> ordered_name prefix ->
  (isPrefix = true -> forall e, e ∈ m_cache s -> ekey e <> keys prefix) ->
  exists s', erase prefix isPrefix s = (s', Ok tt) /\ wf s' /\ m_limit s' = m_limit s /\
    m_cache s' = base.filter (fun e => ~ gone prefix isPrefix e) (m_cache s).
Proof.
  intros [Hs Hc] Hp Hne. unfold erase, gone. rewrite FieldFacts.bindM_self. destruct isPrefix.
  - rewrite FieldFacts.bindM_modify. destruct (erase_loop_exact prefix _ s Hs Hp (Hne eq_refl)) as (W & Ec & E1 & E2).
    set (s1 := erase_loop _ _ _) in *. destruct (shrink_run s1) as (s' & Er & Hw & C1 & C2 & _).
    { split; [by rewrite E1|by rewrite E1, E2]. }
    exists s'. split; [exact Er|]. split; [done|]. split; [congruence|by rewrite C1].
  - pose proof (find_entry_spec prefix (m_cache s) Hp (wf_index _ _ Hs)) as Hf.
    destruct (find_entry prefix (m_cache s)) as [e|].
    + destruct Hf as [He Hk]. rewrite FieldFacts.bindM_modify.
      assert (W : wf_at (m_capacity s) (removed e (beforeErase (e_address e) (m_policy s)) s))
        by (apply wf_removed; [done|done|apply tracked_erase]).
      destruct (shrink_run (removed e (beforeErase (e_address e) (m_policy s)) s)) as (s' & Er & Hw & C1 & C2 & _); [by split|].
      exists s'. split; [exact Er|]. split; [done|]. split; [done|]. rewrite C1. cbn. apply list_filter_iff'. intros x Hx.
      assert (Hnd : NoDup (addresses (m_cache s))) by (destruct Hs as [_ _ _ _ W5 _ _]; by apply list.NoDup_app in W5 as (? & _)).
      split; intros Hxe Heq; apply Hxe.
      * f_equal. apply (index_unique (m_cache s)); [apply (wf_index _ _ Hs)|done|done|congruence].
      * by rewrite (NoDup_fmap_elem e_address (m_cache s) x e Hnd Hx He Heq).
    + exists s. split_and!; try done. symmetry. by apply filter_all.
Qed.

(** *** Looking up *)

Lemma wf_accessed c s e : wf_at c s -> e ∈ m_cache s ->
  wf_at c (with_policy (afterAccess (e_address e) (m_policy s)) s).
Proof.
  intros [W1 W2 W3 W4 W5 W6 W7] He. split; try done. cbn.
  assert (Hnd : NoDup (addresses (m_cache s))) by (by apply list.NoDup_app in W5 as (? & _)).
  rewrite tracked_access; [done| |by rewrite W7]. rewrite W7. apply list_elem_of_fmap. by exists e.
Qed.

Hypothesis sha256_length : forall x, len (sha256 x) = 32.

(** The packet specification's rule, for an entry. *)
Definition entry_matches (i : Interest.t) (e : entry) : Prop := InterestTheorems.matches i (e_data e) (ekey e).

Lemma matchesEntry_spec i e : stored e -> exists r, matchesEntry sha256 i e = Ok r /\ (r = true <-> entry_matches i e).
Proof.
  intros (Hc & w & Hw & Hk). unfold matchesEntry, entry_matches.
  destruct (InterestTheorems.matchesData_spec sha256 sha256_length i (e_data e) w Hw) as (n & r & -> & _ & Hr).
  { right. rewrite Hc. exact Hk. }
  exists r. split; [done|]. by rewrite Hk.
Qed.

(** A match extends the name of the Interest. *)
Lemma matches_prefix i e : stored e -> entry_matches i e -> keys (Interest.m_name i) `prefix_of` ekey e.
Proof.
  intros (_ & w & _ & Hk) [Hm _]. destruct (Interest.m_canBePrefix i); [done|].
  destruct Hm as [->| ->]; [|done]. rewrite Hk. by apply prefix_app_r.
Qed.

(** The entries an Interest may be answered with. *)
Definition answers (i : Interest.t) (e : entry) : Prop :=
  entry_matches i e /\ (Interest.m_mustBeFresh i = true -> e_isFresh e = true).

Lemma findNextFresh_split l : exists stale, l = stale ++ findNextFresh l /\ Forall (fun e => e_isFresh e = false) stale.
Proof.
  induction l as [|e l (stale & E & Hs)]; [by exists []|]. cbn [findNextFresh]. destruct (e_isFresh e) eqn:Ee.
  - by exists [].
  - exists (e :: stale). cbn [app]. rewrite <- E. split; [done|by constructor].
Qed.

(** Skipping stale entries when the Interest asks for fresh ones loses no answer. *)
Definition skip (i : Interest.t) (l : list entry) : list entry :=
  if Interest.m_mustBeFresh i then findNextFresh l else l.

Lemma skip_split i l : exists stale, l = stale ++ skip i l /\ (forall e, e ∈ stale -> ~ answers i e) /\
  match skip i l with [] => True | e :: _ => Interest.m_mustBeFresh i = true -> e_isFresh e = true end.
Proof.
  unfold skip. destruct (Interest.m_mustBeFresh i) eqn:Em.
  - destruct (findNextFresh_split l) as (stale & E & Hs). exists stale. split; [done|]. split.
    + intros e He [_ Hf]. pose proof (Forall_elem _ _ _ Hs He) as H1. cbn in H1. rewrite Hf in H1; done.
    + clear. induction l as [|e l IH]; [done|]. cbn [findNextFresh]. by destruct (e_isFresh e) eqn:Ee.
  - exists []. split; [done|]. split; [|by destruct l]. intros e He. by inversion He.
Qed.

(** The result of a search for an answer among [l]. *)
Definition search (i : Interest.t) (l : list entry) (r : option entry) : Prop :=
  match r with
  | Some e => e ∈ l /\ answers i e
  | None => forall e, e ∈ l -> ~ answers i e
  end.

Lemma right_loop_spec i fuel : forall l, (length l < fuel)%nat -> index_ok l -> Forall stored l ->
  Forall (fun e => ~ keys_lt (ekey e) (keys (Interest.m_name i))) l ->
  exists r, right_loop sha256 fuel i l = Ok r /\ search i l r.
Proof.
  induction fuel as [|fuel IH]; intros l Hf Hl Hst Hge; [lia|]. cbn [right_loop]. fold (skip i l).
  destruct (skip_split i l) as (stale & E & Hs & Hh). destruct (skip i l) as [|e rest].
  { exists None. split; [done|]. intros e He. rewrite app_nil_r in E. subst stale. by apply Hs. }
  subst l. pose proof (index_drop (length stale) _ Hl) as Hi. rewrite drop_app_length in Hi.
  apply index_cons in Hi as (Hi & Hlt & _). rewrite Forall_app, Forall_cons_iff in Hst, Hge.
  destruct Hst as (_ & Hse & Hst). destruct Hge as (_ & Hge_e & Hge).
  rewrite isPrefixOf_spec. case_bool_decide as Hp.
  - destruct (matchesEntry_spec i e Hse) as (r & -> & Hr). cbn [mbind result_bind]. destruct r.
    + exists (Some e). split; [done|]. split; [apply elem_of_app; right; left|]. split; [by apply Hr|exact Hh].
    + destruct (IH rest) as (r & Er & Hsr); [rewrite length_app in Hf; cbn in Hf; lia|done..|].
      exists r. split; [done|]. destruct r as [x|]; cbn in *.
      * destruct Hsr as [Hx Ha]. split; [|done]. apply elem_of_app. right. by right.
      * intros x Hx. apply elem_of_app in Hx as [Hx|Hx]; [by apply Hs|].
        apply elem_of_cons in Hx as [->|Hx]; [|by apply Hsr]. intros [Hm _]. apply Hr in Hm. done.
  - exists None. split; [done|]. intros x Hx Ha. apply elem_of_app in Hx as [Hx|Hx]; [by apply (Hs x)|].
    destruct Ha as [Hm _]. apply elem_of_cons in Hx as [->|Hx]; [apply Hp; by apply matches_prefix|].
    apply Hp. apply (prefix_interval _ _ (ekey x)); [done|by apply (Forall_elem _ _ _ Hlt)|].
    apply matches_prefix; [by apply (Forall_elem _ _ _ Hst)|done].
Qed.

(** [selectChild] from the entry before the first candidate. *)
Lemma selectChild_spec i l : index_ok l -> Forall stored l ->
  Forall (fun e => ~ keys_lt (ekey e) (keys (Interest.m_name i))) (tail l) ->
  exists r, selectChild sha256 i l = Ok r /\ search i l r.
Proof.
  intros Hl Hst Hge. unfold selectChild. fold (skip i l).
  destruct (skip_split i l) as (stale & E & Hs & Hh). destruct (skip i l) as [|e rest].
  { exists None. split; [done|]. intros e He. rewrite app_nil_r in E. subst stale. by apply Hs. }
  subst l. pose proof (index_drop (length stale) _ Hl) as Hi. rewrite drop_app_length in Hi.
  apply index_cons in Hi as (Hi & Hlt & _). rewrite Forall_app, Forall_cons_iff in Hst. destruct Hst as (_ & Hse & Hst).
  assert (Hge' : Forall (fun e => ~ keys_lt (ekey e) (keys (Interest.m_name i))) rest).
  { destruct stale; [done|]. cbn in Hge. rewrite Forall_app, Forall_cons_iff in Hge. by destruct Hge as (_ & _ & ?). }
  destruct (matchesEntry_spec i e Hse) as (r & -> & Hr). cbn [mbind result_bind]. destruct r.
  - exists (Some e). split; [done|]. split; [apply elem_of_app; right; left|]. split; [by apply Hr|exact Hh].
  - destruct (right_loop_spec i (S (length rest)) rest) as (r & Er & Hsr); [lia|done..|].
    exists r. split; [done|]. destruct r as [x|]; cbn in *.
    + destruct Hsr as [Hx Ha]. split; [|done]. apply elem_of_app. right. by right.
    + intros x Hx. apply elem_of_app in Hx as [Hx|Hx]; [by apply Hs|].
      apply elem_of_cons in Hx as [->|Hx]; [|by apply Hsr]. intros [Hm _]. apply Hr in Hm. done.
Qed.

(** Looking up by Interest: the packet with that full name if there is one,
    otherwise one of the packets that answer the Interest, if any. *)
Lemma findInterest_run i s : wf s -> ordered_name (Interest.m_name i) -> exists r s',
  findInterest sha256 i s = (s', Ok r) /\ wf s' /\ m_cache s' = m_cache s /\ m_limit s' = m_limit s /\
  match find_entry (Interest.m_name i) (m_cache s) with
  | Some e => r = Some (e_data e) /\ e ∈ m_cache s /\ ekey e = keys (Interest.m_name i) /\ m_policy s' = m_policy s
  | None => match r with
            | Some d => exists e, e ∈ m_cache s /\ d = e_data e /\ answers i e /\
                m_policy s' = afterAccess (e_address e) (m_policy s)
            | None => forall e, e ∈ m_cache s -> ~ answers i e
            end
  end.
Proof.
  intros [Hs Hc] Hi. unfold findInterest. rewrite FieldFacts.bindM_self. pose proof Hs as [W1 W2 _ _ _ _ _].
  pose proof (find_entry_spec (Interest.m_name i) (m_cache s) Hi W1) as Hf.
  destruct (find_entry (Interest.m_name i) (m_cache s)) as [e|].
  { exists (Some (e_data e)), s. destruct Hf. by split_and!. }
  destruct (lower_bound_spec (Interest.m_name i) (m_cache s) Hi W1) as [L1 L2].
  set (k := lower_bound _ _) in *.
  assert (Hbelow : forall e, e ∈ take k (m_cache s) -> ~ answers i e).
  { intros e He [Hm _]. pose proof (Forall_elem _ _ _ L1 He) as Hlt. cbn in Hlt.
    apply (prefix_not_lt (keys (Interest.m_name i)) (ekey e)); [|done]. apply matches_prefix; [|done].
    apply (Forall_elem _ _ _ W2). rewrite (take_drop_elem k). by left. }
  destruct (drop k (m_cache s)) as [|e0 rest] eqn:Ed.
  { exists None, s. split_and!; try done. intros e He. apply Hbelow. rewrite (take_drop_elem k) in He.
    destruct He as [|He]; [done|]. rewrite Ed in He. by inversion He. }
  destruct (selectChild_spec i (drop (pred k) (m_cache s))) as (r & -> & Hr).
  - by apply index_drop.
  - by apply Forall_drop.
  - destruct k as [|k]; cbn [pred].
    + rewrite Ed. by inversion L2.
    + rewrite tail_drop. by rewrite Ed.
  - erewrite FieldFacts.bindM_lift by done. destruct r as [e|]; cbn in Hr.
    + destruct Hr as [He Ha]. assert (Hin : e ∈ m_cache s) by (rewrite (take_drop_elem (pred k)); by right).
      exists (Some (e_data e)). eexists. split; [done|]. split; [split; [by apply wf_accessed|done]|].
      split_and!; try done. by exists e.
    + exists None, s. split_and!; try done. intros e He. rewrite (take_drop_elem (pred k)) in He.
      destruct He as [He|He]; [|by apply Hr]. apply Hbelow. destruct k as [|k]; [done|]. cbn [pred] in He.
      by apply take_S_elem.
Qed.

(** Looking up by name: the first packet whose full name begins with it. *)
Lemma findName_run n s : wf s -> ordered_name n -> exists r s',
  findName n s = (s', Ok r) /\ wf s' /\ m_cache s' = m_cache s /\ m_limit s' = m_limit s /\
  match r with
  | Some d => exists e, e ∈ m_cache s /\ d = e_data e /\ keys n `prefix_of` ekey e
  | None => forall e, e ∈ m_cache s -> ~ keys n `prefix_of` ekey e
  end.
Proof.
  intros [Hs Hc] Hn. unfold findName. rewrite FieldFacts.bindM_self. pose proof Hs as [W1 _ _ _ _ _ _].
  destruct (lower_bound_spec n (m_cache s) Hn W1) as [L1 L2]. set (k := lower_bound _ _) in *.
  assert (Hbelow : forall e, e ∈ take k (m_cache s) -> ~ keys n `prefix_of` ekey e).
  { intros e He Hp. apply (prefix_not_lt _ _ Hp). apply (Forall_elem _ _ _ L1 He). }
  destruct (m_cache s !! k) as [e|] eqn:Ek.
  - assert (He : e ∈ m_cache s) by (by eapply list_elem_of_lookup_2). rewrite isPrefixOf_spec. case_bool_decide as Hp; cbn [negb].
    + exists (Some (e_data e)). eexists. split; [done|]. split; [split; [by apply wf_accessed|done]|]. split_and!; try done. by exists e.
    + exists None, s. split_and!; try done. intros x Hx Hpx. rewrite (take_drop_elem k) in Hx. destruct Hx as [Hx|Hx]; [by apply (Hbelow x)|].
      pose proof (drop_S _ _ _ Ek) as Ed. pose proof (index_drop k _ W1) as Hi. rewrite Ed in *. apply index_cons in Hi as (_ & Hlt & _).
      inversion L2 as [|? ? Hge _]; subst. apply elem_of_cons in Hx as [->|Hx]; [done|].
      apply Hp. apply (prefix_interval _ _ (ekey x)); [done|by apply (Forall_elem _ _ _ Hlt)|done].
  - exists None, s. split_and!; try done. intros e He. apply Hbelow. by rewrite take_ge by (by apply lookup_ge_None).
Qed.

Lemma markStale_run a s : wf s -> wf (markStale a s).
Proof.
  intros [[W1 W2 W3 W4 W5 W6 W7] Hc]. split; [|done].
  set (f := fun e => if Nat.eqb (e_address e) a && e_pending e then mk_entry a (e_data e) (e_fullName e) false false else e).
  assert (Hf : forall e, e_address (f e) = e_address e /\ e_data (f e) = e_data e /\ e_fullName (f e) = e_fullName e).
  { intros e. unfold f. destruct (Nat.eqb_spec (e_address e) a); [|done]. by destruct (e_pending e). }
  assert (Ha : addresses (f <$> m_cache s) = addresses (m_cache s)).
  { unfold addresses. rewrite <- list_fmap_compose. apply list_fmap_ext. intros i e _. apply Hf. }
  split; cbn; fold f; change (e_address <$> (f <$> m_cache s)) with (addresses (f <$> m_cache s)); rewrite ?Ha; try done.
  - destruct W1 as [Hs Ho]. split.
    + clear -Hs Hf. induction Hs as [|e l Hs IH He]; [constructor|]. rewrite fmap_cons. constructor; [done|].
      apply Forall_fmap. eapply Forall_impl; [|exact He]. intros x. unfold elt, ekey, compose.
      by rewrite (proj2 (proj2 (Hf e))), (proj2 (proj2 (Hf x))).
    + apply Forall_fmap. eapply Forall_impl; [|exact Ho]. intros x. cbn. by rewrite (proj2 (proj2 (Hf x))).
  - apply Forall_fmap. eapply Forall_impl; [|exact W2]. intros x. unfold stored, ekey, compose.
    destruct (Hf x) as (_ & -> & ->). done.
  - unfold len. by rewrite length_fmap.
Qed.

(** A new storage. *)
Lemma init_wf p sched limit : tracked p = [] -> m_initCapacity <= limit <= UINT64_MAX -> wf (init p sched limit).
Proof.
  intros Hp Hl. unfold init. replace (negb (limit =? UINT64_MAX) && (limit <? m_initCapacity)) with false.
  2: { rewrite (proj2 (Z.ltb_ge _ _)) by lia. by rewrite andb_false_r. }
  set (s0 := mk _ _ _ _ _ _ _ _). assert (H1 : wf_at 0 s0).
  { split; cbn; try done; try constructor; try constructor. by rewrite Hp. }
  destruct (wf_push_new (Z.to_nat m_initCapacity) 0 s0 H1) as (W & _ & E2 & E3 & _). split; rewrite ?E3, ?E2; [exact W|].
  unfold m_initCapacity in *. cbn. lia.
Qed.

(** Erasing keeps the invariant for any prefix. *)
Lemma erase_wf prefix isPrefix s : wf s -> ordered_name prefix ->
  exists s', erase prefix isPrefix s = (s', Ok tt) /\ wf s' /\ m_limit s' = m_limit s.
Proof.
  intros Hw Hp. destruct isPrefix.
  2: { destruct (erase_run prefix false s Hw Hp) as (s' & E1 & E2 & E3 & _); [done|]. by exists s'. }
  destruct Hw as [Hs Hc]. pose proof Hs as [W1 _ _ _ W5 _ _]. unfold erase. rewrite FieldFacts.bindM_self, FieldFacts.bindM_modify.
  set (k := lower_bound _ _).
  destruct (erase_loop_run prefix (drop k (m_cache s)) _ s Hs) as (g & r & _ & _ & _ & W & _ & E1 & E2).
  { intros e He. rewrite (take_drop_elem k). by right. }
  { apply list.NoDup_app in W5 as (Hnd & _). rewrite <- (take_drop k (m_cache s)) in Hnd. unfold addresses in *.
    rewrite fmap_app in Hnd. by apply list.NoDup_app in Hnd as (_ & _ & ?). }
  set (s1 := erase_loop _ _ _) in *. destruct (shrink_run s1) as (s' & Er & Hw' & _ & C2 & _); [split; [by rewrite E1|by rewrite E1, E2]|].
  exists s'. split; [exact Er|]. split; [done|congruence].
Qed.

End invariant.

(** *** The policies keep their promises *)

Lemma fifo_insert_perm a l : a ∉ l -> fifo_insert a l ≡ₚ a :: l.
Proof. intros Ha. unfold fifo_insert. rewrite bool_decide_false by done. by rewrite Permutation_app_comm. Qed.

Lemma head_drop (a : nat) l : NoDup l -> head l = Some a -> tail l = base.filter (fun b => b <> a) l.
Proof.
  intros Hn Hh. destruct l as [|x l]; [done|]. injection Hh as ->. inversion Hn as [|? ? Hx Hl]; subst. cbn [tail].
  rewrite filter_cons, decide_False by tauto. symmetry. apply filter_all. by intros y Hy ->.
Qed.

#[export] Program Instance Fifo_laws : PolicyLaws fifo := {| tracked := fun l => l |}.
Next Obligation. intros a l. apply fifo_insert_perm. Qed.
Next Obligation. done. Qed.
Next Obligation. done. Qed.
Next Obligation. intros [|x l]; [done|]. left. Qed.
Next Obligation. intros a l. apply head_drop. Qed.

#[export] Program Instance Lru_laws : PolicyLaws lru := {| tracked := lru_list |}.
Next Obligation. intros a l. apply fifo_insert_perm. Qed.
Next Obligation. done. Qed.
Next Obligation.
  intros a l Ha Hn. cbn. rewrite fifo_insert_perm; [|unfold fifo_erase; rewrite list_elem_of_filter; tauto].
  symmetry. by apply filter_remove.
Qed.
Next Obligation. intros [[|x l]]; [done|]. left. Qed.
Next Obligation. intros a l. apply head_drop. Qed.

Section lfu_laws.
Variable first : list (nat * Z) -> option nat.

(** The first entry of the index by frequency is one of the least frequent. *)
Definition first_least : Prop := forall l, match first l with
  | Some a => exists f, (a, f) ∈ l /\ forall x, x ∈ l -> f <= x.2
  | None => l = []
  end.
Hypothesis Hfirst : first_least.

Lemma lfu_erase_fst a l : (lfu_erase a l).*1 = base.filter (fun b => b <> a) (l.*1).
Proof.
  induction l as [|[b f] l IH]; [done|]. unfold lfu_erase in *. rewrite fmap_cons, !filter_cons. cbn [fst].
  destruct (decide (b <> a)); [rewrite fmap_cons; cbn [fst]|]; by rewrite IH.
Qed.

Program Definition Lfu_laws : @PolicyLaws lfu (Lfu first) := {| tracked := fun l => (lfu_list l).*1 |}.
Next Obligation.
  intros a [l] Ha. cbn in *. unfold lfu_insert. rewrite bool_decide_false by done. rewrite fmap_app. cbn.
  by rewrite Permutation_app_comm.
Qed.
Next Obligation. intros a [l]. apply lfu_erase_fst. Qed.
Next Obligation.
  intros a [l] _ _. cbn. unfold lfu_access. rewrite <- list_fmap_compose. apply reflexive_eq, list_fmap_ext.
  intros i [b f] _. cbn. by destruct (b =? a)%nat.
Qed.
Next Obligation.
  intros [l]. cbn. pose proof (Hfirst l) as Hf. destruct (first l) as [a|]; [|by rewrite Hf].
  destruct Hf as (f & Hin & _). apply list_elem_of_fmap. by exists (a, f).
Qed.
Next Obligation. intros a [l] _ Hv. cbn in *. rewrite Hv. apply lfu_erase_fst. Qed.

End lfu_laws.

End ImsFacts.

(** *** The order in which packets are replaced *)

Module ImsOrder.
Import ims ImsFacts.

(** A history of uses: an entry is inserted when it is first used, and
    accessed every time. *)
Definition use {P} `{Policy P} (p : P) (a : nat) : P := afterAccess a (afterInsert a p).
Definition uses {P} `{Policy P} (p : P) (hist : list nat) : P := fold_left use hist p.

Lemma uses_snoc {P} `{Policy P} (p : P) hist a : uses p (hist ++ [a]) = use (uses p hist) a.
Proof. apply fold_left_app. Qed.

Lemma fifo_head hist : head (uses ([] : fifo) hist) = head hist.
Proof.
  induction hist as [|a hist IH] using rev_ind; [done|]. rewrite uses_snoc. cbn.
  unfold fifo_insert. destruct (uses ([] : fifo) hist) as [|x l] eqn:E.
  - rewrite bool_decide_false by (by intros Hin; inversion Hin). by destruct hist.
  - destruct hist; [done|]. by case_bool_decide.
Qed.

(** Ordered by last use: behind the last use of an entry come uses of all the
    entries behind it in the list. *)
Definition by_last_use (hist l : list nat) : Prop :=
  (forall a, a ∈ l <-> a ∈ hist) /\
  forall l1 a l2, l = l1 ++ a :: l2 -> exists h1 h2, hist = h1 ++ a :: h2 /\ a ∉ h2 /\ forall b, b ∈ l2 -> b ∈ h2.

Lemma filter_split (x a : nat) l : forall l1 l2, base.filter (fun b => b <> x) l = l1 ++ a :: l2 ->
  exists m1 m2, l = m1 ++ a :: m2 /\ l2 = base.filter (fun b => b <> x) m2 /\ a <> x.
Proof.
  induction l as [|y l IH]; intros l1 l2 E; [by destruct l1|]. rewrite filter_cons in E. destruct (decide (y <> x)) as [Hy|Hy].
  - destruct l1 as [|z l1].
    + injection E as -> <-. by exists [], l.
    + injection E as -> E. destruct (IH _ _ E) as (m1 & m2 & -> & -> & Ha). by exists (z :: m1), m2.
  - destruct (IH _ _ E) as (m1 & m2 & -> & -> & Ha). by exists (y :: m1), m2.
Qed.

Lemma erase_insert x l : fifo_erase x (fifo_insert x l) = base.filter (fun b => b <> x) l.
Proof.
  unfold fifo_insert. case_bool_decide; [done|]. unfold fifo_erase.
  rewrite list.filter_app, (filter_cons _ x []), decide_False by tauto. apply app_nil_r.
Qed.

Lemma lru_use_list (l : lru) x : lru_list (use l x) = base.filter (fun b => b <> x) (lru_list l) ++ [x].
Proof.
  change (lru_list (use l x)) with (fifo_insert x (fifo_erase x (fifo_insert x (lru_list l)))).
  rewrite erase_insert. unfold fifo_insert. rewrite bool_decide_false; [done|]. rewrite list_elem_of_filter. tauto.
Qed.

Lemma lru_by_last_use hist : by_last_use hist (lru_list (uses (Lru_index []) hist)).
Proof.
  induction hist as [|x hist [IH1 IH2]] using rev_ind.
  { split; [done|]. intros l1 a l2 E. by destruct l1. }
  rewrite uses_snoc, lru_use_list. set (l := lru_list (uses (Lru_index []) hist)) in *. split.
  - intros a. rewrite !elem_of_app, list_elem_of_filter, IH1, list_elem_of_singleton. destruct (decide (a = x)); tauto.
  - intros l1 a l2 E. destruct l2 as [|y l2 _] using rev_ind.
    + apply app_inj_tail in E as [_ <-]. exists hist, []. split; [done|]. split; [apply not_elem_of_nil|]. intros b Hb. by inversion Hb.
    + change (a :: l2 ++ [y]) with ((a :: l2) ++ [y]) in E. rewrite (assoc_L (++)) in E. apply app_inj_tail in E as [E <-].
      destruct (filter_split x a l l1 l2 E) as (m1 & m2 & El & -> & Ha).
      destruct (IH2 m1 a m2 El) as (h1 & h2 & -> & Hn & Hb). exists h1, (h2 ++ [x]). rewrite <- (assoc_L (++)).
      split; [done|]. split; [rewrite not_elem_of_app, list_elem_of_singleton; tauto|].
      intros b. rewrite !elem_of_app, list_elem_of_filter. intros [[_ Hb']|Hb']; [left; by apply Hb|by right].
Qed.

(** How often an entry was used. *)
Definition count (a : nat) (hist : list nat) : Z := len (base.filter (fun b => b = a) hist).

Lemma count_snoc a hist x : count a (hist ++ [x]) = count a hist + if decide (x = a) then 1 else 0.
Proof.
  unfold count. rewrite list.filter_app, len_app, filter_cons. by destruct (decide (x = a)).
Qed.

Lemma count_bound a hist : 0 <= count a hist <= len hist.
Proof. unfold count, len. pose proof (length_filter (fun b => b = a) hist). lia. Qed.

Lemma count_zero a hist : a ∉ hist -> count a hist = 0.
Proof.
  intros Ha. unfold count. induction hist as [|x hist IH]; [done|]. apply not_elem_of_cons in Ha as [Hx Ha].
  rewrite filter_cons, decide_False by congruence. by apply IH.
Qed.

Lemma lfu_counts (first : list (nat * Z) -> option nat) hist : len hist < 2 ^ 64 ->
  forall a f, (a, f) ∈ lfu_list (@uses lfu (Lfu first) (Lfu_index []) hist) <-> a ∈ hist /\ f = count a hist.
Proof.
  induction hist as [|x hist IH] using rev_ind; intros Hl a f.
  { cbn. split; [intros Hin|intros [Hin _]]; by inversion Hin. }
  rewrite len_app in Hl. change (len [x]) with 1 in Hl. specialize (IH ltac:(lia)).
  rewrite (@uses_snoc lfu (Lfu first)). cbn. set (l := lfu_list _) in *.
  assert (Hin : forall b, b ∈ l.*1 <-> b ∈ hist).
  { intros b. rewrite list_elem_of_fmap. split; [intros ([c g] & -> & Hc); by apply IH in Hc as [? _]|].
    intros Hb. exists (b, count b hist). split; [done|]. by apply IH. }
  assert (Hins : forall b g, (b, g) ∈ lfu_insert x l <-> (b ∈ hist \/ b = x) /\ g = count b hist).
  { intros b g. unfold lfu_insert. case_bool_decide as Hx; rewrite Hin in Hx.
    - rewrite IH. split; [intros [? ?]; by split; [left|]|]. intros [[?| ->] ->]; done.
    - rewrite elem_of_app, list_elem_of_singleton, IH. split.
      + intros [[? ?]|[= -> ->]]; [by split; [left|]|]. split; [by right|]. by rewrite count_zero.
      + intros [[?| ->] ->]; [by left|]. right. by rewrite count_zero. }
  unfold lfu_access. rewrite list_elem_of_fmap, count_snoc, elem_of_app, list_elem_of_singleton. split.
  - intros ([b g] & E & Hb). apply Hins in Hb as [Hb ->]. cbn in E. pose proof (count_bound b hist).
    destruct (Nat.eqb_spec b x) as [Eb|Hne]; injection E as Ea Ef; subst a f.
    + subst b. rewrite decide_True by done. split; [by right|]. unfold u64. rewrite Z.mod_small by lia. done.
    + rewrite decide_False by congruence. split; [tauto|lia].
  - intros [Ha ->]. exists (a, count a hist). split; [|apply Hins; tauto]. cbn. pose proof (count_bound a hist).
    destruct (Nat.eqb_spec a x) as [Ea|Hne].
    + rewrite decide_True by done. unfold u64. by rewrite Z.mod_small by lia.
    + rewrite decide_False by congruence. by rewrite Z.add_0_r.
Qed.

End ImsOrder.

Module ImsTheorems.
Import ims NameFacts ImsFacts ImsOrder.

Section theorems.
Context {P : Type} `{PolicyLaws P}.
Variable sha256 : bytes -> bytes.
Implicit Types s : t P.

(** The storages a program can have: a new one with room for at least the
    initial capacity, then any sequence of operations and timer events.  The
    packets are encoded, the names can be compared, and there is memory for
    twice the entries. *)
Inductive reachable : t P -> Prop :=
| reach_init p sched limit : tracked p = [] -> m_initCapacity <= limit <= UINT64_MAX -> reachable (init p sched limit)
| reach_insert d n window s s' r : reachable s -> storable sha256 d n -> m_capacity s < 2 ^ 63 ->
    insert sha256 d window s = (s', r) -> reachable s'
| reach_findName n s s' r : reachable s -> ordered_name n -> findName n s = (s', r) -> reachable s'
| reach_findInterest i s s' r : reachable s -> ordered_name (Interest.m_name i) ->
    findInterest sha256 i s = (s', r) -> reachable s'
| reach_erase prefix isPrefix s s' r : reachable s -> ordered_name prefix ->
    erase prefix isPrefix s = (s', r) -> reachable s'
| reach_stale a s : reachable s -> reachable (markStale a s).

(** C10: the class invariant of a storage that was created with a limit of at
    least the initial capacity of 16 (smaller limits are not respected, see
    [ims_small_limit]), for every replacement policy that keeps its promises
    (it tracks exactly the entries it was told of).  After any sequence of
    insertions of packets that have a wire (and no cached full name, or the
    right one), look-ups, erasures and timer events, with names that are in their canonical encoding and shorter than
    2^31 in components and octets, and below a capacity of 2^63: the index is
    sorted by full name without duplicates and holds packets with their full
    names, the counter is the number of packets, packets and free entries make
    up the capacity and are all distinct, the clean-up index has exactly the
    stored entries, and there are never more packets than the capacity, nor a
    capacity above the limit. *)
Theorem ims_invariant (Hlen : forall x, len (sha256 x) = 32) (s : t P) (Hs : reachable s) :
  wf sha256 s /\ size s = len (m_cache s) /\ size s + len (m_freeEntries s) = m_capacity s /\
  size s <= m_capacity s <= m_limit s.
Proof.
  cut (wf sha256 s).
  { intros [Hw Hc]. pose proof (wf_pool _ _ _ Hw). pose proof (len_nonneg (m_freeEntries s)).
    split; [by split|]. split; [apply (wf_count _ _ _ Hw)|]. split; [done|]. unfold size. lia. }
  induction Hs as [p sched limit Hp Hl|d n window s s' r _ IH Hd Hc E|n s s' r _ IH Hn E|i s s' r _ IH Hi E|
                   prefix isPrefix s s' r _ IH Hp E|a s _ IH].
  - by apply init_wf.
  - destruct (insert_run sha256 d n window s IH Hc Hd) as (s1 & E1 & Hw & _). rewrite E1 in E. by injection E as <- _.
  - destruct (findName_run sha256 n s IH Hn) as (x & s1 & E1 & Hw & _). rewrite E1 in E. by injection E as <- _.
  - destruct (findInterest_run sha256 Hlen i s IH Hi) as (x & s1 & E1 & Hw & _). rewrite E1 in E. by injection E as <- _.
  - destruct (erase_wf sha256 prefix isPrefix s IH Hp) as (s1 & E1 & Hw & _). rewrite E1 in E. by injection E as <- _.
  - by apply markStale_run.
Qed.

(** C11: inserting a packet that has a wire, no wrong cached full name, and a
    full name in canonical encoding, into a storage in its class invariant (that of [ims_invariant],
    which takes a limit of at least 16 and a policy that keeps its promises;
    for smaller limits see [ims_small_limit]) does not fail and stores the
    packet: a packet that is there already changes nothing; otherwise it is
    added under its full name, fresh, and everything else is kept, except that
    a storage which holds as many packets as its limit allows gives up the one
    the policy chooses. *)
Theorem ims_insert (d : Data.t) (n : Name.t) (window : Z) (s : t P) (Hs : wf sha256 s)
    (Hc : m_capacity s < 2 ^ 63) (Hd : storable sha256 d n) :
  exists s', insert sha256 d window s = (s', Ok tt) /\ wf sha256 s' /\ inserted d n s s' /\
    exists e, find_entry n (m_cache s') = Some e /\ ekey e = keys n.
Proof.
  destruct (insert_run sha256 d n window s Hs Hc Hd) as (s' & E & Hw & _ & Hi). exists s'. split_and!; try done.
  destruct Hd as (Hn & _). pose proof (find_entry_spec n (m_cache s') Hn (wf_index _ _ _ (proj1 Hw))) as Hf.
  destruct (find_entry n (m_cache s')) as [e|] eqn:Ef; [exists e; by destruct Hf|]. exfalso. unfold inserted in Hi.
  destruct (find_entry n (m_cache s)) as [e|] eqn:Ef0.
  - subst s'. by rewrite Ef in Ef0.
  - destruct Hi as (e & kept & _ & E2 & _ & _ & Hp & _). apply (Hf e); [by rewrite Hp; left|]. unfold ekey. by rewrite E2.
Qed.

(** C12: looking up a name in canonical encoding (one that is not can miss a
    packet, since names with a wire compare by their octets), in a storage in its
    class invariant (that of [ims_invariant]: a limit of at least 16 and a
    policy that keeps its promises).  By Interest: never fails; a packet whose
    full name is the name of the Interest is returned at once, whether it is
    fresh or not and without telling the policy, which differs from what the
    header says; otherwise, if some stored packet
    answers the Interest (it matches by the rule of the packet specification,
    and is fresh if the Interest asks for that), one of those is returned and
    the policy is told of the access, and if none does the result is null.  By
    name: a packet whose full name begins with the name, if there is one. *)
Theorem ims_find (Hlen : forall x, len (sha256 x) = 32) (s : t P) (i : Interest.t) (n : Name.t)
    (Hs : wf sha256 s) (Hi : ordered_name (Interest.m_name i)) (Hn : ordered_name n) :
  (exists r s', findInterest sha256 i s = (s', Ok r) /\ m_cache s' = m_cache s /\
    match find_entry (Interest.m_name i) (m_cache s) with
    | Some e => r = Some (e_data e) /\ ekey e = keys (Interest.m_name i) /\ m_policy s' = m_policy s
    | None => match r with
              | Some d => exists e, e ∈ m_cache s /\ d = e_data e /\ answers i e /\
                  m_policy s' = afterAccess (e_address e) (m_policy s)
              | None => forall e, e ∈ m_cache s -> ~ answers i e
              end
    end) /\
  (exists r s', findName n s = (s', Ok r) /\ m_cache s' = m_cache s /\
    match r with
    | Some d => exists e, e ∈ m_cache s /\ d = e_data e /\ keys n `prefix_of` ekey e
    | None => forall e, e ∈ m_cache s -> ~ keys n `prefix_of` ekey e
    end).
Proof.
  split.
  - destruct (findInterest_run sha256 Hlen i s Hs Hi) as (r & s' & E & _ & Ec & _ & Hr). exists r, s'.
    split; [done|]. split; [done|]. destruct (find_entry _ _); [|done]. by destruct Hr as (? & _ & ? & ?).
  - destruct (findName_run sha256 n s Hs Hn) as (r & s' & E & _ & Ec & _ & Hr). by exists r, s'.
Qed.

(** Erasing removes exactly what it should: by prefix, the packets whose
    name is under the prefix (for a prefix that is not itself the full name of
    a stored packet); otherwise the packet with that full name.  It never
    fails, and giving memory back afterwards evicts nothing. *)
Theorem ims_erase (s : t P) (prefix : Name.t) (isPrefix : bool) (Hs : wf sha256 s) (Hp : ordered_name prefix)
    (Hf : isPrefix = true -> forall e, e ∈ m_cache s -> ekey e <> keys prefix) :
  exists s', erase prefix isPrefix s = (s', Ok tt) /\ wf sha256 s' /\
    forall e, e ∈ m_cache s' <-> e ∈ m_cache s /\
      ~ if isPrefix then keys prefix `prefix_of` keys (Data.m_name (e_data e)) else ekey e = keys prefix.
Proof.
  destruct (erase_run sha256 prefix isPrefix s Hs Hp Hf) as (s' & E & Hw & _ & Ec). exists s'. split_and!; try done.
  intros e. rewrite Ec, list_elem_of_filter. unfold gone, under. by destruct isPrefix; tauto.
Qed.

(** A limit below the initial capacity of 16 is not respected.  The first
    erasure sets the capacity to 16, above the limit; from then on the storage
    takes packets until there are 16, and the one after that finds the pool of
    free entries empty, where the code asserts that it is not. *)
Theorem ims_small_limit (p : P) (sched : bool) (limit : Z) (Hp : tracked p = []) (Hl : 0 < limit < m_initCapacity) :
  (forall prefix, exists s, erase prefix true (init p sched limit) = (s, Ok tt) /\
     wf_at sha256 16 s /\ m_capacity s = 16 /\ m_limit s = limit /\ m_nPackets s = 0) /\
  (forall s d n window, wf_at sha256 16 s -> m_capacity s = 16 -> m_limit s = limit -> storable sha256 d n ->
     find_entry n (m_cache s) = None ->
     (m_nPackets s < 16 -> exists s', insert sha256 d window s = (s', Ok tt) /\ wf_at sha256 16 s' /\
        m_capacity s' = 16 /\ m_limit s' = limit /\ m_nPackets s' = m_nPackets s + 1) /\
     (m_nPackets s = 16 -> exists s',
        insert sha256 d window s = (s', Throw (RuntimeError "assertion m_freeEntries.size() > 0 failed")))).
Proof.
  unfold m_initCapacity in Hl. split.
  - intros prefix. unfold init. replace (negb (limit =? UINT64_MAX) && (limit <? m_initCapacity)) with true.
    2: { unfold m_initCapacity, UINT64_MAX. rewrite (proj2 (Z.ltb_lt _ _)) by lia. by rewrite (proj2 (Z.eqb_neq _ _)) by lia. }
    set (s0 := mk _ _ _ _ _ _ _ _). assert (H1 : wf_at sha256 0 s0).
    { split; cbn; try done; try constructor; try constructor. by rewrite Hp. }
    destruct (wf_push_new sha256 (Z.to_nat limit) 0 s0 H1) as (W & E1 & E2 & E3 & E4 & _). set (s := push_new _ s0) in *.
    replace (0 + Z.of_nat (Z.to_nat limit)) with (m_capacity s) in W by (rewrite E3; cbn; lia).
    unfold erase. rewrite FieldFacts.bindM_self, E1. cbn [m_cache s0 lower_bound drop erase_loop].
    rewrite FieldFacts.bindM_modify, FieldFacts.bindM_self. cbn [erase_loop].
    pose proof (wf_pool _ _ _ W) as Hpool. unfold size. rewrite E4, E3 in *. cbn [m_nPackets m_capacity s0] in *.
    rewrite (proj2 (Z.ltb_lt _ _)) by lia.
    destruct (setCapacity_run sha256 (limit / 2) s) as (s' & E & W' & C1 & C2 & C3 & C4 & _);
      [by rewrite E3|rewrite E4; cbn; unfold m_initCapacity; lia|].
    assert (Hc16 : m_capacity s' = 16).
    { rewrite C1. unfold m_initCapacity. pose proof (Z.div_mod limit 2). pose proof (Z.mod_pos_bound limit 2). lia. }
    exists s'. rewrite Hc16 in W'. split; [exact E|]. split_and!; [done|done|by rewrite C3, E2|by rewrite C4, E4].
  - intros s d n window Hs Hc Hlim Hd Hnew. pose proof Hd as (_ & w & _ & Hfull & _). pose proof (wf_pool _ _ _ Hs) as Hpool.
    unfold insert. rewrite Hfull. rewrite (FieldFacts.bindM_lift _ _ _ n eq_refl), FieldFacts.bindM_self, Hnew.
    unfold isFull, size. rewrite Hc, Hlim. rewrite (proj2 (Z.eqb_neq limit 16)) by lia. cbn [negb]. split; intros Hn.
    + rewrite (proj2 (Z.leb_gt _ _)) by lia. cbn [andb]. erewrite FieldFacts.bindM_ok by done.
      rewrite FieldFacts.bindM_self, andb_false_r. erewrite FieldFacts.bindM_ok by done. rewrite FieldFacts.bindM_self.
      destruct (insert_tail sha256 16 s d n window "assertion m_freeEntries.size() > 0 failed" Hs)
        as (e & s' & Er & Hwf & E1 & E2 & _ & _ & _ & E6 & E7 & _); [lia|done|done|].
      exists s'. split; [exact Er|]. split_and!; [done|congruence|congruence|].
      rewrite (wf_count _ _ _ Hwf), (wf_count _ _ _ Hs). unfold len. rewrite (Permutation_length E7). cbn. lia.
    + rewrite (proj2 (Z.leb_le _ _)) by lia. cbn [andb].
      set (cap := Z.min _ _). assert (Hcap : Z.max cap m_initCapacity = 16) by (unfold m_initCapacity; subst cap; lia).
      destruct (setCapacity_run sha256 cap s) as (s' & E & W' & C1 & C2 & C3 & C4 & _); [by rewrite Hc|lia|].
      rewrite (FieldFacts.bindM_ok _ _ _ _ _ E), FieldFacts.bindM_self, andb_false_r.
      erewrite FieldFacts.bindM_ok by done. rewrite FieldFacts.bindM_self.
      pose proof (wf_pool _ _ _ W') as Hpool'. rewrite C1, Hcap, C4, Hn in Hpool'.
      assert (m_freeEntries s' = []) as -> by (apply len_zero; lia). by exists s'.
Qed.

End theorems.

(** The replacement policies do what they are named after.  After any
    history of uses, each entry being inserted when it is first used: FIFO
    evicts the entry that came first; LRU one whose last use lies before a use
    of every other entry; LFU, whichever of the least frequent entries its
    index puts first, one that was used no more often than any other. *)
Theorem ims_replacement_order (first : list (nat * Z) -> option nat) (hist : list nat)
    (Hfirst : first_least first) (Hh : len hist < 2 ^ 64) :
  victim (uses ([] : fifo) hist) = head hist /\
  (forall v, victim (uses (Lru_index []) hist) = Some v ->
     exists h1 h2, hist = h1 ++ v :: h2 /\ v ∉ h2 /\ forall b, b ∈ hist -> b <> v -> b ∈ h2) /\
  (forall v, @victim _ (Lfu first) (@uses lfu (Lfu first) (Lfu_index []) hist) = Some v ->
     v ∈ hist /\ forall b, b ∈ hist -> count v hist <= count b hist).
Proof.
  split_and!.
  - apply fifo_head.
  - intros v Hv. destruct (lru_by_last_use hist) as [H1 H2]. cbn in Hv.
    destruct (lru_list (uses (Lru_index []) hist)) as [|x l]; [done|]. injection Hv as ->.
    destruct (H2 [] v l eq_refl) as (h1 & h2 & E & Hn & Hb). exists h1, h2. split; [done|]. split; [done|].
    intros b Hin Hne. apply Hb. apply H1 in Hin. apply elem_of_cons in Hin as [|]; done.
  - intros v Hv. pose proof (lfu_counts first hist Hh) as Hc. cbn in Hv. set (l := lfu_list _) in *.
    pose proof (Hfirst l) as Hf. rewrite Hv in Hf. destruct Hf as (f & Hin & Hmin). apply Hc in Hin as [Hin ->].
    split; [done|]. intros b Hb. apply (Hmin (b, count b hist)). by apply Hc.
Qed.

(** The least frequent entry that comes first in the list. *)
Fixpoint least (l : list (nat * Z)) : option (nat * Z) :=
  match l with
  | [] => None
  | x :: l => match least l with
              | Some y => if x.2 <=? y.2 then Some x else Some y
              | None => Some x
              end
  end.

Lemma least_spec : first_least (fun l => fst <$> least l).
Proof.
  intros l. cut (match least l with Some y => y ∈ l /\ forall x, x ∈ l -> y.2 <= x.2 | None => l = [] end).
  { destruct (least l) as [[a f]|]; [|done]. cbn. intros [H1 H2]. by exists f. }
  induction l as [|x l IH]; [done|]. cbn [least]. destruct (least l) as [y|].
  - destruct IH as [H1 H2]. destruct (Z.leb_spec x.2 y.2).
    + split; [left|]. intros z Hz. apply elem_of_cons in Hz as [->|Hz]; [lia|]. specialize (H2 z Hz). lia.
    + split; [by right|]. intros z Hz. apply elem_of_cons in Hz as [->|Hz]; [lia|]. by apply H2.
  - subst l. split; [left|]. intros z Hz. apply elem_of_cons in Hz as [->|Hz]; [lia|]. by inversion Hz.
Qed.

Lemma ims_replacement_order_witness :
  victim (uses ([] : fifo) [1; 2; 1]%nat) = Some 1%nat /\
  exists h1 h2, [1; 2; 1]%nat = h1 ++ 2%nat :: h2 /\ 2%nat ∉ h2.
Proof.
  destruct (ims_replacement_order (fun l => fst <$> least l) [1; 2; 1]%nat) as (H1 & H2 & _).
  - apply least_spec.
  - reflexivity.
  - split; [exact H1|]. destruct (H2 2%nat) as (h1 & h2 & E & Hn & _); [reflexivity|]. exists h1, h2. split; [exact E|exact Hn].
Defined.

(** *** Witnesses *)

Definition toy_digest := InterestTheorems.toy_digest.
Definition packet : Data.t := fst (Data.wireEncode DataTheorems.sample_data).
Definition packet_name : Name.t :=
  match snd (Data.getFullName toy_digest packet) with Ok n => n | Throw _ => Name.empty end.
Definition storage : t fifo := init [] true 20.

Lemma canonical_b c : bool_decide (1 <= Block.type c <= 65535) && (Block.value_size c =? 32) &&
    bool_decide (Block.m_buf c = Some (tlv_bytes (Block.type c) (Block.value c), Block.value c)) &&
    (Block.m_size c =? len (tlv_bytes (Block.type c) (Block.value c))) = true ->
  ComponentFacts.canonical c /\ Block.value_size c < 2 ^ 31.
Proof.
  rewrite !andb_true_iff, !bool_decide_eq_true, !Z.eqb_eq. intros [[[H1 H2] H3] H4]. unfold Block.value_size in *.
  split; [|lia]. split; [by split|]. split; [unfold Block.value_size; width; lia|by right].
Qed.

Lemma generic_ok c : bool_decide (2 < Block.type c <= 65535) && (Block.value_size c <? 100) &&
    bool_decide (Block.m_buf c = Some (tlv_bytes (Block.type c) (Block.value c), Block.value c)) &&
    (Block.m_size c =? len (tlv_bytes (Block.type c) (Block.value c))) = true ->
  ComponentFacts.canonical c /\ Block.value_size c < 2 ^ 31.
Proof.
  rewrite !andb_true_iff, !bool_decide_eq_true, Z.eqb_eq, Z.ltb_lt. intros [[[H1 H2] H3] H4]. unfold Block.value_size in *.
  split; [|lia]. split; [split; [lia|intros; lia]|].
  split; [unfold Block.value_size; pose proof (len_nonneg (Block.value c)); width; lia|by right].
Qed.

Lemma packet_storable : storable toy_digest packet packet_name.
Proof.
  split.
  - split; [by vm_compute|].
    match goal with |- Forall _ ?l => let v := eval vm_compute in l in replace l with v by (vm_compute; reflexivity) end.
    constructor; [apply generic_ok; by vm_compute|]. constructor; [apply canonical_b; by vm_compute|constructor].
  - exists (BlockFacts.wire_bytes (Data.m_wire packet)). split; [by vm_compute|]. split; by vm_compute.
Qed.

Lemma storage_wf : wf toy_digest storage.
Proof. apply init_wf; [done|]. unfold m_initCapacity, UINT64_MAX. lia. Qed.

Lemma storage_empty : m_cache storage = [].
Proof. by vm_compute. Qed.

Lemma ims_invariant_witness :
  size (fst (insert toy_digest packet 100 storage)) <= m_limit (fst (insert toy_digest packet 100 storage)).
Proof.
  assert (H : reachable toy_digest (fst (insert toy_digest packet 100 storage))).
  { eapply (reach_insert toy_digest packet packet_name 100 storage _ (snd (insert toy_digest packet 100 storage))).
    - apply reach_init; [reflexivity|]. unfold m_initCapacity, UINT64_MAX. lia.
    - apply packet_storable.
    - reflexivity.
    - apply surjective_pairing. }
  pose proof (ims_invariant toy_digest InterestTheorems.toy_digest_length _ H) as (_ & _ & _ & H1). lia.
Defined.

Lemma ims_insert_witness :
  exists s' e, insert toy_digest packet 100 storage = (s', Ok tt) /\ find_entry packet_name (m_cache s') = Some e.
Proof.
  destruct (ims_insert toy_digest packet packet_name 100 storage) as (s' & H1 & _ & _ & e & H2 & _).
  - apply storage_wf.
  - reflexivity.
  - apply packet_storable.
  - exists s', e. split; [exact H1|exact H2].
Defined.

Lemma name_A_ordered : ordered_name InterestTheorems.name_A.
Proof.
  split; [by vm_compute|]. constructor; [|constructor]. split; [|by vm_compute].
  split; [split; [by vm_compute|by intros [Hc|Hc]; vm_compute in Hc]|]. split; [by vm_compute|by left].
Qed.

Lemma ims_find_witness :
  let i := Interest.mk InterestTheorems.name_A [] None 4000 None true false [] Block.empty in
  exists r s', findInterest toy_digest i storage = (s', Ok r) /\ m_cache s' = m_cache storage.
Proof.
  intros i. destruct (ims_find toy_digest InterestTheorems.toy_digest_length storage i InterestTheorems.name_A)
    as [(r & s' & H1 & H2 & _) _].
  - apply storage_wf.
  - apply name_A_ordered.
  - apply name_A_ordered.
  - exists r, s'. split; [exact H1|exact H2].
Defined.

Lemma ims_erase_witness :
  exists s', erase InterestTheorems.name_A true storage = (s', Ok tt) /\ forall e, e ∈ m_cache s' -> e ∈ m_cache storage.
Proof.
  destruct (ims_erase toy_digest storage InterestTheorems.name_A true) as (s' & H1 & _ & H2).
  - apply storage_wf.
  - apply name_A_ordered.
  - intros _ e He. rewrite storage_empty in He. inversion He.
  - exists s'. split; [exact H1|]. intros e He. by apply H2 in He as [? _].
Defined.

Lemma ims_small_limit_witness :
  exists s, erase Name.empty true (init ([] : fifo) true 5) = (s, Ok tt) /\ m_capacity s = 16 /\ m_limit s = 5.
Proof.
  destruct (ims_small_limit toy_digest ([] : fifo) true 5) as [H _].
  - reflexivity.
  - unfold m_initCapacity. lia.
  - destruct (H Name.empty) as (s & H1 & _ & H2 & H3 & _). exists s. split; [exact H1|]. split; [exact H2|exact H3].
Defined.

End ImsTheorems.
