(* ===== verification/Announcements.v ===== *)
(** Validity periods and prefix announcements: the ISO time strings of
    [ndn-cxx/util/time.cpp], [ndn-cxx/security/validity-period.cpp] and
    [ndn-cxx/prefix-announcement.cpp].

    Boost.DateTime is a parameter: [to_iso_string] and [from_iso_string] of
    [boost::posix_time], on a [ptime] given as microseconds since 1970 (the
    resolution Boost has unless it is configured otherwise).  The key chain
    that signs an announcement is a parameter too.  Time points of the system
    clock are nanoseconds since 1970 in an [int64_t]; the model lets the
    signed additions wrap, the theorems exclude that. *)

From S2P Require Import Prelude Tlv Encoding Blocks BlockHelpers Text NameComponents Names Fields DataPacket.

(** ** Time strings *)

Class PosixTime := {
  to_iso_string : Z -> bytes;
  from_iso_string : bytes -> result Z;
}.

(** Whole seconds that a time point can hold, printed as [YYYYMMDDTHHMMSS]. *)
Definition whole_second (us : Z) : Prop := us mod 1000000 = 0 /\ 0 <= us * 1000 < 2 ^ 63.

Class PosixTimeLaws `{PosixTime} := {
  iso_size us : whole_second us -> len (to_iso_string us) = 15;
  iso_roundtrip us : whole_second us -> from_iso_string (to_iso_string us) = Ok us;
}.

Module time.
Section with_boost.
Context `{PosixTime}.

(** [ndn-cxx/util/time.cpp:112-116] toUnixTimestamp *)
Definition toUnixTimestamp (point : Z) : Z := Z.quot point 1000000.

(** [ndn-cxx/util/time.cpp:118-122] fromUnixTimestamp *)
Definition fromUnixTimestamp (duration : Z) : Z := i64 (duration * 1000000).

(** [ndn-cxx/util/time.cpp:124-140] convertToPosixTime
    The hours and the rest, both rounded towards zero, are added to the epoch. *)
Definition convertToPosixTime (timePoint : Z) : Z :=
  let unitsPerHour := 3600 * 1000000 in
  let sinceEpoch := Z.quot timePoint 1000 in
  Z.quot sinceEpoch unitsPerHour * unitsPerHour + Z.rem sinceEpoch unitsPerHour.

(** [ndn-cxx/util/time.cpp:142-146] toIsoString *)
Definition toIsoString (timePoint : Z) : bytes := to_iso_string (convertToPosixTime timePoint).

(** [ndn-cxx/util/time.cpp:154-165] convertToTimePoint *)
Definition convertToTimePoint (ptime : Z) : Z :=
  let point := i64 (Z.quot ptime 1000000 * 1000000000) in
  i64 (point + Z.rem ptime 1000000 * 1000).

(** [ndn-cxx/util/time.cpp:167-171] fromIsoString *)
Definition fromIsoString (isoString : bytes) : result Z :=
  p ← from_iso_string isoString; Ok (convertToTimePoint p).

End with_boost.
End time.

(** ** ValidityPeriod *)

Module ValidityPeriod.

(** [ndn-cxx/encoding/tlv.hpp:152-152] tlv::NotBefore *)
Definition NotBefore : Z := 254.
(** [ndn-cxx/encoding/tlv.hpp:153-153] tlv::NotAfter *)
Definition NotAfter : Z := 255.

(** [ndn-cxx/security/validity-period.cpp:36-36] ISO_DATETIME_SIZE *)
Definition ISO_DATETIME_SIZE : Z := 15.

(** [ndn-cxx/security/validity-period.hpp:128-131] ValidityPeriod
    Both times in seconds. *)
Record t := mk { m_notBefore : Z; m_notAfter : Z; m_wire : Block.t }.

Definition with_notBefore x p := mk x (m_notAfter p) (m_wire p).
Definition with_notAfter x p := mk (m_notBefore p) x (m_wire p).
Definition with_wire x p := mk (m_notBefore p) (m_notAfter p) x.

(** [ndn-cxx/security/validity-period.cpp:50-51] ValidityPeriod::ValidityPeriod (the rounding of notBefore) *)
Definition round_notBefore (notBefore : Z) : Z := Z.quot (i64 (i64 (notBefore + 1000000000) - 1)) 1000000000.

(** [ndn-cxx/security/validity-period.cpp:52-52] ValidityPeriod::ValidityPeriod (the rounding of notAfter) *)
Definition round_notAfter (notAfter : Z) : Z := Z.quot notAfter 1000000000.

(** [ndn-cxx/security/validity-period.cpp:48-54] ValidityPeriod::ValidityPeriod(notBefore, notAfter) *)
Definition ofPeriod (notBefore notAfter : Z) : t :=
  mk (round_notBefore notBefore) (round_notAfter notAfter) Block.empty.

(** [ndn-cxx/security/validity-period.cpp:42-46] ValidityPeriod::ValidityPeriod() *)
Definition init : t := ofPeriod (0 + 1) 0.

(** [ndn-cxx/security/validity-period.cpp:129-138] ValidityPeriod::setPeriod *)
Definition setPeriod (notBefore notAfter : Z) : M t unit :=
  _ ← modify (with_wire Block.empty);
  _ ← modify (with_notBefore (round_notBefore notBefore));
  modify (with_notAfter (round_notAfter notAfter)).

(** [ndn-cxx/security/validity-period.cpp:140-144] ValidityPeriod::getPeriod
    Converted to time points of the system clock. *)
Definition getPeriod (p : t) : Z * Z := (i64 (m_notBefore p * 1000000000), i64 (m_notAfter p * 1000000000)).

(** [ndn-cxx/security/validity-period.cpp:146-150] ValidityPeriod::isValid *)
Definition isValid (now : Z) (p : t) : bool :=
  (fst (getPeriod p) <=? now) && (now <=? snd (getPeriod p)).

(** [ndn-cxx/security/validity-period.hpp:112-123] operator==(const ValidityPeriod&, const ValidityPeriod&) *)
Definition eqb (lhs rhs : t) : bool :=
  (m_notBefore lhs =? m_notBefore rhs) && (m_notAfter lhs =? m_notAfter rhs).

(** [ndn-cxx/security/validity-period.cpp:118-126] ValidityPeriod::wireDecode (the catch clause) *)
Definition catch_bad_cast {A} (r : result A) : result A :=
  match r with
  | Throw (BadCast _) => Throw (PacketError "Invalid date format in NOT-BEFORE or NOT-AFTER field")
  | _ => r
  end.

Section with_boost.
Context `{PosixTime}.

(** [ndn-cxx/security/validity-period.cpp:61-73] ValidityPeriod::wireEncode(EncodingImpl&) *)
Definition wireEncode_template (p : t) : prepender :=
  pTL SignatureInfo.ValidityPeriod
    (encoding.prependStringBlock NotAfter (time.toIsoString (snd (getPeriod p))) ;+
     encoding.prependStringBlock NotBefore (time.toIsoString (fst (getPeriod p)))).

(** [ndn-cxx/security/validity-period.cpp:77-93] ValidityPeriod::wireEncode *)
Definition wireEncode : M t Block.t :=
  p ← self;
  if Block.hasWire (m_wire p) then mret (m_wire p)
  else
    b ← liftR (makeBlock (wireEncode_template p));
    _ ← assignParsed with_wire b;
    p ← self;
    mret (m_wire p).

(** [ndn-cxx/security/validity-period.cpp:111-114] ValidityPeriod::wireDecode (the test of one field) *)
Definition bad_field (type : Z) (b : Block.t) : bool :=
  negb (Block.type b =? type) || negb (Block.value_size b =? ISO_DATETIME_SIZE).

(** [ndn-cxx/security/validity-period.cpp:95-127] ValidityPeriod::wireDecode *)
Definition wireDecode (wire : Block.t) : M t unit :=
  _ ← throwM_if (negb (Block.hasWire wire)) (PacketError "The supplied block does not contain wire format");
  _ ← assignParsed with_wire wire;
  p ← self;
  _ ← throwM_if (negb (Block.type (m_wire p) =? SignatureInfo.ValidityPeriod)) (PacketError "ValidityPeriod");
  match Block.elements (m_wire p) with
  | [e0; e1] =>
      _ ← throwM_if (bad_field NotBefore e0 || bad_field NotAfter e1)
            (PacketError "Invalid NotBefore or NotAfter field");
      t0 ← liftR (catch_bad_cast (time.fromIsoString (encoding.readString e0)));
      _ ← modify (with_notBefore (Z.quot t0 1000000000));
      t1 ← liftR (catch_bad_cast (time.fromIsoString (encoding.readString e1)));
      modify (with_notAfter (Z.quot t1 1000000000))
  | _ => throwM (PacketError "ValidityPeriod does not have two sub-TLVs")
  end.

(** [ndn-cxx/security/validity-period.cpp:56-59] ValidityPeriod::ValidityPeriod(const Block&)
    The members a decoder leaves unset are never read, as it then throws. *)
Definition ofBlock (block : Block.t) : result t := exec (wireDecode block) (mk 0 0 Block.empty).

End with_boost.
End ValidityPeriod.

(** ** PrefixAnnouncement *)

Module PrefixAnnouncement.

(** [ndn-cxx/encoding/tlv-nfd.hpp:45-45] tlv::nfd::ExpirationPeriod *)
Definition ExpirationPeriod : Z := 109.
(** [ndn-cxx/encoding/tlv.hpp:170-170] tlv::ContentType_PrefixAnn *)
Definition ContentType_PrefixAnn : Z := 5.

(** [ndn-cxx/prefix-announcement.hpp:130-133] PrefixAnnouncement *)
Record t := mk {
  m_data : option Data.t;
  m_announcedName : Name.t;
  m_expiration : Z;
  m_validity : option ValidityPeriod.t;
}.

Definition with_data x p := mk x (m_announcedName p) (m_expiration p) (m_validity p).
Definition with_name x p := mk (m_data p) x (m_expiration p) (m_validity p).
Definition with_expiration x p := mk (m_data p) (m_announcedName p) x (m_validity p).
Definition with_validity x p := mk (m_data p) (m_announcedName p) (m_expiration p) x.

(** [ndn-cxx/prefix-announcement.cpp:30-30] PrefixAnnouncement::PrefixAnnouncement() *)
Definition init : t := mk None Name.empty 0 None.

(** [ndn-cxx/encoding/tlv.hpp:120-120] tlv::KeywordNameComponent *)
Definition KeywordNameComponent : Z := 32.

(** [ndn-cxx/prefix-announcement.cpp:122-127] PrefixAnnouncement::getKeywordComponent *)
Definition getKeywordComponent : result Component.t := Component.ofSpan KeywordNameComponent (str "PA").

(** [ndn-cxx/prefix-announcement.cpp:95-101] PrefixAnnouncement::setAnnouncedName *)
Definition setAnnouncedName (name : Name.t) : M t unit :=
  _ ← modify (with_data None); modify (with_name name).

(** [ndn-cxx/prefix-announcement.cpp:103-112] PrefixAnnouncement::setExpiration *)
Definition setExpiration (expiration : Z) : M t unit :=
  _ ← throwM_if (expiration <? 0) (InvalidArgument "expiration period is negative");
  _ ← modify (with_data None);
  modify (with_expiration expiration).

(** [ndn-cxx/prefix-announcement.cpp:114-120] PrefixAnnouncement::setValidityPeriod *)
Definition setValidityPeriod (validity : option ValidityPeriod.t) : M t unit :=
  _ ← modify (with_data None); modify (with_validity validity).

(** [ndn-cxx/prefix-announcement.cpp:129-135] operator==(const PrefixAnnouncement&, const PrefixAnnouncement&) *)
Definition eqb (lhs rhs : t) : bool :=
  Name.equals (m_announcedName lhs) (m_announcedName rhs) &&
  (m_expiration lhs =? m_expiration rhs) &&
  SignatureInfo.option_eqb ValidityPeriod.eqb (m_validity lhs) (m_validity rhs).

(** [ndn-cxx/prefix-announcement.cpp:36-37] PrefixAnnouncement::PrefixAnnouncement(Data) (the test of the name) *)
Definition wrong_name conv (keyword : Component.t) (n : Name.t) : bool :=
  match Name.get (-3) n, Name.get (-2) n, Name.get (-1) n with
  | Some k, Some v, Some s =>
      (Name.size n <? 3) || negb (Component.equals k keyword) ||
      negb (Component.isVersion conv v) || negb (Component.isSegment conv s)
  | _, _, _ => true
  end.

(** [ndn-cxx/prefix-announcement.cpp:62-63] PrefixAnnouncement::PrefixAnnouncement(Data) (the test of one element) *)
Definition unrecognized (element : Block.t) : bool :=
  negb (Block.type element =? ExpirationPeriod) && negb (Block.type element =? SignatureInfo.ValidityPeriod) &&
  tlv.isCriticalType (Block.type element).

Section with_boost.
Context `{PosixTime}.

(** [ndn-cxx/prefix-announcement.cpp:32-67] PrefixAnnouncement::PrefixAnnouncement(Data)
    Parsing the payload fills the elements of the content that is kept. *)
Definition ofData conv (data : Data.t) : result t :=
  let dataName := Data.m_name data in
  keyword ← getKeywordComponent;
  _ ← throw_if (wrong_name conv keyword dataName) (PacketError "Data is not a prefix announcement: wrong name structure");
  announced ← Name.getPrefix (-3) dataName;
  _ ← throw_if (negb (MetaInfo.m_type (Data.m_metaInfo data) =? ContentType_PrefixAnn))
        (PacketError "Data is not a prefix announcement: ContentType");
  _ ← throw_if (Block.value_size (Data.m_content data) =? 0) (PacketError "Prefix announcement is empty");
  payload ← Block.parsed (Data.m_content data);
  e ← Block.get ExpirationPeriod payload;
  n ← encoding.readNonNegativeInteger e;
  v ← match Block.find SignatureInfo.ValidityPeriod payload with
      | Some b => v ← ValidityPeriod.ofBlock b; Ok (Some v)
      | None => Ok None
      end;
  _ ← throw_if (existsb unrecognized (Block.elements payload)) (PacketError "Unrecognized element of critical type");
  Ok (mk (Some (Data.with_content payload data)) announced (i64 n) v).

(** A call on the Data the announcement holds. *)
Definition onData (m : M Data.t unit) : M t unit := fun p =>
  match m_data p with
  | Some d => let '(d', r) := m d in (with_data (Some d') p, r)
  | None => (p, Ok tt)
  end.

(** [ndn-cxx/prefix-announcement.cpp:81-87] PrefixAnnouncement::toData (the content) *)
Definition makeContent : M t Block.t :=
  p ← self;
  b ← liftR (encoding.makeNonNegativeIntegerBlock ExpirationPeriod (u64 (m_expiration p)));
  let content := Block.push_back b (Block.ofType tlv.Content) in
  match m_validity p with
  | None => mret (Block.encode content)
  | Some v =>
      let '(v', r) := ValidityPeriod.wireEncode v in
      _ ← modify (with_validity (Some v'));
      w ← liftR r;
      mret (Block.encode (Block.push_back w content))
  end.

(** [ndn-cxx/prefix-announcement.cpp:69-93] PrefixAnnouncement::toData
    [sign] is [KeyChain::sign] with the signing parameters, [now] the Unix
    time in milliseconds. *)
Definition toData (sign : M Data.t unit) conv (now : Z) (version : option Z) : M t (option Data.t) :=
  p ← self;
  match m_data p with
  | Some d => mret (Some d)
  | None =>
      keyword ← liftR getKeywordComponent;
      let dataName := Name.append keyword (m_announcedName p) in
      dataName ← liftR (Name.appendVersion conv now (Some (default (u64 now) version)) dataName);
      dataName ← liftR (Name.appendSegment conv 0 dataName);
      _ ← modify (with_data (Some (Data.ofName dataName)));
      _ ← onData (Data.setContentType ContentType_PrefixAnn);
      content ← makeContent;
      _ ← onData (Data.setContentBlock content);
      _ ← onData sign;
      p ← self;
      mret (m_data p)
  end.

End with_boost.
End PrefixAnnouncement.

(** ** Lemmas *)

Module AnnouncementFacts.
Import FieldFacts.

Section with_boost.
Context `{PosixTimeLaws}.

(** Seconds that a time point of the system clock can hold, from 1970 on. *)
Definition second_ok (s : Z) : Prop := 0 <= s /\ s * 1000000000 < 2 ^ 63.

Lemma second_wrap s : second_ok s -> i64 (s * 1000000000) = s * 1000000000.
Proof. intros [H1 H2]. apply i64_small. lia. Qed.

Lemma whole_second_of s : second_ok s -> whole_second (s * 1000000).
Proof. intros [H1 H2]. split; [apply Z.mod_mul; lia|lia]. Qed.

Lemma quot_seconds s k : 0 < k -> Z.quot (s * k) k = s.
Proof. intros Hk. apply Z.quot_mul. lia. Qed.

Lemma toIsoString_second s : second_ok s -> time.toIsoString (s * 1000000000) = to_iso_string (s * 1000000).
Proof.
  intros Hs. unfold time.toIsoString, time.convertToPosixTime. f_equal.
  replace (s * 1000000000) with (s * 1000000 * 1000) by ring. rewrite quot_seconds by lia.
  rewrite Z.mul_comm. symmetry. apply Z.quot_rem'.
Qed.

Lemma fromIsoString_second s : second_ok s ->
  time.fromIsoString (to_iso_string (s * 1000000)) = Ok (s * 1000000000).
Proof.
  intros Hs. unfold time.fromIsoString. rewrite iso_roundtrip by (by apply whole_second_of).
  cbn [mbind result_bind]. f_equal. unfold time.convertToTimePoint.
  rewrite quot_seconds, Z.rem_mul, second_wrap by (done || lia). rewrite Z.mul_0_l, Z.add_0_r. by apply second_wrap.
Qed.

Definition period_ok (p : ValidityPeriod.t) : Prop :=
  second_ok (ValidityPeriod.m_notBefore p) /\ second_ok (ValidityPeriod.m_notAfter p).

Definition iso (s : Z) : bytes := to_iso_string (s * 1000000).

Definition period_seq (p : ValidityPeriod.t) : list (Z * bytes) :=
  [(ValidityPeriod.NotBefore, iso (ValidityPeriod.m_notBefore p));
   (ValidityPeriod.NotAfter, iso (ValidityPeriod.m_notAfter p))].

Lemma len_iso s : second_ok s -> len (iso s) = 15.
Proof. intros Hs. by apply iso_size, whole_second_of. Qed.

Lemma EncSeq_period p : period_ok p ->
  EncSeq (ValidityPeriod.wireEncode_template p) [(SignatureInfo.ValidityPeriod, BlockFacts.tlv_seq (period_seq p))].
Proof.
  intros [H1 H2]. apply EncSeq_TL. unfold period_seq, ValidityPeriod.getPeriod, fst, snd.
  rewrite !second_wrap, !toIsoString_second by done.
  apply (EncSeq_then _ _ [_] [_]); apply EncSeq_one, Encodes_stringBlock.
Qed.

Lemma period_seq_ok p : period_ok p -> Forall BlockFacts.tlv_ok (period_seq p).
Proof.
  intros [H1 H2]. constructor; [|constructor; [|constructor]]; (split; [by vm_compute|]); cbn [snd];
    rewrite len_iso by done; by vm_compute.
Qed.

Lemma len_tlv_small ty v : len (tlv_bytes ty v) <= 18 + len v.
Proof. rewrite len_tlv_bytes. unfold tlv.sizeOfVarNumber. repeat case_match; lia. Qed.

Lemma period_seq_size p : period_ok p -> is_u64 (len (BlockFacts.tlv_seq (period_seq p))).
Proof.
  intros [H1 H2]. unfold period_seq. change [?x; ?y] with ([x] ++ [y]). rewrite tlv_seq_app, !tlv_seq_one, len_app.
  pose proof (len_tlv_small ValidityPeriod.NotBefore (iso (ValidityPeriod.m_notBefore p))).
  pose proof (len_tlv_small ValidityPeriod.NotAfter (iso (ValidityPeriod.m_notAfter p))).
  rewrite !len_iso in * by done. pose proof (len_nonneg (tlv_bytes ValidityPeriod.NotBefore (iso (ValidityPeriod.m_notBefore p)))).
  pose proof (len_nonneg (tlv_bytes ValidityPeriod.NotAfter (iso (ValidityPeriod.m_notAfter p)))). width. lia.
Qed.

Definition period_block (p : ValidityPeriod.t) : Block.t := parsed_block SignatureInfo.ValidityPeriod (period_seq p).

Lemma period_encode p : period_ok p -> Block.hasWire (ValidityPeriod.m_wire p) = false ->
  ValidityPeriod.wireEncode p = (ValidityPeriod.with_wire (period_block p) p, Ok (period_block p)).
Proof.
  intros Hp Hw. unfold ValidityPeriod.wireEncode. rewrite bindM_self, Hw.
  rewrite (bindM_lift _ _ _ (seq_block SignatureInfo.ValidityPeriod (period_seq p))).
  2: { apply makeBlock_seq; [by apply EncSeq_period|by vm_compute|by apply period_seq_size]. }
  rewrite (bindM_ok _ _ _ (ValidityPeriod.with_wire (period_block p) p) tt); [done|].
  apply assignParsed_seq. by apply period_seq_ok.
Qed.

Lemma iso_decode s : second_ok s ->
  ValidityPeriod.catch_bad_cast (time.fromIsoString (iso s)) = Ok (s * 1000000000).
Proof. intros Hs. unfold iso. by rewrite fromIsoString_second. Qed.

(** The encoded element, parsed or not, decodes to the same period. *)
Lemma period_decode p b : period_ok p ->
  b = period_block p \/ b = seq_block SignatureInfo.ValidityPeriod (period_seq p) ->
  ValidityPeriod.ofBlock b =
  Ok (ValidityPeriod.mk (ValidityPeriod.m_notBefore p) (ValidityPeriod.m_notAfter p) (period_block p)).
Proof.
  intros Hp Hb. unfold ValidityPeriod.ofBlock, exec, ValidityPeriod.wireDecode.
  assert (Block.hasWire b = true) as Hw.
  { destruct Hb as [-> | ->]; [apply parsed_hasWire|exact (of_pair_hasWire (_, _))]. }
  rewrite bindM_pass by (by rewrite Hw).
  assert (forall s, assignParsed ValidityPeriod.with_wire b s = (ValidityPeriod.with_wire (period_block p) s, Ok tt)) as Ha.
  { intros s. destruct Hb as [-> | ->]; [done|]. apply assignParsed_seq. by apply period_seq_ok. }
  rewrite (bindM_ok _ _ _ _ _ (Ha _)), bindM_self. destruct Hp as [H1 H2].
  rewrite bindM_pass by done. cbn [ValidityPeriod.m_wire ValidityPeriod.with_wire period_block parsed_block Block.elements Block.m_elements period_seq fmap list_fmap].
  assert (forall ty s, second_ok s -> ValidityPeriod.bad_field ty (BlockFacts.of_pair (ty, iso s)) = false) as Hf.
  { intros ty s Hs. unfold ValidityPeriod.bad_field, Block.value_size. cbn. rewrite Z.eqb_refl. cbn.
    by rewrite len_iso. }
  rewrite bindM_pass by (by rewrite !Hf).
  rewrite (bindM_lift _ _ _ _ (iso_decode _ H1)), bindM_modify.
  rewrite (bindM_lift _ _ _ _ (iso_decode _ H2)). cbn. by rewrite !quot_seconds.
Qed.

(** *** Announcements *)

Lemma encoded_of_tlv ty v : BlockFacts.encoded (Block.of_tlv ty v) = Block.of_tlv ty v.
Proof. done. Qed.

Lemma encoded_parsed ty l : BlockFacts.encoded (parsed_block ty l) = parsed_block ty l.
Proof. done. Qed.

Lemma get_from_end k n l c r : Name.components n = l ++ c :: r -> k = - (1 + len r) -> Name.get k n = Some c.
Proof.
  intros Hn ->. unfold Name.get. rewrite NameFacts.size_len, Hn, len_app, len_cons.
  pose proof (len_nonneg l). pose proof (len_nonneg r). rewrite (proj2 (Z.ltb_lt (- (1 + len r)) 0)) by lia.
  rewrite (proj2 (Z.ltb_ge (- (1 + len r) + _) 0)) by lia.
  replace (Z.to_nat _) with (length l) by (unfold len in *; lia). by rewrite lookup_app_r, Nat.sub_diag.
Qed.

Lemma keyword_ok : PrefixAnnouncement.getKeywordComponent = Ok (Block.of_tlv 32 (str "PA")).
Proof. vm_compute. reflexivity. Qed.

(** The elements of the content, and the Data before it is signed. *)
Definition ann_elements (p : PrefixAnnouncement.t) : list Block.t :=
  Block.of_tlv PrefixAnnouncement.ExpirationPeriod (tlv.writeNonNegativeInteger (PrefixAnnouncement.m_expiration p)) ::
  olist (period_block <$> PrefixAnnouncement.m_validity p).

Definition ann_ok (p : PrefixAnnouncement.t) : Prop :=
  0 <= PrefixAnnouncement.m_expiration p < 2 ^ 63 /\ Name.size (PrefixAnnouncement.m_announcedName p) < 2 ^ 61 /\
  (forall v, PrefixAnnouncement.m_validity p = Some v ->
     period_ok v /\ Block.hasWire (ValidityPeriod.m_wire v) = false).

Definition ann_content (p : PrefixAnnouncement.t) : Block.t :=
  BlockFacts.encoded (Block.mk tlv.Content None 0 (ann_elements p)).

Lemma ann_elements_encoded p : BlockFacts.encoded <$> ann_elements p = ann_elements p.
Proof. unfold ann_elements. by destruct (PrefixAnnouncement.m_validity p). Qed.

Lemma ann_content_elements p : Block.elements (ann_content p) = ann_elements p.
Proof. exact (ann_elements_encoded p). Qed.

Lemma makeContent_spec p : ann_ok p -> exists v',
  PrefixAnnouncement.makeContent p = (PrefixAnnouncement.with_validity v' p, Ok (ann_content p)) /\
  SignatureInfo.option_eqb ValidityPeriod.eqb v' (PrefixAnnouncement.m_validity p) = true.
Proof.
  intros (He & _ & Hv). unfold PrefixAnnouncement.makeContent. rewrite bindM_self.
  rewrite u64_small by (unfold UINT64_MAX; lia).
  rewrite (bindM_lift _ _ _ (Block.of_tlv PrefixAnnouncement.ExpirationPeriod
    (tlv.writeNonNegativeInteger (PrefixAnnouncement.m_expiration p)))).
  2: { apply makeBlock_tlv; [apply Encodes_nniBlock|by vm_compute|apply len_nni]. }
  unfold ann_content, ann_elements. destruct (PrefixAnnouncement.m_validity p) as [v|] eqn:E.
  - destruct (Hv v eq_refl) as [Hp Hw]. rewrite (period_encode v Hp Hw), bindM_modify.
    exists (Some (ValidityPeriod.with_wire (period_block v) v)). split; [|unfold SignatureInfo.option_eqb, ValidityPeriod.eqb; cbn; by rewrite !Z.eqb_refl].
    cbn [liftR]. rewrite (bindM_lift _ _ _ (period_block v)) by done. rewrite BlockFacts.encode_spec by done. done.
  - exists None. split; [|done]. rewrite BlockFacts.encode_spec by done. destruct p. cbn in *. by subst.
Qed.

End with_boost.
End AnnouncementFacts.

(** ** Theorems *)

Module AnnouncementTheorems.
Import FieldFacts AnnouncementFacts.

(** What is relied on of [KeyChain::sign]: it signs, and it changes nothing
    of a Data packet but its SignatureInfo and SignatureValue. *)
Definition signs (sign : M Data.t unit) : Prop := forall d, exists info value w full,
  sign d = (Data.mk (Data.m_name d) (Data.m_metaInfo d) (Data.m_content d) info value w full, Ok tt).

Section with_boost.
Context `{PosixTimeLaws}.

(** The three components behind the announced name. *)
Lemma ann_name_spec conv n name cv cs : Name.size n < 2 ^ 61 ->
  Name.components name = Name.components n ++ [Block.of_tlv 32 (str "PA"); cv; cs] ->
  Component.isVersion conv cv = true -> Component.isSegment conv cs = true ->
  PrefixAnnouncement.wrong_name conv (Block.of_tlv 32 (str "PA")) name = false /\
  exists a, Name.getPrefix (-3) name = Ok a /\ Name.equals n a = true.
Proof.
  intros Hs Hn Hcv Hcs. rewrite NameFacts.size_len in Hs. set (l := Name.components n) in *.
  assert (Name.size name = len l + 3) as Hsz by (rewrite NameFacts.size_len, Hn, len_app; done).
  pose proof (len_nonneg l). split.
  - unfold PrefixAnnouncement.wrong_name. rewrite (get_from_end (-3) _ l _ [cv; cs]) by done.
    rewrite (get_from_end (-2) _ (l ++ [Block.of_tlv 32 (str "PA")]) cv [cs]) by (rewrite <- ?(assoc_L (++)); done).
    rewrite (get_from_end (-1) _ (l ++ [Block.of_tlv 32 (str "PA"); cv]) cs []) by (rewrite <- ?(assoc_L (++)); done).
    rewrite Hsz, Hcv, Hcs, (proj2 (Z.ltb_ge _ 3)) by lia. done.
  - destruct (NameFacts.getPrefix_neg_spec 3 name) as (a & Hg & Ha & _); [lia..|]. exists a. split; [exact Hg|].
    rewrite NameFacts.nequals_spec, bool_decide_eq_true. unfold NameFacts.keys. f_equal.
    rewrite Ha, Hsz, Hn. replace (Z.to_nat _) with (length l) by (unfold len; lia). by rewrite take_app_length.
Qed.

(** The content is not empty, and parsing it changes nothing. *)
Lemma ann_content_parsed p : (Block.value_size (ann_content p) =? 0) = false /\
  Block.parsed (ann_content p) = Ok (ann_content p).
Proof.
  split.
  - apply Z.eqb_neq. unfold Block.value_size. intros E%len_zero. revert E. change (Block.value (ann_content p)) with
      (mjoin (BlockFacts.encoding <$> ann_elements p)). unfold ann_elements. rewrite fmap_cons. cbn [mjoin list_join].
    rewrite BlockFacts.encoding_unfold. apply tlv_bytes_nonempty.
  - unfold Block.parsed, Block.parse. change (Block.m_elements (ann_content p)) with (Block.elements (ann_content p)).
    rewrite ann_content_elements. unfold ann_elements. rewrite len_cons.
    pose proof (len_nonneg (olist (period_block <$> PrefixAnnouncement.m_validity p))).
    by rewrite (proj2 (Z.eqb_neq (1 + _) 0)) by lia.
Qed.

(** What the decoder finds in the content. *)
Lemma ann_payload p : ann_ok p ->
  (e ← Block.get PrefixAnnouncement.ExpirationPeriod (ann_content p); encoding.readNonNegativeInteger e) =
    Ok (PrefixAnnouncement.m_expiration p) /\
  Block.find SignatureInfo.ValidityPeriod (ann_content p) = period_block <$> PrefixAnnouncement.m_validity p /\
  existsb PrefixAnnouncement.unrecognized (Block.elements (ann_content p)) = false.
Proof.
  intros (He & _ & _). unfold Block.get, Block.find.
  change (Block.m_elements (ann_content p)) with (Block.elements (ann_content p)).
  rewrite ann_content_elements. split; [|by destruct (PrefixAnnouncement.m_validity p) eqn:E; unfold ann_elements; rewrite E].
  unfold ann_elements. cbn [Block.find_from Block.m_type Block.of_tlv]. rewrite Z.eqb_refl. cbn [lookup list_lookup mbind result_bind].
  apply readNNI_of_tlv. width. lia.
Qed.

(** The decoder reads the announcement back from any Data with the right
    name, content type and content. *)
Lemma ofData_spec conv p d cv cs : ann_ok p ->
  Name.components (Data.m_name d) =
    Name.components (PrefixAnnouncement.m_announcedName p) ++ [Block.of_tlv 32 (str "PA"); cv; cs] ->
  Component.isVersion conv cv = true -> Component.isSegment conv cs = true ->
  MetaInfo.m_type (Data.m_metaInfo d) = PrefixAnnouncement.ContentType_PrefixAnn ->
  Data.m_content d = ann_content p ->
  exists q, PrefixAnnouncement.ofData conv d = Ok q /\ PrefixAnnouncement.eqb p q = true /\
    PrefixAnnouncement.m_data q = Some d.
Proof.
  intros Hp Hn Hcv Hcs Ht Hc. pose proof Hp as (He & Hs & Hv). destruct (ann_payload p Hp) as (Hg & Hf & Hu).
  destruct (ann_name_spec conv _ _ cv cs Hs Hn Hcv Hcs) as (Hw & a & Ha & Heq). destruct (ann_content_parsed p) as [Hne Hpar].
  unfold PrefixAnnouncement.ofData. rewrite keyword_ok. cbn [mbind result_bind].
  rewrite Hw, Ha, Ht, Z.eqb_refl. cbn [negb throw_if mbind result_bind]. rewrite Hc, Hne, Hpar. cbn [throw_if mbind result_bind].
  destruct (Block.get _ _) as [e|]; [|discriminate Hg]. cbn [mbind result_bind] in *. rewrite Hg, Hf, Hu. cbn [mbind result_bind throw_if].
  rewrite i64_small by lia. replace (Data.with_content (ann_content p) d) with d by (rewrite <- Hc; by destruct d).
  unfold PrefixAnnouncement.eqb. destruct (PrefixAnnouncement.m_validity p) as [v|]; cbn [fmap option_fmap option_map].
  - destruct (Hv v eq_refl) as [Hok _]. rewrite (period_decode v _ Hok (or_introl eq_refl)). cbn [mbind result_bind].
    eexists. split; [done|]. split; [|done]. cbn [PrefixAnnouncement.m_announcedName PrefixAnnouncement.m_expiration PrefixAnnouncement.m_validity SignatureInfo.option_eqb].
    unfold ValidityPeriod.eqb. cbn [ValidityPeriod.m_notBefore ValidityPeriod.m_notAfter]. by rewrite Heq, !Z.eqb_refl.
  - eexists. split; [done|]. split; [|done]. cbn [PrefixAnnouncement.m_announcedName PrefixAnnouncement.m_expiration PrefixAnnouncement.m_validity SignatureInfo.option_eqb].
    by rewrite Heq, Z.eqb_refl.
Qed.

(** The announcement is signed into a Data packet once, and the Data decodes to an
    equal announcement. *)
Lemma appendVersion_spec conv now v n : is_u64 v -> Kind.compatible conv = true ->
  exists n' c, Name.appendVersion conv now (Some v) n = Ok n' /\ Name.components n' = Name.components n ++ [c] /\
    Component.isVersion conv c = true.
Proof.
  intros Hv Hc. destruct (ComponentTheorems.convention_roundtrip conv Kind.Version Kind.Version v Hv Hc) as (c & H1 & _ & H3).
  unfold Name.appendVersion. change (Component.fromVersion conv _) with (Kind.from Kind.Version conv v).
  rewrite H1. cbn [mbind result_bind]. exists (Name.append c n), c. split_and!; [done|apply NameFacts.components_append|exact H3].
Qed.

Lemma appendSegment_spec conv n : Kind.compatible conv = true ->
  exists n' c, Name.appendSegment conv 0 n = Ok n' /\ Name.components n' = Name.components n ++ [c] /\
    Component.isSegment conv c = true.
Proof.
  intros Hc. destruct (ComponentTheorems.convention_roundtrip conv Kind.Segment Kind.Segment 0) as (c & H1 & _ & H3); [width; lia|done|].
  unfold Name.appendSegment. change (Component.fromSegment conv 0) with (Kind.from Kind.Segment conv 0).
  rewrite H1. cbn [mbind result_bind]. exists (Name.append c n), c. split_and!; [done|apply NameFacts.components_append|exact H3].
Qed.

(** A prefix announcement survives its Data packet: [toData] makes a Data
    whose name is the announced name with the keyword, a version and a
    segment, signs it once and returns the same packet on later calls, and
    decoding that Data gives an announcement equal to the first, with the
    Data kept; the version may be given or taken from the clock. *)
Theorem prefix_announcement_roundtrip (sign : M Data.t unit) (conv : name.Conventions) (now : Z) (version : option Z)
    (p : PrefixAnnouncement.t) (Hsign : signs sign) (Hconv : Kind.compatible conv = true)
    (Hv : forall v, version = Some v -> is_u64 v) (Hp : ann_ok p) (Hd : PrefixAnnouncement.m_data p = None) :
  exists p' d q, PrefixAnnouncement.toData sign conv now version p = (p', Ok (Some d)) /\
    (forall sign' now' version', PrefixAnnouncement.toData sign' conv now' version' p' = (p', Ok (Some d))) /\
    PrefixAnnouncement.ofData conv d = Ok q /\ PrefixAnnouncement.m_data q = Some d /\
    PrefixAnnouncement.eqb p p' = true /\ PrefixAnnouncement.eqb p q = true.
Proof.
  unfold PrefixAnnouncement.toData. rewrite bindM_self, Hd, keyword_ok, (bindM_lift _ _ _ _ eq_refl).
  assert (is_u64 (default (u64 now) version)) as Hu.
  { destruct version as [v|]; [by apply Hv|]. cbn. unfold u64. width. pose proof (Z.mod_pos_bound now (2 ^ 64)). lia. }
  set (n0 := Name.append _ _). destruct (appendVersion_spec conv now _ n0 Hu Hconv) as (n1 & cv & H1 & Hn1 & Hcv).
  rewrite (bindM_lift _ _ _ _ H1). destruct (appendSegment_spec conv n1 Hconv) as (n2 & cs & H2 & Hn2 & Hcs).
  rewrite (bindM_lift _ _ _ _ H2), bindM_modify.
  set (d1 := Data.mk n2 (MetaInfo.mk PrefixAnnouncement.ContentType_PrefixAnn 0 None [] Block.empty) Block.empty
    SignatureInfo.init Block.empty Block.empty (Name.clear Name.empty)).
  rewrite (bindM_ok _ _ _ (PrefixAnnouncement.with_data (Some d1) p) tt) by done.
  destruct (makeContent_spec (PrefixAnnouncement.with_data (Some d1) p)) as (v' & Hc & Hval); [exact Hp|].
  rewrite (bindM_ok _ _ _ _ _ Hc). set (d2 := Data.with_content (ann_content p) d1).
  rewrite (bindM_ok _ _ _ (PrefixAnnouncement.with_validity v' (PrefixAnnouncement.with_data (Some d2) p)) tt) by done.
  destruct (Hsign d2) as (info & value & w & full & Hs). set (d3 := Data.mk _ _ _ info value w full) in Hs.
  rewrite (bindM_ok _ _ _ (PrefixAnnouncement.with_validity v' (PrefixAnnouncement.with_data (Some d3) p)) tt).
  2: { unfold PrefixAnnouncement.onData. cbn [PrefixAnnouncement.m_data PrefixAnnouncement.with_data PrefixAnnouncement.with_validity]. by rewrite Hs. }
  rewrite bindM_self. destruct (ofData_spec conv p d3 cv cs Hp) as (q & Hq & Heq & Hqd); [|done..|].
  { cbn [d3 Data.m_name d2 d1 Data.with_content]. rewrite Hn2, Hn1. unfold n0. rewrite NameFacts.components_append.
    by rewrite <- !(assoc_L (++)). }
  eexists _, d3, q. split_and!; try done.
  unfold PrefixAnnouncement.eqb. cbn. rewrite NameFacts.nequals_spec, bool_decide_eq_true_2, Z.eqb_refl by done. cbn.
  revert Hval. cbn. destruct v', (PrefixAnnouncement.m_validity p); unfold SignatureInfo.option_eqb, ValidityPeriod.eqb; try done.
  rewrite !andb_true_iff, !Z.eqb_eq. intros []. split; congruence.
Qed.

(** A validity period survives its encoding, and encoding it again returns
    the same element. *)
Theorem validity_period_roundtrip (p : ValidityPeriod.t) (Hp : period_ok p)
    (Hw : Block.hasWire (ValidityPeriod.m_wire p) = false) :
  exists p' b q, ValidityPeriod.wireEncode p = (p', Ok b) /\ ValidityPeriod.wireEncode p' = (p', Ok b) /\
    ValidityPeriod.ofBlock b = Ok q /\ ValidityPeriod.eqb p q = true.
Proof.
  rewrite (period_encode p Hp Hw). eexists _, _, _. split; [done|]. split_and!.
  - unfold ValidityPeriod.wireEncode. rewrite bindM_self.
    cbn [ValidityPeriod.m_wire ValidityPeriod.with_wire]. unfold period_block. by rewrite parsed_hasWire.
  - apply (period_decode p); auto.
  - unfold ValidityPeriod.eqb. cbn. by rewrite !Z.eqb_refl.
Qed.

End with_boost.

Lemma rounding_bounds t : 0 <= t -> t + 1000000000 < 2 ^ 63 ->
  let s := ValidityPeriod.round_notBefore t in t <= s * 1000000000 < t + 1000000000 /\ i64 (s * 1000000000) = s * 1000000000.
Proof.
  intros H1 H2. cbv zeta. unfold ValidityPeriod.round_notBefore. rewrite (i64_small (t + 1000000000)) by lia.
  rewrite (i64_small (t + 1000000000 - 1)) by lia. rewrite Z.quot_div_nonneg by lia.
  pose proof (Z.div_mod (t + 1000000000 - 1) 1000000000 ltac:(lia)).
  pose proof (Z.mod_pos_bound (t + 1000000000 - 1) 1000000000 ltac:(lia)). split; [lia|]. apply i64_small. lia.
Qed.

(** The rounding to whole seconds never widens a validity period that
    starts in 1970 or later: an instant that the rounded period accepts lies in
    the period asked for, and every whole second of the period asked for is
    accepted. *)
Theorem validity_period_rounding (notBefore notAfter : Z)
    (Hb : 0 <= notBefore /\ notBefore + 1000000000 < 2 ^ 63) (Ha : 0 <= notAfter < 2 ^ 63) :
  (forall now, ValidityPeriod.isValid now (ValidityPeriod.ofPeriod notBefore notAfter) = true ->
     notBefore <= now <= notAfter) /\
  (forall s, notBefore <= s * 1000000000 <= notAfter ->
     ValidityPeriod.isValid (s * 1000000000) (ValidityPeriod.ofPeriod notBefore notAfter) = true) /\
  ValidityPeriod.isValid 0 ValidityPeriod.init = false.
Proof.
  destruct (rounding_bounds notBefore) as [H1 H2]; [lia..|].
  assert (Z.quot notAfter 1000000000 * 1000000000 <= notAfter < Z.quot notAfter 1000000000 * 1000000000 + 1000000000) as H3.
  { rewrite Z.quot_div_nonneg by lia. pose proof (Z.div_mod notAfter 1000000000 ltac:(lia)).
    pose proof (Z.mod_pos_bound notAfter 1000000000 ltac:(lia)). lia. }
  assert (i64 (Z.quot notAfter 1000000000 * 1000000000) = Z.quot notAfter 1000000000 * 1000000000) as H4.
  { apply i64_small. pose proof (Z.quot_pos notAfter 1000000000 ltac:(lia) ltac:(lia)). lia. }
  unfold ValidityPeriod.isValid, ValidityPeriod.getPeriod, ValidityPeriod.ofPeriod, ValidityPeriod.round_notAfter.
  cbn [ValidityPeriod.m_notBefore ValidityPeriod.m_notAfter fst snd]. rewrite H2, H4. split_and!; [intros ?; lia| |done].
  intros s Hs. apply andb_true_intro. rewrite !Z.leb_le. lia.
Qed.

(** A clock that prints microseconds as fifteen octets. *)
#[local] Instance toy_time : PosixTime := {|
  to_iso_string us := be_bytes 15 us;
  from_iso_string s := if len s =? 15 then Ok (be_number s) else Throw (BadCast "date");
|}.

#[local] Instance toy_time_laws : PosixTimeLaws.
Proof.
  split; intros us [_ Hus]; cbn [to_iso_string from_iso_string toy_time].
  - apply len_be_bytes.
  - rewrite len_be_bytes. cbn [Z.of_nat Z.eqb]. change (_ =? _) with true. cbv iota. rewrite be_number_bytes, Z.mod_small; [done|]. lia.
Qed.

(** A signer that stores a SignatureInfo and a fixed value. *)
Definition toy_sign : M Data.t unit := fun d =>
  (Data.mk (Data.m_name d) (Data.m_metaInfo d) (Data.m_content d) (SignatureInfo.make 0 None)
     (Block.ofTypeValue tlv.SignatureValue [z2b 1]) (Data.m_wire d) (Data.m_fullName d), Ok tt).

Definition sample_announcement : PrefixAnnouncement.t :=
  PrefixAnnouncement.mk None (Name.append (Block.ofTypeValue 8 (str "A")) Name.empty) 60000
    (Some (ValidityPeriod.ofPeriod 1 86400000000000)).

Lemma sample_announcement_ok : ann_ok sample_announcement.
Proof.
  split_and!; [by vm_compute..|]. intros v [= <-]. split; [|done]. split; by vm_compute.
Qed.

Lemma prefix_announcement_roundtrip_witness : exists p' d q,
  PrefixAnnouncement.toData toy_sign name.defaultConventions 5 (Some 7) sample_announcement = (p', Ok (Some d)) /\
  PrefixAnnouncement.ofData name.defaultConventions d = Ok q /\ PrefixAnnouncement.eqb sample_announcement q = true.
Proof.
  destruct (@prefix_announcement_roundtrip toy_time toy_time_laws toy_sign name.defaultConventions 5 (Some 7) sample_announcement)
    as (p' & d & q & H1 & _ & H2 & _ & _ & H3).
  - intros d. eexists _, _, _, _. reflexivity.
  - reflexivity.
  - intros v [= <-]. width. lia.
  - exact sample_announcement_ok.
  - reflexivity.
  - exists p', d, q. exact (conj H1 (conj H2 H3)).
Defined.

Lemma validity_period_rounding_witness :
  ValidityPeriod.isValid 86400000000000 (ValidityPeriod.ofPeriod 1 86400000000000) = true.
Proof.
  exact (proj1 (proj2 (validity_period_rounding 1 86400000000000 ltac:(lia) ltac:(lia))) 86400 ltac:(lia)).
Defined.

(** A period that lies before 1970 is rounded towards 1970: it ends up to one
    second later than asked for. *)
Theorem validity_period_before_epoch :
  ValidityPeriod.isValid (-1000000000) (ValidityPeriod.ofPeriod (-5000000000) (-1500000000)) = true.
Proof. by vm_compute. Qed.

(** The Data of an announcement is stored before it is signed: when the key
    chain throws, [toData] throws too, but the next call finds the unsigned Data
    and returns it without signing. *)
Theorem prefix_announcement_unsigned (why : exn) (now : Z) :
  let fails : M Data.t unit := fun d => (d, Throw why) in
  let p := PrefixAnnouncement.mk None Name.empty 60000 None in
  exists p' d, PrefixAnnouncement.toData fails name.defaultConventions now (Some 7) p = (p', Throw why) /\
    PrefixAnnouncement.toData toy_sign name.defaultConventions now (Some 7) p' = (p', Ok (Some d)) /\
    SignatureInfo.isSet (Data.m_signatureInfo d) = false /\ is_Ok (Data.wireEncode_template false d) = false.
Proof. cbv zeta. eexists _, _. split; [vm_compute; reflexivity|]. split; [vm_compute; reflexivity|]. split; vm_compute; reflexivity. Qed.

End AnnouncementTheorems.
