(* ===== verification/Certificates.v ===== *)
(** * Certificates and where they are kept

    A certificate ([security/certificate.cpp]) is a Data packet that follows a
    naming convention.  The validator finds certificates in the trust anchors
    ([security/trust-anchor-container.cpp], [trust-anchor-group.cpp]) and in two
    caches with a time limit ([security/certificate-cache.cpp]); the storage
    ([security/certificate-storage.cpp]) holds the three. *)

From stdpp Require Import list.
From S2P Require Import Prelude Tlv Encoding Blocks BlockHelpers Text NameComponents Names Fields DataPacket InterestPacket InMemoryStorage.
From S2P Require Import Announcements.

(** ** Certificate *)

Module Certificate.

(** [ndn-cxx/security/certificate.hpp:60-152] Certificate
    The class adds no field to Data. *)
Definition t := Data.t.

(** [ndn-cxx/security/certificate.cpp:40-40] Certificate::VERSION_OFFSET *)
Definition VERSION_OFFSET : Z := -1.
(** [ndn-cxx/security/certificate.cpp:41-41] Certificate::ISSUER_ID_OFFSET *)
Definition ISSUER_ID_OFFSET : Z := -2.
(** [ndn-cxx/security/certificate.cpp:42-42] Certificate::KEY_ID_OFFSET *)
Definition KEY_ID_OFFSET : Z := -3.
(** [ndn-cxx/security/certificate.cpp:43-43] Certificate::KEY_COMPONENT_OFFSET *)
Definition KEY_COMPONENT_OFFSET : Z := -4.
(** [ndn-cxx/security/certificate.cpp:44-44] Certificate::MIN_CERT_NAME_LENGTH *)
Definition MIN_CERT_NAME_LENGTH : Z := 4.
(** [ndn-cxx/security/certificate.cpp:45-45] Certificate::MIN_KEY_NAME_LENGTH *)
Definition MIN_KEY_NAME_LENGTH : Z := 2.
(** [ndn-cxx/security/certificate.cpp:46-46] Certificate::KEY_COMPONENT *)
Definition KEY_COMPONENT : Component.t :=
  match Component.ofString (str "KEY") with Ok c => c | Throw _ => Block.empty end.

(** [ndn-cxx/encoding/tlv.hpp:167-167] tlv::ContentType_Key *)
Definition ContentType_Key : Z := 2.

(** [ndn-cxx/security/certificate.cpp:134-140] Certificate::isValidName *)
Definition isValidName (certName : Name.t) : bool :=
  (MIN_CERT_NAME_LENGTH <=? Name.size certName) &&
  match Name.get KEY_COMPONENT_OFFSET certName with
  | Some c => Component.equals c KEY_COMPONENT
  | None => false
  end.

(** [ndn-cxx/security/certificate.cpp:53-68] Certificate::Certificate(Data&&) *)
Definition ofData (data : Data.t) : result t :=
  _ ← throw_if (negb (isValidName (Data.m_name data))) (PacketError "Name does not follow the naming convention for certificate");
  _ ← throw_if (negb (MetaInfo.m_type (Data.m_metaInfo data) =? ContentType_Key)) (PacketError "Expecting ContentType Key");
  _ ← throw_if (MetaInfo.m_freshnessPeriod (Data.m_metaInfo data) <? 0) (PacketError "FreshnessPeriod is not set");
  _ ← throw_if (Block.value_size (Data.m_content data) =? 0) (PacketError "Content is empty");
  Ok data.

(** [ndn-cxx/security/certificate.cpp:80-84] Certificate::getKeyName *)
Definition getKeyName (c : t) : result Name.t := Name.getPrefix (KEY_ID_OFFSET + 1) (Data.m_name c).

(** [ndn-cxx/security/certificate.cpp:86-90] Certificate::getIdentity *)
Definition getIdentity (c : t) : result Name.t := Name.getPrefix KEY_COMPONENT_OFFSET (Data.m_name c).

(** [ndn-cxx/security/certificate.cpp:92-96] Certificate::getKeyId *)
Definition getKeyId (c : t) : result Component.t := Name.at_ KEY_ID_OFFSET (Data.m_name c).

(** [ndn-cxx/security/certificate.cpp:98-102] Certificate::getIssuerId *)
Definition getIssuerId (c : t) : result Component.t := Name.at_ ISSUER_ID_OFFSET (Data.m_name c).

(** [ndn-cxx/security/certificate.cpp:104-110] Certificate::getPublicKey *)
Definition getPublicKey (c : t) : result bytes :=
  _ ← throw_if (Block.value_size (Data.m_content c) =? 0) (PacketError "Content is empty");
  Ok (Block.value (Data.m_content c)).

(** [ndn-cxx/security/certificate.cpp:185-194] extractIdentityFromCertName *)
Definition extractIdentityFromCertName (certName : Name.t) : result Name.t :=
  _ ← throw_if (negb (isValidName certName)) (InvalidArgument "Certificate name does not respect the naming conventions");
  Name.getPrefix KEY_COMPONENT_OFFSET certName.

(** [ndn-cxx/security/certificate.cpp:196-205] extractKeyNameFromCertName *)
Definition extractKeyNameFromCertName (certName : Name.t) : result Name.t :=
  _ ← throw_if (negb (isValidName certName)) (InvalidArgument "Certificate name does not respect the naming conventions");
  Name.getPrefix (KEY_ID_OFFSET + 1) certName.

(** [ndn-cxx/security/certificate.cpp:124-132] Certificate::getExtension *)
Definition getExtension (type : Z) (c : t) : result Block.t :=
  match SignatureInfo.getCustomTlv type (Data.m_signatureInfo c) with
  | Some b => Ok b
  | None => Throw (TlvError "sub-element does not exist in SignatureInfo")
  end.

Section validity.
Context `{PosixTime}.

(** [ndn-cxx/signature-info.cpp:208-216] SignatureInfo::getValidityPeriod *)
Definition SignatureInfo_getValidityPeriod (s : SignatureInfo.t) : result ValidityPeriod.t :=
  match SignatureInfo.findOtherTlv SignatureInfo.ValidityPeriod s with
  | None => Throw (PacketError "ValidityPeriod does not exist in SignatureInfo")
  | Some b => ValidityPeriod.ofBlock b
  end.

(** [ndn-cxx/security/certificate.cpp:112-116] Certificate::getValidityPeriod *)
Definition getValidityPeriod (c : t) : result ValidityPeriod.t := SignatureInfo_getValidityPeriod (Data.m_signatureInfo c).

(** [ndn-cxx/security/certificate.cpp:118-122] Certificate::isValid *)
Definition isValid (ts : Z) (c : t) : result bool := p ← getValidityPeriod c; Ok (ValidityPeriod.isValid ts p).

End validity.
End Certificate.

(** ** Containers that are ordered by name

    [boost::multi_index] with an [ordered_unique] index: a list in the order of
    the names, without two elements of the same name. *)

Section ordered.
Context {A : Type} (key : A -> Name.t).

(** From the first element that is not less than [n] on. *)
Fixpoint lower_bound (n : Name.t) (l : list A) : list A :=
  match l with
  | [] => []
  | x :: l' => if ims.less (key x) n then lower_bound n l' else l
  end.

(** An element with an equivalent key stays. *)
Fixpoint insert_unique (x : A) (l : list A) : list A :=
  match l with
  | [] => [x]
  | y :: l' =>
      if ims.less (key y) (key x) then y :: insert_unique x l'
      else if ims.less (key x) (key y) then x :: l
      else l
  end.

(** The elements with an equivalent key. *)
Definition erase_key (n : Name.t) (l : list A) : list A :=
  List.filter (fun y => ims.less (key y) n || ims.less n (key y)) l.

(** The first element at or behind the lower bound and under the prefix that
    satisfies the Interest; what [Data::getFullName] caches is not kept. *)
Fixpoint find_matching (sha256 : bytes -> bytes) (cert : A -> Data.t) (interest : Interest.t) (l : list A) : result (option A) :=
  match l with
  | [] => Ok None
  | x :: l =>
      if Name.isPrefixOf (Interest.m_name interest) (key x) then
        m ← snd (Interest.matchesData sha256 interest (cert x));
        if m : bool then Ok (Some x) else find_matching sha256 cert interest l
      else Ok None
  end.

End ordered.

(** ** CertificateCache *)

Module CertificateCache.
Section cache.
Context `{PosixTime} (sha256 : bytes -> bytes).

(** [ndn-cxx/security/certificate-cache.hpp:92-110] CertificateCache::Entry *)
Record Entry := mkEntry { cert : Certificate.t; removalTime : Z }.

Definition getCertName (e : Entry) : Name.t := Data.m_name (cert e).

(** [ndn-cxx/security/certificate-cache.hpp:122-141] CertificateCache
    In the order of the index by name; the index by time orders the same
    entries by [removalTime]. *)
Record t := mk { m_certs : list Entry; m_maxLifetime : Z }.

(** [ndn-cxx/security/certificate-cache.cpp:31-35] CertificateCache::getDefaultLifetime, in nanoseconds *)
Definition getDefaultLifetime : Z := 3600000000000.

(** [ndn-cxx/security/certificate-cache.cpp:37-42] CertificateCache::CertificateCache *)
Definition init (maxLifetime : Z) : t := mk [] maxLifetime.

(** [ndn-cxx/security/certificate-cache.cpp:44-58] CertificateCache::insert *)
Definition insert (now : Z) (c : Certificate.t) : M t unit :=
  p ← liftR (Certificate.getValidityPeriod c);
  let notAfterTime := snd (ValidityPeriod.getPeriod p) in
  if notAfterTime <? now then mret tt
  else
    modify (fun s =>
      let removalTime := Z.min notAfterTime (i64 (now + m_maxLifetime s)) in
      mk (insert_unique getCertName (mkEntry c removalTime) (m_certs s)) (m_maxLifetime s)).

(** [ndn-cxx/security/certificate-cache.cpp:60-64] CertificateCache::clear *)
Definition clear (s : t) : t := mk [] (m_maxLifetime s).

(** [ndn-cxx/security/certificate-cache.cpp:98-108] CertificateCache::refresh
    Erasing from the front of the index by time. *)
Definition refresh (now : Z) (s : t) : t := mk (List.filter (fun e => now <=? removalTime e) (m_certs s)) (m_maxLifetime s).

(** [ndn-cxx/security/certificate-cache.cpp:66-77] CertificateCache::find(const Name&) *)
Definition findName (now : Z) (certPrefix : Name.t) : M t (option Certificate.t) :=
  _ ← modify (refresh now);
  s ← self;
  mret (match lower_bound getCertName certPrefix (m_certs s) with
        | e :: _ => if Name.isPrefixOf certPrefix (getCertName e) then Some (cert e) else None
        | [] => None
        end).

(** [ndn-cxx/security/certificate-cache.cpp:79-96] CertificateCache::find(const Interest&) *)
Definition find (now : Z) (interest : Interest.t) : M t (option Certificate.t) :=
  _ ← modify (refresh now);
  s ← self;
  e ← liftR (find_matching getCertName sha256 cert interest (lower_bound getCertName (Interest.m_name interest) (m_certs s)));
  mret (cert <$> e).

End cache.
End CertificateCache.

(** ** Trust anchors *)

(** What the dynamic groups read at a time: a file as a certificate, if it is
    one, and the files of a directory, if it exists. *)
Class Files := { load : Z -> bytes -> option Certificate.t; directory : Z -> bytes -> option (list bytes) }.

Module TrustAnchors.
Section anchors.
Context `{Files} (sha256 : bytes -> bytes).

(** [ndn-cxx/security/trust-anchor-group.hpp:94-115] StaticTrustAnchorGroup
    [ndn-cxx/security/trust-anchor-group.hpp:120-164] DynamicTrustAnchorGroup *)
Inductive kind :=
  | StaticTrustAnchorGroup
  | DynamicTrustAnchorGroup (m_isDir : bool) (m_path : bytes) (m_refreshPeriod m_expireTime : Z).

(** [ndn-cxx/security/trust-anchor-group.hpp:51-89] TrustAnchorGroup *)
Record group := mkGroup { m_id : bytes; m_anchorNames : list Name.t; m_kind : kind }.

(** [ndn-cxx/security/trust-anchor-container.hpp:139-173] TrustAnchorContainer
    The groups in the order of the hashed index. *)
Record t := mk { m_groups : list group; m_anchors : list Certificate.t }.

Definition init : t := mk [] [].
Definition with_groups x s := mk x (m_anchors s).
Definition with_anchors x s := mk (m_groups s) x.

Definition is_group (groupId : bytes) (g : group) : bool := bool_decide (m_id g = groupId).
Definition has_name (n : Name.t) (l : list Name.t) : bool := existsb (Name.equals n) l.
Definition erase_name (n : Name.t) (l : list Name.t) : list Name.t := List.filter (fun m => negb (Name.equals n m)) l.

(** [ndn-cxx/security/trust-anchor-container.cpp:28-32] TrustAnchorContainer::AnchorContainer::add *)
Definition add (cert : Certificate.t) (s : t) : t := with_anchors (insert_unique Data.m_name cert (m_anchors s)) s.

(** [ndn-cxx/security/trust-anchor-container.cpp:34-38] TrustAnchorContainer::AnchorContainer::remove *)
Definition remove (certName : Name.t) (s : t) : t := with_anchors (erase_key Data.m_name certName (m_anchors s)) s.

(** [ndn-cxx/security/trust-anchor-group.cpp:69-78] StaticTrustAnchorGroup::add *)
Definition Static_add (cert : Certificate.t) (g : group) (s : t) : group * t :=
  if has_name (Data.m_name cert) (m_anchorNames g) then (g, s)
  else (mkGroup (m_id g) (Data.m_name cert :: m_anchorNames g) (m_kind g), add cert s).

(** [ndn-cxx/security/trust-anchor-group.cpp:80-85] StaticTrustAnchorGroup::remove *)
Definition Static_remove (certName : Name.t) (g : group) (s : t) : group * t :=
  (mkGroup (m_id g) (erase_name certName (m_anchorNames g)) (m_kind g), remove certName s).

(** [ndn-cxx/security/trust-anchor-group.cpp:117-128] DynamicTrustAnchorGroup::refresh (the lambda) *)
Definition loadCert (now : Z) (st : group * list Name.t * t) (file : bytes) : group * list Name.t * t :=
  let '(g, oldAnchorNames, s) := st in
  match load now file with
  | None => st
  | Some cert =>
      if has_name (Data.m_name cert) (m_anchorNames g) then (g, erase_name (Data.m_name cert) oldAnchorNames, s)
      else (mkGroup (m_id g) (Data.m_name cert :: m_anchorNames g) (m_kind g), oldAnchorNames, add cert s)
  end.

(** [ndn-cxx/security/trust-anchor-group.cpp:106-142] DynamicTrustAnchorGroup::refresh
    For a static group, [TrustAnchorGroup::refresh]: nothing. *)
Definition Group_refresh (now : Z) (g : group) (s : t) : group * t :=
  match m_kind g with
  | StaticTrustAnchorGroup => (g, s)
  | DynamicTrustAnchorGroup isDir path refreshPeriod expireTime =>
      if now <? expireTime then (g, s)
      else
        let g := mkGroup (m_id g) (m_anchorNames g) (DynamicTrustAnchorGroup isDir path refreshPeriod (now + refreshPeriod)) in
        let files := if isDir then default [] (directory now path) else [path] in
        let '(g, oldAnchorNames, s) := fold_left (loadCert now) files (g, m_anchorNames g, s) in
        (mkGroup (m_id g) (fold_left (fun l n => erase_name n l) oldAnchorNames (m_anchorNames g)) (m_kind g),
         fold_left (fun s n => remove n s) oldAnchorNames s)
  end.

(** [ndn-cxx/security/trust-anchor-container.cpp:123-129] TrustAnchorContainer::refresh *)
Definition refresh (now : Z) (s : t) : t :=
  let '(groups, s) := fold_left (fun st g => let '(groups, s) := st in let '(g, s) := Group_refresh now g s in (groups ++ [g], s)) (m_groups s) ([], s) in
  with_groups groups s.

(** [ndn-cxx/security/trust-anchor-container.cpp:46-59] TrustAnchorContainer::insert(const std::string&, Certificate&&) *)
Definition insert (groupId : bytes) (cert : Certificate.t) : M t unit :=
  _ ← modify (fun s => if existsb (is_group groupId) (m_groups s) then s else with_groups (m_groups s ++ [mkGroup groupId [] StaticTrustAnchorGroup]) s);
  s ← self;
  match list_find (fun g => is_group groupId g = true) (m_groups s) with
  | Some (i, g) =>
      match m_kind g with
      | DynamicTrustAnchorGroup _ _ _ _ => throwM (RuntimeError "Cannot add static anchor to a non-static anchor group")
      | StaticTrustAnchorGroup =>
          let '(g, s) := Static_add cert g s in
          modify (fun _ => with_groups (<[i := g]> (m_groups s)) s)
      end
  | None => mret tt
  end.

(** [ndn-cxx/security/trust-anchor-container.cpp:61-71] TrustAnchorContainer::insert(const std::string&, const fs::path&, time::nanoseconds, bool)
    [ndn-cxx/security/trust-anchor-group.cpp:89-104] DynamicTrustAnchorGroup::DynamicTrustAnchorGroup *)
Definition insertDynamic (now : Z) (groupId path : bytes) (refreshPeriod : Z) (isDir : bool) : M t unit :=
  s ← self;
  _ ← throwM_if (existsb (is_group groupId) (m_groups s)) (RuntimeError "Cannot create dynamic group, because group already exists");
  _ ← throwM_if (refreshPeriod <=? 0) (RuntimeError "Refresh period for the dynamic group must be positive");
  modify (fun s =>
    let '(g, s) := Group_refresh now (mkGroup groupId [] (DynamicTrustAnchorGroup isDir path refreshPeriod 0)) s in
    with_groups (m_groups s ++ [g]) s).

(** [ndn-cxx/security/trust-anchor-container.cpp:73-78] TrustAnchorContainer::clear *)
Definition clear (_ : t) : t := mk [] [].

(** [ndn-cxx/security/trust-anchor-container.cpp:80-90] TrustAnchorContainer::find(const Name&) *)
Definition findName (now : Z) (keyName : Name.t) : M t (option Certificate.t) :=
  _ ← modify (refresh now);
  s ← self;
  mret (match lower_bound Data.m_name keyName (m_anchors s) with
        | c :: _ => if Name.isPrefixOf keyName (Data.m_name c) then Some c else None
        | [] => None
        end).

(** [ndn-cxx/security/trust-anchor-container.cpp:92-105] TrustAnchorContainer::find(const Interest&) *)
Definition find (now : Z) (interest : Interest.t) : M t (option Certificate.t) :=
  _ ← modify (refresh now);
  s ← self;
  liftR (find_matching Data.m_name sha256 (fun c => c) interest (lower_bound Data.m_name (Interest.m_name interest) (m_anchors s))).

(** [ndn-cxx/security/trust-anchor-container.cpp:107-115] TrustAnchorContainer::getGroup *)
Definition getGroup (groupId : bytes) (s : t) : result group :=
  match List.find (is_group groupId) (m_groups s) with
  | Some g => Ok g
  | None => Throw (RuntimeError "Trust anchor group does not exist")
  end.

(** [ndn-cxx/security/trust-anchor-container.cpp:117-121] TrustAnchorContainer::size *)
Definition size (s : t) : Z := len (m_anchors s).

End anchors.
End TrustAnchors.
