(* ===== verification/Signatures.v ===== *)
(** * Verifying the signature of a packet

    The functions of [security/verification-helpers.cpp]: what is signed in a
    Data packet and in an Interest of either format, and which algorithm the
    type of the signature asks for.  The public keys and the filters of
    [security/transform] around OpenSSL are the class [Crypto]. *)

From stdpp Require Import list.
From S2P Require Import Prelude Tlv Encoding Blocks BlockHelpers Text NameComponents Names Fields DataPacket InterestPacket.
From S2P Require Import Announcements InMemoryStorage Certificates.

Module security.

(** [ndn-cxx/security/security-common.hpp:95-105] KeyType *)
Inductive KeyType := NONE | RSA | EC | AES | HMAC | SM2.

(** [ndn-cxx/security/security-common.hpp:110-126] DigestAlgorithm *)
Inductive DigestAlgorithm :=
  | DIGEST_NONE | SHA224 | SHA256 | SHA384 | SHA512 | BLAKE2B_512 | BLAKE2S_256
  | SHA3_224 | SHA3_256 | SHA3_384 | SHA3_512 | SM3.

#[global] Instance KeyType_eq_dec : EqDecision KeyType.
Proof. solve_decision. Defined.

End security.

(** A public key and its algorithms; [None]: [transform::Error].  [pkcs8] are
    the octets a key is loaded from. *)
Class Crypto := {
  PublicKey : Type;
  loadPkcs8 : bytes -> option PublicKey;
  verifierFilter : security.DigestAlgorithm -> PublicKey -> security.KeyType -> list bytes -> bytes -> option bool;
  sha256 : bytes -> bytes;
}.

Module verification.
Import security.
Section helpers.
Context `{Crypto} (autoCheck : bool).

(** [ndn-cxx/encoding/tlv.hpp:133-133] tlv::DigestSha256 *)
Definition DigestSha256 : Z := 0.
(** [ndn-cxx/encoding/tlv.hpp:134-134] tlv::SignatureSha256WithRsa *)
Definition SignatureSha256WithRsa : Z := 1.
(** [ndn-cxx/encoding/tlv.hpp:135-135] tlv::SignatureSha256WithEcdsa *)
Definition SignatureSha256WithEcdsa : Z := 3.
(** [ndn-cxx/encoding/tlv.hpp:136-136] tlv::SignatureHmacWithSha256 *)
Definition SignatureHmacWithSha256 : Z := 4.
(** [ndn-cxx/encoding/tlv.hpp:139-139] tlv::SignatureSm3WithSm2 *)
Definition SignatureSm3WithSm2 : Z := 5.

(** [ndn-cxx/security/security-common.hpp:40-40] signed_interest::MIN_SIZE *)
Definition signed_interest_MIN_SIZE : Z := 2.

(** [ndn-cxx/security/verification-helpers.cpp:47-63] ParseResult *)
Record ParseResult := mkParse { info : SignatureInfo.t; bufs : list bytes; sig : bytes }.

Definition noParse : ParseResult := mkParse SignatureInfo.init [] [].

(** [ndn-cxx/security/verification-helpers.cpp:69-89] verifySignature(const InputBuffers&, span, const PublicKey&, KeyType) *)
Definition verifyBlobs (blobs : list bytes) (sig : bytes) (key : PublicKey) (keyType : KeyType) : bool :=
  default false (verifierFilter (if decide (keyType = SM2) then SM3 else SHA256) key keyType blobs sig).

(** [ndn-cxx/security/verification-helpers.cpp:91-103] verifySignature(const InputBuffers&, span, span, KeyType) *)
Definition verifyBlobsBits (blobs : list bytes) (sig key : bytes) (keyType : KeyType) : bool :=
  match loadPkcs8 key with
  | Some pKey => verifyBlobs blobs sig pKey keyType
  | None => false
  end.

(** [catch (const tlv::Error&) { return ParseResult(); }] *)
Definition catch_parse (r : result ParseResult) : result ParseResult :=
  match r with
  | Throw e => if is_tlv_error e then Ok noParse else Throw e
  | Ok p => Ok p
  end.

(** [ndn-cxx/security/verification-helpers.cpp:137-148] parse(const Data&) *)
Definition parseData (data : Data.t) : result ParseResult :=
  catch_parse (
    range ← snd (Data.extractSignedRanges data);
    Ok (mkParse (Data.m_signatureInfo data) [range] (Block.value (Data.m_signatureValue data)))).

(** [interestName[i].blockFromValue()] for a component that is there *)
Definition block_at (i : Z) (n : Name.t) : result Block.t :=
  match Name.get i n with
  | Some c => Block.blockFromValue c
  | None => Throw (RuntimeError "undefined behaviour")
  end.

(** [ndn-cxx/security/verification-helpers.cpp:163-178] parse(const Interest&) (the older format) *)
Definition parseOldInterest (interestName : Name.t) : result ParseResult :=
  if Name.size interestName <? signed_interest_MIN_SIZE then Ok noParse
  else
    encoded ← Name.wireEncode interestName;
    let nameBlock := Name.m_wire encoded in
    b ← block_at (-2) interestName;
    info ← SignatureInfo.ofBlock b SignatureInfo.TData;
    sigValue ← block_at (-1) interestName;
    size ← match Name.get (-1) interestName with Some c => Block.size c | None => Ok 0 end;
    Ok (mkParse info [take (Z.to_nat (Block.value_size nameBlock - size)) (Block.value nameBlock)] (Block.value sigValue)).

(** [ndn-cxx/security/verification-helpers.cpp:150-183] parse(const Interest&)
    [fresh]: a nonce for an Interest that has none. *)
Definition parseInterest (fresh : bytes) (interest : Interest.t) : result ParseResult :=
  catch_parse (
    let '(interest, r) := Interest.wireEncode sha256 autoCheck fresh interest in
    _ ← r;
    info ← Interest.getSignatureInfo interest;
    match info with
    | Some info =>
        let sigValue := Interest.getSignatureValue interest in
        if Block.isValid sigValue then
          ranges ← snd (Interest.extractSignedRanges sha256 autoCheck fresh interest);
          Ok (mkParse info ranges (Block.value sigValue))
        else parseOldInterest (Interest.m_name interest)
    | None => parseOldInterest (Interest.m_name interest)
    end).

(** [ndn-cxx/security/verification-helpers.cpp:187-191] verifySignature(const ParseResult&, const PublicKey&, KeyType) *)
Definition verifyParsed (params : ParseResult) (key : PublicKey) (keyType : KeyType) : bool :=
  match bufs params with [] => false | _ => verifyBlobs (bufs params) (sig params) key keyType end.

(** [ndn-cxx/security/verification-helpers.cpp:193-197] verifySignature(const ParseResult&, span, KeyType) *)
Definition verifyParsedBits (params : ParseResult) (key : bytes) (keyType : KeyType) : bool :=
  match bufs params with [] => false | _ => verifyBlobsBits (bufs params) (sig params) key keyType end.

(** [ndn-cxx/security/verification-helpers.cpp:227-250] verifyDigest, with SHA-256 *)
Definition verifyDigest (params : ParseResult) : bool :=
  match bufs params with
  | [] => false
  | _ => bool_decide (sha256 (mjoin (bufs params)) = sig params)
  end.

(** [ndn-cxx/security/verification-helpers.cpp:257-267] verifySignature (the type of key a signature asks for) *)
Definition keyTypeOf (Signature_type : Z) : KeyType :=
  if Signature_type =? SignatureSha256WithRsa then RSA
  else if Signature_type =? SignatureSha256WithEcdsa then EC
  else if Signature_type =? SignatureHmacWithSha256 then HMAC
  else if Signature_type =? SignatureSm3WithSm2 then SM2
  else NONE.

(** [ndn-cxx/security/verification-helpers.cpp:252-274] verifySignature(const Data&, span) *)
Definition verifyDataBits (data : Data.t) (key : bytes) : result bool :=
  params ← parseData data;
  Ok (verifyParsedBits params key (keyTypeOf (SignatureInfo.m_type (Data.m_signatureInfo data)))).

(** [ndn-cxx/security/verification-helpers.cpp:284-325] verifySignature (the type of key for an Interest)
    [None]: return false. *)
Definition interestKeyType (fresh : bytes) (interest : Interest.t) : result (option KeyType) :=
  let r :=
    let '(interest, r) := Interest.wireEncode sha256 autoCheck fresh interest in
    _ ← r;
    info ← Interest.getSignatureInfo interest;
    match info with
    | Some info => Ok (Some (keyTypeOf (SignatureInfo.m_type info)))
    | None =>
        let interestName := Interest.m_name interest in
        if Name.size interestName <? signed_interest_MIN_SIZE then Ok None
        else b ← block_at (-2) interestName;
             info ← SignatureInfo.ofBlock b SignatureInfo.TData;
             Ok (Some (keyTypeOf (SignatureInfo.m_type info)))
    end in
  match r with
  | Throw e => if is_tlv_error e then Ok None else Throw e
  | Ok k => Ok k
  end.

(** The verification of an Interest once the type of key is known. *)
Definition verifyInterestWith (fresh : bytes) (interest : Interest.t) (verify : ParseResult -> KeyType -> bool) : result bool :=
  keyType ← interestKeyType fresh interest;
  match keyType with
  | None => Ok false
  | Some keyType => params ← parseInterest fresh interest; Ok (verify params keyType)
  end.

(** [ndn-cxx/security/verification-helpers.cpp:277-331] verifySignature(const Interest&, span) *)
Definition verifyInterestBits (fresh : bytes) (interest : Interest.t) (key : bytes) : result bool :=
  verifyInterestWith fresh interest (fun params keyType => verifyParsedBits params key keyType).

(** [ndn-cxx/security/verification-helpers.cpp:334-357] verifySignature(const Data&, const PublicKey&) *)
Definition verifyDataKey (data : Data.t) (key : PublicKey) : result bool :=
  params ← parseData data;
  Ok (verifyParsed params key (keyTypeOf (SignatureInfo.m_type (Data.m_signatureInfo data)))).

(** [ndn-cxx/security/verification-helpers.cpp:360-416] verifySignature(const Interest&, const PublicKey&) *)
Definition verifyInterestKey (fresh : bytes) (interest : Interest.t) (key : PublicKey) : result bool :=
  verifyInterestWith fresh interest (fun params keyType => verifyParsed params key keyType).

(** [ndn-cxx/security/verification-helpers.cpp:419-449] verifySignature(const Data&, const pib::Key&)
    [keyType] and [key]: the type and the octets of the PIB key. *)
Definition verifyDataPib (data : Data.t) (keyType : KeyType) (key : bytes) : result bool :=
  if decide (keyTypeOf (SignatureInfo.m_type (Data.m_signatureInfo data)) = keyType) then
    params ← parseData data; Ok (verifyParsedBits params key keyType)
  else Ok false.

(** [ndn-cxx/security/verification-helpers.cpp:452-513] verifySignature(const Interest&, const pib::Key&) *)
Definition verifyInterestPib (fresh : bytes) (interest : Interest.t) (keyType : KeyType) (key : bytes) : result bool :=
  keyTypefromSig ← interestKeyType fresh interest;
  if decide (keyTypefromSig = Some keyType) then params ← parseInterest fresh interest; Ok (verifyParsedBits params key keyType)
  else Ok false.

(** [ndn-cxx/security/verification-helpers.cpp:516-567] verifySignature(const Data&, const optional<Certificate>&)
    The comparison with the type of the certificate's signature only prints. *)
Definition verifyData (data : Data.t) (cert : option Certificate.t) : result bool :=
  parsed ← parseData data;
  match cert with
  | Some cert => Ok (verifyParsedBits parsed (Block.value (Data.m_content cert)) (keyTypeOf (SignatureInfo.m_type (Data.m_signatureInfo data))))
  | None => if SignatureInfo.m_type (info parsed) =? DigestSha256 then Ok (verifyDigest parsed) else Ok false
  end.

(** [ndn-cxx/security/verification-helpers.cpp:570-653] verifySignature(const Interest&, const optional<Certificate>&) *)
Definition verifyInterest (fresh : bytes) (interest : Interest.t) (cert : option Certificate.t) : result bool :=
  parsed ← parseInterest fresh interest;
  match cert with
  | Some cert =>
      keyType ← interestKeyType fresh interest;
      match keyType with
      | None => Ok false
      | Some keyType => Ok (verifyParsedBits parsed (Block.value (Data.m_content cert)) keyType)
      end
  | None => if SignatureInfo.m_type (info parsed) =? DigestSha256 then Ok (verifyDigest parsed) else Ok false
  end.

End helpers.
End verification.
