(* ===== verification/Validation.v ===== *)
(** * Validation of packets

    The validator ([security/validator.cpp]) with the state of each validation
    ([validation-state.cpp]), the policies that need no configuration
    ([validation-policy*.cpp]), and the fetchers of certificates
    ([certificate-fetcher*.cpp]).  A validation is suspended while a certificate
    is fetched; what the network answers are entry points of their own. *)

From stdpp Require Import list.
From S2P Require Import Prelude Tlv Encoding Blocks BlockHelpers Text NameComponents Names Fields DataPacket InterestPacket.
From S2P Require Import InMemoryStorage Announcements Certificates Signatures.

(** ** Data *)

Module ValidationError.

(** [ndn-cxx/security/validation-error.hpp:41-54] ValidationError::Code *)
Inductive Code :=
  | INVALID_SIGNATURE | NO_SIGNATURE | CANNOT_RETRIEVE_CERT | EXPIRED_CERT | LOOP_DETECTED | MALFORMED_CERT
  | EXCEEDED_DEPTH_LIMIT | INVALID_KEY_LOCATOR | POLICY_ERROR | IMPLEMENTATION_ERROR.

End ValidationError.

Module CertificateRequest.

(** [ndn-cxx/security/certificate-request.hpp:34-59] CertificateRequest
    [waitAfterNack] in milliseconds. *)
Record t := mk { interest : Interest.t; nRetriesLeft : Z; waitAfterNack : Z }.

(** [ndn-cxx/security/certificate-request.hpp:39-44] CertificateRequest::CertificateRequest(const Interest&) *)
Definition ofInterest (i : Interest.t) : t := mk i 3 500.

(** [ndn-cxx/security/certificate-request.hpp:46-50] CertificateRequest::CertificateRequest(const Name&)
    [canBePrefix]: the default of the process, which is overridden. *)
Definition ofName (sha256 : bytes -> bytes) (canBePrefix : option bool) (name : Name.t) : result t :=
  i ← Interest.ofName sha256 canBePrefix name Interest.DEFAULT_INTEREST_LIFETIME;
  i ← exec (Interest.setCanBePrefix true) i;
  Ok (ofInterest i).

End CertificateRequest.

Module Validator.
Import ValidationError.

(** [ndn-cxx/security/signing-info.hpp:39-44] SignedInterestFormat *)
Inductive SignedInterestFormat := V02 | V03.

(** The packet to validate. *)
Inductive packet := PData (d : Data.t) | PInterest (i : Interest.t).

Definition packet_name (p : packet) : Name.t := match p with PData d => Data.m_name d | PInterest i => Interest.m_name i end.

(** What a policy has connected to the signal [afterSuccess]; [level]: which
    of the nested policies. *)
Inductive hook :=
  | InsertNewRecord (level : nat) (keyName : Name.t) (timestamp : Z)
  | InsertRecord (level : nat) (keyName : Name.t) (timestamp seqNum : option Z) (nonce : option bytes).

(** [ndn-cxx/security/validation-state.hpp:59-156] ValidationState
    With the packet of the derived class, and the tag with the format. *)
Record ValidationState := mkState {
  m_packet : packet;
  m_format : option SignedInterestFormat;
  m_outcome : option bool;
  m_seenCertificateNames : list Name.t;
  m_certificateChain : list Certificate.t;
  m_afterSuccess : list hook;
}.

Definition with_outcome x s := mkState (m_packet s) (m_format s) x (m_seenCertificateNames s) (m_certificateChain s) (m_afterSuccess s).
Definition with_seen x s := mkState (m_packet s) (m_format s) (m_outcome s) x (m_certificateChain s) (m_afterSuccess s).
Definition with_chain x s := mkState (m_packet s) (m_format s) (m_outcome s) (m_seenCertificateNames s) x (m_afterSuccess s).
Definition with_afterSuccess x s := mkState (m_packet s) (m_format s) (m_outcome s) (m_seenCertificateNames s) (m_certificateChain s) x.
Definition with_format x s := mkState (m_packet s) x (m_outcome s) (m_seenCertificateNames s) (m_certificateChain s) (m_afterSuccess s).

(** [ndn-cxx/security/validation-policy-command-interest.hpp:45-93] ValidationPolicyCommandInterest::Options, times in nanoseconds *)
Record CommandOptions := mkCommandOptions { gracePeriod : Z; maxRecords : Z; recordLifetime : Z }.

(** [ndn-cxx/security/validation-policy-command-interest.hpp:131-136] ValidationPolicyCommandInterest::LastTimestampRecord *)
Record LastTimestampRecord := mkTimestamp { t_keyName : Name.t; t_timestamp : Z; t_lastRefreshed : Z }.

(** [ndn-cxx/security/validation-policy-signed-interest.hpp:49-133] ValidationPolicySignedInterest::Options *)
Record SignedOptions := mkSignedOptions {
  shouldValidateTimestamps : bool;
  timestampGracePeriod : Z;
  shouldValidateSeqNums : bool;
  shouldValidateNonces : bool;
  maxNonceRecordCount : Z;
  maxRecordCount : Z;
}.

(** [ndn-cxx/security/validation-policy-signed-interest.hpp:178-195] ValidationPolicySignedInterest::LastInterestRecord
    [observedNonces] in the order of the list index. *)
Record LastInterestRecord := mkRecord {
  r_keyName : Name.t;
  r_timestamp : option Z;
  r_seqNum : option Z;
  r_observedNonces : list bytes;
  r_lastRefreshed : Z;
}.

(** A policy with an inner policy: the records in the order of the queue, and
    of the index by [lastRefreshed]. *)
Inductive layer :=
  | CommandInterest (o : CommandOptions) (records : list LastTimestampRecord)
  | SignedInterest (o : SignedOptions) (records : list LastInterestRecord).

(** The innermost policy. *)
Inductive base := AcceptAll | SimpleHierarchy.

(** The fetcher of certificates. *)
Inductive fetcher := Offline | FromNetwork.

(** How a packet was accepted. *)
Inductive evidence := Bypassed | Verified (cert : option Certificate.t).

(** The calls of the callbacks of validation [id]. *)
Inductive event := Accepted (id : nat) (how : evidence) | Rejected (id : nat) (code : Code).

(** A request that is on the way: its Interest is expressed, or its fetch is
    scheduled after a Nack. *)
Record fetching := mkFetching { f_state : nat; f_request : CertificateRequest.t; f_expressed : bool }.

(** [ndn-cxx/security/validator.hpp:61-183] Validator
    With its policies, outermost first, the storage it inherits from
    ([ndn-cxx/security/certificate-storage.hpp:36-137]), the states of its validations, the
    requests on the way, the calls of callbacks, and the two clocks. *)
Record t := mk {
  m_layers : list layer;
  m_base : base;
  m_fetcher : fetcher;
  m_maxDepth : Z;
  m_trustAnchors : TrustAnchors.t;
  m_verifiedCertCache : CertificateCache.t;
  m_unverifiedCertCache : CertificateCache.t;
  m_states : list ValidationState;
  m_fetching : list fetching;
  m_events : list event;
  m_systemClock : Z;
  m_steadyClock : Z;
}.

Definition with_layers x v := mk x (m_base v) (m_fetcher v) (m_maxDepth v) (m_trustAnchors v) (m_verifiedCertCache v) (m_unverifiedCertCache v) (m_states v) (m_fetching v) (m_events v) (m_systemClock v) (m_steadyClock v).
Definition with_anchors x v := mk (m_layers v) (m_base v) (m_fetcher v) (m_maxDepth v) x (m_verifiedCertCache v) (m_unverifiedCertCache v) (m_states v) (m_fetching v) (m_events v) (m_systemClock v) (m_steadyClock v).
Definition with_verified x v := mk (m_layers v) (m_base v) (m_fetcher v) (m_maxDepth v) (m_trustAnchors v) x (m_unverifiedCertCache v) (m_states v) (m_fetching v) (m_events v) (m_systemClock v) (m_steadyClock v).
Definition with_unverified x v := mk (m_layers v) (m_base v) (m_fetcher v) (m_maxDepth v) (m_trustAnchors v) (m_verifiedCertCache v) x (m_states v) (m_fetching v) (m_events v) (m_systemClock v) (m_steadyClock v).
Definition with_states x v := mk (m_layers v) (m_base v) (m_fetcher v) (m_maxDepth v) (m_trustAnchors v) (m_verifiedCertCache v) (m_unverifiedCertCache v) x (m_fetching v) (m_events v) (m_systemClock v) (m_steadyClock v).
Definition with_fetching x v := mk (m_layers v) (m_base v) (m_fetcher v) (m_maxDepth v) (m_trustAnchors v) (m_verifiedCertCache v) (m_unverifiedCertCache v) (m_states v) x (m_events v) (m_systemClock v) (m_steadyClock v).
Definition with_events x v := mk (m_layers v) (m_base v) (m_fetcher v) (m_maxDepth v) (m_trustAnchors v) (m_verifiedCertCache v) (m_unverifiedCertCache v) (m_states v) (m_fetching v) x (m_systemClock v) (m_steadyClock v).
Definition with_clocks x y v := mk (m_layers v) (m_base v) (m_fetcher v) (m_maxDepth v) (m_trustAnchors v) (m_verifiedCertCache v) (m_unverifiedCertCache v) (m_states v) (m_fetching v) (m_events v) x y.
Definition with_maxDepth x v := mk (m_layers v) (m_base v) (m_fetcher v) x (m_trustAnchors v) (m_verifiedCertCache v) (m_unverifiedCertCache v) (m_states v) (m_fetching v) (m_events v) (m_systemClock v) (m_steadyClock v).

(** [ndn-cxx/security/validator.cpp:37-46] Validator::Validator
    [ndn-cxx/security/certificate-storage.cpp:28-32] CertificateStorage::CertificateStorage *)
Definition init (layers : list layer) (b : base) (f : fetcher) (systemClock steadyClock : Z) : t :=
  mk layers b f 25 TrustAnchors.init (CertificateCache.init 3600000000000) (CertificateCache.init 300000000000) [] [] [] systemClock steadyClock.

(** [ndn-cxx/security/validation-policy-command-interest.cpp:28-40] ValidationPolicyCommandInterest::ValidationPolicyCommandInterest *)
Definition makeCommandInterest (o : CommandOptions) : layer :=
  CommandInterest (mkCommandOptions (Z.max (gracePeriod o) 0) (maxRecords o) (recordLifetime o)) [].

(** [ndn-cxx/security/validation-policy-signed-interest.cpp:28-40] ValidationPolicySignedInterest::ValidationPolicySignedInterest *)
Definition makeSignedInterest (o : SignedOptions) : layer :=
  SignedInterest (mkSignedOptions (shouldValidateTimestamps o) (Z.max (timestampGracePeriod o) 0) (shouldValidateSeqNums o)
    (shouldValidateNonces o) (maxNonceRecordCount o) (maxRecordCount o)) [].

Section validator.
Context `{PosixTime} `{Files} `{Crypto} (autoCheck : bool) (canBePrefix : option bool).

Notation P_ := (P t).

(** ** The state of a validation *)

Definition getState (id : nat) : P_ ValidationState := v ← selfP; definedP (m_states v !! id).

Definition setState (id : nat) (f : ValidationState -> ValidationState) : P_ unit :=
  modifyP (fun v => with_states (alter f id (m_states v)) v).

Definition call (e : event) : P_ unit := modifyP (fun v => with_events (m_events v ++ [e]) v).

(** [BOOST_ASSERT(boost::logic::indeterminate(m_outcome)); m_outcome = outcome;] *)
Definition decideOutcome (id : nat) (outcome : bool) : P_ unit :=
  s ← getState id;
  match m_outcome s with
  | Some _ => undefinedP
  | None => setState id (with_outcome (Some outcome))
  end.

(** [ndn-cxx/security/validation-state.cpp:131-138] DataValidationState::fail
    [ndn-cxx/security/validation-state.cpp:191-198] InterestValidationState::fail *)
Definition fail (id : nat) (code : Code) : P_ unit := _ ← call (Rejected id code); decideOutcome id false.

(** [ndn-cxx/security/validation-state.cpp:47-51] ValidationState::getDepth *)
Definition getDepth (s : ValidationState) : Z := len (m_certificateChain s).

(** [ndn-cxx/security/validation-state.cpp:53-57] ValidationState::hasSeenCertificateName *)
Definition hasSeenCertificateName (id : nat) (certName : Name.t) : P_ bool :=
  s ← getState id;
  if existsb (Name.equals certName) (m_seenCertificateNames s) then mret true
  else _ ← setState id (with_seen (certName :: m_seenCertificateNames s)); mret false.

(** [ndn-cxx/security/validation-state.cpp:59-63] ValidationState::addCertificate *)
Definition addCertificate (id : nat) (cert : Certificate.t) : P_ unit :=
  setState id (fun s => with_chain (cert :: m_certificateChain s) s).

(** [ndn-cxx/security/validation-state.cpp:68-82] ValidationState::verifyCertificateChain (the loop)
    [verified]: the certificates in front of the iterator. *)
Fixpoint verify_loop (id : nat) (verified todo : list Certificate.t) (validatedCert : Certificate.t) : P_ (option Certificate.t) :=
  match todo with
  | [] => mret (Some validatedCert)
  | certToValidate :: todo =>
      ok ← liftP (verification.verifyData certToValidate (Some validatedCert));
      if ok : bool then verify_loop id (verified ++ [certToValidate]) todo certToValidate
      else
        _ ← fail id INVALID_SIGNATURE;
        _ ← setState id (with_chain verified);
        mret None
  end.

(** [ndn-cxx/security/validation-state.cpp:65-84] ValidationState::verifyCertificateChain *)
Definition verifyCertificateChain (id : nat) (trustedCert : Certificate.t) : P_ (option Certificate.t) :=
  s ← getState id;
  verify_loop id [] (m_certificateChain s) trustedCert.

(** *** The records of the policies *)

(** [ndn-cxx/security/validation-policy-command-interest.cpp:155-173] ValidationPolicyCommandInterest::insertNewRecord *)
Definition insertNewRecord (now : Z) (keyName : Name.t) (timestamp : Z) (queue : list LastTimestampRecord) : list LastTimestampRecord :=
  let newRecord := mkTimestamp keyName timestamp now in
  if existsb (fun r => Name.equals (t_keyName r) keyName) queue
  then List.filter (fun r => negb (Name.equals (t_keyName r) keyName)) queue ++ [newRecord]
  else queue ++ [newRecord].

(** The position of the record of a key. *)
Fixpoint find_record (keyName : Name.t) (l : list LastInterestRecord) : option (nat * LastInterestRecord) :=
  match l with
  | [] => None
  | r :: l => if Name.equals (r_keyName r) keyName then Some (O, r)
              else '(i, r) ← find_record keyName l; Some (S i, r)
  end.

(** A new element of the index by [lastRefreshed] goes behind its equals. *)
Definition link (r : LastInterestRecord) (l : list LastInterestRecord) : list LastInterestRecord :=
  let k := upper_bound (fun t x => t <? r_lastRefreshed x) (r_lastRefreshed r) l in take k l ++ r :: drop k l.

(** [modify]: an element stays in place if it is still in order. *)
Definition relink (i : nat) (r : LastInterestRecord) (l : list LastInterestRecord) : list LastInterestRecord :=
  let before := match i with O => true | S j => match l !! j with Some x => r_lastRefreshed x <=? r_lastRefreshed r | None => true end end in
  let after := match l !! S i with Some x => r_lastRefreshed r <=? r_lastRefreshed x | None => true end in
  if before && after then <[i := r]> l else link r (list_delete i l).

(** [ndn-cxx/security/validation-policy-signed-interest.cpp:166-174] ValidationPolicySignedInterest::insertRecord (the second lambda)
    [None]: the assertion fails. *)
Definition push_nonce (max : Z) (nonce : bytes) (l : list bytes) : option (list bytes) :=
  let l := if bool_decide (nonce ∈ l) then l else l ++ [nonce] in
  if (0 <=? max) && (max <? len l) then (if len l =? max + 1 then Some (tail l) else None) else Some l.

(** [ndn-cxx/security/validation-policy-signed-interest.cpp:140-185] ValidationPolicySignedInterest::insertRecord
    [None]: an assertion fails. *)
Definition insertRecord (o : SignedOptions) (now : Z) (keyName : Name.t) (timestamp seqNum : option Z) (nonce : option bytes)
    (l : list LastInterestRecord) : option (list LastInterestRecord) :=
  let l := match find_record keyName l with
           | None => link (mkRecord keyName timestamp seqNum [] now) l
           | Some (i, r) =>
               relink i (mkRecord (r_keyName r) (match timestamp with Some _ => timestamp | None => r_timestamp r end)
                 (match seqNum with Some _ => seqNum | None => r_seqNum r end) (r_observedNonces r) now) l
           end in
  l ← match find_record keyName l, nonce with
      | Some (i, r), Some nonce =>
          if shouldValidateNonces o && negb (maxNonceRecordCount o =? 0) then
            nonces ← push_nonce (maxNonceRecordCount o) nonce (r_observedNonces r);
            Some (<[i := mkRecord (r_keyName r) (r_timestamp r) (r_seqNum r) nonces (r_lastRefreshed r)]> l)
          else Some l
      | _, _ => Some l
      end;
  if (0 <=? maxRecordCount o) && (maxRecordCount o <? len l)
  then (if len l =? maxRecordCount o + 1 then Some (tail l) else None)
  else Some l.

(** The slot connected to [afterSuccess]. *)
Definition runHook (h : hook) : P_ unit := fun v =>
  match h with
  | InsertNewRecord level keyName timestamp =>
      match m_layers v !! level with
      | Some (CommandInterest o records) =>
          Some (with_layers (<[level := CommandInterest o (insertNewRecord (m_steadyClock v) keyName timestamp records)]> (m_layers v)) v, Ok tt)
      | _ => None
      end
  | InsertRecord level keyName timestamp seqNum nonce =>
      match m_layers v !! level with
      | Some (SignedInterest o records) =>
          records ← insertRecord o (m_steadyClock v) keyName timestamp seqNum nonce records;
          Some (with_layers (<[level := SignedInterest o records]> (m_layers v)) v, Ok tt)
      | _ => None
      end
  end.

Fixpoint runHooks (l : list hook) : P_ unit :=
  match l with
  | [] => mret tt
  | h :: l => _ ← runHook h; runHooks l
  end.

(** [m_successCb(m_data)], or [afterSuccess(m_interest)], whose first slot is
    the callback; then the outcome. *)
Definition succeed (id : nat) (how : evidence) : P_ unit :=
  _ ← call (Accepted id how);
  s ← getState id;
  _ ← runHooks (m_afterSuccess s);
  decideOutcome id true.

(** [ndn-cxx/security/validation-state.cpp:122-129] DataValidationState::bypassValidation
    [ndn-cxx/security/validation-state.cpp:182-189] InterestValidationState::bypassValidation *)
Definition bypassValidation (id : nat) : P_ unit := succeed id Bypassed.

(** [verifySignature] on the original packet; a received Interest has a wire,
    and no nonce is drawn. *)
Definition verifySignature (p : packet) (cert : option Certificate.t) : result bool :=
  match p with
  | PData d => verification.verifyData d cert
  | PInterest i => verification.verifyInterest autoCheck [] i cert
  end.

(** [ndn-cxx/security/validation-state.cpp:107-120] DataValidationState::verifyOriginalPacket
    [ndn-cxx/security/validation-state.cpp:167-180] InterestValidationState::verifyOriginalPacket *)
Definition verifyOriginalPacket (id : nat) (trustedCert : option Certificate.t) : P_ unit :=
  s ← getState id;
  ok ← liftP (verifySignature (m_packet s) trustedCert);
  if ok : bool then succeed id (Verified trustedCert) else fail id INVALID_SIGNATURE.

(** [ndn-cxx/security/validation-state.cpp:99-105] DataValidationState::~DataValidationState
    [ndn-cxx/security/validation-state.cpp:159-165] InterestValidationState::~InterestValidationState
    The state goes when the function ends, also by an exception, unless a
    request on the way refers to it. *)
Definition releasing (id : nat) (m : P_ unit) : P_ unit := fun v =>
  match m v with
  | None => None
  | Some (v, r) =>
      match m_states v !! id with
      | None => None
      | Some s =>
          if match m_outcome s with None => negb (existsb (fun f => Nat.eqb (f_state f) id) (m_fetching v)) | Some _ => false end
          then match fail id IMPLEMENTATION_ERROR v with Some (v, _) => Some (v, r) | None => None end
          else Some (v, r)
      end
  end.

(** ** The policies *)

Definition name_of_uri (uri : bytes) : Name.t := match Name.fromUri uri with Ok n => n | Throw _ => Name.empty end.

(** [ndn-cxx/security/signing-info.cpp:47-52] SigningInfo::getDigestSha256Identity *)
Definition getDigestSha256Identity : Name.t := name_of_uri (str "/localhost/identity/digest-sha256").

(** [ndn-cxx/security/signing-info.cpp:54-59] SigningInfo::getHmacIdentity *)
Definition getHmacIdentity : Name.t := name_of_uri (str "/localhost/identity/hmac").

(** [ndn-cxx/security/validation-policy.cpp:63-82] getKeyLocatorName(const SignatureInfo&, ValidationState&) *)
Definition getKeyLocatorNameOf (si : SignatureInfo.t) (id : nat) : P_ Name.t :=
  if SignatureInfo.m_type si =? verification.DigestSha256 then mret getDigestSha256Identity
  else
    match SignatureInfo.m_keyLocator si with
    | None => _ ← fail id INVALID_KEY_LOCATOR; mret Name.empty
    | Some kl =>
        if negb (KeyLocator.getType kl =? tlv.Name) then _ ← fail id INVALID_KEY_LOCATOR; mret Name.empty
        else liftP (KeyLocator.getName kl)
    end.

(** [ndn-cxx/security/validation-policy.cpp:84-88] getKeyLocatorName(const Data&, ValidationState&)
    [ndn-cxx/security/validation-policy.cpp:90-119] getKeyLocatorName(const Interest&, ValidationState&) *)
Definition getKeyLocatorName (p : packet) (id : nat) : P_ Name.t :=
  match p with
  | PData data => getKeyLocatorNameOf (Data.m_signatureInfo data) id
  | PInterest interest =>
      s ← getState id;
      fmt ← definedP (m_format s);
      match fmt with
      | V03 =>
          info ← liftP (Interest.getSignatureInfo interest);
          si ← definedP info;
          getKeyLocatorNameOf si id
      | V02 =>
          let name := Interest.m_name interest in
          if Name.size name <? verification.signed_interest_MIN_SIZE then _ ← fail id INVALID_KEY_LOCATOR; mret Name.empty
          else
            match (c ← Name.at_ (-2) name; b ← Block.blockFromValue c; SignatureInfo.ofBlock b SignatureInfo.TData) with
            | Ok si => getKeyLocatorNameOf si id
            | Throw e => if is_tlv_error e then _ ← fail id INVALID_KEY_LOCATOR; mret Name.empty else throwP e
            end
      end
  end.

(** [ndn-cxx/security/validation-policy.cpp:130-134] extractIdentityNameFromKeyLocator (the loop, [i] from 1 on) *)
Fixpoint identity_loop (k : nat) (i : Z) (keyLocator : Name.t) : result Name.t :=
  match k with
  | O => Throw (PacketError "KeyLocator name does not respect the naming conventions")
  | S k =>
      match Name.get (- i) keyLocator with
      | Some c => if Component.equals c Certificate.KEY_COMPONENT then Name.getPrefix (- i) keyLocator
                  else identity_loop k (i + 1) keyLocator
      | None => Throw (RuntimeError "undefined behaviour")
      end
  end.

(** [ndn-cxx/security/validation-policy.cpp:121-137] extractIdentityNameFromKeyLocator *)
Definition extractIdentityNameFromKeyLocator (keyLocator : Name.t) : result Name.t :=
  if Name.equals keyLocator getDigestSha256Identity || Name.equals keyLocator getHmacIdentity then Ok keyLocator
  else identity_loop (Z.to_nat (Z.min (- Certificate.KEY_COMPONENT_OFFSET) (Name.size keyLocator))) 1 keyLocator.

(** [!state->getOutcome()], which is false for an outcome that is open *)
Definition hasFailed (id : nat) : P_ bool := s ← getState id; mret (bool_decide (m_outcome s = Some false)).

(** The validator's part of the work, handed to a policy. *)
Notation continuation := (option CertificateRequest.t -> P_ unit).

(** [ndn-cxx/security/validation-policy-simple-hierarchy.cpp:28-50] ValidationPolicySimpleHierarchy::checkPolicy(const Data&, ...)
    [ndn-cxx/security/validation-policy-simple-hierarchy.cpp:52-74] ValidationPolicySimpleHierarchy::checkPolicy(const Interest&, ...)
    The continuation does not throw a [KeyLocator::Error]. *)
Definition SimpleHierarchy_checkPolicy (p : packet) (id : nat) (continueValidation : continuation) : P_ unit :=
  klName ← getKeyLocatorName p id;
  failed ← hasFailed id;
  if failed : bool then mret tt
  else
    match extractIdentityNameFromKeyLocator klName with
    | Throw e => if is_tlv_error e then fail id INVALID_KEY_LOCATOR else throwP e
    | Ok identity =>
        if Name.isPrefixOf identity (packet_name p) then
          request ← liftP (CertificateRequest.ofName sha256 canBePrefix klName);
          continueValidation (Some request)
        else fail id INVALID_KEY_LOCATOR
    end.

(** [ndn-cxx/security/validation-policy-accept-all.hpp:33-54] ValidationPolicyAcceptAll::checkPolicy *)
Definition AcceptAll_checkPolicy (continueValidation : continuation) : P_ unit := continueValidation None.

(** [ndn-cxx/security/security-common.hpp:54-54] command_interest::MIN_SIZE *)
Definition command_interest_MIN_SIZE : Z := 4.

(** [ndn-cxx/security/validation-policy-command-interest.cpp:67-77] ValidationPolicyCommandInterest::cleanup *)
Fixpoint cleanup (expiring maxRecords : Z) (queue : list LastTimestampRecord) : list LastTimestampRecord :=
  match queue with
  | [] => []
  | front :: rest =>
      if (t_lastRefreshed front <=? expiring) || ((0 <=? maxRecords) && (maxRecords <? len queue))
      then cleanup expiring maxRecords rest else queue
  end.

(** [ndn-cxx/security/validation-policy-command-interest.cpp:83-116] ValidationPolicyCommandInterest::parseCommandInterest (the time stamp) *)
Definition parseTimestamp (interest : Interest.t) (id : nat) : P_ (option Z) :=
  s ← getState id;
  fmt ← definedP (m_format s);
  match fmt with
  | V03 =>
      info ← liftP (Interest.getSignatureInfo interest);
      si ← definedP info;
      optionalTimestamp ← liftP (SignatureInfo.getTime si);
      match optionalTimestamp with
      | None => _ ← fail id POLICY_ERROR; mret None
      | Some ms => mret (Some (time.fromUnixTimestamp ms))
      end
  | V02 =>
      let name := Interest.m_name interest in
      if Name.size name <? command_interest_MIN_SIZE then _ ← fail id POLICY_ERROR; mret None
      else
        timestampComp ← liftP (Name.at_ (-4) name);
        if negb (Component.isNumber timestampComp) then _ ← fail id POLICY_ERROR; mret None
        else n ← liftP (Component.toNumber timestampComp); mret (Some (time.fromUnixTimestamp (i64 n)))
  end.

(** [ndn-cxx/security/validation-policy-command-interest.cpp:79-124] ValidationPolicyCommandInterest::parseCommandInterest *)
Definition parseCommandInterest (interest : Interest.t) (id : nat) : P_ (option (Name.t * Z)) :=
  timestamp ← parseTimestamp interest id;
  match timestamp with
  | None => mret None
  | Some timestamp =>
      klName ← getKeyLocatorName (PInterest interest) id;
      failed ← hasFailed id;
      if failed : bool then mret None else mret (Some (klName, timestamp))
  end.

Definition connect (id : nat) (h : hook) : P_ unit := setState id (fun s => with_afterSuccess (m_afterSuccess s ++ [h]) s).

(** [ndn-cxx/security/validation-policy-command-interest.cpp:126-153] ValidationPolicyCommandInterest::checkTimestamp *)
Definition checkTimestamp (level : nat) (o : CommandOptions) (id : nat) (keyName : Name.t) (timestamp : Z) : P_ bool :=
  v ← selfP;
  match m_layers v !! level with
  | Some (CommandInterest _ records) =>
      let records := cleanup (m_steadyClock v - recordLifetime o) (maxRecords o) records in
      _ ← modifyP (fun v => with_layers (<[level := CommandInterest o records]> (m_layers v)) v);
      let now := m_systemClock v in
      if (timestamp <? now - gracePeriod o) || (now + gracePeriod o <? timestamp) then _ ← fail id POLICY_ERROR; mret false
      else
        let reordered := match List.find (fun r => Name.equals (t_keyName r) keyName) records with
                         | Some r => timestamp <=? t_timestamp r
                         | None => false
                         end in
        if reordered then _ ← fail id POLICY_ERROR; mret false
        else _ ← connect id (InsertNewRecord level keyName timestamp); mret true
  | _ => undefinedP
  end.

(** [ndn-cxx/security/validation-policy-command-interest.cpp:49-65] ValidationPolicyCommandInterest::checkPolicy(const Interest&, ...) *)
Definition CommandInterest_checkPolicy (level : nat) (o : CommandOptions) (interest : Interest.t) (id : nat) (inner : P_ unit) : P_ unit :=
  parsed ← parseCommandInterest interest id;
  match parsed with
  | None => mret tt
  | Some (keyName, timestamp) =>
      ok ← checkTimestamp level o id keyName timestamp;
      if ok : bool then inner else mret tt
  end.

(** [optional] values compared with [<=]. *)
Definition optional_le (x y : option Z) : bool :=
  match x, y with
  | None, _ => true
  | Some _, None => false
  | Some x, Some y => x <=? y
  end.

(** [ndn-cxx/security/validation-policy-signed-interest.cpp:82-101] ValidationPolicySignedInterest::checkIncomingInterest (time stamps)
    Also lines 103-115, for sequence numbers: is the value required and not
    there, or not above the recorded one. *)
Definition reordered (value recorded : option Z) : bool :=
  match recorded with Some _ => optional_le value recorded | None => false end.

(** [ndn-cxx/security/validation-policy-signed-interest.cpp:82-127] ValidationPolicySignedInterest::checkIncomingInterest (the checks)
    Whether they are passed. *)
Definition passes (o : SignedOptions) (now : Z) (record : option LastInterestRecord) (timestamp seqNum : option Z) (nonce : option bytes) : bool :=
  (negb (shouldValidateTimestamps o) ||
     match timestamp with
     | None => false
     | Some ts => negb (timestampGracePeriod o <? Z.abs (i64 (now - ts))) &&
                  match record with Some r => negb (reordered timestamp (r_timestamp r)) | None => true end
     end) &&
  (negb (shouldValidateSeqNums o) ||
     match seqNum with
     | None => false
     | Some _ => match record with Some r => negb (reordered seqNum (r_seqNum r)) | None => true end
     end) &&
  (negb (shouldValidateNonces o) ||
     match nonce with
     | None => false
     | Some n => match record with Some r => negb (bool_decide (n ∈ r_observedNonces r)) | None => true end
     end).

(** [ndn-cxx/security/validation-policy-signed-interest.cpp:69-138] ValidationPolicySignedInterest::checkIncomingInterest *)
Definition checkIncomingInterest (level : nat) (o : SignedOptions) (interest : Interest.t) (id : nat) : P_ bool :=
  info ← liftP (Interest.getSignatureInfo interest);
  si ← definedP info;
  keyName ← getKeyLocatorName (PInterest interest) id;
  ms ← liftP (SignatureInfo.getTime si);
  let timestamp := time.fromUnixTimestamp <$> ms in
  seqNum ← liftP (SignatureInfo.getSeqNum si);
  let nonce := SignatureInfo.getNonce si in
  v ← selfP;
  match m_layers v !! level with
  | Some (SignedInterest _ records) =>
      if negb (passes o (m_systemClock v) (snd <$> find_record keyName records) timestamp seqNum nonce) then _ ← fail id POLICY_ERROR; mret false
      else
        _ ← (if negb (maxRecordCount o =? 0) then connect id (InsertRecord level keyName timestamp seqNum nonce) else mret tt);
        mret true
  | _ => undefinedP
  end.

(** [ndn-cxx/security/validation-policy-signed-interest.cpp:50-67] ValidationPolicySignedInterest::checkPolicy(const Interest&, ...) *)
Definition SignedInterest_checkPolicy (level : nat) (o : SignedOptions) (interest : Interest.t) (id : nat) (inner : P_ unit) : P_ unit :=
  s ← getState id;
  fmt ← definedP (m_format s);
  failed ← hasFailed id;
  if failed : bool then mret tt
  else
    ok ← (match fmt with V03 => checkIncomingInterest level o interest id | V02 => mret true end);
    if ok : bool then inner else mret tt.

(** [checkPolicy] of a policy and of those inside it; both kinds of layers
    hand Data packets on to the inner policy. *)
Fixpoint checkLayers (layers : list layer) (level : nat) (b : base) (p : packet) (id : nat) (continueValidation : continuation) : P_ unit :=
  match layers with
  | [] =>
      match b with
      | AcceptAll => AcceptAll_checkPolicy continueValidation
      | SimpleHierarchy => SimpleHierarchy_checkPolicy p id continueValidation
      end
  | l :: layers =>
      let inner := checkLayers layers (S level) b p id continueValidation in
      match l, p with
      | CommandInterest o _, PInterest interest => CommandInterest_checkPolicy level o interest id inner
      | SignedInterest o _, PInterest interest => SignedInterest_checkPolicy level o interest id inner
      | _, PData _ => inner
      end
  end.

Definition checkPolicy (p : packet) (id : nat) (continueValidation : continuation) : P_ unit :=
  v ← selfP; checkLayers (m_layers v) 0 (m_base v) p id continueValidation.

(** ** The validator *)

(** [ndn-cxx/security/certificate-storage.cpp:34-44] CertificateStorage::findTrustedCert *)
Definition findTrustedCert (interestForCert : Interest.t) : P_ (option Certificate.t) :=
  v ← selfP;
  cert ← zoomP m_trustAnchors with_anchors (TrustAnchors.find sha256 (m_steadyClock v) interestForCert);
  match cert with
  | Some cert => mret (Some cert)
  | None => zoomP m_verifiedCertCache with_verified (CertificateCache.find sha256 (m_systemClock v) interestForCert)
  end.

(** [ndn-cxx/security/certificate-storage.cpp:46-52] CertificateStorage::isCertKnown *)
Definition isCertKnown (certName : Name.t) : P_ bool :=
  v ← selfP;
  a ← zoomP m_trustAnchors with_anchors (TrustAnchors.findName (m_steadyClock v) certName);
  match a with
  | Some _ => mret true
  | None =>
      b ← zoomP m_verifiedCertCache with_verified (CertificateCache.findName (m_systemClock v) certName);
      match b with
      | Some _ => mret true
      | None =>
          c ← zoomP m_unverifiedCertCache with_unverified (CertificateCache.findName (m_systemClock v) certName);
          mret (match c with Some _ => true | None => false end)
      end
  end.

(** [ndn-cxx/security/certificate-storage.cpp:54-58] CertificateStorage::loadAnchor *)
Definition loadAnchor (groupId : bytes) (cert : Certificate.t) : P_ unit :=
  zoomP m_trustAnchors with_anchors (TrustAnchors.insert groupId cert).

(** [ndn-cxx/security/certificate-storage.cpp:60-65] CertificateStorage::loadAnchor, from files *)
Definition loadAnchorFiles (groupId path : bytes) (refreshPeriod : Z) (isDir : bool) : P_ unit :=
  v ← selfP; zoomP m_trustAnchors with_anchors (TrustAnchors.insertDynamic (m_steadyClock v) groupId path refreshPeriod isDir).

(** [ndn-cxx/security/certificate-storage.cpp:67-71] CertificateStorage::resetAnchors *)
Definition resetAnchors : P_ unit := modifyP (fun v => with_anchors (TrustAnchors.clear (m_trustAnchors v)) v).

(** [ndn-cxx/security/certificate-storage.cpp:73-77] CertificateStorage::cacheVerifiedCert *)
Definition cacheVerifiedCert (cert : Certificate.t) : P_ unit :=
  v ← selfP; zoomP m_verifiedCertCache with_verified (CertificateCache.insert (m_systemClock v) cert).

(** [ndn-cxx/security/certificate-storage.cpp:79-83] CertificateStorage::resetVerifiedCerts *)
Definition resetVerifiedCerts : P_ unit := modifyP (fun v => with_verified (CertificateCache.clear (m_verifiedCertCache v)) v).

(** [ndn-cxx/security/certificate-storage.cpp:85-89] CertificateStorage::cacheUnverifiedCert *)
Definition cacheUnverifiedCert (cert : Certificate.t) : P_ unit :=
  v ← selfP; zoomP m_unverifiedCertCache with_unverified (CertificateCache.insert (m_systemClock v) cert).

(** [ndn-cxx/security/validator.cpp:62-66] Validator::setMaxDepth *)
Definition setMaxDepth (depth : Z) : P_ unit := modifyP (with_maxDepth depth).

(** [ndn-cxx/security/certificate-fetcher-offline.cpp:30-37] CertificateFetcherOffline::doFetch
    [ndn-cxx/security/certificate-fetcher-from-network.cpp:44-59] CertificateFetcherFromNetwork::doFetch *)
Definition doFetch (certRequest : CertificateRequest.t) (id : nat) : P_ unit :=
  v ← selfP;
  match m_fetcher v with
  | Offline => fail id CANNOT_RETRIEVE_CERT
  | FromNetwork => modifyP (fun v => with_fetching (m_fetching v ++ [mkFetching id certRequest true]) v)
  end.

(** [ndn-cxx/security/certificate-fetcher.cpp:49-67] CertificateFetcher::fetch *)
Definition fetch (certRequest : CertificateRequest.t) (id : nat) (continueValidation : Certificate.t -> P_ unit) : P_ unit :=
  v ← selfP;
  cert ← zoomP m_unverifiedCertCache with_unverified (CertificateCache.find sha256 (m_systemClock v) (CertificateRequest.interest certRequest));
  match cert with
  | Some cert => continueValidation cert
  | None => doFetch certRequest id
  end.

(** [ndn-cxx/security/validator.cpp:118-140] Validator::validate(const Certificate&, ...)
    [request]: [requestCertificate]. *)
Definition validateCertificate (request : CertificateRequest.t -> nat -> P_ unit) (cert : Certificate.t) (id : nat) : P_ unit :=
  v ← selfP;
  valid ← liftP (Certificate.isValid (m_systemClock v) cert);
  if negb valid then fail id EXPIRED_CERT
  else
    checkPolicy (PData cert) id (fun certRequest =>
      match certRequest with
      | None => fail id POLICY_ERROR
      | Some certRequest => _ ← addCertificate id cert; request certRequest id
      end).

Fixpoint cacheAll (l : list Certificate.t) : P_ unit :=
  match l with
  | [] => mret tt
  | c :: l => _ ← cacheVerifiedCert c; cacheAll l
  end.

(** [ndn-cxx/security/validator.cpp:142-185] Validator::requestCertificate
    [fuel]: how many certificates can follow without a stop for the network. *)
Fixpoint requestCertificate (fuel : nat) (certRequest : CertificateRequest.t) (id : nat) : P_ unit :=
  s ← getState id;
  v ← selfP;
  let name := Interest.m_name (CertificateRequest.interest certRequest) in
  if m_maxDepth v <=? getDepth s then fail id EXCEEDED_DEPTH_LIMIT
  else if Name.equals name getDigestSha256Identity then verifyOriginalPacket id None
  else
    seen ← hasSeenCertificateName id name;
    if seen : bool then fail id LOOP_DETECTED
    else
      cert ← findTrustedCert (CertificateRequest.interest certRequest);
      match cert with
      | Some cert =>
          cert ← verifyCertificateChain id cert;
          _ ← (match cert with Some cert => verifyOriginalPacket id (Some cert) | None => mret tt end);
          s ← getState id;
          cacheAll (m_certificateChain s)
      | None =>
          fetch certRequest id (fun cert =>
            match fuel with
            | O => undefinedP
            | S fuel => validateCertificate (requestCertificate fuel) cert id
            end)
      end.

(** Enough for the depth limit: the chain grows by one each time. *)
Definition request : CertificateRequest.t -> nat -> P_ unit := fun certRequest id =>
  v ← selfP; requestCertificate (Z.to_nat (m_maxDepth v)) certRequest id.

(** The continuation that [validate] hands to the policy. *)
Definition continueOriginal (id : nat) : continuation := fun certRequest =>
  match certRequest with
  | None => bypassValidation id
  | Some certRequest => request certRequest id
  end.

Definition newState (p : packet) : P_ nat := fun v =>
  Some (with_states (m_states v ++ [mkState p None None [] [] []]) v, Ok (length (m_states v))).

(** [ndn-cxx/security/validator.cpp:74-92] Validator::validate(const Data&, ...) *)
Definition validateData (data : Data.t) : P_ unit :=
  id ← newState (PData data);
  releasing id (checkPolicy (PData data) id (continueOriginal id)).

(** [ndn-cxx/security/validator.cpp:94-116] Validator::validate(const Interest&, ...) *)
Definition validateInterest (interest : Interest.t) : P_ unit :=
  id ← newState (PInterest interest);
  releasing id (
    info ← liftP (Interest.getSignatureInfo interest);
    _ ← setState id (with_format (Some (match info with Some _ => V03 | None => V02 end)));
    checkPolicy (PInterest interest) id (continueOriginal id)).

(** ** What the network answers *)

Definition takeFetching (j : nat) : P_ fetching := fun v =>
  f ← m_fetching v !! j;
  Some (with_fetching (list_delete j (m_fetching v)) v, Ok f).

(** [ndn-cxx/security/certificate-fetcher-from-network.cpp:61-78] CertificateFetcherFromNetwork::dataCallback
    With the continuation of [fetch], which caches the certificate. *)
Definition dataCallback (j : nat) (data : Data.t) : P_ unit :=
  f ← takeFetching j;
  releasing (f_state f) (
    match Certificate.ofData data with
    | Throw e => if is_tlv_error e then fail (f_state f) MALFORMED_CERT else throwP e
    | Ok cert =>
        _ ← cacheUnverifiedCert cert;
        validateCertificate request cert (f_state f)
    end).

(** [ndn-cxx/security/certificate-fetcher-from-network.cpp:80-99] CertificateFetcherFromNetwork::nackCallback *)
Definition nackCallback (j : nat) : P_ unit :=
  f ← takeFetching j;
  let r := f_request f in
  let nRetriesLeft := CertificateRequest.nRetriesLeft r - 1 in
  releasing (f_state f) (
    if 0 <=? nRetriesLeft
    then modifyP (fun v => with_fetching (m_fetching v ++ [mkFetching (f_state f)
           (CertificateRequest.mk (CertificateRequest.interest r) nRetriesLeft (CertificateRequest.waitAfterNack r * 2)) false]) v)
    else fail (f_state f) CANNOT_RETRIEVE_CERT).

(** [ndn-cxx/security/certificate-fetcher-from-network.cpp:101-117] CertificateFetcherFromNetwork::timeoutCallback *)
Definition timeoutCallback (j : nat) : P_ unit :=
  f ← takeFetching j;
  let r := f_request f in
  let nRetriesLeft := CertificateRequest.nRetriesLeft r - 1 in
  releasing (f_state f) (
    if 0 <=? nRetriesLeft
    then fetch (CertificateRequest.mk (CertificateRequest.interest r) nRetriesLeft (CertificateRequest.waitAfterNack r)) (f_state f)
           (fun cert => validateCertificate request cert (f_state f))
    else fail (f_state f) CANNOT_RETRIEVE_CERT).

(** [ndn-cxx/security/certificate-fetcher-from-network.cpp:90-93] CertificateFetcherFromNetwork::nackCallback (the scheduled fetch) *)
Definition retry (j : nat) : P_ unit :=
  f ← takeFetching j;
  releasing (f_state f) (fetch (f_request f) (f_state f) (fun cert => validateCertificate request cert (f_state f))).

End validator.
End Validator.
