(* ===== verification/ValidationFacts.v ===== *)
(** * What validation guarantees

    Every validation calls one of its callbacks exactly once, and accepts a
    packet only with a chain of certificates up to a trust anchor. *)

From stdpp Require Import list.
From S2P Require Import Prelude Tlv Encoding Blocks BlockHelpers Text NameComponents Names Fields DataPacket InterestPacket.
From S2P Require Import InMemoryStorage Announcements Certificates Signatures Validation.

(** ** Certificates in the containers *)

Section containers.
Context {A : Type} (key : A -> Name.t).

Lemma insert_unique_Forall (Q : A -> Prop) x l : Q x -> Forall Q l -> Forall Q (insert_unique key x l).
Proof.
  intros Hx Hl. induction Hl as [|y l Hy Hl IH]; cbn; [auto|].
  destruct (ims.less (key y) (key x)); [auto|]. destruct (ims.less (key x) (key y)); auto.
Qed.

Lemma erase_key_Forall (Q : A -> Prop) n l : Forall Q l -> Forall Q (erase_key key n l).
Proof. intros Hl. apply List.Forall_forall. intros x Hx. apply filter_In in Hx as [Hx _]. revert x Hx. by apply List.Forall_forall. Qed.

Lemma lower_bound_In n l x : In x (lower_bound key n l) -> In x l.
Proof. induction l as [|y l IH]; cbn; [done|]. destruct (ims.less (key y) n); [|done]. auto. Qed.

Lemma find_matching_In sha256 cert i l x : find_matching key sha256 cert i l = Ok (Some x) -> In x l /\ snd (Interest.matchesData sha256 i (cert x)) = Ok true.
Proof.
  induction l as [|y l IH]; cbn; [done|]. destruct (Name.isPrefixOf _ _); [|done].
  destruct (snd (Interest.matchesData sha256 i (cert y))) as [[]|e] eqn:Em; cbn; [intros [= <-]; auto| |done].
  intros E. destruct (IH E). auto.
Qed.

End containers.

Module ValidationFacts.
Import Validator.

Section facts.
Context `{PosixTime} `{Files} `{Crypto} (autoCheck : bool) (canBePrefix : option bool).

(** The certificates the application, or the files it names, declare as
    anchors; the innermost policy and the number of policies around it. *)
Variables (anchor : Certificate.t -> Prop) (B : base) (N : nat).
Hypothesis load_anchor : forall now f c, load now f = Some c -> anchor c.

(** *** Trust *)

(** The name of the key that signed a packet. *)
Definition locator_of (si : SignatureInfo.t) : option Name.t :=
  if SignatureInfo.m_type si =? verification.DigestSha256 then Some getDigestSha256Identity
  else match SignatureInfo.m_keyLocator si with
       | Some kl => if KeyLocator.getType kl =? tlv.Name then match KeyLocator.getName kl with Ok n => Some n | Throw _ => None end else None
       | None => None
       end.

(** For an Interest, in either format. *)
Definition signer_name (p : packet) (kl : Name.t) : Prop :=
  match p with
  | PData d => locator_of (Data.m_signatureInfo d) = Some kl
  | PInterest i => exists si, locator_of si = Some kl /\
      (Interest.getSignatureInfo i = Ok (Some si) \/
       Interest.getSignatureInfo i = Ok None /\ (c ← Name.at_ (-2) (Interest.m_name i); b ← Block.blockFromValue c; SignatureInfo.ofBlock b SignatureInfo.TData) = Ok si)
  end.

(** The hierarchical policy: the key that signed a packet belongs to an
    identity that is a prefix of the packet's name, and [i] asks for its
    certificate. *)
Definition asks_for (i : Interest.t) (p : packet) : Prop := exists kl identity r,
  signer_name p kl /\ extractIdentityNameFromKeyLocator kl = Ok identity /\ Name.isPrefixOf identity (packet_name p) = true /\
  CertificateRequest.ofName sha256 canBePrefix kl = Ok r /\ i = CertificateRequest.interest r.

Definition answers (c : Certificate.t) (i : Interest.t) : Prop := snd (Interest.matchesData sha256 i c) = Ok true.

(** [c] is a certificate of the key that signed [p], and the signature is good. *)
Definition vouches (c : Certificate.t) (p : packet) : Prop :=
  (exists i, asks_for i p /\ answers c i) /\ verifySignature autoCheck p (Some c) = Ok true.

Inductive trusted : Certificate.t -> Prop :=
| trusted_anchor c : anchor c -> trusted c
| trusted_signed c c' now : trusted c' -> vouches c' (PData c) -> Certificate.isValid now c = Ok true -> trusted c.

(** The chain of a validation: each certificate was asked for by the one
    behind it, the last by the packet, and the first asks for [i]. *)
Fixpoint linked (i : Interest.t) (chain : list Certificate.t) (p : packet) : Prop :=
  match chain with
  | [] => asks_for i p
  | c :: chain => asks_for i (PData c) /\ (exists now, Certificate.isValid now c = Ok true) /\ exists i', linked i' chain p /\ answers c i'
  end.

(** What a callback tells, for a packet and an outcome. *)
Definition sound (p : packet) (b : bool) (e : event) : Prop :=
  match e with
  | Accepted _ Bypassed => b = true /\ B = AcceptAll
  | Accepted _ (Verified None) => b = true /\ verifySignature autoCheck p None = Ok true
  | Accepted _ (Verified (Some c)) => b = true /\ trusted c /\ vouches c p
  | Rejected _ _ => b = false
  end.

(** *** The invariant *)

Definition event_id (e : event) : nat := match e with Accepted id _ | Rejected id _ => id end.
Definition evs (j : nat) (v : t) : list event := base.filter (fun e => event_id e = j) (m_events v).
Definition reqs (j : nat) (v : t) : list fetching := base.filter (fun f => f_state f = j) (m_fetching v).

(** The format that [validate] has noted for an Interest. *)
Definition format_ok (s : ValidationState) : Prop :=
  match m_packet s with
  | PData _ => True
  | PInterest i =>
      match Interest.getSignatureInfo i with
      | Ok info => m_format s = Some (match info with Some _ => V03 | None => V02 end)
      | Throw _ => True
      end
  end.

Definition hook_ok (h : hook) : Prop :=
  match h with InsertNewRecord level _ _ => (level < N)%nat | InsertRecord _ _ _ _ _ => False end.

Definition state_ok (s : ValidationState) : Prop := Forall hook_ok (m_afterSuccess s) /\ format_ok s.

Definition ok (j : nat) (v : t) : Prop :=
  match m_states v !! j with
  | None => evs j v = [] /\ reqs j v = []
  | Some s => state_ok s /\
      match m_outcome s with
      | None => evs j v = [] /\ exists f, reqs j v = [f] /\ linked (CertificateRequest.interest (f_request f)) (m_certificateChain s) (m_packet s)
      | Some b => reqs j v = [] /\ exists e, evs j v = [e] /\ sound (m_packet s) b e
      end
  end.

Definition is_command (l : layer) : Prop := match l with CommandInterest _ _ => True | SignedInterest _ _ => False end.

Definition layers_ok (l : list layer) : Prop := length l = N /\ Forall is_command l.

Definition global (v : t) : Prop :=
  m_base v = B /\ layers_ok (m_layers v) /\
  Forall anchor (TrustAnchors.m_anchors (m_trustAnchors v)) /\
  Forall trusted (CertificateCache.cert <$> CertificateCache.m_certs (m_verifiedCertCache v)).

(** Between two calls. *)
Definition inv (v : t) : Prop := global v /\ forall j, ok j v.

(** While validation [id] of packet [p] runs, with this chain. *)
Definition running (id : nat) (p : packet) (chain : list Certificate.t) (D : Z) (v : t) : Prop :=
  global v /\ m_maxDepth v = D /\ (forall j, j <> id -> ok j v) /\ evs id v = [] /\ reqs id v = [] /\
  exists s, m_states v !! id = Some s /\ state_ok s /\ m_outcome s = None /\ m_packet s = p /\ m_certificateChain s = chain.

(** When it is decided, or waits for a certificate. *)
Definition after (id : nat) (v : t) : Prop := inv v /\ is_Some (m_states v !! id).

Definition decided (id : nat) (chain : list Certificate.t) (b : bool) (v : t) : Prop :=
  inv v /\ exists s, m_states v !! id = Some s /\ m_outcome s = Some b /\ m_certificateChain s = chain.

(** After an exception. *)
Definition thrown (id : nat) (v : t) : Prop := after id v \/ exists p chain D, running id p chain D v.

Lemma running_thrown id p chain D v : running id p chain D v -> thrown id v.
Proof. intros Hr. right. eauto. Qed.

Lemma after_thrown id v : after id v -> thrown id v.
Proof. by left. Qed.

Lemma decided_after id chain b v : decided id chain b v -> after id v.
Proof. intros [Hi (s & E & _)]. split; [done|]. by exists s. Qed.

(** *** What a change leaves as it is *)

Lemma ok_frame j v v' : m_states v' !! j = m_states v !! j -> evs j v' = evs j v -> reqs j v' = reqs j v -> ok j v -> ok j v'.
Proof. intros E1 E2 E3. unfold ok. by rewrite E1, E2, E3. Qed.

(** What neither policies nor states see. *)
Lemma running_frame id p chain D v v' :
  global v' -> m_maxDepth v' = m_maxDepth v -> m_states v' = m_states v -> m_events v' = m_events v -> m_fetching v' = m_fetching v ->
  running id p chain D v -> running id p chain D v'.
Proof.
  intros Hg E1 E2 E3 E4 (_ & HD & Ho & He & Hr & Hs). unfold running.
  assert (E5 : forall j, evs j v' = evs j v) by (intros j; unfold evs; by rewrite E3).
  assert (E6 : forall j, reqs j v' = reqs j v) by (intros j; unfold reqs; by rewrite E4).
  rewrite E1, E2, E5, E6. split_and!; [done..| |done|done|done].
  intros j Hj. apply (ok_frame j v v'); [by rewrite E2|done|done|auto].
Qed.

Lemma after_frame id v v' :
  global v' -> m_states v' = m_states v -> m_events v' = m_events v -> m_fetching v' = m_fetching v -> after id v -> after id v'.
Proof.
  intros Hg E2 E3 E4 ((_ & Ho) & Hs). split; [|by rewrite E2]. split; [done|]. intros j.
  apply (ok_frame j v v'); [by rewrite E2|unfold evs; by rewrite E3|unfold reqs; by rewrite E4|auto].
Qed.

Lemma getState_total id p chain D :
  totalP (running id p chain D) (getState id)
    (fun s v => running id p chain D v /\ m_states v !! id = Some s /\ state_ok s /\ m_outcome s = None /\ m_packet s = p /\ m_certificateChain s = chain)
    (thrown id).
Proof.
  intros v Hv. pose proof Hv as (_ & _ & _ & _ & _ & s & Es & Hs & Ho & Hp & Hc).
  exists v, (Ok s). split; [|done]. unfold getState, selfP, definedP, mbind, P_bind. by rewrite Es.
Qed.

Lemma setState_total id p chain chain' D f :
  (forall s, state_ok s -> state_ok (f s)) -> (forall s, m_outcome (f s) = m_outcome s) -> (forall s, m_packet (f s) = m_packet s) ->
  (forall s, m_certificateChain s = chain -> m_certificateChain (f s) = chain') ->
  totalP (running id p chain D) (setState id f) (fun _ => running id p chain' D) (thrown id).
Proof.
  intros K1 K2 K3 K4. apply totalP_modify. intros v (Hg & HD & Ho & He & Hr & s & Es & Hs & Hu & Hp & Hc).
  split_and!; [done..| |done|done|].
  - intros j Hj. apply (ok_frame j v); [|done|done|auto]. cbn. by rewrite list_lookup_alter_ne.
  - exists (f s). cbn. rewrite list_lookup_alter_eq, Es. split_and!; [done|auto|by rewrite K2|by rewrite K3|auto].
Qed.

(** *** The outcome of a validation *)

Lemma runHooks_total l v : Forall hook_ok l -> layers_ok (m_layers v) ->
  exists ls, runHooks l v = Some (with_layers ls v, Ok tt) /\ layers_ok ls.
Proof.
  intros Hl. revert v. induction Hl as [|h l Hh Hl IH]; intros v Hv.
  { exists (m_layers v). split; [|done]. by destruct v. }
  destruct h as [level key ts|]; [|done]. destruct Hv as [HN Hc]. cbn in Hh. rewrite <- HN in Hh.
  apply lookup_lt_is_Some_2 in Hh. destruct Hh as [y Ey]. pose proof Ey as Hy.
  apply (Forall_lookup_1 _ _ _ _ Hc) in Hy. destruct y as [o rs|]; [|done].
  assert (Hv1 : layers_ok (<[level := CommandInterest o (insertNewRecord (m_steadyClock v) key ts rs)]> (m_layers v))).
  { split; [by rewrite length_insert|]. by apply Forall_insert. }
  destruct (IH (with_layers (<[level := CommandInterest o (insertNewRecord (m_steadyClock v) key ts rs)]> (m_layers v)) v) Hv1) as (ls & E & Hls).
  exists ls. split; [|done]. cbn [runHooks]. erewrite bindP_run; [exact E|]. unfold runHook. by rewrite Ey.
Qed.

Lemma evs_snoc j e v ls x y : evs j (with_states x (with_layers ls (with_events (m_events v ++ [e]) y))) = evs j v ++ (if decide (event_id e = j) then [e] else []).
Proof. unfold evs. cbn. by rewrite list.filter_app. Qed.

(** The event is recorded, the hooks have run, and the outcome is set. *)
Lemma decide_inv id p chain D v e b ls :
  running id p chain D v -> event_id e = id -> sound p b e -> layers_ok ls ->
  decided id chain b (with_states (alter (with_outcome (Some b)) id (m_states v)) (with_layers ls (with_events (m_events v ++ [e]) v))).
Proof.
  intros ((Hb & _ & Ha & Ht) & _ & Ho & He & Hr & s & Es & Hs & _ & Hp & Hc) Hid Hsd Hls. split.
  - split; [done|]. intros j. destruct (decide (j = id)) as [->|Hj].
    + unfold ok. rewrite evs_snoc. cbn. rewrite list_lookup_alter_eq, Es. cbn. rewrite He, decide_True by done. rewrite Hp.
      split; [done|]. split; [done|]. by exists e.
    + apply (ok_frame j v); [|rewrite evs_snoc, decide_False by congruence; by rewrite app_nil_r|done|auto].
      cbn. by rewrite list_lookup_alter_ne.
  - exists (with_outcome (Some b) s). cbn. by rewrite list_lookup_alter_eq, Es.
Qed.

Lemma decideOutcome_run id b v s : m_states v !! id = Some s -> m_outcome s = None ->
  decideOutcome id b v = Some (with_states (alter (with_outcome (Some b)) id (m_states v)) v, Ok tt).
Proof. intros E1 E2. unfold decideOutcome, getState, setState, selfP, definedP, modifyP, mbind, P_bind. rewrite E1. by rewrite E2. Qed.

Lemma fail_run id p chain D code v : running id p chain D v -> exists v', fail id code v = Some (v', Ok tt) /\ decided id chain false v'.
Proof.
  intros Hv. pose proof Hv as ((_ & HL & _) & _ & _ & _ & _ & s & Es & _ & Eo & _).
  eexists. split; [|exact (decide_inv id p chain D v (Rejected id code) false (m_layers v) Hv eq_refl eq_refl HL)].
  unfold fail, call, modifyP. erewrite bindP_run by reflexivity. erewrite decideOutcome_run by done. by destruct v.
Qed.

Lemma fail_total id p chain D code : totalP (running id p chain D) (fail id code) (fun _ => decided id chain false) (thrown id).
Proof. intros v Hv. destruct (fail_run id p chain D code v Hv) as (v' & E & Hd). by exists v', (Ok tt). Qed.

Lemma succeed_total id p chain D how : sound p true (Accepted id how) ->
  totalP (running id p chain D) (succeed id how) (fun _ => decided id chain true) (thrown id).
Proof.
  intros Hsd v Hv. pose proof Hv as ((_ & HL & _) & _ & _ & _ & _ & s & Es & (Hh & _) & Eo & _).
  set (v1 := with_events (m_events v ++ [Accepted id how]) v). destruct (runHooks_total (m_afterSuccess s) v1 Hh HL) as (ls & E & Hls).
  eexists _, (Ok tt). split; [|exact (decide_inv id p chain D v (Accepted id how) true ls Hv eq_refl Hsd Hls)].
  unfold succeed, call, modifyP. erewrite bindP_run by reflexivity. fold v1. unfold getState, selfP.
  erewrite bindP_run; [|erewrite bindP_run by reflexivity; unfold definedP; cbn; by rewrite Es].
  erewrite bindP_run by exact E. erewrite decideOutcome_run; [reflexivity|exact Es|done].
Qed.

(** *** The policies *)

(** What a policy checks for the validation of [p]: a certificate, or [p]. *)
Definition checks (q p : packet) : Prop :=
  match q with PData _ => True | PInterest i => q = p /\ exists info, Interest.getSignatureInfo i = Ok info end.

Section policies.
Variables (id : nat) (p : packet) (chain : list Certificate.t) (D : Z).
Notation run := (running id p chain D).
Notation lost := (decided id chain false).

Lemma fail_with {A} code (a : A) (post : A -> t -> Prop) : (forall v, lost v -> post a v) -> totalP run (_ ← fail id code; mret a) post (thrown id).
Proof.
  intros Hp. eapply totalP_bind; [apply fail_total|]. intros u. eapply totalP_conseq; [apply (totalP_ret a post)|exact Hp|done..].
Qed.

Lemma fail_after code : totalP run (fail id code) (fun _ => after id) (thrown id).
Proof. eapply totalP_conseq; [apply fail_total|done|intros u v; apply decided_after|done]. Qed.

Lemma lift_total {A} (r : result A) : totalP run (liftP r) (fun a v => r = Ok a /\ run v) (thrown id).
Proof. apply totalP_lift. intros v. apply running_thrown. Qed.

Lemma throw_total {A} e (post : A -> t -> Prop) : totalP run (throwP e) post (thrown id).
Proof. intros v Hv. exists v, (Throw e). split; [done|]. by apply running_thrown in Hv. Qed.

Lemma getKeyLocatorNameOf_total si :
  totalP run (getKeyLocatorNameOf si id) (fun n v => run v /\ locator_of si = Some n \/ lost v) (thrown id).
Proof.
  unfold getKeyLocatorNameOf, locator_of. destruct (SignatureInfo.m_type si =? verification.DigestSha256).
  { intros v Hv. exists v, (Ok getDigestSha256Identity). split; [done|by left]. }
  destruct (SignatureInfo.m_keyLocator si) as [kl|]; [|apply fail_with; by right].
  destruct (KeyLocator.getType kl =? tlv.Name); cbn [negb]; [|apply fail_with; by right].
  eapply totalP_conseq; [apply lift_total|done| |done]. intros n v [E Hv]. left. by rewrite E.
Qed.

(** Continue with a pure fact at hand. *)
Lemma with_fact {A} (Q : Prop) (m : P t A) post exc : (Q -> totalP run m post exc) -> totalP (fun v => Q /\ run v) m post exc.
Proof. intros HQ v [Hq Hv]. exact (HQ Hq v Hv). Qed.

(** An Interest's format, in the state of its validation. *)
Lemma format_total {A} i info (k : SignedInterestFormat -> P t A) post :
  p = PInterest i -> Interest.getSignatureInfo i = Ok info ->
  totalP run (k (match info with Some _ => V03 | None => V02 end)) post (thrown id) ->
  totalP run (s ← getState id; fmt ← definedP (m_format s); k fmt) post (thrown id).
Proof.
  intros Ep Ei Hk. eapply totalP_bind; [apply getState_total|]. intros s v (Hv & _ & (_ & Hf) & _ & Hp & _).
  unfold format_ok in Hf. rewrite Hp, Ep, Ei in Hf. rewrite Hf. erewrite bindP_run by reflexivity. by apply Hk.
Qed.

Lemma getKeyLocatorName_total q : checks q p ->
  totalP run (getKeyLocatorName q id) (fun n v => run v /\ signer_name q n \/ lost v) (thrown id).
Proof.
  destruct q as [d|i]; intros Hq; [exact (getKeyLocatorNameOf_total _)|]. destruct Hq as [Ep [info Ei]].
  unfold getKeyLocatorName. apply (format_total i info); [done..|]. destruct info as [si|].
  - rewrite Ei. eapply totalP_bind; [apply lift_total|]. intros o. apply with_fact. intros [= <-]. apply totalP_defined.
    eapply totalP_conseq; [apply (getKeyLocatorNameOf_total si)|done| |done]. intros n v [[Hv E]|Hv]; [left|by right].
    split; [done|]. exists si. eauto.
  - cbn zeta. destruct (_ <? _); [apply fail_with; by right|]. destruct (_ ≫= _) as [si|e] eqn:Es.
    + eapply totalP_conseq; [apply (getKeyLocatorNameOf_total si)|done| |done]. intros n v [[Hv E]|Hv]; [left|by right].
      split; [done|]. exists si. eauto.
    + destruct (is_tlv_error e); [apply fail_with; by right|apply throw_total].
Qed.

Lemma hasFailed_run v : run v -> hasFailed id v = Some (v, Ok false).
Proof.
  intros (_ & _ & _ & _ & _ & s & Es & _ & Eo & _). unfold hasFailed, getState, selfP, definedP, mbind, P_bind. rewrite Es.
  unfold mret, P_ret. by rewrite Eo.
Qed.

Lemma hasFailed_failed v : lost v -> hasFailed id v = Some (v, Ok true).
Proof.
  intros (_ & s & Es & Eo & _). unfold hasFailed, getState, selfP, definedP, mbind, P_bind. rewrite Es.
  unfold mret, P_ret. by rewrite Eo.
Qed.

(** The test of the outcome after a name was looked for. *)
Lemma unless_failed {A} (Q : Prop) (a : A) (m : P t A) (post : A -> t -> Prop) :
  (forall v, lost v -> post a v) -> (Q -> totalP run m post (thrown id)) ->
  totalP (fun v => run v /\ Q \/ lost v) (failed ← hasFailed id; if failed : bool then mret a else m) post (thrown id).
Proof.
  intros Hf Hm v [[Hv HQ]|Hv].
  - erewrite bindP_run by exact (hasFailed_run v Hv). by apply Hm.
  - erewrite bindP_run by exact (hasFailed_failed v Hv). exists v, (Ok a). auto.
Qed.

Variables (q : packet) (k : option CertificateRequest.t -> P t unit).
Hypothesis Hq : checks q p.
Hypothesis k_request : forall r, asks_for (CertificateRequest.interest r) q -> totalP run (k (Some r)) (fun _ => after id) (thrown id).
Hypothesis k_none : B = AcceptAll -> totalP run (k None) (fun _ => after id) (thrown id).

Lemma SimpleHierarchy_total : totalP run (SimpleHierarchy_checkPolicy canBePrefix q id k) (fun _ => after id) (thrown id).
Proof.
  unfold SimpleHierarchy_checkPolicy. eapply totalP_bind; [exact (getKeyLocatorName_total q Hq)|]. intros kl.
  apply unless_failed; [intros v; apply decided_after|]. intros Hs.
  destruct (extractIdentityNameFromKeyLocator kl) as [identity|e] eqn:Ee; [|destruct (is_tlv_error e); [apply fail_after|apply throw_total]].
  destruct (Name.isPrefixOf identity (packet_name q)) eqn:Ep; [|apply fail_after].
  eapply totalP_bind; [apply lift_total|]. intros r. apply with_fact. intros Er. apply k_request. by exists kl, identity, r.
Qed.

Lemma AcceptAll_total : B = AcceptAll -> totalP run (AcceptAll_checkPolicy k) (fun _ => after id) (thrown id).
Proof. exact k_none. Qed.

(** **** The policy for command Interests *)

Notation parsed o := (fun v => match o with Some _ => run v | None => lost v end).

Lemma parseTimestamp_total i info : p = PInterest i -> Interest.getSignatureInfo i = Ok info ->
  totalP run (parseTimestamp i id) (fun o => parsed o) (thrown id).
Proof.
  intros Ep Ei. unfold parseTimestamp. apply (format_total i info); [done..|]. destruct info as [si|].
  - rewrite Ei. eapply totalP_bind; [apply lift_total|]. intros o. apply with_fact. intros [= <-]. apply totalP_defined.
    eapply totalP_bind; [apply lift_total|]. intros [ms|]; apply with_fact; intros _; [|by apply fail_with].
    intros v Hv. by exists v, (Ok (Some (time.fromUnixTimestamp ms))).
  - cbn zeta. destruct (_ <? _); [by apply fail_with|].
    eapply totalP_bind; [apply lift_total|]. intros c. apply with_fact. intros _.
    destruct (negb _); [by apply fail_with|].
    eapply totalP_bind; [apply lift_total|]. intros n. apply with_fact. intros _.
    intros v Hv. by exists v, (Ok (Some (time.fromUnixTimestamp (i64 n)))).
Qed.

Lemma parseCommandInterest_total i info : p = PInterest i -> Interest.getSignatureInfo i = Ok info ->
  totalP run (parseCommandInterest i id) (fun o => parsed o) (thrown id).
Proof.
  intros Ep Ei. unfold parseCommandInterest. eapply totalP_bind; [exact (parseTimestamp_total i info Ep Ei)|]. intros [ts|].
  - eapply totalP_bind; [apply (getKeyLocatorName_total (PInterest i)); by split; [|exists info]|]. intros kl.
    apply unless_failed; [done|]. intros _ v Hv. by exists v, (Ok (Some (kl, ts))).
  - intros v Hv. by exists v, (Ok None).
Qed.

Lemma connect_total level key ts : (level < N)%nat ->
  totalP run (connect id (InsertNewRecord level key ts)) (fun _ => run) (thrown id).
Proof. intros Hl. apply setState_total; [|done..]. intros s [Hh Hf]. split; [|done]. apply Forall_app. auto. Qed.

Lemma layers_running ls v : layers_ok ls -> run v -> run (with_layers ls v).
Proof. intros Hl Hv. apply (running_frame id p chain D v); [|done..]. destruct Hv as ((? & _ & ?) & _). done. Qed.

Lemma checkTimestamp_total level o key ts : (level < N)%nat ->
  totalP run (checkTimestamp level o id key ts) (fun b v => if b : bool then run v else lost v) (thrown id).
Proof.
  intros Hl v Hv. pose proof Hv as ((_ & (HN & Hc) & _) & _). unfold checkTimestamp. erewrite bindP_run by reflexivity.
  pose proof Hl as Hy. rewrite <- HN in Hy. apply lookup_lt_is_Some_2 in Hy. destruct Hy as [y Ey]. rewrite Ey.
  apply (Forall_lookup_1 _ _ _ _ Hc) in Ey. destruct y as [o' rs|]; [|done]. cbn zeta.
  set (rs' := cleanup _ _ rs). erewrite bindP_run by reflexivity.
  assert (Hv' : run (with_layers (<[level := CommandInterest o rs']> (m_layers v)) v)).
  { apply layers_running; [|done]. split; [by rewrite length_insert|]. by apply Forall_insert. }
  destruct (_ || _); [exact (fail_with ValidationError.POLICY_ERROR false (fun b v => if b : bool then run v else lost v) (fun _ Hx => Hx) _ Hv')|].
  destruct (match List.find _ rs' with Some _ => _ | None => _ end); [exact (fail_with ValidationError.POLICY_ERROR false (fun b v => if b : bool then run v else lost v) (fun _ Hx => Hx) _ Hv')|].
  destruct (connect_total level key ts Hl _ Hv') as (v2 & [[]|e] & E & Hv2).
  - erewrite bindP_run by exact E. by exists v2, (Ok true).
  - exists v2, (Throw e). split; [|done]. unfold mbind, P_bind. by rewrite E.
Qed.

Lemma checkLayers_total b layers level :
  b = B -> Forall is_command layers -> (level + length layers = N)%nat ->
  totalP run (checkLayers canBePrefix layers level b q id k) (fun _ => after id) (thrown id).
Proof.
  intros Hb. revert level. induction layers as [|l layers IH]; intros level Hc Hl.
  { cbn [checkLayers]. destruct b; [by apply AcceptAll_total|exact SimpleHierarchy_total]. }
  apply list.Forall_cons in Hc as [Hl1 Hc]. cbn [length] in Hl. destruct l as [o rs|]; [|done].
  assert (IH' := IH (S level) Hc ltac:(lia)). cbn [checkLayers]. pose proof Hq as Hqi. destruct q as [d|i]; [exact IH'|].
  destruct Hqi as [Ep [info Ei]]. unfold CommandInterest_checkPolicy.
  eapply totalP_bind; [exact (parseCommandInterest_total i info (eq_sym Ep) Ei)|]. intros [[key ts]|].
  - eapply totalP_bind; [apply checkTimestamp_total; lia|]. intros [|]; [exact IH'|].
    intros v Hv. exists v, (Ok tt). split; [done|]. by apply decided_after in Hv.
  - intros v Hv. exists v, (Ok tt). split; [done|]. by apply decided_after in Hv.
Qed.

Lemma checkPolicy_total : totalP run (checkPolicy canBePrefix q id k) (fun _ => after id) (thrown id).
Proof.
  intros v Hv. pose proof Hv as ((Hb & (HN & Hc) & _) & _). unfold checkPolicy. erewrite bindP_run by reflexivity.
  exact (checkLayers_total (m_base v) (m_layers v) 0 Hb Hc HN v Hv).
Qed.

End policies.

(** *** Where certificates are found *)

Notation anchored s := (Forall anchor (TrustAnchors.m_anchors s)).

Lemma add_anchored c s : anchor c -> anchored s -> anchored (TrustAnchors.add c s).
Proof. intros Hc Hs. by apply insert_unique_Forall. Qed.

Lemma remove_anchored l s : anchored s -> anchored (fold_left (fun s n => TrustAnchors.remove n s) l s).
Proof. revert s. induction l as [|n l IH]; intros s Hs; [done|]. apply IH. by apply erase_key_Forall. Qed.

Lemma loadCert_anchored now files st : anchored (snd st) -> anchored (snd (fold_left (TrustAnchors.loadCert now) files st)).
Proof.
  revert st. induction files as [|f files IH]; intros [[g old] s] Hs; [done|]. cbn [fold_left]. apply IH.
  unfold TrustAnchors.loadCert. destruct (load now f) as [c|] eqn:Ef; [|done].
  destruct (TrustAnchors.has_name _ _); [done|]. apply add_anchored; [exact (load_anchor now f c Ef)|done].
Qed.

Lemma Group_refresh_anchored now g s : anchored s -> anchored (snd (TrustAnchors.Group_refresh now g s)).
Proof.
  intros Hs. unfold TrustAnchors.Group_refresh. destruct (TrustAnchors.m_kind g) as [|isDir path per exp]; [done|].
  destruct (now <? exp); [done|]. cbn zeta.
  destruct (fold_left (TrustAnchors.loadCert now) _ _) as [[g' old] s'] eqn:E. apply remove_anchored.
  change s' with (snd (g', old, s')). rewrite <- E. by apply loadCert_anchored.
Qed.

Lemma refresh_anchored now s : anchored s -> anchored (TrustAnchors.refresh now s).
Proof.
  intros Hs. unfold TrustAnchors.refresh.
  assert (Hf : forall l st, anchored (snd st) -> anchored (snd (fold_left (fun st g => let '(groups, s) := st in
            let '(g, s) := TrustAnchors.Group_refresh now g s in (groups ++ [g], s)) l st))).
  { induction l as [|g l IH]; intros [gs s1] Hs1; [done|]. cbn [fold_left]. apply IH.
    pose proof (Group_refresh_anchored now g s1 Hs1) as Hg. by destruct (TrustAnchors.Group_refresh now g s1). }
  specialize (Hf (TrustAnchors.m_groups s) ([], s) Hs). by destruct (fold_left _ _ _).
Qed.

Lemma anchors_find now i s s' r : TrustAnchors.find sha256 now i s = (s', r) -> anchored s ->
  anchored s' /\ forall c, r = Ok (Some c) -> anchor c /\ answers c i.
Proof.
  intros E Hs. apply (refresh_anchored now) in Hs.
  assert (E' : (TrustAnchors.refresh now s, find_matching Data.m_name sha256 (fun c => c) i
                  (lower_bound Data.m_name (Interest.m_name i) (TrustAnchors.m_anchors (TrustAnchors.refresh now s)))) = (s', r)) by exact E.
  injection E' as <- <-. split; [done|]. intros c Ec. apply find_matching_In in Ec as [Hc Hm]. split; [|done].
  apply lower_bound_In in Hc. revert c Hc Hm. intros c Hc _. revert c Hc. by apply List.Forall_forall.
Qed.

Notation verified s := (Forall trusted (CertificateCache.cert <$> CertificateCache.m_certs s)).

Lemma cache_refresh_verified now s : verified s -> verified (CertificateCache.refresh now s).
Proof.
  intros Hs. apply Forall_fmap, List.Forall_forall. intros e He. apply filter_In in He as [He _]. revert e He.
  by apply List.Forall_forall, Forall_fmap.
Qed.

Lemma cache_find now i s s' r : CertificateCache.find sha256 now i s = (s', r) ->
  (verified s -> verified s') /\ forall c, r = Ok (Some c) -> (verified s -> trusted c) /\ answers c i.
Proof.
  intros E. unfold CertificateCache.find, mbind, M_bind, modify, self in E.
  destruct (liftR _ _) as [s1 [o|e]] eqn:El; unfold liftR in El; injection El as <- El.
  - injection E as <- <-. split; [apply cache_refresh_verified|]. intros c Ec. injection Ec as Ec. destruct o as [e|]; [|done].
    injection Ec as <-. apply find_matching_In in El as [He Hm]. split; [|done]. intros Hs. apply (cache_refresh_verified now) in Hs.
    apply lower_bound_In in He. apply list_elem_of_In in He. rewrite Forall_fmap, list.Forall_forall in Hs. by apply Hs.
  - injection E as <- <-. split; [apply cache_refresh_verified|done].
Qed.

Lemma cache_insert now c s s' r : CertificateCache.insert now c s = (s', r) -> trusted c -> verified s -> verified s'.
Proof.
  intros E Hc Hs. unfold CertificateCache.insert, mbind, M_bind, liftR in E.
  destruct (Certificate.getValidityPeriod c) as [per|e]; [|by injection E as <- <-]. cbn zeta in E.
  destruct (_ <? now); injection E as <- <-; [done|]. cbn. apply Forall_fmap, insert_unique_Forall; [done|]. by apply Forall_fmap.
Qed.

Lemma findTrustedCert_total id p chain D i :
  totalP (running id p chain D) (findTrustedCert i)
    (fun o v => running id p chain D v /\ forall c, o = Some c -> trusted c /\ answers c i) (thrown id).
Proof.
  intros v Hv. unfold findTrustedCert. erewrite bindP_run by reflexivity.
  destruct (TrustAnchors.find sha256 (m_steadyClock v) i (m_trustAnchors v)) as [s r] eqn:E1.
  pose proof Hv as ((Hb & HL & Ha & Ht) & _). destruct (anchors_find _ _ _ _ _ E1 Ha) as [Hs Hr].
  assert (Hv1 : running id p chain D (with_anchors s v)) by (apply (running_frame id p chain D v); done).
  unfold mbind, P_bind. rewrite (zoomP_run _ _ _ _ _ _ E1). destruct r as [[c|]|e].
  - exists (with_anchors s v), (Ok (Some c)). split; [done|]. split; [done|]. intros c' [= <-].
    destruct (Hr c eq_refl). split; [by apply trusted_anchor|done].
  - unfold zoomP. cbn [m_verifiedCertCache with_anchors].
    destruct (CertificateCache.find sha256 (m_systemClock v) i (m_verifiedCertCache v)) as [s2 r2] eqn:E2.
    destruct (cache_find _ _ _ _ _ E2) as [Hs2 Hr2].
    assert (Hv2 : running id p chain D (with_verified s2 (with_anchors s v))).
    { apply (running_frame id p chain D (with_anchors s v)); [|done..]. split_and!; [done..|]. by apply Hs2. }
    exists (with_verified s2 (with_anchors s v)), r2. split; [done|]. destruct r2 as [o|e]; [|by apply running_thrown in Hv2].
    split; [done|]. intros c ->. destruct (Hr2 c eq_refl) as [Hc Hm]. auto.
  - exists (with_anchors s v), (Throw e). split; [done|]. by apply running_thrown in Hv1.
Qed.

Lemma cacheAll_total id l : Forall trusted l -> totalP (after id) (cacheAll l) (fun _ => after id) (thrown id).
Proof.
  intros Hl. induction Hl as [|c l Hc Hl IH]; [exact (totalP_ret tt (fun _ => after id) _)|]. cbn [cacheAll]. eapply totalP_bind; [|intros u; exact IH].
  intros v Hv. unfold cacheVerifiedCert. erewrite bindP_run by reflexivity. unfold zoomP.
  destruct (CertificateCache.insert (m_systemClock v) c (m_verifiedCertCache v)) as [s r] eqn:E.
  pose proof Hv as (((Hb & HL & Ha & Ht) & _) & _).
  assert (Hv1 : after id (with_verified s v)).
  { apply (after_frame id v); [|done..]. split_and!; [done..|]. by apply (cache_insert _ _ _ _ _ E). }
  exists (with_verified s v), r. split; [done|]. destruct r; [done|]. by apply after_thrown.
Qed.

(** *** The chain of certificates *)

(** What the loop has found, when it ends with a certificate or without. *)
Definition loop_post (id : nat) (p : packet) (chain : list Certificate.t) (D : Z) (o : option Certificate.t) (v : t) : Prop :=
  match o with
  | Some c => running id p chain D v /\ Forall trusted chain /\ trusted c /\ exists i, asks_for i p /\ answers c i
  | None => exists kept, decided id kept false v /\ Forall trusted kept
  end.

Lemma setState_decided id chain kept : totalP (decided id chain false) (setState id (with_chain kept)) (fun _ => decided id kept false) (thrown id).
Proof.
  apply totalP_modify. intros v ((Hg & Ho) & s & Es & Eo & _). split.
  - split; [done|]. intros j. destruct (decide (j = id)) as [->|Hj].
    + specialize (Ho id). unfold ok in *. cbn. rewrite list_lookup_alter_eq. rewrite Es in Ho |- *. cbn. by rewrite Eo in Ho |- *.
    + apply (ok_frame j v); [|done|done|auto]. cbn. by rewrite list_lookup_alter_ne.
  - exists (with_chain kept s). cbn. by rewrite list_lookup_alter_eq, Es.
Qed.

Lemma verify_loop_total id p D todo : forall done_ c i, Forall trusted done_ -> trusted c -> answers c i -> linked i todo p ->
  totalP (running id p (done_ ++ todo) D) (verify_loop id done_ todo c) (loop_post id p (done_ ++ todo) D) (thrown id).
Proof.
  induction todo as [|c' todo IH]; intros done_ c i Hd Hc Hi Hl; cbn [verify_loop].
  { intros v Hv. exists v, (Ok (Some c)). split; [done|]. rewrite app_nil_r in *. split_and!; [done..|]. by exists i. }
  destruct Hl as (Ha & [now Hn] & i' & Hl & Hi'). eapply totalP_bind; [apply lift_total|]. intros [|]; apply with_fact; intros Ev.
  - replace (done_ ++ c' :: todo) with ((done_ ++ [c']) ++ todo) by (by rewrite <- app_assoc). apply (IH _ c' i'); [|exact (trusted_signed c' c now Hc (conj (ex_intro _ i (conj Ha Hi)) Ev) Hn)|done..].
    apply Forall_app. split; [done|]. apply Forall_singleton. exact (trusted_signed c' c now Hc (conj (ex_intro _ i (conj Ha Hi)) Ev) Hn).
  - eapply totalP_bind; [apply fail_total|]. intros u. eapply totalP_bind; [apply (setState_decided id _ done_)|]. intros u'.
    intros v Hv. exists v, (Ok None). split; [done|]. by exists done_.
Qed.

Lemma linked_answers_trusted id p chain D c i : trusted c -> answers c i -> linked i chain p ->
  totalP (running id p chain D) (verifyCertificateChain id c) (loop_post id p chain D) (thrown id).
Proof.
  intros Hc Hi Hl v Hv. unfold verifyCertificateChain.
  destruct (getState_total id p chain D v Hv) as (v1 & [s|e] & E & Hs); [|by unfold getState, selfP, definedP, mbind, P_bind in E; destruct (m_states v !! id)].
  erewrite bindP_run by exact E. destruct Hs as (Hv1 & _ & _ & _ & _ & ->). exact (verify_loop_total id p D chain [] c i (Forall_nil_2 _) Hc Hi Hl v1 Hv1).
Qed.

(** *** The validator *)

Section requests.
Variables (id : nat) (p : packet) (D : Z).
Notation run chain := (running id p chain D).
Notation linkedTo r chain := (linked (CertificateRequest.interest r) chain p).

Lemma verifyOriginalPacket_total chain o : (forall c, o = Some c -> trusted c /\ exists i, asks_for i p /\ answers c i) ->
  totalP (run chain) (verifyOriginalPacket autoCheck id o) (fun _ v => exists b, decided id chain b v) (thrown id).
Proof.
  intros Ho. unfold verifyOriginalPacket. eapply totalP_bind; [apply getState_total|]. intros s v (Hv & _ & _ & _ & -> & _).
  destruct (verifySignature autoCheck p o) as [[|]|e] eqn:Ev.
  - erewrite bindP_run by reflexivity.
    assert (Hs : sound p true (Accepted id (Verified o))).
    { destruct o as [c|]; cbn; [|done]. destruct (Ho c eq_refl) as (Hc & Hi). done. }
    destruct (succeed_total id p chain D (Verified o) Hs v Hv) as (v' & r & E & Hr). exists v', r. split; [exact E|].
    destruct r; [by exists true|done].
  - erewrite bindP_run by reflexivity.
    destruct (fail_total id p chain D ValidationError.INVALID_SIGNATURE v Hv) as (v' & r & E & Hr). exists v', r. split; [exact E|].
    destruct r; [by exists false|done].
  - exists v, (Throw e). split; [done|]. by apply running_thrown in Hv.
Qed.

(** A request goes on its way. *)
Lemma wait_after chain r x v : linkedTo r chain -> run chain v ->
  after id (with_fetching (m_fetching v ++ [mkFetching id r x]) v).
Proof.
  intros Hl (Hg & _ & Ho & He & Hr & s & Es & Hs & Eo & Ep & Ec). split; [|by exists s].
  assert (Er : forall j, reqs j (with_fetching (m_fetching v ++ [mkFetching id r x]) v) = reqs j v ++ (if decide (id = j) then [mkFetching id r x] else [])).
  { intros j. unfold reqs. cbn. by rewrite list.filter_app. }
  split; [done|]. intros j. destruct (decide (j = id)) as [->|Hj].
  - unfold ok. rewrite Er, decide_True, Hr by done. cbn. rewrite Es, Eo. split; [done|]. split; [done|].
    eexists. split; [reflexivity|]. cbn. by rewrite Ec, Ep.
  - apply (ok_frame j v); [done|done| |auto]. rewrite Er, decide_False by congruence. by rewrite app_nil_r.
Qed.

Lemma doFetch_total chain r : linkedTo r chain -> totalP (run chain) (doFetch r id) (fun _ => after id) (thrown id).
Proof.
  intros Hl v Hv. unfold doFetch. erewrite bindP_run by reflexivity. destruct (m_fetcher v).
  - exact (fail_after id p chain D _ v Hv).
  - eexists _, (Ok tt). split; [reflexivity|]. by apply wait_after with chain.
Qed.

Lemma fetch_total chain r k : linkedTo r chain ->
  (forall c, answers c (CertificateRequest.interest r) -> totalP (run chain) (k c) (fun _ => after id) (thrown id)) ->
  totalP (run chain) (fetch r id k) (fun _ => after id) (thrown id).
Proof.
  intros Hl Hk v Hv. unfold fetch. erewrite bindP_run by reflexivity.
  destruct (CertificateCache.find sha256 (m_systemClock v) (CertificateRequest.interest r) (m_unverifiedCertCache v)) as [s o] eqn:E.
  assert (Hv1 : run chain (with_unverified s v)) by (apply (running_frame id p chain D v); [apply Hv|done..]).
  unfold mbind, P_bind. rewrite (zoomP_run _ _ _ _ _ _ E). destruct o as [[c|]|e].
  - apply Hk; [|done]. by destruct (cache_find _ _ _ _ _ E) as [_ Hr]; destruct (Hr c eq_refl).
  - exact (doFetch_total chain r Hl _ Hv1).
  - eexists _, (Throw e). split; [reflexivity|]. by apply running_thrown in Hv1.
Qed.

Lemma validateCertificate_total chain i c req : linked i chain p -> answers c i ->
  (forall r, linkedTo r (c :: chain) -> totalP (run (c :: chain)) (req r id) (fun _ => after id) (thrown id)) ->
  totalP (run chain) (validateCertificate canBePrefix req c id) (fun _ => after id) (thrown id).
Proof.
  intros Hl Hc Hreq v Hv. unfold validateCertificate. erewrite bindP_run by reflexivity.
  destruct (Certificate.isValid (m_systemClock v) c) as [[|]|e] eqn:Ev.
  - erewrite bindP_run by reflexivity. cbn [negb]. apply (checkPolicy_total id p chain D); [done| |intros _; apply fail_after|done].
    intros r Hr. eapply totalP_bind; [apply (setState_total id p chain (c :: chain)); try done; intros s <-; done|].
    intros u. apply Hreq. cbn. split; [done|]. split; [by exists (m_systemClock v)|]. by exists i.
  - erewrite bindP_run by reflexivity. exact (fail_after id p chain D _ v Hv).
  - exists v, (Throw e). split; [done|]. by apply running_thrown in Hv.
Qed.

Lemma hasSeen_total chain name : totalP (run chain) (hasSeenCertificateName id name) (fun _ => run chain) (thrown id).
Proof.
  unfold hasSeenCertificateName. eapply totalP_bind; [apply getState_total|]. intros s.
  destruct (existsb _ _); [intros v [Hv _]; by exists v, (Ok true)|].
  eapply totalP_bind with (mid := fun _ => run chain); [|intros u v Hv; by exists v, (Ok false)].
  eapply totalP_conseq; [apply (setState_total id p chain chain D (with_seen (name :: m_seenCertificateNames s))); done|by intros v [Hv _]|done|done].
Qed.

(** A trusted certificate is there: the chain is verified, then the packet. *)
Lemma found_total chain r c : linkedTo r chain -> trusted c -> answers c (CertificateRequest.interest r) ->
  totalP (run chain) (cert ← verifyCertificateChain id c;
    _ ← (match cert with Some cert => verifyOriginalPacket autoCheck id (Some cert) | None => mret tt end);
    s ← getState id; cacheAll (m_certificateChain s)) (fun _ => after id) (thrown id).
Proof.
  intros Hl Hc Hi. eapply totalP_bind; [exact (linked_answers_trusted id p chain D c _ Hc Hi Hl)|]. intros o.
  apply (totalP_bind _ _ _ (fun _ v => exists kept b, decided id kept b v /\ Forall trusted kept)).
  - destruct o as [c'|]; cbn [loop_post].
    + intros v (Hv & Ht & Hc' & Hi').
      destruct (verifyOriginalPacket_total chain (Some c') ltac:(intros c2 [= <-]; done) v Hv) as (v' & rr & E & Hr).
      exists v', rr. split; [exact E|]. destruct rr; [|done]. destruct Hr as [b Hb]. by exists chain, b.
    + intros v (kept & Hd & Ht). exists v, (Ok tt). split; [done|]. by exists kept, false.
  - intros u v (kept & b & Hd & Ht). pose proof Hd as (_ & s & Es & _ & Ek).
    erewrite bindP_run; [|unfold getState, selfP, definedP, mbind, P_bind; by rewrite Es]. rewrite Ek.
    apply (cacheAll_total id kept Ht). by apply decided_after in Hd.
Qed.

Lemma request_step fuel chain r : linkedTo r chain ->
  (len chain < D -> forall c, answers c (CertificateRequest.interest r) ->
     totalP (run chain) (match fuel with O => undefinedP | S fuel => validateCertificate canBePrefix (requestCertificate autoCheck canBePrefix fuel) c id end)
       (fun _ => after id) (thrown id)) ->
  totalP (run chain) (requestCertificate autoCheck canBePrefix fuel r id) (fun _ => after id) (thrown id).
Proof.
  intros Hl Hk. destruct fuel as [|fuel]; cbn [requestCertificate].
  all: eapply totalP_bind; [apply getState_total|]; intros s v (Hv & _ & _ & _ & _ & Ec).
  all: erewrite bindP_run by reflexivity; cbn zeta; unfold getDepth; rewrite Ec.
  all: pose proof Hv as (_ & -> & _); destruct (D <=? len chain) eqn:ED; [exact (fail_after id p chain D _ v Hv)|].
  all: apply Z.leb_gt in ED; specialize (Hk ED).
  all: destruct (Name.equals _ getDigestSha256Identity);
    [eapply totalP_conseq; [apply (verifyOriginalPacket_total chain None); done|done|by intros u w [b Hb]; apply decided_after in Hb|done|done]|].
  all: revert v Hv; eapply totalP_bind; [apply hasSeen_total|]; intros [|]; [apply fail_after|].
  all: eapply totalP_bind; [apply findTrustedCert_total|]; intros [c|] v (Hv & Hc).
  1, 3: destruct (Hc c eq_refl); by apply (found_total chain r c).
  all: apply (fetch_total chain r _ Hl); [|done].
  all: exact Hk.
Qed.

Lemma requestCertificate_total fuel : forall chain r, D - len chain <= Z.of_nat fuel -> linkedTo r chain ->
  totalP (run chain) (requestCertificate autoCheck canBePrefix fuel r id) (fun _ => after id) (thrown id).
Proof.
  induction fuel as [|fuel IH]; intros chain r Hf Hl; apply request_step; [done| |done|]; intros HD c Hc.
  - lia.
  - apply (validateCertificate_total chain _ c _ Hl Hc). intros r' Hl'. apply IH; [|done]. unfold len in *. cbn [length]. lia.
Qed.

Lemma request_total chain r : linkedTo r chain -> totalP (run chain) (request autoCheck canBePrefix r id) (fun _ => after id) (thrown id).
Proof.
  intros Hl v Hv. unfold request. erewrite bindP_run by reflexivity. pose proof Hv as (_ & -> & _).
  apply (requestCertificate_total (Z.to_nat D) chain r); [unfold len; lia|done..].
Qed.

(** The certificate that was fetched. *)
Lemma resume_total chain i c : linked i chain p -> answers c i ->
  totalP (run chain) (validateCertificate canBePrefix (request autoCheck canBePrefix) c id) (fun _ => after id) (thrown id).
Proof. intros Hl Hc. apply (validateCertificate_total chain i c _ Hl Hc). apply request_total. Qed.

(** The original packet. *)
Lemma start_total : checks p p ->
  totalP (run []) (checkPolicy canBePrefix p id (continueOriginal autoCheck canBePrefix id)) (fun _ => after id) (thrown id).
Proof.
  intros Hp. apply checkPolicy_total; [done| |].
  - intros r Hr. by apply request_total.
  - intros HB. eapply totalP_conseq; [apply (succeed_total id p [] D Bypassed); done|done|intros u v; apply decided_after|done].
Qed.

End requests.

(** *** Calls of the validator *)

Lemma reqs_none id v : reqs id v = [] -> existsb (fun f => Nat.eqb (f_state f) id) (m_fetching v) = false.
Proof.
  intros E. apply not_true_iff_false. intros Hx. apply existsb_exists in Hx as (f & Hf & Hid). apply Nat.eqb_eq in Hid.
  assert (Hr : f ∈ reqs id v) by (apply list_elem_of_filter; split; [done|by apply list_elem_of_In]). rewrite E in Hr. by apply not_elem_of_nil in Hr.
Qed.

(** The state is destroyed only when it is decided: a packet that nothing
    decides fails. *)
Lemma releasing_total id pre m : totalP pre m (fun _ => after id) (thrown id) -> totalP pre (releasing id m) (fun _ => inv) inv.
Proof.
  intros Hm v Hv. destruct (Hm v Hv) as (v' & r & E & Hr). unfold releasing. rewrite E.
  assert (Ht : thrown id v') by (destruct r; [by left|done]). clear Hr. destruct Ht as [[Hi [s Es]]|(p & chain & D & Hrun)].
  - rewrite Es. assert (Ec : match m_outcome s with None => negb (existsb (fun f => Nat.eqb (f_state f) id) (m_fetching v')) | Some _ => false end = false).
    { destruct (m_outcome s) eqn:Eo; [done|]. apply negb_false_iff, existsb_exists. destruct Hi as [_ Ho]. specialize (Ho id).
      unfold ok in Ho. rewrite Es, Eo in Ho. destruct Ho as (_ & _ & f & Ef & _).
      assert (Hf : f ∈ reqs id v') by (rewrite Ef; by apply list_elem_of_singleton).
      apply list_elem_of_filter in Hf as [Hid Hf]. exists f. split; [by apply list_elem_of_In|by apply Nat.eqb_eq]. }
    rewrite Ec. exists v', r. split; [done|]. by destruct r.
  - pose proof Hrun as (_ & _ & _ & _ & Hq & s & Es & _ & Eo & _). rewrite Es, Eo, (reqs_none id v' Hq). cbn [negb].
    destruct (fail_run id p chain D ValidationError.IMPLEMENTATION_ERROR v' Hrun) as (v2 & E2 & Hi & _). rewrite E2. exists v2, r.
    split; [done|]. by destruct r.
Qed.

Lemma newState_running p f v : inv v -> format_ok (mkState p f None [] [] []) ->
  running (length (m_states v)) p [] (m_maxDepth v) (with_states (m_states v ++ [mkState p f None [] [] []]) v).
Proof.
  intros (Hg & Ho) Hf. pose proof (Ho (length (m_states v))) as Hn. unfold ok in Hn. rewrite lookup_ge_None_2 in Hn by done.
  destruct Hn as [He Hr]. split_and!; [done|done| |done|done|].
  - intros j Hj. apply (ok_frame j v); [|done|done|auto]. cbn. destruct (decide (j < length (m_states v))%nat).
    + by rewrite lookup_app_l.
    + rewrite !lookup_ge_None_2; [done|lia|]. rewrite length_app. cbn. lia.
  - eexists. cbn. split; [by rewrite lookup_app_r, Nat.sub_diag|]. split; [by split|done].
Qed.

Lemma validateData_total data : totalP inv (validateData autoCheck canBePrefix data) (fun _ => inv) inv.
Proof.
  intros v Hv. unfold validateData. erewrite bindP_run by reflexivity.
  eapply (releasing_total _ (running _ (PData data) [] (m_maxDepth v))); [by apply start_total|]. by apply (newState_running (PData data) None v).
Qed.

Lemma validateInterest_total i : totalP inv (validateInterest autoCheck canBePrefix i) (fun _ => inv) inv.
Proof.
  intros v Hv. unfold validateInterest. erewrite bindP_run by reflexivity.
  destruct (Interest.getSignatureInfo i) as [info|e] eqn:Ei.
  - set (fmt := Some (match info with Some _ => V03 | None => V02 end)).
    eapply (releasing_total _ (fun w => w = with_states (m_states v ++ [mkState (PInterest i) None None [] [] []]) v)); [|done].
    intros w ->. erewrite bindP_run by reflexivity. erewrite bindP_run by reflexivity. cbn [m_states with_states].
    assert (E : alter (with_format fmt) (length (m_states v)) (m_states v ++ [mkState (PInterest i) None None [] [] []])
                = m_states v ++ [mkState (PInterest i) fmt None [] [] []]).
    { by rewrite alter_last. }
    fold fmt. rewrite E. apply start_total with (D := m_maxDepth v); [by split; [|exists info]|].
    apply (newState_running (PInterest i) fmt v); [done|]. unfold format_ok. cbn. by rewrite Ei.
  - eapply (releasing_total _ (running _ (PInterest i) [] (m_maxDepth v))).
    + eapply totalP_bind; [apply lift_total|]. intros info. apply with_fact. by intros [=].
    + apply newState_running; [done|]. unfold format_ok. cbn. by rewrite Ei.
Qed.

(** **** What the network answers *)

Lemma reqs_delete id j f v : m_fetching v !! j = Some f ->
  reqs id v = base.filter (fun f => f_state f = id) (take j (m_fetching v)) ++ (if decide (f_state f = id) then [f] else []) ++ base.filter (fun f => f_state f = id) (drop (S j) (m_fetching v)) /\
  reqs id (with_fetching (list_delete j (m_fetching v)) v) = base.filter (fun f => f_state f = id) (take j (m_fetching v)) ++ base.filter (fun f => f_state f = id) (drop (S j) (m_fetching v)).
Proof.
  intros Ej. unfold reqs. cbn. split.
  - rewrite <- (take_drop_middle _ _ _ Ej) at 1. rewrite list.filter_app, list.filter_cons. by destruct (decide _).
  - rewrite (delete_take_drop (m_fetching v) j : list_delete j _ = _). by rewrite list.filter_app.
Qed.

Lemma takeFetching_running j f v : inv v -> m_fetching v !! j = Some f -> exists p chain,
  linked (CertificateRequest.interest (f_request f)) chain p /\
  running (f_state f) p chain (m_maxDepth v) (with_fetching (list_delete j (m_fetching v)) v).
Proof.
  intros (Hg & Ho) Ej. pose proof (Ho (f_state f)) as Hf. destruct (reqs_delete (f_state f) j f v Ej) as [E1 E2].
  rewrite decide_True in E1 by done. unfold ok in Hf.
  destruct (m_states v !! f_state f) as [s|] eqn:Es; [|by destruct Hf as [_ Hf]; rewrite Hf in E1; destruct (base.filter _ (take j _))].
  destruct Hf as [Hs Hf]. destruct (m_outcome s) as [b|] eqn:Eo; [by destruct Hf as [Hf _]; rewrite Hf in E1; destruct (base.filter _ (take j _))|].
  destruct Hf as (He & f' & Ef & Hl). rewrite Ef in E1. symmetry in E1.
  assert (Hx : f' = f /\ reqs (f_state f) (with_fetching (list_delete j (m_fetching v)) v) = []).
  { rewrite E2. apply app_singleton in E1 as [[-> E1]|[_ E1]]; [|done]. injection E1 as <- ->. done. }
  destruct Hx as [-> Hr]. exists (m_packet s), (m_certificateChain s). split; [done|]. split_and!; [done|done| |done|done|by exists s].
  intros k Hk. apply (ok_frame k v); [done|done| |auto]. destruct (reqs_delete k j f v Ej) as [-> ->]. by rewrite decide_False by congruence.
Qed.

Lemma takeFetching_run j f v : m_fetching v !! j = Some f -> takeFetching j v = Some (with_fetching (list_delete j (m_fetching v)) v, Ok f).
Proof. intros Ej. unfold takeFetching, mbind, option_bind. by rewrite Ej. Qed.

(** A request is answered, and what is done with the answer. *)
Lemma answer_total j f v (m : fetching -> P t unit) : inv v -> m_fetching v !! j = Some f ->
  (forall p chain, linked (CertificateRequest.interest (f_request f)) chain p ->
     totalP (running (f_state f) p chain (m_maxDepth v)) (m f) (fun _ => after (f_state f)) (thrown (f_state f))) ->
  exists v' r, (f ← takeFetching j; releasing (f_state f) (m f)) v = Some (v', r) /\ inv v'.
Proof.
  intros Hv Ej Hm. destruct (takeFetching_running j f v Hv Ej) as (p & chain & Hl & Hr).
  erewrite bindP_run by exact (takeFetching_run j f v Ej).
  destruct (releasing_total (f_state f) _ (m f) (Hm p chain Hl) _ Hr) as (v' & r & E & Hi). exists v', r. split; [exact E|]. by destruct r.
Qed.

Lemma refetch_total id p chain D i n w : linked i chain p ->
  totalP (running id p chain D) (fetch (CertificateRequest.mk i n w) id (fun cert => validateCertificate canBePrefix (request autoCheck canBePrefix) cert id))
    (fun _ => after id) (thrown id).
Proof. intros Hl. apply fetch_total; [done|]. intros c Hc. by apply (resume_total id p D chain i c). Qed.

Lemma ofData_same data c : Certificate.ofData data = Ok c -> c = data.
Proof.
  unfold Certificate.ofData, throw_if. destruct (negb (Certificate.isValidName _)); [done|].
  destruct (negb (_ =? _)); [done|]. destruct (_ <? _); [done|]. destruct (_ =? _); [done|]. by intros [= ->].
Qed.

Lemma dataCallback_total j f v data : inv v -> m_fetching v !! j = Some f -> answers data (CertificateRequest.interest (f_request f)) ->
  exists v' r, dataCallback autoCheck canBePrefix j data v = Some (v', r) /\ inv v'.
Proof.
  intros Hv Ej Hd. apply (answer_total j f v _ Hv Ej). intros p chain Hl.
  destruct (Certificate.ofData data) as [c|e] eqn:Ec; [|destruct (is_tlv_error e); [apply fail_after|apply throw_total]].
  apply ofData_same in Ec as ->.
  eapply totalP_bind; [|intros u; exact (resume_total (f_state f) p (m_maxDepth v) chain _ data Hl Hd)].
  intros w Hw. unfold cacheUnverifiedCert. erewrite bindP_run by reflexivity. unfold zoomP.
  destruct (CertificateCache.insert _ _ _) as [s r].
  assert (Hw1 : running (f_state f) p chain (m_maxDepth v) (with_unverified s w)) by (apply (running_frame _ p chain _ w); [apply Hw|done..]).
  exists (with_unverified s w), r. split; [done|]. destruct r; [done|]. by apply running_thrown in Hw1.
Qed.

Lemma nackCallback_total j f v : inv v -> m_fetching v !! j = Some f -> exists v' r, nackCallback j v = Some (v', r) /\ inv v'.
Proof.
  intros Hv Ej. apply (answer_total j f v _ Hv Ej). intros p chain Hl. destruct (_ <=? _); [|apply fail_after].
  apply totalP_modify. intros w Hw. by apply (wait_after (f_state f) p (m_maxDepth v) chain).
Qed.

Lemma timeoutCallback_total j f v : inv v -> m_fetching v !! j = Some f -> exists v' r, timeoutCallback autoCheck canBePrefix j v = Some (v', r) /\ inv v'.
Proof. intros Hv Ej. apply (answer_total j f v _ Hv Ej). intros p chain Hl. destruct (_ <=? _); [by apply refetch_total|apply fail_after]. Qed.

Lemma retry_total j f v : inv v -> m_fetching v !! j = Some f -> exists v' r, retry autoCheck canBePrefix j v = Some (v', r) /\ inv v'.
Proof. intros Hv Ej. apply (answer_total j f v _ Hv Ej). intros p chain Hl. destruct (f_request f) as [i n w]. by apply refetch_total. Qed.

(** **** The rest of the interface *)

Lemma inv_frame v v' :
  global v' -> m_states v' = m_states v -> m_events v' = m_events v -> m_fetching v' = m_fetching v -> inv v -> inv v'.
Proof.
  intros Hg E2 E3 E4 (_ & Ho). split; [done|]. intros j.
  apply (ok_frame j v v'); [by rewrite E2|unfold evs; by rewrite E3|unfold reqs; by rewrite E4|auto].
Qed.

Lemma anchors_inv s v : anchored s -> inv v -> inv (with_anchors s v).
Proof. intros Hs Hv. apply (inv_frame v); [|done..]. destruct Hv as ((? & ? & _ & ?) & _). done. Qed.

Lemma verified_inv s v : verified s -> inv v -> inv (with_verified s v).
Proof. intros Hs Hv. apply (inv_frame v); [|done..]. destruct Hv as ((? & ? & ? & _) & _). done. Qed.

Lemma unverified_inv s v : inv v -> inv (with_unverified s v).
Proof. intros Hv. apply (inv_frame v); [apply Hv|done..]. Qed.

Lemma insert_anchored g c s s' r : TrustAnchors.insert g c s = (s', r) -> anchor c -> anchored s -> anchored s'.
Proof.
  intros E Hc Hs. unfold TrustAnchors.insert, mbind, M_bind, modify, self in E.
  set (s1 := if existsb (TrustAnchors.is_group g) (TrustAnchors.m_groups s) then s else _) in E.
  assert (H1' : anchored s1) by (subst s1; by destruct (existsb _ _)). clearbody s1.
  destruct (list_find _ _) as [[i gr]|]; [|by injection E as <- <-].
  destruct (TrustAnchors.m_kind gr); [|by injection E as <- <-]. unfold TrustAnchors.Static_add in E.
  destruct (TrustAnchors.has_name _ _); injection E as <- <-; [done|]. by apply insert_unique_Forall.
Qed.

Lemma insertDynamic_anchored now g path per isDir s s' r : TrustAnchors.insertDynamic now g path per isDir s = (s', r) -> anchored s -> anchored s'.
Proof.
  intros E Hs. unfold TrustAnchors.insertDynamic, mbind, M_bind, self, throwM_if, liftR, throw_if, modify in E.
  destruct (existsb _ _); [by injection E as <- <-|]. destruct (per <=? 0); [by injection E as <- <-|].
  pose proof (Group_refresh_anchored now (TrustAnchors.mkGroup g [] (TrustAnchors.DynamicTrustAnchorGroup isDir path per 0)) s Hs) as Hg.
  destruct (TrustAnchors.Group_refresh _ _ _). by injection E as <- <-.
Qed.

(** What happens to a validator. *)
Inductive input :=
  | ValidateData (d : Data.t)
  | ValidateInterest (i : Interest.t)
  | FetchedData (j : nat) (d : Data.t)
  | FetchedNack (j : nat)
  | FetchTimeout (j : nat)
  | FetchAgain (j : nat)
  | LoadAnchor (groupId : bytes) (c : Certificate.t)
  | LoadAnchorFiles (groupId path : bytes) (refreshPeriod : Z) (isDir : bool)
  | ResetAnchors
  | CacheVerified (c : Certificate.t)
  | CacheUnverified (c : Certificate.t)
  | ResetVerified
  | SetMaxDepth (depth : Z)
  | SetClocks (systemClock steadyClock : Z).

Definition perform (x : input) : P t unit :=
  match x with
  | ValidateData d => validateData autoCheck canBePrefix d
  | ValidateInterest i => validateInterest autoCheck canBePrefix i
  | FetchedData j d => dataCallback autoCheck canBePrefix j d
  | FetchedNack j => nackCallback j
  | FetchTimeout j => timeoutCallback autoCheck canBePrefix j
  | FetchAgain j => retry autoCheck canBePrefix j
  | LoadAnchor groupId c => loadAnchor groupId c
  | LoadAnchorFiles groupId path refreshPeriod isDir => loadAnchorFiles groupId path refreshPeriod isDir
  | ResetAnchors => resetAnchors
  | CacheVerified c => cacheVerifiedCert c
  | CacheUnverified c => cacheUnverifiedCert c
  | ResetVerified => resetVerifiedCerts
  | SetMaxDepth depth => setMaxDepth depth
  | SetClocks systemClock steadyClock => modifyP (with_clocks systemClock steadyClock)
  end.

(** What can happen: only requests on the way are answered, and by packets
    that satisfy the Interest; a scheduled fetch is not answered before it is
    expressed; the application caches or declares as anchors what it trusts. *)
Definition allowed (x : input) (v : t) : Prop :=
  match x with
  | FetchedData j d => exists f, m_fetching v !! j = Some f /\ f_expressed f = true /\ answers d (CertificateRequest.interest (f_request f))
  | FetchedNack j | FetchTimeout j => exists f, m_fetching v !! j = Some f /\ f_expressed f = true
  | FetchAgain j => exists f, m_fetching v !! j = Some f /\ f_expressed f = false
  | LoadAnchor _ c | CacheVerified c => anchor c
  | _ => True
  end.

(** A validator with [N] policies for command Interests around [B]. *)
Inductive reachable : t -> Prop :=
| reachable_init layers f systemClock steadyClock : length layers = N -> Forall is_command layers -> reachable (init layers B f systemClock steadyClock)
| reachable_step x v v' r : reachable v -> allowed x v -> perform x v = Some (v', r) -> reachable v'.

Lemma total_inv (m : P t unit) v : totalP inv m (fun _ => inv) inv -> inv v -> exists v' r, m v = Some (v', r) /\ inv v'.
Proof. intros Hm Hv. destruct (Hm v Hv) as (v' & r & E & Hr). exists v', r. split; [done|]. by destruct r. Qed.

Lemma perform_total x v : inv v -> allowed x v -> exists v' r, perform x v = Some (v', r) /\ inv v'.
Proof.
  intros Hv Hx. pose proof Hv as ((Hb & HL & Ha & Ht) & _). destruct x as [d|i|j d|j|j|j|g c|g path per isDir| |c|c| |depth|y z]; cbn [perform allowed] in *.
  - by apply total_inv; [apply validateData_total|].
  - by apply total_inv; [apply validateInterest_total|].
  - destruct Hx as (f & Ej & _ & Hd). by apply (dataCallback_total j f).
  - destruct Hx as (f & Ej & _). by apply (nackCallback_total j f).
  - destruct Hx as (f & Ej & _). by apply (timeoutCallback_total j f).
  - destruct Hx as (f & Ej & _). by apply (retry_total j f).
  - destruct (TrustAnchors.insert g c (m_trustAnchors v)) as [s r] eqn:E. eexists _, _. split; [exact (zoomP_run _ _ _ _ _ _ E)|].
    apply anchors_inv; [exact (insert_anchored g c _ s r E Hx Ha)|done].
  - destruct (TrustAnchors.insertDynamic (m_steadyClock v) g path per isDir (m_trustAnchors v)) as [s r] eqn:E.
    eexists _, _. split; [exact (zoomP_run _ _ _ _ _ _ E)|]. apply anchors_inv; [exact (insertDynamic_anchored _ g path per isDir _ s r E Ha)|done].
  - eexists _, _. split; [reflexivity|]. by apply anchors_inv.
  - destruct (CertificateCache.insert (m_systemClock v) c (m_verifiedCertCache v)) as [s r] eqn:E.
    eexists _, _. split; [exact (zoomP_run _ _ _ _ _ _ E)|]. apply verified_inv; [exact (cache_insert _ c _ s r E (trusted_anchor c Hx) Ht)|done].
  - destruct (CertificateCache.insert (m_systemClock v) c (m_unverifiedCertCache v)) as [s r] eqn:E.
    eexists _, _. split; [exact (zoomP_run _ _ _ _ _ _ E)|]. by apply unverified_inv.
  - eexists _, _. split; [reflexivity|]. by apply verified_inv.
  - eexists _, _. split; [reflexivity|]. by apply (inv_frame v).
  - eexists _, _. split; [reflexivity|]. by apply (inv_frame v).
Qed.

Lemma reachable_holds v : reachable v -> inv v.
Proof.
  intros Hr. induction Hr as [layers f x y HN Hc|x v v' r Hr IH Hx E].
  - split; [split_and!; done|]. intros j. by unfold ok.
  - destruct (perform_total x v IH Hx) as (v2 & r2 & E2 & H2). rewrite E in E2. assert (v2 = v') as <-; [|done].
    by apply Some_inj, (f_equal fst) in E2.
Qed.

(** ** What a user of the validator sees *)

(** C6: For a validator whose policy accepts everything or is the simple
    hierarchy, alone or inside any number of policies for command Interests,
    each validation is decided once: as long as it is open, no callback was
    called and exactly one request for a certificate is on the way; when its
    outcome is set, exactly one callback was called, the success callback if
    and only if the outcome is success, and nothing is on the way any more.
    This holds whatever the network answers and in whatever order.  The policy
    for signed Interests and the configured policy are not covered: the first
    can decide a validation twice (see [signed_interest_double_failure]). *)
Theorem validator_answers_once v : reachable v -> forall id,
  match m_states v !! id with
  | None => evs id v = [] /\ reqs id v = []
  | Some s =>
      match m_outcome s with
      | None => evs id v = [] /\ length (reqs id v) = 1%nat
      | Some b => reqs id v = [] /\ exists e, evs id v = [e] /\ b = match e with Accepted _ _ => true | Rejected _ _ => false end
      end
  end.
Proof.
  intros Hr id. destruct (reachable_holds v Hr) as [_ Ho]. specialize (Ho id). unfold ok in Ho.
  destruct (m_states v !! id) as [s|]; [|done]. destruct Ho as [_ Ho]. destruct (m_outcome s) as [b|].
  - destruct Ho as (Hq & e & He & Hs). split; [done|]. exists e. split; [done|].
    destruct e as [k [|[c|]]|k code]; cbn in Hs; [apply Hs..|done].
  - destruct Ho as (He & f & -> & _). done.
Qed.


(** C27: For a validator whose policy accepts everything or is the simple
    hierarchy, alone or inside any number of policies for command Interests
    (not the policy for signed Interests, which can set an outcome twice, see
    [signed_interest_double_failure], and not the configured one): a call of
    its interface, and an answer of the network to a request that is on the
    way, ends and without a failed assertion.  The chain of certificates cannot
    grow without bound, no outcome is set twice, and no state is destroyed
    without an outcome.  Afterwards the validator is in a reachable state
    again. *)
Theorem validator_progress v x : reachable v -> allowed x v -> exists v' r, perform x v = Some (v', r) /\ reachable v'.
Proof.
  intros Hr Hx. destruct (perform_total x v (reachable_holds v Hr) Hx) as (v' & r & E & _). exists v', r. split; [done|]. by apply (reachable_step x v v' r).
Qed.

End facts.

(** ** Commands and replays *)

Section commands.
Context `{PosixTime} `{Files} `{Crypto} (autoCheck : bool) (canBePrefix : option bool).

(** The key and the time stamp of a command, in either format. *)
Definition command_of (i : Interest.t) (key : Name.t) (ts : Z) : Prop :=
  (exists si ms, Interest.getSignatureInfo i = Ok (Some si) /\ locator_of si = Some key /\
     SignatureInfo.getTime si = Ok (Some ms) /\ ts = time.fromUnixTimestamp ms) \/
  (exists si c n, Interest.getSignatureInfo i = Ok None /\ locator_of si = Some key /\
     (c ← Name.at_ (-2) (Interest.m_name i); b ← Block.blockFromValue c; SignatureInfo.ofBlock b SignatureInfo.TData) = Ok si /\
     command_interest_MIN_SIZE <= Name.size (Interest.m_name i) /\ Name.at_ (-4) (Interest.m_name i) = Ok c /\
     Component.isNumber c = true /\ Component.toNumber c = Ok n /\ ts = time.fromUnixTimestamp (i64 n)).

Lemma locator_run si key id v : locator_of si = Some key -> getKeyLocatorNameOf si id v = Some (v, Ok key).
Proof.
  unfold locator_of, getKeyLocatorNameOf. destruct (SignatureInfo.m_type si =? verification.DigestSha256); [intros E; apply Some_inj in E; rewrite <- E; reflexivity|].
  destruct (SignatureInfo.m_keyLocator si) as [kl|]; [|done]. destruct (KeyLocator.getType kl =? tlv.Name); [|done]. cbn [negb].
  destruct (KeyLocator.getName kl) as [n|e]; [|done]. by intros [= ->].
Qed.

Lemma getState_run id v s : m_states v !! id = Some s -> getState id v = Some (v, Ok s).
Proof. intros E. unfold getState, selfP, definedP, mbind, P_bind. by rewrite E. Qed.

(** The state of a validation that has just begun. *)
Definition fresh_state (i : Interest.t) (info : option SignatureInfo.t) : ValidationState :=
  mkState (PInterest i) (Some (match info with Some _ => V03 | None => V02 end)) None [] [] [].

Lemma parseTimestamp_run i key ts info id v : command_of i key ts -> Interest.getSignatureInfo i = Ok info -> m_states v !! id = Some (fresh_state i info) ->
  parseTimestamp i id v = Some (v, Ok (Some ts)).
Proof.
  intros Hc Ei Es. unfold parseTimestamp. erewrite bindP_run by exact (getState_run id v _ Es).
  destruct Hc as [(si & ms & E1 & E2 & E3 & ->)|(si & c & n & E1 & E2 & E3 & E4 & E5 & E6 & E7 & ->)]; rewrite E1 in Ei; injection Ei as <-.
  - erewrite bindP_run by reflexivity. rewrite E1. erewrite bindP_run by reflexivity. erewrite bindP_run by reflexivity. by rewrite E3.
  - erewrite bindP_run by reflexivity. cbn zeta.
    assert (Hsz : (Name.size (Interest.m_name i) <? command_interest_MIN_SIZE) = false) by (apply Z.ltb_ge; lia). rewrite Hsz, E5.
    erewrite bindP_run by reflexivity. rewrite E6, E7. done.
Qed.

Lemma getKeyLocatorName_run i key ts info id v : command_of i key ts -> Interest.getSignatureInfo i = Ok info -> m_states v !! id = Some (fresh_state i info) ->
  getKeyLocatorName (PInterest i) id v = Some (v, Ok key).
Proof.
  intros Hc Ei Es. unfold getKeyLocatorName. erewrite bindP_run by exact (getState_run id v _ Es).
  destruct Hc as [(si & ms & E1 & E2 & E3 & ->)|(si & c & n & E1 & E2 & E3 & E4 & E5 & E6 & E7 & ->)]; rewrite E1 in Ei; injection Ei as <-.
  - erewrite bindP_run by reflexivity. rewrite E1. by apply locator_run.
  - erewrite bindP_run by reflexivity. cbn zeta.
    assert (Hs2 : (Name.size (Interest.m_name i) <? verification.signed_interest_MIN_SIZE) = false)
      by (apply Z.ltb_ge; unfold command_interest_MIN_SIZE, verification.signed_interest_MIN_SIZE in *; lia).
    rewrite Hs2, E3. by apply locator_run.
Qed.

Lemma parse_run i key ts info id v : command_of i key ts -> Interest.getSignatureInfo i = Ok info -> m_states v !! id = Some (fresh_state i info) ->
  parseCommandInterest i id v = Some (v, Ok (Some (key, ts))).
Proof.
  intros Hc Ei Es. unfold parseCommandInterest. erewrite bindP_run by exact (parseTimestamp_run i key ts info id v Hc Ei Es). cbn beta match.
  erewrite bindP_run by exact (getKeyLocatorName_run i key ts info id v Hc Ei Es).
  erewrite bindP_run; [|unfold hasFailed; erewrite bindP_run by exact (getState_run id v _ Es); reflexivity]. done.
Qed.

(** The queue behind a new record. *)
Lemma insertNewRecord_split now key ts rs : exists q,
  insertNewRecord now key ts rs = q ++ [mkTimestamp key ts now] /\ Forall (fun r => Name.equals (t_keyName r) key = false) q.
Proof.
  unfold insertNewRecord. destruct (existsb _ rs) eqn:E; eexists; (split; [reflexivity|]); apply List.Forall_forall; intros r Hr.
  - apply filter_In in Hr as [_ Hr]. by apply negb_true_iff in Hr.
  - apply not_true_iff_false. intros Hx. apply not_true_iff_false in E. apply E, existsb_exists. eauto.
Qed.

(** The clean-up takes from the front, and does not reach a fresh record. *)
Lemma cleanup_last e m q r : e < t_lastRefreshed r -> m <> 0 -> exists k, cleanup e m (q ++ [r]) = drop k q ++ [r].
Proof.
  intros He Hm. induction q as [|x q IH]; cbn [cleanup app].
  - exists O. assert (Hx : (t_lastRefreshed r <=? e) || ((0 <=? m) && (m <? len [r])) = false); [|by rewrite Hx].
    apply orb_false_iff. split; [by apply Z.leb_gt|]. unfold len. cbn. destruct (0 <=? m) eqn:E; [|done]. apply Z.leb_le in E. apply Z.ltb_ge. lia.
  - destruct (_ || _); [|by exists O]. destruct IH as [k Hk]. by exists (S k).
Qed.

Lemma find_fresh key r q k : Forall (fun r => Name.equals (t_keyName r) key = false) q -> t_keyName r = key ->
  List.find (fun r => Name.equals (t_keyName r) key) (drop k q ++ [r]) = Some r.
Proof.
  intros Hq Ek. apply (Forall_drop _ k) in Hq. induction Hq as [|x l Hx Hl IH]; cbn; [|by rewrite Hx].
  rewrite Ek. assert (Hr : Name.equals key key = true); [|by rewrite Hr]. rewrite NameFacts.nequals_spec. by apply bool_decide_eq_true.
Qed.

Lemma fail_fresh_run id code v s : m_states v !! id = Some s -> m_outcome s = None ->
  fail id code v = Some (with_states (alter (with_outcome (Some false)) id (m_states v)) (with_events (m_events v ++ [Rejected id code]) v), Ok tt).
Proof. intros Es Eo. unfold fail, call, modifyP. erewrite bindP_run by reflexivity. by erewrite decideOutcome_run. Qed.

Lemma checkTimestamp_rejects level o o' rs id key ts v s r :
  m_layers v !! level = Some (CommandInterest o' rs) -> m_states v !! id = Some s -> m_outcome s = None ->
  List.find (fun r => Name.equals (t_keyName r) key) (cleanup (m_steadyClock v - recordLifetime o) (maxRecords o) rs) = Some r -> ts <= t_timestamp r ->
  exists v', checkTimestamp level o id key ts v = Some (v', Ok false) /\
    m_events v' = m_events v ++ [Rejected id ValidationError.POLICY_ERROR] /\ m_states v' !! id = Some (with_outcome (Some false) s).
Proof.
  intros El Es Eo Ef Hts. unfold checkTimestamp. erewrite bindP_run by reflexivity. rewrite El. cbn zeta. erewrite bindP_run by reflexivity.
  rewrite Ef. assert (Hle : (ts <=? t_timestamp r) = true) by (by apply Z.leb_le). rewrite Hle.
  set (ls := <[level := _]> (m_layers v)). pose proof (fail_fresh_run id ValidationError.POLICY_ERROR (with_layers ls v) s Es Eo) as Ew.
  destruct (_ || _); eexists; (split; [erewrite bindP_run by exact Ew; reflexivity|]); cbn; (split; [done|]); by rewrite list_lookup_alter_eq, Es.
Qed.

(** The rest of [validate] for an Interest whose validation is decided. *)
Lemma releasing_decided id m v v' r s : m v = Some (v', r) -> m_states v' !! id = Some s -> is_Some (m_outcome s) -> releasing id m v = Some (v', r).
Proof. intros E Es [b Eo]. unfold releasing. rewrite E, Es. by rewrite Eo. Qed.

(** The new state, with its format. *)
Lemma validate_fresh i info v : Interest.getSignatureInfo i = Ok info ->
  validateInterest autoCheck canBePrefix i v = releasing (length (m_states v)) (fun _ =>
    checkPolicy canBePrefix (PInterest i) (length (m_states v)) (continueOriginal autoCheck canBePrefix (length (m_states v)))
      (with_states (m_states v ++ [fresh_state i info]) v)) v.
Proof.
  intros Ei. unfold validateInterest. erewrite bindP_run by reflexivity. rewrite Ei. unfold releasing at 1 2.
  erewrite bindP_run by reflexivity. erewrite bindP_run by reflexivity. cbn [m_states with_states].
  rewrite alter_last. done.
Qed.

(** C28: A command that is replayed, or older than the last command of its key,
    is rejected, by a validator whose outermost policy is the one for command
    Interests and may keep records (a maximum number of records other than
    0; with 0 nothing is remembered and a replay is accepted): when a command of
    the key was accepted less than a record's lifetime ago, and its record is
    the newest, then the validation of a command of the same key with a time
    stamp that is not greater calls the failure callback at once, with a policy
    error. *)
Theorem command_interest_replay v i o rs layers key ts ts' accepted :
  m_layers v = CommandInterest o (insertNewRecord accepted key ts rs) :: layers -> maxRecords o <> 0 ->
  m_steadyClock v - recordLifetime o < accepted ->
  command_of i key ts' -> ts' <= ts ->
  exists v', validateInterest autoCheck canBePrefix i v = Some (v', Ok tt) /\
    m_events v' = m_events v ++ [Rejected (length (m_states v)) ValidationError.POLICY_ERROR].
Proof.
  intros El Hm Hl Hc Hts. assert (Hi : exists info, Interest.getSignatureInfo i = Ok info) by (destruct Hc as [(si & ms & E & _)|(si & c & n & E & _)]; eauto).
  destruct Hi as [info Ei]. rewrite (validate_fresh i info v Ei). set (id := length (m_states v)). set (v1 := with_states _ v).
  assert (Es : m_states v1 !! id = Some (fresh_state i info)) by (subst v1 id; cbn; by rewrite lookup_app_r, Nat.sub_diag).
  destruct (insertNewRecord_split accepted key ts rs) as (q & Eq & Hq).
  destruct (cleanup_last (m_steadyClock v - recordLifetime o) (maxRecords o) q (mkTimestamp key ts accepted) Hl Hm) as [k Ek].
  assert (El1 : m_layers v1 !! O = Some (CommandInterest o (insertNewRecord accepted key ts rs))) by (cbn; by rewrite El).
  destruct (checkTimestamp_rejects O o o _ id key ts' v1 _ _ El1 Es eq_refl
              ltac:(change (m_steadyClock v1) with (m_steadyClock v); rewrite Eq, Ek; by apply find_fresh) Hts) as (v' & E & Hev & Hst).
  exists v'. split; [|done]. eapply releasing_decided; [|exact Hst|done].
  unfold checkPolicy. erewrite bindP_run by reflexivity. change (m_layers v1) with (m_layers v). rewrite El. cbn [checkLayers].
  unfold CommandInterest_checkPolicy. erewrite bindP_run by exact (parse_run i key ts' info id v1 Hc Ei Es).
  cbn beta match. erewrite bindP_run by exact E. done.
Qed.

(** *** An outcome that is set twice *)

(** The validation [id] has failed. *)
Definition has_failed (id : nat) (v : t) : Prop := exists s, m_states v !! id = Some s /\ m_outcome s = Some false.

Lemma fail_again id code v : has_failed id v -> fail id code v = None.
Proof.
  intros (s & Es & Eo). unfold fail, call, modifyP. erewrite bindP_run by reflexivity. unfold decideOutcome.
  erewrite bindP_run by exact (getState_run id (with_events _ v) s Es). by rewrite Eo.
Qed.

Lemma bindP_none {A B} (m : P t A) (k : A -> P t B) v : m v = None -> (m ≫= k) v = None.
Proof. intros E. unfold mbind, P_bind. by rewrite E. Qed.

Lemma runHook_states h v v' r : runHook h v = Some (v', r) -> r = Ok tt /\ m_states v' = m_states v.
Proof.
  unfold runHook. destruct h as [level key ts|level key ts n1 n2]; destruct (m_layers v !! level) as [[o l|o l]|]; try done.
  - intros E. by simplify_eq.
  - destruct (insertRecord o (m_steadyClock v) key ts n1 n2 l); cbn; intros E; by simplify_eq.
Qed.

Lemma runHooks_states l : forall v v' r, runHooks l v = Some (v', r) -> r = Ok tt /\ m_states v' = m_states v.
Proof.
  induction l as [|h l IH]; intros v v' r E; cbn [runHooks] in E; [unfold mret, P_ret in E; by simplify_eq|].
  unfold mbind, P_bind in E. destruct (runHook h v) as [[v1 r1]|] eqn:E1; [|done]. apply runHook_states in E1 as [-> <-]. by apply IH.
Qed.

Lemma succeed_again id how v : has_failed id v -> succeed id how v = None.
Proof.
  intros (s & Es & Eo). unfold succeed, call, modifyP. erewrite bindP_run by reflexivity.
  erewrite bindP_run by exact (getState_run id (with_events _ v) s Es).
  destruct (runHooks (m_afterSuccess s) (with_events (m_events v ++ [Accepted id how]) v)) as [[v' r]|] eqn:E; [|by apply bindP_none].
  destruct (runHooks_states _ _ _ _ E) as [-> E']. erewrite bindP_run by exact E.
  unfold decideOutcome. erewrite bindP_run by (apply (getState_run id v' s); rewrite E'; exact Es). by rewrite Eo.
Qed.

(** The signature names no key. *)
Definition keyless (si : SignatureInfo.t) : Prop := SignatureInfo.m_type si <> verification.DigestSha256 /\ SignatureInfo.m_keyLocator si = None.

Lemma keyless_none i si id v s : keyless si -> Interest.getSignatureInfo i = Ok (Some si) ->
  m_states v !! id = Some s -> m_format s = Some V03 ->
  getKeyLocatorName (PInterest i) id v = (_ ← fail id ValidationError.INVALID_KEY_LOCATOR; mret Name.empty) v.
Proof.
  intros [Ht Hk] Ei Es Ef. unfold getKeyLocatorName. erewrite bindP_run by exact (getState_run id v s Es). rewrite Ef.
  erewrite bindP_run by reflexivity. rewrite Ei. erewrite bindP_run by reflexivity. erewrite bindP_run by reflexivity.
  unfold getKeyLocatorNameOf. apply Z.eqb_neq in Ht. rewrite Ht, Hk. done.
Qed.

(** The base policy takes up a validation that has failed. *)
Lemma base_again b i si id v : keyless si -> Interest.getSignatureInfo i = Ok (Some si) -> has_failed id v ->
  (exists s, m_states v !! id = Some s /\ m_format s = Some V03) ->
  checkLayers canBePrefix [] 1 b (PInterest i) id (continueOriginal autoCheck canBePrefix id) v = None.
Proof.
  intros Hk Ei Hf (s & Es & Ef). destruct b; cbn [checkLayers]; [by apply succeed_again|].
  unfold SimpleHierarchy_checkPolicy. apply bindP_none. rewrite (keyless_none i si id v s) by done.
  apply bindP_none. by apply fail_again.
Qed.

(** The checks of the signed Interest, from the name of the key on. *)
Lemma checkIncoming_again o rs i si id v ts n :
  m_layers v !! O = Some (SignedInterest o rs) -> m_states v !! id = Some (fresh_state i (Some si)) ->
  Interest.getSignatureInfo i = Ok (Some si) -> keyless si -> SignatureInfo.getTime si = Ok ts -> SignatureInfo.getSeqNum si = Ok n ->
  checkIncomingInterest O o i id v = None \/
  exists v', checkIncomingInterest O o i id v = Some (v', Ok true) /\ exists s, m_states v' !! id = Some s /\ m_outcome s = Some false /\ m_format s = Some V03.
Proof.
  intros El Es Ei Hk Et En. unfold checkIncomingInterest. rewrite Ei. erewrite bindP_run by reflexivity. erewrite bindP_run by reflexivity.
  set (s' := with_outcome (Some false) (fresh_state i (Some si))).
  set (v1 := with_states (alter (with_outcome (Some false)) id (m_states v)) (with_events (m_events v ++ [Rejected id ValidationError.INVALID_KEY_LOCATOR]) v)).
  assert (E1 : getKeyLocatorName (PInterest i) id v = Some (v1, Ok Name.empty)).
  { rewrite (keyless_none i si id v _ Hk Ei Es eq_refl). by erewrite bindP_run by exact (fail_fresh_run id _ v _ Es eq_refl). }
  assert (Es1 : m_states v1 !! id = Some s') by (cbn; by rewrite list_lookup_alter_eq, Es).
  assert (Hf : has_failed id v1) by (by exists s'). assert (El1 : m_layers v1 !! O = Some (SignedInterest o rs)) by exact El. clearbody v1.
  erewrite bindP_run by exact E1. rewrite Et. erewrite bindP_run by reflexivity. cbn zeta. rewrite En. erewrite bindP_run by reflexivity.
  erewrite bindP_run by reflexivity. rewrite El1. destruct (negb (passes _ _ _ _ _ _)).
  { left. apply bindP_none. by apply fail_again. }
  right. destruct (negb (maxRecordCount o =? 0)).
  - eexists. split; [erewrite bindP_run by reflexivity; reflexivity|]. eexists. cbn. rewrite list_lookup_alter_eq, Es1. done.
  - exists v1. split; [by erewrite bindP_run by reflexivity|]. by exists s'.
Qed.

(** The policy for signed Interests does not look at the outcome after it
    has looked for the name of the key.  An Interest whose signature has no
    key locator is rejected there, and is then rejected again, or accepted,
    by the checks that follow or by the inner policy: both callbacks can be
    called for one validation, and the assertion that the outcome is open
    fails. *)
Theorem signed_interest_double_failure v i si o rs ts n :
  m_layers v = [SignedInterest o rs] -> Interest.getSignatureInfo i = Ok (Some si) -> keyless si ->
  SignatureInfo.getTime si = Ok ts -> SignatureInfo.getSeqNum si = Ok n ->
  validateInterest autoCheck canBePrefix i v = None.
Proof.
  intros El Ei Hk Et En. rewrite (validate_fresh i (Some si) v Ei). set (id := length (m_states v)). set (w := with_states _ v).
  assert (Es : m_states w !! id = Some (fresh_state i (Some si))) by (subst w id; cbn; by rewrite lookup_app_r, Nat.sub_diag).
  assert (El1 : m_layers w !! O = Some (SignedInterest o rs)) by (change (m_layers w) with (m_layers v); by rewrite El).
  unfold releasing. match goal with |- match ?x with _ => _ end = None => assert (Hx : x = None); [|by rewrite Hx] end.
  unfold checkPolicy. erewrite bindP_run by reflexivity. change (m_layers w) with (m_layers v). rewrite El. cbn [checkLayers].
  unfold SignedInterest_checkPolicy. erewrite bindP_run by exact (getState_run id w _ Es). erewrite bindP_run by reflexivity.
  assert (Hff : hasFailed id w = Some (w, Ok false)) by (unfold hasFailed; by erewrite bindP_run by exact (getState_run id w _ Es)).
  erewrite bindP_run by exact Hff. cbn match.
  destruct (checkIncoming_again o rs i si id w ts n El1 Es Ei Hk Et En) as [E|(v' & E & s & Es' & Eo & Ef)]; [by apply bindP_none|].
  erewrite bindP_run by exact E. apply (base_again (m_base w) i si id v' Hk Ei); [by exists s|by exists s].
Qed.

End commands.
End ValidationFacts.

(** ** A concrete world

    Signatures that repeat the key, and a digest of the first octets. *)

Module ValidationSamples.
Import Validator ValidationFacts.

#[local] Instance toy_clock : PosixTime := {|
  to_iso_string us := be_bytes 15 us;
  from_iso_string s := if len s =? 15 then Ok (be_number s) else Throw (BadCast "date");
|}.

#[local] Instance toy_files : Files := {| load _ _ := None; directory _ _ := None |}.

#[local] Instance toy_crypto : Crypto := {|
  PublicKey := bytes;
  loadPkcs8 := Some;
  verifierFilter _ key _ _ sig := Some (bool_decide (sig = key));
  sha256 x := take 32 (x ++ replicate 32 (z2b 0));
|}.

Definition word (s : string) : Component.t := Block.of_tlv 8 (str s).
Definition name_of (l : list Component.t) : Name.t := fold_left (fun n c => Name.append c n) l Name.empty.

(** The names of a root key and of a user's key. *)
Definition root_key : Name.t := name_of [word "A"; word "KEY"; word "root"].
Definition user_key : Name.t := name_of [word "A"; word "KEY"; word "user"].

Definition validity : Block.t :=
  match ValidityPeriod.wireEncode (ValidityPeriod.ofPeriod 0 1000000000000000) with (_, Ok b) => b | _ => Block.empty end.

(** A certificate of a key, signed with another. *)
Definition certificate (key : list string) (bits : string) (signer : Name.t) (sig : string) : Certificate.t :=
  Data.mk (name_of (word <$> (key ++ ["issuer"; "1"]))) (MetaInfo.mk 2 1000 None [] Block.empty) (Block.ofTypeValue tlv.Content (str bits))
    (SignatureInfo.mk 1 (Some (KeyLocator.ofName signer)) [validity] Block.empty) (Block.ofTypeValue tlv.SignatureValue (str sig)) Block.empty Name.empty.

Definition root_cert : Certificate.t := certificate ["A"; "KEY"; "root"] "R" root_key "R".
Definition user_cert : Certificate.t := certificate ["A"; "KEY"; "user"] "U" root_key "R".

(** A command of the user, with the time in milliseconds. *)
Definition command (ms : Z) : Interest.t :=
  let i := Interest.with_nonce (Some (str "wxyz")) (Interest.with_name (name_of [word "A"; word "do"]) Interest.init) in
  match exec (SignatureInfo.setTime (Some ms)) (SignatureInfo.make 1 (Some (KeyLocator.ofName user_key))) with
  | Ok si =>
      match exec (_ ← Interest.setSignatureInfo sha256 si; Interest.setSignatureValue sha256 (Some (str "U"))) i with
      | Ok i => i
      | Throw _ => i
      end
  | Throw _ => i
  end.

Definition options : CommandOptions := mkCommandOptions 120000000000 1000 3600000000000.

Definition run (x : input) (v : t) : t := match perform true None x v with Some (v', _) => v' | None => v end.

Definition start : t := init [makeCommandInterest options] SimpleHierarchy FromNetwork 60000000000 1000000000.

Definition v1 := run (LoadAnchor (str "g") root_cert) start.
Definition v2 := run (ValidateInterest (command 50000)) v1.
Definition v3 := run (ValidateInterest (command 40000)) v2.
Definition v4 := run (FetchedData 0 user_cert) v3.
Definition v5 := run (FetchedData 0 user_cert) v4.
Definition v6 := run (ValidateInterest (command 50000)) v5.

Notation reachable := (reachable true None (eq root_cert) SimpleHierarchy 1).
Notation trusted := (trusted true None (eq root_cert)).
Notation vouches := (vouches true None).
Notation allowed := (allowed (eq root_cert)).

Lemma no_files (now : Z) f c : load now f = Some c -> root_cert = c.
Proof. done. Qed.

Lemma run_reachable x v : reachable v -> allowed x v -> reachable (run x v).
Proof.
  intros Hr Hx. pose proof (reachable_holds true None _ _ _ no_files v Hr) as Hi.
  destruct (perform_total true None _ _ _ no_files x v Hi Hx) as (v' & r & E & _).
  apply (reachable_step _ _ _ _ _ x v (run x v) r Hr Hx). unfold run. by rewrite E.
Qed.

(** Whether the first request on the way is answered by a certificate. *)
Definition answered (d : Data.t) (v : t) : bool :=
  match m_fetching v !! O with
  | Some f => f_expressed f && match snd (Interest.matchesData sha256 (CertificateRequest.interest (f_request f)) d) with Ok b => b | Throw _ => false end
  | None => false
  end.

Lemma answered_allowed d v : answered d v = true -> allowed (FetchedData 0 d) v.
Proof.
  unfold answered, ValidationFacts.allowed, answers. destruct (m_fetching v !! O) as [f|]; [|done]. intros E. apply andb_true_iff in E as [E1 E2].
  exists f. split; [done|]. split; [done|]. by destruct (snd _) as [[]|].
Qed.

Lemma v3_answered : answered user_cert v3 = true.
Proof. by vm_compute. Qed.

Lemma v4_answered : answered user_cert v4 = true.
Proof. by vm_compute. Qed.

Lemma v1_reachable : reachable v1.
Proof. apply run_reachable; [|done]. constructor; [done|]. by constructor. Qed.

Lemma v3_reachable : reachable v3.
Proof. by do 2 (apply run_reachable; [|done]); apply v1_reachable. Qed.

Lemma v6_reachable : reachable v6.
Proof.
  apply run_reachable; [|done]. apply run_reachable; [|exact (answered_allowed _ _ v4_answered)].
  apply run_reachable; [|exact (answered_allowed _ _ v3_answered)]. apply v3_reachable.
Qed.

Lemma v3_open : m_outcome <$> m_states v3 !! O = Some None.
Proof. by vm_compute. Qed.

Lemma v6_events : m_events v6 = [Accepted 0 (Verified (Some user_cert)); Accepted 1 (Verified (Some user_cert)); Accepted 2 (Verified (Some user_cert))].
Proof. by vm_compute. Qed.

Lemma v6_packets : m_packet <$> m_states v6 = PInterest <$> [command 50000; command 40000; command 50000].
Proof. by vm_compute. Qed.

Lemma validator_answers_once_witness : evs 0 v3 = [] /\ length (reqs 0 v3) = 1%nat.
Proof.
  pose proof (validator_answers_once true None _ _ _ no_files v3 v3_reachable O) as Hv. pose proof v3_open as Ho.
  destruct (m_states v3 !! O) as [s|]; [|done]. cbn in Ho. apply Some_inj in Ho. by rewrite Ho in Hv.
Defined.


Lemma validator_progress_witness : exists v' r, perform true None (FetchedData 0 user_cert) v3 = Some (v', r) /\ reachable v'.
Proof. apply (validator_progress true None _ _ _ no_files v3 (FetchedData 0 user_cert) v3_reachable). exact (answered_allowed _ _ v3_answered). Defined.

(** While validations overlap, a command can be accepted twice: of two commands
    of one key, the one with time stamp 50000 is received before the one with
    time stamp 40000, and both pass the check of the time stamps while the
    certificate of the key is fetched; the record of the first is then overwritten
    by that of the second, and a replay of the first is accepted. *)
Theorem command_interest_accepted_twice : reachable v6 /\
  m_packet <$> m_states v6 = PInterest <$> [command 50000; command 40000; command 50000] /\
  m_events v6 = [Accepted 0 (Verified (Some user_cert)); Accepted 1 (Verified (Some user_cert)); Accepted 2 (Verified (Some user_cert))].
Proof. split; [exact v6_reachable|]. split; [exact v6_packets|exact v6_events]. Qed.

Definition si_of (i : Interest.t) : SignatureInfo.t := match Interest.getSignatureInfo i with Ok (Some si) => si | _ => SignatureInfo.make 0 None end.

(** The name of the key, as the command has it. *)
Definition command_key : Name.t := default Name.empty (locator_of (si_of (command 40000))).

(** A validator that has just accepted a command. *)
Definition after_command : t :=
  init [CommandInterest options (insertNewRecord 1000000000 command_key (time.fromUnixTimestamp 50000) [])] SimpleHierarchy FromNetwork 60000000000 1000000001.

Lemma command_signed : Interest.getSignatureInfo (command 40000) = Ok (Some (si_of (command 40000))) /\
  locator_of (si_of (command 40000)) = Some command_key /\ SignatureInfo.getTime (si_of (command 40000)) = Ok (Some 40000).
Proof. vm_compute. split_and!; reflexivity. Qed.

Lemma command_interest_replay_witness : exists v', validateInterest true None (command 40000) after_command = Some (v', Ok tt) /\
  m_events v' = [Rejected 0 ValidationError.POLICY_ERROR].
Proof.
  apply (command_interest_replay true None after_command (command 40000) options [] [] command_key (time.fromUnixTimestamp 50000) (time.fromUnixTimestamp 40000) 1000000000);
    [reflexivity|done|reflexivity| |vm_compute; discriminate].
  left. exists (si_of (command 40000)), 40000. destruct command_signed as (E1 & E2 & E3). exact (conj E1 (conj E2 (conj E3 eq_refl))).
Defined.

(** An Interest that is signed without a key locator. *)
Definition keyless_interest : Interest.t :=
  let i := Interest.with_nonce (Some (str "wxyz")) (Interest.with_name (name_of [word "A"; word "do"]) Interest.init) in
  match exec (_ ← Interest.setSignatureInfo sha256 (SignatureInfo.make 1 None); Interest.setSignatureValue sha256 (Some (str "U"))) i with
  | Ok i => i
  | Throw _ => i
  end.

(** A file that holds the root certificate until it is removed. *)
#[local] Instance removed_file : Files := {| load now _ := if now <? 10 then Some root_cert else None; directory _ _ := None |}.

Definition two_groups : TrustAnchors.t :=
  fst ((_ ← TrustAnchors.insert (str "static") root_cert; TrustAnchors.insertDynamic (H := removed_file) 1 (str "dynamic") (str "file") 5 false) TrustAnchors.init).

(** A static anchor does not stay: when a dynamic group has loaded the
    same certificate from a file, and the file is gone when the group is
    refreshed, the group takes the certificate out of the container, and the
    validator does not find it any more although the static group lists it. *)
Theorem static_anchor_removed :
  TrustAnchors.m_anchors two_groups = [root_cert] /\
  snd (TrustAnchors.findName (H := removed_file) 20 root_key two_groups) = Ok None /\
  TrustAnchors.m_anchorNames <$> TrustAnchors.getGroup (str "static") (fst (TrustAnchors.findName (H := removed_file) 20 root_key two_groups))
    = Ok [Data.m_name root_cert].
Proof. vm_compute. split_and!; reflexivity. Qed.

Lemma keyless_signed : Interest.getSignatureInfo keyless_interest = Ok (Some (si_of keyless_interest)) /\
  SignatureInfo.m_type (si_of keyless_interest) = 1 /\ SignatureInfo.m_keyLocator (si_of keyless_interest) = None /\
  SignatureInfo.getTime (si_of keyless_interest) = Ok None /\ SignatureInfo.getSeqNum (si_of keyless_interest) = Ok None.
Proof. vm_compute. split_and!; reflexivity. Qed.

Lemma signed_interest_double_failure_witness :
  validateInterest true None keyless_interest (init [makeSignedInterest (mkSignedOptions false 0 false false 0 0)] AcceptAll FromNetwork 0 0) = None.
Proof.
  destruct keyless_signed as (E1 & E2 & E3 & E4 & E5).
  eapply (signed_interest_double_failure true None _ keyless_interest (si_of keyless_interest)); [reflexivity|exact E1| |exact E4|exact E5].
  split; [by rewrite E2|exact E3].
Defined.

End ValidationSamples.
