(* ===== verification/Pib.v ===== *)
(** * The public information base

    Identities, their keys and the certificates of the keys.  The memory back
    end ([security/pib/impl/pib-memory.cpp]) holds them; on top of it, the
    containers and the shared objects that [Pib], [Identity] and [Key] hand out
    ([pib.cpp], [identity-container.cpp], [impl/identity-impl.cpp],
    [key-container.cpp], [impl/key-impl.cpp], [certificate-container.cpp]).

    A handle ([Identity], [Key]) is a weak pointer: the address of an object that
    lives as long as its container holds it, and whose use throws afterwards.
    The assertions of the source are kept: a call in which one fails is
    undefined. *)

From stdpp Require Import list gmap.
From S2P Require Import Prelude Tlv Encoding Blocks BlockHelpers Text NameComponents Names Fields DataPacket InterestPacket.
From S2P Require Import InMemoryStorage Announcements Certificates Signatures.

(** ** Containers with names as keys

    [std::set<Name>] and [std::map<Name, T>] take two names for the same key when
    neither is less than the other, that is, when the types and the values of
    their components are the same ([name_compare_order] of Names).  The name that
    was inserted first stays.  [std::unordered_map<Name, T>] compares with [==],
    which is the same, after it has hashed the octets of the names: equal names
    are taken to have equal octets, as they do unless one was received in a
    longer encoding than necessary. *)

Module NameMap.

Notation key := (list (Z * Z * Z)).
Definition key_of (n : Name.t) : key := NameFacts.keys n.

Notation nset := (gmap key Name.t).
Notation nmap A := (gmap key (Name.t * A)).

Definition insert (n : Name.t) (s : nset) : nset :=
  match s !! key_of n with Some _ => s | None => <[key_of n := n]> s end.

Definition find {A} (n : Name.t) (m : nmap A) : option A := snd <$> m !! key_of n.

(** [m[n] = a] *)
Definition assign {A} (n : Name.t) (a : A) (m : nmap A) : nmap A :=
  <[key_of n := (match m !! key_of n with Some (n', _) => n' | None => n end, a)]> m.

Definition erase {A} (n : Name.t) (m : gmap key A) : gmap key A := delete (key_of n) m.

(** [count(n) > 0] *)
Definition has {A} (n : Name.t) (m : gmap key A) : bool := bool_decide (is_Some (m !! key_of n)).

Definition names (s : nset) : list Name.t := (map_to_list s).*2.

(** The keys of a set or map. *)
Definition keyset {A} (m : gmap key A) : gset key := dom m.

(** [==] of two sets *)
Definition same (s s' : nset) : bool := bool_decide (keyset s = keyset s').

#[global] Arguments insert : simpl never.
#[global] Arguments find : simpl never.
#[global] Arguments assign : simpl never.
#[global] Arguments erase : simpl never.
#[global] Arguments has : simpl never.
#[global] Arguments keyset : simpl never.

End NameMap.

(** ** Names of keys *)

Module KeyName.

(** [ndn-cxx/security/pib/key.cpp:142-150] constructKeyName *)
Definition constructKeyName (identity : Name.t) (keyId : Component.t) : Name.t :=
  Name.append keyId (Name.append Certificate.KEY_COMPONENT identity).

(** [ndn-cxx/security/pib/key.cpp:152-157] isValidKeyName *)
Definition isValidKeyName (keyName : Name.t) : bool :=
  (Certificate.MIN_KEY_NAME_LENGTH <=? Name.size keyName) &&
  match Name.get (- Certificate.MIN_KEY_NAME_LENGTH) keyName with
  | Some c => Component.equals c Certificate.KEY_COMPONENT
  | None => false
  end.

(** [ndn-cxx/security/pib/key.cpp:159-168] extractIdentityFromKeyName *)
Definition extractIdentityFromKeyName (keyName : Name.t) : result Name.t :=
  _ ← throw_if (negb (isValidKeyName keyName)) (InvalidArgument "Key name does not respect the naming conventions");
  Name.getPrefix (- Certificate.MIN_KEY_NAME_LENGTH) keyName.

End KeyName.

(** ** The memory back end *)

Module PibMemory.
Import NameMap KeyName.

(** [ndn-cxx/security/pib/impl/pib-memory.hpp:152-156] PibMemory::keyConst *)
Record keyConst := mkKey { keyType : security.KeyType; keyBits : bytes }.

(** [ndn-cxx/security/pib/impl/pib-memory.hpp:138-166] PibMemory *)
Record t := mk {
  m_tpmLocator : bytes;
  m_hasDefaultIdentity : bool;
  m_defaultIdentity : Name.t;
  m_identities : nset;
  m_defaultKeys : nmap Name.t;
  m_keys : nmap keyConst;
  m_defaultCerts : nmap Name.t;
  m_certs : nmap Certificate.t;
}.

Definition with_tpmLocator x s := mk x (m_hasDefaultIdentity s) (m_defaultIdentity s) (m_identities s) (m_defaultKeys s) (m_keys s) (m_defaultCerts s) (m_certs s).
Definition with_default has x s := mk (m_tpmLocator s) has x (m_identities s) (m_defaultKeys s) (m_keys s) (m_defaultCerts s) (m_certs s).
Definition with_identities x s := mk (m_tpmLocator s) (m_hasDefaultIdentity s) (m_defaultIdentity s) x (m_defaultKeys s) (m_keys s) (m_defaultCerts s) (m_certs s).
Definition with_defaultKeys x s := mk (m_tpmLocator s) (m_hasDefaultIdentity s) (m_defaultIdentity s) (m_identities s) x (m_keys s) (m_defaultCerts s) (m_certs s).
Definition with_keys x s := mk (m_tpmLocator s) (m_hasDefaultIdentity s) (m_defaultIdentity s) (m_identities s) (m_defaultKeys s) x (m_defaultCerts s) (m_certs s).
Definition with_defaultCerts x s := mk (m_tpmLocator s) (m_hasDefaultIdentity s) (m_defaultIdentity s) (m_identities s) (m_defaultKeys s) (m_keys s) x (m_certs s).
Definition with_certs x s := mk (m_tpmLocator s) (m_hasDefaultIdentity s) (m_defaultIdentity s) (m_identities s) (m_defaultKeys s) (m_keys s) (m_defaultCerts s) x.

(** [ndn-cxx/security/pib/impl/pib-memory.cpp:32-35] PibMemory::PibMemory *)
Definition init : t := mk [] false Name.empty ∅ ∅ ∅ ∅ ∅.

(** [ndn-cxx/security/pib/impl/pib-memory.cpp:56-60] PibMemory::hasIdentity *)
Definition hasIdentity (identity : Name.t) (s : t) : bool := has identity (m_identities s).

(** [ndn-cxx/security/pib/impl/pib-memory.cpp:62-71] PibMemory::addIdentity *)
Definition addIdentity (identity : Name.t) (s : t) : t :=
  let s := with_identities (insert identity (m_identities s)) s in
  if m_hasDefaultIdentity s then s else with_default true identity s.

(** [ndn-cxx/security/pib/impl/pib-memory.cpp:100-104] PibMemory::getIdentities *)
Definition getIdentities (s : t) : nset := m_identities s.

(** [ndn-cxx/security/pib/impl/pib-memory.cpp:88-98] PibMemory::clearIdentities *)
Definition clearIdentities (s : t) : t := mk (m_tpmLocator s) false Name.empty ∅ ∅ ∅ ∅ ∅.

(** [ndn-cxx/security/pib/impl/pib-memory.cpp:106-114] PibMemory::setDefaultIdentity *)
Definition setDefaultIdentity (identityName : Name.t) : M t unit :=
  s ← self;
  _ ← throwM_if (negb (hasIdentity identityName s)) (PibError "Cannot set non-existing identity as default");
  modify (with_default true identityName).

(** [ndn-cxx/security/pib/impl/pib-memory.cpp:116-124] PibMemory::getDefaultIdentity *)
Definition getDefaultIdentity (s : t) : result Name.t :=
  if m_hasDefaultIdentity s then Ok (m_defaultIdentity s) else Throw (PibError "No default identity").

(** [ndn-cxx/security/pib/impl/pib-memory.cpp:126-130] PibMemory::hasKey *)
Definition hasKey (keyName : Name.t) (s : t) : bool := has keyName (m_keys s).

(** [ndn-cxx/security/pib/impl/pib-memory.cpp:134-146] PibMemory::addKey *)
Definition addKey (identity keyName : Name.t) (keyType : security.KeyType) (key : bytes) (s : t) : t :=
  let s := addIdentity identity s in
  let s := with_keys (assign keyName (mkKey keyType key) (m_keys s)) s in
  if has identity (m_defaultKeys s) then s else with_defaultKeys (assign identity keyName (m_defaultKeys s)) s.

(** [ndn-cxx/security/pib/impl/pib-memory.cpp:284-292] PibMemory::removeCertificate *)
Definition removeCertificate (certName : Name.t) : M t unit :=
  _ ← modify (fun s => with_certs (erase certName (m_certs s)) s);
  keyName ← liftR (Certificate.extractKeyNameFromCertName certName);
  modify (fun s =>
    match find keyName (m_defaultCerts s) with
    | Some defaultCert => if Name.equals defaultCert certName then with_defaultCerts (erase keyName (m_defaultCerts s)) s else s
    | None => s
    end).

(** [ndn-cxx/security/pib/impl/pib-memory.cpp:305-315] PibMemory::getCertificatesOfKey *)
Definition getCertificatesOfKey (keyName : Name.t) (s : t) : result nset :=
  map_fold (fun _ '(first, cert) r =>
    certNames ← r;
    k ← Certificate.extractKeyNameFromCertName (Data.m_name cert);
    Ok (if Name.equals k keyName then insert first certNames else certNames)) (Ok ∅) (m_certs s).

(** [ndn-cxx/security/pib/impl/pib-memory.cpp:162-174] PibMemory::removeKey *)
Definition removeKey (keyName : Name.t) : M t unit :=
  identity ← liftR (extractIdentityFromKeyName keyName);
  _ ← modify (fun s => with_keys (erase keyName (m_keys s)) s);
  _ ← modify (fun s => with_defaultKeys (erase identity (m_defaultKeys s)) s);
  s ← self;
  certNames ← liftR (getCertificatesOfKey keyName s);
  forM (names certNames) removeCertificate.

(** [ndn-cxx/security/pib/impl/pib-memory.cpp:176-192] PibMemory::getKeyBits *)
Definition getKeyBits (keyName : Name.t) (s : t) : result bytes :=
  match find keyName (m_keys s) with
  | Some k => Ok (keyBits k)
  | None => Throw (PibError "Key not found")
  end.

(** [ndn-cxx/security/pib/impl/pib-memory.cpp:197-209] PibMemory::getKeyType *)
Definition getKeyType (keyName : Name.t) (s : t) : result security.KeyType :=
  match find keyName (m_keys s) with
  | Some k => Ok (keyType k)
  | None => Throw (PibError "Key not found")
  end.

(** [ndn-cxx/security/pib/impl/pib-memory.cpp:214-224] PibMemory::getKeysOfIdentity *)
Definition getKeysOfIdentity (identity : Name.t) (s : t) : result nset :=
  map_fold (fun _ '(keyName, _) r =>
    ids ← r;
    i ← extractIdentityFromKeyName keyName;
    Ok (if Name.equals identity i then insert keyName ids else ids)) (Ok ∅) (m_keys s).

(** [ndn-cxx/security/pib/impl/pib-memory.cpp:73-86] PibMemory::removeIdentity *)
Definition removeIdentity (identity : Name.t) : M t unit :=
  _ ← modify (fun s => with_identities (erase identity (m_identities s)) s);
  _ ← modify (fun s => if Name.equals identity (m_defaultIdentity s) then with_default false Name.empty s else s);
  s ← self;
  keyNames ← liftR (getKeysOfIdentity identity s);
  forM (names keyNames) removeKey.

(** [ndn-cxx/security/pib/impl/pib-memory.cpp:226-234] PibMemory::setDefaultKeyOfIdentity *)
Definition setDefaultKeyOfIdentity (identity keyName : Name.t) : M t unit :=
  s ← self;
  _ ← throwM_if (negb (hasKey keyName s)) (PibError "Key not found");
  modify (fun s => with_defaultKeys (assign identity keyName (m_defaultKeys s)) s).

(** [ndn-cxx/security/pib/impl/pib-memory.cpp:236-245] PibMemory::getDefaultKeyOfIdentity *)
Definition getDefaultKeyOfIdentity (identity : Name.t) (s : t) : result Name.t :=
  match find identity (m_defaultKeys s) with
  | Some k => Ok k
  | None => Throw (PibError "No default key for identity")
  end.

(** [ndn-cxx/security/pib/impl/pib-memory.cpp:247-251] PibMemory::hasCertificate *)
Definition hasCertificate (certName : Name.t) (s : t) : bool := has certName (m_certs s).

(** [ndn-cxx/security/pib/impl/pib-memory.cpp:253-282] PibMemory::addCertificate
    The type of the key is the one that the certificate's signature asks for. *)
Definition addCertificate (certificate : Certificate.t) : M t unit :=
  let certName := Data.m_name certificate in
  keyName ← liftR (Certificate.getKeyName certificate);
  let content := Data.m_content certificate in
  let keyType := verification.keyTypeOf (SignatureInfo.m_type (Data.m_signatureInfo certificate)) in
  identity ← liftR (Certificate.getIdentity certificate);
  _ ← modify (addKey identity keyName keyType (Block.value content));
  _ ← modify (fun s => with_certs (assign certName certificate (m_certs s)) s);
  modify (fun s => if has keyName (m_defaultCerts s) then s else with_defaultCerts (assign keyName certName (m_defaultCerts s)) s).

(** [ndn-cxx/security/pib/impl/pib-memory.cpp:294-303] PibMemory::getCertificate *)
Definition getCertificate (certName : Name.t) (s : t) : result Certificate.t :=
  match find certName (m_certs s) with
  | Some c => Ok c
  | None => Throw (PibError "Certificate does not exist")
  end.

(** [ndn-cxx/security/pib/impl/pib-memory.cpp:317-325] PibMemory::setDefaultCertificateOfKey *)
Definition setDefaultCertificateOfKey (keyName certName : Name.t) : M t unit :=
  s ← self;
  _ ← throwM_if (negb (hasCertificate certName s)) (PibError "Certificate does not exist");
  modify (fun s => with_defaultCerts (assign keyName certName (m_defaultCerts s)) s).

(** [ndn-cxx/security/pib/impl/pib-memory.cpp:327-338] PibMemory::getDefaultCertificateOfKey
    [None]: the assertion fails. *)
Definition getDefaultCertificateOfKey (keyName : Name.t) (s : t) : option (result Certificate.t) :=
  match find keyName (m_defaultCerts s) with
  | None => Some (Throw (PibError "No default certificate for key"))
  | Some certName => match find certName (m_certs s) with Some c => Some (Ok c) | None => None end
  end.

End PibMemory.

(** ** The shared objects *)

Module Pib.
Import NameMap KeyName.

(** [ndn-cxx/security/pib/impl/key-impl.hpp:175-184] KeyImpl
    With the fields of its container ([security/pib/certificate-container.hpp]). *)
Record KeyImpl := mkKeyImpl {
  k_identity : Name.t;
  k_keyName : Name.t;
  k_key : bytes;
  k_keyType : security.KeyType;
  k_certNames : nset;
  k_certs : nmap Certificate.t;
  k_isDefaultCertificateLoaded : bool;
  k_defaultCertificate : Certificate.t;
}.

(** [ndn-cxx/security/pib/impl/identity-impl.hpp:139-145] IdentityImpl
    With the fields of its container ([security/pib/key-container.hpp]). *)
Record IdentityImpl := mkIdentityImpl {
  i_name : Name.t;
  i_keyNames : nset;
  i_keys : nmap nat;
  i_isDefaultKeyLoaded : bool;
  i_defaultKey : option nat;
}.

(** [ndn-cxx/security/pib/pib.hpp:167-175] Pib
    With the fields of its container ([security/pib/identity-container.hpp]), the
    back end, and the objects that are alive, by address. *)
Record t := mk {
  m_isDefaultIdentityLoaded : bool;
  m_defaultIdentity : option nat;
  m_identityNames : nset;
  m_identities : nmap nat;
  m_impl : PibMemory.t;
  h_identities : gmap nat IdentityImpl;
  h_keys : gmap nat KeyImpl;
  h_next : nat;
}.

Definition with_default loaded x s := mk loaded x (m_identityNames s) (m_identities s) (m_impl s) (h_identities s) (h_keys s) (h_next s).
Definition with_loaded loaded s := mk loaded (m_defaultIdentity s) (m_identityNames s) (m_identities s) (m_impl s) (h_identities s) (h_keys s) (h_next s).
Definition with_names x s := mk (m_isDefaultIdentityLoaded s) (m_defaultIdentity s) x (m_identities s) (m_impl s) (h_identities s) (h_keys s) (h_next s).
Definition with_identities x s := mk (m_isDefaultIdentityLoaded s) (m_defaultIdentity s) (m_identityNames s) x (m_impl s) (h_identities s) (h_keys s) (h_next s).
Definition with_impl x s := mk (m_isDefaultIdentityLoaded s) (m_defaultIdentity s) (m_identityNames s) (m_identities s) x (h_identities s) (h_keys s) (h_next s).
Definition with_objects x y n s := mk (m_isDefaultIdentityLoaded s) (m_defaultIdentity s) (m_identityNames s) (m_identities s) (m_impl s) x y n.

Definition with_certNames x k := mkKeyImpl (k_identity k) (k_keyName k) (k_key k) (k_keyType k) x (k_certs k) (k_isDefaultCertificateLoaded k) (k_defaultCertificate k).
Definition with_certs x k := mkKeyImpl (k_identity k) (k_keyName k) (k_key k) (k_keyType k) (k_certNames k) x (k_isDefaultCertificateLoaded k) (k_defaultCertificate k).
Definition with_certLoaded x k := mkKeyImpl (k_identity k) (k_keyName k) (k_key k) (k_keyType k) (k_certNames k) (k_certs k) x (k_defaultCertificate k).
Definition with_defaultCertificate x k := mkKeyImpl (k_identity k) (k_keyName k) (k_key k) (k_keyType k) (k_certNames k) (k_certs k) (k_isDefaultCertificateLoaded k) x.

Definition with_keyNames x i := mkIdentityImpl (i_name i) x (i_keys i) (i_isDefaultKeyLoaded i) (i_defaultKey i).
Definition with_keys x i := mkIdentityImpl (i_name i) (i_keyNames i) x (i_isDefaultKeyLoaded i) (i_defaultKey i).
Definition with_keyLoaded x i := mkIdentityImpl (i_name i) (i_keyNames i) (i_keys i) x (i_defaultKey i).
Definition with_defaultKey x i := mkIdentityImpl (i_name i) (i_keyNames i) (i_keys i) (i_isDefaultKeyLoaded i) x.

Notation P_ := (P t).

(** *** Objects and the back end *)

Definition impl {A} (m : M PibMemory.t A) : P_ A := zoomP m_impl with_impl m.
Definition ask {A} (f : PibMemory.t -> result A) : P_ A := s ← selfP; liftP (f (m_impl s)).

(** [BOOST_ASSERT] *)
Definition assertP (b : bool) : P_ unit := if b then mret tt else undefinedP.

(** A handle: no object, or the address of one. *)
Definition handle : Type := option nat.

(** [ndn-cxx/security/pib/identity.cpp:109-118] Identity::lock *)
Definition lockIdentity (h : handle) : P_ (nat * IdentityImpl) :=
  s ← selfP;
  match (a ← h; i ← h_identities s !! a; Some (a, i)) with
  | Some x => mret x
  | None => throwP (LogicError "Invalid Identity instance")
  end.

(** [ndn-cxx/security/pib/key.cpp:108-118] Key::lock *)
Definition lockKey (h : handle) : P_ (nat * KeyImpl) :=
  s ← selfP;
  match (a ← h; k ← h_keys s !! a; Some (a, k)) with
  | Some x => mret x
  | None => throwP (LogicError "Invalid key instance")
  end.

(** [ndn-cxx/security/pib/identity.cpp:104-107] Identity::operator bool *)
Definition isIdentity (h : handle) (s : t) : bool := match h with Some a => bool_decide (is_Some (h_identities s !! a)) | None => false end.

(** [ndn-cxx/security/pib/key.cpp:103-106] Key::operator bool *)
Definition isKey (h : handle) (s : t) : bool := match h with Some a => bool_decide (is_Some (h_keys s !! a)) | None => false end.

Definition setKey (a : nat) (f : KeyImpl -> KeyImpl) : P_ unit :=
  modifyP (fun s => with_objects (h_identities s) (alter f a (h_keys s)) (h_next s) s).
Definition setIdentity (a : nat) (f : IdentityImpl -> IdentityImpl) : P_ unit :=
  modifyP (fun s => with_objects (alter f a (h_identities s)) (h_keys s) (h_next s) s).

Definition getKey_ (a : nat) : P_ KeyImpl := s ← selfP; definedP (h_keys s !! a).
Definition getIdentity_ (a : nat) : P_ IdentityImpl := s ← selfP; definedP (h_identities s !! a).

Definition newKey (k : KeyImpl) : P_ nat := fun s =>
  Some (with_objects (h_identities s) (<[h_next s := k]> (h_keys s)) (S (h_next s)) s, Ok (h_next s)).
Definition newIdentity (i : IdentityImpl) : P_ nat := fun s =>
  Some (with_objects (<[h_next s := i]> (h_identities s)) (h_keys s) (S (h_next s)) s, Ok (h_next s)).

(** The last pointer to an object is gone. *)
Definition freeKey (o : option nat) : P_ unit :=
  modifyP (fun s => match o with Some a => with_objects (h_identities s) (delete a (h_keys s)) (h_next s) s | None => s end).

(** The addresses in a container. *)
Definition addresses (m : nmap nat) : list nat := (map_to_list m).*2.*2.

Definition freeIdentity (o : option nat) : P_ unit :=
  modifyP (fun s =>
    match o with
    | Some a =>
        let keys := match h_identities s !! a with Some i => addresses (i_keys i) | None => [] end in
        with_objects (delete a (h_identities s)) (foldr (fun k m => delete k m) (h_keys s) keys) (h_next s) s
    | None => s
    end).

(** *** Certificates of a key *)

(** [ndn-cxx/security/pib/certificate-container.cpp:158-162] CertificateContainer::isConsistent *)
Definition certsConsistent (k : KeyImpl) : P_ bool :=
  names ← ask (PibMemory.getCertificatesOfKey (k_keyName k)); mret (same (k_certNames k) names).

(** [ndn-cxx/security/pib/certificate-container.cpp:115-126] CertificateContainer::add *)
Definition CertificateContainer_add (a : nat) (certificate : Certificate.t) : P_ unit :=
  k ← getKey_ a;
  keyName ← liftP (Certificate.getKeyName certificate);
  if negb (Name.equals (k_keyName k) keyName) then throwP (InvalidArgument "Certificate name does not match key name")
  else
    let certName := Data.m_name certificate in
    _ ← setKey a (fun k => with_certNames (insert certName (k_certNames k)) k);
    _ ← setKey a (fun k => with_certs (assign certName certificate (k_certs k)) k);
    impl (PibMemory.addCertificate certificate).

(** Whether a name is the name of a certificate of the key. *)
Definition certOfKey (certName keyName : Name.t) : result bool :=
  if negb (Certificate.isValidName certName) then Ok false
  else k ← Certificate.extractKeyNameFromCertName certName; Ok (Name.equals k keyName).

(** [ndn-cxx/security/pib/certificate-container.cpp:128-139] CertificateContainer::remove *)
Definition CertificateContainer_remove (a : nat) (certName : Name.t) : P_ unit :=
  k ← getKey_ a;
  ok ← liftP (certOfKey certName (k_keyName k));
  if negb ok then throwP (InvalidArgument "Certificate name is invalid or does not match key name")
  else
    _ ← setKey a (fun k => with_certNames (erase certName (k_certNames k)) k);
    _ ← setKey a (fun k => with_certs (erase certName (k_certs k)) k);
    impl (PibMemory.removeCertificate certName).

(** [ndn-cxx/security/pib/certificate-container.cpp:141-156] CertificateContainer::get *)
Definition CertificateContainer_get (a : nat) (certName : Name.t) : P_ Certificate.t :=
  k ← getKey_ a;
  match find certName (k_certs k) with
  | Some c => mret c
  | None =>
      ok ← liftP (certOfKey certName (k_keyName k));
      if negb ok then throwP (InvalidArgument "Certificate name is invalid or does not match key name")
      else
        c ← ask (PibMemory.getCertificate certName);
        _ ← setKey a (fun k => with_certs (assign certName c (k_certs k)) k);
        mret c
  end.

(** [BOOST_ASSERT(m_certificates.isConsistent());] *)
Definition assertCerts (a : nat) : P_ unit := k ← getKey_ a; ok ← certsConsistent k; assertP ok.

(** [ndn-cxx/security/pib/impl/key-impl.cpp:110-115] KeyImpl::addCertificate *)
Definition KeyImpl_addCertificate (a : nat) (certificate : Certificate.t) : P_ unit :=
  _ ← assertCerts a; CertificateContainer_add a certificate.

(** [ndn-cxx/security/pib/impl/key-impl.cpp:117-126] KeyImpl::removeCertificate *)
Definition KeyImpl_removeCertificate (a : nat) (certName : Name.t) : P_ unit :=
  _ ← assertCerts a;
  _ ← setKey a (fun k => if k_isDefaultCertificateLoaded k && Name.equals (Data.m_name (k_defaultCertificate k)) certName then with_certLoaded false k else k);
  CertificateContainer_remove a certName.

(** [ndn-cxx/security/pib/impl/key-impl.cpp:128-133] KeyImpl::getCertificate *)
Definition KeyImpl_getCertificate (a : nat) (certName : Name.t) : P_ Certificate.t :=
  _ ← assertCerts a; CertificateContainer_get a certName.

(** [ndn-cxx/security/pib/impl/key-impl.cpp:142-151] KeyImpl::setDefaultCertificate(const Name&) *)
Definition KeyImpl_setDefaultCertificate (a : nat) (certName : Name.t) : P_ Certificate.t :=
  _ ← assertCerts a;
  c ← CertificateContainer_get a certName;
  _ ← setKey a (with_defaultCertificate c);
  k ← getKey_ a;
  _ ← impl (PibMemory.setDefaultCertificateOfKey (k_keyName k) certName);
  _ ← setKey a (with_certLoaded true);
  mret c.

(** [ndn-cxx/security/pib/impl/key-impl.cpp:153-158] KeyImpl::setDefaultCertificate(const Certificate&) *)
Definition KeyImpl_setDefaultCertificateNew (a : nat) (certificate : Certificate.t) : P_ Certificate.t :=
  _ ← KeyImpl_addCertificate a certificate; KeyImpl_setDefaultCertificate a (Data.m_name certificate).

(** [m_pib->getDefaultCertificateOfKey(keyName)] *)
Definition askDefaultCertificate (keyName : Name.t) : P_ Certificate.t :=
  s ← selfP; r ← definedP (PibMemory.getDefaultCertificateOfKey keyName (m_impl s)); liftP r.

(** [wireEncode() ==] of two certificates *)
Definition sameWire (c d : Certificate.t) : result bool :=
  x ← snd (Data.wireEncode c); y ← snd (Data.wireEncode d); Ok (Block.eqb x y).

(** [ndn-cxx/security/pib/impl/key-impl.cpp:160-172] KeyImpl::getDefaultCertificate *)
Definition KeyImpl_getDefaultCertificate (a : nat) : P_ Certificate.t :=
  _ ← assertCerts a;
  k ← getKey_ a;
  _ ← (if k_isDefaultCertificateLoaded k then mret tt
       else c ← askDefaultCertificate (k_keyName k);
            _ ← setKey a (with_defaultCertificate c);
            setKey a (with_certLoaded true));
  k ← getKey_ a;
  c ← askDefaultCertificate (k_keyName k);
  ok ← liftP (sameWire c (k_defaultCertificate k));
  _ ← assertP ok;
  mret (k_defaultCertificate k).

(** *** Keys of an identity *)

Section keys.
Context `{Crypto} (publicKeyType : PublicKey -> security.KeyType).

(** The members that do not depend on the bits of the key. *)
Definition KeyImpl_members (keyName : Name.t) (k : Name.t -> nset -> P_ nat) : P_ nat :=
  identity ← liftP (extractIdentityFromKeyName keyName);
  certNames ← ask (PibMemory.getCertificatesOfKey keyName);
  k identity certNames.

(** [ndn-cxx/security/pib/impl/key-impl.cpp:35-60] KeyImpl::KeyImpl(const Name&, span, KeyType, shared_ptr<PibImpl>) *)
Definition KeyImpl_create (keyName : Name.t) (key : bytes) (keyType : security.KeyType) : P_ nat :=
  KeyImpl_members keyName (fun identity certNames =>
    match loadPkcs8 key with
    | None => throwP (InvalidArgument "Invalid key bits")
    | Some publicKey =>
        let m_keyType := match keyType with security.NONE => publicKeyType publicKey | _ => keyType end in
        _ ← impl (modify (PibMemory.addKey identity keyName m_keyType key));
        newKey (mkKeyImpl identity keyName key m_keyType certNames ∅ false (Data.ofName Name.empty))
    end).

(** [ndn-cxx/security/pib/impl/key-impl.cpp:87-108] KeyImpl::KeyImpl(const Name&, shared_ptr<PibImpl>) *)
Definition KeyImpl_load (keyName : Name.t) : P_ nat :=
  KeyImpl_members keyName (fun identity certNames =>
    key ← ask (PibMemory.getKeyBits keyName);
    keyType ← ask (PibMemory.getKeyType keyName);
    newKey (mkKeyImpl identity keyName key keyType certNames ∅ false (Data.ofName Name.empty))).

(** [ndn-cxx/security/pib/key-container.cpp:182-186] KeyContainer::isConsistent *)
Definition keysConsistent (i : IdentityImpl) : P_ bool :=
  names ← ask (PibMemory.getKeysOfIdentity (i_name i)); mret (same (i_keyNames i) names).

(** The test that begins [add], [remove] and [get]. *)
Definition matchesIdentity (i : IdentityImpl) (keyName : Name.t) : P_ unit :=
  identity ← liftP (extractIdentityFromKeyName keyName);
  if Name.equals (i_name i) identity then mret tt else throwP (InvalidArgument "Key name does not match identity").

(** [ndn-cxx/security/pib/key-container.cpp:160-180] KeyContainer::get *)
Definition KeyContainer_get (a : nat) (keyName : Name.t) : P_ handle :=
  i ← getIdentity_ a;
  _ ← matchesIdentity i keyName;
  match find keyName (i_keys i) with
  | Some k => mret (Some k)
  | None =>
      k ← KeyImpl_load keyName;
      _ ← setIdentity a (fun i => with_keys (assign keyName k (i_keys i)) i);
      mret (Some k)
  end.

(** [ndn-cxx/security/pib/key-container.cpp:119-130] KeyContainer::add
    The object that had the name is destroyed. *)
Definition KeyContainer_add (a : nat) (key : bytes) (keyName : Name.t) (keyType : security.KeyType) : P_ handle :=
  i ← getIdentity_ a;
  _ ← matchesIdentity i keyName;
  _ ← setIdentity a (fun i => with_keyNames (insert keyName (i_keyNames i)) i);
  k ← KeyImpl_create keyName key keyType;
  _ ← freeKey (find keyName (i_keys i));
  _ ← setIdentity a (fun i => with_keys (assign keyName k (i_keys i)) i);
  KeyContainer_get a keyName.

(** [ndn-cxx/security/pib/key-container.cpp:147-158] KeyContainer::remove *)
Definition KeyContainer_remove (a : nat) (keyName : Name.t) : P_ unit :=
  i ← getIdentity_ a;
  _ ← matchesIdentity i keyName;
  _ ← setIdentity a (fun i => with_keyNames (erase keyName (i_keyNames i)) i);
  _ ← freeKey (find keyName (i_keys i));
  _ ← setIdentity a (fun i => with_keys (erase keyName (i_keys i)) i);
  impl (PibMemory.removeKey keyName).

(** [BOOST_ASSERT(m_keys.isConsistent());] *)
Definition assertKeys (a : nat) : P_ unit := i ← getIdentity_ a; ok ← keysConsistent i; assertP ok.

(** [m_defaultKey.getName()] *)
Definition defaultKeyName (i : IdentityImpl) : P_ Name.t := '(_, k) ← lockKey (i_defaultKey i); mret (k_keyName k).

(** [ndn-cxx/security/pib/impl/identity-impl.cpp:52-57] IdentityImpl::addKey *)
Definition IdentityImpl_addKey (a : nat) (key : bytes) (keyName : Name.t) (keyType : security.KeyType) : P_ handle :=
  _ ← assertKeys a; KeyContainer_add a key keyName keyType.

(** [ndn-cxx/security/pib/impl/identity-impl.cpp:67-76] IdentityImpl::removeKey *)
Definition IdentityImpl_removeKey (a : nat) (keyName : Name.t) : P_ unit :=
  _ ← assertKeys a;
  i ← getIdentity_ a;
  _ ← (if i_isDefaultKeyLoaded i
       then n ← defaultKeyName i; if Name.equals n keyName then setIdentity a (with_keyLoaded false) else mret tt
       else mret tt);
  KeyContainer_remove a keyName.

(** [ndn-cxx/security/pib/impl/identity-impl.cpp:78-83] IdentityImpl::getKey *)
Definition IdentityImpl_getKey (a : nat) (keyName : Name.t) : P_ handle :=
  _ ← assertKeys a; KeyContainer_get a keyName.

(** [ndn-cxx/security/pib/impl/identity-impl.cpp:92-101] IdentityImpl::setDefaultKey(const Name&) *)
Definition IdentityImpl_setDefaultKey (a : nat) (keyName : Name.t) : P_ handle :=
  _ ← assertKeys a;
  k ← KeyContainer_get a keyName;
  _ ← setIdentity a (with_defaultKey k);
  _ ← setIdentity a (with_keyLoaded true);
  i ← getIdentity_ a;
  _ ← impl (PibMemory.setDefaultKeyOfIdentity (i_name i) keyName);
  mret k.

(** [ndn-cxx/security/pib/impl/identity-impl.cpp:108-113] IdentityImpl::setDefaultKey(span, const Name&, KeyType) *)
Definition IdentityImpl_setDefaultKeyNew (a : nat) (key : bytes) (keyName : Name.t) (keyType : security.KeyType) : P_ handle :=
  _ ← IdentityImpl_addKey a key keyName keyType; IdentityImpl_setDefaultKey a keyName.

(** [ndn-cxx/security/pib/impl/identity-impl.cpp:123-135] IdentityImpl::getDefaultKey *)
Definition IdentityImpl_getDefaultKey (a : nat) : P_ handle :=
  _ ← assertKeys a;
  i ← getIdentity_ a;
  _ ← (if i_isDefaultKeyLoaded i then mret tt
       else n ← ask (PibMemory.getDefaultKeyOfIdentity (i_name i));
            k ← KeyContainer_get a n;
            _ ← setIdentity a (with_defaultKey k);
            setIdentity a (with_keyLoaded true));
  i ← getIdentity_ a;
  n ← ask (PibMemory.getDefaultKeyOfIdentity (i_name i));
  m ← defaultKeyName i;
  _ ← assertP (Name.equals n m);
  mret (i_defaultKey i).

(** *** Identities *)

(** [ndn-cxx/security/pib/impl/identity-impl.cpp:31-45] IdentityImpl::IdentityImpl *)
Definition IdentityImpl_make (identityName : Name.t) (needInit : bool) : P_ nat :=
  keyNames ← ask (PibMemory.getKeysOfIdentity identityName);
  _ ← (if needInit then impl (modify (PibMemory.addIdentity identityName))
       else s ← selfP; if PibMemory.hasIdentity identityName (m_impl s) then mret tt else throwP (PibError "Identity does not exist"));
  newIdentity (mkIdentityImpl identityName keyNames ∅ false None).

(** [ndn-cxx/security/pib/identity-container.cpp:132-146] IdentityContainer::get *)
Definition IdentityContainer_get (identityName : Name.t) : P_ handle :=
  s ← selfP;
  match find identityName (m_identities s) with
  | Some a => mret (Some a)
  | None =>
      a ← IdentityImpl_make identityName false;
      _ ← modifyP (fun s => with_identities (assign identityName a (m_identities s)) s);
      mret (Some a)
  end.

(** [ndn-cxx/security/pib/identity-container.cpp:114-122] IdentityContainer::add *)
Definition IdentityContainer_add (identityName : Name.t) : P_ handle :=
  s ← selfP;
  _ ← (if has identityName (m_identityNames s) then mret tt
       else
         _ ← modifyP (fun s => with_names (insert identityName (m_identityNames s)) s);
         a ← IdentityImpl_make identityName true;
         _ ← freeIdentity (find identityName (m_identities s));
         modifyP (fun s => with_identities (assign identityName a (m_identities s)) s));
  IdentityContainer_get identityName.

(** [ndn-cxx/security/pib/identity-container.cpp:124-130] IdentityContainer::remove *)
Definition IdentityContainer_remove (identityName : Name.t) : P_ unit :=
  s ← selfP;
  _ ← modifyP (fun s => with_names (erase identityName (m_identityNames s)) s);
  _ ← freeIdentity (find identityName (m_identities s));
  _ ← modifyP (fun s => with_identities (erase identityName (m_identities s)) s);
  impl (PibMemory.removeIdentity identityName).

(** [ndn-cxx/security/pib/identity-container.cpp:148-153] IdentityContainer::reset *)
Definition IdentityContainer_reset : P_ unit :=
  _ ← modifyP (fun s => with_identities ∅ (with_objects ∅ ∅ (h_next s) s));
  modifyP (fun s => with_names (PibMemory.getIdentities (m_impl s)) s).

(** [ndn-cxx/security/pib/identity-container.cpp:155-159] IdentityContainer::isConsistent *)
Definition isConsistent (s : t) : bool := same (m_identityNames s) (PibMemory.getIdentities (m_impl s)).

(** [BOOST_ASSERT(m_identities.isConsistent());] *)
Definition assertIdentities : P_ unit := s ← selfP; assertP (isConsistent s).

(** [ndn-cxx/security/pib/pib.cpp:32-40] Pib::Pib
    [ndn-cxx/security/pib/identity-container.cpp:83-88] IdentityContainer::IdentityContainer *)
Definition make (i : PibMemory.t) : t := mk false None (PibMemory.getIdentities i) ∅ i ∅ ∅ 0.

(** [ndn-cxx/security/pib/pib.cpp:70-77] Pib::reset *)
Definition reset : P_ unit :=
  _ ← impl (modify PibMemory.clearIdentities);
  _ ← impl (modify (PibMemory.with_tpmLocator []));
  _ ← modifyP (with_loaded false);
  IdentityContainer_reset.

(** [ndn-cxx/security/pib/pib.cpp:50-58] Pib::setTpmLocator *)
Definition setTpmLocator (tpmLocator : bytes) : P_ unit :=
  s ← selfP;
  if bool_decide (tpmLocator = PibMemory.m_tpmLocator (m_impl s)) then mret tt
  else _ ← reset; impl (modify (PibMemory.with_tpmLocator tpmLocator)).

(** [ndn-cxx/security/pib/pib.cpp:60-68] Pib::getTpmLocator *)
Definition getTpmLocator (s : t) : result bytes :=
  let tpmLocator := PibMemory.m_tpmLocator (m_impl s) in
  _ ← throw_if (bool_decide (tpmLocator = [])) (PibError "TPM info does not exist"); Ok tpmLocator.

(** [ndn-cxx/security/pib/pib.cpp:79-85] Pib::addIdentity *)
Definition addIdentity (identity : Name.t) : P_ handle := _ ← assertIdentities; IdentityContainer_add identity.

(** [m_defaultIdentity.getName()] *)
Definition defaultIdentityName : P_ Name.t := s ← selfP; '(_, i) ← lockIdentity (m_defaultIdentity s); mret (i_name i).

(** [ndn-cxx/security/pib/pib.cpp:87-97] Pib::removeIdentity *)
Definition removeIdentity (identity : Name.t) : P_ unit :=
  _ ← assertIdentities;
  s ← selfP;
  _ ← (if m_isDefaultIdentityLoaded s
       then n ← defaultIdentityName; if Name.equals n identity then modifyP (with_loaded false) else mret tt
       else mret tt);
  IdentityContainer_remove identity.

(** [ndn-cxx/security/pib/pib.cpp:99-105] Pib::getIdentity *)
Definition getIdentity (identity : Name.t) : P_ handle := _ ← assertIdentities; IdentityContainer_get identity.

(** [ndn-cxx/security/pib/pib.cpp:115-126] Pib::setDefaultIdentity *)
Definition setDefaultIdentity (identityName : Name.t) : P_ handle :=
  _ ← assertIdentities;
  a ← IdentityContainer_add identityName;
  _ ← modifyP (with_default true a);
  _ ← impl (PibMemory.setDefaultIdentity identityName);
  mret a.

(** [ndn-cxx/security/pib/pib.cpp:128-142] Pib::getDefaultIdentity *)
Definition getDefaultIdentity : P_ handle :=
  _ ← assertIdentities;
  s ← selfP;
  _ ← (if m_isDefaultIdentityLoaded s then mret tt
       else n ← ask PibMemory.getDefaultIdentity;
            a ← IdentityContainer_get n;
            modifyP (with_default true a));
  n ← ask PibMemory.getDefaultIdentity;
  m ← defaultIdentityName;
  _ ← assertP (Name.equals n m);
  s ← selfP;
  mret (m_defaultIdentity s).

(** *** The handles *)

Definition onKey {A} (h : handle) (m : nat -> P_ A) : P_ A := '(a, _) ← lockKey h; m a.
Definition onIdentity {A} (h : handle) (m : nat -> P_ A) : P_ A := '(a, _) ← lockIdentity h; m a.

(** [ndn-cxx/security/pib/key.cpp:37-41] Key::getName *)
Definition Key_getName (h : handle) : P_ Name.t := '(_, k) ← lockKey h; mret (k_keyName k).
(** [ndn-cxx/security/pib/key.cpp:43-47] Key::getIdentity *)
Definition Key_getIdentity (h : handle) : P_ Name.t := '(_, k) ← lockKey h; mret (k_identity k).
(** [ndn-cxx/security/pib/key.cpp:49-53] Key::getKeyType *)
Definition Key_getKeyType (h : handle) : P_ security.KeyType := '(_, k) ← lockKey h; mret (k_keyType k).
(** [ndn-cxx/security/pib/key.cpp:55-59] Key::getPublicKey *)
Definition Key_getPublicKey (h : handle) : P_ bytes := '(_, k) ← lockKey h; mret (k_key k).
(** [ndn-cxx/security/pib/key.cpp:61-65] Key::addCertificate *)
Definition Key_addCertificate (h : handle) (certificate : Certificate.t) : P_ unit := onKey h (fun a => KeyImpl_addCertificate a certificate).
(** [ndn-cxx/security/pib/key.cpp:67-71] Key::removeCertificate *)
Definition Key_removeCertificate (h : handle) (certName : Name.t) : P_ unit := onKey h (fun a => KeyImpl_removeCertificate a certName).
(** [ndn-cxx/security/pib/key.cpp:73-77] Key::getCertificate *)
Definition Key_getCertificate (h : handle) (certName : Name.t) : P_ Certificate.t := onKey h (fun a => KeyImpl_getCertificate a certName).
(** [ndn-cxx/security/pib/key.cpp:85-89] Key::setDefaultCertificate(const Name&) *)
Definition Key_setDefaultCertificate (h : handle) (certName : Name.t) : P_ Certificate.t := onKey h (fun a => KeyImpl_setDefaultCertificate a certName).
(** [ndn-cxx/security/pib/key.cpp:91-95] Key::setDefaultCertificate(const Certificate&) *)
Definition Key_setDefaultCertificateNew (h : handle) (c : Certificate.t) : P_ Certificate.t := onKey h (fun a => KeyImpl_setDefaultCertificateNew a c).
(** [ndn-cxx/security/pib/key.cpp:97-101] Key::getDefaultCertificate *)
Definition Key_getDefaultCertificate (h : handle) : P_ Certificate.t := onKey h KeyImpl_getDefaultCertificate.

(** [ndn-cxx/security/pib/identity.cpp:36-40] Identity::getName *)
Definition Identity_getName (h : handle) : P_ Name.t := '(_, i) ← lockIdentity h; mret (i_name i).
(** [ndn-cxx/security/pib/identity.cpp:45-49] Identity::addKey *)
Definition Identity_addKey (h : handle) (key : bytes) (keyName : Name.t) (keyType : security.KeyType) : P_ handle :=
  onIdentity h (fun a => IdentityImpl_addKey a key keyName keyType).
(** [ndn-cxx/security/pib/identity.cpp:58-62] Identity::removeKey *)
Definition Identity_removeKey (h : handle) (keyName : Name.t) : P_ unit := onIdentity h (fun a => IdentityImpl_removeKey a keyName).
(** [ndn-cxx/security/pib/identity.cpp:64-68] Identity::getKey *)
Definition Identity_getKey (h : handle) (keyName : Name.t) : P_ handle := onIdentity h (fun a => IdentityImpl_getKey a keyName).
(** [ndn-cxx/security/pib/identity.cpp:76-80] Identity::setDefaultKey(const Name&) *)
Definition Identity_setDefaultKey (h : handle) (keyName : Name.t) : P_ handle := onIdentity h (fun a => IdentityImpl_setDefaultKey a keyName).
(** [ndn-cxx/security/pib/identity.cpp:85-89] Identity::setDefaultKey(span, const Name&, KeyType) *)
Definition Identity_setDefaultKeyNew (h : handle) (key : bytes) (keyName : Name.t) (keyType : security.KeyType) : P_ handle :=
  onIdentity h (fun a => IdentityImpl_setDefaultKeyNew a key keyName keyType).
(** [ndn-cxx/security/pib/identity.cpp:98-102] Identity::getDefaultKey *)
Definition Identity_getDefaultKey (h : handle) : P_ handle := onIdentity h IdentityImpl_getDefaultKey.

(** [ndn-cxx/security/pib/identity.cpp:70-74] Identity::getKeys
    [ndn-cxx/security/pib/impl/identity-impl.cpp:85-90] IdentityImpl::getKeys
    The names of the keys, and the handle of each as the iterator gives it. *)
Definition Identity_getKeys (h : handle) : P_ (list Name.t) :=
  '(a, i) ← lockIdentity h; _ ← assertKeys a; mret (names (i_keyNames i)).

End keys.
End Pib.
