(* ===== verification/PibFacts.v ===== *)
(** * What the public information base guarantees

    The memory back end keeps its tables together: every key has its identity,
    every certificate its key, and every default exists and belongs to what it
    is the default of, since the containers and handles of the front end make
    only calls that respect this. *)

From stdpp Require Import list gmap.
From S2P Require Import Prelude Tlv Encoding Blocks BlockHelpers Text NameComponents Names Fields DataPacket InterestPacket.
From S2P Require Import InMemoryStorage Announcements Certificates Signatures Pib.

(** ** Names as paths

    What the tables see of a name are the types and values of its components.
    An identity is the parent of its keys, and a key of its certificates. *)

Module PibFacts.
Import NameMap KeyName NameFacts.

Definition parent (k : key) : key := take (length k - 2) k.

Definition KEY : Z * Z * Z := ComponentFacts.key Certificate.KEY_COMPONENT.

Definition valid_key (k : key) : Prop := (2 <= length k)%nat /\ Z.of_nat (length k) < 2 ^ 62 /\ k !! (length k - 2)%nat = Some KEY.
Definition valid_cert (k : key) : Prop := (4 <= length k)%nat /\ Z.of_nat (length k) < 2 ^ 62 /\ k !! (length k - 4)%nat = Some KEY.

Lemma valid_cert_key k : valid_cert k -> valid_key (parent k).
Proof.
  intros (Hl & Hs & Hk). unfold valid_key, parent. rewrite length_take. split; [lia|]. split; [lia|].
  rewrite lookup_take_lt by lia. by replace (min (length k - 2) (length k) - 2)%nat with (length k - 4)%nat by lia.
Qed.

Lemma size_key (n : Name.t) : Name.size n = Z.of_nat (length (key_of n)).
Proof. unfold key_of. by rewrite length_keys, size_len. Qed.

Lemma key_equals a b : Name.equals a b = bool_decide (key_of a = key_of b).
Proof. apply nequals_spec. Qed.

(** The component that must be [KEY]. *)
Lemma get_is_KEY m n : (m <= length (key_of n))%nat -> (0 < m)%nat ->
  match Name.get (- Z.of_nat m) n with Some c => Component.equals c Certificate.KEY_COMPONENT | None => false end = true
  <-> key_of n !! (length (key_of n) - m)%nat = Some KEY.
Proof.
  intros Hm H0. unfold Name.get. rewrite (proj2 (Z.ltb_lt (- Z.of_nat m) 0)) by lia. rewrite size_key.
  rewrite (proj2 (Z.ltb_ge _ 0)) by lia. replace (Z.to_nat (- Z.of_nat m + Z.of_nat (length (key_of n)))) with (length (key_of n) - m)%nat by lia.
  destruct (Name.components n !! (length (key_of n) - m)%nat) as [c|] eqn:E.
  - rewrite (keys_lookup _ _ _ E : key_of n !! _ = _), ComponentFacts.equals_spec, bool_decide_eq_true. unfold KEY. split; [intros E'; by rewrite E'|intros E'; by apply Some_inj in E'].
  - apply lookup_ge_None in E. unfold key_of in *. rewrite length_keys in *. lia.
Qed.

Lemma prefix_key m n : (0 < m <= length (key_of n))%nat -> Z.of_nat (length (key_of n)) < 2 ^ 62 ->
  exists r, Name.getPrefix (- Z.of_nat m) n = Ok r /\ key_of r = take (length (key_of n) - m) (key_of n).
Proof.
  intros Hm Hs. destruct (getPrefix_neg_spec (Z.of_nat m) n) as (r & Hr & Hc & _); [rewrite size_key; lia..|].
  exists r. split; [done|]. unfold key_of, keys. rewrite Hc, fmap_take. f_equal. rewrite size_key. unfold key_of, keys. lia.
Qed.

Lemma isValidKeyName_spec n : Z.of_nat (length (key_of n)) < 2 ^ 62 -> isValidKeyName n = true <-> valid_key (key_of n).
Proof.
  intros Hs. unfold isValidKeyName, valid_key. change (- Certificate.MIN_KEY_NAME_LENGTH) with (- Z.of_nat 2).
  rewrite andb_true_iff, Z.leb_le, size_key. change Certificate.MIN_KEY_NAME_LENGTH with 2. split.
  - intros [Hl Hg]. split; [lia|]. split; [done|]. apply get_is_KEY; [lia..|done].
  - intros (Hl & _ & Hg). split; [lia|]. apply get_is_KEY; [lia..|done].
Qed.

Lemma isValidName_spec n : Z.of_nat (length (key_of n)) < 2 ^ 62 -> Certificate.isValidName n = true <-> valid_cert (key_of n).
Proof.
  intros Hs. unfold Certificate.isValidName, valid_cert. change Certificate.KEY_COMPONENT_OFFSET with (- Z.of_nat 4).
  rewrite andb_true_iff, Z.leb_le, size_key. change Certificate.MIN_CERT_NAME_LENGTH with 4. split.
  - intros [Hl Hg]. split; [lia|]. split; [done|]. apply get_is_KEY; [lia..|done].
  - intros (Hl & _ & Hg). split; [lia|]. apply get_is_KEY; [lia..|done].
Qed.

Lemma extractIdentity_spec n : valid_key (key_of n) -> exists id, extractIdentityFromKeyName n = Ok id /\ key_of id = parent (key_of n).
Proof.
  intros Hv. pose proof Hv as (Hl & Hs & _). unfold extractIdentityFromKeyName, throw_if. rewrite (proj2 (isValidKeyName_spec n Hs) Hv).
  destruct (prefix_key 2 n) as (r & Hr & Hk); [lia|done|]. exists r. split; [exact Hr|exact Hk].
Qed.

Lemma extractKeyName_spec n : valid_cert (key_of n) -> exists kn, Certificate.extractKeyNameFromCertName n = Ok kn /\ key_of kn = parent (key_of n).
Proof.
  intros Hv. pose proof Hv as (Hl & Hs & _). unfold Certificate.extractKeyNameFromCertName, throw_if. rewrite (proj2 (isValidName_spec n Hs) Hv).
  destruct (prefix_key 2 n) as (r & Hr & Hk); [lia|done|]. exists r. split; [exact Hr|exact Hk].
Qed.

Lemma getKeyName_spec c : valid_cert (key_of (Data.m_name c)) -> exists kn, Certificate.getKeyName c = Ok kn /\ key_of kn = parent (key_of (Data.m_name c)).
Proof. intros (Hl & Hs & _). destruct (prefix_key 2 (Data.m_name c)) as (r & Hr & Hk); [lia|done|]. exists r. split; [exact Hr|exact Hk]. Qed.

Lemma getIdentity_spec c : valid_cert (key_of (Data.m_name c)) ->
  exists id, Certificate.getIdentity c = Ok id /\ key_of id = parent (parent (key_of (Data.m_name c))).
Proof.
  intros (Hl & Hs & _). destruct (prefix_key 4 (Data.m_name c)) as (r & Hr & Hk); [lia|done|]. exists r. split; [exact Hr|].
  rewrite Hk. unfold parent. rewrite length_take, take_take. f_equal. lia.
Qed.

Lemma extractCertIdentity_spec n : valid_cert (key_of n) -> exists id, Certificate.extractIdentityFromCertName n = Ok id /\ key_of id = parent (parent (key_of n)).
Proof.
  intros Hv. pose proof Hv as (Hl & Hs & _). unfold Certificate.extractIdentityFromCertName, throw_if. rewrite (proj2 (isValidName_spec n Hs) Hv).
  destruct (prefix_key 4 n) as (r & Hr & Hk); [lia|done|]. exists r. split; [exact Hr|]. rewrite Hk. unfold parent. rewrite length_take, take_take. f_equal. lia.
Qed.

(** ** Sets and maps *)

Lemma has_lookup {A} (n : Name.t) (m : gmap key A) : has n m = true <-> is_Some (m !! key_of n).
Proof. unfold has. by rewrite bool_decide_eq_true. Qed.

Lemma has_dom {A} (n : Name.t) (m : gmap key A) : has n m = true <-> key_of n ∈ keyset m.
Proof. rewrite has_lookup. unfold keyset. by rewrite elem_of_dom. Qed.

Lemma dom_insert_name (n : Name.t) (s : nset) : keyset (insert n s) = keyset s ∪ {[key_of n]}.
Proof.
  unfold insert. destruct (s !! key_of n) eqn:E; [apply elem_of_dom_2 in E; unfold keyset; set_solver|]. unfold keyset; rewrite dom_insert_L. set_solver.
Qed.

Lemma dom_assign {A} (n : Name.t) (a : A) (m : nmap A) : keyset (assign n a m) = keyset m ∪ {[key_of n]}.
Proof. unfold assign. unfold keyset; rewrite dom_insert_L. set_solver. Qed.

Lemma dom_erase {A} (n : Name.t) (m : gmap key A) : keyset (erase n m) = keyset m ∖ {[key_of n]}.
Proof. unfold erase, keyset. by rewrite dom_delete_L. Qed.

Lemma find_assign {A} (n : Name.t) (a : A) (m : nmap A) k : assign n a m !! k = if decide (k = key_of n) then Some (match m !! k with Some (n', _) => n' | None => n end, a) else m !! k.
Proof. unfold assign. destruct (decide (k = key_of n)) as [->|Hk]; [by rewrite lookup_insert_eq|by rewrite lookup_insert_ne]. Qed.

(** Each name is under its own key. *)
Definition filed (s : nset) : Prop := forall k n, s !! k = Some n -> key_of n = k.
Definition filed_map {A} (m : nmap A) : Prop := forall k n a, m !! k = Some (n, a) -> key_of n = k.

Lemma filed_insert (n : Name.t) s : filed s -> filed (insert n s).
Proof.
  intros Hs k m. unfold insert. destruct (s !! key_of n) eqn:E; [apply Hs|]. rewrite lookup_insert_Some. intros [[<- <-]|[_ Hm]]; [done|by apply Hs].
Qed.

Lemma filed_assign {A} (n : Name.t) (a : A) m : filed_map m -> filed_map (assign n a m).
Proof.
  intros Hm k m' a'. rewrite find_assign. destruct (decide (k = key_of n)) as [->|Hk]; [|apply Hm].
  destruct (m !! key_of n) as [[n' a'']|] eqn:E; intros [= <- <-]; [by apply (Hm _ _ a'')|done].
Qed.

Lemma filed_erase {A} (n : Name.t) (m : nmap A) : filed_map m -> filed_map (erase n m).
Proof. intros Hm k n' a. unfold erase. rewrite lookup_delete_Some. intros [_ E]. by apply (Hm _ _ a). Qed.

Lemma keyset_insert {A} (k : key) (a : A) (m : gmap key A) : keyset (<[k := a]> m) = {[k]} ∪ keyset m.
Proof. unfold keyset. by rewrite dom_insert_L. Qed.

(** A loop over a map that collects the names that pass a test. *)
Lemma collect_spec {A} (test : key -> bool) (g : key -> Name.t * A -> result nset -> result nset) (m : nmap A) :
  filed_map m ->
  (forall k n a s, m !! k = Some (n, a) -> g k (n, a) (Ok s) = Ok (if test k then insert n s else s)) ->
  exists s, map_fold g (Ok ∅) m = Ok s /\ filed s /\ forall k, k ∈ keyset s <-> k ∈ keyset m /\ test k = true.
Proof.
  revert g. intros g Hm Hg.
  assert (HP : forall m' : nmap A, m' ⊆ m -> exists s, map_fold g (Ok ∅) m' = Ok s /\ filed s /\ forall k, k ∈ keyset s <-> k ∈ keyset m' /\ test k = true); [|by apply HP].
  intros m'. apply (map_fold_weak_ind (fun r (m' : nmap A) => m' ⊆ m -> exists s, r = Ok s /\ filed s /\ forall k, k ∈ keyset s <-> k ∈ keyset m' /\ test k = true)).
  - intros _. exists ∅. split; [done|]. split; [done|]. intros k. set_solver.
  - intros k [n a] m'' r Hk IH Hsub. destruct IH as (s & -> & Hf & Hd); [etrans; [by apply insert_subseteq|done]|].
    assert (Hka : m !! k = Some (n, a)) by (eapply lookup_weaken; [apply lookup_insert_eq|exact Hsub]).
    rewrite (Hg k n a s Hka). pose proof (Hm _ _ _ Hka) as Hn. eexists. split; [reflexivity|].
    destruct (test k) eqn:Et; (split; [by try apply filed_insert|]); intros k'; rewrite keyset_insert.
    + rewrite dom_insert_name, Hn, !elem_of_union, Hd, elem_of_singleton. split; [|naive_solver]. intros [[Hx Ht]| ->]; auto.
    + rewrite Hd, elem_of_union, elem_of_singleton. split; [tauto|]. intros [[->|Hx] Ht]; [congruence|done].
Qed.

(** ** Integrity of the tables *)

Import PibMemory.

(** Except that the identities in [I] and the keys in [K] are just being
    removed. *)
Record integrity_but (I K : gset key) (s : t) : Prop := {
  filed_identities : filed (m_identities s);
  filed_keys : filed_map (m_keys s);
  filed_certs : filed_map (m_certs s);
  default_identity : m_hasDefaultIdentity s = true -> key_of (m_defaultIdentity s) ∈ keyset (m_identities s);
  key_identity : forall k, k ∈ keyset (m_keys s) -> valid_key k /\ parent k ∈ keyset (m_identities s) ∪ I;
  cert_key : forall k n c, m_certs s !! k = Some (n, c) -> key_of (Data.m_name c) = k /\ valid_cert k /\ parent k ∈ keyset (m_keys s) ∪ K;
  default_key : forall k n kn, m_defaultKeys s !! k = Some (n, kn) -> key_of kn ∈ keyset (m_keys s) /\ parent (key_of kn) = k;
  default_cert : forall k n cn, m_defaultCerts s !! k = Some (n, cn) -> key_of cn ∈ keyset (m_certs s) /\ parent (key_of cn) = k;
}.

Notation integrity := (integrity_but ∅ ∅).

Lemma cert_in I K s k : integrity_but I K s -> k ∈ keyset (m_certs s) -> valid_cert k /\ parent k ∈ keyset (m_keys s) ∪ K.
Proof. intros Hi Hk. apply elem_of_dom in Hk as [[n c] E]. by destruct (cert_key _ _ _ Hi k n c E) as (_ & Hv & Hp). Qed.

Lemma keys_of_identity I K s id : integrity_but I K s ->
  exists l, getKeysOfIdentity id s = Ok l /\ filed l /\ forall k, k ∈ keyset l <-> k ∈ keyset (m_keys s) /\ parent k = key_of id.
Proof.
  intros Hi. destruct (collect_spec (fun k => bool_decide (parent k = key_of id)) (fun _ '(keyName, _) r =>
    ids ← r; i ← extractIdentityFromKeyName keyName; Ok (if Name.equals id i then insert keyName ids else ids)) (m_keys s)) as (l & E & Hf & Hl).
  - apply (filed_keys _ _ _ Hi).
  - intros k n a x Ek. pose proof (filed_keys _ _ _ Hi _ _ _ Ek) as <-.
    destruct (key_identity _ _ _ Hi (key_of n)) as [Hv _]; [by apply elem_of_dom|]. destruct (extractIdentity_spec n Hv) as (i & Ei & Hp).
    cbn. rewrite Ei. cbn. rewrite key_equals, Hp. f_equal. by rewrite (bool_decide_ext (key_of id = parent (key_of n)) (parent (key_of n) = key_of id)).
  - exists l. split; [exact E|]. split; [done|]. intros k. by rewrite Hl, bool_decide_eq_true.
Qed.

Lemma certs_of_key I K s kn : integrity_but I K s ->
  exists l, getCertificatesOfKey kn s = Ok l /\ filed l /\ forall k, k ∈ keyset l <-> k ∈ keyset (m_certs s) /\ parent k = key_of kn.
Proof.
  intros Hi. destruct (collect_spec (fun k => bool_decide (parent k = key_of kn)) (fun _ '(first, cert) r =>
    certNames ← r; k ← Certificate.extractKeyNameFromCertName (Data.m_name cert); Ok (if Name.equals k kn then insert first certNames else certNames)) (m_certs s)) as (l & E & Hf & Hl).
  - apply (filed_certs _ _ _ Hi).
  - intros k n a x Ek. destruct (cert_key _ _ _ Hi _ _ _ Ek) as (Hk & Hv & _). rewrite <- Hk in Hv. destruct (extractKeyName_spec _ Hv) as (i & Ei & Hp).
    cbn. rewrite Ei. cbn. rewrite key_equals, Hp, Hk. done.
  - exists l. split; [exact E|]. split; [done|]. intros k. by rewrite Hl, bool_decide_eq_true.
Qed.

(** *** Removal *)

(** The certificate [n] is gone, and is not a default any more. *)
Lemma without_cert I K s n dc : integrity_but I K s ->
  (forall k m cn, dc !! k = Some (m, cn) -> m_defaultCerts s !! k = Some (m, cn) /\ key_of cn <> key_of n) ->
  integrity_but I K (with_defaultCerts dc (with_certs (erase n (m_certs s)) s)).
Proof.
  intros Hi Hd. split; cbn; [apply Hi|apply Hi|apply filed_erase, Hi|apply Hi|apply Hi| |apply Hi|].
  - intros k n' c. unfold erase. rewrite lookup_delete_Some. intros [_ E]. by apply (cert_key _ _ _ Hi _ n').
  - intros k m cn E. destruct (Hd k m cn E) as [E' Hne]. destruct (default_cert _ _ _ Hi _ _ _ E') as [Hin Hp]. split; [|done].
    rewrite dom_erase. set_solver.
Qed.

Lemma removeCertificate_spec I K s n : integrity_but I K s -> valid_cert (key_of n) ->
  exists s', removeCertificate n s = (s', Ok tt) /\ integrity_but I K s' /\
    m_identities s' = m_identities s /\ m_keys s' = m_keys s /\ keyset (m_certs s') = keyset (m_certs s) ∖ {[key_of n]}.
Proof.
  intros Hi Hv. destruct (extractKeyName_spec n Hv) as (kn & Ek & Hk). unfold removeCertificate, mbind, M_bind, modify, liftR. rewrite Ek.
  set (s1 := with_certs (erase n (m_certs s)) s).
  assert (Hx : exists dc, match find kn (m_defaultCerts s1) with Some d => if Name.equals d n then with_defaultCerts (erase kn (m_defaultCerts s1)) s1 else s1 | None => s1 end
      = with_defaultCerts dc s1 /\ forall k m cn, dc !! k = Some (m, cn) -> m_defaultCerts s !! k = Some (m, cn) /\ key_of cn <> key_of n).
  { unfold find. change (m_defaultCerts s1) with (m_defaultCerts s). destruct (m_defaultCerts s !! key_of kn) as [[m d]|] eqn:Ed; cbn.
    - rewrite key_equals. destruct (bool_decide_reflect (key_of d = key_of n)) as [Eq|Ne].
      + eexists. split; [reflexivity|]. intros k m' cn. unfold erase. rewrite lookup_delete_Some. intros [Hne E]. split; [done|]. intros Ec.
        destruct (default_cert _ _ _ Hi _ _ _ E) as [_ Hp]. apply Hne. by rewrite Hk, <- Hp, Ec.
      + exists (m_defaultCerts s). split; [by destruct s|]. intros k m' cn E. split; [done|]. intros Ec.
        destruct (default_cert _ _ _ Hi _ _ _ E) as [_ Hp]. assert (k = key_of kn) as -> by (by rewrite Hk, <- Hp, Ec). rewrite Ed in E. injection E as -> ->. done.
    - exists (m_defaultCerts s). split; [by destruct s|]. intros k m' cn E. split; [done|]. intros Ec.
      destruct (default_cert _ _ _ Hi _ _ _ E) as [_ Hp]. assert (k = key_of kn) as -> by (by rewrite Hk, <- Hp, Ec). by rewrite Ed in E. }
  destruct Hx as (dc & -> & Hdc). eexists. split; [reflexivity|]. split; [by apply without_cert|]. cbn. split_and!; [done..|]. apply dom_erase.
Qed.

Lemma removeCertificates_spec I K l : forall s, integrity_but I K s -> Forall (fun n => valid_cert (key_of n)) l ->
  exists s', forM l removeCertificate s = (s', Ok tt) /\ integrity_but I K s' /\
    m_identities s' = m_identities s /\ m_keys s' = m_keys s /\ (forall k, k ∈ keyset (m_certs s') <-> k ∈ keyset (m_certs s) /\ k ∉ key_of <$> l).
Proof.
  induction l as [|n l IH]; intros s Hi Hl; cbn [forM].
  { exists s. split; [done|]. split; [done|]. split_and!; [done..|]. intros k. set_solver. }
  apply list.Forall_cons in Hl as [Hn Hl]. destruct (removeCertificate_spec I K s n Hi Hn) as (s1 & E1 & Hi1 & Ei1 & Ek1 & Ec1).
  destruct (IH s1 Hi1 Hl) as (s2 & E2 & Hi2 & Ei2 & Ek2 & Ec2). exists s2.
  split; [unfold mbind, M_bind; by rewrite E1|]. split; [done|]. split; [congruence|]. split; [congruence|].
  intros k. rewrite Ec2, Ec1. set_solver.
Qed.

Lemma names_spec l k : filed l -> k ∈ key_of <$> names l <-> k ∈ keyset l.
Proof.
  intros Hf. unfold names. rewrite list_elem_of_fmap. split.
  - intros (n & -> & Hn). apply list_elem_of_fmap in Hn as ([k' n'] & -> & Hx). apply elem_of_map_to_list in Hx. cbn. rewrite (Hf _ _ Hx). by apply elem_of_dom.
  - intros Hk. apply elem_of_dom in Hk as [n E]. exists n. split; [by rewrite (Hf _ _ E)|]. apply list_elem_of_fmap. exists (k, n). split; [done|]. by apply elem_of_map_to_list.
Qed.

Lemma names_Forall (Q : key -> Prop) l : filed l -> (forall k, k ∈ keyset l -> Q k) -> Forall (fun n => Q (key_of n)) (names l).
Proof. intros Hf HQ. apply list.Forall_forall. intros n Hn. apply HQ, names_spec; [done|]. by apply list_elem_of_fmap_2. Qed.

Lemma removeKey_spec I K s n : integrity_but I K s -> valid_key (key_of n) ->
  exists s', removeKey n s = (s', Ok tt) /\ integrity_but I K s' /\
    m_identities s' = m_identities s /\ keyset (m_keys s') = keyset (m_keys s) ∖ {[key_of n]} /\
    (forall k, k ∈ keyset (m_certs s') <-> k ∈ keyset (m_certs s) /\ parent k <> key_of n).
Proof.
  intros Hi Hv. destruct (extractIdentity_spec n Hv) as (id & Ei & Hp). unfold removeKey, mbind, M_bind, modify, liftR, self. rewrite Ei.
  set (s1 := with_defaultKeys (erase id (m_defaultKeys s)) (with_keys (erase n (m_keys s)) s)).
  assert (Hi1 : integrity_but I (K ∪ {[key_of n]}) s1).
  { split; cbn; [apply Hi|apply filed_erase, Hi|apply Hi|apply Hi| | | |apply Hi].
    - intros k. rewrite dom_erase. intros Hk. apply (key_identity _ _ _ Hi). set_solver.
    - intros k m c E. destruct (cert_key _ _ _ Hi k m c E) as (H1 & H2 & H3). split_and!; [done..|]. rewrite dom_erase.
      destruct (decide (parent k = key_of n)); set_solver.
    - intros k m kn. unfold erase at 1. rewrite lookup_delete_Some. intros [Hne E]. destruct (default_key _ _ _ Hi k m kn E) as [H1 H2]. split; [|done].
      rewrite dom_erase. apply elem_of_difference. split; [done|]. intros Hx%elem_of_singleton. apply Hne. rewrite Hp. congruence. }
  change (with_defaultKeys (erase id (m_defaultKeys (with_keys (erase n (m_keys s)) s))) (with_keys (erase n (m_keys s)) s)) with s1.
  destruct (certs_of_key _ _ s1 n Hi1) as (l & El & Hf & Hl). rewrite El.
  destruct (removeCertificates_spec _ _ (names l) s1 Hi1) as (s2 & E2 & Hi2 & Eid & Ek & Ec).
  { apply names_Forall; [done|]. intros k Hk. apply Hl in Hk as [Hk _]. by apply (cert_in _ _ _ _ Hi1) in Hk as [? _]. }
  assert (Hc2 : forall k, k ∈ keyset (m_certs s2) <-> k ∈ keyset (m_certs s) /\ parent k <> key_of n).
  { intros k. rewrite Ec, names_spec, Hl by done. change (m_certs s1) with (m_certs s). destruct (decide (parent k = key_of n)); naive_solver. }
  exists s2. split; [exact E2|]. split; [|split; [by rewrite Eid|split; [rewrite Ek; apply dom_erase|exact Hc2]]].
  destruct Hi2 as [h1 h2 h3 h4 h5 h6 h7 h8]. split; try done. intros k m c E. destruct (h6 k m c E) as (H1 & H2 & H3). split_and!; [done..|].
  assert (Hk : k ∈ keyset (m_certs s2)) by (by apply elem_of_dom). apply Hc2 in Hk as [_ Hk]. set_solver.
Qed.

(** The certificates do not touch the default keys. *)
Lemma removeCertificate_defaultKeys n s s' r : removeCertificate n s = (s', r) -> m_defaultKeys s' = m_defaultKeys s.
Proof.
  unfold removeCertificate, mbind, M_bind, modify, liftR. destruct (Certificate.extractKeyNameFromCertName n) as [kn|e]; [|by intros [= <- <-]].
  destruct (find kn _) as [d|]; [destruct (Name.equals d n)|]; by intros [= <- <-].
Qed.

Lemma removeCertificates_defaultKeys l : forall s s' r, forM l removeCertificate s = (s', r) -> m_defaultKeys s' = m_defaultKeys s.
Proof.
  induction l as [|n l IH]; intros s s' r; cbn [forM]; [by intros [= <- <-]|]. unfold mbind, M_bind.
  destruct (removeCertificate n s) as [s1 [u|e]] eqn:E1; apply removeCertificate_defaultKeys in E1; [|by intros [= <- <-]].
  intros E. by rewrite (IH _ _ _ E).
Qed.

(** Whichever key is removed, its identity has no default key any more. *)
Lemma removeKey_default s s' n id : valid_key (key_of n) -> parent (key_of n) = key_of id -> removeKey n s = (s', Ok tt) -> m_defaultKeys s' !! key_of id = None.
Proof.
  intros Hv Hp. destruct (extractIdentity_spec n Hv) as (i & Ei & Hi). unfold removeKey, mbind, M_bind, modify, liftR, self. rewrite Ei.
  destruct (getCertificatesOfKey n _) as [l|e]; [|done]. intros E. apply removeCertificates_defaultKeys in E. rewrite E. cbn. unfold erase.
  rewrite <- Hp, <- Hi. apply lookup_delete_eq.
Qed.

Lemma removeKeys_spec I K l : forall s, integrity_but I K s -> Forall (fun n => valid_key (key_of n)) l ->
  exists s', forM l removeKey s = (s', Ok tt) /\ integrity_but I K s' /\ m_identities s' = m_identities s /\
    (forall k, k ∈ keyset (m_keys s') <-> k ∈ keyset (m_keys s) /\ k ∉ key_of <$> l) /\
    (forall k, k ∈ keyset (m_certs s') <-> k ∈ keyset (m_certs s) /\ parent k ∉ key_of <$> l).
Proof.
  induction l as [|n l IH]; intros s Hi Hl; cbn [forM].
  { exists s. split; [done|]. split; [done|]. split_and!; [done|intros k; set_solver..]. }
  apply list.Forall_cons in Hl as [Hn Hl]. destruct (removeKey_spec I K s n Hi Hn) as (s1 & E1 & Hi1 & Ei1 & Ek1 & Ec1).
  destruct (IH s1 Hi1 Hl) as (s2 & E2 & Hi2 & Ei2 & Ek2 & Ec2). exists s2.
  split; [unfold mbind, M_bind; by rewrite E1|]. split; [done|]. split; [congruence|]. split.
  - intros k. rewrite Ek2, Ek1. set_solver.
  - intros k. rewrite Ec2, Ec1. rewrite fmap_cons, not_elem_of_cons. naive_solver.
Qed.

(** An identity goes with its keys and their certificates. *)
Lemma removeIdentity_spec s id : integrity s ->
  exists s', removeIdentity id s = (s', Ok tt) /\ integrity s' /\ keyset (m_identities s') = keyset (m_identities s) ∖ {[key_of id]} /\
    (forall k, k ∈ keyset (m_keys s') <-> k ∈ keyset (m_keys s) /\ parent k <> key_of id) /\
    (forall k, k ∈ keyset (m_certs s') <-> k ∈ keyset (m_certs s) /\ parent (parent k) <> key_of id).
Proof.
  intros Hi. unfold removeIdentity, mbind, M_bind, modify, self, liftR.
  set (s0 := with_identities (erase id (m_identities s)) s).
  set (s1 := if Name.equals id (m_defaultIdentity s0) then with_default false Name.empty s0 else s0).
  assert (Es1 : m_identities s1 = erase id (m_identities s) /\ m_keys s1 = m_keys s /\ m_certs s1 = m_certs s /\ m_defaultKeys s1 = m_defaultKeys s /\ m_defaultCerts s1 = m_defaultCerts s)
    by (subst s1; by destruct (Name.equals id (m_defaultIdentity s0))).
  destruct Es1 as (Eid & Ek & Ec & Edk & Edc).
  assert (Hi1 : integrity_but {[key_of id]} ∅ s1).
  { split; rewrite ?Eid, ?Ek, ?Ec, ?Edk, ?Edc; try apply Hi.
    - intros k n E. unfold erase in E. apply lookup_delete_Some in E as [_ E]. by apply Hi.
    - subst s1. rewrite key_equals. destruct (bool_decide_reflect (key_of id = key_of (m_defaultIdentity s0))) as [_|Hne]; [done|]. cbn. intros Hd.
      rewrite dom_erase. apply elem_of_difference. split; [by apply Hi|]. intros Hx%elem_of_singleton. by apply Hne.
    - intros k Hk. destruct (key_identity _ _ _ Hi k Hk) as [Hv Hp]. split; [done|]. rewrite dom_erase. destruct (decide (parent k = key_of id)); set_solver. }
  destruct (keys_of_identity _ _ s1 id Hi1) as (l & El & Hf & Hl). rewrite El.
  destruct (removeKeys_spec _ _ (names l) s1 Hi1) as (s2 & E2 & Hi2 & Eid2 & Ek2 & Ec2).
  { apply names_Forall; [done|]. intros k Hk. apply Hl in Hk as [Hk _]. by apply (key_identity _ _ _ Hi1). }
  assert (Hk2 : forall k, k ∈ keyset (m_keys s2) <-> k ∈ keyset (m_keys s) /\ parent k <> key_of id).
  { intros k. rewrite Ek2, names_spec, Hl, Ek by done. destruct (decide (parent k = key_of id)); naive_solver. }
  exists s2. split; [exact E2|]. split; [|split; [by rewrite Eid2, Eid, dom_erase|split; [exact Hk2|]]].
  - destruct Hi2 as [h1 h2 h3 h4 h5 h6 h7 h8]. split; try done. intros k Hk. destruct (h5 k Hk) as [Hv Hp]. split; [done|].
    apply Hk2 in Hk as [_ Hk]. set_solver.
  - intros k. rewrite Ec2, names_spec, Hl, Ek, Ec by done. split.
    + intros [Hk Hn]. split; [done|]. intros Hp. apply Hn. split; [|done]. apply (cert_in _ _ _ _ Hi) in Hk as [_ Hk]. set_solver.
    + intros [Hk Hn]. split; [done|]. by intros [_ Hp].
Qed.

(** *** Addition *)

Lemma addIdentity_spec s id : integrity s -> integrity (addIdentity id s) /\ m_keys (addIdentity id s) = m_keys s /\ m_certs (addIdentity id s) = m_certs s /\
  m_defaultKeys (addIdentity id s) = m_defaultKeys s /\ m_defaultCerts (addIdentity id s) = m_defaultCerts s /\
  keyset (m_identities (addIdentity id s)) = keyset (m_identities s) ∪ {[key_of id]}.
Proof.
  intros Hi. unfold addIdentity. destruct (m_hasDefaultIdentity (with_identities (insert id (m_identities s)) s)) eqn:Ed; cbn in Ed;
    (split; [|split_and!; [done..|apply dom_insert_name]]);
    (split; cbn; rewrite ?dom_insert_name; try apply Hi; [by apply filed_insert, Hi| |intros k Hk; destruct (key_identity _ _ _ Hi k Hk); split; [done|set_solver]]).
  - intros _. apply elem_of_union_l. by apply Hi.
  - intros _. set_solver.
Qed.

Lemma addKey_spec s id kn ty bits : integrity s -> valid_key (key_of kn) -> parent (key_of kn) = key_of id ->
  let s' := addKey id kn ty bits s in integrity s' /\ m_certs s' = m_certs s /\ m_defaultCerts s' = m_defaultCerts s /\
    keyset (m_identities s') = keyset (m_identities s) ∪ {[key_of id]} /\ keyset (m_keys s') = keyset (m_keys s) ∪ {[key_of kn]} /\
    snd <$> m_keys s' !! key_of kn = Some (mkKey ty bits).
Proof.
  intros Hi Hv Hp. destruct (addIdentity_spec s id Hi) as (Hi1 & Ek & Ec & Edk & Edc & Eid). unfold addKey. set (s1 := addIdentity id s) in *. clearbody s1.
  set (s2 := with_keys (assign kn (mkKey ty bits) (m_keys s1)) s1).
  assert (H2 : integrity s2).
  { split; cbn; rewrite ?dom_assign; try apply Hi1; [by apply filed_assign, Hi1|intros k Hk|intros k n c E|intros k n kn' E].
    - apply elem_of_union in Hk as [Hk|Hk]; [by apply Hi1|]. apply elem_of_singleton in Hk as ->. split; [done|]. rewrite Hp, Eid. set_solver.
    - destruct (cert_key _ _ _ Hi1 k n c E) as (A1 & A2 & A3). split_and!; [done..|set_solver].
    - destruct (default_key _ _ _ Hi1 k n kn' E). split; [set_solver|done]. }
  assert (Hlast : integrity (if has id (m_defaultKeys s2) then s2 else with_defaultKeys (assign id kn (m_defaultKeys s2)) s2)).
  { destruct (has id (m_defaultKeys s2)); [done|]. split; cbn; try apply H2. intros k n kn'. rewrite find_assign.
    destruct (decide (k = key_of id)) as [->|Hk]; [|apply H2]. intros [= _ <-]. split; [rewrite dom_assign; set_solver|done]. }
  split; [done|]. assert (Hk2 : keyset (m_keys s2) = keyset (m_keys s) ∪ {[key_of kn]}) by (cbn; by rewrite dom_assign, Ek).
  assert (Hf : snd <$> m_keys s2 !! key_of kn = Some (mkKey ty bits)) by (cbn; by rewrite find_assign, decide_True).
  by destruct (has id (m_defaultKeys s2)).
Qed.

Lemma addCertificate_spec s c : integrity s -> valid_cert (key_of (Data.m_name c)) ->
  exists s', addCertificate c s = (s', Ok tt) /\ integrity s' /\
    keyset (m_identities s') = keyset (m_identities s) ∪ {[parent (parent (key_of (Data.m_name c)))]} /\
    keyset (m_keys s') = keyset (m_keys s) ∪ {[parent (key_of (Data.m_name c))]} /\
    keyset (m_certs s') = keyset (m_certs s) ∪ {[key_of (Data.m_name c)]} /\ find (Data.m_name c) (m_certs s') = Some c.
Proof.
  intros Hi Hv. destruct (getKeyName_spec c Hv) as (kn & Ek & Hk). destruct (getIdentity_spec c Hv) as (id & Eid & Hid).
  unfold addCertificate, mbind, M_bind, modify, liftR. rewrite Ek, Eid.
  destruct (addKey_spec s id kn (verification.keyTypeOf (SignatureInfo.m_type (Data.m_signatureInfo c))) (Block.value (Data.m_content c)) Hi) as (Hi1 & Ec & Edc & Ei1 & Ek1 & _).
  { rewrite Hk. by apply valid_cert_key. }
  { by rewrite Hk, Hid. }
  set (s1 := addKey _ _ _ _ s) in *. clearbody s1. set (s2 := with_certs (assign (Data.m_name c) c (m_certs s1)) s1).
  assert (H2 : integrity s2).
  { split; cbn; rewrite ?dom_assign; try apply Hi1; [by apply filed_assign, Hi1|intros k n c'|intros k n cn E].
    - rewrite find_assign. destruct (decide (k = key_of (Data.m_name c))) as [->|Hne]; [|apply Hi1]. intros [= _ <-]. split_and!; [done..|].
      rewrite Ek1, <- Hk. set_solver.
    - destruct (default_cert _ _ _ Hi1 k n cn E). split; [set_solver|done]. }
  set (s3 := if has kn (m_defaultCerts s2) then s2 else with_defaultCerts (assign kn (Data.m_name c) (m_defaultCerts s2)) s2).
  assert (H3 : integrity s3 /\ m_identities s3 = m_identities s2 /\ m_keys s3 = m_keys s2 /\ m_certs s3 = m_certs s2).
  { subst s3. destruct (has kn (m_defaultCerts s2)); [done|]. split; [|done]. split; cbn; try apply H2. intros k n cn. rewrite find_assign.
    destruct (decide (k = key_of kn)) as [->|Hne]; [|apply H2]. intros [= _ <-]. split; [rewrite dom_assign; set_solver|by rewrite Hk]. }
  destruct H3 as (H3 & E1 & E2 & E3). exists s3. split; [done|]. split; [done|]. rewrite E1, E2, E3. split; [cbn; by rewrite Ei1, Hid|].
  split; [cbn; by rewrite Ek1, Hk|]. cbn. split; [by rewrite dom_assign, Ec|]. unfold find. by rewrite find_assign, decide_True.
Qed.

(** ** The back end as its users see it *)

Inductive op :=
  | AddIdentity (identity : Name.t)
  | RemoveIdentity (identity : Name.t)
  | ClearIdentities
  | SetDefaultIdentity (identity : Name.t)
  | AddKey (identity keyName : Name.t) (keyType : security.KeyType) (key : bytes)
  | RemoveKey (keyName : Name.t)
  | SetDefaultKey (identity keyName : Name.t)
  | AddCertificate (certificate : Certificate.t)
  | RemoveCertificate (certName : Name.t)
  | SetDefaultCertificate (keyName certName : Name.t).

Definition perform (x : op) : M t unit :=
  match x with
  | AddIdentity identity => modify (addIdentity identity)
  | RemoveIdentity identity => removeIdentity identity
  | ClearIdentities => modify clearIdentities
  | SetDefaultIdentity identity => setDefaultIdentity identity
  | AddKey identity keyName keyType key => modify (addKey identity keyName keyType key)
  | RemoveKey keyName => removeKey keyName
  | SetDefaultKey identity keyName => setDefaultKeyOfIdentity identity keyName
  | AddCertificate certificate => addCertificate certificate
  | RemoveCertificate certName => removeCertificate certName
  | SetDefaultCertificate keyName certName => setDefaultCertificateOfKey keyName certName
  end.

(** What the front end checks before it calls: names follow the conventions,
    and keys and certificates belong to what they are added to. *)
Definition allowed (x : op) : Prop :=
  match x with
  | AddKey identity keyName _ _ | SetDefaultKey identity keyName => valid_key (key_of keyName) /\ parent (key_of keyName) = key_of identity
  | RemoveKey keyName => valid_key (key_of keyName)
  | AddCertificate certificate => valid_cert (key_of (Data.m_name certificate))
  | RemoveCertificate certName => valid_cert (key_of certName)
  | SetDefaultCertificate keyName certName => valid_cert (key_of certName) /\ parent (key_of certName) = key_of keyName
  | _ => True
  end.

Inductive reachable : t -> Prop :=
| reachable_init : reachable init
| reachable_step x s s' r : reachable s -> allowed x -> perform x s = (s', r) -> reachable s'.

Lemma init_integrity : integrity init.
Proof. split; try done; cbn; intros k; unfold keyset; set_solver. Qed.

Lemma perform_integrity x s s' r : integrity s -> allowed x -> perform x s = (s', r) -> integrity s' /\ (r = Ok tt \/ s' = s /\ exists w, r = Throw (PibError w)).
Proof.
  intros Hi Hx E. destruct x as [id|id| |id|id kn ty bits|kn|id kn|c|cn|kn cn]; cbn [perform allowed] in *.
  - injection E as <- <-. split; [by apply addIdentity_spec|by left].
  - destruct (removeIdentity_spec s id Hi) as (s1 & E1 & H1 & _). rewrite E1 in E. injection E as <- <-. split; [done|by left].
  - injection E as <- <-. split; [|by left]. split; try done; cbn; intros k; unfold keyset; set_solver.
  - unfold setDefaultIdentity, mbind, M_bind, self, throwM_if, liftR, throw_if in E. destruct (hasIdentity id s) eqn:Eh; cbn in E; injection E as <- <-.
    + split; [|by left]. split; cbn; try apply Hi. intros _. by apply has_dom.
    + split; [done|]. right. split; [done|]. eauto.
  - injection E as <- <-. destruct Hx. split; [by apply addKey_spec|by left].
  - destruct (removeKey_spec ∅ ∅ s kn Hi Hx) as (s1 & E1 & H1 & _). rewrite E1 in E. injection E as <- <-. split; [done|by left].
  - unfold setDefaultKeyOfIdentity, mbind, M_bind, self, throwM_if, liftR, throw_if in E. destruct (hasKey kn s) eqn:Eh; cbn in E; injection E as <- <-.
    + split; [|by left]. split; cbn; try apply Hi. intros k n kn'. rewrite find_assign. destruct (decide (k = key_of id)) as [->|Hk]; [|apply Hi].
      intros [= _ <-]. destruct Hx as [_ Hx]. split; [by apply has_dom|done].
    + split; [done|]. right. split; [done|]. eauto.
  - destruct (addCertificate_spec s c Hi Hx) as (s1 & E1 & H1 & _). rewrite E1 in E. injection E as <- <-. split; [done|by left].
  - destruct (removeCertificate_spec ∅ ∅ s cn Hi Hx) as (s1 & E1 & H1 & _). rewrite E1 in E. injection E as <- <-. split; [done|by left].
  - unfold setDefaultCertificateOfKey, mbind, M_bind, self, throwM_if, liftR, throw_if in E. destruct (hasCertificate cn s) eqn:Eh; cbn in E; injection E as <- <-.
    + split; [|by left]. split; cbn; try apply Hi. intros k n cn'. rewrite find_assign. destruct (decide (k = key_of kn)) as [->|Hk]; [|apply Hi].
      intros [= _ <-]. destruct Hx as [_ Hx]. split; [by apply has_dom|done].
    + split; [done|]. right. split; [done|]. eauto.
Qed.

Lemma reachable_integrity s : reachable s -> integrity s.
Proof. intros Hr. induction Hr as [|x s s' r Hr IH Hx E]; [exact init_integrity|]. by apply (perform_integrity x s s' r). Qed.

(** What integrity means for the questions the back end answers. *)
Lemma integrity_tables s : integrity s ->
  (forall id, getDefaultIdentity s = Ok id -> hasIdentity id s = true) /\
  (forall kn, hasKey kn s = true -> exists id, extractIdentityFromKeyName kn = Ok id /\ hasIdentity id s = true) /\
  (forall cn, hasCertificate cn s = true -> exists kn, Certificate.extractKeyNameFromCertName cn = Ok kn /\ hasKey kn s = true) /\
  (forall id kn, getDefaultKeyOfIdentity id s = Ok kn -> hasKey kn s = true /\ exists l, getKeysOfIdentity id s = Ok l /\ has kn l = true) /\
  (forall kn, exists r, getDefaultCertificateOfKey kn s = Some r /\
     forall c, r = Ok c -> exists l, getCertificatesOfKey kn s = Ok l /\ has (Data.m_name c) l = true).
Proof.
  intros Hi. split_and!.
  - intros id. unfold getDefaultIdentity. destruct (m_hasDefaultIdentity s) eqn:E; [|done]. intros [= <-]. by apply has_dom, Hi.
  - intros kn Hk. apply has_dom in Hk. destruct (key_identity _ _ _ Hi _ Hk) as [Hv Hp]. destruct (extractIdentity_spec kn Hv) as (id & Ei & Hid).
    exists id. split; [done|]. apply has_dom. rewrite Hid. set_solver.
  - intros cn Hc. apply has_dom, (cert_in _ _ _ _ Hi) in Hc as [Hv Hp]. destruct (extractKeyName_spec cn Hv) as (kn & Ek & Hk).
    exists kn. split; [done|]. apply has_dom. rewrite Hk. set_solver.
  - intros id kn. unfold getDefaultKeyOfIdentity, find. destruct (m_defaultKeys s !! key_of id) as [[n kn']|] eqn:E; cbn; [|done]. intros [= ->].
    destruct (default_key _ _ _ Hi _ _ _ E) as [H1 H2]. split; [by apply has_dom|]. destruct (keys_of_identity _ _ s id Hi) as (l & El & _ & Hl).
    exists l. split; [done|]. by apply has_dom, Hl.
  - intros kn. unfold getDefaultCertificateOfKey, find. destruct (m_defaultCerts s !! key_of kn) as [[n cn]|] eqn:E; cbn; [|by eexists].
    destruct (default_cert _ _ _ Hi _ _ _ E) as [H1 H2]. apply elem_of_dom in H1 as [[n' c] Ec]. rewrite Ec. cbn. eexists. split; [reflexivity|].
    intros c' [= <-]. destruct (cert_key _ _ _ Hi _ _ _ Ec) as (Hn & _). destruct (certs_of_key _ _ s kn Hi) as (l & El & _ & Hl).
    exists l. split; [done|]. apply has_dom, Hl. rewrite Hn. split; [|done]. by apply elem_of_dom.
Qed.

(** Removing an identity succeeds and removes all that belongs to it, its
    keys and their certificates, and nothing else. *)
Theorem pib_remove_identity s id : reachable s -> exists s', removeIdentity id s = (s', Ok tt) /\ hasIdentity id s' = false /\
  (forall id', Name.equals id id' = false -> hasIdentity id' s' = hasIdentity id' s) /\
  (forall kn i, extractIdentityFromKeyName kn = Ok i -> hasKey kn s' = hasKey kn s && negb (Name.equals i id)) /\
  (forall cn i, Certificate.extractIdentityFromCertName cn = Ok i -> hasCertificate cn s' = hasCertificate cn s && negb (Name.equals i id)).
Proof.
  intros Hr. apply reachable_integrity in Hr as Hi. destruct (removeIdentity_spec s id Hi) as (s' & E & _ & Hid & Hk & Hc).
  exists s'. split; [done|]. split_and!.
  - apply not_true_iff_false. intros Hx%has_dom. rewrite Hid in Hx. set_solver.
  - intros id'. rewrite key_equals, bool_decide_eq_false. intros Hne. apply eq_true_iff_eq. unfold hasIdentity. rewrite !has_dom, Hid. set_solver.
  - intros kn i Ei. apply eq_true_iff_eq. unfold hasKey. rewrite andb_true_iff, negb_true_iff, !has_dom, Hk, key_equals, bool_decide_eq_false.
    assert (Hp : key_of kn ∈ keyset (m_keys s) -> parent (key_of kn) = key_of i); [|naive_solver congruence].
    intros Hx. apply (key_identity _ _ _ Hi) in Hx as [Hv _]. destruct (extractIdentity_spec kn Hv) as (i' & Ei' & <-). congruence.
  - intros cn i Ei. apply eq_true_iff_eq. unfold hasCertificate. rewrite andb_true_iff, negb_true_iff, !has_dom, Hc, key_equals, bool_decide_eq_false.
    assert (Hp : key_of cn ∈ keyset (m_certs s) -> parent (parent (key_of cn)) = key_of i); [|naive_solver congruence].
    intros Hx. apply (cert_in _ _ _ _ Hi) in Hx as [Hv _]. destruct (extractCertIdentity_spec cn Hv) as (i' & Ei' & <-). congruence.
Qed.

(** [removeKey] of the memory back end forgets the default key of the
    identity whichever key is removed, even one that does not exist, although
    the interface says that it then does nothing: an identity that has keys is
    left without a default. *)
Theorem pib_remove_key_default s id kn kn' : reachable s ->
  valid_key (key_of kn) -> valid_key (key_of kn') -> parent (key_of kn) = key_of id -> parent (key_of kn') = key_of id -> key_of kn <> key_of kn' ->
  hasKey kn s = true -> getDefaultKeyOfIdentity id s = Ok kn ->
  exists s', removeKey kn' s = (s', Ok tt) /\ hasKey kn s' = true /\ getDefaultKeyOfIdentity id s' = Throw (PibError "No default key for identity").
Proof.
  intros Hr Hv Hv' Hp Hp' Hne Hk _. apply reachable_integrity in Hr as Hi.
  destruct (removeKey_spec ∅ ∅ s kn' Hi Hv') as (s' & E & _ & _ & Hk' & _). exists s'. split; [done|]. split.
  - apply has_dom. rewrite Hk'. apply has_dom in Hk. set_solver.
  - pose proof (removeKey_default s s' kn' id Hv' Hp' E) as Ed. unfold getDefaultKeyOfIdentity, find. by rewrite Ed.
Qed.

End PibFacts.

(** ** The front end *)

(** The containers and handles of [Pib], [Identity] and [Key] make only calls
    of the back end that respect to whom keys and certificates belong. *)
Module PibFrontFacts.
Import NameMap KeyName NameFacts PibMemory PibFacts.

(** Names of fewer than 2^62 components. *)
Definition short (n : Name.t) : Prop := Z.of_nat (length (key_of n)) < 2 ^ 62.

Lemma extractIdentity_inv n id : short n -> extractIdentityFromKeyName n = Ok id -> valid_key (key_of n) /\ parent (key_of n) = key_of id.
Proof.
  intros Hs E. assert (Hv : valid_key (key_of n)).
  { apply isValidKeyName_spec; [done|]. unfold extractIdentityFromKeyName, throw_if in E. by destruct (isValidKeyName n). }
  destruct (extractIdentity_spec n Hv) as (id' & E' & Hp). rewrite E in E'. injection E' as <-. done.
Qed.

Lemma certOfKey_inv cn kn : short cn -> Pib.certOfKey cn kn = Ok true -> valid_cert (key_of cn) /\ parent (key_of cn) = key_of kn.
Proof.
  intros Hs. unfold Pib.certOfKey. destruct (Certificate.isValidName cn) eqn:Ev; [|done]. cbn [negb]. apply isValidName_spec in Ev; [|done].
  destruct (extractKeyName_spec cn Ev) as (kn' & -> & Hp). cbn. rewrite key_equals. intros [= E%bool_decide_eq_true]. by rewrite <- Hp, E.
Qed.

(** *** The invariant *)

(** A key object has a valid name, and the certificates it has loaded are its. *)
Definition good_key (k : Pib.KeyImpl) : Prop := valid_key (key_of (Pib.k_keyName k)) /\
  forall c x, Pib.k_certs k !! c = Some x -> valid_cert c /\ parent c = key_of (Pib.k_keyName k).

Definition front_inv (s : Pib.t) : Prop := integrity (Pib.m_impl s) /\ map_Forall (fun _ => good_key) (Pib.h_keys s).

(** What is known of the names of the objects at some addresses. *)
Definition known_key (o : option (nat * key)) (s : Pib.t) : Prop :=
  forall a n, o = Some (a, n) -> exists k, Pib.h_keys s !! a = Some k /\ key_of (Pib.k_keyName k) = n.
Definition known_identity (o : option (nat * key)) (s : Pib.t) : Prop :=
  forall a n, o = Some (a, n) -> exists i, Pib.h_identities s !! a = Some i /\ key_of (Pib.i_name i) = n.

Definition knows (o o' : option (nat * key)) (s : Pib.t) : Prop := front_inv s /\ known_key o s /\ known_identity o' s.

Lemma knows_none s : front_inv s -> knows None None s.
Proof. by split. Qed.

Definition fkeeps {A} (o o' : option (nat * key)) (m : P Pib.t A) : Prop := tripleP (knows o o') m (fun _ => knows o o') front_inv.

Section rules.
Context (o o' : option (nat * key)).

Lemma fk_bind {A B} (m : P Pib.t A) (k : A -> P Pib.t B) : fkeeps o o' m -> (forall a, fkeeps o o' (k a)) -> fkeeps o o' (m ≫= k).
Proof. intros Hm Hk. eapply tripleP_bind; [exact Hm|]. exact Hk. Qed.

Lemma fk_ret {A} (a : A) : fkeeps o o' (mret a).
Proof. by intros s Hs. Qed.

Lemma fk_lift {A} (r : result A) : fkeeps o o' (liftP r).
Proof. apply tripleP_lift. by intros s [Hs _]. Qed.

Lemma fk_throw {A} e : fkeeps o o' (throwP e : P Pib.t A).
Proof. by intros s [Hs _]. Qed.

Lemma fk_undefined {A} : fkeeps o o' (undefinedP : P Pib.t A).
Proof. by intros s Hs. Qed.

Lemma fk_defined {A} (x : option A) : fkeeps o o' (definedP x).
Proof. intros s Hs. by destruct x. Qed.

Lemma fk_self : fkeeps o o' selfP.
Proof. by intros s Hs. Qed.

Lemma fk_ask {A} (f : PibMemory.t -> result A) : fkeeps o o' (Pib.ask f).
Proof. apply fk_bind; [apply fk_self|]. intros s. apply fk_lift. Qed.

Lemma fk_assert b : fkeeps o o' (Pib.assertP b).
Proof. destruct b; [apply fk_ret|apply fk_undefined]. Qed.

Lemma fk_impl x : allowed x -> fkeeps o o' (Pib.impl (perform x)).
Proof.
  intros Hx s ((Hi & Hk) & H1 & H2). unfold Pib.impl, zoomP. destruct (perform x (Pib.m_impl s)) as [b r] eqn:E.
  destruct (perform_integrity x _ _ _ Hi Hx E) as [Hb _]. by destruct r.
Qed.

Lemma fk_locator l : fkeeps o o' (Pib.impl (modify (PibMemory.with_tpmLocator l))).
Proof. intros s (([] & Hk) & H1 & H2). done. Qed.

Lemma fk_modify f : (forall s, Pib.m_impl (f s) = Pib.m_impl s /\ Pib.h_keys (f s) = Pib.h_keys s /\ Pib.h_identities (f s) = Pib.h_identities s) ->
  fkeeps o o' (modifyP f).
Proof.
  intros Hf s Hs. cbn. destruct (Hf s) as (E1 & E2 & E3). unfold knows, front_inv, known_key, known_identity in *. by rewrite E1, E2, E3.
Qed.

Lemma fk_setKey a f : (forall k, good_key k -> (forall n, o = Some (a, n) -> key_of (Pib.k_keyName k) = n) -> good_key (f k) /\ Pib.k_keyName (f k) = Pib.k_keyName k) ->
  fkeeps o o' (Pib.setKey a f).
Proof.
  intros Hf s ((Hi & Hk) & H1 & H2). cbn.
  assert (Hg : forall k, Pib.h_keys s !! a = Some k -> good_key (f k) /\ Pib.k_keyName (f k) = Pib.k_keyName k).
  { intros k Ek. apply Hf; [by apply (Hk a)|]. intros n ->. destruct (H1 a n eq_refl) as (k' & Ek' & <-). congruence. }
  split; [split; [done|]|split; [|done]].
  - intros b k. cbn. destruct (decide (b = a)) as [->|Hb]; [|rewrite lookup_alter_ne by done; apply Hk]. rewrite lookup_alter_eq.
    destruct (Pib.h_keys s !! a) as [k0|] eqn:E; [|done]. intros [= <-]. by apply Hg.
  - intros b n E. destruct (H1 b n E) as (k & Ek & Hn). cbn. destruct (decide (b = a)) as [->|Hb]; [|rewrite lookup_alter_ne by done; by exists k].
    rewrite lookup_alter_eq, Ek. exists (f k). split; [done|]. destruct (Hg k Ek) as [_ ->]. done.
Qed.

Lemma fk_setIdentity a f : (forall i, Pib.i_name (f i) = Pib.i_name i) -> fkeeps o o' (Pib.setIdentity a f).
Proof.
  intros Hf s ((Hi & Hk) & H1 & H2). cbn. split; [done|]. split; [done|]. intros b n E. destruct (H2 b n E) as (i & Ei & Hn). cbn.
  destruct (decide (b = a)) as [->|Hb]; [|rewrite lookup_alter_ne by done; by exists i]. rewrite lookup_alter_eq, Ei. exists (f i). by rewrite Hf.
Qed.

(** The object at an address. *)
Lemma fk_getKey a : tripleP (knows o o') (Pib.getKey_ a) (fun k s => (good_key k /\ forall n, o = Some (a, n) -> key_of (Pib.k_keyName k) = n) /\
  knows (Some (a, key_of (Pib.k_keyName k))) o' s) front_inv.
Proof.
  intros s ((Hi & Hk) & H1 & H2). unfold Pib.getKey_. erewrite bindP_run by done. unfold definedP. destruct (Pib.h_keys s !! a) as [k|] eqn:E; [|done].
  split; [split; [by apply (Hk a)|intros n Hn; destruct (H1 a n Hn) as (k' & E' & <-); congruence]|].
  split; [done|]. split; [|done]. intros b n [= <- <-]. by exists k.
Qed.

Lemma fk_getIdentity a : tripleP (knows o o') (Pib.getIdentity_ a) (fun i s => (forall n, o' = Some (a, n) -> key_of (Pib.i_name i) = n) /\
  knows o (Some (a, key_of (Pib.i_name i))) s) front_inv.
Proof.
  intros s (Hi & H1 & H2). unfold Pib.getIdentity_. erewrite bindP_run by done. unfold definedP. destruct (Pib.h_identities s !! a) as [i|] eqn:E; [|done].
  split; [intros n Hn; destruct (H2 a n Hn) as (i' & E' & <-); congruence|]. split; [done|]. split; [done|]. intros b n [= <- <-]. by exists i.
Qed.

End rules.

Lemma knows_key o o' s : knows o o' s -> knows None o' s.
Proof. by intros (H1 & H2 & H3). Qed.

Lemma knows_identity o o' s : knows o o' s -> knows o None s.
Proof. by intros (H1 & H2 & H3). Qed.

Lemma fk_forget {A} o o' (m : P Pib.t A) : fkeeps o o' m -> tripleP (knows o o') m (fun _ => knows None o') front_inv.
Proof. intros H s Hs. specialize (H s Hs). destruct (m s) as [[s' [a|]]|]; [|done..]. by apply knows_key in H. Qed.

Lemma pureP {S A} (F : Prop) (Q : S -> Prop) (m : P S A) post exc : (F -> tripleP Q m post exc) -> tripleP (fun s => F /\ Q s) m post exc.
Proof. intros H s [HF HQ]. by apply H. Qed.

Lemma lift_fact {S A} (r : result A) (Q exc : S -> Prop) : (forall s, Q s -> exc s) -> tripleP Q (liftP r) (fun a s => r = Ok a /\ Q s) exc.
Proof. intros H s Hs. unfold liftP. destruct r; auto. Qed.

Lemma knows_inv o o' s : knows o o' s -> front_inv s.
Proof. by intros [H _]. Qed.

Lemma fk_getKey_plain o o' a : fkeeps o o' (Pib.getKey_ a).
Proof. apply fk_bind; [apply fk_self|]. intros s. apply fk_defined. Qed.

Lemma fk_getIdentity_plain o o' a : fkeeps o o' (Pib.getIdentity_ a).
Proof. apply fk_bind; [apply fk_self|]. intros s. apply fk_defined. Qed.

(** *** Certificates of a key *)

Lemma fk_assertCerts o o' a : fkeeps o o' (Pib.assertCerts a).
Proof.
  apply fk_bind; [apply fk_getKey_plain|]. intros k. apply fk_bind; [|intros b; apply fk_assert].
  apply fk_bind; [apply fk_ask|]. intros l. apply fk_ret.
Qed.

Lemma good_with_certs k cn c : good_key k -> valid_cert (key_of cn) -> parent (key_of cn) = key_of (Pib.k_keyName k) ->
  good_key (Pib.with_certs (assign cn c (Pib.k_certs k)) k).
Proof.
  intros [Hv Hc] H1 H2. split; [done|]. intros x y. cbn. rewrite find_assign. destruct (decide (x = key_of cn)) as [->|]; [done|]. apply Hc.
Qed.

Lemma good_without_cert k cn : good_key k -> good_key (Pib.with_certs (erase cn (Pib.k_certs k)) k).
Proof. intros [Hv Hc]. split; [done|]. intros x y. cbn. unfold erase. intros [_ H]%lookup_delete_Some. by apply (Hc x y). Qed.

Lemma CertificateContainer_add_front a c : valid_cert (key_of (Data.m_name c)) -> fkeeps None None (Pib.CertificateContainer_add a c).
Proof.
  intros Hv. eapply tripleP_bind; [apply fk_getKey|]. intros k. apply pureP. intros [Hk _].
  eapply tripleP_bind; [apply lift_fact; intros s; apply knows_inv|]. intros kn. apply pureP. intros Ek.
  destruct (getKeyName_spec c Hv) as (kn' & Ek' & Hp). rewrite Ek in Ek'. injection Ek' as <-. rewrite key_equals.
  case_bool_decide as En; cbn [negb]; [|by intros s [Hs _]].
  apply fk_forget.
  apply fk_bind; [apply fk_setKey; intros k' [] _; by split|]. intros _.
  apply fk_bind; [|intros _; by apply (fk_impl _ _ (AddCertificate c))].
  apply fk_setKey. intros k' Hk' Hn. split; [|done]. apply good_with_certs; [done..|]. specialize (Hn _ eq_refl). congruence.
Qed.

Lemma CertificateContainer_remove_front a cn : short cn -> fkeeps None None (Pib.CertificateContainer_remove a cn).
Proof.
  intros Hs. apply fk_bind; [apply fk_getKey_plain|]. intros k. eapply tripleP_bind; [apply lift_fact; intros s; apply knows_inv|]. intros b. apply pureP. intros Eb.
  destruct b; cbn [negb]; [|apply fk_throw]. apply certOfKey_inv in Eb as [Hv _]; [|done].
  apply fk_bind; [apply fk_setKey; intros k' [] _; by split|]. intros _.
  apply fk_bind; [|intros _; by apply (fk_impl _ _ (RemoveCertificate cn))].
  apply fk_setKey. intros k' Hk' _. split; [by apply good_without_cert|done].
Qed.

(** What [get] returns is a certificate of the key. *)
Lemma CertificateContainer_get_front a n cn : short cn ->
  tripleP (knows (Some (a, n)) None) (Pib.CertificateContainer_get a cn)
    (fun _ s => (valid_cert (key_of cn) /\ parent (key_of cn) = n) /\ knows (Some (a, n)) None s) front_inv.
Proof.
  intros Hs. eapply tripleP_bind; [apply fk_getKey|]. intros k. apply pureP. intros [Hk Hn]. specialize (Hn n eq_refl). rewrite Hn.
  destruct (find cn (Pib.k_certs k)) as [c|] eqn:Ef.
  - unfold find in Ef. destruct (Pib.k_certs k !! key_of cn) as [x|] eqn:Ex; [|done]. destruct Hk as [_ Hc]. specialize (Hc _ _ Ex). rewrite Hn in Hc.
    intros s Hss. exact (conj Hc Hss).
  - eapply tripleP_bind; [apply lift_fact; intros s; apply knows_inv|]. intros b. apply pureP. intros Eb.
    destruct b; cbn [negb]; [|by intros s [Hss _]]. apply certOfKey_inv in Eb as [Hv Hp]; [|done]. rewrite Hn in Hp.
    eapply tripleP_bind; [apply fk_ask|]. intros c. eapply tripleP_bind; [apply fk_setKey|].
    + intros k' Hk' Hn'. split; [|done]. apply good_with_certs; [done..|]. rewrite Hp. symmetry. by apply Hn'.
    + intros _ s Hss. done.
Qed.

Lemma CertificateContainer_get_keeps a cn : short cn -> fkeeps None None (Pib.CertificateContainer_get a cn).
Proof.
  intros Hs s Hss. destruct (Pib.h_keys s !! a) as [k|] eqn:E.
  - assert (H : knows (Some (a, key_of (Pib.k_keyName k))) None s) by (destruct Hss as (H1 & _ & H2); split; [done|]; split; [|done]; intros b n [= <- <-]; by exists k).
    pose proof (CertificateContainer_get_front a _ cn Hs s H) as Ht. destruct (Pib.CertificateContainer_get a cn s) as [[s' [c|]]|]; [|done..].
    destruct Ht as [_ Ht]. by apply knows_key in Ht.
  - unfold Pib.CertificateContainer_get, Pib.getKey_, mbind, P_bind, selfP, definedP. by rewrite E.
Qed.

Lemma KeyImpl_setDefaultCertificate_front a cn : short cn -> fkeeps None None (Pib.KeyImpl_setDefaultCertificate a cn).
Proof.
  intros Hs. apply fk_bind; [apply fk_assertCerts|]. intros _ s Hss. destruct (Pib.h_keys s !! a) as [k|] eqn:E;
    [|unfold Pib.CertificateContainer_get, Pib.getKey_, mbind, P_bind, selfP, definedP; by rewrite E].
  assert (H : knows (Some (a, key_of (Pib.k_keyName k))) None s) by (destruct Hss as (H1 & _ & H2); split; [done|]; split; [|done]; intros b n [= <- <-]; by exists k).
  clear Hss E. revert s H. set (n := key_of (Pib.k_keyName k)). change (tripleP (knows (Some (a, n)) None) (c ← Pib.CertificateContainer_get a cn;
    _ ← Pib.setKey a (Pib.with_defaultCertificate c); k ← Pib.getKey_ a; _ ← Pib.impl (setDefaultCertificateOfKey (Pib.k_keyName k) cn);
    _ ← Pib.setKey a (Pib.with_certLoaded true); mret c) (fun _ => knows None None) front_inv).
  eapply tripleP_bind; [by apply CertificateContainer_get_front|]. intros c. apply pureP. intros [Hv Hp].
  eapply tripleP_bind; [apply fk_setKey; intros k' [] _; by split|]. intros ?.
  eapply tripleP_bind; [apply fk_getKey|]. intros k2. apply pureP. intros [_ Hn]. specialize (Hn n eq_refl).
  apply fk_forget.
  apply fk_bind; [apply (fk_impl _ _ (SetDefaultCertificate (Pib.k_keyName k2) cn)); cbn; split; [done|congruence]|]. intros _.
  apply fk_bind; [apply fk_setKey; intros k' [] _; by split|]. intros _. apply fk_ret.
Qed.

(** *** Keys of an identity *)

Lemma fk_lockKey o o' h : fkeeps o o' (Pib.lockKey h).
Proof. apply fk_bind; [apply fk_self|]. intros s. destruct (h ≫= _); [apply fk_ret|apply fk_throw]. Qed.

Lemma fk_lockIdentity o o' h : fkeeps o o' (Pib.lockIdentity h).
Proof. apply fk_bind; [apply fk_self|]. intros s. destruct (h ≫= _); [apply fk_ret|apply fk_throw]. Qed.

Lemma fk_askDefaultCertificate o o' kn : fkeeps o o' (Pib.askDefaultCertificate kn).
Proof. apply fk_bind; [apply fk_self|]. intros s. apply fk_bind; [apply fk_defined|]. intros r. apply fk_lift. Qed.

Lemma fk_newKey o' k : good_key k -> fkeeps None o' (Pib.newKey k).
Proof.
  intros Hk s ((Hi & Hf) & _ & H2). cbn. split; [split; [done|]|by split]. cbn. by apply map_Forall_insert_2.
Qed.

Lemma fk_newIdentity o i : fkeeps o None (Pib.newIdentity i).
Proof. intros s (Hi & H1 & _). cbn. by split. Qed.

Lemma fk_freeKey o' x : fkeeps None o' (Pib.freeKey x).
Proof. intros s ((Hi & Hf) & _ & H2). cbn. destruct x as [a|]; [|done]. split; [split; [done|]|by split]. cbn. by apply map_Forall_delete. Qed.

Lemma fk_freeIdentity x : fkeeps None None (Pib.freeIdentity x).
Proof.
  intros s ((Hi & Hf) & _ & _). cbn. destruct x as [a|]; [|done]. apply knows_none. split; [done|]. cbn.
  induction (match Pib.h_identities s !! a with Some i => _ | None => _ end) as [|k l IH]; [done|]. cbn. by apply map_Forall_delete.
Qed.

Section keys.
Context `{Crypto} (publicKeyType : PublicKey -> security.KeyType).

Lemma fk_members o' kn k : short kn -> (forall id l, valid_key (key_of kn) -> parent (key_of kn) = key_of id -> fkeeps None o' (k id l)) ->
  fkeeps None o' (Pib.KeyImpl_members kn k).
Proof.
  intros Hs Hk. eapply tripleP_bind; [apply lift_fact; intros s; apply knows_inv|]. intros id. apply pureP. intros [Hv Hp]%extractIdentity_inv; [|done].
  apply fk_bind; [apply fk_ask|]. intros l. by apply Hk.
Qed.

Lemma good_new id kn key ty l c : valid_key (key_of kn) -> good_key (Pib.mkKeyImpl id kn key ty l ∅ false c).
Proof. intros Hv. split; [done|]. cbn. intros x y Hx. by rewrite lookup_empty in Hx. Qed.

Lemma fk_create o' kn key ty : short kn -> fkeeps None o' (Pib.KeyImpl_create publicKeyType kn key ty).
Proof.
  intros Hs. apply fk_members; [done|]. intros id l Hv Hp. destruct (loadPkcs8 key) as [pk|]; [|apply fk_throw]. set (ty' := match ty with security.NONE => _ | _ => _ end).
  apply fk_bind; [by apply (fk_impl _ _ (AddKey id kn ty' key))|]. intros _. by apply fk_newKey, good_new.
Qed.

Lemma fk_load o' kn : short kn -> fkeeps None o' (Pib.KeyImpl_load kn).
Proof.
  intros Hs. apply fk_members; [done|]. intros id l Hv Hp. apply fk_bind; [apply fk_ask|]. intros key. apply fk_bind; [apply fk_ask|]. intros ty.
  by apply fk_newKey, good_new.
Qed.

Lemma matchesIdentity_front o o' i kn : short kn ->
  tripleP (knows o o') (Pib.matchesIdentity i kn) (fun _ s => (valid_key (key_of kn) /\ parent (key_of kn) = key_of (Pib.i_name i)) /\ knows o o' s) front_inv.
Proof.
  intros Hs. eapply tripleP_bind; [apply lift_fact; intros s; apply knows_inv|]. intros id. apply pureP. intros [Hv Hp]%extractIdentity_inv; [|done].
  rewrite key_equals. case_bool_decide as E; [|by intros s [Hss _]]. intros s Hss. rewrite E. exact (conj (conj Hv Hp) Hss).
Qed.

(** What [get] returns is a key of the identity. *)
Lemma KeyContainer_get_front a o' kn : short kn ->
  tripleP (knows None o') (Pib.KeyContainer_get a kn)
    (fun _ s => (valid_key (key_of kn) /\ forall n, o' = Some (a, n) -> parent (key_of kn) = n) /\ knows None o' s) front_inv.
Proof.
  intros Hs s Hss. destruct (Pib.h_identities s !! a) as [i|] eqn:E; [|unfold Pib.KeyContainer_get, Pib.getIdentity_, mbind, P_bind, selfP, definedP; by rewrite E].
  assert (Hn : forall n, o' = Some (a, n) -> key_of (Pib.i_name i) = n).
  { intros n En. destruct Hss as (_ & _ & H2). destruct (H2 a n En) as (i' & E' & <-). congruence. }
  unfold Pib.KeyContainer_get. erewrite bindP_run by (unfold Pib.getIdentity_, mbind, P_bind, selfP, definedP; by rewrite E).
  revert s Hss E. intros s Hss _. revert s Hss. eapply tripleP_bind; [by apply matchesIdentity_front|]. intros ?. apply pureP. intros [Hv Hp].
  assert (HF : valid_key (key_of kn) /\ forall n, o' = Some (a, n) -> parent (key_of kn) = n) by (split; [done|]; intros n En; by rewrite Hp, (Hn n En)).
  destruct (find kn (Pib.i_keys i)) as [k|]; [intros s Hss; exact (conj HF Hss)|].
  eapply tripleP_bind; [by apply fk_load|]. intros k. eapply tripleP_bind; [by apply fk_setIdentity|]. intros ? s Hss. exact (conj HF Hss).
Qed.

Lemma fk_KeyContainer_get a o' kn : short kn -> fkeeps None o' (Pib.KeyContainer_get a kn).
Proof. intros Hs s Hss. pose proof (KeyContainer_get_front a o' kn Hs s Hss) as H1. destruct (Pib.KeyContainer_get a kn s) as [[s' [k|]]|]; [by destruct H1|done..]. Qed.

Lemma fk_assertKeys o o' a : fkeeps o o' (Pib.assertKeys a).
Proof.
  apply fk_bind; [apply fk_getIdentity_plain|]. intros i. apply fk_bind; [|intros b; apply fk_assert]. apply fk_bind; [apply fk_ask|]. intros l. apply fk_ret.
Qed.

Lemma fk_defaultKeyName o o' i : fkeeps o o' (Pib.defaultKeyName i).
Proof. apply fk_bind; [apply fk_lockKey|]. intros [a k]. apply fk_ret. Qed.

Lemma IdentityImpl_addKey_front a key kn ty : short kn -> fkeeps None None (Pib.IdentityImpl_addKey publicKeyType a key kn ty).
Proof.
  intros Hs. apply fk_bind; [apply fk_assertKeys|]. intros _. apply fk_bind; [apply fk_getIdentity_plain|]. intros i.
  eapply tripleP_bind; [by apply matchesIdentity_front|]. intros ?. apply pureP. intros _.
  apply fk_bind; [by apply fk_setIdentity|]. intros _. apply fk_bind; [by apply fk_create|]. intros k. apply fk_bind; [apply fk_freeKey|]. intros _.
  apply fk_bind; [by apply fk_setIdentity|]. intros _. by apply fk_KeyContainer_get.
Qed.

Lemma IdentityImpl_removeKey_front a kn : short kn -> fkeeps None None (Pib.IdentityImpl_removeKey a kn).
Proof.
  intros Hs. apply fk_bind; [apply fk_assertKeys|]. intros _. apply fk_bind; [apply fk_getIdentity_plain|]. intros i. apply fk_bind.
  { destruct (Pib.i_isDefaultKeyLoaded i); [|apply fk_ret]. apply fk_bind; [apply fk_defaultKeyName|]. intros n. destruct (Name.equals n kn); [by apply fk_setIdentity|apply fk_ret]. }
  intros _. apply fk_bind; [apply fk_getIdentity_plain|]. intros i2. eapply tripleP_bind; [by apply matchesIdentity_front|]. intros ?. apply pureP. intros [Hv _].
  apply fk_bind; [by apply fk_setIdentity|]. intros _. apply fk_bind; [apply fk_freeKey|]. intros _. apply fk_bind; [by apply fk_setIdentity|]. intros _.
  by apply (fk_impl _ _ (RemoveKey kn)).
Qed.

Lemma IdentityImpl_setDefaultKey_front a kn : short kn -> fkeeps None None (Pib.IdentityImpl_setDefaultKey a kn).
Proof.
  intros Hs. apply fk_bind; [apply fk_assertKeys|]. intros _ s Hss. destruct (Pib.h_identities s !! a) as [i|] eqn:E;
    [|unfold Pib.KeyContainer_get, Pib.getIdentity_, mbind, P_bind, selfP, definedP; by rewrite E].
  assert (H1 : knows None (Some (a, key_of (Pib.i_name i))) s) by (destruct Hss as (H1 & H2 & _); split; [done|]; split; [done|]; intros b n [= <- <-]; by exists i).
  clear Hss E. revert s H1. set (n := key_of (Pib.i_name i)). change (tripleP (knows None (Some (a, n))) (k ← Pib.KeyContainer_get a kn;
    _ ← Pib.setIdentity a (Pib.with_defaultKey k); _ ← Pib.setIdentity a (Pib.with_keyLoaded true); i ← Pib.getIdentity_ a;
    _ ← Pib.impl (setDefaultKeyOfIdentity (Pib.i_name i) kn); mret k) (fun _ => knows None None) front_inv).
  eapply tripleP_bind; [by apply KeyContainer_get_front|]. intros k. apply pureP. intros [Hv Hp]. specialize (Hp n eq_refl).
  eapply tripleP_bind; [by apply fk_setIdentity|]. intros ?. eapply tripleP_bind; [by apply fk_setIdentity|]. intros ?.
  eapply tripleP_bind; [apply fk_getIdentity|]. intros i2. apply pureP. intros Hn. specialize (Hn n eq_refl).
  eapply tripleP_bind; [apply (fk_impl _ _ (SetDefaultKey (Pib.i_name i2) kn)); cbn; split; [done|congruence]|].
  intros ? s Hss. by apply knows_identity in Hss.
Qed.

(** The default key of the back end is a key with a valid name. *)
Lemma askDefaultKey o o' id : tripleP (knows o o') (Pib.ask (getDefaultKeyOfIdentity id)) (fun n s => short n /\ knows o o' s) front_inv.
Proof.
  intros s Hss. unfold Pib.ask. erewrite bindP_run by done. unfold liftP, getDefaultKeyOfIdentity, find.
  destruct (m_defaultKeys (Pib.m_impl s) !! key_of id) as [[x kn]|] eqn:E; cbn; [|by apply knows_inv in Hss].
  destruct Hss as ((Hi & Hk) & Hr). split; [|done]. destruct (default_key _ _ _ Hi _ _ _ E) as [Hd _]. by destruct (key_identity _ _ _ Hi _ Hd) as [(_ & Hs & _) _].
Qed.

Lemma IdentityImpl_getDefaultKey_front a : fkeeps None None (Pib.IdentityImpl_getDefaultKey a).
Proof.
  apply fk_bind; [apply fk_assertKeys|]. intros _. apply fk_bind; [apply fk_getIdentity_plain|]. intros i. apply fk_bind.
  { destruct (Pib.i_isDefaultKeyLoaded i); [apply fk_ret|]. eapply tripleP_bind; [apply askDefaultKey|]. intros n. apply pureP. intros Hs.
    apply fk_bind; [by apply fk_KeyContainer_get|]. intros k. apply fk_bind; [by apply fk_setIdentity|]. intros _. by apply fk_setIdentity. }
  intros _. apply fk_bind; [apply fk_getIdentity_plain|]. intros i2. apply fk_bind; [apply fk_ask|]. intros n. apply fk_bind; [apply fk_defaultKeyName|]. intros m.
  apply fk_bind; [apply fk_assert|]. intros _. apply fk_ret.
Qed.

End keys.

(** *** Identities *)

Lemma fk_assertIdentities o o' : fkeeps o o' Pib.assertIdentities.
Proof. apply fk_bind; [apply fk_self|]. intros s. apply fk_assert. Qed.

Lemma fk_IdentityImpl_make o n b : fkeeps o None (Pib.IdentityImpl_make n b).
Proof.
  apply fk_bind; [apply fk_ask|]. intros l. apply fk_bind; [|intros _; apply fk_newIdentity]. destruct b; [by apply (fk_impl _ _ (AddIdentity n))|].
  apply fk_bind; [apply fk_self|]. intros s. destruct (hasIdentity _ _); [apply fk_ret|apply fk_throw].
Qed.

Lemma fk_IdentityContainer_get n : fkeeps None None (Pib.IdentityContainer_get n).
Proof.
  apply fk_bind; [apply fk_self|]. intros s. destruct (find n (Pib.m_identities s)); [apply fk_ret|]. apply fk_bind; [apply fk_IdentityImpl_make|]. intros a.
  apply fk_bind; [by apply fk_modify|]. intros _. apply fk_ret.
Qed.

Lemma fk_IdentityContainer_add n : fkeeps None None (Pib.IdentityContainer_add n).
Proof.
  apply fk_bind; [apply fk_self|]. intros s. apply fk_bind; [|intros _; apply fk_IdentityContainer_get]. destruct (has n _); [apply fk_ret|].
  apply fk_bind; [by apply fk_modify|]. intros _. apply fk_bind; [apply fk_IdentityImpl_make|]. intros a. apply fk_bind; [apply fk_freeIdentity|]. intros _.
  by apply fk_modify.
Qed.

Lemma fk_IdentityContainer_remove n : fkeeps None None (Pib.IdentityContainer_remove n).
Proof.
  apply fk_bind; [apply fk_self|]. intros s. apply fk_bind; [by apply fk_modify|]. intros _. apply fk_bind; [apply fk_freeIdentity|]. intros _.
  apply fk_bind; [by apply fk_modify|]. intros _. by apply (fk_impl _ _ (RemoveIdentity n)).
Qed.

Lemma fk_reset : fkeeps None None Pib.reset.
Proof.
  apply fk_bind; [by apply (fk_impl _ _ ClearIdentities)|]. intros _. apply fk_bind; [apply fk_locator|]. intros _. apply fk_bind; [by apply fk_modify|]. intros _.
  apply fk_bind; [|intros _; by apply fk_modify]. intros s ((Hi & _) & _). cbn. apply knows_none. split; [done|]. cbn. apply map_Forall_empty.
Qed.

Lemma fk_defaultIdentityName o o' : fkeeps o o' Pib.defaultIdentityName.
Proof. apply fk_bind; [apply fk_self|]. intros s. apply fk_bind; [apply fk_lockIdentity|]. intros [a i]. apply fk_ret. Qed.

(** *** Every call of the interface *)

(** The calls of [Pib] and of its handles, with names of fewer than 2^62
    components and certificates that are objects of class Certificate. *)
Section calls.
Context `{Crypto} (publicKeyType : PublicKey -> security.KeyType).

Inductive front_call : forall A, P Pib.t A -> Prop :=
| call_reset : front_call _ Pib.reset
| call_setTpmLocator l : front_call _ (Pib.setTpmLocator l)
| call_addIdentity n : front_call _ (Pib.addIdentity n)
| call_removeIdentity n : front_call _ (Pib.removeIdentity n)
| call_getIdentity n : front_call _ (Pib.getIdentity n)
| call_setDefaultIdentity n : front_call _ (Pib.setDefaultIdentity n)
| call_getDefaultIdentity : front_call _ Pib.getDefaultIdentity
| call_addKey h key kn ty : short kn -> front_call _ (Pib.Identity_addKey publicKeyType h key kn ty)
| call_removeKey h kn : short kn -> front_call _ (Pib.Identity_removeKey h kn)
| call_getKey h kn : short kn -> front_call _ (Pib.Identity_getKey h kn)
| call_setDefaultKey h kn : short kn -> front_call _ (Pib.Identity_setDefaultKey h kn)
| call_setDefaultKeyNew h key kn ty : short kn -> front_call _ (Pib.Identity_setDefaultKeyNew publicKeyType h key kn ty)
| call_getDefaultKey h : front_call _ (Pib.Identity_getDefaultKey h)
| call_addCertificate h c : short (Data.m_name c) -> Certificate.isValidName (Data.m_name c) = true -> front_call _ (Pib.Key_addCertificate h c)
| call_removeCertificate h cn : short cn -> front_call _ (Pib.Key_removeCertificate h cn)
| call_getCertificate h cn : short cn -> front_call _ (Pib.Key_getCertificate h cn)
| call_setDefaultCertificate h cn : short cn -> front_call _ (Pib.Key_setDefaultCertificate h cn)
| call_setDefaultCertificateNew h c : short (Data.m_name c) -> Certificate.isValidName (Data.m_name c) = true -> front_call _ (Pib.Key_setDefaultCertificateNew h c)
| call_getDefaultCertificate h : front_call _ (Pib.Key_getDefaultCertificate h).

Lemma fk_onKey {A} h (m : nat -> P Pib.t A) : (forall a, fkeeps None None (m a)) -> fkeeps None None (Pib.onKey h m).
Proof. intros Hm. apply fk_bind; [apply fk_lockKey|]. intros [a k]. apply Hm. Qed.

Lemma fk_onIdentity {A} h (m : nat -> P Pib.t A) : (forall a, fkeeps None None (m a)) -> fkeeps None None (Pib.onIdentity h m).
Proof. intros Hm. apply fk_bind; [apply fk_lockIdentity|]. intros [a k]. apply Hm. Qed.

Lemma KeyImpl_addCertificate_front a c : short (Data.m_name c) -> Certificate.isValidName (Data.m_name c) = true -> fkeeps None None (Pib.KeyImpl_addCertificate a c).
Proof. intros Hs Hv. apply isValidName_spec in Hv; [|done]. apply fk_bind; [apply fk_assertCerts|]. intros _. by apply CertificateContainer_add_front. Qed.

Lemma KeyImpl_getDefaultCertificate_front a : fkeeps None None (Pib.KeyImpl_getDefaultCertificate a).
Proof.
  apply fk_bind; [apply fk_assertCerts|]. intros _. apply fk_bind; [apply fk_getKey_plain|]. intros k. apply fk_bind.
  { destruct (Pib.k_isDefaultCertificateLoaded k); [apply fk_ret|]. apply fk_bind; [apply fk_askDefaultCertificate|]. intros c.
    apply fk_bind; [apply fk_setKey; intros k' [] _; by split|]. intros _. apply fk_setKey; intros k' [] _; by split. }
  intros _. apply fk_bind; [apply fk_getKey_plain|]. intros k2. apply fk_bind; [apply fk_askDefaultCertificate|]. intros c. apply fk_bind; [apply fk_lift|]. intros b.
  apply fk_bind; [apply fk_assert|]. intros _. apply fk_ret.
Qed.

Lemma front_call_keeps A (m : P Pib.t A) : front_call A m -> fkeeps None None m.
Proof.
  intros [|l|n|n|n|n| |h key kn ty Hs|h kn Hs|h kn Hs|h kn Hs|h key kn ty Hs|h|h c Hs Hv|h cn Hs|h cn Hs|h cn Hs|h c Hs Hv|h].
  - apply fk_reset.
  - apply fk_bind; [apply fk_self|]. intros s. destruct (bool_decide _); [apply fk_ret|]. apply fk_bind; [apply fk_reset|]. intros _. apply fk_locator.
  - apply fk_bind; [apply fk_assertIdentities|]. intros _. apply fk_IdentityContainer_add.
  - apply fk_bind; [apply fk_assertIdentities|]. intros _. apply fk_bind; [apply fk_self|]. intros s. apply fk_bind; [|intros _; apply fk_IdentityContainer_remove].
    destruct (Pib.m_isDefaultIdentityLoaded s); [|apply fk_ret]. apply fk_bind; [apply fk_defaultIdentityName|]. intros m'. destruct (Name.equals m' n); [by apply fk_modify|apply fk_ret].
  - apply fk_bind; [apply fk_assertIdentities|]. intros _. apply fk_IdentityContainer_get.
  - apply fk_bind; [apply fk_assertIdentities|]. intros _. apply fk_bind; [apply fk_IdentityContainer_add|]. intros a. apply fk_bind; [by apply fk_modify|]. intros _.
    apply fk_bind; [by apply (fk_impl _ _ (SetDefaultIdentity n))|]. intros _. apply fk_ret.
  - apply fk_bind; [apply fk_assertIdentities|]. intros _. apply fk_bind; [apply fk_self|]. intros s. apply fk_bind.
    { destruct (Pib.m_isDefaultIdentityLoaded s); [apply fk_ret|]. apply fk_bind; [apply fk_ask|]. intros n. apply fk_bind; [apply fk_IdentityContainer_get|]. intros a. by apply fk_modify. }
    intros _. apply fk_bind; [apply fk_ask|]. intros n. apply fk_bind; [apply fk_defaultIdentityName|]. intros m'. apply fk_bind; [apply fk_assert|]. intros _.
    apply fk_bind; [apply fk_self|]. intros s2. apply fk_ret.
  - apply fk_onIdentity. intros a. by apply IdentityImpl_addKey_front.
  - apply fk_onIdentity. intros a. by apply IdentityImpl_removeKey_front.
  - apply fk_onIdentity. intros a. apply fk_bind; [apply fk_assertKeys|]. intros _. by apply fk_KeyContainer_get.
  - apply fk_onIdentity. intros a. by apply IdentityImpl_setDefaultKey_front.
  - apply fk_onIdentity. intros a. apply fk_bind; [by apply IdentityImpl_addKey_front|]. intros _. by apply IdentityImpl_setDefaultKey_front.
  - apply fk_onIdentity. intros a. apply IdentityImpl_getDefaultKey_front.
  - apply fk_onKey. intros a. by apply KeyImpl_addCertificate_front.
  - apply fk_onKey. intros a. apply fk_bind; [apply fk_assertCerts|]. intros _. apply fk_bind; [|intros _; by apply CertificateContainer_remove_front].
    apply fk_setKey. intros k [Hk1 Hk2] _. destruct (_ && _); by split.
  - apply fk_onKey. intros a. apply fk_bind; [apply fk_assertCerts|]. intros _. by apply CertificateContainer_get_keeps.
  - apply fk_onKey. intros a. by apply KeyImpl_setDefaultCertificate_front.
  - apply fk_onKey. intros a. apply fk_bind; [by apply KeyImpl_addCertificate_front|]. intros _. by apply KeyImpl_setDefaultCertificate_front.
  - apply fk_onKey. intros a. apply KeyImpl_getDefaultCertificate_front.
Qed.

(** The public information bases that a program can get to. *)
Inductive front_reachable : Pib.t -> Prop :=
| front_make : front_reachable (Pib.make PibMemory.init)
| front_step A (m : P Pib.t A) s s' r : front_reachable s -> front_call A m -> m s = Some (s', r) -> front_reachable s'.

Lemma front_reachable_integrity s : front_reachable s -> integrity (Pib.m_impl s).
Proof.
  intros Hs. cut (front_inv s); [by intros []|]. induction Hs as [|A m s s' r _ IH Hm E]; [split; [apply init_integrity|apply map_Forall_empty]|].
  pose proof (front_call_keeps A m Hm s (knows_none s IH)) as H1. rewrite E in H1. destruct r; [by apply knows_inv in H1|done].
Qed.

End calls.

(** C36: The tables of the memory back end stay together, for every public
    information base that is reached from an empty one by calls of Pib and of
    the Identity and Key handles it gives out - adding, removing, looking up and
    setting defaults, of identities, keys and certificates, in any order, with
    any handle, and calls that throw included; names have fewer than 2^62
    components.  A key that exists has an identity that exists, a certificate a
    key; the default identity exists; the default key of an identity exists
    and is one of the keys of that identity; the default certificate of a key
    exists - the assertion in [getDefaultCertificateOfKey] holds - and is one of
    the certificates of that key.  (Called by itself, the back end does not
    check that a default belongs to what it is the default of; the front end
    does.) *)
Theorem pib_memory_integrity `{Crypto} (publicKeyType : PublicKey -> security.KeyType) (p : Pib.t) (Hp : front_reachable publicKeyType p) :
  let s := Pib.m_impl p in
  (forall id, getDefaultIdentity s = Ok id -> hasIdentity id s = true) /\
  (forall kn, hasKey kn s = true -> exists id, extractIdentityFromKeyName kn = Ok id /\ hasIdentity id s = true) /\
  (forall cn, hasCertificate cn s = true -> exists kn, Certificate.extractKeyNameFromCertName cn = Ok kn /\ hasKey kn s = true) /\
  (forall id kn, getDefaultKeyOfIdentity id s = Ok kn -> hasKey kn s = true /\ exists l, getKeysOfIdentity id s = Ok l /\ has kn l = true) /\
  (forall kn, exists r, getDefaultCertificateOfKey kn s = Some r /\
     forall c, r = Ok c -> exists l, getCertificatesOfKey kn s = Ok l /\ has (Data.m_name c) l = true).
Proof. exact (integrity_tables _ (front_reachable_integrity publicKeyType p Hp)). Qed.

End PibFrontFacts.

(** ** Examples *)

Module PibSamples.
Import NameMap KeyName NameFacts PibMemory PibFacts.

Definition word (s : string) : Component.t := Block.of_tlv 8 (str s).
Definition name_of (l : list string) : Name.t := fold_left (fun n c => Name.append (word c) n) l Name.empty.

Definition alice : Name.t := name_of ["A"].
Definition first_key : Name.t := name_of ["A"; "KEY"; "k1"].
Definition second_key : Name.t := name_of ["A"; "KEY"; "k2"].

(** A self-signed certificate of the first key. *)
Definition first_cert : Certificate.t :=
  Data.mk (name_of ["A"; "KEY"; "k1"; "self"; "1"]) (MetaInfo.mk 2 1000 None [] Block.empty) (Block.ofTypeValue tlv.Content (str "bits"))
    (SignatureInfo.mk 1 (Some (KeyLocator.ofName first_key)) [] Block.empty) (Block.ofTypeValue tlv.SignatureValue (str "sig")) Block.empty Name.empty.

Definition run (x : op) (s : t) : t := fst (perform x s).

(** A back end with the two keys, and a certificate of the first. *)
Definition filled : t :=
  run (AddCertificate first_cert) (run (AddKey alice second_key security.EC (str "two")) (run (AddKey alice first_key security.EC (str "one")) init)).

Lemma first_valid : valid_key (key_of first_key).
Proof. split_and!; vm_compute; [repeat constructor|reflexivity|reflexivity]. Qed.
Lemma second_valid : valid_key (key_of second_key).
Proof. split_and!; vm_compute; [repeat constructor|reflexivity|reflexivity]. Qed.
Lemma cert_valid : valid_cert (key_of (Data.m_name first_cert)).
Proof. split_and!; vm_compute; [repeat constructor|reflexivity|reflexivity]. Qed.

Lemma run_op_reachable x s : reachable s -> allowed x -> reachable (run x s).
Proof. intros Hs Hx. apply (reachable_step x s _ (snd (perform x s)) Hs Hx), surjective_pairing. Qed.

Lemma first_parent : parent (key_of first_key) = key_of alice.
Proof. by vm_compute. Qed.
Lemma second_parent : parent (key_of second_key) = key_of alice.
Proof. by vm_compute. Qed.

Lemma filled_reachable : reachable filled.
Proof.
  apply run_op_reachable; [|exact cert_valid]. apply run_op_reachable; [|exact (conj second_valid second_parent)].
  apply run_op_reachable; [|exact (conj first_valid first_parent)]. constructor.
Qed.

Lemma filled_default : getDefaultKeyOfIdentity alice filled = Ok first_key.
Proof. by vm_compute. Qed.
Lemma filled_has : hasKey first_key filled = true.
Proof. by vm_compute. Qed.
Lemma keys_differ : key_of first_key <> key_of second_key.
Proof. by vm_compute. Qed.

(** A public key is its octets. *)
#[local] Instance toy_crypto : Crypto := {|
  PublicKey := bytes;
  loadPkcs8 := Some;
  verifierFilter _ _ _ _ _ := Some true;
  sha256 x := x;
|}.

Definition after {A} (m : P Pib.t A) (s : Pib.t) : Pib.t := match m s with Some (s', _) => s' | None => s end.

Lemma front_after {A} (m : P Pib.t A) s : PibFrontFacts.front_reachable (fun _ => security.EC) s -> PibFrontFacts.front_call (fun _ => security.EC) A m ->
  match m s with Some _ => true | None => false end = true -> PibFrontFacts.front_reachable (fun _ => security.EC) (after m s).
Proof.
  intros Hs Hm E. unfold after. destruct (m s) as [[s' r]|] eqn:Em; [|done]. exact (PibFrontFacts.front_step _ A m s s' r Hs Hm Em).
Qed.

(** Alice, a key of hers, its certificate, and the key as her default. *)
Definition pib_1 : Pib.t := after (Pib.addIdentity alice) (Pib.make PibMemory.init).
Definition pib_2 : Pib.t := after (Pib.Identity_addKey (fun _ => security.EC) (Some O) (str "one") first_key security.NONE) pib_1.
Definition pib_3 : Pib.t := after (Pib.Key_addCertificate (Some 1%nat) first_cert) pib_2.
Definition pib_4 : Pib.t := after (Pib.Identity_setDefaultKey (Some O) first_key) pib_3.

Lemma pib_4_reachable : PibFrontFacts.front_reachable (fun _ => security.EC) pib_4.
Proof.
  apply front_after; [|by constructor|vm_compute; reflexivity]. apply front_after; [|constructor; vm_compute; reflexivity|vm_compute; reflexivity].
  apply front_after; [|by constructor|vm_compute; reflexivity]. apply front_after; [constructor|constructor|vm_compute; reflexivity].
Qed.

Lemma pib_4_default : getDefaultKeyOfIdentity alice (Pib.m_impl pib_4) = Ok first_key.
Proof. by vm_compute. Qed.

Lemma pib_memory_integrity_witness : exists l, getKeysOfIdentity alice (Pib.m_impl pib_4) = Ok l /\ has first_key l = true.
Proof.
  destruct (PibFrontFacts.pib_memory_integrity (fun _ => security.EC) pib_4 pib_4_reachable) as (_ & _ & _ & H & _).
  exact (proj2 (H alice first_key pib_4_default)).
Defined.

Lemma pib_remove_identity_witness : reachable filled /\ exists s', removeIdentity alice filled = (s', Ok tt) /\ hasIdentity alice s' = false.
Proof.
  split; [exact filled_reachable|]. destruct (pib_remove_identity filled alice filled_reachable) as (s' & E & H & _). exact (ex_intro _ s' (conj E H)).
Defined.

Lemma pib_remove_key_default_witness : exists s', removeKey second_key filled = (s', Ok tt) /\ hasKey first_key s' = true /\
  getDefaultKeyOfIdentity alice s' = Throw (PibError "No default key for identity").
Proof.
  exact (pib_remove_key_default filled alice first_key second_key filled_reachable first_valid second_valid first_parent second_parent keys_differ filled_has filled_default).
Defined.

End PibSamples.
