(* ===== verification/Tpm.v ===== *)
(** * The trusted platform module

    Where the private keys are: the memory back end
    ([security/tpm/back-end.cpp], [impl/back-end-mem.cpp]), the handles of its
    keys ([key-handle.cpp], [impl/key-handle-mem.cpp]) and the front end that
    caches them ([tpm.cpp]), with the parameters keys are created from
    ([security/key-params.cpp]).

    The private keys themselves and what [security/transform] and OpenSSL do
    with them are the class [PrivateKeys] - that a key is marked as an SM2 key
    when it first signs as one is not modelled; a key that is generated and the
    random numbers for its name are arguments of the operations that use them. *)

From stdpp Require Import list gmap.
From S2P Require Import Prelude Tlv Encoding Blocks BlockHelpers Text NameComponents Names Fields DataPacket InterestPacket.
From S2P Require Import InMemoryStorage Announcements Certificates Signatures Pib.

(** A private key and its algorithms; [None]: [transform::Error].  The octets
    a key is saved to and loaded from are protected by a password. *)
Class PrivateKeys := {
  PrivateKey : Type;
  privateKeyType : PrivateKey -> security.KeyType;
  derivePublicKey : PrivateKey -> option bytes;
  signerFilter : security.DigestAlgorithm -> PrivateKey -> security.KeyType -> list bytes -> option bytes;
  privateVerifierFilter : security.DigestAlgorithm -> PrivateKey -> security.KeyType -> list bytes -> bytes -> option bool;
  decryptFilter : PrivateKey -> security.KeyType -> bytes -> option bytes;
  getKeyDigest : PrivateKey -> option bytes;
  savePkcs8 : PrivateKey -> bytes -> option bytes;
  loadPrivatePkcs8 : bytes -> bytes -> option PrivateKey;
}.

(** What a failing transformation throws. *)
Definition TransformError : exn := RuntimeError "transform".
Definition transformed {A} (x : option A) : result A := match x with Some a => Ok a | None => Throw TransformError end.

(** ** The parameters of a key *)

Module KeyParams.
Import security.

(** [ndn-cxx/security/security-common.hpp:67-87] KeyIdType *)
Inductive KeyIdType := USER_SPECIFIED | KEY_ID_SHA256 | RANDOM.

#[global] Instance KeyIdType_eq_dec : EqDecision KeyIdType.
Proof. solve_decision. Defined.

(** [ndn-cxx/security/key-params.hpp:35-98] KeyParams, with the size of the derived classes *)
Record t := mk {
  m_keyType : KeyType;
  m_keyIdType : KeyIdType;
  m_keyId : Component.t;
  m_size : Z;
}.

(** What the classes [RsaKeyParamsInfo] and so on tell the templates. *)
Record Info := mkInfo {
  getType : KeyType;
  checkKeySize : Z -> result Z;
  getDefaultSize : Z;
}.

(** [ndn-cxx/security/key-params.cpp:45-45] detail::MIN_RSA_KEY_SIZE *)
Definition MIN_RSA_KEY_SIZE : Z := 2048.
(** [ndn-cxx/security/key-params.cpp:47-47] detail::EC_KEY_SIZES *)
Definition EC_KEY_SIZES : list Z := [224; 256; 384; 521].
(** [ndn-cxx/security/key-params.cpp:49-49] detail::AES_KEY_SIZES *)
Definition AES_KEY_SIZES : list Z := [128; 192; 256].
(** [ndn-cxx/security/key-params.cpp:54-54] detail::SM2_KEY_SIZES *)
Definition SM2_KEY_SIZES : list Z := [224; 256; 384; 521].

Definition one_of (sizes : list Z) (what : string) (size : Z) : result Z :=
  if existsb (Z.eqb size) sizes then Ok size else Throw (RuntimeError what).

(** [ndn-cxx/security/key-params.cpp:58-70] RsaKeyParamsInfo *)
Definition RsaKeyParamsInfo : Info :=
  mkInfo RSA (fun size => if size <? MIN_RSA_KEY_SIZE then Throw (RuntimeError "Unsupported RSA key size") else Ok size) 2048.

(** [ndn-cxx/security/key-params.cpp:72-86] EcKeyParamsInfo *)
Definition EcKeyParamsInfo : Info := mkInfo EC (one_of EC_KEY_SIZES "Unsupported EC key size") 256.

(** [ndn-cxx/security/key-params.cpp:90-104] sm2KeyParamsInfo *)
Definition sm2KeyParamsInfo : Info := mkInfo SM2 (one_of SM2_KEY_SIZES "Unsupported sm2 ec key size") 256.

(** [ndn-cxx/security/key-params.cpp:108-122] AesKeyParamsInfo *)
Definition AesKeyParamsInfo : Info := mkInfo AES (one_of AES_KEY_SIZES "Unsupported AES key size") 128.

(** [ndn-cxx/security/key-params.cpp:124-136] HmacKeyParamsInfo *)
Definition HmacKeyParamsInfo : Info :=
  mkInfo HMAC (fun size => if (size =? 0) || negb (size mod 8 =? 0) then Throw (RuntimeError "Unsupported HMAC key size") else Ok size) 256.

(** [ndn-cxx/security/key-params.hpp:178-185] SimplePublicKeyParams(const name::Component&, uint32_t)
    [None]: the assertion in the constructor of [KeyParams] fails. *)
Definition withKeyId (info : Info) (keyId : Component.t) (size : Z) : option (result t) :=
  if Block.value_size keyId =? 0 then None
  else Some (size ← checkKeySize info size; Ok (mk (getType info) USER_SPECIFIED keyId size)).

(** [ndn-cxx/security/key-params.hpp:187-199] SimplePublicKeyParams(uint32_t, KeyIdType) *)
Definition withKeyIdType (info : Info) (size : Z) (keyIdType : KeyIdType) : option (result t) :=
  if decide (keyIdType = USER_SPECIFIED) then None
  else Some (size ← checkKeySize info size; Ok (mk (getType info) keyIdType (Block.ofType tlv.GenericNameComponent) size)).

End KeyParams.

(** ** The handle of a key *)

Module KeyHandle.
Section handle.
Context `{PrivateKeys}.

(** [ndn-cxx/security/tpm/impl/key-handle-mem.hpp:71-72] KeyHandleMem
    With the name of the base class ([security/tpm/key-handle.hpp]), which is empty
    until it is set. *)
Record t := mk { m_keyName : Name.t; m_key : PrivateKey }.

(** [ndn-cxx/security/tpm/key-handle.cpp:33-37] KeyHandle::sign
    [ndn-cxx/security/tpm/impl/key-handle-mem.cpp:46-54] KeyHandleMem::doSign *)
Definition sign (digestAlgo : security.DigestAlgorithm) (bufs : list bytes) (keyType : security.KeyType) (h : t) : result bytes :=
  transformed (signerFilter digestAlgo (m_key h) keyType bufs).

(** [ndn-cxx/security/tpm/key-handle.cpp:39-44] KeyHandle::verify
    [ndn-cxx/security/tpm/impl/key-handle-mem.cpp:55-65] KeyHandleMem::doVerify *)
Definition verify (digestAlgo : security.DigestAlgorithm) (bufs : list bytes) (sig : bytes) (keyType : security.KeyType) (h : t) : result bool :=
  transformed (privateVerifierFilter digestAlgo (m_key h) keyType bufs sig).

(** [ndn-cxx/security/tpm/key-handle.cpp:46-50] KeyHandle::decrypt
    [ndn-cxx/security/tpm/impl/key-handle-mem.cpp:67-71] KeyHandleMem::doDecrypt *)
Definition decrypt (cipherText : bytes) (keyType : security.KeyType) (h : t) : result bytes :=
  transformed (decryptFilter (m_key h) keyType cipherText).

(** [ndn-cxx/security/tpm/key-handle.cpp:75-79] KeyHandle::derivePublicKey
    [ndn-cxx/security/tpm/impl/key-handle-mem.cpp:104-108] KeyHandleMem::doDerivePublicKey *)
Definition publicKey (h : t) : result bytes := transformed (derivePublicKey (m_key h)).

End handle.
End KeyHandle.

(** ** The memory back end *)

Module BackEndMem.
Import NameMap KeyName security.
Section backend.
Context `{Crypto} `{PrivateKeys}.

(** [ndn-cxx/security/tpm/impl/back-end-mem.cpp:37-41] BackEndMem::Impl *)
Definition t : Type := nmap PrivateKey.

Notation P_ := (P t).

(** [ndn-cxx/security/tpm/back-end.cpp:40-44] BackEnd::hasKey
    [ndn-cxx/security/tpm/impl/back-end-mem.cpp:57-61] BackEndMem::doHasKey *)
Definition hasKey (keyName : Name.t) (s : t) : bool := has keyName s.

(** [ndn-cxx/security/tpm/back-end.cpp:46-50] BackEnd::getKeyHandle
    [ndn-cxx/security/tpm/impl/back-end-mem.cpp:63-70] BackEndMem::doGetKeyHandle *)
Definition getKeyHandle (keyName : Name.t) (s : t) : option KeyHandle.t := KeyHandle.mk Name.empty <$> find keyName s.

(** [ndn-cxx/security/tpm/back-end.cpp:129-136] BackEnd::constructAsymmetricKeyName (the loop for RANDOM)
    The random words are those that will be drawn; [None]: more are needed. *)
Fixpoint random_loop (words : list Z) (identity : Name.t) (s : t) : option (result Name.t) :=
  match words with
  | [] => None
  | w :: words =>
      match Component.fromNumber w tlv.GenericNameComponent with
      | Throw e => Some (Throw e)
      | Ok keyId =>
          let keyName := constructKeyName identity keyId in
          if hasKey keyName s then random_loop words identity s else Some (Ok keyName)
      end
  end.

(** [ndn-cxx/security/tpm/back-end.cpp:113-141] BackEnd::constructAsymmetricKeyName *)
Definition constructAsymmetricKeyName (words : list Z) (keyHandle : KeyHandle.t) (identity : Name.t) (params : KeyParams.t) (s : t)
    : option (result Name.t) :=
  match KeyParams.m_keyIdType params with
  | KeyParams.USER_SPECIFIED => Some (Ok (constructKeyName identity (KeyParams.m_keyId params)))
  | KeyParams.KEY_ID_SHA256 =>
      Some (pub ← KeyHandle.publicKey keyHandle;
            keyId ← Component.ofBuffer tlv.GenericNameComponent (sha256 pub);
            Ok (constructKeyName identity keyId))
  | KeyParams.RANDOM => random_loop words identity s
  end.

(** [ndn-cxx/security/tpm/back-end.cpp:143-148] BackEnd::constructHmacKeyName *)
Definition constructHmacKeyName (key : PrivateKey) (identity : Name.t) : result Name.t :=
  digest ← transformed (getKeyDigest key);
  c ← Component.ofBuffer tlv.GenericNameComponent digest;
  Ok (Name.append c identity).

(** [ndn-cxx/security/tpm/impl/back-end-mem.cpp:72-103] BackEndMem::doCreateKey
    [generated]: what [transform::generatePrivateKey] makes from the parameters. *)
Definition doCreateKey (generated : option PrivateKey) (words : list Z) (identityName : Name.t) (params : KeyParams.t) : P_ KeyHandle.t :=
  _ ← (match KeyParams.m_keyType params with
       | RSA | EC | HMAC | SM2 => mret tt
       | _ => throwP (InvalidArgument "Memory-based TPM does not support creating a key of this type")
       end);
  key ← liftP (transformed generated);
  s ← selfP;
  keyName ← (match KeyParams.m_keyType params with
             | HMAC => liftP (constructHmacKeyName key identityName)
             | _ => r ← definedP (constructAsymmetricKeyName words (KeyHandle.mk Name.empty key) identityName params s); liftP r
             end);
  _ ← modifyP (assign keyName key);
  mret (KeyHandle.mk keyName key).

(** [ndn-cxx/security/tpm/back-end.cpp:52-78] BackEnd::createKey *)
Definition createKey (generated : option PrivateKey) (words : list Z) (identity : Name.t) (params : KeyParams.t) : P_ KeyHandle.t :=
  match KeyParams.m_keyType params with
  | HMAC => doCreateKey generated words identity params
  | _ =>
      _ ← (match KeyParams.m_keyIdType params with
           | KeyParams.USER_SPECIFIED =>
               s ← selfP;
               if hasKey (constructKeyName identity (KeyParams.m_keyId params)) s then throwP (TpmError "Key already exists") else mret tt
           | _ => mret tt
           end);
      doCreateKey generated words identity params
  end.

(** [ndn-cxx/security/tpm/back-end.cpp:80-84] BackEnd::deleteKey
    [ndn-cxx/security/tpm/impl/back-end-mem.cpp:105-109] BackEndMem::doDeleteKey *)
Definition deleteKey (keyName : Name.t) : P_ unit := modifyP (erase keyName).

(** [ndn-cxx/security/tpm/back-end.cpp:86-93] BackEnd::exportKey
    [ndn-cxx/security/tpm/impl/back-end-mem.cpp:111-117] BackEndMem::doExportKey *)
Definition exportKey (keyName : Name.t) (pw : bytes) : P_ bytes :=
  s ← selfP;
  match find keyName s with
  | None => throwP (TpmError "Key does not exist")
  | Some key => liftP (transformed (savePkcs8 key pw))
  end.

(** [ndn-cxx/security/tpm/impl/back-end-mem.cpp:132-136] BackEndMem::doImportKey *)
Definition doImportKey (keyName : Name.t) (key : PrivateKey) : P_ unit := modifyP (assign keyName key).

(** [ndn-cxx/security/tpm/back-end.cpp:95-102] BackEnd::importKey
    [ndn-cxx/security/tpm/impl/back-end-mem.cpp:119-130] BackEndMem::doImportKey *)
Definition importKey (keyName : Name.t) (pkcs8 pw : bytes) : P_ unit :=
  s ← selfP;
  if hasKey keyName s then throwP (TpmError "Key already exists")
  else
    match loadPrivatePkcs8 pkcs8 pw with
    | None => throwP (TpmError "Cannot import private key")
    | Some key => doImportKey keyName key
    end.

(** [ndn-cxx/security/tpm/back-end.cpp:104-111] BackEnd::importKey *)
Definition importKeyObject (keyName : Name.t) (key : PrivateKey) : P_ unit :=
  s ← selfP;
  if hasKey keyName s then throwP (TpmError "Key already exists") else doImportKey keyName key.

End backend.
End BackEndMem.

(** ** The front end *)

Module Tpm.
Import NameMap.
Section tpm.
Context `{Crypto} `{PrivateKeys}.

(** [ndn-cxx/security/tpm/tpm.hpp:347-353] Tpm *)
Record t := mk {
  m_backEnd : nmap PrivateKey; (* a [BackEndMem.t] *)
  m_keys : nmap KeyHandle.t;
}.

Definition init : t := mk ∅ ∅.

Definition with_backEnd x s := mk x (m_keys s).
Definition with_keys x s := mk (m_backEnd s) x.

Notation P_ := (P t).

Definition backEnd {A} (m : P BackEndMem.t A) : P_ A := zoomPP m_backEnd with_backEnd m.

(** [ndn-cxx/security/tpm/tpm.cpp:47-51] Tpm::hasKey *)
Definition hasKey (keyName : Name.t) (s : t) : bool := BackEndMem.hasKey keyName (m_backEnd s).

(** [ndn-cxx/security/tpm/tpm.cpp:53-60] Tpm::createKey *)
Definition createKey (generated : option PrivateKey) (words : list Z) (identityName : Name.t) (params : KeyParams.t) : P_ Name.t :=
  keyHandle ← backEnd (BackEndMem.createKey generated words identityName params);
  let keyName := KeyHandle.m_keyName keyHandle in
  _ ← modifyP (fun s => with_keys (assign keyName keyHandle (m_keys s)) s);
  mret keyName.

(** [ndn-cxx/security/tpm/tpm.cpp:62-70] Tpm::deleteKey *)
Definition deleteKey (keyName : Name.t) : P_ unit :=
  _ ← modifyP (fun s => with_keys (erase keyName (m_keys s)) s);
  backEnd (BackEndMem.deleteKey keyName).

(** [ndn-cxx/security/tpm/tpm.cpp:179-193] Tpm::findKey *)
Definition findKey (keyName : Name.t) : P_ (option KeyHandle.t) :=
  s ← selfP;
  match find keyName (m_keys s) with
  | Some h => mret (Some h)
  | None =>
      match BackEndMem.getKeyHandle keyName (m_backEnd s) with
      | None => mret None
      | Some h => _ ← modifyP (fun s => with_keys (assign keyName h (m_keys s)) s); mret (Some h)
      end
  end.

(** A call on the handle, or [nullptr]. *)
Definition onHandle {A} (keyName : Name.t) (f : KeyHandle.t -> result A) : P_ (option A) :=
  h ← findKey keyName;
  match h with
  | None => mret None
  | Some h => a ← liftP (f h); mret (Some a)
  end.

(** [ndn-cxx/security/tpm/tpm.cpp:72-77] Tpm::getPublicKey *)
Definition getPublicKey (keyName : Name.t) : P_ (option bytes) := onHandle keyName KeyHandle.publicKey.

(** [ndn-cxx/security/tpm/tpm.cpp:84-89] Tpm::sign *)
Definition sign (bufs : list bytes) (keyName : Name.t) (keyType : security.KeyType) (digestAlgorithm : security.DigestAlgorithm) : P_ (option bytes) :=
  onHandle keyName (KeyHandle.sign digestAlgorithm bufs keyType).

(** [ndn-cxx/security/tpm/tpm.cpp:91-100] Tpm::verify
    [None]: indeterminate. *)
Definition verify (bufs : list bytes) (sig : bytes) (keyName : Name.t) (keyType : security.KeyType) (digestAlgorithm : security.DigestAlgorithm)
    : P_ (option bool) :=
  onHandle keyName (KeyHandle.verify digestAlgorithm bufs sig keyType).

(** [ndn-cxx/security/tpm/tpm.cpp:102-107] Tpm::decrypt *)
Definition decrypt (buf : bytes) (keyName : Name.t) (keyType : security.KeyType) : P_ (option bytes) :=
  onHandle keyName (KeyHandle.decrypt buf keyType).

(** [ndn-cxx/security/tpm/tpm.cpp:161-165] Tpm::exportPrivateKey *)
Definition exportPrivateKey (keyName : Name.t) (pw : bytes) : P_ bytes := backEnd (BackEndMem.exportKey keyName pw).

(** [ndn-cxx/security/tpm/tpm.cpp:167-171] Tpm::importPrivateKey *)
Definition importPrivateKey (keyName : Name.t) (pkcs8 pw : bytes) : P_ unit := backEnd (BackEndMem.importKey keyName pkcs8 pw).

(** [ndn-cxx/security/tpm/tpm.cpp:173-177] Tpm::importPrivateKey *)
Definition importPrivateKeyObject (keyName : Name.t) (key : PrivateKey) : P_ unit := backEnd (BackEndMem.importKeyObject keyName key).

End tpm.
End Tpm.
