(* ===== verification/KeyChain.v ===== *)
(** * The key chain

    The interface that applications sign with: which key signs
    ([security/signing-info.cpp]), the bags keys travel in
    ([security/safe-bag.cpp]), and [security/key-chain.cpp], which keeps the
    public information base and the private keys together, creates, removes,
    exports and imports keys, and signs Data packets and Interests.

    The clock, the random numbers and the keys that are generated are arguments
    of the operations that need them. *)

From stdpp Require Import list gmap.
From S2P Require Import Prelude Tlv Encoding Blocks BlockHelpers Text NameComponents Names Fields DataPacket InterestPacket.
From S2P Require Import InMemoryStorage Announcements Certificates Signatures Pib Tpm.

(** ** SafeBag *)

Module SafeBag.

(** [ndn-cxx/encoding/tlv-security.hpp:36-36] tlv::security::SafeBag *)
Definition type : Z := 128.
(** [ndn-cxx/encoding/tlv-security.hpp:37-37] tlv::security::EncryptedKey *)
Definition EncryptedKey : Z := 129.

(** [ndn-cxx/security/safe-bag.hpp:112-117] SafeBag *)
Record t := mk {
  m_certificate : Data.t;
  m_encryptedKey : bytes;
  m_wire : Block.t;
}.

Definition with_certificate x b := mk x (m_encryptedKey b) (m_wire b).
Definition with_encryptedKey x b := mk (m_certificate b) x (m_wire b).
Definition with_wire x b := mk (m_certificate b) (m_encryptedKey b) x.

(** [ndn-cxx/security/safe-bag.cpp:35-35] SafeBag::SafeBag() *)
Definition init : t := mk (Data.ofName Name.empty) [] Block.empty.

(** [ndn-cxx/security/safe-bag.cpp:42-46] SafeBag::SafeBag(const Data&, span<const uint8_t>) *)
Definition make (certificate : Data.t) (encryptedKey : bytes) : t := mk certificate encryptedKey Block.empty.

(** [ndn-cxx/security/safe-bag.cpp:56-71] SafeBag::wireEncode(EncodingImpl&) *)
Definition wireEncode_template (b : t) : result prepender :=
  certificate ← Data.wireEncode_template false (m_certificate b);
  Ok (pTL type (encoding.prependBinaryBlock EncryptedKey (m_encryptedKey b) ;+ certificate)%prepender).

(** [ndn-cxx/security/safe-bag.cpp:75-86] SafeBag::wireEncode *)
Definition wireEncode : M t Block.t :=
  b ← self;
  f ← liftR (wireEncode_template b);
  wire ← liftR (makeBlock f);
  _ ← modify (with_wire wire);
  mret wire.

(** [ndn-cxx/security/safe-bag.cpp:88-121] SafeBag::wireDecode *)
Definition wireDecode (wire : Block.t) : M t unit :=
  _ ← throwM_if (negb (Block.type wire =? type)) (TlvError "SafeBag");
  _ ← assignParsed with_wire wire;
  b ← self;
  match Block.elements (m_wire b) with
  | [] => throwM (TlvError "Unexpected TLV structure when decoding Certificate")
  | certificate :: rest =>
      _ ← zoom m_certificate with_certificate (Data.wireDecode certificate);
      match rest with
      | key :: rest =>
          if Block.type key =? EncryptedKey then
            _ ← modify (with_encryptedKey (Block.value key));
            throwM_if (match rest with [] => false | _ => true end) (TlvError "Unexpected TLV element at the end of SafeBag")
          else throwM (TlvError "Unexpected TLV structure when decoding EncryptedKey")
      | [] => throwM (TlvError "Unexpected TLV structure when decoding EncryptedKey")
      end
  end.

(** [ndn-cxx/security/safe-bag.cpp:37-40] SafeBag::SafeBag(const Block&) *)
Definition ofBlock (wire : Block.t) : result t := exec (wireDecode wire) init.

End SafeBag.

(** ** Signing parameters *)

Module SigningInfo.
Import security.
Section signing.
Context `{PrivateKeys}.

(** [ndn-cxx/security/signing-info.hpp:61-74] SigningInfo::SignerType *)
Inductive SignerType := SIGNER_TYPE_NULL | SIGNER_TYPE_ID | SIGNER_TYPE_KEY | SIGNER_TYPE_CERT | SIGNER_TYPE_SHA256 | SIGNER_TYPE_HMAC.

(** [ndn-cxx/security/signing-info.hpp:39-44] SignedInterestFormat *)
Inductive SignedInterestFormat := V03 | V02.

(** [ndn-cxx/security/signing-info.hpp:306-315] SigningInfo *)
Record t := mk {
  m_type : SignerType;
  m_name : Name.t;
  m_identity : Pib.handle;
  m_key : Pib.handle;
  m_hmacKey : option PrivateKey;
  m_digestAlgorithm : DigestAlgorithm;
  m_info : SignatureInfo.t;
  m_signedInterestFormat : SignedInterestFormat;
}.

Definition with_signer ty n s := mk ty n (m_identity s) (m_key s) (m_hmacKey s) (m_digestAlgorithm s) (m_info s) (m_signedInterestFormat s).
Definition with_identity x s := mk (m_type s) (m_name s) x (m_key s) (m_hmacKey s) (m_digestAlgorithm s) (m_info s) (m_signedInterestFormat s).
Definition with_key x s := mk (m_type s) (m_name s) (m_identity s) x (m_hmacKey s) (m_digestAlgorithm s) (m_info s) (m_signedInterestFormat s).
Definition with_hmacKey x s := mk (m_type s) (m_name s) (m_identity s) (m_key s) x (m_digestAlgorithm s) (m_info s) (m_signedInterestFormat s).

(** [ndn-cxx/security/signing-info.hpp:219-224] SigningInfo::setDigestAlgorithm *)
Definition setDigestAlgorithm x s := mk (m_type s) (m_name s) (m_identity s) (m_key s) (m_hmacKey s) x (m_info s) (m_signedInterestFormat s).
(** [ndn-cxx/security/signing-info.cpp:232-237] SigningInfo::setSignatureInfo *)
Definition setSignatureInfo x s := mk (m_type s) (m_name s) (m_identity s) (m_key s) (m_hmacKey s) (m_digestAlgorithm s) x (m_signedInterestFormat s).
(** [ndn-cxx/security/signing-info.hpp:255-260] SigningInfo::setSignedInterestFormat *)
Definition setSignedInterestFormat x s := mk (m_type s) (m_name s) (m_identity s) (m_key s) (m_hmacKey s) (m_digestAlgorithm s) (m_info s) x.

Definition component (s : string) : Component.t := Block.of_tlv tlv.GenericNameComponent (str s).

(** [ndn-cxx/security/signing-info.cpp:47-52] SigningInfo::getDigestSha256Identity *)
Definition getDigestSha256Identity : Name.t :=
  Name.append (component "digest-sha256") (Name.append (component "identity") (Name.append (component "localhost") Name.empty)).

(** [ndn-cxx/security/signing-info.cpp:54-59] SigningInfo::getHmacIdentity *)
Definition getHmacIdentity : Name.t :=
  Name.append (component "hmac") (Name.append (component "identity") (Name.append (component "localhost") Name.empty)).

(** [ndn-cxx/security/signing-info.cpp:61-71] SigningInfo::SigningInfo(SignerType, const Name&, const SignatureInfo&) *)
Definition make (signerType : SignerType) (signerName : Name.t) (signatureInfo : SignatureInfo.t) : t :=
  mk signerType signerName None None None SHA256 signatureInfo V02.

Definition default_ : t := make SIGNER_TYPE_NULL Name.empty SignatureInfo.init.

(** [ndn-cxx/security/signing-info.cpp:123-130] SigningInfo::setSigningIdentity *)
Definition setSigningIdentity (identity : Name.t) (s : t) : t := with_identity None (with_signer SIGNER_TYPE_ID identity s).

(** [ndn-cxx/security/signing-info.cpp:132-139] SigningInfo::setSigningKeyName *)
Definition setSigningKeyName (keyName : Name.t) (s : t) : t := with_key None (with_signer SIGNER_TYPE_KEY keyName s).

(** [ndn-cxx/security/signing-info.cpp:141-147] SigningInfo::setSigningCertName *)
Definition setSigningCertName (certificateName : Name.t) (s : t) : t := with_signer SIGNER_TYPE_CERT certificateName s.

(** [ndn-cxx/security/signing-info.cpp:206-212] SigningInfo::setSha256Signing *)
Definition setSha256Signing (s : t) : t := with_signer SIGNER_TYPE_SHA256 Name.empty s.

(** [ndn-cxx/security/signing-info.cpp:174-204] SigningInfo::setSigningHmacKey
    [decode]: the key that is loaded from the octets that are encoded in base 64.
    The file it writes the key to is left out. *)
Definition setSigningHmacKey (decode : bytes -> option PrivateKey) (hmacKey : bytes) (s : t) : result t :=
  key ← transformed (decode hmacKey);
  keyId ← Component.fromNumber 123456789 tlv.GenericNameComponent;
  let keyName := Name.append keyId (Name.append (component "KEY") getHmacIdentity) in
  Ok (with_hmacKey (Some key) (with_signer SIGNER_TYPE_HMAC keyName s)).

(** [ndn-cxx/security/signing-info.cpp:214-221] SigningInfo::setPibIdentity *)
Definition setPibIdentity (identity : Pib.handle) (s : t) : P Pib.t t :=
  pib ← selfP;
  name ← (if Pib.isIdentity identity pib then Pib.Identity_getName identity else mret Name.empty);
  mret (with_identity identity (with_signer SIGNER_TYPE_ID name s)).

(** [ndn-cxx/security/signing-info.cpp:223-230] SigningInfo::setPibKey *)
Definition setPibKey (key : Pib.handle) (s : t) : P Pib.t t :=
  pib ← selfP;
  name ← (if Pib.isKey key pib then Pib.Key_getName key else mret Name.empty);
  mret (with_key key (with_signer SIGNER_TYPE_KEY name s)).

(** [ndn-cxx/security/signing-info.cpp:73-77] SigningInfo::SigningInfo(const Identity&) *)
Definition ofIdentity (identity : Pib.handle) : P Pib.t t := setPibIdentity identity default_.

(** [ndn-cxx/security/signing-info.cpp:79-83] SigningInfo::SigningInfo(const Key&) *)
Definition ofKey (key : Pib.handle) : P Pib.t t := setPibKey key default_.

(** [ndn-cxx/security/signing-info.cpp:85-121] SigningInfo::SigningInfo(const std::string&)
    [env]: the environment variable that chooses the URI format. *)
Definition ofString (env : option bytes) (decode : bytes -> option PrivateKey) (signingStr : bytes) : result t :=
  match signingStr with
  | [] => Ok default_
  | _ =>
      match list_find (fun c => c = Byte.x3a) signingStr with
      | None => Throw (InvalidArgument "Invalid signing string cannot represent SigningInfo")
      | Some (pos, _) =>
          let scheme := take pos signingStr in
          let nameArg := drop (S pos) signingStr in
          if bool_decide (scheme = str "id") then
            digest ← Name.toUri env getDigestSha256Identity name.ENV_OR_ALTERNATE;
            if bool_decide (nameArg = digest) then Ok (setSha256Signing default_)
            else n ← Name.fromUri nameArg; Ok (setSigningIdentity n default_)
          else if bool_decide (scheme = str "key") then n ← Name.fromUri nameArg; Ok (setSigningKeyName n default_)
          else if bool_decide (scheme = str "cert") then n ← Name.fromUri nameArg; Ok (setSigningCertName n default_)
          else if bool_decide (scheme = str "hmac-sha256") then
            s ← setSigningHmacKey decode nameArg default_; Ok (setDigestAlgorithm SHA256 s)
          else Throw (InvalidArgument "Invalid signing string scheme")
      end
  end.

(** [ndn-cxx/security/signing-info.cpp:239-257] operator<<(std::ostream&, const SigningInfo&) *)
Definition print (env : option bytes) (s : t) : result bytes :=
  let prefixed scheme n := (uri ← Name.toUri env n name.ENV_OR_ALTERNATE; Ok (str scheme ++ uri)) in
  match m_type s with
  | SIGNER_TYPE_NULL => Ok []
  | SIGNER_TYPE_ID => prefixed "id:" (m_name s)
  | SIGNER_TYPE_KEY => prefixed "key:" (m_name s)
  | SIGNER_TYPE_CERT => prefixed "cert:" (m_name s)
  | SIGNER_TYPE_SHA256 => prefixed "id:" getDigestSha256Identity
  | SIGNER_TYPE_HMAC => prefixed "id:" (m_name s)
  end.

#[global] Instance SignerType_eq_dec : EqDecision SignerType.
Proof. solve_decision. Defined.
#[global] Instance SignedInterestFormat_eq_dec : EqDecision SignedInterestFormat.
Proof. solve_decision. Defined.
#[global] Instance DigestAlgorithm_eq_dec : EqDecision DigestAlgorithm.
Proof. solve_decision. Defined.

(** [ndn-cxx/security/signing-info.hpp:296-304] operator!=(const SigningInfo&, const SigningInfo&) *)
Definition eqb (lhs rhs : t) : bool :=
  bool_decide (m_type lhs = m_type rhs) && Name.equals (m_name lhs) (m_name rhs) &&
  bool_decide (m_digestAlgorithm lhs = m_digestAlgorithm rhs) && SignatureInfo.eqb (m_info lhs) (m_info rhs) &&
  bool_decide (m_signedInterestFormat lhs = m_signedInterestFormat rhs).

End signing.
End SigningInfo.

(** ** KeyChain *)

Module KeyChain.
Import NameMap KeyName security.

(** [ndn-cxx/security/key-chain.hpp:440-442] KeyChain *)
Record t `{PrivateKeys} := mk {
  m_pib : Pib.t;
  m_tpm : Tpm.t;
}.

Definition is_pib_error (e : exn) : bool := match e with PibError _ => true | _ => false end.
Definition is_tpm_error (e : exn) : bool := match e with TpmError _ => true | _ => false end.

(** The classes of exceptions that are a [std::runtime_error]. *)
Definition is_runtime_error (e : exn) : bool :=
  match e with InvalidArgument _ | OutOfRange _ | BadCast _ | LogicError _ => false | _ => true end.

(** [ndn-cxx/security/key-chain.cpp:857-875] KeyChain::getSignatureType *)
Definition getSignatureType (keyType : KeyType) : result Z :=
  match keyType with
  | RSA => Ok verification.SignatureSha256WithRsa
  | EC => Ok verification.SignatureSha256WithEcdsa
  | SM2 => Ok verification.SignatureSm3WithSm2
  | HMAC => Ok verification.SignatureHmacWithSha256
  | _ => Throw (KeyChainError "Unsupported key type")
  end.

(** [std::equal(first1, last1, first2)], which reads as many octets of the second
    range as the first one has; [None]: past its end. *)
Fixpoint equal_prefix (a b : bytes) : option bool :=
  match a, b with
  | [], _ => Some true
  | x :: a, y :: b => if Byte.eqb x y then equal_prefix a b else Some false
  | _ :: _, [] => None
  end.

(** *** Locators *)

(** [ndn-cxx/security/key-chain.cpp:602-612] parseLocatorUri *)
Definition parseLocatorUri (uri : bytes) : bytes * bytes :=
  match list_find (fun c => c = Byte.x3a) uri with
  | Some (pos, _) => (take pos uri, drop (S pos) uri)
  | None => (uri, [])
  end.

(** [ndn-cxx/security/key-chain.cpp:614-630] KeyChain::parseAndCheckPibLocator
    [ndn-cxx/security/key-chain.cpp:642-658] KeyChain::parseAndCheckTpmLocator
    [schemes]: the registered factories; [what]: the kind of locator. *)
Definition parseAndCheckLocator (schemes : list bytes) (defaultScheme : bytes) (what : string) (locator : bytes) : result (bytes * bytes) :=
  let '(scheme, location) := parseLocatorUri locator in
  let scheme := match scheme with [] => defaultScheme | _ => scheme end in
  _ ← throw_if (negb (existsb (fun x => bool_decide (x = scheme)) schemes)) (KeyChainError what);
  Ok (scheme, location).

Section keychain.
Context `{Crypto} `{PrivateKeys} `{PosixTime} (publicKeyType : PublicKey -> KeyType).
Context (conv : name.Conventions) (autoCheck : bool).

Notation P_ := (P t).

Definition with_pib x s := mk _ x (m_tpm s).
Definition with_tpm x s := mk _ (m_pib s) x.

Definition pib {A} (m : P Pib.t A) : P_ A := zoomPP m_pib with_pib m.
Definition tpm {A} (m : P Tpm.t A) : P_ A := zoomPP m_tpm with_tpm m.

(** A front end and the memory back ends that its factories make. *)
Record Environment := mkEnvironment {
  pibSchemes : list bytes;
  tpmSchemes : list bytes;
  defaultPibScheme : bytes;
  defaultTpmScheme : bytes;
  defaultPibLocator : bytes;
  defaultTpmLocator : bytes;
  pibFactory : bytes -> PibMemory.t;
  tpmFactory : bytes -> BackEndMem.t;
}.

Definition joined (l : bytes * bytes) : bytes := fst l ++ str ":" ++ snd l.

(** [ndn-cxx/security/key-chain.cpp:160-205] KeyChain::KeyChain(const std::string&, const std::string&, bool)
    [None]: an assertion failed. *)
Definition make (env : Environment) (pibLocator tpmLocator : bytes) (allowReset : bool) : option (result t) :=
  match parseAndCheckLocator (pibSchemes env) (defaultPibScheme env) "PIB scheme is not supported" pibLocator with
  | Throw e => Some (Throw e)
  | Ok pibL =>
      let canonicalPibLocator := joined pibL in
      let m_pib := Pib.make (pibFactory env (snd pibL)) in
      let oldTpmLocator := match Pib.getTpmLocator m_pib with Ok l => l | Throw _ => [] end in
      match parseAndCheckLocator (tpmSchemes env) (defaultTpmScheme env) "TPM scheme is not supported" tpmLocator with
      | Throw e => Some (Throw e)
      | Ok tpmL =>
          let canonicalTpmLocator := joined tpmL in
          let program : P Pib.t bytes :=
            if bool_decide (canonicalPibLocator = defaultPibLocator env) then
              if negb (bool_decide (oldTpmLocator = [])) && negb (bool_decide (oldTpmLocator = defaultTpmLocator env))
              then _ ← Pib.reset; mret (defaultTpmLocator env)
              else mret canonicalTpmLocator
            else if negb (bool_decide (oldTpmLocator = [])) && negb (bool_decide (oldTpmLocator = canonicalTpmLocator))
            then if allowReset then _ ← Pib.reset; mret canonicalTpmLocator
                 else throwP (KeyChainError "TPM locator supplied does not match TPM locator in PIB")
            else mret canonicalTpmLocator in
          match program m_pib with
          | None => None
          | Some (_, Throw e) => Some (Throw e)
          | Some (m_pib, Ok canonicalTpmLocator) =>
              match parseAndCheckLocator (tpmSchemes env) (defaultTpmScheme env) "TPM scheme is not supported" canonicalTpmLocator with
              | Throw e => Some (Throw e)
              | Ok l =>
                  match Pib.setTpmLocator canonicalTpmLocator m_pib with
                  | None => None
                  | Some (_, Throw e) => Some (Throw e)
                  | Some (m_pib, Ok _) => Some (Ok (mk _ m_pib (Tpm.mk (tpmFactory env (snd l)) ∅)))
                  end
              end
          end
      end
  end.

(** *** Signing *)

(** [ndn-cxx/security/key-chain.cpp:809-831] KeyChain::sign(const InputBuffers&, const Name&, KeyType, DigestAlgorithm) *)
Definition sign (bufs : list bytes) (keyName : Name.t) (keyType : KeyType) (digestAlgorithm : DigestAlgorithm) : P_ bytes :=
  if Name.equals keyName SigningInfo.getDigestSha256Identity then mret (sha256 (mjoin bufs))
  else
    let digestAlgorithm := match keyType with SM2 => SM3 | _ => digestAlgorithm end in
    signature ← tpm (Tpm.sign bufs keyName keyType digestAlgorithm);
    match signature with
    | Some signature => mret signature
    | None => throwP (KeyChainError "TPM signing failed for key")
    end.

(** Which key signs: an identity whose default key is to be used, a key, or
    the answer already. *)
Inductive signer :=
  | UseIdentity (identity : Pib.handle)
  | UseKey (key : Pib.handle)
  | Prepared (keyName : Name.t) (sigInfo : SignatureInfo.t).

(** [catch (const Pib::Error&) { NDN_THROW_NESTED(InvalidSigningInfoError(...)); }] *)
Definition orInvalid {A} (m : P_ A) (what : string) : P_ A := catchP is_pib_error m (throwP (KeyChainError what)).

(** [ndn-cxx/security/key-chain.cpp:707-782] KeyChain::prepareSignatureInfo (the switch) *)
Definition chooseSigner (params : SigningInfo.t) : P_ signer :=
  let sigInfo := SigningInfo.m_info params in
  let signerName := SigningInfo.m_name params in
  let digest := (i ← liftP (exec (SignatureInfo.setSignatureType verification.DigestSha256) sigInfo);
                 mret (Prepared SigningInfo.getDigestSha256Identity i)) : P_ signer in
  match SigningInfo.m_type params with
  | SigningInfo.SIGNER_TYPE_NULL => catchP is_pib_error (h ← pib Pib.getDefaultIdentity; mret (UseIdentity h)) digest
  | SigningInfo.SIGNER_TYPE_ID =>
      s ← selfP;
      if Pib.isIdentity (SigningInfo.m_identity params) (m_pib s) then mret (UseIdentity (SigningInfo.m_identity params))
      else h ← orInvalid (pib (Pib.getIdentity signerName)) "Signing identity does not exist"; mret (UseIdentity h)
  | SigningInfo.SIGNER_TYPE_KEY =>
      s ← selfP;
      if Pib.isKey (SigningInfo.m_key params) (m_pib s) then mret (UseKey (SigningInfo.m_key params))
      else
        identityName ← liftP (extractIdentityFromKeyName signerName);
        h ← orInvalid (i ← pib (Pib.getIdentity identityName); pib (Pib.Identity_getKey i signerName)) "Signing key does not exist";
        mret (UseKey h)
  | SigningInfo.SIGNER_TYPE_CERT =>
      identityName ← liftP (Certificate.extractIdentityFromCertName signerName);
      keyName ← liftP (Certificate.extractKeyNameFromCertName signerName);
      h ← orInvalid (i ← pib (Pib.getIdentity identityName); pib (Pib.Identity_getKey i keyName)) "Signing certificate does not exist";
      mret (UseKey h)
  | SigningInfo.SIGNER_TYPE_SHA256 => digest
  | SigningInfo.SIGNER_TYPE_HMAC =>
      s ← selfP;
      _ ← (if Tpm.hasKey signerName (m_tpm s) then mret tt
           else key ← definedP (SigningInfo.m_hmacKey params); tpm (Tpm.importPrivateKeyObject signerName key));
      ty ← liftP (getSignatureType HMAC);
      i ← liftP (exec (_ ← SignatureInfo.setSignatureType ty; SignatureInfo.setKeyLocator (Some (KeyLocator.ofName signerName))) sigInfo);
      mret (Prepared signerName i)
  end.

(** [ndn-cxx/security/key-chain.cpp:704-804] KeyChain::prepareSignatureInfo *)
Definition prepareSignatureInfo (params : SigningInfo.t) : P_ (Name.t * SignatureInfo.t) :=
  choice ← chooseSigner params;
  let finish key :=
    (ty ← pib (Pib.Key_getKeyType key);
     ty ← liftP (getSignatureType ty);
     n ← pib (Pib.Key_getName key);
     i ← liftP (exec (_ ← SignatureInfo.setSignatureType ty; SignatureInfo.setKeyLocator (Some (KeyLocator.ofName n))) (SigningInfo.m_info params));
     mret (n, i)) : P_ (Name.t * SignatureInfo.t) in
  match choice with
  | Prepared keyName sigInfo => mret (keyName, sigInfo)
  | UseKey key =>
      s ← selfP; if Pib.isKey key (m_pib s) then finish key else throwP (KeyChainError "Cannot determine signing parameters")
  | UseIdentity identity =>
      s ← selfP;
      _ ← (if Pib.isIdentity identity (m_pib s) then mret tt else throwP (KeyChainError "Cannot determine signing parameters"));
      key ← orInvalid (pib (Pib.Identity_getDefaultKey identity)) "Signing identity does not have a default certificate";
      s ← selfP;
      if Pib.isKey key (m_pib s) then finish key else undefinedP
  end.

(** A call on the key chain, or on the packet, while both are at hand. *)
Definition onChain {D A} (m : P_ A) : P (t * D) A := zoomPP fst (fun x s => (x, snd s)) m.
Definition onPacket {D A} (m : M D A) : P (t * D) A := zoomP snd (fun x s => (fst s, x)) m.

(** [EncodingBuffer encoder;] ([encoding/encoder.hpp], the default arguments of the constructor) *)
Definition newEncoder : Encoder.t := Encoder.make tlv.MAX_NDN_PACKET_SIZE 400.
Definition encode (f : prepender) : Encoder.t := fst (f Encoder.t _ newEncoder).

(** [ndn-cxx/security/key-chain.cpp:501-538] KeyChain::sign(Data&, const SigningInfo&) *)
Definition signData (params : SigningInfo.t) : P (t * Data.t) unit :=
  '(keyName, sigInfo) ← onChain (prepareSignatureInfo params);
  let keyTypefromSig := verification.keyTypeOf (SignatureInfo.m_type sigInfo) in
  _ ← onPacket (Data.setSignatureInfo sigInfo);
  s ← selfP;
  f ← liftP (Data.wireEncode_template true (snd s));
  let encoder := encode f in
  sigValue ← onChain (sign [Encoder.view encoder] keyName keyTypefromSig (SigningInfo.m_digestAlgorithm params));
  _ ← onPacket (Data.wireEncodeSigned encoder sigValue);
  mret tt.

(** [ndn-cxx/security/key-chain.cpp:540-598] KeyChain::sign(Interest&, const SigningInfo&)
    [fresh]: the nonce an Interest without one gets when it is encoded. *)
Definition signInterest (fresh : bytes) (params : SigningInfo.t) : P (t * Interest.t) unit :=
  '(keyName, sigInfo) ← onChain (prepareSignatureInfo params);
  let keyTypefromSig := verification.keyTypeOf (SignatureInfo.m_type sigInfo) in
  match SigningInfo.m_signedInterestFormat params with
  | SigningInfo.V03 =>
      _ ← onPacket (Interest.setSignatureInfo sha256 sigInfo);
      ranges ← onPacket (Interest.extractSignedRanges sha256 autoCheck fresh);
      sigValue ← onChain (sign ranges keyName keyTypefromSig (SigningInfo.m_digestAlgorithm params));
      onPacket (Interest.setSignatureValue sha256 (Some sigValue))
  | SigningInfo.V02 =>
      s ← selfP;
      let signedName := Interest.m_name (snd s) in
      sigInfoBlock ← liftP (snd (SignatureInfo.wireEncode SignatureInfo.TData sigInfo));
      w ← liftP (Block.wire sigInfoBlock);
      c ← liftP (Component.ofRange tlv.GenericNameComponent w);
      signedName ← liftP (Name.wireEncode (Name.append c signedName));
      sigValue ← onChain (sign [Block.value (Name.m_wire signedName)] keyName keyTypefromSig (SigningInfo.m_digestAlgorithm params));
      w ← liftP (Block.wire (Block.encode (Block.ofTypeValue tlv.SignatureValue sigValue)));
      c ← liftP (Component.ofRange tlv.GenericNameComponent w);
      onPacket (Interest.setName sha256 (Name.append c signedName))
  end.

(** 20 * 365 days, in nanoseconds *)
Definition selfSignedPeriod : Z := 20 * 365 * 86400000000000.

(** [ndn-cxx/security/key-chain.cpp:672-689] KeyChain::selfSign (the certificate before it is signed)
    [now]: the system clock, in nanoseconds since 1970. *)
Definition unsignedCertificate (now : Z) (keyName : Name.t) (publicKey : bytes) : result Certificate.t :=
  self_ ← Component.ofString (str "self");
  certificateName ← Name.appendVersion conv (Z.quot now 1000000) None (Name.append self_ keyName);
  exec (_ ← Data.setContentType Certificate.ContentType_Key;
        _ ← Data.setName certificateName;
        _ ← Data.setContentType Certificate.ContentType_Key;
        _ ← Data.setFreshnessPeriod 3600000;
        Data.setContent publicKey) (Data.ofName Name.empty).

(** [ndn-cxx/security/key-chain.cpp:672-702] KeyChain::selfSign *)
Definition selfSign (now : Z) (key : Pib.handle) : P_ Certificate.t :=
  keyName ← pib (Pib.Key_getName key);
  publicKey ← pib (Pib.Key_getPublicKey key);
  certificate ← liftP (unsignedCertificate now keyName publicKey);
  period ← liftP (snd (ValidityPeriod.wireEncode (ValidityPeriod.ofPeriod 0 (i64 (now + selfSignedPeriod)))));
  signatureInfo ← liftP (exec (SignatureInfo.setValidityPeriod (Some period)) SignatureInfo.init);
  params ← pib (SigningInfo.ofKey key);
  certificate ← (fun s => match signData (SigningInfo.setSignatureInfo signatureInfo params) (s, certificate) with
                          | Some ((s, certificate), Ok _) => Some (s, Ok certificate)
                          | Some ((s, _), Throw e) => Some (s, Throw e)
                          | None => None
                          end);
  _ ← pib (Pib.Key_addCertificate key certificate);
  mret certificate.

(** *** Management *)

(** [BOOST_ASSERT(static_cast<bool>(identity))] *)
Definition assertIdentity (identity : Pib.handle) : P_ unit := s ← selfP; if Pib.isIdentity identity (m_pib s) then mret tt else undefinedP.
Definition assertKey (key : Pib.handle) : P_ unit := s ← selfP; if Pib.isKey key (m_pib s) then mret tt else undefinedP.

(** [ndn-cxx/security/key-chain.cpp:257-277] KeyChain::createKey *)
Definition createKey (generated : option PrivateKey) (words : list Z) (now : Z) (identity : Pib.handle) (params : KeyParams.t) : P_ Pib.handle :=
  _ ← assertIdentity identity;
  identityName ← pib (Pib.Identity_getName identity);
  keyName ← tpm (Tpm.createKey generated words identityName params);
  publicKey ← tpm (Tpm.getPublicKey keyName);
  publicKey ← definedP publicKey;
  key ← pib (Pib.Identity_addKey publicKeyType identity publicKey keyName (KeyParams.m_keyType params));
  _ ← selfSign now key;
  mret key.

(** [ndn-cxx/security/key-chain.cpp:211-233] KeyChain::createIdentity *)
Definition createIdentity (generated : option PrivateKey) (words : list Z) (now : Z) (identityName : Name.t) (params : KeyParams.t) : P_ Pib.handle :=
  id ← pib (Pib.addIdentity identityName);
  key ← catchP is_pib_error (pib (Pib.Identity_getDefaultKey id)) (createKey generated words now id params);
  _ ← catchP is_pib_error (pib (Pib.Key_getDefaultCertificate key)) (selfSign now key);
  mret id.

(** [ndn-cxx/security/key-chain.cpp:242-244] KeyChain::deleteIdentity (the loop)
    An iterator gives the key of a name by looking it up in the container. *)
Fixpoint delete_loop (a : nat) (keyNames : list Name.t) : P_ unit :=
  match keyNames with
  | [] => mret tt
  | n :: rest =>
      key ← pib (Pib.KeyContainer_get a n);
      keyName ← pib (Pib.Key_getName key);
      _ ← tpm (Tpm.deleteKey keyName);
      delete_loop a rest
  end.

(** [ndn-cxx/security/key-chain.cpp:235-247] KeyChain::deleteIdentity *)
Definition deleteIdentity (identity : Pib.handle) : P_ unit :=
  _ ← assertIdentity identity;
  identityName ← pib (Pib.Identity_getName identity);
  keyNames ← pib (Pib.Identity_getKeys identity);
  a ← definedP identity;
  _ ← delete_loop a keyNames;
  pib (Pib.removeIdentity identityName).

(** [ndn-cxx/security/key-chain.cpp:249-255] KeyChain::setDefaultIdentity *)
Definition setDefaultIdentity (identity : Pib.handle) : P_ unit :=
  _ ← assertIdentity identity;
  n ← pib (Pib.Identity_getName identity);
  _ ← pib (Pib.setDefaultIdentity n);
  mret tt.

(** [ndn-cxx/security/key-chain.cpp:279-283] KeyChain::createHmacKey *)
Definition createHmacKey (generated : option PrivateKey) (prefix : Name.t) (params : KeyParams.t) : P_ Name.t :=
  tpm (Tpm.createKey generated [] prefix params).

(** The test that begins [deleteKey] and [setDefaultKey]. *)
Definition checkIdentity (identity key : Pib.handle) : P_ Name.t :=
  _ ← assertIdentity identity;
  _ ← assertKey key;
  keyName ← pib (Pib.Key_getName key);
  identityName ← pib (Pib.Identity_getName identity);
  keyIdentity ← pib (Pib.Key_getIdentity key);
  if Name.equals identityName keyIdentity then mret keyName else throwP (InvalidArgument "Identity does not match key").

(** [ndn-cxx/security/key-chain.cpp:285-299] KeyChain::deleteKey *)
Definition deleteKey (identity key : Pib.handle) : P_ unit :=
  keyName ← checkIdentity identity key;
  _ ← pib (Pib.Identity_removeKey identity keyName);
  tpm (Tpm.deleteKey keyName).

(** [ndn-cxx/security/key-chain.cpp:301-312] KeyChain::setDefaultKey *)
Definition setDefaultKey (identity key : Pib.handle) : P_ unit :=
  keyName ← checkIdentity identity key;
  _ ← pib (Pib.Identity_setDefaultKey identity keyName);
  mret tt.

(** [ndn-cxx/security/key-chain.cpp:314-331] KeyChain::addCertificate *)
Definition addCertificate (key : Pib.handle) (certificate : Certificate.t) : P_ unit :=
  _ ← assertKey key;
  let content := Block.value (Data.m_content certificate) in
  _ ← (if len content =? 0 then throwP (InvalidArgument "Certificate is empty") else mret tt);
  keyName ← pib (Pib.Key_getName key);
  certKeyName ← liftP (Certificate.getKeyName certificate);
  ok ← (if negb (Name.equals keyName certKeyName) then mret false
        else publicKey ← pib (Pib.Key_getPublicKey key); definedP (equal_prefix content publicKey));
  if negb ok then throwP (InvalidArgument "Key does not match certificate")
  else pib (Pib.Key_addCertificate key certificate).

(** [ndn-cxx/security/key-chain.cpp:333-343] KeyChain::deleteCertificate *)
Definition deleteCertificate (key : Pib.handle) (certificateName : Name.t) : P_ unit :=
  _ ← assertKey key;
  if negb (Certificate.isValidName certificateName) then throwP (InvalidArgument "Wrong certificate name")
  else pib (Pib.Key_removeCertificate key certificateName).

(** [ndn-cxx/security/key-chain.cpp:345-352] KeyChain::setDefaultCertificate *)
Definition setDefaultCertificate (key : Pib.handle) (cert : Certificate.t) : P_ unit :=
  _ ← assertKey key;
  _ ← addCertificate key cert;
  _ ← pib (Pib.Key_setDefaultCertificate key (Data.m_name cert));
  mret tt.

(** *** Export and import *)

(** [ndn-cxx/security/key-chain.cpp:354-369] KeyChain::exportSafeBag *)
Definition exportSafeBag (certificate : Certificate.t) (pw : bytes) : P_ SafeBag.t :=
  _ ← liftP (Certificate.getIdentity certificate);
  keyName ← liftP (Certificate.getKeyName certificate);
  encryptedKey ← catchP is_tpm_error (tpm (Tpm.exportPrivateKey keyName pw)) (throwP (KeyChainError "Failed to export private key"));
  mret (SafeBag.make certificate encryptedKey).

(** What is signed to see whether a private key and a certificate match. *)
Definition probe : bytes := [Byte.x01; Byte.x02; Byte.x03; Byte.x04].

(** [ndn-cxx/security/key-chain.cpp:428-472] KeyChain::importSafeBag (the check of the imported key) *)
Definition checkImported (keyName : Name.t) (keyType : KeyType) (publicKeyBits : bytes) : P_ unit :=
  let digest := match keyType with SM2 => SM3 | _ => SHA256 end in
  sigBits ← catchP is_runtime_error (tpm (Tpm.sign [probe] keyName keyType digest))
              (_ ← tpm (Tpm.deleteKey keyName); throwP (KeyChainError "Invalid private key"));
  sigBits ← definedP sigBits;
  publicKey ← liftP (transformed (loadPkcs8 publicKeyBits));
  isVerified ← liftP (transformed (verifierFilter digest publicKey keyType [probe] sigBits));
  if (isVerified : bool) then mret tt
  else _ ← tpm (Tpm.deleteKey keyName); throwP (KeyChainError "Certificate and private key do not match").

(** [ndn-cxx/security/key-chain.cpp:371-482] KeyChain::importSafeBag *)
Definition importSafeBag (safeBag : SafeBag.t) (pw : bytes) : P_ unit :=
  cert ← liftP (Certificate.ofData (SafeBag.m_certificate safeBag));
  identity ← liftP (Certificate.getIdentity cert);
  keyName ← liftP (Certificate.getKeyName cert);
  publicKeyBits ← liftP (Certificate.getPublicKey cert);
  let keyTypefromSig := verification.keyTypeOf (SignatureInfo.m_type (Data.m_signatureInfo cert)) in
  pkey ← liftP (transformed (loadPrivatePkcs8 (SafeBag.m_encryptedKey safeBag) pw));
  let keyType := privateKeyType pkey in
  let keyType := if decide (keyTypefromSig = keyType) then keyType else keyTypefromSig in
  s ← selfP;
  _ ← (if Tpm.hasKey keyName (m_tpm s) then throwP (KeyChainError "Private key already exists") else mret tt);
  _ ← catchP is_pib_error
        (existingId ← pib (Pib.getIdentity identity);
         _ ← pib (Pib.Identity_getKey existingId keyName);
         throwP (KeyChainError "Public key already exists"))
        (mret tt);
  _ ← catchP is_tpm_error (tpm (Tpm.importPrivateKey keyName (SafeBag.m_encryptedKey safeBag) pw))
        (throwP (KeyChainError "Failed to import private key"));
  _ ← checkImported keyName keyType publicKeyBits;
  id ← pib (Pib.addIdentity identity);
  bits ← liftP (Certificate.getPublicKey cert);
  key ← pib (Pib.Identity_addKey publicKeyType id bits keyName keyType);
  pib (Pib.Key_addCertificate key cert).

(** [ndn-cxx/security/key-chain.cpp:484-497] KeyChain::importPrivateKey *)
Definition importPrivateKey (keyName : Name.t) (key : PrivateKey) : P_ unit :=
  s ← selfP;
  _ ← (if Tpm.hasKey keyName (m_tpm s) then throwP (KeyChainError "Private key already exists") else mret tt);
  catchP is_tpm_error (tpm (Tpm.importPrivateKeyObject keyName key)) (throwP (KeyChainError "Failed to import private key")).

End keychain.
End KeyChain.
