(* ===== verification/KeyChainFacts.v ===== *)
(** * What the key chain guarantees

    The front end of the TPM never uses a handle of a key that is gone; what the
    key chain signs is verified with the public key of the signer; and a bag
    that carries a certificate and its key survives its encoding. *)

From stdpp Require Import list gmap.
From S2P Require Import Prelude Tlv Encoding Blocks BlockHelpers Text NameComponents Names Fields DataPacket InterestPacket.
From S2P Require Import InMemoryStorage Announcements Certificates Signatures Pib PibFacts Tpm KeyChain.

(** ** The handles of the TPM *)

Module TpmFacts.
Import NameMap Tpm.
Section tpm.
Context `{Crypto} `{PrivateKeys}.

(** Every handle in the cache is that of the key in the back end. *)
Definition coherent (s : t) : Prop :=
  forall k n h, m_keys s !! k = Some (n, h) -> exists n', m_backEnd s !! k = Some (n', KeyHandle.m_key h).

(** What the operations mean without the cache. *)
Definition direct {A} (f : PrivateKey -> result A) (keyName : Name.t) (b : BackEndMem.t) : result (option A) :=
  match find keyName b with
  | None => Ok None
  | Some key => a ← f key; Ok (Some a)
  end.

Lemma lookup_assign {A} (n : Name.t) (a : A) (m : nmap A) k : snd <$> assign n a m !! k = if decide (k = key_of n) then Some a else snd <$> m !! k.
Proof. rewrite PibFacts.find_assign. by destruct (decide _). Qed.

Lemma assign_same {A} (n : Name.t) (a : A) (m : nmap A) k x : assign n a m !! k = Some x -> k = key_of n /\ x.2 = a \/ k <> key_of n /\ m !! k = Some x.
Proof. rewrite PibFacts.find_assign. destruct (decide (k = key_of n)); [|by right]. intros [= <-]. by left. Qed.

Lemma assign_at {A} (n : Name.t) (a : A) (m : nmap A) : exists n', assign n a m !! key_of n = Some (n', a).
Proof. rewrite PibFacts.find_assign, decide_True by done. eauto. Qed.

Lemma assign_other {A} (n : Name.t) (a : A) (m : nmap A) k : k <> key_of n -> assign n a m !! k = m !! k.
Proof. intros Hk. by rewrite PibFacts.find_assign, decide_False. Qed.

Lemma findKey_spec s keyName : coherent s -> exists s', findKey keyName s = Some (s', Ok (KeyHandle.mk (match find keyName (m_keys s) with Some h => KeyHandle.m_keyName h | None => Name.empty end) <$> find keyName (m_backEnd s))) /\
  coherent s' /\ m_backEnd s' = m_backEnd s.
Proof.
  intros Hc. unfold findKey. rewrite (bindP_run selfP _ s s s) by done. destruct (find keyName (m_keys s)) as [h|] eqn:E.
  - exists s. split; [|done]. unfold find in *. destruct (m_keys s !! key_of keyName) as [[n h']|] eqn:E'; [|done]. injection E as ->.
    destruct (Hc _ _ _ E') as (n' & Eb). rewrite Eb. by destruct h.
  - unfold BackEndMem.getKeyHandle. destruct (find keyName (m_backEnd s)) as [key|] eqn:Eb; cbn; [|by exists s].
    eexists. split; [done|]. split; [|done]. intros k n h Hk. cbn in *. apply assign_same in Hk as [[-> Hh]|[Hne Hk]]; [|by eapply Hc].
    cbn in Hh. subst h. unfold find in Eb. apply fmap_Some in Eb as ([n' key'] & Eb & ->). exists n'. exact Eb.
Qed.

Lemma onHandle_spec {A} (f : KeyHandle.t -> result A) (g : PrivateKey -> result A) s keyName : (forall h, f h = g (KeyHandle.m_key h)) -> coherent s ->
  exists s', onHandle keyName f s = Some (s', direct g keyName (m_backEnd s)) /\ coherent s' /\ m_backEnd s' = m_backEnd s.
Proof.
  intros Hf Hc. destruct (findKey_spec s keyName Hc) as (s' & E & Hc' & Hb). exists s'. split; [|done].
  unfold onHandle. rewrite (bindP_run _ _ _ _ _ E). unfold direct. destruct (find keyName (m_backEnd s)) as [key|]; cbn; [|done].
  unfold mbind at 1, P_bind, liftP. rewrite Hf. cbn. by destruct (g key).
Qed.

(** The operations that change the keys. *)
Inductive op :=
  | Create (generated : option PrivateKey) (words : list Z) (identityName : Name.t) (params : KeyParams.t)
  | Delete (keyName : Name.t)
  | Import (keyName : Name.t) (pkcs8 pw : bytes)
  | ImportObject (keyName : Name.t) (key : PrivateKey)
  | Use (keyName : Name.t).

Definition perform (x : op) : P t unit :=
  match x with
  | Create generated words identityName params => _ ← createKey generated words identityName params; mret tt
  | Delete keyName => deleteKey keyName
  | Import keyName pkcs8 pw => importPrivateKey keyName pkcs8 pw
  | ImportObject keyName key => importPrivateKeyObject keyName key
  | Use keyName => _ ← findKey keyName; mret tt
  end.

Inductive reachable : t -> Prop :=
| tpm_init : reachable init
| tpm_step x s s' r : reachable s -> perform x s = Some (s', r) -> reachable s'.

(** A new key is in the back end under the name of its handle; a failure
    changes nothing. *)
Lemma createKey_backEnd generated words identity params b b' r : BackEndMem.createKey generated words identity params b = Some (b', r) ->
  match r with
  | Ok h => generated = Some (KeyHandle.m_key h) /\ b' = assign (KeyHandle.m_keyName h) (KeyHandle.m_key h) b
  | Throw _ => b' = b
  end.
Proof.
  assert (Hdo : BackEndMem.doCreateKey generated words identity params b = Some (b', r) ->
    match r with
    | Ok h => generated = Some (KeyHandle.m_key h) /\ b' = assign (KeyHandle.m_keyName h) (KeyHandle.m_key h) b
    | Throw _ => b' = b
    end).
  { unfold BackEndMem.doCreateKey, mbind, P_bind, liftP, definedP, throwP, selfP, modifyP, mret, P_ret, transformed.
    intros E. destruct (KeyParams.m_keyType params); cbn in E; try (injection E as <- <-; done);
      (destruct generated as [key|]; cbn in E; [|by injection E as <- <-]); cbn in E.
    3: { destruct (BackEndMem.constructHmacKeyName key identity); by injection E as <- <-. }
    all: destruct (BackEndMem.constructAsymmetricKeyName _ _ _ _ _) as [[n|e]|]; cbn in E; [|by injection E as <- <-|done]; by injection E as <- <-. }
  intros E. unfold BackEndMem.createKey in E.
  assert (Hk : BackEndMem.doCreateKey generated words identity params b = Some (b', r) \/ Some (b', r) = Some (b, Throw (TpmError "Key already exists"))).
  { unfold mbind, P_bind, selfP, mret, P_ret, throwP, liftP in E.
    destruct (KeyParams.m_keyType params); try (by left); destruct (KeyParams.m_keyIdType params); try (by left);
      destruct (BackEndMem.hasKey _ b); (by left) || (right; by rewrite <- E). }
  destruct Hk as [Hk|[= -> ->]]; [by apply Hdo|done].
Qed.

Lemma createKey_spec generated words identity params s s' r : createKey generated words identity params s = Some (s', r) ->
  match r with
  | Ok n => exists h, KeyHandle.m_keyName h = n /\ generated = Some (KeyHandle.m_key h) /\
      m_backEnd s' = assign n (KeyHandle.m_key h) (m_backEnd s) /\ m_keys s' = assign n h (m_keys s)
  | Throw _ => s' = s
  end.
Proof.
  unfold createKey, backEnd, mbind, P_bind, zoomPP. destruct (BackEndMem.createKey _ _ _ _ _) as [[b [h|e]]|] eqn:E; [| |done];
    apply createKey_backEnd in E; intros [= <- <-].
  - destruct E as [Eg ->]. by exists h.
  - rewrite E. by destruct s.
Qed.

Lemma coherent_absent s n : coherent s -> has n (m_backEnd s) = false -> m_keys s !! key_of n = None.
Proof.
  intros Hc Hn. apply eq_None_not_Some. intros [[n' h] E]. apply Hc in E as (n'' & E). apply not_true_iff_false in Hn. apply Hn, PibFacts.has_lookup. exact (mk_is_Some _ _ E).
Qed.

Lemma import_coherent s n key : coherent s -> has n (m_backEnd s) = false -> coherent (with_backEnd (assign n key (m_backEnd s)) s).
Proof.
  intros Hc Hn k n' h Hk. cbn in *. apply (coherent_absent s n Hc) in Hn. assert (k <> key_of n) by (intros ->; congruence).
  rewrite assign_other by done. by eapply Hc.
Qed.

Lemma perform_coherent x s s' r : coherent s -> perform x s = Some (s', r) -> coherent s'.
Proof.
  intros Hc E. destruct x as [generated words identity params|n|n pkcs8 pw|n key|n]; cbn [perform] in E.
  - unfold mbind, P_bind in E. destruct (createKey _ _ _ _ s) as [[s1 r1]|] eqn:E1; [|done]. apply createKey_spec in E1.
    destruct r1 as [n|e]; injection E as <- <-; [|by subst]. destruct E1 as (h & _ & _ & Eb & Ek). intros k n' h' Hk. rewrite Ek in Hk. rewrite Eb.
    apply assign_same in Hk as [[-> Hh]|[Hne Hk]]; [cbn in Hh; subst h'; apply assign_at|]. rewrite assign_other by done. by eapply Hc.
  - injection E as <- <-. intros k n' h Hk. cbn in *. unfold erase in *. apply lookup_delete_Some in Hk as [Hne Hk].
    rewrite lookup_delete_ne by done. by eapply Hc.
  - unfold importPrivateKey, backEnd, zoomPP, BackEndMem.importKey, mbind, P_bind, selfP, BackEndMem.hasKey in E.
    destruct (has n (m_backEnd s)) eqn:Eh; cbn in E; [injection E as <- <-; by destruct s|].
    destruct (loadPrivatePkcs8 pkcs8 pw) as [key|]; cbn in E; injection E as <- <-; [by apply import_coherent|by destruct s].
  - unfold importPrivateKeyObject, backEnd, zoomPP, BackEndMem.importKeyObject, mbind, P_bind, selfP, BackEndMem.hasKey in E.
    destruct (has n (m_backEnd s)) eqn:Eh; cbn in E; injection E as <- <-; [by destruct s|by apply import_coherent].
  - destruct (findKey_spec s n Hc) as (s1 & E1 & Hc1 & _). rewrite (bindP_run _ _ _ _ _ E1) in E. by injection E as <- <-.
Qed.

Lemma reachable_coherent s : reachable s -> coherent s.
Proof. induction 1 as [|x s s' r _ IH E]; [by intros k n h; cbn; rewrite lookup_empty|by apply (perform_coherent x s s' r)]. Qed.

(** C34: The TPM is the map of its back end, whatever keys were created,
    deleted, imported and used before: the handles that the front end caches
    are never those of a key that was deleted or replaced.  Signing, verifying,
    decrypting and exporting the public half use the key that the back end has
    now, and say that there is none when it has none; a key that is created is
    the one that signs afterwards, and a deleted key never signs again. *)
Theorem tpm_refines_map s keyName : reachable s ->
  (forall bufs ty d, exists s', sign bufs keyName ty d s = Some (s', direct (fun key => transformed (signerFilter d key ty bufs)) keyName (m_backEnd s)) /\
     m_backEnd s' = m_backEnd s) /\
  (forall bufs sig ty d, exists s', verify bufs sig keyName ty d s =
     Some (s', direct (fun key => transformed (privateVerifierFilter d key ty bufs sig)) keyName (m_backEnd s)) /\ m_backEnd s' = m_backEnd s) /\
  (forall buf ty, exists s', decrypt buf keyName ty s = Some (s', direct (fun key => transformed (decryptFilter key ty buf)) keyName (m_backEnd s)) /\
     m_backEnd s' = m_backEnd s) /\
  (exists s', getPublicKey keyName s = Some (s', direct (fun key => transformed (derivePublicKey key)) keyName (m_backEnd s)) /\ m_backEnd s' = m_backEnd s) /\
  (forall generated words identity params s' n, createKey generated words identity params s = Some (s', Ok n) ->
     generated = find n (m_backEnd s') /\ forall n', Name.equals n n' = false -> find n' (m_backEnd s') = find n' (m_backEnd s)) /\
  (exists s', deleteKey keyName s = Some (s', Ok tt) /\ forall bufs ty d, exists s'', sign bufs keyName ty d s' = Some (s'', Ok None)).
Proof.
  intros Hr. apply reachable_coherent in Hr as Hc. split_and!.
  - intros bufs ty d. destruct (onHandle_spec (KeyHandle.sign d bufs ty) (fun key => transformed (signerFilter d key ty bufs)) s keyName (fun _ => eq_refl) Hc)
      as (s' & E & _ & Hb). by exists s'.
  - intros bufs sig ty d. destruct (onHandle_spec (KeyHandle.verify d bufs sig ty) (fun key => transformed (privateVerifierFilter d key ty bufs sig)) s keyName
      (fun _ => eq_refl) Hc) as (s' & E & _ & Hb). by exists s'.
  - intros buf ty. destruct (onHandle_spec (KeyHandle.decrypt buf ty) (fun key => transformed (decryptFilter key ty buf)) s keyName (fun _ => eq_refl) Hc)
      as (s' & E & _ & Hb). by exists s'.
  - destruct (onHandle_spec KeyHandle.publicKey (fun key => transformed (derivePublicKey key)) s keyName (fun _ => eq_refl) Hc) as (s' & E & _ & Hb). by exists s'.
  - intros generated words identity params s' n E. apply createKey_spec in E as (h & _ & -> & Eb & _). rewrite Eb. unfold find. split.
    + by rewrite lookup_assign, decide_True.
    + intros n' Hn. rewrite PibFacts.key_equals, bool_decide_eq_false in Hn. by rewrite lookup_assign, decide_False by congruence.
  - eexists. split; [reflexivity|]. intros bufs ty d.
    assert (Hc' : coherent (with_backEnd (erase keyName (m_backEnd s)) (with_keys (erase keyName (m_keys s)) s))) by (by apply (perform_coherent (Delete keyName) s _ (Ok tt))).
    destruct (onHandle_spec (KeyHandle.sign d bufs ty) (fun key => transformed (signerFilter d key ty bufs)) _ keyName (fun _ => eq_refl) Hc') as (s'' & E & _).
    exists s''. unfold sign. etransitivity; [exact E|]. unfold direct, find, erase. cbn. by rewrite lookup_delete_eq.
Qed.

End tpm.
End TpmFacts.

(** ** Signing *)

Module KeyChainFacts.
Import FieldFacts DataFacts DataTheorems NameMap KeyName security KeyChain.

(** What is relied on of the algorithms, for one key used with one type: a
    signature is verified with the public half of the key that made it. *)
Definition sound_signatures `{Crypto} `{PrivateKeys} (key : PrivateKey) (ty : KeyType) : Prop :=
  forall d bufs sig bits, signerFilter d key ty bufs = Some sig -> derivePublicKey key = Some bits ->
  exists pub, loadPkcs8 bits = Some pub /\ verifierFilter d pub ty bufs sig = Some true.

Section signing.
Context `{Crypto} `{PrivateKeys} (autoCheck : bool).

Notation t := (@KeyChain.t _).

Lemma pib_read {A} (m : P Pib.t A) (s : t) r : m (m_pib s) = Some (m_pib s, r) -> pib m s = Some (s, r).
Proof. intros E. unfold pib. rewrite (zoomPP_run _ _ _ _ _ _ E). by destruct s. Qed.

Lemma lockKey_run (s : Pib.t) a k : Pib.h_keys s !! a = Some k -> Pib.lockKey (Some a) s = Some (s, Ok (a, k)).
Proof. intros E. unfold Pib.lockKey, mbind, P_bind, selfP. cbn. by rewrite E. Qed.

Lemma isKey_run (s : Pib.t) a k : Pib.h_keys s !! a = Some k -> Pib.isKey (Some a) s = true.
Proof. intros E. cbn. apply bool_decide_eq_true. by rewrite E. Qed.

Lemma Key_getName_run (s : Pib.t) a k : Pib.h_keys s !! a = Some k -> Pib.Key_getName (Some a) s = Some (s, Ok (Pib.k_keyName k)).
Proof. intros E. unfold Pib.Key_getName. by rewrite (bindP_run _ _ _ _ _ (lockKey_run s a k E)). Qed.

Lemma Key_getKeyType_run (s : Pib.t) a k : Pib.h_keys s !! a = Some k -> Pib.Key_getKeyType (Some a) s = Some (s, Ok (Pib.k_keyType k)).
Proof. intros E. unfold Pib.Key_getKeyType. by rewrite (bindP_run _ _ _ _ _ (lockKey_run s a k E)). Qed.

(** What [prepareSignatureInfo] makes of a semi-prepared [info] for a key. *)
Definition prepared (ty : Z) (keyName : Name.t) (info : SignatureInfo.t) : SignatureInfo.t :=
  SignatureInfo.mk ty (Some (KeyLocator.ofName keyName)) (SignatureInfo.m_otherTlvs info) Block.empty.

Lemma prepared_exec ty keyName info : SignatureInfo.m_keyLocator info = None ->
  exec (_ ← SignatureInfo.setSignatureType ty; SignatureInfo.setKeyLocator (Some (KeyLocator.ofName keyName))) info = Ok (prepared ty keyName info).
Proof.
  intros Hk. unfold exec, SignatureInfo.setSignatureType, mbind, M_bind, self. destruct (Z.eqb_spec ty (SignatureInfo.m_type info)) as [->|Hne]; cbn.
  - unfold SignatureInfo.setKeyLocator, mbind, M_bind, self. rewrite Hk. reflexivity.
  - unfold SignatureInfo.setKeyLocator, mbind, M_bind, self. cbn. rewrite Hk. reflexivity.
Qed.

(** The parameters that ask for a key by its handle. *)
Definition by_key (a : nat) (params : SigningInfo.t) : Prop :=
  SigningInfo.m_type params = SigningInfo.SIGNER_TYPE_KEY /\ SigningInfo.m_key params = Some a /\
  SignatureInfo.m_keyLocator (SigningInfo.m_info params) = None.

Lemma prepare_by_key (s : t) params a k ty : by_key a params -> Pib.h_keys (m_pib s) !! a = Some k -> getSignatureType (Pib.k_keyType k) = Ok ty ->
  prepareSignatureInfo params s = Some (s, Ok (Pib.k_keyName k, prepared ty (Pib.k_keyName k) (SigningInfo.m_info params))).
Proof.
  intros (Ht & Hk & Hl) Ea Ety. unfold prepareSignatureInfo.
  rewrite (bindP_run _ _ s s (UseKey (Some a))).
  2: { unfold chooseSigner. rewrite Ht, Hk. rewrite (bindP_run selfP _ s s s) by done. by rewrite (isKey_run _ _ _ Ea). }
  cbv beta iota zeta. rewrite (bindP_run selfP _ s s s) by done. rewrite (isKey_run _ _ _ Ea).
  rewrite (bindP_run _ _ _ _ _ (pib_read _ s _ (Key_getKeyType_run _ _ _ Ea))).
  rewrite Ety. rewrite (bindP_run (liftP (Ok ty)) _ s s ty) by done.
  rewrite (bindP_run _ _ _ _ _ (pib_read _ s _ (Key_getName_run _ _ _ Ea))).
  rewrite prepared_exec by done. reflexivity.
Qed.

(** Signing some octets with a key that the TPM has. *)
Lemma sign_run (s : t) bufs keyName ty d key : TpmFacts.coherent (m_tpm s) -> Name.equals keyName SigningInfo.getDigestSha256Identity = false ->
  find keyName (Tpm.m_backEnd (m_tpm s)) = Some key ->
  let d' := match ty with SM2 => SM3 | _ => d end in
  forall sig, signerFilter d' key ty bufs = Some sig ->
  exists s', sign bufs keyName ty d s = Some (s', Ok sig) /\ m_pib s' = m_pib s /\ Tpm.m_backEnd (m_tpm s') = Tpm.m_backEnd (m_tpm s) /\ TpmFacts.coherent (m_tpm s').
Proof.
  intros Hc Hn Hk d' sig Hs. unfold sign. rewrite Hn.
  destruct (TpmFacts.onHandle_spec (KeyHandle.sign d' bufs ty) (fun key => transformed (signerFilter d' key ty bufs)) (m_tpm s) keyName (fun _ => eq_refl) Hc)
    as (t' & E & Hc' & Hb). unfold TpmFacts.direct in E. rewrite Hk in E. cbn in E. rewrite Hs in E. cbn in E.
  exists (with_tpm t' s). rewrite (bindP_run _ _ s (with_tpm t' s) (Some sig)); [done|].
  unfold tpm. exact (zoomPP_run _ _ _ _ _ _ E).
Qed.

Lemma keyTypeOf_signature ty n : getSignatureType ty = Ok n -> verification.keyTypeOf n = ty.
Proof. destruct ty; cbn; intros [= <-]; done. Qed.

(** The packet that is signed. *)
Definition to_sign (info : SignatureInfo.t) (d : Data.t) : Data.t :=
  Data.with_fullName (Name.clear (Data.m_fullName d)) (Data.with_wire Block.empty (Data.with_signatureInfo info d)).

Lemma newEncoder_ok : Encoder.wf newEncoder /\ Encoder.view newEncoder = [].
Proof.
  unfold newEncoder, Encoder.wf, Encoder.view, Encoder.make. cbn [Encoder.m_begin Encoder.m_end Encoder.m_buffer]. split; [lia|].
  by rewrite Nat.sub_diag.
Qed.

Lemma signData_run (s : t) (d : Data.t) params a k key n sig :
  by_key a params -> Pib.h_keys (m_pib s) !! a = Some k -> getSignatureType (Pib.k_keyType k) = Ok n ->
  TpmFacts.coherent (m_tpm s) -> Name.equals (Pib.k_keyName k) SigningInfo.getDigestSha256Identity = false ->
  find (Pib.k_keyName k) (Tpm.m_backEnd (m_tpm s)) = Some key ->
  let d1 := to_sign (prepared n (Pib.k_keyName k) (SigningInfo.m_info params)) d in
  let digest := match Pib.k_keyType k with SM2 => SM3 | _ => SigningInfo.m_digestAlgorithm params end in
  unsigned_ok d1 ->
  signerFilter digest key (Pib.k_keyType k) [BlockFacts.tlv_seq (signed_seq d1)] = Some sig ->
  is_u64 (len (BlockFacts.tlv_seq (signed_seq d1 ++ [(tlv.SignatureValue, sig)]))) ->
  exists s', signData params (s, d) = Some ((s', data_norm (signed_with d1 sig)), Ok tt) /\
    m_pib s' = m_pib s /\ Tpm.m_backEnd (m_tpm s') = Tpm.m_backEnd (m_tpm s) /\ TpmFacts.coherent (m_tpm s') /\
    Data.extractSignedRanges (data_norm (signed_with d1 sig)) = (data_norm (signed_with d1 sig), Ok (BlockFacts.tlv_seq (signed_seq d1))).
Proof.
  intros Hp Ea En Hc Hne Hk d1 digest Hd Hs Hl. destruct newEncoder_ok as [Hw Hv].
  destruct (data_signed d1 sig newEncoder Hd Hw Hv Hl) as (f & Hf & H1 & _ & H3).
  destruct (EncSeq_data_unsigned d1 Hd) as (f' & Hf' & Ef). rewrite Hf in Hf'. injection Hf' as <-.
  assert (Hview : Encoder.view (encode f) = BlockFacts.tlv_seq (signed_seq d1)).
  { unfold encode. pose proof (Ef Encoder.t _ _ newEncoder Hw) as HE. destruct (f Encoder.t _ newEncoder) as [e1 n1]. destruct HE as (_ & (V1 & _) & _).
    cbn [fst]. by rewrite V1, Hv, app_nil_r. }
  fold (encode f) in H1, H3. rewrite Hview in H3.
  destruct (sign_run s [Encoder.view (encode f)] (Pib.k_keyName k) (Pib.k_keyType k) (SigningInfo.m_digestAlgorithm params) key Hc Hne Hk sig)
    as (s' & Esign & Hpib & Hb & Hc'); [by rewrite Hview|].
  exists s'. split; [|exact (conj Hpib (conj Hb (conj Hc' H3)))]. unfold signData.
  rewrite (bindP_run _ _ (s, d) (s, d) (Pib.k_keyName k, prepared n (Pib.k_keyName k) (SigningInfo.m_info params))).
  2: { unfold onChain. exact (zoomPP_run fst (fun x s => (x, snd s)) _ (s, d) _ _ (prepare_by_key s params a k n Hp Ea En)). }
  cbv beta iota zeta. change (SignatureInfo.m_type (prepared n _ _)) with n. rewrite (keyTypeOf_signature _ _ En).
  rewrite (bindP_run _ _ (s, d) (s, d1) tt) by done.
  rewrite (bindP_run selfP _ (s, d1) (s, d1) (s, d1)) by done. cbn [snd].
  rewrite (bindP_run _ _ (s, d1) (s, d1) f) by (unfold liftP; by rewrite Hf).
  rewrite (bindP_run _ _ (s, d1) (s', d1) sig).
  2: { unfold onChain. exact (zoomPP_run fst (fun x s => (x, snd s)) _ (s, d1) _ _ Esign). }
  rewrite (bindP_run _ _ (s', d1) (s', data_norm (signed_with d1 sig)) (Data.m_wire (data_norm (signed_with d1 sig)))); [done|].
  unfold onPacket. exact (zoomP_run snd (fun x s => (fst s, x)) _ (s', d1) _ _ H1).
Qed.

Lemma verifyParsed_signed params sig key ty bits pub : verification.bufs params <> [] -> verification.sig params = sig ->
  loadPkcs8 bits = Some pub -> verifierFilter (if decide (ty = SM2) then SM3 else SHA256) pub ty (verification.bufs params) sig = Some true ->
  key = bits -> verification.verifyParsedBits params key ty = true.
Proof.
  intros Hb <- Hp Hv ->. unfold verification.verifyParsedBits, verification.verifyBlobsBits, verification.verifyBlobs. rewrite Hp, Hv.
  by destruct (verification.bufs params).
Qed.

(** C3: What the key chain signs is verified.  Signing a Data packet with a
    key of the PIB whose private half is in the TPM succeeds and leaves the
    PIB and the keys of the TPM as they are; the packet has the same name, meta
    information and content, names the key in its KeyLocator, and is accepted
    by the verification with the public key, with the key of the PIB, and with
    every certificate that carries the public key - for RSA, ECDSA and SM2 keys
    alike, with the digest that belongs to the type. *)
Theorem keychain_sign_verify (s : t) (d : Data.t) (params : SigningInfo.t) (a : nat) (k : Pib.KeyImpl) (key : PrivateKey) (n : Z) (sig : bytes)
    (cert : Certificate.t)
    (Hlaw : sound_signatures key (Pib.k_keyType k)) (Hparams : by_key a params)
    (Hdigest : SigningInfo.m_digestAlgorithm params = SHA256)
    (Hkey : Pib.h_keys (m_pib s) !! a = Some k) (Htype : getSignatureType (Pib.k_keyType k) = Ok n)
    (Htpm : TpmFacts.reachable (m_tpm s)) (Hname : Name.equals (Pib.k_keyName k) SigningInfo.getDigestSha256Identity = false)
    (Hfind : find (Pib.k_keyName k) (Tpm.m_backEnd (m_tpm s)) = Some key)
    (Hpub : derivePublicKey key = Some (Pib.k_key k)) :
  let d1 := to_sign (prepared n (Pib.k_keyName k) (SigningInfo.m_info params)) d in
  let digest := if decide (Pib.k_keyType k = SM2) then SM3 else SHA256 in
  unsigned_ok d1 ->
  signerFilter digest key (Pib.k_keyType k) [BlockFacts.tlv_seq (signed_seq d1)] = Some sig ->
  is_u64 (len (BlockFacts.tlv_seq (signed_seq d1 ++ [(tlv.SignatureValue, sig)]))) ->
  Block.value (Data.m_content cert) = Pib.k_key k ->
  exists s' d', signData params (s, d) = Some ((s', d'), Ok tt) /\
    m_pib s' = m_pib s /\ Tpm.m_backEnd (m_tpm s') = Tpm.m_backEnd (m_tpm s) /\
    same_data (signed_with d1 sig) d' /\
    SignatureInfo.m_type (Data.m_signatureInfo d') = n /\
    verification.verifyDataBits d' (Pib.k_key k) = Ok true /\
    verification.verifyDataPib d' (Pib.k_keyType k) (Pib.k_key k) = Ok true /\
    verification.verifyData d' (Some cert) = Ok true.
Proof.
  intros d1 digest Hd Hs Hl Hcert. apply TpmFacts.reachable_coherent in Htpm as Hc.
  assert (Hs' : signerFilter (match Pib.k_keyType k with SM2 => SM3 | _ => SigningInfo.m_digestAlgorithm params end) key (Pib.k_keyType k)
    [BlockFacts.tlv_seq (signed_seq d1)] = Some sig).
  { rewrite Hdigest. unfold digest in Hs. destruct (Pib.k_keyType k); exact Hs. }
  destruct (signData_run s d params a k key n sig Hparams Hkey Htype Hc Hname Hfind Hd Hs' Hl) as (s' & E & Hp & Hb & _ & Hr). fold d1 in E, Hr.
  destruct (Hlaw _ _ _ _ Hs Hpub) as (pub & Hload & Hver).
  assert (Hn : verification.keyTypeOf n = Pib.k_keyType k) by (by apply keyTypeOf_signature).
  assert (Hparse : verification.parseData (data_norm (signed_with d1 sig)) =
    Ok (verification.mkParse (Data.m_signatureInfo (data_norm (signed_with d1 sig))) [BlockFacts.tlv_seq (signed_seq d1)] sig)).
  { unfold verification.parseData. rewrite Hr. reflexivity. }
  assert (Hok : verification.verifyParsedBits (verification.mkParse (Data.m_signatureInfo (data_norm (signed_with d1 sig))) [BlockFacts.tlv_seq (signed_seq d1)] sig)
    (Pib.k_key k) (Pib.k_keyType k) = true) by (by eapply verifyParsed_signed).
  exists s', (data_norm (signed_with d1 sig)). split; [exact E|]. split; [exact Hp|]. split; [exact Hb|]. split_and!.
  - apply same_data_norm. split; [exact Hd|]. split; [|reflexivity]. apply block_ok_of_value. split; [by vm_compute|].
    apply (nested_len _ (tlv.SignatureValue, sig)) in Hl; [exact Hl|]. apply elem_of_app. right. left.
  - reflexivity.
  - unfold verification.verifyDataBits. rewrite Hparse. cbn [mbind result_bind]. change (SignatureInfo.m_type _) with n. by rewrite Hn, Hok.
  - unfold verification.verifyDataPib. change (SignatureInfo.m_type _) with n. rewrite Hn, decide_True by done. rewrite Hparse. cbn [mbind result_bind].
    by rewrite Hok.
  - unfold verification.verifyData. rewrite Hparse. cbn [mbind result_bind]. change (SignatureInfo.m_type _) with n. by rewrite Hn, Hcert, Hok.
Qed.

End signing.
(** *** A key comes into an empty PIB *)

Section import.
Context `{Crypto} `{PrivateKeys} (publicKeyType : PublicKey -> KeyType).
Import PibFacts.

Lemma find_assign_same {A} (n : Name.t) (a : A) (m : nmap A) : find n (assign n a m) = Some a.
Proof. unfold find. by rewrite find_assign, decide_True. Qed.

Lemma no_keys id (b : PibMemory.t) : PibMemory.m_keys b = ∅ -> PibMemory.getKeysOfIdentity id b = Ok ∅.
Proof. intros E. unfold PibMemory.getKeysOfIdentity. by rewrite E, map_fold_empty. Qed.

Lemma no_certs kn (b : PibMemory.t) : PibMemory.m_certs b = ∅ -> PibMemory.getCertificatesOfKey kn b = Ok ∅.
Proof. intros E. unfold PibMemory.getCertificatesOfKey. by rewrite E, map_fold_empty. Qed.

Lemma same_refl s : same s s = true.
Proof. unfold same. by apply bool_decide_eq_true. Qed.

Definition pib0 : Pib.t := Pib.make PibMemory.init.

(** The PIB with one identity, and with its key. *)
Definition pib1 (id : Name.t) : Pib.t :=
  Pib.mk false None (insert id ∅) (assign id O ∅) (PibMemory.addIdentity id PibMemory.init)
    {[O := Pib.mkIdentityImpl id ∅ ∅ false None]} ∅ 1.

Definition newKeyImpl (id kn : Name.t) (bits : bytes) (ty : KeyType) : Pib.KeyImpl :=
  Pib.mkKeyImpl id kn bits ty ∅ ∅ false (Data.ofName Name.empty).

Definition pib2 (id kid kn : Name.t) (bits : bytes) (ty : KeyType) : Pib.t :=
  Pib.mk false None (insert id ∅) (assign id O ∅) (PibMemory.addKey kid kn ty bits (PibMemory.addIdentity id PibMemory.init))
    {[O := Pib.mkIdentityImpl id (insert kn ∅) (assign kn 1%nat ∅) false None]} {[1%nat := newKeyImpl kid kn bits ty]} 2.

Lemma getIdentity_fresh id : Pib.getIdentity id pib0 = Some (pib0, Throw (PibError "Identity does not exist")).
Proof. reflexivity. Qed.

Lemma addIdentity_fresh id : Pib.addIdentity id pib0 = Some (pib1 id, Ok (Some O)).
Proof.
  unfold Pib.addIdentity. rewrite (bindP_run Pib.assertIdentities _ pib0 pib0 tt) by reflexivity. unfold Pib.IdentityContainer_add.
  rewrite (bindP_run selfP _ pib0 pib0 pib0) by done. rewrite (bindP_run _ _ pib0 (pib1 id) tt) by reflexivity.
  unfold Pib.IdentityContainer_get. rewrite (bindP_run selfP _ (pib1 id) (pib1 id) (pib1 id)) by done.
  change (Pib.m_identities (pib1 id)) with (assign id O ∅ : nmap nat). by rewrite find_assign_same.
Qed.

Lemma addKey_fresh id kid kn bits ty pub : extractIdentityFromKeyName kn = Ok kid -> Name.equals id kid = true ->
  loadPkcs8 bits = Some pub -> ty <> NONE ->
  Pib.Identity_addKey publicKeyType (Some O) bits kn ty (pib1 id) = Some (pib2 id kid kn bits ty, Ok (Some 1%nat)).
Proof.
  intros Ek Hid Hp Hty. set (i := Pib.mkIdentityImpl id ∅ ∅ false None).
  unfold Pib.Identity_addKey, Pib.onIdentity. rewrite (bindP_run _ _ (pib1 id) (pib1 id) (O, i)) by reflexivity.
  unfold Pib.IdentityImpl_addKey. rewrite (bindP_run _ _ (pib1 id) (pib1 id) tt).
  2: { unfold Pib.assertKeys. rewrite (bindP_run _ _ (pib1 id) (pib1 id) i) by reflexivity. unfold Pib.keysConsistent.
       rewrite (bindP_run _ _ (pib1 id) (pib1 id) true); [done|]. rewrite (bindP_run _ _ (pib1 id) (pib1 id) ∅); [done|]. unfold Pib.ask.
       rewrite (bindP_run selfP _ (pib1 id) (pib1 id) (pib1 id)) by done. rewrite no_keys by reflexivity. reflexivity. }
  unfold Pib.KeyContainer_add. rewrite (bindP_run _ _ (pib1 id) (pib1 id) i) by reflexivity.
  assert (Hm : forall (j : Pib.IdentityImpl) s, Pib.i_name j = id -> Pib.matchesIdentity j kn s = Some (s, Ok tt)).
  { intros j s Hj. unfold Pib.matchesIdentity. rewrite (bindP_run _ _ s s kid) by (by rewrite Ek). by rewrite Hj, Hid. }
  rewrite (bindP_run _ _ _ _ _ (Hm i (pib1 id) eq_refl)).
  set (s1 := Pib.mk false None (insert id ∅) (assign id O ∅) (PibMemory.addIdentity id PibMemory.init) {[O := Pib.mkIdentityImpl id (insert kn ∅) ∅ false None]} ∅ 1).
  rewrite (bindP_run _ _ (pib1 id) s1 tt).
  2: { unfold Pib.setIdentity, modifyP, pib1, s1, Pib.with_objects. cbn. by rewrite alter_singleton. }
  set (s2 := Pib.mk false None (insert id ∅) (assign id O ∅) (PibMemory.addKey kid kn ty bits (PibMemory.addIdentity id PibMemory.init))
    {[O := Pib.mkIdentityImpl id (insert kn ∅) ∅ false None]} {[1%nat := newKeyImpl kid kn bits ty]} 2).
  rewrite (bindP_run _ _ s1 s2 1%nat).
  2: { unfold Pib.KeyImpl_create, Pib.KeyImpl_members. rewrite (bindP_run _ _ s1 s1 kid) by (by rewrite Ek).
       rewrite (bindP_run _ _ s1 s1 ∅).
       2: { unfold Pib.ask. rewrite (bindP_run selfP _ s1 s1 s1) by done. rewrite no_certs by reflexivity. reflexivity. }
       rewrite Hp. replace (match ty with NONE => publicKeyType pub | _ => ty end) with ty by (by destruct ty). reflexivity. }
  rewrite (bindP_run _ _ s2 s2 tt) by reflexivity. rewrite (bindP_run _ _ s2 (pib2 id kid kn bits ty) tt).
  2: { unfold Pib.setIdentity, modifyP, pib2, s2, Pib.with_objects. cbn. by rewrite alter_singleton. }
  unfold Pib.KeyContainer_get. set (j := Pib.mkIdentityImpl id (insert kn ∅) (assign kn 1%nat ∅) false None).
  rewrite (bindP_run _ _ _ (pib2 id kid kn bits ty) j) by reflexivity. rewrite (bindP_run _ _ _ _ _ (Hm j _ eq_refl)).
  unfold j. cbn [Pib.i_keys]. by rewrite find_assign_same.
Qed.

(** The key object 1 of [pib2] takes a certificate. *)
Lemma addCertificate_fresh id kid kn bits ty c kn' : valid_key (key_of kn) -> parent (key_of kn) = key_of kid -> valid_cert (key_of (Data.m_name c)) ->
  Certificate.getKeyName c = Ok kn' -> Name.equals kn kn' = true ->
  exists s', Pib.Key_addCertificate (Some 1%nat) c (pib2 id kid kn bits ty) = Some (s', Ok tt) /\
    PibMemory.addCertificate c (PibMemory.addKey kid kn ty bits (PibMemory.addIdentity id PibMemory.init)) = (Pib.m_impl s', Ok tt).
Proof.
  intros Hv Hp Hc Ek Hkn. set (s2 := pib2 id kid kn bits ty). set (k := newKeyImpl kid kn bits ty).
  unfold Pib.Key_addCertificate, Pib.onKey. rewrite (bindP_run _ _ s2 s2 (1%nat, k)) by reflexivity.
  destruct (addKey_spec (PibMemory.addIdentity id PibMemory.init) kid kn ty bits) as (Hi & Hcerts & _);
    [by apply addIdentity_spec, init_integrity|exact Hv|exact Hp|].
  destruct (addCertificate_spec _ c Hi Hc) as (b & Eb & _).
  unfold Pib.KeyImpl_addCertificate. rewrite (bindP_run _ _ s2 s2 tt).
  2: { unfold Pib.assertCerts. rewrite (bindP_run _ _ s2 s2 k) by reflexivity. unfold Pib.certsConsistent.
       rewrite (bindP_run _ _ s2 s2 true); [done|]. rewrite (bindP_run _ _ s2 s2 ∅); [done|]. unfold Pib.ask.
       rewrite (bindP_run selfP _ s2 s2 s2) by done. rewrite no_certs; [reflexivity|]. exact Hcerts. }
  unfold Pib.CertificateContainer_add. rewrite (bindP_run _ _ s2 s2 k) by reflexivity.
  rewrite (bindP_run _ _ s2 s2 kn') by (by rewrite Ek). change (Pib.k_keyName k) with kn. rewrite Hkn. cbn [negb].
  rewrite (bindP_run _ _ _ _ _ eq_refl), (bindP_run _ _ _ _ _ eq_refl).
  unfold Pib.impl. erewrite (zoomP_run Pib.m_impl Pib.with_impl); [|exact Eb]. eexists. split; [reflexivity|exact Eb].
Qed.

(** What importing a bag leaves in the TPM and in the PIB. *)
Lemma importSafeBag_fresh (tpm0 : Tpm.t) bag pw c key kn id pub sig :
  let ty := verification.keyTypeOf (SignatureInfo.m_type (Data.m_signatureInfo c)) in
  let bits := Block.value (Data.m_content c) in
  let digest := match ty with SM2 => SM3 | _ => SHA256 end in
  SafeBag.m_certificate bag = c -> Certificate.ofData c = Ok c -> valid_cert (key_of (Data.m_name c)) ->
  Certificate.getKeyName c = Ok kn -> Certificate.getIdentity c = Ok id ->
  loadPrivatePkcs8 (SafeBag.m_encryptedKey bag) pw = Some key -> ty <> NONE ->
  TpmFacts.coherent tpm0 -> find kn (Tpm.m_backEnd tpm0) = None ->
  signerFilter digest key ty [probe] = Some sig -> loadPkcs8 bits = Some pub -> verifierFilter digest pub ty [probe] sig = Some true ->
  exists s', importSafeBag publicKeyType bag pw (KeyChain.mk _ pib0 tpm0) = Some (s', Ok tt) /\
    find kn (Tpm.m_backEnd (m_tpm s')) = Some key /\
    exists kid, extractIdentityFromKeyName kn = Ok kid /\
    PibMemory.addCertificate c (PibMemory.addKey kid kn ty bits (PibMemory.addIdentity id PibMemory.init)) = (Pib.m_impl (m_pib s'), Ok tt).
Proof.
  intros ty bits digest Hbag Hof Hv Ekn Eid Hload Hty Hco Habs Hsig Hpub Hver. set (s0 := KeyChain.mk _ pib0 tpm0).
  destruct (getKeyName_spec c Hv) as (kn' & Ekn' & Hkn). rewrite Ekn in Ekn'. injection Ekn' as <-.
  destruct (getIdentity_spec c Hv) as (id' & Eid' & Hid). rewrite Eid in Eid'. injection Eid' as <-.
  assert (Hvk : valid_key (key_of kn)) by (rewrite Hkn; by apply valid_cert_key).
  destruct (extractIdentity_spec kn Hvk) as (kid & Ekid & Hkid).
  assert (Hne : Block.value_size (Data.m_content c) =? 0 = false).
  { unfold Certificate.ofData, throw_if in Hof. destruct (negb (Certificate.isValidName _)); [done|]. destruct (negb _); [done|].
    destruct (_ <? 0); [done|]. by destruct (_ =? 0). }
  assert (Ebits : Certificate.getPublicKey c = Ok bits) by (unfold Certificate.getPublicKey, throw_if; by rewrite Hne).
  assert (Hhas : has kn (Tpm.m_backEnd tpm0) = false).
  { apply not_true_iff_false. rewrite has_lookup. intros [x Ex]. unfold find in Habs. by rewrite Ex in Habs. }
  set (tpm1 := Tpm.with_backEnd (assign kn key (Tpm.m_backEnd tpm0)) tpm0).
  assert (Hco1 : TpmFacts.coherent tpm1) by (by apply TpmFacts.import_coherent).
  destruct (TpmFacts.onHandle_spec (KeyHandle.sign digest [probe] ty) (fun key => transformed (signerFilter digest key ty [probe])) tpm1 kn (fun _ => eq_refl) Hco1)
    as (tpm2 & Esign & _ & Hb2).
  unfold TpmFacts.direct in Esign. change (Tpm.m_backEnd tpm1) with (assign kn key (Tpm.m_backEnd tpm0)) in Esign, Hb2.
  rewrite find_assign_same in Esign. cbn in Esign. rewrite Hsig in Esign. cbn in Esign.
  destruct (addCertificate_fresh id kid kn bits ty c kn Hvk (eq_sym Hkid) Hv Ekn) as (pib3 & E3 & Eb3); [rewrite key_equals; by apply bool_decide_eq_true|].
  exists (KeyChain.mk _ pib3 tpm2). split; [|split; [cbn; rewrite Hb2; apply find_assign_same|exists kid; exact (conj Ekid Eb3)]].
  unfold importSafeBag. rewrite Hbag. rewrite (bindP_run _ _ s0 s0 c) by (by rewrite Hof). rewrite (bindP_run _ _ s0 s0 id) by (by rewrite Eid).
  rewrite (bindP_run _ _ s0 s0 kn) by (by rewrite Ekn). rewrite (bindP_run _ _ s0 s0 bits) by (by rewrite Ebits). cbv zeta.
  rewrite (bindP_run _ _ s0 s0 key) by (by rewrite Hload).
  replace (if decide (_ = privateKeyType key) then privateKeyType key else _) with ty by (case_decide as Hd; [exact Hd|done]).
  rewrite (bindP_run selfP _ s0 s0 s0) by done. unfold Tpm.hasKey, BackEndMem.hasKey. cbn [m_tpm s0]. rewrite Hhas.
  rewrite (bindP_run _ _ s0 s0 tt) by done. rewrite (bindP_run _ _ s0 s0 tt) by reflexivity.
  set (s1 := KeyChain.mk _ pib0 tpm1). rewrite (bindP_run _ _ s0 s1 tt).
  2: { unfold catchP, tpm, Tpm.importPrivateKey, Tpm.backEnd, zoomPP, BackEndMem.importKey. cbn [m_tpm s0].
       rewrite (bindP_run selfP _ (Tpm.m_backEnd tpm0) _ _ eq_refl). unfold BackEndMem.hasKey. rewrite Hhas, Hload. reflexivity. }
  set (s2 := KeyChain.mk _ pib0 tpm2). rewrite (bindP_run _ _ s1 s2 tt).
  2: { unfold checkImported. fold digest. rewrite (bindP_run _ _ s1 s2 (Some sig)).
       2: { unfold catchP, tpm, Tpm.sign, zoomPP. cbn [m_tpm s1]. by rewrite Esign. }
       rewrite (bindP_run _ _ s2 s2 sig) by done. rewrite (bindP_run _ _ s2 s2 pub) by (by rewrite Hpub).
       rewrite (bindP_run _ _ s2 s2 true) by (by rewrite Hver). done. }
  rewrite (bindP_run _ _ s2 (KeyChain.mk _ (pib1 id) tpm2) (Some O)).
  2: { unfold pib, zoomPP. cbn [m_pib s2]. by rewrite addIdentity_fresh. }
  rewrite (bindP_run _ _ _ (KeyChain.mk _ (pib1 id) tpm2) bits) by (by rewrite Ebits).
  rewrite (bindP_run _ _ _ (KeyChain.mk _ (pib2 id kid kn bits ty) tpm2) (Some 1%nat)).
  2: { unfold pib, zoomPP. cbn [m_pib]. rewrite (addKey_fresh id kid kn bits ty pub); [done|exact Ekid| |exact Hpub|exact Hty].
       rewrite key_equals. apply bool_decide_eq_true. by rewrite Hid, Hkid, Hkn. }
  unfold pib, zoomPP. cbn [m_pib]. by rewrite E3.
Qed.

(** *** Bags *)

Definition bag_seq (b : SafeBag.t) : list (Z * bytes) :=
  [(tlv.Data, BlockFacts.tlv_seq (data_seq (SafeBag.m_certificate b))); (SafeBag.EncryptedKey, SafeBag.m_encryptedKey b)].

Lemma bag_encode b : data_ok (SafeBag.m_certificate b) -> is_u64 (len (BlockFacts.tlv_seq (bag_seq b))) ->
  snd (SafeBag.wireEncode b) = Ok (seq_block SafeBag.type (bag_seq b)).
Proof.
  intros Hd Hl. destruct (EncSeq_data _ Hd) as (f & Hf & Ef). unfold SafeBag.wireEncode. rewrite bindM_self.
  rewrite (bindM_lift _ _ _ (pTL SafeBag.type (encoding.prependBinaryBlock SafeBag.EncryptedKey (SafeBag.m_encryptedKey b) ;+ f)%prepender)).
  2: { unfold SafeBag.wireEncode_template. by rewrite Hf. }
  rewrite (bindM_lift _ _ _ (seq_block SafeBag.type (bag_seq b))); [reflexivity|].
  apply makeBlock_seq; [|by vm_compute|exact Hl]. apply EncSeq_TL. apply (EncSeq_then _ _ [_] [_]); [apply EncSeq_binary|exact Ef].
Qed.

Lemma bag_decode b : data_ok (SafeBag.m_certificate b) -> is_u64 (len (BlockFacts.tlv_seq (bag_seq b))) ->
  exists w, SafeBag.ofBlock (seq_block SafeBag.type (bag_seq b)) = Ok (SafeBag.mk (data_norm (SafeBag.m_certificate b)) (SafeBag.m_encryptedKey b) w).
Proof.
  intros Hd Hl. exists (parsed_block SafeBag.type (bag_seq b)). unfold SafeBag.ofBlock, exec, SafeBag.wireDecode.
  rewrite bindM_pass by done. erewrite bindM_ok.
  2: { apply assignParsed_seq. apply tlv_seq_ok; [|exact Hl]. repeat constructor; by vm_compute. }
  rewrite bindM_self. change (Block.elements _) with (BlockFacts.of_pair <$> bag_seq b). unfold bag_seq. cbn [fmap list_fmap].
  erewrite bindM_ok.
  2: { unfold zoom. cbn [SafeBag.m_certificate SafeBag.with_wire SafeBag.init]. change (BlockFacts.of_pair (tlv.Data, ?x)) with (Block.of_tlv tlv.Data x).
       change (Block.of_tlv tlv.Data (BlockFacts.tlv_seq ?l)) with (seq_block tlv.Data l).
       rewrite data_decode; [reflexivity|exact Hd|]. apply (nested_len (bag_seq b) (tlv.Data, _)); [left|exact Hl]. }
  change (Block.type (BlockFacts.of_pair (SafeBag.EncryptedKey, ?x))) with SafeBag.EncryptedKey. rewrite Z.eqb_refl, bindM_modify.
  unfold throwM_if, liftR, throw_if. reflexivity.
Qed.

Lemma ofData_norm cert : data_ok cert -> Z.of_nat (length (key_of (Data.m_name cert))) < 2 ^ 62 -> Certificate.ofData cert = Ok cert ->
  Certificate.ofData (data_norm cert) = Ok (data_norm cert) /\ valid_cert (key_of (Data.m_name (data_norm cert))) /\
  Block.value (Data.m_content (data_norm cert)) = Block.value (Data.m_content cert).
Proof.
  intros Hd Hsz. unfold Certificate.ofData, throw_if.
  assert (Hk : key_of (Data.m_name (data_norm cert)) = key_of (Data.m_name cert)) by apply keys_norm.
  destruct (Certificate.isValidName (Data.m_name cert)) eqn:Ev; cbn [negb]; [|done]. apply isValidName_spec in Ev; [|exact Hsz].
  rewrite (proj2 (isValidName_spec (Data.m_name (data_norm cert)) ltac:(by rewrite Hk))) by (by rewrite Hk). cbn [negb mbind result_bind].
  change (MetaInfo.m_type (Data.m_metaInfo (data_norm cert))) with (MetaInfo.m_type (Data.m_metaInfo cert)).
  change (MetaInfo.m_freshnessPeriod (Data.m_metaInfo (data_norm cert))) with (MetaInfo.m_freshnessPeriod (Data.m_metaInfo cert)).
  destruct (negb _); cbn [mbind result_bind]; [done|]. destruct (_ <? 0); cbn [mbind result_bind]; [done|].
  assert (Hc : Block.value_size (Data.m_content cert) =? 0 = false -> Data.m_content (data_norm cert) = BlockFacts.of_pair (tv (Data.m_content cert))).
  { intros Hz. destruct Hd as ((_ & _ & Hc & _) & _). unfold content_ok in Hc. unfold data_norm. cbn [Data.m_content].
    destruct (Data.hasContent cert); [done|]. by rewrite Hc in Hz. }
  destruct (Block.value_size (Data.m_content cert) =? 0) eqn:Ez; cbn [mbind result_bind]; [done|]. rewrite (Hc eq_refl). intros _.
  change (Block.value (BlockFacts.of_pair (tv (Data.m_content cert)))) with (Block.value (Data.m_content cert)).
  change (Block.value_size (BlockFacts.of_pair (tv (Data.m_content cert)))) with (len (Block.value (Data.m_content cert))).
  change (Block.value_size (Data.m_content cert)) with (len (Block.value (Data.m_content cert))) in Ez. rewrite Ez.
  cbn [mbind result_bind]. rewrite Hk. exact (conj eq_refl (conj Ev eq_refl)).
Qed.

(** What the back end tells about a certificate after it was added. *)
Lemma addCertificate_answers b c kn b' : integrity b -> valid_cert (key_of (Data.m_name c)) -> Certificate.getKeyName c = Ok kn ->
  PibMemory.addCertificate c b = (b', Ok tt) ->
  PibMemory.getKeyBits kn b' = Ok (Block.value (Data.m_content c)) /\
  PibMemory.getKeyType kn b' = Ok (verification.keyTypeOf (SignatureInfo.m_type (Data.m_signatureInfo c))) /\
  PibMemory.getCertificate (Data.m_name c) b' = Ok c.
Proof.
  intros Hi Hv Ek E. destruct (getKeyName_spec c Hv) as (kn' & Ek' & Hk). rewrite Ek in Ek'. injection Ek' as <-.
  destruct (getIdentity_spec c Hv) as (id & Eid & Hid). unfold PibMemory.addCertificate, mbind, M_bind, modify, liftR in E. rewrite Ek, Eid in E.
  destruct (addKey_spec b id kn (verification.keyTypeOf (SignatureInfo.m_type (Data.m_signatureInfo c))) (Block.value (Data.m_content c)) Hi)
    as (_ & _ & _ & _ & _ & Hf); [rewrite Hk; by apply valid_cert_key|by rewrite Hk, Hid|].
  set (s1 := PibMemory.addKey _ _ _ _ b) in *. clearbody s1. injection E as Eb.
  assert (Hsplit : forall s2, s2 = PibMemory.with_certs (assign (Data.m_name c) c (PibMemory.m_certs s1)) s1 ->
    forall x, x = (if has kn (PibMemory.m_defaultCerts s2) then s2 else PibMemory.with_defaultCerts (assign kn (Data.m_name c) (PibMemory.m_defaultCerts s2)) s2) ->
    PibMemory.m_keys x = PibMemory.m_keys s1 /\ PibMemory.m_certs x = assign (Data.m_name c) c (PibMemory.m_certs s1)).
  { intros s2 -> x ->. by destruct (has kn _). }
  destruct (Hsplit _ eq_refl b' (eq_sym Eb)) as [E1 E2]. unfold PibMemory.getKeyBits, PibMemory.getKeyType, PibMemory.getCertificate. rewrite E1, E2, find_assign_same.
  unfold find. by rewrite Hf.
Qed.

(** C35: A key that is not an SM2 key survives its transport.  Exporting a
    well-formed certificate with its private key from one key chain, encoding the bag,
    decoding it and importing it with the same password into another key chain,
    whose PIB is empty and whose TPM does not have the key, succeeds; the TPM
    then has the same private key, and the PIB the key with the public key and
    the certificate, with the same fields.  This is for a key whose type is the
    one that the signature type of its certificate stands for, and for
    algorithms that load this key from the PKCS #8 form they saved, and verify
    what it signs with its public key; SM2 is excluded since a key that is
    loaded from PKCS #8 cannot be told from an ECDSA key, as importSafeBag
    notes. *)
Theorem safe_bag_transport (source : KeyChain.t) (tpm0 : Tpm.t) (cert : Certificate.t) (kn : Name.t) (key : PrivateKey) (pw enc sig : bytes)
    (Hcert : data_ok cert) (Hsize : Z.of_nat (length (key_of (Data.m_name cert))) < 2 ^ 62) (Hof : Certificate.ofData cert = Ok cert)
    (Hkn : Certificate.getKeyName cert = Ok kn)
    (Hfind : find kn (Tpm.m_backEnd (m_tpm source)) = Some key) (Hsave : savePkcs8 key pw = Some enc)
    (Hload : loadPrivatePkcs8 enc pw = Some key)
    (Hpub : derivePublicKey key = Some (Block.value (Data.m_content cert)))
    (Htpm : TpmFacts.reachable tpm0) (Habsent : find kn (Tpm.m_backEnd tpm0) = None) :
  let ty := verification.keyTypeOf (SignatureInfo.m_type (Data.m_signatureInfo cert)) in
  ty <> NONE -> ty <> SM2 -> privateKeyType key = ty -> sound_signatures key ty -> signerFilter SHA256 key ty [probe] = Some sig ->
  is_u64 (len (BlockFacts.tlv_seq (bag_seq (SafeBag.make cert enc)))) ->
  exists bag w bag' target c, exportSafeBag cert pw source = Some (source, Ok bag) /\ snd (SafeBag.wireEncode bag) = Ok w /\
    SafeBag.ofBlock w = Ok bag' /\ importSafeBag publicKeyType bag' pw (KeyChain.mk _ (Pib.make PibMemory.init) tpm0) = Some (target, Ok tt) /\
    find kn (Tpm.m_backEnd (m_tpm target)) = Some key /\
    PibMemory.getKeyBits kn (Pib.m_impl (m_pib target)) = Ok (Block.value (Data.m_content cert)) /\
    PibMemory.getKeyType kn (Pib.m_impl (m_pib target)) = Ok ty /\
    PibMemory.getCertificate (Data.m_name cert) (Pib.m_impl (m_pib target)) = Ok c /\ same_data cert c.
Proof.
  intros ty Hty Hsm _ Hlaw Hsig Hlen. set (bag := SafeBag.make cert enc). set (c := data_norm cert).
  destruct (bag_decode bag Hcert Hlen) as (w & Ebag). destruct (ofData_norm cert Hcert Hsize Hof) as (Hof' & Hv & Hbits). fold c in Hof', Hv, Hbits.
  destruct (Hlaw _ _ _ _ Hsig Hpub) as (pub & Hpkey & Hver). assert (Hk : key_of (Data.m_name c) = key_of (Data.m_name cert)) by apply keys_norm.
  destruct (getKeyName_spec c Hv) as (kn' & Ekn' & Hkn'). destruct (getIdentity_spec c Hv) as (id & Eid & Hid).
  assert (Hv0 : valid_cert (key_of (Data.m_name cert))) by (rewrite <- Hk; exact Hv).
  destruct (getKeyName_spec cert Hv0) as (kn0 & E0 & Hkn0). rewrite Hkn in E0. injection E0 as <-. rewrite Hk, <- Hkn0 in Hkn'.
  assert (Hfinds : forall A (m : nmap A), find kn' m = find kn m) by (intros A m; unfold find; by rewrite Hkn').
  assert (Hsig' : signerFilter (match ty with SM2 => SM3 | _ => SHA256 end) key ty [probe] = Some sig) by (by destruct ty).
  assert (Hver' : verifierFilter (match ty with SM2 => SM3 | _ => SHA256 end) pub ty [probe] sig = Some true) by (by destruct ty).
  destruct (importSafeBag_fresh tpm0 (SafeBag.mk c enc w) pw c key kn' id pub sig) as (target & Eimp & Htpm' & kid & Ekid & Eadd);
    [done|exact Hof'|exact Hv|exact Ekn'|exact Eid|exact Hload|exact Hty|by apply TpmFacts.reachable_coherent|by rewrite Hfinds|
     exact Hsig'|by rewrite Hbits|exact Hver'|].
  assert (Hib : integrity (PibMemory.addKey kid kn' ty (Block.value (Data.m_content c)) (PibMemory.addIdentity id PibMemory.init))).
  { assert (Hvk : valid_key (key_of kn')) by (rewrite Hkn', Hkn0; by apply valid_cert_key).
    destruct (extractIdentity_spec kn' Hvk) as (kid' & E' & Hkid). rewrite Ekid in E'. injection E' as <-.
    apply addKey_spec; [by apply addIdentity_spec, init_integrity|exact Hvk|by rewrite Hkid]. }
  destruct (addCertificate_answers _ c kn' _ Hib Hv Ekn' Eadd) as (A1 & A2 & A3).
  exists bag, (seq_block SafeBag.type (bag_seq bag)), (SafeBag.mk c enc w), target, c. split_and!.
  - unfold exportSafeBag. destruct (getIdentity_spec cert Hv0) as (id0 & Eid0 & _). rewrite (bindP_run _ _ source source id0) by (by rewrite Eid0).
    rewrite (bindP_run _ _ source source kn) by (by rewrite Hkn). rewrite (bindP_run _ _ source source enc); [done|].
    unfold catchP, tpm, Tpm.exportPrivateKey, Tpm.backEnd, zoomPP, BackEndMem.exportKey.
    rewrite (bindP_run selfP _ _ _ _ eq_refl). rewrite Hfind, Hsave. cbn. by destruct source as [? []].
  - by apply bag_encode.
  - exact Ebag.
  - exact Eimp.
  - rewrite <- Hfinds. exact Htpm'.
  - rewrite <- Hbits, <- A1. unfold PibMemory.getKeyBits. by rewrite Hfinds.
  - change (Ok ty) with (Ok (verification.keyTypeOf (SignatureInfo.m_type (Data.m_signatureInfo c)))). rewrite <- A2.
    unfold PibMemory.getKeyType. by rewrite Hfinds.
  - etransitivity; [|exact A3]. unfold PibMemory.getCertificate, find. by rewrite Hk.
  - by apply same_data_norm.
Qed.

Lemma equal_prefix_app a b : equal_prefix a (a ++ b) = Some true.
Proof. induction a as [|x a IH]; [done|]. cbn. by rewrite Byte.byte_dec_lb. Qed.

(** C40: [KeyChain::addCertificate] compares the content of the certificate
    only with as many octets of the public key as the content has: a
    certificate that carries a proper prefix of the public key is accepted, and
    the back end of the PIB then has the prefix in place of the key, and the
    type of the issuer's signature in place of the type of the key. *)
Theorem keychain_prefix_certificate (s : KeyChain.t) (a : nat) (k : Pib.KeyImpl) (c : Certificate.t) (kn : Name.t) (names : nset) (rest : bytes) :
  Pib.h_keys (m_pib s) !! a = Some k -> PibFacts.reachable (Pib.m_impl (m_pib s)) ->
  PibMemory.getCertificatesOfKey (Pib.k_keyName k) (Pib.m_impl (m_pib s)) = Ok names -> same (Pib.k_certNames k) names = true ->
  valid_cert (key_of (Data.m_name c)) -> Certificate.getKeyName c = Ok kn -> Name.equals (Pib.k_keyName k) kn = true ->
  Block.value (Data.m_content c) <> [] -> Pib.k_key k = Block.value (Data.m_content c) ++ rest ->
  exists s', KeyChain.addCertificate (Some a) c s = Some (s', Ok tt) /\ m_tpm s' = m_tpm s /\
    PibMemory.getKeyBits kn (Pib.m_impl (m_pib s')) = Ok (Block.value (Data.m_content c)) /\
    PibMemory.getKeyType kn (Pib.m_impl (m_pib s')) = Ok (verification.keyTypeOf (SignatureInfo.m_type (Data.m_signatureInfo c))).
Proof.
  intros Ea Hr Enames Hsame Hv Ekn Heq Hne Hkey. apply PibFacts.reachable_integrity in Hr as Hi.
  destruct (addCertificate_spec _ c Hi Hv) as (b & Eb & _). destruct (addCertificate_answers _ c kn b Hi Hv Ekn Eb) as (A1 & A2 & _).
  set (p := m_pib s) in *.
  assert (Hget : forall q, Pib.h_keys q !! a = Some k -> Pib.getKey_ a q = Some (q, Ok k)).
  { intros q Eq. unfold Pib.getKey_. rewrite (bindP_run selfP _ q q q) by done. by rewrite Eq. }
  assert (Hadd : exists p', Pib.Key_addCertificate (Some a) c p = Some (p', Ok tt) /\ Pib.m_impl p' = b).
  { unfold Pib.Key_addCertificate, Pib.onKey. rewrite (bindP_run _ _ _ _ _ (lockKey_run p a k Ea)). unfold Pib.KeyImpl_addCertificate.
    rewrite (bindP_run _ _ p p tt).
    2: { unfold Pib.assertCerts. rewrite (bindP_run _ _ _ _ _ (Hget p Ea)). unfold Pib.certsConsistent. rewrite (bindP_run _ _ p p true); [done|].
         rewrite (bindP_run _ _ p p names); [by rewrite Hsame|]. unfold Pib.ask. rewrite (bindP_run selfP _ p p p) by done. by rewrite Enames. }
    unfold Pib.CertificateContainer_add. rewrite (bindP_run _ _ _ _ _ (Hget p Ea)). rewrite (bindP_run _ _ p p kn) by (by rewrite Ekn).
    rewrite Heq. cbn [negb]. rewrite (bindP_run _ _ _ _ _ eq_refl), (bindP_run _ _ _ _ _ eq_refl).
    unfold Pib.impl. erewrite (zoomP_run Pib.m_impl Pib.with_impl); [|exact Eb]. eexists. split; [reflexivity|done]. }
  destruct Hadd as (p' & Ep & Eimpl). exists (with_pib p' s). split; [|split; [done|cbn; rewrite Eimpl; exact (conj A1 A2)]].
  unfold KeyChain.addCertificate. rewrite (bindP_run _ _ s s tt).
  2: { unfold assertKey. rewrite (bindP_run selfP _ s s s) by done. by rewrite (isKey_run (m_pib s) _ _ Ea). }
  rewrite (bindP_run _ _ s s tt).
  2: { assert (Hz : len (Block.value (Data.m_content c)) =? 0 = false) by (apply Z.eqb_neq; destruct (Block.value (Data.m_content c)); [done|unfold len; cbn; lia]).
       by rewrite Hz. }
  rewrite (bindP_run _ _ _ _ _ (pib_read _ s _ (Key_getName_run _ _ _ Ea))). rewrite (bindP_run _ _ s s kn) by (by rewrite Ekn).
  rewrite (bindP_run _ _ s s true).
  2: { rewrite Heq. cbn [negb]. rewrite (bindP_run _ _ s s (Pib.k_key k)).
       2: { apply pib_read. unfold Pib.Key_getPublicKey. by rewrite (bindP_run _ _ _ _ _ (lockKey_run _ a k Ea)). }
       by rewrite Hkey, equal_prefix_app. }
  unfold pib. exact (zoomPP_run m_pib with_pib _ s _ _ Ep).
Qed.

End import.

End KeyChainFacts.

(** ** Examples *)

Module KeyChainSamples.
Import FieldFacts DataFacts DataTheorems NameMap security KeyChain KeyChainFacts.

(** Keys are octets, and a key signs by showing them. *)
#[local] Instance toy_crypto : Crypto := {|
  PublicKey := bytes;
  loadPkcs8 := Some;
  verifierFilter _ key _ _ sig := Some (bool_decide (sig = key));
  sha256 x := take 32 (x ++ replicate 32 (z2b 0));
|}.

#[local] Instance toy_keys : PrivateKeys := {|
  PrivateKey := bytes;
  privateKeyType _ := EC;
  derivePublicKey := Some;
  signerFilter _ key _ _ := Some key;
  privateVerifierFilter _ key _ _ sig := Some (bool_decide (sig = key));
  decryptFilter _ _ x := Some x;
  getKeyDigest := Some;
  savePkcs8 key _ := Some key;
  loadPrivatePkcs8 x _ := Some x;
|}.

Lemma toy_sound key ty : sound_signatures key ty.
Proof. intros d bufs sig bits [= <-] [= <-]. eexists. split; [reflexivity|]. cbn. f_equal. by apply bool_decide_eq_true. Qed.

Definition alice : Name.t := PibSamples.alice.
Definition first_key : Name.t := PibSamples.first_key.
Definition key_bits : bytes := str "bits".
Definition the_key : @PrivateKey toy_keys := key_bits.

(** A TPM that has created the key of Alice. *)
Definition params : KeyParams.t := KeyParams.mk EC KeyParams.USER_SPECIFIED (PibSamples.word "k1") 256.
Definition tpm1 : Tpm.t :=
  match Tpm.createKey (Some the_key) [] alice params Tpm.init with Some (s, _) => s | None => Tpm.init end.

Lemma tpm1_reachable : TpmFacts.reachable tpm1.
Proof.
  unfold tpm1. destruct (Tpm.createKey _ _ _ _ _) as [[s r]|] eqn:E; [|exact TpmFacts.tpm_init].
  apply (TpmFacts.tpm_step (TpmFacts.Create (Some the_key) [] alice params) Tpm.init s (match r with Ok _ => Ok tt | Throw e => Throw e end) TpmFacts.tpm_init).
  cbn [TpmFacts.perform]. unfold mbind, P_bind. rewrite E. by destruct r.
Qed.

Lemma tpm1_direct : TpmFacts.direct (fun key => transformed (derivePublicKey key)) first_key (Tpm.m_backEnd tpm1) = Ok (Some key_bits).
Proof. by vm_compute. Qed.

Lemma tpm_refines_map_witness : TpmFacts.reachable tpm1 /\ exists s', Tpm.getPublicKey first_key tpm1 = Some (s', Ok (Some key_bits)).
Proof.
  split; [exact tpm1_reachable|]. destruct (TpmFacts.tpm_refines_map tpm1 first_key tpm1_reachable) as (_ & _ & _ & (s' & E & _) & _).
  exists s'. rewrite tpm1_direct in E. exact E.
Defined.

(** A key chain with Alice and her key. *)
Definition chain : KeyChain.t := KeyChain.mk _ (pib2 alice alice first_key key_bits EC) tpm1.
Definition signing : SigningInfo.t := SigningInfo.with_key (Some 1%nat) (SigningInfo.with_signer SigningInfo.SIGNER_TYPE_KEY first_key SigningInfo.default_).

(** A self-signed certificate of the key. *)
Definition cert : Certificate.t :=
  Data.mk (PibSamples.name_of ["A"; "KEY"; "k1"; "self"; "1"]) (MetaInfo.mk 2 1000 None [] Block.empty) (Block.ofTypeValue tlv.Content key_bits)
    (SignatureInfo.mk 3 (Some (KeyLocator.ofName first_key)) [] Block.empty) (Block.ofTypeValue tlv.SignatureValue key_bits) Block.empty Name.empty.

Definition unsigned : Data.t := to_sign (prepared 3 first_key SignatureInfo.init) sample_data.

Lemma names_ok : types_ok first_key /\ types_ok (Data.m_name cert) /\ types_ok (Data.m_name unsigned).
Proof. split_and!; repeat (constructor; [by vm_compute|]); constructor. Qed.

Lemma unsigned_sample : unsigned_ok unsigned.
Proof.
  split; [exact (proj2 (proj2 names_ok))|]. destruct sample_data_ok as ((_ & Hm & Hc & _) & _). split; [exact Hm|]. split; [exact Hc|].
  split; [by vm_compute|]. split; [intros k [= <-]; exact (proj1 names_ok)|constructor].
Qed.

Lemma cert_ok : data_ok cert.
Proof.
  split; [split; [|split; [|split]]|split].
  - exact (proj1 (proj2 names_ok)).
  - split; [by vm_compute|]. split; [by vm_compute|]. split; [done|constructor].
  - split; [apply block_ok_of_value; split; by vm_compute|reflexivity].
  - split; [by vm_compute|]. split; [intros k [= <-]; exact (proj1 names_ok)|constructor].
  - apply block_ok_of_value; split; by vm_compute.
  - reflexivity.
Qed.

Lemma first_key_found : find first_key (Tpm.m_backEnd tpm1) = Some the_key.
Proof. by vm_compute. Qed.

Lemma first_key_signs : Name.equals first_key SigningInfo.getDigestSha256Identity = false.
Proof. by vm_compute. Qed.

Lemma sample_length : is_u64 (len (BlockFacts.tlv_seq (signed_seq unsigned ++ [(tlv.SignatureValue, key_bits)]))).
Proof. by vm_compute. Qed.

Lemma keychain_sign_verify_witness : exists s' d', signData signing (chain, sample_data) = Some ((s', d'), Ok tt) /\
  verification.verifyData d' (Some cert) = Ok true.
Proof.
  destruct (keychain_sign_verify chain sample_data signing 1%nat (newKeyImpl alice first_key key_bits EC) the_key 3 key_bits cert (toy_sound the_key EC)
    (conj eq_refl (conj eq_refl eq_refl)) eq_refl eq_refl eq_refl tpm1_reachable first_key_signs first_key_found eq_refl unsigned_sample eq_refl sample_length eq_refl)
    as (s' & d' & E & _ & _ & _ & _ & _ & _ & Hv).
  exists s', d'. exact (conj E Hv).
Defined.

Lemma cert_certificate : Certificate.ofData cert = Ok cert.
Proof. by vm_compute. Qed.

(** The name of the key of the certificate, as a prefix of its name. *)
Definition cert_key : Name.t := match Certificate.getKeyName cert with Ok n => n | Throw _ => Name.empty end.

Lemma cert_keyName : Certificate.getKeyName cert = Ok cert_key.
Proof. by vm_compute. Qed.
Lemma cert_size : Z.of_nat (length (key_of (Data.m_name cert))) < 2 ^ 62.
Proof. by vm_compute. Qed.
Lemma cert_key_found : find cert_key (Tpm.m_backEnd tpm1) = Some the_key.
Proof. by vm_compute. Qed.
Lemma cert_key_absent : find cert_key (Tpm.m_backEnd Tpm.init) = None.
Proof. by vm_compute. Qed.
Lemma bag_length : is_u64 (len (BlockFacts.tlv_seq (bag_seq (SafeBag.make cert key_bits)))).
Proof. by vm_compute. Qed.
Lemma cert_type : let ty := verification.keyTypeOf (SignatureInfo.m_type (Data.m_signatureInfo cert)) in
  ty <> NONE /\ ty <> SM2 /\ privateKeyType the_key = ty.
Proof. by vm_compute. Qed.

Lemma safe_bag_transport_witness : exists bag w bag' target, exportSafeBag cert (str "pw") chain = Some (chain, Ok bag) /\
  snd (SafeBag.wireEncode bag) = Ok w /\ SafeBag.ofBlock w = Ok bag' /\
  importSafeBag (fun _ => EC) bag' (str "pw") (KeyChain.mk _ (Pib.make PibMemory.init) Tpm.init) = Some (target, Ok tt).
Proof.
  destruct (safe_bag_transport (fun _ => EC) chain Tpm.init cert cert_key the_key (str "pw") key_bits key_bits cert_ok cert_size cert_certificate
    cert_keyName cert_key_found eq_refl eq_refl eq_refl TpmFacts.tpm_init cert_key_absent (proj1 cert_type) (proj1 (proj2 cert_type)) (proj2 (proj2 cert_type))
    (toy_sound the_key _) eq_refl bag_length)
    as (bag & w & bag' & target & c & H1 & H2 & H3 & H4 & _).
  exists bag, w, bag', target. exact (conj H1 (conj H2 (conj H3 H4))).
Defined.

(** The same key chain, where the public key is longer than the certificate says. *)
Definition long_chain : KeyChain.t := KeyChain.mk _ (pib2 alice alice first_key (key_bits ++ str "more") EC) tpm1.

Lemma long_reachable : PibFacts.reachable (Pib.m_impl (m_pib long_chain)).
Proof.
  apply (PibFacts.reachable_step (PibFacts.AddKey alice first_key EC (key_bits ++ str "more")) (PibMemory.addIdentity alice PibMemory.init) _ (Ok tt)).
  - apply (PibFacts.reachable_step (PibFacts.AddIdentity alice) PibMemory.init _ (Ok tt)); [constructor|done|reflexivity].
  - exact (conj PibSamples.first_valid PibSamples.first_parent).
  - reflexivity.
Qed.

Lemma long_no_certs : PibMemory.getCertificatesOfKey first_key (Pib.m_impl (m_pib long_chain)) = Ok ∅.
Proof. by vm_compute. Qed.
Lemma sample_cert_valid : PibFacts.valid_cert (key_of (Data.m_name cert)).
Proof. split_and!; vm_compute; [repeat constructor|reflexivity|reflexivity]. Qed.
Lemma cert_key_first : Name.equals first_key cert_key = true.
Proof. by vm_compute. Qed.
Lemma key_bits_some : Block.value (Data.m_content cert) <> [].
Proof. by vm_compute. Qed.

Lemma keychain_prefix_certificate_witness : exists s', KeyChain.addCertificate (Some 1%nat) cert long_chain = Some (s', Ok tt) /\
  PibMemory.getKeyBits cert_key (Pib.m_impl (m_pib s')) = Ok (str "bits").
Proof.
  destruct (keychain_prefix_certificate long_chain 1%nat (newKeyImpl alice first_key (key_bits ++ str "more") EC) cert cert_key ∅ (str "more")
    eq_refl long_reachable long_no_certs eq_refl sample_cert_valid cert_keyName cert_key_first key_bits_some eq_refl) as (s' & E & _ & Hb & _).
  exists s'. exact (conj E Hb).
Defined.

End KeyChainSamples.
