(* ===== verification/ValidatorConfig.v ===== *)
(** * The validator's configuration

    A trust schema read from a configuration file: rules that say which
    packets they are for (filters) and which keys may sign them (checkers), and
    trust anchors ([security/validator-config/*.cpp],
    [security/validation-policy-config.cpp]).

    The parsed file is a [ConfigSection] of Boost; reading and parsing files,
    and resolving paths, are parameters.  A regular expression is an object
    that remembers its last match, so that filters and checkers change when
    they are used. *)

From stdpp Require Import list.
From S2P Require Import Prelude Tlv Encoding Blocks BlockHelpers Text NameComponents Names NameRegex Fields DataPacket InterestPacket.
From S2P Require Import InMemoryStorage Announcements Certificates Signatures Validation.

Module validator_config.

(** [boost::property_tree::ptree]: a value, and named children in order *)
Inductive ConfigSection := Section_ (data : bytes) (children : list (bytes * ConfigSection)).

Definition data (c : ConfigSection) : bytes := match c with Section_ d _ => d end.
Definition children (c : ConfigSection) : list (bytes * ConfigSection) := match c with Section_ _ l => l end.

(** [boost::iequals], in the classic locale *)
Definition toUpper (c : byte) : byte := if between "a" "z" c then z2b (b2z c - 32) else c.
Definition iequals (s : bytes) (t : string) : bool := bool_decide (toUpper <$> s = toUpper <$> str t).

(** [ndn-cxx/security/validator-config/common.hpp:37-41] validator_config::Error *)
Definition Error (what : string) : exn := RuntimeError what.

(** ** Relations of names *)

(** [ndn-cxx/security/validator-config/name-relation.hpp:33-37] NameRelation *)
Inductive NameRelation := EQUAL | IS_PREFIX_OF | IS_STRICT_PREFIX_OF.

(** [ndn-cxx/security/validator-config/name-relation.cpp:45-57] checkNameRelation *)
Definition checkNameRelation (relation : NameRelation) (name1 name2 : Name.t) : bool :=
  match relation with
  | EQUAL => Name.equals name1 name2
  | IS_PREFIX_OF => Name.isPrefixOf name1 name2
  | IS_STRICT_PREFIX_OF => Name.isPrefixOf name1 name2 && (Name.size name1 <? Name.size name2)
  end.

(** [ndn-cxx/security/validator-config/name-relation.cpp:59-74] getNameRelationFromString *)
Definition getNameRelationFromString (relationString : bytes) : result NameRelation :=
  if iequals relationString "equal" then Ok EQUAL
  else if iequals relationString "is-prefix-of" then Ok IS_PREFIX_OF
  else if iequals relationString "is-strict-prefix-of" then Ok IS_STRICT_PREFIX_OF
  else Throw (Error "Unsupported relation").

(** [Name(uri)] where [Name::Error] is caught *)
Definition nameOf (uri : bytes) (what : string) : result Name.t :=
  match Name.fromUri uri with
  | Throw (NameError _) => Throw (Error what)
  | r => r
  end.

Section config.
Context `{StdRegex} `{PosixTime} `{Files} `{Crypto} (autoCheck : bool) (canBePrefix : option bool) (env : option bytes).
Import ValidationError.

(** [Regex(expr, expand)] where [Regex::Error] is caught; [None]: undefined *)
Definition regexOf (expr expand : bytes) (what : string) : option (result regex.top_matcher) :=
  match regex.newTopMatcher expr expand with
  | Some (Throw (RegexError _)) => Some (Throw (Error what))
  | r => r
  end.

(** [m_regex.match(name)]; the depth of recursion is bounded by the number of
    components. *)
Definition matches (name : Name.t) : P regex.top_matcher bool := regex.top_match env (S (length (Name.components name))) name.

(** ** Filters *)

(** [ndn-cxx/security/validator-config/filter.hpp:93-138] RelationNameFilter, RegexNameFilter *)
Inductive Filter :=
  | RelationNameFilter (m_name : Name.t) (m_relation : NameRelation)
  | RegexNameFilter (m_regex : regex.top_matcher).

(** [ndn-cxx/security/validator-config/filter.cpp:73-77] RelationNameFilter::matchName
    [ndn-cxx/security/validator-config/filter.cpp:84-88] RegexNameFilter::matchName *)
Definition matchName (name : Name.t) : P Filter bool := fun f =>
  match f with
  | RelationNameFilter m_name m_relation => Some (f, Ok (checkNameRelation m_relation m_name name))
  | RegexNameFilter m_regex =>
      match matches name m_regex with
      | Some (m_regex, r) => Some (RegexNameFilter m_regex, r)
      | None => None
      end
  end.

(** The name that the rules are about: that of an Interest without what the
    signature added to it.  [Some None]: there is no such name; [None]: the
    assertion fails. *)
Definition signedName (pktType : Z) (pktName : Name.t) (fmt : option Validator.SignedInterestFormat) : option (option (result Name.t)) :=
  if pktType =? tlv.Interest then
    match fmt with
    | None => None
    | Some Validator.V03 =>
        match Name.get (-1) pktName with
        | Some c =>
            Some (if (Name.size pktName =? 0) || negb (Block.type c =? tlv.ParametersSha256DigestComponent) then None else Some (Name.getPrefix (-1) pktName))
        | None => Some None
        end
    | Some Validator.V02 =>
        Some (if Name.size pktName <? verification.signed_interest_MIN_SIZE then None
              else Some (Name.getPrefix (- verification.signed_interest_MIN_SIZE) pktName))
    end
  else Some (Some (Ok pktName)).

(** [ndn-cxx/security/validator-config/filter.cpp:37-65] Filter::match *)
Definition Filter_match (pktType : Z) (pktName : Name.t) (fmt : option Validator.SignedInterestFormat) : P Filter bool :=
  name ← definedP (signedName pktType pktName fmt);
  match name with
  | None => mret false
  | Some name => name ← liftP name; matchName name
  end.

(** [ndn-cxx/security/validator-config/filter.cpp:106-157] Filter::createNameFilter
    The first child has been looked at. *)
Definition createNameFilter (config : list (bytes * ConfigSection)) : option (result Filter) :=
  match drop 1 config with
  | [] => Some (Throw (Error "Unexpected end of <filter>"))
  | (key, value) :: rest =>
      if iequals key "name" then
        Some (name ← nameOf (data value) "Invalid <filter.name>";
              match rest with
              | (key, value) :: rest =>
                  if iequals key "relation" then
                    relation ← getNameRelationFromString (data value);
                    match rest with
                    | [] => Ok (RelationNameFilter name relation)
                    | _ => Throw (Error "Expecting end of <filter>")
                    end
                  else Throw (Error "Expecting <filter.relation>")
              | [] => Throw (Error "Expecting <filter.relation>")
              end)
      else if iequals key "regex" then
        match rest with
        | [] => match regexOf (data value) [] "Invalid <filter.regex>" with
                | Some r => Some (m ← r; Ok (RegexNameFilter m))
                | None => None
                end
        | _ => Some (Throw (Error "Expecting end of <filter>"))
        end
      else Some (Throw (Error "Unrecognized <filter> property"))
  end.

(** [ndn-cxx/security/validator-config/filter.cpp:90-104] Filter::create *)
Definition Filter_create (config : list (bytes * ConfigSection)) : option (result Filter) :=
  match config with
  | (key, value) :: _ =>
      if iequals key "type" then
        if iequals (data value) "name" then createNameFilter config else Some (Throw (Error "Unrecognized <filter.type>"))
      else Some (Throw (Error "Expecting <filter.type>"))
  | [] => Some (Throw (Error "Expecting <filter.type>"))
  end.

(** ** Checkers *)

(** [ndn-cxx/security/validator-config/checker.hpp:139-185] Checker (the subclasses) *)
Inductive checker :=
  | AnyNames
  | NameRelationChecker (m_name : Name.t) (m_relation : NameRelation)
  | RegexChecker (m_regex : regex.top_matcher)
  | HyperRelationChecker (m_hyperPRegex m_hyperKRegex : regex.top_matcher) (m_hyperRelation : NameRelation).

(** [ndn-cxx/security/validator-config/checker.hpp:38-138] Checker *)
Record Checker := mkChecker { m_sigType : Z; m_checker : checker }.

(** [ndn-cxx/security/validator-config/checker.cpp:160-179] HyperRelationChecker::checkNames *)
Definition checkHyper (relation : NameRelation) (pktName klName : Name.t) : P (regex.top_matcher * regex.top_matcher) bool := fun s =>
  let '(p, k) := s in
  match matches pktName p with
  | None => None
  | Some (p, Throw e) => Some ((p, k), Throw e)
  | Some (p, Ok false) => Some ((p, k), Ok false)
  | Some (p, Ok true) =>
      match matches klName k with
      | None => None
      | Some (k, Throw e) => Some ((p, k), Throw e)
      | Some (k, Ok false) => Some ((p, k), Ok false)
      | Some (k, Ok true) =>
          Some ((p, k), kExpand ← regex.expand k []; pExpand ← regex.expand p []; Ok (checkNameRelation relation kExpand pExpand))
      end
  end.

(** [ndn-cxx/security/validator-config/checker.cpp:107-111] Checker::checkNames
    [ndn-cxx/security/validator-config/checker.cpp:120-131] NameRelationChecker::checkNames
    [ndn-cxx/security/validator-config/checker.cpp:139-147] RegexChecker::checkNames *)
Definition checkNames (pktName klName : Name.t) : P checker bool := fun c =>
  match c with
  | AnyNames => Some (c, Ok true)
  | NameRelationChecker m_name m_relation =>
      Some (c, identity ← Validator.extractIdentityNameFromKeyLocator klName; Ok (checkNameRelation m_relation m_name identity))
  | RegexChecker m_regex =>
      match matches klName m_regex with
      | Some (m_regex, r) => Some (RegexChecker m_regex, r)
      | None => None
      end
  | HyperRelationChecker p k relation =>
      match checkHyper relation pktName klName (p, k) with
      | Some ((p, k), r) => Some (HyperRelationChecker p k relation, r)
      | None => None
      end
  end.

(** [ndn-cxx/security/validator-config/checker.cpp:72-105] Checker::check
    Without the text of the error. *)
Definition Checker_check (pktType sigType : Z) (pktName klName : Name.t) (fmt : option Validator.SignedInterestFormat) : P Checker bool :=
  c ← selfP;
  if negb (sigType =? m_sigType c) then mret false
  else
    name ← definedP (signedName pktType pktName fmt);
    match name with
    | None => mret false
    | Some name =>
        name ← liftP name;
        zoomPP m_checker (fun x c => mkChecker (m_sigType c) x) (checkNames name klName)
    end.

(** [ndn-cxx/security/validator-config/checker.cpp:203-228] parseSigType *)
Definition parseSigType (value : bytes) : result Z :=
  if iequals value "rsa-sha256" then Ok verification.SignatureSha256WithRsa
  else if iequals value "ecdsa-sha256" then Ok verification.SignatureSha256WithEcdsa
  else if iequals value "sha256" then Ok verification.DigestSha256
  else if iequals value "sm2-sm3" then Ok verification.SignatureSm3WithSm2
  else Throw (Error "Unrecognized value of <checker.sig-type>").

(** The optional [sig-type] that begins both kinds of checkers. *)
Definition takeSigType (config : list (bytes * ConfigSection)) : result (Z * list (bytes * ConfigSection)) :=
  match config with
  | (key, value) :: rest =>
      if iequals key "sig-type" then ty ← parseSigType (data value); Ok (ty, rest)
      else Ok (verification.SignatureSha256WithEcdsa, config)
  | [] => Ok (verification.SignatureSha256WithEcdsa, config)
  end.

(** The child that must come next. *)
Definition expect (key : string) (what : string) (config : list (bytes * ConfigSection)) : result (ConfigSection * list (bytes * ConfigSection)) :=
  match config with
  | (k, value) :: rest => if iequals k key then Ok (value, rest) else Throw (Error what)
  | [] => Throw (Error what)
  end.

Definition expectEnd (what : string) (config : list (bytes * ConfigSection)) : result unit :=
  match config with [] => Ok tt | _ => Throw (Error what) end.

(** [ndn-cxx/security/validator-config/checker.cpp:352-407] Checker::createKeyLocatorNameChecker (hyper-relation) *)
Definition createHyperRelation (sigType : Z) (hSection : list (bytes * ConfigSection)) : option (result Checker) :=
  let parsed :=
    '(kRegex, rest) ← expect "k-regex" "Expecting <checker.key-locator.hyper-relation.k-regex>" hSection;
    '(kExpand, rest) ← expect "k-expand" "Expecting <checker.key-locator.hyper-relation.k-expand>" rest;
    '(hRelation, rest) ← expect "h-relation" "Expecting <checker.key-locator.hyper-relation.h-relation>" rest;
    '(pRegex, rest) ← expect "p-regex" "Expecting <checker.key-locator.hyper-relation.p-regex>" rest;
    '(pExpand, rest) ← expect "p-expand" "Expecting <checker.key-locator.hyper-relation.p-expand>" rest;
    _ ← expectEnd "Expecting end of <checker.key-locator.hyper-relation>" rest;
    relation ← getNameRelationFromString (data hRelation);
    Ok (data pRegex, data pExpand, data kRegex, data kExpand, relation) in
  match parsed with
  | Throw e => Some (Throw e)
  | Ok (pRegex, pExpand, kRegex, kExpand, relation) =>
      match regexOf pRegex pExpand "Invalid regex for <key-locator.hyper-relation>" with
      | None => None
      | Some (Throw e) => Some (Throw e)
      | Some (Ok p) =>
          match regexOf kRegex kExpand "Invalid regex for <key-locator.hyper-relation>" with
          | None => None
          | Some r => Some (k ← r; Ok (mkChecker sigType (HyperRelationChecker p k relation)))
          end
      end
  end.

(** [ndn-cxx/security/validator-config/checker.cpp:303-411] Checker::createKeyLocatorNameChecker *)
Definition createKeyLocatorNameChecker (sigType : Z) (config : list (bytes * ConfigSection)) : option (result Checker) :=
  match drop 1 config with
  | [] => Some (Throw (Error "Unexpected end of <checker.key-locator>"))
  | (key, value) :: rest =>
      if iequals key "name" then
        Some (name ← nameOf (data value) "Invalid <checker.key-locator.name>";
              '(relationString, rest) ← expect "relation" "Expecting <checker.key-locator.relation>" rest;
              relation ← getNameRelationFromString (data relationString);
              _ ← expectEnd "Expecting end of <checker.key-locator>" rest;
              Ok (mkChecker sigType (NameRelationChecker name relation)))
      else if iequals key "regex" then
        match rest with
        | [] => match regexOf (data value) [] "Invalid <checker.key-locator.regex>" with
                | Some r => Some (m ← r; Ok (mkChecker sigType (RegexChecker m)))
                | None => None
                end
        | _ => Some (Throw (Error "Expecting end of <checker.key-locator>"))
        end
      else if iequals key "hyper-relation" then createHyperRelation sigType (children value)
      else Some (Throw (Error "Unrecognized <checker.key-locator>"))
  end.

(** [ndn-cxx/security/validator-config/checker.cpp:286-301] Checker::createKeyLocatorChecker *)
Definition createKeyLocatorChecker (sigType : Z) (config : list (bytes * ConfigSection)) : option (result Checker) :=
  match expect "type" "Expecting <checker.key-locator.type>" config with
  | Throw e => Some (Throw e)
  | Ok (type, _) =>
      if iequals (data type) "name" then createKeyLocatorNameChecker sigType config
      else Some (Throw (Error "Unrecognized <checker.key-locator.type>"))
  end.

(** [ndn-cxx/security/validator-config/checker.cpp:230-260] Checker::createCustomizedChecker *)
Definition createCustomizedChecker (config : list (bytes * ConfigSection)) : option (result Checker) :=
  match takeSigType (drop 1 config) with
  | Throw e => Some (Throw e)
  | Ok (sigType, config) =>
      match expect "key-locator" "Expecting <checker.key-locator>" config with
      | Throw e => if sigType =? verification.DigestSha256 then Some (Ok (mkChecker sigType AnyNames)) else Some (Throw e)
      | Ok (section, rest) =>
          match createKeyLocatorChecker sigType (children section) with
          | Some (Ok c) => Some (_ ← expectEnd "Expecting end of <checker>" rest; Ok c)
          | r => r
          end
      end
  end.

(** The expressions of a hierarchical checker. *)
Definition hierarchicalP : bytes := str "^(<>*)$".
Definition hierarchicalK : bytes := str "^(<>*)<KEY><>{1,3}$".

(** [ndn-cxx/security/validator-config/checker.cpp:262-284] Checker::createHierarchicalChecker *)
Definition createHierarchicalChecker (config : list (bytes * ConfigSection)) : option (result Checker) :=
  match takeSigType (drop 1 config) with
  | Throw e => Some (Throw e)
  | Ok (sigType, config) =>
      match expectEnd "Expecting end of <checker>" config with
      | Throw e => Some (Throw e)
      | Ok _ =>
          match regex.newTopMatcher hierarchicalP (str "\1") with
          | Some (Ok p) =>
              match regex.newTopMatcher hierarchicalK (str "\1") with
              | Some r => Some (k ← r; Ok (mkChecker sigType (HyperRelationChecker p k IS_PREFIX_OF)))
              | None => None
              end
          | Some (Throw e) => Some (Throw e)
          | None => None
          end
      end
  end.

(** [ndn-cxx/security/validator-config/checker.cpp:181-201] Checker::create *)
Definition Checker_create (config : list (bytes * ConfigSection)) : option (result Checker) :=
  match expect "type" "Expecting <checker.type>" config with
  | Throw e => Some (Throw e)
  | Ok (type, _) =>
      if iequals (data type) "customized" then createCustomizedChecker config
      else if iequals (data type) "hierarchical" then createHierarchicalChecker config
      else Some (Throw (Error "Unrecognized <checker.type>"))
  end.

(** ** Rules *)

(** [ndn-cxx/security/validator-config/rule.hpp:105-110] Rule *)
Record Rule := mkRule {
  m_id : bytes;
  m_pktType : Z;
  m_filters : list Filter;
  m_checkers : list Checker;
}.

Definition with_filters x r := mkRule (m_id r) (m_pktType r) x (m_checkers r).
Definition with_checkers x r := mkRule (m_id r) (m_pktType r) (m_filters r) x.

(** The first of some objects for which a test succeeds: the loops in [match]
    and [check]. *)
Fixpoint any_ {A} (test : P A bool) : P (list A) bool := fun l =>
  match l with
  | [] => Some ([], Ok false)
  | a :: l =>
      match test a with
      | None => None
      | Some (a, Throw e) => Some (a :: l, Throw e)
      | Some (a, Ok true) => Some (a :: l, Ok true)
      | Some (a, Ok false) => match any_ test l with Some (l, r) => Some (a :: l, r) | None => None end
      end
  end.

(** [ndn-cxx/security/validator-config/rule.cpp:53-74] Rule::match *)
Definition Rule_match (pktType : Z) (pktName : Name.t) (fmt : option Validator.SignedInterestFormat) : P Rule bool :=
  r ← selfP;
  if negb (pktType =? m_pktType r) then throwP (Error "Invalid packet type supplied")
  else
    match m_filters r with
    | [] => mret true
    | _ => zoomPP m_filters with_filters (any_ (Filter_match pktType pktName fmt))
    end.

(** [ndn-cxx/security/validator-config/rule.cpp:76-104] Rule::check
    The caller fails the validation when no checker accepts. *)
Definition Rule_check (pktType sigType : Z) (pktName klName : Name.t) (fmt : option Validator.SignedInterestFormat) : P Rule bool :=
  r ← selfP;
  if negb (pktType =? m_pktType r) then throwP (Error "Invalid packet type supplied")
  else zoomPP m_checkers with_checkers (any_ (Checker_check pktType sigType pktName klName fmt)).

(** [ndn-cxx/security/validator-config/rule.cpp:140-150] Rule::create (the filters) *)
Fixpoint create_filters (config : list (bytes * ConfigSection)) (filters : list Filter)
    : option (result (list Filter * list (bytes * ConfigSection))) :=
  match config with
  | [] => Some (Ok (filters, []))
  | (key, value) :: rest =>
      if iequals key "filter" then
        match Filter_create (children value) with
        | Some (Ok f) => create_filters rest (filters ++ [f])
        | Some (Throw e) => Some (Throw e)
        | None => None
        end
      else if iequals key "checker" then Some (Ok (filters, config))
      else Some (Throw (Error "Expecting <rule.filter> in rule"))
  end.

(** [ndn-cxx/security/validator-config/rule.cpp:152-161] Rule::create (the checkers) *)
Fixpoint create_checkers (config : list (bytes * ConfigSection)) (checkers : list Checker) : option (result (list Checker)) :=
  match config with
  | [] => Some (Ok checkers)
  | (key, value) :: rest =>
      if iequals key "checker" then
        match Checker_create (children value) with
        | Some (Ok c) => create_checkers rest (checkers ++ [c])
        | Some (Throw e) => Some (Throw e)
        | None => None
        end
      else Some (Throw (Error "Expecting <rule.checker> in rule"))
  end.

(** [ndn-cxx/security/validator-config/rule.cpp:109-138] Rule::create (what comes before the filters) *)
Definition ruleHead (config : list (bytes * ConfigSection)) : result (bytes * Z * list (bytes * ConfigSection)) :=
  '(ruleId, rest) ← expect "id" "Expecting <rule.id>" config;
  '(usage, rest) ← expect "for" "Expecting <rule.for> in rule" rest;
  if iequals (data usage) "data" then Ok (data ruleId, tlv.Data, rest)
  else if iequals (data usage) "interest" then Ok (data ruleId, tlv.Interest, rest)
  else Throw (Error "Unrecognized <rule.for>").

(** [ndn-cxx/security/validator-config/rule.cpp:106-172] Rule::create *)
Definition Rule_create (config : list (bytes * ConfigSection)) : option (result Rule) :=
  match ruleHead config with
  | Throw e => Some (Throw e)
  | Ok (ruleId, pktType, rest) =>
      match create_filters rest [] with
      | None => None
      | Some (Throw e) => Some (Throw e)
      | Some (Ok (filters, rest)) =>
          match create_checkers rest [] with
          | None => None
          | Some (Throw e) => Some (Throw e)
          | Some (Ok []) => Some (Throw (Error "No <rule.checker> is specified in rule"))
          | Some (Ok checkers) => Some (Ok (mkRule ruleId pktType filters checkers))
          end
      end
  end.

(** ** The policy *)

(** [ndn-cxx/security/validation-policy-config.hpp:90-101] ValidationPolicyConfig *)
Record policy := mkPolicy {
  m_shouldBypass : bool;
  m_isConfigured : bool;
  m_dataRules : list Rule;
  m_interestRules : list Rule;
}.

Definition initPolicy : policy := mkPolicy false false [] [].

Definition with_bypass x p := mkPolicy x (m_isConfigured p) (m_dataRules p) (m_interestRules p).
Definition with_configured x p := mkPolicy (m_shouldBypass p) x (m_dataRules p) (m_interestRules p).
Definition with_dataRules x p := mkPolicy (m_shouldBypass p) (m_isConfigured p) x (m_interestRules p).
Definition with_interestRules x p := mkPolicy (m_shouldBypass p) (m_isConfigured p) (m_dataRules p) x.

(** The policy and the validator it belongs to. *)
Notation state := (policy * Validator.t)%type.
Notation P_ := (P state).

Definition onPolicy {A} (m : P policy A) : P_ A := zoomPP fst (fun x s => (x, snd s)) m.
Definition onValidator {A} (m : P Validator.t A) : P_ A := zoomPP snd (fun x s => (fst s, x)) m.

(** [boost::lexical_cast<int32_t>]; [None]: [bad_lexical_cast] *)
Definition lexical_int32 (s : bytes) : option Z :=
  let '(negative, digits) := match s with
                             | c :: rest => if Byte.eqb c Byte.x2d then (true, rest) else if Byte.eqb c Byte.x2b then (false, rest) else (false, s)
                             | [] => (false, [])
                             end in
  if match digits with [] => true | _ => false end || negb (forallb isDigit digits) then None
  else
    let n := if negative : bool then - scan_digits 0 digits else scan_digits 0 digits in
    if (- 2 ^ 31 <=? n) && (n <? 2 ^ 31) then Some n else None.

(** [ndn-cxx/security/validation-policy-config.cpp:228-232] ValidationPolicyConfig::getDefaultRefreshPeriod, in nanoseconds *)
Definition getDefaultRefreshPeriod : Z := 3600000000000.

(** A number of some unit as nanoseconds; [None]: it overflows. *)
Definition toNanoseconds (count unit_ : Z) : option Z := let n := count * unit_ in if n <? 2 ^ 63 then Some n else None.

(** [ndn-cxx/security/validation-policy-config.cpp:183-226] ValidationPolicyConfig::getRefreshPeriod
    In nanoseconds; [None]: the last character of an empty string is read, or
    the conversion to nanoseconds overflows. *)
Definition getRefreshPeriod (config : list (bytes * ConfigSection)) : option (result (Z * list (bytes * ConfigSection))) :=
  match config with
  | [] => Some (Ok (2 ^ 63 - 1, []))
  | (key, value) :: rest =>
      if negb (iequals key "refresh") then Some (Throw (Error "Expecting <trust-anchor.refresh>"))
      else
        let inputString := data value in
        match list.last inputString with
        | None => None
        | Some unit_ =>
            let refreshPeriod := default (-1) (lexical_int32 (take (length inputString - 1) inputString)) in
            let inUnit ns := (fun n => Ok (n, rest)) <$> toNanoseconds refreshPeriod ns in
            if refreshPeriod <? 0 then Some (Throw (Error "Bad refresh value"))
            else if refreshPeriod =? 0 then Some (Ok (getDefaultRefreshPeriod, rest))
            else if Byte.eqb unit_ Byte.x68 then inUnit 3600000000000
            else if Byte.eqb unit_ Byte.x6d then inUnit 60000000000
            else if Byte.eqb unit_ Byte.x73 then inUnit 1000000000
            else Some (Throw (Error "Bad refresh time unit"))
        end
  end.

(** Resolving a path against the directory of the configuration file, and
    reading a certificate from a string in base 64. *)
Context (absolute : bytes -> bytes -> bytes) (loadBase64 : bytes -> option Certificate.t).

(** [ndn-cxx/security/validation-policy-config.cpp:110-181] ValidationPolicyConfig::processConfigTrustAnchor *)
Definition processConfigTrustAnchor (config : list (bytes * ConfigSection)) (filename : bytes) : P_ unit :=
  '(type, rest) ← liftP (expect "type" "Expecting <trust-anchor.type>" config);
  let files what key isDir :=
    ('(file, rest) ← liftP (expect key what rest);
     r ← definedP (getRefreshPeriod rest);
     '(refresh, rest) ← liftP r;
     _ ← liftP (expectEnd "Expecting end of <trust-anchor>" rest);
     onValidator (Validator.loadAnchorFiles (data file) (absolute (data file) filename) refresh isDir)) : P_ unit in
  if iequals (data type) "file" then files "Expecting <trust-anchor.file-name>"%string "file-name"%string false
  else if iequals (data type) "base64" then
    '(encoded, rest) ← liftP (expect "base64-string" "Expecting <trust-anchor.base64-string>" rest);
    _ ← liftP (expectEnd "Expecting end of <trust-anchor>" rest);
    match loadBase64 (data encoded) with
    | Some idCert => onValidator (Validator.loadAnchor [] idCert)
    | None => throwP (Error "Cannot decode certificate from base64-string")
    end
  else if iequals (data type) "dir" then files "Expecting <trust-anchor.dir>"%string "dir"%string true
  else if iequals (data type) "any" then onPolicy (modifyP (with_bypass true))
  else throwP (Error "Unrecognized <trust-anchor.type>").

(** [ndn-cxx/security/validation-policy-config.cpp:87-107] ValidationPolicyConfig::load (the loop) *)
Fixpoint load_sections (config : list (bytes * ConfigSection)) (filename : bytes) : P_ unit :=
  match config with
  | [] => mret tt
  | (sectionName, section) :: rest =>
      _ ← (if iequals sectionName "rule" then
             r ← definedP (Rule_create (children section));
             rule ← liftP r;
             onPolicy (modifyP (fun p => if m_pktType rule =? tlv.Data then with_dataRules (m_dataRules p ++ [rule]) p
                                         else if m_pktType rule =? tlv.Interest then with_interestRules (m_interestRules p ++ [rule]) p
                                         else p))
           else if iequals sectionName "trust-anchor" then processConfigTrustAnchor (children section) filename
           else throwP (Error "unrecognized section"));
      load_sections rest filename
  end.

(** [ndn-cxx/security/validation-policy-config.cpp:70-108] ValidationPolicyConfig::load(const ConfigSection&, const std::string&) *)
Definition load (config : ConfigSection) (filename : bytes) : P_ unit :=
  _ ← (match filename with [] => undefinedP | _ => mret tt end);
  s ← selfP;
  _ ← (if m_isConfigured (fst s) then
         _ ← onPolicy (modifyP (fun p => with_interestRules [] (with_dataRules [] (with_bypass false p))));
         _ ← onValidator Validator.resetAnchors;
         onValidator Validator.resetVerifiedCerts
       else mret tt);
  _ ← onPolicy (modifyP (with_configured true));
  load_sections (children config) filename.

(** What the loop over the rules finds: the first rule that matches, and
    whether one of its checkers accepts. *)
Inductive verdict := NoRule | RuleRejects | RuleAccepts.

(** [ndn-cxx/security/validation-policy-config.cpp:249-258] ValidationPolicyConfig::checkPolicy (the loop over the rules of Data)
    [ndn-cxx/security/validation-policy-config.cpp:279-314] ValidationPolicyConfig::checkPolicy (the loop over the rules of Interests)
    [sigType]: the type of the signature, which for an Interest is found out
    once a rule matches; [Some (Ok None)]: that failed the validation;
    [None]: it is undefined. *)
Fixpoint rules_loop (pktType : Z) (sigType : option (result (option Z))) (pktName klName : Name.t) (fmt : option Validator.SignedInterestFormat)
    : P (list Rule) (option verdict) := fun l =>
  match l with
  | [] => Some ([], Ok (Some NoRule))
  | rule :: rest =>
      match Rule_match pktType pktName fmt rule with
      | None => None
      | Some (rule, Throw e) => Some (rule :: rest, Throw e)
      | Some (rule, Ok false) =>
          match rules_loop pktType sigType pktName klName fmt rest with Some (rest, r) => Some (rule :: rest, r) | None => None end
      | Some (rule, Ok true) =>
          match sigType with
          | None => None
          | Some (Throw e) => Some (rule :: rest, Throw e)
          | Some (Ok None) => Some (rule :: rest, Ok None)
          | Some (Ok (Some sigType)) =>
              match Rule_check pktType sigType pktName klName fmt rule with
              | None => None
              | Some (rule, r) => Some (rule :: rest, b ← r; Ok (Some (if b : bool then RuleAccepts else RuleRejects)))
              end
          end
      end
  end.

(** [ndn-cxx/security/validation-policy-config.cpp:282-307] ValidationPolicyConfig::checkPolicy (the type of the signature)
    [None]: an Interest without a signature is dereferenced. *)
Definition interestSigType (interest : Interest.t) (fmt : Validator.SignedInterestFormat) : option (result (option Z)) :=
  match fmt with
  | Validator.V03 =>
      match Interest.getSignatureInfo interest with
      | Ok (Some si) => Some (Ok (Some (SignatureInfo.m_type si)))
      | Ok None => None
      | Throw e => Some (Throw e)
      end
  | Validator.V02 =>
      let name := Interest.m_name interest in
      Some (if Name.size name <? verification.signed_interest_MIN_SIZE then Ok None
            else
              match (c ← Name.at_ (-2) name; b ← Block.blockFromValue c; SignatureInfo.ofBlock b SignatureInfo.TData) with
              | Ok si => Ok (Some (SignatureInfo.m_type si))
              | Throw e => if is_tlv_error e then Ok None else Throw e
              end)
  end.

(** [ndn-cxx/security/validation-policy-config.cpp:234-262] ValidationPolicyConfig::checkPolicy(const Data&, ...)
    [ndn-cxx/security/validation-policy-config.cpp:264-318] ValidationPolicyConfig::checkPolicy(const Interest&, ...) *)
Definition checkPolicy (p : Validator.packet) (id : nat) (continueValidation : option CertificateRequest.t -> P_ unit) : P_ unit :=
  s ← selfP;
  if m_shouldBypass (fst s) then continueValidation None
  else
    klName ← onValidator (Validator.getKeyLocatorName p id);
    failed ← onValidator (Validator.hasFailed id);
    if failed : bool then mret tt
    else
      st ← onValidator (Validator.getState id);
      let fmt := Validator.m_format st in
      v ← (match p with
           | Validator.PData d =>
               onPolicy (zoomPP m_dataRules with_dataRules
                 (rules_loop tlv.Data (Some (Ok (Some (SignatureInfo.m_type (Data.m_signatureInfo d))))) (Data.m_name d) klName fmt))
           | Validator.PInterest i =>
               fmt' ← definedP fmt;
               onPolicy (zoomPP m_interestRules with_interestRules
                 (rules_loop tlv.Interest (interestSigType i fmt') (Interest.m_name i) klName fmt))
           end);
      match v with
      | Some RuleAccepts =>
          request ← liftP (CertificateRequest.ofName sha256 canBePrefix klName);
          continueValidation (Some request)
      | Some RuleRejects | Some NoRule => onValidator (Validator.fail id POLICY_ERROR)
      | None => onValidator (Validator.fail id INVALID_KEY_LOCATOR)
      end.

End config.
End validator_config.
