(* ===== verification/ValidatorConfigFacts.v ===== *)
(** * The validator's configuration: what is proved

    The hierarchical checker, in every state its regular expressions can be
    in, accepts only keys whose identity is a prefix of the packet's name; the
    rules of a configuration are typed and applied first match first; and the
    captures a regular expression keeps between two packets can decide about
    the second. *)

From Stdlib Require Import Init.Byte.
From stdpp Require Import list relations.
From S2P Require Import Prelude Tlv Encoding Blocks BlockHelpers Text NameComponents Names NameRegex NameRegexFacts Fields DataPacket InterestPacket.
From S2P Require Import InMemoryStorage Announcements Certificates Signatures Validation ValidationFacts ValidatorConfig.

Module ConfigFacts.
Import regex RegexFacts validator_config.

Create HintDb config.

(** One step of a program that asks the standard library for a pattern:
    evaluated until the next question, which [E0] and [EK] answer. *)
Ltac run_head := lazymatch goal with |- ?l = ?r => let l' := eval lazy head in l in change_no_check (l' = r) end.
Ltac answer E0 EK :=
  lazymatch type of E0 with ?ra _ = _ =>
    match goal with |- context [ra ?x] =>
      let x' := eval vm_compute in x in
      lazymatch x' with [] => change (ra x) with (ra []); rewrite E0 | _ => change (ra x) with (ra (str "KEY")); rewrite EK end
    end
  end.

(** ** The hierarchical checker *)

(** The trees its two expressions are compiled to. *)
Definition any_set `{StdRegex} (i : nat) (r0 : NameRegex.regex) : matcher :=
  RegexComponentSetMatcher i (str "<>") true [mkComponentMatcher (S i) [] true r0 [S (S i)]].
Definition group_tree `{StdRegex} (r0 : NameRegex.regex) : matcher :=
  RegexBackrefMatcher 1 (str "(<>*)") [RegexPatternListMatcher 2 (str "<>*") [RegexRepeatMatcher 3 (str "<>*") (any_set 4 r0) 0 MAX_REPETITIONS]].
Definition treeP `{StdRegex} (r0 : NameRegex.regex) : matcher := RegexPatternListMatcher 0 (str "(<>*)") [group_tree r0].
Definition treeK `{StdRegex} (r0 rk : NameRegex.regex) : matcher :=
  RegexPatternListMatcher 0 (str "(<>*)<KEY><>{1,3}")
    [group_tree r0;
     RegexRepeatMatcher 7 (str "<KEY>") (RegexComponentSetMatcher 8 (str "<KEY>") true [mkComponentMatcher 9 (str "KEY") true rk [10%nat]]) 1 1;
     RegexRepeatMatcher 11 (str "<>{1,3}") (any_set 12 r0) 1 3].

Lemma compile_treeP `{SR : StdRegex} r0 : regex_assign [] = Ok r0 -> mark_count r0 = 0%nat ->
  compileTree (str "(<>*)") = Some (Ok (treeP r0, mkObjects (replicate 7 []) [1%nat])).
Proof.
  intros E0 M0. destruct SR as [R ra mc rm]. cbn [regex_assign mark_count] in *.
  run_head. answer E0 E0. run_head. rewrite M0. vm_compute. reflexivity.
Qed.

Lemma compile_treeK `{SR : StdRegex} r0 rk : regex_assign [] = Ok r0 -> regex_assign (str "KEY") = Ok rk -> mark_count r0 = 0%nat -> mark_count rk = 0%nat ->
  compileTree (str "(<>*)<KEY><>{1,3}") = Some (Ok (treeK r0 rk, mkObjects (replicate 15 []) [1%nat])).
Proof.
  intros E0 EK M0 MK. destruct SR as [R ra mc rm]. cbn [regex_assign mark_count] in *.
  run_head. answer E0 EK. run_head. rewrite M0. run_head. answer E0 EK. run_head. rewrite MK. run_head. answer E0 EK. run_head. rewrite M0.
  vm_compute. reflexivity.
Qed.

Section hierarchical.
Context `{SR : StdRegex} {SRL : StdRegexLaws SR} {SRS : StdRegexSyntax SR} (env : option bytes).

(** A matcher for such a tree, whatever it has been used for. *)
Definition for_tree (m : matcher) (t : top_matcher) : Prop :=
  tree_wf m (m_primary t) /\ m_primaryMatcher t = m /\ m_secondaryMatcher t = None /\ m_backrefs (m_primary t) = [1%nat] /\ m_expand t = str "\1".

Lemma for_tree_match m t name : for_tree m t -> progresses m = true -> Forall (uri_ok env) (Name.components name) ->
  exists t' b, matches env name t = Some (t', Ok b) /\ for_tree m t' /\ m_isSecondaryUsed t' = false /\
    (b = true <-> language env m (Name.components name)) /\ (b = true -> recorded env m (m_primary t') (Name.components name)).
Proof.
  intros (Hw & <- & H2 & Hb & Hx) Hp Hn.
  destruct (tree_match env name _ _ (S (length (Name.components name))) Hw Hn Hp ltac:(lia)) as (s & b & E & Hw' & Hl & Hr & Hb').
  unfold matches, top_match. rewrite E, H2. destruct b; eexists _, _; (split; [done|]); (split; [|done]); split_and!; try done; simpl; by rewrite Hb'.
Qed.

(** Expanding [\1] gives what the group took. *)
Lemma for_tree_expand m t : for_tree m t -> m_isSecondaryUsed t = false ->
  exists n, expand t [] = Ok n /\ Name.components n = getMatchResult 1 (m_primary t).
Proof.
  intros (_ & _ & _ & Hb & Hx) Hu. destruct (RegexTheorems.expand_reference t 1 1 (m_primary t)) as (n & En & Hn); [vm_compute; split; [done|discriminate]| |by rewrite Hb|].
  { by rewrite Hu. }
  exists n. split; [|done]. rewrite <- En. unfold expand. by rewrite Hx.
Qed.

(** *** The languages of the two trees *)

Lemma any_power i r0 n w : power (language env (any_set i r0)) n w <-> length w = n.
Proof.
  cbn [language any_set]. rewrite power_single. split; [by intros [? _]|]. intros H. split; [done|]. by apply Forall_forall.
Qed.

Lemma group_language r0 w : any_sequence w -> language env (group_tree r0) w.
Proof.
  intros Hw. apply seq_language_single, seq_language_single. exists (length w). split; [unfold any_sequence, len, MAX_REPETITIONS in *; lia|by apply any_power].
Qed.

Lemma treeP_language r0 w : any_sequence w -> language env (treeP r0) w.
Proof. intros Hw. by apply seq_language_single, group_language. Qed.

Lemma treeP_recorded r0 s w : recorded env (treeP r0) s w -> getMatchResult 1 s = w.
Proof. intros (_ & u & v & -> & (<- & _) & ->). by rewrite app_nil_r. Qed.

(** The pattern [rk] stands for the literal [KEY]. *)
Context (r0 rk : NameRegex.regex) (M0 : mark_count r0 = 0%nat) (MK : mark_count rk = 0%nat)
  (HK : forall u, forallb component_char u = true -> is_Some (regex_match rk u) <-> u = str "KEY").

Definition is_key (c : Component.t) : Prop := uri env c = str "KEY".

Lemma key_accepts c : printable env c ->
  existsb (fun cm => accepts env cm c) [mkComponentMatcher 9 (str "KEY") true rk [10%nat]] = true <-> is_key c.
Proof.
  intros (_ & _ & Hc). cbn [existsb]. unfold accepts. cbn [c_expr m_componentRegex]. rewrite orb_false_r, bool_decide_eq_false_2 by done.
  cbn [orb]. rewrite bool_decide_eq_true. by apply HK.
Qed.

Lemma treeK_recorded s w : Forall (printable env) w -> recorded env (treeK r0 rk) s w ->
  exists key rest, w = getMatchResult 1 s ++ key :: rest /\ is_key key /\ (1 <= length rest <= 3)%nat.
Proof.
  intros Hw (_ & u & v & -> & (<- & _) & v1 & v2 & -> & H1 & v3 & v4 & -> & H3 & H4). simpl in H4. subst v4. apply Forall_app in Hw as [_ Hw].
  assert (Hk : wf (RegexComponentSetMatcher 8 (str "<KEY>") true [mkComponentMatcher 9 (str "KEY") true rk [10%nat]])).
  { constructor; [|constructor]. split; [done|]. simpl. by rewrite MK. }
  assert (H0 : wf (any_set 12 r0)) by (constructor; [|constructor]; split; [done|]; simpl; by rewrite M0).
  apply (recorded_language env) in H1 as (n1 & Hn1 & H1); [|done].
  apply (recorded_language env) in H3 as (n3 & Hn3 & H3); [|done].
  assert (n1 = 1%nat) as -> by lia. apply power_single in H1 as [Hl H1]. destruct v1 as [|c [|]]; try done.
  apply Forall_cons_iff in H1 as [H1 _]. apply any_power in H3. exists c, v3. split; [by rewrite app_nil_r|].
  split; [|lia]. simpl in Hw. apply Forall_cons_iff in Hw as [Hc _]. by apply key_accepts.
Qed.

Lemma treeK_language identity key rest : Forall (printable env) (identity ++ key :: rest) -> any_sequence identity -> is_key key ->
  (1 <= length rest <= 3)%nat -> language env (treeK r0 rk) (identity ++ key :: rest).
Proof.
  intros Hw Hi Hk Hr. apply Forall_app in Hw as [_ [Hc _]%Forall_cons_iff]. exists identity, (key :: rest). split; [done|].
  split; [by apply group_language|]. exists [key], rest. split; [done|]. split.
  - exists 1%nat. split; [lia|]. apply power_single. split; [done|]. constructor; [by apply key_accepts|constructor].
  - apply seq_language_single. exists (length rest). split; [lia|by apply any_power].
Qed.

(** The only [KEY] of a name is where it is. *)
Lemma key_unique i k r i' k' r' : i ++ k :: r = i' ++ k' :: r' -> is_key k -> Forall (fun c => ~ is_key c) (i' ++ r') ->
  i = i' /\ k = k' /\ r = r'.
Proof.
  revert i'. induction i as [|x i IH]; intros [|y i'] E Hk Hno; simplify_eq/=; try done.
  - apply Forall_cons_iff in Hno as [? _]. done.
  - rewrite Forall_app, Forall_cons_iff in Hno. by destruct Hno as (_ & ? & _).
  - apply Forall_cons_iff in Hno as [_ Hno]. by destruct (IH i' ltac:(done) Hk Hno) as (-> & -> & ->).
Qed.

(** *** The checker *)

Definition hierarchical (c : checker) : Prop := exists p k,
  c = HyperRelationChecker p k IS_PREFIX_OF /\ for_tree (treeP r0) p /\ for_tree (treeK r0 rk) k.

(** In every state, a check ends and leaves such a checker; if it accepts,
    the key's name ends in [KEY] and one to three components, and what is
    before that is a prefix of the packet's name; and if [KEY] occurs in the
    key's name just once, the check decides that. *)
Lemma hierarchical_check c pktName klName : hierarchical c ->
  Forall (printable env) (Name.components pktName) -> Forall (printable env) (Name.components klName) ->
  exists c' b, checkNames env pktName klName c = Some (c', Ok b) /\ hierarchical c' /\
    (b = true -> exists identity key rest, Name.components klName = identity ++ key :: rest /\ is_key key /\
       (1 <= length rest <= 3)%nat /\ map ComponentFacts.key identity `prefix_of` NameFacts.keys pktName) /\
    forall identity key rest, any_sequence (Name.components pktName) -> any_sequence (Name.components klName) ->
      Name.components klName = identity ++ key :: rest -> is_key key -> Forall (fun c => ~ is_key c) (identity ++ rest) ->
      (b = true <-> (1 <= length rest <= 3)%nat /\ map ComponentFacts.key identity `prefix_of` NameFacts.keys pktName).
Proof.
  intros (p & k & -> & Hp & Hk) Hpkt Hkl. pose proof (RegexTheorems.printable_uri_ok env) as Hu.
  destruct (for_tree_match _ p pktName Hp eq_refl (Hu _ Hpkt)) as (p' & b1 & E1 & Hp' & Up & L1 & R1).
  cbn [checkNames]. unfold checkHyper. rewrite E1. destruct b1; cycle 1.
  { eexists _, false. split; [done|]. split; [by exists p', k|]. split; [done|]. intros i c r Hs _ _ _ _. exfalso.
    assert (false = true); [|done]. by apply L1, treeP_language. }
  destruct (for_tree_match _ k klName Hk eq_refl (Hu _ Hkl)) as (k' & b2 & E2 & Hk' & Uk & L2 & R2). rewrite E2.
  destruct b2; cycle 1.
  { eexists _, false. split; [done|]. split; [by exists p', k'|]. split; [done|]. intros i c r _ Hs Ekl Hc _. split; [done|].
    intros [Hr _]. apply L2. rewrite Ekl in *. apply treeK_language; try done. apply any_sequence_app in Hs as [? _]. done. }
  destruct (for_tree_expand _ p' Hp' Up) as (np & -> & Np). destruct (for_tree_expand _ k' Hk' Uk) as (nk & -> & Nk).
  cbn [mbind result_bind checkNameRelation]. rewrite (treeP_recorded _ _ _ (R1 eq_refl)) in Np.
  assert (Hpre : Name.isPrefixOf nk np = true <-> map ComponentFacts.key (Name.components nk) `prefix_of` NameFacts.keys pktName).
  { rewrite NameFacts.isPrefixOf_spec, bool_decide_eq_true. unfold NameFacts.keys. by rewrite Np. }
  destruct (treeK_recorded _ _ Hkl (R2 eq_refl)) as (key & rest & Ekl & Hkey & Hlen). rewrite <- Nk in Ekl.
  eexists _, _. split; [done|]. split; [by exists p', k'|]. split; [intros Hb%Hpre; by exists (Name.components nk), key, rest|].
  intros i c r _ _ Ekl' Hc Hno. rewrite Ekl in Ekl'. destruct (key_unique _ _ _ _ _ _ Ekl' Hkey Hno) as (Hi & -> & ->). rewrite Hi in Hpre. rewrite Hpre. tauto.
Qed.

(** The checker has been used for some packets. *)
Definition checked (c c' : checker) : Prop := exists pktName klName r,
  Forall (printable env) (Name.components pktName) /\ Forall (printable env) (Name.components klName) /\
  checkNames env pktName klName c = Some (c', r).

Lemma hierarchical_checked c c' : hierarchical c -> rtc checked c c' -> hierarchical c'.
Proof.
  intros H Hr. induction Hr as [|c c1 c' (n & k & r & Hn & Hk & E) _ IH]; [done|]. apply IH.
  destruct (hierarchical_check c n k H Hn Hk) as (? & ? & E' & H' & _). congruence.
Qed.

End hierarchical.

Lemma compileTree_for_tree `{SR : StdRegex} e m s expr : compileTree e = Some (Ok (m, s)) -> m_backrefs s = [1%nat] ->
  for_tree m (mkTopMatcher expr (str "\1") m s None noObjects false []).
Proof. intros E Hb. destruct (compileTree_wf e) as (r & E' & Hw). rewrite E in E'. injection E' as <-. split; [by apply Hw|done]. Qed.

Lemma createHierarchicalChecker_tree `{SR : StdRegex} {SRS : StdRegexSyntax SR} config c : createHierarchicalChecker config = Some (Ok c) ->
  exists r0 rk, mark_count r0 = 0%nat /\ mark_count rk = 0%nat /\
    (forall u, forallb component_char u = true -> is_Some (regex_match rk u) <-> u = str "KEY") /\ hierarchical r0 rk (m_checker c).
Proof.
  destruct (literal_regex [] eq_refl) as (r0 & E0 & M0 & _). destruct (literal_regex (str "KEY") eq_refl) as (rk & EK & MK & HK).
  pose proof (compile_treeP r0 E0 M0) as HP. pose proof (compile_treeK r0 rk E0 EK M0 MK) as HC.
  unfold createHierarchicalChecker. destruct (takeSigType _) as [[sigType rest]|]; [|done]. destruct (expectEnd _ rest); [|done].
  change (newTopMatcher hierarchicalP (str "\1")) with (match compileTree (str "(<>*)") with
    | Some (Ok (m, s)) => Some (Ok (mkTopMatcher hierarchicalP (str "\1") m s None noObjects false []))
    | Some (Throw e) => Some (Throw e)
    | None => None end).
  change (newTopMatcher hierarchicalK (str "\1")) with (match compileTree (str "(<>*)<KEY><>{1,3}") with
    | Some (Ok (m, s)) => Some (Ok (mkTopMatcher hierarchicalK (str "\1") m s None noObjects false []))
    | Some (Throw e) => Some (Throw e)
    | None => None end).
  rewrite HP, HC. intros [= <-]. exists r0, rk. split_and!; [done..|]. eexists _, _. split; [done|].
  split; by eapply compileTree_for_tree.
Qed.

(** ** Rules *)

Section loops.
Context {A : Type} (test : P A bool).

Definition refused (a : A) : Prop := exists a', test a = Some (a', Ok false).

(** The first object for which the test succeeds, and none before threw. *)
Definition first_of (l : list A) : Prop := exists before a after a', l = before ++ a :: after /\ Forall refused before /\ test a = Some (a', Ok true).

Lemma any_false l : (exists l', any_ test l = Some (l', Ok false)) <-> Forall refused l.
Proof.
  split.
  - intros [l' E]. revert l' E. induction l as [|a l IH]; intros l'; cbn [any_]; [constructor|].
    destruct (test a) as [[a' [[]|]]|] eqn:E; try done. destruct (any_ test l) as [[l1 r]|]; [|done]. intros [= <- ->].
    constructor; [by exists a'|by apply (IH l1)].
  - induction 1 as [|a l [a' Ha] _ [l' IH]]; [by exists []|]. exists (a' :: l'). cbn [any_]. by rewrite Ha, IH.
Qed.

Lemma any_true l : (exists l', any_ test l = Some (l', Ok true)) <-> first_of l.
Proof.
  split.
  - intros [l' E]. revert l' E. induction l as [|a l IH]; intros l'; cbn [any_]; [done|].
    destruct (test a) as [[a' [[]|]]|] eqn:E; [intros _; by exists [], a, l, a'| |done..].
    destruct (any_ test l) as [[l1 r]|]; [|done]. intros [= <- ->]. destruct (IH l1 eq_refl) as (u & x & v & x' & -> & Hu & Hx).
    exists (a :: u), x, v, x'. split_and!; [done|constructor; [by exists a'|done]|done].
  - intros (u & a & v & a' & -> & Hu & Ha). induction Hu as [|x u [x' Hx] _ [l' IH]]; [exists (a' :: v); cbn; by rewrite Ha|].
    exists (x' :: l'). cbn [app any_]. by rewrite Hx, IH.
Qed.

Lemma any_length l l' r : any_ test l = Some (l', r) -> length l' = length l.
Proof.
  revert l' r. induction l as [|a l IH]; intros l' r; cbn [any_]; [by intros [= <- <-]|].
  destruct (test a) as [[a' [[]|]]|]; [by intros [= <- <-]| |by intros [= <- <-]|done].
  destruct (any_ test l) as [[l1 r1]|]; [|done]. intros [= <- <-]. simpl. f_equal. by eapply IH.
Qed.

End loops.

Section rules.
Context `{SR : StdRegex} (env : option bytes).

Definition typed (ty : Z) (r : Rule) : Prop := m_pktType r = ty /\ m_checkers r <> [].

Lemma Rule_match_keeps ty n fmt r r' x : Rule_match env ty n fmt r = Some (r', x) -> m_pktType r' = m_pktType r /\ m_checkers r' = m_checkers r.
Proof.
  unfold Rule_match, mbind, P_bind, selfP. destruct (negb (ty =? m_pktType r)); [by intros [= <- <-]|]. destruct (m_filters r) as [|f l] eqn:Ef; [by intros [= <- <-]|].
  unfold zoomPP. destruct (any_ _ _) as [[l' y]|]; [|done]. by intros [= <- <-].
Qed.

Lemma Rule_check_keeps ty sig n k fmt r r' x : Rule_check env ty sig n k fmt r = Some (r', x) ->
  m_pktType r' = m_pktType r /\ length (m_checkers r') = length (m_checkers r).
Proof.
  unfold Rule_check, mbind, P_bind, selfP. destruct (negb (ty =? m_pktType r)); [by intros [= <- <-]|]. unfold zoomPP.
  destruct (any_ _ _) as [[l' y]|] eqn:E; [|done]. intros [= <- <-]. split; [done|]. by eapply any_length.
Qed.

Lemma rules_loop_typed ty sig n k fmt l l' r : Forall (typed ty) l -> rules_loop env ty sig n k fmt l = Some (l', r) -> Forall (typed ty) l'.
Proof.
  intros H. revert l' r. induction H as [|rule l [H1 H2] Hl IH]; intros l' r; cbn [rules_loop]; [by intros [= <- <-]|].
  destruct (Rule_match env ty n fmt rule) as [[rule1 m]|] eqn:Em; [|done]. apply Rule_match_keeps in Em as [K1 K2].
  assert (T1 : typed ty rule1) by (split; congruence).
  destruct m as [[]|e]; [|destruct (rules_loop _ _ _ _ _ _ l) as [[l1 r1]|]; [|done]; intros [= <- <-]; constructor; [done|by eapply IH]|].
  - destruct sig as [[[sig|]|e]|]; [|by intros [= <- <-]; constructor..|done].
    destruct (Rule_check env ty sig n k fmt rule1) as [[rule2 c]|] eqn:Ec; [|done]. apply Rule_check_keeps in Ec as [L1 L2].
    intros [= <- <-]. constructor; [|done]. destruct T1 as [T1 T2]. split; [congruence|]. intros E. apply T2. rewrite E in L2. by apply nil_length_inv.
  - intros [= <- <-]. by constructor.
Qed.

Lemma Rule_create_typed config r : Rule_create config = Some (Ok r) -> typed tlv.Data r \/ typed tlv.Interest r.
Proof.
  unfold Rule_create. destruct (ruleHead config) as [[[id ty] rest]|] eqn:Eh; [|done].
  assert (Hty : ty = tlv.Data \/ ty = tlv.Interest).
  { unfold ruleHead in Eh. destruct (expect _ _ config) as [[i l]|]; [|done]. cbn in Eh. destruct (expect _ _ l) as [[u l']|]; [|done]. cbn in Eh.
    repeat case_match; simplify_eq; auto. }
  destruct (create_filters rest []) as [[[fs rest']|]|]; [|done..]. destruct (create_checkers rest' []) as [[[|c cs]|]|]; [done| |done..].
  intros [= <-]. destruct Hty as [-> | ->]; [left|right]; by split.
Qed.

Lemma Checker_check_sigType ty sig n k fmt c c' : Checker_check env ty sig n k fmt c = Some (c', Ok true) -> m_sigType c = sig.
Proof.
  unfold Checker_check, mbind, P_bind, selfP. destruct (Z.eqb_spec sig (m_sigType c)); [by intros _|]. discriminate.
Qed.

(** The rule is for the packet: it has no filter, or one that captures the
    packet while those before it do not. *)
Definition captures (ty : Z) (n : Name.t) fmt (r : Rule) : Prop := m_filters r = [] \/ first_of (Filter_match env ty n fmt) (m_filters r).

Definition passes_over (ty : Z) (n : Name.t) fmt (r : Rule) : Prop := m_filters r <> [] /\ Forall (refused (Filter_match env ty n fmt)) (m_filters r).

Lemma Rule_match_true ty n fmt r : m_pktType r = ty -> (exists r', Rule_match env ty n fmt r = Some (r', Ok true)) <-> captures ty n fmt r.
Proof.
  intros <-. unfold Rule_match, captures, mbind, P_bind, selfP, zoomPP. rewrite Z.eqb_refl. cbn [negb]. rewrite <- any_true.
  destruct (m_filters r) as [|f l] eqn:Ef; [split; [by left|intros _; by exists r]|]. rewrite Ef.
  split; [|intros [|[l' ->]]; [done|eauto]]. intros [r' E]. right. destruct (any_ _ _) as [[l' x]|]; [|done]. injection E as _ ->. eauto.
Qed.

Lemma Rule_match_false ty n fmt r : m_pktType r = ty -> refused (Rule_match env ty n fmt) r <-> passes_over ty n fmt r.
Proof.
  intros <-. unfold refused at 1, Rule_match, passes_over, mbind, P_bind, selfP. rewrite Z.eqb_refl. cbn [negb]. rewrite <- any_false. cbv beta delta [zoomPP].
  destruct (m_filters r) as [|f l] eqn:Ef; [split; [by intros [? [=]]|by intros []]|]. rewrite Ef.
  split; [|intros [_ [l' ->]]; eauto]. intros [r' E]. split; [done|]. destruct (any_ _ _) as [[l' x]|]; [|done]. injection E as _ ->. eauto.
Qed.

Lemma Rule_check_spec ty sig n k fmt r b : m_pktType r = ty -> (exists r', Rule_check env ty sig n k fmt r = Some (r', Ok b)) <->
  if b then first_of (Checker_check env ty sig n k fmt) (m_checkers r) else Forall (refused (Checker_check env ty sig n k fmt)) (m_checkers r).
Proof.
  intros <-. unfold Rule_check, mbind, P_bind, selfP, zoomPP. rewrite Z.eqb_refl. cbn [negb].
  destruct b; [rewrite <- any_true|rewrite <- any_false]; (destruct (any_ _ _) as [[l' [[]|]]|]; split; intros [? [=]]; eauto).
Qed.

(** What the loop over the rules says about them: either no rule is for the
    packet, or the first one that is decides, by its checkers in their order. *)
Definition verdict_spec (ty sig : Z) (n k : Name.t) fmt (l : list Rule) (v : verdict) : Prop :=
  let first (Q : Rule -> Prop) := exists before rule after, l = before ++ rule :: after /\
    Forall (passes_over ty n fmt) before /\ captures ty n fmt rule /\ Q rule in
  match v with
  | NoRule => Forall (passes_over ty n fmt) l
  | RuleRejects => first (fun rule => Forall (refused (Checker_check env ty sig n k fmt)) (m_checkers rule))
  | RuleAccepts => first (fun rule => first_of (Checker_check env ty sig n k fmt) (m_checkers rule))
  end.

Lemma verdict_spec_cons ty sig n k fmt r l v : passes_over ty n fmt r -> verdict_spec ty sig n k fmt l v -> verdict_spec ty sig n k fmt (r :: l) v.
Proof.
  intros Hr. destruct v; cbn; [by constructor|..]; intros (u & x & w & -> & Hu & Hx); exists (r :: u), x, w; (split; [done|]); (split; [by constructor|done]).
Qed.

Lemma captures_not_over ty n fmt r : captures ty n fmt r -> passes_over ty n fmt r -> False.
Proof.
  intros [|(u & a & v & a' & E & _ & Ha)] [Hne Hf]; [done|]. rewrite E in Hf. apply Forall_app in Hf as [_ Hf]. apply Forall_cons_iff in Hf as [[a2 E2] _]. congruence.
Qed.

(** What is left after the first rule. *)
Lemma verdict_spec_over ty sig n k fmt r l v : passes_over ty n fmt r -> verdict_spec ty sig n k fmt (r :: l) v -> verdict_spec ty sig n k fmt l v.
Proof.
  intros Hr. destruct v; cbn; [by intros [_ H]%Forall_cons_iff|..];
    (intros ([|y u] & x & w & E & Hu & Hc & Hx); [injection E as -> ->; by destruct (captures_not_over ty n fmt x)|]);
    injection E as -> ->; apply Forall_cons_iff in Hu as [_ Hu]; by exists u, x, w.
Qed.

Lemma verdict_spec_first ty sig n k fmt r l v : captures ty n fmt r -> verdict_spec ty sig n k fmt (r :: l) v ->
  exists b : bool, v = (if b then RuleAccepts else RuleRejects) /\
    if b then first_of (Checker_check env ty sig n k fmt) (m_checkers r) else Forall (refused (Checker_check env ty sig n k fmt)) (m_checkers r).
Proof.
  intros Hr. destruct v; cbn; intros H; [apply Forall_cons_iff in H as [H _]; by destruct (captures_not_over ty n fmt r)|exists false|exists true];
    (destruct H as ([|y u] & x & w & E & Hu & Hc & Hx); [injection E as -> ->; split; [reflexivity|exact Hx]|]);
    injection E as -> ->; apply Forall_cons_iff in Hu as [Hu _]; by destruct (captures_not_over ty n fmt y).
Qed.

Lemma verdict_spec_head ty sig n k fmt r l v : verdict_spec ty sig n k fmt (r :: l) v -> captures ty n fmt r \/ passes_over ty n fmt r.
Proof.
  destruct v; cbn; [intros [H _]%Forall_cons_iff; by right|..];
    (intros ([|y u] & x & w & E & Hu & Hc & _); injection E as -> ->; [by left|right; by apply Forall_cons_iff in Hu as [Hu _]]).
Qed.

Lemma rules_loop_spec ty sig n k fmt l v : Forall (fun r => m_pktType r = ty) l ->
  (exists l', rules_loop env ty (Some (Ok (Some sig))) n k fmt l = Some (l', Ok (Some v))) <-> verdict_spec ty sig n k fmt l v.
Proof.
  induction 1 as [|r l Hr _ IH]; cbn [rules_loop].
  - split; [intros [l' [= <- <-]]; constructor|]. destruct v; [intros _; by exists []|..]; by intros ([|] & ? & ? & ? & _).
  - split.
    + intros [l' E]. destruct (Rule_match env ty n fmt r) as [[r1 [[]|]]|] eqn:Em; [| |done..].
      * assert (captures ty n fmt r) as Hc by (apply Rule_match_true; eauto). destruct (Rule_match_keeps _ _ _ _ _ _ Em) as [E1 E2].
        destruct (Rule_check env ty sig n k fmt r1) as [[r2 [b|]]|] eqn:Ec; [|done..]. injection E as _ <-.
        assert (Hb : exists r2, Rule_check env ty sig n k fmt r1 = Some (r2, Ok b)) by eauto.
        apply Rule_check_spec in Hb; [|congruence]. rewrite E2 in Hb. destruct b; by exists [], r, l.
      * assert (passes_over ty n fmt r) as Hp by (apply Rule_match_false; [done|by exists r1]).
        destruct (rules_loop _ _ _ _ _ _ l) as [[l1 x]|]; [|done]. injection E as _ ->. apply verdict_spec_cons; [done|]. apply IH. eauto.
    + intros Hv. destruct (verdict_spec_head _ _ _ _ _ _ _ _ Hv) as [Hc|Hp].
      * destruct (proj2 (Rule_match_true _ _ _ _ Hr) Hc) as [r1 Em]. rewrite Em. destruct (Rule_match_keeps _ _ _ _ _ _ Em) as [E1 E2].
        destruct (verdict_spec_first _ _ _ _ _ _ _ _ Hc Hv) as (b & -> & Hb). rewrite <- E2 in Hb. apply Rule_check_spec in Hb as [r2 ->]; [|congruence].
        by eexists.
      * destruct (proj2 (Rule_match_false _ _ _ _ Hr) Hp) as [r1 ->]. apply verdict_spec_over, IH in Hv as [l' ->]; [|done]. by eexists.
Qed.

End rules.

(** ** The policy *)

Section policy.
Context `{SR : StdRegex} `{PosixTime} `{Files} `{Crypto} (autoCheck : bool) (canBePrefix : option bool) (env : option bytes).
Context (absolute : bytes -> bytes -> bytes) (loadBase64 : bytes -> option Certificate.t).

Definition typed_policy (p : policy) : Prop := Forall (typed tlv.Data) (m_dataRules p) /\ Forall (typed tlv.Interest) (m_interestRules p).

(** [m] leaves typed rules, also if it throws. *)
Definition keeps_typed {A} (m : P (policy * Validator.t) A) : Prop :=
  tripleP (fun s => typed_policy (fst s)) m (fun _ s => typed_policy (fst s)) (fun s => typed_policy (fst s)).

Lemma typed_bind {A B} (m : P (policy * Validator.t) A) (k : A -> P (policy * Validator.t) B) :
  keeps_typed m -> (forall a, keeps_typed (k a)) -> keeps_typed (m ≫= k).
Proof. apply tripleP_bind. Qed.

Lemma typed_same {A} (m : P (policy * Validator.t) A) : (forall s s' r, m s = Some (s', r) -> fst s' = fst s) -> keeps_typed m.
Proof. intros Hm s Hs. destruct (m s) as [[s' [a|e]]|] eqn:E; [| |done]; by rewrite (Hm _ _ _ E). Qed.

Lemma typed_lift {A} (r : result A) : keeps_typed (liftP r).
Proof. apply typed_same. by intros s s' x [= <- _]. Qed.

Lemma typed_ret {A} (a : A) : keeps_typed (mret a).
Proof. apply typed_same. by intros s s' x [= <- _]. Qed.

Lemma typed_self : keeps_typed selfP.
Proof. apply typed_same. by intros s s' x [= <- _]. Qed.

Lemma typed_defined {A} (x : option A) : keeps_typed (definedP x).
Proof. apply typed_same. intros s s' r. unfold definedP. destruct x; [|done]. by intros [= <- _]. Qed.

Lemma typed_validator {A} (m : P Validator.t A) : keeps_typed (onValidator m).
Proof. apply typed_same. intros s s' r. unfold onValidator, zoomPP. destruct (m (snd s)) as [[t x]|]; [|done]. by intros [= <- _]. Qed.

Lemma typed_modify (f : policy -> policy) : (forall p, typed_policy p -> typed_policy (f p)) -> keeps_typed (onPolicy (modifyP f)).
Proof. intros Hf s Hs. by apply Hf. Qed.

Lemma typed_dataLoop sig n k fmt : keeps_typed (onPolicy (zoomPP m_dataRules with_dataRules (rules_loop env tlv.Data sig n k fmt))).
Proof.
  intros [p v] [Hd Hi]. unfold onPolicy, zoomPP. cbn [fst]. destruct (rules_loop _ _ _ _ _ _ (m_dataRules p)) as [[l [b|e]]|] eqn:E; [| |done];
    (split; [by eapply rules_loop_typed|done]).
Qed.

Lemma typed_interestLoop sig n k fmt : keeps_typed (onPolicy (zoomPP m_interestRules with_interestRules (rules_loop env tlv.Interest sig n k fmt))).
Proof.
  intros [p v] [Hd Hi]. unfold onPolicy, zoomPP. cbn [fst]. destruct (rules_loop _ _ _ _ _ _ (m_interestRules p)) as [[l [b|e]]|] eqn:E; [| |done];
    (split; [done|by eapply rules_loop_typed]).
Qed.

#[local] Hint Resolve typed_lift typed_ret typed_self typed_defined typed_validator typed_dataLoop typed_interestLoop : config.

(** The steps of a handler, one by one; what is left are the changes of the
    policy. *)
Ltac keeps := repeat first [solve [eauto with config] | apply typed_bind; [|intros ?] | case_match].

Lemma typed_trustAnchor config filename : keeps_typed (processConfigTrustAnchor absolute loadBase64 config filename).
Proof. unfold processConfigTrustAnchor. keeps; by apply typed_modify. Qed.

Lemma typed_sections config filename : keeps_typed (load_sections absolute loadBase64 config filename).
Proof.
  induction config as [|[name section] rest IH]; cbn [load_sections]; [apply typed_ret|].
  apply typed_bind; [|by intros _]. case_match; [|case_match; [apply typed_trustAnchor|apply typed_lift]].
  intros s Hs. unfold mbind, P_bind, definedP. destruct (Rule_create (children section)) as [[rule|e]|] eqn:E; [|done..].
  apply Rule_create_typed in E. cbn [liftP onPolicy zoomPP modifyP fst]. destruct Hs as [Hd Hi].
  destruct E as [[T C]|[T C]]; rewrite T; split; cbn; try done; apply Forall_app; split; try done;
    (constructor; [by split|constructor]).
Qed.

Lemma typed_load config filename : keeps_typed (load absolute loadBase64 config filename).
Proof.
  unfold load. apply typed_bind; [destruct filename; [by intros s _|apply typed_ret]|intros _]. keeps; [|apply typed_sections].
  apply typed_modify. intros p _. by split.
Qed.

Lemma typed_checkPolicy p id k : (forall r, keeps_typed (k r)) -> keeps_typed (checkPolicy canBePrefix env p id k).
Proof. intros Hk. unfold checkPolicy. keeps. Qed.

(** What a program does with a policy: load configurations, also such that
    fail, and let it check packets. *)
Inductive policy_step : policy * Validator.t -> policy * Validator.t -> Prop :=
  | step_load config filename s s' r : load absolute loadBase64 config filename s = Some (s', r) -> policy_step s s'
  | step_check p id k s s' r : (forall request, keeps_typed (k request)) -> checkPolicy canBePrefix env p id k s = Some (s', r) -> policy_step s s'.

Lemma typed_run {A} (m : P (policy * Validator.t) A) s s' r : keeps_typed m -> typed_policy (fst s) -> m s = Some (s', r) -> typed_policy (fst s').
Proof. intros Hm Hs E. specialize (Hm s Hs). rewrite E in Hm. by destruct r. Qed.

Lemma policy_steps s s' : rtc policy_step s s' -> typed_policy (fst s) -> typed_policy (fst s').
Proof.
  induction 1 as [|x y z [config filename s1 s2 r E|p id k s1 s2 r Hk E] _ IH]; [done|..]; intros Hs; apply IH.
  - eapply typed_run; [apply typed_load|done..].
  - eapply typed_run; [by apply typed_checkPolicy|done..].
Qed.

End policy.

End ConfigFacts.

(** ** A configuration *)

Module ConfigSamples.
Import regex validator_config.

#[local] Existing Instance RegexTheorems.toy.
#[local] Existing Instance RegexTheorems.toy_laws.
#[local] Existing Instance RegexTheorems.toy_syntax.
#[local] Existing Instance ValidationSamples.toy_clock.
#[local] Existing Instance ValidationSamples.toy_files.
#[local] Existing Instance ValidationSamples.toy_crypto.

Definition leaf (key value : string) : bytes * ConfigSection := (str key, Section_ (str value) []).
Definition node (key : string) (l : list (bytes * ConfigSection)) : bytes * ConfigSection := (str key, Section_ [] l).

(** Data under [/x] has to be signed with a key of a prefix of its name. *)
Definition hierarchical_rule : bytes * ConfigSection :=
  node "rule" [leaf "id" "r1"; leaf "for" "data";
               node "filter" [leaf "type" "name"; leaf "name" "/x"; leaf "relation" "is-prefix-of"];
               node "checker" [leaf "type" "hierarchical"; leaf "sig-type" "ecdsa-sha256"]].

Definition sample : ConfigSection := Section_ [] [hierarchical_rule].

(** A key may sign the packet that the optional last component of its name
    names. *)
Definition optional_checker : list (bytes * ConfigSection) :=
  [leaf "type" "customized"; leaf "sig-type" "ecdsa-sha256";
   node "key-locator" [leaf "type" "name";
     node "hyper-relation" [leaf "k-regex" "^<KEY><>(<>)?$"; leaf "k-expand" "\1"; leaf "h-relation" "equal";
                            leaf "p-regex" "^(<>*)$"; leaf "p-expand" "\1"]]].

Definition fresh (config : list (bytes * ConfigSection)) : Checker :=
  match Checker_create config with Some (Ok c) => c | _ => mkChecker 0 AnyNames end.

(** The answer of a checker to the last of some pairs of a packet's and a
    key's name. *)
Fixpoint answers (c : checker) (l : list (string * string)) : list (option bool) :=
  match l with
  | [] => []
  | (pkt, key) :: l =>
      match checkNames None (RegexTheorems.name_of pkt) (RegexTheorems.name_of key) c with
      | Some (c, Ok b) => Some b :: answers c l
      | Some (c, Throw _) => None :: answers c l
      | None => []
      end
  end.

Example hierarchical_answers :
  answers (m_checker (fresh [leaf "type" "hierarchical"])) [("/x/y", "/x/KEY/k"); ("/x/y", "/z/KEY/k"); ("/x/y", "/x/KEY/k/i/1"); ("/x/y", "/x/KEY")]%string
    = [Some true; Some false; Some true; Some false].
Proof. vm_compute. reflexivity. Qed.

(** A new validator, and one with the configuration. *)
Definition before : policy * Validator.t := (initPolicy, Validator.init [] Validator.AcceptAll Validator.FromNetwork 0 0).
Definition loaded : policy * Validator.t :=
  match load (fun file _ => file) (fun _ => None) sample (str "f") before with Some (s, Ok _) => s | _ => before end.

Lemma sample_loads : load (fun file _ => file) (fun _ => None) sample (str "f") before = Some (loaded, Ok tt).
Proof.
  assert (E : match load (fun file _ => file) (fun _ => None) sample (str "f") before with Some (_, Ok _) => true | _ => false end = true)
    by (vm_compute; reflexivity).
  unfold loaded. by destruct (load _ _ sample (str "f") before) as [[s [[]|]]|].
Qed.

End ConfigSamples.

(** ** Theorems *)

Module ConfigTheorems.
Import regex RegexFacts validator_config ConfigFacts ConfigSamples.

#[local] Existing Instance RegexTheorems.toy.
#[local] Existing Instance RegexTheorems.toy_laws.
#[local] Existing Instance RegexTheorems.toy_syntax.
#[local] Existing Instance ValidationSamples.toy_clock.
#[local] Existing Instance ValidationSamples.toy_files.
#[local] Existing Instance ValidationSamples.toy_crypto.

(** C38: the hierarchical checker, whatever packets it has checked before, always
    answers, and accepts a packet only if the name of the key is an identity
    followed by the component KEY and one to three components, where the
    identity is a prefix of the packet's name; where KEY occurs only once in
    the name of the key, it accepts exactly these. *)
Theorem hierarchical_checker_sound `{SRL : StdRegexLaws} {SRS : StdRegexSyntax _} (env : option bytes)
  (config : list (bytes * ConfigSection)) (c : Checker) (c' : checker) (pktName klName : Name.t)
  (Hc : createHierarchicalChecker config = Some (Ok c)) (Hr : rtc (checked env) (m_checker c) c')
  (Hp : Forall (printable env) (Name.components pktName)) (Hk : Forall (printable env) (Name.components klName)) :
  exists c'' b, checkNames env pktName klName c' = Some (c'', Ok b) /\
    (b = true -> exists identity key rest, Name.components klName = identity ++ key :: rest /\ uri env key = str "KEY" /\
       (1 <= length rest <= 3)%nat /\ map ComponentFacts.key identity `prefix_of` NameFacts.keys pktName) /\
    forall identity key rest, len (Name.components pktName) <= UINT64_MAX -> len (Name.components klName) <= UINT64_MAX ->
      Name.components klName = identity ++ key :: rest -> uri env key = str "KEY" ->
      Forall (fun x => uri env x <> str "KEY") (identity ++ rest) ->
      (b = true <-> (1 <= length rest <= 3)%nat /\ map ComponentFacts.key identity `prefix_of` NameFacts.keys pktName).
Proof.
  destruct (createHierarchicalChecker_tree config c Hc) as (r0 & rk & M0 & MK & HK & Hh).
  pose proof (hierarchical_checked env r0 rk M0 MK HK _ _ Hh Hr) as Hh'.
  destruct (hierarchical_check env r0 rk M0 MK HK c' pktName klName Hh' Hp Hk) as (c'' & b & E & _ & Hb). by exists c'', b.
Qed.

Lemma hierarchical_created : exists c, createHierarchicalChecker [leaf "type" "hierarchical"] = Some (Ok c).
Proof.
  assert (E : match createHierarchicalChecker [leaf "type" "hierarchical"] with Some (Ok _) => true | _ => false end = true) by (vm_compute; reflexivity).
  destruct (createHierarchicalChecker _) as [[c|]|]; [by exists c|done..].
Qed.

Lemma hierarchical_checker_sound_witness : exists c c'' b, createHierarchicalChecker [leaf "type" "hierarchical"] = Some (Ok c) /\
  checkNames None (RegexTheorems.name_of "/x/y") (RegexTheorems.name_of "/x/KEY/k") (m_checker c) = Some (c'', Ok b).
Proof.
  destruct hierarchical_created as [c Hc].
  destruct (hierarchical_checker_sound None [leaf "type" "hierarchical"] c (m_checker c)
    (RegexTheorems.name_of "/x/y") (RegexTheorems.name_of "/x/KEY/k")) as (c'' & b & E & _).
  - exact Hc.
  - apply rtc_refl.
  - apply RegexTheorems.printableb_spec. vm_compute; reflexivity.
  - apply RegexTheorems.printableb_spec. vm_compute; reflexivity.
  - exact (ex_intro _ c (ex_intro _ c'' (ex_intro _ b (conj Hc E)))).
Defined.

(** The rules of a policy, after any sequence of loads, failed ones
    included, and checks: those it keeps for Data are for Data, those for
    Interests are for Interests, and each has a checker. *)
Theorem config_rules_typed `{SR : StdRegex} `{PosixTime} `{Files} `{Crypto} (canBePrefix : option bool) (env : option bytes)
  (absolute : bytes -> bytes -> bytes) (loadBase64 : bytes -> option Certificate.t) (v : Validator.t) (s : policy * Validator.t)
  (Hs : rtc (policy_step canBePrefix env absolute loadBase64) (initPolicy, v) s) :
  Forall (fun r => m_pktType r = tlv.Data /\ m_checkers r <> []) (m_dataRules (fst s)) /\
  Forall (fun r => m_pktType r = tlv.Interest /\ m_checkers r <> []) (m_interestRules (fst s)).
Proof. by apply policy_steps in Hs. Qed.

Lemma config_rules_typed_witness : length (m_dataRules (fst loaded)) = 1%nat /\
  Forall (fun r => m_pktType r = tlv.Data /\ m_checkers r <> []) (m_dataRules (fst loaded)).
Proof.
  split; [vm_compute; reflexivity|].
  destruct (config_rules_typed None None (fun file _ => file) (fun _ => None) (snd before) loaded) as [Hd _].
  - eapply rtc_once, step_load. exact sample_loads.
  - exact Hd.
Defined.


Definition after_check : list Rule :=
  match rules_loop None tlv.Data (Some (Ok (Some 3))) (RegexTheorems.name_of "/x/y") (RegexTheorems.name_of "/x/KEY/k") None (m_dataRules (fst loaded)) with
  | Some (l, _) => l
  | None => []
  end.

Lemma sample_accepts :
  rules_loop None tlv.Data (Some (Ok (Some 3))) (RegexTheorems.name_of "/x/y") (RegexTheorems.name_of "/x/KEY/k") None (m_dataRules (fst loaded))
    = Some (after_check, Ok (Some RuleAccepts)).
Proof.
  assert (E : match rules_loop None tlv.Data (Some (Ok (Some 3))) (RegexTheorems.name_of "/x/y") (RegexTheorems.name_of "/x/KEY/k") None (m_dataRules (fst loaded)) with
              | Some (_, Ok (Some RuleAccepts)) => true | _ => false end = true) by (vm_compute; reflexivity).
  unfold after_check. by destruct (rules_loop None _ _ _ _ _ _) as [[l [[[]|]|]]|].
Qed.

Lemma sample_data_rules : Forall (fun r => m_pktType r = tlv.Data) (m_dataRules (fst loaded)).
Proof.
  assert (E : forallb (fun r => m_pktType r =? tlv.Data) (m_dataRules (fst loaded)) = true) by (vm_compute; reflexivity).
  rewrite forallb_forall in E. apply Forall_forall. intros r Hr. apply Z.eqb_eq, E; first [exact Hr|by apply list_elem_of_In].
Qed.


(** What a checker captured from an earlier packet can make it accept a
    later one: a new checker refuses a key whose name has no last component,
    and the same checker accepts it after it has checked a key whose name has
    one. *)
Theorem stale_capture_accepts : exists c c1 c2 c3,
  Checker_create optional_checker = Some (Ok c) /\
  checkNames None (RegexTheorems.name_of "/x") (RegexTheorems.name_of "/KEY/k") (m_checker c) = Some (c1, Ok false) /\
  checkNames None (RegexTheorems.name_of "/x") (RegexTheorems.name_of "/KEY/i/x") (m_checker c) = Some (c2, Ok true) /\
  checkNames None (RegexTheorems.name_of "/x") (RegexTheorems.name_of "/KEY/k") c2 = Some (c3, Ok true).
Proof.
  assert (E : match Checker_create optional_checker with
              | Some (Ok c) => answers (m_checker c) [("/x", "/KEY/k")]%string :: [answers (m_checker c) [("/x", "/KEY/i/x"); ("/x", "/KEY/k")]%string]
              | _ => []
              end = [[Some false]; [Some true; Some true]]) by (vm_compute; reflexivity).
  destruct (Checker_create optional_checker) as [[c|]|]; [|done..]. exists c. cbn [answers] in E.
  destruct (checkNames None (RegexTheorems.name_of "/x") (RegexTheorems.name_of "/KEY/k") (m_checker c)) as [[c1 [[]|]]|]; try discriminate E.
  destruct (checkNames None (RegexTheorems.name_of "/x") (RegexTheorems.name_of "/KEY/i/x") (m_checker c)) as [[c2 [[]|]]|]; try discriminate E.
  destruct (checkNames None (RegexTheorems.name_of "/x") (RegexTheorems.name_of "/KEY/k") c2) as [[c3 [[]|]]|] eqn:E3; try discriminate E.
  by exists c1, c2, c3.
Qed.

End ConfigTheorems.
