(* ===== verification/RttEstimator.v ===== *)
(** * Round-trip times

    [util/rtt-estimator]: the estimator of the round-trip time and of the
    retransmission time-out, and the one that also keeps statistics.  Numbers
    of type [double] are the binary64 numbers of the Standard Library's
    specification of floating point, rounded to nearest, ties to even. *)

From Stdlib Require Import SpecFloat.
From S2P Require Import Prelude.

(** ** [double] *)

Module Double.

Definition t := spec_float.

Definition prec : Z := 53.
Definition emax : Z := 1024.

Definition add : t -> t -> t := SFadd prec emax.
Definition sub : t -> t -> t := SFsub prec emax.
Definition mul : t -> t -> t := SFmul prec emax.
Definition div : t -> t -> t := SFdiv prec emax.
Definition lt : t -> t -> bool := SFltb.
Definition le : t -> t -> bool := SFleb.

(** Conversion from an integer, to the nearest. *)
Definition ofZ (n : Z) : t := binary_normalize prec emax n 0 false.

(** [n / 2^k] for numbers that are exact *)
Definition ofRatio (n k : Z) : t := binary_normalize prec emax n (- k) false.

(** The integral part, towards zero; none of an infinity and of NaN. *)
Definition trunc (x : t) : option Z :=
  match x with
  | S754_zero _ => Some 0
  | S754_finite s m e => let n := if e <? 0 then Z.shiftr (Zpos m) (- e) else Z.shiftl (Zpos m) e in Some (if s then - n else n)
  | S754_infinity _ | S754_nan => None
  end.

(** Conversion to [int64_t], undefined unless the integral part fits. *)
Definition to_int64 (x : t) : option Z :=
  n ← trunc x; if (- 2 ^ 63 <=? n) && (n <? 2 ^ 63) then Some n else None.

(** [std::max(a, b)] *)
Definition max (a b : t) : t := if lt a b then b else a.

(** [std::floor] of a number that is not negative *)
Definition floor (x : t) : option t := ofZ <$> trunc x.

(** [std::numeric_limits<double>::max()] *)
Definition largest : t := SFmax_float prec emax.

End Double.

(** Signed 64-bit arithmetic: [None] on overflow, which is undefined. *)
Definition int64 (z : Z) : option Z := if (- 2 ^ 63 <=? z) && (z <? 2 ^ 63) then Some z else None.

Lemma int64_some z n : int64 z = Some n -> n = z /\ - 2 ^ 63 <= z < 2 ^ 63.
Proof. unfold int64. destruct ((_ <=? z) && _) eqn:E; [|done]. intros [= <-]. bool_to_prop. lia. Qed.

(** [std::clamp] *)
Definition clamp (v lo hi : Z) : Z := if v <? lo then lo else if hi <? v then hi else v.

Lemma clamp_bounds v lo hi : lo <= hi -> lo <= clamp v lo hi <= hi.
Proof. unfold clamp. repeat case_match; bool_to_prop; lia. Qed.

(** ** The estimator *)

Module RttEstimator.

(** [ndn-cxx/util/rtt-estimator.hpp:44-53] RttEstimator::Options
    Durations are in nanoseconds. *)
Record Options := mkOptions {
  alpha : Double.t;
  beta : Double.t;
  initialRto : Z;
  minRto : Z;
  maxRto : Z;
  k : Z;
  rtoBackoffMultiplier : Z;
}.

(** The default member initializers: 0.125, 0.25, 1 s, 200 ms, 1 min, 4, 2 *)
Definition defaultOptions : Options := mkOptions (Double.ofRatio 1 3) (Double.ofRatio 1 2) 1000000000 200000000 60000000000 4 2.

(** [ndn-cxx/util/rtt-estimator.hpp:114-121] RttEstimator *)
Record t := mk { m_options : Options; m_sRtt : Z; m_rttVar : Z; m_rto : Z }.

(** [ndn-cxx/util/rtt-estimator.cpp:32-43] RttEstimator::RttEstimator
    [None]: an assertion fails. *)
Definition create (o : Options) : option t :=
  if Double.le (Double.ofZ 0) (alpha o) && Double.le (alpha o) (Double.ofZ 1)
     && Double.le (Double.ofZ 0) (beta o) && Double.le (beta o) (Double.ofZ 1)
     && (0 <=? initialRto o) && (0 <=? minRto o) && (minRto o <=? maxRto o) && (0 <=? k o) && (1 <=? rtoBackoffMultiplier o)
  then Some (mk o (-1) (-1) (initialRto o)) else None.

(** [ndn-cxx/util/rtt-estimator.hpp:73-77] RttEstimator::hasSamples *)
Definition hasSamples (e : t) : bool := negb (m_sRtt e =? -1).

(** [ndn-cxx/util/rtt-estimator.cpp:56-60] RttEstimator::addMeasurement (a weighted mean)
    [(1 - w) * old + w * new], cast to nanoseconds *)
Definition mean (w : Double.t) (old new : Z) : option Z :=
  Double.to_int64 (Double.add (Double.mul (Double.sub (Double.ofZ 1) w) (Double.ofZ old)) (Double.mul w (Double.ofZ new))).

(** [ndn-cxx/util/rtt-estimator.cpp:45-64] RttEstimator::addMeasurement *)
Definition addMeasurement (rtt nExpectedSamples : Z) (e : t) : option t :=
  if (rtt <? 0) || (nExpectedSamples <=? 0) then None
  else
    '(sRtt, rttVar) ←
      (if negb (hasSamples e) then Some (rtt, rtt ÷ 2)
       else
         let alpha := Double.div (alpha (m_options e)) (Double.ofZ nExpectedSamples) in
         let beta := Double.div (beta (m_options e)) (Double.ofZ nExpectedSamples) in
         d ← int64 (m_sRtt e - rtt);
         rttVar ← mean beta (m_rttVar e) (Z.abs d);
         sRtt ← mean alpha (m_sRtt e) rtt;
         Some (sRtt, rttVar));
    kVar ← int64 (k (m_options e) * rttVar);
    rto ← int64 (sRtt + kVar);
    Some (mk (m_options e) sRtt rttVar (clamp rto (minRto (m_options e)) (maxRto (m_options e)))).

(** [ndn-cxx/util/rtt-estimator.cpp:66-71] RttEstimator::backoffRto *)
Definition backoffRto (e : t) : option t :=
  rto ← int64 (m_rto e * rtoBackoffMultiplier (m_options e));
  Some (mk (m_options e) (m_sRtt e) (m_rttVar e) (clamp rto (minRto (m_options e)) (maxRto (m_options e)))).

End RttEstimator.

Module RttEstimatorWithStats.

(** [ndn-cxx/util/rtt-estimator.hpp:176-181] RttEstimatorWithStats *)
Record t := mk {
  base : RttEstimator.t;
  m_rttMin : Z;
  m_rttMax : Z;
  m_rttAvg : Z;
  m_nRttSamples : Z;
}.

Definition create (o : RttEstimator.Options) : option t :=
  e ← RttEstimator.create o; Some (mk e (2 ^ 63 - 1) (- 2 ^ 63) 0 0).

(** [ndn-cxx/util/rtt-estimator.cpp:73-82] RttEstimatorWithStats::addMeasurement *)
Definition addMeasurement (rtt nExpectedSamples : Z) (e : t) : option t :=
  b ← RttEstimator.addMeasurement rtt nExpectedSamples (base e);
  p ← int64 (m_nRttSamples e * m_rttAvg e);
  s ← int64 (p + rtt);
  n ← int64 (m_nRttSamples e + 1);
  Some (mk b (Z.min rtt (m_rttMin e)) (Z.max rtt (m_rttMax e)) (s ÷ n) n).

Definition backoffRto (e : t) : option t :=
  b ← RttEstimator.backoffRto (base e); Some (mk b (m_rttMin e) (m_rttMax e) (m_rttAvg e) (m_nRttSamples e)).

End RttEstimatorWithStats.

(** ** What is proved *)

Module RttFacts.
Import RttEstimatorWithStats.

(** What a program does with an estimator. *)
Inductive op := Measure (rtt nExpectedSamples : Z) | Backoff.

Definition apply_op (o : op) (e : t) : option t :=
  match o with Measure rtt n => addMeasurement rtt n e | Backoff => backoffRto e end.

Fixpoint run (l : list op) (e : t) : option t :=
  match l with [] => Some e | o :: l => e ← apply_op o e; run l e end.

(** The measured times. *)
Definition samples (l : list op) : list Z := omap (fun o => match o with Measure rtt _ => Some rtt | Backoff => None end) l.

Definition rto_ok (e : t) : Prop :=
  RttEstimator.minRto (RttEstimator.m_options (base e)) <= RttEstimator.m_rto (base e) <= RttEstimator.maxRto (RttEstimator.m_options (base e)).

(** The statistics about some samples, the last one first. *)
Definition stats (l : list Z) (e : t) : Prop :=
  m_nRttSamples e = len l /\ m_rttMin e = foldr Z.min (2 ^ 63 - 1) l /\ m_rttMax e = foldr Z.max (- 2 ^ 63) l /\
  (l = [] -> m_rttAvg e = 0) /\ (l <> [] -> m_rttMin e <= m_rttAvg e <= m_rttMax e) /\ Forall (fun x => 0 <= x < 2 ^ 63) l.

Lemma addMeasurement_spec rtt n e e' : addMeasurement rtt n e = Some e' ->
  RttEstimator.m_options (base e') = RttEstimator.m_options (base e) /\ 0 <= rtt /\
  RttEstimator.m_rto (base e') = clamp (RttEstimator.m_sRtt (base e') + RttEstimator.k (RttEstimator.m_options (base e)) * RttEstimator.m_rttVar (base e'))
    (RttEstimator.minRto (RttEstimator.m_options (base e))) (RttEstimator.maxRto (RttEstimator.m_options (base e))) /\
  m_rttMin e' = Z.min rtt (m_rttMin e) /\ m_rttMax e' = Z.max rtt (m_rttMax e) /\ m_nRttSamples e' = m_nRttSamples e + 1 /\
  m_rttAvg e' = (m_nRttSamples e * m_rttAvg e + rtt) ÷ (m_nRttSamples e + 1) /\
  m_nRttSamples e * m_rttAvg e + rtt < 2 ^ 63.
Proof.
  unfold addMeasurement. intros H. apply bind_Some in H as (b & Hb & H). apply bind_Some in H as (p & [-> _]%int64_some & H).
  apply bind_Some in H as (s & [-> Hb63]%int64_some & H). apply bind_Some in H as (c & [-> _]%int64_some & [= <-]). cbn.
  unfold RttEstimator.addMeasurement in Hb. destruct ((rtt <? 0) || (n <=? 0)) eqn:E; [done|]. bool_to_prop.
  apply bind_Some in Hb as ([s v] & _ & Hb). apply bind_Some in Hb as (kv & [-> _]%int64_some & Hb).
  apply bind_Some in Hb as (r & [-> _]%int64_some & [= <-]). cbn. split_and!; try done; lia.
Qed.

Lemma backoff_spec e e' : backoffRto e = Some e' -> RttEstimator.m_options (base e') = RttEstimator.m_options (base e) /\
  RttEstimator.m_rto (base e') = clamp (RttEstimator.m_rto (base e) * RttEstimator.rtoBackoffMultiplier (RttEstimator.m_options (base e)))
    (RttEstimator.minRto (RttEstimator.m_options (base e))) (RttEstimator.maxRto (RttEstimator.m_options (base e))) /\
  m_rttMin e' = m_rttMin e /\ m_rttMax e' = m_rttMax e /\ m_nRttSamples e' = m_nRttSamples e /\ m_rttAvg e' = m_rttAvg e.
Proof.
  unfold backoffRto. intros H. apply bind_Some in H as (b & Hb & [= <-]). unfold RttEstimator.backoffRto in Hb.
  apply bind_Some in Hb as (r & [-> _]%int64_some & [= <-]). done.
Qed.

Lemma mean_between n a x lo hi : 0 <= n -> 0 <= lo -> lo <= x <= hi -> (0 < n -> lo <= a <= hi) -> lo <= (n * a + x) ÷ (n + 1) <= hi.
Proof.
  intros Hn Hlo Hx Ha. destruct (decide (n = 0)) as [->|Hz]; [rewrite Z.mul_0_l, Z.add_0_l, Z.quot_1_r; lia|].
  specialize (Ha ltac:(lia)). rewrite Z.quot_div_nonneg by nia. split; [apply Z.div_le_lower_bound|apply Z.div_le_upper_bound]; nia.
Qed.

Lemma stats_measure l rtt n e e' : stats l e -> addMeasurement rtt n e = Some e' -> stats (rtt :: l) e'.
Proof.
  intros (Hn & Hmin & Hmax & H0 & Havg & Hl) (_ & Hr & _ & Emin & Emax & En & Ea & Hb)%addMeasurement_spec.
  assert (H63 : 0 <= m_rttMin e) by (rewrite Hmin; clear -Hl; induction Hl; simpl; lia). pose proof (len_nonneg l) as Hlen.
  assert (Hp : 0 < m_nRttSamples e -> m_rttMin e <= m_rttAvg e <= m_rttMax e).
  { intros Hp. apply Havg. intros ->. unfold len in Hn. simpl in Hn. lia. }
  unfold stats. cbn [foldr]. rewrite Emin, Emax, En, Ea, <- Hmin, <- Hmax. rewrite len_cons, Hn in *. split; [lia|]. split_and!; try done.
  - intros _. apply mean_between; [done|lia|lia|]. intros Hq. specialize (Hp Hq). lia.
  - constructor; [|done]. split; [done|]. destruct (decide (len l = 0)) as [E0|E0]; [rewrite E0 in Hb; lia|]. specialize (Hp ltac:(lia)). nia.
Qed.

Lemma run_stats ops l e e' : stats l e -> RttEstimator.minRto (RttEstimator.m_options (base e)) <= RttEstimator.maxRto (RttEstimator.m_options (base e)) ->
  run ops e = Some e' -> (ops <> [] \/ rto_ok e -> rto_ok e') /\ stats (rev (samples ops) ++ l) e' /\
  RttEstimator.m_options (base e') = RttEstimator.m_options (base e).
Proof.
  revert l e. induction ops as [|o ops IH]; intros l e Hs Ho; cbn [run].
  { intros [= <-]. split; [by intros [?|?]|done]. }
  intros H. apply bind_Some in H as (e1 & He & H). destruct o as [rtt n|]; cbn [apply_op] in He.
  - pose proof (stats_measure _ _ _ _ _ Hs He) as Hs1. apply addMeasurement_spec in He as (Eo & _ & Er & _).
    rewrite <- Eo in Ho. destruct (IH _ _ Hs1 Ho H) as (Hr & Hst & Eo'). split; [|split; [|congruence]].
    + intros _. apply Hr. right. unfold rto_ok. rewrite Er, <- Eo. by apply clamp_bounds.
    + unfold samples. simpl. by rewrite <- app_assoc.
  - apply backoff_spec in He as (Eo & Er & E1 & E2 & E3 & E4).
    assert (Hs1 : stats l e1) by (unfold stats in *; by rewrite E1, E2, E3, E4).
    rewrite <- Eo in Ho. destruct (IH _ _ Hs1 Ho H) as (Hr & Hst & Eo'). split; [|split; [done|congruence]].
    intros _. apply Hr. right. unfold rto_ok. rewrite Er, <- Eo. by apply clamp_bounds.
Qed.

(** The least and the greatest element. *)
Lemma extremes (l : list Z) : l <> [] -> Forall (fun x => 0 <= x < 2 ^ 63) l ->
  foldr Z.min (2 ^ 63 - 1) l ∈ l /\ foldr Z.max (- 2 ^ 63) l ∈ l /\
  forall x, x ∈ l -> foldr Z.min (2 ^ 63 - 1) l <= x <= foldr Z.max (- 2 ^ 63) l.
Proof.
  intros Hne Hl. induction Hl as [|x l Hx Hl IH]; [done|]. cbn [foldr]. destruct l as [|y l].
  { cbn [foldr]. rewrite Z.min_l, Z.max_l by lia. split_and!; [left..|]. intros z ->%list_elem_of_singleton. lia. }
  destruct (IH ltac:(done)) as (H1 & H2 & H3). split_and!.
  - destruct (Z.min_spec x (foldr Z.min (2 ^ 63 - 1) (y :: l))) as [[_ ->]|[_ ->]]; [left|by right].
  - destruct (Z.max_spec x (foldr Z.max (- 2 ^ 63) (y :: l))) as [[_ ->]|[_ ->]]; [by right|left].
  - intros z [->|Hz]%elem_of_cons; [lia|]. specialize (H3 z Hz). lia.
Qed.

Lemma in_rev_elem {A} (x : A) l : x ∈ rev l <-> x ∈ l.
Proof. rewrite !list_elem_of_In. symmetry. apply in_rev. Qed.

End RttFacts.

Module RttTheorems.
Import RttEstimatorWithStats RttFacts.

(** After any sequence of measurements and back-offs that fails no assertion
    and overflows no 64-bit number, the retransmission
    time-out is within its configured bounds, unless the sequence is empty,
    when it is the initial value, which is not checked against them; the
    number of samples, the least and the greatest are those of the measured
    times, and the average is between these two. *)
Theorem rtt_bounds (o : RttEstimator.Options) (ops : list op) (e e' : t)
  (Hc : create o = Some e) (Hr : run ops e = Some e') :
  (ops <> [] -> RttEstimator.minRto o <= RttEstimator.m_rto (base e') <= RttEstimator.maxRto o) /\
  m_nRttSamples e' = len (samples ops) /\
  (samples ops <> [] -> m_rttMin e' <= m_rttAvg e' <= m_rttMax e' /\ m_rttMin e' ∈ samples ops /\ m_rttMax e' ∈ samples ops /\
    forall x, x ∈ samples ops -> m_rttMin e' <= x <= m_rttMax e').
Proof.
  assert (Ho : RttEstimator.m_options (base e) = o /\ RttEstimator.minRto o <= RttEstimator.maxRto o /\ stats [] e).
  { unfold create, RttEstimator.create in Hc. case_match eqn:E; [|done]. injection Hc as <-. bool_to_prop. split_and!; try done; lia. }
  destruct Ho as (<- & Hm & Hs). destruct (run_stats ops [] e e' Hs Hm Hr) as (Hrto & Hst & Ho). rewrite app_nil_r in Hst.
  destruct Hst as (Hn & Hmin & Hmax & _ & Havg & Hl). split; [intros Hne; unfold rto_ok in Hrto; rewrite Ho in Hrto; auto|].
  split; [rewrite Hn; unfold len; by rewrite length_rev|]. intros Hne.
  assert (Hne' : rev (samples ops) <> []) by (intros E; apply Hne; apply (f_equal (@rev Z)) in E; by rewrite rev_involutive in E).
  split; [auto|]. rewrite Hmin, Hmax. setoid_rewrite <- in_rev_elem. by apply extremes.
Qed.

(** The first sample 0.1 s, the second 0.3 s, and a time-out. *)
Definition sample_ops : list op := [Measure 100000000 1; Measure 300000000 2; Backoff].

Definition sample : t := match create RttEstimator.defaultOptions with Some e => e | None => mk (RttEstimator.mk RttEstimator.defaultOptions 0 0 0) 0 0 0 0 end.
Definition sample' : t := match run sample_ops sample with Some e => e | None => sample end.

Example sample_values : RttEstimator.m_sRtt (base sample') = 112500000 /\ RttEstimator.m_rttVar (base sample') = 68750000 /\
  RttEstimator.m_rto (base sample') = 775000000 /\ m_rttAvg sample' = 200000000.
Proof. vm_compute. repeat split. Qed.

Lemma rtt_bounds_witness : m_rttMin sample' <= m_rttAvg sample' <= m_rttMax sample'.
Proof.
  destruct (rtt_bounds RttEstimator.defaultOptions sample_ops sample sample') as (_ & _ & H).
  - vm_compute. reflexivity.
  - vm_compute. reflexivity.
  - destruct H as [H _]; [discriminate|exact H].
Defined.

End RttTheorems.
