(* ===== verification/LinkProtocol.v ===== *)
(** The link protocol NDNLPv2: the header fields and packets of
    [ndn-cxx/lp].

    A field declaration is a record of its traits and codec; a packet is the
    TLV block it keeps.  Pairs of buffer iterators are the octets between
    them.  Where the code would call [front()] on an empty container the model
    returns [None]. *)

From Stdlib Require Import Sorted.
From S2P Require Import Prelude Tlv Encoding Blocks BlockHelpers Text NameComponents Names Fields DataPacket InterestPacket Announcements.

(** ** Type numbers *)

Module lp_tlv.

(** [ndn-cxx/lp/tlv.hpp:33-33] tlv::LpPacket *)
Definition LpPacket : Z := 100.
(** [ndn-cxx/lp/tlv.hpp:34-34] tlv::Fragment *)
Definition Fragment : Z := 80.
(** [ndn-cxx/lp/tlv.hpp:35-35] tlv::Sequence *)
Definition Sequence : Z := 81.
(** [ndn-cxx/lp/tlv.hpp:36-36] tlv::FragIndex *)
Definition FragIndex : Z := 82.
(** [ndn-cxx/lp/tlv.hpp:37-37] tlv::FragCount *)
Definition FragCount : Z := 83.
(** [ndn-cxx/lp/tlv.hpp:38-38] tlv::PitToken *)
Definition PitToken : Z := 98.
(** [ndn-cxx/lp/tlv.hpp:39-39] tlv::Nack *)
Definition Nack : Z := 800.
(** [ndn-cxx/lp/tlv.hpp:40-40] tlv::NackReason *)
Definition NackReason : Z := 801.
(** [ndn-cxx/lp/tlv.hpp:41-41] tlv::IncomingFaceId *)
Definition IncomingFaceId : Z := 812.
(** [ndn-cxx/lp/tlv.hpp:42-42] tlv::NextHopFaceId *)
Definition NextHopFaceId : Z := 816.
(** [ndn-cxx/lp/tlv.hpp:43-43] tlv::CachePolicy *)
Definition CachePolicy : Z := 820.
(** [ndn-cxx/lp/tlv.hpp:44-44] tlv::CachePolicyType *)
Definition CachePolicyType : Z := 821.
(** [ndn-cxx/lp/tlv.hpp:45-45] tlv::CongestionMark *)
Definition CongestionMark : Z := 832.
(** [ndn-cxx/lp/tlv.hpp:46-46] tlv::Ack *)
Definition Ack : Z := 836.
(** [ndn-cxx/lp/tlv.hpp:47-47] tlv::TxSequence *)
Definition TxSequence : Z := 840.
(** [ndn-cxx/lp/tlv.hpp:48-48] tlv::NonDiscovery *)
Definition NonDiscovery : Z := 844.
(** [ndn-cxx/lp/tlv.hpp:49-49] tlv::PrefixAnnouncement *)
Definition PrefixAnnouncement : Z := 848.
(** [ndn-cxx/lp/tlv.hpp:66-66] tlv::HEADER3_MIN *)
Definition HEADER3_MIN : Z := 800.
(** [ndn-cxx/lp/tlv.hpp:71-71] tlv::HEADER3_MAX *)
Definition HEADER3_MAX : Z := 959.

End lp_tlv.

(** ** CachePolicy *)

Module CachePolicy.

(** [ndn-cxx/lp/cache-policy.hpp:37-37] CachePolicyType::NONE *)
Definition NONE : Z := 0.
(** [ndn-cxx/lp/cache-policy.hpp:38-38] CachePolicyType::NO_CACHE *)
Definition NO_CACHE : Z := 1.

(** [ndn-cxx/lp/cache-policy.cpp:30-39] operator<<(std::ostream&, CachePolicyType) *)
Definition toString (policy : Z) : string := if policy =? NO_CACHE then "NoCache" else "None".

(** [ndn-cxx/lp/cache-policy.hpp:98-99] CachePolicy *)
Record t := mk { m_policy : Z; m_wire : Block.t }.

Definition with_policy x c := mk x (m_wire c).
Definition with_wire x c := mk (m_policy c) x.

(** [ndn-cxx/lp/cache-policy.cpp:41-44] CachePolicy::CachePolicy() *)
Definition init : t := mk NONE Block.empty.

(** [ndn-cxx/lp/cache-policy.cpp:116-125] CachePolicy::getPolicy *)
Definition getPolicy (c : t) : Z := if m_policy c =? NO_CACHE then m_policy c else NONE.

(** [ndn-cxx/lp/cache-policy.cpp:127-133] CachePolicy::setPolicy *)
Definition setPolicy (policy : Z) : M t unit :=
  _ ← modify (with_policy policy); modify (with_wire Block.empty).

(** [ndn-cxx/lp/cache-policy.cpp:51-64] CachePolicy::wireEncode(EncodingImpl&) *)
Definition wireEncode_template (c : t) : result prepender :=
  _ ← throw_if (m_policy c =? NONE) (PacketError "CachePolicyType must be set");
  Ok (pTL lp_tlv.CachePolicy (encoding.prependNonNegativeIntegerBlock lp_tlv.CachePolicyType (u64 (m_policy c)))).

(** [ndn-cxx/lp/cache-policy.cpp:68-88] CachePolicy::wireEncode *)
Definition wireEncode : M t Block.t :=
  c ← self;
  _ ← throwM_if (m_policy c =? NONE) (PacketError "CachePolicyType must be set");
  if Block.hasWire (m_wire c) then mret (m_wire c)
  else
    f ← liftR (wireEncode_template c);
    b ← liftR (makeBlock f);
    _ ← modify (with_wire b);
    mret b.

(** [ndn-cxx/lp/cache-policy.cpp:90-114] CachePolicy::wireDecode
    The enumeration has an [int] underneath. *)
Definition wireDecode (wire : Block.t) : M t unit :=
  _ ← throwM_if (negb (Block.type wire =? lp_tlv.CachePolicy)) (PacketError "CachePolicy");
  _ ← assignParsed with_wire wire;
  c ← self;
  match Block.elements (m_wire c) with
  | [] => throwM (PacketError "Empty CachePolicy")
  | it :: _ =>
      if Block.type it =? lp_tlv.CachePolicyType then
        n ← liftR (encoding.readNonNegativeIntegerAs (2 ^ 31 - 1) it);
        _ ← modify (with_policy n);
        c ← self;
        throwM_if (getPolicy c =? NONE) (PacketError "Unknown CachePolicyType")
      else throwM (PacketError "CachePolicyType")
  end.

(** [ndn-cxx/lp/cache-policy.cpp:46-49] CachePolicy::CachePolicy(const Block&) *)
Definition ofBlock (block : Block.t) : result t := exec (wireDecode block) init.

End CachePolicy.

(** ** NackHeader *)

Module NackHeader.

(** [ndn-cxx/lp/nack-header.hpp:38-38] NackReason::NONE *)
Definition NONE : Z := 0.
(** [ndn-cxx/lp/nack-header.hpp:39-39] NackReason::CONGESTION *)
Definition CONGESTION : Z := 50.
(** [ndn-cxx/lp/nack-header.hpp:40-40] NackReason::DUPLICATE *)
Definition DUPLICATE : Z := 100.
(** [ndn-cxx/lp/nack-header.hpp:41-41] NackReason::NO_ROUTE *)
Definition NO_ROUTE : Z := 150.

(** [ndn-cxx/lp/nack-header.cpp:29-42] operator<<(std::ostream&, NackReason) *)
Definition toString (reason : Z) : string :=
  if reason =? CONGESTION then "Congestion"
  else if reason =? DUPLICATE then "Duplicate"
  else if reason =? NO_ROUTE then "NoRoute"
  else "None".

(** [ndn-cxx/lp/nack-header.cpp:44-55] isLessSevere *)
Definition isLessSevere (x y : Z) : bool :=
  if x =? NONE then false else if y =? NONE then true else x <? y.

(** [ndn-cxx/lp/nack-header.hpp:91-92] NackHeader *)
Record t := mk { m_reason : Z; m_wire : Block.t }.

Definition with_reason x h := mk x (m_wire h).
Definition with_wire x h := mk (m_reason h) x.

(** [ndn-cxx/lp/nack-header.cpp:57-60] NackHeader::NackHeader() *)
Definition init : t := mk NONE Block.empty.

(** [ndn-cxx/lp/nack-header.cpp:120-131] NackHeader::getReason *)
Definition getReason (h : t) : Z :=
  if (m_reason h =? CONGESTION) || (m_reason h =? DUPLICATE) || (m_reason h =? NO_ROUTE)
  then m_reason h else NONE.

(** [ndn-cxx/lp/nack-header.cpp:133-139] NackHeader::setReason *)
Definition setReason (reason : Z) : M t unit :=
  _ ← modify (with_reason reason); modify (with_wire Block.empty).

(** [ndn-cxx/lp/nack-header.cpp:67-76] NackHeader::wireEncode(EncodingImpl&) *)
Definition wireEncode_template (h : t) : prepender :=
  pTL lp_tlv.Nack (encoding.prependNonNegativeIntegerBlock lp_tlv.NackReason (u64 (m_reason h))).

(** [ndn-cxx/lp/nack-header.cpp:80-96] NackHeader::wireEncode *)
Definition wireEncode : M t Block.t :=
  h ← self;
  if Block.hasWire (m_wire h) then mret (m_wire h)
  else
    b ← liftR (makeBlock (wireEncode_template h));
    _ ← modify (with_wire b);
    mret b.

(** [ndn-cxx/lp/nack-header.cpp:98-118] NackHeader::wireDecode *)
Definition wireDecode (wire : Block.t) : M t unit :=
  _ ← throwM_if (negb (Block.type wire =? lp_tlv.Nack)) (TlvError "Nack");
  _ ← assignParsed with_wire wire;
  _ ← modify (with_reason NONE);
  h ← self;
  match Block.elements (m_wire h) with
  | [] => mret tt
  | it :: _ =>
      if Block.type it =? lp_tlv.NackReason then
        n ← liftR (encoding.readNonNegativeIntegerAs (2 ^ 31 - 1) it);
        modify (with_reason n)
      else throwM (TlvError "NackReason")
  end.

(** [ndn-cxx/lp/nack-header.cpp:62-65] NackHeader::NackHeader(const Block&) *)
Definition ofBlock (block : Block.t) : result t := exec (wireDecode block) init.

End NackHeader.

(** ** Nack *)

Module Nack.

(** [ndn-cxx/lp/nack.hpp:103-104] Nack *)
Record t := mk { m_interest : Interest.t; m_header : NackHeader.t }.

(** [ndn-cxx/lp/nack.cpp:31-39] Nack::Nack(const Interest&) *)
Definition ofInterest (interest : Interest.t) : t := mk interest NackHeader.init.

(** [ndn-cxx/lp/nack.hpp:74-86] Nack::setHeader *)
Definition setHeader (header : NackHeader.t) : M t unit := modify (fun n => mk (m_interest n) header).

(** [ndn-cxx/lp/nack.hpp:89-93] Nack::getReason *)
Definition getReason (n : t) : Z := NackHeader.getReason (m_header n).

(** [ndn-cxx/lp/nack.hpp:95-100] Nack::setReason *)
Definition setReason (reason : Z) : M t unit :=
  zoom m_header (fun h n => mk (m_interest n) h) (NackHeader.setReason reason).

End Nack.

(** ** PitToken *)

Module PitToken.

(** [ndn-cxx/lp/pit-token.cpp:29-29] LENGTH_MIN *)
Definition LENGTH_MIN : Z := 1.
(** [ndn-cxx/lp/pit-token.cpp:30-30] LENGTH_MAX *)
Definition LENGTH_MAX : Z := 32.

(** [ndn-cxx/lp/pit-token.cpp:32-39] PitToken::validate *)
Definition validate (token : bytes) : result unit :=
  throw_if ((len token <? LENGTH_MIN) || (LENGTH_MAX <? len token)) (TlvError "PitToken length").

(** [ndn-cxx/lp/pit-token.hpp:46-51] PitToken::PitToken *)
Definition ofRange (value : bytes) : result bytes := _ ← validate value; Ok value.

(** [ndn-cxx/lp/pit-token.hpp:56-60] PitToken::operator std::pair *)
Definition toRange (token : bytes) : result bytes := _ ← validate token; Ok token.

End PitToken.

(** ** PrefixAnnouncementHeader *)

Module PrefixAnnouncementHeader.

(** [ndn-cxx/lp/prefix-announcement-header.hpp:70-72] PrefixAnnouncementHeader *)
Record t := mk { m_prefixAnn : option PrefixAnnouncement.t }.

(** [ndn-cxx/lp/prefix-announcement-header.cpp:28-28] PrefixAnnouncementHeader::PrefixAnnouncementHeader() *)
Definition init : t := mk None.

(** [ndn-cxx/lp/prefix-announcement-header.cpp:35-41] PrefixAnnouncementHeader::PrefixAnnouncementHeader(PrefixAnnouncement) *)
Definition ofAnn (prefixAnn : PrefixAnnouncement.t) : result t :=
  match PrefixAnnouncement.m_data prefixAnn with
  | None => Throw (PacketError "PrefixAnnouncement does not contain Data")
  | Some _ => Ok (mk (Some prefixAnn))
  end.

(** [ndn-cxx/lp/prefix-announcement-header.cpp:43-56] PrefixAnnouncementHeader::wireEncode(EncodingImpl&)
    The constructors leave no announcement without Data. *)
Definition wireEncode_template (h : t) : result prepender :=
  match m_prefixAnn h with
  | None => Throw (PacketError "PrefixAnnouncementHeader does not contain a PrefixAnnouncement")
  | Some pa =>
      match PrefixAnnouncement.m_data pa with
      | None => Throw (RuntimeError "unreachable")
      | Some d => f ← Data.wireEncode_template false d; Ok (pTL lp_tlv.PrefixAnnouncement f)
      end
  end.

Section with_boost.
Context `{PosixTime}.

(** [ndn-cxx/lp/prefix-announcement-header.cpp:60-69] PrefixAnnouncementHeader::wireDecode *)
Definition wireDecode conv (wire : Block.t) : M t unit :=
  _ ← throwM_if (negb (Block.type wire =? lp_tlv.PrefixAnnouncement)) (PacketError "PrefixAnnouncement");
  wire ← liftR (Block.parsed wire);
  b ← liftR (Block.get tlv.Data wire);
  d ← liftR (Data.ofBlock b);
  _ ← modify (fun _ => mk None);
  pa ← liftR (PrefixAnnouncement.ofData conv d);
  modify (fun _ => mk (Some pa)).

(** [ndn-cxx/lp/prefix-announcement-header.cpp:30-33] PrefixAnnouncementHeader::PrefixAnnouncementHeader(const Block&) *)
Definition ofBlock conv (block : Block.t) : result t := exec (wireDecode conv block) init.

End with_boost.
End PrefixAnnouncementHeader.

(** ** Fields *)

Module Field.

(** [ndn-cxx/lp/field.hpp:37-53] field_location_tags *)
Inductive FieldLocation := Header | Fragment.

(** [ndn-cxx/lp/field-decl.hpp:178-182] FieldDecl (the member types) *)
Record Traits := mkTraits {
  Location : FieldLocation;
  TlvType : Z;
  IsRepeatable : bool;
}.

#[global] Instance FieldLocation_eq_dec : EqDecision FieldLocation.
Proof. solve_decision. Defined.

#[global] Instance Traits_eq_dec : EqDecision Traits.
Proof. solve_decision. Defined.

(** [ndn-cxx/lp/field-decl.hpp:174-209] FieldDecl *)
Record Decl (VALUE : Type) := mkDecl {
  traits : Traits;
  DecodeHelper : Block.t -> result VALUE;
  EncodeHelper : VALUE -> result prepender;
}.
#[global] Arguments mkDecl {VALUE}.
#[global] Arguments traits {VALUE}.
#[global] Arguments DecodeHelper {VALUE}.
#[global] Arguments EncodeHelper {VALUE}.

Definition type {VALUE} (F : Decl VALUE) : Z := TlvType (traits F).

(** [ndn-cxx/lp/field-decl.hpp:189-197] FieldDecl::decode *)
Definition decode {VALUE} (F : Decl VALUE) (wire : Block.t) : result VALUE :=
  _ ← throw_if (negb (Block.type wire =? type F)) (TlvError "Unexpected TLV-TYPE");
  DecodeHelper F wire.

(** [ndn-cxx/lp/field-decl.hpp:203-208] FieldDecl::encode *)
Definition encode {VALUE} (F : Decl VALUE) (value : VALUE) : result prepender := EncodeHelper F value.

(** [ndn-cxx/lp/field-decl.hpp:42-53] DecodeHelper *)
Definition decodeWire {T} (init : T) (wireDecode : Block.t -> M T unit) (wire : Block.t) : result T :=
  exec (wireDecode wire) init.

(** [ndn-cxx/lp/field-decl.hpp:55-67] DecodeHelper<TlvType, EmptyValue> *)
Definition decodeEmpty (wire : Block.t) : result unit :=
  throw_if (negb (Block.value_size wire =? 0)) (TlvError "NDNLP field must be empty").

(** [ndn-cxx/lp/field-decl.hpp:69-77] DecodeHelper<TlvType, NonNegativeIntegerTag> *)
Definition decodeNonNegativeInteger (wire : Block.t) : result Z := encoding.readNonNegativeInteger wire.

(** [ndn-cxx/lp/field-decl.hpp:79-93] DecodeHelper<TlvType, uint64_t> *)
Definition decodeUint64 (wire : Block.t) : result Z :=
  _ ← throw_if (negb (Block.value_size wire =? 8)) (TlvError "NDNLP field must contain a 64-bit integer");
  Ok (be_number (Block.value wire)).

(** [ndn-cxx/lp/field-decl.hpp:95-107] DecodeHelper<TlvType, pair of iterators> *)
Definition decodeRange (wire : Block.t) : result bytes :=
  _ ← throw_if (Block.value_size wire =? 0) (TlvError "NDNLP field cannot be empty");
  Ok (Block.value wire).

(** [ndn-cxx/lp/field-decl.hpp:120-128] EncodeHelper<TAG, TlvType, EmptyValue> *)
Definition encodeEmpty (type : Z) (value : unit) : result prepender := Ok (encoding.prependEmptyBlock type).

(** [ndn-cxx/lp/field-decl.hpp:130-138] EncodeHelper<TAG, TlvType, NonNegativeIntegerTag> *)
Definition encodeNonNegativeInteger (type value : Z) : result prepender :=
  Ok (encoding.prependNonNegativeIntegerBlock type value).

(** [ndn-cxx/lp/field-decl.hpp:140-150] EncodeHelper<TAG, TlvType, uint64_t> *)
Definition encodeUint64 (type value : Z) : result prepender :=
  Ok (encoding.prependBinaryBlock type (be_bytes 8 value)).

(** [ndn-cxx/lp/field-decl.hpp:152-164] EncodeHelper<TAG, TlvType, pair of iterators> *)
Definition encodeRange (type : Z) (value : bytes) : result prepender := Ok (pTL type (pBytes value)).

(** A field whose value is a 64-bit number of eight octets. *)
Definition uint64Field (type : Z) (repeatable : bool) : Decl Z :=
  mkDecl (mkTraits Header type repeatable) decodeUint64 (encodeUint64 type).

(** A field whose value is a non-negative integer. *)
Definition nniField (type : Z) : Decl Z :=
  mkDecl (mkTraits Header type false) decodeNonNegativeInteger (encodeNonNegativeInteger type).

(** [ndn-cxx/lp/fields.hpp:36-38] SequenceField *)
Definition SequenceField : Decl Z := uint64Field lp_tlv.Sequence false.
(** [ndn-cxx/lp/fields.hpp:41-46] FragIndexField *)
Definition FragIndexField : Decl Z := nniField lp_tlv.FragIndex.
(** [ndn-cxx/lp/fields.hpp:49-54] FragCountField *)
Definition FragCountField : Decl Z := nniField lp_tlv.FragCount.
(** [ndn-cxx/lp/fields.hpp:57-59] PitTokenField *)
Definition PitTokenField : Decl bytes :=
  mkDecl (mkTraits Header lp_tlv.PitToken false) decodeRange (encodeRange lp_tlv.PitToken).
(** [ndn-cxx/lp/fields.hpp:62-64] NackField *)
Definition NackField : Decl NackHeader.t :=
  mkDecl (mkTraits Header lp_tlv.Nack false) (decodeWire NackHeader.init NackHeader.wireDecode)
    (fun h => Ok (NackHeader.wireEncode_template h)).
(** [ndn-cxx/lp/fields.hpp:67-72] NextHopFaceIdField *)
Definition NextHopFaceIdField : Decl Z := nniField lp_tlv.NextHopFaceId.
(** [ndn-cxx/lp/fields.hpp:75-77] CachePolicyField *)
Definition CachePolicyField : Decl CachePolicy.t :=
  mkDecl (mkTraits Header lp_tlv.CachePolicy false) (decodeWire CachePolicy.init CachePolicy.wireDecode)
    CachePolicy.wireEncode_template.
(** [ndn-cxx/lp/fields.hpp:80-85] IncomingFaceIdField *)
Definition IncomingFaceIdField : Decl Z := nniField lp_tlv.IncomingFaceId.
(** [ndn-cxx/lp/fields.hpp:88-93] CongestionMarkField *)
Definition CongestionMarkField : Decl Z := nniField lp_tlv.CongestionMark.
(** [ndn-cxx/lp/fields.hpp:96-99] AckField *)
Definition AckField : Decl Z := uint64Field lp_tlv.Ack true.
(** [ndn-cxx/lp/fields.hpp:102-104] TxSequenceField *)
Definition TxSequenceField : Decl Z := uint64Field lp_tlv.TxSequence false.
(** [ndn-cxx/lp/fields.hpp:107-109] NonDiscoveryField *)
Definition NonDiscoveryField : Decl unit :=
  mkDecl (mkTraits Header lp_tlv.NonDiscovery false) decodeEmpty (encodeEmpty lp_tlv.NonDiscovery).
(** [ndn-cxx/lp/fields.hpp:112-114] PrefixAnnouncementField *)
Definition PrefixAnnouncementField `{PosixTime} conv : Decl PrefixAnnouncementHeader.t :=
  mkDecl (mkTraits Header lp_tlv.PrefixAnnouncement false)
    (decodeWire PrefixAnnouncementHeader.init (PrefixAnnouncementHeader.wireDecode conv))
    PrefixAnnouncementHeader.wireEncode_template.
(** [ndn-cxx/lp/fields.hpp:122-124] FragmentField *)
Definition FragmentField : Decl bytes :=
  mkDecl (mkTraits Fragment lp_tlv.Fragment false) decodeRange (encodeRange lp_tlv.Fragment).

(** [ndn-cxx/lp/fields.hpp:129-144] FieldSet
    Only the traits of the fields are looked at. *)
Definition FieldSet : list Traits :=
  [traits FragmentField; traits SequenceField; traits FragIndexField; traits FragCountField;
   traits PitTokenField; traits NackField; traits NextHopFaceIdField; traits IncomingFaceIdField;
   traits CachePolicyField; traits CongestionMarkField; traits AckField; traits TxSequenceField;
   traits NonDiscoveryField; mkTraits Header lp_tlv.PrefixAnnouncement false].

End Field.

(** ** Packet *)

Module lp_Packet.
Import Field.

(** [ndn-cxx/lp/packet.cpp:34-50] getLocationSortOrder *)
Definition getLocationSortOrder (l : FieldLocation) : Z := match l with Header => 1 | Fragment => 2 end.

(** [ndn-cxx/lp/packet.cpp:52-67] FieldInfo *)
Record FieldInfo := mkInfo {
  tlvType : Z;
  isRecognized : bool;
  canIgnore : bool;
  isRepeatable : bool;
  locationSortOrder : Z;
}.

(** [ndn-cxx/lp/packet.cpp:74-85] ExtractFieldInfo::operator() *)
Definition ExtractFieldInfo (info : FieldInfo) (T : Traits) : FieldInfo :=
  if negb (TlvType T =? tlvType info) then info
  else mkInfo (tlvType info) true false (IsRepeatable T) (getLocationSortOrder (Location T)).

(** [ndn-cxx/lp/packet.cpp:88-97] FieldInfo::FieldInfo(uint64_t) *)
Definition infoOf (tlv : Z) : FieldInfo :=
  let info := foldl ExtractFieldInfo (mkInfo tlv false false false (getLocationSortOrder Header)) FieldSet in
  if isRecognized info then info
  else mkInfo (tlvType info) (isRecognized info)
         ((lp_tlv.HEADER3_MIN <=? tlvType info) && (tlvType info <=? lp_tlv.HEADER3_MAX) &&
          (Z.land (tlvType info) 3 =? 0))
         (isRepeatable info) (locationSortOrder info).

(** [ndn-cxx/lp/packet.cpp:99-104] compareFieldSortOrder *)
Definition compareFieldSortOrder (first second : FieldInfo) : bool :=
  (locationSortOrder first <? locationSortOrder second) ||
  ((locationSortOrder first =? locationSortOrder second) && (tlvType first <? tlvType second)).

(** [ndn-cxx/lp/packet.cpp:173-179] Packet::comparePos *)
Definition comparePos (first : Z) (second : Block.t) : bool :=
  compareFieldSortOrder (infoOf first) (infoOf (Block.type second)).

(** [ndn-cxx/lp/packet.hpp:205-205] Packet *)
Record t := mk { m_wire : Block.t }.

Definition elements (p : t) : list Block.t := Block.elements (m_wire p).

(** [ndn-cxx/lp/packet.cpp:108-111] Packet::Packet() *)
Definition init : t := mk (Block.ofType lp_tlv.LpPacket).

(** [ndn-cxx/lp/packet.hpp:61-65] Packet::empty *)
Definition empty (p : t) : bool := len (elements p) =? 0.

(** [ndn-cxx/lp/packet.hpp:82-88] Packet::count *)
Definition count {V} (F : Decl V) (p : t) : Z :=
  len (base.filter (fun b => Block.type b = type F) (elements p)).

(** [ndn-cxx/lp/packet.hpp:72-77] Packet::has *)
Definition has {V} (F : Decl V) (p : t) : bool := 0 <? count F p.

(** [ndn-cxx/lp/packet.hpp:99-108] Packet::get (the loop) *)
Fixpoint get_loop {V} (F : Decl V) (index count : Z) (els : list Block.t) : result V :=
  match els with
  | [] => Throw (OutOfRange "lp::Packet::get: index out of range")
  | element :: els =>
      if negb (Block.type element =? type F) then get_loop F index count els
      else if count =? index then decode F element
      else get_loop F index (count + 1) els
  end.

(** [ndn-cxx/lp/packet.hpp:94-109] Packet::get *)
Definition get {V} (F : Decl V) (index : Z) (p : t) : result V := get_loop F index 0 (elements p).

(** [ndn-cxx/lp/packet.hpp:120-125] Packet::list (the loop) *)
Fixpoint list_loop {V} (F : Decl V) (output : list V) (els : list Block.t) : result (list V) :=
  match els with
  | [] => Ok output
  | element :: els =>
      if negb (Block.type element =? type F) then list_loop F output els
      else v ← decode F element; list_loop F (output ++ [v]) els
  end.

(** [ndn-cxx/lp/packet.hpp:114-128] Packet::list *)
Definition list_ {V} (F : Decl V) (p : t) : result (list V) := list_loop F [] (elements p).

(** [ndn-cxx/lp/packet.hpp:146-165] Packet::add *)
Definition add {V} (F : Decl V) (value : V) : M t unit :=
  p ← self;
  _ ← throwM_if (negb (IsRepeatable (traits F)) && has F p) (InvalidArgument "lp::Packet::add: field cannot be repeated");
  f ← liftR (encode F value);
  block ← liftR (makeBlock f);
  let pos := upper_bound comparePos (type F) (elements p) in
  modify (fun p => mk (Block.insert pos block (m_wire p))).

(** [ndn-cxx/lp/packet.hpp:192-198] Packet::clear *)
Definition clear {V} (F : Decl V) : M t unit := modify (fun p => mk (Block.remove (type F) (m_wire p))).

(** [ndn-cxx/lp/packet.hpp:134-140] Packet::set *)
Definition set {V} (F : Decl V) (value : V) : M t unit := _ ← clear F; add F value.

(** [ndn-cxx/lp/packet.hpp:175-186] Packet::remove (the loop)
    The position that is erased. *)
Fixpoint remove_loop (type index count : Z) (els : list Block.t) : option nat :=
  match els with
  | [] => None
  | b :: els =>
      if Block.type b =? type then
        if count =? index then Some O else S <$> remove_loop type index (count + 1) els
      else S <$> remove_loop type index count els
  end.

(** [ndn-cxx/lp/packet.hpp:171-187] Packet::remove *)
Definition remove {V} (F : Decl V) (index : Z) : M t unit :=
  p ← self;
  match remove_loop (type F) index 0 (elements p) with
  | Some pos => modify (fun p => mk (Block.erase pos (m_wire p)))
  | None => throwM (OutOfRange "lp::Packet::remove: index out of range")
  end.

(** [ndn-cxx/lp/packet.cpp:118-130] Packet::wireEncode
    The elements are a copy. *)
Definition wireEncode : M t (option Block.t) :=
  p ← self;
  match elements p with
  | [front] =>
      if Block.type front =? type FragmentField then
        b ← liftR (Block.parsed front);
        mret (head (Block.elements b))
      else
        let b := Block.encode (m_wire p) in _ ← modify (fun _ => mk b); mret (Some b)
  | _ =>
      let b := Block.encode (m_wire p) in _ ← modify (fun _ => mk b); mret (Some b)
  end.

(** [ndn-cxx/lp/packet.cpp:147-168] Packet::wireDecode (the loop)
    [prev] is there except in the first turn. *)
Fixpoint check_fields (prev : option FieldInfo) (els : list Block.t) : result unit :=
  match els with
  | [] => Ok tt
  | element :: els =>
      let info := infoOf (Block.type element) in
      _ ← throw_if (negb (isRecognized info) && negb (canIgnore info)) (PacketError "unrecognized field cannot be ignored");
      _ ← match prev with
          | None => Ok tt
          | Some prev =>
              if (tlvType info =? tlvType prev) && negb (isRepeatable info)
              then Throw (PacketError "non-repeatable field cannot be repeated")
              else throw_if (negb (tlvType info =? tlvType prev) && negb (compareFieldSortOrder prev info))
                     (PacketError "fields are not in correct sort order")
          end;
      check_fields (Some info) els
  end.

(** [ndn-cxx/lp/packet.cpp:132-171] Packet::wireDecode
    The element cache of the argument, which the parsing also fills, is left
    out.  A bare Interest or Data has its octets. *)
Definition wireDecode (wire : Block.t) : M t unit :=
  if (Block.type wire =? tlv.Interest) || (Block.type wire =? tlv.Data) then
    _ ← modify (fun _ => mk (Block.ofType lp_tlv.LpPacket));
    w ← liftR (Block.wire wire);
    add FragmentField w
  else
    _ ← throwM_if (negb (Block.type wire =? lp_tlv.LpPacket)) (PacketError "LpPacket");
    wire ← liftR (Block.parsed wire);
    _ ← liftR (check_fields None (Block.elements wire));
    modify (fun _ => mk wire).

(** [ndn-cxx/lp/packet.cpp:113-116] Packet::Packet(const Block&) *)
Definition ofBlock (wire : Block.t) : result t := exec (wireDecode wire) (mk Block.empty).

End lp_Packet.

(** ** Lemmas *)

Module LinkFacts.
Import FieldFacts Field lp_Packet.

(** *** What is known of a type number *)

Lemma fold_extract (l : list Traits) : forall info, NoDup (TlvType <$> l) ->
  foldl ExtractFieldInfo info l =
  match List.find (fun T => TlvType T =? tlvType info) l with
  | Some T => mkInfo (tlvType info) true false (IsRepeatable T) (getLocationSortOrder (Location T))
  | None => info
  end.
Proof.
  induction l as [|T l IH]; intros info Hn; [done|]. rewrite fmap_cons in Hn. apply list.NoDup_cons in Hn as [HT Hn].
  cbn [foldl List.find]. rewrite IH by done. unfold ExtractFieldInfo.
  destruct (Z.eqb_spec (TlvType T) (tlvType info)) as [E|E]; cbn [negb tlvType]; [|done].
  destruct (List.find _ l) as [T'|] eqn:F; [|done]. apply find_some in F as [Hin F%Z.eqb_eq].
  destruct HT. rewrite E, <- F. apply list_elem_of_fmap_2. by apply list_elem_of_In.
Qed.

Lemma FieldSet_NoDup : NoDup (TlvType <$> FieldSet).
Proof. refine (bool_decide_unpack _ _); by vm_compute. Qed.

(** The types of the recognised fields, and of those that may be ignored. *)
Definition recognised (ty : Z) : Prop := ty ∈ TlvType <$> FieldSet.
Definition ignorable (ty : Z) : Prop := 800 <= ty <= 959 /\ ty mod 4 = 0.
Definition known (ty : Z) : Prop := recognised ty \/ ignorable ty.

Lemma infoOf_spec ty :
  tlvType (infoOf ty) = ty /\ locationSortOrder (infoOf ty) = (if ty =? 80 then 2 else 1) /\
  isRepeatable (infoOf ty) = (ty =? 836) /\
  (isRecognized (infoOf ty) = true <-> recognised ty).
Proof.
  unfold infoOf. rewrite (fold_extract _ _ FieldSet_NoDup). cbn [tlvType].
  assert (recognised ty <-> exists T, List.find (fun T => TlvType T =? ty) FieldSet = Some T) as Hr.
  { unfold recognised. rewrite list_elem_of_fmap. split.
    - intros (T & -> & HT%list_elem_of_In). destruct (List.find _ _) eqn:F; [by eexists|].
      apply (find_none _ _ F) in HT. by rewrite Z.eqb_refl in HT.
    - intros [T [HT%list_elem_of_In E%Z.eqb_eq]%find_some]. by exists T. }
  destruct (List.find _ _) as [T|] eqn:F; cbn.
  - apply find_some in F as [HT E%Z.eqb_eq]. subst ty. split; [done|].
    assert (forallb (fun T => (getLocationSortOrder (Location T) =? (if TlvType T =? 80 then 2 else 1)) &&
      Bool.eqb (IsRepeatable T) (TlvType T =? 836)) FieldSet = true) as HF by by vm_compute.
    rewrite forallb_forall in HF. specialize (HF _ HT). apply andb_true_iff in HF as [H1%Z.eqb_eq H2%eqb_prop].
    split_and!; [done..|]. split; [|done]. intros _. unfold recognised. by apply list_elem_of_fmap_2, list_elem_of_In.
  - assert (~ recognised ty) as Hn by (rewrite Hr; intros [? [=]]).
    rewrite (proj2 (Z.eqb_neq ty 80)), (proj2 (Z.eqb_neq ty 836)).
    + split_and!; [done..|]. split; [discriminate|]. intros ?. contradiction.
    + intros ->. apply Hn. unfold recognised. refine (bool_decide_unpack _ _); by vm_compute.
    + intros ->. apply Hn. unfold recognised. refine (bool_decide_unpack _ _); by vm_compute.
Qed.

Lemma infoOf_ignore ty : isRecognized (infoOf ty) = false -> canIgnore (infoOf ty) = true <-> ignorable ty.
Proof.
  unfold infoOf. rewrite (fold_extract _ _ FieldSet_NoDup). cbn [tlvType]. destruct (List.find _ _); cbn; [done|].
  intros _. unfold ignorable, lp_tlv.HEADER3_MIN, lp_tlv.HEADER3_MAX.
  rewrite !andb_true_iff, !Z.leb_le, Z.eqb_eq. change 3 with (Z.ones 2). rewrite Z.land_ones by lia. change (2 ^ 2) with 4. tauto.
Qed.

Lemma known_spec ty : negb (isRecognized (infoOf ty)) && negb (canIgnore (infoOf ty)) = false <-> known ty.
Proof.
  destruct (infoOf_spec ty) as (_ & _ & _ & Hr). unfold known. rewrite <- Hr.
  pose proof (infoOf_ignore ty) as Hi. destruct (isRecognized (infoOf ty)); [cbn; tauto|].
  rewrite <- Hi by done. cbn. rewrite negb_false_iff. split; [by right|]. by intros [|].
Qed.

(** *** The order of the fields: the Fragment is last, the others are
    ascending, and only Ack may be repeated. *)

Definition before (a b : Z) : Prop := a <> 80 /\ (b = 80 \/ a < b).
Definition may_follow (a b : Z) : Prop := before a b \/ a = b /\ a = 836.

Lemma field_order_spec a b : compareFieldSortOrder (infoOf a) (infoOf b) = true <-> before a b.
Proof.
  unfold compareFieldSortOrder, before. destruct (infoOf_spec a) as (-> & -> & _), (infoOf_spec b) as (-> & -> & _).
  destruct (Z.eqb_spec a 80), (Z.eqb_spec b 80); subst; cbn; rewrite ?Z.ltb_lt; intuition lia.
Qed.

Lemma may_follow_trans a b c : may_follow a b -> may_follow b c -> may_follow a c.
Proof. unfold may_follow, before. lia. Qed.

Definition follows (x y : Block.t) : Prop := may_follow (Block.type x) (Block.type y).

Lemma follows_trans : Relations_1.Transitive follows.
Proof. intros x y z. apply may_follow_trans. Qed.

(** The fields of a packet are known ones, in order. *)
Definition ordered (els : list Block.t) : Prop :=
  Forall (fun b => known (Block.type b)) els /\ StronglySorted follows els.

Lemma check_step prev x :
  (if (tlvType (infoOf x) =? tlvType (infoOf prev)) && negb (isRepeatable (infoOf x))
   then Throw (PacketError "non-repeatable field cannot be repeated")
   else throw_if (negb (tlvType (infoOf x) =? tlvType (infoOf prev)) && negb (compareFieldSortOrder (infoOf prev) (infoOf x)))
          (PacketError "fields are not in correct sort order")) = Ok tt <-> may_follow prev x.
Proof.
  pose proof (field_order_spec prev x) as Hc. destruct (infoOf_spec x) as (-> & _ & -> & _), (infoOf_spec prev) as (-> & _).
  unfold may_follow. destruct (Z.eqb_spec x prev) as [->|Hne]; cbn [negb andb].
  - destruct (Z.eqb_spec prev 836); cbn; [intuition|]. split; [done|]. unfold before. lia.
  - destruct (compareFieldSortOrder _ _); cbn; [intuition|]. split; [done|]. intros [H|[]]; [|congruence].
    apply Hc in H. done.
Qed.

Lemma check_fields_spec els : forall prev,
  check_fields (infoOf <$> prev) els = Ok tt <->
  Forall (fun b => known (Block.type b)) els /\ Sorted follows els /\
  match prev, els with Some a, x :: _ => may_follow a (Block.type x) | _, _ => True end.
Proof.
  induction els as [|x els IH]; intros prev; cbn [check_fields]; [by destruct prev|].
  pose proof (known_spec (Block.type x)) as Hk. destruct (_ && _).
  { cbn. split; [done|]. intros [[Hx _]%Forall_cons_iff _]. apply Hk in Hx. done. }
  apply proj1 in Hk. specialize (Hk eq_refl). cbn [throw_if mbind result_bind].
  specialize (IH (Some (Block.type x))). cbn [fmap option_fmap option_map] in IH.
  destruct prev as [a|]; cbn [fmap option_fmap option_map].
  - pose proof (check_step a (Block.type x)) as Hs. cbn beta in Hs.
    destruct (if (_ : bool) then _ else _) as [[]|e]; cbn [mbind result_bind].
    + rewrite IH, Forall_cons_iff. apply proj1 in Hs. specialize (Hs eq_refl). clear IH. split.
      * intros (H1 & H2 & H3). split_and!; [done..| |done]. constructor; [done|]. destruct els; by constructor.
      * intros ([_ H1] & H2 & _). apply Sorted_inv in H2 as [H2 H3]. split_and!; [done..|]. by destruct H3.
    + split; [done|]. intros (_ & _ & H). apply Hs in H. done.
  - cbn [mbind result_bind]. rewrite IH, Forall_cons_iff. clear IH. split.
    + intros (H1 & H2 & H3). split_and!; [done..| |done]. constructor; [done|]. destruct els; by constructor.
    + intros ([_ H1] & H2 & _). apply Sorted_inv in H2 as [H2 H3]. split_and!; [done..|]. by destruct H3.
Qed.

Lemma check_fields_ordered els : check_fields None els = Ok tt <-> ordered els.
Proof.
  rewrite (check_fields_spec els None). unfold ordered. split.
  - intros (H1 & H2 & _). split; [done|]. by apply (Sorted_StronglySorted follows_trans).
  - intros [H1 H2]. split_and!; [done| |done]. by apply StronglySorted_Sorted.
Qed.

(** *** Insertion *)

Lemma sorted_app_r (l r : list Block.t) : StronglySorted follows (l ++ r) -> StronglySorted follows r.
Proof. induction l as [|x l IH]; [done|]. cbn. intros [Hs _]%StronglySorted_inv. auto. Qed.

Lemma comparePos_spec ty x : comparePos ty x = true <-> before ty (Block.type x).
Proof. apply field_order_spec. Qed.

Lemma before_follows ty x y : before ty (Block.type x) -> follows x y -> before ty (Block.type y).
Proof. unfold before, follows, may_follow, before. lia. Qed.

(** Where a field goes: behind those that may precede it, in front of those
    that have to follow it. *)
Lemma insertion_point ty els : ordered els -> exists l r, els = l ++ r /\
  upper_bound comparePos ty els = length l /\
  Forall (fun x => ~ before ty (Block.type x)) l /\ Forall (fun x => before ty (Block.type x)) r.
Proof.
  intros [_ Hs]. destruct (upper_bound_split comparePos ty els) as (l & r & -> & Hpos & Hl & Hr).
  exists l, r. split_and!; [done..| |].
  - eapply Forall_impl; [|exact Hl]. cbn beta. intros x Hx Hb. apply comparePos_spec in Hb. congruence.
  - destruct r as [|x r]; [constructor|]. apply comparePos_spec in Hr. constructor; [done|]. apply sorted_app_r, StronglySorted_inv in Hs as [_ Hs].
    eapply Forall_impl; [|exact Hs]. intros y Hy. by eapply before_follows.
Qed.

Lemma not_before_follows ty x : ~ before ty x -> (ty = 836 \/ x <> ty) -> may_follow x ty.
Proof. unfold may_follow, before. lia. Qed.

Lemma sorted_insert l r b : StronglySorted follows (l ++ r) -> Forall (fun x => follows x b) l ->
  Forall (fun x => follows b x) r -> StronglySorted follows (l ++ b :: r).
Proof.
  intros Hs Hl Hr. induction l as [|x l IH]; cbn in *.
  - by constructor.
  - apply StronglySorted_inv in Hs as [Hs Hx]. apply Forall_cons_iff in Hl as [Hxb Hl].
    constructor; [by apply IH|]. apply Forall_app in Hx as [Hx1 Hx2]. apply Forall_app. split; [done|]. by constructor.
Qed.

Definition occ (ty : Z) (els : list Block.t) : list Block.t := base.filter (fun b => Block.type b = ty) els.

Lemma occ_nil ty els : occ ty els = [] <-> Forall (fun x => Block.type x <> ty) els.
Proof.
  unfold occ. induction els as [|x els IH]; [by split|]. rewrite filter_cons, Forall_cons_iff, <- IH.
  case_decide; split; [done|tauto|done|tauto].
Qed.

Lemma insert_ordered ty els b : ordered els -> known ty -> Block.type b = ty -> (ty = 836 \/ occ ty els = []) ->
  let pos := upper_bound comparePos ty els in
  ordered (take pos els ++ b :: drop pos els) /\
  forall ty', occ ty' (take pos els ++ b :: drop pos els) = occ ty' els ++ (if decide (ty' = ty) then [b] else []).
Proof.
  intros Ho Hk Hb Hn. cbv zeta. destruct (insertion_point ty els Ho) as (l & r & -> & -> & Hl & Hr).
  rewrite take_app_length, drop_app_length. destruct Ho as [Hf Hs]. split; [split|].
  - apply Forall_app in Hf as [H1 H2]. apply Forall_app. split; [done|]. constructor; [by rewrite Hb|done].
  - apply sorted_insert; [done| |].
    + apply Forall_forall. intros x Hx. rewrite Forall_forall in Hl. unfold follows. rewrite Hb.
      apply not_before_follows; [by apply Hl|]. destruct Hn as [->|Hn]; [by left|right].
      apply occ_nil, Forall_app in Hn as [Hn _]. rewrite Forall_forall in Hn. by apply Hn.
    + eapply Forall_impl; [|exact Hr]. intros x Hx. unfold follows. rewrite Hb. by left.
  - intros ty'. unfold occ. rewrite !list.filter_app, filter_cons. rewrite Hb. destruct (decide (ty = ty')) as [->|Hne].
    + rewrite decide_True by done.
      assert (base.filter (fun x => Block.type x = ty') r = []) as ->; [|by rewrite app_nil_r].
      apply occ_nil. eapply Forall_impl; [|exact Hr]. unfold before. cbn beta. lia.
    + rewrite decide_False by congruence. by rewrite app_nil_r.
Qed.

Lemma ordered_sublist l k : l `sublist_of` k -> ordered k -> ordered l.
Proof. intros Hl [Hf Hs]. split; [by eapply Forall_sublist|by eapply StronglySorted_sublist]. Qed.

(** In an ordered packet only Ack is there twice, and nothing follows the
    Fragment. *)
Lemma ordered_unique els ty : ordered els -> ty <> 836 -> (length (occ ty els) <= 1)%nat.
Proof.
  intros [_ Hs] Hne. induction els as [|x els IH]; [cbn; lia|]. apply StronglySorted_inv in Hs as [Hs Hx].
  specialize (IH Hs). unfold occ in *. rewrite filter_cons. case_decide as E; [|done].
  enough (base.filter (fun b => Block.type b = ty) els = []) as -> by (cbn; lia). apply occ_nil.
  eapply Forall_impl; [|exact Hx]. unfold follows, may_follow, before. intros y. lia.
Qed.

Lemma ordered_fragment l x r : ordered (l ++ x :: r) -> Block.type x = 80 -> r = [].
Proof.
  intros [_ Hs] Hx. apply sorted_app_r, StronglySorted_inv in Hs as [_ Hs]. destruct r as [|y r]; [done|].
  apply Forall_cons_iff in Hs as [Hy _]. unfold follows, may_follow, before in Hy. lia.
Qed.

(** *** Codecs *)

(** What a packet needs of a field: it is one of the declared fields, its
    encoder writes one element of its type, and a valid value decodes to an
    equivalent one. *)
Class FieldLaws {V} (F : Decl V) := {
  fl_valid : V -> Prop;
  fl_octets : V -> bytes;
  fl_eqv : V -> V -> Prop;
  fl_member : traits F ∈ FieldSet;
  fl_encode v f : encode F v = Ok f -> exists x, EncSeq f [(type F, x)];
  fl_value v : fl_valid v -> exists f, encode F v = Ok f /\ EncSeq f [(type F, fl_octets v)];
  fl_decode v : fl_valid v -> is_u64 (len (fl_octets v)) ->
    exists v', decode F (Block.of_tlv (type F) (fl_octets v)) = Ok v' /\ fl_eqv v v';
}.

Lemma field_member T : T ∈ FieldSet -> recognised (TlvType T) /\ IsRepeatable T = (TlvType T =? 836).
Proof.
  intros HT. split; [unfold recognised; by apply list_elem_of_fmap_2|]. apply list_elem_of_In in HT.
  assert (forallb (fun T => Bool.eqb (IsRepeatable T) (TlvType T =? 836)) FieldSet = true) as HF by by vm_compute.
  rewrite forallb_forall in HF. by apply eqb_prop, HF.
Qed.

Lemma decode_own {V} (F : Decl V) v : decode F (Block.of_tlv (type F) v) = DecodeHelper F (Block.of_tlv (type F) v).
Proof. unfold decode. change (Block.type (Block.of_tlv ?x _)) with x. by rewrite Z.eqb_refl. Qed.

#[export] Program Instance uint64Field_laws type repeatable
    (Hm : mkTraits Header type repeatable ∈ FieldSet) : FieldLaws (uint64Field type repeatable) := {|
  fl_valid := is_u64; fl_octets n := be_bytes 8 n; fl_eqv := eq |}.
Next Obligation. done. Qed.
Next Obligation. intros ty r _ v f [= <-]. eexists. apply EncSeq_binary. Qed.
Next Obligation. intros ty r _ v _. eexists. split; [done|]. apply EncSeq_binary. Qed.
Next Obligation.
  intros ty r _ v Hv _. rewrite decode_own. exists v. split; [|done]. cbn [uint64Field DecodeHelper]. unfold decodeUint64, Block.value_size.
  change (Block.value (Block.of_tlv _ ?x)) with x. rewrite len_be_bytes. cbn [throw_if mbind result_bind negb Z.eqb Z.of_nat].
  rewrite be_number_bytes, Z.mod_small; [done|]. width. lia.
Qed.

#[export] Program Instance nniField_laws type (Hm : mkTraits Header type false ∈ FieldSet) : FieldLaws (nniField type) := {|
  fl_valid := is_u64; fl_octets := tlv.writeNonNegativeInteger; fl_eqv := eq |}.
Next Obligation. done. Qed.
Next Obligation. intros ty _ v f [= <-]. eexists. apply EncSeq_nni. Qed.
Next Obligation. intros ty _ v _. eexists. split; [done|]. apply EncSeq_nni. Qed.
Next Obligation. intros ty _ v Hv _. rewrite decode_own. exists v. split; [|done]. by apply readNNI_of_tlv. Qed.

Definition range_field (l : FieldLocation) (type : Z) : Decl bytes :=
  mkDecl (mkTraits l type false) decodeRange (encodeRange type).

#[export] Program Instance range_field_laws l type (Hm : mkTraits l type false ∈ FieldSet) : FieldLaws (range_field l type) := {|
  fl_valid v := v <> []; fl_octets v := v; fl_eqv := eq |}.
Next Obligation. done. Qed.
Next Obligation. intros l ty _ v f [= <-]. eexists. apply (EncSeq_binary ty v). Qed.
Next Obligation. intros l ty _ v _. eexists. split; [done|]. apply (EncSeq_binary ty v). Qed.
Next Obligation.
  intros l ty _ v Hv _. rewrite decode_own. exists v. split; [|done]. cbn [range_field DecodeHelper]. unfold decodeRange, Block.value_size.
  change (Block.value (Block.of_tlv _ ?x)) with x. rewrite (proj2 (Z.eqb_neq _ 0)); [done|]. by intros ?%len_zero.
Qed.

Ltac in_field_set := refine (bool_decide_unpack _ _); by vm_compute.

#[export] Instance SequenceField_laws : FieldLaws SequenceField := uint64Field_laws lp_tlv.Sequence false ltac:(in_field_set).
#[export] Instance AckField_laws : FieldLaws AckField := uint64Field_laws lp_tlv.Ack true ltac:(in_field_set).
#[export] Instance TxSequenceField_laws : FieldLaws TxSequenceField := uint64Field_laws lp_tlv.TxSequence false ltac:(in_field_set).
#[export] Instance FragIndexField_laws : FieldLaws FragIndexField := nniField_laws lp_tlv.FragIndex ltac:(in_field_set).
#[export] Instance FragCountField_laws : FieldLaws FragCountField := nniField_laws lp_tlv.FragCount ltac:(in_field_set).
#[export] Instance NextHopFaceIdField_laws : FieldLaws NextHopFaceIdField := nniField_laws lp_tlv.NextHopFaceId ltac:(in_field_set).
#[export] Instance IncomingFaceIdField_laws : FieldLaws IncomingFaceIdField := nniField_laws lp_tlv.IncomingFaceId ltac:(in_field_set).
#[export] Instance CongestionMarkField_laws : FieldLaws CongestionMarkField := nniField_laws lp_tlv.CongestionMark ltac:(in_field_set).
#[export] Instance PitTokenField_laws : FieldLaws PitTokenField := range_field_laws Header lp_tlv.PitToken ltac:(in_field_set).
#[export] Instance FragmentField_laws : FieldLaws FragmentField := range_field_laws Fragment lp_tlv.Fragment ltac:(in_field_set).

#[export] Program Instance NonDiscoveryField_laws : FieldLaws NonDiscoveryField := {|
  fl_valid _ := True; fl_octets _ := []; fl_eqv := eq |}.
Next Obligation. in_field_set. Qed.
Next Obligation. intros v f [= <-]. eexists. apply EncSeq_empty. Qed.
Next Obligation. intros v _. eexists. split; [done|]. apply EncSeq_empty. Qed.
Next Obligation. intros [] _ _. by exists tt. Qed.

(** A header with one number inside, such as the NackReason of a Nack. *)
Definition number_seq (ty n : Z) : list (Z * bytes) := [(ty, tlv.writeNonNegativeInteger n)].

Lemma number_seq_ok ty n : is_tlv_type ty -> Forall BlockFacts.tlv_ok (number_seq ty n).
Proof. intros Ht. constructor; [split; [done|apply len_nni]|constructor]. Qed.

Lemma EncSeq_number outer ty n : EncSeq (pTL outer (encoding.prependNonNegativeIntegerBlock ty n))
  [(outer, BlockFacts.tlv_seq (number_seq ty n))].
Proof. apply EncSeq_TL, EncSeq_nni. Qed.

#[export] Program Instance NackField_laws : FieldLaws NackField := {|
  fl_valid h := 0 <= NackHeader.m_reason h < 2 ^ 31;
  fl_octets h := BlockFacts.tlv_seq (number_seq lp_tlv.NackReason (NackHeader.m_reason h));
  fl_eqv h h' := NackHeader.m_reason h' = NackHeader.m_reason h |}.
Next Obligation. in_field_set. Qed.
Next Obligation. intros h f [= <-]. eexists. apply EncSeq_number. Qed.
Next Obligation.
  intros h Hh. eexists. split; [done|]. cbn beta in Hh. rewrite <- (u64_small (NackHeader.m_reason h)) by (unfold UINT64_MAX; lia).
  apply EncSeq_number.
Qed.
Next Obligation.
  intros h Hh _. cbn beta in Hh. rewrite decode_own. cbn [NackField DecodeHelper]. unfold decodeWire, exec, NackHeader.wireDecode.
  rewrite bindM_pass by done. change (Block.of_tlv ?ty (BlockFacts.tlv_seq ?l)) with (seq_block ty l).
  assert (Forall BlockFacts.tlv_ok (number_seq lp_tlv.NackReason (NackHeader.m_reason h))) as Ha
    by (apply number_seq_ok; by vm_compute).
  rewrite (bindM_ok _ _ _ _ _ (assignParsed_seq _ _ _ _ Ha)), bindM_modify, bindM_self.
  cbn [NackHeader.m_wire NackHeader.with_wire NackHeader.with_reason parsed_block Block.elements Block.m_elements number_seq fmap list_fmap].
  change (Block.type _ =? _) with true. cbv iota.
  rewrite (bindM_lift _ _ _ (NackHeader.m_reason h)); [by eexists|]. apply readNNIAs_of_tlv; [width; lia|lia].
Qed.

#[export] Program Instance CachePolicyField_laws : FieldLaws CachePolicyField := {|
  fl_valid c := CachePolicy.m_policy c = CachePolicy.NO_CACHE;
  fl_octets c := BlockFacts.tlv_seq (number_seq lp_tlv.CachePolicyType (CachePolicy.m_policy c));
  fl_eqv c c' := CachePolicy.m_policy c' = CachePolicy.m_policy c |}.
Next Obligation. in_field_set. Qed.
Next Obligation.
  intros c f H. unfold encode in H. cbn [CachePolicyField EncodeHelper] in H. unfold CachePolicy.wireEncode_template in H.
  destruct (_ =? _); [discriminate H|]. injection H as <-. eexists. apply EncSeq_number.
Qed.
Next Obligation.
  intros c Hc. cbn beta in Hc. unfold encode. cbn [CachePolicyField EncodeHelper]. unfold CachePolicy.wireEncode_template.
  rewrite Hc. cbn [Z.eqb CachePolicy.NO_CACHE CachePolicy.NONE throw_if mbind result_bind]. eexists. split; [done|]. apply EncSeq_number.
Qed.
Next Obligation.
  intros [n w] Hc _. cbn [CachePolicy.m_policy] in *. subst n. eexists. split; [vm_compute; reflexivity|done].
Qed.

(** *** Prefix announcements *)

(** A prepender that writes octets which depend on nothing but itself. *)
Definition encodable (f : prepender) : Prop := exists bs, Encodes f bs.

Lemma encodable_of f bs : Encodes f bs -> encodable f.
Proof. by exists bs. Qed.

Lemma encodable_then f g : encodable f -> encodable g -> encodable (f ;+ g).
Proof. intros [x Hx] [y Hy]. eexists. by apply Encodes_then. Qed.

Lemma encodable_when c f : encodable f -> encodable (pWhen c f).
Proof. intros Hf. destruct c; [done|]. eapply encodable_of, Encodes_none. Qed.

Lemma encodable_TL ty f : encodable f -> encodable (pTL ty f).
Proof. intros [x Hx]. eexists. by apply Encodes_TL. Qed.

Lemma encodable_reversed {A} (f : A -> prepender) l : (forall x, encodable (f x)) -> encodable (pReversed f l).
Proof.
  intros H. induction l as [|x l IH]; [eapply encodable_of, Encodes_none|]. cbn [pReversed]. by apply encodable_then.
Qed.

Hint Resolve encodable_then encodable_when encodable_TL encodable_reversed : encodable.
Hint Extern 1 (encodable pNone) => eapply encodable_of, Encodes_none : encodable.
Hint Extern 1 (encodable (encoding.prependBlock _)) => eapply encodable_of, Encodes_block : encodable.
Hint Extern 1 (encodable (encoding.prependNonNegativeIntegerBlock _ _)) => eapply encodable_of, Encodes_nniBlock : encodable.
Hint Extern 1 (encodable (Name.wireEncode_template _)) => eapply encodable_of, NameFacts.Encodes_name : encodable.
Hint Extern 1 (encodable (Component.wireEncode_template _)) => eapply encodable_of, ComponentFacts.Encodes_component : encodable.

Lemma encodable_meta m : encodable (MetaInfo.wireEncode_template m).
Proof.
  unfold MetaInfo.wireEncode_template. destruct (MetaInfo.m_finalBlockId m); [unfold encoding.prependNestedBlock, BlockHelpers.wireEncode|];
    auto 10 with encodable.
Qed.

Lemma encodable_data d f : Data.wireEncode_template false d = Ok f -> encodable f.
Proof.
  unfold Data.wireEncode_template, SignatureInfo.wireEncode_template, KeyLocator.wireEncode_template. intros H.
  repeat (match type of H with
    | context [throw_if ?c _] => destruct c; cbn [throw_if mbind result_bind] in H; try discriminate H
    | context [match ?x with _ => _ end] => destruct x; cbn [mbind result_bind] in H; try discriminate H
    end); injection H as <-; auto 12 using encodable_meta with encodable.
Qed.

Section announcement.
Context `{PosixTime} (conv : name.Conventions).

(** A header that holds a signed announcement which decodes again. *)
Definition ann_valid (h : PrefixAnnouncementHeader.t) (d : Data.t) (pa' : PrefixAnnouncement.t) : Prop :=
  exists pa, PrefixAnnouncementHeader.m_prefixAnn h = Some pa /\ PrefixAnnouncement.m_data pa = Some d /\
    DataFacts.data_ok d /\ PrefixAnnouncement.ofData conv (DataFacts.data_norm d) = Ok pa'.

Definition ann_octets (h : PrefixAnnouncementHeader.t) : bytes :=
  match PrefixAnnouncementHeader.m_prefixAnn h ≫= PrefixAnnouncement.m_data with
  | Some d => BlockFacts.tlv_seq [(tlv.Data, BlockFacts.tlv_seq (DataFacts.data_seq d))]
  | None => []
  end.

Lemma ann_decode d pa : DataFacts.data_ok d -> PrefixAnnouncement.ofData conv (DataFacts.data_norm d) = Ok pa ->
  is_u64 (len (BlockFacts.tlv_seq [(tlv.Data, BlockFacts.tlv_seq (DataFacts.data_seq d))])) ->
  PrefixAnnouncementHeader.ofBlock conv
    (seq_block lp_tlv.PrefixAnnouncement [(tlv.Data, BlockFacts.tlv_seq (DataFacts.data_seq d))]) =
  Ok (PrefixAnnouncementHeader.mk (Some pa)).
Proof.
  intros Hd Hpa Hl. unfold PrefixAnnouncementHeader.ofBlock, exec, PrefixAnnouncementHeader.wireDecode.
  rewrite bindM_pass by done. set (l := [(tlv.Data, _)]) in *.
  assert (Forall BlockFacts.tlv_ok l) as Hok by (apply tlv_seq_ok; [constructor; [by vm_compute|constructor]|done]).
  change (seq_block lp_tlv.PrefixAnnouncement l) with (Block.of_tlv lp_tlv.PrefixAnnouncement (BlockFacts.tlv_seq l)).
  rewrite (bindM_lift _ _ _ _ (BlockFacts.parsed_of_tlv _ _ Hok)).
  rewrite (bindM_lift _ _ _ (seq_block tlv.Data (DataFacts.data_seq d))) by done.
  assert (is_u64 (len (BlockFacts.tlv_seq (DataFacts.data_seq d)))) as Hs by (by apply Forall_cons_iff in Hok as [[_ ?] _]).
  rewrite (bindM_lift _ _ _ (DataFacts.data_norm d)).
  2: { unfold Data.ofBlock, exec. by rewrite (DataFacts.data_decode d _ Hd Hs). }
  by rewrite bindM_modify, (bindM_lift _ _ _ _ Hpa).
Qed.

#[export] Program Instance PrefixAnnouncementField_laws : FieldLaws (PrefixAnnouncementField conv) := {|
  fl_valid h := exists d pa', ann_valid h d pa';
  fl_octets := ann_octets;
  fl_eqv h h' := exists d pa', ann_valid h d pa' /\ h' = PrefixAnnouncementHeader.mk (Some pa') |}.
Next Obligation. in_field_set. Qed.
Next Obligation.
  intros h f He. unfold encode in He. cbn [PrefixAnnouncementField EncodeHelper] in He.
  unfold PrefixAnnouncementHeader.wireEncode_template in He.
  destruct (PrefixAnnouncementHeader.m_prefixAnn h) as [pa|]; [|discriminate He].
  destruct (PrefixAnnouncement.m_data pa) as [d|]; [|discriminate He].
  destruct (Data.wireEncode_template false d) as [g|] eqn:E; [|discriminate He]. injection He as <-.
  destruct (encodable_data d g E) as [bs Hbs]. exists bs. by apply EncSeq_one, Encodes_TL.
Qed.
Next Obligation.
  intros h (d & pa' & pa & H1 & H2 & H3 & H4). unfold encode. cbn [PrefixAnnouncementField EncodeHelper].
  unfold PrefixAnnouncementHeader.wireEncode_template, ann_octets. rewrite H1. cbn [mbind option_bind]. rewrite H2.
  destruct (DataFacts.EncSeq_data d H3) as (f & -> & Hf). eexists. split; [done|]. by apply EncSeq_TL.
Qed.
Next Obligation.
  intros h (d & pa' & pa & H1 & H2 & H3 & H4) Hl. rewrite decode_own. unfold ann_octets in *. rewrite H1 in *.
  cbn [mbind option_bind] in *. rewrite H2 in *. eexists. split; [by apply (ann_decode d pa')|].
  exists d, pa'. split; [|done]. exists pa. done.
Qed.

End announcement.
End LinkFacts.

(** ** Theorems *)

Module LinkTheorems.
Import FieldFacts Field lp_Packet LinkFacts.

Definition inv (p : t) : Prop := Block.m_type (m_wire p) = lp_tlv.LpPacket /\ ordered (elements p).

(** The packet as a multimap from types to their elements, in order. *)
Definition fields (p : t) (ty : Z) : list Block.t := occ ty (elements p).

(** The encoded value has fewer than 2^64 octets. *)
Definition fits {V} (F : Decl V) (v : V) : Prop :=
  forall f x, encode F v = Ok f -> EncSeq f [(type F, x)] -> is_u64 (len x).

Lemma packet_inv_init : inv init.
Proof. split; [done|]. split; constructor. Qed.

Lemma member_type T : T ∈ FieldSet -> is_tlv_type (TlvType T).
Proof.
  intros HT%list_elem_of_In. assert (forallb (fun T => (1 <=? TlvType T) && (TlvType T <=? 4294967295)) FieldSet = true) as HF by by vm_compute.
  rewrite forallb_forall in HF. specialize (HF T HT). apply andb_true_iff in HF as [H1%Z.leb_le H2%Z.leb_le].
  width. lia.
Qed.

Section field.
Context {V} (F : Decl V) `{FieldLaws V F}.
Implicit Types (p : t) (v : V).

Lemma has_spec p : has F p = bool_decide (fields p (type F) <> []).
Proof.
  unfold has, count, fields, occ. set (l := base.filter _ _). clearbody l. destruct l; [done|].
  rewrite bool_decide_eq_true_2 by done. apply Z.ltb_lt. rewrite len_cons. pose proof (len_nonneg l). lia.
Qed.

Lemma add_refused p v : IsRepeatable (traits F) = false -> fields p (type F) <> [] ->
  add F v p = (p, Throw (InvalidArgument "lp::Packet::add: field cannot be repeated")).
Proof.
  intros Hr Ho. unfold add. rewrite bindM_self, has_spec, Hr, bool_decide_eq_true_2 by done. done.
Qed.

Lemma add_accepted p v f x : inv p -> (IsRepeatable (traits F) = true \/ fields p (type F) = []) ->
  encode F v = Ok f -> EncSeq f [(type F, x)] -> is_u64 (len x) ->
  exists p', add F v p = (p', Ok tt) /\ inv p' /\ Block.hasWire (m_wire p') = false /\
    forall ty, fields p' ty = fields p ty ++ (if decide (ty = type F) then [Block.of_tlv (type F) x] else []).
Proof.
  intros [Ht Ho] Hr Hf Hx Hl. destruct (field_member _ fl_member) as [Hk Hrep]. unfold add.
  rewrite bindM_self, has_spec, bindM_pass.
  2: { destruct Hr as [-> | ->]; [done|]. rewrite bool_decide_eq_false_2; [apply andb_false_r|naive_solver]. }
  rewrite (bindM_lift _ _ _ _ Hf), (bindM_lift _ _ _ (Block.of_tlv (type F) x)).
  2: { apply makeBlock_tlv; [unfold EncSeq in Hx; by rewrite tlv_seq_one in Hx|by apply member_type, fl_member|done]. }
  destruct (insert_ordered (type F) (elements p) (Block.of_tlv (type F) x)) as [H1 H2]; [done|by left|done| |].
  { destruct Hr as [Hr|Hr]; [left; apply Z.eqb_eq; unfold type; congruence|by right]. }
  eexists. split; [done|]. split_and!; [by split|done|done].
Qed.

Lemma clear_spec p : inv p -> exists p', clear F p = (p', Ok tt) /\ inv p' /\ Block.hasWire (m_wire p') = false /\
  forall ty, fields p' ty = if decide (ty = type F) then [] else fields p ty.
Proof.
  intros [Ht Ho]. eexists. split; [done|]. split_and!; [split; [done|]|done|].
  - eapply ordered_sublist; [|exact Ho]. apply sublist_filter.
  - intros ty. unfold fields, occ, elements, Block.elements, Block.remove. cbn [m_wire Block.m_elements Block.resetWire].
    destruct (decide (ty = type F)) as [->|Hne].
    + apply occ_nil, Forall_forall. intros x Hx. by apply list_elem_of_In, list_elem_of_filter in Hx as [? _].
    + rewrite list_filter_filter. apply list_filter_iff. intros x. change (Block.m_type x) with (Block.type x). split; [tauto|]. intros ->. by split.
Qed.

(** The position of the index-th occurrence, from a count on. *)
Lemma remove_loop_spec els : forall n k, 0 <= k -> n = k + Z.of_nat (Z.to_nat (n - k)) ->
  match remove_loop (type F) n k els with
  | Some pos => exists b, els !! pos = Some b /\ Block.type b = type F /\
      occ (type F) (take pos els ++ drop (S pos) els) = delete (Z.to_nat (n - k)) (occ (type F) els) /\
      is_Some (occ (type F) els !! Z.to_nat (n - k))
  | None => occ (type F) els !! Z.to_nat (n - k) = None
  end.
Proof.
  induction els as [|x els IH]; intros n k Hk Hn; [done|]. cbn [remove_loop]. unfold occ. rewrite filter_cons.
  destruct (Z.eqb_spec (Block.type x) (type F)) as [Hx|Hx].
  - rewrite decide_True by done. destruct (Z.eqb_spec k n) as [->|Hne].
    + rewrite Z.sub_diag in *. exists x. split_and!; [done..|by eexists].
    + replace (Z.to_nat (n - k)) with (S (Z.to_nat (n - (k + 1)))) by lia. specialize (IH n (k + 1)).
      destruct (remove_loop _ _ _ _) as [pos|]; cbn [fmap option_fmap option_map]; [|apply IH; lia].
      destruct IH as (b & H1 & H2 & H3 & H4); [lia..|]. exists b. split_and!; [done..| |done].
      cbn [take drop app]. rewrite filter_cons, decide_True by done. cbn. by f_equal.
  - rewrite decide_False by done. specialize (IH n k Hk Hn).
    destruct (remove_loop _ _ _ _) as [pos|]; cbn [fmap option_fmap option_map]; [|done].
    destruct IH as (b & H1 & H2 & H3 & H4). exists b. split_and!; [done..| |done].
    cbn [take drop app]. by rewrite filter_cons, decide_False.
Qed.

Lemma occ_erase ty els pos b : els !! pos = Some b -> Block.type b <> ty ->
  occ ty (take pos els ++ drop (S pos) els) = occ ty els.
Proof.
  intros Hb Hty. unfold occ. rewrite <- (take_drop pos els) at 3. rewrite (NameFacts.drop_lookup els pos b) by done.
  rewrite !list.filter_app, filter_cons, decide_False by done. done.
Qed.

Lemma remove_spec p i : inv p -> 0 <= i ->
  match fields p (type F) !! Z.to_nat i with
  | None => remove F i p = (p, Throw (OutOfRange "lp::Packet::remove: index out of range"))
  | Some _ => exists p', remove F i p = (p', Ok tt) /\ inv p' /\ Block.hasWire (m_wire p') = false /\
      forall ty, fields p' ty = if decide (ty = type F) then delete (Z.to_nat i) (fields p ty) else fields p ty
  end.
Proof.
  intros [Ht Ho] Hi. pose proof (remove_loop_spec (elements p) i 0) as Hr. unfold remove.
  rewrite bindM_self. rewrite Z.sub_0_r in Hr. specialize (Hr ltac:(lia) ltac:(lia)). unfold fields at 1.
  destruct (remove_loop _ _ _ _) as [pos|]; [|by rewrite Hr].
  destruct Hr as (b & Hb & Hty & Hocc & [y ->]). eexists. split; [done|]. split_and!; [split; [done|]|done|].
  - eapply ordered_sublist; [|exact Ho]. unfold elements, Block.elements, Block.erase. cbn [m_wire Block.m_elements Block.resetWire].
    rewrite <- delete_take_drop. apply sublist_delete.
  - intros ty. destruct (decide (ty = type F)) as [->|Hne]; [exact Hocc|].
    apply (occ_erase ty _ _ b); [done|congruence].
Qed.

Lemma get_loop_spec els : forall n k, 0 <= k -> n = k + Z.of_nat (Z.to_nat (n - k)) ->
  get_loop F n k els = match occ (type F) els !! Z.to_nat (n - k) with
                       | Some b => decode F b
                       | None => Throw (OutOfRange "lp::Packet::get: index out of range")
                       end.
Proof.
  induction els as [|x els IH]; intros n k Hk Hn; [done|]. cbn [get_loop]. unfold occ. rewrite filter_cons.
  destruct (Z.eqb_spec (Block.type x) (type F)) as [Hx|Hx]; cbn [negb].
  - rewrite decide_True by done. destruct (Z.eqb_spec k n) as [->|Hne]; [by rewrite Z.sub_diag|].
    replace (Z.to_nat (n - k)) with (S (Z.to_nat (n - (k + 1)))) by lia. cbn. apply IH; lia.
  - rewrite decide_False by done. by apply IH.
Qed.

Lemma get_spec p i : 0 <= i ->
  get F i p = match fields p (type F) !! Z.to_nat i with
              | Some b => decode F b
              | None => Throw (OutOfRange "lp::Packet::get: index out of range")
              end.
Proof. intros Hi. unfold get. rewrite get_loop_spec by lia. by rewrite Z.sub_0_r. Qed.

Lemma list_loop_spec els : forall out,
  list_loop F out els = (l ← mapR (decode F) (occ (type F) els); Ok (out ++ l)).
Proof.
  induction els as [|x els IH]; intros out; cbn [list_loop]; [cbn; by rewrite app_nil_r|].
  unfold occ. rewrite filter_cons. destruct (Z.eqb_spec (Block.type x) (type F)) as [Hx|Hx]; cbn [negb].
  - rewrite decide_True by done. cbn [mapR]. destruct (decode F x) as [v|]; [|done]. cbn [mbind result_bind]. rewrite IH.
    unfold occ. destruct (mapR _ _); [|done]. cbn. by rewrite <- (assoc_L (++)).
  - rewrite decide_False by done. apply IH.
Qed.

Lemma list_spec p : list_ F p = mapR (decode F) (fields p (type F)).
Proof. unfold list_. rewrite list_loop_spec. unfold fields. by destruct (mapR _ _). Qed.

End field.
Lemma keeps_add {V} (F : Decl V) `{FieldLaws V F} v : fits F v -> keeps inv (add F v).
Proof.
  intros Hfit p Hp. destruct (encode F v) as [f|e] eqn:E.
  - destruct (decide (IsRepeatable (traits F) = true \/ fields p (type F) = [])) as [Hr|Hr].
    + destruct (fl_encode _ _ E) as [x Hx].
      destruct (add_accepted F p v f x Hp Hr E Hx (Hfit f x E Hx)) as (p' & -> & Hp' & _). exact Hp'.
    + rewrite add_refused; [done| |naive_solver]. apply not_true_is_false. naive_solver.
  - unfold add. rewrite bindM_self. unfold throwM_if, liftR, throw_if. destruct (_ && _); [done|]. cbn.
    unfold mbind, M_bind. rewrite E. exact Hp.
Qed.

Lemma keeps_clear {V} (F : Decl V) : keeps inv (clear F).
Proof. intros p Hp. destruct (clear_spec F p Hp) as (p' & -> & Hp' & _). exact Hp'. Qed.

Lemma keeps_remove {V} (F : Decl V) i : 0 <= i -> keeps inv (remove F i).
Proof.
  intros Hi p Hp. pose proof (remove_spec F p i Hp Hi) as Hr. destruct (_ !! _).
  - destruct Hr as (p' & -> & Hp' & _). exact Hp'.
  - rewrite Hr. exact Hp.
Qed.

Lemma parsed_type b b' : Block.parsed b = Ok b' -> Block.m_type b' = Block.m_type b.
Proof.
  unfold Block.parsed, Block.parse. destruct (_ || _); [by intros [= <-]|].
  destruct (Block.parse_loop _ _ _) as [els [e|]]; [done|by intros [= <-]].
Qed.

Lemma Encodes_len f x y : Encodes f x -> Encodes f y -> len x = len y.
Proof. intros Hx%estimator_exact Hy%estimator_exact. congruence. Qed.

Lemma fits_fragment (w : bytes) : is_u64 (len w) -> fits FragmentField w.
Proof.
  intros Hw f x [= <-] Hx. pose proof (EncSeq_binary (type FragmentField) w) as Hb. unfold EncSeq in Hx, Hb.
  pose proof (Encodes_len _ _ _ Hx Hb) as E. rewrite !tlv_seq_one, !len_tlv_bytes in E.
  pose proof (sizeOfVarNumber_mono (len w) (len x)). pose proof (len_nonneg x). width. lia.
Qed.

Lemma packet_keeps_wireDecode wire : (forall w, Block.wire wire = Ok w -> is_u64 (len w)) -> keeps inv (wireDecode wire).
Proof.
  intros Hw p Hp. unfold wireDecode. destruct (_ || _).
  - rewrite bindM_modify. destruct (Block.wire wire) as [w|e] eqn:E; [|exact packet_inv_init].
    rewrite (bindM_lift _ _ _ w) by done. exact (keeps_add FragmentField w (fits_fragment w (Hw w eq_refl)) init packet_inv_init).
  - unfold mbind, M_bind, throwM_if, liftR, throw_if.
    destruct (Z.eqb_spec (Block.type wire) lp_tlv.LpPacket) as [Ht|]; [|exact Hp]. cbn [negb].
    destruct (Block.parsed wire) as [b|] eqn:E; [|exact Hp].
    destruct (check_fields None (Block.elements b)) as [[]|] eqn:C; [|exact Hp].
    split; [exact (eq_trans (parsed_type _ _ E) Ht)|]. by apply check_fields_ordered.
Qed.

Lemma encoded_types (els : list Block.t) : Block.type <$> (BlockFacts.encoded <$> els) = Block.type <$> els.
Proof. rewrite <- list_fmap_compose. apply list_fmap_ext. intros i b _. by destruct b as [? [[]|] ? ?]. Qed.

Lemma ordered_types (l k : list Block.t) : Block.type <$> l = Block.type <$> k -> ordered k -> ordered l.
Proof.
  intros E [Hf Hs]. split.
  - apply (Forall_fmap Block.type known). rewrite E. by apply (Forall_fmap Block.type known).
  - revert l E Hf. induction Hs as [|y k Hs IH Hy]; intros l E Hf; [destruct l; [constructor|discriminate E]|].
    destruct l as [|x l]; [discriminate E|]. rewrite !fmap_cons in E. apply (inj2 cons) in E as [Ex E]. apply Forall_cons_iff in Hf as [_ Hf]. constructor; [by apply IH|].
    apply Forall_forall. intros z Hz%list_elem_of_In. apply (list_elem_of_fmap_2 Block.type) in Hz. rewrite E in Hz.
    apply list_elem_of_fmap in Hz as (z' & Ez & Hz'%list_elem_of_In). rewrite Forall_forall in Hy. specialize (Hy z' Hz').
    unfold follows in *. by rewrite Ex, Ez.
Qed.

Lemma inv_encode p : inv p -> inv (mk (Block.encode (m_wire p))).
Proof.
  intros [Ht Ho]. destruct (Block.hasWire (m_wire p)) eqn:E.
  - unfold Block.encode. rewrite E. by destruct p.
  - rewrite BlockFacts.encode_spec by done. destruct p as [[ty [[w v]|] sz els]]; [by split|].
    split; [done|]. eapply ordered_types; [|exact Ho]. apply encoded_types.
Qed.

Lemma packet_keeps_wireEncode : keeps inv wireEncode.
Proof.
  intros p Hp. unfold wireEncode. rewrite bindM_self. pose proof (inv_encode p Hp).
  destruct (elements p) as [|b [|]]; [done| |done]. destruct (_ =? _); [|done].
  unfold mbind, M_bind, liftR. by destruct (Block.parsed b).
Qed.

(** The calls that change a packet. *)
Inductive op : M t unit -> Prop :=
| op_add V (F : Decl V) (HF : FieldLaws F) v : fits F v -> op (add F v)
| op_set V (F : Decl V) (HF : FieldLaws F) v : fits F v -> op (set F v)
| op_clear V (F : Decl V) : op (clear F)
| op_remove V (F : Decl V) i : 0 <= i -> op (remove F i)
| op_decode wire : (forall w, Block.wire wire = Ok w -> is_u64 (len w)) -> op (wireDecode wire)
| op_encode : op (_ ← wireEncode; mret tt).

(** Packets as a program can have them: exceptions may be thrown on the way. *)
Inductive reachable : t -> Prop :=
| reach_init : reachable init
| reach_op m p p' r : reachable p -> op m -> m p = (p', r) -> reachable p'.

Lemma packet_keeps_op m : op m -> keeps inv m.
Proof.
  intros [V F HF v Hv|V F HF v Hv|V F|V F i Hi|wire Hw|].
  - by apply keeps_add.
  - apply keeps_bind; [apply keeps_clear|]. intros _. by apply keeps_add.
  - apply keeps_clear.
  - by apply keeps_remove.
  - by apply packet_keeps_wireDecode.
  - apply keeps_bind; [apply packet_keeps_wireEncode|]. intros _. apply keeps_ret.
Qed.

(** C15: the packet invariant: whatever fields are added, set, removed, cleared or
    decoded, and whatever exceptions are thrown on the way, the elements of a link
    protocol packet are known fields, or unknown ones of the types that may be
    ignored, in the order the protocol asks for, with
    the Fragment last and no field but Ack more than once. *)
Theorem lp_packet_invariant (p : t) (Hp : reachable p) :
  check_fields None (elements p) = Ok tt /\
  (forall ty, ty <> lp_tlv.Ack -> (length (fields p ty) <= 1)%nat) /\
  (forall l b r, elements p = l ++ b :: r -> Block.type b = lp_tlv.Fragment -> r = []).
Proof.
  assert (inv p) as [_ Ho].
  { induction Hp as [|m p p' r _ IH Hm E]; [exact packet_inv_init|]. exact (keeps_run inv m p p' r (packet_keeps_op m Hm) IH E). }
  split_and!; [by apply check_fields_ordered|intros ty; by apply ordered_unique|].
  intros l b r E Hb. rewrite E in Ho. by eapply ordered_fragment.
Qed.

(** C24: a packet in its invariant implements a multimap from field types to
    values, for the declared fields, indices that are not negative, and values
    that the field can carry: of less than 2^64 octets, numbers in range, a Fragment and a PIT token that are not empty (an
    empty one can be set but not read back), a cache policy other than NONE
    (which is refused by an exception), and a prefix announcement whose Data
    decodes as one.  [list] and [get] read the elements of the field, [add]
    appends a value or refuses the second one of a field that cannot be
    repeated, [set] leaves the one value, [clear] none, [remove] deletes the one
    of an index or throws, and none of them touches another field; a value that
    was set reads back. *)
Theorem lp_packet_refines_multimap {V} (F : Decl V) `{HF : FieldLaws V F} (p : t) (v : V) (i : Z)
    (Hp : inv p) (Hv : fl_valid v) (Hsize : is_u64 (len (fl_octets v))) (Hi : 0 <= i) :
  let b := Block.of_tlv (type F) (fl_octets v) in
  list_ F p = mapR (decode F) (fields p (type F)) /\
  get F i p = match fields p (type F) !! Z.to_nat i with
              | Some b => decode F b
              | None => Throw (OutOfRange "lp::Packet::get: index out of range")
              end /\
  (if negb (IsRepeatable (traits F)) && has F p
   then add F v p = (p, Throw (InvalidArgument "lp::Packet::add: field cannot be repeated"))
   else exists p', add F v p = (p', Ok tt) /\ inv p' /\
     forall ty, fields p' ty = fields p ty ++ (if decide (ty = type F) then [b] else [])) /\
  (exists p', set F v p = (p', Ok tt) /\ inv p' /\
     (forall ty, fields p' ty = if decide (ty = type F) then [b] else fields p ty) /\
     exists v', get F 0 p' = Ok v' /\ fl_eqv v v') /\
  (exists p', clear F p = (p', Ok tt) /\ inv p' /\
     forall ty, fields p' ty = if decide (ty = type F) then [] else fields p ty) /\
  match fields p (type F) !! Z.to_nat i with
  | None => remove F i p = (p, Throw (OutOfRange "lp::Packet::remove: index out of range"))
  | Some _ => exists p', remove F i p = (p', Ok tt) /\ inv p' /\
      forall ty, fields p' ty = if decide (ty = type F) then delete (Z.to_nat i) (fields p ty) else fields p ty
  end.
Proof.
  destruct (fl_value v Hv) as (f & Hf & Hx). destruct (clear_spec F p Hp) as (p1 & Hc & Hp1 & _ & Hc1). cbv zeta. split_and!.
  - apply list_spec.
  - by apply get_spec.
  - rewrite has_spec. destruct (IsRepeatable (traits F)) eqn:Er; [|case_bool_decide as Eo]; cbn [negb andb].
    + destruct (add_accepted F p v f _ Hp (or_introl Er) Hf Hx Hsize) as (p' & ? & ? & _ & ?). by exists p'.
    + by apply add_refused.
    + destruct (add_accepted F p v f _ Hp (or_intror Eo) Hf Hx Hsize) as (p' & ? & ? & _ & ?). by exists p'.
  - assert (fields p1 (type F) = []) as He by (by rewrite Hc1, decide_True).
    destruct (add_accepted F p1 v f _ Hp1 (or_intror He) Hf Hx Hsize) as (p' & Ha & Hp' & _ & Hfs).
    exists p'. unfold set. rewrite (bindM_ok _ _ _ _ _ Hc). split_and!; [done..| |].
    + intros ty. rewrite Hfs, Hc1. by destruct (decide (ty = type F)); rewrite ?app_nil_r.
    + destruct (fl_decode v Hv Hsize) as (v' & Hd & Heq). exists v'. split; [|done].
      rewrite get_spec, Hfs, He, decide_True by done. exact Hd.
  - by exists p1.
  - pose proof (remove_spec F p i Hp Hi) as Hr. destruct (_ !! _); [|done]. destruct Hr as (p' & ? & ? & _ & ?). by exists p'.
Qed.

(** The elements a program has put into a packet with [add] and [set]. *)
Definition built (p : t) : Prop :=
  Forall (fun b => b = BlockFacts.of_pair (tv b) /\ BlockFacts.tlv_ok (tv b)) (elements p).

Lemma built_elements p : built p -> elements p = BlockFacts.of_pair <$> (tv <$> elements p).
Proof.
  unfold built. intros Hb. rewrite <- list_fmap_compose. rewrite <- (list_fmap_id (elements p)) at 1.
  apply Forall_fmap_ext. eapply Forall_impl; [|exact Hb]. by intros b [Hb' _].
Qed.

Lemma encoding_built (els : list Block.t) : Forall (fun b => b = BlockFacts.of_pair (tv b) /\ BlockFacts.tlv_ok (tv b)) els ->
  mjoin (BlockFacts.encoding <$> els) = BlockFacts.tlv_seq (tv <$> els).
Proof.
  intros Hb. unfold BlockFacts.tlv_seq. rewrite <- list_fmap_compose. f_equal.
  apply Forall_fmap_ext. eapply Forall_impl; [|exact Hb]. cbn beta. intros b [-> _]. done.
Qed.

(** The packet with a header, and the bare one. *)
Lemma headed_roundtrip p p0 : inv p -> built p -> Block.hasValue (m_wire p) = false ->
  is_u64 (len (BlockFacts.tlv_seq (tv <$> elements p))) ->
  (forall b, elements p = [b] -> Block.type b <> lp_tlv.Fragment) ->
  let w := tlv_bytes lp_tlv.LpPacket (BlockFacts.tlv_seq (tv <$> elements p)) in
  exists p' b b' p'', wireEncode p = (p', Ok (Some b)) /\ Block.wire b = Ok w /\ Block.fromSpan w = Ok b' /\
    wireDecode b' p0 = (p'', Ok tt) /\ elements p'' = elements p.
Proof.
  intros [Ht Ho] Hb Hw Hs Hne. cbv zeta. set (l := tv <$> elements p) in *.
  assert (Forall BlockFacts.tlv_ok l) as Hl.
  { unfold l. apply Forall_fmap. eapply Forall_impl; [|exact Hb]. by intros x [_ Hx]. }
  exists (mk (Block.encode (m_wire p))), (Block.encode (m_wire p)), (seq_block lp_tlv.LpPacket l), (mk (parsed_block lp_tlv.LpPacket l)).
  split_and!.
  - unfold wireEncode. rewrite bindM_self. destruct (elements p) as [|x [|]]; [done| |done].
    by rewrite (proj2 (Z.eqb_neq _ (type FragmentField))) by (by apply Hne).
  - destruct p as [[ty [buf|] sz els]]; [done|]. cbn in Ht. subst ty. rewrite BlockFacts.encode_spec by done.
    cbn [m_wire BlockFacts.encoded]. rewrite BlockFacts.encoding_unfold.
    unfold BlockFacts.encoded_value. cbn [Block.m_buf Block.m_type Block.m_elements].
    rewrite encoding_built by exact Hb. unfold Block.wire, Block.hasWire. cbn [Block.m_buf].
    pose proof (tlv_bytes_nonempty lp_tlv.LpPacket (BlockFacts.tlv_seq l) []) as Hn. rewrite app_nil_r in Hn.
    change (tv <$> els) with l. by destruct (tlv_bytes _ _).
  - apply BlockFacts.fromSpan_of_tlv; [by vm_compute|done].
  - unfold wireDecode. change ((Block.type (seq_block lp_tlv.LpPacket l) =? tlv.Interest) || _) with false. cbv iota.
    rewrite bindM_pass by done. unfold seq_block. rewrite (bindM_lift _ _ _ _ (BlockFacts.parsed_of_tlv lp_tlv.LpPacket l Hl)).
    rewrite (bindM_lift _ _ _ tt); [done|]. apply check_fields_ordered. change (Block.elements _) with (BlockFacts.of_pair <$> l).
    unfold l. by rewrite <- built_elements.
  - change (elements (mk (parsed_block lp_tlv.LpPacket l))) with (BlockFacts.of_pair <$> l). symmetry. by apply built_elements.
Qed.

Lemma bare_roundtrip p p0 ty v : ty = tlv.Interest \/ ty = tlv.Data -> is_u64 (len v) -> is_u64 (len (tlv_bytes ty v)) ->
  elements p = [Block.of_tlv lp_tlv.Fragment (tlv_bytes ty v)] ->
  wireEncode p = (p, Ok (Some (Block.of_tlv ty v))) /\
  exists p'', wireDecode (Block.of_tlv ty v) p0 = (p'', Ok tt) /\ elements p'' = elements p.
Proof.
  intros Hty Hv Hl He. assert (is_tlv_type ty) as Hok by (destruct Hty as [-> | ->]; by vm_compute). split.
  - unfold wireEncode. rewrite bindM_self, He. change (Block.type _ =? _) with true. cbv iota.
    pose proof (BlockFacts.parsed_of_tlv lp_tlv.Fragment [(ty, v)]) as HP. rewrite tlv_seq_one in HP.
    rewrite (bindM_lift _ _ _ _ (HP ltac:(constructor; [by split|constructor]))). done.
  - assert ((Block.type (Block.of_tlv ty v) =? tlv.Interest) || (Block.type (Block.of_tlv ty v) =? tlv.Data) = true) as Hb
      by (by destruct Hty as [-> | ->]).
    unfold wireDecode. rewrite Hb.
    rewrite bindM_modify, (bindM_lift _ _ _ _ (ComponentFacts.wire_of_tlv ty v)).
    unfold add. rewrite bindM_self, bindM_pass by done.
    rewrite (bindM_lift (encode FragmentField _) _ _ _ eq_refl).
    rewrite (bindM_lift _ _ _ (Block.of_tlv lp_tlv.Fragment (tlv_bytes ty v))).
    + eexists. split; [done|]. by rewrite He.
    + apply makeBlock_tlv; [apply Encodes_binaryBlock|by vm_compute|done].
Qed.

(** A packet survives the wire: a packet whose fields were put in with [add]
    and [set], other than a lone Fragment, encodes to one LpPacket element with
    the fields in order, and decoding these octets, into any packet object, gives
    the same fields; a packet that is nothing but a Fragment holding an Interest
    or Data is sent as that bare packet, and decoding the bare packet gives the
    Fragment back. *)
Theorem lp_packet_wire_roundtrip (p p0 : t) (Hp : inv p) (Hb : built p)
    (Hw : Block.hasValue (m_wire p) = false) (Hs : is_u64 (len (BlockFacts.tlv_seq (tv <$> elements p)))) :
  let w := tlv_bytes lp_tlv.LpPacket (BlockFacts.tlv_seq (tv <$> elements p)) in
  ((forall b, elements p = [b] -> Block.type b <> lp_tlv.Fragment) ->
   exists p' b b' p'', wireEncode p = (p', Ok (Some b)) /\ Block.wire b = Ok w /\ Block.fromSpan w = Ok b' /\
     wireDecode b' p0 = (p'', Ok tt) /\ elements p'' = elements p) /\
  (forall ty v, ty = tlv.Interest \/ ty = tlv.Data -> is_u64 (len v) ->
     elements p = [Block.of_tlv lp_tlv.Fragment (tlv_bytes ty v)] ->
     wireEncode p = (p, Ok (Some (Block.of_tlv ty v))) /\
     exists p'', wireDecode (Block.of_tlv ty v) p0 = (p'', Ok tt) /\ elements p'' = elements p).
Proof.
  cbv zeta. split; [intros Hne; by apply headed_roundtrip|]. intros ty v Hty Hv He. apply bare_roundtrip; [done..| |done].
  unfold built in Hb. rewrite He in Hb. by apply Forall_cons_iff in Hb as [[_ [_ Hb]] _].
Qed.

(** *** Witnesses *)

Definition after (m : M t unit) (p : t) : t := fst (m p).

Definition sample_packet : t :=
  after (add AckField 6) (after (add AckField 7) (after (set FragIndexField 3) (after (add FragmentField (str "abc")) init))).

Lemma reach_after m p : reachable p -> op m -> reachable (after m p).
Proof. intros Hp Hm. apply (reach_op m p _ (snd (m p))); [done..|]. unfold after. by destruct (m p). Qed.

Lemma sample_packet_reachable : reachable sample_packet.
Proof.
  assert (forall n, fits AckField n) as Ha.
  { intros n f x [= <-] Hx. pose proof (Encodes_len _ _ _ Hx (EncSeq_binary (type AckField) (be_bytes 8 n))) as E.
    unfold EncSeq in *. rewrite !tlv_seq_one, !len_tlv_bytes, len_be_bytes in E.
    pose proof (sizeOfVarNumber_mono 8 (len x)). pose proof (len_nonneg x). change (Z.of_nat 8) with 8 in E. width. lia. }
  assert (fits FragIndexField 3) as Hi.
  { intros f x [= <-] Hx. pose proof (Encodes_len _ _ _ Hx (EncSeq_nni (type FragIndexField) 3)) as E.
    unfold EncSeq in *. rewrite !tlv_seq_one, !len_tlv_bytes in E. change (len (tlv.writeNonNegativeInteger 3)) with 1 in E.
    pose proof (sizeOfVarNumber_mono 1 (len x)). pose proof (len_nonneg x). width. lia. }
  assert (fits FragmentField (str "abc")) as Hf by (apply fits_fragment; by vm_compute).
  unfold sample_packet.
  apply reach_after; [|exact (op_add Z AckField _ 6 (Ha 6))].
  apply reach_after; [|exact (op_add Z AckField _ 7 (Ha 7))].
  apply reach_after; [|exact (op_set Z FragIndexField _ 3 Hi)].
  apply reach_after; [exact reach_init|exact (op_add bytes FragmentField _ (str "abc") Hf)].
Qed.

Lemma sample_packet_types : Block.type <$> elements sample_packet = [82; 836; 836; 80].
Proof. vm_compute. reflexivity. Qed.

Lemma lp_packet_invariant_witness : check_fields None (elements sample_packet) = Ok tt.
Proof. exact (proj1 (lp_packet_invariant sample_packet sample_packet_reachable)). Defined.

Lemma inv_check p : Block.m_type (m_wire p) = lp_tlv.LpPacket -> check_fields None (elements p) = Ok tt -> inv p.
Proof. intros H1 H2. split; [done|]. by apply check_fields_ordered. Qed.

Lemma lp_packet_refines_multimap_witness : exists p',
  set CongestionMarkField 1 sample_packet = (p', Ok tt) /\ get CongestionMarkField 0 p' = Ok 1.
Proof.
  destruct (lp_packet_refines_multimap CongestionMarkField sample_packet 1 0) as (_ & _ & _ & (p' & Hs & _ & _ & v' & Hg & Hv) & _).
  - apply inv_check; vm_compute; reflexivity.
  - change (is_u64 1). width. lia.
  - by vm_compute.
  - lia.
  - exists p'. split; [exact Hs|]. change (1 = v') in Hv. rewrite Hv. exact Hg.
Defined.

Lemma built_intro p l : elements p = BlockFacts.of_pair <$> l -> Forall BlockFacts.tlv_ok l -> built p.
Proof.
  intros He Hl. unfold built. rewrite He. apply Forall_fmap. eapply Forall_impl; [|exact Hl].
  intros x Hx. cbn beta. change ((compose _ _) x) with
    (BlockFacts.of_pair x = BlockFacts.of_pair (tv (BlockFacts.of_pair x)) /\ BlockFacts.tlv_ok (tv (BlockFacts.of_pair x))).
  by rewrite tv_of_pair.
Qed.

Lemma sample_built : built sample_packet.
Proof.
  apply (built_intro _ [(82, [z2b 3]); (836, be_bytes 8 7); (836, be_bytes 8 6); (80, str "abc")]).
  - vm_compute. reflexivity.
  - repeat (constructor; [split; by vm_compute|]). constructor.
Qed.

Lemma lp_packet_wire_roundtrip_witness : exists p' b b' p'',
  wireEncode sample_packet = (p', Ok (Some b)) /\
  Block.fromSpan (tlv_bytes 100 (BlockFacts.tlv_seq (tv <$> elements sample_packet))) = Ok b' /\
  wireDecode b' init = (p'', Ok tt) /\ elements p'' = elements sample_packet.
Proof.
  destruct (lp_packet_wire_roundtrip sample_packet init) as [H _].
  - apply inv_check; vm_compute; reflexivity.
  - exact sample_built.
  - reflexivity.
  - by vm_compute.
  - destruct H as (p' & b & b' & p'' & H1 & _ & H2 & H3 & H4).
    + intros b Hb. exfalso. pose proof sample_packet_types as Ht. rewrite Hb in Ht. discriminate Ht.
    + exists p', b, b', p''. exact (conj H1 (conj H2 (conj H3 H4))).
Defined.

(** A Fragment with an Interest and more behind it. *)
Definition two_elements : bytes := tlv_bytes tlv.Interest (str "x") ++ tlv_bytes tlv.Data (str "y").

(** A packet that has only a Fragment is always sent bare: if the Fragment
    holds more than one element, all but the first are lost; if it holds a piece
    of a packet that is no whole element, encoding throws; and for an empty
    Fragment [front()] is called on an empty container. *)
Theorem lp_lone_fragment :
  let lone w := after (add FragmentField w) init in
  (forall w, w = two_elements \/ w = str "abc" \/ w = [] -> snd (add FragmentField w init) = Ok tt) /\
  get FragmentField 0 (lone two_elements) = Ok two_elements /\
  snd (wireEncode (lone two_elements)) = Ok (Some (Block.of_tlv tlv.Interest (str "x"))) /\
  is_Ok (snd (wireEncode (lone (str "abc")))) = false /\
  snd (wireEncode (lone [])) = Ok None.
Proof.
  cbv zeta. split; [intros w [-> |[-> | ->]]; vm_compute; reflexivity|].
  split; [vm_compute; reflexivity|]. split; [vm_compute; reflexivity|]. split; vm_compute; reflexivity.
Qed.

End LinkTheorems.
