(* ===== verification/FaceTables.v ===== *)
(** * The tables of a face

    The tags of packets ([detail/tag-host.hpp], [impl/lp-field-tag.hpp]), the
    container of records ([impl/record-container.hpp]), Interest filters
    ([interest-filter.cpp]), and the records of a face: pending Interests,
    Interest filters with their callbacks, registered prefixes ([impl/*.hpp]). *)

From stdpp Require Import list.
From S2P Require Import Prelude Tlv Encoding Blocks BlockHelpers Text NameComponents Names NameRegex.
From S2P Require Import Fields DataPacket InterestPacket LinkProtocol.

(** ** Tags *)

Module TagHost.

(** [ndn-cxx/detail/tag-host.hpp:61-61] TagHost::m_tags
    The map from type numbers, with a place for each of the tags the face
    knows ([lp/tags.hpp]). *)
Record t := mk {
  IncomingFaceIdTag : option Z;
  NextHopFaceIdTag : option Z;
  CachePolicyTag : option CachePolicy.t;
  CongestionMarkTag : option Z;
}.

Definition none : t := mk None None None None.

(** [ndn-cxx/impl/lp-field-tag.hpp:30-38] addFieldFromTag *)
Definition addFieldFromTag {V} (F : Field.Decl V) (tag : option V) : M lp_Packet.t unit :=
  match tag with
  | Some v => lp_Packet.add F v
  | None => mret tt
  end.

(** [ndn-cxx/impl/lp-field-tag.hpp:40-47] addTagFromField *)
Definition addTagFromField {V} (F : Field.Decl V) (lpPacket : lp_Packet.t) : result (option V) :=
  if lp_Packet.has F lpPacket then v ← lp_Packet.get F 0 lpPacket; Ok (Some v) else Ok None.

(** [ndn-cxx/face.cpp:300-309] extractLpLocalFields
    The packet is fresh, it has no tags yet. *)
Definition extractLpLocalFields (lpPacket : lp_Packet.t) : result t :=
  incoming ← addTagFromField Field.IncomingFaceIdField lpPacket;
  mark ← addTagFromField Field.CongestionMarkField lpPacket;
  Ok (mk incoming None None mark).

End TagHost.

(** A packet and its tags. *)
Record tagged (A : Type) := Tagged { untag : A; tags : TagHost.t }.
Arguments Tagged {A} _ _.
Arguments untag {A} _.
Arguments tags {A} _.

(** ** The container of records *)

Module RecordContainer.
Section container.
Context {T : Type}.

(** [ndn-cxx/impl/record-container.hpp:193-195] RecordContainer
    The [std::map] as the list of its entries in ascending order of the ids. *)
Record t := mk { m_container : list (Z * T); m_lastId : Z }.

Definition init : t := mk [] 0.
Definition with_container (l : list (Z * T)) (c : t) : t := mk l (m_lastId c).

(** [std::map::find] and [std::map::emplace] *)
Fixpoint find (id : Z) (l : list (Z * T)) : option T :=
  match l with
  | [] => None
  | (k, x) :: l => if k =? id then Some x else find id l
  end.

Fixpoint emplace (id : Z) (x : T) (l : list (Z * T)) : list (Z * T) :=
  match l with
  | [] => [(id, x)]
  | (k, y) :: l' => if id <? k then (id, x) :: l else if id =? k then l else (k, y) :: emplace id x l'
  end.

(** Changing a record through a reference to it. *)
Definition update (id : Z) (f : T -> T) (c : t) : t :=
  with_container (map (fun p => if p.1 =? id then (p.1, f p.2) else p) (m_container c)) c.

(** [ndn-cxx/impl/record-container.hpp:80-90] RecordContainer::get *)
Definition get (id : Z) (c : t) : option T := find id (m_container c).

(** [ndn-cxx/impl/record-container.hpp:92-107] RecordContainer::put
    [None]: one of the two assertions fails. *)
Definition put (id : Z) (x : T) (c : t) : option t :=
  if id =? 0 then None
  else match get id c with
       | Some _ => None
       | None => Some (with_container (emplace id x (m_container c)) c)
       end.

(** [ndn-cxx/impl/record-container.hpp:109-113] RecordContainer::allocateId
    [None]: the 64-bit counter wraps around, which takes 2^64 calls. *)
Definition allocateId (c : t) : option (Z * t) :=
  if m_lastId c =? UINT64_MAX then None else Some (m_lastId c + 1, mk (m_container c) (m_lastId c + 1)).

(** [ndn-cxx/impl/record-container.hpp:176-180] RecordContainer::empty *)
Definition empty (c : t) : bool := match m_container c with [] => true | _ => false end.

(** [ndn-cxx/impl/record-container.hpp:182-186] RecordContainer::size *)
Definition size (c : t) : Z := len (m_container c).

(** [ndn-cxx/impl/record-container.hpp:124-131] RecordContainer::erase (the map)
    Whoever calls it emits [onEmpty]. *)
Definition erase (id : Z) (c : t) : t :=
  with_container (List.filter (fun p => negb (p.1 =? id)) (m_container c)) c.

(** [ndn-cxx/impl/record-container.hpp:144-160] RecordContainer::removeIf (the loop)
    The visitor changes the record and what else it can reach, and returns
    whether to erase the record.  If it throws, the records behind it are not
    visited and its own stays. *)
Fixpoint removeIf {S} (f : Z -> T -> S -> option (T * S * result bool)) (l : list (Z * T)) (s : S) : option (list (Z * T) * S * result unit) :=
  match l with
  | [] => Some ([], s, Ok tt)
  | (id, x) :: l =>
      match f id x s with
      | Some (x, s, Throw e) => Some ((id, x) :: l, s, Throw e)
      | Some (x, s, Ok wantErase) =>
          match removeIf f l s with
          | Some (l, s, r) => Some (if wantErase : bool then l else (id, x) :: l, s, r)
          | None => None
          end
      | None => None
      end
  end.

End container.
Arguments t : clear implicits.
End RecordContainer.

(** ** Interest filters *)

Module InterestFilter.
Section filters.
Context `{StdRegex}.

(** [ndn-cxx/interest-filter.hpp:144-147] InterestFilter
    The matcher with the objects of its tree. *)
Record t := mk {
  m_prefix : Name.t;
  m_regexFilter : option (regex.matcher * regex.objects);
  m_allowsLoopback : bool;
}.

(** [ndn-cxx/interest-filter.cpp:27-30] InterestFilter::InterestFilter(const Name&) *)
Definition ofName (prefix : Name.t) : t := mk prefix None true.

(** [ndn-cxx/interest-filter.cpp:37-40] InterestFilter::InterestFilter(const std::string&)
    Also [const char*], lines 32-35. *)
Definition ofUri (prefixUri : bytes) : result t := n ← Name.fromUri prefixUri; Ok (ofName n).

(** [ndn-cxx/interest-filter.cpp:42-46] InterestFilter::InterestFilter(const Name&, const std::string&) *)
Definition ofRegex (prefix : Name.t) (regexFilter : bytes) : option (result t) :=
  match regex.compileTree regexFilter with
  | Some (Ok m) => Some (Ok (mk prefix (Some m) true))
  | Some (Throw e) => Some (Throw e)
  | None => None
  end.

(** [ndn-cxx/interest-filter.hpp:112-116] InterestFilter::hasRegexFilter *)
Definition hasRegexFilter (f : t) : bool := match m_regexFilter f with Some _ => true | None => false end.

(** [ndn-cxx/interest-filter.cpp:48-55] InterestFilter::operator const Name& *)
Definition toName (f : t) : result Name.t :=
  _ ← throw_if (hasRegexFilter f) (RuntimeError "Please update InterestCallback to accept `const InterestFilter&'");
  Ok (m_prefix f).

(** [ndn-cxx/interest-filter.hpp:137-142] InterestFilter::allowLoopback *)
Definition allowLoopback (wantLoopback : bool) (f : t) : t := mk (m_prefix f) (m_regexFilter f) wantLoopback.

(** [ndn-cxx/interest-filter.cpp:57-63] InterestFilter::doesMatch
    Matching changes the match results of the matcher.  The depth of recursion
    is bounded by the number of components. *)
Definition doesMatch (env : option bytes) (name : Name.t) : P t bool := fun f =>
  if Name.isPrefixOf (m_prefix f) name then
    match m_regexFilter f with
    | None => Some (f, Ok true)
    | Some (m, s) =>
        match regex.match_ env (S (length (Name.components name))) name m
                (Z.to_nat (Name.size (m_prefix f))) (Z.to_nat (Name.size name - Name.size (m_prefix f))) s with
        | Some (s, r) => Some (mk (m_prefix f) (Some (m, s)) (m_allowsLoopback f), r)
        | None => None
        end
    end
  else Some (f, Ok false).

End filters.
Arguments t {_}.
End InterestFilter.

(** ** Pending Interests *)

Module PendingInterest.
Section pending.
Context {callback : Type}.

(** [ndn-cxx/impl/pending-interest.hpp:37-41] PendingInterestOrigin *)
Inductive PendingInterestOrigin := APP | FORWARDER.

#[global] Instance origin_eq_dec : EqDecision PendingInterestOrigin.
Proof. solve_decision. Defined.

(** [ndn-cxx/impl/pending-interest.hpp:175-183] PendingInterest
    [m_timeoutEvent] is when the scheduled event expires; [None] once it has
    been executed. *)
Record t := mk {
  m_interest : tagged Interest.t;
  m_origin : PendingInterestOrigin;
  m_dataCallback : option callback;
  m_nackCallback : option callback;
  m_timeoutCallback : option callback;
  m_timeoutEvent : option Z;
  m_nNotNacked : Z;
  m_leastSevereNack : option (tagged Nack.t);
}.

Definition with_interest x e := mk x (m_origin e) (m_dataCallback e) (m_nackCallback e) (m_timeoutCallback e) (m_timeoutEvent e) (m_nNotNacked e) (m_leastSevereNack e).
Definition with_timeoutEvent x e := mk (m_interest e) (m_origin e) (m_dataCallback e) (m_nackCallback e) (m_timeoutCallback e) x (m_nNotNacked e) (m_leastSevereNack e).
Definition with_nNotNacked x e := mk (m_interest e) (m_origin e) (m_dataCallback e) (m_nackCallback e) (m_timeoutCallback e) (m_timeoutEvent e) x (m_leastSevereNack e).
Definition with_leastSevereNack x e := mk (m_interest e) (m_origin e) (m_dataCallback e) (m_nackCallback e) (m_timeoutCallback e) (m_timeoutEvent e) (m_nNotNacked e) x.

(** [ndn-cxx/impl/pending-interest.hpp:154-160] PendingInterest::scheduleTimeoutEvent
    When the event expires. *)
Definition scheduleTimeoutEvent (now : Z) (interest : Interest.t) : option Z := Some (now + Interest.m_interestLifetime interest).

(** [ndn-cxx/impl/pending-interest.hpp:67-77] PendingInterest::PendingInterest (from the application) *)
Definition ofApp (now : Z) (interest : tagged Interest.t) (dataCallback nackCallback timeoutCallback : option callback) : t :=
  mk interest APP dataCallback nackCallback timeoutCallback (scheduleTimeoutEvent now (untag interest)) 0 None.

(** [ndn-cxx/impl/pending-interest.hpp:82-87] PendingInterest::PendingInterest (from the forwarder) *)
Definition ofForwarder (now : Z) (interest : tagged Interest.t) : t :=
  mk interest FORWARDER None None None (scheduleTimeoutEvent now (untag interest)) 0 None.

(** [ndn-cxx/impl/pending-interest.hpp:106-110] PendingInterest::recordForwarding *)
Definition recordForwarding (e : t) : t := with_nNotNacked (m_nNotNacked e + 1) e.

(** [ndn-cxx/impl/pending-interest.hpp:117-128] PendingInterest::recordNack
    [None]: the assertion fails. *)
Definition recordNack (nack : tagged Nack.t) (e : t) : option (t * option (tagged Nack.t)) :=
  let e := with_nNotNacked (m_nNotNacked e - 1) e in
  if m_nNotNacked e <? 0 then None
  else
    let less := match m_leastSevereNack e with
                | None => true
                | Some old => NackHeader.isLessSevere (Nack.getReason (untag nack)) (Nack.getReason (untag old))
                end in
    let e := if less then with_leastSevereNack (Some nack) e else e in
    Some (e, if 0 <? m_nNotNacked e then None else m_leastSevereNack e).

End pending.
Arguments t : clear implicits.
End PendingInterest.

(** ** Interest filters with their callbacks, and registered prefixes *)

Module InterestFilterRecord.
Section records.
Context `{StdRegex} {callback : Type}.

(** [ndn-cxx/impl/interest-filter-record.hpp:77-79] InterestFilterRecord *)
Record t := mk { m_filter : InterestFilter.t; m_interestCallback : option callback }.

(** [ndn-cxx/impl/interest-filter-record.hpp:58-63] InterestFilterRecord::doesMatch *)
Definition doesMatch (env : option bytes) (entry : PendingInterest.t callback) : P t bool := fun r =>
  if bool_decide (PendingInterest.m_origin entry = PendingInterest.FORWARDER) || InterestFilter.m_allowsLoopback (m_filter r) then
    match InterestFilter.doesMatch env (Interest.m_name (untag (PendingInterest.m_interest entry))) (m_filter r) with
    | Some (f, b) => Some (mk f (m_interestCallback r), b)
    | None => None
    end
  else Some (r, Ok false).

End records.
Arguments t {_} _.
End InterestFilterRecord.

Module RegisteredPrefix.

(** [ndn-cxx/impl/registered-prefix.hpp:62-65] RegisteredPrefix
    The options of the command are kept for the controller only. *)
Record t := mk { m_prefix : Name.t; m_filterId : Z }.

End RegisteredPrefix.
