(* ===== verification/SegmentFetcher.v ===== *)
(** * The segment fetcher

    [util/segment-fetcher]: retrieves the segments of an object over a face,
    with a congestion window, retransmission and validation of every segment,
    and hands them to the application as one buffer or in order.

    What the fetcher shares with its surroundings is part of the state: the
    Interests the face still holds for it, the events of its scheduler, the
    validations under way, the clock, and the signals emitted so far, which is
    what the application sees.  An [event] is what the surroundings do to it;
    [handle] is the callback that runs.  The application may call [stop] from
    any of its signal handlers. *)

From stdpp Require Import list gmap sorting.
From S2P Require Import Prelude Tlv Encoding Blocks BlockHelpers Text NameComponents Names NameRegex Fields DataPacket InterestPacket.
From S2P Require Import LinkProtocol FaceTables RttEstimator.

Module SegmentFetcher.

(** [ndn-cxx/util/segment-fetcher.hpp:86-97] SegmentFetcher::ErrorCode *)
Definition INTEREST_TIMEOUT : Z := 1.
Definition DATA_HAS_NO_SEGMENT : Z := 2.
Definition SEGMENT_VALIDATION_FAIL : Z := 3.
Definition NACK_ERROR : Z := 4.
Definition FINALBLOCKID_NOT_SEGMENT : Z := 5.

(** [ndn-cxx/util/segment-fetcher.hpp:99-124] SegmentFetcher::Options
    The two durations are in milliseconds. *)
Record Options := mkOptions {
  interestLifetime : Z;
  maxTimeout : Z;
  inOrder : bool;
  useConstantInterestTimeout : bool;
  useConstantCwnd : bool;
  disableCwa : bool;
  resetCwndToInit : bool;
  ignoreCongMarks : bool;
  initCwnd : Double.t;
  initSsthresh : Double.t;
  aiStep : Double.t;
  mdCoef : Double.t;
  rttOptions : RttEstimator.Options;
  flowControlWindow : Z;
}.

(** The default member initializers, in either mode. *)
Definition defaultOptions (inOrder : bool) : Options :=
  mkOptions 4000 60000 inOrder false false false false false (Double.ofZ 1) Double.largest (Double.ofZ 1) (Double.ofRatio 1 1)
    RttEstimator.defaultOptions 25000.

(** [ndn-cxx/util/segment-fetcher.cpp:41-59] SegmentFetcher::Options::validate *)
Definition validate (o : Options) : result unit :=
  _ ← throw_if (maxTimeout o <? 1) (InvalidArgument "maxTimeout must be greater than or equal to 1 millisecond");
  _ ← throw_if (Double.lt (initCwnd o) (Double.ofZ 1)) (InvalidArgument "initCwnd must be greater than or equal to 1");
  _ ← throw_if (Double.lt (aiStep o) (Double.ofZ 0)) (InvalidArgument "aiStep must be greater than or equal to 0");
  throw_if (Double.lt (mdCoef o) (Double.ofZ 0) || Double.lt (Double.ofZ 1) (mdCoef o)) (InvalidArgument "mdCoef must be in range [0, 1]").

(** [ndn-cxx/util/segment-fetcher.hpp:277-281] SegmentFetcher::SegmentState *)
Inductive SegmentState := FirstInterest | InRetxQueue | Retransmitted.

#[export] Instance SegmentState_eq_dec : EqDecision SegmentState.
Proof. solve_decision. Defined.

(** [ndn-cxx/util/segment-fetcher.hpp:283-290] SegmentFetcher::PendingSegment
    [hdl] and [timeoutEvent] are the numbers of the Interest and of the event
    that are cancelled with the object; [node] tells the objects that were
    under the same key apart, it stands for the address. *)
Record PendingSegment := mkPending {
  state : SegmentState;
  sendTime : Z;
  hdl : nat;
  timeoutEvent : nat;
  node : nat;
}.

(** [ndn-cxx/util/segment-fetcher.hpp:221-274] SegmentFetcher (the signals) *)
Inductive signal :=
  | afterSegmentReceived (data : tagged Data.t)
  | afterSegmentValidated (data : tagged Data.t)
  | afterSegmentNacked
  | afterSegmentTimedOut
  | onComplete (buffer : bytes)
  | onError (code : Z)
  | onInOrderData (buffer : bytes)
  | onInOrderComplete.

(** A validation under way: what its callbacks capture. *)
Record Validation := mkValidation {
  v_data : tagged Data.t;
  v_interest : Interest.t;
  v_segment : Z;
  v_node : nat;
}.

(** [ndn-cxx/util/segment-fetcher.hpp:292-320] SegmentFetcher
    [m_this] holds as long as the fetcher keeps itself alive; from [m_face] on
    the fields are shared with the surroundings.  The clock is in nanoseconds. *)
Record t := mk {
  m_this : bool;
  m_options : Options;
  m_rttEstimator : RttEstimator.t;
  m_timeLastSegmentReceived : Z;
  m_retxQueue : list Z;
  m_versionedDataName : Name.t;
  m_nextSegmentNum : Z;
  m_cwnd : Double.t;
  m_ssthresh : Double.t;
  m_nSegmentsInFlight : Z;
  m_nSegments : Z;
  m_highInterest : Z;
  m_highData : Z;
  m_recPoint : Z;
  m_nReceived : Z;
  m_nBytesReceived : Z;
  m_nextSegmentInOrder : Z;
  m_segmentBuffer : gmap Z bytes;
  m_pendingSegments : gmap Z PendingSegment;
  m_receivedSegments : gset Z;
  m_face : gmap nat Interest.t;
  m_timers : gmap nat (Z * Interest.t);
  m_validations : gmap nat Validation;
  m_clock : Z;
  m_signals : list signal;
  m_next : nat;
}.

Definition with_this x s := mk x (m_options s) (m_rttEstimator s) (m_timeLastSegmentReceived s) (m_retxQueue s) (m_versionedDataName s) (m_nextSegmentNum s) (m_cwnd s) (m_ssthresh s) (m_nSegmentsInFlight s) (m_nSegments s) (m_highInterest s) (m_highData s) (m_recPoint s) (m_nReceived s) (m_nBytesReceived s) (m_nextSegmentInOrder s) (m_segmentBuffer s) (m_pendingSegments s) (m_receivedSegments s) (m_face s) (m_timers s) (m_validations s) (m_clock s) (m_signals s) (m_next s).
Definition with_rttEstimator x s := mk (m_this s) (m_options s) x (m_timeLastSegmentReceived s) (m_retxQueue s) (m_versionedDataName s) (m_nextSegmentNum s) (m_cwnd s) (m_ssthresh s) (m_nSegmentsInFlight s) (m_nSegments s) (m_highInterest s) (m_highData s) (m_recPoint s) (m_nReceived s) (m_nBytesReceived s) (m_nextSegmentInOrder s) (m_segmentBuffer s) (m_pendingSegments s) (m_receivedSegments s) (m_face s) (m_timers s) (m_validations s) (m_clock s) (m_signals s) (m_next s).
Definition with_timeLastSegmentReceived x s := mk (m_this s) (m_options s) (m_rttEstimator s) x (m_retxQueue s) (m_versionedDataName s) (m_nextSegmentNum s) (m_cwnd s) (m_ssthresh s) (m_nSegmentsInFlight s) (m_nSegments s) (m_highInterest s) (m_highData s) (m_recPoint s) (m_nReceived s) (m_nBytesReceived s) (m_nextSegmentInOrder s) (m_segmentBuffer s) (m_pendingSegments s) (m_receivedSegments s) (m_face s) (m_timers s) (m_validations s) (m_clock s) (m_signals s) (m_next s).
Definition with_retxQueue x s := mk (m_this s) (m_options s) (m_rttEstimator s) (m_timeLastSegmentReceived s) x (m_versionedDataName s) (m_nextSegmentNum s) (m_cwnd s) (m_ssthresh s) (m_nSegmentsInFlight s) (m_nSegments s) (m_highInterest s) (m_highData s) (m_recPoint s) (m_nReceived s) (m_nBytesReceived s) (m_nextSegmentInOrder s) (m_segmentBuffer s) (m_pendingSegments s) (m_receivedSegments s) (m_face s) (m_timers s) (m_validations s) (m_clock s) (m_signals s) (m_next s).
Definition with_versionedDataName x s := mk (m_this s) (m_options s) (m_rttEstimator s) (m_timeLastSegmentReceived s) (m_retxQueue s) x (m_nextSegmentNum s) (m_cwnd s) (m_ssthresh s) (m_nSegmentsInFlight s) (m_nSegments s) (m_highInterest s) (m_highData s) (m_recPoint s) (m_nReceived s) (m_nBytesReceived s) (m_nextSegmentInOrder s) (m_segmentBuffer s) (m_pendingSegments s) (m_receivedSegments s) (m_face s) (m_timers s) (m_validations s) (m_clock s) (m_signals s) (m_next s).
Definition with_nextSegmentNum x s := mk (m_this s) (m_options s) (m_rttEstimator s) (m_timeLastSegmentReceived s) (m_retxQueue s) (m_versionedDataName s) x (m_cwnd s) (m_ssthresh s) (m_nSegmentsInFlight s) (m_nSegments s) (m_highInterest s) (m_highData s) (m_recPoint s) (m_nReceived s) (m_nBytesReceived s) (m_nextSegmentInOrder s) (m_segmentBuffer s) (m_pendingSegments s) (m_receivedSegments s) (m_face s) (m_timers s) (m_validations s) (m_clock s) (m_signals s) (m_next s).
Definition with_cwnd x s := mk (m_this s) (m_options s) (m_rttEstimator s) (m_timeLastSegmentReceived s) (m_retxQueue s) (m_versionedDataName s) (m_nextSegmentNum s) x (m_ssthresh s) (m_nSegmentsInFlight s) (m_nSegments s) (m_highInterest s) (m_highData s) (m_recPoint s) (m_nReceived s) (m_nBytesReceived s) (m_nextSegmentInOrder s) (m_segmentBuffer s) (m_pendingSegments s) (m_receivedSegments s) (m_face s) (m_timers s) (m_validations s) (m_clock s) (m_signals s) (m_next s).
Definition with_ssthresh x s := mk (m_this s) (m_options s) (m_rttEstimator s) (m_timeLastSegmentReceived s) (m_retxQueue s) (m_versionedDataName s) (m_nextSegmentNum s) (m_cwnd s) x (m_nSegmentsInFlight s) (m_nSegments s) (m_highInterest s) (m_highData s) (m_recPoint s) (m_nReceived s) (m_nBytesReceived s) (m_nextSegmentInOrder s) (m_segmentBuffer s) (m_pendingSegments s) (m_receivedSegments s) (m_face s) (m_timers s) (m_validations s) (m_clock s) (m_signals s) (m_next s).
Definition with_nSegmentsInFlight x s := mk (m_this s) (m_options s) (m_rttEstimator s) (m_timeLastSegmentReceived s) (m_retxQueue s) (m_versionedDataName s) (m_nextSegmentNum s) (m_cwnd s) (m_ssthresh s) x (m_nSegments s) (m_highInterest s) (m_highData s) (m_recPoint s) (m_nReceived s) (m_nBytesReceived s) (m_nextSegmentInOrder s) (m_segmentBuffer s) (m_pendingSegments s) (m_receivedSegments s) (m_face s) (m_timers s) (m_validations s) (m_clock s) (m_signals s) (m_next s).
Definition with_nSegments x s := mk (m_this s) (m_options s) (m_rttEstimator s) (m_timeLastSegmentReceived s) (m_retxQueue s) (m_versionedDataName s) (m_nextSegmentNum s) (m_cwnd s) (m_ssthresh s) (m_nSegmentsInFlight s) x (m_highInterest s) (m_highData s) (m_recPoint s) (m_nReceived s) (m_nBytesReceived s) (m_nextSegmentInOrder s) (m_segmentBuffer s) (m_pendingSegments s) (m_receivedSegments s) (m_face s) (m_timers s) (m_validations s) (m_clock s) (m_signals s) (m_next s).
Definition with_highInterest x s := mk (m_this s) (m_options s) (m_rttEstimator s) (m_timeLastSegmentReceived s) (m_retxQueue s) (m_versionedDataName s) (m_nextSegmentNum s) (m_cwnd s) (m_ssthresh s) (m_nSegmentsInFlight s) (m_nSegments s) x (m_highData s) (m_recPoint s) (m_nReceived s) (m_nBytesReceived s) (m_nextSegmentInOrder s) (m_segmentBuffer s) (m_pendingSegments s) (m_receivedSegments s) (m_face s) (m_timers s) (m_validations s) (m_clock s) (m_signals s) (m_next s).
Definition with_highData x s := mk (m_this s) (m_options s) (m_rttEstimator s) (m_timeLastSegmentReceived s) (m_retxQueue s) (m_versionedDataName s) (m_nextSegmentNum s) (m_cwnd s) (m_ssthresh s) (m_nSegmentsInFlight s) (m_nSegments s) (m_highInterest s) x (m_recPoint s) (m_nReceived s) (m_nBytesReceived s) (m_nextSegmentInOrder s) (m_segmentBuffer s) (m_pendingSegments s) (m_receivedSegments s) (m_face s) (m_timers s) (m_validations s) (m_clock s) (m_signals s) (m_next s).
Definition with_recPoint x s := mk (m_this s) (m_options s) (m_rttEstimator s) (m_timeLastSegmentReceived s) (m_retxQueue s) (m_versionedDataName s) (m_nextSegmentNum s) (m_cwnd s) (m_ssthresh s) (m_nSegmentsInFlight s) (m_nSegments s) (m_highInterest s) (m_highData s) x (m_nReceived s) (m_nBytesReceived s) (m_nextSegmentInOrder s) (m_segmentBuffer s) (m_pendingSegments s) (m_receivedSegments s) (m_face s) (m_timers s) (m_validations s) (m_clock s) (m_signals s) (m_next s).
Definition with_nReceived x s := mk (m_this s) (m_options s) (m_rttEstimator s) (m_timeLastSegmentReceived s) (m_retxQueue s) (m_versionedDataName s) (m_nextSegmentNum s) (m_cwnd s) (m_ssthresh s) (m_nSegmentsInFlight s) (m_nSegments s) (m_highInterest s) (m_highData s) (m_recPoint s) x (m_nBytesReceived s) (m_nextSegmentInOrder s) (m_segmentBuffer s) (m_pendingSegments s) (m_receivedSegments s) (m_face s) (m_timers s) (m_validations s) (m_clock s) (m_signals s) (m_next s).
Definition with_nBytesReceived x s := mk (m_this s) (m_options s) (m_rttEstimator s) (m_timeLastSegmentReceived s) (m_retxQueue s) (m_versionedDataName s) (m_nextSegmentNum s) (m_cwnd s) (m_ssthresh s) (m_nSegmentsInFlight s) (m_nSegments s) (m_highInterest s) (m_highData s) (m_recPoint s) (m_nReceived s) x (m_nextSegmentInOrder s) (m_segmentBuffer s) (m_pendingSegments s) (m_receivedSegments s) (m_face s) (m_timers s) (m_validations s) (m_clock s) (m_signals s) (m_next s).
Definition with_nextSegmentInOrder x s := mk (m_this s) (m_options s) (m_rttEstimator s) (m_timeLastSegmentReceived s) (m_retxQueue s) (m_versionedDataName s) (m_nextSegmentNum s) (m_cwnd s) (m_ssthresh s) (m_nSegmentsInFlight s) (m_nSegments s) (m_highInterest s) (m_highData s) (m_recPoint s) (m_nReceived s) (m_nBytesReceived s) x (m_segmentBuffer s) (m_pendingSegments s) (m_receivedSegments s) (m_face s) (m_timers s) (m_validations s) (m_clock s) (m_signals s) (m_next s).
Definition with_segmentBuffer x s := mk (m_this s) (m_options s) (m_rttEstimator s) (m_timeLastSegmentReceived s) (m_retxQueue s) (m_versionedDataName s) (m_nextSegmentNum s) (m_cwnd s) (m_ssthresh s) (m_nSegmentsInFlight s) (m_nSegments s) (m_highInterest s) (m_highData s) (m_recPoint s) (m_nReceived s) (m_nBytesReceived s) (m_nextSegmentInOrder s) x (m_pendingSegments s) (m_receivedSegments s) (m_face s) (m_timers s) (m_validations s) (m_clock s) (m_signals s) (m_next s).
Definition with_pendingSegments x s := mk (m_this s) (m_options s) (m_rttEstimator s) (m_timeLastSegmentReceived s) (m_retxQueue s) (m_versionedDataName s) (m_nextSegmentNum s) (m_cwnd s) (m_ssthresh s) (m_nSegmentsInFlight s) (m_nSegments s) (m_highInterest s) (m_highData s) (m_recPoint s) (m_nReceived s) (m_nBytesReceived s) (m_nextSegmentInOrder s) (m_segmentBuffer s) x (m_receivedSegments s) (m_face s) (m_timers s) (m_validations s) (m_clock s) (m_signals s) (m_next s).
Definition with_receivedSegments x s := mk (m_this s) (m_options s) (m_rttEstimator s) (m_timeLastSegmentReceived s) (m_retxQueue s) (m_versionedDataName s) (m_nextSegmentNum s) (m_cwnd s) (m_ssthresh s) (m_nSegmentsInFlight s) (m_nSegments s) (m_highInterest s) (m_highData s) (m_recPoint s) (m_nReceived s) (m_nBytesReceived s) (m_nextSegmentInOrder s) (m_segmentBuffer s) (m_pendingSegments s) x (m_face s) (m_timers s) (m_validations s) (m_clock s) (m_signals s) (m_next s).
Definition with_face x s := mk (m_this s) (m_options s) (m_rttEstimator s) (m_timeLastSegmentReceived s) (m_retxQueue s) (m_versionedDataName s) (m_nextSegmentNum s) (m_cwnd s) (m_ssthresh s) (m_nSegmentsInFlight s) (m_nSegments s) (m_highInterest s) (m_highData s) (m_recPoint s) (m_nReceived s) (m_nBytesReceived s) (m_nextSegmentInOrder s) (m_segmentBuffer s) (m_pendingSegments s) (m_receivedSegments s) x (m_timers s) (m_validations s) (m_clock s) (m_signals s) (m_next s).
Definition with_timers x s := mk (m_this s) (m_options s) (m_rttEstimator s) (m_timeLastSegmentReceived s) (m_retxQueue s) (m_versionedDataName s) (m_nextSegmentNum s) (m_cwnd s) (m_ssthresh s) (m_nSegmentsInFlight s) (m_nSegments s) (m_highInterest s) (m_highData s) (m_recPoint s) (m_nReceived s) (m_nBytesReceived s) (m_nextSegmentInOrder s) (m_segmentBuffer s) (m_pendingSegments s) (m_receivedSegments s) (m_face s) x (m_validations s) (m_clock s) (m_signals s) (m_next s).
Definition with_validations x s := mk (m_this s) (m_options s) (m_rttEstimator s) (m_timeLastSegmentReceived s) (m_retxQueue s) (m_versionedDataName s) (m_nextSegmentNum s) (m_cwnd s) (m_ssthresh s) (m_nSegmentsInFlight s) (m_nSegments s) (m_highInterest s) (m_highData s) (m_recPoint s) (m_nReceived s) (m_nBytesReceived s) (m_nextSegmentInOrder s) (m_segmentBuffer s) (m_pendingSegments s) (m_receivedSegments s) (m_face s) (m_timers s) x (m_clock s) (m_signals s) (m_next s).
Definition with_clock x s := mk (m_this s) (m_options s) (m_rttEstimator s) (m_timeLastSegmentReceived s) (m_retxQueue s) (m_versionedDataName s) (m_nextSegmentNum s) (m_cwnd s) (m_ssthresh s) (m_nSegmentsInFlight s) (m_nSegments s) (m_highInterest s) (m_highData s) (m_recPoint s) (m_nReceived s) (m_nBytesReceived s) (m_nextSegmentInOrder s) (m_segmentBuffer s) (m_pendingSegments s) (m_receivedSegments s) (m_face s) (m_timers s) (m_validations s) x (m_signals s) (m_next s).
Definition with_signals x s := mk (m_this s) (m_options s) (m_rttEstimator s) (m_timeLastSegmentReceived s) (m_retxQueue s) (m_versionedDataName s) (m_nextSegmentNum s) (m_cwnd s) (m_ssthresh s) (m_nSegmentsInFlight s) (m_nSegments s) (m_highInterest s) (m_highData s) (m_recPoint s) (m_nReceived s) (m_nBytesReceived s) (m_nextSegmentInOrder s) (m_segmentBuffer s) (m_pendingSegments s) (m_receivedSegments s) (m_face s) (m_timers s) (m_validations s) (m_clock s) x (m_next s).
Definition with_next x s := mk (m_this s) (m_options s) (m_rttEstimator s) (m_timeLastSegmentReceived s) (m_retxQueue s) (m_versionedDataName s) (m_nextSegmentNum s) (m_cwnd s) (m_ssthresh s) (m_nSegmentsInFlight s) (m_nSegments s) (m_highInterest s) (m_highData s) (m_recPoint s) (m_nReceived s) (m_nBytesReceived s) (m_nextSegmentInOrder s) (m_segmentBuffer s) (m_pendingSegments s) (m_receivedSegments s) (m_face s) (m_timers s) (m_validations s) (m_clock s) (m_signals s) x.

Section fetcher.
(** The naming convention for segments, SHA-256, the nonces the generator
    delivers for the Interest of a number, and whether a handler of the last
    of the signals calls [stop]. *)
Context (conv : name.Conventions) (sha256 : bytes -> bytes) (draws : nat -> list bytes) (stops : list signal -> bool).

Notation P_ := (P t).

(** The next number for an Interest, an event, a validation or an object. *)
Definition fresh : P_ nat := fun s => Some (with_next (S (m_next s)) s, Ok (m_next s)).

(** [ScopedPendingInterestHandle] and [ScopedEventId] cancel what they hold. *)
Definition cancelInterest (id : nat) (s : t) : t := with_face (delete id (m_face s)) s.
Definition cancelEvent (id : nat) (s : t) : t := with_timers (delete id (m_timers s)) s.

(** [ndn-cxx/util/segment-fetcher.hpp:283-290] SegmentFetcher::PendingSegment::~PendingSegment *)
Definition destroy (p : PendingSegment) (s : t) : t := cancelEvent (timeoutEvent p) (cancelInterest (hdl p) s).

(** [m_pendingSegments.erase] of a key, and of everything *)
Definition erasePending (key : Z) (s : t) : t :=
  match m_pendingSegments s !! key with
  | Some p => destroy p (with_pendingSegments (delete key (m_pendingSegments s)) s)
  | None => s
  end.
Definition clearPending (s : t) : t :=
  with_pendingSegments ∅ (foldr destroy s (snd <$> map_to_list (m_pendingSegments s))).

(** The keys of a [std::map], in order. *)
Definition keys {A} (m : gmap Z A) : list Z := merge_sort Z.le (fst <$> map_to_list m).

(** [ndn-cxx/util/segment-fetcher.cpp:88-97] SegmentFetcher::stop *)
Definition stop : P_ unit :=
  s ← selfP;
  if negb (m_this s) then mret tt
  else
    _ ← modifyP clearPending;
    modifyP (with_this false).

(** A signal, and the handlers of the application. *)
Definition emit (sg : signal) : P_ unit :=
  _ ← modifyP (fun s => with_signals (m_signals s ++ [sg]) s);
  s ← selfP;
  if stops (m_signals s) then stop else mret tt.

(** [ndn-cxx/util/segment-fetcher.cpp:99-104] SegmentFetcher::shouldStop
    A callback has a weak pointer that is empty if it was made after [stop],
    and then [m_this] is empty as well. *)
Definition shouldStop : P_ bool := s ← selfP; mret (negb (m_this s)).

(** [ndn-cxx/util/segment-fetcher.cpp:462-467] SegmentFetcher::signalError *)
Definition signalError (code : Z) : P_ unit :=
  _ ← emit (onError code);
  stop.

(** [ndn-cxx/util/segment-fetcher.cpp:516-523] SegmentFetcher::getEstimatedRto, in milliseconds *)
Definition getEstimatedRto (s : t) : Z := Z.min (maxTimeout (m_options s)) (RttEstimator.m_rto (m_rttEstimator s) ÷ 1000000).

(** [ndn-cxx/util/segment-fetcher.cpp:469-480] SegmentFetcher::updateRetransmittedSegment *)
Definition updateRetransmittedSegment (segmentNum : Z) (pendingInterest event : nat) : P_ unit :=
  s ← selfP;
  p ← definedP (m_pendingSegments s !! segmentNum);
  if negb (bool_decide (state p = InRetxQueue)) then undefinedP
  else
    _ ← modifyP (destroy p);
    modifyP (fun s => with_pendingSegments (<[segmentNum := mkPending Retransmitted (sendTime p) pendingInterest event (node p)]> (m_pendingSegments s)) s).

(** [ndn-cxx/util/segment-fetcher.cpp:175-205] SegmentFetcher::sendInterest *)
Definition sendInterest (segNum : Z) (interest : Interest.t) (isRetransmission : bool) : P_ unit :=
  _ ← modifyP (fun s => with_nSegmentsInFlight (m_nSegmentsInFlight s + 1) s);
  pendingInterest ← fresh;
  _ ← modifyP (fun s => with_face (<[pendingInterest := interest]> (m_face s)) s);
  s ← selfP;
  let timeout := if useConstantInterestTimeout (m_options s) then maxTimeout (m_options s) else getEstimatedRto s in
  event ← fresh;
  _ ← modifyP (fun s => with_timers (<[event := (m_clock s + timeout * 1000000, interest)]> (m_timers s)) s);
  if isRetransmission then updateRetransmittedSegment segNum pendingInterest event
  else
    n ← fresh;
    s ← selfP;
    match m_pendingSegments s !! segNum with
    | Some _ => undefinedP
    | None =>
        _ ← modifyP (fun s => with_pendingSegments (<[segNum := mkPending FirstInterest (m_clock s) pendingInterest event n]> (m_pendingSegments s)) s);
        modifyP (with_highInterest segNum)
    end.

(** [interest.refreshNonce()] *)
Definition refresh (i : Interest.t) : P_ Interest.t :=
  s ← selfP; definedP (Interest.refreshNonce (draws (m_next s)) i).

(** [ndn-cxx/util/segment-fetcher.cpp:106-118] SegmentFetcher::fetchFirstSegment *)
Definition fetchFirstSegment (baseInterest : Interest.t) (isRetransmission : bool) : P_ unit :=
  s ← selfP;
  interest ← liftP (exec (_ ← Interest.setCanBePrefix true;
                          _ ← Interest.setMustBeFresh true;
                          Interest.setInterestLifetime (interestLifetime (m_options s))) baseInterest);
  interest ← (if isRetransmission then refresh interest else mret interest);
  sendInterest 0 interest isRetransmission.

(** [ndn-cxx/util/segment-fetcher.cpp:497-514] SegmentFetcher::checkAllSegmentsReceived *)
Definition checkAllSegmentsReceived : P_ bool :=
  s ← selfP;
  if negb (m_nSegments s =? 0) && (m_nSegments s <=? m_nReceived s) then
    let missing := filter (fun i => i ∉ m_receivedSegments s) (seqZ 0 (u64 (m_nSegments s))) in
    _ ← modifyP (fun s => with_retxQueue (m_retxQueue s ++ missing) s);
    mret (bool_decide (missing = []))
  else mret false.

(** [ndn-cxx/util/segment-fetcher.cpp:409-427] SegmentFetcher::finalizeFetch
    A segment that is not in the buffer is created empty. *)
Definition finalizeFetch : P_ unit :=
  s ← selfP;
  _ ← (if inOrder (m_options s) then emit onInOrderComplete
       else if Z.of_nat (size (m_receivedSegments s)) <? u64 (m_nSegments s) then undefinedP
       else emit (onComplete (mjoin ((fun i => default [] (m_segmentBuffer s !! i)) <$> seqZ 0 (m_nSegments s)))));
  stop.

(** [ndn-cxx/util/segment-fetcher.cpp:139-161] SegmentFetcher::fetchSegmentsInWindow (the loop that fills the window)
    The segments to request, each with whether it is a retransmission. *)
Fixpoint window_loop (fuel : nat) (availableWindowSize : Z) : P_ (list (Z * bool)) :=
  if availableWindowSize <=? 0 then mret []
  else
    match fuel with
    | O => undefinedP
    | S fuel =>
        s ← selfP;
        match m_retxQueue s with
        | front :: rest =>
            _ ← modifyP (with_retxQueue rest);
            match m_pendingSegments s !! front with
            | None => window_loop fuel availableWindowSize
            | Some p =>
                if negb (bool_decide (state p = InRetxQueue)) then undefinedP
                else l ← window_loop fuel (availableWindowSize - 1); mret ((front, true) :: l)
            end
        | [] =>
            if (m_nSegments s =? 0) || (m_nextSegmentNum s <? u64 (m_nSegments s)) then
              _ ← modifyP (with_nextSegmentNum (u64 (m_nextSegmentNum s + 1)));
              if bool_decide (is_Some (m_segmentBuffer s !! m_nextSegmentNum s)) then window_loop fuel availableWindowSize
              else l ← window_loop fuel (availableWindowSize - 1); mret ((m_nextSegmentNum s, false) :: l)
            else mret []
        end
    end.

(** Turns of the loop that are enough. *)
Definition window_fuel (availableWindowSize : Z) (s : t) : nat :=
  length (m_retxQueue s) + Z.to_nat availableWindowSize * S (size (m_segmentBuffer s)).

(** [ndn-cxx/util/segment-fetcher.cpp:128-137] SegmentFetcher::fetchSegmentsInWindow (the size of the window)
    [None]: the window does not fit the integer. *)
Definition availableWindow (s : t) : option Z :=
  cwnd ← Double.to_int64 (m_cwnd s);
  Some ((if inOrder (m_options s) then Z.min cwnd (i64 (flowControlWindow (m_options s) - Z.of_nat (size (m_segmentBuffer s)))) else cwnd)
        - m_nSegmentsInFlight s).

(** [ndn-cxx/util/segment-fetcher.cpp:163-172] SegmentFetcher::fetchSegmentsInWindow (the loop that sends the Interests) *)
Fixpoint request_loop (origInterest : Interest.t) (segments : list (Z * bool)) : P_ unit :=
  match segments with
  | [] => mret tt
  | (segNum, isRetransmission) :: segments =>
      s ← selfP;
      name ← liftP (Name.appendSegment conv segNum (m_versionedDataName s));
      interest ← liftP (exec (_ ← Interest.setName sha256 name;
                              _ ← Interest.setCanBePrefix false;
                              _ ← Interest.setMustBeFresh false;
                              Interest.setInterestLifetime (interestLifetime (m_options s))) origInterest);
      interest ← refresh interest;
      _ ← sendInterest segNum interest isRetransmission;
      request_loop origInterest segments
  end.

(** [ndn-cxx/util/segment-fetcher.cpp:120-173] SegmentFetcher::fetchSegmentsInWindow *)
Definition fetchSegmentsInWindow (origInterest : Interest.t) : P_ unit :=
  finished ← checkAllSegmentsReceived;
  if finished : bool then finalizeFetch
  else
    s ← selfP;
    available ← definedP (availableWindow s);
    segments ← window_loop (window_fuel available s) available;
    request_loop origInterest segments.

(** [ndn-cxx/util/segment-fetcher.cpp:429-443] SegmentFetcher::windowIncrease *)
Definition windowIncrease : P_ unit :=
  s ← selfP;
  if useConstantCwnd (m_options s) then
    (if SpecFloat.SFeqb (m_cwnd s) (initCwnd (m_options s)) then mret tt else undefinedP)
  else if Double.lt (m_cwnd s) (m_ssthresh s) then modifyP (with_cwnd (Double.add (m_cwnd s) (aiStep (m_options s))))
  else
    f ← definedP (Double.floor (m_cwnd s));
    modifyP (with_cwnd (Double.add (m_cwnd s) (Double.div (aiStep (m_options s)) f))).

(** [ndn-cxx/util/segment-fetcher.hpp:293-293] SegmentFetcher::MIN_SSTHRESH *)
Definition MIN_SSTHRESH : Double.t := Double.ofZ 2.

(** [ndn-cxx/util/segment-fetcher.cpp:445-460] SegmentFetcher::windowDecrease *)
Definition windowDecrease : P_ unit :=
  s ← selfP;
  if disableCwa (m_options s) || (m_recPoint s <? m_highData s) then
    _ ← modifyP (fun s => with_recPoint (m_highInterest s) s);
    if useConstantCwnd (m_options s) then
      (if SpecFloat.SFeqb (m_cwnd s) (initCwnd (m_options s)) then mret tt else undefinedP)
    else
      let ssthresh := Double.max MIN_SSTHRESH (Double.mul (m_cwnd s) (mdCoef (m_options s))) in
      _ ← modifyP (with_ssthresh ssthresh);
      modifyP (with_cwnd (if resetCwndToInit (m_options s) then initCwnd (m_options s) else ssthresh))
  else mret tt.

(** [--m_nSegmentsInFlight], asserted to be positive before *)
Definition landed : P_ unit :=
  s ← selfP;
  if m_nSegmentsInFlight s <=? 0 then undefinedP else modifyP (with_nSegmentsInFlight (m_nSegmentsInFlight s - 1)).

(** [ndn-cxx/util/segment-fetcher.cpp:482-495] SegmentFetcher::cancelExcessInFlightSegments (the loop) *)
Fixpoint excess_loop (l : list Z) : P_ unit :=
  match l with
  | [] => mret tt
  | key :: l =>
      s ← selfP;
      _ ← (if u64 (m_nSegments s) <=? key then _ ← modifyP (erasePending key); landed else mret tt);
      excess_loop l
  end.

Definition cancelExcessInFlightSegments : P_ unit := s ← selfP; excess_loop (keys (m_pendingSegments s)).

(** [m_pendingSegments.begin()] *)
Definition begin (s : t) : option (Z * PendingSegment) :=
  match keys (m_pendingSegments s) with
  | [] => None
  | key :: _ => (fun p => (key, p)) <$> m_pendingSegments s !! key
  end.

(** [m_pendingSegments.find(key)] *)
Definition find (key : Z) (s : t) : option (Z * PendingSegment) := (fun p => (key, p)) <$> m_pendingSegments s !! key.

(** [ndn-cxx/util/segment-fetcher.cpp:372-407] SegmentFetcher::afterNackOrTimeout *)
Definition afterNackOrTimeout (origInterest : Interest.t) : P_ unit :=
  s ← selfP;
  if m_timeLastSegmentReceived s + maxTimeout (m_options s) * 1000000 <=? m_clock s then signalError INTEREST_TIMEOUT
  else
    lastNameComponent ← definedP (Name.get (-1) (Interest.m_name origInterest));
    it ← (if Component.isSegment conv lastNameComponent then
            n ← liftP (Component.toSegment conv lastNameComponent);
            definedP (find n s)
          else definedP (begin s));
    let '(key, p) := it in
    _ ← modifyP (cancelEvent (timeoutEvent p));
    _ ← modifyP (fun s => with_pendingSegments (<[key := mkPending InRetxQueue (sendTime p) (hdl p) (timeoutEvent p) (node p)]> (m_pendingSegments s)) s);
    e ← definedP (RttEstimator.backoffRto (m_rttEstimator s));
    _ ← modifyP (with_rttEstimator e);
    if bool_decide (m_receivedSegments s = ∅) then fetchFirstSegment origInterest true
    else
      _ ← windowDecrease;
      _ ← modifyP (fun s => with_retxQueue (m_retxQueue s ++ [key]) s);
      fetchSegmentsInWindow origInterest.

(** [ndn-cxx/util/segment-fetcher.cpp:358-370] SegmentFetcher::afterTimeoutCb *)
Definition afterTimeoutCb (origInterest : Interest.t) : P_ unit :=
  st ← shouldStop;
  if st : bool then mret tt
  else
    _ ← emit afterSegmentTimedOut;
    _ ← landed;
    afterNackOrTimeout origInterest.

(** [ndn-cxx/util/segment-fetcher.cpp:335-356] SegmentFetcher::afterNackReceivedCb *)
Definition afterNackReceivedCb (origInterest : Interest.t) (nack : NackHeader.t) : P_ unit :=
  st ← shouldStop;
  if st : bool then mret tt
  else
    _ ← emit afterSegmentNacked;
    _ ← landed;
    let reason := NackHeader.getReason nack in
    if (reason =? NackHeader.DUPLICATE) || (reason =? NackHeader.CONGESTION) then afterNackOrTimeout origInterest
    else signalError NACK_ERROR.

(** [ndn-cxx/util/segment-fetcher.cpp:207-244] SegmentFetcher::afterSegmentReceivedCb *)
Definition afterSegmentReceivedCb (origInterest : Interest.t) (data : tagged Data.t) : P_ unit :=
  st ← shouldStop;
  if st : bool then mret tt
  else
    _ ← landed;
    currentSegmentComponent ← definedP (Name.get (-1) (Data.m_name (untag data)));
    if negb (Component.isSegment conv currentSegmentComponent) then signalError DATA_HAS_NO_SEGMENT
    else
      currentSegment ← liftP (Component.toSegment conv currentSegmentComponent);
      s ← selfP;
      match (if bool_decide (m_receivedSegments s = ∅) then begin s else find currentSegment s) with
      | None => mret tt
      | Some (key, p) =>
          _ ← modifyP (cancelEvent (timeoutEvent p));
          _ ← emit (afterSegmentReceived data);
          v ← fresh;
          modifyP (fun s => with_validations (<[v := mkValidation data origInterest key (node p)]> (m_validations s)) s)
      end.

(** [ndn-cxx/util/segment-fetcher.cpp:272-278] SegmentFetcher::afterValidationSuccess (the copy into the buffer)
    An element that is there already keeps its size; [None]: the content is
    copied beyond its end. *)
Definition storeSegment (segment : Z) (content : bytes) (s : t) : option t :=
  match m_segmentBuffer s !! segment with
  | None => Some (with_segmentBuffer (<[segment := content]> (m_segmentBuffer s)) s)
  | Some old =>
      if (length old <? length content)%nat then None
      else Some (with_segmentBuffer (<[segment := content ++ drop (length content) old]> (m_segmentBuffer s)) s)
  end.

(** [ndn-cxx/util/segment-fetcher.cpp:295-298] SegmentFetcher::afterValidationSuccess (the loop that delivers in order)
    Every turn but the first finds an element and takes it out. *)
Fixpoint deliver_loop (fuel : nat) : P_ unit :=
  match fuel with
  | O => undefinedP
  | S fuel =>
      s ← selfP;
      _ ← emit (onInOrderData (default [] (m_segmentBuffer s !! m_nextSegmentInOrder s)));
      _ ← modifyP (fun s => with_segmentBuffer (delete (m_nextSegmentInOrder s) (m_segmentBuffer s)) s);
      _ ← modifyP (fun s => with_nextSegmentInOrder (u64 (m_nextSegmentInOrder s + 1)) s);
      s ← selfP;
      if bool_decide (is_Some (m_segmentBuffer s !! m_nextSegmentInOrder s)) then deliver_loop fuel else mret tt
  end.

(** [ndn-cxx/util/segment-fetcher.cpp:281-291] SegmentFetcher::afterValidationSuccess (the final block)
    Whether the fetcher goes on. *)
Definition takeFinalBlock (data : Data.t) : P_ bool :=
  match MetaInfo.m_finalBlockId (Data.m_metaInfo data) with
  | None => mret true
  | Some c =>
      if negb (Component.isSegment conv c) then _ ← signalError FINALBLOCKID_NOT_SEGMENT; mret false
      else
        n ← liftP (Component.toSegment conv c);
        s ← selfP;
        _ ← (if negb (u64 (n + 1) =? u64 (m_nSegments s)) then
               _ ← modifyP (with_nSegments (i64 (u64 (n + 1))));
               cancelExcessInFlightSegments
             else mret tt);
        mret true
  end.

(** [ndn-cxx/util/segment-fetcher.cpp:254-279] SegmentFetcher::afterValidationSuccess (recording the segment) *)
Definition recordSegment (v : Validation) : P_ Z :=
  _ ← modifyP (fun s => with_timeLastSegmentReceived (m_clock s) s);
  _ ← modifyP (fun s => with_nReceived (m_nReceived s + 1) s);
  c ← definedP (Name.get (-1) (Data.m_name (untag (v_data v))));
  currentSegment ← liftP (Component.toSegment conv c);
  _ ← modifyP (fun s => with_receivedSegments ({[currentSegment]} ∪ m_receivedSegments s) s);
  s ← selfP;
  p ← definedP (m_pendingSegments s !! v_segment v);
  if negb (bool_decide (node p = v_node v)) then undefinedP
  else
    _ ← (if bool_decide (state p = FirstInterest) then
           if m_nSegmentsInFlight s <? 0 then undefinedP
           else
             e ← definedP (RttEstimator.addMeasurement (m_clock s - sendTime p) (m_nSegmentsInFlight s + 1) (m_rttEstimator s));
             modifyP (with_rttEstimator e)
         else mret tt);
    _ ← modifyP (erasePending (v_segment v));
    let content := Block.value (Data.m_content (untag (v_data v))) in
    s ← selfP;
    s ← definedP (storeSegment currentSegment content s);
    _ ← modifyP (fun _ => s);
    _ ← modifyP (fun s => with_nBytesReceived (m_nBytesReceived s + len content) s);
    _ ← emit (afterSegmentValidated (v_data v));
    mret currentSegment.

(** [ndn-cxx/util/segment-fetcher.cpp:301-321] SegmentFetcher::afterValidationSuccess (what the segment leads to) *)
Definition advance (data : tagged Data.t) (origInterest : Interest.t) (currentSegment : Z) : P_ unit :=
  s ← selfP;
  _ ← (if (size (m_receivedSegments s) =? 1)%nat then
         name ← liftP (Name.getPrefix (-1) (Data.m_name (untag data)));
         _ ← modifyP (with_versionedDataName name);
         if currentSegment =? 0 then modifyP (fun s => with_nextSegmentNum (u64 (m_nextSegmentNum s + 1)) s) else mret tt
       else mret tt);
  _ ← modifyP (fun s => if m_highData s <? currentSegment then with_highData currentSegment s else s);
  _ ← (if (0 <? default 0 (TagHost.CongestionMarkTag (tags data))) && negb (ignoreCongMarks (m_options s)) then windowDecrease else windowIncrease);
  fetchSegmentsInWindow origInterest.

(** [ndn-cxx/util/segment-fetcher.cpp:246-322] SegmentFetcher::afterValidationSuccess *)
Definition afterValidationSuccess (v : Validation) : P_ unit :=
  st ← shouldStop;
  if st : bool then mret tt
  else
    currentSegment ← recordSegment v;
    goOn ← takeFinalBlock (untag (v_data v));
    if negb goOn then mret tt
    else
      s ← selfP;
      _ ← (if inOrder (m_options s) && (m_nextSegmentInOrder s =? currentSegment) then deliver_loop (S (size (m_segmentBuffer s))) else mret tt);
      advance (v_data v) (v_interest v) currentSegment.

(** [ndn-cxx/util/segment-fetcher.cpp:324-333] SegmentFetcher::afterValidationFailure *)
Definition afterValidationFailure : P_ unit :=
  st ← shouldStop;
  if st : bool then mret tt else signalError SEGMENT_VALIDATION_FAIL.

(** [ndn-cxx/util/segment-fetcher.cpp:61-74] SegmentFetcher::SegmentFetcher *)
Definition create (options : Options) (now : Z) : option (result t) :=
  match RttEstimator.create (rttOptions options) with
  | None => None
  | Some e => Some (_ ← validate options;
                    Ok (mk false options e now [] Name.empty 0 (initCwnd options) (initSsthresh options) 0 0 0 0 0 0 0 0 ∅ ∅ ∅ ∅ ∅ ∅ now [] 0))
  end.

(** [ndn-cxx/util/segment-fetcher.cpp:76-86] SegmentFetcher::start *)
Definition start (options : Options) (now : Z) (baseInterest : Interest.t) : option (result t) :=
  match create options now with
  | Some (Ok s) =>
      match fetchFirstSegment baseInterest false (with_this true s) with
      | Some (s, r) => Some (_ ← r; Ok s)
      | None => None
      end
  | Some (Throw e) => Some (Throw e)
  | None => None
  end.

(** ** What happens to a fetcher *)

Inductive event :=
  | Satisfied (id : nat) (data : tagged Data.t)  (* the face has Data for an Interest *)
  | Nacked (id : nat) (nack : NackHeader.t)
  | Expired (id : nat)                           (* the face drops an Interest *)
  | TimedOut (id : nat)                          (* an event of the scheduler is due *)
  | Validated (id : nat) (success : bool)        (* the validator answers *)
  | Elapse (d : Z)
  | Stop.                                        (* the application stops it *)

(** The callback that runs; [None] if what happens is not possible or what the
    callback does is not defined. *)
Definition handle (e : event) : P_ unit :=
  s ← selfP;
  match e with
  | Satisfied id data =>
      i ← definedP (m_face s !! id);
      _ ← modifyP (cancelInterest id);
      afterSegmentReceivedCb i data
  | Nacked id nack =>
      i ← definedP (m_face s !! id);
      _ ← modifyP (cancelInterest id);
      afterNackReceivedCb i nack
  | Expired id =>
      _ ← definedP (m_face s !! id);
      modifyP (cancelInterest id)
  | TimedOut id =>
      '(due, i) ← definedP (m_timers s !! id);
      if due <=? m_clock s then _ ← modifyP (cancelEvent id); afterTimeoutCb i else undefinedP
  | Validated id success =>
      v ← definedP (m_validations s !! id);
      _ ← modifyP (fun s => with_validations (delete id (m_validations s)) s);
      if success : bool then afterValidationSuccess v else afterValidationFailure
  | Elapse d => if d <? 0 then undefinedP else modifyP (fun s => with_clock (m_clock s + d) s)
  | Stop => stop
  end.

End fetcher.
End SegmentFetcher.
