(* ===== verification/SegmentFetcherFacts.v ===== *)
(** * The segment fetcher: what is proved

    Every buffer that the application gets is made of the contents of
    validated segments, in order and without gaps; a fetcher has one outcome,
    which is the last signal; the loops end; and a run in which the count of
    Interests in flight goes wrong. *)

From stdpp Require Import list gmap sorting.
From S2P Require Import Prelude Tlv Encoding Blocks BlockHelpers Text NameComponents Names NameRegex Fields DataPacket InterestPacket.
From S2P Require Import LinkProtocol FaceTables RttEstimator SegmentFetcher.

Module FetcherFacts.
Import SegmentFetcher.

(** The primitive steps of a program, evaluated. *)
Ltac steps := cbv beta iota delta [mbind mret P_bind P_ret selfP modifyP definedP liftP throwP undefinedP fresh].

(** ** The loops end *)

(** How many numbers from [next] on are in the buffer, up to [k]. *)
Fixpoint buffered (b : gmap Z bytes) (k : nat) (next : Z) : nat :=
  match k with
  | O => O
  | S k => if bool_decide (is_Some (b !! next)) then S (buffered b k (u64 (next + 1))) else O
  end.

Lemma buffered_le b k next : (buffered b k next <= k)%nat.
Proof. revert next. induction k as [|k IH]; intros next; cbn [buffered]; [lia|]. case_bool_decide; [specialize (IH (u64 (next + 1))); lia|lia]. Qed.

Lemma buffered_stop b k next : (buffered b k next < k)%nat -> buffered b (S k) next = buffered b k next.
Proof.
  revert next. induction k as [|k IH]; intros next H; [lia|]. cbn [buffered] in H |- *. case_bool_decide; [|done]. f_equal. apply IH. lia.
Qed.

Lemma buffered_all b k next j : is_u64 next -> buffered b k next = k -> (j < k)%nat -> is_Some (b !! u64 (next + Z.of_nat j)).
Proof.
  revert next j. induction k as [|k IH]; intros next j Hn H Hj; [lia|]. cbn [buffered] in H. case_bool_decide as Hb; [|lia]. destruct j as [|j].
  - rewrite Z.add_0_r. unfold u64. by rewrite Z.mod_small by (unfold is_u64, UINT64_MAX in Hn; lia).
  - replace (u64 (next + Z.of_nat (S j))) with (u64 (u64 (next + 1) + Z.of_nat j)).
    + apply IH; [|lia|lia]. unfold is_u64, u64, UINT64_MAX. pose proof (Z.mod_pos_bound (next + 1) (2 ^ 64)). lia.
    + unfold u64. rewrite Zplus_mod_idemp_l. f_equal. lia.
Qed.

(** They are fewer than all: the numbers of a run are different. *)
Lemma buffered_size b next : is_u64 next -> Z.of_nat (size b) < 2 ^ 64 -> (buffered b (S (size b)) next <= size b)%nat.
Proof.
  intros Hn Hs. destruct (decide (buffered b (S (size b)) next = S (size b))) as [E|E]; [exfalso|pose proof (buffered_le b (S (size b)) next); lia].
  set (X := list_to_set ((fun j => u64 (next + Z.of_nat j)) <$> seq 0 (S (size b))) : gset Z).
  assert (HX : X ⊆ dom b).
  { intros k Hk. apply elem_of_list_to_set, list_elem_of_fmap in Hk as (j & -> & Hj). apply elem_of_seq in Hj. apply elem_of_dom.
    apply (buffered_all b (S (size b))); [done|done|lia]. }
  apply subseteq_size in HX. rewrite size_dom in HX. subst X. rewrite size_list_to_set in HX; [rewrite length_fmap, length_seq in HX; lia|].
  apply NoDup_fmap_2_strong; [|apply NoDup_seq]. intros i j Hi Hj Hij. apply elem_of_seq in Hi, Hj. unfold u64 in Hij.
  apply Nat2Z.inj. assert (Hd : (Z.of_nat i - Z.of_nat j) mod 2 ^ 64 = 0).
  { replace (Z.of_nat i - Z.of_nat j) with ((next + Z.of_nat i) - (next + Z.of_nat j)) by lia. rewrite Zminus_mod, Hij, Z.sub_diag. done. }
  apply Z.mod_divide in Hd as [q Hq]; [|done]. assert (q = 0) by nia. lia.
Qed.

(** The turns the loop that fills the window takes at most. *)
Definition turns (n : Z) (s : t) : nat :=
  length (m_retxQueue s) +
  (if n <=? 0 then 0 else Z.to_nat (n - 1) * S (size (m_segmentBuffer s)) + S (buffered (m_segmentBuffer s) (S (size (m_segmentBuffer s))) (m_nextSegmentNum s))).

Lemma turns_fuel n s : is_u64 (m_nextSegmentNum s) -> Z.of_nat (size (m_segmentBuffer s)) < 2 ^ 64 -> (turns n s <= window_fuel n s)%nat.
Proof.
  intros Hn Hs. unfold turns, window_fuel. destruct (Z.leb_spec n 0); [lia|]. pose proof (buffered_size _ _ Hn Hs).
  replace (Z.to_nat n) with (S (Z.to_nat (n - 1))) by lia. lia.
Qed.

(** A segment fewer to request. *)
Lemma turns_pred n s : 0 < n -> (turns (n - 1) s <= turns n s)%nat.
Proof.
  intros Hn. unfold turns. destruct (Z.leb_spec n 0); [lia|]. destruct (Z.leb_spec (n - 1) 0); [lia|].
  replace (Z.to_nat (n - 1)) with (S (Z.to_nat (n - 1 - 1))) by lia. lia.
Qed.

Lemma turns_retx n s x l : m_retxQueue s = x :: l -> turns n s = S (turns n (with_retxQueue l s)).
Proof. intros E. unfold turns. by rewrite E. Qed.

(** A number that is passed over, or requested. *)
Lemma turns_next n s : 0 < n -> is_u64 (m_nextSegmentNum s) -> Z.of_nat (size (m_segmentBuffer s)) < 2 ^ 64 ->
  let s' := with_nextSegmentNum (u64 (m_nextSegmentNum s + 1)) s in
  (is_Some (m_segmentBuffer s !! m_nextSegmentNum s) -> turns n s = S (turns n s')) /\ (S (turns (n - 1) s') <= turns n s)%nat.
Proof.
  intros Hn Hx Hs s'; subst s'. pose proof (buffered_size _ _ Hx Hs) as Hb. unfold turns. cbn [m_retxQueue m_segmentBuffer m_nextSegmentNum with_nextSegmentNum].
  assert (Hx' : is_u64 (u64 (m_nextSegmentNum s + 1))) by (unfold is_u64, u64, UINT64_MAX; pose proof (Z.mod_pos_bound (m_nextSegmentNum s + 1) (2 ^ 64)); lia).
  pose proof (buffered_size _ _ Hx' Hs) as Hb'. rewrite (proj2 (Z.leb_gt n 0)) by done. split.
  - intros Hsome. cbn [buffered] in Hb. rewrite bool_decide_eq_true_2 in Hb by done.
    assert (E : buffered (m_segmentBuffer s) (S (size (m_segmentBuffer s))) (m_nextSegmentNum s) =
      S (buffered (m_segmentBuffer s) (size (m_segmentBuffer s)) (u64 (m_nextSegmentNum s + 1)))) by (cbn [buffered]; by rewrite bool_decide_eq_true_2).
    rewrite E, buffered_stop by lia. lia.
  - destruct (Z.leb_spec (n - 1) 0); [lia|]. replace (Z.to_nat (n - 1)) with (S (Z.to_nat (n - 1 - 1))) by lia. lia.
Qed.

(** The segments in the queue that are still pending wait there. *)
Definition queue_ok (s : t) : Prop := forall x p, x ∈ m_retxQueue s -> m_pendingSegments s !! x = Some p -> state p = InRetxQueue.

Lemma window_loop_total f : forall n s, is_u64 (m_nextSegmentNum s) -> Z.of_nat (size (m_segmentBuffer s)) < 2 ^ 64 -> queue_ok s ->
  (turns n s <= f)%nat -> exists s' l, window_loop f n s = Some (s', Ok l).
Proof.
  induction f as [|f IH]; intros n s Hx Hs Hq Hf.
  { unfold turns in Hf. destruct (Z.leb_spec n 0) as [Hn|]; [|lia]. apply Z.leb_le in Hn. cbn [window_loop]. rewrite Hn. by eexists _, _. }
  cbn [window_loop]. destruct (Z.leb_spec n 0) as [|Hn]; [by eexists _, _|]. erewrite bindP_run by reflexivity.
  destruct (m_retxQueue s) as [|x l] eqn:Eq.
  - destruct (turns_next n s Hn Hx Hs) as [H1 H2]. set (s' := with_nextSegmentNum _ s) in *.
    assert (Hx' : is_u64 (m_nextSegmentNum s')) by (unfold s', is_u64, u64, UINT64_MAX; cbn; pose proof (Z.mod_pos_bound (m_nextSegmentNum s + 1) (2 ^ 64)); lia).
    destruct (_ || _); [|by eexists _, _]. erewrite bindP_run by reflexivity. fold s'. case_bool_decide as Hb.
    + apply IH; [done|done|done|]. specialize (H1 Hb). lia.
    + destruct (IH (n - 1) s') as (s2 & l & E); [done|done|done|lia|]. erewrite bindP_run by exact E. by eexists _, _.
  - rewrite (turns_retx n s x l Eq) in Hf. set (s' := with_retxQueue l s) in *. erewrite bindP_run by reflexivity. fold s'.
    assert (Hq' : queue_ok s') by (intros y p Hy; apply Hq; rewrite Eq; by right).
    destruct (m_pendingSegments s !! x) as [p|] eqn:Ep; [|by apply IH; [..|lia]].
    rewrite bool_decide_eq_true_2 by (apply (Hq x p); [rewrite Eq; left|done]). cbn [negb].
    pose proof (turns_pred n s' Hn). destruct (IH (n - 1) s') as (s2 & k & E); [done|done|done|lia|]. erewrite bindP_run by exact E. by eexists _, _.
Qed.

(** The same of the loop that delivers in order, which removes a segment from
    the buffer at every turn. *)
Lemma emit_buffer stops sg s : exists s', emit stops sg s = Some (s', Ok tt) /\
  m_segmentBuffer s' = m_segmentBuffer s /\ m_nextSegmentInOrder s' = m_nextSegmentInOrder s.
Proof.
  unfold emit, stop. steps. destruct (stops _); [|by eexists]. cbn. destruct (m_this s); [|by eexists]. eexists. split; [done|]. cbn.
  generalize (snd <$> map_to_list (m_pendingSegments s)) as l. intros l. induction l; done.
Qed.

Lemma deliver_step stops f s s' : emit stops (onInOrderData (default [] (m_segmentBuffer s !! m_nextSegmentInOrder s))) s = Some (s', Ok tt) ->
  let s2 := with_nextSegmentInOrder (u64 (m_nextSegmentInOrder s' + 1)) (with_segmentBuffer (delete (m_nextSegmentInOrder s') (m_segmentBuffer s')) s') in
  deliver_loop stops (S f) s =
  if bool_decide (is_Some (m_segmentBuffer s2 !! m_nextSegmentInOrder s2)) then deliver_loop stops f s2 else Some (s2, Ok tt).
Proof. intros E s2. cbn [deliver_loop]. erewrite bindP_run by reflexivity. erewrite bindP_run by exact E. do 3 erewrite bindP_run by reflexivity. by destruct (bool_decide _). Qed.

Lemma deliver_loop_total stops f : forall s, (size (m_segmentBuffer s) < f)%nat -> is_Some (m_segmentBuffer s !! m_nextSegmentInOrder s) ->
  exists s', deliver_loop stops f s = Some (s', Ok tt).
Proof.
  induction f as [|f IH]; intros s Hf Hs; [lia|]. destruct (emit_buffer stops (onInOrderData (default [] (m_segmentBuffer s !! m_nextSegmentInOrder s))) s) as (s' & E & Eb & En).
  rewrite (deliver_step _ _ _ _ E). cbv zeta. case_bool_decide; [|by eexists]. apply IH; [|done].
  cbn. rewrite Eb, En. rewrite map_size_delete_Some by done.
  destruct (size (m_segmentBuffer s)) eqn:Es; [|lia]. apply map_size_empty_inv in Es. rewrite Es in Hs. by destruct Hs as [? Hs].
Qed.

Section facts.
Context (conv : name.Conventions) (sha256 : bytes -> bytes) (draws : nat -> list bytes) (stops : list signal -> bool).

(** ** What the application is told *)

(** The number of the segment that a packet is. *)
Definition segment_of (d : tagged Data.t) : option Z :=
  c ← Name.get (-1) (Data.m_name (untag d));
  match Component.toSegment conv c with Ok n => Some n | Throw _ => None end.

(** A packet for segment [i] with the content [b] has been validated. *)
Definition has (log : list signal) (i : Z) (b : bytes) : Prop := exists d,
  afterSegmentValidated d ∈ log /\ segment_of d = Some i /\ Block.value (Data.m_content (untag d)) = b.

(** A validated packet says that there are [n] segments. *)
Definition announced (log : list signal) (n : Z) : Prop := exists d c m,
  afterSegmentValidated d ∈ log /\ MetaInfo.m_finalBlockId (Data.m_metaInfo (untag d)) = Some c /\
  Component.toSegment conv c = Ok m /\ n = i64 (u64 (m + 1)).

Definition terminal (sg : signal) : bool :=
  match sg with onComplete _ | onError _ | onInOrderComplete => true | _ => false end.

(** What has been delivered in order. *)
Definition chunks (log : list signal) : list bytes := omap (fun sg => match sg with onInOrderData b => Some b | _ => None end) log.

(** The contents of the segments from 0 on. *)
Definition contents (log : list signal) (bs : list bytes) : Prop := forall j b, bs !! j = Some b -> has log (u64 (Z.of_nat j)) b.

Lemma has_mono log log' i b : has log i b -> has (log ++ log') i b.
Proof. intros (d & Hd & H). exists d. split; [|done]. apply elem_of_app. by left. Qed.

Lemma announced_mono log log' n : announced log n -> announced (log ++ log') n.
Proof. intros (d & c & m & Hd & H). exists d, c, m. split; [|done]. apply elem_of_app. by left. Qed.

Lemma contents_mono log log' bs : contents log bs -> contents (log ++ log') bs.
Proof. intros H j b Hj. by apply has_mono, H. Qed.

(** ** The invariant *)

Record Core (s : t) : Prop := {
  c_discovery : m_receivedSegments s = ∅ -> (forall k, is_Some (m_pendingSegments s !! k) -> k = 0) /\ m_segmentBuffer s = ∅;
  c_disjoint k : is_Some (m_pendingSegments s !! k) -> m_segmentBuffer s !! k = None;
  c_block : inOrder (m_options s) = false -> forall k, k ∈ m_receivedSegments s <-> is_Some (m_segmentBuffer s !! k);
  c_buffer k b : m_segmentBuffer s !! k = Some b -> has (m_signals s) k b;
  c_nodes k p : m_pendingSegments s !! k = Some p -> (node p < m_next s)%nat;
  c_valid i v : m_validations s !! i = Some v -> (v_node v < m_next s)%nat /\
    forall p, m_pendingSegments s !! v_segment v = Some p -> node p = v_node v ->
      segment_of (v_data v) = Some (v_segment v) \/ m_receivedSegments s = ∅;
  c_order : u64 (len (chunks (m_signals s))) = m_nextSegmentInOrder s /\ contents (m_signals s) (chunks (m_signals s));
  c_total : m_nSegments s <> 0 -> announced (m_signals s) (m_nSegments s);
  c_complete b : onComplete b ∈ m_signals s -> exists bs n, b = mjoin bs /\ contents (m_signals s) bs /\
    n <> 0 /\ announced (m_signals s) n /\ length bs = Z.to_nat n;
}.

(** No outcome has been signalled. *)
Definition open (log : list signal) : Prop := Forall (fun sg => terminal sg = false) log.

(** While a callback runs. *)
Definition going (s : t) : Prop := Core s /\ open (m_signals s).

(** Between two events: an outcome is the last signal, and then the fetcher
    is stopped. *)
Definition Inv (s : t) : Prop := Core s /\
  (open (m_signals s) \/ m_this s = false /\ exists log sg, m_signals s = log ++ [sg] /\ open log /\ terminal sg = true).

Lemma going_Inv s : going s -> Inv s.
Proof. intros [H1 H2]. split; [done|by left]. Qed.

(** *** Changes that leave it alone *)

(** The fields it is about, the pending segments apart. *)
Definition view (s : t) :=
  (m_receivedSegments s, m_segmentBuffer s, m_validations s, m_signals s, (m_nextSegmentInOrder s, m_nSegments s, inOrder (m_options s))).

(** The pending segments of [s'] are among those of [s], and no number has
    been forgotten. *)
Definition fewer (s s' : t) : Prop := (m_next s <= m_next s')%nat /\
  forall k p', m_pendingSegments s' !! k = Some p' -> exists p, m_pendingSegments s !! k = Some p /\ node p = node p'.

Lemma Core_fewer s s' : view s' = view s -> fewer s s' -> Core s -> Core s'.
Proof.
  intros Hv [Hn Hf] [C1 C2 C3 C4 C5 C6 C7 C8 C9]. injection Hv as E1 E2 E3 E4 E5 E6 E7.
  assert (Hk : forall k, is_Some (m_pendingSegments s' !! k) -> is_Some (m_pendingSegments s !! k)).
  { intros k [p' Hp]. destruct (Hf k p' Hp) as (p & Hp' & _). by exists p. }
  constructor; rewrite ?E1, ?E2, ?E3, ?E4, ?E5, ?E6, ?E7; try done.
  - intros H. destruct (C1 H) as [H1 H2]. split; [|done]. intros k Hs. by apply H1, Hk.
  - intros k Hs. by apply C2, Hk.
  - intros k p' Hp. destruct (Hf k p' Hp) as (p & Hp' & <-). specialize (C5 k p Hp'). lia.
  - intros i v Hi. destruct (C6 i v Hi) as [H1 H2]. split; [lia|]. intros p' Hp Hnode. destruct (Hf _ p' Hp) as (p & Hp' & Hpn).
    apply (H2 p); congruence.
Qed.

Lemma fewer_refl s s' : m_pendingSegments s' = m_pendingSegments s -> (m_next s <= m_next s')%nat -> fewer s s'.
Proof. intros E Hn. split; [done|]. rewrite E. intros k p H. by exists p. Qed.

Lemma going_fewer s s' : view s' = view s -> fewer s s' -> going s -> going s'.
Proof. intros Hv Hf [H1 H2]. split; [by eapply Core_fewer|]. injection Hv as _ _ _ -> _ _ _. done. Qed.

(** [s'] differs in fields the invariant is not about. *)
Lemma going_same s s' : view s' = view s -> m_pendingSegments s' = m_pendingSegments s -> (m_next s <= m_next s')%nat -> going s -> going s'.
Proof. intros Hv E Hn. apply going_fewer; [done|]. by apply fewer_refl. Qed.

Lemma destroy_all l s : view (foldr destroy s l) = view s /\ m_next (foldr destroy s l) = m_next s /\ m_this (foldr destroy s l) = m_this s.
Proof. induction l as [|p l IH]; [done|exact IH]. Qed.

(** [stop], when it does something. *)
Definition stopped (s : t) : t := with_this false (clearPending s).

Lemma Core_stopped s : Core s -> Core (stopped s).
Proof.
  destruct (destroy_all (snd <$> map_to_list (m_pendingSegments s)) s) as (Hv & Hn & _). apply Core_fewer.
  - rewrite <- Hv. done.
  - split; [unfold stopped, clearPending; cbn; lia|]. intros k p H. cbn in H. by rewrite lookup_empty in H.
Qed.

Lemma signals_stopped s : m_signals (stopped s) = m_signals s.
Proof. destruct (destroy_all (snd <$> map_to_list (m_pendingSegments s)) s) as (Hv & _). injection Hv. done. Qed.

Lemma stop_run s : stop s = Some (if m_this s then stopped s else s, Ok tt).
Proof. unfold stop. steps. by destruct (m_this s). Qed.

Definition append (sg : signal) (s : t) : t := with_signals (m_signals s ++ [sg]) s.

Lemma emit_run sg s : emit stops sg s = Some (if stops (m_signals s ++ [sg]) && m_this s then stopped (append sg s) else append sg s, Ok tt).
Proof.
  unfold emit. steps. change (m_signals (with_signals (m_signals s ++ [sg]) s)) with (m_signals s ++ [sg]).
  destruct (stops (m_signals s ++ [sg])); [|done]. rewrite stop_run. cbn. by destruct (m_this s).
Qed.

(** *** Programs *)

(** [m] leaves the callback going; [m] may end with an outcome. *)
Definition ok {A} (m : P t A) : Prop := tripleP going m (fun _ => going) Inv.
Definition ends {A} (m : P t A) : Prop := tripleP going m (fun _ => Inv) Inv.

Lemma ok_bind {A B} (m : P t A) (k : A -> P t B) : ok m -> (forall a, ok (k a)) -> ok (m ≫= k).
Proof. apply tripleP_bind. Qed.

Lemma ends_bind {A B} (m : P t A) (k : A -> P t B) : ok m -> (forall a, ends (k a)) -> ends (m ≫= k).
Proof. apply tripleP_bind. Qed.

Lemma ok_ends {A} (m : P t A) : ok m -> ends m.
Proof. intros H. eapply tripleP_conseq; [exact H|done|intros a s; apply going_Inv|done]. Qed.

Lemma ok_lift {A} (r : result A) : ok (liftP r).
Proof. apply tripleP_lift. apply going_Inv. Qed.

Lemma ok_ret {A} (a : A) : ok (mret a).
Proof. by intros s Hs. Qed.

Lemma ok_self : ok selfP.
Proof. by intros s Hs. Qed.

Lemma ok_defined {A} (x : option A) : ok (definedP x).
Proof. intros s Hs. unfold definedP. by destruct x. Qed.

Lemma ok_undefined {A} : ok (undefinedP : P t A).
Proof. by intros s Hs. Qed.

Lemma ok_modify (f : t -> t) : (forall s, going s -> going (f s)) -> ok (modifyP f).
Proof. intros H s Hs. by apply H. Qed.

Lemma ok_same (f : t -> t) : (forall s, view (f s) = view s /\ m_pendingSegments (f s) = m_pendingSegments s /\ m_next (f s) = m_next s) -> ok (modifyP f).
Proof. intros H. apply ok_modify. intros s. destruct (H s) as (H1 & H2 & H3). apply going_same; [done|done|lia]. Qed.

Lemma ok_fresh : ok fresh.
Proof. intros s Hs. apply (going_same s); try done. simpl. lia. Qed.

(** *** Signals *)

(** Signals that the contents of the buffers are not about. *)
Definition plain (sg : signal) : Prop := terminal sg = false /\ forall b, sg <> onInOrderData b.

Lemma chunks_app log sg : (forall b, sg <> onInOrderData b) -> chunks (log ++ [sg]) = chunks log.
Proof. intros H. unfold chunks. rewrite omap_app. simpl. destruct sg; try apply app_nil_r. by destruct (H buffer). Qed.

Lemma Core_append sg s : Core s -> (forall b, sg <> onInOrderData b) -> (forall b, sg <> onComplete b) -> Core (append sg s).
Proof.
  intros [C1 C2 C3 C4 C5 C6 [C7 C7'] C8 C9] Hd Hc. constructor; cbn; try done.
  - intros k b Hk. by apply has_mono, C4.
  - rewrite chunks_app by done. split; [done|]. by apply contents_mono.
  - intros Hn. by apply announced_mono, C8.
  - intros b [Hb|Hb%list_elem_of_singleton]%elem_of_app; [|by destruct (Hc b)].
    destruct (C9 b Hb) as (bs & n & H1 & H2 & H3 & H4 & H5). exists bs, n. split_and!; try done; [by apply contents_mono|by apply announced_mono].
Qed.

Lemma going_append sg s : plain sg -> going s -> going (append sg s).
Proof.
  intros [H1 H2] [Hc Ho]. split; [apply Core_append; try done; by intros b ->|]. apply Forall_app. split; [done|]. by constructor.
Qed.

(** After a signal, whether or not the application stops the fetcher. *)
Lemma going_emitted sg s : going (append sg s) -> forall s', emit stops sg s = Some (s', Ok tt) -> going s'.
Proof.
  intros [Hc Ho] s'. rewrite emit_run. intros [= <-]. case_match; [|by split]. split; [by apply Core_stopped|]. by rewrite signals_stopped.
Qed.

Lemma ok_emit sg : plain sg -> ok (emit stops sg).
Proof.
  intros Hp s Hs. pose proof (going_emitted sg s (going_append sg s Hp Hs)) as H. rewrite emit_run in *. by apply H.
Qed.

(** An outcome, after which the fetcher is stopped. *)
Lemma finish_run sg s : terminal sg = true -> open (m_signals s) -> Core (append sg s) ->
  exists s', (emit stops sg ≫= fun _ => stop) s = Some (s', Ok tt) /\ Inv s'.
Proof.
  intros Ht Ho Hc.
  assert (Hf : forall x, Core x -> m_this x = false -> m_signals x = m_signals s ++ [sg] -> Inv x).
  { intros x H1 H2 H3. split; [done|]. right. split; [done|]. by exists (m_signals s), sg. }
  erewrite bindP_run by apply emit_run. rewrite stop_run. eexists. split; [done|].
  destruct (stops _ && m_this s) eqn:E.
  - change (m_this (stopped (append sg s))) with false. apply Hf; [by apply Core_stopped|done|]. by rewrite signals_stopped.
  - change (m_this (append sg s)) with (m_this s). destruct (m_this s) eqn:Et; [|by apply Hf].
    apply Hf; [by apply Core_stopped|done|]. by rewrite signals_stopped.
Qed.

Lemma ends_signalError code : ends (signalError stops code).
Proof.
  intros s [Hc Ho]. destruct (finish_run (onError code) s eq_refl Ho) as (s' & E & H); [by apply Core_append|].
  unfold signalError. by rewrite E.
Qed.

(** *** Interests *)

(** A new pending segment. *)
Lemma going_insert s s' key p : going s -> view s' = view s -> m_pendingSegments s' = <[key := p]> (m_pendingSegments s) ->
  m_segmentBuffer s !! key = None -> (m_receivedSegments s = ∅ -> key = 0) -> (m_next s <= node p < m_next s')%nat -> going s'.
Proof.
  intros [[C1 C2 C3 C4 C5 C6 C7 C8 C9] Ho] Hv Hp Hb H0 Hn. injection Hv as E1 E2 E3 E4 E5 E6 E7.
  split; [|by rewrite E4]. constructor; rewrite ?E1, ?E2, ?E3, ?E4, ?E5, ?E6, ?E7, ?Hp; try done.
  - intros H. destruct (C1 H) as [H1 H2]. split; [|done]. intros k. destruct (decide (k = key)) as [->|Hk]; [auto|].
    rewrite lookup_insert_ne by done. apply H1.
  - intros k. destruct (decide (k = key)) as [->|Hk]; [done|]. rewrite lookup_insert_ne by done. apply C2.
  - intros k q. destruct (decide (k = key)) as [->|Hk]; [rewrite lookup_insert_eq; intros [= <-]; lia|].
    rewrite lookup_insert_ne by done. intros H%C5. lia.
  - intros j v Hj. destruct (C6 j v Hj) as [H1 H2]. split; [lia|]. intros q. destruct (decide (v_segment v = key)) as [->|Hk].
    + rewrite lookup_insert_eq. intros [= <-]. lia.
    + rewrite lookup_insert_ne by done. apply H2.
Qed.

(** A pending segment changes, but stays where it is. *)
Lemma fewer_update s s' key p p' : m_pendingSegments s !! key = Some p -> node p' = node p ->
  m_pendingSegments s' = <[key := p']> (m_pendingSegments s) -> (m_next s <= m_next s')%nat -> fewer s s'.
Proof.
  intros Hp Hn Hs Hx. split; [done|]. rewrite Hs. intros k q. destruct (decide (k = key)) as [->|Hk].
  - rewrite lookup_insert_eq. intros [= <-]. by exists p.
  - rewrite lookup_insert_ne by done. intros H. by exists q.
Qed.

Lemma sendInterest_spec key i retx s s' r : going s ->
  (retx = false -> m_segmentBuffer s !! key = None /\ (m_receivedSegments s = ∅ -> key = 0)) ->
  sendInterest key i retx s = Some (s', r) -> going s' /\ m_segmentBuffer s' = m_segmentBuffer s /\ m_receivedSegments s' = m_receivedSegments s.
Proof.
  intros Hs Hpre. unfold sendInterest, updateRetransmittedSegment. steps. destruct retx; cbn [m_pendingSegments with_timers with_face with_next with_nSegmentsInFlight].
  - destruct (m_pendingSegments s !! key) as [p|] eqn:Ep; [|done]. destruct (negb _); [done|]. intros [= <- <-].
    split; [|done]. eapply going_fewer; [| |exact Hs]; [done|]. eapply fewer_update; [exact Ep| |done|cbn; lia]. done.
  - destruct (m_pendingSegments s !! key) as [p|] eqn:Ep; [done|]. intros [= <- <-]. split; [|done]. destruct (Hpre eq_refl) as [H1 H2].
    eapply going_insert; [exact Hs|done|done|done|done|]. cbn. lia.
Qed.

Lemma ok_fetchFirstSegment i retx : tripleP (fun s => going s /\ m_receivedSegments s = ∅) (fetchFirstSegment draws i retx) (fun _ => going) Inv.
Proof.
  intros s [Hs H0]. unfold fetchFirstSegment, refresh. steps. destruct (exec _ i) as [j|e]; [|by apply going_Inv].
  assert (Hgo : forall j, match sendInterest 0 j retx s with Some (s', Ok _) => going s' | Some (s', Throw _) => Inv s' | None => True end).
  { intros x. destruct (sendInterest 0 x retx s) as [[s' r]|] eqn:E; [|done].
    apply sendInterest_spec in E as (H & _); [|done|]; [destruct r; [done|by apply going_Inv]|]. intros _. split; [|done].
    by rewrite (proj2 (c_discovery s (proj1 Hs) H0)), lookup_empty. }
  destruct retx; [|apply Hgo]. destruct (Interest.refreshNonce _ j) as [x|]; [apply Hgo|done].
Qed.

(** *** The window *)

(** The segments to request that are not retransmissions have no content yet. *)
Definition requestable (b : gmap Z bytes) (l : list (Z * bool)) : Prop := Forall (fun x => snd x = false -> b !! fst x = None) l.

Definition with_content (b : gmap Z bytes) (s : t) : Prop := going s /\ m_segmentBuffer s = b /\ m_receivedSegments s <> ∅.

Lemma window_loop_spec b fuel : forall n, tripleP (with_content b) (window_loop fuel n) (fun l s => requestable b l /\ with_content b s) Inv.
Proof.
  assert (Hstep : forall (m : P t (list (Z * bool))) x, (snd x = false -> b !! fst x = None) ->
    tripleP (with_content b) m (fun l s => requestable b l /\ with_content b s) Inv ->
    tripleP (with_content b) (m ≫= fun l => mret (x :: l)) (fun l s => requestable b l /\ with_content b s) Inv).
  { intros m x Hx Hm. eapply tripleP_bind; [exact Hm|]. intros l s [H1 H2]. split; [by constructor|done]. }
  induction fuel as [|fuel IH]; intros n s Hs; cbn [window_loop]; (destruct (n <=? 0); [split; [constructor|done]|]); [done|].
  destruct Hs as (Hg & Hb & H0).
  assert (Hq : forall q, with_content b (with_retxQueue q s)).
  { intros q. split; [|done]. by apply (going_same s). }
  assert (Hn : forall q, with_content b (with_nextSegmentNum q s)).
  { intros q. split; [|done]. by apply (going_same s). }
  erewrite bindP_run by done. destruct (m_retxQueue s) as [|front rest].
  - destruct (_ || _); [|split; [constructor|done]]. erewrite bindP_run by done.
    destruct (bool_decide _) eqn:Eb; [by apply IH|]. apply (Hstep _ (m_nextSegmentNum s, false)); [|apply IH|apply Hn].
    intros _. apply bool_decide_eq_false in Eb. simpl. rewrite <- Hb. by apply eq_None_not_Some.
  - erewrite bindP_run by done. destruct (m_pendingSegments s !! front) as [p|]; [|by apply IH].
    destruct (negb _); [done|]. apply (Hstep _ (front, true)); [done|apply IH|apply Hq].
Qed.

Lemma request_loop_spec b i l : requestable b l -> tripleP (with_content b) (request_loop conv sha256 draws i l) (fun _ => with_content b) Inv.
Proof.
  induction 1 as [|[key retx] l Hx Hl IH]; cbn [request_loop]; [by intros s Hs|]. intros s (Hg & Hb & H0). unfold refresh. steps.
  destruct (Name.appendSegment conv key _) as [n|]; [|by apply going_Inv]. destruct (exec _ i) as [j|]; [|by apply going_Inv].
  destruct (Interest.refreshNonce _ j) as [x|]; [|done]. destruct (sendInterest key x retx s) as [[s' r]|] eqn:E; [|done].
  apply sendInterest_spec in E as (Hg' & Hb' & Hr'); [|done|].
  - destruct r; [|by apply going_Inv]. apply IH. split; [done|]. split; congruence.
  - intros ->. split; [|done]. rewrite Hb. by apply Hx.
Qed.

(** *** The end of the transfer *)

Lemma announced_range log n : announced log n -> - 2 ^ 63 <= n < 2 ^ 63.
Proof. intros (d & c & m & _ & _ & _ & ->). unfold i64. pose proof (Z.mod_pos_bound (u64 (m + 1) + 2 ^ 63) (2 ^ 64) ltac:(lia)). lia. Qed.

(** All segments are there. *)
Definition all_received (s : t) : Prop :=
  m_nSegments s <> 0 /\ forall i, 0 <= i < u64 (m_nSegments s) -> i ∈ m_receivedSegments s.

Lemma ends_finalizeFetch : tripleP (fun s => going s /\ all_received s) (finalizeFetch stops) (fun _ => Inv) Inv.
Proof.
  intros s [[Hc Ho] [H0 Hall]]. unfold finalizeFetch. erewrite bindP_run by done. destruct (inOrder (m_options s)) eqn:Eo.
  { destruct (finish_run onInOrderComplete s eq_refl Ho) as (s' & -> & H); [by apply Core_append|done]. }
  destruct (_ <? _); [by steps|]. set (bs := (fun i => default [] (m_segmentBuffer s !! i)) <$> seqZ 0 (m_nSegments s)).
  destruct (finish_run (onComplete (mjoin bs)) s eq_refl Ho) as (s' & -> & H); [|done].
  pose proof (c_total s Hc H0) as Ha. pose proof (announced_range _ _ Ha) as Hr.
  assert (Hbs : contents (m_signals s) bs).
  { intros j b Hj. apply list_lookup_fmap_Some in Hj as (k & -> & Hk). apply lookup_seqZ in Hk as [-> Hlt].
    assert (Hu : u64 (m_nSegments s) = m_nSegments s) by (apply Z.mod_small; lia).
    destruct (proj1 (c_block s Hc Eo (0 + Z.of_nat j)) (Hall (0 + Z.of_nat j) ltac:(lia))) as [b Hb]. rewrite Hb.
    replace (u64 (Z.of_nat j)) with (0 + Z.of_nat j) by (unfold u64; rewrite Z.mod_small; lia). by apply (c_buffer s Hc). }
  destruct Hc as [C1 C2 C3 C4 C5 C6 [C7 C7'] C8 C9]. constructor; cbn; try done.
  - intros k b Hk. by apply has_mono, C4.
  - rewrite chunks_app by done. split; [done|]. by apply contents_mono.
  - intros Hn. by apply announced_mono, C8.
  - intros b [Hb|Hb%list_elem_of_singleton]%elem_of_app.
    + destruct (C9 b Hb) as (cs & n & H1 & H2 & H3 & H4 & H5). exists cs, n. split_and!; try done; [by apply contents_mono|by apply announced_mono].
    + injection Hb as ->. exists bs, (m_nSegments s). split_and!; try done; [by apply contents_mono|by apply announced_mono|].
      unfold bs. by rewrite length_fmap, length_seqZ.
Qed.

Lemma checkAll_spec b : tripleP (with_content b) checkAllSegmentsReceived (fun x s => with_content b s /\ (x = true -> all_received s)) Inv.
Proof.
  intros s (Hg & Hb & H0). unfold checkAllSegmentsReceived. steps. destruct (_ && _) eqn:E; [|done].
  split; [split; [by apply (going_same s)|done]|]. intros Hx%bool_decide_eq_true. bool_to_prop. split; [done|]. intros i Hi. cbn in *.
  destruct (decide (i ∈ m_receivedSegments s)) as [|Hn]; [done|]. exfalso.
  assert (Hin : i ∈ filter (fun i => i ∉ m_receivedSegments s) (seqZ 0 (u64 (m_nSegments s)))).
  { apply list_elem_of_filter. split; [done|]. apply elem_of_seqZ. lia. }
  rewrite Hx in Hin. by apply not_elem_of_nil in Hin.
Qed.

Lemma ends_fetchSegmentsInWindow i : tripleP (fun s => going s /\ m_receivedSegments s <> ∅) (fetchSegmentsInWindow conv sha256 draws stops i) (fun _ => Inv) Inv.
Proof.
  intros s [Hg H0]. assert (Hc : with_content (m_segmentBuffer s) s) by done. revert Hc. generalize (m_segmentBuffer s) at 1. intros b Hc.
  unfold fetchSegmentsInWindow. eapply (tripleP_bind (with_content b)); [apply checkAll_spec| |exact Hc]. intros finished. cbn beta.
  destruct finished.
  - eapply tripleP_conseq; [apply ends_finalizeFetch| |done|done]. intros s' [[Hg' _] Hall]. split; [done|auto].
  - intros s1 [Hs1 _]. erewrite bindP_run by done. destruct (availableWindow s1) as [n|]; [|done]. unfold definedP. erewrite bindP_run by done.
    eapply (tripleP_bind (with_content b)); [apply window_loop_spec| |exact Hs1]. intros l s2 [Hl Hs2].
    pose proof (request_loop_spec b i l Hl s2 Hs2) as H. destruct (request_loop _ _ _ _ _ _) as [[s3 [|]]|]; [|done..]. apply going_Inv, H.
Qed.

(** *** Programs that leave the segments alone *)

Definition segments (s : t) := (m_segmentBuffer s, m_receivedSegments s, m_options s).

Definition frames {A} (m : P t A) : Prop := forall x,
  tripleP (fun s => going s /\ segments s = x) m (fun _ s => going s /\ segments s = x) Inv.

Lemma frames_bind {A B} (m : P t A) (k : A -> P t B) : frames m -> (forall a, frames (k a)) -> frames (m ≫= k).
Proof. intros Hm Hk x. eapply tripleP_bind; [apply Hm|]. intros a. apply Hk. Qed.

Lemma frames_lift {A} (r : result A) : frames (liftP r).
Proof. intros x. apply tripleP_lift. intros s [Hs _]. by apply going_Inv. Qed.

Lemma frames_ret {A} (a : A) : frames (mret a).
Proof. by intros x s Hs. Qed.

Lemma frames_self : frames selfP.
Proof. by intros x s Hs. Qed.

Lemma frames_defined {A} (y : option A) : frames (definedP y).
Proof. intros x s Hs. unfold definedP. by destruct y. Qed.

Lemma frames_undefined {A} : frames (undefinedP : P t A).
Proof. by intros x s Hs. Qed.

Lemma frames_fewer (f : t -> t) : (forall s, view (f s) = view s /\ fewer s (f s) /\ m_options (f s) = m_options s) -> frames (modifyP f).
Proof.
  intros H x s [Hs Hx]. destruct (H s) as (H1 & H2 & H3). split; [by apply (going_fewer s)|]. rewrite <- Hx. unfold segments.
  injection H1 as -> -> _ _ _ _ _. by rewrite H3.
Qed.

Lemma frames_same (f : t -> t) : (forall s, view (f s) = view s /\ m_pendingSegments (f s) = m_pendingSegments s /\ m_next (f s) = m_next s /\ m_options (f s) = m_options s) ->
  frames (modifyP f).
Proof. intros H. apply frames_fewer. intros s. destruct (H s) as (H1 & H2 & H3 & H4). split_and!; try done. apply fewer_refl; [done|lia]. Qed.

Lemma segments_stopped s : segments (stopped s) = segments s.
Proof. unfold stopped, clearPending. generalize (snd <$> map_to_list (m_pendingSegments s)). intros l. induction l as [|p l IH]; [done|exact IH]. Qed.

Lemma frames_emit sg : plain sg -> frames (emit stops sg).
Proof.
  intros Hp x s [Hs Hx]. pose proof (going_emitted sg s (going_append sg s Hp Hs)) as H. rewrite emit_run in *. split; [by apply H|].
  case_match; [|done]. by rewrite segments_stopped.
Qed.

Lemma frames_landed : frames landed.
Proof. unfold landed. apply frames_bind; [apply frames_self|]. intros s. case_match; [apply frames_undefined|by apply frames_same]. Qed.

Lemma fewer_erase key s : view (erasePending key s) = view s /\ fewer s (erasePending key s) /\ m_options (erasePending key s) = m_options s.
Proof.
  unfold erasePending. destruct (m_pendingSegments s !! key) as [p|]; [|split_and!; try done; by apply fewer_refl]. split_and!; try done.
  split; [done|]. intros k q. cbn. intros [_ Hq]%lookup_delete_Some. by exists q.
Qed.

Lemma frames_excess l : frames (excess_loop l).
Proof.
  induction l as [|key l IH]; cbn [excess_loop]; [apply frames_ret|]. apply frames_bind; [apply frames_self|]. intros s.
  apply frames_bind; [|by intros _]. case_match; [|apply frames_ret]. apply frames_bind; [apply frames_fewer; apply fewer_erase|]. intros _. apply frames_landed.
Qed.

Lemma frames_windowDecrease : frames windowDecrease.
Proof.
  unfold windowDecrease. apply frames_bind; [apply frames_self|]. intros s. case_match; [|apply frames_ret].
  apply frames_bind; [by apply frames_same|]. intros _. case_match; [case_match; [apply frames_ret|apply frames_undefined]|].
  apply frames_bind; [|intros _]; by apply frames_same.
Qed.

Lemma frames_windowIncrease : frames windowIncrease.
Proof.
  unfold windowIncrease. apply frames_bind; [apply frames_self|]. intros s. case_match; [case_match; [apply frames_ret|apply frames_undefined]|].
  case_match; [by apply frames_same|]. apply frames_bind; [apply frames_defined|]. intros f. by apply frames_same.
Qed.

(** *** Delivery in order *)

Definition deliverable (s : t) : Prop :=
  going s /\ inOrder (m_options s) = true /\ m_receivedSegments s <> ∅ /\ is_Some (m_segmentBuffer s !! m_nextSegmentInOrder s).

Definition take_first (s : t) : t :=
  with_nextSegmentInOrder (u64 (m_nextSegmentInOrder s + 1)) (with_segmentBuffer (delete (m_nextSegmentInOrder s) (m_segmentBuffer s)) s).

Lemma going_deliver s b : deliverable s -> m_segmentBuffer s !! m_nextSegmentInOrder s = Some b -> going (take_first (append (onInOrderData b) s)).
Proof.
  intros ([[C1 C2 C3 C4 C5 C6 [C7 C7'] C8 C9] Ho] & Hi & Hr & _) Hb.
  assert (Hch : chunks (m_signals s ++ [onInOrderData b]) = chunks (m_signals s) ++ [b]) by (unfold chunks; by rewrite omap_app).
  split; [|cbn; apply Forall_app; split; [done|by repeat constructor]]. constructor; cbn -[chunks]; try done.
  - intros k Hk. rewrite lookup_delete_None. right. by apply C2.
  - congruence.
  - intros k c [_ Hc]%lookup_delete_Some. by apply has_mono, C4.
  - rewrite Hch, len_app. split.
    + rewrite <- C7. unfold u64. by rewrite Zplus_mod_idemp_l.
    + intros j c [Hj|[Hj Hc]]%lookup_app_Some; [by apply has_mono, C7'|]. apply list_lookup_singleton_Some in Hc as [Hz <-].
      apply has_mono. replace j with (length (chunks (m_signals s))) by lia. fold (len (chunks (m_signals s))). rewrite C7. by apply C4.
  - intros Hn. by apply announced_mono, C8.
  - intros c [Hc|Hc%list_elem_of_singleton]%elem_of_app; [|done].
    destruct (C9 c Hc) as (bs & n & H1 & H2 & H3 & H4 & H5). exists bs, n. split_and!; try done; [by apply contents_mono|by apply announced_mono].
Qed.

Lemma take_first_stopped s : view (take_first (stopped s)) = view (take_first s) /\ m_next (take_first (stopped s)) = m_next (take_first s) /\
  segments (take_first (stopped s)) = segments (take_first s).
Proof.
  unfold stopped, clearPending. generalize (snd <$> map_to_list (m_pendingSegments s)). intros l. induction l as [|p l IH]; [done|exact IH].
Qed.

Lemma deliver_loop_spec fuel : tripleP deliverable (deliver_loop stops fuel) (fun _ s => going s /\ m_receivedSegments s <> ∅) Inv.
Proof.
  induction fuel as [|fuel IH]; intros s Hs; cbn [deliver_loop]; [done|]. erewrite bindP_run by done.
  destruct Hs as (Hg & Hi & Hr & [b Hb]). rewrite Hb. cbn [default from_option]. erewrite bindP_run by apply emit_run.
  set (s1 := if stops (m_signals s ++ [onInOrderData b]) && m_this s then stopped (append (onInOrderData b) s) else append (onInOrderData b) s). erewrite bindP_run by done. erewrite bindP_run by done. erewrite bindP_run by done.
  change (with_nextSegmentInOrder _ _) with (take_first s1).
  assert (H1 : going (take_first s1) /\ segments (take_first s1) = segments (take_first s)).
  { assert (Hd : going (take_first (append (onInOrderData b) s))) by (apply going_deliver; [|done]; by split_and!).
    unfold s1. destruct (_ && _); [|by split]. destruct (take_first_stopped (append (onInOrderData b) s)) as (H1 & H2 & H3).
    split; [|by rewrite H3]. eapply going_fewer; [exact H1| |exact Hd]. split; [by rewrite H2|]. intros k p Hp. cbn in Hp. by rewrite lookup_empty in Hp. }
  destruct H1 as [H1 H2]. injection H2 as E1 E2 E3. rewrite <- E2 in Hr.
  destruct (bool_decide _) eqn:Eb; [|by split]. apply bool_decide_eq_true in Eb. apply IH. split_and!; try done. by rewrite <- E3 in Hi.
Qed.

(** *** The validated segment *)

Lemma going_total s n : going s -> announced (m_signals s) n -> going (with_nSegments n s).
Proof. intros [[C1 C2 C3 C4 C5 C6 C7 C8 C9] Ho] Hn. by split. Qed.

Lemma takeFinalBlock_spec d x : tripleP (fun s => going s /\ segments s = x /\ afterSegmentValidated d ∈ m_signals s) (takeFinalBlock conv stops (untag d))
  (fun go s => if go : bool then going s /\ segments s = x else Inv s) Inv.
Proof.
  intros s (Hg & Hx & Hd). unfold takeFinalBlock. destruct (MetaInfo.m_finalBlockId _) as [c|] eqn:Ec; [|done].
  destruct (negb _).
  { eapply tripleP_bind; [apply ends_signalError| |exact Hg]. by intros a s' Hs'. }
  destruct (Component.toSegment conv c) as [n|e] eqn:En; [|by apply going_Inv]. erewrite bindP_run by done. erewrite bindP_run by done.
  destruct (negb _); [|by steps]. unfold cancelExcessInFlightSegments.
  assert (Hs1 : going (with_nSegments (i64 (u64 (n + 1))) s)).
  { apply going_total; [done|]. by exists d, c, n. }
  eapply (tripleP_bind (fun s1 => s1 = s)); [|intros a; exact (fun s' H => H)|done]. intros ? ->.
  erewrite bindP_run by done. erewrite bindP_run by done. by apply (frames_excess _ x).
Qed.

(** What a validation needs of the state when it ends. *)
Definition current (v : Validation) (s : t) : Prop := (v_node v < m_next s)%nat /\
  forall p, m_pendingSegments s !! v_segment v = Some p -> node p = v_node v ->
    segment_of (v_data v) = Some (v_segment v) \/ m_receivedSegments s = ∅.

Lemma segment_absent s v p n : going s -> current v s -> m_pendingSegments s !! v_segment v = Some p -> node p = v_node v ->
  segment_of (v_data v) = Some n -> m_segmentBuffer s !! n = None.
Proof.
  intros [Hc _] [_ Hv] Hp Hn Hseg. destruct (Hv p Hp Hn) as [E|E].
  - rewrite Hseg in E. injection E as ->. apply (c_disjoint s Hc). by exists p.
  - by rewrite (proj2 (c_discovery s Hc E)), lookup_empty.
Qed.

Lemma going_record s s' v p n : going s -> current v s -> m_pendingSegments s !! v_segment v = Some p -> node p = v_node v ->
  segment_of (v_data v) = Some n ->
  m_receivedSegments s' = {[n]} ∪ m_receivedSegments s ->
  m_segmentBuffer s' = <[n := Block.value (Data.m_content (untag (v_data v)))]> (m_segmentBuffer s) ->
  m_pendingSegments s' = delete (v_segment v) (m_pendingSegments s) ->
  (m_validations s', m_signals s', m_nextSegmentInOrder s', m_nSegments s', inOrder (m_options s'), m_next s') =
  (m_validations s, m_signals s ++ [afterSegmentValidated (v_data v)], m_nextSegmentInOrder s, m_nSegments s, inOrder (m_options s), m_next s) ->
  going s'.
Proof.
  intros Hg Hv Hp Hn Hseg E1 E2 E3 E4. pose proof (segment_absent _ _ _ _ Hg Hv Hp Hn Hseg) as Habs. destruct Hg as [Hc Ho]. destruct Hv as [Hlt Hv].
  assert (Hdisc : m_receivedSegments s = ∅ -> forall k, is_Some (m_pendingSegments s !! k) -> k = v_segment v).
  { intros E k Hk. destruct (c_discovery s Hc E) as [H _]. rewrite (H _ Hk). symmetry. apply H. by exists p. }
  assert (Hnew : has (m_signals s ++ [afterSegmentValidated (v_data v)]) n (Block.value (Data.m_content (untag (v_data v))))).
  { exists (v_data v). split; [|done]. apply elem_of_app. right. by left. }
  injection E4 as F1 F2 F3 F4 F5 F6.
  split; [|rewrite F2; apply Forall_app; split; [done|by repeat constructor]].
  destruct Hc as [C1 C2 C3 C4 C5 C6 [C7 C7'] C8 C9]. constructor; rewrite ?E1, ?E2, ?E3, ?F1, ?F2, ?F3, ?F4, ?F5, ?F6.
  - intros E. exfalso. set_solver.
  - intros k [q [Hk Hq]%lookup_delete_Some]. destruct (decide (k = n)) as [->|Hkn]; [|rewrite lookup_insert_ne by done; apply C2; by exists q].
    exfalso. destruct (Hv p Hp Hn) as [E|E]; [rewrite Hseg in E; congruence|]. apply Hk. symmetry. apply (Hdisc E). by exists q.
  - intros Hi k. rewrite elem_of_union, elem_of_singleton, (C3 Hi k). destruct (decide (k = n)) as [->|Hkn].
    + rewrite lookup_insert_eq. split; [by eexists|by left].
    + rewrite lookup_insert_ne by done. split; [by intros [?|?]|by right].
  - intros k b. destruct (decide (k = n)) as [->|Hkn]; [rewrite lookup_insert_eq; by intros [= <-]|].
    rewrite lookup_insert_ne by done. intros Hb. by apply has_mono, C4.
  - intros k q [_ Hq]%lookup_delete_Some. by apply (C5 k).
  - intros j w Hj. destruct (C6 j w Hj) as [H1 H2]. split; [done|]. intros q [Hk Hq]%lookup_delete_Some Hnode.
    destruct (H2 q Hq Hnode) as [E|E]; [by left|]. exfalso. apply Hk. symmetry. apply (Hdisc E). by exists q.
  - rewrite chunks_app by done. split; [done|]. by apply contents_mono.
  - intros H0. by apply announced_mono, C8.
  - intros b [Hb|Hb%list_elem_of_singleton]%elem_of_app; [|done].
    destruct (C9 b Hb) as (bs & m & H1 & H2 & H3 & H4 & H5). exists bs, m. split_and!; try done; [by apply contents_mono|by apply announced_mono].
Qed.

(** A step that may update the estimator. *)
Definition measured (s s' : t) : Prop := exists e, s' = with_rttEstimator e s.

Lemma recordSegment_spec v : tripleP (fun s => going s /\ current v s) (recordSegment conv stops v)
  (fun n s => going s /\ m_receivedSegments s <> ∅ /\ is_Some (m_segmentBuffer s !! n) /\ afterSegmentValidated (v_data v) ∈ m_signals s) Inv.
Proof.
  intros s [Hg Hv]. unfold recordSegment. erewrite bindP_run by done. erewrite bindP_run by done.
  destruct (Name.get (-1) _) as [c|] eqn:Ec; [|done]. unfold definedP at 1. erewrite bindP_run by done.
  destruct (Component.toSegment conv c) as [n|] eqn:En; [|apply going_Inv; by apply (going_same s)].
  assert (Hseg : segment_of (v_data v) = Some n) by (unfold segment_of; rewrite Ec; simpl; by rewrite En).
  erewrite bindP_run by done. erewrite bindP_run by done. erewrite bindP_run by done.
  set (s1 := with_receivedSegments _ _). change (m_pendingSegments s1) with (m_pendingSegments s).
  destruct (m_pendingSegments s !! v_segment v) as [p|] eqn:Ep; [|done]. unfold definedP at 1. erewrite bindP_run by done.
  destruct (bool_decide (node p = v_node v)) eqn:Hn; [|done]. apply bool_decide_eq_true in Hn. cbn [negb].
  eapply (tripleP_bind (fun x => x = s1) _ _ (fun _ s2 => s2 = s1 \/ measured s1 s2)); [| |done].
  - intros ? ->. destruct (bool_decide _); [|by left]. destruct (_ <? 0); [done|].
    destruct (RttEstimator.addMeasurement _ _ _) as [e|]; [|done]. steps. right. by exists e.
  - intros _ s2 Hs2.
    assert (Hsame : view s2 = view s1 /\ m_pendingSegments s2 = m_pendingSegments s /\ m_next s2 = m_next s) by (destruct Hs2 as [->|[e ->]]; done).
    clear Hs2. destruct Hsame as (Hview & Hpend & Hnext). injection Hview as E1 E2 E3 E4 E5 E6 E7.
    erewrite bindP_run by done. erewrite bindP_run by done.
    assert (Her : m_segmentBuffer (erasePending (v_segment v) s2) = m_segmentBuffer s2) by (unfold erasePending; by case_match).
    unfold storeSegment. rewrite Her, E2. change (m_segmentBuffer s1) with (m_segmentBuffer s).
    rewrite (segment_absent s v p n Hg Hv Ep Hn Hseg). erewrite bindP_run by done. erewrite bindP_run by done. erewrite bindP_run by done.
    set (s3 := with_nBytesReceived _ _).
    assert (Hg3 : going (append (afterSegmentValidated (v_data v)) s3)).
    { eapply (going_record s _ v p n); try done; unfold s3, erasePending; rewrite Hpend, Ep; cbn; rewrite ?E1, ?E2, ?E3, ?E4, ?E5, ?E6, ?E7, ?Hnext; try done. }
    erewrite bindP_run by apply emit_run. cbn [mret P_ret]. unfold mret, P_ret.
    split; [eapply going_emitted; [exact Hg3|apply emit_run]|].
    assert (Hx : forall x, x = append (afterSegmentValidated (v_data v)) s3 \/ x = stopped (append (afterSegmentValidated (v_data v)) s3) ->
      segments x = segments s3 /\ m_signals x = m_signals s3 ++ [afterSegmentValidated (v_data v)]).
    { intros x [-> | ->]; [done|]. by rewrite segments_stopped, signals_stopped. }
    match goal with |- context [m_signals ?x] => specialize (Hx x ltac:(case_match; auto)); revert Hx; generalize x end.
    intros x [H1 H2]. apply pair_eq in H1 as [[H3 H4]%pair_eq _]. rewrite H2, H3, H4. unfold s3. cbn. rewrite lookup_insert_eq.
    split; [|split; [by eexists|apply elem_of_app; right; by left]].
    unfold erasePending. rewrite Hpend, Ep. cbn. rewrite E1. unfold s1. cbn. set_solver.
Qed.

Lemma advance_spec d i n : tripleP (fun s => going s /\ m_receivedSegments s <> ∅) (advance conv sha256 draws stops d i n) (fun _ => Inv) Inv.
Proof.
  assert (Hf : forall A (m : P t A), frames m -> tripleP (fun s => going s /\ m_receivedSegments s <> ∅) m (fun _ s => going s /\ m_receivedSegments s <> ∅) Inv).
  { intros A m Hm s [Hg Hr]. specialize (Hm (segments s) s ltac:(done)). destruct (m s) as [[s' [a|e]]|]; [|done..].
    destruct Hm as [H1 H2]. split; [done|]. injection H2 as _ -> _. done. }
  unfold advance. eapply tripleP_bind; [apply Hf, frames_self|]. intros s0.
  eapply tripleP_bind; [apply Hf|intros ?]; [|eapply tripleP_bind; [apply Hf|intros ?]; [|eapply tripleP_bind; [apply Hf|intros ?; apply ends_fetchSegmentsInWindow]]].
  - case_match; [|apply frames_ret]. apply frames_bind; [apply frames_lift|]. intros name. apply frames_bind; [by apply frames_same|]. intros _.
    case_match; [by apply frames_same|apply frames_ret].
  - apply frames_same. intros s. by case_match.
  - case_match; [apply frames_windowDecrease|apply frames_windowIncrease].
Qed.

(** *** Callbacks *)

Lemma running s : Inv s -> m_this s = true -> going s.
Proof. intros [Hc [Ho|[Hf _]]] Ht; [done|congruence]. Qed.

(** A callback that does nothing once the fetcher is stopped. *)
Lemma guarded {A} (pre : t -> Prop) (a : A) (m : P t A) : tripleP (fun s => going s /\ pre s) m (fun _ => Inv) Inv ->
  tripleP (fun s => Inv s /\ pre s) (st ← shouldStop; if st : bool then mret a else m) (fun _ => Inv) Inv.
Proof.
  intros Hm s [Hs Hp]. unfold shouldStop. steps. destruct (m_this s) eqn:Et; [|done]. apply Hm. split; [|done]. by apply running.
Qed.

Lemma guarded_ends {A} (a : A) (m : P t A) : ends m -> tripleP Inv (st ← shouldStop; if st : bool then mret a else m) (fun _ => Inv) Inv.
Proof. intros Hm s Hs. apply (guarded (fun _ => True)); [|done]. intros x [Hx _]. by apply Hm. Qed.

Lemma ok_landed : ok landed.
Proof.
  intros x Hx. pose proof (frames_landed (segments x) x (conj Hx eq_refl)) as H. destruct (landed x) as [[s' [|]]|]; [by destruct H|done..].
Qed.

Lemma find_lookup key s k p : find key s = Some (k, p) -> m_pendingSegments s !! k = Some p /\ k = key.
Proof. unfold find. intros H. apply fmap_Some in H as (q & Hq & [= -> ->]). done. Qed.

Lemma begin_lookup s k p : begin s = Some (k, p) -> m_pendingSegments s !! k = Some p.
Proof. unfold begin. destruct (keys _) as [|key l]; [done|]. intros H. apply fmap_Some in H as (q & Hq & [= -> ->]). done. Qed.

Lemma ends_afterNackOrTimeout i : ends (afterNackOrTimeout conv sha256 draws stops i).
Proof.
  intros s Hg. unfold afterNackOrTimeout. erewrite bindP_run by done. destruct (_ <=? _); [by apply ends_signalError|].
  destruct (Name.get (-1) _) as [c|]; [|done]. erewrite bindP_run by done.
  eapply (tripleP_bind (fun x => x = s) _ _ (fun it x => x = s /\ m_pendingSegments s !! fst it = Some (snd it))); [| |done].
  { intros ? ->. destruct (Component.isSegment conv c).
    - destruct (Component.toSegment conv c) as [n|]; [|by apply going_Inv]. erewrite bindP_run by done.
      destruct (find n s) as [[k p]|] eqn:Ef; [|done]. split; [done|]. by apply find_lookup in Ef as [? _].
    - destruct (begin s) as [[k p]|] eqn:Ef; [|done]. split; [done|]. by apply begin_lookup in Ef. }
  intros [key p] ? [-> Hp]. cbn [fst snd] in Hp. erewrite bindP_run by done. erewrite bindP_run by done.
  destruct (RttEstimator.backoffRto _) as [e|]; [|done]. erewrite bindP_run by done. erewrite bindP_run by done. set (s1 := with_rttEstimator _ _).
  assert (Hg1 : going s1). { eapply going_fewer; [| |exact Hg]; [done|]. eapply (fewer_update s s1 key p); [exact Hp| |reflexivity|done]. done. }
  destruct (bool_decide _) eqn:E0.
  { apply bool_decide_eq_true in E0. pose proof (ok_fetchFirstSegment i true s1 (conj Hg1 E0)) as H.
    destruct (fetchFirstSegment _ _ _ s1) as [[s' [|]]|]; [|done..]. by apply going_Inv. }
  apply bool_decide_eq_false in E0. assert (Hs1 : segments s1 = segments s) by done.
  eapply (tripleP_bind _ _ _ _ _ _ (frames_windowDecrease (segments s))); [|exact (conj Hg1 Hs1)]. intros _ s2 [Hg2 Hs2].
  erewrite bindP_run by done. apply ends_fetchSegmentsInWindow. split; [by apply (going_same s2)|]. cbn. injection Hs2 as _ -> _. done.
Qed.

Lemma afterTimeoutCb_keeps i : tripleP Inv (afterTimeoutCb conv sha256 draws stops i) (fun _ => Inv) Inv.
Proof.
  apply guarded_ends. apply ends_bind; [by apply ok_emit|]. intros _. apply ends_bind; [apply ok_landed|]. intros _. apply ends_afterNackOrTimeout.
Qed.

Lemma afterNackReceivedCb_keeps i nack : tripleP Inv (afterNackReceivedCb conv sha256 draws stops i nack) (fun _ => Inv) Inv.
Proof.
  apply guarded_ends. apply ends_bind; [by apply ok_emit|]. intros _. apply ends_bind; [apply ok_landed|]. intros _.
  cbv beta zeta. destruct (_ || _); [apply ends_afterNackOrTimeout|apply ends_signalError].
Qed.

(** A validation begins. *)
Lemma going_validation s v w : going s -> current v s -> going (with_validations (<[w := v]> (m_validations s)) s).
Proof.
  intros [[C1 C2 C3 C4 C5 C6 C7 C8 C9] Ho] Hv. split; [|done]. constructor; cbn; try done. intros j u.
  destruct (decide (j = w)) as [->|Hj]; [rewrite lookup_insert_eq; by intros [= <-]|]. rewrite lookup_insert_ne by done. apply C6.
Qed.

Lemma afterSegmentReceivedCb_keeps i d : tripleP Inv (afterSegmentReceivedCb conv stops i d) (fun _ => Inv) Inv.
Proof.
  apply guarded_ends. apply ends_bind; [apply ok_landed|]. intros _ s Hg.
  destruct (Name.get (-1) _) as [c|] eqn:Ec; [|done]. erewrite bindP_run by done. destruct (negb _); [by apply ends_signalError|].
  destruct (Component.toSegment conv c) as [n|] eqn:En; [|by apply going_Inv]. erewrite bindP_run by done. erewrite bindP_run by done.
  assert (Hseg : segment_of d = Some n) by (unfold segment_of; rewrite Ec; simpl; by rewrite En).
  destruct (if bool_decide _ then _ else _) as [[key p]|] eqn:Ef; [|by apply going_Inv].
  assert (Hp : m_pendingSegments s !! key = Some p /\ (segment_of d = Some key \/ m_receivedSegments s = ∅)).
  { destruct (bool_decide _) eqn:E0; [apply bool_decide_eq_true in E0; apply begin_lookup in Ef; by auto|].
    apply find_lookup in Ef as [? ->]. by auto. }
  destruct Hp as [Hp Hor]. pose proof (c_nodes s (proj1 Hg) key p Hp) as Hlt. erewrite bindP_run by done.
  set (s1 := cancelEvent _ s). assert (Hg1 : going s1) by by apply (going_same s).
  assert (Hpl : plain (afterSegmentReceived d)) by done.
  pose proof (frames_emit _ Hpl (segments s1) s1 (conj Hg1 eq_refl)) as He. rewrite emit_run in He.
  erewrite bindP_run by apply emit_run. erewrite bindP_run by done. revert He. set (s2 := if stops _ && _ then _ else _). intros [Hg2 Hs2].
  assert (Hn2 : m_next s2 = m_next s).
  { unfold s2. destruct (_ && _); [|done]. unfold stopped, clearPending. generalize (snd <$> map_to_list (m_pendingSegments (append (afterSegmentReceived d) s1))).
    intros l. induction l as [|q l IH]; [done|exact IH]. }
  apply going_Inv. eapply (going_validation (with_next (S (m_next s2)) s2)); [apply (going_same s2); try done; simpl; lia|].
  split; [simpl; lia|]. intros q Hq Hnode. destruct Hor as [Hor|Hor]; [by left|right]. cbn. injection Hs2 as _ -> _. done.
Qed.

Lemma afterValidationSuccess_keeps v : tripleP (fun s => Inv s /\ current v s) (afterValidationSuccess conv sha256 draws stops v) (fun _ => Inv) Inv.
Proof.
  apply guarded. eapply tripleP_bind; [apply recordSegment_spec|]. intros n s (Hg & Hr & Hb & Hd).
  eapply (tripleP_bind _ _ _ _ _ _ (takeFinalBlock_spec (v_data v) (segments s))); [|exact (conj Hg (conj eq_refl Hd))].
  intros [] s1 Hs1; [|exact Hs1]. destruct Hs1 as [Hg1 Hs1]. apply pair_eq in Hs1 as [[H1 H2]%pair_eq H3].
  cbn [negb]. erewrite bindP_run by done. rewrite <- H2 in Hr. rewrite <- H1 in Hb.
  eapply (tripleP_bind (fun x => x = s1) _ _ (fun _ x => going x /\ m_receivedSegments x <> ∅)); [|intros ?; apply advance_spec|done].
  intros ? ->. destruct (_ && _) eqn:E; [|done]. apply andb_true_iff in E as [E1 E2]. apply Z.eqb_eq in E2.
  apply deliver_loop_spec. split_and!; try done. by rewrite E2.
Qed.

Lemma Inv_same s s' : view s' = view s -> m_pendingSegments s' = m_pendingSegments s -> m_next s' = m_next s -> m_this s' = m_this s -> Inv s -> Inv s'.
Proof.
  intros Hv Hp Hn Ht [Hc Ho]. split; [eapply Core_fewer; [exact Hv| |done]; apply fewer_refl; [done|lia]|].
  injection Hv as _ _ _ -> _ _ _. by rewrite Ht.
Qed.

Lemma Inv_validated s id : Inv s -> Inv (with_validations (delete id (m_validations s)) s).
Proof.
  intros [[C1 C2 C3 C4 C5 C6 C7 C8 C9] Ho]. split; [|done]. constructor; cbn; try done. intros j v [_ Hj]%lookup_delete_Some. by apply (C6 j).
Qed.

Lemma Inv_stop s : Inv s -> Inv (if m_this s then stopped s else s).
Proof.
  intros Hs. destruct (m_this s) eqn:Et; [|done]. pose proof (running s Hs Et) as [Hc Ho]. split; [by apply Core_stopped|].
  left. by rewrite signals_stopped.
Qed.

(** Every event preserves the invariant, also when the callback throws. *)
Lemma handle_keeps e : tripleP Inv (handle conv sha256 draws stops e) (fun _ => Inv) Inv.
Proof.
  intros s Hs. unfold handle. erewrite bindP_run by done. destruct e as [id d|id nack|id|id|id success|d|].
  - destruct (m_face s !! id) as [i|]; [|done]. do 2 erewrite bindP_run by done. apply afterSegmentReceivedCb_keeps. by apply (Inv_same s).
  - destruct (m_face s !! id) as [i|]; [|done]. do 2 erewrite bindP_run by done. apply afterNackReceivedCb_keeps. by apply (Inv_same s).
  - destruct (m_face s !! id) as [i|]; [|done]. erewrite bindP_run by done. by apply (Inv_same s).
  - destruct (m_timers s !! id) as [[due i]|]; [|done]. erewrite bindP_run by done. cbv beta iota. destruct (due <=? m_clock s); [|done].
    erewrite bindP_run by done. apply afterTimeoutCb_keeps. by apply (Inv_same s).
  - destruct (m_validations s !! id) as [v|] eqn:Ev; [|done]. do 2 erewrite bindP_run by done. destruct success.
    + apply afterValidationSuccess_keeps. split; [by apply Inv_validated|]. exact (c_valid s (proj1 Hs) id v Ev).
    + apply guarded_ends; [apply ends_signalError|by apply Inv_validated].
  - destruct (d <? 0); [done|]. by apply (Inv_same s).
  - rewrite stop_run. by apply Inv_stop.
Qed.

(** What can happen to a fetcher. *)
Definition fetcher_step (s s' : t) : Prop := exists e r, handle conv sha256 draws stops e s = Some (s', r).

Definition reachable (s : t) : Prop := exists options now baseInterest s0,
  start draws options now baseInterest = Some (Ok s0) /\ rtc fetcher_step s0 s.

Lemma start_Inv options now i s : start draws options now i = Some (Ok s) -> Inv s.
Proof.
  unfold start, create. destruct (RttEstimator.create _) as [e|]; [|done]. destruct (validate options) as [[]|]; [|done]. cbn [mbind result_bind].
  set (s0 := with_this true _). assert (H0 : going s0).
  { assert (Hno : forall A k, ~ is_Some ((∅ : gmap Z A) !! k)) by (intros A k [x Hx]; by rewrite lookup_empty in Hx).
    split; [|constructor]. constructor; cbn; try done.
    - intros _. split; [|done]. intros k Hk. by apply Hno in Hk.
    - intros _ k. split; [set_solver|]. intros Hk. by apply Hno in Hk.
    - intros b Hb. by apply not_elem_of_nil in Hb. }
  pose proof (ok_fetchFirstSegment i false s0 (conj H0 eq_refl)) as H. destruct (fetchFirstSegment _ _ _ s0) as [[s1 [[]|]]|]; [|done..].
  intros [= <-]. by apply going_Inv.
Qed.

Lemma reachable_Inv s : reachable s -> Inv s.
Proof.
  intros (o & now & i & s0 & E & Hr). apply start_Inv in E. induction Hr as [|s0 s1 s2 (e & r & Hh) _ IH]; [done|]. apply IH.
  pose proof (handle_keeps e s0 E) as H. rewrite Hh in H. by destruct r.
Qed.

End facts.
End FetcherFacts.

Module FetcherTheorems.
Import SegmentFetcher FetcherFacts.


(** The loops of the fetcher end.  The loop that fills the window ends within
    the turns [window_fuel] gives it, when the segments in the retransmission
    queue that are still pending have the state the code asserts, for a buffer
    of less than 2^64 segments; and the loop that delivers in order ends, when
    it starts with a segment in the buffer, as it does. *)
Theorem fetcher_loops_end (stops : list signal -> bool) (s : t) (n : Z) :
  (is_u64 (m_nextSegmentNum s) -> Z.of_nat (size (m_segmentBuffer s)) < 2 ^ 64 -> queue_ok s ->
   exists s' l, window_loop (window_fuel n s) n s = Some (s', Ok l)) /\
  (is_Some (m_segmentBuffer s !! m_nextSegmentInOrder s) -> exists s', deliver_loop stops (S (size (m_segmentBuffer s))) s = Some (s', Ok tt)).
Proof.
  split; [intros Hx Hs Hq; apply window_loop_total; [done..|by apply turns_fuel]|]. intros Hs. apply deliver_loop_total; [lia|done].
Qed.

(** *** Runs *)

Definition sample_conv : name.Conventions := name.defaultConventions.
Definition sample_draws (_ : nat) : list bytes := [str "wxyz"; str "abcd"].
Definition object : Name.t := InterestTheorems.name_A.

Definition segment (i : Z) : Component.t := match Component.fromSegment sample_conv i with Ok c => c | Throw _ => Block.empty end.

(** Segment [i] of an object whose last segment is [last]. *)
Definition packet (i last : Z) (content : string) : tagged Data.t :=
  Tagged (Data.mk (Name.append (segment i) object) (MetaInfo.mk 0 1000 (Some (segment last)) [] Block.empty)
    (Block.ofTypeValue tlv.Content (str content)) (SignatureInfo.make 0 None) (Block.ofTypeValue tlv.SignatureValue []) Block.empty Name.empty) TagHost.none.

Definition base_interest : Interest.t := Interest.mk object [] (Some (str "1234")) 4000 None false true [] Block.empty.

Fixpoint handle_all (l : list event) (s : t) : option t :=
  match l with
  | [] => Some s
  | e :: l =>
      match handle sample_conv InterestTheorems.toy_digest sample_draws (fun _ => false) e s with
      | Some (s, Ok _) => handle_all l s
      | _ => None
      end
  end.

Definition run_fetcher (options : Options) (l : list event) : option t :=
  match start sample_draws options 0 base_interest with Some (Ok s) => handle_all l s | _ => None end.

Lemma run_fetcher_reachable options l s : run_fetcher options l = Some s -> reachable sample_conv InterestTheorems.toy_digest sample_draws (fun _ => false) s.
Proof.
  unfold run_fetcher. destruct (start _ _ _ _) as [[s0|]|] eqn:E0; [|done..]. intros E. exists options, 0, base_interest, s0. split; [done|].
  clear E0. revert s0 E. induction l as [|e l IH]; intros s0 E; cbn [handle_all] in E; [injection E as ->; constructor|].
  destruct (handle _ _ _ _ e s0) as [[s1 [u|]]|] eqn:Eh; [|done..]. eapply rtc_l; [by exists e, (Ok u)|by apply IH].
Qed.

(** Two segments, each received and validated. *)
Definition two_segments : list event :=
  [Elapse 1000000; Satisfied 0 (packet 0 1 "hello "); Validated 3 true; Satisfied 4 (packet 1 1 "world"); Validated 7 true].

Definition completed (s : t) : bool := existsb (fun sg => match sg with onComplete b => bool_decide (b = str "hello world") | _ => false end) (m_signals s).

Lemma completed_spec s : completed s = true -> onComplete (str "hello world") ∈ m_signals s.
Proof.
  unfold completed. intros (sg & Hin & Hsg)%existsb_exists. apply list_elem_of_In in Hin. destruct sg; try done.
  apply bool_decide_eq_true in Hsg. by subst.
Qed.

Lemma two_segments_complete : exists s, run_fetcher (defaultOptions false) two_segments = Some s /\ completed s = true.
Proof.
  assert (E : match run_fetcher (defaultOptions false) two_segments with Some s => completed s | None => false end = true) by (vm_compute; reflexivity).
  destruct (run_fetcher (defaultOptions false) two_segments) as [s|]; [by exists s|done].
Qed.


(** A window of four, and the reaction to every loss. *)
Definition wide : Options := mkOptions 4000 60000 false false false true false false (Double.ofZ 4) Double.largest (Double.ofZ 1) (Double.ofRatio 1 1)
  RttEstimator.defaultOptions 25000.

(** Segment 1 times out while 2, 3 and 4 are on the way; the window is
    reduced, so that it waits in the queue, and then its Data arrives for the
    first Interest, which the face still had: it is counted twice as not in
    flight.  After the Data of segments 2 and 3 the count is 0 although
    segment 4 is on the way, and its Data fails the assertion. *)
Definition late_answer : list event :=
  [Elapse 1000000; Satisfied 0 (packet 0 4 "a"); Validated 3 true; Elapse 2000000000; TimedOut 5; Satisfied 4 (packet 1 4 "b"); Validated 16 true;
   Satisfied 7 (packet 2 4 "c"); Satisfied 10 (packet 3 4 "d")].

Example fetcher_flight_undercount :
  m_nSegmentsInFlight <$> run_fetcher wide late_answer = Some 0 /\ run_fetcher wide (late_answer ++ [Satisfied 13 (packet 4 4 "e")]) = None.
Proof. split; vm_compute; reflexivity. Qed.

End FetcherTheorems.
