(* ===== verification/FaceImpl.v ===== *)
(** * The face

    The consumer and producer side of a face ([face.cpp],
    [impl/face-impl.hpp]): what is posted to the io_service, what the posted
    tasks do with the tables, and what the transport delivers.  The transport,
    the bodies of the application's callbacks and the responses to the
    commands sent to the forwarder are the environment. *)

From stdpp Require Import list.
From S2P Require Import Prelude Tlv Encoding Blocks BlockHelpers Text NameComponents Names NameRegex.
From S2P Require Import Fields DataPacket InterestPacket LinkProtocol FaceTables.

Module Face.

(** ** State *)

Section types.
Context `{StdRegex} (callback transport : Type).

(** The posted tasks: the lambdas given to [io_service::post]. *)
Inductive task :=
| ExpressInterest (id : Z) (interest : tagged Interest.t) (afterSatisfied afterNacked afterTimeout : option callback)
| RemovePendingInterest (id : Z)
| RemoveAllPendingInterests
| PutData (data : tagged Data.t)
| PutNack (nack : tagged Nack.t)
| SetInterestFilter (id : Z) (filter : InterestFilter.t) (onInterest : option callback)
| UnsetInterestFilter (id : Z)
| UnregisterPrefix (id : Z) (onSuccess onFailure : option callback)
| CheckEmpty
| Shutdown
| EnsureConnected.

(** The commands that wait for a response: the lambdas given to the controller. *)
Inductive command :=
| RegisterCommand (id : Z) (prefix : Name.t) (onSuccess onFailure : option callback) (filter : option (InterestFilter.t * option callback))
| UnregisterCommand (id : Z) (onSuccess onFailure : option callback).

(** The calls of the application's callbacks, with the id of the pending
    Interest they answer. *)
Inductive event :=
| OnData (id : Z) (cb : callback) (interest : tagged Interest.t) (data : tagged Data.t)
| OnNack (id : Z) (cb : callback) (interest : tagged Interest.t) (nack : tagged Nack.t)
| OnTimeout (id : Z) (cb : callback) (interest : tagged Interest.t)
| OnInterest (cb : callback) (filter : InterestFilter.t) (interest : tagged Interest.t)
| OnRegistered (cb : callback) (prefix : Name.t)
| OnRegisterFailed (cb : callback) (prefix : Name.t) (reason : bytes)
| OnUnregistered (cb : callback)
| OnUnregisterFailed (cb : callback) (reason : bytes).

(** What a callback does with the face; [Raise] when it throws. *)
Inductive request :=
| expressInterest (interest : tagged Interest.t) (nonce : bytes) (afterSatisfied afterNacked afterTimeout : option callback)
| cancelPendingInterest (id : Z)
| removeAllPendingInterests
| putData (data : tagged Data.t)
| putNack (nack : tagged Nack.t)
| setInterestFilter (filter : InterestFilter.t) (onInterest : option callback)
| cancelInterestFilter (id : Z)
| registerPrefix (prefix : Name.t) (onSuccess onFailure : option callback) (filter : option (InterestFilter.t * option callback))
| unregisterPrefix (id : Z) (onSuccess onFailure : option callback)
| shutdown
| Raise (e : exn).

(** [ndn-cxx/impl/face-impl.hpp:407-417] Face::Impl
    [m_ioService]: the tasks posted and not yet run.  [m_now]: the clock of
    the scheduler.  [m_invoked]: the callbacks invoked so far, oldest first. *)
Record Impl := mk {
  m_pendingInterestTable : RecordContainer.t (PendingInterest.t callback);
  m_interestFilterTable : RecordContainer.t (InterestFilterRecord.t callback);
  m_registeredPrefixTable : RecordContainer.t RegisteredPrefix.t;
  m_ioService : list task;
  m_commands : list command;
  m_transport : transport;
  m_now : Z;
  m_invoked : list event;
}.

End types.
Arguments mk {_ _ _} _ _ _ _ _ _ _ _.
Arguments m_pendingInterestTable {_ _ _} _.
Arguments m_interestFilterTable {_ _ _} _.
Arguments m_registeredPrefixTable {_ _ _} _.
Arguments m_ioService {_ _ _} _.
Arguments m_commands {_ _ _} _.
Arguments m_transport {_ _ _} _.
Arguments m_now {_ _ _} _.
Arguments m_invoked {_ _ _} _.
Arguments ExpressInterest {_ _} _ _ _ _ _.
Arguments RemovePendingInterest {_ _} _.
Arguments RemoveAllPendingInterests {_ _}.
Arguments PutData {_ _} _.
Arguments PutNack {_ _} _.
Arguments SetInterestFilter {_ _} _ _ _.
Arguments UnsetInterestFilter {_ _} _.
Arguments UnregisterPrefix {_ _} _ _ _.
Arguments CheckEmpty {_ _}.
Arguments Shutdown {_ _}.
Arguments EnsureConnected {_ _}.
Arguments RegisterCommand {_ _} _ _ _ _ _.
Arguments UnregisterCommand {_ _} _ _ _.
Arguments OnData {_ _} _ _ _ _.
Arguments OnNack {_ _} _ _ _ _.
Arguments OnTimeout {_ _} _ _ _.
Arguments OnInterest {_ _} _ _ _.
Arguments OnRegistered {_ _} _ _.
Arguments OnRegisterFailed {_ _} _ _ _.
Arguments OnUnregistered {_ _} _.
Arguments OnUnregisterFailed {_ _} _ _.
Arguments expressInterest {_ _} _ _ _ _ _.
Arguments cancelPendingInterest {_ _} _.
Arguments removeAllPendingInterests {_ _}.
Arguments putData {_ _} _.
Arguments putNack {_ _} _.
Arguments setInterestFilter {_ _} _ _.
Arguments cancelInterestFilter {_ _} _.
Arguments registerPrefix {_ _} _ _ _ _.
Arguments unregisterPrefix {_ _} _ _ _.
Arguments shutdown {_ _}.
Arguments Raise {_ _} _.

(** ** Environment *)

(** The transport ([transport/transport.hpp]), what the callbacks do, and the
    process-wide settings of names and Interests. *)
Class FaceEnv `{StdRegex} (callback transport : Type) := {
  isConnected : transport -> bool;
  isReceiving : transport -> bool;
  connect : M transport unit;
  resume : M transport unit;
  pause : M transport unit;
  close : M transport unit;
  send : Block.t -> M transport unit;
  sha256 : bytes -> bytes;
  uriEnv : option bytes;
  autoCheck : bool;
  body : event callback -> Impl callback transport -> list (request callback);
}.

Section face.
Context {SR : StdRegex} {callback transport : Type} {FE : FaceEnv callback transport}.
Notation Impl := (Impl callback transport).

Definition with_pit x (s : Impl) : Impl := mk x (m_interestFilterTable s) (m_registeredPrefixTable s) (m_ioService s) (m_commands s) (m_transport s) (m_now s) (m_invoked s).
Definition with_filters x (s : Impl) : Impl := mk (m_pendingInterestTable s) x (m_registeredPrefixTable s) (m_ioService s) (m_commands s) (m_transport s) (m_now s) (m_invoked s).
Definition with_prefixes x (s : Impl) : Impl := mk (m_pendingInterestTable s) (m_interestFilterTable s) x (m_ioService s) (m_commands s) (m_transport s) (m_now s) (m_invoked s).
Definition with_ioService x (s : Impl) : Impl := mk (m_pendingInterestTable s) (m_interestFilterTable s) (m_registeredPrefixTable s) x (m_commands s) (m_transport s) (m_now s) (m_invoked s).
Definition with_commands x (s : Impl) : Impl := mk (m_pendingInterestTable s) (m_interestFilterTable s) (m_registeredPrefixTable s) (m_ioService s) x (m_transport s) (m_now s) (m_invoked s).
Definition with_transport x (s : Impl) : Impl := mk (m_pendingInterestTable s) (m_interestFilterTable s) (m_registeredPrefixTable s) (m_ioService s) (m_commands s) x (m_now s) (m_invoked s).
Definition with_now x (s : Impl) : Impl := mk (m_pendingInterestTable s) (m_interestFilterTable s) (m_registeredPrefixTable s) (m_ioService s) (m_commands s) (m_transport s) x (m_invoked s).
Definition with_invoked x (s : Impl) : Impl := mk (m_pendingInterestTable s) (m_interestFilterTable s) (m_registeredPrefixTable s) (m_ioService s) (m_commands s) (m_transport s) (m_now s) x.

(** A face after its construction, which posts the connection. *)
Definition init (t : transport) (now : Z) : Impl :=
  mk RecordContainer.init RecordContainer.init RecordContainer.init [EnsureConnected] [] t now [].

(** [m_face.getIoService().post(...)] *)
Definition post (t : task callback) : P Impl unit := modifyP (fun s => with_ioService (m_ioService s ++ [t]) s).

(** ** Interface

    The functions of [Face] only number records and post tasks, so a callback
    may call them at any time. *)

(** [ndn-cxx/impl/record-container.hpp:109-113] RecordContainer::allocateId, on the pending Interests *)
Definition allocatePending : P Impl Z := fun s =>
  match RecordContainer.allocateId (m_pendingInterestTable s) with
  | Some (id, c) => Some (with_pit c s, Ok id)
  | None => None
  end.

(** [ndn-cxx/impl/record-container.hpp:109-113] RecordContainer::allocateId, on the Interest filters *)
Definition allocateFilter : P Impl Z := fun s =>
  match RecordContainer.allocateId (m_interestFilterTable s) with
  | Some (id, c) => Some (with_filters c s, Ok id)
  | None => None
  end.

(** [ndn-cxx/impl/record-container.hpp:109-113] RecordContainer::allocateId, on the registered prefixes *)
Definition allocatePrefix : P Impl Z := fun s =>
  match RecordContainer.allocateId (m_registeredPrefixTable s) with
  | Some (id, c) => Some (with_prefixes c s, Ok id)
  | None => None
  end.

(** [m_nfdController.start<...>(...)]: the command is on its way. *)
Definition start (c : command callback) : P Impl unit := modifyP (fun s => with_commands (m_commands s ++ [c]) s).

(** [ndn-cxx/face.cpp:163-179] Face::expressInterest
    [nonce]: the random number, used if the Interest has none. *)
Definition Face_expressInterest (interest : tagged Interest.t) (nonce : bytes) (afterSatisfied afterNacked afterTimeout : option callback) : P Impl Z :=
  id ← allocatePending;
  interest2 ← liftP (exec (Interest.getNonce nonce) (untag interest));
  _ ← post (ExpressInterest id (Tagged interest2 (tags interest)) afterSatisfied afterNacked afterTimeout);
  mret id.

(** [ndn-cxx/face.cpp:233-243] Face::setInterestFilter *)
Definition Face_setInterestFilter (filter : InterestFilter.t) (onInterest : option callback) : P Impl Z :=
  id ← allocateFilter;
  _ ← post (SetInterestFilter id filter onInterest);
  mret id.

(** [ndn-cxx/impl/face-impl.hpp:252-286] Face::Impl::registerPrefix (the call) *)
Definition Impl_registerPrefix (prefix : Name.t) (onSuccess onFailure : option callback)
    (filter : option (InterestFilter.t * option callback)) : P Impl Z :=
  id ← allocatePrefix;
  _ ← start (RegisterCommand id prefix onSuccess onFailure filter);
  mret id.

(** [ndn-cxx/face.cpp:219-231] Face::setInterestFilter (with registration)
    Also the overload without [onSuccess], lines 211-217. *)
Definition Face_setInterestFilterRegister (filter : InterestFilter.t) (onInterest onSuccess onFailure : option callback) : P Impl Z :=
  Impl_registerPrefix (InterestFilter.m_prefix filter) onSuccess onFailure (Some (filter, onInterest)).

(** [ndn-cxx/face.cpp:245-257] Face::registerPrefix *)
Definition Face_registerPrefix (prefix : Name.t) (onSuccess onFailure : option callback) : P Impl Z :=
  Impl_registerPrefix prefix onSuccess onFailure None.

(** One call of the interface; the handles are the ids.  Cancelling a handle
    posts the removal ([Face::Impl::asyncRemovePendingInterest] and its like). *)
Definition call (r : request callback) : P Impl unit :=
  match r with
  | expressInterest i nonce d n t => _ ← Face_expressInterest i nonce d n t; mret tt
  | cancelPendingInterest id => post (RemovePendingInterest id)
  | removeAllPendingInterests => post RemoveAllPendingInterests
  | putData data => post (PutData data)
  | putNack nack => post (PutNack nack)
  | setInterestFilter f cb => _ ← Face_setInterestFilter f cb; mret tt
  | cancelInterestFilter id => post (UnsetInterestFilter id)
  | registerPrefix prefix s f filter => _ ← Impl_registerPrefix prefix s f filter; mret tt
  | unregisterPrefix id s f => post (UnregisterPrefix id s f)
  | shutdown => post Shutdown
  | Raise e => throwP e
  end.

Fixpoint callAll (rs : list (request callback)) : P Impl unit :=
  match rs with
  | [] => mret tt
  | r :: rs => _ ← call r; callAll rs
  end.

(** Invoking a callback of the application. *)
Definition invoke (ev : event callback) : P Impl unit := fun s =>
  let s := with_invoked (m_invoked s ++ [ev]) s in callAll (body ev s) s.

Definition invokeIf (cb : option callback) (ev : callback -> event callback) : P Impl unit :=
  match cb with Some cb => invoke (ev cb) | None => mret tt end.

(** ** Input and output *)

(** [ndn-cxx/impl/face-impl.hpp:302-313] Face::Impl::ensureConnected *)
Definition ensureConnected (wantResume : bool) : P Impl unit :=
  s ← selfP;
  _ ← (if negb (isConnected (m_transport s)) then zoomP m_transport with_transport connect else mret tt);
  s ← selfP;
  if wantResume && negb (isReceiving (m_transport s)) then zoomP m_transport with_transport resume else mret tt.

(** [ndn-cxx/impl/face-impl.hpp:323-345] Face::Impl::finishEncoding *)
Definition finishEncoding (lpPacket : lp_Packet.t) (wire : Block.t) : P Impl Block.t :=
  wire ← (if negb (lp_Packet.empty lpPacket) then
            octets ← liftP (Block.wire wire);
            lpPacket ← liftP (exec (lp_Packet.add Field.FragmentField octets) lpPacket);
            w ← liftP (snd (lp_Packet.wireEncode lpPacket));
            definedP w
          else mret wire);
  size ← liftP (Block.size wire);
  _ ← liftP (throw_if (tlv.MAX_NDN_PACKET_SIZE <? size) (RuntimeError "OversizedPacketError"));
  mret wire.

Definition transmit (wire : Block.t) : P Impl unit := zoomP m_transport with_transport (send wire).

(** [ndn-cxx/impl/face-impl.hpp:65-79] onEmptyPitOrNoRegisteredPrefixes *)
Definition onEmpty : P Impl unit := post CheckEmpty.

(** [ndn-cxx/impl/face-impl.hpp:71-77] onEmptyPitOrNoRegisteredPrefixes (the posted task) *)
Definition checkEmpty : P Impl unit :=
  s ← selfP;
  if RecordContainer.empty (m_pendingInterestTable s) && RecordContainer.empty (m_registeredPrefixTable s)
  then zoomP m_transport with_transport pause else mret tt.

(** ** Producer *)

(** [entry.recordForwarding()] through the reference to the record. *)
Definition recordForwarding (id : Z) : P Impl unit :=
  modifyP (fun s => with_pit (RecordContainer.update id PendingInterest.recordForwarding (m_pendingInterestTable s)) s).

(** [ndn-cxx/impl/face-impl.hpp:349-357] Face::Impl::dispatchInterest (the visitor) *)
Definition dispatch_visit (id : Z) (_ : Z) (filter : InterestFilterRecord.t callback) (s : Impl) :
    option (InterestFilterRecord.t callback * Impl * result bool) :=
  match RecordContainer.get id (m_pendingInterestTable s) with
  | None => None
  | Some entry =>
      match InterestFilterRecord.doesMatch uriEnv entry filter with
      | None => None
      | Some (filter, Throw e) => Some (filter, s, Throw e)
      | Some (filter, Ok false) => Some (filter, s, Ok false)
      | Some (filter, Ok true) =>
          match (_ ← recordForwarding id;
                 invokeIf (InterestFilterRecord.m_interestCallback filter)
                   (fun cb => OnInterest cb (InterestFilterRecord.m_filter filter) (PendingInterest.m_interest entry))) s with
          | None => None
          | Some (s, Ok _) => Some (filter, s, Ok false)
          | Some (s, Throw e) => Some (filter, s, Throw e)
          end
      end
  end.

(** [ndn-cxx/impl/face-impl.hpp:347-358] Face::Impl::dispatchInterest *)
Definition dispatchInterest (id : Z) : P Impl unit := fun s =>
  match RecordContainer.removeIf (dispatch_visit id) (RecordContainer.m_container (m_interestFilterTable s)) s with
  | Some (l, s, r) => Some (with_filters (RecordContainer.with_container l (m_interestFilterTable s)) s, r)
  | None => None
  end.

(** [ndn-cxx/impl/record-container.hpp:92-107] RecordContainer::put, on the pending Interests *)
Definition putPending (id : Z) (e : PendingInterest.t callback) : P Impl unit := fun s =>
  match RecordContainer.put id e (m_pendingInterestTable s) with
  | Some c => Some (with_pit c s, Ok tt)
  | None => None
  end.

(** [ndn-cxx/impl/face-impl.hpp:204-210] Face::Impl::processIncomingInterest *)
Definition processIncomingInterest (interest : tagged Interest.t) : P Impl unit :=
  s ← selfP;
  id ← allocatePending;
  _ ← putPending id (PendingInterest.ofForwarder (m_now s) interest);
  dispatchInterest id.

(** [ndn-cxx/impl/face-impl.hpp:186-191] Face::Impl::setInterestFilter *)
Definition Impl_setInterestFilter (id : Z) (filter : InterestFilter.t) (onInterest : option callback) : P Impl unit := fun s =>
  match RecordContainer.put id (InterestFilterRecord.mk filter onInterest) (m_interestFilterTable s) with
  | Some c => Some (with_filters c s, Ok tt)
  | None => None
  end.

(** [ndn-cxx/impl/face-impl.hpp:360-368] Face::Impl::unsetInterestFilter *)
Definition unsetInterestFilter (id : Z) : P Impl unit :=
  modifyP (fun s => match RecordContainer.get id (m_interestFilterTable s) with
                    | Some _ => with_filters (RecordContainer.erase id (m_interestFilterTable s)) s
                    | None => s
                    end).

(** ** Consumer *)

(** [ndn-cxx/impl/record-container.hpp:124-131] RecordContainer::erase, on the pending Interests *)
Definition erasePending (id : Z) : P Impl unit :=
  _ ← modifyP (fun s => with_pit (RecordContainer.erase id (m_pendingInterestTable s)) s);
  s ← selfP;
  if RecordContainer.empty (m_pendingInterestTable s) then onEmpty else mret tt.

(** [ndn-cxx/impl/record-container.hpp:133-138] RecordContainer::clear, on the pending Interests
    Also [Face::Impl::removeAllPendingInterests], face-impl.hpp lines 120-124. *)
Definition clearPending : P Impl unit :=
  _ ← modifyP (fun s => with_pit (RecordContainer.with_container [] (m_pendingInterestTable s)) s);
  onEmpty.

(** [ndn-cxx/impl/record-container.hpp:144-160] RecordContainer::removeIf, on the pending Interests
    [A]: what the visitor's lambda captures by reference. *)
Definition removeIfPending {A} (f : Z -> PendingInterest.t callback -> A * Impl -> option (PendingInterest.t callback * (A * Impl) * result bool))
    (a : A) : P Impl A := fun s =>
  match RecordContainer.removeIf f (RecordContainer.m_container (m_pendingInterestTable s)) (a, s) with
  | Some (l, (a, s), r) =>
      let s := with_pit (RecordContainer.with_container l (m_pendingInterestTable s)) s in
      (_ ← liftP r;
       _ ← (match l with [] => onEmpty | _ => mret tt end);
       mret a) s
  | None => None
  end.

(** What [satisfyPendingInterests] captures: the Data packet with its cached
    full name, [hasAppMatch] and [hasForwarderMatch]. *)
Record matching := mkMatching { m_data : tagged Data.t; hasAppMatch : bool; hasForwarderMatch : bool }.

(** [ndn-cxx/impl/face-impl.hpp:132-147] Face::Impl::satisfyPendingInterests (the visitor) *)
Definition satisfy_visit (id : Z) (entry : PendingInterest.t callback) (st : matching * Impl) :
    option (PendingInterest.t callback * (matching * Impl) * result bool) :=
  let '(a, s) := st in
  let '(d, r) := Interest.matchesData sha256 (untag (PendingInterest.m_interest entry)) (untag (m_data a)) in
  let data := Tagged d (tags (m_data a)) in
  match r with
  | Throw e => Some (entry, (mkMatching data (hasAppMatch a) (hasForwarderMatch a), s), Throw e)
  | Ok false => Some (entry, (mkMatching data (hasAppMatch a) (hasForwarderMatch a), s), Ok false)
  | Ok true =>
      if bool_decide (PendingInterest.m_origin entry = PendingInterest.APP) then
        let a := mkMatching data true (hasForwarderMatch a) in
        match invokeIf (PendingInterest.m_dataCallback entry) (fun cb => OnData id cb (PendingInterest.m_interest entry) data) s with
        | None => None
        | Some (s, Ok _) => Some (entry, (a, s), Ok true)
        | Some (s, Throw e) => Some (entry, (a, s), Throw e)
        end
      else Some (entry, (mkMatching data (hasAppMatch a) true, s), Ok true)
  end.

(** [ndn-cxx/impl/face-impl.hpp:126-151] Face::Impl::satisfyPendingInterests
    The packet is returned with its cached full name. *)
Definition satisfyPendingInterests (data : tagged Data.t) : P Impl (tagged Data.t * bool) :=
  a ← removeIfPending satisfy_visit (mkMatching data false false);
  mret (m_data a, hasForwarderMatch a || negb (hasAppMatch a)).

(** [ndn-cxx/impl/face-impl.hpp:159-177] Face::Impl::nackPendingInterests (the visitor) *)
Definition nack_visit (nack : tagged Nack.t) (id : Z) (entry : PendingInterest.t callback) (st : option (tagged Nack.t) * Impl) :
    option (PendingInterest.t callback * (option (tagged Nack.t) * Impl) * result bool) :=
  let '(outNack, s) := st in
  if negb (Interest.matchesInterest (Nack.m_interest (untag nack)) (untag (PendingInterest.m_interest entry)))
  then Some (entry, st, Ok false)
  else
    match PendingInterest.recordNack nack entry with
    | None => None
    | Some (entry, None) => Some (entry, st, Ok false)
    | Some (entry, Some outNack1) =>
        if bool_decide (PendingInterest.m_origin entry = PendingInterest.APP) then
          match invokeIf (PendingInterest.m_nackCallback entry) (fun cb => OnNack id cb (PendingInterest.m_interest entry) outNack1) s with
          | None => None
          | Some (s, Ok _) => Some (entry, (outNack, s), Ok true)
          | Some (s, Throw e) => Some (entry, (outNack, s), Throw e)
          end
        else Some (entry, (Some outNack1, s), Ok true)
    end.

(** [ndn-cxx/impl/face-impl.hpp:153-183] Face::Impl::nackPendingInterests *)
Definition nackPendingInterests (nack : tagged Nack.t) : P Impl (option (tagged Nack.t)) :=
  removeIfPending (nack_visit nack) None.

(** [interest2.wireEncode()]: the record and the caller share the Interest. *)
Definition encodePending (id : Z) : P Impl Block.t :=
  s ← selfP;
  e ← definedP (RecordContainer.get id (m_pendingInterestTable s));
  let '(i, r) := Interest.wireEncode sha256 autoCheck [] (untag (PendingInterest.m_interest e)) in
  _ ← modifyP (fun s => with_pit (RecordContainer.update id
         (PendingInterest.with_interest (Tagged i (tags (PendingInterest.m_interest e)))) (m_pendingInterestTable s)) s);
  liftP r.

(** [ndn-cxx/impl/face-impl.hpp:86-107] Face::Impl::expressInterest *)
Definition Impl_expressInterest (id : Z) (interest : tagged Interest.t) (afterSatisfied afterNacked afterTimeout : option callback) : P Impl unit :=
  _ ← ensureConnected true;
  s ← selfP;
  _ ← putPending id (PendingInterest.ofApp (m_now s) interest afterSatisfied afterNacked afterTimeout);
  lpPacket ← liftP (exec (_ ← TagHost.addFieldFromTag Field.NextHopFaceIdField (TagHost.NextHopFaceIdTag (tags interest));
                          TagHost.addFieldFromTag Field.CongestionMarkField (TagHost.CongestionMarkTag (tags interest))) lp_Packet.init);
  _ ← recordForwarding id;
  wire ← encodePending id;
  wire ← finishEncoding lpPacket wire;
  _ ← transmit wire;
  dispatchInterest id.

(** [ndn-cxx/impl/pending-interest.hpp:162-173] PendingInterest::invokeTimeoutCallback *)
Definition invokeTimeoutCallback (id : Z) : P Impl unit :=
  s ← selfP;
  e ← definedP (RecordContainer.get id (m_pendingInterestTable s));
  _ ← modifyP (fun s => with_pit (RecordContainer.update id (PendingInterest.with_timeoutEvent None) (m_pendingInterestTable s)) s);
  _ ← invokeIf (PendingInterest.m_timeoutCallback e) (fun cb => OnTimeout id cb (PendingInterest.m_interest e));
  erasePending id.

(** [ndn-cxx/impl/face-impl.hpp:212-229] Face::Impl::putData *)
Definition Impl_putData (data : tagged Data.t) : P Impl unit :=
  x ← satisfyPendingInterests data;
  if negb (snd x) then mret tt
  else
    _ ← ensureConnected true;
    lpPacket ← liftP (exec (_ ← TagHost.addFieldFromTag Field.CachePolicyField (TagHost.CachePolicyTag (tags data));
                            TagHost.addFieldFromTag Field.CongestionMarkField (TagHost.CongestionMarkTag (tags data))) lp_Packet.init);
    wire ← liftP (snd (Data.wireEncode (untag (fst x))));
    wire ← finishEncoding lpPacket wire;
    transmit wire.

(** [ndn-cxx/impl/face-impl.hpp:231-249] Face::Impl::putNack *)
Definition Impl_putNack (nack : tagged Nack.t) : P Impl unit :=
  outNack ← nackPendingInterests nack;
  match outNack with
  | None => mret tt
  | Some outNack =>
      _ ← ensureConnected true;
      lpPacket ← liftP (exec (_ ← lp_Packet.add Field.NackField (Nack.m_header (untag outNack));
                              TagHost.addFieldFromTag Field.CongestionMarkField (TagHost.CongestionMarkTag (tags outNack))) lp_Packet.init);
      wire ← liftP (snd (Interest.wireEncode sha256 autoCheck [] (Nack.m_interest (untag outNack))));
      wire ← finishEncoding lpPacket wire;
      transmit wire
  end.

(** [ndn-cxx/face.cpp:311-344] Face::onReceiveElement *)
Definition onReceiveElement (blockFromDaemon : Block.t) : P Impl unit :=
  lpPacket ← liftP (lp_Packet.ofBlock blockFromDaemon);
  frag ← liftP (lp_Packet.get Field.FragmentField 0 lpPacket);
  netPacket ← liftP (Block.fromSpan frag);
  if Block.type netPacket =? tlv.Interest then
    interest ← liftP (Interest.ofBlock sha256 autoCheck netPacket);
    if lp_Packet.has Field.NackField lpPacket then
      header ← liftP (lp_Packet.get Field.NackField 0 lpPacket);
      local ← liftP (TagHost.extractLpLocalFields lpPacket);
      _ ← nackPendingInterests (Tagged (Nack.mk interest header) local);
      mret tt
    else
      local ← liftP (TagHost.extractLpLocalFields lpPacket);
      processIncomingInterest (Tagged interest local)
  else if Block.type netPacket =? tlv.Data then
    data ← liftP (Data.ofBlock netPacket);
    local ← liftP (TagHost.extractLpLocalFields lpPacket);
    _ ← satisfyPendingInterests (Tagged data local);
    mret tt
  else mret tt.

(** ** Registered prefixes *)

(** [ndn-cxx/impl/record-container.hpp:124-131] RecordContainer::erase, on the registered prefixes *)
Definition erasePrefix (id : Z) : P Impl unit :=
  _ ← modifyP (fun s => with_prefixes (RecordContainer.erase id (m_registeredPrefixTable s)) s);
  s ← selfP;
  if RecordContainer.empty (m_registeredPrefixTable s) then onEmpty else mret tt.

(** [ndn-cxx/impl/record-container.hpp:133-138] RecordContainer::clear, on the registered prefixes *)
Definition clearPrefixes : P Impl unit :=
  _ ← modifyP (fun s => with_prefixes (RecordContainer.with_container [] (m_registeredPrefixTable s)) s);
  onEmpty.

(** [ndn-cxx/impl/record-container.hpp:92-107] RecordContainer::put, on the registered prefixes *)
Definition putPrefix (id : Z) (r : RegisteredPrefix.t) : P Impl unit := fun s =>
  match RecordContainer.put id r (m_registeredPrefixTable s) with
  | Some c => Some (with_prefixes c s, Ok tt)
  | None => None
  end.

(** [ndn-cxx/impl/face-impl.hpp:264-278] Face::Impl::registerPrefix (the command succeeded) *)
Definition registered (id : Z) (prefix : Name.t) (onSuccess : option callback) (filter : option (InterestFilter.t * option callback)) : P Impl unit :=
  filterId ← (match filter with
              | Some (f, onInterest) => filterId ← allocateFilter; _ ← Impl_setInterestFilter filterId f onInterest; mret filterId
              | None => mret 0
              end);
  _ ← putPrefix id (RegisteredPrefix.mk prefix filterId);
  invokeIf onSuccess (fun cb => OnRegistered cb prefix).

(** [ndn-cxx/impl/face-impl.hpp:279-282] Face::Impl::registerPrefix (the command failed)
    An empty [std::function] throws. *)
Definition registerFailed (prefix : Name.t) (onFailure : option callback) (reason : bytes) : P Impl unit :=
  match onFailure with
  | Some cb => invoke (OnRegisterFailed cb prefix reason)
  | None => throwP (RuntimeError "bad_function_call")
  end.

(** [ndn-cxx/impl/face-impl.hpp:370-405] Face::Impl::unregisterPrefix *)
Definition Impl_unregisterPrefix (id : Z) (onSuccess onFailure : option callback) : P Impl unit :=
  s ← selfP;
  match RecordContainer.get id (m_registeredPrefixTable s) with
  | None => invokeIf onFailure (fun cb => OnUnregisterFailed cb (str "Unrecognized RegisteredPrefixHandle"))
  | Some record =>
      _ ← (if negb (RegisteredPrefix.m_filterId record =? 0) then unsetInterestFilter (RegisteredPrefix.m_filterId record) else mret tt);
      start (UnregisterCommand id onSuccess onFailure)
  end.

(** [ndn-cxx/impl/face-impl.hpp:391-397] Face::Impl::unregisterPrefix (the command succeeded) *)
Definition unregistered (id : Z) (onSuccess : option callback) : P Impl unit :=
  _ ← erasePrefix id;
  invokeIf onSuccess OnUnregistered.

(** The response to a command: [None] on success, or why it failed. *)
Definition respond (c : command callback) (failure : option bytes) : P Impl unit :=
  match c, failure with
  | RegisterCommand id prefix onSuccess _ filter, None => registered id prefix onSuccess filter
  | RegisterCommand _ prefix _ onFailure _, Some reason => registerFailed prefix onFailure reason
  | UnregisterCommand id onSuccess _, None => unregistered id onSuccess
  | UnregisterCommand _ _ onFailure, Some reason => invokeIf onFailure (fun cb => OnUnregisterFailed cb reason)
  end.

(** [ndn-cxx/impl/face-impl.hpp:315-321] Face::Impl::shutdown *)
Definition Impl_shutdown : P Impl unit := _ ← clearPending; clearPrefixes.

(** [ndn-cxx/face.cpp:290-298] Face::shutdown (the posted task) *)
Definition Face_shutdown : P Impl unit :=
  _ ← Impl_shutdown;
  s ← selfP;
  if isConnected (m_transport s) then zoomP m_transport with_transport close else mret tt.

(** ** The event loop *)

(** One posted task. *)
Definition run (t : task callback) : P Impl unit :=
  match t with
  | ExpressInterest id i d n t => Impl_expressInterest id i d n t
  | RemovePendingInterest id => erasePending id
  | RemoveAllPendingInterests => clearPending
  | PutData data => Impl_putData data
  | PutNack nack => Impl_putNack nack
  | SetInterestFilter id f cb => Impl_setInterestFilter id f cb
  | UnsetInterestFilter id => unsetInterestFilter id
  | UnregisterPrefix id s f => Impl_unregisterPrefix id s f
  | CheckEmpty => checkEmpty
  | Shutdown => Face_shutdown
  | EnsureConnected => ensureConnected false
  end.

(** [ndn-cxx/face.cpp:259-288] Face::doProcessEvents
    What one handler of the io_service leaves behind: an exception shuts the
    face down before it leaves [processEvents]. *)
Definition handled (m : P Impl unit) : P Impl unit := fun s =>
  match m s with
  | Some (s, Throw e) => (_ ← Impl_shutdown; throwP e) s
  | r => r
  end.

(** The face and its environment: the application calls the interface, the
    io_service runs a task, an element arrives, the timeout of a pending
    Interest expires, a command is answered, time passes. *)
Inductive step : Impl -> Impl -> Prop :=
| step_call r s s' x : call r s = Some (s', x) -> step s s'
| step_task t l1 l2 s s' x : m_ioService s = l1 ++ t :: l2 -> handled (run t) (with_ioService (l1 ++ l2) s) = Some (s', x) -> step s s'
| step_receive block s s' x : handled (onReceiveElement block) s = Some (s', x) -> step s s'
| step_timeout id e expiry s s' x : RecordContainer.get id (m_pendingInterestTable s) = Some e ->
    PendingInterest.m_timeoutEvent e = Some expiry -> expiry <= m_now s -> handled (invokeTimeoutCallback id) s = Some (s', x) -> step s s'
| step_respond c failure l1 l2 s s' x : m_commands s = l1 ++ c :: l2 -> handled (respond c failure) (with_commands (l1 ++ l2) s) = Some (s', x) -> step s s'
| step_clock now s : m_now s <= now -> step s (with_now now s).

Inductive reachable (t : transport) (now : Z) : Impl -> Prop :=
| reachable_init : reachable t now (init t now)
| reachable_step s s' : reachable t now s -> step s s' -> reachable t now s'.

End face.
End Face.
