(* ===== verification/FaceFacts.v ===== *)
(** * What a face promises

    Lemmas and theorems on [FaceImpl]: the answers of pending Interests, the
    dispatch of Data and Nacks, Interest filters and prefix registration. *)

From Stdlib Require Import Sorted.
From stdpp Require Import list.
From S2P Require Import Prelude Tlv Encoding Blocks BlockHelpers Text NameComponents Names NameRegex NameRegexFacts.
From S2P Require Import Fields DataPacket InterestPacket LinkProtocol FaceTables FaceImpl.

(** ** Records *)

(** A visitor that keeps a property keeps it over the whole loop. *)
Lemma removeIf_keeps {S T} (I : S -> Prop) (f : Z -> T -> S -> option (T * S * result bool)) :
  (forall id x s x' s' r, I s -> f id x s = Some (x', s', r) -> I s') ->
  forall l s l' s' r, I s -> RecordContainer.removeIf f l s = Some (l', s', r) -> I s'.
Proof.
  intros Hf l. induction l as [|[id x] l IH]; intros s l' s' r Hs; cbn [RecordContainer.removeIf]; [by intros [= _ <- _]|].
  destruct (f id x s) as [[[x1 s1] [b|e]]|] eqn:E; [| |done].
  - destruct (RecordContainer.removeIf f l s1) as [[[l2 s2] r2]|] eqn:E2; [|done]. intros [= _ <- _].
    eapply IH; [|exact E2]. by eapply Hf.
  - intros [= _ <- _]. by eapply Hf.
Qed.

Lemma allocateId_room {T} (c : RecordContainer.t T) : 0 <= RecordContainer.m_lastId c < UINT64_MAX ->
  RecordContainer.allocateId c = Some (RecordContainer.m_lastId c + 1, RecordContainer.mk (RecordContainer.m_container c) (RecordContainer.m_lastId c + 1)).
Proof. intros H. unfold RecordContainer.allocateId. by rewrite (proj2 (Z.eqb_neq _ _)) by lia. Qed.

Lemma put_fresh {T} id (x : T) c : id <> 0 -> RecordContainer.get id c = None ->
  RecordContainer.put id x c = Some (RecordContainer.with_container (RecordContainer.emplace id x (RecordContainer.m_container c)) c).
Proof. intros H1 H2. unfold RecordContainer.put. by rewrite (proj2 (Z.eqb_neq _ _) H1), H2. Qed.

Lemma find_emplace {T} id (x : T) l : RecordContainer.find id l = None -> RecordContainer.find id (RecordContainer.emplace id x l) = Some x.
Proof.
  induction l as [|[k y] l IH]; cbn; [by rewrite Z.eqb_refl|]. destruct (Z.eqb_spec k id) as [|Hne]; [done|]. intros H.
  destruct (id <? k); cbn; [by rewrite Z.eqb_refl|]. rewrite (proj2 (Z.eqb_neq id k)) by done. cbn. rewrite (proj2 (Z.eqb_neq k id) Hne). by apply IH.
Qed.

Module FaceFacts.
Import Face.

Section facts.
Context `{SR : StdRegex} {callback transport : Type} {FE : FaceEnv callback transport}.
Notation Impl := (Impl callback transport).

(** ** Where an id of a pending Interest is *)

Definition task_id (t : task callback) : option Z := match t with ExpressInterest id _ _ _ _ => Some id | _ => None end.

(** The callbacks that answer an Interest. *)
Definition event_id (ev : event callback) : option Z :=
  match ev with OnData id _ _ _ | OnNack id _ _ _ | OnTimeout id _ _ => Some id | _ => None end.

Definition posted (s : Impl) : list Z := omap task_id (m_ioService s).
Definition answered (s : Impl) : list Z := omap event_id (m_invoked s).
Definition pending (s : Impl) : list Z := fst <$> RecordContainer.m_container (m_pendingInterestTable s).
Definition lastId (s : Impl) : Z := RecordContainer.m_lastId (m_pendingInterestTable s).

(** The ids posted, in [K], and answered are different ids that were given out. *)
Definition separate (K : list Z) (s : Impl) : Prop :=
  NoDup (posted s ++ K ++ answered s) /\ Forall (fun id => 0 < id <= lastId s) (posted s ++ K ++ answered s) /\ 0 <= lastId s.

Lemma separate_perm K K' s : K ≡ₚ K' -> separate K s -> separate K' s.
Proof. intros HK (H1 & H2 & H3). unfold separate. by rewrite <- HK. Qed.

Lemma separate_sub K K' s : K' `sublist_of` K -> separate K s -> separate K' s.
Proof.
  intros HK (H1 & H2 & H3).
  assert (posted s ++ K' ++ answered s `sublist_of` posted s ++ K ++ answered s) as Hs
    by (apply sublist_app; [done|by apply sublist_app]).
  split_and!; [by eapply sublist_NoDup|by eapply Forall_sublist|done].
Qed.

Lemma separate_eq K s s' : posted s' = posted s -> answered s' = answered s -> lastId s' = lastId s -> separate K s -> separate K s'.
Proof. unfold separate. by intros -> -> ->. Qed.

(** What calls of the interface leave alone. *)
Record frame (s s' : Impl) : Prop := mkFrame {
  frame_pending : RecordContainer.m_container (m_pendingInterestTable s') = RecordContainer.m_container (m_pendingInterestTable s);
  frame_filters : RecordContainer.m_container (m_interestFilterTable s') = RecordContainer.m_container (m_interestFilterTable s);
  frame_prefixes : RecordContainer.m_container (m_registeredPrefixTable s') = RecordContainer.m_container (m_registeredPrefixTable s);
  frame_invoked : m_invoked s' = m_invoked s;
}.

Lemma impl_frame_refl s : frame s s.
Proof. done. Qed.

Lemma impl_frame_trans s1 s2 s3 : frame s1 s2 -> frame s2 s3 -> frame s1 s3.
Proof. intros [] []. constructor; by etrans. Qed.

Lemma posted_snoc t s : posted (with_ioService (m_ioService s ++ [t]) s) = posted s ++ match task_id t with Some id => [id] | None => [] end.
Proof. unfold posted. cbn [with_ioService m_ioService]. rewrite omap_app. cbn. by destruct (task_id t). Qed.

(** A new number. *)
Lemma allocate_separate K c id (s : Impl) : RecordContainer.allocateId (m_pendingInterestTable s) = Some (id, c) -> separate K s ->
  separate (id :: K) (with_pit c s).
Proof.
  unfold RecordContainer.allocateId. case_match; [done|]. intros [= <- <-] (H1 & H2 & H3).
  change (RecordContainer.m_lastId (m_pendingInterestTable s)) with (lastId s).
  assert (posted s ++ (lastId s + 1 :: K) ++ answered s ≡ₚ lastId s + 1 :: posted s ++ K ++ answered s) as Hp
    by (rewrite <- app_comm_cons; symmetry; apply Permutation_middle).
  unfold separate. change (posted (with_pit _ s)) with (posted s). change (answered (with_pit _ s)) with (answered s).
  change (lastId (with_pit _ s)) with (lastId s + 1). rewrite Hp. split_and!; [| |lia].
  - constructor; [|done]. intros Hin%list_elem_of_In. rewrite Forall_forall in H2. specialize (H2 _ Hin). cbn in H2. lia.
  - constructor; [lia|]. revert H2. apply Forall_impl. intros x; cbn; lia.
Qed.

(** ** Calls of the interface *)

Lemma post_separate K t (s : Impl) : match task_id t with Some id => separate (id :: K) s | None => separate K s end ->
  separate K (with_ioService (m_ioService s ++ [t]) s).
Proof.
  unfold separate. rewrite posted_snoc. change (answered (with_ioService _ s)) with (answered s).
  change (lastId (with_ioService _ s)) with (lastId s). destruct (task_id t) as [id|]; [|by rewrite app_nil_r].
  assert ((posted s ++ [id]) ++ K ++ answered s ≡ₚ posted s ++ (id :: K) ++ answered s) as ->; [|done].
  by rewrite <- (assoc_L (++)).
Qed.

(** The calls number records and post tasks, nothing else. *)
Lemma call_frame r s s' x : call r s = Some (s', x) -> frame s s'.
Proof.
  destruct r as [i nonce d n t|id| |data|nack|f cb|id|prefix a b f|id a b| |e]; cbn [call].
  2-5,7,9-11: by intros [= <- _].
  - unfold Face_expressInterest, mbind, P_bind, allocatePending, RecordContainer.allocateId, liftP.
    destruct (_ =? UINT64_MAX); [done|]. destruct (exec _ _); by intros [= <- _].
  - unfold Face_setInterestFilter, mbind, P_bind, allocateFilter, RecordContainer.allocateId.
    destruct (_ =? UINT64_MAX); [done|]. by intros [= <- _].
  - unfold Impl_registerPrefix, mbind, P_bind, allocatePrefix, RecordContainer.allocateId.
    destruct (_ =? UINT64_MAX); [done|]. by intros [= <- _].
Qed.

Lemma callAll_frame rs : forall s s' x, callAll rs s = Some (s', x) -> frame s s'.
Proof.
  induction rs as [|r rs IH]; intros s s' x; cbn [callAll]; [by intros [= <- _]|].
  unfold mbind, P_bind. destruct (call r s) as [[s1 [[]|e]]|] eqn:E; [| |done]; apply call_frame in E.
  - intros E2%IH. by eapply impl_frame_trans.
  - by intros [= <- _].
Qed.

Lemma call_separate K r s s' x : separate K s -> call r s = Some (s', x) -> separate K s'.
Proof.
  intros Hs. destruct r as [i nonce d n t|id| |data|nack|f cb|id|prefix a b f|id a b| |e]; cbn [call].
  2-5,7,9-10: intros [= <- _]; by apply (post_separate K _ s).
  - unfold Face_expressInterest, mbind, P_bind, allocatePending.
    destruct (RecordContainer.allocateId (m_pendingInterestTable s)) as [[id c]|] eqn:E; [|done].
    pose proof (allocate_separate K c id s E Hs) as H1. unfold liftP.
    destruct (exec _ _) as [i'|e]; [|intros [= <- _]; eapply separate_sub; [|exact H1]; by constructor].
    intros [= <- _]. exact (post_separate K (ExpressInterest id _ _ _ _) (with_pit c s) H1).
  - unfold Face_setInterestFilter, mbind, P_bind, allocateFilter, RecordContainer.allocateId.
    destruct (_ =? UINT64_MAX); [done|]. intros [= <- _].
    apply (post_separate K (SetInterestFilter _ _ _) (with_filters _ s)). exact Hs.
  - unfold Impl_registerPrefix, mbind, P_bind, allocatePrefix, RecordContainer.allocateId.
    destruct (_ =? UINT64_MAX); [done|]. by intros [= <- _].
  - by intros [= <- _].
Qed.

Lemma callAll_separate K rs : forall s s' x, separate K s -> callAll rs s = Some (s', x) -> separate K s'.
Proof.
  induction rs as [|r rs IH]; intros s s' x Hs; cbn [callAll]; [by intros [= <- _]|].
  unfold mbind, P_bind. destruct (call r s) as [[s1 [[]|e]]|] eqn:E; [| |done].
  - apply IH. by eapply call_separate.
  - intros [= <- _]. by eapply call_separate.
Qed.

Lemma invoke_frame ev s s' x : invoke ev s = Some (s', x) ->
  RecordContainer.m_container (m_pendingInterestTable s') = RecordContainer.m_container (m_pendingInterestTable s) /\
  m_invoked s' = m_invoked s ++ [ev].
Proof. intros H%callAll_frame. split; apply H. Qed.

(** Invoking a callback that answers an Interest uses up its id. *)
Lemma invoke_separate K ev s s' x :
  separate (match event_id ev with Some id => id :: K | None => K end) s -> invoke ev s = Some (s', x) ->
  separate K s' /\ RecordContainer.m_container (m_pendingInterestTable s') = RecordContainer.m_container (m_pendingInterestTable s).
Proof.
  intros Hs E. split; [|by eapply invoke_frame]. unfold invoke in E. set (s1 := with_invoked _ s) in *.
  assert (separate K s1) as H1.
  { unfold separate in *. change (posted s1) with (posted s). change (lastId s1) with (lastId s).
    replace (answered s1) with (answered s ++ match event_id ev with Some id => [id] | None => [] end)
      by (unfold answered, s1; cbn [with_invoked m_invoked]; rewrite omap_app; cbn; by destruct (event_id ev)).
    destruct (event_id ev) as [id|]; [|by rewrite app_nil_r].
    assert (posted s ++ K ++ answered s ++ [id] ≡ₚ posted s ++ (id :: K) ++ answered s) as ->; [|done].
    apply Permutation_app_head. rewrite (assoc_L (++)), (comm (++)). done. }
  by eapply callAll_separate.
Qed.

(** ** The invariant *)

(** Destinations that have not answered with a Nack: an Interest of the
    application waits for at least one, but for the one that is being sent. *)
Definition counted (ex : option Z) (p : Z * PendingInterest.t callback) : Prop :=
  0 <= PendingInterest.m_nNotNacked p.2 /\
  (PendingInterest.m_origin p.2 = PendingInterest.APP -> Some p.1 <> ex -> 1 <= PendingInterest.m_nNotNacked p.2).

(** [K]: ids that are neither posted nor pending nor answered. *)
Definition inv (K : list Z) (ex : option Z) (s : Impl) : Prop :=
  separate (K ++ pending s) s /\ StronglySorted Z.lt (pending s) /\
  Forall (counted ex) (RecordContainer.m_container (m_pendingInterestTable s)).

Definition keepsP {A} (K : list Z) (ex : option Z) (m : P Impl A) : Prop := tripleP (inv K ex) m (fun _ => inv K ex) (separate K).

Lemma inv_separate K ex s : inv K ex s -> separate K s.
Proof. intros [H _]. eapply separate_sub; [|exact H]. by apply sublist_inserts_r. Qed.

Lemma inv_container K ex s s' : separate (K ++ pending s) s' ->
  RecordContainer.m_container (m_pendingInterestTable s') = RecordContainer.m_container (m_pendingInterestTable s) ->
  inv K ex s -> inv K ex s'.
Proof. intros H E (_ & H2 & H3). unfold inv, pending. rewrite E. done. Qed.

Lemma keeps_bindP {A B} K ex (m : P Impl A) (k : A -> P Impl B) : keepsP K ex m -> (forall a, keepsP K ex (k a)) -> keepsP K ex (m ≫= k).
Proof. intros H1 H2. eapply tripleP_bind; [exact H1|exact H2]. Qed.

Lemma keeps_retP {A} K ex (a : A) : keepsP K ex (mret a).
Proof. by intros s Hs. Qed.

Lemma keeps_liftP {A} K ex (r : result A) : keepsP K ex (liftP r).
Proof. apply tripleP_lift, inv_separate. Qed.

Lemma keeps_definedP {A} K ex (x : option A) : keepsP K ex (definedP x).
Proof. intros s Hs. unfold definedP. by destruct x. Qed.

Lemma keeps_selfP K ex : keepsP K ex selfP.
Proof. by intros s Hs. Qed.

Lemma keeps_transport {A} K ex (m : M transport A) : keepsP K ex (zoomP m_transport with_transport m).
Proof. intros s Hs. unfold zoomP. destruct (m (m_transport s)) as [t [a|e]]; [exact Hs|]. by apply (inv_separate K ex s). Qed.

Lemma keeps_modifyP K ex (f : Impl -> Impl) : (forall s, inv K ex s -> inv K ex (f s)) -> keepsP K ex (modifyP f).
Proof. intros H. by apply tripleP_modify. Qed.

Lemma keeps_post K ex t : task_id t = None -> keepsP K ex (post t).
Proof.
  intros Ht. apply keeps_modifyP. intros s Hs. apply (inv_container K ex s); [|done|exact Hs].
  apply post_separate. rewrite Ht. apply Hs.
Qed.

Lemma keeps_start K ex c : keepsP K ex (start c).
Proof. by apply keeps_modifyP. Qed.

Lemma keeps_invoke K ex ev : event_id ev = None -> keepsP K ex (invoke ev).
Proof.
  intros Hev s Hs. destruct (invoke ev s) as [[s' x]|] eqn:E; [|done].
  destruct (invoke_separate (K ++ pending s) ev s s' x) as (H1 & H2); [rewrite Hev; apply Hs|done|].
  assert (inv K ex s') as Hi by (by eapply inv_container). destruct x; [done|by eapply inv_separate].
Qed.

Lemma keeps_invokeIf K ex cb ev : (forall c, event_id (ev c) = None) -> keepsP K ex (invokeIf cb ev).
Proof. intros H. destruct cb; [by apply keeps_invoke|apply keeps_retP]. Qed.

Lemma keepsP_if {A} K ex (b : bool) (m m' : P Impl A) : keepsP K ex m -> keepsP K ex m' -> keepsP K ex (if b then m else m').
Proof. by destruct b. Qed.

Hint Resolve keeps_bindP keeps_retP keeps_liftP keeps_definedP keeps_selfP keeps_transport keeps_start keepsP_if : keeps.
Hint Extern 1 (keepsP _ _ (post _)) => (apply keeps_post; reflexivity) : keeps.
Hint Extern 1 (keepsP _ _ (invokeIf _ _)) => (apply keeps_invokeIf; intros ?; reflexivity) : keeps.
Hint Extern 1 (keepsP _ _ (invoke _)) => (apply keeps_invoke; reflexivity) : keeps.

Lemma keeps_ensureConnected K ex b : keepsP K ex (ensureConnected b).
Proof. unfold ensureConnected. eauto 8 with keeps. Qed.

Lemma keeps_finishEncoding K ex lp w : keepsP K ex (finishEncoding lp w).
Proof. unfold finishEncoding. eauto 10 with keeps. Qed.

Lemma keeps_transmit K ex w : keepsP K ex (transmit w).
Proof. apply keeps_transport. Qed.

Lemma keeps_checkEmpty K ex : keepsP K ex checkEmpty.
Proof. unfold checkEmpty. eauto with keeps. Qed.

Hint Resolve keeps_ensureConnected keeps_finishEncoding keeps_transmit keeps_checkEmpty : keeps.

(** ** The table of pending Interests *)

Lemma pending_update id f (s : Impl) :
  pending (with_pit (RecordContainer.update id f (m_pendingInterestTable s)) s) = pending s.
Proof.
  unfold pending. cbn [with_pit m_pendingInterestTable RecordContainer.update RecordContainer.with_container RecordContainer.m_container].
  rewrite <- list_fmap_compose. apply list_fmap_ext. intros _ [k x] _. cbn. by case_match.
Qed.

Lemma inv_update K ex ex' id f (s : Impl) : (forall e, counted ex (id, e) -> counted ex' (id, f e)) ->
  (forall k e, k <> id -> counted ex (k, e) -> counted ex' (k, e)) ->
  inv K ex s -> inv K ex' (with_pit (RecordContainer.update id f (m_pendingInterestTable s)) s).
Proof.
  intros Hf Ho (H1 & H2 & H3). split_and!; [rewrite pending_update; exact H1|by rewrite pending_update|].
  cbn [with_pit m_pendingInterestTable RecordContainer.update RecordContainer.with_container RecordContainer.m_container].
  apply Forall_map. revert H3. apply Forall_impl. intros [k e] Hk. cbn. destruct (Z.eqb_spec k id) as [->|Hne]; [by apply Hf|by apply Ho].
Qed.

Lemma keeps_recordForwarding K id : tripleP (inv K (Some id)) (recordForwarding id) (fun _ => inv K None) (separate K).
Proof.
  apply tripleP_modify. intros s. apply inv_update.
  - intros e [H1 _]. split; cbn in *; lia.
  - intros k e Hk [H1 H2]. split; [done|]. intros Ho _. apply H2; [done|]. cbn. congruence.
Qed.

Lemma keeps_recordForwarding0 K id : keepsP K None (recordForwarding id).
Proof.
  apply keeps_modifyP. intros s. apply inv_update; [|done]. intros e [H1 H2]. split; cbn in *; [lia|]. intros Ho Hn. specialize (H2 Ho Hn). lia.
Qed.

(** The records of a part of the table. *)
Lemma inv_sublist K ex l (s : Impl) : l `sublist_of` RecordContainer.m_container (m_pendingInterestTable s) -> inv K ex s ->
  inv K ex (with_pit (RecordContainer.with_container l (m_pendingInterestTable s)) s).
Proof.
  intros Hl (H1 & H2 & H3). assert (fst <$> l `sublist_of` pending s) as Hp by (by apply fmap_sublist).
  split_and!; [|by eapply StronglySorted_sublist|by eapply Forall_sublist].
  eapply separate_sub; [|exact H1]. by apply sublist_app.
Qed.

Lemma keeps_erasePending K ex id : keepsP K ex (erasePending id).
Proof.
  unfold erasePending, onEmpty. apply keeps_bindP; [|eauto 6 with keeps].
  apply keeps_modifyP. intros s. apply inv_sublist, filterb_sublist.
Qed.

(** Clearing the tables makes up for an exception. *)
Lemma clearPending_inv K : tripleP (separate K) clearPending (fun _ => inv K None) (separate K).
Proof.
  intros s Hs. cbn. split_and!; [|constructor|constructor].
  apply post_separate. unfold pending. cbn [task_id]. rewrite app_nil_r. exact Hs.
Qed.

Lemma keeps_clearPending K : keepsP K None clearPending.
Proof. eapply tripleP_conseq; [apply clearPending_inv|apply inv_separate|done|done]. Qed.

Lemma find_none id (l : list (Z * PendingInterest.t callback)) : RecordContainer.find id l = None -> ~ id ∈ l.*1.
Proof.
  induction l as [|[k x] l IH]; cbn; [by intros _ ?%not_elem_of_nil|]. destruct (Z.eqb_spec k id); [done|].
  intros H [->|Hin]%elem_of_cons; [done|by apply IH].
Qed.

Lemma emplace_spec ex id x (l : list (Z * PendingInterest.t callback)) : RecordContainer.find id l = None ->
  StronglySorted Z.lt l.*1 -> Forall (counted ex) l -> counted ex (id, x) ->
  (RecordContainer.emplace id x l).*1 ≡ₚ id :: l.*1 /\ StronglySorted Z.lt (RecordContainer.emplace id x l).*1 /\
  Forall (counted ex) (RecordContainer.emplace id x l).
Proof.
  induction l as [|[k y] l IH]; intros Hf Hs Hc Hx; [cbn; split_and!; [done|repeat constructor|by constructor]|].
  cbn [RecordContainer.find] in Hf. destruct (Z.eqb_spec k id) as [|Hne]; [done|].
  apply StronglySorted_inv in Hs as [Hs Hk]. apply Forall_cons_iff in Hc as [Hy Hc]. cbn [RecordContainer.emplace].
  destruct (Z.ltb_spec id k) as [Hlt|Hge].
  - cbn. split_and!; [done| |constructor; [done|by constructor]]. constructor; [by constructor|]. constructor; [done|].
    revert Hk. apply Forall_impl. intros z. cbn in *. lia.
  - rewrite (proj2 (Z.eqb_neq id k)) by done. destruct (IH Hf Hs Hc Hx) as (P1 & P2 & P3). cbn [fmap list_fmap fst]. split_and!.
    + change ((k :: (RecordContainer.emplace id x l).*1) ≡ₚ id :: k :: l.*1). rewrite P1. apply perm_swap.
    + change (StronglySorted Z.lt (k :: (RecordContainer.emplace id x l).*1)). constructor; [done|].
      rewrite P1. constructor; [lia|done].
    + by constructor.
Qed.

(** A new record: its id was in nobody's hands. *)
Lemma putPending_inv K ex id e : counted ex (id, e) -> tripleP (inv (id :: K) ex) (putPending id e) (fun _ => inv K ex) (separate K).
Proof.
  intros Hc s (H1 & H2 & H3). unfold putPending, RecordContainer.put. destruct (id =? 0); [done|].
  destruct (RecordContainer.get id (m_pendingInterestTable s)) eqn:E; [done|].
  destruct (emplace_spec ex id e _ E H2 H3 Hc) as (P1 & P2 & P3).
  split_and!; [|exact P2|exact P3].
  apply (separate_perm (id :: K ++ pending s)); [|exact H1].
  change (pending (with_pit _ s)) with ((RecordContainer.emplace id e (RecordContainer.m_container (m_pendingInterestTable s))).*1).
  rewrite P1. apply Permutation_middle.
Qed.

(** ** Visiting the pending Interests *)

(** What a visitor may do with the record it is given: keep it, or erase it,
    possibly after a callback that answers it. *)
Definition visits {A} (f : Z -> PendingInterest.t callback -> A * Impl -> option (PendingInterest.t callback * (A * Impl) * result bool)) : Prop :=
  forall id e a s K, counted None (id, e) -> separate (id :: K) s ->
  match f id e (a, s) with
  | Some (e', (a', s'), r) =>
      RecordContainer.m_container (m_pendingInterestTable s') = RecordContainer.m_container (m_pendingInterestTable s) /\
      match r with
      | Ok false => separate (id :: K) s' /\ counted None (id, e')
      | _ => separate K s'
      end
  | None => True
  end.

Lemma removeIf_visits {A} (f : Z -> PendingInterest.t callback -> A * Impl -> option (PendingInterest.t callback * (A * Impl) * result bool)) :
  visits f -> forall l a s K, Forall (counted None) l -> separate (K ++ l.*1) s ->
  match RecordContainer.removeIf f l (a, s) with
  | Some (l', (a', s'), r) =>
      l'.*1 `sublist_of` l.*1 /\ separate K s' /\
      (r = Ok tt -> separate (K ++ l'.*1) s' /\ Forall (counted None) l')
  | None => True
  end.
Proof.
  intros Hf l. induction l as [|[id e] l IH]; intros a s K Hc Hs; cbn [RecordContainer.removeIf].
  { split_and!; [done|by rewrite app_nil_r in Hs|done]. }
  apply Forall_cons_iff in Hc as [He Hc].
  assert (separate (id :: K ++ l.*1) s) as Hs' by (eapply separate_perm; [|exact Hs]; symmetry; apply Permutation_middle).
  specialize (Hf id e a s (K ++ l.*1) He Hs'). destruct (f id e (a, s)) as [[[e1 [a1 s1]] r]|]; [|done]. destruct Hf as [_ Hf].
  destruct r as [[|]|x].
  - specialize (IH a1 s1 K Hc Hf). destruct (RecordContainer.removeIf f l (a1, s1)) as [[[l2 [a2 s2]] r2]|]; [|done].
    destruct IH as (H1 & H2 & H3). split_and!; [by constructor|done|done].
  - destruct Hf as [H1 He1]. specialize (IH a1 s1 (K ++ [id]) Hc). rewrite <- (assoc_L (++)) in IH.
    specialize (IH (separate_perm _ (K ++ [id] ++ l.*1) _ (Permutation_middle _ _ _) H1)).
    destruct (RecordContainer.removeIf f l (a1, s1)) as [[[l2 [a2 s2]] r2]|]; [|done].
    destruct IH as (H2 & H3 & H4). split_and!; [by constructor|eapply separate_sub; [|exact H3]; by apply sublist_inserts_r|].
    intros Hr. destruct (H4 Hr) as [H5 H6]. split; [by rewrite <- (assoc_L (++)) in H5|by constructor].
  - split_and!; [done|eapply separate_sub; [|exact Hf]; by apply sublist_inserts_r|done].
Qed.

Lemma removeIfPending_keeps {A} (f : Z -> PendingInterest.t callback -> A * Impl -> option (PendingInterest.t callback * (A * Impl) * result bool)) (a : A) K :
  visits f -> keepsP K None (removeIfPending f a).
Proof.
  intros Hf s (H1 & H2 & H3). unfold removeIfPending.
  pose proof (removeIf_visits f Hf _ a s K H3 H1) as H.
  destruct (RecordContainer.removeIf f _ (a, s)) as [[[l [a1 s1]] [[]|e]]|]; [| |done].
  - destruct H as (Hsub & _ & H). destruct (H eq_refl) as [H4 H5]. cbn [mbind P_bind liftP].
    assert (inv K None (with_pit (RecordContainer.with_container l (m_pendingInterestTable s1)) s1)) as Hi.
    { split_and!; [exact H4|by eapply StronglySorted_sublist|exact H5]. }
    destruct l; [|exact Hi]. cbn. by apply (keeps_post K None CheckEmpty eq_refl _ Hi).
  - destruct H as (_ & H & _). exact H.
Qed.

Lemma satisfy_visits : visits satisfy_visit.
Proof.
  intros id e a s K Hc Hs. unfold satisfy_visit. destruct (Interest.matchesData _ _ _) as [d [[|]|x]].
  - case_bool_decide.
    + unfold invokeIf. destruct (PendingInterest.m_dataCallback e) as [cb|].
      * destruct (invoke _ s) as [[s' x]|] eqn:E; [|done].
        destruct (invoke_separate K (OnData id cb (PendingInterest.m_interest e) (Tagged d (tags (m_data a)))) s s' x Hs E) as (H1 & H2).
        by destruct x.
      * cbn. split; [done|]. eapply separate_sub; [|exact Hs]. by constructor.
    + split; [done|]. eapply separate_sub; [|exact Hs]. by constructor.
  - done.
  - split; [done|]. eapply separate_sub; [|exact Hs]. by constructor.
Qed.

Lemma recordNack_spec nack (e e' : PendingInterest.t callback) out : PendingInterest.recordNack nack e = Some (e', out) ->
  PendingInterest.m_nNotNacked e' = PendingInterest.m_nNotNacked e - 1 /\ 0 <= PendingInterest.m_nNotNacked e' /\
  PendingInterest.m_origin e' = PendingInterest.m_origin e /\ PendingInterest.m_interest e' = PendingInterest.m_interest e /\
  (out = None <-> 0 < PendingInterest.m_nNotNacked e').
Proof.
  unfold PendingInterest.recordNack. destruct e as [i o d n t te c least].
  cbn [PendingInterest.m_nNotNacked PendingInterest.with_nNotNacked PendingInterest.m_leastSevereNack].
  destruct (Z.ltb_spec (c - 1) 0) as [|Hge]; [done|].
  destruct least as [old|]; [destruct (NackHeader.isLessSevere _ _)|]; cbn; intros [= <- <-]; cbn;
    (split_and!; [done..|]; destruct (Z.ltb_spec 0 (c - 1)); split; first [done|lia]).
Qed.

Lemma nack_visits nack : visits (nack_visit nack).
Proof.
  intros id e a s K Hc Hs. unfold nack_visit. destruct (negb _); [done|].
  destruct (PendingInterest.recordNack nack e) as [[e1 [out|]]|] eqn:E; [| |done]; destruct (recordNack_spec nack e e1 _ E) as (N1 & N2 & N3 & _ & N4).
  - case_bool_decide; [|split; [done|]; eapply separate_sub; [|exact Hs]; by constructor].
    unfold invokeIf. destruct (PendingInterest.m_nackCallback e1) as [cb|].
    + destruct (invoke _ s) as [[s' x]|] eqn:E2; [|done].
      destruct (invoke_separate K (OnNack id cb (PendingInterest.m_interest e1) out) s s' x Hs E2) as (H1 & H2). by destruct x.
    + cbn. split; [done|]. eapply separate_sub; [|exact Hs]. by constructor.
  - split; [done|]. split; [done|]. destruct Hc as [C1 C2]. pose proof (proj1 N4 eq_refl). split; cbn in *; [done|]. lia.
Qed.

(** ** The operations *)

Lemma dispatch_visit_inv K id fid x s x' s' r : inv K None s -> dispatch_visit id fid x s = Some (x', s', r) -> inv K None s'.
Proof.
  intros Hs. unfold dispatch_visit. destruct (RecordContainer.get id _) as [entry|]; [|done].
  destruct (InterestFilterRecord.doesMatch _ _ _) as [[f [[|]|e]]|]; [|by intros [= _ <- _]|by intros [= _ <- _]|done].
  set (cb := InterestFilterRecord.m_interestCallback f).
  assert (forall ev, (forall c, event_id (ev c) = None) -> tripleP (inv K None) (_ ← recordForwarding id; invokeIf cb ev) (fun _ => inv K None) (inv K None)) as Ht.
  { intros ev Hev s0 H0. unfold mbind, P_bind, recordForwarding, modifyP.
    pose proof (keeps_recordForwarding0 K id s0 H0 : inv K None (with_pit (RecordContainer.update id PendingInterest.recordForwarding (m_pendingInterestTable s0)) s0)) as H1.
    set (s1 := with_pit _ s0) in *. destruct cb as [c|]; [|exact H1]. cbn [invokeIf]. destruct (invoke (ev c) s1) as [[s2 x2]|] eqn:E; [|done].
    destruct (invoke_separate (K ++ pending s1) (ev c) s1 s2 x2) as (H2 & H3); [rewrite Hev; apply H1|done|].
    assert (inv K None s2) as H4 by (by apply (inv_container K None s1)). by destruct x2. }
  match goal with |- match ?m with _ => _ end = _ -> _ => pose proof (Ht (fun cb => OnInterest cb (InterestFilterRecord.m_filter f) (PendingInterest.m_interest entry)) ltac:(done) s Hs) as H;
    destruct m as [[s1 [[]|e]]|] end; [by intros [= _ <- _]|by intros [= _ <- _]|done].
Qed.

Lemma keeps_dispatchInterest K id : keepsP K None (dispatchInterest id).
Proof.
  intros s Hs. unfold dispatchInterest. destruct (RecordContainer.removeIf _ _ s) as [[[l s'] r]|] eqn:E; [|done].
  assert (inv K None s') as H by (eapply removeIf_keeps; [|exact Hs|exact E]; intros *; apply dispatch_visit_inv).
  destruct r; [exact H|]. eapply (inv_separate K None s'), H.
Qed.

Lemma keeps_encodePending K id : keepsP K None (encodePending id).
Proof.
  unfold encodePending. apply keeps_bindP; [apply keeps_selfP|]. intros s. apply keeps_bindP; [apply keeps_definedP|]. intros e.
  destruct (Interest.wireEncode _ _ _ _) as [i r]. apply keeps_bindP; [|intros _; apply keeps_liftP].
  apply keeps_modifyP. intros s1. by apply inv_update.
Qed.

Lemma keeps_unsetInterestFilter K ex id : keepsP K ex (unsetInterestFilter id).
Proof. apply keeps_modifyP. intros s Hs. by destruct (RecordContainer.get _ _). Qed.

Lemma keeps_Impl_setInterestFilter K ex id f cb : keepsP K ex (Impl_setInterestFilter id f cb).
Proof. intros s Hs. unfold Impl_setInterestFilter. by destruct (RecordContainer.put _ _ _). Qed.

Lemma keeps_putPrefix K ex id r : keepsP K ex (putPrefix id r).
Proof. intros s Hs. unfold putPrefix. by destruct (RecordContainer.put _ _ _). Qed.

Lemma keeps_allocateFilter K ex : keepsP K ex allocateFilter.
Proof. intros s Hs. unfold allocateFilter. by destruct (RecordContainer.allocateId _) as [[]|]. Qed.

Lemma keeps_clearPrefixes K ex : keepsP K ex clearPrefixes.
Proof. unfold clearPrefixes, onEmpty. apply keeps_bindP; [by apply keeps_modifyP|eauto with keeps]. Qed.

Lemma keeps_erasePrefix K ex id : keepsP K ex (erasePrefix id).
Proof. unfold erasePrefix, onEmpty. apply keeps_bindP; [by apply keeps_modifyP|eauto 6 with keeps]. Qed.

Lemma keeps_satisfy K d : keepsP K None (satisfyPendingInterests d).
Proof. unfold satisfyPendingInterests. apply keeps_bindP; [apply removeIfPending_keeps, satisfy_visits|eauto with keeps]. Qed.

Lemma keeps_nack K n : keepsP K None (nackPendingInterests n).
Proof. apply removeIfPending_keeps, nack_visits. Qed.

Hint Resolve keeps_dispatchInterest keeps_encodePending keeps_unsetInterestFilter keeps_Impl_setInterestFilter keeps_putPrefix keeps_allocateFilter
  keeps_clearPrefixes keeps_erasePrefix keeps_satisfy keeps_nack keeps_erasePending keeps_clearPending : keeps.

Lemma keeps_putData K d : keepsP K None (Impl_putData d).
Proof. unfold Impl_putData. eauto 12 with keeps. Qed.

Lemma keeps_putNack K n : keepsP K None (Impl_putNack n).
Proof. unfold Impl_putNack. apply keeps_bindP; [apply keeps_nack|]. intros [o|]; eauto 12 with keeps. Qed.

Lemma keeps_registered K id prefix cb f : keepsP K None (registered id prefix cb f).
Proof. unfold registered. apply keeps_bindP; [destruct f as [[f ?]|]; eauto with keeps|]. intros fid. eauto with keeps. Qed.

Lemma keeps_Impl_unregisterPrefix K id a b : keepsP K None (Impl_unregisterPrefix id a b).
Proof.
  unfold Impl_unregisterPrefix. apply keeps_bindP; [apply keeps_selfP|]. intros s.
  destruct (RecordContainer.get _ _); eauto with keeps.
Qed.

Lemma keeps_respond K c failure : keepsP K None (respond c failure).
Proof.
  destruct c as [id prefix a b f|id a b], failure as [reason|]; cbn [respond]; eauto using keeps_registered with keeps.
  - unfold registerFailed. destruct b; eauto with keeps.
Qed.

Lemma keeps_Impl_shutdown K : keepsP K None Impl_shutdown.
Proof. unfold Impl_shutdown. eauto with keeps. Qed.

Lemma allocatePending_inv K : tripleP (inv K None) allocatePending (fun id => inv (id :: K) None) (separate K).
Proof.
  intros s (H1 & H2 & H3). unfold allocatePending.
  destruct (RecordContainer.allocateId (m_pendingInterestTable s)) as [[id c]|] eqn:E; [|done].
  pose proof (allocate_separate (K ++ pending s) c id s E H1) as H4.
  assert (RecordContainer.m_container c = RecordContainer.m_container (m_pendingInterestTable s)) as H5
    by (revert E; unfold RecordContainer.allocateId; case_match; [done|by intros [= _ <-]]).
  unfold inv, pending. cbn [with_pit m_pendingInterestTable]. rewrite H5. split_and!; [exact H4|exact H2|exact H3].
Qed.

Lemma keeps_processIncomingInterest K i : keepsP K None (processIncomingInterest i).
Proof.
  unfold processIncomingInterest. apply keeps_bindP; [apply keeps_selfP|]. intros s0.
  eapply tripleP_bind; [apply allocatePending_inv|]. intros id. cbn beta.
  eapply tripleP_bind; [apply putPending_inv; split; cbn; [lia|done]|]. intros []. apply keeps_dispatchInterest.
Qed.

Lemma keeps_onReceiveElement K b : keepsP K None (onReceiveElement b).
Proof.
  unfold onReceiveElement. do 3 (apply keeps_bindP; [apply keeps_liftP|intros ?]).
  apply keepsP_if; [|apply keepsP_if; eauto with keeps].
  apply keeps_bindP; [apply keeps_liftP|]. intros i. apply keepsP_if; [eauto with keeps|].
  apply keeps_bindP; [apply keeps_liftP|]. intros t. apply keeps_processIncomingInterest.
Qed.

(** Expressing an Interest uses up the id that was given out for it. *)
Lemma expressInterest_inv K id i a b c : tripleP (inv (id :: K) None) (Impl_expressInterest id i a b c) (fun _ => inv K None) (separate K).
Proof.
  unfold Impl_expressInterest.
  assert (forall s, separate (id :: K) s -> separate K s) as Hsub by (intros s; apply separate_sub; by constructor).
  eapply tripleP_bind; [eapply tripleP_conseq; [apply (keeps_ensureConnected (id :: K) None)|done|done|exact Hsub]|]. intros [].
  eapply tripleP_bind; [eapply tripleP_conseq; [apply (keeps_selfP (id :: K) None)|done|done|exact Hsub]|]. intros s0. cbn beta.
  eapply tripleP_bind; [eapply tripleP_conseq; [apply (putPending_inv K (Some id) id)| |done|done]|].
  { split; cbn; [lia|done]. }
  { intros s (H1 & H2 & H3). split_and!; [done|done|]. revert H3. apply Forall_impl. intros [k e] [C1 C2]. split; [done|]. intros Ho _. by apply C2. }
  intros [].
  eapply tripleP_bind; [apply (keeps_liftP K (Some id))|]. intros lp.
  eapply tripleP_bind; [apply keeps_recordForwarding|]. intros [].
  match goal with |- tripleP _ ?m _ _ => change (keepsP K None m) end. eauto 10 with keeps.
Qed.

Lemma find_elem id (l : list (Z * PendingInterest.t callback)) e : RecordContainer.find id l = Some e -> id ∈ l.*1.
Proof.
  induction l as [|[k x] l IH]; cbn; [done|]. destruct (Z.eqb_spec k id) as [->|]; [by left|]. intros H. right. by apply IH.
Qed.

Lemma erase_perm id (l : list (Z * PendingInterest.t callback)) : NoDup l.*1 -> id ∈ l.*1 ->
  l.*1 ≡ₚ id :: (List.filter (fun p => negb (p.1 =? id)) l).*1.
Proof.
  induction l as [|[k x] l IH]; cbn; [by intros _ ?%not_elem_of_nil|]. intros [Hk Hl]%list.NoDup_cons Hin.
  destruct (Z.eqb_spec k id) as [->|Hne]; cbn [negb].
  - f_equiv. clear IH Hin. induction l as [|[j y] l IH]; cbn; [done|]. cbn in Hk. apply not_elem_of_cons in Hk as [Hj Hk].
    rewrite (proj2 (Z.eqb_neq j id)) by congruence. cbn. apply list.NoDup_cons in Hl as [_ Hl]. f_equiv. by apply IH.
  - apply elem_of_cons in Hin as [|Hin]; [done|]. cbn. rewrite (IH Hl Hin) at 1. apply perm_swap.
Qed.

(** An id that is taken out of the table is in nobody's hands. *)
Lemma erase_free K id (s : Impl) : id ∈ pending s -> inv K None s ->
  inv (id :: K) None (with_pit (RecordContainer.erase id (m_pendingInterestTable s)) s).
Proof.
  intros Hid Hs. pose proof Hs as (H1 & _ & _).
  destruct (inv_sublist K None (List.filter (fun p => negb (p.1 =? id)) (RecordContainer.m_container (m_pendingInterestTable s))) s (filterb_sublist _ _) Hs)
    as (_ & H2 & H3).
  split_and!; [|exact H2|exact H3]. apply (separate_perm (K ++ pending s)); [|exact H1].
  unfold pending at 1. rewrite (erase_perm id _); [symmetry; apply Permutation_middle| |exact Hid].
  destruct H1 as [H1 _]. apply list.NoDup_app in H1 as (_ & _ & H1). apply list.NoDup_app in H1 as (H1 & _ & _). by apply list.NoDup_app in H1 as (_ & _ & H1).
Qed.

Lemma keeps_invokeTimeoutCallback K id : keepsP K None (invokeTimeoutCallback id).
Proof.
  intros s Hs. unfold invokeTimeoutCallback, mbind, P_bind, selfP, definedP.
  destruct (RecordContainer.get id (m_pendingInterestTable s)) as [e|] eqn:E; [|done]. unfold modifyP.
  assert (inv K None (with_pit (RecordContainer.update id (PendingInterest.with_timeoutEvent None) (m_pendingInterestTable s)) s)) as H1 by (by apply (inv_update K None None)).
  assert (id ∈ pending s) as Hid by (by eapply find_elem).
  rewrite <- (pending_update id (PendingInterest.with_timeoutEvent None)) in Hid. set (s1 := with_pit _ s) in *.
  unfold invokeIf. destruct (PendingInterest.m_timeoutCallback e) as [cb|]; [|by apply (keeps_erasePending K None id s1)].
  destruct (invoke _ s1) as [[s2 x]|] eqn:E2; [|done].
  pose proof (erase_free K id s1 Hid H1) as (F1 & F2 & F3).
  destruct (invoke_separate (K ++ pending (with_pit (RecordContainer.erase id (m_pendingInterestTable s1)) s1)) (OnTimeout id cb (PendingInterest.m_interest e)) s1 s2 x F1 E2) as (H3 & H4).
  assert (inv K None (with_pit (RecordContainer.erase id (m_pendingInterestTable s2)) s2)) as H5.
  { unfold inv, pending, RecordContainer.erase. cbn [with_pit m_pendingInterestTable RecordContainer.with_container RecordContainer.m_container]. rewrite H4.
    split_and!; [exact H3|exact F2|exact F3]. }
  destruct x as [[]|e2]; [|eapply separate_sub; [|exact H3]; by apply sublist_inserts_r].
  unfold erasePending, mbind, P_bind, modifyP, selfP. set (s3 := with_pit _ s2) in *.
  destruct (RecordContainer.empty (m_pendingInterestTable s3)); [by apply (keeps_post K None CheckEmpty eq_refl s3)|exact H5].
Qed.

Lemma keeps_call K r : keepsP K None (call r).
Proof.
  intros s Hs. destruct (call r s) as [[s' x]|] eqn:E; [|done].
  assert (inv K None s') as H by (apply (inv_container K None s); [by eapply call_separate; [apply Hs|]|by apply call_frame in E as []|done]). destruct x; [done|by eapply inv_separate].
Qed.

(** A handler of the io_service, with the shutdown after an exception. *)
Lemma handled_inv K (m : P Impl unit) (pre : Impl -> Prop) s s' x : tripleP pre m (fun _ => inv K None) (separate K) -> pre s ->
  handled m s = Some (s', x) -> inv K None s'.
Proof.
  intros Hm Hs. specialize (Hm s Hs). unfold handled. destruct (m s) as [[s1 [[]|e]]|]; [by intros [= <- _]| |done].
  pose proof (clearPending_inv K s1 Hm) as H1. unfold Impl_shutdown, mbind, P_bind.
  assert (exists s2, clearPending s1 = Some (s2, Ok tt)) as [s2 E2] by (eexists; reflexivity). rewrite E2 in H1 |- *.
  pose proof (keeps_clearPrefixes K None s2 H1) as H2.
  assert (exists s3, clearPrefixes s2 = Some (s3, Ok tt)) as [s3 E3] by (eexists; reflexivity). rewrite E3 in H2 |- *. by intros [= <- _].
Qed.

(** What is left of the queue when a task is taken out of it. *)
Lemma take_task K t l1 l2 (s : Impl) : m_ioService s = l1 ++ t :: l2 -> inv K None s ->
  inv (match task_id t with Some id => id :: K | None => K end) None (with_ioService (l1 ++ l2) s).
Proof.
  intros El (H1 & H2 & H3). split_and!; [|exact H2|exact H3].
  unfold separate, posted in *. change (answered (with_ioService _ s)) with (answered s). change (lastId (with_ioService _ s)) with (lastId s).
  change (pending (with_ioService _ s)) with (pending s). cbn [with_ioService m_ioService]. rewrite El in H1.
  assert (omap task_id (l1 ++ t :: l2) ≡ₚ match task_id t with Some id => [id] | None => [] end ++ omap task_id (l1 ++ l2)) as Hp.
  { rewrite !omap_app. cbn. destruct (task_id t) as [z|]; [|done]. cbn. by rewrite <- Permutation_middle. }
  rewrite Hp in H1. destruct (task_id t) as [id|]; [|exact H1].
  assert (omap task_id (l1 ++ l2) ++ ((id :: K) ++ pending s) ++ answered s ≡ₚ ([id] ++ omap task_id (l1 ++ l2)) ++ (K ++ pending s) ++ answered s) as ->; [|exact H1].
  cbn. symmetry. apply Permutation_middle.
Qed.

Lemma run_inv K t s s' x : inv (match task_id t with Some id => id :: K | None => K end) None s -> handled (run t) s = Some (s', x) -> inv K None s'.
Proof.
  intros Hs. apply (handled_inv K (run t) (inv (match task_id t with Some id => id :: K | None => K end) None)); [|exact Hs].
  destruct t; cbn [task_id run]; [apply expressInterest_inv|..]; match goal with |- tripleP _ ?m _ _ => change (keepsP K None m) end; eauto using keeps_putData, keeps_putNack, keeps_Impl_unregisterPrefix, keeps_Impl_shutdown with keeps.
Qed.

Lemma face_step_inv K s s' : inv K None s -> step s s' -> inv K None s'.
Proof.
  intros Hs Hstep. destruct Hstep as [r s s' x E|t l1 l2 s s' x El E|block s s' x E|id e expiry s s' x _ _ _ E|c failure l1 l2 s s' x El E|now s Hn].
  - pose proof (keeps_call K r s Hs) as H. rewrite E in H. destruct x; [exact H|].
    apply (inv_container K None s); [by eapply call_separate; [apply Hs|]|by apply call_frame in E as []|done].
  - eapply run_inv; [|exact E]. by apply take_task.
  - by eapply (handled_inv K _ (inv K None)); [apply keeps_onReceiveElement|..].
  - by eapply (handled_inv K _ (inv K None)); [apply keeps_invokeTimeoutCallback|..].
  - apply (handled_inv K (respond c failure) (inv K None) (with_commands (l1 ++ l2) s) s' x); [apply keeps_respond|exact Hs|exact E].
  - exact Hs.
Qed.

Lemma face_reachable_inv t now s : reachable t now s -> inv [] None s.
Proof.
  induction 1 as [|s s' _ IH Hs]; [|by eapply face_step_inv]. split_and!; [|constructor..]. split_and!; [constructor|constructor|done].
Qed.

Lemma steps_inv K s s' : inv K None s -> rtc step s s' -> inv K None s'.
Proof. intros Hs Hr. induction Hr as [|s s1 s' H _ IH]; [done|]. apply IH. by eapply face_step_inv. Qed.

(** ** Data *)

Section data.
Hypothesis sha256_length : forall x, len (sha256 x) = 32.
Variables (d0 : Data.t) (w : bytes).
Hypothesis d0_wire : Block.wire (Data.m_wire d0) = Ok w.

(** The rule of the packet specification, for the wire [w] of the packet. *)
Definition matched (p : Z * PendingInterest.t callback) : Prop :=
  InterestTheorems.matches (untag (PendingInterest.m_interest p.2)) d0
    (NameFacts.keys (Data.m_name d0) ++ [InterestTheorems.digest_key (sha256 w)]).

#[export] Instance matched_dec p : Decision (matched p).
Proof.
  unfold matched, InterestTheorems.matches. apply and_dec; [destruct (Interest.m_canBePrefix _); apply _|].
  apply _.
Defined.

Definition from (o : PendingInterest.PendingInterestOrigin) (p : Z * PendingInterest.t callback) : bool :=
  bool_decide (matched p) && bool_decide (PendingInterest.m_origin p.2 = o).

(** The packet, with its full name cached or not. *)
Definition same (d : Data.t) : Prop := exists n, d = Data.with_fullName n d0 /\
  (Name.isEmpty n = true \/ NameFacts.keys n = NameFacts.keys (Data.m_name d0) ++ [InterestTheorems.digest_key (sha256 w)]).

(** Who is called with the packet, in which order. *)
Definition callee (p : Z * PendingInterest.t callback) : option (Z * callback * tagged Interest.t) :=
  if from PendingInterest.APP p
  then cb ← PendingInterest.m_dataCallback p.2; Some (p.1, cb, PendingInterest.m_interest p.2) else None.

Definition called (tg : TagHost.t) (k : Z * callback * tagged Interest.t) (ev : event callback) : Prop :=
  exists d, same d /\ ev = OnData k.1.1 k.1.2 k.2 (Tagged d tg).

Lemma matches_same i d : same d -> exists d' b, Interest.matchesData sha256 i d = (d', Ok b) /\ same d' /\
  (b = true <-> InterestTheorems.matches i d0 (NameFacts.keys (Data.m_name d0) ++ [InterestTheorems.digest_key (sha256 w)])).
Proof.
  intros (n & -> & Hn).
  destruct (InterestTheorems.matchesData_spec sha256 sha256_length i (Data.with_fullName n d0) w d0_wire Hn) as (n' & b & H1 & H2 & H3).
  exists (Data.with_fullName n' (Data.with_fullName n d0)), b. split_and!; [exact H1| |exact H3].
  exists n'. split; [done|]. cbn in H2. destruct H2 as [->|H2]; [exact Hn|by right].
Qed.

(** Callbacks that return. *)
Definition callbacks_return : Prop := forall ev s, exists s', invoke ev s = Some (s', Ok tt).

Lemma satisfy_loop (Hret : callbacks_return) l : forall a s, same (untag (m_data a)) ->
  exists a' s' evs, RecordContainer.removeIf satisfy_visit l (a, s) = Some (base.filter (fun p => ~ matched p) l, (a', s'), Ok tt) /\
    m_invoked s' = m_invoked s ++ evs /\ Forall2 (called (tags (m_data a))) (omap callee l) evs /\
    hasAppMatch a' = hasAppMatch a || existsb (from PendingInterest.APP) l /\
    hasForwarderMatch a' = hasForwarderMatch a || existsb (from PendingInterest.FORWARDER) l /\
    same (untag (m_data a')) /\ tags (m_data a') = tags (m_data a).
Proof.
  induction l as [|[id e] l IH]; intros a s Ha.
  { exists a, s, []. cbn. rewrite !orb_false_r, app_nil_r. done. }
  cbn [RecordContainer.removeIf]. unfold satisfy_visit at 1.
  destruct (matches_same (untag (PendingInterest.m_interest e)) (untag (m_data a)) Ha) as (d & b & -> & Hd & Hb).
  change (InterestTheorems.matches _ d0 _) with (matched (id, e)) in Hb.
  rewrite filter_cons. cbn [omap list_omap existsb]. unfold callee at 1, from at 1 2 4. cbn [snd fst].
  destruct b.
  - assert (matched (id, e)) as Hm by (by apply Hb). rewrite decide_False by (intros Hn; by apply Hn).
    rewrite (bool_decide_true (matched (id, e)) Hm). cbn [andb].
    destruct (PendingInterest.m_origin e) eqn:Eo.
    + rewrite !bool_decide_true by done. rewrite (bool_decide_false (PendingInterest.APP = PendingInterest.FORWARDER)) by done. cbn [andb].
      destruct (PendingInterest.m_dataCallback e) as [cb|]; cbn [invokeIf mbind option_bind].
      * destruct (Hret (OnData id cb (PendingInterest.m_interest e) (Tagged d (tags (m_data a)))) s) as [s1 E1]. rewrite E1.
        destruct (IH (mkMatching (Tagged d (tags (m_data a))) true (hasForwarderMatch a)) s1 Hd) as (a' & s' & evs & E & H1 & H2 & H3 & H4 & H5).
        rewrite E. exists a', s', (OnData id cb (PendingInterest.m_interest e) (Tagged d (tags (m_data a))) :: evs).
        apply invoke_frame in E1 as [_ E1]. rewrite H1, E1, <- (assoc_L (++)). split_and!; [done|done| | |done|apply H5|apply H5].
        -- constructor; [|done]. by exists d.
        -- rewrite H3. cbn. by rewrite orb_true_r.
      * destruct (IH (mkMatching (Tagged d (tags (m_data a))) true (hasForwarderMatch a)) s Hd) as (a' & s' & evs & E & H1 & H2 & H3 & H4 & H5).
        cbn. rewrite E. exists a', s', evs. split_and!; [done|done|done| |done|apply H5|apply H5]. rewrite H3. cbn. by rewrite orb_true_r.
    + rewrite (bool_decide_false (PendingInterest.FORWARDER = PendingInterest.APP)) by done. rewrite bool_decide_true by done. cbn [andb].
      destruct (IH (mkMatching (Tagged d (tags (m_data a))) (hasAppMatch a) true) s Hd) as (a' & s' & evs & E & H1 & H2 & H3 & H4 & H5).
      rewrite E. exists a', s', evs. split_and!; [done|done|done|done| |apply H5|apply H5]. rewrite H4. cbn. by rewrite orb_true_r.
  - assert (~ matched (id, e)) as Hm by (intros Hm%Hb; done). rewrite decide_True by done.
    rewrite (bool_decide_false (matched (id, e)) Hm). cbn [andb orb].
    destruct (IH (mkMatching (Tagged d (tags (m_data a))) (hasAppMatch a) (hasForwarderMatch a)) s Hd) as (a' & s' & evs & E & H1 & H2 & H3 & H4 & H5).
    rewrite E. by exists a', s', evs.
Qed.

End data.

(** ** Nacks *)

(** Nacks one after the other, and what each returns. *)
Fixpoint recordNacks (l : list (tagged Nack.t)) (e : PendingInterest.t callback) : option (PendingInterest.t callback * list (option (tagged Nack.t))) :=
  match l with
  | [] => Some (e, [])
  | n :: l => '(e, out) ← PendingInterest.recordNack n e; '(e, outs) ← recordNacks l e; Some (e, out :: outs)
  end.

Definition reason (n : tagged Nack.t) : Z := Nack.getReason (untag n).

Lemma isLessSevere_irrefl x : NackHeader.isLessSevere x x = false.
Proof. unfold NackHeader.isLessSevere. repeat case_match; lia. Qed.

Lemma isLessSevere_trans x y z : NackHeader.isLessSevere x y = false -> NackHeader.isLessSevere y z = false -> NackHeader.isLessSevere x z = false.
Proof. unfold NackHeader.isLessSevere. repeat case_match; lia. Qed.

Lemma isLessSevere_asym x y : NackHeader.isLessSevere x y = true -> NackHeader.isLessSevere y x = false.
Proof. unfold NackHeader.isLessSevere. repeat case_match; lia. Qed.

Lemma recordNacks_spec l : forall e m, PendingInterest.m_leastSevereNack e = Some m -> PendingInterest.m_nNotNacked e = Z.of_nat (length l) ->
  exists e' best, recordNacks l e = Some (e', match l with [] => [] | _ => replicate (length l - 1) None ++ [Some best] end) /\
    best ∈ m :: l /\ Forall (fun n => NackHeader.isLessSevere (reason n) (reason best) = false) (m :: l).
Proof.
  induction l as [|n l IH]; intros e m Hm Hn; cbn [recordNacks].
  { exists e, m. split_and!; [done|by left|]. constructor; [apply isLessSevere_irrefl|constructor]. }
  unfold PendingInterest.recordNack. cbn [PendingInterest.m_nNotNacked PendingInterest.with_nNotNacked PendingInterest.m_leastSevereNack].
  rewrite Hm, Hn. cbn [length]. rewrite (proj2 (Z.ltb_ge _ 0)) by lia. cbn [mbind option_bind].
  set (m' := if NackHeader.isLessSevere (reason n) (reason m) then n else m).
  set (e' := if NackHeader.isLessSevere _ _ then _ else _).
  assert (PendingInterest.m_leastSevereNack e' = Some m') as Hm' by (unfold e', m', reason; by destruct (NackHeader.isLessSevere _ _)).
  assert (PendingInterest.m_nNotNacked e' = Z.of_nat (length l)) as Hn' by (unfold e'; destruct (NackHeader.isLessSevere _ _); cbn; lia).
  destruct (IH e' m' Hm' Hn') as (e2 & best & E & Hin & Hb). rewrite E. cbn [mbind option_bind]. rewrite Hm', Hn'.
  apply Forall_cons_iff in Hb as [Hb1 Hb2].
  assert (NackHeader.isLessSevere (reason n) (reason m') = false /\ NackHeader.isLessSevere (reason m) (reason m') = false) as [Hn1 Hm1].
  { unfold m'. destruct (NackHeader.isLessSevere (reason n) (reason m)) eqn:El; split; auto using isLessSevere_irrefl, isLessSevere_asym. }
  exists e2, best. split_and!.
  - destruct l as [|n2 l]; cbn [length]; [|rewrite (proj2 (Z.ltb_lt 0 _)) by lia; cbn; by rewrite Nat.sub_0_r].
    cbn in E |- *. injection E as <-. apply list_elem_of_singleton in Hin. by subst.
  - apply elem_of_cons in Hin as [->|Hin]; [|set_solver]. unfold m'. destruct (NackHeader.isLessSevere _ _); set_solver.
  - constructor; [by eapply isLessSevere_trans|]. constructor; [by eapply isLessSevere_trans|done].
Qed.

(** The table can take a Nack if every record in it was given to somebody. *)
Lemma nack_loop (Hret : callbacks_return) nack l : Forall (fun p => 1 <= PendingInterest.m_nNotNacked p.2) l ->
  forall a s, exists l' a' s', RecordContainer.removeIf (nack_visit nack) l (a, s) = Some (l', (a', s'), Ok tt) /\
    Forall (fun p => 1 <= PendingInterest.m_nNotNacked p.2) l'.
Proof.
  induction 1 as [|[id e] l He _ IH]; intros a s; [by exists [], a, s|].
  cbn [RecordContainer.removeIf]. unfold nack_visit at 1. destruct (negb _).
  { destruct (IH a s) as (l' & a' & s' & -> & Hl). exists ((id, e) :: l'), a', s'. split; [done|by constructor]. }
  assert (exists e1 out, PendingInterest.recordNack nack e = Some (e1, out)) as (e1 & out & E).
  { unfold PendingInterest.recordNack. cbn in He |- *. rewrite (proj2 (Z.ltb_ge _ 0)) by lia. by eexists _, _. }
  rewrite E. destruct (recordNack_spec nack e e1 out E) as (N1 & N2 & N3 & _ & N4). destruct out as [out|].
  - case_bool_decide.
    + unfold invokeIf. destruct (PendingInterest.m_nackCallback e1) as [cb|].
      * destruct (Hret (OnNack id cb (PendingInterest.m_interest e1) out) s) as [s1 ->]. destruct (IH a s1) as (l' & a' & s' & -> & Hl). by exists l', a', s'.
      * destruct (IH a s) as (l' & a' & s' & E2 & Hl). cbn. rewrite E2. by exists l', a', s'.
    + destruct (IH (Some out) s) as (l' & a' & s' & -> & Hl). by exists l', a', s'.
  - destruct (IH a s) as (l' & a' & s' & -> & Hl). exists ((id, e1) :: l'), a', s'. split; [done|]. constructor; [|done]. cbn. apply proj1 in N4. specialize (N4 eq_refl). lia.
Qed.

End facts.
End FaceFacts.

Module FaceTheorems.
Import Face FaceFacts.

(** C4: every Interest is answered at most once: in every state that a face
    reaches by calls of the application, by tasks, packets, timeouts and
    responses in any order, by callbacks that call the face, and by exceptions
    that shut it down, no two callbacks answer the same Interest, an Interest
    that was answered is no longer pending and will not be sent again, the
    table is ordered by id, and an Interest of the application that is pending
    waits for at least one destination. *)
Theorem face_answers_once `{SR : StdRegex} {callback transport : Type} {FE : FaceEnv callback transport} (t : transport) (now : Z)
    (s : Impl callback transport) (Hr : reachable t now s) :
  NoDup (answered s) /\ (forall id, id ∈ answered s -> id ∉ pending s /\ id ∉ posted s) /\
  StronglySorted Z.lt (pending s) /\
  Forall (fun p => PendingInterest.m_origin p.2 = PendingInterest.APP -> 1 <= PendingInterest.m_nNotNacked p.2)
    (RecordContainer.m_container (m_pendingInterestTable s)).
Proof.
  apply face_reachable_inv in Hr as ((H1 & _) & H2 & H3). cbn [app] in H1. apply list.NoDup_app in H1 as (_ & H4 & H1). apply list.NoDup_app in H1 as (_ & H5 & H6).
  split_and!; [done| |done|].
  - intros id Hid. split; intros Hn; [by apply (H5 id)|]. apply (H4 id Hn). set_solver.
  - revert H3. apply Forall_impl. intros [k e] [_ H]. cbn. intros Ho. by apply H.
Qed.

(** C33: an Interest that was cancelled is never answered: the removal of a
    pending Interest always returns, and in every state of the face from then on,
    whatever packets arrive, time passes and the application calls, the Interest
    is not pending, none of its callbacks has been invoked, and no task is
    posted that would express it. *)
Theorem face_cancel `{SR : StdRegex} {callback transport : Type} {FE : FaceEnv callback transport} (t : transport) (now : Z)
    (s : Impl callback transport) (id : Z) (Hr : reachable t now s) (Hid : id ∈ pending s) :
  exists s1, run (RemovePendingInterest id) s = Some (s1, Ok tt) /\
    forall s2, rtc step s1 s2 -> id ∉ answered s2 /\ id ∉ pending s2 /\ id ∉ posted s2.
Proof.
  apply face_reachable_inv in Hr. pose proof (erase_free [] id s Hid Hr) as H. set (s' := with_pit _ s) in *.
  assert (exists s1, run (RemovePendingInterest id) s = Some (s1, Ok tt) /\ inv [id] None s1) as (s1 & Hc & H1).
  { cbn [run]. unfold erasePending, mbind, P_bind, modifyP, selfP. fold s'.
    destruct (RecordContainer.empty (m_pendingInterestTable s')); [|by exists s'].
    pose proof (keeps_post [id] None CheckEmpty eq_refl s' H) as H2. unfold onEmpty. destruct (post CheckEmpty s') as [[s1 [[]|]]|] eqn:E; [by exists s1|done..]. }
  exists s1. split; [done|]. intros s2 Hs. destruct (steps_inv _ _ s2 H1 Hs) as ((H2 & _) & _). clear H1. rename H2 into H1. cbn [app] in H1.
  apply list.NoDup_app in H1 as (_ & H4 & H1). apply list.NoDup_cons in H1 as [H5 _]. split_and!; [set_solver..|].
  intros Hp. apply (H4 id Hp). by left.
Qed.

(** A packet that is sent as it is: nothing for the link protocol, and not too long. *)
Definition sendable (data : tagged Data.t) : Prop :=
  TagHost.CachePolicyTag (tags data) = None /\ TagHost.CongestionMarkTag (tags data) = None /\
  exists n, Block.size (Data.m_wire (untag data)) = Ok n /\ n <= tlv.MAX_NDN_PACKET_SIZE.

Lemma putData_sends `{SR : StdRegex} {callback transport : Type} {FE : FaceEnv callback transport} (data : tagged Data.t) (w : bytes)
    (s : Impl callback transport) (data' : tagged Data.t) : Block.wire (Data.m_wire (untag data)) = Ok w -> sendable data ->
  same (untag data) w (untag data') -> isConnected (m_transport s) = true -> isReceiving (m_transport s) = true ->
  (_ ← ensureConnected true;
   lpPacket ← liftP (exec (_ ← TagHost.addFieldFromTag Field.CachePolicyField (TagHost.CachePolicyTag (tags data));
                           TagHost.addFieldFromTag Field.CongestionMarkField (TagHost.CongestionMarkTag (tags data))) lp_Packet.init);
   wire ← liftP (snd (Data.wireEncode (untag data')));
   wire ← finishEncoding lpPacket wire;
   transmit wire) s = transmit (Data.m_wire (untag data)) s.
Proof.
  intros Hw (H1 & H2 & n & Hn & Hle) (m & Ed & _) H3 H4. unfold ensureConnected. rewrite H1, H2.
  erewrite bindP_run; [|erewrite bindP_run by reflexivity; rewrite H3; erewrite bindP_run by reflexivity;
    erewrite bindP_run by reflexivity; rewrite H4; reflexivity].
  erewrite bindP_run by reflexivity. rewrite Ed. unfold Data.wireEncode. rewrite FieldFacts.bindM_self.
  change (Data.m_wire (Data.with_fullName m (untag data))) with (Data.m_wire (untag data)).
  assert (Block.hasWire (Data.m_wire (untag data)) = true) as Eh.
  { revert Hw. unfold Block.wire, Block.hasWire. by destruct (Block.m_buf _) as [[[|] ?]|]. }
  rewrite Eh. erewrite bindP_run by reflexivity. erewrite bindP_run; [reflexivity|].
  unfold finishEncoding. erewrite bindP_run by reflexivity. erewrite bindP_run by (unfold liftP; by rewrite Hn).
  rewrite (proj2 (Z.ltb_ge _ _)) by done. reflexivity.
Qed.

(** C25: a Data packet that has a wire (and no cached full name, or the right
    one) answers exactly the pending Interests that match it: with callbacks
    that return, satisfyPendingInterests invokes, in the order of the ids, the
    Data callback of every matching Interest of the application, removes every
    matching Interest from the table, leaves the others as they are, and
    reports true if and only if an Interest from the forwarder matches or no
    Interest of the application does.  When the application puts the Data
    (putData), nothing is sent if false was reported; if true was, the wire of
    the Data is handed to the transport as it is, provided the transport is
    connected and receiving, the Data has no cache policy and no congestion
    mark and its wire is no longer than a packet may be.  For Data from the
    forwarder the answer is ignored. *)
Theorem face_data_dispatch `{SR : StdRegex} {callback transport : Type} {FE : FaceEnv callback transport}
    (s : Impl callback transport) (data : tagged Data.t) (w : bytes) (Hlen : forall x, len (sha256 x) = 32)
    (Hw : Block.wire (Data.m_wire (untag data)) = Ok w) (Hd : same (untag data) w (untag data)) (Hret : callbacks_return) :
  let l := RecordContainer.m_container (m_pendingInterestTable s) in
  exists s' data' b evs, satisfyPendingInterests data s = Some (s', Ok (data', b)) /\
    RecordContainer.m_container (m_pendingInterestTable s') = base.filter (fun p => ~ matched (untag data) w p) l /\
    m_invoked s' = m_invoked s ++ evs /\ Forall2 (called (untag data) w (tags data)) (omap (callee (untag data) w) l) evs /\
    b = existsb (from (untag data) w PendingInterest.FORWARDER) l || negb (existsb (from (untag data) w PendingInterest.APP) l) /\
    same (untag data) w (untag data') /\ tags data' = tags data /\
    (b = false -> Impl_putData data s = Some (s', Ok tt)) /\
    (b = true -> sendable data -> isConnected (m_transport s') = true -> isReceiving (m_transport s') = true ->
     Impl_putData data s = transmit (Data.m_wire (untag data)) s').
Proof.
  intros l. destruct (satisfy_loop Hlen (untag data) w Hw Hret l (mkMatching data false false) s Hd) as (a & s1 & evs & E & H1 & H2 & H3 & H4 & H5 & H6).
  set (s2 := with_pit (RecordContainer.with_container (base.filter (fun p => ~ matched (untag data) w p) l) (m_pendingInterestTable s1)) s1).
  set (s' := match base.filter (fun p => ~ matched (untag data) w p) l with [] => with_ioService (m_ioService s2 ++ [CheckEmpty]) s2 | _ => s2 end).
  set (b := hasForwarderMatch a || negb (hasAppMatch a)).
  assert (satisfyPendingInterests data s = Some (s', Ok (m_data a, b))) as Es.
  { unfold satisfyPendingInterests, removeIfPending, mbind, P_bind. fold l. rewrite E. cbn [liftP]. subst s'. destruct (base.filter _ l); reflexivity. }
  exists s', (m_data a), b, evs. split_and!; [exact Es|subst s'; destruct (base.filter _ l) eqn:El; by rewrite ?El|subst s'; by destruct (base.filter _ l)|exact H2| |exact H5|exact H6| |].
  - subst b. by rewrite H3, H4.
  - intros Hb. unfold Impl_putData. erewrite bindP_run by exact Es. cbn [fst snd]. by rewrite Hb.
  - intros Hb Hs H7 H8. unfold Impl_putData. erewrite bindP_run by exact Es. cbn [fst snd]. rewrite Hb. cbn [negb].
    exact (putData_sends data w s' (m_data a) Hw Hs H5 H7 H8).
Qed.

(** An Interest that was sent to several destinations is nacked once they all
    have answered with a Nack, with the least severe of their reasons: the first
    Nacks are recorded and passed on to nobody, the last one yields a Nack
    among those received than which none is less severe. *)
Theorem face_least_severe_nack {callback : Type} (e : PendingInterest.t callback) (l : list (tagged Nack.t))
    (He : PendingInterest.m_leastSevereNack e = None) (Hn : PendingInterest.m_nNotNacked e = Z.of_nat (length l)) (Hl : l <> []) :
  exists e' best, recordNacks l e = Some (e', replicate (length l - 1) None ++ [Some best]) /\ best ∈ l /\
    Forall (fun n => NackHeader.isLessSevere (reason n) (reason best) = false) l.
Proof.
  destruct l as [|n l]; [done|]. cbn [recordNacks length] in *. unfold PendingInterest.recordNack.
  cbn [PendingInterest.m_nNotNacked PendingInterest.with_nNotNacked PendingInterest.m_leastSevereNack]. rewrite He, Hn.
  rewrite (proj2 (Z.ltb_ge _ 0)) by lia. cbn [mbind option_bind PendingInterest.m_leastSevereNack PendingInterest.with_leastSevereNack PendingInterest.m_nNotNacked].
  set (e' := PendingInterest.with_leastSevereNack _ _).
  destruct (recordNacks_spec l e' n eq_refl) as (e2 & best & E & Hin & Hb); [cbn; lia|]. rewrite E. cbn [mbind option_bind].
  exists e2, best. split_and!; [|done|done].
  destruct l as [|n2 l]; [|rewrite (proj2 (Z.ltb_lt 0 _)) by (cbn; lia); cbn; by rewrite Nat.sub_0_r].
  cbn in Hin |- *. apply list_elem_of_singleton in Hin. by subst.
Qed.

(** The assertion that counts destinations: with callbacks that return, a Nack
    is processed, and keeps it so, if every pending Interest has been given to
    a destination; but an Interest from the forwarder that comes to a face
    without filters stays pending without one, and a Nack for it, from the
    application or from the forwarder, fails the assertion. *)
Theorem face_nack_assertion `{SR : StdRegex} {callback transport : Type} {FE : FaceEnv callback transport} (Hret : callbacks_return) :
  (forall s nack, Forall (fun p => 1 <= PendingInterest.m_nNotNacked p.2) (RecordContainer.m_container (m_pendingInterestTable s)) ->
     exists s' out, nackPendingInterests nack s = Some (s', Ok out) /\
       Forall (fun p => 1 <= PendingInterest.m_nNotNacked p.2) (RecordContainer.m_container (m_pendingInterestTable s'))) /\
  (forall (t : transport) now interest header, exists s,
     processIncomingInterest interest (init t now) = Some (s, Ok tt) /\
     nackPendingInterests (Tagged (Nack.mk (untag interest) header) TagHost.none) s = None).
Proof.
  split.
  - intros s nack Hs. destruct (nack_loop Hret nack _ Hs None s) as (l' & a' & s' & E & Hl).
    unfold nackPendingInterests, removeIfPending. rewrite E.
    destruct l' as [|p l']; eexists _, _; (split; [reflexivity|exact Hl]).
  - intros t now interest header. eexists. split; [reflexivity|].
    unfold nackPendingInterests, removeIfPending. cbn. unfold Interest.matchesInterest.
    rewrite !eqb_reflx, NameFacts.nequals_spec, bool_decide_true by done. reflexivity.
Qed.

(** A registration that is cancelled too early comes back: when the handle of
    a prefix is cancelled before the forwarder has answered the command, there
    is no record to remove and nothing happens; when the command succeeds, the
    prefix is recorded and its Interest filter set, and no handle is left to
    remove them. *)
Theorem face_cancel_registration `{SR : StdRegex} {callback transport : Type} {FE : FaceEnv callback transport}
    (s : Impl callback transport) (f : InterestFilter.t) (cb : option callback) (onFailure : option callback)
    (Hp : RecordContainer.get (RecordContainer.m_lastId (m_registeredPrefixTable s) + 1) (m_registeredPrefixTable s) = None)
    (Hf : RecordContainer.get (RecordContainer.m_lastId (m_interestFilterTable s) + 1) (m_interestFilterTable s) = None)
    (Hp' : 0 <= RecordContainer.m_lastId (m_registeredPrefixTable s) < UINT64_MAX)
    (Hf' : 0 <= RecordContainer.m_lastId (m_interestFilterTable s) < UINT64_MAX) :
  let id := RecordContainer.m_lastId (m_registeredPrefixTable s) + 1 in
  exists s1 s2 r, Face_setInterestFilterRegister f cb None onFailure s = Some (s1, Ok id) /\
    Impl_unregisterPrefix id None None s1 = Some (s1, Ok tt) /\
    respond (RegisterCommand id (InterestFilter.m_prefix f) None onFailure (Some (f, cb))) None s1 = Some (s2, Ok tt) /\
    RecordContainer.get id (m_registeredPrefixTable s2) = Some r /\ RegisteredPrefix.m_filterId r <> 0 /\
    is_Some (RecordContainer.get (RegisteredPrefix.m_filterId r) (m_interestFilterTable s2)).
Proof.
  intros id. change (RecordContainer.get id (m_registeredPrefixTable s) = None) in Hp. set (fid := RecordContainer.m_lastId (m_interestFilterTable s) + 1) in *.
  assert (RecordContainer.allocateId (m_registeredPrefixTable s) = Some (id, RecordContainer.mk (RecordContainer.m_container (m_registeredPrefixTable s)) id)) as Ea
    by (by apply allocateId_room).
  assert (RecordContainer.allocateId (m_interestFilterTable s) = Some (fid, RecordContainer.mk (RecordContainer.m_container (m_interestFilterTable s)) fid)) as Eb
    by (by apply allocateId_room).
  eexists _, _, (RegisteredPrefix.mk (InterestFilter.m_prefix f) fid). split_and!.
  - unfold Face_setInterestFilterRegister, Impl_registerPrefix, mbind, P_bind, allocatePrefix. rewrite Ea. reflexivity.
  - unfold Impl_unregisterPrefix, mbind, P_bind, selfP. cbn [with_commands with_prefixes m_registeredPrefixTable]. unfold RecordContainer.get in Hp |- *. cbn [RecordContainer.m_container].
    rewrite Hp. reflexivity.
  - cbn [respond]. unfold registered, Impl_setInterestFilter, putPrefix, mbind, P_bind, allocateFilter.
    cbn [with_commands with_prefixes m_interestFilterTable]. rewrite Eb.
    rewrite (put_fresh fid) by (unfold fid; lia || exact Hf).
    cbn [with_filters with_prefixes m_registeredPrefixTable mret P_ret].
    rewrite (put_fresh id) by (unfold id; lia || exact Hp). reflexivity.
  - cbn [with_filters with_prefixes with_commands m_registeredPrefixTable]. by apply find_emplace.
  - cbn. unfold fid. lia.
  - cbn [with_filters with_prefixes with_commands m_interestFilterTable RegisteredPrefix.m_filterId]. eexists. by apply find_emplace.
Qed.


(** An Interest filter decides what it was made for: a filter of a prefix
    matches the names that start with it; a filter with an expression whose
    repeated groups consume something returns for every name, keeps its prefix
    and its expression, and matches exactly the names that start with the
    prefix and whose remaining components, all of them, are in the language of
    the expression. *)
Theorem interest_filter_matches `{SRL : StdRegexLaws} (env : option bytes) (prefix name : Name.t) (e : bytes) (f : InterestFilter.t)
    (Hf : InterestFilter.ofRegex prefix e = Some (Ok f)) (Hn : Forall (RegexFacts.uri_ok env) (Name.components name)) :
  (InterestFilter.doesMatch env name (InterestFilter.ofName prefix) = Some (InterestFilter.ofName prefix, Ok (Name.isPrefixOf prefix name))) /\
  exists m objs, InterestFilter.m_regexFilter f = Some (m, objs) /\
    (RegexFacts.progresses m = true -> forall objs', exists objs'' b,
       InterestFilter.doesMatch env name (InterestFilter.mk prefix (Some (m, objs')) (InterestFilter.m_allowsLoopback f)) =
         Some (InterestFilter.mk prefix (Some (m, objs'')) (InterestFilter.m_allowsLoopback f), Ok b) /\
       (b = true <-> Name.isPrefixOf prefix name = true /\
          RegexFacts.language env m (drop (Z.to_nat (Name.size prefix)) (Name.components name)))).
Proof.
  split; [unfold InterestFilter.doesMatch, InterestFilter.ofName; cbn; by destruct (Name.isPrefixOf prefix name)|].
  unfold InterestFilter.ofRegex in Hf. destruct (RegexFacts.compileTree_wf e) as (r & E & Hr). rewrite E in Hf.
  destruct r as [[m objs]|]; [|done]. injection Hf as <-. exists m, objs. split; [done|]. intros Hp objs'.
  destruct (Hr m objs eq_refl) as [Hw _]. unfold InterestFilter.doesMatch. cbn [InterestFilter.m_prefix InterestFilter.m_regexFilter InterestFilter.m_allowsLoopback].
  destruct (Name.isPrefixOf prefix name) eqn:Epre; [|exists objs', false; split; [done|]; by split; [|intros []]].
  rewrite NameFacts.isPrefixOf_spec, bool_decide_eq_true in Epre. apply prefix_length in Epre.
  unfold NameFacts.keys in Epre. rewrite !length_fmap in Epre.
  set (o := Z.to_nat (Name.size prefix)). set (n := Z.to_nat (Name.size name - Name.size prefix)).
  assert (o = length (Name.components prefix) /\ (o + n)%nat = length (Name.components name)) as [Ho Hon].
  { unfold o, n. rewrite !NameFacts.size_len. unfold len. lia. }
  destruct (RegexFacts.match_decides env name m n (S (length (Name.components name))) Hw Hp Hn ltac:(lia) o n objs') as (objs'' & b & Em & Hb);
    [unfold RegexFacts.in_range; lia|lia|].
  rewrite Em. exists objs'', b. split; [done|]. rewrite Hb. unfold RegexFacts.slice.
  rewrite take_ge; [|rewrite length_drop; lia]. split; [by split|by intros []].
Qed.

(** *** Instances *)

#[local] Existing Instance RegexTheorems.toy.

#[local] Instance sample_env : @FaceEnv RegexTheorems.toy nat (list Block.t) := {|
  isConnected := fun _ => true;
  isReceiving := fun _ => true;
  connect := mret tt;
  resume := mret tt;
  pause := mret tt;
  close := mret tt;
  send := fun b => modify (fun l => l ++ [b]);
  sha256 := InterestTheorems.toy_digest;
  uriEnv := None;
  autoCheck := false;
  body := fun _ _ => [];
|}.

Definition after (m : P (@Impl RegexTheorems.toy nat (list Block.t)) unit) s := match m s with Some (s', _) => s' | None => s end.

Definition sample_interest : tagged Interest.t :=
  Tagged (Interest.mk InterestTheorems.name_A [] (Some (str "abcd")) 4000 None true false [] Block.empty) TagHost.none.

Definition sample_0 := init (SR := RegexTheorems.toy) (callback := nat) (@nil Block.t) 0.
Definition sample_1 := after (call (expressInterest sample_interest [] (Some 1%nat) None (Some 2%nat))) sample_0.
Definition sample_task := match m_ioService sample_1 with [_; t] => t | _ => CheckEmpty end.
Definition sample_2 := after (handled (run sample_task)) (with_ioService [EnsureConnected] sample_1).
Definition sample_3 := with_now 5000 sample_2.
Definition sample_4 := after (handled (invokeTimeoutCallback 1)) sample_3.

Definition returns (m : P (@Impl RegexTheorems.toy nat (list Block.t)) unit) s : bool := match m s with Some _ => true | None => false end.

Lemma after_run m s : returns m s = true -> exists x, m s = Some (after m s, x).
Proof. unfold after, returns. destruct (m s) as [[s' x]|]; [by exists x|done]. Qed.

Lemma sample_call_1 : returns (call (expressInterest sample_interest [] (Some 1%nat) None (Some 2%nat))) sample_0 = true.
Proof. vm_compute. reflexivity. Qed.

Lemma sample_run_2 : returns (handled (run sample_task)) (with_ioService [EnsureConnected] sample_1) = true.
Proof. vm_compute. reflexivity. Qed.

Lemma sample_timeout_4 : returns (handled (invokeTimeoutCallback 1)) sample_3 = true.
Proof. vm_compute. reflexivity. Qed.

Lemma sample_queue_1 : m_ioService sample_1 = [EnsureConnected; sample_task].
Proof. reflexivity. Qed.

Lemma sample_reaches_1 : reachable (SR := RegexTheorems.toy) (@nil Block.t) 0 sample_1.
Proof.
  destruct (after_run _ _ sample_call_1) as [x E]. eapply reachable_step; [apply reachable_init|]. exact (step_call _ _ _ x E).
Qed.

Lemma sample_reaches_2 : reachable (SR := RegexTheorems.toy) (@nil Block.t) 0 sample_2.
Proof.
  destruct (after_run _ _ sample_run_2) as [x E]. eapply reachable_step; [apply sample_reaches_1|].
  exact (step_task sample_task [EnsureConnected] [] sample_1 sample_2 x sample_queue_1 E).
Qed.

Lemma sample_pending : pending sample_2 = [1] /\ len (m_transport sample_2) = 1.
Proof. vm_compute. by split. Qed.

Lemma sample_reaches_4 : reachable (SR := RegexTheorems.toy) (@nil Block.t) 0 sample_4.
Proof.
  eapply reachable_step; [eapply reachable_step; [apply sample_reaches_2|apply (step_clock 5000); vm_compute; discriminate]|].
  destruct (after_run _ _ sample_timeout_4) as [x E].
  set (e := match RecordContainer.get 1 (m_pendingInterestTable sample_3) with Some e => e | None => PendingInterest.ofForwarder 0 sample_interest end).
  refine (step_timeout 1 e 4000 sample_3 sample_4 x _ _ _ E).
  - unfold e. destruct (RecordContainer.get 1 (m_pendingInterestTable sample_3)) eqn:Eg; [reflexivity|].
    assert (match RecordContainer.get 1 (m_pendingInterestTable sample_3) with Some _ => true | None => false end = true) as H by (vm_compute; reflexivity).
    rewrite Eg in H. discriminate H.
  - vm_compute. reflexivity.
  - vm_compute. discriminate.
Qed.

Lemma face_answers_once_witness : answered sample_4 = [1] /\ NoDup (answered sample_4) /\ (1 ∉ pending sample_4 /\ 1 ∉ posted sample_4).
Proof.
  destruct (face_answers_once (@nil Block.t) 0 sample_4 sample_reaches_4) as (H1 & H2 & _).
  assert (answered sample_4 = [1]) as E by (vm_compute; reflexivity).
  split; [exact E|]. split; [exact H1|]. apply H2. rewrite E. left.
Defined.

Lemma face_cancel_witness : exists s1, run (RemovePendingInterest 1) sample_2 = Some (s1, Ok tt) /\ 1 ∉ answered s1 /\ 1 ∉ pending s1.
Proof.
  destruct (face_cancel (@nil Block.t) 0 sample_2 1 sample_reaches_2) as (s1 & E & H); [rewrite (proj1 sample_pending); left|].
  exists s1. split; [exact E|]. destruct (H s1 (rtc_refl _ _)) as (H1 & H2 & _). split; [exact H1|exact H2].
Defined.

Lemma sample_returns : @callbacks_return RegexTheorems.toy nat (list Block.t) sample_env.
Proof. intros ev s. eexists. reflexivity. Qed.

Definition sample_packet : Data.t := fst (Data.wireEncode DataTheorems.sample_data).
Definition sample_wire : bytes := match Block.wire (Data.m_wire sample_packet) with Ok w => w | Throw _ => [] end.

Lemma sample_packet_wire : Block.wire (Data.m_wire sample_packet) = Ok sample_wire.
Proof. vm_compute. reflexivity. Qed.

Lemma sample_same : same sample_packet sample_wire sample_packet.
Proof. exists (Data.m_fullName sample_packet). split; [vm_compute; reflexivity|]. left. vm_compute. reflexivity. Qed.

Lemma sample_matched : existsb (from sample_packet sample_wire PendingInterest.APP) (RecordContainer.m_container (m_pendingInterestTable sample_2)) = true.
Proof. vm_compute. reflexivity. Qed.

Lemma sample_sendable : sendable (Tagged sample_packet TagHost.none).
Proof.
  split; [reflexivity|]. split; [reflexivity|]. exists (len sample_wire). split; [vm_compute; reflexivity|vm_compute; discriminate].
Qed.

Lemma sample_open s : isConnected (FaceEnv := sample_env) (m_transport (callback := nat) s) = true /\ isReceiving (FaceEnv := sample_env) (m_transport (callback := nat) s) = true.
Proof. done. Qed.

(** The application's Interest is answered; without one the Data is sent. *)
Lemma face_data_dispatch_witness : (exists s' data' b evs,
  satisfyPendingInterests (Tagged sample_packet TagHost.none) sample_2 = Some (s', Ok (data', b)) /\ m_invoked s' = m_invoked sample_2 ++ evs /\ length evs = 1%nat) /\
  exists s', Impl_putData (Tagged sample_packet TagHost.none) sample_0 = transmit (Data.m_wire sample_packet) s'.
Proof.
  split.
  - destruct (face_data_dispatch (FE := sample_env) sample_2 (Tagged sample_packet TagHost.none) sample_wire InterestTheorems.toy_digest_length sample_packet_wire sample_same sample_returns)
      as (s' & data' & b & evs & H1 & _ & H2 & H3 & _).
    exists s', data', b, evs. split; [exact H1|]. split; [exact H2|]. apply Forall2_length in H3. rewrite <- H3. vm_compute. reflexivity.
  - destruct (face_data_dispatch (FE := sample_env) sample_0 (Tagged sample_packet TagHost.none) sample_wire InterestTheorems.toy_digest_length sample_packet_wire sample_same sample_returns)
      as (s' & data' & b & evs & _ & _ & _ & _ & Hb & _ & _ & _ & Hs).
    exists s'. destruct (sample_open s') as [Hc Hr]. exact (Hs Hb sample_sendable Hc Hr).
Defined.

Definition sample_nack (reason : Z) : tagged Nack.t :=
  Tagged (Nack.mk (untag sample_interest) (NackHeader.mk reason Block.empty)) TagHost.none.

Lemma face_least_severe_nack_witness :
  let e := PendingInterest.with_nNotNacked 2 (PendingInterest.ofApp (callback := nat) 0 sample_interest None None None) in
  exists e' best, recordNacks [sample_nack NackHeader.NO_ROUTE; sample_nack NackHeader.CONGESTION] e = Some (e', [None; Some best]) /\
    NackHeader.isLessSevere NackHeader.CONGESTION (reason best) = false.
Proof.
  intros e. destruct (face_least_severe_nack e [sample_nack NackHeader.NO_ROUTE; sample_nack NackHeader.CONGESTION]) as (e' & best & H1 & _ & H2); [reflexivity|reflexivity|discriminate|].
  exists e', best. split; [exact H1|]. apply Forall_cons_iff in H2 as [_ H2]. apply Forall_cons_iff in H2 as [H2 _]. exact H2.
Defined.

Lemma face_nack_assertion_witness : exists s, processIncomingInterest sample_interest sample_0 = Some (s, Ok tt) /\
  nackPendingInterests (sample_nack NackHeader.NO_ROUTE) s = None.
Proof. exact (proj2 (face_nack_assertion sample_returns) [] 0 sample_interest (NackHeader.mk NackHeader.NO_ROUTE Block.empty)). Defined.

Lemma face_cancel_registration_witness : exists (s1 s2 : Impl nat (list Block.t)) r,
  Face_setInterestFilterRegister (InterestFilter.ofName InterestTheorems.name_A) (Some 1%nat) None None sample_0 = Some (s1, Ok 1) /\
  Impl_unregisterPrefix 1 None None s1 = Some (s1, Ok tt) /\ RecordContainer.get 1 (m_registeredPrefixTable s2) = Some r.
Proof.
  destruct (face_cancel_registration sample_0 (InterestFilter.ofName InterestTheorems.name_A) (Some 1%nat) None eq_refl eq_refl) as (s1 & s2 & r & H1 & H2 & _ & H3 & _);
    [vm_compute; split; [discriminate|reflexivity]|vm_compute; split; [discriminate|reflexivity]|].
  exists s1, s2, r. split; [exact H1|]. split; [exact H2|exact H3].
Defined.

Definition hello : Name.t := RegexTheorems.name_of "/hello".
Definition hello_name : Name.t := RegexTheorems.name_of "/hello/world/x/y".

Lemma hello_filter : exists f, InterestFilter.ofRegex (H := RegexTheorems.toy) hello (str "<world><>+") = Some (Ok f) /\
  forall m objs, InterestFilter.m_regexFilter f = Some (m, objs) -> RegexFacts.progresses m = true.
Proof. eexists. split; [reflexivity|]. intros m objs [= <- <-]. reflexivity. Qed.

Lemma interest_filter_matches_witness : exists (f : InterestFilter.t (H := RegexTheorems.toy)) f' b,
  InterestFilter.ofRegex hello (str "<world><>+") = Some (Ok f) /\ InterestFilter.doesMatch None hello_name f = Some (f', Ok b).
Proof.
  destruct hello_filter as (f & Ef & Hp).
  destruct (interest_filter_matches (SRL := RegexTheorems.toy_laws) None hello hello_name (str "<world><>+") f Ef) as (_ & m & objs & Em & H).
  { apply RegexTheorems.printable_uri_ok, RegexTheorems.printableb_spec. vm_compute. reflexivity. }
  destruct (H (Hp m objs Em) objs) as (objs' & b & E & _).
  assert (InterestFilter.mk hello (Some (m, objs)) (InterestFilter.m_allowsLoopback f) = f) as Hf.
  { unfold InterestFilter.ofRegex in Ef. destruct (regex.compileTree (str "<world><>+")) as [[mm|]|]; [|discriminate Ef|discriminate Ef].
    injection Ef as <-. cbn in Em. injection Em as ->. reflexivity. }
  rewrite Hf in E. exists f, (InterestFilter.mk hello (Some (m, objs')) (InterestFilter.m_allowsLoopback f)), b. split; [exact Ef|exact E].
Defined.

End FaceTheorems.
