(* ===== verification/Delegations.v ===== *)
(** Delegation lists and Link objects: [ndn-cxx/delegation.hpp],
    [delegation-list.cpp] and [link.cpp]. *)

From Stdlib Require Import Sorted Permutation.
From S2P Require Import Prelude Tlv Encoding Blocks BlockHelpers Text NameComponents Names Fields DataPacket.

(** ** Delegation *)

Module Delegation.

(** [ndn-cxx/delegation.hpp:82-84] Delegation *)
Record t := mk { preference : Z; name : Name.t }.

(** [Name::operator<] *)
Definition name_less (a b : Name.t) : bool :=
  match Name.compare a b with Some (Ok z) => z <? 0 | _ => false end.

(** [ndn-cxx/delegation.hpp:38-49] operator==(const Delegation&, const Delegation&) *)
Definition eqb (lhs rhs : t) : bool :=
  negb (negb (preference lhs =? preference rhs) || negb (Name.equals (name lhs) (name rhs))).

(** [ndn-cxx/delegation.hpp:51-56] operator<(const Delegation&, const Delegation&)
    The order of [std::tie]. *)
Definition less (lhs rhs : t) : bool :=
  (preference lhs <? preference rhs) ||
  (negb (preference rhs <? preference lhs) && name_less (name lhs) (name rhs)).

End Delegation.

(** ** DelegationList *)

Module DelegationList.
Import Delegation.

(** [ndn-cxx/encoding/tlv.hpp:93-93] tlv::LinkDelegation *)
Definition LinkDelegation : Z := 31.
(** [ndn-cxx/encoding/tlv.hpp:94-94] tlv::LinkPreference *)
Definition LinkPreference : Z := 30.

(** [ndn-cxx/delegation-list.hpp:239-248] DelegationList *)
Record t := mk { m_isSorted : bool; m_dels : list Delegation.t }.

Definition with_dels x dl := mk (m_isSorted dl) x.

(** [ndn-cxx/delegation-list.cpp:31-34] DelegationList::DelegationList() *)
Definition init : t := mk true [].

(** [ndn-cxx/delegation-list.cpp:49-59] DelegationList::isValidTlvType *)
Definition isValidTlvType (type : Z) : bool := (type =? tlv.Content) || (type =? tlv.ForwardingHint).

(** [ndn-cxx/delegation-list.cpp:193-204] DelegationList::insertImpl *)
Definition insertImpl (preference : Z) (name : Name.t) : M t unit := modify (fun dl =>
  if negb (m_isSorted dl) then with_dels (m_dels dl ++ [Delegation.mk preference name]) dl
  else
    let del := Delegation.mk preference name in
    let pos := upper_bound less del (m_dels dl) in
    with_dels (take pos (m_dels dl) ++ del :: drop pos (m_dels dl)) dl).

(** [ndn-cxx/delegation-list.cpp:211-212] DelegationList::eraseImpl (the test of one delegation) *)
Definition erases (preference_ : option Z) (name_ : Name.t) (i : Delegation.t) : bool :=
  match preference_ with None => true | Some p => preference i =? p end && Name.equals (name i) name_.

(** [ndn-cxx/delegation-list.cpp:206-221] DelegationList::eraseImpl *)
Definition eraseImpl (preference_ : option Z) (name_ : Name.t) : M t Z := fun dl =>
  let kept := List.filter (fun i => negb (erases preference_ name_ i)) (m_dels dl) in
  (with_dels kept dl, Ok (len (m_dels dl) - len kept)).

(** [ndn-cxx/delegation-list.hpp:150-163] DelegationList::InsertConflictResolution *)
Inductive InsertConflictResolution := INS_REPLACE | INS_APPEND | INS_SKIP.

(** [ndn-cxx/delegation-list.cpp:169-191] DelegationList::insert *)
Definition insert (preference_ : Z) (name_ : Name.t) (onConflict : InsertConflictResolution) : M t bool :=
  match onConflict with
  | INS_REPLACE =>
      _ ← eraseImpl None name_;
      _ ← insertImpl preference_ name_;
      mret true
  | INS_APPEND => _ ← insertImpl preference_ name_; mret true
  | INS_SKIP =>
      dl ← self;
      if negb (existsb (fun del => Name.equals (name del) name_) (m_dels dl))
      then _ ← insertImpl preference_ name_; mret true
      else mret false
  end.

(** [ndn-cxx/delegation-list.hpp:184-188] DelegationList::erase(preference, name) *)
Definition erase (preference_ : Z) (name_ : Name.t) : M t Z := eraseImpl (Some preference_) name_.

(** [ndn-cxx/delegation-list.hpp:202-206] DelegationList::erase(name) *)
Definition eraseName (name_ : Name.t) : M t Z := eraseImpl None name_.

(** [ndn-cxx/delegation-list.cpp:153-167] DelegationList::sort *)
Definition sort : M t unit :=
  dl ← self;
  if m_isSorted dl then mret tt
  else
    _ ← modify (fun _ => mk true []);
    forM (m_dels dl) (fun del => insertImpl (preference del) (name del)).

(** [ndn-cxx/delegation-list.cpp:36-42] DelegationList::DelegationList(initializer_list) *)
Definition ofList (dels : list Delegation.t) : t :=
  fst (forM dels (fun del => _ ← insert (preference del) (name del) INS_REPLACE; mret tt) init).

(** [ndn-cxx/delegation-list.cpp:86-90] DelegationList::wireEncode (one delegation) *)
Definition encode_del (i : Delegation.t) : prepender :=
  pTL LinkDelegation
    (Name.wireEncode_template (name i) ;+ encoding.prependNonNegativeIntegerBlock LinkPreference (preference i)).

(** [ndn-cxx/delegation-list.cpp:61-96] DelegationList::wireEncode *)
Definition wireEncode (type : Z) (dl : t) : result prepender :=
  _ ← throw_if (negb (isValidTlvType type)) (InvalidArgument "Unexpected TLV-TYPE while encoding DelegationList");
  _ ← throw_if (len (m_dels dl) =? 0) (PacketError "Empty DelegationList");
  Ok (pTL type (pReversed encode_del (m_dels dl))).

(** [catch (const tlv::Error&) { NDN_THROW_NESTED(e); }] *)
Definition nested {A} (r : result A) (e : exn) : result A :=
  match r with
  | Ok a => Ok a
  | Throw x => if is_tlv_error x then Throw e else Throw x
  end.

(** [ndn-cxx/delegation-list.cpp:115-145] DelegationList::wireDecode (the body of the loop) *)
Definition decode_del (del : Block.t) : result Delegation.t :=
  _ ← throw_if (negb (Block.type del =? LinkDelegation)) (PacketError "Unexpected TLV-TYPE while decoding Delegation");
  del ← Block.parsed del;
  match Block.elements del with
  | val :: rest =>
      _ ← throw_if (negb (Block.type val =? LinkPreference)) (PacketError "Missing Preference field in Delegation");
      preference ← nested (encoding.readNonNegativeInteger val) (PacketError "Invalid Preference field in Delegation");
      match rest with
      | val :: _ =>
          _ ← throw_if (negb (Block.type val =? tlv.Name)) (PacketError "Missing Name field in Delegation");
          name ← nested (Name.decode val) (PacketError "Invalid Name field in Delegation");
          Ok (Delegation.mk preference name)
      | [] => Throw (PacketError "Missing Name field in Delegation")
      end
  | [] => Throw (PacketError "Missing Preference field in Delegation")
  end.

(** [ndn-cxx/delegation-list.cpp:104-151] DelegationList::wireDecode *)
Definition wireDecode (block : Block.t) (wantSort : bool) : M t unit :=
  _ ← throwM_if (negb (isValidTlvType (Block.type block))) (PacketError "Unexpected TLV-TYPE while decoding DelegationList");
  _ ← modify (fun dl => mk wantSort (m_dels dl));
  _ ← modify (with_dels []);
  block ← liftR (Block.parsed block);
  _ ← forM (Block.elements block) (fun del => d ← liftR (decode_del del); insertImpl (preference d) (name d));
  dl ← self;
  throwM_if (len (m_dels dl) =? 0) (PacketError "Empty DelegationList").

(** [ndn-cxx/delegation-list.cpp:44-47] DelegationList::DelegationList(const Block&, bool) *)
Definition ofBlock (block : Block.t) (wantSort : bool) : result t := exec (wireDecode block wantSort) (mk wantSort []).

(** [ndn-cxx/delegation-list.hpp:226-230] operator==(const DelegationList&, const DelegationList&) *)
Fixpoint dels_eqb (l k : list Delegation.t) : bool :=
  match l, k with
  | [], [] => true
  | x :: l, y :: k => Delegation.eqb x y && dels_eqb l k
  | _, _ => false
  end.

End DelegationList.

(** ** Link *)

Module Link.

(** [ndn-cxx/encoding/tlv.hpp:166-166] tlv::ContentType_Link *)
Definition ContentType_Link : Z := 1.

(** [ndn-cxx/link.hpp:111-111] Link
    The base class and the member. *)
Record t := mk { base : Data.t; m_delegations : list Name.t }.

Definition onData {A} (m : M Data.t A) : M t A := zoom base (fun d l => mk d (m_delegations l)) m.
Definition with_delegations x l := mk (base l) x.

(** [ndn-cxx/link.cpp:47-58] Link::encodeContent *)
Definition encodeContent : M t unit :=
  _ ← onData (Data.setContentType ContentType_Link);
  l ← self;
  match m_delegations l with
  | [] => onData (Data.setContent [])
  | dels => b ← liftR (encoding.makeNestedBlocks tlv.Content dels); onData (Data.setContentBlock b)
  end.

(** [ndn-cxx/link.cpp:40-45] Link::Link(const Name&, initializer_list) *)
Definition ofNames (name : Name.t) (delegations : list Name.t) : result t :=
  exec encodeContent (mk (Data.ofName name) delegations).

(** [ndn-cxx/link.cpp:74-81] Link::wireDecode (the loop) *)
Fixpoint decode_elements (elements : list Block.t) : M t unit :=
  match elements with
  | [] => mret tt
  | del :: rest =>
      if Block.type del =? tlv.Name then
        n ← liftR (Name.ofBlock del);
        _ ← modify (fun l => with_delegations (m_delegations l ++ [n]) l);
        decode_elements rest
      else
        _ ← throwM_if (tlv.isCriticalType (Block.type del)) (PacketError "Unexpected TLV-TYPE while decoding LinkContent");
        decode_elements rest
  end.

(** [ndn-cxx/link.cpp:60-82] Link::wireDecode *)
Definition wireDecode (wire : Block.t) : M t unit :=
  _ ← onData (Data.wireDecode wire);
  l ← self;
  _ ← throwM_if (negb (MetaInfo.m_type (Data.m_metaInfo (base l)) =? ContentType_Link))
        (PacketError "Expecting ContentType Link");
  _ ← modify (with_delegations []);
  content ← liftR (Block.parsed (Data.m_content (base l)));
  decode_elements (Block.elements content).

(** [ndn-cxx/link.cpp:35-38] Link::Link(const Block&) *)
Definition ofBlock (wire : Block.t) : result t := exec (wireDecode wire) (mk (Data.ofName Name.empty) []).

(** [ndn-cxx/link.cpp:84-89] Link::setDelegationList *)
Definition setDelegationList (delegations : list Name.t) : M t unit :=
  _ ← modify (with_delegations delegations); encodeContent.

(** [ndn-cxx/link.cpp:91-101] Link::addDelegation *)
Definition addDelegation (name : Name.t) : M t bool :=
  l ← self;
  if existsb (fun n => Name.equals n name) (m_delegations l) then mret false
  else
    _ ← modify (fun l => with_delegations (m_delegations l ++ [name]) l);
    _ ← encodeContent;
    mret true.

(** [ndn-cxx/link.cpp:103-114] Link::removeDelegation *)
Definition removeDelegation (name : Name.t) : M t bool :=
  l ← self;
  let kept := List.filter (fun n => negb (Name.equals n name)) (m_delegations l) in
  if (length kept =? length (m_delegations l))%nat then mret false
  else
    _ ← modify (with_delegations kept);
    _ ← encodeContent;
    mret true.

End Link.

(** ** Lemmas *)

Module DelegationFacts.
Import FieldFacts Delegation DelegationList NameFacts.

(** The order by preference, then by name. *)
Definition dlt (d e : Delegation.t) : Prop :=
  preference d < preference e \/ preference d = preference e /\ keys_lt (keys (name d)) (keys (name e)).
Definition dle (d e : Delegation.t) : Prop :=
  preference d < preference e \/
  preference d = preference e /\ (keys (name d) = keys (name e) \/ keys_lt (keys (name d)) (keys (name e))).

Lemma name_less_spec a b : ordered_name a -> ordered_name b -> name_less a b = true <-> keys_lt (keys a) (keys b).
Proof.
  intros Ha Hb. unfold name_less, keys_lt. destruct (compare_names a b Ha Hb) as (r & -> & Hr).
  rewrite Z.ltb_lt. destruct (keys_cmp (keys a) (keys b)); cbn in Hr; split; intros; try done; lia.
Qed.

Lemma del_less_spec d e : ordered_name (name d) -> ordered_name (name e) -> less d e = true <-> dlt d e.
Proof.
  intros Hd He. unfold less, dlt. rewrite orb_true_iff, andb_true_iff, negb_true_iff, Z.ltb_lt, Z.ltb_ge, name_less_spec by done.
  split; [intros [H|[H K]]; [by left|]|intros [H|[-> K]]; [by left|by right; split; [lia|]]].
  destruct (Z.eq_dec (preference d) (preference e)); [by right|left; lia].
Qed.

Lemma not_less d e : ordered_name (name d) -> ordered_name (name e) -> less d e = false -> dle e d.
Proof.
  intros Hd He H. assert (~ dlt d e) as Hn by (rewrite <- del_less_spec by done; congruence). unfold dlt, dle, keys_lt in *.
  pose proof (keys_cmp_antisym (keys (name d)) (keys (name e))) as Ha. pose proof (keys_cmp_eq (keys (name d)) (keys (name e))) as Heq.
  destruct (Z.lt_trichotomy (preference e) (preference d)) as [Hl|[Hl|Hl]]; [by left| |destruct Hn; by left].
  right. split; [done|]. destruct (keys_cmp (keys (name d)) (keys (name e))); cbn in Ha; rewrite ?Ha.
  - left. symmetry. by apply Heq.
  - destruct Hn. by right.
  - by right.
Qed.

Lemma dlt_dle d e : dlt d e -> dle d e.
Proof. unfold dlt, dle. tauto. Qed.

Lemma dlt_dle_trans a b c : dlt a b -> dle b c -> dlt a c.
Proof.
  unfold dlt, dle. intros [H1|[H1 K1]] [H2|[H2 [K2|K2]]]; try (left; lia); right; (split; [lia|]).
  - by rewrite <- K2.
  - by eapply keys_lt_trans.
Qed.

Definition names_ok (l : list Delegation.t) : Prop := Forall (fun d => ordered_name (name d)) l.

(** The names compare as names do, and a list that says it is sorted is. *)
Definition inv (dl : t) : Prop :=
  names_ok (m_dels dl) /\ (m_isSorted dl = true -> StronglySorted dle (m_dels dl)).

(** Where [upper_bound] puts a delegation. *)
Lemma del_insert_sorted d l : names_ok l -> ordered_name (name d) -> StronglySorted dle l ->
  let pos := upper_bound less d l in StronglySorted dle (take pos l ++ d :: drop pos l).
Proof.
  intros Hn Hd Hs. cbv zeta. induction Hs as [|x l Hs IH Hx]; [repeat constructor|]. apply Forall_cons_iff in Hn as [Hnx Hn].
  cbn [upper_bound]. destruct (less d x) eqn:E; cbn [take drop app].
  - apply del_less_spec in E; [|done..]. constructor; [by constructor|]. constructor; [by apply dlt_dle|].
    eapply Forall_impl; [|exact Hx]. intros y Hy. by eapply dlt_dle, dlt_dle_trans.
  - apply not_less in E; [|done..]. constructor; [by apply IH|]. rewrite <- (take_drop (upper_bound less d l) l) in Hx.
    apply Forall_app in Hx as [H1 H2]. apply Forall_app. split; [done|]. by constructor.
Qed.

Lemma del_insert_perm {A} (x : A) (l : list A) k : take k l ++ x :: drop k l ≡ₚ x :: l.
Proof. rewrite <- Permutation_middle. by rewrite take_drop. Qed.

Lemma insertImpl_spec p n dl : inv dl -> ordered_name n -> exists dl',
  insertImpl p n dl = (dl', Ok tt) /\ inv dl' /\ m_isSorted dl' = m_isSorted dl /\
  m_dels dl' ≡ₚ Delegation.mk p n :: m_dels dl /\
  (m_isSorted dl = false -> m_dels dl' = m_dels dl ++ [Delegation.mk p n]).
Proof.
  intros [Hn Hs] Ho. unfold insertImpl, modify. destruct (m_isSorted dl) eqn:E; cbn [negb]; eexists; (split; [done|]).
  - split_and!; [|done|apply del_insert_perm|done]. split.
    + cbn [with_dels m_dels]. unfold names_ok. rewrite (del_insert_perm (Delegation.mk p n)). by constructor.
    + intros _. apply del_insert_sorted; auto.
  - split_and!; [|done| |done]; cbn [with_dels m_dels].
    + split; [|cbn [with_dels m_isSorted]; congruence]. unfold names_ok. cbn [with_dels m_dels]. apply Forall_app. split; [done|]. constructor; [done|constructor].
    + apply Permutation_sym, Permutation_cons_append.
Qed.

Lemma sorted_filter (f : Delegation.t -> bool) l : StronglySorted dle l -> StronglySorted dle (List.filter f l).
Proof.
  induction 1 as [|x l Hs IH Hx]; [constructor|]. cbn. destruct (f x); [|done]. constructor; [done|].
  apply Forall_forall. intros y Hy. rewrite filter_In in Hy. rewrite Forall_forall in Hx. apply Hx, Hy.
Qed.

Lemma names_filter (f : Delegation.t -> bool) l : names_ok l -> names_ok (List.filter f l).
Proof.
  unfold names_ok. rewrite !Forall_forall. intros H x Hx. rewrite filter_In in Hx. apply H, Hx.
Qed.

Lemma eraseImpl_inv p n dl dl' r : inv dl -> eraseImpl p n dl = (dl', r) -> inv dl'.
Proof.
  intros [Hn Hs] [= <- <-]. split; [by apply names_filter|]. intros E. apply sorted_filter, Hs, E.
Qed.

(** A run of insertions. *)
Lemma insert_all l : forall dl, inv dl -> names_ok l -> exists dl',
  forM l (fun del => insertImpl (preference del) (name del)) dl = (dl', Ok tt) /\ inv dl' /\
  m_isSorted dl' = m_isSorted dl /\ m_dels dl' ≡ₚ l ++ m_dels dl /\
  (m_isSorted dl = false -> m_dels dl' = m_dels dl ++ l).
Proof.
  induction l as [|d l IH]; intros dl Hdl Hl.
  - exists dl. rewrite app_nil_r. done.
  - apply Forall_cons_iff in Hl as [Hd Hl]. destruct (insertImpl_spec (preference d) (name d) dl Hdl Hd) as (dl1 & H1 & Hi1 & Hs1 & Hp1 & Hu1).
    cbn [forM]. rewrite (bindM_ok _ _ _ _ _ H1). destruct (IH dl1 Hi1 Hl) as (dl' & H2 & Hi2 & Hs2 & Hp2 & Hu2).
    exists dl'. destruct d as [p n]. split_and!; [done..|congruence| |].
    + rewrite Hp2, Hp1. by rewrite <- Permutation_middle.
    + intros E. rewrite Hu2, Hu1 by congruence. by rewrite <- (assoc_L (++)).
Qed.

End DelegationFacts.

(** ** Theorems *)

Module DelegationTheorems.
Import FieldFacts Delegation DelegationList NameFacts DelegationFacts.

(** The calls that change a list, on names that compare as names do. *)
Inductive op : M t unit -> Prop :=
| op_insert p n how : ordered_name n -> op (_ ← insert p n how; mret tt)
| op_erase p n : op (_ ← eraseImpl p n; mret tt)
| op_sort : op sort
| op_decode block wantSort :
    (forall d b, Block.parsed block = Ok b -> d ∈ Block.elements b -> forall del, decode_del d = Ok del -> ordered_name (name del)) ->
    op (wireDecode block wantSort).

Inductive reachable : t -> Prop :=
| reach_init : reachable init
| reach_op m dl dl' r : reachable dl -> op m -> m dl = (dl', r) -> reachable dl'.

Lemma keeps_insertImpl p n : ordered_name n -> keeps inv (insertImpl p n).
Proof. intros Hn dl Hdl. destruct (insertImpl_spec p n dl Hdl Hn) as (dl' & -> & Hi & _). exact Hi. Qed.

Lemma keeps_eraseImpl p n : keeps inv (eraseImpl p n).
Proof. intros dl Hdl. destruct (eraseImpl p n dl) as [dl' r] eqn:E. pose proof (eraseImpl_inv _ _ _ _ _ Hdl E). by destruct r. Qed.

Lemma keeps_insert p n how : ordered_name n -> keeps inv (insert p n how).
Proof.
  intros Hn. destruct how; cbn [insert].
  - apply keeps_bind; [apply keeps_eraseImpl|]. intros _. apply keeps_bind; [by apply keeps_insertImpl|]. intros _. apply keeps_ret.
  - apply keeps_bind; [by apply keeps_insertImpl|]. intros _. apply keeps_ret.
  - apply keeps_self. intros dl _. apply keeps_if; intros _; [|apply keeps_ret].
    apply keeps_bind; [by apply keeps_insertImpl|]. intros _. apply keeps_ret.
Qed.

Lemma keeps_forM {S A} (I : S -> Prop) (l : list A) (f : A -> M S unit) :
  (forall x, x ∈ l -> keeps I (f x)) -> keeps I (forM l f).
Proof.
  induction l as [|x l IH]; intros H; cbn [forM]; [apply keeps_ret|]. apply keeps_bind; [apply H; left|].
  intros _. apply IH. intros y Hy. apply H. by right.
Qed.

Lemma inv_empty b : inv (mk b []).
Proof. split; constructor. Qed.

Lemma sort_spec dl : inv dl -> m_isSorted dl = false -> exists dl',
  sort dl = (dl', Ok tt) /\ inv dl' /\ m_isSorted dl' = true /\ m_dels dl' ≡ₚ m_dels dl.
Proof.
  intros [Hn _] Hs. unfold sort. rewrite bindM_self, Hs, bindM_modify.
  destruct (insert_all (m_dels dl) (mk true []) (inv_empty true) Hn) as (dl' & -> & Hi & Ht & Hp & _).
  exists dl'. rewrite app_nil_r in Hp. done.
Qed.

Lemma keeps_sort : keeps inv sort.
Proof.
  intros dl Hdl. destruct (m_isSorted dl) eqn:E.
  - unfold sort. rewrite bindM_self, E. exact Hdl.
  - destruct (sort_spec dl Hdl E) as (dl' & -> & Hi & _). exact Hi.
Qed.

Lemma list_keeps_wireDecode block wantSort :
  (forall d b, Block.parsed block = Ok b -> d ∈ Block.elements b -> forall del, decode_del d = Ok del -> ordered_name (name del)) ->
  keeps inv (wireDecode block wantSort).
Proof.
  intros Hd dl Hdl. unfold wireDecode, throwM_if, throw_if, liftR. unfold mbind at 1, M_bind at 1.
  destruct (negb _); [exact Hdl|]. rewrite !bindM_modify. unfold mbind at 1, M_bind at 1.
  destruct (Block.parsed block) as [b|]; [|apply inv_empty].
  match goal with |- match (?m ≫= ?f) ?s with _ => _ end => assert (keeps inv (m ≫= f)) as K; [|exact (K s (inv_empty _))] end.
  apply keeps_bind.
  - apply keeps_forM. intros d Hin. intros s Hs. unfold mbind, M_bind. destruct (decode_del d) as [del|] eqn:E; [|exact Hs].
    exact (keeps_insertImpl _ _ (Hd d b eq_refl Hin del E) s Hs).
  - intros _. apply keeps_self. intros o _. apply keeps_lift.
Qed.

Lemma list_keeps_op m : op m -> keeps inv m.
Proof.
  intros [p n how Hn|p n| |block w Hd].
  - apply keeps_bind; [by apply keeps_insert|]. intros _. apply keeps_ret.
  - apply keeps_bind; [apply keeps_eraseImpl|]. intros _. apply keeps_ret.
  - apply keeps_sort.
  - by apply list_keeps_wireDecode.
Qed.

Lemma erase_none p n dl dl' r d : eraseImpl p n dl = (dl', r) -> d ∈ m_dels dl' -> erases p n d = false.
Proof. intros [= <- _] Hd. apply list_elem_of_In, filter_In in Hd as [_ Hd]. by apply negb_true_iff. Qed.

Lemma keys_of_equals n m : Name.equals n m = true <-> keys n = keys m.
Proof. rewrite nequals_spec. apply bool_decide_eq_true. Qed.

(** A delegation list keeps its promises: after any insertions, deletions,
    sortings and decodings, failed ones included, a list that says it is sorted is
    in ascending order of preference and name; sorting permutes it; and an
    insertion that replaces leaves exactly one delegation of that name and the
    others as they were. *)
Theorem delegation_list_invariant (dl : t) (p : Z) (n : Name.t) (Hdl : reachable dl) (Hn : ordered_name n) :
  (m_isSorted dl = true -> StronglySorted dle (m_dels dl)) /\
  (exists dl', sort dl = (dl', Ok tt) /\ m_isSorted dl' = true /\ StronglySorted dle (m_dels dl') /\ m_dels dl' ≡ₚ m_dels dl) /\
  (exists dl', insert p n INS_REPLACE dl = (dl', Ok true) /\
     m_dels dl' ≡ₚ Delegation.mk p n :: List.filter (fun d => negb (Name.equals (name d) n)) (m_dels dl)).
Proof.
  assert (inv dl) as Hi.
  { induction Hdl as [|m dl dl' r _ IH Hm E]; [apply inv_empty|]. exact (keeps_run inv m dl dl' r (list_keeps_op m Hm) IH E). }
  split_and!; [apply Hi| |].
  - destruct (m_isSorted dl) eqn:E.
    + exists dl. unfold sort. rewrite bindM_self, E. split_and!; [done..|by apply Hi|done].
    + destruct (sort_spec dl Hi E) as (dl' & -> & [Hn' Hs'] & Ht & Hp). exists dl'. split_and!; auto.
  - cbn [insert]. destruct (eraseImpl None n dl) as [dl1 r] eqn:E. pose proof (eraseImpl_inv _ _ _ _ _ Hi E) as Hi1.
    injection E as <- <-. rewrite (bindM_ok (eraseImpl None n) _ dl _ _ eq_refl).
    destruct (insertImpl_spec p n _ Hi1 Hn) as (dl' & H1 & _ & _ & Hp & _). rewrite (bindM_ok _ _ _ _ _ H1).
    exists dl'. split; [done|]. exact Hp.
Qed.

(** *** The wire *)

Definition del_seq (d : Delegation.t) : list (Z * bytes) :=
  [(LinkPreference, tlv.writeNonNegativeInteger (preference d)); (tlv.Name, NameFacts.value (name d))].

Definition list_seq (l : list Delegation.t) : list (Z * bytes) := (fun d => (LinkDelegation, BlockFacts.tlv_seq (del_seq d))) <$> l.

Definition del_ok (d : Delegation.t) : Prop :=
  is_u64 (preference d) /\ types_ok (name d) /\ ordered_name (name d).

(** A delegation after decoding. *)
Definition del_norm (d : Delegation.t) : Delegation.t := Delegation.mk (preference d) (NameFacts.of_tlvs (NameFacts.tlvs (name d))).

Lemma EncSeq_del d : EncSeq (encode_del d) [(LinkDelegation, BlockFacts.tlv_seq (del_seq d))].
Proof. apply EncSeq_TL. apply (EncSeq_then _ _ [_] [_]); [apply EncSeq_name|apply EncSeq_nni]. Qed.

Lemma decode_del_seq d : del_ok d -> is_u64 (len (BlockFacts.tlv_seq (del_seq d))) ->
  decode_del (BlockFacts.of_pair (LinkDelegation, BlockFacts.tlv_seq (del_seq d))) = Ok (del_norm d).
Proof.
  intros (Hp & Ht & _) Hl. unfold decode_del.
  assert (Forall BlockFacts.tlv_ok (del_seq d)) as Hok.
  { apply tlv_seq_ok; [|done]. constructor; [by vm_compute|]. constructor; [by vm_compute|constructor]. }
  pose proof (BlockFacts.parsed_of_tlv LinkDelegation (del_seq d) Hok) as HP.
  change (BlockFacts.of_pair (LinkDelegation, ?v)) with (Block.of_tlv LinkDelegation v).
  change (Block.type (Block.of_tlv ?ty _)) with ty. rewrite Z.eqb_refl. cbn [negb throw_if mbind result_bind].
  rewrite HP. cbn [mbind result_bind Block.elements Block.m_elements del_seq fmap list_fmap].
  change (Block.type (BlockFacts.of_pair (?ty, _))) with ty. rewrite !Z.eqb_refl. cbn [negb throw_if mbind result_bind].
  change (BlockFacts.of_pair (LinkPreference, ?v)) with (Block.of_tlv LinkPreference v).
  rewrite readNNI_of_tlv by done. cbn [nested mbind result_bind].
  assert (is_u64 (len (NameFacts.value (name d)))) as Hv.
  { apply Forall_cons_iff in Hok as [_ Hok]. apply Forall_cons_iff in Hok as [[_ Hok] _]. exact Hok. }
  destruct (name_decode_pair (name d) Ht Hv) as [_ ->]. done.
Qed.

Lemma decode_all l : forall dl, Forall del_ok l -> Forall BlockFacts.tlv_ok (list_seq l) ->
  forM (BlockFacts.of_pair <$> list_seq l) (fun del => d ← liftR (decode_del del); insertImpl (preference d) (name d)) dl =
  forM (del_norm <$> l) (fun del => insertImpl (preference del) (name del)) dl.
Proof.
  induction l as [|d l IH]; intros dl Hl Hok; [done|]. apply Forall_cons_iff in Hl as [Hd Hl].
  unfold list_seq in Hok. rewrite fmap_cons in Hok. apply Forall_cons_iff in Hok as [[_ Hd'] Hok].
  unfold list_seq. rewrite !fmap_cons. cbn [forM].
  rewrite assoc_bindM, (bindM_lift _ _ _ _ (decode_del_seq d Hd Hd')). unfold mbind, M_bind. cbn [del_norm preference name].
  destruct (insertImpl _ _ dl) as [s [[]|]]; [|done]. by apply IH.
Qed.

Lemma len_fmap {A B} (f : A -> B) (l : list A) : len (f <$> l) = len l.
Proof. unfold len. by rewrite length_fmap. Qed.

Lemma ordered_of_tlvs n : ordered_name n -> ordered_name (NameFacts.of_tlvs (NameFacts.tlvs n)).
Proof.
  intros [Hs Hc]. split.
  - rewrite size_len, components_of_tlvs in *. unfold NameFacts.tlvs. by rewrite !len_fmap.
  - rewrite components_of_tlvs. unfold NameFacts.tlvs. rewrite <- list_fmap_compose. apply Forall_fmap.
    eapply Forall_impl; [|exact Hc]. intros c [(H1 & H2 & _) H3]. split; [|exact H3]. by apply ComponentFacts.canonical_of_tlv.
Qed.

Lemma eqb_norm d : Delegation.eqb d (del_norm d) = true.
Proof.
  unfold Delegation.eqb, del_norm. cbn [preference name]. rewrite Z.eqb_refl.
  assert (Name.equals (name d) (NameFacts.of_tlvs (NameFacts.tlvs (name d))) = true) as -> by (apply keys_of_equals; by rewrite keys_of_tlvs).
  done.
Qed.

Lemma dels_eqb_norm l : dels_eqb l (del_norm <$> l) = true.
Proof. induction l as [|d l IH]; [done|]. rewrite fmap_cons. cbn [dels_eqb]. by rewrite eqb_norm, IH. Qed.

(** A delegation list survives the wire: a non-empty list encodes in a Content
    or ForwardingHint element, decoding without sorting gives the same
    delegations in the same order, and decoding with sorting gives what sorting
    the decoded list gives. *)
Theorem delegation_list_roundtrip (type : Z) (dl : t) (Ht : type = tlv.Content \/ type = tlv.ForwardingHint)
    (Hl : Forall del_ok (m_dels dl)) (Hne : m_dels dl <> []) (Hs : is_u64 (len (BlockFacts.tlv_seq (list_seq (m_dels dl))))) :
  exists f b r, wireEncode type dl = Ok f /\ makeBlock f = Ok b /\
    ofBlock b false = Ok r /\ dels_eqb (m_dels dl) (m_dels r) = true /\
    ofBlock b true = exec sort r /\ is_Ok (ofBlock b true) = true.
Proof.
  assert (is_tlv_type type) as Htt by (destruct Ht as [-> | ->]; by vm_compute).
  assert (isValidTlvType type = true) as Hv by (by destruct Ht as [-> | ->]).
  assert (len (m_dels dl) <> 0) as Hlen by (by intros ?%len_zero).
  set (l := m_dels dl) in *. assert (Forall BlockFacts.tlv_ok (list_seq l)) as Hok.
  { apply tlv_seq_ok; [|done]. apply Forall_fmap, Forall_forall. intros d _. by vm_compute. }
  assert (names_ok (del_norm <$> l)) as Hno.
  { unfold names_ok. apply Forall_fmap. eapply Forall_impl; [|exact Hl]. intros d (_ & _ & Hd). by apply ordered_of_tlvs. }
  assert (forall sorted, exists r, forM (del_norm <$> l) (fun del => insertImpl (preference del) (name del)) (mk sorted []) = (r, Ok tt) /\
    ofBlock (seq_block type (list_seq l)) sorted = Ok r /\ m_isSorted r = sorted /\ (sorted = false -> m_dels r = del_norm <$> l)) as Hdec.
  { intros sorted. destruct (insert_all _ (mk sorted []) (inv_empty sorted) Hno) as (r & Hr & _ & Hsr & Hp & Hu). exists r.
    split_and!; [done| |done|exact Hu]. unfold ofBlock, exec, wireDecode. change (Block.type (seq_block type ?x)) with type.
    rewrite bindM_pass by (by rewrite Hv). rewrite !bindM_modify. cbn [m_dels with_dels m_isSorted].
    unfold seq_block. rewrite (bindM_lift _ _ _ _ (BlockFacts.parsed_of_tlv type _ Hok)).
    rewrite (bindM_ok _ _ _ r tt), bindM_self. 2: { rewrite <- Hr. by apply decode_all. }
    apply Permutation_length in Hp. cbn [m_dels] in Hp. rewrite app_nil_r, length_fmap in Hp.
    unfold throwM_if, liftR, throw_if. rewrite (proj2 (Z.eqb_neq (len (m_dels r)) 0)); [done|]. unfold len in *. lia. }
  destruct (Hdec false) as (r & Hr & Hof & Hsf & Hu). destruct (Hdec true) as (r' & Hr' & Hot & _ & _).
  exists (pTL type (pReversed encode_del l)), (seq_block type (list_seq l)), r. split_and!; [| |exact Hof| | |by rewrite Hot].
  - unfold wireEncode. fold l. rewrite Hv, (proj2 (Z.eqb_neq _ 0)) by done. done.
  - apply makeBlock_seq; [|done..]. apply EncSeq_TL. unfold list_seq. rewrite <- join_singletons.
    apply EncSeq_reversed. intros d _. apply EncSeq_del.
  - rewrite Hu by done. apply dels_eqb_norm.
  - rewrite Hot. unfold exec, sort. rewrite bindM_self, Hsf, bindM_modify, Hu by done. by rewrite Hr'.
Qed.

End DelegationTheorems.

Module LinkObjectTheorems.
Import FieldFacts DataFacts DelegationTheorems.

Definition names_seq (l : list Name.t) : list (Z * bytes) := (fun n => (tlv.Name, NameFacts.value n)) <$> l.

Lemma names_seq_ok l : is_u64 (len (BlockFacts.tlv_seq (names_seq l))) -> Forall BlockFacts.tlv_ok (names_seq l).
Proof. intros H. apply tlv_seq_ok; [|done]. apply Forall_fmap, Forall_forall. intros n _. by vm_compute. Qed.

(** The content of a Link. *)
Definition link_content (l : list Name.t) : Block.t := seq_block tlv.Content (names_seq l).

Lemma setContentType_run type d : exists d', Data.setContentType type d = (d', Ok tt) /\
  MetaInfo.m_type (Data.m_metaInfo d') = type.
Proof.
  unfold Data.setContentType. rewrite bindM_self. destruct (Z.eqb_spec type (MetaInfo.m_type (Data.m_metaInfo d))) as [E|]; cbn [negb].
  - by exists d.
  - eexists. split; reflexivity.
Qed.

Lemma encodeContent_spec L : is_u64 (len (BlockFacts.tlv_seq (names_seq (Link.m_delegations L)))) -> exists L',
  Link.encodeContent L = (L', Ok tt) /\ Link.m_delegations L' = Link.m_delegations L /\
  MetaInfo.m_type (Data.m_metaInfo (Link.base L')) = Link.ContentType_Link /\
  Data.m_content (Link.base L') = link_content (Link.m_delegations L) /\ Block.hasWire (Data.m_wire (Link.base L')) = false.
Proof.
  intros Hs. destruct (setContentType_run Link.ContentType_Link (Link.base L)) as (d1 & H1 & Ht). unfold Link.encodeContent.
  rewrite (bindM_ok _ _ _ (Link.mk d1 (Link.m_delegations L)) tt). 2: { unfold Link.onData, zoom. by rewrite H1. }
  rewrite bindM_self. cbn [Link.m_delegations]. destruct (Link.m_delegations L) as [|n l] eqn:E.
  - eexists. split; [vm_compute; reflexivity|]. by split_and!.
  - rewrite <- E in *. set (dels := Link.m_delegations L) in *. rewrite (bindM_lift _ _ _ (link_content dels)).
    2: { apply makeBlock_seq; [|by vm_compute|done]. apply EncSeq_TL. unfold names_seq. rewrite <- join_singletons.
         apply EncSeq_reversed. intros m _. apply EncSeq_name. }
    unfold Link.onData, zoom, Data.setContentBlock. cbn [Link.base Link.m_delegations].
    rewrite bindM_pass by done. change (Block.type (link_content dels) =? tlv.Content) with true. cbv iota.
    rewrite (bindM_ok (mret (link_content dels)) _ _ _ _ eq_refl), bindM_modify. unfold Block.encode.
    assert (Block.hasWire (link_content dels) = true) as -> by exact (of_pair_hasWire (_, _)).
    eexists. split; [reflexivity|]. by split_and!.
Qed.

Lemma decode_names l : forall L, Forall types_ok l -> Forall BlockFacts.tlv_ok (names_seq l) ->
  Link.decode_elements (BlockFacts.of_pair <$> names_seq l) L =
  (Link.with_delegations (Link.m_delegations L ++ ((fun n => NameFacts.of_tlvs (NameFacts.tlvs n)) <$> l)) L, Ok tt).
Proof.
  induction l as [|n l IH]; intros L Ht Hok; [cbn; rewrite app_nil_r; by destruct L|].
  apply Forall_cons_iff in Ht as [Hn Ht]. unfold names_seq in Hok. rewrite fmap_cons in Hok. apply Forall_cons_iff in Hok as [[_ Hv] Hok].
  unfold names_seq. rewrite !fmap_cons. cbn [Link.decode_elements]. change (Block.type (BlockFacts.of_pair (?ty, _))) with ty.
  rewrite Z.eqb_refl. destruct (name_decode_pair n Hn Hv) as [D _]. rewrite (bindM_lift _ _ _ _ D), bindM_modify.
  change ((fun n => (tlv.Name, NameFacts.value n)) <$> l) with (names_seq l). rewrite IH by done. destruct L as [d k]. cbn.
  by rewrite <- (assoc_L (++)).
Qed.

(** A Link object and its content agree: setting the delegations rewrites the
    content, so that the Data packet that is signed and encoded from it decodes,
    into any Link object, to a Link with the same delegations in the same order;
    adding a delegation that is there and removing one that is not return false
    and change nothing. *)
Theorem link_roundtrip (L L0 : Link.t) (dels : list Name.t) (info : SignatureInfo.t) (value : Block.t)
    (Ht : Forall types_ok dels) (Hs : is_u64 (len (BlockFacts.tlv_seq (names_seq dels)))) :
  exists L', Link.setDelegationList dels L = (L', Ok tt) /\ Link.m_delegations L' = dels /\
    Block.hasWire (Data.m_wire (Link.base L')) = false /\
    let d := Data.with_signatureValue value (Data.with_signatureInfo info (Link.base L')) in
    (data_ok d -> is_u64 (len (BlockFacts.tlv_seq (data_seq d))) -> exists L'',
       Link.wireDecode (seq_block tlv.Data (data_seq d)) L0 = (L'', Ok tt) /\
       NameFacts.keys <$> Link.m_delegations L'' = NameFacts.keys <$> dels) /\
    (forall n, existsb (fun m => Name.equals m n) dels = true -> Link.addDelegation n L' = (L', Ok false)) /\
    (forall n, existsb (fun m => Name.equals m n) dels = false -> Link.removeDelegation n L' = (L', Ok false)).
Proof.
  unfold Link.setDelegationList. rewrite bindM_modify.
  destruct (encodeContent_spec (Link.with_delegations dels L) Hs) as (L' & -> & Hd & Hct & Hc & Hw). cbn [Link.with_delegations Link.m_delegations] in *.
  exists L'. cbv zeta. split_and!; [done..| | |].
  - intros Hok Hl. set (d := Data.with_signatureValue _ _) in *.
    assert (Data.m_content (data_norm d) = link_content dels) as Hcn.
    { unfold data_norm. cbn [Data.m_content]. unfold Data.hasContent. change (Data.m_content d) with (Data.m_content (Link.base L')). by rewrite Hc. }
    unfold Link.wireDecode. rewrite (bindM_ok _ _ _ (Link.mk (data_norm d) (Link.m_delegations L0)) tt).
    2: { unfold Link.onData, zoom. by rewrite (data_decode d _ Hok Hl). }
    rewrite bindM_self. cbn [Link.base]. rewrite bindM_pass.
    2: { change (MetaInfo.m_type (Data.m_metaInfo (data_norm d))) with (MetaInfo.m_type (Data.m_metaInfo (Link.base L'))). by rewrite Hct. }
    rewrite bindM_modify, Hcn. unfold link_content, seq_block at 1. pose proof (names_seq_ok dels Hs) as Hns.
    rewrite (bindM_lift _ _ _ _ (BlockFacts.parsed_of_tlv tlv.Content _ Hns)). cbn [Block.elements Block.m_elements].
    rewrite decode_names by done. eexists. split; [done|]. cbn [Link.m_delegations Link.with_delegations app].
    rewrite <- list_fmap_compose. apply list_fmap_ext. intros i n _. apply NameFacts.keys_of_tlvs.
  - intros n Hn. unfold Link.addDelegation. rewrite bindM_self, Hd, Hn. done.
  - intros n Hn. unfold Link.removeDelegation. rewrite bindM_self, Hd. cbv zeta.
    assert (List.filter (fun m => negb (Name.equals m n)) dels = dels) as ->; [|by rewrite Nat.eqb_refl].
    clear -Hn. induction dels as [|m l IH]; [done|]. cbn in *. apply orb_false_iff in Hn as [Hm Hn]. rewrite Hm. cbn. by rewrite IH.
Qed.

(** *** Witnesses *)

Definition name_of (s : string) : Name.t := Name.append (Block.ofTypeValue 8 (str s)) Name.empty.

Lemma name_of_ordered s : is_u64 (len (str s)) -> len (str s) < 2 ^ 31 -> NameFacts.ordered_name (name_of s).
Proof.
  intros Hu Hl. split; [by vm_compute|]. constructor; [|constructor]. split; [|exact Hl].
  split; [|split; [exact Hu|by left]]. split; [by vm_compute|]. intros [H|H]; by vm_compute in H.
Qed.

Definition sample_list : DelegationList.t :=
  DelegationList.mk false [Delegation.mk 20 (name_of "B"); Delegation.mk 10 (name_of "C"); Delegation.mk 10 (name_of "A")].

Lemma sample_types s : types_ok (name_of s).
Proof. constructor; [by vm_compute|constructor]. Qed.

Lemma sample_dels : Forall del_ok (DelegationList.m_dels sample_list).
Proof.
  repeat (constructor; [split_and!; [by vm_compute|apply sample_types|apply name_of_ordered; by vm_compute]|]). constructor.
Qed.

Lemma delegation_list_roundtrip_witness : exists f b r,
  DelegationList.wireEncode tlv.ForwardingHint sample_list = Ok f /\ makeBlock f = Ok b /\
  DelegationList.ofBlock b false = Ok r /\ DelegationList.dels_eqb (DelegationList.m_dels sample_list) (DelegationList.m_dels r) = true.
Proof.
  destruct (delegation_list_roundtrip tlv.ForwardingHint sample_list) as (f & b & r & H1 & H2 & H3 & H4 & _).
  - right. reflexivity.
  - exact sample_dels.
  - discriminate.
  - by vm_compute.
  - exists f, b, r. exact (conj H1 (conj H2 (conj H3 H4))).
Defined.

Lemma delegation_list_invariant_witness : exists dl',
  DelegationList.insert 5 (name_of "A") DelegationList.INS_REPLACE DelegationList.init = (dl', Ok true).
Proof.
  destruct (delegation_list_invariant DelegationList.init 5 (name_of "A") reach_init) as (_ & _ & dl' & H & _).
  - apply name_of_ordered; by vm_compute.
  - exists dl'. exact H.
Defined.

(** Sorting by preference, then by name. *)
Lemma sample_sorted :
  (fun d => (Delegation.preference d, NameFacts.tlvs (Delegation.name d))) <$>
    DelegationList.m_dels (fst (DelegationList.sort sample_list)) =
  [(10, [(8, str "A")]); (10, [(8, str "C")]); (20, [(8, str "B")])].
Proof. vm_compute. reflexivity. Qed.

Definition sample_link : Link.t :=
  fst (Link.setDelegationList [name_of "B"; name_of "A"] (Link.mk (Data.ofName (name_of "L")) [])).

Definition sample_link_data : Data.t :=
  Data.with_signatureValue (Block.ofTypeValue tlv.SignatureValue [z2b 1])
    (Data.with_signatureInfo (SignatureInfo.make 0 None) (Link.base sample_link)).

Lemma sample_link_norm : sample_link_data =
  Data.mk (name_of "L") (MetaInfo.mk 1 0 None [] Block.empty) (link_content [name_of "B"; name_of "A"])
    (SignatureInfo.make 0 None) (Block.ofTypeValue tlv.SignatureValue [z2b 1]) Block.empty (Name.clear Name.empty).
Proof. vm_compute. reflexivity. Qed.

Lemma sample_link_ok : data_ok sample_link_data.
Proof.
  rewrite sample_link_norm. split; [split; [|split; [|split]]|split].
  - apply sample_types.
  - split; [by vm_compute|]. split; [by vm_compute|]. split; [done|constructor].
  - split; [apply block_ok_of_tlv; split; by vm_compute|reflexivity].
  - split; [by vm_compute|]. split; [done|constructor].
  - apply block_ok_of_value; split; by vm_compute.
  - reflexivity.
Qed.

Lemma sample_link_size : is_u64 (len (BlockFacts.tlv_seq (data_seq sample_link_data))).
Proof. by vm_compute. Qed.

Lemma link_roundtrip_witness : exists L'',
  Link.wireDecode (seq_block tlv.Data (data_seq sample_link_data)) (Link.mk (Data.ofName Name.empty) []) = (L'', Ok tt) /\
  NameFacts.keys <$> Link.m_delegations L'' = NameFacts.keys <$> [name_of "B"; name_of "A"].
Proof.
  destruct (link_roundtrip (Link.mk (Data.ofName (name_of "L")) []) (Link.mk (Data.ofName Name.empty) []) [name_of "B"; name_of "A"]
    (SignatureInfo.make 0 None) (Block.ofTypeValue tlv.SignatureValue [z2b 1])) as (L' & H1 & _ & _ & H2 & _).
  - constructor; [apply sample_types|constructor; [apply sample_types|constructor]].
  - by vm_compute.
  - assert (sample_link = L') as <- by (unfold sample_link; rewrite H1; reflexivity).
    pose proof sample_link_ok as Hok.
    pose proof sample_link_size as Hl.
    unfold sample_link_data in Hok, Hl |- *. exact (H2 Hok Hl).
Defined.

End LinkObjectTheorems.
