(* ===== verification/NfdStatus.v ===== *)
(** The datasets of the NFD management protocol: the records of
    [ndn-cxx/mgmt/nfd/] with their encoders and decoders, and the dataset
    descriptions of [status-dataset.cpp].

    A time point is a count of nanoseconds since the epoch, a duration a count
    of its unit; an enumeration is the number it is encoded as. *)

From Stdlib Require Import Permutation.
From S2P Require Import Prelude Tlv Encoding Blocks BlockHelpers Text NameComponents Names Fields DataPacket Announcements.

(** ** Constants *)

Module tlv_nfd.

(** [ndn-cxx/encoding/tlv-nfd.hpp:35-35] tlv::nfd::ControlParameters *)
Definition ControlParameters : Z := 104.
(** [ndn-cxx/encoding/tlv-nfd.hpp:36-36] tlv::nfd::FaceId *)
Definition FaceId : Z := 105.
(** [ndn-cxx/encoding/tlv-nfd.hpp:37-37] tlv::nfd::Uri *)
Definition Uri : Z := 114.
(** [ndn-cxx/encoding/tlv-nfd.hpp:38-38] tlv::nfd::Origin *)
Definition Origin : Z := 111.
(** [ndn-cxx/encoding/tlv-nfd.hpp:39-39] tlv::nfd::Cost *)
Definition Cost : Z := 106.
(** [ndn-cxx/encoding/tlv-nfd.hpp:40-40] tlv::nfd::Capacity *)
Definition Capacity : Z := 131.
(** [ndn-cxx/encoding/tlv-nfd.hpp:41-41] tlv::nfd::Count *)
Definition Count : Z := 132.
(** [ndn-cxx/encoding/tlv-nfd.hpp:42-42] tlv::nfd::Flags *)
Definition Flags : Z := 108.
(** [ndn-cxx/encoding/tlv-nfd.hpp:43-43] tlv::nfd::Mask *)
Definition Mask : Z := 112.
(** [ndn-cxx/encoding/tlv-nfd.hpp:44-44] tlv::nfd::Strategy *)
Definition Strategy : Z := 107.
(** [ndn-cxx/encoding/tlv-nfd.hpp:45-45] tlv::nfd::ExpirationPeriod *)
Definition ExpirationPeriod : Z := 109.
(** [ndn-cxx/encoding/tlv-nfd.hpp:48-48] tlv::nfd::ControlResponse *)
Definition ControlResponse : Z := 101.
(** [ndn-cxx/encoding/tlv-nfd.hpp:49-49] tlv::nfd::StatusCode *)
Definition StatusCode : Z := 102.
(** [ndn-cxx/encoding/tlv-nfd.hpp:50-50] tlv::nfd::StatusText *)
Definition StatusText : Z := 103.
(** [ndn-cxx/encoding/tlv-nfd.hpp:53-53] tlv::nfd::NfdVersion *)
Definition NfdVersion : Z := 128.
(** [ndn-cxx/encoding/tlv-nfd.hpp:54-54] tlv::nfd::StartTimestamp *)
Definition StartTimestamp : Z := 129.
(** [ndn-cxx/encoding/tlv-nfd.hpp:55-55] tlv::nfd::CurrentTimestamp *)
Definition CurrentTimestamp : Z := 130.
(** [ndn-cxx/encoding/tlv-nfd.hpp:56-56] tlv::nfd::NNameTreeEntries *)
Definition NNameTreeEntries : Z := 131.
(** [ndn-cxx/encoding/tlv-nfd.hpp:57-57] tlv::nfd::NFibEntries *)
Definition NFibEntries : Z := 132.
(** [ndn-cxx/encoding/tlv-nfd.hpp:58-58] tlv::nfd::NPitEntries *)
Definition NPitEntries : Z := 133.
(** [ndn-cxx/encoding/tlv-nfd.hpp:59-59] tlv::nfd::NMeasurementsEntries *)
Definition NMeasurementsEntries : Z := 134.
(** [ndn-cxx/encoding/tlv-nfd.hpp:60-60] tlv::nfd::NCsEntries *)
Definition NCsEntries : Z := 135.
(** [ndn-cxx/encoding/tlv-nfd.hpp:63-63] tlv::nfd::FaceStatus *)
Definition FaceStatus : Z := 128.
(** [ndn-cxx/encoding/tlv-nfd.hpp:64-64] tlv::nfd::LocalUri *)
Definition LocalUri : Z := 129.
(** [ndn-cxx/encoding/tlv-nfd.hpp:65-65] tlv::nfd::ChannelStatus *)
Definition ChannelStatus : Z := 130.
(** [ndn-cxx/encoding/tlv-nfd.hpp:66-66] tlv::nfd::UriScheme *)
Definition UriScheme : Z := 131.
(** [ndn-cxx/encoding/tlv-nfd.hpp:67-67] tlv::nfd::FaceScope *)
Definition FaceScope : Z := 132.
(** [ndn-cxx/encoding/tlv-nfd.hpp:68-68] tlv::nfd::FacePersistency *)
Definition FacePersistency : Z := 133.
(** [ndn-cxx/encoding/tlv-nfd.hpp:69-69] tlv::nfd::LinkType *)
Definition LinkType : Z := 134.
(** [ndn-cxx/encoding/tlv-nfd.hpp:70-70] tlv::nfd::BaseCongestionMarkingInterval *)
Definition BaseCongestionMarkingInterval : Z := 135.
(** [ndn-cxx/encoding/tlv-nfd.hpp:71-71] tlv::nfd::DefaultCongestionThreshold *)
Definition DefaultCongestionThreshold : Z := 136.
(** [ndn-cxx/encoding/tlv-nfd.hpp:72-72] tlv::nfd::Mtu *)
Definition Mtu : Z := 137.
(** [ndn-cxx/encoding/tlv-nfd.hpp:73-73] tlv::nfd::FaceQueryFilter *)
Definition FaceQueryFilter : Z := 150.
(** [ndn-cxx/encoding/tlv-nfd.hpp:74-74] tlv::nfd::FaceEventNotification *)
Definition FaceEventNotification : Z := 192.
(** [ndn-cxx/encoding/tlv-nfd.hpp:75-75] tlv::nfd::FaceEventKind *)
Definition FaceEventKind : Z := 193.
(** [ndn-cxx/encoding/tlv-nfd.hpp:78-78] tlv::nfd::NInInterests *)
Definition NInInterests : Z := 144.
(** [ndn-cxx/encoding/tlv-nfd.hpp:79-79] tlv::nfd::NInData *)
Definition NInData : Z := 145.
(** [ndn-cxx/encoding/tlv-nfd.hpp:80-80] tlv::nfd::NInNacks *)
Definition NInNacks : Z := 151.
(** [ndn-cxx/encoding/tlv-nfd.hpp:81-81] tlv::nfd::NOutInterests *)
Definition NOutInterests : Z := 146.
(** [ndn-cxx/encoding/tlv-nfd.hpp:82-82] tlv::nfd::NOutData *)
Definition NOutData : Z := 147.
(** [ndn-cxx/encoding/tlv-nfd.hpp:83-83] tlv::nfd::NOutNacks *)
Definition NOutNacks : Z := 152.
(** [ndn-cxx/encoding/tlv-nfd.hpp:84-84] tlv::nfd::NInBytes *)
Definition NInBytes : Z := 148.
(** [ndn-cxx/encoding/tlv-nfd.hpp:85-85] tlv::nfd::NOutBytes *)
Definition NOutBytes : Z := 149.
(** [ndn-cxx/encoding/tlv-nfd.hpp:86-86] tlv::nfd::NSatisfiedInterests *)
Definition NSatisfiedInterests : Z := 153.
(** [ndn-cxx/encoding/tlv-nfd.hpp:87-87] tlv::nfd::NUnsatisfiedInterests *)
Definition NUnsatisfiedInterests : Z := 154.
(** [ndn-cxx/encoding/tlv-nfd.hpp:90-90] tlv::nfd::CsInfo *)
Definition CsInfo : Z := 128.
(** [ndn-cxx/encoding/tlv-nfd.hpp:91-91] tlv::nfd::NHits *)
Definition NHits : Z := 129.
(** [ndn-cxx/encoding/tlv-nfd.hpp:92-92] tlv::nfd::NMisses *)
Definition NMisses : Z := 130.
(** [ndn-cxx/encoding/tlv-nfd.hpp:95-95] tlv::nfd::FibEntry *)
Definition FibEntry : Z := 128.
(** [ndn-cxx/encoding/tlv-nfd.hpp:96-96] tlv::nfd::NextHopRecord *)
Definition NextHopRecord : Z := 129.
(** [ndn-cxx/encoding/tlv-nfd.hpp:99-99] tlv::nfd::StrategyChoice *)
Definition StrategyChoice : Z := 128.
(** [ndn-cxx/encoding/tlv-nfd.hpp:102-102] tlv::nfd::RibEntry *)
Definition RibEntry : Z := 128.
(** [ndn-cxx/encoding/tlv-nfd.hpp:103-103] tlv::nfd::Route *)
Definition Route : Z := 129.

End tlv_nfd.

Module nfd.

(** [ndn-cxx/encoding/nfd-constants.hpp:30-30] INVALID_FACE_ID *)
Definition INVALID_FACE_ID : Z := 0.
(** [ndn-cxx/encoding/nfd-constants.hpp:36-36] FACE_SCOPE_NON_LOCAL *)
Definition FACE_SCOPE_NON_LOCAL : Z := 0.
(** [ndn-cxx/encoding/nfd-constants.hpp:47-47] FACE_PERSISTENCY_PERSISTENT *)
Definition FACE_PERSISTENCY_PERSISTENT : Z := 0.
(** [ndn-cxx/encoding/nfd-constants.hpp:59-59] LINK_TYPE_POINT_TO_POINT *)
Definition LINK_TYPE_POINT_TO_POINT : Z := 0.
(** [ndn-cxx/encoding/nfd-constants.hpp:78-78] FACE_EVENT_NONE *)
Definition FACE_EVENT_NONE : Z := 0.
(** [ndn-cxx/encoding/nfd-constants.hpp:93-93] BIT_CS_ENABLE_ADMIT *)
Definition BIT_CS_ENABLE_ADMIT : Z := 0.
(** [ndn-cxx/encoding/nfd-constants.hpp:94-94] BIT_CS_ENABLE_SERVE *)
Definition BIT_CS_ENABLE_SERVE : Z := 1.
(** [ndn-cxx/encoding/nfd-constants.hpp:101-101] ROUTE_ORIGIN_APP *)
Definition ROUTE_ORIGIN_APP : Z := 0.
(** [ndn-cxx/encoding/nfd-constants.hpp:125-125] ROUTE_FLAG_CHILD_INHERIT *)
Definition ROUTE_FLAG_CHILD_INHERIT : Z := 1.
(** [ndn-cxx/encoding/nfd-constants.hpp:126-126] ROUTE_FLAG_CAPTURE *)
Definition ROUTE_FLAG_CAPTURE : Z := 2.

End nfd.

(** ** Patterns shared by the records *)

(** [if (val != end && val->type() == type) { ...; ++val; } else { NDN_THROW(e); }] *)
Definition required_field {S} (type : Z) (e : string) (val : list Block.t) (found : Block.t -> M S unit) : M S (list Block.t) :=
  MetaInfo.optional_field type val found (throwM (PacketError e)).

(** [if (val == end) NDN_THROW(eof); else if (val->type() != type) NDN_THROW(e); ...; ++val;] *)
Definition expected_field {S} (type : Z) (eof e : string) (val : list Block.t) (found : Block.t -> M S unit) : M S (list Block.t) :=
  match val with
  | [] => throwM (PacketError eof)
  | v :: rest => if negb (Block.type v =? type) then throwM (PacketError e) else _ ← found v; mret rest
  end.

(** The value of a field: a number, a number of a narrower type whose largest
    value is [max], a string, a duration, a time point in milliseconds. *)
Definition readNumber {S} (set : Z -> S -> S) (v : Block.t) : M S unit :=
  n ← liftR (encoding.readNonNegativeInteger v); modify (set n).
Definition readEnum {S} (max : Z) (set : Z -> S -> S) (v : Block.t) : M S unit :=
  n ← liftR (encoding.readNonNegativeIntegerAs max v); modify (set n).
Definition readText {S} (set : bytes -> S -> S) (v : Block.t) : M S unit := modify (set (encoding.readString v)).
Definition readDuration {S} (set : Z -> S -> S) (v : Block.t) : M S unit :=
  n ← liftR (encoding.readNonNegativeInteger v); modify (set (i64 n)).
Definition readTimestamp {S} (set : Z -> S -> S) (v : Block.t) : M S unit :=
  n ← liftR (encoding.readNonNegativeInteger v); modify (set (time.fromUnixTimestamp (i64 n))).

(** An optional field is written if it is there. *)
Definition pOption {A} (o : option A) (f : A -> prepender) : prepender :=
  match o with Some x => f x | None => pNone end.

(** [if (m_wire.hasWire()) return m_wire; ... m_wire = buffer.block(); return m_wire;] *)
Definition cachedEncode {T} (wire : T -> Block.t) (set : Block.t -> T -> T) (template : T -> prepender) : M T Block.t :=
  x ← self;
  if Block.hasWire (wire x) then mret (wire x)
  else
    b ← liftR (makeBlock (template x));
    _ ← modify (set b);
    mret b.

Definition is_Some_b {A} (o : option A) : bool := match o with Some _ => true | None => false end.

(** [std::optional] equality as the records write it out. *)
Definition opt_eqb (a b : option Z) : bool :=
  Bool.eqb (is_Some_b a) (is_Some_b b) && (negb (is_Some_b a) || match a, b with Some x, Some y => x =? y | _, _ => true end).

Definition bytes_eqb (a b : bytes) : bool := bool_decide (a = b).

(** ** ChannelStatus *)

Module ChannelStatus.

(** [ndn-cxx/mgmt/nfd/channel-status.hpp:70-72] ChannelStatus *)
Record t := mk {
  m_localUri : bytes;
  m_wire : Block.t;
}.

Definition with_localUri x s := mk x (m_wire s).
Definition with_wire x s := mk (m_localUri s) x.

(** [ndn-cxx/mgmt/nfd/channel-status.cpp:32-32] ChannelStatus::ChannelStatus() *)
Definition init : t := mk [] Block.empty.

(** [ndn-cxx/mgmt/nfd/channel-status.cpp:39-48] ChannelStatus::wireEncode(EncodingImpl&) *)
Definition wireEncode_template (s : t) : prepender :=
  pTL tlv_nfd.ChannelStatus
    (encoding.prependStringBlock tlv_nfd.LocalUri (m_localUri s)).

(** [ndn-cxx/mgmt/nfd/channel-status.cpp:52-66] ChannelStatus::wireEncode *)
Definition wireEncode : M t Block.t := cachedEncode m_wire with_wire wireEncode_template.

(** [ndn-cxx/mgmt/nfd/channel-status.cpp:68-86] ChannelStatus::wireDecode *)
Definition wireDecode (block : Block.t) : M t unit :=
  _ ← throwM_if (negb (Block.type block =? tlv_nfd.ChannelStatus)) (PacketError "ChannelStatus");
  _ ← assignParsed with_wire block;
  s ← self;
  let val := Block.elements (m_wire s) in
  _ ← required_field tlv_nfd.LocalUri "Missing required LocalUri field" val (readText with_localUri);
  mret tt.

(** [ndn-cxx/mgmt/nfd/channel-status.cpp:34-37] ChannelStatus::ChannelStatus(const Block&) *)
Definition ofBlock (block : Block.t) : result t := exec (wireDecode block) init.

(** [ndn-cxx/mgmt/nfd/channel-status.cpp:88-94] ChannelStatus::setLocalUri *)
Definition setLocalUri (x : bytes) : M t unit := _ ← modify (with_wire Block.empty); modify (with_localUri x).

(** [ndn-cxx/mgmt/nfd/channel-status.cpp:96-100] operator==(const ChannelStatus&, const ChannelStatus&) *)
Definition eqb (a b : t) : bool := bytes_eqb (m_localUri a) (m_localUri b).

End ChannelStatus.

(** ** CsInfo *)

Module CsInfo.

(** [ndn-cxx/mgmt/nfd/cs-info.hpp:128-136] CsInfo
    The bits of [std::bitset<2>] are kept as the number they are. *)
Record t := mk {
  m_capacity : Z;
  m_flags : Z;
  m_nEntries : Z;
  m_nHits : Z;
  m_nMisses : Z;
  m_wire : Block.t;
}.

Definition with_capacity x s := mk x (m_flags s) (m_nEntries s) (m_nHits s) (m_nMisses s) (m_wire s).
Definition with_flags x s := mk (m_capacity s) x (m_nEntries s) (m_nHits s) (m_nMisses s) (m_wire s).
Definition with_nEntries x s := mk (m_capacity s) (m_flags s) x (m_nHits s) (m_nMisses s) (m_wire s).
Definition with_nHits x s := mk (m_capacity s) (m_flags s) (m_nEntries s) x (m_nMisses s) (m_wire s).
Definition with_nMisses x s := mk (m_capacity s) (m_flags s) (m_nEntries s) (m_nHits s) x (m_wire s).
Definition with_wire x s := mk (m_capacity s) (m_flags s) (m_nEntries s) (m_nHits s) (m_nMisses s) x.

(** [ndn-cxx/mgmt/nfd/cs-info.cpp:33-39] CsInfo::CsInfo() *)
Definition init : t := mk 0 0 0 0 0 Block.empty.

(** [FlagsBitSet(n)] keeps the two lowest bits. *)
Definition FlagsBitSet (n : Z) : Z := Z.land n 3.

(** [m_flags[bit] = value] *)
Definition with_bit (bit : Z) (value : bool) (s : t) : t :=
  with_flags (if value then Z.setbit (m_flags s) bit else Z.clearbit (m_flags s) bit) s.

(** [ndn-cxx/mgmt/nfd/cs-info.cpp:46-61] CsInfo::wireEncode(EncodingImpl&) *)
Definition wireEncode_template (s : t) : prepender :=
  pTL tlv_nfd.CsInfo
    (encoding.prependNonNegativeIntegerBlock tlv_nfd.NMisses (m_nMisses s) ;+
     encoding.prependNonNegativeIntegerBlock tlv_nfd.NHits (m_nHits s) ;+
     encoding.prependNonNegativeIntegerBlock tlv_nfd.NCsEntries (m_nEntries s) ;+
     encoding.prependNonNegativeIntegerBlock tlv_nfd.Flags (m_flags s) ;+
     encoding.prependNonNegativeIntegerBlock tlv_nfd.Capacity (m_capacity s)).

(** [ndn-cxx/mgmt/nfd/cs-info.cpp:65-79] CsInfo::wireEncode *)
Definition wireEncode : M t Block.t := cachedEncode m_wire with_wire wireEncode_template.

(** [ndn-cxx/mgmt/nfd/cs-info.cpp:81-130] CsInfo::wireDecode *)
Definition wireDecode (block : Block.t) : M t unit :=
  _ ← throwM_if (negb (Block.type block =? tlv_nfd.CsInfo)) (PacketError "CsInfo");
  _ ← assignParsed with_wire block;
  s ← self;
  let val := Block.elements (m_wire s) in
  val ← required_field tlv_nfd.Capacity "missing required Capacity field" val (readNumber with_capacity);
  val ← required_field tlv_nfd.Flags "missing required Flags field" val (readNumber (fun n => with_flags (FlagsBitSet n)));
  val ← required_field tlv_nfd.NCsEntries "missing required NCsEntries field" val (readNumber with_nEntries);
  val ← required_field tlv_nfd.NHits "missing required NHits field" val (readNumber with_nHits);
  _ ← required_field tlv_nfd.NMisses "missing required NMisses field" val (readNumber with_nMisses);
  mret tt.

(** [ndn-cxx/mgmt/nfd/cs-info.cpp:41-44] CsInfo::CsInfo(const Block&)
    A member that the constructor leaves unset is overwritten, or the decoder throws. *)
Definition ofBlock (block : Block.t) : result t := exec (wireDecode block) init.

(** [ndn-cxx/mgmt/nfd/cs-info.hpp:74-78] CsInfo::getEnableAdmit *)
Definition getEnableAdmit (s : t) : bool := Z.testbit (m_flags s) nfd.BIT_CS_ENABLE_ADMIT.

(** [ndn-cxx/mgmt/nfd/cs-info.cpp:140-146] CsInfo::setEnableAdmit *)
Definition setEnableAdmit (x : bool) : M t unit := _ ← modify (with_wire Block.empty); modify (with_bit nfd.BIT_CS_ENABLE_ADMIT x).

(** [ndn-cxx/mgmt/nfd/cs-info.hpp:85-89] CsInfo::getEnableServe *)
Definition getEnableServe (s : t) : bool := Z.testbit (m_flags s) nfd.BIT_CS_ENABLE_SERVE.

(** [ndn-cxx/mgmt/nfd/cs-info.cpp:148-154] CsInfo::setEnableServe *)
Definition setEnableServe (x : bool) : M t unit := _ ← modify (with_wire Block.empty); modify (with_bit nfd.BIT_CS_ENABLE_SERVE x).

(** [ndn-cxx/mgmt/nfd/cs-info.cpp:132-138] CsInfo::setCapacity *)
Definition setCapacity (x : Z) : M t unit := _ ← modify (with_wire Block.empty); modify (with_capacity x).

(** [ndn-cxx/mgmt/nfd/cs-info.cpp:156-162] CsInfo::setNEntries *)
Definition setNEntries (x : Z) : M t unit := _ ← modify (with_wire Block.empty); modify (with_nEntries x).

(** [ndn-cxx/mgmt/nfd/cs-info.cpp:164-170] CsInfo::setNHits *)
Definition setNHits (x : Z) : M t unit := _ ← modify (with_wire Block.empty); modify (with_nHits x).

(** [ndn-cxx/mgmt/nfd/cs-info.cpp:172-178] CsInfo::setNMisses *)
Definition setNMisses (x : Z) : M t unit := _ ← modify (with_wire Block.empty); modify (with_nMisses x).

(** [ndn-cxx/mgmt/nfd/cs-info.cpp:180-189] operator==(const CsInfo&, const CsInfo&) *)
Definition eqb (a b : t) : bool :=
  (m_capacity a =? m_capacity b) && Bool.eqb (getEnableAdmit a) (getEnableAdmit b) &&
  Bool.eqb (getEnableServe a) (getEnableServe b) && (m_nEntries a =? m_nEntries b) &&
  (m_nHits a =? m_nHits b) && (m_nMisses a =? m_nMisses b).

End CsInfo.

(** ** FaceTraits, the base class of FaceStatus and FaceEventNotification *)

Module FaceTraits.

(** [ndn-cxx/mgmt/nfd/face-traits.hpp:183-191] FaceTraits *)
Record t := mk {
  m_faceId : Z;
  m_remoteUri : bytes;
  m_localUri : bytes;
  m_faceScope : Z;
  m_facePersistency : Z;
  m_linkType : Z;
  m_flags : Z;
  m_wire : Block.t;
}.

Definition with_faceId x s := mk x (m_remoteUri s) (m_localUri s) (m_faceScope s) (m_facePersistency s) (m_linkType s) (m_flags s) (m_wire s).
Definition with_remoteUri x s := mk (m_faceId s) x (m_localUri s) (m_faceScope s) (m_facePersistency s) (m_linkType s) (m_flags s) (m_wire s).
Definition with_localUri x s := mk (m_faceId s) (m_remoteUri s) x (m_faceScope s) (m_facePersistency s) (m_linkType s) (m_flags s) (m_wire s).
Definition with_faceScope x s := mk (m_faceId s) (m_remoteUri s) (m_localUri s) x (m_facePersistency s) (m_linkType s) (m_flags s) (m_wire s).
Definition with_facePersistency x s := mk (m_faceId s) (m_remoteUri s) (m_localUri s) (m_faceScope s) x (m_linkType s) (m_flags s) (m_wire s).
Definition with_linkType x s := mk (m_faceId s) (m_remoteUri s) (m_localUri s) (m_faceScope s) (m_facePersistency s) x (m_flags s) (m_wire s).
Definition with_flags x s := mk (m_faceId s) (m_remoteUri s) (m_localUri s) (m_faceScope s) (m_facePersistency s) (m_linkType s) x (m_wire s).
Definition with_wire x s := mk (m_faceId s) (m_remoteUri s) (m_localUri s) (m_faceScope s) (m_facePersistency s) (m_linkType s) (m_flags s) x.

(** [ndn-cxx/mgmt/nfd/face-traits.hpp:173-180] FaceTraits::FaceTraits() *)
Definition init : t :=
  mk nfd.INVALID_FACE_ID [] [] nfd.FACE_SCOPE_NON_LOCAL nfd.FACE_PERSISTENCY_PERSISTENT nfd.LINK_TYPE_POINT_TO_POINT 0 Block.empty.

(** [ndn-cxx/mgmt/nfd/face-traits.hpp:52-58] FaceTraits::setFaceId *)
Definition setFaceId (x : Z) : M t unit := _ ← modify (with_wire Block.empty); modify (with_faceId x).

(** [ndn-cxx/mgmt/nfd/face-traits.hpp:66-72] FaceTraits::setRemoteUri *)
Definition setRemoteUri (x : bytes) : M t unit := _ ← modify (with_wire Block.empty); modify (with_remoteUri x).

(** [ndn-cxx/mgmt/nfd/face-traits.hpp:80-86] FaceTraits::setLocalUri *)
Definition setLocalUri (x : bytes) : M t unit := _ ← modify (with_wire Block.empty); modify (with_localUri x).

(** [ndn-cxx/mgmt/nfd/face-traits.hpp:94-100] FaceTraits::setFaceScope *)
Definition setFaceScope (x : Z) : M t unit := _ ← modify (with_wire Block.empty); modify (with_faceScope x).

(** [ndn-cxx/mgmt/nfd/face-traits.hpp:108-114] FaceTraits::setFacePersistency *)
Definition setFacePersistency (x : Z) : M t unit := _ ← modify (with_wire Block.empty); modify (with_facePersistency x).

(** [ndn-cxx/mgmt/nfd/face-traits.hpp:122-128] FaceTraits::setLinkType *)
Definition setLinkType (x : Z) : M t unit := _ ← modify (with_wire Block.empty); modify (with_linkType x).

(** [ndn-cxx/mgmt/nfd/face-traits.hpp:136-142] FaceTraits::setFlags *)
Definition setFlags (x : Z) : M t unit := _ ← modify (with_wire Block.empty); modify (with_flags x).

(** [1 << bit] is computed in [int] and converted to [uint64_t]: the result for
    the bits an [int] has; a shift by 32 or more is undefined. *)
Definition one_shl (bit : Z) : option Z := if bit <? 32 then Some (u64 (i32 (Z.shiftl 1 bit))) else None.

(** [~(1 << bit)], complemented in [int] before the conversion. *)
Definition not_one_shl (bit : Z) : option Z := if bit <? 32 then Some (u64 (Z.lnot (i32 (Z.shiftl 1 bit)))) else None.

(** [ndn-cxx/mgmt/nfd/face-traits.hpp:144-151] FaceTraits::getFlagBit
    [None] is undefined behaviour. *)
Definition getFlagBit (bit : Z) (s : t) : option (result bool) :=
  if 64 <=? bit then Some (Throw (OutOfRange "bit must be within range [0, 64)"))
  else k ← one_shl bit; Some (Ok (negb (Z.land (m_flags s) k =? 0))).

(** [ndn-cxx/mgmt/nfd/face-traits.hpp:153-170] FaceTraits::setFlagBit
    [None] is undefined behaviour. *)
Definition setFlagBit (bit : Z) (value : bool) (s : t) : option (result t) :=
  if 64 <=? bit then Some (Throw (OutOfRange "bit must be within range [0, 64)"))
  else
    k ← (if value then one_shl bit else not_one_shl bit);
    let s := with_wire Block.empty s in
    Some (Ok (with_flags (if value then Z.lor (m_flags s) k else Z.land (m_flags s) k) s)).

End FaceTraits.

(** ** FaceEventNotification *)

Module FaceEventNotification.

(** [ndn-cxx/mgmt/nfd/face-event-notification.hpp:70-71] FaceEventNotification *)
Record t := mk {
  m_base : FaceTraits.t;
  m_kind : Z;
}.

Definition with_base x s := mk x (m_kind s).
Definition with_kind x s := mk (m_base s) x.

(** A member of the base class, and a call of one of its member functions. *)
Definition onBase {A} (set : A -> FaceTraits.t -> FaceTraits.t) (x : A) (s : t) : t := with_base (set x (m_base s)) s.
Definition base (m : M FaceTraits.t unit) : M t unit := zoom m_base with_base m.

(** [ndn-cxx/mgmt/nfd/face-event-notification.cpp:34-37] FaceEventNotification::FaceEventNotification() *)
Definition init : t := mk FaceTraits.init nfd.FACE_EVENT_NONE.

(** [ndn-cxx/mgmt/nfd/face-event-notification.cpp:44-62] FaceEventNotification::wireEncode(EncodingImpl&) *)
Definition wireEncode_template (s : t) : prepender :=
  pTL tlv_nfd.FaceEventNotification
    (encoding.prependNonNegativeIntegerBlock tlv_nfd.Flags (FaceTraits.m_flags (m_base s)) ;+
     encoding.prependNonNegativeIntegerBlock tlv_nfd.LinkType (FaceTraits.m_linkType (m_base s)) ;+
     encoding.prependNonNegativeIntegerBlock tlv_nfd.FacePersistency (FaceTraits.m_facePersistency (m_base s)) ;+
     encoding.prependNonNegativeIntegerBlock tlv_nfd.FaceScope (FaceTraits.m_faceScope (m_base s)) ;+
     encoding.prependStringBlock tlv_nfd.LocalUri (FaceTraits.m_localUri (m_base s)) ;+
     encoding.prependStringBlock tlv_nfd.Uri (FaceTraits.m_remoteUri (m_base s)) ;+
     encoding.prependNonNegativeIntegerBlock tlv_nfd.FaceId (FaceTraits.m_faceId (m_base s)) ;+
     encoding.prependNonNegativeIntegerBlock tlv_nfd.FaceEventKind (m_kind s)).

(** [ndn-cxx/mgmt/nfd/face-event-notification.cpp:66-80] FaceEventNotification::wireEncode *)
Definition wireEncode : M t Block.t := cachedEncode (fun s => FaceTraits.m_wire (m_base s)) (onBase FaceTraits.with_wire) wireEncode_template.

(** [ndn-cxx/mgmt/nfd/face-event-notification.cpp:82-156] FaceEventNotification::wireDecode *)
Definition wireDecode (block : Block.t) : M t unit :=
  _ ← throwM_if (negb (Block.type block =? tlv_nfd.FaceEventNotification)) (PacketError "FaceEventNotification");
  _ ← assignParsed (onBase FaceTraits.with_wire) block;
  s ← self;
  let val := Block.elements (FaceTraits.m_wire (m_base s)) in
  val ← required_field tlv_nfd.FaceEventKind "missing required FaceEventKind field" val (readEnum UINT8_MAX with_kind);
  val ← required_field tlv_nfd.FaceId "missing required FaceId field" val (readNumber (onBase FaceTraits.with_faceId));
  val ← required_field tlv_nfd.Uri "missing required Uri field" val (readText (onBase FaceTraits.with_remoteUri));
  val ← required_field tlv_nfd.LocalUri "missing required LocalUri field" val (readText (onBase FaceTraits.with_localUri));
  val ← required_field tlv_nfd.FaceScope "missing required FaceScope field" val (readEnum UINT8_MAX (onBase FaceTraits.with_faceScope));
  val ← required_field tlv_nfd.FacePersistency "missing required FacePersistency field" val (readEnum UINT8_MAX (onBase FaceTraits.with_facePersistency));
  val ← required_field tlv_nfd.LinkType "missing required LinkType field" val (readEnum UINT8_MAX (onBase FaceTraits.with_linkType));
  _ ← required_field tlv_nfd.Flags "missing required Flags field" val (readNumber (onBase FaceTraits.with_flags));
  mret tt.

(** [ndn-cxx/mgmt/nfd/face-event-notification.cpp:39-42] FaceEventNotification::FaceEventNotification(const Block&)
    A member that the constructor leaves unset is overwritten, or the decoder throws. *)
Definition ofBlock (block : Block.t) : result t := exec (wireDecode block) init.

(** [ndn-cxx/mgmt/nfd/face-event-notification.cpp:158-164] FaceEventNotification::setKind *)
Definition setKind (x : Z) : M t unit := _ ← modify (onBase FaceTraits.with_wire Block.empty); modify (with_kind x).

(** [ndn-cxx/mgmt/nfd/face-event-notification.cpp:166-177] operator==(const FaceEventNotification&, const FaceEventNotification&) *)
Definition eqb (a b : t) : bool :=
  let a' := m_base a in let b' := m_base b in
  (FaceTraits.m_faceId a' =? FaceTraits.m_faceId b') && bytes_eqb (FaceTraits.m_remoteUri a') (FaceTraits.m_remoteUri b') &&
  bytes_eqb (FaceTraits.m_localUri a') (FaceTraits.m_localUri b') && (FaceTraits.m_faceScope a' =? FaceTraits.m_faceScope b') &&
  (FaceTraits.m_facePersistency a' =? FaceTraits.m_facePersistency b') && (FaceTraits.m_linkType a' =? FaceTraits.m_linkType b') &&
  (FaceTraits.m_flags a' =? FaceTraits.m_flags b') &&
  (m_kind a =? m_kind b).

End FaceEventNotification.

(** ** FaceStatus *)

Module FaceStatus.

(** [ndn-cxx/mgmt/nfd/face-status.hpp:223-234] FaceStatus *)
Record t := mk {
  m_base : FaceTraits.t;
  m_expirationPeriod : option Z;
  m_baseCongestionMarkingInterval : option Z;
  m_defaultCongestionThreshold : option Z;
  m_mtu : option Z;
  m_nInInterests : Z;
  m_nInData : Z;
  m_nInNacks : Z;
  m_nOutInterests : Z;
  m_nOutData : Z;
  m_nOutNacks : Z;
  m_nInBytes : Z;
  m_nOutBytes : Z;
}.

Definition with_base x s := mk x (m_expirationPeriod s) (m_baseCongestionMarkingInterval s) (m_defaultCongestionThreshold s) (m_mtu s) (m_nInInterests s) (m_nInData s) (m_nInNacks s) (m_nOutInterests s) (m_nOutData s) (m_nOutNacks s) (m_nInBytes s) (m_nOutBytes s).
Definition with_expirationPeriod x s := mk (m_base s) x (m_baseCongestionMarkingInterval s) (m_defaultCongestionThreshold s) (m_mtu s) (m_nInInterests s) (m_nInData s) (m_nInNacks s) (m_nOutInterests s) (m_nOutData s) (m_nOutNacks s) (m_nInBytes s) (m_nOutBytes s).
Definition with_baseCongestionMarkingInterval x s := mk (m_base s) (m_expirationPeriod s) x (m_defaultCongestionThreshold s) (m_mtu s) (m_nInInterests s) (m_nInData s) (m_nInNacks s) (m_nOutInterests s) (m_nOutData s) (m_nOutNacks s) (m_nInBytes s) (m_nOutBytes s).
Definition with_defaultCongestionThreshold x s := mk (m_base s) (m_expirationPeriod s) (m_baseCongestionMarkingInterval s) x (m_mtu s) (m_nInInterests s) (m_nInData s) (m_nInNacks s) (m_nOutInterests s) (m_nOutData s) (m_nOutNacks s) (m_nInBytes s) (m_nOutBytes s).
Definition with_mtu x s := mk (m_base s) (m_expirationPeriod s) (m_baseCongestionMarkingInterval s) (m_defaultCongestionThreshold s) x (m_nInInterests s) (m_nInData s) (m_nInNacks s) (m_nOutInterests s) (m_nOutData s) (m_nOutNacks s) (m_nInBytes s) (m_nOutBytes s).
Definition with_nInInterests x s := mk (m_base s) (m_expirationPeriod s) (m_baseCongestionMarkingInterval s) (m_defaultCongestionThreshold s) (m_mtu s) x (m_nInData s) (m_nInNacks s) (m_nOutInterests s) (m_nOutData s) (m_nOutNacks s) (m_nInBytes s) (m_nOutBytes s).
Definition with_nInData x s := mk (m_base s) (m_expirationPeriod s) (m_baseCongestionMarkingInterval s) (m_defaultCongestionThreshold s) (m_mtu s) (m_nInInterests s) x (m_nInNacks s) (m_nOutInterests s) (m_nOutData s) (m_nOutNacks s) (m_nInBytes s) (m_nOutBytes s).
Definition with_nInNacks x s := mk (m_base s) (m_expirationPeriod s) (m_baseCongestionMarkingInterval s) (m_defaultCongestionThreshold s) (m_mtu s) (m_nInInterests s) (m_nInData s) x (m_nOutInterests s) (m_nOutData s) (m_nOutNacks s) (m_nInBytes s) (m_nOutBytes s).
Definition with_nOutInterests x s := mk (m_base s) (m_expirationPeriod s) (m_baseCongestionMarkingInterval s) (m_defaultCongestionThreshold s) (m_mtu s) (m_nInInterests s) (m_nInData s) (m_nInNacks s) x (m_nOutData s) (m_nOutNacks s) (m_nInBytes s) (m_nOutBytes s).
Definition with_nOutData x s := mk (m_base s) (m_expirationPeriod s) (m_baseCongestionMarkingInterval s) (m_defaultCongestionThreshold s) (m_mtu s) (m_nInInterests s) (m_nInData s) (m_nInNacks s) (m_nOutInterests s) x (m_nOutNacks s) (m_nInBytes s) (m_nOutBytes s).
Definition with_nOutNacks x s := mk (m_base s) (m_expirationPeriod s) (m_baseCongestionMarkingInterval s) (m_defaultCongestionThreshold s) (m_mtu s) (m_nInInterests s) (m_nInData s) (m_nInNacks s) (m_nOutInterests s) (m_nOutData s) x (m_nInBytes s) (m_nOutBytes s).
Definition with_nInBytes x s := mk (m_base s) (m_expirationPeriod s) (m_baseCongestionMarkingInterval s) (m_defaultCongestionThreshold s) (m_mtu s) (m_nInInterests s) (m_nInData s) (m_nInNacks s) (m_nOutInterests s) (m_nOutData s) (m_nOutNacks s) x (m_nOutBytes s).
Definition with_nOutBytes x s := mk (m_base s) (m_expirationPeriod s) (m_baseCongestionMarkingInterval s) (m_defaultCongestionThreshold s) (m_mtu s) (m_nInInterests s) (m_nInData s) (m_nInNacks s) (m_nOutInterests s) (m_nOutData s) (m_nOutNacks s) (m_nInBytes s) x.

(** A member of the base class, and a call of one of its member functions. *)
Definition onBase {A} (set : A -> FaceTraits.t -> FaceTraits.t) (x : A) (s : t) : t := with_base (set x (m_base s)) s.
Definition base (m : M FaceTraits.t unit) : M t unit := zoom m_base with_base m.

(** [ndn-cxx/mgmt/nfd/face-status.cpp:34-44] FaceStatus::FaceStatus() *)
Definition init : t := mk FaceTraits.init None None None None 0 0 0 0 0 0 0 0.

(** [ndn-cxx/mgmt/nfd/face-status.cpp:51-91] FaceStatus::wireEncode(EncodingImpl&) *)
Definition wireEncode_template (s : t) : prepender :=
  pTL tlv_nfd.FaceStatus
    (encoding.prependNonNegativeIntegerBlock tlv_nfd.Flags (FaceTraits.m_flags (m_base s)) ;+
     encoding.prependNonNegativeIntegerBlock tlv_nfd.NOutBytes (m_nOutBytes s) ;+
     encoding.prependNonNegativeIntegerBlock tlv_nfd.NInBytes (m_nInBytes s) ;+
     encoding.prependNonNegativeIntegerBlock tlv_nfd.NOutNacks (m_nOutNacks s) ;+
     encoding.prependNonNegativeIntegerBlock tlv_nfd.NOutData (m_nOutData s) ;+
     encoding.prependNonNegativeIntegerBlock tlv_nfd.NOutInterests (m_nOutInterests s) ;+
     encoding.prependNonNegativeIntegerBlock tlv_nfd.NInNacks (m_nInNacks s) ;+
     encoding.prependNonNegativeIntegerBlock tlv_nfd.NInData (m_nInData s) ;+
     encoding.prependNonNegativeIntegerBlock tlv_nfd.NInInterests (m_nInInterests s) ;+
     pOption (m_mtu s) (encoding.prependNonNegativeIntegerBlock tlv_nfd.Mtu) ;+
     pOption (m_defaultCongestionThreshold s) (encoding.prependNonNegativeIntegerBlock tlv_nfd.DefaultCongestionThreshold) ;+
     pOption (m_baseCongestionMarkingInterval s) (fun n => encoding.prependNonNegativeIntegerBlock tlv_nfd.BaseCongestionMarkingInterval (u64 n)) ;+
     encoding.prependNonNegativeIntegerBlock tlv_nfd.LinkType (FaceTraits.m_linkType (m_base s)) ;+
     encoding.prependNonNegativeIntegerBlock tlv_nfd.FacePersistency (FaceTraits.m_facePersistency (m_base s)) ;+
     encoding.prependNonNegativeIntegerBlock tlv_nfd.FaceScope (FaceTraits.m_faceScope (m_base s)) ;+
     pOption (m_expirationPeriod s) (fun n => encoding.prependNonNegativeIntegerBlock tlv_nfd.ExpirationPeriod (u64 n)) ;+
     encoding.prependStringBlock tlv_nfd.LocalUri (FaceTraits.m_localUri (m_base s)) ;+
     encoding.prependStringBlock tlv_nfd.Uri (FaceTraits.m_remoteUri (m_base s)) ;+
     encoding.prependNonNegativeIntegerBlock tlv_nfd.FaceId (FaceTraits.m_faceId (m_base s))).

(** [ndn-cxx/mgmt/nfd/face-status.cpp:95-109] FaceStatus::wireEncode *)
Definition wireEncode : M t Block.t := cachedEncode (fun s => FaceTraits.m_wire (m_base s)) (onBase FaceTraits.with_wire) wireEncode_template.

(** [ndn-cxx/mgmt/nfd/face-status.cpp:111-273] FaceStatus::wireDecode *)
Definition wireDecode (block : Block.t) : M t unit :=
  _ ← throwM_if (negb (Block.type block =? tlv_nfd.FaceStatus)) (PacketError "FaceStatus");
  _ ← assignParsed (onBase FaceTraits.with_wire) block;
  s ← self;
  let val := Block.elements (FaceTraits.m_wire (m_base s)) in
  val ← required_field tlv_nfd.FaceId "missing required FaceId field" val (readNumber (onBase FaceTraits.with_faceId));
  val ← required_field tlv_nfd.Uri "missing required Uri field" val (readText (onBase FaceTraits.with_remoteUri));
  val ← required_field tlv_nfd.LocalUri "missing required LocalUri field" val (readText (onBase FaceTraits.with_localUri));
  val ← MetaInfo.optional_field tlv_nfd.ExpirationPeriod val (readDuration (fun n => with_expirationPeriod (Some n))) (modify (with_expirationPeriod None));
  val ← required_field tlv_nfd.FaceScope "missing required FaceScope field" val (readEnum UINT8_MAX (onBase FaceTraits.with_faceScope));
  val ← required_field tlv_nfd.FacePersistency "missing required FacePersistency field" val (readEnum UINT8_MAX (onBase FaceTraits.with_facePersistency));
  val ← required_field tlv_nfd.LinkType "missing required LinkType field" val (readEnum UINT8_MAX (onBase FaceTraits.with_linkType));
  val ← MetaInfo.optional_field tlv_nfd.BaseCongestionMarkingInterval val (readDuration (fun n => with_baseCongestionMarkingInterval (Some n))) (modify (with_baseCongestionMarkingInterval None));
  val ← MetaInfo.optional_field tlv_nfd.DefaultCongestionThreshold val (readNumber (fun n => with_defaultCongestionThreshold (Some n))) (modify (with_defaultCongestionThreshold None));
  val ← MetaInfo.optional_field tlv_nfd.Mtu val (readNumber (fun n => with_mtu (Some n))) (modify (with_mtu None));
  val ← required_field tlv_nfd.NInInterests "missing required NInInterests field" val (readNumber with_nInInterests);
  val ← required_field tlv_nfd.NInData "missing required NInData field" val (readNumber with_nInData);
  val ← required_field tlv_nfd.NInNacks "missing required NInNacks field" val (readNumber with_nInNacks);
  val ← required_field tlv_nfd.NOutInterests "missing required NOutInterests field" val (readNumber with_nOutInterests);
  val ← required_field tlv_nfd.NOutData "missing required NOutData field" val (readNumber with_nOutData);
  val ← required_field tlv_nfd.NOutNacks "missing required NOutNacks field" val (readNumber with_nOutNacks);
  val ← required_field tlv_nfd.NInBytes "missing required NInBytes field" val (readNumber with_nInBytes);
  val ← required_field tlv_nfd.NOutBytes "missing required NOutBytes field" val (readNumber with_nOutBytes);
  _ ← required_field tlv_nfd.Flags "missing required Flags field" val (readNumber (onBase FaceTraits.with_flags));
  mret tt.

(** [ndn-cxx/mgmt/nfd/face-status.cpp:46-49] FaceStatus::FaceStatus(const Block&)
    A member that the constructor leaves unset is overwritten, or the decoder throws. *)
Definition ofBlock (block : Block.t) : result t := exec (wireDecode block) init.

(** [ndn-cxx/mgmt/nfd/face-status.cpp:275-281] FaceStatus::setExpirationPeriod *)
Definition setExpirationPeriod (x : Z) : M t unit := _ ← modify (onBase FaceTraits.with_wire Block.empty); modify (with_expirationPeriod (Some x)).

(** [ndn-cxx/mgmt/nfd/face-status.cpp:283-289] FaceStatus::unsetExpirationPeriod *)
Definition unsetExpirationPeriod : M t unit := _ ← modify (onBase FaceTraits.with_wire Block.empty); modify (with_expirationPeriod None).

(** [ndn-cxx/mgmt/nfd/face-status.cpp:291-297] FaceStatus::setBaseCongestionMarkingInterval *)
Definition setBaseCongestionMarkingInterval (x : Z) : M t unit := _ ← modify (onBase FaceTraits.with_wire Block.empty); modify (with_baseCongestionMarkingInterval (Some x)).

(** [ndn-cxx/mgmt/nfd/face-status.cpp:299-305] FaceStatus::unsetBaseCongestionMarkingInterval *)
Definition unsetBaseCongestionMarkingInterval : M t unit := _ ← modify (onBase FaceTraits.with_wire Block.empty); modify (with_baseCongestionMarkingInterval None).

(** [ndn-cxx/mgmt/nfd/face-status.cpp:307-313] FaceStatus::setDefaultCongestionThreshold *)
Definition setDefaultCongestionThreshold (x : Z) : M t unit := _ ← modify (onBase FaceTraits.with_wire Block.empty); modify (with_defaultCongestionThreshold (Some x)).

(** [ndn-cxx/mgmt/nfd/face-status.cpp:315-321] FaceStatus::unsetDefaultCongestionThreshold *)
Definition unsetDefaultCongestionThreshold : M t unit := _ ← modify (onBase FaceTraits.with_wire Block.empty); modify (with_defaultCongestionThreshold None).

(** [ndn-cxx/mgmt/nfd/face-status.cpp:323-329] FaceStatus::setMtu *)
Definition setMtu (x : Z) : M t unit := _ ← modify (onBase FaceTraits.with_wire Block.empty); modify (with_mtu (Some x)).

(** [ndn-cxx/mgmt/nfd/face-status.cpp:331-337] FaceStatus::unsetMtu *)
Definition unsetMtu : M t unit := _ ← modify (onBase FaceTraits.with_wire Block.empty); modify (with_mtu None).

(** [ndn-cxx/mgmt/nfd/face-status.cpp:339-345] FaceStatus::setNInInterests *)
Definition setNInInterests (x : Z) : M t unit := _ ← modify (onBase FaceTraits.with_wire Block.empty); modify (with_nInInterests x).

(** [ndn-cxx/mgmt/nfd/face-status.cpp:347-353] FaceStatus::setNInData *)
Definition setNInData (x : Z) : M t unit := _ ← modify (onBase FaceTraits.with_wire Block.empty); modify (with_nInData x).

(** [ndn-cxx/mgmt/nfd/face-status.cpp:355-361] FaceStatus::setNInNacks *)
Definition setNInNacks (x : Z) : M t unit := _ ← modify (onBase FaceTraits.with_wire Block.empty); modify (with_nInNacks x).

(** [ndn-cxx/mgmt/nfd/face-status.cpp:363-369] FaceStatus::setNOutInterests *)
Definition setNOutInterests (x : Z) : M t unit := _ ← modify (onBase FaceTraits.with_wire Block.empty); modify (with_nOutInterests x).

(** [ndn-cxx/mgmt/nfd/face-status.cpp:371-377] FaceStatus::setNOutData *)
Definition setNOutData (x : Z) : M t unit := _ ← modify (onBase FaceTraits.with_wire Block.empty); modify (with_nOutData x).

(** [ndn-cxx/mgmt/nfd/face-status.cpp:379-385] FaceStatus::setNOutNacks *)
Definition setNOutNacks (x : Z) : M t unit := _ ← modify (onBase FaceTraits.with_wire Block.empty); modify (with_nOutNacks x).

(** [ndn-cxx/mgmt/nfd/face-status.cpp:387-393] FaceStatus::setNInBytes *)
Definition setNInBytes (x : Z) : M t unit := _ ← modify (onBase FaceTraits.with_wire Block.empty); modify (with_nInBytes x).

(** [ndn-cxx/mgmt/nfd/face-status.cpp:395-401] FaceStatus::setNOutBytes *)
Definition setNOutBytes (x : Z) : M t unit := _ ← modify (onBase FaceTraits.with_wire Block.empty); modify (with_nOutBytes x).

(** [ndn-cxx/mgmt/nfd/face-status.cpp:403-431] operator==(const FaceStatus&, const FaceStatus&) *)
Definition eqb (a b : t) : bool :=
  let a' := m_base a in let b' := m_base b in
  (FaceTraits.m_faceId a' =? FaceTraits.m_faceId b') && bytes_eqb (FaceTraits.m_remoteUri a') (FaceTraits.m_remoteUri b') &&
  bytes_eqb (FaceTraits.m_localUri a') (FaceTraits.m_localUri b') && (FaceTraits.m_faceScope a' =? FaceTraits.m_faceScope b') &&
  (FaceTraits.m_facePersistency a' =? FaceTraits.m_facePersistency b') && (FaceTraits.m_linkType a' =? FaceTraits.m_linkType b') &&
  (FaceTraits.m_flags a' =? FaceTraits.m_flags b') &&
  opt_eqb (m_expirationPeriod a) (m_expirationPeriod b) &&
  opt_eqb (m_baseCongestionMarkingInterval a) (m_baseCongestionMarkingInterval b) &&
  opt_eqb (m_defaultCongestionThreshold a) (m_defaultCongestionThreshold b) && opt_eqb (m_mtu a) (m_mtu b) &&
  (m_nInInterests a =? m_nInInterests b) && (m_nInData a =? m_nInData b) && (m_nInNacks a =? m_nInNacks b) && (m_nOutInterests a =? m_nOutInterests b) && (m_nOutData a =? m_nOutData b) && (m_nOutNacks a =? m_nOutNacks b) && (m_nInBytes a =? m_nInBytes b) && (m_nOutBytes a =? m_nOutBytes b).

End FaceStatus.

(** ** FaceQueryFilter *)

Module FaceQueryFilter.

(** [ndn-cxx/mgmt/nfd/face-query-filter.hpp:207-215] FaceQueryFilter
    An empty string is an absent field. *)
Record t := mk {
  m_faceId : option Z;
  m_uriScheme : bytes;
  m_remoteUri : bytes;
  m_localUri : bytes;
  m_faceScope : option Z;
  m_facePersistency : option Z;
  m_linkType : option Z;
  m_wire : Block.t;
}.

Definition with_faceId x s := mk x (m_uriScheme s) (m_remoteUri s) (m_localUri s) (m_faceScope s) (m_facePersistency s) (m_linkType s) (m_wire s).
Definition with_uriScheme x s := mk (m_faceId s) x (m_remoteUri s) (m_localUri s) (m_faceScope s) (m_facePersistency s) (m_linkType s) (m_wire s).
Definition with_remoteUri x s := mk (m_faceId s) (m_uriScheme s) x (m_localUri s) (m_faceScope s) (m_facePersistency s) (m_linkType s) (m_wire s).
Definition with_localUri x s := mk (m_faceId s) (m_uriScheme s) (m_remoteUri s) x (m_faceScope s) (m_facePersistency s) (m_linkType s) (m_wire s).
Definition with_faceScope x s := mk (m_faceId s) (m_uriScheme s) (m_remoteUri s) (m_localUri s) x (m_facePersistency s) (m_linkType s) (m_wire s).
Definition with_facePersistency x s := mk (m_faceId s) (m_uriScheme s) (m_remoteUri s) (m_localUri s) (m_faceScope s) x (m_linkType s) (m_wire s).
Definition with_linkType x s := mk (m_faceId s) (m_uriScheme s) (m_remoteUri s) (m_localUri s) (m_faceScope s) (m_facePersistency s) x (m_wire s).
Definition with_wire x s := mk (m_faceId s) (m_uriScheme s) (m_remoteUri s) (m_localUri s) (m_faceScope s) (m_facePersistency s) (m_linkType s) x.

(** [ndn-cxx/mgmt/nfd/face-query-filter.cpp:36-36] FaceQueryFilter::FaceQueryFilter() *)
Definition init : t := mk None [] [] [] None None None Block.empty.

(** [hasUriScheme], [hasRemoteUri] and [hasLocalUri]: the string is not empty. *)
Definition has (x : bytes) : bool := negb (len x =? 0).

(** [ndn-cxx/mgmt/nfd/face-query-filter.cpp:43-84] FaceQueryFilter::wireEncode(EncodingImpl&) *)
Definition wireEncode_template (s : t) : prepender :=
  pTL tlv_nfd.FaceQueryFilter
    (pOption (m_linkType s) (encoding.prependNonNegativeIntegerBlock tlv_nfd.LinkType) ;+
     pOption (m_facePersistency s) (encoding.prependNonNegativeIntegerBlock tlv_nfd.FacePersistency) ;+
     pOption (m_faceScope s) (encoding.prependNonNegativeIntegerBlock tlv_nfd.FaceScope) ;+
     pWhen (has (m_localUri s)) (encoding.prependStringBlock tlv_nfd.LocalUri (m_localUri s)) ;+
     pWhen (has (m_remoteUri s)) (encoding.prependStringBlock tlv_nfd.Uri (m_remoteUri s)) ;+
     pWhen (has (m_uriScheme s)) (encoding.prependStringBlock tlv_nfd.UriScheme (m_uriScheme s)) ;+
     pOption (m_faceId s) (encoding.prependNonNegativeIntegerBlock tlv_nfd.FaceId)).

(** [ndn-cxx/mgmt/nfd/face-query-filter.cpp:88-102] FaceQueryFilter::wireEncode *)
Definition wireEncode : M t Block.t := cachedEncode m_wire with_wire wireEncode_template.

(** [ndn-cxx/mgmt/nfd/face-query-filter.cpp:104-172] FaceQueryFilter::wireDecode *)
Definition wireDecode (block : Block.t) : M t unit :=
  _ ← throwM_if (negb (Block.type block =? tlv_nfd.FaceQueryFilter)) (PacketError "FaceQueryFilter");
  _ ← assignParsed with_wire block;
  s ← self;
  let val := Block.elements (m_wire s) in
  val ← MetaInfo.optional_field tlv_nfd.FaceId val (readNumber (fun n => with_faceId (Some n))) (modify (with_faceId None));
  val ← MetaInfo.optional_field tlv_nfd.UriScheme val (readText with_uriScheme) (modify (with_uriScheme []));
  val ← MetaInfo.optional_field tlv_nfd.Uri val (readText with_remoteUri) (modify (with_remoteUri []));
  val ← MetaInfo.optional_field tlv_nfd.LocalUri val (readText with_localUri) (modify (with_localUri []));
  val ← MetaInfo.optional_field tlv_nfd.FaceScope val (readEnum UINT8_MAX (fun n => with_faceScope (Some n))) (modify (with_faceScope None));
  val ← MetaInfo.optional_field tlv_nfd.FacePersistency val (readEnum UINT8_MAX (fun n => with_facePersistency (Some n))) (modify (with_facePersistency None));
  _ ← MetaInfo.optional_field tlv_nfd.LinkType val (readEnum UINT8_MAX (fun n => with_linkType (Some n))) (modify (with_linkType None));
  mret tt.

(** [ndn-cxx/mgmt/nfd/face-query-filter.cpp:38-41] FaceQueryFilter::FaceQueryFilter(const Block&)
    Every member is overwritten, or the decoder throws. *)
Definition ofBlock (block : Block.t) : result t := exec (wireDecode block) init.

(** [ndn-cxx/mgmt/nfd/face-query-filter.cpp:174-184] FaceQueryFilter::empty *)
Definition empty (s : t) : bool :=
  negb (is_Some_b (m_faceId s)) && negb (has (m_uriScheme s)) && negb (has (m_remoteUri s)) && negb (has (m_localUri s)) &&
  negb (is_Some_b (m_faceScope s)) && negb (is_Some_b (m_facePersistency s)) && negb (is_Some_b (m_linkType s)).

(** [ndn-cxx/mgmt/nfd/face-query-filter.cpp:186-192] FaceQueryFilter::setFaceId *)
Definition setFaceId (x : Z) : M t unit := _ ← modify (with_wire Block.empty); modify (with_faceId (Some x)).

(** [ndn-cxx/mgmt/nfd/face-query-filter.cpp:194-200] FaceQueryFilter::unsetFaceId *)
Definition unsetFaceId : M t unit := _ ← modify (with_wire Block.empty); modify (with_faceId None).

(** [ndn-cxx/mgmt/nfd/face-query-filter.cpp:202-208] FaceQueryFilter::setUriScheme *)
Definition setUriScheme (x : bytes) : M t unit := _ ← modify (with_wire Block.empty); modify (with_uriScheme x).

(** [ndn-cxx/mgmt/nfd/face-query-filter.cpp:210-214] FaceQueryFilter::unsetUriScheme *)
Definition unsetUriScheme : M t unit := setUriScheme [].

(** [ndn-cxx/mgmt/nfd/face-query-filter.cpp:216-222] FaceQueryFilter::setRemoteUri *)
Definition setRemoteUri (x : bytes) : M t unit := _ ← modify (with_wire Block.empty); modify (with_remoteUri x).

(** [ndn-cxx/mgmt/nfd/face-query-filter.cpp:224-228] FaceQueryFilter::unsetRemoteUri *)
Definition unsetRemoteUri : M t unit := setRemoteUri [].

(** [ndn-cxx/mgmt/nfd/face-query-filter.cpp:230-236] FaceQueryFilter::setLocalUri *)
Definition setLocalUri (x : bytes) : M t unit := _ ← modify (with_wire Block.empty); modify (with_localUri x).

(** [ndn-cxx/mgmt/nfd/face-query-filter.cpp:238-242] FaceQueryFilter::unsetLocalUri *)
Definition unsetLocalUri : M t unit := setLocalUri [].

(** [ndn-cxx/mgmt/nfd/face-query-filter.cpp:244-250] FaceQueryFilter::setFaceScope *)
Definition setFaceScope (x : Z) : M t unit := _ ← modify (with_wire Block.empty); modify (with_faceScope (Some x)).

(** [ndn-cxx/mgmt/nfd/face-query-filter.cpp:252-258] FaceQueryFilter::unsetFaceScope *)
Definition unsetFaceScope : M t unit := _ ← modify (with_wire Block.empty); modify (with_faceScope None).

(** [ndn-cxx/mgmt/nfd/face-query-filter.cpp:260-266] FaceQueryFilter::setFacePersistency *)
Definition setFacePersistency (x : Z) : M t unit := _ ← modify (with_wire Block.empty); modify (with_facePersistency (Some x)).

(** [ndn-cxx/mgmt/nfd/face-query-filter.cpp:268-274] FaceQueryFilter::unsetFacePersistency *)
Definition unsetFacePersistency : M t unit := _ ← modify (with_wire Block.empty); modify (with_facePersistency None).

(** [ndn-cxx/mgmt/nfd/face-query-filter.cpp:276-282] FaceQueryFilter::setLinkType *)
Definition setLinkType (x : Z) : M t unit := _ ← modify (with_wire Block.empty); modify (with_linkType (Some x)).

(** [ndn-cxx/mgmt/nfd/face-query-filter.cpp:284-290] FaceQueryFilter::unsetLinkType *)
Definition unsetLinkType : M t unit := _ ← modify (with_wire Block.empty); modify (with_linkType None).

(** [a.has() == b.has() && (!a.has() || a.get() == b.get())] on a string. *)
Definition text_eqb (a b : bytes) : bool := Bool.eqb (has a) (has b) && (negb (has a) || bytes_eqb a b).

(** [ndn-cxx/mgmt/nfd/face-query-filter.cpp:292-309] operator==(const FaceQueryFilter&, const FaceQueryFilter&) *)
Definition eqb (a b : t) : bool :=
  opt_eqb (m_faceId a) (m_faceId b) && text_eqb (m_uriScheme a) (m_uriScheme b) &&
  text_eqb (m_remoteUri a) (m_remoteUri b) && text_eqb (m_localUri a) (m_localUri b) &&
  opt_eqb (m_faceScope a) (m_faceScope b) && opt_eqb (m_facePersistency a) (m_facePersistency b) &&
  opt_eqb (m_linkType a) (m_linkType b).

End FaceQueryFilter.

(** ** Equality of unordered lists *)

Section matching.
Context {A : Type} (eqb : A -> A -> bool).

(** [ndn-cxx/mgmt/nfd/fib-entry.cpp:251-257] operator==(const FibEntry&, const FibEntry&) (the search for one record)
    The flags [matched] after the search, if it succeeds. *)
Fixpoint take_match (x : A) (bs : list A) (matched : list bool) : option (list bool) :=
  match bs, matched with
  | b :: bs, m :: matched =>
      if negb m && eqb b x then Some (true :: matched)
      else rest ← take_match x bs matched; Some (m :: rest)
  | _, _ => None
  end.

(** [ndn-cxx/mgmt/nfd/fib-entry.cpp:249-258] operator==(const FibEntry&, const FibEntry&) (the loop over the records)
    Also the loop of operator== of RibEntry. *)
Fixpoint all_matched (as_ bs : list A) (matched : list bool) : bool :=
  match as_ with
  | [] => true
  | x :: as_ =>
      match take_match x bs matched with
      | Some matched => all_matched as_ bs matched
      | None => false
      end
  end.

(** The test of the sizes and the loop. *)
Definition same_elements (as_ bs : list A) : bool :=
  (length as_ =? length bs)%nat && all_matched as_ bs (replicate (length bs) false).

End matching.

(** ** NextHopRecord and FibEntry *)

Module NextHopRecord.

(** [ndn-cxx/mgmt/nfd/fib-entry.hpp:77-80] NextHopRecord *)
Record t := mk {
  m_faceId : Z;
  m_cost : Z;
  m_wire : Block.t;
}.

Definition with_faceId x s := mk x (m_cost s) (m_wire s).
Definition with_cost x s := mk (m_faceId s) x (m_wire s).
Definition with_wire x s := mk (m_faceId s) (m_cost s) x.

(** [ndn-cxx/mgmt/nfd/fib-entry.cpp:37-41] NextHopRecord::NextHopRecord() *)
Definition init : t := mk nfd.INVALID_FACE_ID 0 Block.empty.

(** [ndn-cxx/mgmt/nfd/fib-entry.cpp:48-54] NextHopRecord::setFaceId *)
Definition setFaceId (x : Z) : M t unit := _ ← modify (with_faceId x); modify (with_wire Block.empty).

(** [ndn-cxx/mgmt/nfd/fib-entry.cpp:56-62] NextHopRecord::setCost *)
Definition setCost (x : Z) : M t unit := _ ← modify (with_cost x); modify (with_wire Block.empty).

(** [ndn-cxx/mgmt/nfd/fib-entry.cpp:64-76] NextHopRecord::wireEncode(EncodingImpl&) *)
Definition wireEncode_template (s : t) : prepender :=
  pTL tlv_nfd.NextHopRecord
    (encoding.prependNonNegativeIntegerBlock tlv_nfd.Cost (m_cost s) ;+
     encoding.prependNonNegativeIntegerBlock tlv_nfd.FaceId (m_faceId s)).

(** [ndn-cxx/mgmt/nfd/fib-entry.cpp:80-94] NextHopRecord::wireEncode *)
Definition wireEncode : M t Block.t := cachedEncode m_wire with_wire wireEncode_template.

(** [ndn-cxx/mgmt/nfd/fib-entry.cpp:96-124] NextHopRecord::wireDecode *)
Definition wireDecode (block : Block.t) : M t unit :=
  _ ← throwM_if (negb (Block.type block =? tlv_nfd.NextHopRecord)) (PacketError "NextHopRecord");
  _ ← assignParsed with_wire block;
  s ← self;
  let val := Block.elements (m_wire s) in
  val ← expected_field tlv_nfd.FaceId "unexpected end of NextHopRecord" "FaceId" val (readNumber with_faceId);
  _ ← expected_field tlv_nfd.Cost "unexpected end of NextHopRecord" "Cost" val (readNumber with_cost);
  mret tt.

(** [ndn-cxx/mgmt/nfd/fib-entry.cpp:43-46] NextHopRecord::NextHopRecord(const Block&)
    A member that the constructor leaves unset is overwritten, or the decoder throws. *)
Definition ofBlock (block : Block.t) : result t := exec (wireDecode block) init.

(** [ndn-cxx/mgmt/nfd/fib-entry.cpp:126-131] operator==(const NextHopRecord&, const NextHopRecord&) *)
Definition eqb (a b : t) : bool := (m_faceId a =? m_faceId b) && (m_cost a =? m_cost b).

End NextHopRecord.

Module FibEntry.

(** [ndn-cxx/mgmt/nfd/fib-entry.hpp:156-159] FibEntry *)
Record t := mk {
  m_prefix : Name.t;
  m_nextHopRecords : list NextHopRecord.t;
  m_wire : Block.t;
}.

Definition with_prefix x s := mk x (m_nextHopRecords s) (m_wire s).
Definition with_nextHopRecords x s := mk (m_prefix s) x (m_wire s).
Definition with_wire x s := mk (m_prefix s) (m_nextHopRecords s) x.

(** [ndn-cxx/mgmt/nfd/fib-entry.cpp:144-144] FibEntry::FibEntry() *)
Definition init : t := mk Name.empty [] Block.empty.

(** [ndn-cxx/mgmt/nfd/fib-entry.cpp:151-157] FibEntry::setPrefix *)
Definition setPrefix (x : Name.t) : M t unit := _ ← modify (with_prefix x); modify (with_wire Block.empty).

(** [ndn-cxx/mgmt/nfd/fib-entry.cpp:159-165] FibEntry::addNextHopRecord *)
Definition addNextHopRecord (x : NextHopRecord.t) : M t unit :=
  _ ← modify (fun s => with_nextHopRecords (m_nextHopRecords s ++ [x]) s); modify (with_wire Block.empty).

(** [ndn-cxx/mgmt/nfd/fib-entry.cpp:167-173] FibEntry::clearNextHopRecords *)
Definition clearNextHopRecords : M t unit := _ ← modify (with_nextHopRecords []); modify (with_wire Block.empty).

(** [ndn-cxx/mgmt/nfd/fib-entry.hpp:130-137] FibEntry::setNextHopRecords *)
Definition setNextHopRecords (range : list NextHopRecord.t) : M t unit := _ ← modify (with_nextHopRecords range); modify (with_wire Block.empty).

(** [ndn-cxx/mgmt/nfd/fib-entry.cpp:175-189] FibEntry::wireEncode(EncodingImpl&) *)
Definition wireEncode_template (s : t) : prepender :=
  pTL tlv_nfd.FibEntry
    (pReversed NextHopRecord.wireEncode_template (m_nextHopRecords s) ;+
     Name.wireEncode_template (m_prefix s)).

(** [ndn-cxx/mgmt/nfd/fib-entry.cpp:193-207] FibEntry::wireEncode *)
Definition wireEncode : M t Block.t := cachedEncode m_wire with_wire wireEncode_template.

(** [ndn-cxx/mgmt/nfd/fib-entry.cpp:230-235] FibEntry::wireDecode (the loop) *)
Definition decode_elements (val : list Block.t) : M t unit :=
  forM val (fun v =>
    _ ← throwM_if (negb (Block.type v =? tlv_nfd.NextHopRecord)) (PacketError "NextHopRecord");
    x ← liftR (NextHopRecord.ofBlock v);
    modify (fun s => with_nextHopRecords (m_nextHopRecords s ++ [x]) s)).

(** [ndn-cxx/mgmt/nfd/fib-entry.cpp:209-236] FibEntry::wireDecode *)
Definition wireDecode (block : Block.t) : M t unit :=
  _ ← throwM_if (negb (Block.type block =? tlv_nfd.FibEntry)) (PacketError "FibEntry");
  _ ← assignParsed with_wire block;
  s ← self;
  let val := Block.elements (m_wire s) in
  val ← expected_field tlv.Name "unexpected end of FibEntry" "Name" val (fun v => zoom m_prefix with_prefix (nameWireDecode v));
  _ ← modify (with_nextHopRecords []);
  decode_elements val.

(** [ndn-cxx/mgmt/nfd/fib-entry.cpp:146-149] FibEntry::FibEntry(const Block&)
    A member that the constructor leaves unset is overwritten, or the decoder throws. *)
Definition ofBlock (block : Block.t) : result t := exec (wireDecode block) init.

(** [ndn-cxx/mgmt/nfd/fib-entry.cpp:238-259] operator==(const FibEntry&, const FibEntry&) *)
Definition eqb (a b : t) : bool :=
  Name.equals (m_prefix a) (m_prefix b) && same_elements NextHopRecord.eqb (m_nextHopRecords a) (m_nextHopRecords b).

End FibEntry.

(** ** Route and RibEntry *)

Module Route.

(** [ndn-cxx/mgmt/nfd/rib-entry.hpp:121-127] Route *)
Record t := mk {
  m_faceId : Z;
  m_origin : Z;
  m_cost : Z;
  m_flags : Z;
  m_expirationPeriod : option Z;
  m_wire : Block.t;
}.

Definition with_faceId x s := mk x (m_origin s) (m_cost s) (m_flags s) (m_expirationPeriod s) (m_wire s).
Definition with_origin x s := mk (m_faceId s) x (m_cost s) (m_flags s) (m_expirationPeriod s) (m_wire s).
Definition with_cost x s := mk (m_faceId s) (m_origin s) x (m_flags s) (m_expirationPeriod s) (m_wire s).
Definition with_flags x s := mk (m_faceId s) (m_origin s) (m_cost s) x (m_expirationPeriod s) (m_wire s).
Definition with_expirationPeriod x s := mk (m_faceId s) (m_origin s) (m_cost s) (m_flags s) x (m_wire s).
Definition with_wire x s := mk (m_faceId s) (m_origin s) (m_cost s) (m_flags s) (m_expirationPeriod s) x.

(** [ndn-cxx/mgmt/nfd/rib-entry.cpp:38-44] Route::Route() *)
Definition init : t := mk nfd.INVALID_FACE_ID nfd.ROUTE_ORIGIN_APP 0 nfd.ROUTE_FLAG_CHILD_INHERIT None Block.empty.

(** [ndn-cxx/mgmt/nfd/rib-entry.cpp:51-57] Route::setFaceId *)
Definition setFaceId (x : Z) : M t unit := _ ← modify (with_faceId x); modify (with_wire Block.empty).

(** [ndn-cxx/mgmt/nfd/rib-entry.cpp:59-65] Route::setOrigin *)
Definition setOrigin (x : Z) : M t unit := _ ← modify (with_origin x); modify (with_wire Block.empty).

(** [ndn-cxx/mgmt/nfd/rib-entry.cpp:67-73] Route::setCost *)
Definition setCost (x : Z) : M t unit := _ ← modify (with_cost x); modify (with_wire Block.empty).

(** [ndn-cxx/mgmt/nfd/rib-entry.cpp:75-81] Route::setFlags *)
Definition setFlags (x : Z) : M t unit := _ ← modify (with_flags x); modify (with_wire Block.empty).

(** [time::milliseconds::max()] *)
Definition milliseconds_max : Z := 2 ^ 63 - 1.

(** [ndn-cxx/mgmt/nfd/rib-entry.cpp:94-100] Route::unsetExpirationPeriod *)
Definition unsetExpirationPeriod : M t unit := _ ← modify (with_expirationPeriod None); modify (with_wire Block.empty).

(** [ndn-cxx/mgmt/nfd/rib-entry.cpp:83-92] Route::setExpirationPeriod *)
Definition setExpirationPeriod (x : Z) : M t unit :=
  if x =? milliseconds_max then unsetExpirationPeriod
  else _ ← modify (with_expirationPeriod (Some x)); modify (with_wire Block.empty).

(** [ndn-cxx/mgmt/nfd/rib-entry.hpp:98-102] Route::getExpirationPeriod *)
Definition getExpirationPeriod (s : t) : Z := match m_expirationPeriod s with Some x => x | None => milliseconds_max end.

(** [ndn-cxx/mgmt/nfd/route-flags-traits.hpp:41-45] RouteFlagsTraits::isChildInherit *)
Definition isChildInherit (s : t) : bool := negb (Z.land (m_flags s) nfd.ROUTE_FLAG_CHILD_INHERIT =? 0).

(** [ndn-cxx/mgmt/nfd/route-flags-traits.hpp:47-51] RouteFlagsTraits::isRibCapture *)
Definition isRibCapture (s : t) : bool := negb (Z.land (m_flags s) nfd.ROUTE_FLAG_CAPTURE =? 0).

(** [ndn-cxx/mgmt/nfd/rib-entry.cpp:102-120] Route::wireEncode(EncodingImpl&) *)
Definition wireEncode_template (s : t) : prepender :=
  pTL tlv_nfd.Route
    (pOption (m_expirationPeriod s) (fun n => encoding.prependNonNegativeIntegerBlock tlv_nfd.ExpirationPeriod (u64 n)) ;+
     encoding.prependNonNegativeIntegerBlock tlv_nfd.Flags (m_flags s) ;+
     encoding.prependNonNegativeIntegerBlock tlv_nfd.Cost (m_cost s) ;+
     encoding.prependNonNegativeIntegerBlock tlv_nfd.Origin (m_origin s) ;+
     encoding.prependNonNegativeIntegerBlock tlv_nfd.FaceId (m_faceId s)).

(** [ndn-cxx/mgmt/nfd/rib-entry.cpp:124-138] Route::wireEncode *)
Definition wireEncode : M t Block.t := cachedEncode m_wire with_wire wireEncode_template.

(** [ndn-cxx/mgmt/nfd/rib-entry.cpp:140-190] Route::wireDecode *)
Definition wireDecode (block : Block.t) : M t unit :=
  _ ← throwM_if (negb (Block.type block =? tlv_nfd.Route)) (PacketError "Route");
  _ ← assignParsed with_wire block;
  s ← self;
  let val := Block.elements (m_wire s) in
  val ← required_field tlv_nfd.FaceId "missing required FaceId field" val (readNumber with_faceId);
  val ← required_field tlv_nfd.Origin "missing required Origin field" val (readEnum UINT16_MAX with_origin);
  val ← required_field tlv_nfd.Cost "missing required Cost field" val (readNumber with_cost);
  val ← required_field tlv_nfd.Flags "missing required Flags field" val (readNumber with_flags);
  _ ← MetaInfo.optional_field tlv_nfd.ExpirationPeriod val (readDuration (fun n => with_expirationPeriod (Some n))) (modify (with_expirationPeriod None));
  mret tt.

(** [ndn-cxx/mgmt/nfd/rib-entry.cpp:46-49] Route::Route(const Block&)
    A member that the constructor leaves unset is overwritten, or the decoder throws. *)
Definition ofBlock (block : Block.t) : result t := exec (wireDecode block) init.

(** [ndn-cxx/mgmt/nfd/rib-entry.cpp:192-200] operator==(const Route&, const Route&) *)
Definition eqb (a b : t) : bool :=
  (m_faceId a =? m_faceId b) && (m_origin a =? m_origin b) && (m_cost a =? m_cost b) && (m_flags a =? m_flags b) &&
  (getExpirationPeriod a =? getExpirationPeriod b).

End Route.

Module RibEntry.

(** [ndn-cxx/mgmt/nfd/rib-entry.hpp:208-211] RibEntry *)
Record t := mk {
  m_prefix : Name.t;
  m_routes : list Route.t;
  m_wire : Block.t;
}.

Definition with_prefix x s := mk x (m_routes s) (m_wire s).
Definition with_routes x s := mk (m_prefix s) x (m_wire s).
Definition with_wire x s := mk (m_prefix s) (m_routes s) x.

(** [ndn-cxx/mgmt/nfd/rib-entry.cpp:223-223] RibEntry::RibEntry() *)
Definition init : t := mk Name.empty [] Block.empty.

(** [ndn-cxx/mgmt/nfd/rib-entry.cpp:230-236] RibEntry::setName *)
Definition setName (x : Name.t) : M t unit := _ ← modify (with_prefix x); modify (with_wire Block.empty).

(** [ndn-cxx/mgmt/nfd/rib-entry.cpp:238-244] RibEntry::addRoute *)
Definition addRoute (x : Route.t) : M t unit :=
  _ ← modify (fun s => with_routes (m_routes s ++ [x]) s); modify (with_wire Block.empty).

(** [ndn-cxx/mgmt/nfd/rib-entry.cpp:246-252] RibEntry::clearRoutes *)
Definition clearRoutes : M t unit := _ ← modify (with_routes []); modify (with_wire Block.empty).

(** [ndn-cxx/mgmt/nfd/rib-entry.hpp:182-189] RibEntry::setRoutes *)
Definition setRoutes (range : list Route.t) : M t unit := _ ← modify (with_routes range); modify (with_wire Block.empty).

(** [ndn-cxx/mgmt/nfd/rib-entry.cpp:254-268] RibEntry::wireEncode(EncodingImpl&) *)
Definition wireEncode_template (s : t) : prepender :=
  pTL tlv_nfd.RibEntry
    (pReversed Route.wireEncode_template (m_routes s) ;+
     Name.wireEncode_template (m_prefix s)).

(** [ndn-cxx/mgmt/nfd/rib-entry.cpp:272-286] RibEntry::wireEncode *)
Definition wireEncode : M t Block.t := cachedEncode m_wire with_wire wireEncode_template.

(** [ndn-cxx/mgmt/nfd/rib-entry.cpp:309-314] RibEntry::wireDecode (the loop) *)
Definition decode_elements (val : list Block.t) : M t unit :=
  forM val (fun v =>
    _ ← throwM_if (negb (Block.type v =? tlv_nfd.Route)) (PacketError "Route");
    x ← liftR (Route.ofBlock v);
    modify (fun s => with_routes (m_routes s ++ [x]) s)).

(** [ndn-cxx/mgmt/nfd/rib-entry.cpp:288-315] RibEntry::wireDecode *)
Definition wireDecode (block : Block.t) : M t unit :=
  _ ← throwM_if (negb (Block.type block =? tlv_nfd.RibEntry)) (PacketError "RibEntry");
  _ ← assignParsed with_wire block;
  s ← self;
  let val := Block.elements (m_wire s) in
  val ← expected_field tlv.Name "unexpected end of RibEntry" "Name" val (fun v => zoom m_prefix with_prefix (nameWireDecode v));
  _ ← modify (with_routes []);
  decode_elements val.

(** [ndn-cxx/mgmt/nfd/rib-entry.cpp:225-228] RibEntry::RibEntry(const Block&)
    A member that the constructor leaves unset is overwritten, or the decoder throws. *)
Definition ofBlock (block : Block.t) : result t := exec (wireDecode block) init.

(** [ndn-cxx/mgmt/nfd/rib-entry.cpp:317-338] operator==(const RibEntry&, const RibEntry&) *)
Definition eqb (a b : t) : bool :=
  Name.equals (m_prefix a) (m_prefix b) && same_elements Route.eqb (m_routes a) (m_routes b).

End RibEntry.

(** ** StrategyChoice *)

Module StrategyChoice.

(** [ndn-cxx/mgmt/nfd/strategy-choice.hpp:80-83] StrategyChoice *)
Record t := mk {
  m_name : Name.t;
  m_strategy : Name.t;
  m_wire : Block.t;
}.

Definition with_name x s := mk x (m_strategy s) (m_wire s).
Definition with_strategy x s := mk (m_name s) x (m_wire s).
Definition with_wire x s := mk (m_name s) (m_strategy s) x.

(** [ndn-cxx/mgmt/nfd/strategy-choice.cpp:33-33] StrategyChoice::StrategyChoice() *)
Definition init : t := mk Name.empty Name.empty Block.empty.

(** [ndn-cxx/mgmt/nfd/strategy-choice.cpp:40-52] StrategyChoice::wireEncode(EncodingImpl&) *)
Definition wireEncode_template (s : t) : prepender :=
  pTL tlv_nfd.StrategyChoice
    (encoding.prependNestedBlock tlv_nfd.Strategy (m_strategy s) ;+
     Name.wireEncode_template (m_name s)).

(** [ndn-cxx/mgmt/nfd/strategy-choice.cpp:56-70] StrategyChoice::wireEncode *)
Definition wireEncode : M t Block.t := cachedEncode m_wire with_wire wireEncode_template.

(** [ndn-cxx/mgmt/nfd/strategy-choice.cpp:92-98] StrategyChoice::wireDecode (the strategy)
    [val->parse()] fills the list of elements of that element only. *)
Definition decode_strategy (v : Block.t) : M t unit :=
  v ← liftR (Block.parsed v);
  match Block.elements v with
  | [] => throwM (PacketError "expecting Strategy/Name")
  | n :: _ => zoom m_strategy with_strategy (nameWireDecode n)
  end.

(** [ndn-cxx/mgmt/nfd/strategy-choice.cpp:72-104] StrategyChoice::wireDecode *)
Definition wireDecode (block : Block.t) : M t unit :=
  _ ← throwM_if (negb (Block.type block =? tlv_nfd.StrategyChoice)) (PacketError "StrategyChoice");
  _ ← assignParsed with_wire block;
  s ← self;
  let val := Block.elements (m_wire s) in
  val ← required_field tlv.Name "missing required Name field" val (fun v => zoom m_name with_name (nameWireDecode v));
  _ ← required_field tlv_nfd.Strategy "missing required Strategy field" val (decode_strategy);
  mret tt.

(** [ndn-cxx/mgmt/nfd/strategy-choice.cpp:35-38] StrategyChoice::StrategyChoice(const Block&) *)
Definition ofBlock (block : Block.t) : result t := exec (wireDecode block) init.

(** [ndn-cxx/mgmt/nfd/strategy-choice.cpp:106-112] StrategyChoice::setName *)
Definition setName (x : Name.t) : M t unit := _ ← modify (with_wire Block.empty); modify (with_name x).

(** [ndn-cxx/mgmt/nfd/strategy-choice.cpp:114-120] StrategyChoice::setStrategy *)
Definition setStrategy (x : Name.t) : M t unit := _ ← modify (with_wire Block.empty); modify (with_strategy x).

(** [ndn-cxx/mgmt/nfd/strategy-choice.cpp:122-126] operator==(const StrategyChoice&, const StrategyChoice&) *)
Definition eqb (a b : t) : bool := Name.equals (m_name a) (m_name b) && Name.equals (m_strategy a) (m_strategy b).

End StrategyChoice.

(** ** ForwarderStatus *)

Module ForwarderStatus.

(** [ndn-cxx/mgmt/nfd/forwarder-status.hpp:218-235] ForwarderStatus *)
Record t := mk {
  m_nfdVersion : bytes;
  m_startTimestamp : Z;
  m_currentTimestamp : Z;
  m_nNameTreeEntries : Z;
  m_nFibEntries : Z;
  m_nPitEntries : Z;
  m_nMeasurementsEntries : Z;
  m_nCsEntries : Z;
  m_nInInterests : Z;
  m_nInData : Z;
  m_nInNacks : Z;
  m_nOutInterests : Z;
  m_nOutData : Z;
  m_nOutNacks : Z;
  m_nSatisfiedInterests : Z;
  m_nUnsatisfiedInterests : Z;
  m_wire : Block.t;
}.

Definition with_nfdVersion x s := mk x (m_startTimestamp s) (m_currentTimestamp s) (m_nNameTreeEntries s) (m_nFibEntries s) (m_nPitEntries s) (m_nMeasurementsEntries s) (m_nCsEntries s) (m_nInInterests s) (m_nInData s) (m_nInNacks s) (m_nOutInterests s) (m_nOutData s) (m_nOutNacks s) (m_nSatisfiedInterests s) (m_nUnsatisfiedInterests s) (m_wire s).
Definition with_startTimestamp x s := mk (m_nfdVersion s) x (m_currentTimestamp s) (m_nNameTreeEntries s) (m_nFibEntries s) (m_nPitEntries s) (m_nMeasurementsEntries s) (m_nCsEntries s) (m_nInInterests s) (m_nInData s) (m_nInNacks s) (m_nOutInterests s) (m_nOutData s) (m_nOutNacks s) (m_nSatisfiedInterests s) (m_nUnsatisfiedInterests s) (m_wire s).
Definition with_currentTimestamp x s := mk (m_nfdVersion s) (m_startTimestamp s) x (m_nNameTreeEntries s) (m_nFibEntries s) (m_nPitEntries s) (m_nMeasurementsEntries s) (m_nCsEntries s) (m_nInInterests s) (m_nInData s) (m_nInNacks s) (m_nOutInterests s) (m_nOutData s) (m_nOutNacks s) (m_nSatisfiedInterests s) (m_nUnsatisfiedInterests s) (m_wire s).
Definition with_nNameTreeEntries x s := mk (m_nfdVersion s) (m_startTimestamp s) (m_currentTimestamp s) x (m_nFibEntries s) (m_nPitEntries s) (m_nMeasurementsEntries s) (m_nCsEntries s) (m_nInInterests s) (m_nInData s) (m_nInNacks s) (m_nOutInterests s) (m_nOutData s) (m_nOutNacks s) (m_nSatisfiedInterests s) (m_nUnsatisfiedInterests s) (m_wire s).
Definition with_nFibEntries x s := mk (m_nfdVersion s) (m_startTimestamp s) (m_currentTimestamp s) (m_nNameTreeEntries s) x (m_nPitEntries s) (m_nMeasurementsEntries s) (m_nCsEntries s) (m_nInInterests s) (m_nInData s) (m_nInNacks s) (m_nOutInterests s) (m_nOutData s) (m_nOutNacks s) (m_nSatisfiedInterests s) (m_nUnsatisfiedInterests s) (m_wire s).
Definition with_nPitEntries x s := mk (m_nfdVersion s) (m_startTimestamp s) (m_currentTimestamp s) (m_nNameTreeEntries s) (m_nFibEntries s) x (m_nMeasurementsEntries s) (m_nCsEntries s) (m_nInInterests s) (m_nInData s) (m_nInNacks s) (m_nOutInterests s) (m_nOutData s) (m_nOutNacks s) (m_nSatisfiedInterests s) (m_nUnsatisfiedInterests s) (m_wire s).
Definition with_nMeasurementsEntries x s := mk (m_nfdVersion s) (m_startTimestamp s) (m_currentTimestamp s) (m_nNameTreeEntries s) (m_nFibEntries s) (m_nPitEntries s) x (m_nCsEntries s) (m_nInInterests s) (m_nInData s) (m_nInNacks s) (m_nOutInterests s) (m_nOutData s) (m_nOutNacks s) (m_nSatisfiedInterests s) (m_nUnsatisfiedInterests s) (m_wire s).
Definition with_nCsEntries x s := mk (m_nfdVersion s) (m_startTimestamp s) (m_currentTimestamp s) (m_nNameTreeEntries s) (m_nFibEntries s) (m_nPitEntries s) (m_nMeasurementsEntries s) x (m_nInInterests s) (m_nInData s) (m_nInNacks s) (m_nOutInterests s) (m_nOutData s) (m_nOutNacks s) (m_nSatisfiedInterests s) (m_nUnsatisfiedInterests s) (m_wire s).
Definition with_nInInterests x s := mk (m_nfdVersion s) (m_startTimestamp s) (m_currentTimestamp s) (m_nNameTreeEntries s) (m_nFibEntries s) (m_nPitEntries s) (m_nMeasurementsEntries s) (m_nCsEntries s) x (m_nInData s) (m_nInNacks s) (m_nOutInterests s) (m_nOutData s) (m_nOutNacks s) (m_nSatisfiedInterests s) (m_nUnsatisfiedInterests s) (m_wire s).
Definition with_nInData x s := mk (m_nfdVersion s) (m_startTimestamp s) (m_currentTimestamp s) (m_nNameTreeEntries s) (m_nFibEntries s) (m_nPitEntries s) (m_nMeasurementsEntries s) (m_nCsEntries s) (m_nInInterests s) x (m_nInNacks s) (m_nOutInterests s) (m_nOutData s) (m_nOutNacks s) (m_nSatisfiedInterests s) (m_nUnsatisfiedInterests s) (m_wire s).
Definition with_nInNacks x s := mk (m_nfdVersion s) (m_startTimestamp s) (m_currentTimestamp s) (m_nNameTreeEntries s) (m_nFibEntries s) (m_nPitEntries s) (m_nMeasurementsEntries s) (m_nCsEntries s) (m_nInInterests s) (m_nInData s) x (m_nOutInterests s) (m_nOutData s) (m_nOutNacks s) (m_nSatisfiedInterests s) (m_nUnsatisfiedInterests s) (m_wire s).
Definition with_nOutInterests x s := mk (m_nfdVersion s) (m_startTimestamp s) (m_currentTimestamp s) (m_nNameTreeEntries s) (m_nFibEntries s) (m_nPitEntries s) (m_nMeasurementsEntries s) (m_nCsEntries s) (m_nInInterests s) (m_nInData s) (m_nInNacks s) x (m_nOutData s) (m_nOutNacks s) (m_nSatisfiedInterests s) (m_nUnsatisfiedInterests s) (m_wire s).
Definition with_nOutData x s := mk (m_nfdVersion s) (m_startTimestamp s) (m_currentTimestamp s) (m_nNameTreeEntries s) (m_nFibEntries s) (m_nPitEntries s) (m_nMeasurementsEntries s) (m_nCsEntries s) (m_nInInterests s) (m_nInData s) (m_nInNacks s) (m_nOutInterests s) x (m_nOutNacks s) (m_nSatisfiedInterests s) (m_nUnsatisfiedInterests s) (m_wire s).
Definition with_nOutNacks x s := mk (m_nfdVersion s) (m_startTimestamp s) (m_currentTimestamp s) (m_nNameTreeEntries s) (m_nFibEntries s) (m_nPitEntries s) (m_nMeasurementsEntries s) (m_nCsEntries s) (m_nInInterests s) (m_nInData s) (m_nInNacks s) (m_nOutInterests s) (m_nOutData s) x (m_nSatisfiedInterests s) (m_nUnsatisfiedInterests s) (m_wire s).
Definition with_nSatisfiedInterests x s := mk (m_nfdVersion s) (m_startTimestamp s) (m_currentTimestamp s) (m_nNameTreeEntries s) (m_nFibEntries s) (m_nPitEntries s) (m_nMeasurementsEntries s) (m_nCsEntries s) (m_nInInterests s) (m_nInData s) (m_nInNacks s) (m_nOutInterests s) (m_nOutData s) (m_nOutNacks s) x (m_nUnsatisfiedInterests s) (m_wire s).
Definition with_nUnsatisfiedInterests x s := mk (m_nfdVersion s) (m_startTimestamp s) (m_currentTimestamp s) (m_nNameTreeEntries s) (m_nFibEntries s) (m_nPitEntries s) (m_nMeasurementsEntries s) (m_nCsEntries s) (m_nInInterests s) (m_nInData s) (m_nInNacks s) (m_nOutInterests s) (m_nOutData s) (m_nOutNacks s) (m_nSatisfiedInterests s) x (m_wire s).
Definition with_wire x s := mk (m_nfdVersion s) (m_startTimestamp s) (m_currentTimestamp s) (m_nNameTreeEntries s) (m_nFibEntries s) (m_nPitEntries s) (m_nMeasurementsEntries s) (m_nCsEntries s) (m_nInInterests s) (m_nInData s) (m_nInNacks s) (m_nOutInterests s) (m_nOutData s) (m_nOutNacks s) (m_nSatisfiedInterests s) (m_nUnsatisfiedInterests s) x.

(** [ndn-cxx/mgmt/nfd/forwarder-status.cpp:33-48] ForwarderStatus::ForwarderStatus() *)
Definition init : t := mk [] 0 0 0 0 0 0 0 0 0 0 0 0 0 0 0 Block.empty.

(** [ndn-cxx/mgmt/nfd/forwarder-status.cpp:55-83] ForwarderStatus::wireEncode(EncodingImpl&) *)
Definition wireEncode_template (s : t) : prepender :=
  pTL tlv.Content
    (encoding.prependNonNegativeIntegerBlock tlv_nfd.NUnsatisfiedInterests (m_nUnsatisfiedInterests s) ;+
     encoding.prependNonNegativeIntegerBlock tlv_nfd.NSatisfiedInterests (m_nSatisfiedInterests s) ;+
     encoding.prependNonNegativeIntegerBlock tlv_nfd.NOutNacks (m_nOutNacks s) ;+
     encoding.prependNonNegativeIntegerBlock tlv_nfd.NOutData (m_nOutData s) ;+
     encoding.prependNonNegativeIntegerBlock tlv_nfd.NOutInterests (m_nOutInterests s) ;+
     encoding.prependNonNegativeIntegerBlock tlv_nfd.NInNacks (m_nInNacks s) ;+
     encoding.prependNonNegativeIntegerBlock tlv_nfd.NInData (m_nInData s) ;+
     encoding.prependNonNegativeIntegerBlock tlv_nfd.NInInterests (m_nInInterests s) ;+
     encoding.prependNonNegativeIntegerBlock tlv_nfd.NCsEntries (m_nCsEntries s) ;+
     encoding.prependNonNegativeIntegerBlock tlv_nfd.NMeasurementsEntries (m_nMeasurementsEntries s) ;+
     encoding.prependNonNegativeIntegerBlock tlv_nfd.NPitEntries (m_nPitEntries s) ;+
     encoding.prependNonNegativeIntegerBlock tlv_nfd.NFibEntries (m_nFibEntries s) ;+
     encoding.prependNonNegativeIntegerBlock tlv_nfd.NNameTreeEntries (m_nNameTreeEntries s) ;+
     encoding.prependNonNegativeIntegerBlock tlv_nfd.CurrentTimestamp (u64 (time.toUnixTimestamp (m_currentTimestamp s))) ;+
     encoding.prependNonNegativeIntegerBlock tlv_nfd.StartTimestamp (u64 (time.toUnixTimestamp (m_startTimestamp s))) ;+
     encoding.prependStringBlock tlv_nfd.NfdVersion (m_nfdVersion s)).

(** [ndn-cxx/mgmt/nfd/forwarder-status.cpp:87-101] ForwarderStatus::wireEncode *)
Definition wireEncode : M t Block.t := cachedEncode m_wire with_wire wireEncode_template.

(** [ndn-cxx/mgmt/nfd/forwarder-status.cpp:103-241] ForwarderStatus::wireDecode *)
Definition wireDecode (block : Block.t) : M t unit :=
  _ ← throwM_if (negb (Block.type block =? tlv.Content)) (PacketError "Content");
  _ ← assignParsed with_wire block;
  s ← self;
  let val := Block.elements (m_wire s) in
  val ← required_field tlv_nfd.NfdVersion "missing required NfdVersion field" val (readText with_nfdVersion);
  val ← required_field tlv_nfd.StartTimestamp "missing required StartTimestamp field" val (readTimestamp with_startTimestamp);
  val ← required_field tlv_nfd.CurrentTimestamp "missing required CurrentTimestamp field" val (readTimestamp with_currentTimestamp);
  val ← required_field tlv_nfd.NNameTreeEntries "missing required NNameTreeEntries field" val (readNumber with_nNameTreeEntries);
  val ← required_field tlv_nfd.NFibEntries "missing required NFibEntries field" val (readNumber with_nFibEntries);
  val ← required_field tlv_nfd.NPitEntries "missing required NPitEntries field" val (readNumber with_nPitEntries);
  val ← required_field tlv_nfd.NMeasurementsEntries "missing required NMeasurementsEntries field" val (readNumber with_nMeasurementsEntries);
  val ← required_field tlv_nfd.NCsEntries "missing required NCsEntries field" val (readNumber with_nCsEntries);
  val ← required_field tlv_nfd.NInInterests "missing required NInInterests field" val (readNumber with_nInInterests);
  val ← required_field tlv_nfd.NInData "missing required NInData field" val (readNumber with_nInData);
  val ← required_field tlv_nfd.NInNacks "missing required NInNacks field" val (readNumber with_nInNacks);
  val ← required_field tlv_nfd.NOutInterests "missing required NOutInterests field" val (readNumber with_nOutInterests);
  val ← required_field tlv_nfd.NOutData "missing required NOutData field" val (readNumber with_nOutData);
  val ← required_field tlv_nfd.NOutNacks "missing required NOutNacks field" val (readNumber with_nOutNacks);
  val ← required_field tlv_nfd.NSatisfiedInterests "missing required NSatisfiedInterests field" val (readNumber with_nSatisfiedInterests);
  _ ← required_field tlv_nfd.NUnsatisfiedInterests "missing required NUnsatisfiedInterests field" val (readNumber with_nUnsatisfiedInterests);
  mret tt.

(** [ndn-cxx/mgmt/nfd/forwarder-status.cpp:50-53] ForwarderStatus::ForwarderStatus(const Block&)
    A member that the constructor leaves unset is overwritten, or the decoder throws. *)
Definition ofBlock (block : Block.t) : result t := exec (wireDecode block) init.

(** [ndn-cxx/mgmt/nfd/forwarder-status.cpp:243-249] ForwarderStatus::setNfdVersion *)
Definition setNfdVersion (x : bytes) : M t unit := _ ← modify (with_wire Block.empty); modify (with_nfdVersion x).

(** [ndn-cxx/mgmt/nfd/forwarder-status.cpp:251-257] ForwarderStatus::setStartTimestamp *)
Definition setStartTimestamp (x : Z) : M t unit := _ ← modify (with_wire Block.empty); modify (with_startTimestamp x).

(** [ndn-cxx/mgmt/nfd/forwarder-status.cpp:259-265] ForwarderStatus::setCurrentTimestamp *)
Definition setCurrentTimestamp (x : Z) : M t unit := _ ← modify (with_wire Block.empty); modify (with_currentTimestamp x).

(** [ndn-cxx/mgmt/nfd/forwarder-status.cpp:267-273] ForwarderStatus::setNNameTreeEntries *)
Definition setNNameTreeEntries (x : Z) : M t unit := _ ← modify (with_wire Block.empty); modify (with_nNameTreeEntries x).

(** [ndn-cxx/mgmt/nfd/forwarder-status.cpp:275-281] ForwarderStatus::setNFibEntries *)
Definition setNFibEntries (x : Z) : M t unit := _ ← modify (with_wire Block.empty); modify (with_nFibEntries x).

(** [ndn-cxx/mgmt/nfd/forwarder-status.cpp:283-289] ForwarderStatus::setNPitEntries *)
Definition setNPitEntries (x : Z) : M t unit := _ ← modify (with_wire Block.empty); modify (with_nPitEntries x).

(** [ndn-cxx/mgmt/nfd/forwarder-status.cpp:291-297] ForwarderStatus::setNMeasurementsEntries *)
Definition setNMeasurementsEntries (x : Z) : M t unit := _ ← modify (with_wire Block.empty); modify (with_nMeasurementsEntries x).

(** [ndn-cxx/mgmt/nfd/forwarder-status.cpp:299-305] ForwarderStatus::setNCsEntries *)
Definition setNCsEntries (x : Z) : M t unit := _ ← modify (with_wire Block.empty); modify (with_nCsEntries x).

(** [ndn-cxx/mgmt/nfd/forwarder-status.cpp:307-313] ForwarderStatus::setNInInterests *)
Definition setNInInterests (x : Z) : M t unit := _ ← modify (with_wire Block.empty); modify (with_nInInterests x).

(** [ndn-cxx/mgmt/nfd/forwarder-status.cpp:315-321] ForwarderStatus::setNInData *)
Definition setNInData (x : Z) : M t unit := _ ← modify (with_wire Block.empty); modify (with_nInData x).

(** [ndn-cxx/mgmt/nfd/forwarder-status.cpp:323-329] ForwarderStatus::setNInNacks *)
Definition setNInNacks (x : Z) : M t unit := _ ← modify (with_wire Block.empty); modify (with_nInNacks x).

(** [ndn-cxx/mgmt/nfd/forwarder-status.cpp:331-337] ForwarderStatus::setNOutInterests *)
Definition setNOutInterests (x : Z) : M t unit := _ ← modify (with_wire Block.empty); modify (with_nOutInterests x).

(** [ndn-cxx/mgmt/nfd/forwarder-status.cpp:339-345] ForwarderStatus::setNOutData *)
Definition setNOutData (x : Z) : M t unit := _ ← modify (with_wire Block.empty); modify (with_nOutData x).

(** [ndn-cxx/mgmt/nfd/forwarder-status.cpp:347-353] ForwarderStatus::setNOutNacks *)
Definition setNOutNacks (x : Z) : M t unit := _ ← modify (with_wire Block.empty); modify (with_nOutNacks x).

(** [ndn-cxx/mgmt/nfd/forwarder-status.cpp:355-361] ForwarderStatus::setNSatisfiedInterests *)
Definition setNSatisfiedInterests (x : Z) : M t unit := _ ← modify (with_wire Block.empty); modify (with_nSatisfiedInterests x).

(** [ndn-cxx/mgmt/nfd/forwarder-status.cpp:363-369] ForwarderStatus::setNUnsatisfiedInterests *)
Definition setNUnsatisfiedInterests (x : Z) : M t unit := _ ← modify (with_wire Block.empty); modify (with_nUnsatisfiedInterests x).

(** [ndn-cxx/mgmt/nfd/forwarder-status.cpp:371-390] operator==(const ForwarderStatus&, const ForwarderStatus&) *)
Definition eqb (a b : t) : bool :=
  bytes_eqb (m_nfdVersion a) (m_nfdVersion b) && (m_startTimestamp a =? m_startTimestamp b) && (m_currentTimestamp a =? m_currentTimestamp b) &&
  (m_nNameTreeEntries a =? m_nNameTreeEntries b) && (m_nFibEntries a =? m_nFibEntries b) && (m_nPitEntries a =? m_nPitEntries b) && (m_nMeasurementsEntries a =? m_nMeasurementsEntries b) && (m_nCsEntries a =? m_nCsEntries b) && (m_nInInterests a =? m_nInInterests b) && (m_nInData a =? m_nInData b) && (m_nInNacks a =? m_nInNacks b) && (m_nOutInterests a =? m_nOutInterests b) && (m_nOutData a =? m_nOutData b) && (m_nOutNacks a =? m_nOutNacks b) && (m_nSatisfiedInterests a =? m_nSatisfiedInterests b) && (m_nUnsatisfiedInterests a =? m_nUnsatisfiedInterests b).

End ForwarderStatus.

(** ** Datasets *)

(** What a record offers to the datasets, as the concept [StatusDatasetItem]
    asks for. *)
Class StatusDatasetItem (T : Type) := {
  item_type : Z;
  item_init : T;
  item_wire : T -> Block.t;
  item_template : T -> prepender;
  item_wireEncode : M T Block.t;
  item_wireDecode : Block.t -> M T unit;
  item_eqb : T -> T -> bool;
}.

(** The constructor that decodes. *)
Definition item_ofBlock {T} `{StatusDatasetItem T} (block : Block.t) : result T := exec (item_wireDecode block) item_init.

#[export] Instance ChannelStatus_item : StatusDatasetItem ChannelStatus.t := {|
  item_type := tlv_nfd.ChannelStatus; item_init := ChannelStatus.init; item_wire := ChannelStatus.m_wire;
  item_template := ChannelStatus.wireEncode_template; item_wireEncode := ChannelStatus.wireEncode;
  item_wireDecode := ChannelStatus.wireDecode; item_eqb := ChannelStatus.eqb |}.
#[export] Instance CsInfo_item : StatusDatasetItem CsInfo.t := {|
  item_type := tlv_nfd.CsInfo; item_init := CsInfo.init; item_wire := CsInfo.m_wire;
  item_template := CsInfo.wireEncode_template; item_wireEncode := CsInfo.wireEncode;
  item_wireDecode := CsInfo.wireDecode; item_eqb := CsInfo.eqb |}.
#[export] Instance FaceEventNotification_item : StatusDatasetItem FaceEventNotification.t := {|
  item_type := tlv_nfd.FaceEventNotification; item_init := FaceEventNotification.init;
  item_wire := fun s => FaceTraits.m_wire (FaceEventNotification.m_base s);
  item_template := FaceEventNotification.wireEncode_template; item_wireEncode := FaceEventNotification.wireEncode;
  item_wireDecode := FaceEventNotification.wireDecode; item_eqb := FaceEventNotification.eqb |}.
#[export] Instance FaceStatus_item : StatusDatasetItem FaceStatus.t := {|
  item_type := tlv_nfd.FaceStatus; item_init := FaceStatus.init;
  item_wire := fun s => FaceTraits.m_wire (FaceStatus.m_base s);
  item_template := FaceStatus.wireEncode_template; item_wireEncode := FaceStatus.wireEncode;
  item_wireDecode := FaceStatus.wireDecode; item_eqb := FaceStatus.eqb |}.
#[export] Instance FaceQueryFilter_item : StatusDatasetItem FaceQueryFilter.t := {|
  item_type := tlv_nfd.FaceQueryFilter; item_init := FaceQueryFilter.init; item_wire := FaceQueryFilter.m_wire;
  item_template := FaceQueryFilter.wireEncode_template; item_wireEncode := FaceQueryFilter.wireEncode;
  item_wireDecode := FaceQueryFilter.wireDecode; item_eqb := FaceQueryFilter.eqb |}.
#[export] Instance NextHopRecord_item : StatusDatasetItem NextHopRecord.t := {|
  item_type := tlv_nfd.NextHopRecord; item_init := NextHopRecord.init; item_wire := NextHopRecord.m_wire;
  item_template := NextHopRecord.wireEncode_template; item_wireEncode := NextHopRecord.wireEncode;
  item_wireDecode := NextHopRecord.wireDecode; item_eqb := NextHopRecord.eqb |}.
#[export] Instance FibEntry_item : StatusDatasetItem FibEntry.t := {|
  item_type := tlv_nfd.FibEntry; item_init := FibEntry.init; item_wire := FibEntry.m_wire;
  item_template := FibEntry.wireEncode_template; item_wireEncode := FibEntry.wireEncode;
  item_wireDecode := FibEntry.wireDecode; item_eqb := FibEntry.eqb |}.
#[export] Instance Route_item : StatusDatasetItem Route.t := {|
  item_type := tlv_nfd.Route; item_init := Route.init; item_wire := Route.m_wire;
  item_template := Route.wireEncode_template; item_wireEncode := Route.wireEncode;
  item_wireDecode := Route.wireDecode; item_eqb := Route.eqb |}.
#[export] Instance RibEntry_item : StatusDatasetItem RibEntry.t := {|
  item_type := tlv_nfd.RibEntry; item_init := RibEntry.init; item_wire := RibEntry.m_wire;
  item_template := RibEntry.wireEncode_template; item_wireEncode := RibEntry.wireEncode;
  item_wireDecode := RibEntry.wireDecode; item_eqb := RibEntry.eqb |}.
#[export] Instance StrategyChoice_item : StatusDatasetItem StrategyChoice.t := {|
  item_type := tlv_nfd.StrategyChoice; item_init := StrategyChoice.init; item_wire := StrategyChoice.m_wire;
  item_template := StrategyChoice.wireEncode_template; item_wireEncode := StrategyChoice.wireEncode;
  item_wireDecode := StrategyChoice.wireDecode; item_eqb := StrategyChoice.eqb |}.
#[export] Instance ForwarderStatus_item : StatusDatasetItem ForwarderStatus.t := {|
  item_type := tlv.Content; item_init := ForwarderStatus.init; item_wire := ForwarderStatus.m_wire;
  item_template := ForwarderStatus.wireEncode_template; item_wireEncode := ForwarderStatus.wireEncode;
  item_wireDecode := ForwarderStatus.wireDecode; item_eqb := ForwarderStatus.eqb |}.

Module StatusDataset.

(** [ndn-cxx/mgmt/nfd/status-dataset.cpp:64-75] parseDatasetVector (the loop)
    [None] when the fuel does not suffice. *)
Fixpoint parse_loop {T} `{StatusDatasetItem T} (fuel : nat) (payload : bytes) (offset : nat) (items : list T) : option (result (list T)) :=
  match fuel with
  | O => None
  | S fuel =>
      if (offset <? length payload)%nat then
        match Block.fromBuffer payload offset with
        | None => Some (Throw (PacketError "cannot decode Block"))
        | Some block =>
            match (n ← Block.size block; x ← item_ofBlock block; Ok (n, x)) with
            | Throw e => Some (Throw e)
            | Ok (n, x) => parse_loop fuel payload (offset + Z.to_nat n) (items ++ [x])
            end
        end
      else Some (Ok items)
  end.

(** [ndn-cxx/mgmt/nfd/status-dataset.cpp:56-78] parseDatasetVector *)
Definition parseDatasetVector {T} `{StatusDatasetItem T} (payload : bytes) : option (result (list T)) :=
  parse_loop (S (length payload)) payload 0 [].

(** [ndn-cxx/mgmt/nfd/status-dataset.hpp:104-108] StatusDataset
    The name, and the overridden [addParameters]. *)
Record t := mk { m_datasetName : Name.t; addParameters : Name.t -> result Name.t }.

(** [ndn-cxx/mgmt/nfd/status-dataset.cpp:44-47] StatusDataset::addParameters *)
Definition no_parameters (name : Name.t) : result Name.t := Ok name.

(** [ndn-cxx/mgmt/nfd/status-dataset.cpp:28-31] StatusDataset::StatusDataset *)
Definition make (datasetName : bytes) (addParameters : Name.t -> result Name.t) : result t :=
  n ← Name.fromUri datasetName; Ok (mk n addParameters).

(** [ndn-cxx/mgmt/nfd/status-dataset.cpp:35-42] StatusDataset::getDatasetPrefix *)
Definition getDatasetPrefix (d : t) (prefix : Name.t) : result Name.t :=
  name ← Name.appendName prefix Name.empty;
  name ← Name.appendName (m_datasetName d) name;
  addParameters d name.

(** [ndn-cxx/mgmt/nfd/status-dataset.cpp:80-83] ForwarderGeneralStatusDataset *)
Definition ForwarderGeneralStatusDataset : result t := make (str "status/general") no_parameters.
(** [ndn-cxx/mgmt/nfd/status-dataset.cpp:102-105] FaceDataset *)
Definition FaceDataset : result t := make (str "faces/list") no_parameters.
(** [ndn-cxx/mgmt/nfd/status-dataset.cpp:113-118] FaceQueryDataset::addParameters *)
Definition addFilter (filter : FaceQueryFilter.t) (name : Name.t) : result Name.t :=
  filterBlock ← snd (FaceQueryFilter.wireEncode filter);
  w ← Block.wire filterBlock;
  c ← Component.ofRange tlv.GenericNameComponent w;
  Ok (Name.append c name).
(** [ndn-cxx/mgmt/nfd/status-dataset.cpp:107-111] FaceQueryDataset *)
Definition FaceQueryDataset (filter : FaceQueryFilter.t) : result t := make (str "faces/query") (addFilter filter).
(** [ndn-cxx/mgmt/nfd/status-dataset.cpp:120-123] ChannelDataset *)
Definition ChannelDataset : result t := make (str "faces/channels") no_parameters.
(** [ndn-cxx/mgmt/nfd/status-dataset.cpp:131-134] FibDataset *)
Definition FibDataset : result t := make (str "fib/list") no_parameters.
(** [ndn-cxx/mgmt/nfd/status-dataset.cpp:142-145] CsInfoDataset *)
Definition CsInfoDataset : result t := make (str "cs/info") no_parameters.
(** [ndn-cxx/mgmt/nfd/status-dataset.cpp:153-156] StrategyChoiceDataset *)
Definition StrategyChoiceDataset : result t := make (str "strategy-choice/list") no_parameters.
(** [ndn-cxx/mgmt/nfd/status-dataset.cpp:164-167] RibDataset *)
Definition RibDataset : result t := make (str "rib/list") no_parameters.

(** [ndn-cxx/mgmt/nfd/status-dataset.cpp:85-89] ForwarderGeneralStatusDataset::parseResult *)
Definition parseGeneralStatus (payload : bytes) : result ForwarderStatus.t :=
  ForwarderStatus.ofBlock (Block.ofTypeValue tlv.Content payload).
(** [ndn-cxx/mgmt/nfd/status-dataset.cpp:96-100] FaceDatasetBase::parseResult *)
Definition parseFaces (payload : bytes) : option (result (list FaceStatus.t)) := parseDatasetVector payload.
(** [ndn-cxx/mgmt/nfd/status-dataset.cpp:125-129] ChannelDataset::parseResult *)
Definition parseChannels (payload : bytes) : option (result (list ChannelStatus.t)) := parseDatasetVector payload.
(** [ndn-cxx/mgmt/nfd/status-dataset.cpp:136-140] FibDataset::parseResult *)
Definition parseFib (payload : bytes) : option (result (list FibEntry.t)) := parseDatasetVector payload.
(** [ndn-cxx/mgmt/nfd/status-dataset.cpp:147-151] CsInfoDataset::parseResult *)
Definition parseCsInfo (payload : bytes) : result CsInfo.t := b ← Block.fromBufferPtr payload; CsInfo.ofBlock b.
(** [ndn-cxx/mgmt/nfd/status-dataset.cpp:158-162] StrategyChoiceDataset::parseResult *)
Definition parseStrategyChoices (payload : bytes) : option (result (list StrategyChoice.t)) := parseDatasetVector payload.
(** [ndn-cxx/mgmt/nfd/status-dataset.cpp:169-173] RibDataset::parseResult *)
Definition parseRib (payload : bytes) : option (result (list RibEntry.t)) := parseDatasetVector payload.

End StatusDataset.
