(* ===== verification/NfdStatusFacts.v ===== *)
(** What the records of the NFD management protocol promise: an interface that
    every record of [NfdStatus] fulfils, and the theorems on caching, round
    trips and datasets proved against it. *)

From Stdlib Require Import Permutation.
From S2P Require Import Prelude Tlv Encoding Blocks BlockHelpers Text NameComponents Names Fields DataPacket Announcements NfdStatus.

Module RecordFacts.
Import FieldFacts DataFacts.

(** *** Slots

    The fields of a record in the order of the wire, each with its value if it
    is present. *)

Fixpoint present (l : list (Z * option bytes)) : list (Z * bytes) :=
  match l with
  | [] => []
  | (ty, Some v) :: l => (ty, v) :: present l
  | (_, None) :: l => present l
  end.

Lemma present_app l k : present (l ++ k) = present l ++ present k.
Proof. induction l as [|[ty [v|]] l IH]; cbn; [done|by rewrite IH|done]. Qed.

Lemma present_types l : Forall (fun x => is_tlv_type x.1) l -> Forall (fun x => is_tlv_type x.1) (present l).
Proof. induction 1 as [|[ty [v|]] l Hx _ IH]; [constructor|by constructor|done]. Qed.

Lemma present_other ty l : forallb (fun x => negb (x.1 =? ty)) l = true -> Forall (fun x => x.1 <> ty) (present l).
Proof.
  induction l as [|[ty' [v|]] l IH]; cbn; rewrite ?andb_true_iff, ?negb_true_iff, ?Z.eqb_neq; [constructor| |naive_solver].
  intros [H1 H2]. constructor; auto.
Qed.

(** [f] writes the fields [l]. *)
Definition EncSlots (f : prepender) (l : list (Z * option bytes)) : Prop := EncSeq f (present l).
Definition EncRev (f : prepender) (l : list (Z * option bytes)) : Prop := EncSlots f (rev l).

Lemma EncSlots_lit f l : EncRev f (rev l) -> EncSlots f l.
Proof. unfold EncRev. by rewrite rev_involutive. Qed.

Lemma EncRev_one f x : EncSlots f [x] -> EncRev f [x].
Proof. done. Qed.

Lemma EncRev_then f g x l : EncSlots f [x] -> EncRev g l -> EncRev (f ;+ g) (x :: l).
Proof. unfold EncRev, EncSlots. intros Hf Hg. cbn [rev]. rewrite present_app. by apply EncSeq_then. Qed.

Lemma slot_number ty n : EncSlots (encoding.prependNonNegativeIntegerBlock ty n) [(ty, Some (tlv.writeNonNegativeInteger n))].
Proof. apply EncSeq_nni. Qed.

Lemma slot_text ty v : EncSlots (encoding.prependStringBlock ty v) [(ty, Some v)].
Proof. apply EncSeq_binary. Qed.

Lemma slot_name n : EncSlots (Name.wireEncode_template n) [(tlv.Name, Some (NameFacts.value n))].
Proof. apply EncSeq_name. Qed.

Lemma slot_nested ty n : EncSlots (encoding.prependNestedBlock ty n) [(ty, Some (tlv_bytes tlv.Name (NameFacts.value n)))].
Proof. apply EncSeq_one, Encodes_TL, NameFacts.Encodes_name. Qed.

Lemma slot_option {A} (o : option A) f ty (g : A -> bytes) : (forall x, o = Some x -> EncSlots (f x) [(ty, Some (g x))]) ->
  EncSlots (pOption o f) [(ty, g <$> o)].
Proof. intros H. destruct o as [x|]; [by apply H|apply EncSeq_none]. Qed.

Lemma slot_when (c : bool) f ty v : EncSlots f [(ty, Some v)] -> EncSlots (pWhen c f) [(ty, if c then Some v else None)].
Proof. intros H. destruct c; [done|apply EncSeq_none]. Qed.

(** *** Readers *)

Definition within (max n : Z) : Prop := is_u64 n /\ n <= max.
Definition u63 (n : Z) : Prop := 0 <= n < 2 ^ 63.

Lemma within_u64 max n : within max n -> is_u64 n.
Proof. by intros []. Qed.

Lemma u63_u64 n : u63 n -> is_u64 n.
Proof. unfold u63. width. lia. Qed.

Lemma u64_of_u63 n : u63 n -> u64 n = n.
Proof. intros H. apply u64_small. apply u63_u64 in H. width. lia. Qed.

Lemma i64_of_u63 n : u63 n -> i64 n = n.
Proof. unfold u63. intros H. apply i64_small. lia. Qed.

Section readers.
Context {S B : Type}.
Implicit Types (k : list Block.t -> M S B) (s : S) (rest : list (Z * option bytes)).

Definition elems (l : list (Z * option bytes)) : list Block.t := BlockFacts.of_pair <$> present l.

Lemma step_optional ty o rest found missing k s s' :
  match o with Some v => found (BlockFacts.of_pair (ty, v)) s = (s', Ok tt) | None => missing s = (s', Ok tt) end ->
  forallb (fun x => negb (x.1 =? ty)) rest = true ->
  (MetaInfo.optional_field ty (elems ((ty, o) :: rest)) found missing ≫= k) s = k (elems rest) s'.
Proof.
  intros Ho Hr. apply bindM_ok. pose proof (present_other _ _ Hr) as Hp.
  assert (elems ((ty, o) :: rest) = BlockFacts.of_pair <$> (olist ((fun v => (ty, v)) <$> o) ++ present rest)) as ->.
  { unfold elems. by destruct o. }
  apply optional_step; [destruct o; naive_solver|done| |]; destruct o; naive_solver.
Qed.

Lemma step_required ty v rest e found k s s' : found (BlockFacts.of_pair (ty, v)) s = (s', Ok tt) ->
  (required_field ty e (elems ((ty, Some v) :: rest)) found ≫= k) s = k (elems rest) s'.
Proof.
  intros H. apply bindM_ok. unfold required_field, MetaInfo.optional_field, elems. cbn [present fmap list_fmap].
  change (Block.type _) with ty. rewrite Z.eqb_refl. by rewrite (bindM_ok _ _ _ _ _ H).
Qed.

Lemma step_expected ty v rest eof e found k s s' : found (BlockFacts.of_pair (ty, v)) s = (s', Ok tt) ->
  (expected_field ty eof e (elems ((ty, Some v) :: rest)) found ≫= k) s = k (elems rest) s'.
Proof.
  intros H. apply bindM_ok. unfold expected_field, elems. cbn [present fmap list_fmap].
  change (Block.type _) with ty. rewrite Z.eqb_refl. cbn [negb]. by rewrite (bindM_ok _ _ _ _ _ H).
Qed.

Lemma read_number (set : Z -> S -> S) ty n s : is_u64 n ->
  readNumber set (BlockFacts.of_pair (ty, tlv.writeNonNegativeInteger n)) s = (set n s, Ok tt).
Proof. intros H. unfold readNumber. by rewrite (bindM_lift _ _ _ _ (readNNI_of_tlv ty n H)). Qed.

Lemma read_enum max (set : Z -> S -> S) ty n s : within max n ->
  readEnum max set (BlockFacts.of_pair (ty, tlv.writeNonNegativeInteger n)) s = (set n s, Ok tt).
Proof. intros [H Hm]. unfold readEnum. by rewrite (bindM_lift _ _ _ _ (readNNIAs_of_tlv max ty n H Hm)). Qed.

Lemma read_duration (set : Z -> S -> S) ty n s : u63 n ->
  readDuration set (BlockFacts.of_pair (ty, tlv.writeNonNegativeInteger n)) s = (set n s, Ok tt).
Proof.
  intros H. unfold readDuration. rewrite (bindM_lift _ _ _ _ (readNNI_of_tlv ty n (u63_u64 n H))).
  by rewrite i64_of_u63.
Qed.

Lemma read_timestamp (set : Z -> S -> S) ty n s : u63 (n * 1000000) ->
  readTimestamp set (BlockFacts.of_pair (ty, tlv.writeNonNegativeInteger n)) s = (set (n * 1000000) s, Ok tt).
Proof.
  intros H. assert (u63 n) as Hn by (unfold u63 in *; lia). unfold readTimestamp.
  rewrite (bindM_lift _ _ _ _ (readNNI_of_tlv ty n (u63_u64 n Hn))), i64_of_u63 by done.
  unfold time.fromUnixTimestamp. by rewrite i64_of_u63.
Qed.

(** The same on the numbers as the encoders convert them. *)
Lemma read_duration_u64 (set : Z -> S -> S) ty n s : u63 n ->
  readDuration set (BlockFacts.of_pair (ty, tlv.writeNonNegativeInteger (u64 n))) s = (set n s, Ok tt).
Proof. intros H. rewrite u64_of_u63 by done. by apply read_duration. Qed.

Definition whole_ms (p : Z) : Prop := u63 p /\ (1000000 | p).

Lemma read_timestamp_u64 (set : Z -> S -> S) ty p s : whole_ms p ->
  readTimestamp set (BlockFacts.of_pair (ty, tlv.writeNonNegativeInteger (u64 (time.toUnixTimestamp p)))) s = (set p s, Ok tt).
Proof.
  intros [H [q ->]]. unfold time.toUnixTimestamp. rewrite Z.quot_mul by lia.
  rewrite u64_of_u63 by (unfold u63 in *; lia). by apply read_timestamp.
Qed.

Lemma read_text (set : bytes -> S -> S) ty v s : readText set (BlockFacts.of_pair (ty, v)) s = (set v s, Ok tt).
Proof. done. Qed.

Lemma read_name (get : S -> Name.t) (set : Name.t -> S -> S) n s : types_ok n -> is_u64 (len (NameFacts.value n)) ->
  zoom get set (nameWireDecode (BlockFacts.of_pair (tlv.Name, NameFacts.value n))) s =
  (set (NameFacts.of_tlvs (NameFacts.tlvs n)) s, Ok tt).
Proof. intros Ht Hl. apply zoom_ok. by apply nameWireDecode_pair. Qed.

(** A field that is optional in the record too. *)
Lemma step_option {A} ty (o : option A) (g : A -> bytes) found (set : option A -> S -> S) rest k s :
  (forall x, o = Some x -> found (BlockFacts.of_pair (ty, g x)) s = (set (Some x) s, Ok tt)) ->
  forallb (fun x => negb (x.1 =? ty)) rest = true ->
  (MetaInfo.optional_field ty (elems ((ty, g <$> o) :: rest)) found (modify (set None)) ≫= k) s = k (elems rest) (set o s).
Proof. intros Ho Hr. apply step_optional; [|done]. destruct o; [by apply Ho|done]. Qed.

Lemma step_text ty v (set : bytes -> S -> S) rest k s : forallb (fun x => negb (x.1 =? ty)) rest = true ->
  (MetaInfo.optional_field ty (elems ((ty, if FaceQueryFilter.has v then Some v else None) :: rest)) (readText set) (modify (set [])) ≫= k) s =
  k (elems rest) (set v s).
Proof.
  intros Hr. apply step_optional; [|done]. unfold FaceQueryFilter.has. destruct (Z.eqb_spec (len v) 0) as [E|E]; [|done].
  apply len_zero in E. by subst v.
Qed.

End readers.

(** *** Equality of unordered lists *)

Section matching.
Context {A K : Type} (eqb : A -> A -> bool) (key : A -> K).
Hypothesis eqb_key : forall x y, eqb x y = true <-> key x = key y.

(** The elements that are not matched yet. *)
Fixpoint unmatched (bs : list A) (matched : list bool) : list A :=
  match bs, matched with
  | b :: bs, m :: matched => if m then unmatched bs matched else b :: unmatched bs matched
  | _, _ => []
  end.

Lemma take_match_some x : forall bs m m', take_match eqb x bs m = Some m' ->
  (key <$> unmatched bs m) ≡ₚ key x :: (key <$> unmatched bs m').
Proof.
  induction bs as [|b bs IH]; intros [|[] m] m'; cbn [take_match negb andb]; [done..| |].
  - destruct (take_match eqb x bs m) as [r|] eqn:E; [|done]. intros [= <-]. cbn [unmatched]. by apply IH.
  - destruct (eqb b x) eqn:Eb.
    + intros [= <-]. cbn [unmatched fmap list_fmap]. by rewrite (proj1 (eqb_key b x) Eb).
    + destruct (take_match eqb x bs m) as [r|] eqn:E; [|done]. intros [= <-]. cbn [unmatched fmap list_fmap].
      rewrite (IH _ _ E). constructor.
Qed.

Lemma take_match_none x : forall bs m, length m = length bs -> take_match eqb x bs m = None ->
  key x ∉ key <$> unmatched bs m.
Proof.
  induction bs as [|b bs IH]; intros [|[] m] Hl; cbn [take_match negb andb]; [by intros _ ?%not_elem_of_nil|done..| |]; apply Nat.succ_inj in Hl.
  - destruct (take_match eqb x bs m) eqn:E; [done|]. intros _. cbn [unmatched]. by apply IH.
  - destruct (eqb b x) eqn:Eb; [done|]. destruct (take_match eqb x bs m) eqn:E; [done|]. intros _.
    cbn [unmatched fmap list_fmap]. intros [Hk|Hk]%elem_of_cons; [|by apply (IH m)].
    assert (eqb b x = true) by (by apply eqb_key). congruence.
Qed.

Lemma take_match_length x : forall bs m m', take_match eqb x bs m = Some m' -> length m' = length m.
Proof.
  induction bs as [|b bs IH]; intros [|c m] m'; cbn [take_match]; try done.
  destruct (negb c && eqb b x); [by intros [= <-]|]. destruct (take_match eqb x bs m) eqn:E; [|done].
  intros [= <-]. cbn. f_equal. by apply IH.
Qed.

Lemma all_matched_spec bs : forall l m, length m = length bs ->
  all_matched eqb l bs m = true <-> exists r, (key <$> unmatched bs m) ≡ₚ (key <$> l) ++ r.
Proof.
  induction l as [|x l IH]; intros m Hl; cbn [all_matched fmap list_fmap app].
  - split; [by exists (key <$> unmatched bs m)|done].
  - destruct (take_match eqb x bs m) as [m'|] eqn:E.
    + rewrite IH by (by rewrite (take_match_length _ _ _ _ E)). pose proof (take_match_some _ _ _ _ E) as Hp.
      split; intros [r Hr]; exists r; [by rewrite Hp, Hr|]. rewrite Hp in Hr. by apply Permutation_cons_inv in Hr.
    + split; [done|]. intros [r Hr]. exfalso. apply (take_match_none _ _ _ Hl E). rewrite Hr. left.
Qed.

Lemma unmatched_all bs : unmatched bs (replicate (length bs) false) = bs.
Proof. induction bs as [|b bs IH]; cbn; [done|by rewrite IH]. Qed.

(** The loop decides equality of multisets. *)
Lemma same_elements_spec l bs : same_elements eqb l bs = true <-> (key <$> l) ≡ₚ (key <$> bs).
Proof.
  unfold same_elements. rewrite andb_true_iff, Nat.eqb_eq, all_matched_spec by (by rewrite length_replicate).
  rewrite unmatched_all. split.
  - intros [Hl [r Hr]]. pose proof (Permutation_length Hr) as Hn. rewrite length_app, !length_fmap in Hn.
    destruct r; [|cbn in Hn; lia]. rewrite app_nil_r in Hr. by symmetry.
  - intros H. split; [by apply Permutation_length in H; rewrite !length_fmap in H|].
    exists []. rewrite app_nil_r. by symmetry.
Qed.

End matching.

(** *** Names *)

Definition norm_name (n : Name.t) : Name.t := NameFacts.of_tlvs (NameFacts.tlvs n).

Lemma norm_name_equals n : Name.equals n (norm_name n) = true.
Proof. rewrite NameFacts.nequals_spec. apply bool_decide_eq_true. symmetry. apply keys_norm. Qed.

Lemma name_len l n : (tlv.Name, NameFacts.value n) ∈ l -> is_u64 (len (BlockFacts.tlv_seq l)) -> is_u64 (len (NameFacts.value n)).
Proof. intros Hin Hl. exact (nested_len l (tlv.Name, NameFacts.value n) Hin Hl). Qed.

End RecordFacts.

(** ** The interface *)

Class StatusDatasetItemLaws (T : Type) `{StatusDatasetItem T} := {
  item_ok : T -> Prop;                    (* the fields are within the ranges of the wire format *)
  item_seq : T -> list (Z * bytes);       (* the elements of the encoding *)
  item_norm : T -> T;                     (* what decoding the encoding yields *)
  item_set_wire : Block.t -> T -> T;
  item_setter : M T unit -> Prop;         (* the member functions that change the record *)
  item_type_ok : is_tlv_type item_type;
  item_seq_types x : item_ok x -> Forall (fun e => is_tlv_type e.1) (item_seq x);
  item_encodes x : item_ok x -> FieldFacts.EncSeq (item_template x) [(item_type, BlockFacts.tlv_seq (item_seq x))];
  item_cached : item_wireEncode = cachedEncode item_wire item_set_wire item_template;
  item_set_wire_ok b x : item_wire (item_set_wire b x) = b /\ item_seq (item_set_wire b x) = item_seq x /\
    (item_ok x -> item_ok (item_set_wire b x));
  item_decodes x x0 : item_ok x -> is_u64 (len (BlockFacts.tlv_seq (item_seq x))) ->
    item_wireDecode (FieldFacts.seq_block item_type (item_seq x)) x0 = (item_norm x, Ok tt);
  item_norm_wire x : item_wire (item_norm x) = FieldFacts.parsed_block item_type (item_seq x);
  item_norm_eqb x : item_ok x -> item_eqb x (item_norm x) = true;
  item_setter_resets m x : item_setter m -> Block.hasWire (item_wire (fst (m x))) = false;
  item_init_wire : Block.hasWire (item_wire item_init) = false;
}.

Module RecordLaws.
Import FieldFacts RecordFacts.

(** The encoder writes the slots; the decoder reads them in turn. *)
Ltac enc_slot := first
  [ apply slot_number | apply slot_text | apply slot_name | apply slot_nested
  | apply slot_option; intros; first [apply slot_number | apply slot_text]
  | apply slot_when; first [apply slot_number | apply slot_text] ].
Ltac enc_record := apply EncSeq_TL, EncSlots_lit; cbn [rev app]; repeat (apply EncRev_then; [enc_slot|]); apply EncRev_one; enc_slot.

Ltac seq_types := apply present_types; repeat (constructor; [by vm_compute|]); constructor.

Ltac read_slot :=
  lazymatch goal with
  | |- readText _ _ _ = _ => rewrite read_text
  | |- readNumber _ _ _ = _ => rewrite read_number by eauto using within_u64
  | |- readEnum _ _ _ _ = _ => rewrite read_enum by eauto
  | |- readDuration _ _ _ = _ => rewrite read_duration_u64 by eauto
  | |- readTimestamp _ _ _ = _ => rewrite read_timestamp_u64 by assumption
  | |- zoom _ _ _ _ = _ => rewrite read_name by assumption
  end; reflexivity.
Ltac dec_slot :=
  lazymatch goal with
  | |- (required_field _ _ _ _ ≫= _) _ = _ => etransitivity; [eapply step_required; read_slot|cbv beta]
  | |- (expected_field _ _ _ _ _ ≫= _) _ = _ => etransitivity; [eapply step_expected; read_slot|cbv beta]
  | |- (MetaInfo.optional_field _ (elems ((_, if _ then _ else _) :: _)) _ _ ≫= _) _ = _ =>
      etransitivity; [eapply step_text; by vm_compute|cbv beta]
  | |- (MetaInfo.optional_field _ _ _ _ ≫= _) _ = _ =>
      etransitivity; [eapply step_option; [intros; cbv beta; read_slot|by vm_compute]|cbv beta]
  end.

(** The common beginning of every decoder. *)
Lemma decode_start {S} (set : Block.t -> S -> S) ty e l (k : S -> M S unit) s :
  Forall (fun x => is_tlv_type x.1) l -> is_u64 (len (BlockFacts.tlv_seq l)) ->
  (_ ← throwM_if (negb (Block.type (seq_block ty l) =? ty)) e; _ ← assignParsed set (seq_block ty l); x ← self; k x) s =
  k (set (parsed_block ty l) s) (set (parsed_block ty l) s).
Proof.
  intros Ht Hl. rewrite bindM_pass by (change (Block.type _) with ty; by rewrite Z.eqb_refl).
  rewrite (bindM_ok _ _ _ _ _ (assignParsed_seq set ty l s (tlv_seq_ok l Ht Hl))). apply bindM_self.
Qed.

Lemma bytes_eqb_refl b : bytes_eqb b b = true.
Proof. by apply bool_decide_eq_true. Qed.

Lemma opt_eqb_refl o : opt_eqb o o = true.
Proof. unfold opt_eqb. destruct o; cbn; [apply Z.eqb_refl|done]. Qed.

Lemma text_eqb_refl b : FaceQueryFilter.text_eqb b b = true.
Proof. unfold FaceQueryFilter.text_eqb. by rewrite eqb_reflx, bytes_eqb_refl, orb_true_r. Qed.

Ltac eqb_same := rewrite ?Z.eqb_refl, ?bytes_eqb_refl, ?opt_eqb_refl, ?text_eqb_refl, ?eqb_reflx; reflexivity.

(** *** ChannelStatus *)

Definition channel_slots (s : ChannelStatus.t) : list (Z * option bytes) := [(tlv_nfd.LocalUri, Some (ChannelStatus.m_localUri s))].

Inductive channel_setter : M ChannelStatus.t unit -> Prop :=
| channel_setLocalUri x : channel_setter (ChannelStatus.setLocalUri x).

#[export] Program Instance ChannelStatus_laws : StatusDatasetItemLaws ChannelStatus.t := {|
  item_ok := fun _ => True;
  item_seq := fun s => present (channel_slots s);
  item_norm := fun s => ChannelStatus.with_wire (parsed_block tlv_nfd.ChannelStatus (present (channel_slots s))) s;
  item_set_wire := ChannelStatus.with_wire;
  item_setter := channel_setter;
|}.
Next Obligation. by vm_compute. Qed.
Next Obligation. intros s _. seq_types. Qed.
Next Obligation. intros s _. enc_record. Qed.
Next Obligation. done. Qed.
Next Obligation. done. Qed.
Next Obligation.
  intros s s0 _ Hl. cbn [item_wireDecode ChannelStatus_item]. unfold ChannelStatus.wireDecode.
  rewrite decode_start by (done || seq_types). change (Block.elements _) with (elems (channel_slots s)).
  dec_slot. by destruct s, s0.
Qed.
Next Obligation. done. Qed.
Next Obligation. intros s _. cbn. unfold ChannelStatus.eqb. eqb_same. Qed.
Next Obligation. intros m s []. done. Qed.
Next Obligation. done. Qed.

(** *** FaceTraits *)

Inductive traits_setter : M FaceTraits.t unit -> Prop :=
| traits_setFaceId x : traits_setter (FaceTraits.setFaceId x)
| traits_setRemoteUri x : traits_setter (FaceTraits.setRemoteUri x)
| traits_setLocalUri x : traits_setter (FaceTraits.setLocalUri x)
| traits_setFaceScope x : traits_setter (FaceTraits.setFaceScope x)
| traits_setFacePersistency x : traits_setter (FaceTraits.setFacePersistency x)
| traits_setLinkType x : traits_setter (FaceTraits.setLinkType x)
| traits_setFlags x : traits_setter (FaceTraits.setFlags x).

Lemma traits_resets m s : traits_setter m -> Block.hasWire (FaceTraits.m_wire (fst (m s))) = false.
Proof. by intros []. Qed.

Lemma zoom_fst {S T A} (get : S -> T) (set : T -> S -> S) (m : M T A) s : fst (zoom get set m s) = set (fst (m (get s))) s.
Proof. unfold zoom. by destruct (m (get s)). Qed.

Lemma bits_small n : within 3 n -> CsInfo.FlagsBitSet n = n.
Proof.
  unfold CsInfo.FlagsBitSet. intros [[H _] Hn]. change 3 with (Z.ones 2). rewrite Z.land_ones by lia. apply Z.mod_small. lia.
Qed.

(** *** CsInfo *)

Definition cs_slots (s : CsInfo.t) : list (Z * option bytes) :=
  [(tlv_nfd.Capacity, Some (tlv.writeNonNegativeInteger (CsInfo.m_capacity s)));
   (tlv_nfd.Flags, Some (tlv.writeNonNegativeInteger (CsInfo.m_flags s)));
   (tlv_nfd.NCsEntries, Some (tlv.writeNonNegativeInteger (CsInfo.m_nEntries s)));
   (tlv_nfd.NHits, Some (tlv.writeNonNegativeInteger (CsInfo.m_nHits s)));
   (tlv_nfd.NMisses, Some (tlv.writeNonNegativeInteger (CsInfo.m_nMisses s)))].

Definition cs_ok (s : CsInfo.t) : Prop :=
  is_u64 (CsInfo.m_capacity s) /\
  within 3 (CsInfo.m_flags s) /\
  is_u64 (CsInfo.m_nEntries s) /\
  is_u64 (CsInfo.m_nHits s) /\
  is_u64 (CsInfo.m_nMisses s).

Inductive cs_setter : M CsInfo.t unit -> Prop :=
| cs_setCapacity x : cs_setter (CsInfo.setCapacity x)
| cs_setEnableAdmit x : cs_setter (CsInfo.setEnableAdmit x)
| cs_setEnableServe x : cs_setter (CsInfo.setEnableServe x)
| cs_setNEntries x : cs_setter (CsInfo.setNEntries x)
| cs_setNHits x : cs_setter (CsInfo.setNHits x)
| cs_setNMisses x : cs_setter (CsInfo.setNMisses x).

#[export] Program Instance CsInfo_laws : StatusDatasetItemLaws CsInfo.t := {|
  item_ok := cs_ok;
  item_seq := fun s => present (cs_slots s);
  item_norm := fun s => CsInfo.with_wire (parsed_block tlv_nfd.CsInfo (present (cs_slots s))) s;
  item_set_wire := CsInfo.with_wire;
  item_setter := cs_setter;
|}.
Next Obligation. by vm_compute. Qed.
Next Obligation. intros s _. seq_types. Qed.
Next Obligation. intros s _. enc_record. Qed.
Next Obligation. done. Qed.
Next Obligation. done. Qed.
Next Obligation.
  intros s s0 Hok Hl. unfold cs_ok in Hok. destruct_and? Hok. cbn [item_wireDecode CsInfo_item]. unfold CsInfo.wireDecode.
  rewrite decode_start by (done || seq_types). change (Block.elements _) with (elems (cs_slots s)).
  set (w := parsed_block _ _). unfold cs_slots. repeat dec_slot. rewrite bits_small by assumption. by destruct s, s0.
Qed.
Next Obligation. done. Qed.
Next Obligation. intros s _. cbn. unfold CsInfo.eqb. cbv zeta. eqb_same. Qed.
Next Obligation. intros m s Hm. by destruct Hm. Qed.
Next Obligation. done. Qed.

(** *** FaceEventNotification *)

Definition event_slots (s : FaceEventNotification.t) : list (Z * option bytes) :=
  [(tlv_nfd.FaceEventKind, Some (tlv.writeNonNegativeInteger (FaceEventNotification.m_kind s)));
   (tlv_nfd.FaceId, Some (tlv.writeNonNegativeInteger (FaceTraits.m_faceId (FaceEventNotification.m_base s))));
   (tlv_nfd.Uri, Some (FaceTraits.m_remoteUri (FaceEventNotification.m_base s)));
   (tlv_nfd.LocalUri, Some (FaceTraits.m_localUri (FaceEventNotification.m_base s)));
   (tlv_nfd.FaceScope, Some (tlv.writeNonNegativeInteger (FaceTraits.m_faceScope (FaceEventNotification.m_base s))));
   (tlv_nfd.FacePersistency, Some (tlv.writeNonNegativeInteger (FaceTraits.m_facePersistency (FaceEventNotification.m_base s))));
   (tlv_nfd.LinkType, Some (tlv.writeNonNegativeInteger (FaceTraits.m_linkType (FaceEventNotification.m_base s))));
   (tlv_nfd.Flags, Some (tlv.writeNonNegativeInteger (FaceTraits.m_flags (FaceEventNotification.m_base s))))].

Definition event_ok (s : FaceEventNotification.t) : Prop :=
  within UINT8_MAX (FaceEventNotification.m_kind s) /\
  is_u64 (FaceTraits.m_faceId (FaceEventNotification.m_base s)) /\
  within UINT8_MAX (FaceTraits.m_faceScope (FaceEventNotification.m_base s)) /\
  within UINT8_MAX (FaceTraits.m_facePersistency (FaceEventNotification.m_base s)) /\
  within UINT8_MAX (FaceTraits.m_linkType (FaceEventNotification.m_base s)) /\
  is_u64 (FaceTraits.m_flags (FaceEventNotification.m_base s)).

Inductive event_setter : M FaceEventNotification.t unit -> Prop :=
| event_base m : traits_setter m -> event_setter (FaceEventNotification.base m)
| event_setKind x : event_setter (FaceEventNotification.setKind x).

#[export] Program Instance FaceEventNotification_laws : StatusDatasetItemLaws FaceEventNotification.t := {|
  item_ok := event_ok;
  item_seq := fun s => present (event_slots s);
  item_norm := fun s => FaceEventNotification.onBase FaceTraits.with_wire (parsed_block tlv_nfd.FaceEventNotification (present (event_slots s))) s;
  item_set_wire := FaceEventNotification.onBase FaceTraits.with_wire;
  item_setter := event_setter;
|}.
Next Obligation. by vm_compute. Qed.
Next Obligation. intros s _. seq_types. Qed.
Next Obligation. intros s _. enc_record. Qed.
Next Obligation. done. Qed.
Next Obligation. done. Qed.
Next Obligation.
  intros s s0 Hok Hl. unfold event_ok in Hok. destruct_and? Hok. cbn [item_wireDecode FaceEventNotification_item]. unfold FaceEventNotification.wireDecode.
  rewrite decode_start by (done || seq_types). change (Block.elements _) with (elems (event_slots s)).
  set (w := parsed_block _ _). unfold event_slots. repeat dec_slot. destruct s as [[] ?], s0 as [[] ?]. reflexivity.
Qed.
Next Obligation. done. Qed.
Next Obligation. intros s _. cbn. unfold FaceEventNotification.eqb. cbv zeta. eqb_same. Qed.
Next Obligation. intros m s Hm. destruct Hm; [|done..]. cbn. unfold FaceEventNotification.base. rewrite zoom_fst. by apply traits_resets. Qed.
Next Obligation. done. Qed.

(** *** FaceStatus *)

Definition face_slots (s : FaceStatus.t) : list (Z * option bytes) :=
  [(tlv_nfd.FaceId, Some (tlv.writeNonNegativeInteger (FaceTraits.m_faceId (FaceStatus.m_base s))));
   (tlv_nfd.Uri, Some (FaceTraits.m_remoteUri (FaceStatus.m_base s)));
   (tlv_nfd.LocalUri, Some (FaceTraits.m_localUri (FaceStatus.m_base s)));
   (tlv_nfd.ExpirationPeriod, (fun n => tlv.writeNonNegativeInteger (u64 n)) <$> FaceStatus.m_expirationPeriod s);
   (tlv_nfd.FaceScope, Some (tlv.writeNonNegativeInteger (FaceTraits.m_faceScope (FaceStatus.m_base s))));
   (tlv_nfd.FacePersistency, Some (tlv.writeNonNegativeInteger (FaceTraits.m_facePersistency (FaceStatus.m_base s))));
   (tlv_nfd.LinkType, Some (tlv.writeNonNegativeInteger (FaceTraits.m_linkType (FaceStatus.m_base s))));
   (tlv_nfd.BaseCongestionMarkingInterval, (fun n => tlv.writeNonNegativeInteger (u64 n)) <$> FaceStatus.m_baseCongestionMarkingInterval s);
   (tlv_nfd.DefaultCongestionThreshold, tlv.writeNonNegativeInteger <$> FaceStatus.m_defaultCongestionThreshold s);
   (tlv_nfd.Mtu, tlv.writeNonNegativeInteger <$> FaceStatus.m_mtu s);
   (tlv_nfd.NInInterests, Some (tlv.writeNonNegativeInteger (FaceStatus.m_nInInterests s)));
   (tlv_nfd.NInData, Some (tlv.writeNonNegativeInteger (FaceStatus.m_nInData s)));
   (tlv_nfd.NInNacks, Some (tlv.writeNonNegativeInteger (FaceStatus.m_nInNacks s)));
   (tlv_nfd.NOutInterests, Some (tlv.writeNonNegativeInteger (FaceStatus.m_nOutInterests s)));
   (tlv_nfd.NOutData, Some (tlv.writeNonNegativeInteger (FaceStatus.m_nOutData s)));
   (tlv_nfd.NOutNacks, Some (tlv.writeNonNegativeInteger (FaceStatus.m_nOutNacks s)));
   (tlv_nfd.NInBytes, Some (tlv.writeNonNegativeInteger (FaceStatus.m_nInBytes s)));
   (tlv_nfd.NOutBytes, Some (tlv.writeNonNegativeInteger (FaceStatus.m_nOutBytes s)));
   (tlv_nfd.Flags, Some (tlv.writeNonNegativeInteger (FaceTraits.m_flags (FaceStatus.m_base s))))].

Definition face_ok (s : FaceStatus.t) : Prop :=
  is_u64 (FaceTraits.m_faceId (FaceStatus.m_base s)) /\
  (forall n, FaceStatus.m_expirationPeriod s = Some n -> u63 n) /\
  within UINT8_MAX (FaceTraits.m_faceScope (FaceStatus.m_base s)) /\
  within UINT8_MAX (FaceTraits.m_facePersistency (FaceStatus.m_base s)) /\
  within UINT8_MAX (FaceTraits.m_linkType (FaceStatus.m_base s)) /\
  (forall n, FaceStatus.m_baseCongestionMarkingInterval s = Some n -> u63 n) /\
  (forall n, FaceStatus.m_defaultCongestionThreshold s = Some n -> is_u64 n) /\
  (forall n, FaceStatus.m_mtu s = Some n -> is_u64 n) /\
  is_u64 (FaceStatus.m_nInInterests s) /\
  is_u64 (FaceStatus.m_nInData s) /\
  is_u64 (FaceStatus.m_nInNacks s) /\
  is_u64 (FaceStatus.m_nOutInterests s) /\
  is_u64 (FaceStatus.m_nOutData s) /\
  is_u64 (FaceStatus.m_nOutNacks s) /\
  is_u64 (FaceStatus.m_nInBytes s) /\
  is_u64 (FaceStatus.m_nOutBytes s) /\
  is_u64 (FaceTraits.m_flags (FaceStatus.m_base s)).

Inductive face_setter : M FaceStatus.t unit -> Prop :=
| face_base m : traits_setter m -> face_setter (FaceStatus.base m)
| face_setExpirationPeriod x : face_setter (FaceStatus.setExpirationPeriod x)
| face_setBaseCongestionMarkingInterval x : face_setter (FaceStatus.setBaseCongestionMarkingInterval x)
| face_setDefaultCongestionThreshold x : face_setter (FaceStatus.setDefaultCongestionThreshold x)
| face_setMtu x : face_setter (FaceStatus.setMtu x)
| face_unsetExpirationPeriod : face_setter FaceStatus.unsetExpirationPeriod
| face_unsetBaseCongestionMarkingInterval : face_setter FaceStatus.unsetBaseCongestionMarkingInterval
| face_unsetDefaultCongestionThreshold : face_setter FaceStatus.unsetDefaultCongestionThreshold
| face_unsetMtu : face_setter FaceStatus.unsetMtu
| face_setNInInterests x : face_setter (FaceStatus.setNInInterests x)
| face_setNInData x : face_setter (FaceStatus.setNInData x)
| face_setNInNacks x : face_setter (FaceStatus.setNInNacks x)
| face_setNOutInterests x : face_setter (FaceStatus.setNOutInterests x)
| face_setNOutData x : face_setter (FaceStatus.setNOutData x)
| face_setNOutNacks x : face_setter (FaceStatus.setNOutNacks x)
| face_setNInBytes x : face_setter (FaceStatus.setNInBytes x)
| face_setNOutBytes x : face_setter (FaceStatus.setNOutBytes x).

#[export] Program Instance FaceStatus_laws : StatusDatasetItemLaws FaceStatus.t := {|
  item_ok := face_ok;
  item_seq := fun s => present (face_slots s);
  item_norm := fun s => FaceStatus.onBase FaceTraits.with_wire (parsed_block tlv_nfd.FaceStatus (present (face_slots s))) s;
  item_set_wire := FaceStatus.onBase FaceTraits.with_wire;
  item_setter := face_setter;
|}.
Next Obligation. by vm_compute. Qed.
Next Obligation. intros s _. seq_types. Qed.
Next Obligation. intros s _. enc_record. Qed.
Next Obligation. done. Qed.
Next Obligation. done. Qed.
Next Obligation.
  intros s s0 Hok Hl. unfold face_ok in Hok. destruct_and? Hok. cbn [item_wireDecode FaceStatus_item]. unfold FaceStatus.wireDecode.
  rewrite decode_start by (done || seq_types). change (Block.elements _) with (elems (face_slots s)).
  set (w := parsed_block _ _). unfold face_slots. repeat dec_slot. destruct s as [[]], s0 as [[]]. reflexivity.
Qed.
Next Obligation. done. Qed.
Next Obligation. intros s _. cbn. unfold FaceStatus.eqb. cbv zeta. eqb_same. Qed.
Next Obligation. intros m s Hm. destruct Hm; [|done..]. cbn. unfold FaceStatus.base. rewrite zoom_fst. by apply traits_resets. Qed.
Next Obligation. done. Qed.

(** *** FaceQueryFilter *)

Definition filter_slots (s : FaceQueryFilter.t) : list (Z * option bytes) :=
  [(tlv_nfd.FaceId, tlv.writeNonNegativeInteger <$> FaceQueryFilter.m_faceId s);
   (tlv_nfd.UriScheme, if FaceQueryFilter.has (FaceQueryFilter.m_uriScheme s) then Some (FaceQueryFilter.m_uriScheme s) else None);
   (tlv_nfd.Uri, if FaceQueryFilter.has (FaceQueryFilter.m_remoteUri s) then Some (FaceQueryFilter.m_remoteUri s) else None);
   (tlv_nfd.LocalUri, if FaceQueryFilter.has (FaceQueryFilter.m_localUri s) then Some (FaceQueryFilter.m_localUri s) else None);
   (tlv_nfd.FaceScope, tlv.writeNonNegativeInteger <$> FaceQueryFilter.m_faceScope s);
   (tlv_nfd.FacePersistency, tlv.writeNonNegativeInteger <$> FaceQueryFilter.m_facePersistency s);
   (tlv_nfd.LinkType, tlv.writeNonNegativeInteger <$> FaceQueryFilter.m_linkType s)].

Definition filter_ok (s : FaceQueryFilter.t) : Prop :=
  (forall n, FaceQueryFilter.m_faceId s = Some n -> is_u64 n) /\
  (forall n, FaceQueryFilter.m_faceScope s = Some n -> within UINT8_MAX n) /\
  (forall n, FaceQueryFilter.m_facePersistency s = Some n -> within UINT8_MAX n) /\
  (forall n, FaceQueryFilter.m_linkType s = Some n -> within UINT8_MAX n).

Inductive filter_setter : M FaceQueryFilter.t unit -> Prop :=
| filter_setFaceId x : filter_setter (FaceQueryFilter.setFaceId x)
| filter_setUriScheme x : filter_setter (FaceQueryFilter.setUriScheme x)
| filter_setRemoteUri x : filter_setter (FaceQueryFilter.setRemoteUri x)
| filter_setLocalUri x : filter_setter (FaceQueryFilter.setLocalUri x)
| filter_setFaceScope x : filter_setter (FaceQueryFilter.setFaceScope x)
| filter_setFacePersistency x : filter_setter (FaceQueryFilter.setFacePersistency x)
| filter_setLinkType x : filter_setter (FaceQueryFilter.setLinkType x)
| filter_unsetFaceId : filter_setter FaceQueryFilter.unsetFaceId
| filter_unsetUriScheme : filter_setter FaceQueryFilter.unsetUriScheme
| filter_unsetRemoteUri : filter_setter FaceQueryFilter.unsetRemoteUri
| filter_unsetLocalUri : filter_setter FaceQueryFilter.unsetLocalUri
| filter_unsetFaceScope : filter_setter FaceQueryFilter.unsetFaceScope
| filter_unsetFacePersistency : filter_setter FaceQueryFilter.unsetFacePersistency
| filter_unsetLinkType : filter_setter FaceQueryFilter.unsetLinkType.

#[export] Program Instance FaceQueryFilter_laws : StatusDatasetItemLaws FaceQueryFilter.t := {|
  item_ok := filter_ok;
  item_seq := fun s => present (filter_slots s);
  item_norm := fun s => FaceQueryFilter.with_wire (parsed_block tlv_nfd.FaceQueryFilter (present (filter_slots s))) s;
  item_set_wire := FaceQueryFilter.with_wire;
  item_setter := filter_setter;
|}.
Next Obligation. by vm_compute. Qed.
Next Obligation. intros s _. seq_types. Qed.
Next Obligation. intros s _. enc_record. Qed.
Next Obligation. done. Qed.
Next Obligation. done. Qed.
Next Obligation.
  intros s s0 Hok Hl. unfold filter_ok in Hok. destruct_and? Hok. cbn [item_wireDecode FaceQueryFilter_item]. unfold FaceQueryFilter.wireDecode.
  rewrite decode_start by (done || seq_types). change (Block.elements _) with (elems (filter_slots s)).
  set (w := parsed_block _ _). unfold filter_slots. repeat dec_slot. by destruct s, s0.
Qed.
Next Obligation. done. Qed.
Next Obligation. intros s _. cbn. unfold FaceQueryFilter.eqb. cbv zeta. eqb_same. Qed.
Next Obligation. intros m s Hm. by destruct Hm. Qed.
Next Obligation. done. Qed.

(** *** NextHopRecord *)

Definition hop_slots (s : NextHopRecord.t) : list (Z * option bytes) :=
  [(tlv_nfd.FaceId, Some (tlv.writeNonNegativeInteger (NextHopRecord.m_faceId s)));
   (tlv_nfd.Cost, Some (tlv.writeNonNegativeInteger (NextHopRecord.m_cost s)))].

Definition hop_ok (s : NextHopRecord.t) : Prop :=
  is_u64 (NextHopRecord.m_faceId s) /\
  is_u64 (NextHopRecord.m_cost s).

Inductive hop_setter : M NextHopRecord.t unit -> Prop :=
| hop_setFaceId x : hop_setter (NextHopRecord.setFaceId x)
| hop_setCost x : hop_setter (NextHopRecord.setCost x).

#[export] Program Instance NextHopRecord_laws : StatusDatasetItemLaws NextHopRecord.t := {|
  item_ok := hop_ok;
  item_seq := fun s => present (hop_slots s);
  item_norm := fun s => NextHopRecord.with_wire (parsed_block tlv_nfd.NextHopRecord (present (hop_slots s))) s;
  item_set_wire := NextHopRecord.with_wire;
  item_setter := hop_setter;
|}.
Next Obligation. by vm_compute. Qed.
Next Obligation. intros s _. seq_types. Qed.
Next Obligation. intros s _. enc_record. Qed.
Next Obligation. done. Qed.
Next Obligation. done. Qed.
Next Obligation.
  intros s s0 Hok Hl. unfold hop_ok in Hok. destruct_and? Hok. cbn [item_wireDecode NextHopRecord_item]. unfold NextHopRecord.wireDecode.
  rewrite decode_start by (done || seq_types). change (Block.elements _) with (elems (hop_slots s)).
  set (w := parsed_block _ _). unfold hop_slots. repeat dec_slot. by destruct s, s0.
Qed.
Next Obligation. done. Qed.
Next Obligation. intros s _. cbn. unfold NextHopRecord.eqb. cbv zeta. eqb_same. Qed.
Next Obligation. intros m s Hm. by destruct Hm. Qed.
Next Obligation. done. Qed.

(** *** Route *)

Definition route_slots (s : Route.t) : list (Z * option bytes) :=
  [(tlv_nfd.FaceId, Some (tlv.writeNonNegativeInteger (Route.m_faceId s)));
   (tlv_nfd.Origin, Some (tlv.writeNonNegativeInteger (Route.m_origin s)));
   (tlv_nfd.Cost, Some (tlv.writeNonNegativeInteger (Route.m_cost s)));
   (tlv_nfd.Flags, Some (tlv.writeNonNegativeInteger (Route.m_flags s)));
   (tlv_nfd.ExpirationPeriod, (fun n => tlv.writeNonNegativeInteger (u64 n)) <$> Route.m_expirationPeriod s)].

Definition route_ok (s : Route.t) : Prop :=
  is_u64 (Route.m_faceId s) /\
  within UINT16_MAX (Route.m_origin s) /\
  is_u64 (Route.m_cost s) /\
  is_u64 (Route.m_flags s) /\
  (forall n, Route.m_expirationPeriod s = Some n -> u63 n).

Inductive route_setter : M Route.t unit -> Prop :=
| route_setFaceId x : route_setter (Route.setFaceId x)
| route_setOrigin x : route_setter (Route.setOrigin x)
| route_setCost x : route_setter (Route.setCost x)
| route_setFlags x : route_setter (Route.setFlags x)
| route_setExpirationPeriod x : route_setter (Route.setExpirationPeriod x)
| route_unsetExpirationPeriod : route_setter Route.unsetExpirationPeriod.

#[export] Program Instance Route_laws : StatusDatasetItemLaws Route.t := {|
  item_ok := route_ok;
  item_seq := fun s => present (route_slots s);
  item_norm := fun s => Route.with_wire (parsed_block tlv_nfd.Route (present (route_slots s))) s;
  item_set_wire := Route.with_wire;
  item_setter := route_setter;
|}.
Next Obligation. by vm_compute. Qed.
Next Obligation. intros s _. seq_types. Qed.
Next Obligation. intros s _. enc_record. Qed.
Next Obligation. done. Qed.
Next Obligation. done. Qed.
Next Obligation.
  intros s s0 Hok Hl. unfold route_ok in Hok. destruct_and? Hok. cbn [item_wireDecode Route_item]. unfold Route.wireDecode.
  rewrite decode_start by (done || seq_types). change (Block.elements _) with (elems (route_slots s)).
  set (w := parsed_block _ _). unfold route_slots. repeat dec_slot. by destruct s, s0.
Qed.
Next Obligation. done. Qed.
Next Obligation. intros s _. cbn. unfold Route.eqb. cbv zeta. eqb_same. Qed.
Next Obligation. intros m s Hm. destruct Hm; try done. unfold Route.setExpirationPeriod. by destruct (_ =? _). Qed.
Next Obligation. done. Qed.

(** *** ForwarderStatus *)

Definition general_slots (s : ForwarderStatus.t) : list (Z * option bytes) :=
  [(tlv_nfd.NfdVersion, Some (ForwarderStatus.m_nfdVersion s));
   (tlv_nfd.StartTimestamp, Some (tlv.writeNonNegativeInteger (u64 (time.toUnixTimestamp (ForwarderStatus.m_startTimestamp s)))));
   (tlv_nfd.CurrentTimestamp, Some (tlv.writeNonNegativeInteger (u64 (time.toUnixTimestamp (ForwarderStatus.m_currentTimestamp s)))));
   (tlv_nfd.NNameTreeEntries, Some (tlv.writeNonNegativeInteger (ForwarderStatus.m_nNameTreeEntries s)));
   (tlv_nfd.NFibEntries, Some (tlv.writeNonNegativeInteger (ForwarderStatus.m_nFibEntries s)));
   (tlv_nfd.NPitEntries, Some (tlv.writeNonNegativeInteger (ForwarderStatus.m_nPitEntries s)));
   (tlv_nfd.NMeasurementsEntries, Some (tlv.writeNonNegativeInteger (ForwarderStatus.m_nMeasurementsEntries s)));
   (tlv_nfd.NCsEntries, Some (tlv.writeNonNegativeInteger (ForwarderStatus.m_nCsEntries s)));
   (tlv_nfd.NInInterests, Some (tlv.writeNonNegativeInteger (ForwarderStatus.m_nInInterests s)));
   (tlv_nfd.NInData, Some (tlv.writeNonNegativeInteger (ForwarderStatus.m_nInData s)));
   (tlv_nfd.NInNacks, Some (tlv.writeNonNegativeInteger (ForwarderStatus.m_nInNacks s)));
   (tlv_nfd.NOutInterests, Some (tlv.writeNonNegativeInteger (ForwarderStatus.m_nOutInterests s)));
   (tlv_nfd.NOutData, Some (tlv.writeNonNegativeInteger (ForwarderStatus.m_nOutData s)));
   (tlv_nfd.NOutNacks, Some (tlv.writeNonNegativeInteger (ForwarderStatus.m_nOutNacks s)));
   (tlv_nfd.NSatisfiedInterests, Some (tlv.writeNonNegativeInteger (ForwarderStatus.m_nSatisfiedInterests s)));
   (tlv_nfd.NUnsatisfiedInterests, Some (tlv.writeNonNegativeInteger (ForwarderStatus.m_nUnsatisfiedInterests s)))].

Definition general_ok (s : ForwarderStatus.t) : Prop :=
  whole_ms (ForwarderStatus.m_startTimestamp s) /\
  whole_ms (ForwarderStatus.m_currentTimestamp s) /\
  is_u64 (ForwarderStatus.m_nNameTreeEntries s) /\
  is_u64 (ForwarderStatus.m_nFibEntries s) /\
  is_u64 (ForwarderStatus.m_nPitEntries s) /\
  is_u64 (ForwarderStatus.m_nMeasurementsEntries s) /\
  is_u64 (ForwarderStatus.m_nCsEntries s) /\
  is_u64 (ForwarderStatus.m_nInInterests s) /\
  is_u64 (ForwarderStatus.m_nInData s) /\
  is_u64 (ForwarderStatus.m_nInNacks s) /\
  is_u64 (ForwarderStatus.m_nOutInterests s) /\
  is_u64 (ForwarderStatus.m_nOutData s) /\
  is_u64 (ForwarderStatus.m_nOutNacks s) /\
  is_u64 (ForwarderStatus.m_nSatisfiedInterests s) /\
  is_u64 (ForwarderStatus.m_nUnsatisfiedInterests s).

Inductive general_setter : M ForwarderStatus.t unit -> Prop :=
| general_setNfdVersion x : general_setter (ForwarderStatus.setNfdVersion x)
| general_setStartTimestamp x : general_setter (ForwarderStatus.setStartTimestamp x)
| general_setCurrentTimestamp x : general_setter (ForwarderStatus.setCurrentTimestamp x)
| general_setNNameTreeEntries x : general_setter (ForwarderStatus.setNNameTreeEntries x)
| general_setNFibEntries x : general_setter (ForwarderStatus.setNFibEntries x)
| general_setNPitEntries x : general_setter (ForwarderStatus.setNPitEntries x)
| general_setNMeasurementsEntries x : general_setter (ForwarderStatus.setNMeasurementsEntries x)
| general_setNCsEntries x : general_setter (ForwarderStatus.setNCsEntries x)
| general_setNInInterests x : general_setter (ForwarderStatus.setNInInterests x)
| general_setNInData x : general_setter (ForwarderStatus.setNInData x)
| general_setNInNacks x : general_setter (ForwarderStatus.setNInNacks x)
| general_setNOutInterests x : general_setter (ForwarderStatus.setNOutInterests x)
| general_setNOutData x : general_setter (ForwarderStatus.setNOutData x)
| general_setNOutNacks x : general_setter (ForwarderStatus.setNOutNacks x)
| general_setNSatisfiedInterests x : general_setter (ForwarderStatus.setNSatisfiedInterests x)
| general_setNUnsatisfiedInterests x : general_setter (ForwarderStatus.setNUnsatisfiedInterests x).

#[export] Program Instance ForwarderStatus_laws : StatusDatasetItemLaws ForwarderStatus.t := {|
  item_ok := general_ok;
  item_seq := fun s => present (general_slots s);
  item_norm := fun s => ForwarderStatus.with_wire (parsed_block tlv.Content (present (general_slots s))) s;
  item_set_wire := ForwarderStatus.with_wire;
  item_setter := general_setter;
|}.
Next Obligation. by vm_compute. Qed.
Next Obligation. intros s _. seq_types. Qed.
Next Obligation. intros s _. enc_record. Qed.
Next Obligation. done. Qed.
Next Obligation. done. Qed.
Next Obligation.
  intros s s0 Hok Hl. unfold general_ok in Hok. destruct_and? Hok. cbn [item_wireDecode ForwarderStatus_item]. unfold ForwarderStatus.wireDecode.
  rewrite decode_start by (done || seq_types). change (Block.elements _) with (elems (general_slots s)).
  set (w := parsed_block _ _). unfold general_slots. repeat dec_slot. by destruct s, s0.
Qed.
Next Obligation. done. Qed.
Next Obligation. intros s _. cbn. unfold ForwarderStatus.eqb. cbv zeta. eqb_same. Qed.
Next Obligation. intros m s Hm. by destruct Hm. Qed.
Next Obligation. done. Qed.

(** *** StrategyChoice *)

Definition choice_slots (s : StrategyChoice.t) : list (Z * option bytes) :=
  [(tlv.Name, Some (NameFacts.value (StrategyChoice.m_name s)));
   (tlv_nfd.Strategy, Some (tlv_bytes tlv.Name (NameFacts.value (StrategyChoice.m_strategy s))))].

Inductive choice_setter : M StrategyChoice.t unit -> Prop :=
| choice_setName x : choice_setter (StrategyChoice.setName x)
| choice_setStrategy x : choice_setter (StrategyChoice.setStrategy x).

Lemma read_nested {S} (get : S -> Name.t) (set : Name.t -> S -> S) e ty n s : types_ok n -> is_u64 (len (tlv_bytes tlv.Name (NameFacts.value n))) ->
  (v ← liftR (Block.parsed (BlockFacts.of_pair (ty, tlv_bytes tlv.Name (NameFacts.value n))));
   match Block.elements v with
   | [] => throwM e
   | v :: _ => zoom get set (nameWireDecode v)
   end) s = (set (norm_name n) s, Ok tt).
Proof.
  intros Ht Hl. rewrite <- tlv_seq_one in *. pose proof (name_len _ _ ltac:(left) Hl) as Hn.
  assert (Forall BlockFacts.tlv_ok [(tlv.Name, NameFacts.value n)]) as Hok.
  { constructor; [|constructor]. split; [by vm_compute|exact Hn]. }
  rewrite (bindM_lift _ _ _ _ (BlockFacts.parsed_of_tlv ty _ Hok)). by apply read_name.
Qed.

#[export] Program Instance StrategyChoice_laws : StatusDatasetItemLaws StrategyChoice.t := {|
  item_ok := fun s => types_ok (StrategyChoice.m_name s) /\ types_ok (StrategyChoice.m_strategy s);
  item_seq := fun s => present (choice_slots s);
  item_norm := fun s => StrategyChoice.mk (norm_name (StrategyChoice.m_name s)) (norm_name (StrategyChoice.m_strategy s))
    (parsed_block tlv_nfd.StrategyChoice (present (choice_slots s)));
  item_set_wire := StrategyChoice.with_wire;
  item_setter := choice_setter;
|}.
Next Obligation. by vm_compute. Qed.
Next Obligation. intros s _. seq_types. Qed.
Next Obligation. intros s _. enc_record. Qed.
Next Obligation. done. Qed.
Next Obligation. done. Qed.
Next Obligation.
  intros s s0 [H1 H2] Hl. cbn [item_wireDecode StrategyChoice_item]. unfold StrategyChoice.wireDecode.
  rewrite decode_start by (done || seq_types). change (Block.elements _) with (elems (choice_slots s)).
  assert (is_u64 (len (NameFacts.value (StrategyChoice.m_name s)))) as L1 by (eapply name_len; [|exact Hl]; left).
  assert (is_u64 (len (tlv_bytes tlv.Name (NameFacts.value (StrategyChoice.m_strategy s))))) as L2.
  { eapply (nested_len _ (tlv_nfd.Strategy, _)); [|exact Hl]. right. left. }
  set (w := parsed_block _ _). unfold choice_slots. dec_slot.
  etransitivity; [apply step_required, read_nested; assumption|]. by destruct s, s0.
Qed.
Next Obligation. done. Qed.
Next Obligation. intros s _. cbn. unfold StrategyChoice.eqb. cbn. by rewrite !norm_name_equals. Qed.
Next Obligation. intros m s Hm. by destruct Hm. Qed.
Next Obligation. done. Qed.

(** *** FibEntry and RibEntry *)

Section entries.
Context {E : Type} `{StatusDatasetItemLaws E}.

Definition item_pair (x : E) : Z * bytes := (item_type, BlockFacts.tlv_seq (item_seq x)).

(** The elements of an entry: its prefix, then its records. *)
Definition entry_seq (prefix : Name.t) (l : list E) : list (Z * bytes) := (tlv.Name, NameFacts.value prefix) :: (item_pair <$> l).

Lemma entry_seq_types prefix l : Forall (fun e => is_tlv_type e.1) (entry_seq prefix l).
Proof.
  constructor; [by vm_compute|]. apply Forall_fmap. apply Forall_forall. intros x _. apply item_type_ok.
Qed.

Lemma entry_encodes prefix l ty : Forall item_ok l ->
  EncSeq (pTL ty (pReversed item_template l ;+ Name.wireEncode_template prefix)) [(ty, BlockFacts.tlv_seq (entry_seq prefix l))].
Proof.
  intros Hl. apply EncSeq_TL. unfold entry_seq. change (?x :: ?k) with ([x] ++ k). apply EncSeq_then; [|apply EncSeq_name].
  rewrite <- (join_singletons item_pair). apply EncSeq_reversed. intros x Hx. apply item_encodes.
  rewrite Forall_forall in Hl. by apply Hl, list_elem_of_In.
Qed.

Lemma entry_len prefix l x : x ∈ l -> is_u64 (len (BlockFacts.tlv_seq (entry_seq prefix l))) -> is_u64 (len (BlockFacts.tlv_seq (item_seq x))).
Proof. intros Hx Hl. refine (nested_len _ (item_pair x) _ Hl). right. by apply list_elem_of_fmap_2. Qed.

Lemma item_ofBlock_ok x : item_ok x -> is_u64 (len (BlockFacts.tlv_seq (item_seq x))) ->
  item_ofBlock (BlockFacts.of_pair (item_pair x)) = Ok (item_norm x).
Proof. intros Hx Hl. unfold item_ofBlock, exec. by rewrite (item_decodes x item_init Hx Hl). Qed.

(** The loop over the records. *)
Lemma entry_loop {S} (get : S -> list E) (set : list E -> S -> S) e l : (forall k s, get (set k s) = k) ->
  (forall k k' s, set k (set k' s) = set k s) -> (forall s, set (get s) s = s) ->
  Forall (fun x => item_ok x /\ is_u64 (len (BlockFacts.tlv_seq (item_seq x)))) l -> forall s,
  forM (BlockFacts.of_pair <$> (item_pair <$> l)) (fun v =>
    _ ← throwM_if (negb (Block.type v =? item_type)) e; x ← liftR (item_ofBlock v); modify (fun s => set (get s ++ [x]) s)) s =
  (set (get s ++ (item_norm <$> l)) s, Ok tt).
Proof.
  intros Hgs Hss Hsg Hl. induction Hl as [|x l [Hx Hn] _ IH]; intros s.
  - cbn. by rewrite app_nil_r, Hsg.
  - cbn [fmap list_fmap forM].
    rewrite (bindM_ok _ _ _ (set (get s ++ [item_norm x]) s) tt).
    2: { rewrite bindM_pass by (change (Block.type _) with item_type; by rewrite Z.eqb_refl).
         by rewrite (bindM_lift _ _ _ _ (item_ofBlock_ok x Hx Hn)). }
    etransitivity; [apply IH|]. by rewrite Hgs, Hss, <- (assoc_L (++)).
Qed.

Lemma entry_ok_len prefix l : Forall item_ok l -> is_u64 (len (BlockFacts.tlv_seq (entry_seq prefix l))) ->
  Forall (fun x => item_ok x /\ is_u64 (len (BlockFacts.tlv_seq (item_seq x)))) l.
Proof.
  intros Hl Hn. rewrite Forall_forall in *. intros x Hx. split; [by apply Hl|]. eapply entry_len; [|exact Hn]. by apply list_elem_of_In.
Qed.

Lemma entry_elements ty prefix l : Block.elements (parsed_block ty (entry_seq prefix l)) =
  elems [(tlv.Name, Some (NameFacts.value prefix))] ++ (BlockFacts.of_pair <$> (item_pair <$> l)).
Proof. done. Qed.

End entries.

Definition hop_key (x : NextHopRecord.t) : Z * Z := (NextHopRecord.m_faceId x, NextHopRecord.m_cost x).
Definition route_key (x : Route.t) : Z * Z * Z * Z * Z :=
  (Route.m_faceId x, Route.m_origin x, Route.m_cost x, Route.m_flags x, Route.getExpirationPeriod x).

Lemma hop_eqb_key x y : NextHopRecord.eqb x y = true <-> hop_key x = hop_key y.
Proof. unfold NextHopRecord.eqb, hop_key. rewrite andb_true_iff, !Z.eqb_eq. split; [by intros [-> ->]|by intros [= -> ->]]. Qed.

Lemma route_eqb_key x y : Route.eqb x y = true <-> route_key x = route_key y.
Proof.
  unfold Route.eqb, route_key. rewrite !andb_true_iff, !Z.eqb_eq.
  split; [by intros [[[[-> ->] ->] ->] ->]|by intros [= -> -> -> -> ->]].
Qed.

Inductive fib_setter : M FibEntry.t unit -> Prop :=
| fib_prefix x : fib_setter (FibEntry.setPrefix x)
| fib_add x : fib_setter (FibEntry.addNextHopRecord x)
| fib_clear : fib_setter FibEntry.clearNextHopRecords
| fib_set x : fib_setter (FibEntry.setNextHopRecords x).

#[export] Program Instance FibEntry_laws : StatusDatasetItemLaws FibEntry.t := {|
  item_ok := fun s => types_ok (FibEntry.m_prefix s) /\ Forall item_ok (FibEntry.m_nextHopRecords s);
  item_seq := fun s => entry_seq (FibEntry.m_prefix s) (FibEntry.m_nextHopRecords s);
  item_norm := fun s => FibEntry.mk (norm_name (FibEntry.m_prefix s)) (item_norm <$> FibEntry.m_nextHopRecords s)
    (parsed_block tlv_nfd.FibEntry (entry_seq (FibEntry.m_prefix s) (FibEntry.m_nextHopRecords s)));
  item_set_wire := FibEntry.with_wire;
  item_setter := fib_setter;
|}.
Next Obligation. by vm_compute. Qed.
Next Obligation. intros s _. apply entry_seq_types. Qed.
Next Obligation. intros s [_ Hl]. exact (entry_encodes (FibEntry.m_prefix s) (FibEntry.m_nextHopRecords s) tlv_nfd.FibEntry Hl). Qed.
Next Obligation. done. Qed.
Next Obligation. done. Qed.
Next Obligation.
  intros s s0 [H1 H2] Hl. cbn [item_wireDecode FibEntry_item]. unfold FibEntry.wireDecode.
  rewrite decode_start by (done || apply entry_seq_types). change (Block.elements (FibEntry.m_wire _)) with
    (Block.elements (parsed_block tlv_nfd.FibEntry (entry_seq (FibEntry.m_prefix s) (FibEntry.m_nextHopRecords s)))).
  rewrite entry_elements. set (w := parsed_block _ _).
  assert (is_u64 (len (NameFacts.value (FibEntry.m_prefix s)))) as L1 by (eapply name_len; [|exact Hl]; left).
  cbn [elems present fmap list_fmap app expected_field]. change (Block.type _) with tlv.Name.
  rewrite Z.eqb_refl. cbn [negb]. rewrite assoc_bindM, (bindM_ok _ _ _ _ _ (read_name _ _ _ _ H1 L1)).
  cbv beta. unfold mbind at 1, M_bind at 1, mret, M_ret. rewrite bindM_modify.
  unfold FibEntry.decode_elements. etransitivity.
  { refine (entry_loop FibEntry.m_nextHopRecords FibEntry.with_nextHopRecords (PacketError "NextHopRecord") (FibEntry.m_nextHopRecords s) _ _ _ _ _); [done|done|by intros []|by eapply entry_ok_len]. }
  by destruct s, s0.
Qed.
Next Obligation. done. Qed.
Next Obligation.
  intros s _. cbn. unfold FibEntry.eqb. cbn. rewrite norm_name_equals. cbn [andb].
  apply (same_elements_spec _ _ hop_eqb_key). by rewrite <- list_fmap_compose.
Qed.
Next Obligation. intros m s Hm. by destruct Hm. Qed.
Next Obligation. done. Qed.

Inductive rib_setter : M RibEntry.t unit -> Prop :=
| rib_prefix x : rib_setter (RibEntry.setName x)
| rib_add x : rib_setter (RibEntry.addRoute x)
| rib_clear : rib_setter RibEntry.clearRoutes
| rib_set x : rib_setter (RibEntry.setRoutes x).

#[export] Program Instance RibEntry_laws : StatusDatasetItemLaws RibEntry.t := {|
  item_ok := fun s => types_ok (RibEntry.m_prefix s) /\ Forall item_ok (RibEntry.m_routes s);
  item_seq := fun s => entry_seq (RibEntry.m_prefix s) (RibEntry.m_routes s);
  item_norm := fun s => RibEntry.mk (norm_name (RibEntry.m_prefix s)) (item_norm <$> RibEntry.m_routes s)
    (parsed_block tlv_nfd.RibEntry (entry_seq (RibEntry.m_prefix s) (RibEntry.m_routes s)));
  item_set_wire := RibEntry.with_wire;
  item_setter := rib_setter;
|}.
Next Obligation. by vm_compute. Qed.
Next Obligation. intros s _. apply entry_seq_types. Qed.
Next Obligation. intros s [_ Hl]. exact (entry_encodes (RibEntry.m_prefix s) (RibEntry.m_routes s) tlv_nfd.RibEntry Hl). Qed.
Next Obligation. done. Qed.
Next Obligation. done. Qed.
Next Obligation.
  intros s s0 [H1 H2] Hl. cbn [item_wireDecode RibEntry_item]. unfold RibEntry.wireDecode.
  rewrite decode_start by (done || apply entry_seq_types). change (Block.elements (RibEntry.m_wire _)) with
    (Block.elements (parsed_block tlv_nfd.RibEntry (entry_seq (RibEntry.m_prefix s) (RibEntry.m_routes s)))).
  rewrite entry_elements. set (w := parsed_block _ _).
  assert (is_u64 (len (NameFacts.value (RibEntry.m_prefix s)))) as L1 by (eapply name_len; [|exact Hl]; left).
  cbn [elems present fmap list_fmap app expected_field]. change (Block.type _) with tlv.Name.
  rewrite Z.eqb_refl. cbn [negb]. rewrite assoc_bindM, (bindM_ok _ _ _ _ _ (read_name _ _ _ _ H1 L1)).
  cbv beta. unfold mbind at 1, M_bind at 1, mret, M_ret. rewrite bindM_modify.
  unfold RibEntry.decode_elements. etransitivity.
  { refine (entry_loop RibEntry.m_routes RibEntry.with_routes (PacketError "Route") (RibEntry.m_routes s) _ _ _ _ _); [done|done|by intros []|by eapply entry_ok_len]. }
  by destruct s, s0.
Qed.
Next Obligation. done. Qed.
Next Obligation.
  intros s _. cbn. unfold RibEntry.eqb. cbn. rewrite norm_name_equals. cbn [andb].
  apply (same_elements_spec _ _ route_eqb_key). by rewrite <- list_fmap_compose.
Qed.
Next Obligation. intros m s Hm. by destruct Hm. Qed.
Next Obligation. done. Qed.

End RecordLaws.

(** ** Datasets *)

Module DatasetFacts.
Import FieldFacts RecordFacts RecordLaws StatusDataset.

(** The octets a constructor takes from the front of a buffer. *)
Lemma fromSpan_split bs b : Block.fromSpan bs = Ok b -> exists w tail,
  bs = w ++ tail /\ (0 < length w)%nat /\ Block.wire b = Ok w /\ Block.size b = Ok (len w).
Proof.
  unfold Block.fromSpan. intros H.
  destruct (tlv.readType bs) as [[ty pos1]|] eqn:R1; simpl in H; [|done].
  destruct (tlv.readVarNumber pos1) as [[n pos]|] eqn:R2; simpl in H; [|done].
  unfold throw_if in H. destruct (len pos <? n) eqn:Hn; simpl in H; [done|]. bool_to_prop. simplify_eq.
  destruct (read_header_split _ _ _ _ _ R1 R2) as (hdr & -> & Ht & Hu & Hs).
  pose proof (sizeOfVarNumber_pos ty). pose proof (sizeOfVarNumber_pos n).
  set (k := (length (hdr ++ pos) - length pos + length (take (Z.to_nat n) pos))%nat).
  assert (0 < length (take k (hdr ++ pos)))%nat as Hk.
  { rewrite length_take, length_app. unfold k. rewrite length_app. unfold len in Hs. lia. }
  exists (take k (hdr ++ pos)), (drop k (hdr ++ pos)). split; [by rewrite take_drop|]. split; [done|]. split.
  - unfold Block.wire. cbn [Block.m_buf]. destruct (take k (hdr ++ pos)); [cbn in Hk; lia|done].
  - unfold Block.size, Block.isValid. cbn [Block.m_type Block.m_size]. width. unfold tlv.Invalid.
    by replace (ty =? 0) with false by lia.
Qed.

Section datasets.
Context {T : Type} `{StatusDatasetItem T}.

(** The loop takes one element per round: it ends, and what it accepts is a
    sequence of elements that the records accept. *)
Lemma parse_loop_total fuel payload : forall offset items, (length payload - offset < fuel)%nat ->
  exists r, parse_loop fuel payload offset items = Some r /\
    forall l, r = Ok l -> exists blocks wires new, mapR Block.wire blocks = Ok wires /\ mapR item_ofBlock blocks = Ok new /\
      drop offset payload = mjoin wires /\ l = items ++ new.
Proof.
  induction fuel as [|fuel IH]; intros offset items Hf; [lia|]. cbn [parse_loop].
  destruct (Nat.ltb_spec offset (length payload)) as [Ho|Ho].
  - destruct (Block.fromBuffer payload offset) as [b|] eqn:E; [|eexists; split; [done|]; done].
    rewrite BlockFacts.fromBuffer_spec in E. apply BlockFacts.fromBufferSpan_spec, fromSpan_split in E as (w & tail & Hd & Hw & Hwire & Hsize).
    rewrite Hsize. cbn [mbind result_bind]. destruct (item_ofBlock b) as [x|e] eqn:Ex; cbn [mbind result_bind]; [|eexists; split; [done|]; done].
    rewrite to_nat_len. destruct (IH (offset + length w)%nat (items ++ [x])) as (r & Hr & Hl); [lia|].
    exists r. split; [done|]. intros l ->. destruct (Hl l eq_refl) as (blocks & wires & new & H1 & H2 & H3 & ->).
    exists (b :: blocks), (w :: wires), (x :: new). cbn [mapR mjoin list_join]. rewrite Hwire, H1, Ex, H2. split_and!; [done..| |by rewrite <- (assoc_L (++))].
    rewrite <- drop_drop, Hd, drop_app_length in H3. by rewrite Hd, H3.
  - eexists. split; [done|]. intros l [= <-]. exists [], [], []. rewrite drop_ge by lia. by rewrite app_nil_r.
Qed.

End datasets.

Section roundtrip.
Context {T : Type} `{StatusDatasetItemLaws T}.

Definition fits (x : T) : Prop := is_u64 (len (BlockFacts.tlv_seq (item_seq x))).
Definition octets (x : T) : bytes := tlv_bytes item_type (BlockFacts.tlv_seq (item_seq x)).

Lemma parse_loop_items l : Forall (fun x => item_ok x /\ fits x) l -> forall fuel pre items, (length l < fuel)%nat ->
  parse_loop fuel (pre ++ mjoin (octets <$> l)) (length pre) items = Some (Ok (items ++ (item_norm <$> l))).
Proof.
  induction 1 as [|x l [Hx Hn] _ IH]; intros [|fuel] pre items Hf; [cbn in Hf; lia| |cbn in Hf; lia|]; cbn [parse_loop fmap list_fmap mjoin list_join].
  - rewrite !app_nil_r. by rewrite Nat.ltb_irrefl.
  - pose proof (tlv_bytes_nonempty item_type (BlockFacts.tlv_seq (item_seq x)) []) as Hne. rewrite app_nil_r in Hne.
    replace (length pre <? length (pre ++ octets x ++ mjoin (octets <$> l)))%nat with true.
    2: { symmetry. apply Nat.ltb_lt. rewrite !length_app. unfold octets. destruct (tlv_bytes _ _); [done|]. cbn. lia. }
    rewrite BlockFacts.fromBuffer_spec, drop_app_length.
    rewrite (proj2 (BlockFacts.fromBufferSpan_spec _ (seq_block item_type (item_seq x)))).
    2: { apply BlockFacts.fromSpan_tlv; [apply item_type_ok|exact Hn]. }
    assert (Block.size (seq_block item_type (item_seq x)) = Ok (len (octets x))) as ->.
    { unfold Block.size, Block.isValid. cbn [seq_block Block.of_tlv Block.m_type Block.m_size]. pose proof item_type_ok as Ht. width.
      unfold tlv.Invalid. by replace (item_type =? 0) with false by lia. }
    pose proof (item_ofBlock_ok x Hx Hn) as Hof. cbn [mbind result_bind]. setoid_rewrite Hof. cbn [mbind result_bind].
    rewrite to_nat_len, <- length_app, (assoc_L (++)). rewrite IH by (cbn in Hf; lia). by rewrite <- (assoc_L (++)).
Qed.

(** The state of a record built by its member functions: the cached wire, if
    there is one, is the encoding of the fields. *)
Inductive built : T -> Prop :=
| built_init : built item_init
| built_set m x : built x -> item_setter m -> built (fst (m x))
| built_encode x : built x -> item_ok x -> fits x -> built (fst (item_wireEncode x)).

Definition coherent (x : T) : Prop :=
  Block.hasWire (item_wire x) = true -> item_wire x = seq_block item_type (item_seq x).

Lemma encode_coherent x : coherent x -> item_ok x -> fits x ->
  item_wireEncode x = (fst (item_wireEncode x), Ok (seq_block item_type (item_seq x))) /\ coherent (fst (item_wireEncode x)).
Proof.
  intros Hc Hx Hn. rewrite item_cached. unfold cachedEncode. rewrite bindM_self.
  destruct (Block.hasWire (item_wire x)) eqn:E; [rewrite (Hc E); done|].
  pose proof (makeBlock_seq _ _ _ (item_encodes x Hx) item_type_ok Hn) as Hb.
  rewrite (bindM_lift _ _ _ _ Hb), bindM_modify. split; [done|].
  destruct (item_set_wire_ok (seq_block item_type (item_seq x)) x) as (H1 & H2 & _).
  intros _. change (fst _) with (item_set_wire (seq_block item_type (item_seq x)) x). by rewrite H1, H2.
Qed.

Lemma built_coherent x : built x -> coherent x.
Proof.
  induction 1 as [|m x _ IH Hm|x _ IH Hx Hn]; [|..].
  - intros E. by rewrite item_init_wire in E.
  - intros E. by rewrite (item_setter_resets m x Hm) in E.
  - by apply encode_coherent.
Qed.

End roundtrip.
End DatasetFacts.

(** ** Theorems *)

Module DatasetTheorems.
Import FieldFacts RecordFacts RecordLaws StatusDataset DatasetFacts.

Lemma seq_block_wire ty l : Block.wire (seq_block ty l) = Ok (tlv_bytes ty (BlockFacts.tlv_seq l)).
Proof.
  unfold Block.wire. cbn [seq_block Block.of_tlv Block.m_buf]. pose proof (tlv_bytes_nonempty ty (BlockFacts.tlv_seq l) []) as H.
  rewrite app_nil_r in H. by destruct (tlv_bytes _ _).
Qed.

(** Records that survive their wire: whatever setters and encodings made the
    record, with fields in the ranges of the wire format. *)
Definition roundtrips (T : Type) `{StatusDatasetItemLaws T} : Prop := forall x x0 : T, built x -> item_ok x -> fits x ->
  exists b y, item_wireEncode x = (fst (item_wireEncode x), Ok b) /\ Block.wire b = Ok (octets x) /\
    item_wireDecode b x0 = (y, Ok tt) /\ (b' ← Block.fromSpan (octets x); item_ofBlock b') = Ok y /\
    item_eqb x y = true /\ item_wireEncode y = (y, Ok (item_wire y)) /\ Block.wire (item_wire y) = Ok (octets x).

Lemma laws_roundtrip {T} `{StatusDatasetItemLaws T} : roundtrips T.
Proof.
  intros x x0 Hb Hok Hf. exists (seq_block item_type (item_seq x)), (item_norm x).
  destruct (encode_coherent x (built_coherent x Hb) Hok Hf) as [He _].
  split_and!; [exact He|apply seq_block_wire|by apply item_decodes| |by apply item_norm_eqb| |].
  - pose proof (BlockFacts.fromSpan_tlv item_type (BlockFacts.tlv_seq (item_seq x)) [] item_type_ok Hf) as Hs.
    rewrite app_nil_r in Hs. unfold octets. rewrite Hs. exact (item_ofBlock_ok x Hok Hf).
  - rewrite item_cached. unfold cachedEncode. by rewrite bindM_self, item_norm_wire, parsed_hasWire.
  - rewrite item_norm_wire. apply seq_block_wire.
Qed.

(** C21: every record of the management protocol is coherent with its cached
    wire and survives it: ChannelStatus, CsInfo, FaceStatus,
    FaceEventNotification, FaceQueryFilter, NextHopRecord, FibEntry, Route,
    RibEntry, StrategyChoice and ForwarderStatus.  After any setters and
    encodings, [wireEncode] returns the shortest encoding of the current
    fields, and decoding these octets into any object, whatever it held, gives
    an equal record that encodes to the same octets again.  This holds for a
    record whose fields are in the ranges of the wire format (numbers of their
    width, periods that are not negative, component types that are legal, and
    for ForwarderStatus time stamps of whole milliseconds, since encoding
    drops the rest) and whose encoding has a length of 64 bits. *)
Theorem status_item_roundtrip :
  roundtrips ChannelStatus.t /\ roundtrips CsInfo.t /\ roundtrips FaceStatus.t /\ roundtrips FaceEventNotification.t /\
  roundtrips FaceQueryFilter.t /\ roundtrips NextHopRecord.t /\ roundtrips FibEntry.t /\ roundtrips Route.t /\
  roundtrips RibEntry.t /\ roundtrips StrategyChoice.t /\ roundtrips ForwarderStatus.t.
Proof. split_and!; apply laws_roundtrip. Qed.

(** A dataset survives its wire: the encodings of any records of one kind,
    put together, are parsed back into equal records in the same order. *)
Theorem status_dataset_roundtrip {T} `{StatusDatasetItemLaws T} (l : list T)
    (Hl : Forall (fun x => item_ok x /\ fits x) l) :
  exists l', parseDatasetVector (mjoin (octets <$> l)) = Some (Ok l') /\
    Forall2 (fun x y => item_eqb x y = true) l l'.
Proof.
  exists (item_norm <$> l). split.
  - unfold parseDatasetVector. apply (parse_loop_items l Hl _ [] []). clear Hl. induction l as [|x l IH]; cbn [length fmap list_fmap mjoin list_join]; [lia|].
    pose proof (tlv_bytes_nonempty item_type (BlockFacts.tlv_seq (item_seq x)) []) as Hne. rewrite app_nil_r in Hne.
    assert (0 < length (octets x))%nat as Hx by (unfold octets; destruct (tlv_bytes _ _); [done|cbn; lia]).
    rewrite length_app. eapply Nat.lt_le_trans; [apply -> Nat.succ_lt_mono; exact IH|].
    exact (le_n_S _ _ (Nat.add_le_mono 1 _ _ _ Hx (Nat.le_refl _))).
  - apply Forall2_fmap_r, Forall_Forall2_diag. eapply Forall_impl; [|exact Hl]. intros x [Hx _]. by apply item_norm_eqb.
Qed.

(** Parsing a dataset ends on every payload, and it accepts exactly
    sequences of elements: the payload is then their wires one after the other,
    nothing skipped or left over, and the records are those decoded from them. *)
Theorem status_dataset_parse {T} `{StatusDatasetItem T} (payload : bytes) :
  exists r : result (list T), parseDatasetVector payload = Some r /\
    forall l, r = Ok l -> exists blocks wires,
      mapR Block.wire blocks = Ok wires /\ payload = mjoin wires /\ mapR item_ofBlock blocks = Ok l.
Proof.
  destruct (parse_loop_total (S (length payload)) payload 0 (@nil T)) as (r & Hr & Hl); [lia|].
  exists r. split; [exact Hr|]. intros l ->. destruct (Hl l eq_refl) as (blocks & wires & new & H1 & H2 & H3 & ->).
  exists blocks, wires. done.
Qed.

(** Two FIB entries, or two RIB entries, are equal exactly when their names
    are and their next hops, or routes, are the same up to order, counted with
    multiplicity; the quadratic loop with its flags decides this. *)
Theorem entry_equality_multiset (f g : FibEntry.t) (r s : RibEntry.t) :
  (FibEntry.eqb f g = true <-> Name.equals (FibEntry.m_prefix f) (FibEntry.m_prefix g) = true /\
     (hop_key <$> FibEntry.m_nextHopRecords f) ≡ₚ (hop_key <$> FibEntry.m_nextHopRecords g)) /\
  (RibEntry.eqb r s = true <-> Name.equals (RibEntry.m_prefix r) (RibEntry.m_prefix s) = true /\
     (route_key <$> RibEntry.m_routes r) ≡ₚ (route_key <$> RibEntry.m_routes s)).
Proof.
  unfold FibEntry.eqb, RibEntry.eqb. rewrite !andb_true_iff, (same_elements_spec _ _ hop_eqb_key), (same_elements_spec _ _ route_eqb_key).
  done.
Qed.

(** *** Samples *)

Definition run {T} (m : M T unit) (x : T) : T := fst (m x).

Definition sample_route : Route.t :=
  run (Route.setExpirationPeriod 60000) (run (Route.setCost 10) (run (Route.setFaceId 258) Route.init)).

Definition sample_rib : RibEntry.t := run (RibEntry.addRoute Route.init) (run (RibEntry.addRoute sample_route) RibEntry.init).

Lemma sample_rib_built : built sample_rib.
Proof.
  exact (built_set (T := RibEntry.t) _ _ (built_set (T := RibEntry.t) _ _ built_init (rib_add sample_route)) (rib_add Route.init)).
Qed.

Lemma sample_routes : RibEntry.m_routes sample_rib = [Route.mk 258 0 10 1 (Some 60000) Block.empty; Route.mk 0 0 0 1 None Block.empty].
Proof. vm_compute. reflexivity. Qed.

Lemma sample_route_ok f c e : is_u64 f -> is_u64 c -> (forall n, e = Some n -> u63 n) -> route_ok (Route.mk f 0 c 1 e Block.empty).
Proof. intros Hf Hc He. unfold route_ok, within. cbn. split_and!; [done|by width|by width|done|by width|done]. Qed.

Lemma sample_rib_ok : item_ok sample_rib.
Proof.
  split; [constructor|]. rewrite sample_routes. constructor; [|constructor; [|constructor]]; apply sample_route_ok.
  - by width.
  - by width.
  - intros n [= <-]. unfold u63. lia.
  - by width.
  - by width.
  - done.
Qed.

Lemma sample_rib_fits : fits sample_rib.
Proof. by vm_compute. Qed.

Lemma status_item_roundtrip_witness : exists b y, item_wireEncode sample_rib = (fst (item_wireEncode sample_rib), Ok b) /\
  item_wireDecode b RibEntry.init = (y, Ok tt) /\ item_eqb sample_rib y = true.
Proof.
  destruct status_item_roundtrip as (_ & _ & _ & _ & _ & _ & _ & _ & Hr & _).
  destruct (Hr sample_rib RibEntry.init sample_rib_built sample_rib_ok sample_rib_fits) as (b & y & H1 & _ & H2 & _ & H3 & _).
  exists b, y. split_and!; [exact H1|exact H2|exact H3].
Defined.

Lemma status_dataset_roundtrip_witness : exists l',
  parseDatasetVector (mjoin (octets <$> [sample_rib; RibEntry.init; sample_rib])) = Some (Ok l') /\
  Forall2 (fun x y => item_eqb x y = true) [sample_rib; RibEntry.init; sample_rib] l'.
Proof.
  apply (status_dataset_roundtrip [sample_rib; RibEntry.init; sample_rib]).
  assert (item_ok RibEntry.init /\ fits RibEntry.init) as Hi by (split; [split; constructor|by vm_compute]).
  assert (item_ok sample_rib /\ fits sample_rib) as Hs by (split; [exact sample_rib_ok|exact sample_rib_fits]).
  constructor; [exact Hs|]. constructor; [exact Hi|]. constructor; [exact Hs|constructor].
Defined.

End DatasetTheorems.
