(* ===== verification/NfdControl.v ===== *)
(** The control commands of the NFD management protocol:
    [ndn-cxx/mgmt/nfd/control-parameters.cpp], [control-command.cpp] and
    [mgmt/control-response.cpp].

    An accessor whose [BOOST_ASSERT] fails, or an expression with undefined
    behaviour, has no value: [None]. *)

From S2P Require Import Prelude Tlv Encoding Blocks BlockHelpers Text NameComponents Names Fields DataPacket Announcements NfdStatus.

(** ** ControlParameters *)

Module ControlParameters.

(** [ndn-cxx/mgmt/nfd/control-parameters.hpp:36-54] ControlParameterField *)
Inductive ControlParameterField :=
| CONTROL_PARAMETER_NAME
| CONTROL_PARAMETER_FACE_ID
| CONTROL_PARAMETER_URI
| CONTROL_PARAMETER_LOCAL_URI
| CONTROL_PARAMETER_ORIGIN
| CONTROL_PARAMETER_COST
| CONTROL_PARAMETER_CAPACITY
| CONTROL_PARAMETER_COUNT
| CONTROL_PARAMETER_FLAGS
| CONTROL_PARAMETER_MASK
| CONTROL_PARAMETER_STRATEGY
| CONTROL_PARAMETER_EXPIRATION_PERIOD
| CONTROL_PARAMETER_FACE_PERSISTENCY
| CONTROL_PARAMETER_BASE_CONGESTION_MARKING_INTERVAL
| CONTROL_PARAMETER_DEFAULT_CONGESTION_THRESHOLD
| CONTROL_PARAMETER_MTU.

#[export] Instance field_eq_dec : EqDecision ControlParameterField.
Proof. solve_decision. Defined.

(** The enumerators in order, and the number of each. *)
Definition all_fields : list ControlParameterField :=
  [CONTROL_PARAMETER_NAME;
   CONTROL_PARAMETER_FACE_ID;
   CONTROL_PARAMETER_URI;
   CONTROL_PARAMETER_LOCAL_URI;
   CONTROL_PARAMETER_ORIGIN;
   CONTROL_PARAMETER_COST;
   CONTROL_PARAMETER_CAPACITY;
   CONTROL_PARAMETER_COUNT;
   CONTROL_PARAMETER_FLAGS;
   CONTROL_PARAMETER_MASK;
   CONTROL_PARAMETER_STRATEGY;
   CONTROL_PARAMETER_EXPIRATION_PERIOD;
   CONTROL_PARAMETER_FACE_PERSISTENCY;
   CONTROL_PARAMETER_BASE_CONGESTION_MARKING_INTERVAL;
   CONTROL_PARAMETER_DEFAULT_CONGESTION_THRESHOLD;
   CONTROL_PARAMETER_MTU].

Definition index (f : ControlParameterField) : nat :=
  match f with
  | CONTROL_PARAMETER_NAME => 0
  | CONTROL_PARAMETER_FACE_ID => 1
  | CONTROL_PARAMETER_URI => 2
  | CONTROL_PARAMETER_LOCAL_URI => 3
  | CONTROL_PARAMETER_ORIGIN => 4
  | CONTROL_PARAMETER_COST => 5
  | CONTROL_PARAMETER_CAPACITY => 6
  | CONTROL_PARAMETER_COUNT => 7
  | CONTROL_PARAMETER_FLAGS => 8
  | CONTROL_PARAMETER_MASK => 9
  | CONTROL_PARAMETER_STRATEGY => 10
  | CONTROL_PARAMETER_EXPIRATION_PERIOD => 11
  | CONTROL_PARAMETER_FACE_PERSISTENCY => 12
  | CONTROL_PARAMETER_BASE_CONGESTION_MARKING_INTERVAL => 13
  | CONTROL_PARAMETER_DEFAULT_CONGESTION_THRESHOLD => 14
  | CONTROL_PARAMETER_MTU => 15
  end%nat.

(** [ndn-cxx/mgmt/nfd/control-parameters.hpp:53-53] CONTROL_PARAMETER_UBOUND *)
Definition CONTROL_PARAMETER_UBOUND : nat := 16.

(** [ndn-cxx/mgmt/nfd/control-parameters.hpp:56-73] CONTROL_PARAMETER_FIELD *)
Definition CONTROL_PARAMETER_FIELD (f : ControlParameterField) : string :=
  match f with
  | CONTROL_PARAMETER_NAME => "Name"
  | CONTROL_PARAMETER_FACE_ID => "FaceId"
  | CONTROL_PARAMETER_URI => "Uri"
  | CONTROL_PARAMETER_LOCAL_URI => "LocalUri"
  | CONTROL_PARAMETER_ORIGIN => "Origin"
  | CONTROL_PARAMETER_COST => "Cost"
  | CONTROL_PARAMETER_CAPACITY => "Capacity"
  | CONTROL_PARAMETER_COUNT => "Count"
  | CONTROL_PARAMETER_FLAGS => "Flags"
  | CONTROL_PARAMETER_MASK => "Mask"
  | CONTROL_PARAMETER_STRATEGY => "Strategy"
  | CONTROL_PARAMETER_EXPIRATION_PERIOD => "ExpirationPeriod"
  | CONTROL_PARAMETER_FACE_PERSISTENCY => "FacePersistency"
  | CONTROL_PARAMETER_BASE_CONGESTION_MARKING_INTERVAL => "BaseCongestionMarkingInterval"
  | CONTROL_PARAMETER_DEFAULT_CONGESTION_THRESHOLD => "DefaultCongestionThreshold"
  | CONTROL_PARAMETER_MTU => "Mtu"
  end.

(** [ndn-cxx/mgmt/nfd/control-parameters.hpp:637-657] ControlParameters *)
Record t := mk {
  m_hasFields : list bool;
  m_name : Name.t;
  m_faceId : Z;
  m_uri : bytes;
  m_localUri : bytes;
  m_origin : Z;
  m_cost : Z;
  m_capacity : Z;
  m_count : Z;
  m_flags : Z;
  m_mask : Z;
  m_strategy : Name.t;
  m_expirationPeriod : Z;
  m_facePersistency : Z;
  m_baseCongestionMarkingInterval : Z;
  m_defaultCongestionThreshold : Z;
  m_mtu : Z;
  m_wire : Block.t;
}.

Definition with_hasFields x s := mk x (m_name s) (m_faceId s) (m_uri s) (m_localUri s) (m_origin s) (m_cost s) (m_capacity s) (m_count s) (m_flags s) (m_mask s) (m_strategy s) (m_expirationPeriod s) (m_facePersistency s) (m_baseCongestionMarkingInterval s) (m_defaultCongestionThreshold s) (m_mtu s) (m_wire s).
Definition with_name x s := mk (m_hasFields s) x (m_faceId s) (m_uri s) (m_localUri s) (m_origin s) (m_cost s) (m_capacity s) (m_count s) (m_flags s) (m_mask s) (m_strategy s) (m_expirationPeriod s) (m_facePersistency s) (m_baseCongestionMarkingInterval s) (m_defaultCongestionThreshold s) (m_mtu s) (m_wire s).
Definition with_faceId x s := mk (m_hasFields s) (m_name s) x (m_uri s) (m_localUri s) (m_origin s) (m_cost s) (m_capacity s) (m_count s) (m_flags s) (m_mask s) (m_strategy s) (m_expirationPeriod s) (m_facePersistency s) (m_baseCongestionMarkingInterval s) (m_defaultCongestionThreshold s) (m_mtu s) (m_wire s).
Definition with_uri x s := mk (m_hasFields s) (m_name s) (m_faceId s) x (m_localUri s) (m_origin s) (m_cost s) (m_capacity s) (m_count s) (m_flags s) (m_mask s) (m_strategy s) (m_expirationPeriod s) (m_facePersistency s) (m_baseCongestionMarkingInterval s) (m_defaultCongestionThreshold s) (m_mtu s) (m_wire s).
Definition with_localUri x s := mk (m_hasFields s) (m_name s) (m_faceId s) (m_uri s) x (m_origin s) (m_cost s) (m_capacity s) (m_count s) (m_flags s) (m_mask s) (m_strategy s) (m_expirationPeriod s) (m_facePersistency s) (m_baseCongestionMarkingInterval s) (m_defaultCongestionThreshold s) (m_mtu s) (m_wire s).
Definition with_origin x s := mk (m_hasFields s) (m_name s) (m_faceId s) (m_uri s) (m_localUri s) x (m_cost s) (m_capacity s) (m_count s) (m_flags s) (m_mask s) (m_strategy s) (m_expirationPeriod s) (m_facePersistency s) (m_baseCongestionMarkingInterval s) (m_defaultCongestionThreshold s) (m_mtu s) (m_wire s).
Definition with_cost x s := mk (m_hasFields s) (m_name s) (m_faceId s) (m_uri s) (m_localUri s) (m_origin s) x (m_capacity s) (m_count s) (m_flags s) (m_mask s) (m_strategy s) (m_expirationPeriod s) (m_facePersistency s) (m_baseCongestionMarkingInterval s) (m_defaultCongestionThreshold s) (m_mtu s) (m_wire s).
Definition with_capacity x s := mk (m_hasFields s) (m_name s) (m_faceId s) (m_uri s) (m_localUri s) (m_origin s) (m_cost s) x (m_count s) (m_flags s) (m_mask s) (m_strategy s) (m_expirationPeriod s) (m_facePersistency s) (m_baseCongestionMarkingInterval s) (m_defaultCongestionThreshold s) (m_mtu s) (m_wire s).
Definition with_count x s := mk (m_hasFields s) (m_name s) (m_faceId s) (m_uri s) (m_localUri s) (m_origin s) (m_cost s) (m_capacity s) x (m_flags s) (m_mask s) (m_strategy s) (m_expirationPeriod s) (m_facePersistency s) (m_baseCongestionMarkingInterval s) (m_defaultCongestionThreshold s) (m_mtu s) (m_wire s).
Definition with_flags x s := mk (m_hasFields s) (m_name s) (m_faceId s) (m_uri s) (m_localUri s) (m_origin s) (m_cost s) (m_capacity s) (m_count s) x (m_mask s) (m_strategy s) (m_expirationPeriod s) (m_facePersistency s) (m_baseCongestionMarkingInterval s) (m_defaultCongestionThreshold s) (m_mtu s) (m_wire s).
Definition with_mask x s := mk (m_hasFields s) (m_name s) (m_faceId s) (m_uri s) (m_localUri s) (m_origin s) (m_cost s) (m_capacity s) (m_count s) (m_flags s) x (m_strategy s) (m_expirationPeriod s) (m_facePersistency s) (m_baseCongestionMarkingInterval s) (m_defaultCongestionThreshold s) (m_mtu s) (m_wire s).
Definition with_strategy x s := mk (m_hasFields s) (m_name s) (m_faceId s) (m_uri s) (m_localUri s) (m_origin s) (m_cost s) (m_capacity s) (m_count s) (m_flags s) (m_mask s) x (m_expirationPeriod s) (m_facePersistency s) (m_baseCongestionMarkingInterval s) (m_defaultCongestionThreshold s) (m_mtu s) (m_wire s).
Definition with_expirationPeriod x s := mk (m_hasFields s) (m_name s) (m_faceId s) (m_uri s) (m_localUri s) (m_origin s) (m_cost s) (m_capacity s) (m_count s) (m_flags s) (m_mask s) (m_strategy s) x (m_facePersistency s) (m_baseCongestionMarkingInterval s) (m_defaultCongestionThreshold s) (m_mtu s) (m_wire s).
Definition with_facePersistency x s := mk (m_hasFields s) (m_name s) (m_faceId s) (m_uri s) (m_localUri s) (m_origin s) (m_cost s) (m_capacity s) (m_count s) (m_flags s) (m_mask s) (m_strategy s) (m_expirationPeriod s) x (m_baseCongestionMarkingInterval s) (m_defaultCongestionThreshold s) (m_mtu s) (m_wire s).
Definition with_baseCongestionMarkingInterval x s := mk (m_hasFields s) (m_name s) (m_faceId s) (m_uri s) (m_localUri s) (m_origin s) (m_cost s) (m_capacity s) (m_count s) (m_flags s) (m_mask s) (m_strategy s) (m_expirationPeriod s) (m_facePersistency s) x (m_defaultCongestionThreshold s) (m_mtu s) (m_wire s).
Definition with_defaultCongestionThreshold x s := mk (m_hasFields s) (m_name s) (m_faceId s) (m_uri s) (m_localUri s) (m_origin s) (m_cost s) (m_capacity s) (m_count s) (m_flags s) (m_mask s) (m_strategy s) (m_expirationPeriod s) (m_facePersistency s) (m_baseCongestionMarkingInterval s) x (m_mtu s) (m_wire s).
Definition with_mtu x s := mk (m_hasFields s) (m_name s) (m_faceId s) (m_uri s) (m_localUri s) (m_origin s) (m_cost s) (m_capacity s) (m_count s) (m_flags s) (m_mask s) (m_strategy s) (m_expirationPeriod s) (m_facePersistency s) (m_baseCongestionMarkingInterval s) (m_defaultCongestionThreshold s) x (m_wire s).
Definition with_wire x s := mk (m_hasFields s) (m_name s) (m_faceId s) (m_uri s) (m_localUri s) (m_origin s) (m_cost s) (m_capacity s) (m_count s) (m_flags s) (m_mask s) (m_strategy s) (m_expirationPeriod s) (m_facePersistency s) (m_baseCongestionMarkingInterval s) (m_defaultCongestionThreshold s) (m_mtu s) x.

(** [ndn-cxx/mgmt/nfd/control-parameters.cpp:37-40] ControlParameters::ControlParameters()
    The numbers are not initialised; they are not read before the flag is set. *)
Definition init : t :=
  mk (replicate CONTROL_PARAMETER_UBOUND false) Name.empty 0 [] [] 0 0 0 0 0 0 Name.empty 0 0 0 0 0 Block.empty.

(** [m_hasFields[field]] and [m_hasFields[field] = value] *)
Definition has (f : ControlParameterField) (p : t) : bool := default false (m_hasFields p !! index f).
Definition with_has (f : ControlParameterField) (value : bool) (p : t) : t := with_hasFields (<[index f := value]> (m_hasFields p)) p.

(** The body of a setter, of an [unset] function and of a getter. *)
Definition setField {A} (f : ControlParameterField) (set : A -> t -> t) (x : A) : M t unit :=
  _ ← modify (with_wire Block.empty); _ ← modify (set x); modify (with_has f true).
Definition unsetField (f : ControlParameterField) : M t unit :=
  _ ← modify (with_wire Block.empty); modify (with_has f false).
Definition getField {A} (f : ControlParameterField) (get : t -> A) (p : t) : option A :=
  if has f p then Some (get p) else None.

(** [ndn-cxx/mgmt/nfd/control-parameters.hpp:106-110] ControlParameters::hasName *)
Definition hasName (p : t) : bool := has CONTROL_PARAMETER_NAME p.

(** [ndn-cxx/mgmt/nfd/control-parameters.hpp:112-117] ControlParameters::getName *)
Definition getName (p : t) : option Name.t := getField CONTROL_PARAMETER_NAME m_name p.

(** [ndn-cxx/mgmt/nfd/control-parameters.hpp:119-126] ControlParameters::setName *)
Definition setName (x : Name.t) : M t unit := setField CONTROL_PARAMETER_NAME with_name x.

(** [ndn-cxx/mgmt/nfd/control-parameters.hpp:128-134] ControlParameters::unsetName *)
Definition unsetName : M t unit := unsetField CONTROL_PARAMETER_NAME.

(** [ndn-cxx/mgmt/nfd/control-parameters.hpp:136-140] ControlParameters::hasFaceId *)
Definition hasFaceId (p : t) : bool := has CONTROL_PARAMETER_FACE_ID p.

(** [ndn-cxx/mgmt/nfd/control-parameters.hpp:142-147] ControlParameters::getFaceId *)
Definition getFaceId (p : t) : option Z := getField CONTROL_PARAMETER_FACE_ID m_faceId p.

(** [ndn-cxx/mgmt/nfd/control-parameters.hpp:149-156] ControlParameters::setFaceId *)
Definition setFaceId (x : Z) : M t unit := setField CONTROL_PARAMETER_FACE_ID with_faceId x.

(** [ndn-cxx/mgmt/nfd/control-parameters.hpp:158-164] ControlParameters::unsetFaceId *)
Definition unsetFaceId : M t unit := unsetField CONTROL_PARAMETER_FACE_ID.

(** [ndn-cxx/mgmt/nfd/control-parameters.hpp:166-170] ControlParameters::hasUri *)
Definition hasUri (p : t) : bool := has CONTROL_PARAMETER_URI p.

(** [ndn-cxx/mgmt/nfd/control-parameters.hpp:172-177] ControlParameters::getUri *)
Definition getUri (p : t) : option bytes := getField CONTROL_PARAMETER_URI m_uri p.

(** [ndn-cxx/mgmt/nfd/control-parameters.hpp:179-186] ControlParameters::setUri *)
Definition setUri (x : bytes) : M t unit := setField CONTROL_PARAMETER_URI with_uri x.

(** [ndn-cxx/mgmt/nfd/control-parameters.hpp:188-194] ControlParameters::unsetUri *)
Definition unsetUri : M t unit := unsetField CONTROL_PARAMETER_URI.

(** [ndn-cxx/mgmt/nfd/control-parameters.hpp:196-200] ControlParameters::hasLocalUri *)
Definition hasLocalUri (p : t) : bool := has CONTROL_PARAMETER_LOCAL_URI p.

(** [ndn-cxx/mgmt/nfd/control-parameters.hpp:202-207] ControlParameters::getLocalUri *)
Definition getLocalUri (p : t) : option bytes := getField CONTROL_PARAMETER_LOCAL_URI m_localUri p.

(** [ndn-cxx/mgmt/nfd/control-parameters.hpp:209-216] ControlParameters::setLocalUri *)
Definition setLocalUri (x : bytes) : M t unit := setField CONTROL_PARAMETER_LOCAL_URI with_localUri x.

(** [ndn-cxx/mgmt/nfd/control-parameters.hpp:218-224] ControlParameters::unsetLocalUri *)
Definition unsetLocalUri : M t unit := unsetField CONTROL_PARAMETER_LOCAL_URI.

(** [ndn-cxx/mgmt/nfd/control-parameters.hpp:226-230] ControlParameters::hasOrigin *)
Definition hasOrigin (p : t) : bool := has CONTROL_PARAMETER_ORIGIN p.

(** [ndn-cxx/mgmt/nfd/control-parameters.hpp:232-237] ControlParameters::getOrigin *)
Definition getOrigin (p : t) : option Z := getField CONTROL_PARAMETER_ORIGIN m_origin p.

(** [ndn-cxx/mgmt/nfd/control-parameters.hpp:239-246] ControlParameters::setOrigin *)
Definition setOrigin (x : Z) : M t unit := setField CONTROL_PARAMETER_ORIGIN with_origin x.

(** [ndn-cxx/mgmt/nfd/control-parameters.hpp:248-254] ControlParameters::unsetOrigin *)
Definition unsetOrigin : M t unit := unsetField CONTROL_PARAMETER_ORIGIN.

(** [ndn-cxx/mgmt/nfd/control-parameters.hpp:256-260] ControlParameters::hasCost *)
Definition hasCost (p : t) : bool := has CONTROL_PARAMETER_COST p.

(** [ndn-cxx/mgmt/nfd/control-parameters.hpp:262-267] ControlParameters::getCost *)
Definition getCost (p : t) : option Z := getField CONTROL_PARAMETER_COST m_cost p.

(** [ndn-cxx/mgmt/nfd/control-parameters.hpp:269-276] ControlParameters::setCost *)
Definition setCost (x : Z) : M t unit := setField CONTROL_PARAMETER_COST with_cost x.

(** [ndn-cxx/mgmt/nfd/control-parameters.hpp:278-284] ControlParameters::unsetCost *)
Definition unsetCost : M t unit := unsetField CONTROL_PARAMETER_COST.

(** [ndn-cxx/mgmt/nfd/control-parameters.hpp:286-290] ControlParameters::hasCapacity *)
Definition hasCapacity (p : t) : bool := has CONTROL_PARAMETER_CAPACITY p.

(** [ndn-cxx/mgmt/nfd/control-parameters.hpp:292-297] ControlParameters::getCapacity *)
Definition getCapacity (p : t) : option Z := getField CONTROL_PARAMETER_CAPACITY m_capacity p.

(** [ndn-cxx/mgmt/nfd/control-parameters.hpp:299-306] ControlParameters::setCapacity *)
Definition setCapacity (x : Z) : M t unit := setField CONTROL_PARAMETER_CAPACITY with_capacity x.

(** [ndn-cxx/mgmt/nfd/control-parameters.hpp:308-314] ControlParameters::unsetCapacity *)
Definition unsetCapacity : M t unit := unsetField CONTROL_PARAMETER_CAPACITY.

(** [ndn-cxx/mgmt/nfd/control-parameters.hpp:316-320] ControlParameters::hasCount *)
Definition hasCount (p : t) : bool := has CONTROL_PARAMETER_COUNT p.

(** [ndn-cxx/mgmt/nfd/control-parameters.hpp:322-327] ControlParameters::getCount *)
Definition getCount (p : t) : option Z := getField CONTROL_PARAMETER_COUNT m_count p.

(** [ndn-cxx/mgmt/nfd/control-parameters.hpp:329-336] ControlParameters::setCount *)
Definition setCount (x : Z) : M t unit := setField CONTROL_PARAMETER_COUNT with_count x.

(** [ndn-cxx/mgmt/nfd/control-parameters.hpp:338-344] ControlParameters::unsetCount *)
Definition unsetCount : M t unit := unsetField CONTROL_PARAMETER_COUNT.

(** [ndn-cxx/mgmt/nfd/control-parameters.hpp:346-350] ControlParameters::hasFlags *)
Definition hasFlags (p : t) : bool := has CONTROL_PARAMETER_FLAGS p.

(** [ndn-cxx/mgmt/nfd/control-parameters.hpp:352-357] ControlParameters::getFlags *)
Definition getFlags (p : t) : option Z := getField CONTROL_PARAMETER_FLAGS m_flags p.

(** [ndn-cxx/mgmt/nfd/control-parameters.hpp:359-366] ControlParameters::setFlags *)
Definition setFlags (x : Z) : M t unit := setField CONTROL_PARAMETER_FLAGS with_flags x.

(** [ndn-cxx/mgmt/nfd/control-parameters.hpp:368-374] ControlParameters::unsetFlags *)
Definition unsetFlags : M t unit := unsetField CONTROL_PARAMETER_FLAGS.

(** [ndn-cxx/mgmt/nfd/control-parameters.hpp:376-380] ControlParameters::hasMask *)
Definition hasMask (p : t) : bool := has CONTROL_PARAMETER_MASK p.

(** [ndn-cxx/mgmt/nfd/control-parameters.hpp:382-387] ControlParameters::getMask *)
Definition getMask (p : t) : option Z := getField CONTROL_PARAMETER_MASK m_mask p.

(** [ndn-cxx/mgmt/nfd/control-parameters.hpp:389-396] ControlParameters::setMask *)
Definition setMask (x : Z) : M t unit := setField CONTROL_PARAMETER_MASK with_mask x.

(** [ndn-cxx/mgmt/nfd/control-parameters.hpp:398-404] ControlParameters::unsetMask *)
Definition unsetMask : M t unit := unsetField CONTROL_PARAMETER_MASK.

(** [ndn-cxx/mgmt/nfd/control-parameters.hpp:406-410] ControlParameters::hasStrategy *)
Definition hasStrategy (p : t) : bool := has CONTROL_PARAMETER_STRATEGY p.

(** [ndn-cxx/mgmt/nfd/control-parameters.hpp:412-417] ControlParameters::getStrategy *)
Definition getStrategy (p : t) : option Name.t := getField CONTROL_PARAMETER_STRATEGY m_strategy p.

(** [ndn-cxx/mgmt/nfd/control-parameters.hpp:419-426] ControlParameters::setStrategy *)
Definition setStrategy (x : Name.t) : M t unit := setField CONTROL_PARAMETER_STRATEGY with_strategy x.

(** [ndn-cxx/mgmt/nfd/control-parameters.hpp:428-434] ControlParameters::unsetStrategy *)
Definition unsetStrategy : M t unit := unsetField CONTROL_PARAMETER_STRATEGY.

(** [ndn-cxx/mgmt/nfd/control-parameters.hpp:436-440] ControlParameters::hasExpirationPeriod *)
Definition hasExpirationPeriod (p : t) : bool := has CONTROL_PARAMETER_EXPIRATION_PERIOD p.

(** [ndn-cxx/mgmt/nfd/control-parameters.hpp:442-447] ControlParameters::getExpirationPeriod *)
Definition getExpirationPeriod (p : t) : option Z := getField CONTROL_PARAMETER_EXPIRATION_PERIOD m_expirationPeriod p.

(** [ndn-cxx/mgmt/nfd/control-parameters.hpp:449-456] ControlParameters::setExpirationPeriod *)
Definition setExpirationPeriod (x : Z) : M t unit := setField CONTROL_PARAMETER_EXPIRATION_PERIOD with_expirationPeriod x.

(** [ndn-cxx/mgmt/nfd/control-parameters.hpp:458-464] ControlParameters::unsetExpirationPeriod *)
Definition unsetExpirationPeriod : M t unit := unsetField CONTROL_PARAMETER_EXPIRATION_PERIOD.

(** [ndn-cxx/mgmt/nfd/control-parameters.hpp:466-470] ControlParameters::hasFacePersistency *)
Definition hasFacePersistency (p : t) : bool := has CONTROL_PARAMETER_FACE_PERSISTENCY p.

(** [ndn-cxx/mgmt/nfd/control-parameters.hpp:472-477] ControlParameters::getFacePersistency *)
Definition getFacePersistency (p : t) : option Z := getField CONTROL_PARAMETER_FACE_PERSISTENCY m_facePersistency p.

(** [ndn-cxx/mgmt/nfd/control-parameters.hpp:479-486] ControlParameters::setFacePersistency *)
Definition setFacePersistency (x : Z) : M t unit := setField CONTROL_PARAMETER_FACE_PERSISTENCY with_facePersistency x.

(** [ndn-cxx/mgmt/nfd/control-parameters.hpp:488-494] ControlParameters::unsetFacePersistency *)
Definition unsetFacePersistency : M t unit := unsetField CONTROL_PARAMETER_FACE_PERSISTENCY.

(** [ndn-cxx/mgmt/nfd/control-parameters.hpp:496-500] ControlParameters::hasBaseCongestionMarkingInterval *)
Definition hasBaseCongestionMarkingInterval (p : t) : bool := has CONTROL_PARAMETER_BASE_CONGESTION_MARKING_INTERVAL p.

(** [ndn-cxx/mgmt/nfd/control-parameters.hpp:502-507] ControlParameters::getBaseCongestionMarkingInterval *)
Definition getBaseCongestionMarkingInterval (p : t) : option Z := getField CONTROL_PARAMETER_BASE_CONGESTION_MARKING_INTERVAL m_baseCongestionMarkingInterval p.

(** [ndn-cxx/mgmt/nfd/control-parameters.hpp:509-516] ControlParameters::setBaseCongestionMarkingInterval *)
Definition setBaseCongestionMarkingInterval (x : Z) : M t unit := setField CONTROL_PARAMETER_BASE_CONGESTION_MARKING_INTERVAL with_baseCongestionMarkingInterval x.

(** [ndn-cxx/mgmt/nfd/control-parameters.hpp:518-524] ControlParameters::unsetBaseCongestionMarkingInterval *)
Definition unsetBaseCongestionMarkingInterval : M t unit := unsetField CONTROL_PARAMETER_BASE_CONGESTION_MARKING_INTERVAL.

(** [ndn-cxx/mgmt/nfd/control-parameters.hpp:526-530] ControlParameters::hasDefaultCongestionThreshold *)
Definition hasDefaultCongestionThreshold (p : t) : bool := has CONTROL_PARAMETER_DEFAULT_CONGESTION_THRESHOLD p.

(** [ndn-cxx/mgmt/nfd/control-parameters.hpp:534-539] ControlParameters::getDefaultCongestionThreshold *)
Definition getDefaultCongestionThreshold (p : t) : option Z := getField CONTROL_PARAMETER_DEFAULT_CONGESTION_THRESHOLD m_defaultCongestionThreshold p.

(** [ndn-cxx/mgmt/nfd/control-parameters.hpp:543-550] ControlParameters::setDefaultCongestionThreshold *)
Definition setDefaultCongestionThreshold (x : Z) : M t unit := setField CONTROL_PARAMETER_DEFAULT_CONGESTION_THRESHOLD with_defaultCongestionThreshold x.

(** [ndn-cxx/mgmt/nfd/control-parameters.hpp:552-558] ControlParameters::unsetDefaultCongestionThreshold *)
Definition unsetDefaultCongestionThreshold : M t unit := unsetField CONTROL_PARAMETER_DEFAULT_CONGESTION_THRESHOLD.

(** [ndn-cxx/mgmt/nfd/control-parameters.hpp:560-564] ControlParameters::hasMtu *)
Definition hasMtu (p : t) : bool := has CONTROL_PARAMETER_MTU p.

(** [ndn-cxx/mgmt/nfd/control-parameters.hpp:570-575] ControlParameters::getMtu *)
Definition getMtu (p : t) : option Z := getField CONTROL_PARAMETER_MTU m_mtu p.

(** [ndn-cxx/mgmt/nfd/control-parameters.hpp:581-588] ControlParameters::setMtu *)
Definition setMtu (x : Z) : M t unit := setField CONTROL_PARAMETER_MTU with_mtu x.

(** [ndn-cxx/mgmt/nfd/control-parameters.hpp:590-596] ControlParameters::unsetMtu *)
Definition unsetMtu : M t unit := unsetField CONTROL_PARAMETER_MTU.

(** [ndn-cxx/mgmt/nfd/control-parameters.cpp:48-109] ControlParameters::wireEncode(EncodingImpl&) *)
Definition wireEncode_template (p : t) : prepender :=
  pTL tlv_nfd.ControlParameters
    (pWhen (hasMtu p) (encoding.prependNonNegativeIntegerBlock tlv_nfd.Mtu (m_mtu p)) ;+
     pWhen (hasDefaultCongestionThreshold p) (encoding.prependNonNegativeIntegerBlock tlv_nfd.DefaultCongestionThreshold (m_defaultCongestionThreshold p)) ;+
     pWhen (hasBaseCongestionMarkingInterval p) (encoding.prependNonNegativeIntegerBlock tlv_nfd.BaseCongestionMarkingInterval (u64 (m_baseCongestionMarkingInterval p))) ;+
     pWhen (hasFacePersistency p) (encoding.prependNonNegativeIntegerBlock tlv_nfd.FacePersistency (m_facePersistency p)) ;+
     pWhen (hasExpirationPeriod p) (encoding.prependNonNegativeIntegerBlock tlv_nfd.ExpirationPeriod (u64 (m_expirationPeriod p))) ;+
     pWhen (hasStrategy p) (encoding.prependNestedBlock tlv_nfd.Strategy (m_strategy p)) ;+
     pWhen (hasMask p) (encoding.prependNonNegativeIntegerBlock tlv_nfd.Mask (m_mask p)) ;+
     pWhen (hasFlags p) (encoding.prependNonNegativeIntegerBlock tlv_nfd.Flags (m_flags p)) ;+
     pWhen (hasCount p) (encoding.prependNonNegativeIntegerBlock tlv_nfd.Count (m_count p)) ;+
     pWhen (hasCapacity p) (encoding.prependNonNegativeIntegerBlock tlv_nfd.Capacity (m_capacity p)) ;+
     pWhen (hasCost p) (encoding.prependNonNegativeIntegerBlock tlv_nfd.Cost (m_cost p)) ;+
     pWhen (hasOrigin p) (encoding.prependNonNegativeIntegerBlock tlv_nfd.Origin (m_origin p)) ;+
     pWhen (hasLocalUri p) (encoding.prependStringBlock tlv_nfd.LocalUri (m_localUri p)) ;+
     pWhen (hasUri p) (encoding.prependStringBlock tlv_nfd.Uri (m_uri p)) ;+
     pWhen (hasFaceId p) (encoding.prependNonNegativeIntegerBlock tlv_nfd.FaceId (m_faceId p)) ;+
     pWhen (hasName p) (Name.wireEncode_template (m_name p))).

(** [ndn-cxx/mgmt/nfd/control-parameters.cpp:113-127] ControlParameters::wireEncode *)
Definition wireEncode : M t Block.t := cachedEncode m_wire with_wire wireEncode_template.

(** [val = m_wire.find(type); m_hasFields[f] = val != m_wire.elements_end(); if (has) { ... }] *)
Definition find_field (type : Z) (f : ControlParameterField) (found : Block.t -> M t unit) : M t unit :=
  p ← self;
  match Block.find type (m_wire p) with
  | Some v => _ ← modify (with_has f true); found v
  | None => modify (with_has f false)
  end.

(** [ndn-cxx/mgmt/nfd/control-parameters.cpp:203-209] ControlParameters::wireDecode (the strategy)
    [val->parse()] fills the list of elements of that element only. *)
Definition decode_strategy (v : Block.t) : M t unit :=
  v ← liftR (Block.parsed v);
  match Block.elements v with
  | [] => throwM (PacketError "Expecting Strategy/Name")
  | n :: _ => zoom m_strategy with_strategy (nameWireDecode n)
  end.

(** [ndn-cxx/mgmt/nfd/control-parameters.cpp:129-241] ControlParameters::wireDecode *)
Definition wireDecode (block : Block.t) : M t unit :=
  _ ← throwM_if (negb (Block.type block =? tlv_nfd.ControlParameters)) (PacketError "ControlParameters");
  _ ← assignParsed with_wire block;
  _ ← find_field tlv.Name CONTROL_PARAMETER_NAME (fun v => zoom m_name with_name (nameWireDecode v));
  _ ← find_field tlv_nfd.FaceId CONTROL_PARAMETER_FACE_ID (readNumber with_faceId);
  _ ← find_field tlv_nfd.Uri CONTROL_PARAMETER_URI (readText with_uri);
  _ ← find_field tlv_nfd.LocalUri CONTROL_PARAMETER_LOCAL_URI (readText with_localUri);
  _ ← find_field tlv_nfd.Origin CONTROL_PARAMETER_ORIGIN (readEnum UINT16_MAX with_origin);
  _ ← find_field tlv_nfd.Cost CONTROL_PARAMETER_COST (readNumber with_cost);
  _ ← find_field tlv_nfd.Capacity CONTROL_PARAMETER_CAPACITY (readNumber with_capacity);
  _ ← find_field tlv_nfd.Count CONTROL_PARAMETER_COUNT (readNumber with_count);
  _ ← find_field tlv_nfd.Flags CONTROL_PARAMETER_FLAGS (readNumber with_flags);
  _ ← find_field tlv_nfd.Mask CONTROL_PARAMETER_MASK (readNumber with_mask);
  _ ← find_field tlv_nfd.Strategy CONTROL_PARAMETER_STRATEGY (decode_strategy);
  _ ← find_field tlv_nfd.ExpirationPeriod CONTROL_PARAMETER_EXPIRATION_PERIOD (readDuration with_expirationPeriod);
  _ ← find_field tlv_nfd.FacePersistency CONTROL_PARAMETER_FACE_PERSISTENCY (readEnum UINT8_MAX with_facePersistency);
  _ ← find_field tlv_nfd.BaseCongestionMarkingInterval CONTROL_PARAMETER_BASE_CONGESTION_MARKING_INTERVAL (readDuration with_baseCongestionMarkingInterval);
  _ ← find_field tlv_nfd.DefaultCongestionThreshold CONTROL_PARAMETER_DEFAULT_CONGESTION_THRESHOLD (readNumber with_defaultCongestionThreshold);
  find_field tlv_nfd.Mtu CONTROL_PARAMETER_MTU (readNumber with_mtu).

(** [ndn-cxx/mgmt/nfd/control-parameters.cpp:42-46] ControlParameters::ControlParameters(const Block&) *)
Definition ofBlock (block : Block.t) : result t := exec (wireDecode block) init.

(** [ndn-cxx/mgmt/nfd/control-parameters.cpp:243-255] ControlParameters::hasFlagBit *)
Definition hasFlagBit (bit : Z) (p : t) : option (result bool) :=
  if 64 <=? bit then Some (Throw (OutOfRange "bit must be within range [0, 64)"))
  else if negb (hasMask p) then Some (Ok false)
  else mask ← getMask p; k ← FaceTraits.one_shl bit; Some (Ok (negb (Z.land mask k =? 0))).

(** [ndn-cxx/mgmt/nfd/control-parameters.cpp:257-269] ControlParameters::getFlagBit *)
Definition getFlagBit (bit : Z) (p : t) : option (result bool) :=
  if 64 <=? bit then Some (Throw (OutOfRange "bit must be within range [0, 64)"))
  else if negb (hasFlags p) then Some (Ok false)
  else flags ← getFlags p; k ← FaceTraits.one_shl bit; Some (Ok (negb (Z.land flags k =? 0))).

(** [hasX() ? getX() : 0] *)
Definition flagsOr0 (p : t) : Z := if hasFlags p then m_flags p else 0.
Definition maskOr0 (p : t) : Z := if hasMask p then m_mask p else 0.

(** [ndn-cxx/mgmt/nfd/control-parameters.cpp:271-294] ControlParameters::setFlagBit
    The object after the call. *)
Definition setFlagBit (bit : Z) (value wantMask : bool) (p : t) : option (result t) :=
  if 64 <=? bit then Some (Throw (OutOfRange "bit must be within range [0, 64)"))
  else
    k ← FaceTraits.one_shl bit;
    c ← FaceTraits.not_one_shl bit;
    let flags := if value then Z.lor (flagsOr0 p) k else Z.land (flagsOr0 p) c in
    let p := fst (setFlags flags p) in
    if wantMask then Some (Ok (fst (setMask (Z.lor (maskOr0 p) k) p))) else Some (Ok p).

(** [ndn-cxx/mgmt/nfd/control-parameters.cpp:296-314] ControlParameters::unsetFlagBit
    The object after the call. *)
Definition unsetFlagBit (bit : Z) (p : t) : option (result t) :=
  if 64 <=? bit then Some (Throw (OutOfRange "bit must be within range [0, 64)"))
  else
    c ← FaceTraits.not_one_shl bit;
    let mask := Z.land (maskOr0 p) c in
    if mask =? 0 then Some (Ok (fst (unsetFlags (fst (unsetMask p)))))
    else Some (Ok (fst (setMask mask p))).

End ControlParameters.

(** ** ControlResponse *)

Module ControlResponse.

(** [ndn-cxx/mgmt/control-response.hpp:73-77] ControlResponse *)
Record t := mk {
  m_code : Z;
  m_text : bytes;
  m_body : Block.t;
  m_wire : Block.t;
}.

Definition with_code x s := mk x (m_text s) (m_body s) (m_wire s).
Definition with_text x s := mk (m_code s) x (m_body s) (m_wire s).
Definition with_body x s := mk (m_code s) (m_text s) x (m_wire s).
Definition with_wire x s := mk (m_code s) (m_text s) (m_body s) x.

(** [ndn-cxx/mgmt/control-response.cpp:35-38] ControlResponse::ControlResponse() *)
Definition init : t := mk 200 [] Block.empty Block.empty.

(** [ndn-cxx/mgmt/control-response.cpp:40-44] ControlResponse::ControlResponse(code, text) *)
Definition make (code : Z) (text : bytes) : t := mk code text Block.empty Block.empty.

(** [ndn-cxx/mgmt/control-response.hpp:86-92] ControlResponse::setCode *)
Definition setCode (x : Z) : M t unit := _ ← modify (with_code x); modify (with_wire Block.empty).

(** [ndn-cxx/mgmt/control-response.hpp:100-106] ControlResponse::setText *)
Definition setText (x : bytes) : M t unit := _ ← modify (with_text x); modify (with_wire Block.empty).

(** [ndn-cxx/mgmt/control-response.hpp:114-121] ControlResponse::setBody *)
Definition setBody (x : Block.t) : M t unit := _ ← modify (with_body (Block.encode x)); modify (with_wire Block.empty).

(** [ndn-cxx/mgmt/control-response.cpp:51-67] ControlResponse::wireEncode *)
Definition wireEncode : M t Block.t :=
  r ← self;
  if Block.hasWire (m_wire r) then mret (m_wire r)
  else
    _ ← modify (with_wire (Block.ofType tlv_nfd.ControlResponse));
    code ← liftR (encoding.makeNonNegativeIntegerBlock tlv_nfd.StatusCode (m_code r));
    _ ← modify (fun r => with_wire (Block.push_back code (m_wire r)) r);
    text ← liftR (encoding.makeStringBlock tlv_nfd.StatusText (m_text r));
    _ ← modify (fun r => with_wire (Block.push_back text (m_wire r)) r);
    _ ← (if Block.hasWire (m_body r) then modify (fun r => with_wire (Block.push_back (m_body r) (m_wire r)) r) else mret tt);
    _ ← modify (fun r => with_wire (Block.encode (m_wire r)) r);
    r ← self;
    mret (m_wire r).

(** [ndn-cxx/mgmt/control-response.cpp:69-95] ControlResponse::wireDecode *)
Definition wireDecode (wire : Block.t) : M t unit :=
  _ ← assignParsed with_wire wire;
  r ← self;
  _ ← throwM_if (negb (Block.type (m_wire r) =? tlv_nfd.ControlResponse)) (PacketError "ControlResponse");
  let val := Block.elements (m_wire r) in
  val ← required_field tlv_nfd.StatusCode "missing StatusCode sub-element" val (readEnum UINT32_MAX with_code);
  val ← required_field tlv_nfd.StatusText "missing StatusText sub-element" val (readText with_text);
  match val with
  | body :: _ => modify (with_body body)
  | [] => modify (with_body Block.empty)
  end.

(** [ndn-cxx/mgmt/control-response.cpp:46-49] ControlResponse::ControlResponse(const Block&)
    The code is overwritten, or the decoder throws. *)
Definition ofBlock (block : Block.t) : result t := exec (wireDecode block) (mk 0 [] Block.empty Block.empty).

End ControlResponse.

(** ** ControlCommand *)

Module ControlCommand.
Import ControlParameters.

(** The chained calls [v.required(...).optional(...)]. *)
Notation "v |> f x" := (f x v) (at level 50, left associativity, f at level 0, x at level 0, only parsing).

(** [ndn-cxx/mgmt/nfd/control-command.hpp:115-116] ControlCommand::FieldValidator *)
Record FieldValidator := mkValidator { m_required : list bool; m_optional : list bool }.

(** [ndn-cxx/mgmt/nfd/control-command.cpp:70-74] ControlCommand::FieldValidator::FieldValidator() *)
Definition newValidator : FieldValidator :=
  mkValidator (replicate CONTROL_PARAMETER_UBOUND false) (replicate CONTROL_PARAMETER_UBOUND false).

(** [ndn-cxx/mgmt/nfd/control-command.hpp:91-96] ControlCommand::FieldValidator::required *)
Definition required (f : ControlParameterField) (v : FieldValidator) : FieldValidator :=
  mkValidator (<[index f := true]> (m_required v)) (m_optional v).

(** [ndn-cxx/mgmt/nfd/control-command.hpp:100-105] ControlCommand::FieldValidator::optional *)
Definition optional (f : ControlParameterField) (v : FieldValidator) : FieldValidator :=
  mkValidator (m_required v) (<[index f := true]> (m_optional v)).

(** [m_required[i]] and [m_optional[i]] *)
Definition isRequired (v : FieldValidator) (f : ControlParameterField) : bool := default false (m_required v !! index f).
Definition isOptional (v : FieldValidator) (f : ControlParameterField) : bool := default false (m_optional v !! index f).

(** [ndn-cxx/mgmt/nfd/control-command.cpp:81-91] ControlCommand::FieldValidator::validate (the loop) *)
Fixpoint validate_loop (v : FieldValidator) (p : t) (fields : list ControlParameterField) : result unit :=
  match fields with
  | [] => Ok tt
  | f :: fields =>
      let isPresent := has f p in
      _ ← (if isRequired v f then
             throw_if (negb isPresent) (InvalidArgument (CONTROL_PARAMETER_FIELD f ++ " is required but missing"))
           else throw_if (isPresent && negb (isOptional v f)) (InvalidArgument (CONTROL_PARAMETER_FIELD f ++ " is forbidden but present")));
      validate_loop v p fields
  end.

(** [ndn-cxx/mgmt/nfd/control-command.cpp:76-98] ControlCommand::FieldValidator::validate *)
Definition validate (v : FieldValidator) (p : t) : result unit :=
  _ ← validate_loop v p all_fields;
  if isOptional v CONTROL_PARAMETER_FLAGS && isOptional v CONTROL_PARAMETER_MASK
  then throw_if (negb (Bool.eqb (hasFlags p) (hasMask p))) (InvalidArgument "Flags must be accompanied by Mask")
  else Ok tt.

(** [ndn-cxx/mgmt/nfd/control-command.hpp:124-133] ControlCommand
    The members and the virtual functions. *)
Record cmd := mk {
  m_requestValidator : FieldValidator;
  m_responseValidator : FieldValidator;
  m_module : bytes;
  m_verb : bytes;
  validateRequest : t -> option (result unit);
  validateResponse : t -> option (result unit);
  applyDefaultsToRequest : M t unit;
}.

(** [ndn-cxx/mgmt/nfd/control-command.cpp:35-39] ControlCommand::validateRequest, ControlCommand::validateResponse *)
Definition base_validate (v : FieldValidator) (p : t) : option (result unit) := Some (validate v p).

(** [ndn-cxx/mgmt/nfd/control-command.cpp:41-44] ControlCommand::applyDefaultsToRequest *)
Definition no_defaults : M t unit := mret tt.

(** [if (get() == bad) NDN_THROW(ArgumentError(e));] behind the test of the base class. *)
Definition then_check (r : option (result unit)) (check : option (result unit)) : option (result unit) :=
  r ← r;
  match r with Ok _ => check | Throw e => Some (Throw e) end.

(** [ndn-cxx/mgmt/nfd/control-command.cpp:131-139] FaceCreateCommand::validateResponse
    Also of the other commands that check the FaceId. *)
Definition validate_face (v : FieldValidator) (p : t) : option (result unit) :=
  then_check (base_validate v p)
    (id ← getFaceId p; Some (throw_if (id =? nfd.INVALID_FACE_ID) (InvalidArgument "FaceId must be valid"))).

(** [if (!parameters.hasX()) parameters.setX(x);] *)
Definition set_default {A} (has : t -> bool) (set : A -> M t unit) (x : A) : M t unit :=
  p ← self; if negb (has p) then set x else mret tt.

(** *** FaceCreateCommand *)

(** [ndn-cxx/mgmt/nfd/control-command.cpp:103-111] FaceCreateCommand::FaceCreateCommand (the request validator) *)
Definition FaceCreate_request : FieldValidator :=
  newValidator
  |> required CONTROL_PARAMETER_URI
  |> optional CONTROL_PARAMETER_LOCAL_URI
  |> optional CONTROL_PARAMETER_FACE_PERSISTENCY
  |> optional CONTROL_PARAMETER_BASE_CONGESTION_MARKING_INTERVAL
  |> optional CONTROL_PARAMETER_DEFAULT_CONGESTION_THRESHOLD
  |> optional CONTROL_PARAMETER_MTU
  |> optional CONTROL_PARAMETER_FLAGS
  |> optional CONTROL_PARAMETER_MASK.

(** [ndn-cxx/mgmt/nfd/control-command.cpp:112-120] FaceCreateCommand::FaceCreateCommand (the response validator) *)
Definition FaceCreate_response : FieldValidator :=
  newValidator
  |> required CONTROL_PARAMETER_FACE_ID
  |> required CONTROL_PARAMETER_URI
  |> required CONTROL_PARAMETER_LOCAL_URI
  |> required CONTROL_PARAMETER_FACE_PERSISTENCY
  |> optional CONTROL_PARAMETER_BASE_CONGESTION_MARKING_INTERVAL
  |> optional CONTROL_PARAMETER_DEFAULT_CONGESTION_THRESHOLD
  |> optional CONTROL_PARAMETER_MTU
  |> required CONTROL_PARAMETER_FLAGS.

(** [ndn-cxx/mgmt/nfd/control-command.cpp:131-139] FaceCreateCommand::validateResponse *)
Definition FaceCreate_validateResponse : t -> option (result unit) := validate_face FaceCreate_response.

(** [ndn-cxx/mgmt/nfd/control-command.cpp:123-129] FaceCreateCommand::applyDefaultsToRequest *)
Definition FaceCreate_defaults : M t unit :=
  set_default hasFacePersistency setFacePersistency nfd.FACE_PERSISTENCY_PERSISTENT.

(** [ndn-cxx/mgmt/nfd/control-command.cpp:100-121] FaceCreateCommand::FaceCreateCommand() *)
Definition FaceCreateCommand : cmd :=
  mk FaceCreate_request FaceCreate_response (str "faces") (str "create") (base_validate FaceCreate_request) (FaceCreate_validateResponse) FaceCreate_defaults.

(** *** FaceUpdateCommand *)

(** [ndn-cxx/mgmt/nfd/control-command.cpp:144-151] FaceUpdateCommand::FaceUpdateCommand (the request validator) *)
Definition FaceUpdate_request : FieldValidator :=
  newValidator
  |> optional CONTROL_PARAMETER_FACE_ID
  |> optional CONTROL_PARAMETER_FACE_PERSISTENCY
  |> optional CONTROL_PARAMETER_BASE_CONGESTION_MARKING_INTERVAL
  |> optional CONTROL_PARAMETER_DEFAULT_CONGESTION_THRESHOLD
  |> optional CONTROL_PARAMETER_MTU
  |> optional CONTROL_PARAMETER_FLAGS
  |> optional CONTROL_PARAMETER_MASK.

(** [ndn-cxx/mgmt/nfd/control-command.cpp:152-158] FaceUpdateCommand::FaceUpdateCommand (the response validator) *)
Definition FaceUpdate_response : FieldValidator :=
  newValidator
  |> required CONTROL_PARAMETER_FACE_ID
  |> required CONTROL_PARAMETER_FACE_PERSISTENCY
  |> optional CONTROL_PARAMETER_BASE_CONGESTION_MARKING_INTERVAL
  |> optional CONTROL_PARAMETER_DEFAULT_CONGESTION_THRESHOLD
  |> optional CONTROL_PARAMETER_MTU
  |> required CONTROL_PARAMETER_FLAGS.

(** [ndn-cxx/mgmt/nfd/control-command.cpp:169-177] FaceUpdateCommand::validateResponse *)
Definition FaceUpdate_validateResponse : t -> option (result unit) := validate_face FaceUpdate_response.

(** [ndn-cxx/mgmt/nfd/control-command.cpp:161-167] FaceUpdateCommand::applyDefaultsToRequest *)
Definition FaceUpdate_defaults : M t unit :=
  set_default hasFaceId setFaceId 0.

(** [ndn-cxx/mgmt/nfd/control-command.cpp:141-159] FaceUpdateCommand::FaceUpdateCommand() *)
Definition FaceUpdateCommand : cmd :=
  mk FaceUpdate_request FaceUpdate_response (str "faces") (str "update") (base_validate FaceUpdate_request) (FaceUpdate_validateResponse) FaceUpdate_defaults.

(** *** FaceDestroyCommand *)

(** [ndn-cxx/mgmt/nfd/control-command.cpp:182-183] FaceDestroyCommand::FaceDestroyCommand (the request validator) *)
Definition FaceDestroy_request : FieldValidator :=
  newValidator
  |> required CONTROL_PARAMETER_FACE_ID.

(** [ndn-cxx/mgmt/nfd/control-command.cpp:184-184] FaceDestroyCommand::FaceDestroyCommand (the response validator) *)
Definition FaceDestroy_response : FieldValidator := FaceDestroy_request.

(** [ndn-cxx/mgmt/nfd/control-command.cpp:187-195] FaceDestroyCommand::validateRequest *)
Definition FaceDestroy_validateRequest : t -> option (result unit) := validate_face FaceDestroy_request.

(** [ndn-cxx/mgmt/nfd/control-command.cpp:197-201] FaceDestroyCommand::validateResponse *)
Definition FaceDestroy_validateResponse : t -> option (result unit) := FaceDestroy_validateRequest.

(** [ndn-cxx/mgmt/nfd/control-command.cpp:179-185] FaceDestroyCommand::FaceDestroyCommand() *)
Definition FaceDestroyCommand : cmd :=
  mk FaceDestroy_request FaceDestroy_response (str "faces") (str "destroy") (FaceDestroy_validateRequest) (FaceDestroy_validateResponse) no_defaults.

(** *** FibAddNextHopCommand *)

(** [ndn-cxx/mgmt/nfd/control-command.cpp:206-209] FibAddNextHopCommand::FibAddNextHopCommand (the request validator) *)
Definition FibAddNextHop_request : FieldValidator :=
  newValidator
  |> required CONTROL_PARAMETER_NAME
  |> optional CONTROL_PARAMETER_FACE_ID
  |> optional CONTROL_PARAMETER_COST.

(** [ndn-cxx/mgmt/nfd/control-command.cpp:210-213] FibAddNextHopCommand::FibAddNextHopCommand (the response validator) *)
Definition FibAddNextHop_response : FieldValidator :=
  newValidator
  |> required CONTROL_PARAMETER_NAME
  |> required CONTROL_PARAMETER_FACE_ID
  |> required CONTROL_PARAMETER_COST.

(** [ndn-cxx/mgmt/nfd/control-command.cpp:227-235] FibAddNextHopCommand::validateResponse *)
Definition FibAddNextHop_validateResponse : t -> option (result unit) := validate_face FibAddNextHop_response.

(** [ndn-cxx/mgmt/nfd/control-command.cpp:216-225] FibAddNextHopCommand::applyDefaultsToRequest *)
Definition FibAddNextHop_defaults : M t unit :=
  _ ← set_default hasFaceId setFaceId 0;
  set_default hasCost setCost 0.

(** [ndn-cxx/mgmt/nfd/control-command.cpp:203-214] FibAddNextHopCommand::FibAddNextHopCommand() *)
Definition FibAddNextHopCommand : cmd :=
  mk FibAddNextHop_request FibAddNextHop_response (str "fib") (str "add-nexthop") (base_validate FibAddNextHop_request) (FibAddNextHop_validateResponse) FibAddNextHop_defaults.

(** *** FibRemoveNextHopCommand *)

(** [ndn-cxx/mgmt/nfd/control-command.cpp:240-242] FibRemoveNextHopCommand::FibRemoveNextHopCommand (the request validator) *)
Definition FibRemoveNextHop_request : FieldValidator :=
  newValidator
  |> required CONTROL_PARAMETER_NAME
  |> optional CONTROL_PARAMETER_FACE_ID.

(** [ndn-cxx/mgmt/nfd/control-command.cpp:243-245] FibRemoveNextHopCommand::FibRemoveNextHopCommand (the response validator) *)
Definition FibRemoveNextHop_response : FieldValidator :=
  newValidator
  |> required CONTROL_PARAMETER_NAME
  |> required CONTROL_PARAMETER_FACE_ID.

(** [ndn-cxx/mgmt/nfd/control-command.cpp:256-264] FibRemoveNextHopCommand::validateResponse *)
Definition FibRemoveNextHop_validateResponse : t -> option (result unit) := validate_face FibRemoveNextHop_response.

(** [ndn-cxx/mgmt/nfd/control-command.cpp:248-254] FibRemoveNextHopCommand::applyDefaultsToRequest *)
Definition FibRemoveNextHop_defaults : M t unit :=
  set_default hasFaceId setFaceId 0.

(** [ndn-cxx/mgmt/nfd/control-command.cpp:237-246] FibRemoveNextHopCommand::FibRemoveNextHopCommand() *)
Definition FibRemoveNextHopCommand : cmd :=
  mk FibRemoveNextHop_request FibRemoveNextHop_response (str "fib") (str "remove-nexthop") (base_validate FibRemoveNextHop_request) (FibRemoveNextHop_validateResponse) FibRemoveNextHop_defaults.

(** *** CsConfigCommand *)

(** [ndn-cxx/mgmt/nfd/control-command.cpp:269-272] CsConfigCommand::CsConfigCommand (the request validator) *)
Definition CsConfig_request : FieldValidator :=
  newValidator
  |> optional CONTROL_PARAMETER_CAPACITY
  |> optional CONTROL_PARAMETER_FLAGS
  |> optional CONTROL_PARAMETER_MASK.

(** [ndn-cxx/mgmt/nfd/control-command.cpp:273-275] CsConfigCommand::CsConfigCommand (the response validator) *)
Definition CsConfig_response : FieldValidator :=
  newValidator
  |> required CONTROL_PARAMETER_CAPACITY
  |> required CONTROL_PARAMETER_FLAGS.

(** [ndn-cxx/mgmt/nfd/control-command.cpp:266-276] CsConfigCommand::CsConfigCommand() *)
Definition CsConfigCommand : cmd :=
  mk CsConfig_request CsConfig_response (str "cs") (str "config") (base_validate CsConfig_request) (base_validate CsConfig_response) no_defaults.

(** *** CsEraseCommand *)

(** [ndn-cxx/mgmt/nfd/control-command.cpp:281-283] CsEraseCommand::CsEraseCommand (the request validator) *)
Definition CsErase_request : FieldValidator :=
  newValidator
  |> required CONTROL_PARAMETER_NAME
  |> optional CONTROL_PARAMETER_COUNT.

(** [ndn-cxx/mgmt/nfd/control-command.cpp:284-287] CsEraseCommand::CsEraseCommand (the response validator) *)
Definition CsErase_response : FieldValidator :=
  newValidator
  |> required CONTROL_PARAMETER_NAME
  |> optional CONTROL_PARAMETER_CAPACITY
  |> required CONTROL_PARAMETER_COUNT.

(** [ndn-cxx/mgmt/nfd/control-command.cpp:290-298] CsEraseCommand::validateRequest *)
Definition CsErase_validateRequest (p : t) : option (result unit) :=
  then_check (base_validate CsErase_request p)
    (if hasCount p then n ← getCount p; Some (throw_if (n =? 0) (InvalidArgument "Count must be positive")) else Some (Ok tt)).

(** [ndn-cxx/mgmt/nfd/control-command.cpp:300-308] CsEraseCommand::validateResponse *)
Definition CsErase_validateResponse (p : t) : option (result unit) :=
  then_check (base_validate CsErase_response p)
    (if hasCapacity p then n ← getCapacity p; Some (throw_if (n =? 0) (InvalidArgument "Capacity must be positive")) else Some (Ok tt)).

(** [ndn-cxx/mgmt/nfd/control-command.cpp:278-288] CsEraseCommand::CsEraseCommand() *)
Definition CsEraseCommand : cmd :=
  mk CsErase_request CsErase_response (str "cs") (str "erase") (CsErase_validateRequest) (CsErase_validateResponse) no_defaults.

(** *** StrategyChoiceSetCommand *)

(** [ndn-cxx/mgmt/nfd/control-command.cpp:313-315] StrategyChoiceSetCommand::StrategyChoiceSetCommand (the request validator) *)
Definition StrategyChoiceSet_request : FieldValidator :=
  newValidator
  |> required CONTROL_PARAMETER_NAME
  |> required CONTROL_PARAMETER_STRATEGY.

(** [ndn-cxx/mgmt/nfd/control-command.cpp:316-316] StrategyChoiceSetCommand::StrategyChoiceSetCommand (the response validator) *)
Definition StrategyChoiceSet_response : FieldValidator := StrategyChoiceSet_request.

(** [ndn-cxx/mgmt/nfd/control-command.cpp:310-317] StrategyChoiceSetCommand::StrategyChoiceSetCommand() *)
Definition StrategyChoiceSetCommand : cmd :=
  mk StrategyChoiceSet_request StrategyChoiceSet_response (str "strategy-choice") (str "set") (base_validate StrategyChoiceSet_request) (base_validate StrategyChoiceSet_response) no_defaults.

(** *** StrategyChoiceUnsetCommand *)

(** [ndn-cxx/mgmt/nfd/control-command.cpp:322-323] StrategyChoiceUnsetCommand::StrategyChoiceUnsetCommand (the request validator) *)
Definition StrategyChoiceUnset_request : FieldValidator :=
  newValidator
  |> required CONTROL_PARAMETER_NAME.

(** [ndn-cxx/mgmt/nfd/control-command.cpp:324-324] StrategyChoiceUnsetCommand::StrategyChoiceUnsetCommand (the response validator) *)
Definition StrategyChoiceUnset_response : FieldValidator := StrategyChoiceUnset_request.

(** [ndn-cxx/mgmt/nfd/control-command.cpp:327-335] StrategyChoiceUnsetCommand::validateRequest *)
Definition StrategyChoiceUnset_validateRequest (p : t) : option (result unit) :=
  then_check (base_validate StrategyChoiceUnset_request p)
    (n ← getName p; Some (throw_if (Name.size n =? 0) (InvalidArgument "Name must not be ndn:/"))).

(** [ndn-cxx/mgmt/nfd/control-command.cpp:337-341] StrategyChoiceUnsetCommand::validateResponse *)
Definition StrategyChoiceUnset_validateResponse : t -> option (result unit) := StrategyChoiceUnset_validateRequest.

(** [ndn-cxx/mgmt/nfd/control-command.cpp:319-325] StrategyChoiceUnsetCommand::StrategyChoiceUnsetCommand() *)
Definition StrategyChoiceUnsetCommand : cmd :=
  mk StrategyChoiceUnset_request StrategyChoiceUnset_response (str "strategy-choice") (str "unset") (StrategyChoiceUnset_validateRequest) (StrategyChoiceUnset_validateResponse) no_defaults.

(** *** RibRegisterCommand *)

(** [ndn-cxx/mgmt/nfd/control-command.cpp:346-352] RibRegisterCommand::RibRegisterCommand (the request validator) *)
Definition RibRegister_request : FieldValidator :=
  newValidator
  |> required CONTROL_PARAMETER_NAME
  |> optional CONTROL_PARAMETER_FACE_ID
  |> optional CONTROL_PARAMETER_ORIGIN
  |> optional CONTROL_PARAMETER_COST
  |> optional CONTROL_PARAMETER_FLAGS
  |> optional CONTROL_PARAMETER_EXPIRATION_PERIOD.

(** [ndn-cxx/mgmt/nfd/control-command.cpp:353-359] RibRegisterCommand::RibRegisterCommand (the response validator) *)
Definition RibRegister_response : FieldValidator :=
  newValidator
  |> required CONTROL_PARAMETER_NAME
  |> required CONTROL_PARAMETER_FACE_ID
  |> required CONTROL_PARAMETER_ORIGIN
  |> required CONTROL_PARAMETER_COST
  |> required CONTROL_PARAMETER_FLAGS
  |> optional CONTROL_PARAMETER_EXPIRATION_PERIOD.

(** [ndn-cxx/mgmt/nfd/control-command.cpp:379-387] RibRegisterCommand::validateResponse *)
Definition RibRegister_validateResponse : t -> option (result unit) := validate_face RibRegister_response.

(** [ndn-cxx/mgmt/nfd/control-command.cpp:362-377] RibRegisterCommand::applyDefaultsToRequest *)
Definition RibRegister_defaults : M t unit :=
  _ ← set_default hasFaceId setFaceId 0;
  _ ← set_default hasOrigin setOrigin nfd.ROUTE_ORIGIN_APP;
  _ ← set_default hasCost setCost 0;
  set_default hasFlags setFlags nfd.ROUTE_FLAG_CHILD_INHERIT.

(** [ndn-cxx/mgmt/nfd/control-command.cpp:343-360] RibRegisterCommand::RibRegisterCommand() *)
Definition RibRegisterCommand : cmd :=
  mk RibRegister_request RibRegister_response (str "rib") (str "register") (base_validate RibRegister_request) (RibRegister_validateResponse) RibRegister_defaults.

(** *** RibUnregisterCommand *)

(** [ndn-cxx/mgmt/nfd/control-command.cpp:392-395] RibUnregisterCommand::RibUnregisterCommand (the request validator) *)
Definition RibUnregister_request : FieldValidator :=
  newValidator
  |> required CONTROL_PARAMETER_NAME
  |> optional CONTROL_PARAMETER_FACE_ID
  |> optional CONTROL_PARAMETER_ORIGIN.

(** [ndn-cxx/mgmt/nfd/control-command.cpp:396-399] RibUnregisterCommand::RibUnregisterCommand (the response validator) *)
Definition RibUnregister_response : FieldValidator :=
  newValidator
  |> required CONTROL_PARAMETER_NAME
  |> required CONTROL_PARAMETER_FACE_ID
  |> required CONTROL_PARAMETER_ORIGIN.

(** [ndn-cxx/mgmt/nfd/control-command.cpp:413-421] RibUnregisterCommand::validateResponse *)
Definition RibUnregister_validateResponse : t -> option (result unit) := validate_face RibUnregister_response.

(** [ndn-cxx/mgmt/nfd/control-command.cpp:402-411] RibUnregisterCommand::applyDefaultsToRequest *)
Definition RibUnregister_defaults : M t unit :=
  _ ← set_default hasFaceId setFaceId 0;
  set_default hasOrigin setOrigin nfd.ROUTE_ORIGIN_APP.

(** [ndn-cxx/mgmt/nfd/control-command.cpp:389-400] RibUnregisterCommand::RibUnregisterCommand() *)
Definition RibUnregisterCommand : cmd :=
  mk RibUnregister_request RibUnregister_response (str "rib") (str "unregister") (base_validate RibUnregister_request) (RibUnregister_validateResponse) RibUnregister_defaults.

(** The commands of [control-command.hpp]. *)
Definition commands : list cmd :=
  [FaceCreateCommand; FaceUpdateCommand; FaceDestroyCommand; FibAddNextHopCommand; FibRemoveNextHopCommand; CsConfigCommand; CsEraseCommand; StrategyChoiceSetCommand; StrategyChoiceUnsetCommand; RibRegisterCommand; RibUnregisterCommand].

(** [ndn-cxx/mgmt/nfd/control-command.cpp:57-68] ControlCommand::getRequestName *)
Definition getRequestName (c : cmd) (commandPrefix : Name.t) (p : t) : option (result Name.t) :=
  r ← validateRequest c p;
  Some (
    _ ← r;
    paramBlock ← snd (wireEncode p);
    module_ ← Component.ofString (m_module c);
    verb ← Component.ofString (m_verb c);
    wire ← Block.wire paramBlock;
    params ← Component.ofRange tlv.GenericNameComponent wire;
    Ok (Name.append params (Name.append verb (Name.append module_ commandPrefix)))).

End ControlCommand.
