(* ===== verification/NfdControlFacts.v ===== *)
(** What the control commands of the NFD management protocol promise: the
    parameters are a partial map of fields that survives its wire format, the
    validators decide the presence of fields, and the flag helpers work on the
    bits that an [int] has. *)

From S2P Require Import Prelude Tlv Encoding Blocks BlockHelpers Text NameComponents Names Fields DataPacket Announcements NfdStatus NfdStatusFacts NfdControl.

Module ControlFacts.
Import FieldFacts RecordFacts RecordLaws ControlParameters.

(** ** The abstract map *)

Inductive value := VName (n : Name.t) | VNumber (n : Z) | VText (b : bytes).

Definition stored (f : ControlParameterField) (p : t) : value :=
  match f with
  | CONTROL_PARAMETER_NAME => VName (m_name p)
  | CONTROL_PARAMETER_FACE_ID => VNumber (m_faceId p)
  | CONTROL_PARAMETER_URI => VText (m_uri p)
  | CONTROL_PARAMETER_LOCAL_URI => VText (m_localUri p)
  | CONTROL_PARAMETER_ORIGIN => VNumber (m_origin p)
  | CONTROL_PARAMETER_COST => VNumber (m_cost p)
  | CONTROL_PARAMETER_CAPACITY => VNumber (m_capacity p)
  | CONTROL_PARAMETER_COUNT => VNumber (m_count p)
  | CONTROL_PARAMETER_FLAGS => VNumber (m_flags p)
  | CONTROL_PARAMETER_MASK => VNumber (m_mask p)
  | CONTROL_PARAMETER_STRATEGY => VName (m_strategy p)
  | CONTROL_PARAMETER_EXPIRATION_PERIOD => VNumber (m_expirationPeriod p)
  | CONTROL_PARAMETER_FACE_PERSISTENCY => VNumber (m_facePersistency p)
  | CONTROL_PARAMETER_BASE_CONGESTION_MARKING_INTERVAL => VNumber (m_baseCongestionMarkingInterval p)
  | CONTROL_PARAMETER_DEFAULT_CONGESTION_THRESHOLD => VNumber (m_defaultCongestionThreshold p)
  | CONTROL_PARAMETER_MTU => VNumber (m_mtu p)
  end.

(** The fields that are present. *)
Definition view (p : t) (f : ControlParameterField) : option value := if has f p then Some (stored f p) else None.

Definition wf (p : t) : Prop := length (m_hasFields p) = CONTROL_PARAMETER_UBOUND.

(** The setters and the [unset] functions, with their fields. *)
Inductive sets : ControlParameterField -> value -> M t unit -> Prop :=
| sets_name x : sets CONTROL_PARAMETER_NAME (VName x) (setName x)
| sets_faceId x : sets CONTROL_PARAMETER_FACE_ID (VNumber x) (setFaceId x)
| sets_uri x : sets CONTROL_PARAMETER_URI (VText x) (setUri x)
| sets_localUri x : sets CONTROL_PARAMETER_LOCAL_URI (VText x) (setLocalUri x)
| sets_origin x : sets CONTROL_PARAMETER_ORIGIN (VNumber x) (setOrigin x)
| sets_cost x : sets CONTROL_PARAMETER_COST (VNumber x) (setCost x)
| sets_capacity x : sets CONTROL_PARAMETER_CAPACITY (VNumber x) (setCapacity x)
| sets_count x : sets CONTROL_PARAMETER_COUNT (VNumber x) (setCount x)
| sets_flags x : sets CONTROL_PARAMETER_FLAGS (VNumber x) (setFlags x)
| sets_mask x : sets CONTROL_PARAMETER_MASK (VNumber x) (setMask x)
| sets_strategy x : sets CONTROL_PARAMETER_STRATEGY (VName x) (setStrategy x)
| sets_expirationPeriod x : sets CONTROL_PARAMETER_EXPIRATION_PERIOD (VNumber x) (setExpirationPeriod x)
| sets_facePersistency x : sets CONTROL_PARAMETER_FACE_PERSISTENCY (VNumber x) (setFacePersistency x)
| sets_baseCongestionMarkingInterval x : sets CONTROL_PARAMETER_BASE_CONGESTION_MARKING_INTERVAL (VNumber x) (setBaseCongestionMarkingInterval x)
| sets_defaultCongestionThreshold x : sets CONTROL_PARAMETER_DEFAULT_CONGESTION_THRESHOLD (VNumber x) (setDefaultCongestionThreshold x)
| sets_mtu x : sets CONTROL_PARAMETER_MTU (VNumber x) (setMtu x).

Inductive unsets : ControlParameterField -> M t unit -> Prop :=
| unsets_name : unsets CONTROL_PARAMETER_NAME unsetName
| unsets_faceId : unsets CONTROL_PARAMETER_FACE_ID unsetFaceId
| unsets_uri : unsets CONTROL_PARAMETER_URI unsetUri
| unsets_localUri : unsets CONTROL_PARAMETER_LOCAL_URI unsetLocalUri
| unsets_origin : unsets CONTROL_PARAMETER_ORIGIN unsetOrigin
| unsets_cost : unsets CONTROL_PARAMETER_COST unsetCost
| unsets_capacity : unsets CONTROL_PARAMETER_CAPACITY unsetCapacity
| unsets_count : unsets CONTROL_PARAMETER_COUNT unsetCount
| unsets_flags : unsets CONTROL_PARAMETER_FLAGS unsetFlags
| unsets_mask : unsets CONTROL_PARAMETER_MASK unsetMask
| unsets_strategy : unsets CONTROL_PARAMETER_STRATEGY unsetStrategy
| unsets_expirationPeriod : unsets CONTROL_PARAMETER_EXPIRATION_PERIOD unsetExpirationPeriod
| unsets_facePersistency : unsets CONTROL_PARAMETER_FACE_PERSISTENCY unsetFacePersistency
| unsets_baseCongestionMarkingInterval : unsets CONTROL_PARAMETER_BASE_CONGESTION_MARKING_INTERVAL unsetBaseCongestionMarkingInterval
| unsets_defaultCongestionThreshold : unsets CONTROL_PARAMETER_DEFAULT_CONGESTION_THRESHOLD unsetDefaultCongestionThreshold
| unsets_mtu : unsets CONTROL_PARAMETER_MTU unsetMtu.

Lemma index_inj f g : index f = index g -> f = g.
Proof. by destruct f, g. Qed.

Lemma index_bound f : (index f < CONTROL_PARAMETER_UBOUND)%nat.
Proof. unfold CONTROL_PARAMETER_UBOUND. destruct f; cbn; lia. Qed.

Lemma has_with_has f b g p : wf p -> has g (with_has f b p) = if decide (g = f) then b else has g p.
Proof.
  intros Hp. unfold has, with_has. cbn [m_hasFields with_hasFields]. case_decide as E.
  - subst g. rewrite list_lookup_insert_eq; [done|]. rewrite Hp. apply index_bound.
  - rewrite list_lookup_insert_ne; [done|]. intros E'%index_inj. congruence.
Qed.

Lemma wf_with_has f b p : wf p -> wf (with_has f b p).
Proof. intros Hp. unfold wf, with_has. cbn [m_hasFields with_hasFields]. by rewrite length_insert. Qed.

(** A call that stores a value and touches nothing else. *)
Definition stores (f : ControlParameterField) (v : value) (p p' : t) : Prop :=
  m_hasFields p' = m_hasFields p /\ m_wire p' = m_wire p /\ stored f p' = v /\ forall g, g <> f -> stored g p' = stored g p.

Lemma stores_name x p : stores CONTROL_PARAMETER_NAME (VName x) p (with_name x p).
Proof. split_and!; [done..|by intros []]. Qed.
Lemma stores_faceId x p : stores CONTROL_PARAMETER_FACE_ID (VNumber x) p (with_faceId x p).
Proof. split_and!; [done..|by intros []]. Qed.
Lemma stores_uri x p : stores CONTROL_PARAMETER_URI (VText x) p (with_uri x p).
Proof. split_and!; [done..|by intros []]. Qed.
Lemma stores_localUri x p : stores CONTROL_PARAMETER_LOCAL_URI (VText x) p (with_localUri x p).
Proof. split_and!; [done..|by intros []]. Qed.
Lemma stores_origin x p : stores CONTROL_PARAMETER_ORIGIN (VNumber x) p (with_origin x p).
Proof. split_and!; [done..|by intros []]. Qed.
Lemma stores_cost x p : stores CONTROL_PARAMETER_COST (VNumber x) p (with_cost x p).
Proof. split_and!; [done..|by intros []]. Qed.
Lemma stores_capacity x p : stores CONTROL_PARAMETER_CAPACITY (VNumber x) p (with_capacity x p).
Proof. split_and!; [done..|by intros []]. Qed.
Lemma stores_count x p : stores CONTROL_PARAMETER_COUNT (VNumber x) p (with_count x p).
Proof. split_and!; [done..|by intros []]. Qed.
Lemma stores_flags x p : stores CONTROL_PARAMETER_FLAGS (VNumber x) p (with_flags x p).
Proof. split_and!; [done..|by intros []]. Qed.
Lemma stores_mask x p : stores CONTROL_PARAMETER_MASK (VNumber x) p (with_mask x p).
Proof. split_and!; [done..|by intros []]. Qed.
Lemma stores_strategy x p : stores CONTROL_PARAMETER_STRATEGY (VName x) p (with_strategy x p).
Proof. split_and!; [done..|by intros []]. Qed.
Lemma stores_expirationPeriod x p : stores CONTROL_PARAMETER_EXPIRATION_PERIOD (VNumber x) p (with_expirationPeriod x p).
Proof. split_and!; [done..|by intros []]. Qed.
Lemma stores_facePersistency x p : stores CONTROL_PARAMETER_FACE_PERSISTENCY (VNumber x) p (with_facePersistency x p).
Proof. split_and!; [done..|by intros []]. Qed.
Lemma stores_baseCongestionMarkingInterval x p : stores CONTROL_PARAMETER_BASE_CONGESTION_MARKING_INTERVAL (VNumber x) p (with_baseCongestionMarkingInterval x p).
Proof. split_and!; [done..|by intros []]. Qed.
Lemma stores_defaultCongestionThreshold x p : stores CONTROL_PARAMETER_DEFAULT_CONGESTION_THRESHOLD (VNumber x) p (with_defaultCongestionThreshold x p).
Proof. split_and!; [done..|by intros []]. Qed.
Lemma stores_mtu x p : stores CONTROL_PARAMETER_MTU (VNumber x) p (with_mtu x p).
Proof. split_and!; [done..|by intros []]. Qed.

Lemma view_present f v p p' : wf p -> stores f v (with_has f true p) p' ->
  forall g, view p' g = if decide (g = f) then Some v else view p g.
Proof.
  intros Hp (H1 & _ & H2 & H3) g. assert (has g p' = has g (with_has f true p)) as Hh by (unfold has; by rewrite H1).
  unfold view. rewrite Hh, has_with_has by done. case_decide as E; [by subst g; rewrite H2|]. by rewrite H3.
Qed.

Lemma view_absent f p : wf p -> forall g, view (with_has f false p) g = if decide (g = f) then None else view p g.
Proof. intros Hp g. unfold view. rewrite has_with_has by done. case_decide; [done|]. by destruct g. Qed.

Lemma view_wire w p : view (with_wire w p) = view p.
Proof. done. Qed.

Lemma set_spec f v m p : wf p -> sets f v m -> exists p', m p = (p', Ok tt) /\ wf p' /\ Block.hasWire (m_wire p') = false /\
  forall g, view p' g = if decide (g = f) then Some v else view p g.
Proof.
  intros Hp Hm. destruct Hm; eexists; (split; [reflexivity|]); (split; [by apply (wf_with_has _ true p)|]); (split; [done|]);
    intros g; unfold view; rewrite has_with_has by done; (case_decide as E; [by subst g|]); destruct g; done.
Qed.

Lemma unset_spec f m p : wf p -> unsets f m -> exists p', m p = (p', Ok tt) /\ wf p' /\ Block.hasWire (m_wire p') = false /\
  forall g, view p' g = if decide (g = f) then None else view p g.
Proof.
  intros Hp Hm. destruct Hm; eexists; (split; [reflexivity|]); (split; [by apply (wf_with_has _ false p)|]); (split; [done|]);
    apply (view_absent _ (with_wire Block.empty p)); exact Hp.
Qed.

(** ** The wire format *)

Definition slots (p : t) : list (Z * option bytes) :=
  [(tlv.Name, if hasName p then Some (NameFacts.value (m_name p)) else None);
   (tlv_nfd.FaceId, if hasFaceId p then Some (tlv.writeNonNegativeInteger (m_faceId p)) else None);
   (tlv_nfd.Uri, if hasUri p then Some (m_uri p) else None);
   (tlv_nfd.LocalUri, if hasLocalUri p then Some (m_localUri p) else None);
   (tlv_nfd.Origin, if hasOrigin p then Some (tlv.writeNonNegativeInteger (m_origin p)) else None);
   (tlv_nfd.Cost, if hasCost p then Some (tlv.writeNonNegativeInteger (m_cost p)) else None);
   (tlv_nfd.Capacity, if hasCapacity p then Some (tlv.writeNonNegativeInteger (m_capacity p)) else None);
   (tlv_nfd.Count, if hasCount p then Some (tlv.writeNonNegativeInteger (m_count p)) else None);
   (tlv_nfd.Flags, if hasFlags p then Some (tlv.writeNonNegativeInteger (m_flags p)) else None);
   (tlv_nfd.Mask, if hasMask p then Some (tlv.writeNonNegativeInteger (m_mask p)) else None);
   (tlv_nfd.Strategy, if hasStrategy p then Some (tlv_bytes tlv.Name (NameFacts.value (m_strategy p))) else None);
   (tlv_nfd.ExpirationPeriod, if hasExpirationPeriod p then Some (tlv.writeNonNegativeInteger (u64 (m_expirationPeriod p))) else None);
   (tlv_nfd.FacePersistency, if hasFacePersistency p then Some (tlv.writeNonNegativeInteger (m_facePersistency p)) else None);
   (tlv_nfd.BaseCongestionMarkingInterval, if hasBaseCongestionMarkingInterval p then Some (tlv.writeNonNegativeInteger (u64 (m_baseCongestionMarkingInterval p))) else None);
   (tlv_nfd.DefaultCongestionThreshold, if hasDefaultCongestionThreshold p then Some (tlv.writeNonNegativeInteger (m_defaultCongestionThreshold p)) else None);
   (tlv_nfd.Mtu, if hasMtu p then Some (tlv.writeNonNegativeInteger (m_mtu p)) else None)].

(** The fields that are present have values the wire format can carry. *)
Definition value_ok (f : ControlParameterField) (v : value) : Prop :=
  match f, v with
  | CONTROL_PARAMETER_NAME, VName n | CONTROL_PARAMETER_STRATEGY, VName n => types_ok n
  | CONTROL_PARAMETER_ORIGIN, VNumber n => within UINT16_MAX n
  | CONTROL_PARAMETER_FACE_PERSISTENCY, VNumber n => within UINT8_MAX n
  | CONTROL_PARAMETER_EXPIRATION_PERIOD, VNumber n | CONTROL_PARAMETER_BASE_CONGESTION_MARKING_INTERVAL, VNumber n => u63 n
  | _, VNumber n => is_u64 n
  | _, _ => True
  end.

Definition ok (p : t) : Prop := forall f v, view p f = Some v -> value_ok f v.

(** What a field is after decoding: the same, a name with its wire. *)
Definition norm_value (v : value) : value := match v with VName n => VName (norm_name n) | v => v end.

Fixpoint lookup_slot (ty : Z) (l : list (Z * option bytes)) : option bytes :=
  match l with [] => None | (ty', o) :: l => if ty' =? ty then o else lookup_slot ty l end.

Lemma find_elems ty : forall l, NoDup (l.*1) ->
  List.find (fun b => Block.type b =? ty) (elems l) = (fun v => BlockFacts.of_pair (ty, v)) <$> lookup_slot ty l.
Proof.
  induction l as [|[ty' o] l IH]; intros Hd; [done|]. cbn [fmap list_fmap fst] in Hd. apply list.NoDup_cons in Hd as [Hn Hd].
  cbn [lookup_slot]. destruct (Z.eqb_spec ty' ty) as [->|Hne].
  - destruct o as [v|]; unfold elems; cbn [present fmap list_fmap List.find].
    + change (Block.type (BlockFacts.of_pair (ty, v))) with ty. by rewrite Z.eqb_refl.
    + change (List.find (fun b => Block.type b =? ty) (elems l) = None). rewrite IH by done. clear -Hn.
      induction l as [|[ty' o] l IH]; [done|]. cbn [lookup_slot]. cbn [fmap list_fmap fst] in Hn.
      destruct (Z.eqb_spec ty' ty) as [->|]; [destruct Hn; left|]. apply IH. intros H. apply Hn. by right.
  - destruct o as [v|]; unfold elems; cbn [present fmap list_fmap List.find]; [|by apply IH].
    change (Block.type (BlockFacts.of_pair (ty', v))) with ty'. rewrite (proj2 (Z.eqb_neq _ _) Hne). by apply IH.
Qed.

Lemma block_find ty b : Block.find ty b = List.find (fun x => Block.type x =? ty) (Block.m_elements b).
Proof.
  unfold Block.find. induction (Block.m_elements b) as [|x l IH]; [done|]. cbn [Block.find_from List.find].
  change (Block.m_type x) with (Block.type x). destruct (Block.type x =? ty); [done|exact IH].
Qed.

Lemma slots_types p : Forall (fun x => is_tlv_type x.1) (slots p).
Proof. repeat (constructor; [by vm_compute|]). constructor. Qed.

Lemma slots_nodup p : NoDup ((slots p).*1).
Proof. refine (bool_decide_unpack _ _). by vm_compute. Qed.

Definition seq (p : t) : list (Z * bytes) := present (slots p).

Lemma encodes p : EncSeq (wireEncode_template p) [(tlv_nfd.ControlParameters, BlockFacts.tlv_seq (seq p))].
Proof.
  apply EncSeq_TL, EncSlots_lit. cbn [rev app slots].
  repeat (apply EncRev_then; [apply slot_when; first [apply slot_number | apply slot_text | apply slot_nested | apply slot_name]|]).
  apply EncRev_one, slot_when, slot_name.
Qed.

(** One field of the decoder. *)
Lemma find_step ty f found p s : wf s -> m_wire s = parsed_block tlv_nfd.ControlParameters (seq p) ->
  (forall v, lookup_slot ty (slots p) = Some v -> exists s', found (BlockFacts.of_pair (ty, v)) (with_has f true s) = (s', Ok tt) /\
     stores f (norm_value (stored f p)) (with_has f true s) s') ->
  (lookup_slot ty (slots p) = None <-> has f p = false) ->
  exists s', find_field ty f found s = (s', Ok tt) /\ wf s' /\ m_wire s' = m_wire s /\
    forall g, view s' g = if decide (g = f) then norm_value <$> view p f else view s g.
Proof.
  intros Hw Hs Hfound Hnone. unfold find_field. rewrite bindM_self, block_find, Hs.
  change (Block.m_elements _) with (elems (slots p)). rewrite find_elems by apply slots_nodup.
  destruct (lookup_slot ty (slots p)) as [v|]; cbn [fmap option_fmap option_map].
  - destruct (Hfound v eq_refl) as (s' & E & Hst). rewrite bindM_modify. exists s'. split; [exact E|].
    pose proof Hst as (H1 & H2 & _). split_and!; [unfold wf; rewrite H1; by apply wf_with_has|by rewrite H2|].
    intros g. rewrite (view_present f _ s s' Hw Hst g). case_decide; [|done]. unfold view.
    destruct (has f p); [done|]. destruct Hnone as [_ Hn]. by specialize (Hn eq_refl).
  - exists (with_has f false s). split_and!; [done|by apply wf_with_has|done|]. intros g. rewrite view_absent by done.
    case_decide; [|done]. unfold view. by rewrite (proj1 Hnone eq_refl).
Qed.

Lemma slot_flag (c : bool) (v : bytes) : (if c then Some v else None) = None <-> c = false.
Proof. by destruct c. Qed.

Lemma ok_stored f p : ok p -> has f p = true -> value_ok f (stored f p).
Proof. intros Hok Hf. apply Hok. unfold view. by rewrite Hf. Qed.

Lemma slot_len ty v p : lookup_slot ty (slots p) = Some v -> is_u64 (len (BlockFacts.tlv_seq (seq p))) -> is_u64 (len v).
Proof.
  intros Hs Hl. refine (nested_len (seq p) (ty, v) _ Hl). revert Hs. unfold seq. induction (slots p) as [|[ty' [w|]] l IH]; cbn [lookup_slot present]; [done|..].
  - destruct (Z.eqb_spec ty' ty) as [->|]; [intros [= ->]; left|]. intros H. right. by apply IH.
  - destruct (Z.eqb_spec ty' ty); [done|]. exact IH.
Qed.

Section decoding.
Variables (p : t).
Hypothesis (Hok : ok p) (Hl : is_u64 (len (BlockFacts.tlv_seq (seq p)))).

(** The step of one field, for each of them. *)
Definition decodes (ty : Z) (f : ControlParameterField) (found : Block.t -> M t unit) : Prop :=
  forall s, wf s -> m_wire s = parsed_block tlv_nfd.ControlParameters (seq p) ->
  exists s', find_field ty f found s = (s', Ok tt) /\ wf s' /\ m_wire s' = m_wire s /\
    forall g, view s' g = if decide (g = f) then norm_value <$> view p f else view s g.

Lemma decodes_intro ty f found b : lookup_slot ty (slots p) = (if has f p then Some b else None) ->
  (forall s, has f p = true -> value_ok f (stored f p) -> is_u64 (len b) ->
     exists s', found (BlockFacts.of_pair (ty, b)) s = (s', Ok tt) /\ stores f (norm_value (stored f p)) s s') ->
  decodes ty f found.
Proof.
  intros Hs Hf s Hw E. apply find_step; [done|done| |rewrite Hs; apply slot_flag]. intros v Hv.
  assert (has f p = true /\ v = b) as [Hh ->] by (rewrite Hs in Hv; destruct (has f p); naive_solver).
  apply Hf; [done|by apply ok_stored|]. by eapply slot_len.
Qed.

Lemma decodes_name : decodes tlv.Name CONTROL_PARAMETER_NAME (fun v => zoom m_name with_name (nameWireDecode v)).
Proof. eapply decodes_intro; [reflexivity|]. intros s Hh Hv Hb. eexists. split; [by apply read_name|apply stores_name]. Qed.
Lemma decodes_faceId : decodes tlv_nfd.FaceId CONTROL_PARAMETER_FACE_ID (readNumber with_faceId).
Proof. eapply decodes_intro; [reflexivity|]. intros s Hh Hv Hb. eexists. split; [by apply read_number|apply stores_faceId]. Qed.
Lemma decodes_uri : decodes tlv_nfd.Uri CONTROL_PARAMETER_URI (readText with_uri).
Proof. eapply decodes_intro; [reflexivity|]. intros s Hh Hv Hb. eexists. split; [reflexivity|apply stores_uri]. Qed.
Lemma decodes_localUri : decodes tlv_nfd.LocalUri CONTROL_PARAMETER_LOCAL_URI (readText with_localUri).
Proof. eapply decodes_intro; [reflexivity|]. intros s Hh Hv Hb. eexists. split; [reflexivity|apply stores_localUri]. Qed.
Lemma decodes_origin : decodes tlv_nfd.Origin CONTROL_PARAMETER_ORIGIN (readEnum UINT16_MAX with_origin).
Proof. eapply decodes_intro; [reflexivity|]. intros s Hh Hv Hb. eexists. split; [by apply read_enum|apply stores_origin]. Qed.
Lemma decodes_cost : decodes tlv_nfd.Cost CONTROL_PARAMETER_COST (readNumber with_cost).
Proof. eapply decodes_intro; [reflexivity|]. intros s Hh Hv Hb. eexists. split; [by apply read_number|apply stores_cost]. Qed.
Lemma decodes_capacity : decodes tlv_nfd.Capacity CONTROL_PARAMETER_CAPACITY (readNumber with_capacity).
Proof. eapply decodes_intro; [reflexivity|]. intros s Hh Hv Hb. eexists. split; [by apply read_number|apply stores_capacity]. Qed.
Lemma decodes_count : decodes tlv_nfd.Count CONTROL_PARAMETER_COUNT (readNumber with_count).
Proof. eapply decodes_intro; [reflexivity|]. intros s Hh Hv Hb. eexists. split; [by apply read_number|apply stores_count]. Qed.
Lemma decodes_flags : decodes tlv_nfd.Flags CONTROL_PARAMETER_FLAGS (readNumber with_flags).
Proof. eapply decodes_intro; [reflexivity|]. intros s Hh Hv Hb. eexists. split; [by apply read_number|apply stores_flags]. Qed.
Lemma decodes_mask : decodes tlv_nfd.Mask CONTROL_PARAMETER_MASK (readNumber with_mask).
Proof. eapply decodes_intro; [reflexivity|]. intros s Hh Hv Hb. eexists. split; [by apply read_number|apply stores_mask]. Qed.
Lemma decodes_strategy : decodes tlv_nfd.Strategy CONTROL_PARAMETER_STRATEGY (decode_strategy).
Proof. eapply decodes_intro; [reflexivity|]. intros s Hh Hv Hb. eexists. split; [by apply read_nested|apply stores_strategy]. Qed.
Lemma decodes_expirationPeriod : decodes tlv_nfd.ExpirationPeriod CONTROL_PARAMETER_EXPIRATION_PERIOD (readDuration with_expirationPeriod).
Proof. eapply decodes_intro; [reflexivity|]. intros s Hh Hv Hb. eexists. split; [by apply read_duration_u64|apply stores_expirationPeriod]. Qed.
Lemma decodes_facePersistency : decodes tlv_nfd.FacePersistency CONTROL_PARAMETER_FACE_PERSISTENCY (readEnum UINT8_MAX with_facePersistency).
Proof. eapply decodes_intro; [reflexivity|]. intros s Hh Hv Hb. eexists. split; [by apply read_enum|apply stores_facePersistency]. Qed.
Lemma decodes_baseCongestionMarkingInterval : decodes tlv_nfd.BaseCongestionMarkingInterval CONTROL_PARAMETER_BASE_CONGESTION_MARKING_INTERVAL (readDuration with_baseCongestionMarkingInterval).
Proof. eapply decodes_intro; [reflexivity|]. intros s Hh Hv Hb. eexists. split; [by apply read_duration_u64|apply stores_baseCongestionMarkingInterval]. Qed.
Lemma decodes_defaultCongestionThreshold : decodes tlv_nfd.DefaultCongestionThreshold CONTROL_PARAMETER_DEFAULT_CONGESTION_THRESHOLD (readNumber with_defaultCongestionThreshold).
Proof. eapply decodes_intro; [reflexivity|]. intros s Hh Hv Hb. eexists. split; [by apply read_number|apply stores_defaultCongestionThreshold]. Qed.
Lemma decodes_mtu : decodes tlv_nfd.Mtu CONTROL_PARAMETER_MTU (readNumber with_mtu).
Proof. eapply decodes_intro; [reflexivity|]. intros s Hh Hv Hb. eexists. split; [by apply read_number|apply stores_mtu]. Qed.

Lemma decode_step ty f found (k : unit -> M t unit) s (Q : t * result unit -> Prop) : decodes ty f found -> wf s ->
  m_wire s = parsed_block tlv_nfd.ControlParameters (seq p) ->
  (forall s', wf s' -> m_wire s' = parsed_block tlv_nfd.ControlParameters (seq p) ->
     (forall g, view s' g = if decide (g = f) then norm_value <$> view p f else view s g) -> Q (k tt s')) ->
  Q ((find_field ty f found ≫= k) s).
Proof.
  intros Hd Hw Hs Hk. destruct (Hd s Hw Hs) as (s' & E & Hw' & Hs' & Hv). rewrite (bindM_ok _ _ _ _ _ E).
  apply Hk; [done|congruence|done].
Qed.

Ltac next_param H :=
  match goal with |- exists p', ?r = _ /\ _ => pattern r end; apply (decode_step _ _ _ _ _ _ H); [done|done|].

Lemma decode_spec s0 : wf s0 -> exists p',
  wireDecode (seq_block tlv_nfd.ControlParameters (seq p)) s0 = (p', Ok tt) /\ wf p' /\
  m_wire p' = parsed_block tlv_nfd.ControlParameters (seq p) /\ forall f, view p' f = norm_value <$> view p f.
Proof.
  intros W0. unfold wireDecode. rewrite bindM_pass by done.
  rewrite (bindM_ok _ _ _ _ _ (assignParsed_seq with_wire _ _ s0 (tlv_seq_ok _ (present_types _ (slots_types p)) Hl))).
  set (s := with_wire _ s0). assert (wf s) as W by exact W0.
  assert (m_wire s = parsed_block tlv_nfd.ControlParameters (seq p)) as S by done. clearbody s.
  next_param decodes_name; intros s1 W1 S1 V1.
  next_param decodes_faceId; intros s2 W2 S2 V2.
  next_param decodes_uri; intros s3 W3 S3 V3.
  next_param decodes_localUri; intros s4 W4 S4 V4.
  next_param decodes_origin; intros s5 W5 S5 V5.
  next_param decodes_cost; intros s6 W6 S6 V6.
  next_param decodes_capacity; intros s7 W7 S7 V7.
  next_param decodes_count; intros s8 W8 S8 V8.
  next_param decodes_flags; intros s9 W9 S9 V9.
  next_param decodes_mask; intros s10 W10 S10 V10.
  next_param decodes_strategy; intros s11 W11 S11 V11.
  next_param decodes_expirationPeriod; intros s12 W12 S12 V12.
  next_param decodes_facePersistency; intros s13 W13 S13 V13.
  next_param decodes_baseCongestionMarkingInterval; intros s14 W14 S14 V14.
  next_param decodes_defaultCongestionThreshold; intros s15 W15 S15 V15.
  destruct (decodes_mtu s15 W15 S15) as (p' & E & W' & S' & V'). exists p'. split_and!; [exact E|done|congruence|].
  intros f. rewrite V', V15, V14, V13, V12, V11, V10, V9, V8, V7, V6, V5, V4, V3, V2, V1. by destruct f.
Qed.

End decoding.

End ControlFacts.

(** ** Flag bits *)

Module FlagFacts.
Import FaceTraits.

Lemma i32_bit z : 0 <= z < 2 ^ 31 -> i32 z = z.
Proof. intros H. unfold i32. rewrite Z.mod_small by lia. lia. Qed.

(** The bits of [1 << bit] and of its complement, as [uint64_t]: the intended
    ones up to bit 30; bit 31 is the sign of an [int]. *)
Lemma one_shl_low bit : 0 <= bit < 31 -> exists k, one_shl bit = Some k /\ forall i, 0 <= i -> Z.testbit k i = (i =? bit).
Proof.
  intros Hb. unfold one_shl. rewrite (proj2 (Z.ltb_lt bit 32)) by lia. eexists. split; [done|]. intros i Hi.
  assert (0 < 2 ^ bit < 2 ^ 31) as Hp by (split; [apply Z.pow_pos_nonneg; lia|apply Z.pow_lt_mono_r; lia]).
  rewrite Z.shiftl_1_l, i32_bit by lia. unfold u64. rewrite Z.mod_small by lia. rewrite Z.pow2_bits_eqb by lia.
  apply Z.eqb_sym.
Qed.

Lemma not_one_shl_low bit : 0 <= bit < 31 -> exists k, not_one_shl bit = Some k /\
  forall i, 0 <= i < 64 -> Z.testbit k i = negb (i =? bit).
Proof.
  intros Hb. unfold not_one_shl. rewrite (proj2 (Z.ltb_lt bit 32)) by lia. eexists. split; [done|]. intros i Hi.
  assert (0 < 2 ^ bit < 2 ^ 31) as Hp by (split; [apply Z.pow_pos_nonneg; lia|apply Z.pow_lt_mono_r; lia]).
  rewrite Z.shiftl_1_l, i32_bit by lia. unfold u64. rewrite Z.mod_pow2_bits_low by lia.
  rewrite Z.lnot_spec by lia. rewrite Z.pow2_bits_eqb by lia. f_equal. apply Z.eqb_sym.
Qed.

Definition bits64 : list Z := seqZ 0 64.

Lemma in_bits64 i : 0 <= i < 64 -> In i bits64.
Proof. intros H. apply list_elem_of_In, elem_of_seqZ. lia. Qed.

Lemma check_bits k f : forallb (fun i => Bool.eqb (Z.testbit k i) (f i)) bits64 = true ->
  forall i, 0 <= i < 64 -> Z.testbit k i = f i.
Proof. intros H i Hi. rewrite forallb_forall in H. by apply eqb_prop, H, in_bits64. Qed.

Lemma one_shl_31 i : 0 <= i < 64 -> exists k, one_shl 31 = Some k /\ Z.testbit k i = (31 <=? i).
Proof.
  intros Hi. eexists. split; [reflexivity|]. apply (check_bits _ (fun i => 31 <=? i)); [by vm_compute|exact Hi].
Qed.

Lemma not_one_shl_31 i : 0 <= i < 64 -> exists k, not_one_shl 31 = Some k /\ Z.testbit k i = negb (31 <=? i).
Proof.
  intros Hi. eexists. split; [reflexivity|]. apply (check_bits _ (fun i => negb (31 <=? i))); [by vm_compute|exact Hi].
Qed.

Lemma shl_undefined bit : 32 <= bit -> one_shl bit = None /\ not_one_shl bit = None.
Proof. intros H. unfold one_shl, not_one_shl. by rewrite (proj2 (Z.ltb_ge bit 32)). Qed.

End FlagFacts.

(** ** Validators and commands *)

Module CommandFacts.
Import RecordFacts ControlParameters ControlCommand ControlFacts.

(** What a validator accepts. *)
Definition accepts (v : FieldValidator) (p : t) : Prop :=
  (forall f, isRequired v f = true -> has f p = true) /\
  (forall f, has f p = true -> isRequired v f || isOptional v f = true) /\
  (isOptional v CONTROL_PARAMETER_FLAGS = true -> isOptional v CONTROL_PARAMETER_MASK = true -> hasFlags p = hasMask p).

Lemma all_fields_complete f : In f all_fields.
Proof. destruct f; cbn; tauto. Qed.

Lemma validate_loop_spec v p l : validate_loop v p l = Ok tt <->
  forall f, In f l -> (isRequired v f = true -> has f p = true) /\ (has f p = true -> isRequired v f || isOptional v f = true).
Proof.
  induction l as [|f l IH]; cbn [validate_loop]; [split; [intros _ f []|done]|].
  assert ((if isRequired v f then throw_if (negb (has f p)) (InvalidArgument (CONTROL_PARAMETER_FIELD f ++ " is required but missing"))
     else throw_if (has f p && negb (isOptional v f)) (InvalidArgument (CONTROL_PARAMETER_FIELD f ++ " is forbidden but present"))) = Ok tt <->
     ((isRequired v f = true -> has f p = true) /\ (has f p = true -> isRequired v f || isOptional v f = true))) as Hf.
  { destruct (isRequired v f), (has f p), (isOptional v f); cbn; naive_solver. }
  destruct (if isRequired v f then _ else _) as [[]|e]; cbn [mbind result_bind].
  - rewrite IH. split; [intros H g [<-|Hg]; [by apply Hf|by apply H]|intros H g Hg; by apply H; right].
  - split; [done|]. intros H. assert (Throw e = @Ok unit tt) by (apply Hf, H; by left). done.
Qed.

Lemma validate_spec v p : validate v p = Ok tt <-> accepts v p.
Proof.
  unfold validate, accepts. pose proof (validate_loop_spec v p all_fields) as Hl.
  destruct (validate_loop v p all_fields) as [[]|e]; cbn [mbind result_bind].
  - destruct Hl as [Hl _]. specialize (Hl eq_refl).
    assert ((forall f, isRequired v f = true -> has f p = true) /\ (forall f, has f p = true -> isRequired v f || isOptional v f = true)) as [H1 H2]
      by (split; intros f; apply Hl, all_fields_complete).
    destruct (isOptional v CONTROL_PARAMETER_FLAGS), (isOptional v CONTROL_PARAMETER_MASK); cbn [andb]; try (by split; [intros _; split_and!|]).
    destruct (Bool.eqb (hasFlags p) (hasMask p)) eqn:E; cbn [negb throw_if].
    + apply eqb_prop in E. by split; [intros _; split_and!|].
    + split; [done|]. intros (_ & _ & H). rewrite (H eq_refl eq_refl), eqb_reflx in E. done.
  - split; [done|]. intros (H1 & H2 & _). assert (Throw e = @Ok unit tt) by (apply Hl; auto). done.
Qed.

(** A default value for a field the validator knows keeps a request valid and
    leaves the fields there are. *)
Lemma default_spec {A} v f (has' : t -> bool) (set : A -> M t unit) (x : A) val p : wf p -> has' p = has f p -> sets f val (set x) ->
  isRequired v f || isOptional v f = true ->
  (f = CONTROL_PARAMETER_FLAGS \/ f = CONTROL_PARAMETER_MASK -> isOptional v CONTROL_PARAMETER_MASK = false) ->
  accepts v p -> exists p', set_default has' set x p = (p', Ok tt) /\ wf p' /\ accepts v p' /\ has f p' = true /\
    forall g, has g p = true -> view p' g = view p g.
Proof.
  intros Hp Hh Hs Hf Hm Ha. unfold set_default. rewrite FieldFacts.bindM_self, Hh. destruct (has f p) eqn:E; cbn [negb].
  { exists p. done. }
  destruct (set_spec f val (set x) p Hp Hs) as (p' & H1 & H2 & _ & Hv). exists p'.
  assert (forall g, has g p' = if decide (g = f) then true else has g p) as Hh'.
  { intros g. specialize (Hv g). unfold view in Hv. repeat case_decide; destruct (has g p'), (has g p); naive_solver. }
  assert (forall g, has g p = true -> view p' g = view p g) as Hold.
  { intros g Hg. rewrite Hv. case_decide as Eg; [|done]. subst g. congruence. }
  split_and!; [done|done| |rewrite Hh'; by case_decide|done]. destruct Ha as (A1 & A2 & A3). split_and!.
  - intros g Hg. rewrite Hh'. case_decide; auto.
  - intros g. rewrite Hh'. case_decide as Eg; [by subst g|auto].
  - intros O1 O2. unfold hasFlags, hasMask. rewrite !Hh'.
    destruct (decide (CONTROL_PARAMETER_FLAGS = f)) as [E1|_]; [rewrite Hm in O2 by (by left); done|].
    destruct (decide (CONTROL_PARAMETER_MASK = f)) as [E1|_]; [rewrite Hm in O2 by (by right); done|]. by apply A3.
Qed.

(** A check behind the test of the base class reads a field the test has seen. *)
Definition vchecks (v : FieldValidator) (f : t -> option (result unit)) : Prop :=
  forall p, exists r, f p = Some r /\ (r = Ok tt -> accepts v p).

Lemma vchecks_base v : vchecks v (base_validate v).
Proof. intros p. eexists. split; [reflexivity|]. apply validate_spec. Qed.

Lemma vchecks_then v (k : t -> option (result unit)) : (forall p, accepts v p -> exists r, k p = Some r) ->
  vchecks v (fun p => then_check (base_validate v p) (k p)).
Proof.
  intros Hk p. unfold then_check, base_validate. cbn [mbind option_bind].
  destruct (validate v p) as [[]|e] eqn:E; [|eexists; by split].
  apply validate_spec in E. destruct (Hk p E) as (r & ->). by exists r.
Qed.

Lemma checked {A} f (get : t -> A) v (k : A -> result unit) : isRequired v f = true ->
  vchecks v (fun p => then_check (base_validate v p) (x ← getField f get p; Some (k x))).
Proof.
  intros Hf. apply vchecks_then. intros p (H1 & _). unfold getField. rewrite (H1 f Hf). by eexists.
Qed.

Lemma checked_if {A} f (get : t -> A) v (k : A -> result unit) :
  vchecks v (fun p => then_check (base_validate v p) (if has f p then x ← getField f get p; Some (k x) else Some (Ok tt))).
Proof. apply vchecks_then. intros p _. unfold getField. destruct (has f p); by eexists. Qed.

Lemma vchecks_face v : isRequired v CONTROL_PARAMETER_FACE_ID = true -> vchecks v (validate_face v).
Proof. intros H. exact (checked CONTROL_PARAMETER_FACE_ID m_faceId v _ H). Qed.

(** Defaults keep an accepted request accepted and the fields it has. *)
Definition keeps (v : FieldValidator) (m : M t unit) : Prop :=
  forall p, wf p -> accepts v p -> exists p', m p = (p', Ok tt) /\ wf p' /\ accepts v p' /\ forall g, has g p = true -> view p' g = view p g.

Lemma preserves_bind v m m' : keeps v m -> keeps v m' -> keeps v (_ ← m; m').
Proof.
  intros H H' p Hp Ha. destruct (H p Hp Ha) as (p1 & E1 & W1 & A1 & V1). destruct (H' p1 W1 A1) as (p2 & E2 & W2 & A2 & V2).
  exists p2. split_and!; [|done|done|].
  - rewrite (FieldFacts.bindM_ok _ _ _ _ _ E1). exact E2.
  - intros g Hg. rewrite V2; [by apply V1|]. specialize (V1 g Hg). unfold view in V1. rewrite Hg in V1. by destruct (has g p1).
Qed.

Lemma keeps_default {A} v f (has' : t -> bool) (set : A -> M t unit) (x : A) val : (forall p, has' p = has f p) -> sets f val (set x) ->
  isRequired v f || isOptional v f = true ->
  (f = CONTROL_PARAMETER_FLAGS \/ f = CONTROL_PARAMETER_MASK -> isOptional v CONTROL_PARAMETER_MASK = false) ->
  keeps v (set_default has' set x).
Proof.
  intros H1 H2 H3 H4 p Hp Ha. destruct (default_spec v f has' set x val p Hp (H1 p) H2 H3 H4 Ha) as (p' & E & W & A' & _ & V).
  by exists p'.
Qed.

Lemma keeps_none v : keeps v no_defaults.
Proof. intros p Hp Ha. by exists p. Qed.

(** What a command promises its callers. *)
Record good (c : cmd) : Prop := mkGood {
  good_request : vchecks (m_requestValidator c) (validateRequest c);
  good_response : vchecks (m_responseValidator c) (validateResponse c);
  good_defaults : applyDefaultsToRequest c = no_defaults \/
    (validateRequest c = base_validate (m_requestValidator c) /\ keeps (m_requestValidator c) (applyDefaultsToRequest c));
}.

Ltac default_tac f s := apply (keeps_default _ f _ _ _ _ (fun _ => eq_refl) s); [reflexivity|first [by intros [?|?]|by intros _]].

Lemma commands_good c : In c commands -> good c.
Proof.
  intros Hc. cbn [commands In] in Hc.
  destruct Hc as [<-|[<-|[<-|[<-|[<-|[<-|[<-|[<-|[<-|[<-|[<-|[]]]]]]]]]]]];
    constructor; cbn [m_requestValidator m_responseValidator validateRequest validateResponse applyDefaultsToRequest
      FaceCreateCommand FaceUpdateCommand FaceDestroyCommand FibAddNextHopCommand FibRemoveNextHopCommand CsConfigCommand
      CsEraseCommand StrategyChoiceSetCommand StrategyChoiceUnsetCommand RibRegisterCommand RibUnregisterCommand];
    try apply vchecks_base; try (by apply vchecks_face); try (by left).
  - right. split; [done|]. default_tac CONTROL_PARAMETER_FACE_PERSISTENCY (sets_facePersistency nfd.FACE_PERSISTENCY_PERSISTENT).
  - right. split; [done|]. default_tac CONTROL_PARAMETER_FACE_ID (sets_faceId 0).
  - right. split; [done|]. apply preserves_bind; [default_tac CONTROL_PARAMETER_FACE_ID (sets_faceId 0)|default_tac CONTROL_PARAMETER_COST (sets_cost 0)].
  - right. split; [done|]. default_tac CONTROL_PARAMETER_FACE_ID (sets_faceId 0).
  - exact (checked_if CONTROL_PARAMETER_COUNT m_count CsErase_request _).
  - exact (checked_if CONTROL_PARAMETER_CAPACITY m_capacity CsErase_response _).
  - exact (checked CONTROL_PARAMETER_NAME m_name StrategyChoiceUnset_request _ eq_refl).
  - exact (checked CONTROL_PARAMETER_NAME m_name StrategyChoiceUnset_request _ eq_refl).
  - right. split; [done|]. apply preserves_bind; [default_tac CONTROL_PARAMETER_FACE_ID (sets_faceId 0)|].
    apply preserves_bind; [default_tac CONTROL_PARAMETER_ORIGIN (sets_origin nfd.ROUTE_ORIGIN_APP)|].
    apply preserves_bind; [default_tac CONTROL_PARAMETER_COST (sets_cost 0)|default_tac CONTROL_PARAMETER_FLAGS (sets_flags nfd.ROUTE_FLAG_CHILD_INHERIT)].
  - right. split; [done|]. apply preserves_bind; [default_tac CONTROL_PARAMETER_FACE_ID (sets_faceId 0)|default_tac CONTROL_PARAMETER_ORIGIN (sets_origin nfd.ROUTE_ORIGIN_APP)].
Qed.

End CommandFacts.

(** ** Theorems *)

Module ControlTheorems.
Import FieldFacts RecordFacts RecordLaws ControlParameters ControlFacts FlagFacts.

(** Control parameters are a partial map of fields: each setter makes its
    field present with the value given, each [unset] function makes it absent,
    both leave the other fifteen fields alone and drop the cached wire. *)
Theorem control_parameters_refines_map (p : t) (f : ControlParameterField) (v : value) (set unset : M t unit)
    (Hp : wf p) (Hs : sets f v set) (Hu : unsets f unset) :
  (exists p', set p = (p', Ok tt) /\ wf p' /\ Block.hasWire (m_wire p') = false /\
     forall g, view p' g = if decide (g = f) then Some v else view p g) /\
  (exists p', unset p = (p', Ok tt) /\ wf p' /\ Block.hasWire (m_wire p') = false /\
     forall g, view p' g = if decide (g = f) then None else view p g).
Proof. split; [by apply set_spec|by apply unset_spec]. Qed.

Lemma control_parameters_refines_map_witness :
  exists p', setCost 10 init = (p', Ok tt) /\ view p' CONTROL_PARAMETER_COST = Some (VNumber 10).
Proof.
  destruct (control_parameters_refines_map init CONTROL_PARAMETER_COST (VNumber 10) (setCost 10) unsetCost eq_refl (sets_cost 10) unsets_cost)
    as [(p' & H1 & _ & _ & H2) _].
  exists p'. split; [exact H1|]. by rewrite H2.
Defined.

Lemma params_encode_spec p : Block.hasWire (m_wire p) = false -> is_u64 (len (BlockFacts.tlv_seq (seq p))) ->
  wireEncode p = (with_wire (seq_block tlv_nfd.ControlParameters (seq p)) p, Ok (seq_block tlv_nfd.ControlParameters (seq p))).
Proof.
  intros Hw Hl. unfold wireEncode, cachedEncode. rewrite bindM_self, Hw.
  rewrite (bindM_lift _ _ _ _ (makeBlock_seq _ _ _ (encodes p) ltac:(by vm_compute) Hl)). done.
Qed.

(** C20: control parameters survive the wire: the encoding of parameters whose
    present fields are in range decodes, into any object and whatever that held,
    to parameters with the same fields present and absent and with equal values;
    they encode to the same octets again. *)
Theorem control_parameters_roundtrip (p p0 : t) (Hw : Block.hasWire (m_wire p) = false) (Hp0 : wf p0) (Hok : ok p)
    (Hl : is_u64 (len (BlockFacts.tlv_seq (seq p)))) :
  exists b p1 p', wireEncode p = (p1, Ok b) /\ wireDecode b p0 = (p', Ok tt) /\ wf p' /\
    (forall f, view p' f = norm_value <$> view p f) /\ (forall n, Name.equals n (norm_name n) = true) /\
    wireEncode p' = (p', Ok (m_wire p')) /\ Block.wire (m_wire p') = Block.wire b.
Proof.
  destruct (decode_spec p Hok Hl p0 Hp0) as (p' & Hd & Hwf & Hm & Hv).
  exists (seq_block tlv_nfd.ControlParameters (seq p)), (with_wire (seq_block tlv_nfd.ControlParameters (seq p)) p), p'.
  split_and!; [by apply params_encode_spec|exact Hd|exact Hwf|exact Hv|apply norm_name_equals| |by rewrite Hm].
  unfold wireEncode, cachedEncode. by rewrite bindM_self, Hm, parsed_hasWire.
Qed.

Definition sample : t := fst (setFacePersistency 2 (fst (setUri (str "udp4://10.0.0.1") (fst (setFaceId 4000 init))))).

Lemma sample_view f : view sample f =
  match f with
  | CONTROL_PARAMETER_FACE_ID => Some (VNumber 4000)
  | CONTROL_PARAMETER_URI => Some (VText (str "udp4://10.0.0.1"))
  | CONTROL_PARAMETER_FACE_PERSISTENCY => Some (VNumber 2)
  | _ => None
  end.
Proof. by destruct f. Qed.

Lemma sample_ok : ok sample.
Proof. intros f v. rewrite sample_view. destruct f; intros [= <-]; cbn; unfold within; by width. Qed.

Lemma control_parameters_roundtrip_witness : exists b p1 p', wireEncode sample = (p1, Ok b) /\ wireDecode b init = (p', Ok tt) /\
  view p' CONTROL_PARAMETER_FACE_ID = Some (VNumber 4000) /\ view p' CONTROL_PARAMETER_NAME = None.
Proof.
  destruct (control_parameters_roundtrip sample init eq_refl eq_refl sample_ok) as (b & p1 & p' & H1 & H2 & _ & H3 & _).
  { by vm_compute. }
  exists b, p1, p'. split; [exact H1|]. split; [exact H2|].
  rewrite (H3 CONTROL_PARAMETER_FACE_ID), (H3 CONTROL_PARAMETER_NAME), (sample_view CONTROL_PARAMETER_FACE_ID), (sample_view CONTROL_PARAMETER_NAME).
  split; reflexivity.
Defined.

(** The flag helpers compute the mask of a bit as an [int].  Up to bit 30
    setting a flag bit sets exactly that bit of Flags and of Mask and clearing
    it clears exactly that bit; bit 31 sets, or clears, the bits 31 to 63; for
    the bits 32 to 63, which the guard lets through, the shift is undefined. *)
Theorem control_flag_bits (p : t) (bit i : Z) (Hp : wf p) (Hb : 0 <= bit < 64) (Hi : 0 <= i < 64) :
  (bit <= 30 -> forall value, exists p', setFlagBit bit value true p = Some (Ok p') /\
     Z.testbit (m_flags p') i = (if i =? bit then value else Z.testbit (flagsOr0 p) i) /\
     Z.testbit (m_mask p') i = (i =? bit) || Z.testbit (maskOr0 p) i) /\
  (bit = 31 -> forall value, exists p', setFlagBit bit value true p = Some (Ok p') /\
     Z.testbit (m_flags p') i = (if 31 <=? i then value else Z.testbit (flagsOr0 p) i) /\
     Z.testbit (m_mask p') i = (31 <=? i) || Z.testbit (maskOr0 p) i) /\
  (32 <= bit -> forall value, setFlagBit bit value true p = None /\ unsetFlagBit bit p = None).
Proof.
  assert (forall bit k c value (b : bool), 0 <= bit < 64 -> FaceTraits.one_shl bit = Some k -> FaceTraits.not_one_shl bit = Some c ->
    Z.testbit k i = b -> Z.testbit c i = negb b -> exists p', setFlagBit bit value true p = Some (Ok p') /\
     Z.testbit (m_flags p') i = (if b then value else Z.testbit (flagsOr0 p) i) /\ Z.testbit (m_mask p') i = b || Z.testbit (maskOr0 p) i) as Hset.
  { intros bit' k c value b Hb' Hk Hc Tk Tc. unfold setFlagBit. rewrite (proj2 (Z.leb_gt 64 bit')) by lia. rewrite Hk, Hc. cbn [mbind option_bind].
    eexists. split; [reflexivity|]. set (q := fst (setFlags _ p)).
    assert (maskOr0 q = maskOr0 p) as Hq.
    { unfold maskOr0, hasMask. unfold q. change (has CONTROL_PARAMETER_MASK (fst (setFlags ?x p))) with (has CONTROL_PARAMETER_MASK (with_has CONTROL_PARAMETER_FLAGS true p)).
      by rewrite has_with_has. }
    change (m_flags (fst (setMask ?x q))) with (m_flags q). change (m_mask (fst (setMask ?x q))) with x. rewrite Hq. split.
    - unfold q. change (m_flags (fst (setFlags ?x p))) with x. destruct value, b; rewrite ?Z.lor_spec, ?Z.land_spec, ?Tk, ?Tc; cbn [negb];
        by rewrite ?orb_true_r, ?orb_false_r, ?andb_true_r, ?andb_false_r.
    - rewrite Z.lor_spec, Tk. apply orb_comm. }
  split_and!.
  - intros Hlow value. destruct (one_shl_low bit ltac:(lia)) as (k & Hk & Tk). destruct (not_one_shl_low bit ltac:(lia)) as (c & Hc & Tc).
    apply (Hset bit k c value (i =? bit)); auto. apply Tk. lia.
  - intros -> value. destruct (one_shl_31 i Hi) as (k & Hk & Tk). destruct (not_one_shl_31 i Hi) as (c & Hc & Tc).
    by apply (Hset 31 k c value (31 <=? i)).
  - intros Hhigh value. destruct (shl_undefined bit Hhigh) as [H1 H2]. unfold setFlagBit, unsetFlagBit.
    rewrite (proj2 (Z.leb_gt 64 bit)) by lia. by rewrite H1, H2.
Qed.

Lemma control_flag_bits_witness : exists p', setFlagBit 31 true true init = Some (Ok p') /\ Z.testbit (m_flags p') 40 = true.
Proof.
  destruct (control_flag_bits init 31 40 eq_refl) as (_ & H & _); [lia|lia|].
  destruct (H eq_refl true) as (p' & H1 & H2 & _). exists p'. split; [exact H1|exact H2].
Defined.

End ControlTheorems.

Module CommandTheorems.
Import FieldFacts ControlParameters ControlCommand ControlFacts CommandFacts.

(** For each of the eleven commands, a validator accepts exactly the
    parameters that have every required field, no field that is neither required
    nor optional, and Flags exactly with Mask where both are optional;
    validating a request or a response never reads an absent field; and the
    default values keep an accepted request accepted and leave the fields that
    are there as they are. *)
Theorem control_command_requests (c : cmd) (p : t) (Hc : In c commands) (Hp : wf p) :
  (validate (m_requestValidator c) p = Ok tt <-> accepts (m_requestValidator c) p) /\
  (exists r, validateRequest c p = Some r /\ (r = Ok tt -> accepts (m_requestValidator c) p)) /\
  (exists r, validateResponse c p = Some r /\ (r = Ok tt -> accepts (m_responseValidator c) p)) /\
  (validateRequest c p = Some (Ok tt) -> exists p', applyDefaultsToRequest c p = (p', Ok tt) /\ wf p' /\
     validateRequest c p' = Some (Ok tt) /\ forall f, has f p = true -> view p' f = view p f).
Proof.
  destruct (commands_good c Hc) as [Hq Hr Hd]. split_and!; [apply validate_spec|apply Hq|apply Hr|]. intros Hv.
  destruct (Hq p) as (r & Er & Ha). rewrite Hv in Er. injection Er as <-. specialize (Ha eq_refl).
  destruct Hd as [-> | [Hb Hk]]; [by exists p|]. destruct (Hk p Hp Ha) as (p' & E & W & A' & V). exists p'.
  split_and!; [done|done| |done]. rewrite Hb. unfold base_validate. f_equal. by apply validate_spec.
Qed.

Definition register : t := fst (setName Name.empty init).

Lemma register_accepted : validateRequest RibRegisterCommand register = Some (Ok tt).
Proof. vm_compute. reflexivity. Qed.

Lemma control_command_requests_witness : exists p', applyDefaultsToRequest RibRegisterCommand register = (p', Ok tt) /\
  validateRequest RibRegisterCommand p' = Some (Ok tt).
Proof.
  destruct (control_command_requests RibRegisterCommand register) as (_ & _ & _ & H); [cbn [commands In]; tauto|reflexivity|].
  destruct (H register_accepted) as (p' & H1 & _ & H2 & _). exists p'. split; [exact H1|exact H2].
Defined.

End CommandTheorems.
