(* ===== verification/Dispatcher.v ===== *)
(** * The server side of management

    The context of a status dataset ([mgmt/status-dataset-context.cpp]), which
    cuts a dataset into segments, and the dispatcher ([mgmt/dispatcher.cpp]),
    which hands Interests to the handlers of control commands, datasets and
    notification streams and answers from its storage. *)

From stdpp Require Import list.
From S2P Require Import Prelude Tlv Encoding Blocks BlockHelpers Text NameComponents Names Fields DataPacket InterestPacket InMemoryStorage.
From S2P Require Import Announcements LinkProtocol FaceTables NfdStatus NfdControl.

(** ** The context of a dataset *)

Module StatusDatasetContext.

(** [ndn-cxx/mgmt/status-dataset-context.cpp:27-27] MAX_PAYLOAD_LENGTH *)
Definition MAX_PAYLOAD_LENGTH : Z := tlv.MAX_NDN_PACKET_SIZE - 800.

(** [ndn-cxx/mgmt/status-dataset-context.hpp:104-108] StatusDatasetContext::State *)
Inductive State := INITIAL | RESPONDED | FINALIZED.

#[global] Instance State_eq_dec : EqDecision State.
Proof. solve_decision. Defined.

Section context.
Context {W : Type} (conv : name.Conventions).

(** [ndn-cxx/mgmt/status-dataset-context.hpp:97-109] StatusDatasetContext
    [W]: what the senders change. *)
Record t := mk {
  m_interest : Interest.t;
  m_dataSender : Name.t -> Block.t -> bool -> P W unit;
  m_nackSender : ControlResponse.t -> P W unit;
  m_prefix : Name.t;
  m_buffer : bytes;
  m_segmentNo : Z;
  m_state : State;
}.

Definition with_prefix x c := mk (m_interest c) (m_dataSender c) (m_nackSender c) x (m_buffer c) (m_segmentNo c) (m_state c).
Definition with_buffer x c := mk (m_interest c) (m_dataSender c) (m_nackSender c) (m_prefix c) x (m_segmentNo c) (m_state c).
Definition with_segmentNo x c := mk (m_interest c) (m_dataSender c) (m_nackSender c) (m_prefix c) (m_buffer c) x (m_state c).
Definition with_state x c := mk (m_interest c) (m_dataSender c) (m_nackSender c) (m_prefix c) (m_buffer c) (m_segmentNo c) x.

(** [ndn-cxx/mgmt/status-dataset-context.cpp:39-60] StatusDatasetContext::setPrefix
    [now]: the current time, for the version. *)
Definition setPrefix (now : Z) (prefix : Name.t) : M t unit :=
  c ← self;
  _ ← throwM_if (negb (bool_decide (m_state c = INITIAL))) (LogicError "cannot call setPrefix() after append/end/reject");
  _ ← throwM_if (negb (Name.isPrefixOf (Interest.m_name (m_interest c)) prefix)) (InvalidArgument "prefix must start with the Interest's name");
  last ← liftR (Name.at_ (-1) prefix);
  _ ← throwM_if (Component.isSegment conv last) (InvalidArgument "prefix must not contain a segment component");
  _ ← modify (with_prefix prefix);
  if negb (Component.isVersion conv last) then
    versioned ← liftR (Name.appendVersion conv now None prefix);
    modify (with_prefix versioned)
  else mret tt.

(** [ndn-cxx/mgmt/status-dataset-context.cpp:29-37] StatusDatasetContext::StatusDatasetContext *)
Definition make (now : Z) (interest : Interest.t) (dataSender : Name.t -> Block.t -> bool -> P W unit) (nackSender : ControlResponse.t -> P W unit) : result t :=
  exec (setPrefix now (Interest.m_name interest)) (mk interest dataSender nackSender Name.empty [] 0 INITIAL).

Definition with_fst {A B} (a : A) (p : A * B) : A * B := (a, snd p).

(** A member function that calls a sender. *)
Definition sending {A} (m : P W A) : P (t * W) A := fun p =>
  match m (snd p) with
  | Some (w, r) => Some ((fst p, w), r)
  | None => None
  end.

(** [m_dataSender(Name(m_prefix).appendSegment(segmentNo), makeBinaryBlock(tlv::Content, m_buffer), isFinalBlock)] *)
Definition sendSegment (segmentNo : Z) (isFinalBlock : bool) : P (t * W) unit :=
  p ← selfP;
  n ← liftP (Name.appendSegment conv segmentNo (m_prefix (fst p)));
  content ← liftP (encoding.makeBinaryBlock tlv.Content (m_buffer (fst p)));
  sending (m_dataSender (fst p) n content isFinalBlock).

(** [ndn-cxx/mgmt/status-dataset-context.cpp:71-86] StatusDatasetContext::append (the loop)
    [cur]: the octets from [cur] to the end.  [None]: more than [fuel] turns, or the
    assertion fails. *)
Fixpoint append_loop (fuel : nat) (cur : bytes) : P (t * W) unit :=
  match cur with
  | [] => mret tt
  | _ =>
      match fuel with
      | O => undefinedP
      | S fuel =>
          p ← selfP;
          let nBytesToAppend := Z.min (len cur) (MAX_PAYLOAD_LENGTH - len (m_buffer (fst p))) in
          _ ← zoomP fst with_fst (modify (fun c => with_buffer (m_buffer c ++ take (Z.to_nat nBytesToAppend) cur) c));
          let next := drop (Z.to_nat nBytesToAppend) cur in
          match next with
          | [] => mret tt
          | _ =>
              p ← selfP;
              _ ← (if len (m_buffer (fst p)) =? MAX_PAYLOAD_LENGTH then mret tt else undefinedP);
              let segmentNo := m_segmentNo (fst p) in
              _ ← zoomP fst with_fst (modify (with_segmentNo (u64 (segmentNo + 1))));
              _ ← sendSegment segmentNo false;
              _ ← zoomP fst with_fst (modify (with_buffer []));
              append_loop fuel next
          end
      end
  end.

(** [ndn-cxx/mgmt/status-dataset-context.cpp:62-87] StatusDatasetContext::append *)
Definition append (block : Block.t) : P (t * W) unit :=
  p ← selfP;
  _ ← liftP (throw_if (bool_decide (m_state (fst p) = FINALIZED)) (LogicError "cannot call append() on a finalized context"));
  _ ← zoomP fst with_fst (modify (with_state RESPONDED));
  octets ← liftP (Block.wire block);
  append_loop (S (length octets)) octets.

(** [ndn-cxx/mgmt/status-dataset-context.cpp:89-100] StatusDatasetContext::end *)
Definition end_ : P (t * W) unit :=
  p ← selfP;
  _ ← liftP (throw_if (bool_decide (m_state (fst p) = FINALIZED)) (LogicError "cannot call end() on a finalized context"));
  _ ← zoomP fst with_fst (modify (with_state FINALIZED));
  sendSegment (m_segmentNo (fst p)) true.

(** [ndn-cxx/mgmt/status-dataset-context.cpp:102-111] StatusDatasetContext::reject *)
Definition reject (resp : ControlResponse.t) : P (t * W) unit :=
  p ← selfP;
  _ ← liftP (throw_if (negb (bool_decide (m_state (fst p) = INITIAL))) (LogicError "cannot call reject() after append/end"));
  _ ← zoomP fst with_fst (modify (with_state FINALIZED));
  sending (m_nackSender (fst p) resp).

End context.
Arguments t : clear implicits.
End StatusDatasetContext.

(** ** The dispatcher *)

Module Dispatcher.

#[local] Existing Instance ims.Fifo.

(** [ndn-cxx/encoding/tlv.hpp:168-168] tlv::ContentType_Nack *)
Definition ContentType_Nack : Z := 3.

(** [ndn-cxx/mgmt/dispatcher.hpp:49-54] RejectReply *)
Inductive RejectReply := SILENT | STATUS403.

(** [ndn-cxx/mgmt/dispatcher.hpp:312-317] Dispatcher::SendDestination *)
Inductive SendDestination := NONE | FACE | IMS | FACE_AND_IMS.

(** What the handlers reach of a dispatcher: the storage, and the packets
    handed to [Face::put], which only posts them, with their tags. *)
Record output := mkOutput { m_storage : ims.t ims.fifo; m_face : list (tagged Data.t) }.

Definition with_storage x o := mkOutput x (m_face o).
Definition with_face x o := mkOutput (m_storage o) x.

(** [ndn-cxx/mgmt/dispatcher.hpp:61-65] Authorization
    It calls a continuation, at once. *)
Definition Authorization : Type := Name.t -> Interest.t -> option ControlParameters.t ->
  (bytes -> P output unit) -> (RejectReply -> P output unit) -> P output unit.

(** [ndn-cxx/mgmt/dispatcher.hpp:81-81] ValidateParameters *)
Definition ValidateParameters : Type := ControlParameters.t -> bool.

(** [ndn-cxx/mgmt/dispatcher.hpp:93-95] ControlCommandHandler *)
Definition ControlCommandHandler : Type := Name.t -> Interest.t -> ControlParameters.t -> (ControlResponse.t -> P output unit) -> P output unit.

(** [ndn-cxx/mgmt/dispatcher.hpp:104-105] StatusDatasetHandler *)
Definition StatusDatasetHandler : Type := Name.t -> Interest.t -> P (StatusDatasetContext.t output * output) unit.

(** [ndn-cxx/mgmt/dispatcher.hpp:264-264] Dispatcher::InterestHandler *)
Definition InterestHandler : Type := Name.t -> Interest.t -> P output unit.

(** [ndn-cxx/mgmt/dispatcher.hpp:429-433] Dispatcher::TopPrefixEntry
    The Interest filters the entry holds, with what their callbacks call. *)
Record TopPrefixEntry := mkEntry { registeredPrefix : bool; interestFilters : list (Name.t * (Interest.t -> P output unit)) }.

(** [ndn-cxx/mgmt/dispatcher.hpp:434-446] Dispatcher
    The unordered maps as lists of their entries, in some order. *)
Record t := mk {
  m_topLevelPrefixes : list (Name.t * TopPrefixEntry);
  m_handlers : list (Name.t * InterestHandler);
  m_streams : list (Name.t * Z);
  m_output : output;
}.

Definition with_topLevelPrefixes x d := mk x (m_handlers d) (m_streams d) (m_output d).
Definition with_handlers x d := mk (m_topLevelPrefixes d) x (m_streams d) (m_output d).
Definition with_streams x d := mk (m_topLevelPrefixes d) (m_handlers d) x (m_output d).
Definition with_output x d := mk (m_topLevelPrefixes d) (m_handlers d) (m_streams d) x.

(** [map[key] = value] and the value of [map[key]], made up if there is none. *)
Fixpoint assign {V} (key : Name.t) (value : V) (l : list (Name.t * V)) : list (Name.t * V) :=
  match l with
  | [] => [(key, value)]
  | (k, v) :: l => if Name.equals k key then (k, value) :: l else (k, v) :: assign key value l
  end.

Fixpoint value_of {V} (zero : V) (key : Name.t) (l : list (Name.t * V)) : V :=
  match l with
  | [] => zero
  | (k, v) :: l => if Name.equals k key then v else value_of zero key l
  end.

Section dispatcher.
Variables (sha256 : bytes -> bytes) (conv : name.Conventions) (sign : M Data.t unit) (now : Z).

(** [ndn-cxx/mgmt/dispatcher.cpp:43-51] Dispatcher::Dispatcher *)
Definition init (imsCapacity : Z) : t := mk [] [] [] (mkOutput (ims.init ([] : ims.fifo) true imsCapacity) []).

(** [ndn-cxx/mgmt/dispatcher.cpp:31-41] makeAcceptAllAuthorization *)
Definition makeAcceptAllAuthorization : Authorization := fun _ _ _ accept _ => accept [].

(** ** Output *)

(** [ndn-cxx/mgmt/dispatcher.cpp:156-165] Dispatcher::sendOnFace
    [Face::put] does not throw: it posts the packet. *)
Definition sendOnFace (data : tagged Data.t) : P output unit := modifyP (fun o => with_face (m_face o ++ [data]) o).

(** [ndn-cxx/mgmt/dispatcher.cpp:145-147] the tag of the packets in the storage *)
Definition noCacheTag : TagHost.t :=
  TagHost.mk None None (Some (fst (CachePolicy.setPolicy CachePolicy.NO_CACHE CachePolicy.init))) None.

(** [ndn-cxx/mgmt/dispatcher.cpp:135-154] Dispatcher::sendData
    [InMemoryStorage::insert] computes the full name, which the packet keeps. *)
Definition sendData (dataName : Name.t) (content : Block.t) (metaInfo : MetaInfo.t) (option_ : SendDestination) : P output unit :=
  data ← liftP (exec (_ ← Data.setContentBlock content; _ ← Data.setMetaInfo metaInfo; _ ← Data.setFreshnessPeriod 1000; sign) (Data.ofName dataName));
  let stored := match option_ with IMS | FACE_AND_IMS => true | _ => false end in
  let sent := match option_ with FACE | FACE_AND_IMS => true | _ => false end in
  _ ← (if stored : bool then zoomP m_storage with_storage (ims.insert sha256 data 1000) else mret tt);
  let data := if stored then Tagged (fst (Data.getFullName sha256 data)) noCacheTag else Tagged data TagHost.none in
  if sent : bool then sendOnFace data else mret tt.

(** [ndn-cxx/mgmt/dispatcher.cpp:210-220] Dispatcher::sendControlResponse *)
Definition sendControlResponse (resp : ControlResponse.t) (interest : Interest.t) (isNack : bool) : P output unit :=
  metaInfo ← liftP (exec (if isNack then MetaInfo.setType ContentType_Nack else mret tt) MetaInfo.init);
  wire ← liftP (snd (ControlResponse.wireEncode resp));
  sendData (Interest.m_name interest) wire metaInfo FACE.

(** [ndn-cxx/mgmt/dispatcher.cpp:111-117] Dispatcher::afterAuthorizationRejected *)
Definition afterAuthorizationRejected (act : RejectReply) (interest : Interest.t) : P output unit :=
  match act with
  | STATUS403 => sendControlResponse (ControlResponse.make 403 (str "authorization rejected")) interest false
  | SILENT => mret tt
  end.

(** [ndn-cxx/mgmt/dispatcher.cpp:119-133] Dispatcher::queryStorage
    The packets in the storage carry the tag [sendData] gave them. *)
Definition queryStorage (prefix : Name.t) (interest : Interest.t) (missContinuation : option InterestHandler) : P output unit :=
  data ← zoomP m_storage with_storage (ims.findInterest sha256 interest);
  match data with
  | None => match missContinuation with Some miss => miss prefix interest | None => mret tt end
  | Some data => sendOnFace (Tagged data noCacheTag)
  end.

(** ** Control commands *)

(** [ndn-cxx/mgmt/dispatcher.hpp:464-466] the parser of addControlCommand *)
Definition parser (comp : Component.t) : result ControlParameters.t :=
  b ← Block.blockFromValue comp; ControlParameters.ofBlock b.

(** [ndn-cxx/mgmt/dispatcher.cpp:193-208] Dispatcher::processAuthorizedControlCommandInterest *)
Definition processAuthorizedControlCommandInterest (prefix : Name.t) (interest : Interest.t) (parameters : ControlParameters.t)
    (validateParams : ValidateParameters) (handler : ControlCommandHandler) : P output unit :=
  if validateParams parameters then handler prefix interest parameters (fun resp => sendControlResponse resp interest false)
  else sendControlResponse (ControlResponse.make 400 (str "failed in validating parameters")) interest false.

(** [ndn-cxx/mgmt/dispatcher.cpp:167-191] Dispatcher::processControlCommandInterest
    [None]: the name ends before the parameters. *)
Definition processControlCommandInterest (prefix relPrefix : Name.t) (interest : Interest.t) (authorization : Authorization)
    (accepted : bytes -> Name.t -> Interest.t -> ControlParameters.t -> P output unit) (rejected : RejectReply -> Interest.t -> P output unit) : P output unit :=
  let parametersLoc := Name.size prefix + Name.size relPrefix in
  pc ← definedP (Name.get parametersLoc (Interest.m_name interest));
  match parser pc with
  | Throw e => if is_tlv_error e then mret tt else throwP e
  | Ok parameters =>
      authorization prefix interest (Some parameters) (fun req => accepted req prefix interest parameters) (fun reply => rejected reply interest)
  end.

(** [std::any_of] with the test of both directions. *)
Definition overlaps {V} (name : Name.t) (l : list (Name.t * V)) : bool :=
  existsb (fun x => Name.isPrefixOf (fst x) name || Name.isPrefixOf name (fst x)) l.

(** [ndn-cxx/mgmt/dispatcher.cpp:94-109] Dispatcher::isOverlappedWithOthers *)
Definition isOverlappedWithOthers (relPrefix : Name.t) (d : t) : bool :=
  overlaps relPrefix (m_handlers d) || overlaps relPrefix (m_streams d).

(** The two tests in front of every registration. *)
Definition mayRegister (relPrefix : Name.t) (what : string) : M t unit :=
  d ← self;
  _ ← throwM_if (negb (bool_decide (m_topLevelPrefixes d = []))) (LogicError "one or more top-level prefix has been added");
  throwM_if (isOverlappedWithOthers relPrefix d) (OutOfRange what).

Definition setHandler (relPrefix : Name.t) (h : InterestHandler) : M t unit :=
  modify (fun d => with_handlers (assign relPrefix h (m_handlers d)) d).

(** [ndn-cxx/mgmt/dispatcher.hpp:449-484] Dispatcher::addControlCommand *)
Definition addControlCommand (relPrefix : Name.t) (authorize : Authorization) (validate : ValidateParameters) (handle : ControlCommandHandler) : M t unit :=
  _ ← mayRegister relPrefix "relPrefix overlaps with another relPrefix";
  setHandler relPrefix (fun prefix interest =>
    processControlCommandInterest prefix relPrefix interest authorize
      (fun _ prefix interest parameters => processAuthorizedControlCommandInterest prefix interest parameters validate handle)
      afterAuthorizationRejected).

(** ** Status datasets *)

(** [ndn-cxx/mgmt/dispatcher.cpp:284-300] Dispatcher::sendStatusDatasetSegment *)
Definition sendStatusDatasetSegment (dataName : Name.t) (content : Block.t) (isFinalBlock : bool) : P output unit :=
  last ← definedP (Name.get (-1) dataName);
  segment ← liftP (Component.toSegment conv last);
  let destination := if segment =? 0 then FACE_AND_IMS else IMS in
  metaInfo ← liftP (exec (if isFinalBlock : bool then MetaInfo.setFinalBlock (Some last) else mret tt) MetaInfo.init);
  sendData dataName content metaInfo destination.

(** A local context, which is gone at the end. *)
Definition withContext (context : StatusDatasetContext.t output) (m : P (StatusDatasetContext.t output * output) unit) : P output unit := fun o =>
  match m (context, o) with
  | Some ((_, o), r) => Some (o, r)
  | None => None
  end.

(** [ndn-cxx/mgmt/dispatcher.cpp:269-282] Dispatcher::processAuthorizedStatusDatasetInterest *)
Definition processAuthorizedStatusDatasetInterest (prefix : Name.t) (interest : Interest.t) (handler : StatusDatasetHandler) : P output unit :=
  context ← liftP (StatusDatasetContext.make conv now interest sendStatusDatasetSegment (fun resp => sendControlResponse resp interest true));
  withContext context (handler prefix interest).

(** [ndn-cxx/mgmt/dispatcher.cpp:250-267] Dispatcher::processStatusDatasetInterest *)
Definition processStatusDatasetInterest (prefix : Name.t) (interest : Interest.t) (authorization : Authorization)
    (accepted : bytes -> Name.t -> Interest.t -> P output unit) (rejected : RejectReply -> Interest.t -> P output unit) : P output unit :=
  let endsWithVersionOrSegment :=
    match Name.get (-1) (Interest.m_name interest) with
    | Some c => Component.isVersion conv c || Component.isSegment conv c
    | None => false
    end in
  if endsWithVersionOrSegment then mret tt
  else authorization prefix interest None (fun req => accepted req prefix interest) (fun reply => rejected reply interest).

(** [ndn-cxx/mgmt/dispatcher.cpp:222-248] Dispatcher::addStatusDataset *)
Definition addStatusDataset (relPrefix : Name.t) (authorize : Authorization) (handle : StatusDatasetHandler) : M t unit :=
  _ ← mayRegister relPrefix "status dataset name overlaps";
  let missContinuation := fun prefix interest =>
    processStatusDatasetInterest prefix interest authorize
      (fun _ prefix interest => processAuthorizedStatusDatasetInterest prefix interest handle) afterAuthorizationRejected in
  setHandler relPrefix (fun prefix interest => queryStorage prefix interest (Some missContinuation)).

(** ** Notification streams *)

(** [ndn-cxx/mgmt/dispatcher.cpp:302-321] Dispatcher::addNotificationStream
    The function it returns is [postNotification] with [relPrefix]. *)
Definition addNotificationStream (relPrefix : Name.t) : M t unit :=
  _ ← mayRegister relPrefix "notification stream name overlaps";
  _ ← setHandler relPrefix (fun prefix interest => queryStorage prefix interest None);
  modify (fun d => with_streams (assign relPrefix 0 (m_streams d)) d).

Definition outputting {A} (m : P output A) : P t A := fun d =>
  match m (m_output d) with
  | Some (o, r) => Some (with_output o d, r)
  | None => None
  end.

(** [ndn-cxx/mgmt/dispatcher.cpp:323-338] Dispatcher::postNotification *)
Definition postNotification (notification : Block.t) (relPrefix : Name.t) : P t unit :=
  d ← selfP;
  match m_topLevelPrefixes d with
  | [(top, _)] =>
      streamName ← liftP (Name.appendName relPrefix top);
      let seqNo := value_of 0 streamName (m_streams d) in
      _ ← modifyP (fun d => with_streams (assign streamName (u64 (seqNo + 1)) (m_streams d)) d);
      notificationName ← liftP (Name.appendSequenceNumber conv seqNo streamName);
      outputting (sendData notificationName notification MetaInfo.init FACE_AND_IMS)
  | _ => mret tt
  end.

(** ** Top-level prefixes *)

(** [ndn-cxx/mgmt/dispatcher.cpp:78-85] Dispatcher::addTopPrefix (the filters) *)
Definition filtersOf (prefix : Name.t) (handlers : list (Name.t * InterestHandler)) : result (list (Name.t * (Interest.t -> P output unit))) :=
  mapR (fun entry => fullPrefix ← Name.appendName (fst entry) prefix; Ok (fullPrefix, fun interest => snd entry prefix interest)) handlers.

(** [ndn-cxx/mgmt/dispatcher.cpp:55-86] Dispatcher::addTopPrefix *)
Definition addTopPrefix (prefix : Name.t) (wantRegister : bool) : M t unit :=
  d ← self;
  _ ← throwM_if (overlaps prefix (m_topLevelPrefixes d)) (OutOfRange "top-level prefix overlaps");
  _ ← modify (fun d => with_topLevelPrefixes (assign prefix (mkEntry wantRegister []) (m_topLevelPrefixes d)) d);
  filters ← liftR (filtersOf prefix (m_handlers d));
  modify (fun d => with_topLevelPrefixes (assign prefix (mkEntry wantRegister filters) (m_topLevelPrefixes d)) d).

(** [ndn-cxx/mgmt/dispatcher.cpp:88-92] Dispatcher::removeTopPrefix
    The entry takes its filters with it. *)
Definition removeTopPrefix (prefix : Name.t) (d : t) : t :=
  with_topLevelPrefixes (List.filter (fun x => negb (Name.equals (fst x) prefix)) (m_topLevelPrefixes d)) d.

(** The filters that are set on the face. *)
Definition filters (d : t) : list (Name.t * (Interest.t -> P output unit)) :=
  x ← m_topLevelPrefixes d; interestFilters (snd x).

End dispatcher.
End Dispatcher.
