(* ===== verification/DispatcherFacts.v ===== *)
(** * What the server side of management guarantees

    The context of a dataset refines a machine that only collects the octets
    it is given and cuts them into segments; the dispatcher never lets two
    handlers compete for an Interest, and parses the commands that clients
    make. *)

From stdpp Require Import list.
From S2P Require Import Prelude Tlv Encoding Blocks BlockHelpers Text NameComponents Names Fields DataPacket InterestPacket InMemoryStorage.
From S2P Require Import Announcements LinkProtocol FaceTables NfdStatus NfdStatusFacts NfdControl NfdControlFacts Dispatcher.

(** ** The context of a dataset *)

Module DatasetContextFacts.
Import StatusDatasetContext FieldFacts.

(** What the senders are handed. *)
Inductive sent := Segment (n : Name.t) (content : Block.t) (isFinal : bool) | Nacked (resp : ControlResponse.t).

Definition logData (n : Name.t) (b : Block.t) (f : bool) : P (list sent) unit := modifyP (fun w => w ++ [Segment n b f]).
Definition logNack (r : ControlResponse.t) : P (list sent) unit := modifyP (fun w => w ++ [Nacked r]).

(** The calls a handler can make, and a handler that goes on after an exception. *)
Inductive op := Append (b : Block.t) | End | Reject (r : ControlResponse.t) | SetPrefix (now : Z) (p : Name.t).

Section context.
Variable conv : name.Conventions.
Notation state := (t (list sent) * list sent)%type.

Definition perform (o : op) : P state unit :=
  match o with
  | Append b => append conv b
  | End => end_ conv
  | Reject r => reject r
  | SetPrefix now p => zoomP fst with_fst (setPrefix conv now p)
  end.

Fixpoint handle (ops : list op) (p : state) : option (state * list bool) :=
  match ops with
  | [] => Some (p, [])
  | o :: ops => '(p, r) ← perform o p; '(p, rs) ← handle ops p; Some (p, is_Ok r :: rs)
  end.

(** *** The specification *)

(** Nothing yet; a dataset of these octets so far, or complete; a refusal. *)
Inductive spec :=
  | Idle (prefix : Name.t)
  | Serving (prefix : Name.t) (octets : bytes)
  | Served (prefix : Name.t) (octets : bytes)
  | Refused (resp : ControlResponse.t).

Definition versioned (now : Z) (p : Name.t) : Name.t :=
  match Name.appendVersion conv now None p with Ok n => n | Throw _ => p end.

Definition numbered (p : Name.t) (i : Z) : Name.t :=
  match Name.appendSegment conv (u64 i) p with Ok n => n | Throw _ => p end.

(** A call, and whether it returns normally. *)
Definition spec_append (b : Block.t) (p : Name.t) (octets : bytes) : spec * bool :=
  match Block.wire b with
  | Ok w => (Serving p (octets ++ w), true)
  | Throw _ => (Serving p octets, false)
  end.

Definition spec_step (interest : Interest.t) (o : op) (s : spec) : spec * bool :=
  match o, s with
  | Append b, Idle p => spec_append b p []
  | Append b, Serving p octets => spec_append b p octets
  | End, Idle p => (Served p [], true)
  | End, Serving p octets => (Served p octets, true)
  | Reject r, Idle _ => (Refused r, true)
  | SetPrefix now p, Idle _ =>
      match list.last (Name.components p) with
      | Some c =>
          if negb (Name.isPrefixOf (Interest.m_name interest) p) || Component.isSegment conv c then (s, false)
          else (Idle (if Component.isVersion conv c then p else versioned now p), true)
      | None => (s, false)
      end
  | _, _ => (s, false)
  end.

Fixpoint spec_handle (interest : Interest.t) (ops : list op) (s : spec) : spec * list bool :=
  match ops with
  | [] => (s, [])
  | o :: ops =>
      let '(s, r) := spec_step interest o s in
      let '(s, rs) := spec_handle interest ops s in (s, r :: rs)
  end.

(** [payloads] and [rest] are the octets in order, every payload is full, and
    [rest] is empty only if there is nothing at all. *)
Definition cut (octets : bytes) (payloads : list bytes) (rest : bytes) : Prop :=
  octets = mjoin payloads ++ rest /\ Forall (fun x => len x = MAX_PAYLOAD_LENGTH) payloads /\
  len rest <= MAX_PAYLOAD_LENGTH /\ (rest = [] -> octets = []).

Definition segment (p : Name.t) (isFinal : bool) (i : nat) (payload : bytes) : sent :=
  Segment (numbered p (Z.of_nat i)) (Block.of_tlv tlv.Content payload) isFinal.

(** What has been sent in each state. *)
Definition published (s : spec) (w : list sent) : Prop :=
  match s with
  | Idle _ => w = []
  | Serving p octets => exists payloads rest, cut octets payloads rest /\ w = imap (segment p false) payloads
  | Served p octets => exists payloads rest, cut octets payloads rest /\
      w = imap (segment p false) payloads ++ [segment p true (length payloads) rest]
  | Refused r => w = [Nacked r]
  end.

(** *** The simulation *)

Definition related (interest : Interest.t) (s : spec) (p : state) : Prop :=
  let '(c, w) := p in
  m_interest c = interest /\ m_dataSender c = logData /\ m_nackSender c = logNack /\
  match s with
  | Idle pre => m_state c = INITIAL /\ m_prefix c = pre /\ m_buffer c = [] /\ m_segmentNo c = 0 /\ w = []
  | Serving pre octets => m_state c = RESPONDED /\ m_prefix c = pre /\ exists payloads, cut octets payloads (m_buffer c) /\
      m_segmentNo c = u64 (len payloads) /\ w = imap (segment pre false) payloads
  | _ => m_state c = FINALIZED /\ published s w
  end.

Lemma related_published interest s p : related interest s p -> published s (snd p).
Proof.
  destruct p as [c w]. intros (_ & _ & _ & H). destruct s; cbn [published snd].
  - apply H.
  - destruct H as (_ & _ & payloads & Hc & _ & Hw). eauto.
  - apply H.
  - apply H.
Qed.

Lemma numbered_spec p i : Name.appendSegment conv (u64 i) p = Ok (numbered p i).
Proof.
  unfold numbered, Name.appendSegment. pose proof (ComponentTheorems.from_kind Kind.Segment conv (u64 i)) as H.
  cbn [Kind.from] in H. rewrite H; [done|]. unfold is_u64, u64. width. pose proof (Z.mod_pos_bound i (2 ^ 64)). lia.
Qed.

Lemma content_block payload : len payload <= MAX_PAYLOAD_LENGTH -> encoding.makeBinaryBlock tlv.Content payload = Ok (Block.of_tlv tlv.Content payload).
Proof.
  intros H. apply BlockHelpers.makeBinaryBlock_fast_slow; [done|]. pose proof (len_nonneg payload).
  unfold MAX_PAYLOAD_LENGTH, tlv.MAX_NDN_PACKET_SIZE, is_u64, UINT64_MAX in *. lia.
Qed.

(** A segment that the sender logs. *)
Lemma sendSegment_logged c w i f : m_dataSender c = logData -> len (m_buffer c) <= MAX_PAYLOAD_LENGTH ->
  sendSegment conv (u64 (Z.of_nat i)) f (c, w) = Some ((c, w ++ [segment (m_prefix c) f i (m_buffer c)]), Ok tt).
Proof.
  intros Hs Hb. unfold sendSegment, selfP, liftP, sending, mbind, P_bind. cbn [fst snd].
  rewrite numbered_spec. cbn [fst snd]. rewrite content_block by done. cbn [fst snd]. by rewrite Hs.
Qed.

(** One turn that does not finish: the buffer is filled up and sent. *)
Lemma append_turn fuel cur c w i :
  let n := Z.to_nat (MAX_PAYLOAD_LENGTH - len (m_buffer c)) in
  m_dataSender c = logData -> len (m_buffer c) <= MAX_PAYLOAD_LENGTH -> (n < length cur)%nat -> m_segmentNo c = u64 (Z.of_nat i) ->
  append_loop conv (S fuel) cur (c, w) =
  append_loop conv fuel (drop n cur)
    (with_buffer [] (with_segmentNo (u64 (Z.of_nat (S i))) c), w ++ [segment (m_prefix c) false i (m_buffer c ++ take n cur)]).
Proof.
  intros n Hs Hb Hn Hi. destruct cur as [|x cur']; [cbn in Hn; lia|]. set (cur := x :: cur') in *. cbn [append_loop].
  change (match cur with [] => ?a | _ :: _ => ?b end) with b. clearbody cur.
  assert (Z.min (len cur) (MAX_PAYLOAD_LENGTH - len (m_buffer c)) = MAX_PAYLOAD_LENGTH - len (m_buffer c)) as Hmin.
  { apply Z.min_r. unfold len in *. lia. }
  rewrite (bindP_run _ _ _ (c, w) (c, w)) by done. cbn [fst]. rewrite Hmin. fold n.
  rewrite (bindP_run _ _ _ (with_buffer (m_buffer c ++ take n cur) c, w) tt) by done.
  assert (len (m_buffer c ++ take n cur) = MAX_PAYLOAD_LENGTH) as Hfull.
  { rewrite len_app. unfold len at 2. rewrite length_take_le by lia. unfold n. rewrite Z2Nat.id by lia. lia. }
  destruct (drop n cur) as [|y next] eqn:Ed.
  { apply (f_equal length) in Ed. rewrite length_drop in Ed. cbn in Ed. lia. }
  set (c1 := with_buffer _ c). rewrite (bindP_run _ _ _ (c1, w) (c1, w)) by done. cbn [fst].
  change (m_buffer c1) with (m_buffer c ++ take n cur). rewrite Hfull, Z.eqb_refl.
  rewrite (bindP_run _ _ _ (c1, w) tt) by done. change (m_segmentNo c1) with (m_segmentNo c). rewrite Hi.
  rewrite (bindP_run _ _ _ (with_segmentNo (u64 (u64 (Z.of_nat i) + 1)) c1, w) tt) by done.
  rewrite (bindP_run _ _ _ _ _ (sendSegment_logged (with_segmentNo (u64 (u64 (Z.of_nat i) + 1)) c1) w i false Hs (Z.eq_le_incl _ _ Hfull))).
  rewrite (bindP_run _ _ _ (with_buffer [] (with_segmentNo (u64 (u64 (Z.of_nat i) + 1)) c1), w ++ [segment (m_prefix c) false i (m_buffer c ++ take n cur)]) tt) by done.
  do 2 f_equal. unfold c1, with_buffer, with_segmentNo. cbn. f_equal. unfold u64. rewrite Zplus_mod_idemp_l. f_equal. lia.
Qed.

(** The last turn. *)
Lemma append_last fuel cur (c : t (list sent)) w : len (m_buffer c) + len cur <= MAX_PAYLOAD_LENGTH -> cur <> [] ->
  append_loop conv (S fuel) cur (c, w) = Some ((with_buffer (m_buffer c ++ cur) c, w), Ok tt).
Proof.
  intros Hl Hne. destruct cur as [|x cur']; [done|]. set (cur := x :: cur') in *. cbn [append_loop].
  change (match cur with [] => ?a | _ :: _ => ?b end) with b. clearbody cur.
  rewrite (bindP_run _ _ _ (c, w) (c, w)) by done. cbn [fst]. rewrite Z.min_l by lia. rewrite to_nat_len.
  rewrite (bindP_run _ _ _ (with_buffer (m_buffer c ++ take (length cur) cur) c, w) tt) by done.
  rewrite drop_all, firstn_all. done.
Qed.

(** The loop, from [i] full payloads on. *)
Lemma append_loop_spec fuel : forall cur (c : t (list sent)) w pre octets payloads,
  (length cur + Z.to_nat (len (m_buffer c) / MAX_PAYLOAD_LENGTH) <= fuel)%nat -> cur <> [] ->
  m_dataSender c = logData -> m_prefix c = pre -> len (m_buffer c) <= MAX_PAYLOAD_LENGTH ->
  octets = mjoin payloads ++ m_buffer c -> Forall (fun x => len x = MAX_PAYLOAD_LENGTH) payloads ->
  m_segmentNo c = u64 (len payloads) -> w = imap (segment pre false) payloads ->
  exists c' w' payloads', append_loop conv fuel cur (c, w) = Some ((c', w'), Ok tt) /\
    c' = with_buffer (m_buffer c') (with_segmentNo (u64 (len payloads')) c) /\
    cut (octets ++ cur) payloads' (m_buffer c') /\ w' = imap (segment pre false) payloads'.
Proof.
  induction fuel as [|fuel IH]; intros cur c w pre octets payloads Hf Hne Hs Hp Hb -> Hfull Hn ->.
  { destruct cur; [done|cbn in Hf; lia]. }
  destruct (Z_le_gt_dec (len (m_buffer c) + len cur) MAX_PAYLOAD_LENGTH) as [Hl|Hl].
  - rewrite append_last by done. eexists _, _, payloads. split; [done|]. cbn [m_buffer with_buffer]. split; [|split; [|done]].
    + unfold with_buffer, with_segmentNo. by rewrite Hn.
    + split_and!; [by rewrite <- app_assoc|done|by rewrite len_app|]. intros [_ ?]%app_eq_nil. done.
  - set (n := Z.to_nat (MAX_PAYLOAD_LENGTH - len (m_buffer c))). assert (n < length cur)%nat as Hlt by (unfold n, len in *; lia).
    rewrite (append_turn fuel cur c _ (length payloads)) by done. fold n. rewrite Hp. set (payload := m_buffer c ++ take n cur).
    assert (len payload = MAX_PAYLOAD_LENGTH) as Hpl.
    { unfold payload. rewrite len_app. unfold len at 2. rewrite length_take_le by lia. unfold n. rewrite Z2Nat.id by lia. lia. }
    edestruct (IH (drop n cur) (with_buffer [] (with_segmentNo (u64 (Z.of_nat (S (length payloads)))) c))
      (imap (segment pre false) payloads ++ [segment pre false (length payloads) payload]) pre (mjoin (payloads ++ [payload])) (payloads ++ [payload]))
      as (c' & w' & payloads' & H1 & H2 & H3 & H4); [..|exists c', w', payloads'; split_and!; [exact H1| |rewrite join_app in H3; cbn in H3; rewrite app_nil_r, <- app_assoc in H3|done]].
    all: cbn [with_buffer with_segmentNo m_buffer m_dataSender m_prefix m_segmentNo].
    + rewrite length_drop. change (Z.to_nat (len (@nil byte) / MAX_PAYLOAD_LENGTH)) with O.
      assert (0 < MAX_PAYLOAD_LENGTH) as H0 by done. generalize dependent MAX_PAYLOAD_LENGTH. intros m; intros.
      destruct (Z.eq_dec (len (m_buffer c)) m) as [E|E]; [rewrite E, Z_div_same in Hf by lia; lia|unfold n; lia].
    + intros E. apply (f_equal length) in E. rewrite length_drop in E. cbn in E. lia.
    + done.
    + done.
    + by vm_compute.
    + by rewrite app_nil_r.
    + apply Forall_app. split; [done|]. by constructor.
    + unfold len. rewrite length_app. cbn [length]. f_equal. lia.
    + rewrite imap_app. f_equal. cbn. by rewrite Nat.add_0_r.
    + rewrite H2 at 1. unfold with_buffer, with_segmentNo. done.
    + unfold payload in H3. rewrite <- app_assoc, take_drop in H3. by rewrite <- app_assoc.
Qed.

Lemma cut_nil : cut [] [] [].
Proof. by split_and!; [|constructor|vm_compute|]. Qed.

(** A call of the context and one of the specification. *)
Definition simulates (interest : Interest.t) (o : op) (s : spec) (p : state) : Prop := exists p' r,
  perform o p = Some (p', r) /\ related interest (fst (spec_step interest o s)) p' /\ is_Ok r = snd (spec_step interest o s).

(** A call that is refused changes nothing. *)
Lemma simulates_refused interest o s p e : related interest s p -> perform o p = Some (p, Throw e) -> spec_step interest o s = (s, false) ->
  simulates interest o s p.
Proof. intros Hr Hp Hs. exists p, (Throw e). rewrite Hs. done. Qed.

Lemma append_responding b c w pre octets payloads interest :
  m_interest c = interest -> m_dataSender c = logData -> m_nackSender c = logNack -> m_prefix c = pre -> m_state c <> FINALIZED ->
  cut octets payloads (m_buffer c) -> m_segmentNo c = u64 (len payloads) -> w = imap (segment pre false) payloads ->
  exists p' r, append conv b (c, w) = Some (p', r) /\ related interest (fst (spec_append b pre octets)) p' /\ is_Ok r = snd (spec_append b pre octets).
Proof.
  intros Hi Hd Hn Hp Hst (Ho & Hfull & Hb & Hrest) Hno Hw. unfold append, spec_append.
  rewrite (bindP_run _ _ _ (c, w) (c, w)) by done. cbn [fst].
  rewrite (bindP_run _ _ _ (c, w) tt) by (by rewrite bool_decide_false).
  set (c1 := with_state RESPONDED c). rewrite (bindP_run _ _ _ (c1, w) tt) by done. destruct (Block.wire b) as [octs|e] eqn:E.
  - rewrite (bindP_run _ _ _ (c1, w) octs) by done.
    destruct (append_loop_spec (S (length octs)) octs c1 w pre octets payloads) as (c' & w' & payloads' & H1 & H2 & H3 & H4); try done.
    { cbn [m_buffer c1 with_state]. assert (len (m_buffer c) / MAX_PAYLOAD_LENGTH <= 1) by (apply Z.div_le_upper_bound; [done|lia]). lia. }
    { unfold Block.wire in E. intros ->. by repeat case_match. }
    exists (c', w'), (Ok tt). split; [done|]. split; [|done]. rewrite H2. cbn. split_and!; try done. eauto.
  - exists (c1, w), (Throw e). split; [done|]. split; [|done]. cbn. split_and!; try done. exists payloads. done.
Qed.

Lemma append_simulates interest b s p : related interest s p -> simulates interest (Append b) s p.
Proof.
  destruct p as [c w]. intros H. pose proof H as (Hi & Hd & Hn & Hs). destruct s as [pre|pre octets|pre octets|resp].
  - destruct Hs as (Hst & Hp & Hb & Hno & Hw). apply append_responding with (payloads := []); try done; [congruence|].
    rewrite Hb. apply cut_nil.
  - destruct Hs as (Hst & Hp & payloads & Hc & Hno & Hw). by apply append_responding with (payloads := payloads); [..|congruence| | |].
  - destruct Hs as [Hst _]. eapply simulates_refused; [done| |done]. cbn. unfold append. rewrite (bindP_run _ _ _ (c, w) (c, w)) by done. cbn. by rewrite Hst.
  - destruct Hs as [Hst _]. eapply simulates_refused; [done| |done]. cbn. unfold append. rewrite (bindP_run _ _ _ (c, w) (c, w)) by done. cbn. by rewrite Hst.
Qed.

Lemma end_sends c w payloads octets : m_dataSender c = logData -> m_state c <> FINALIZED ->
  cut octets payloads (m_buffer c) -> m_segmentNo c = u64 (len payloads) ->
  end_ conv (c, w) = Some ((with_state FINALIZED c, w ++ [segment (m_prefix c) true (length payloads) (m_buffer c)]), Ok tt).
Proof.
  intros Hd Hst (_ & _ & Hb & _) Hno. unfold end_. rewrite (bindP_run _ _ _ (c, w) (c, w)) by done. cbn [fst].
  rewrite (bindP_run _ _ _ (c, w) tt) by (by rewrite bool_decide_false).
  rewrite (bindP_run _ _ _ (with_state FINALIZED c, w) tt) by done. rewrite Hno. unfold len. by rewrite sendSegment_logged.
Qed.

Lemma end_simulates interest s p : related interest s p -> simulates interest End s p.
Proof.
  destruct p as [c w]. intros H. pose proof H as (Hi & Hd & Hn & Hs). destruct s as [pre|pre octets|pre octets|resp].
  - destruct Hs as (Hst & Hp & Hb & Hno & ->). eexists _, _. split; [apply (end_sends _ _ [] []); try done; [congruence|rewrite Hb; apply cut_nil]|].
    cbn. split; [|done]. split_and!; try done. exists [], []. split; [apply cut_nil|]. by rewrite Hb, Hp.
  - destruct Hs as (Hst & Hp & payloads & Hc & Hno & ->). eexists _, _. split; [apply (end_sends _ _ payloads octets); congruence|].
    cbn. split; [|done]. split_and!; try done. exists payloads, (m_buffer c). by rewrite Hp.
  - destruct Hs as [Hst _]. eapply simulates_refused; [done| |done]. cbn. unfold end_. rewrite (bindP_run _ _ _ (c, w) (c, w)) by done. cbn. by rewrite Hst.
  - destruct Hs as [Hst _]. eapply simulates_refused; [done| |done]. cbn. unfold end_. rewrite (bindP_run _ _ _ (c, w) (c, w)) by done. cbn. by rewrite Hst.
Qed.

Lemma reject_simulates interest r s p : related interest s p -> simulates interest (Reject r) s p.
Proof.
  destruct p as [c w]. intros H. pose proof H as (Hi & Hd & Hn & Hs).
  assert (forall st, m_state c = st -> st <> INITIAL -> spec_step interest (Reject r) s = (s, false) -> simulates interest (Reject r) s (c, w)) as Hno.
  { intros st E Hst Hstep. eapply simulates_refused; [done| |done]. cbn. unfold reject. rewrite (bindP_run _ _ _ (c, w) (c, w)) by done. cbn [fst].
    rewrite E, bool_decide_false by done. done. }
  destruct s as [pre|pre octets|pre octets|resp]; [|eapply Hno; [apply Hs|done|done]..].
  destruct Hs as (Hst & Hp & Hb & Hseg & ->). exists (with_state FINALIZED c, [Nacked r]), (Ok tt). split; [|cbn; by split_and!].
  cbn. unfold reject. rewrite (bindP_run _ _ _ (c, []) (c, [])) by done. cbn [fst]. rewrite Hst.
  rewrite (bindP_run _ _ _ (c, []) tt) by done. rewrite (bindP_run _ _ _ (with_state FINALIZED c, []) tt) by done. cbn. by rewrite Hn.
Qed.

Lemma name_get_last n : Name.get (-1) n = list.last (Name.components n).
Proof.
  unfold Name.get, Name.size. change (-1 <? 0) with true. cbv iota. rewrite last_lookup.
  change (Block.elements (Name.m_wire n)) with (Name.components n).
  destruct (Name.components n) as [|x l]; [done|]. rewrite len_cons. replace (-1 + (1 + len l)) with (len l) by lia.
  rewrite (proj2 (Z.ltb_ge _ _)) by apply len_nonneg. by rewrite to_nat_len.
Qed.

Lemma at_last n : Name.at_ (-1) n =
  match list.last (Name.components n) with
  | Some c => Ok c
  | None => Throw (ComponentError "Requested component does not exist (out of bounds)")
  end.
Proof.
  rewrite <- name_get_last. unfold Name.at_, Name.get. change (-1 <? 0) with true. cbv iota. destruct (_ <? 0) eqn:E; [done|].
  apply Z.ltb_ge in E. cbn [orb]. unfold Name.size in *. change (Block.elements (Name.m_wire n)) with (Name.components n) in *. set (i := -1 + len (Name.components n)) in *.
  rewrite (proj2 (Z.leb_gt _ _)) by lia. destruct (_ !! _) eqn:El; [done|]. apply lookup_ge_None in El. unfold i, len in *. lia.
Qed.

Lemma versioned_spec now p : is_u64 now -> Name.appendVersion conv now None p = Ok (versioned now p).
Proof.
  intros Hn. unfold versioned, Name.appendVersion. cbn [default]. pose proof (ComponentTheorems.from_kind Kind.Version conv now Hn) as H.
  cbn [Kind.from] in H. by rewrite H.
Qed.

(** [setPrefix] on a context that has not responded. *)
Lemma setPrefix_idle now p (c : t (list sent)) : is_u64 now -> m_state c = INITIAL ->
  exists r, setPrefix conv now p c =
    match spec_step (m_interest c) (SetPrefix now p) (Idle (m_prefix c)) with
    | (Idle pre, true) => (with_prefix pre c, r)
    | _ => (c, r)
    end /\ is_Ok r = snd (spec_step (m_interest c) (SetPrefix now p) (Idle (m_prefix c))).
Proof.
  intros Hn Hst. unfold setPrefix. rewrite bindM_self. rewrite Hst. cbn [spec_step].
  change (throwM_if (negb (bool_decide (INITIAL = INITIAL))) ?e) with (@mret (M (t (list sent))) _ unit tt).
  rewrite at_last. destruct (list.last (Name.components p)) as [k|], (Name.isPrefixOf _ p).
  all: unfold throwM_if, liftR, throw_if, mbind, M_bind, modify, mret, M_ret; cbn [negb orb].
  2-4: eexists; split; reflexivity.
  destruct (Component.isSegment conv k); [by eexists|]. destruct (Component.isVersion conv k); cbn [negb]; [by eexists|].
  rewrite versioned_spec by done. by eexists.
Qed.

Lemma setPrefix_simulates interest now p0 s p : is_u64 now -> related interest s p -> simulates interest (SetPrefix now p0) s p.
Proof.
  destruct p as [c w]. intros Hnow H. pose proof H as (Hi & Hd & Hn & Hs).
  assert (forall st, m_state c = st -> st <> INITIAL -> spec_step interest (SetPrefix now p0) s = (s, false) -> simulates interest (SetPrefix now p0) s (c, w)) as Hno.
  { intros st E Hst Hstep. eapply simulates_refused; [done| |done]. cbn. unfold zoomP. cbn [fst]. unfold setPrefix. rewrite bindM_self, E.
    rewrite bool_decide_false by done. done. }
  destruct s as [pre|pre octets|pre octets|resp]; [|eapply Hno; [apply Hs|done|done]..].
  destruct Hs as (Hst & Hp & Hb & Hseg & ->). destruct (setPrefix_idle now p0 c Hnow Hst) as (r & Hr & Hok). rewrite Hi, Hp in Hr, Hok.
  unfold simulates. cbn [perform]. unfold zoomP. cbn [fst]. rewrite Hr. clear Hno Hr.
  assert (related interest (Idle pre) (c, [])) as Hsame by done.
  remember (spec_step interest (SetPrefix now p0) (Idle pre)) as st eqn:E. cbn [spec_step] in E. subst st. revert Hok.
  destruct (list.last _) as [k|]; [|eauto 10]. destruct (_ || _); [eauto 10|]. intros Hok. eexists _, r. split; [reflexivity|]. split; [|done].
  cbn. by split_and!.
Qed.

Definition well_formed (o : op) : Prop := match o with SetPrefix now _ => is_u64 now | _ => True end.

Lemma perform_simulates interest o s p : well_formed o -> related interest s p -> simulates interest o s p.
Proof.
  destruct o; cbn; eauto using append_simulates, end_simulates, reject_simulates, setPrefix_simulates.
Qed.

Lemma handle_simulates interest ops : forall s p, Forall well_formed ops -> related interest s p ->
  exists p', handle ops p = Some (p', snd (spec_handle interest ops s)) /\ related interest (fst (spec_handle interest ops s)) p'.
Proof.
  induction ops as [|o ops IH]; intros s p Hw Hr; cbn [handle spec_handle]; [by exists p|]. inversion Hw; subst.
  destruct (perform_simulates interest o s p) as (p1 & r & H3 & H4 & H5); [done..|]. rewrite H3. cbn [mbind option_bind].
  destruct (spec_step interest o s) as [s1 b]. cbn [fst snd] in *. destruct (IH s1 p1) as (p2 & H6 & H7); [done..|]. rewrite H6. cbn [mbind option_bind].
  destruct (spec_handle interest ops s1) as [s2 bs]. exists p2. cbn [fst snd] in *. by rewrite H5.
Qed.

Lemma make_related now interest c : is_u64 now -> make conv now interest logData logNack = Ok c ->
  related interest (Idle (m_prefix c)) (c, []).
Proof.
  intros Hn. unfold make, exec. destruct (setPrefix_idle now (Interest.m_name interest) (mk interest logData logNack Name.empty [] 0 INITIAL)) as (r & Hr & Hok); [done..|].
  rewrite Hr. clear Hr. cbn [m_interest m_prefix] in *. destruct (spec_step _ _ _) as [s [|]]; cbn [snd] in Hok; [|by destruct r, s].
  destruct r; [|done]. intros Hc. destruct s; cbn in Hc; apply (f_equal (fun r => match r with Ok x => Some x | Throw _ => None end)) in Hc; apply Some_inj in Hc; subst c; by cbn; split_and!.
Qed.

End context.
End DatasetContextFacts.

Module DatasetContextTheorems.
Import FieldFacts RecordLaws StatusDatasetContext DatasetContextFacts.

(** C7: whatever calls a handler makes on the context of a dataset, exceptions
    included, the context returns and throws as the specification does, no
    assertion fails and no loop runs out of turns, and what has been sent is what the
    specification publishes: nothing at first; then full segments, numbered
    from zero, none of them final; after [end] the whole of the octets that were
    appended, only the last segment final; or one Nack and nothing else.
    Once the dataset is complete or refused, nothing is sent any more. *)
Theorem dataset_context_refines conv (now : Z) (interest : Interest.t) (c : t (list sent)) (ops : list op)
    (Hnow : is_u64 now) (Hc : make conv now interest logData logNack = Ok c) (Hops : Forall well_formed ops) :
  let '(s, outcomes) := spec_handle conv interest ops (Idle (m_prefix c)) in
  exists c' w, handle conv ops (c, []) = Some ((c', w), outcomes) /\ published conv s w /\
    (m_state c' = FINALIZED <-> match s with Served _ _ | Refused _ => True | _ => False end).
Proof.
  pose proof (make_related conv now interest c Hnow Hc) as Hr.
  destruct (handle_simulates conv interest ops _ _ Hops Hr) as ([c' w] & H1 & H2). destruct (spec_handle _ _ _ _) as [s outcomes]. cbn [fst snd] in *.
  exists c', w. split; [done|]. split; [by apply (related_published conv interest s (c', w))|].
  destruct H2 as (_ & _ & _ & H2). destruct s; destruct H2 as [-> _]; done.
Qed.

(** The calls of a handler that answers with the records [l]. *)
Definition encoding_of {T} `{StatusDatasetItem T} (x : T) : Block.t :=
  match snd (item_wireEncode x) with Ok b => b | Throw _ => Block.empty end.
Definition answer {T} `{StatusDatasetItem T} (l : list T) : list op := ((fun x => Append (encoding_of x)) <$> l) ++ [End].

(** What a client that has fetched the segments puts together. *)
Definition reassemble (w : list sent) : bytes :=
  x ← w; match x with Segment _ b _ => Block.value b | Nacked _ => [] end.

Lemma value_of_tlv ty v : Block.value (Block.of_tlv ty v) = v.
Proof. done. Qed.

Lemma reassemble_app w v : reassemble (w ++ v) = reassemble w ++ reassemble v.
Proof. apply bind_app. Qed.

Lemma reassemble_segments conv p f : forall payloads k, reassemble (imap (fun i => segment conv p f (k + i)) payloads) = mjoin payloads.
Proof.
  induction payloads as [|x l IH]; intros k; [done|]. change (mjoin (x :: l)) with (x ++ mjoin l). cbn [imap].
  rewrite <- (IH (S k)). apply (f_equal (fun v => x ++ reassemble v)). apply imap_ext. intros i y _. cbn. f_equal. lia.
Qed.

Lemma reassemble_published conv p octets w : published conv (Served p octets) w -> reassemble w = octets.
Proof.
  intros (payloads & rest & (-> & _) & ->). rewrite reassemble_app. f_equal; [exact (reassemble_segments conv p false payloads 0)|].
  cbn. by rewrite app_nil_r.
Qed.

Lemma answer_spec {T} `{StatusDatasetItemLaws T} conv interest (l : list T) : forall s,
  match s with Idle _ | Serving _ _ => True | _ => False end ->
  Forall (fun x => DatasetFacts.built x /\ item_ok x /\ DatasetFacts.fits x) l ->
  exists p before, (match s with Serving p0 o => p = p0 /\ before = o | Idle p0 => p = p0 /\ before = [] | _ => False end) /\
  spec_handle conv interest (answer l) s =
    (Served p (before ++ mjoin (DatasetFacts.octets <$> l)), replicate (S (length l)) true).
Proof.
  induction l as [|x l IH]; intros s Hs Hl.
  - destruct s as [p|p o| |]; try done; eexists _, _; split; try done; cbn; by rewrite app_nil_r.
  - inversion Hl as [|? ? (Hb & Hok & Hf) Hl']; subst.
    assert (Block.wire (encoding_of x) = Ok (DatasetFacts.octets x)) as Hw.
    { unfold encoding_of. destruct (DatasetFacts.encode_coherent x (DatasetFacts.built_coherent x Hb) Hok Hf) as [E _]. rewrite E. apply DatasetTheorems.seq_block_wire. }
    change (answer (x :: l)) with (Append (encoding_of x) :: answer l). cbn [spec_handle].
    destruct s as [p|p o| |]; try done; cbn [spec_step]; unfold spec_append; rewrite Hw.
    + destruct (IH (Serving p ([] ++ DatasetFacts.octets x)) I Hl') as (p' & o' & [-> ->] & Hrun). exists p, []. split; [done|]. by rewrite Hrun.
    + destruct (IH (Serving p (o ++ DatasetFacts.octets x)) I Hl') as (p' & o' & [-> ->] & Hrun). exists p, o. split; [done|].
      rewrite Hrun. cbn. by rewrite <- app_assoc.
Qed.

(** A dataset reaches the client: a handler that appends the encodings of
    any records and ends the dataset makes only calls that succeed, and a client
    that puts the contents of the segments together in their order parses equal
    records in the same order. *)
Theorem dataset_served_roundtrip {T} `{StatusDatasetItemLaws T} conv (now : Z) (interest : Interest.t) (c : t (list sent)) (l : list T)
    (Hnow : is_u64 now) (Hc : make conv now interest logData logNack = Ok c)
    (Hl : Forall (fun x => DatasetFacts.built x /\ item_ok x /\ DatasetFacts.fits x) l) :
  exists c' w l', handle conv (answer l) (c, []) = Some ((c', w), replicate (S (length l)) true) /\
    StatusDataset.parseDatasetVector (reassemble w) = Some (Ok l') /\ Forall2 (fun x y => item_eqb x y = true) l l'.
Proof.
  pose proof (make_related conv now interest c Hnow Hc) as Hr.
  assert (Forall well_formed (answer l)) as Hw by (apply Forall_app; split; [apply Forall_fmap, Forall_true; done|by constructor]).
  destruct (handle_simulates conv interest (answer l) _ _ Hw Hr) as ([c' w] & H1 & H2).
  destruct (answer_spec conv interest l (Idle (m_prefix c)) I Hl) as (p & o & [-> ->] & Hspec). rewrite Hspec in H1, H2.
  apply related_published, reassemble_published in H2. cbn [fst snd app] in *.
  destruct (DatasetTheorems.status_dataset_roundtrip l) as (l' & H3 & H4); [revert Hl; apply Forall_impl; intros x (_ & ? & ?); done|].
  exists c', w, l'. by rewrite H2.
Qed.

(** Examples. *)

Definition sample_name : Name.t := Name.append (Block.of_tlv 8 (str "rib")) (Name.append (Block.of_tlv 8 (str "nfd")) Name.empty).
Definition sample_interest : Interest.t := Interest.with_name sample_name Interest.init.
Definition sample_context : t (list sent) :=
  match make name.defaultConventions 7 sample_interest logData logNack with
  | Ok c => c
  | Throw _ => mk sample_interest logData logNack Name.empty [] 0 FINALIZED
  end.

Lemma sample_context_ok : make name.defaultConventions 7 sample_interest logData logNack = Ok sample_context.
Proof. unfold sample_context. destruct (make _ _ _ _ _) eqn:E; [done|vm_compute in E; discriminate E]. Qed.

Definition sample_ops : list op :=
  [Append (Block.of_tlv 128 (replicate 9000 (z2b 0))); SetPrefix 7 sample_name; Append (Block.of_tlv 128 []);
   End; Append (Block.of_tlv 128 []); Reject (ControlResponse.make 400 [])].

Lemma sample_outcomes : snd (spec_handle name.defaultConventions sample_interest sample_ops (Idle (m_prefix sample_context))) = [true; false; true; true; false; false].
Proof. by vm_compute. Qed.

Lemma sample_ops_wf : Forall well_formed sample_ops.
Proof. repeat constructor; by vm_compute. Qed.

Lemma dataset_context_refines_witness : exists s c' w,
  handle name.defaultConventions sample_ops (sample_context, []) = Some ((c', w), [true; false; true; true; false; false]) /\
  published name.defaultConventions s w.
Proof.
  pose proof (dataset_context_refines name.defaultConventions 7 sample_interest sample_context sample_ops ltac:(by vm_compute) sample_context_ok sample_ops_wf) as H.
  pose proof sample_outcomes as Ho. destruct (spec_handle _ _ _ _) as [s outcomes]. cbn [snd] in Ho. subst outcomes.
  destruct H as (c' & w & H1 & H2 & _). exists s, c', w. split; [exact H1|exact H2].
Defined.

Lemma sample_items : Forall (fun x => DatasetFacts.built x /\ item_ok x /\ DatasetFacts.fits x) [DatasetTheorems.sample_rib; DatasetTheorems.sample_rib].
Proof.
  assert (DatasetFacts.built DatasetTheorems.sample_rib /\ item_ok DatasetTheorems.sample_rib /\ DatasetFacts.fits DatasetTheorems.sample_rib) as H.
  { split_and!; [exact DatasetTheorems.sample_rib_built|exact DatasetTheorems.sample_rib_ok|exact DatasetTheorems.sample_rib_fits]. }
  constructor; [exact H|]. constructor; [exact H|constructor].
Qed.

Lemma dataset_served_roundtrip_witness : exists c' w l',
  handle name.defaultConventions (answer [DatasetTheorems.sample_rib; DatasetTheorems.sample_rib]) (sample_context, []) = Some ((c', w), [true; true; true]) /\
  StatusDataset.parseDatasetVector (reassemble w) = Some (Ok l') /\
  Forall2 (fun x y => item_eqb x y = true) [DatasetTheorems.sample_rib; DatasetTheorems.sample_rib] l'.
Proof.
  exact (dataset_served_roundtrip name.defaultConventions 7 sample_interest sample_context [DatasetTheorems.sample_rib; DatasetTheorems.sample_rib]
    ltac:(by vm_compute) sample_context_ok sample_items).
Defined.

End DatasetContextTheorems.

(** ** The dispatcher *)

Module DispatcherFacts.
Import Dispatcher FieldFacts.

Section invariant.
Variables (sha256 : bytes -> bytes) (conv : name.Conventions) (sign : M Data.t unit).

(** The calls of the application, and the Interests the face hands to the
    filters; [now] is the time of each. *)
Inductive step : t -> t -> Prop :=
| step_command d rel auth val h : step d (fst (addControlCommand sha256 sign rel auth val h d))
| step_dataset d now rel auth h : step d (fst (addStatusDataset sha256 conv sign now rel auth h d))
| step_stream d rel : step d (fst (addNotificationStream sha256 rel d))
| step_notify d b rel d' r : postNotification sha256 conv sign b rel d = Some (d', r) -> step d d'
| step_addTop d prefix want : step d (fst (addTopPrefix prefix want d))
| step_removeTop d prefix : step d (removeTopPrefix prefix d)
| step_interest d full f i d' r : In (full, f) (filters d) -> outputting (f i) d = Some (d', r) -> step d d'.

Inductive reachable (imsCapacity : Z) : t -> Prop :=
| reachable_init : reachable imsCapacity (init imsCapacity)
| reachable_step d d' : reachable imsCapacity d -> step d d' -> reachable imsCapacity d'.

End invariant.

(** Neither name is a prefix of the other. *)
Definition apart (a b : Name.t) : Prop := ~ NameFacts.keys a `prefix_of` NameFacts.keys b /\ ~ NameFacts.keys b `prefix_of` NameFacts.keys a.

Definition inv (d : t) : Prop :=
  ForallOrdPairs apart (m_handlers d).*1 /\ ForallOrdPairs apart (m_topLevelPrefixes d).*1 /\
  Forall (fun x => filtersOf (fst x) (m_handlers d) = Ok (interestFilters (snd x))) (m_topLevelPrefixes d).

Lemma apart_sym a b : apart a b -> apart b a.
Proof. unfold apart. tauto. Qed.

Lemma overlaps_apart {V} n (l : list (Name.t * V)) : overlaps n l = false <-> Forall (fun x => apart (fst x) n) l.
Proof.
  unfold overlaps. induction l as [|x l IH]; cbn [existsb]; [by split; [constructor|]|].
  rewrite orb_false_iff, IH, Forall_cons_iff. unfold apart. rewrite orb_false_iff, !NameFacts.isPrefixOf_spec, !bool_decide_eq_false. tauto.
Qed.

(** The key that is assigned is new. *)
Lemma assign_new {V} n (v : V) l : Forall (fun x => apart (fst x) n) l -> assign n v l = l ++ [(n, v)].
Proof.
  induction 1 as [|[k x] l [H _] _ IH]; [done|]. cbn [assign app]. destruct (Name.equals k n) eqn:E; [|by rewrite IH].
  destruct H. rewrite NameFacts.nequals_spec in E. apply bool_decide_eq_true in E. cbn. by rewrite E.
Qed.

Lemma pairs_snoc {A} (R : A -> A -> Prop) l a : ForallOrdPairs R l -> Forall (fun x => R x a) l -> ForallOrdPairs R (l ++ [a]).
Proof.
  induction 1 as [|x l Hx Hl IH]; intros Ha; [by repeat constructor|]. inversion Ha; subst. cbn. constructor; [|by apply IH].
  apply Forall_app. split; [done|]. by repeat constructor.
Qed.

Lemma pairs_sublist {A} (R : A -> A -> Prop) l k : l `sublist_of` k -> ForallOrdPairs R k -> ForallOrdPairs R l.
Proof.
  induction 1 as [|x l k Hs IH|x l k Hs IH]; intros Hk; [done| |]; inversion Hk; subst; [|auto].
  constructor; [by eapply Forall_sublist|auto].
Qed.

Lemma pairs_app {A} (R : A -> A -> Prop) l k : ForallOrdPairs R l -> ForallOrdPairs R k -> Forall (fun x => Forall (R x) k) l -> ForallOrdPairs R (l ++ k).
Proof.
  induction 1 as [|x l Hx Hl IH]; intros Hk Hc; [done|]. inversion Hc; subst. cbn. constructor; [|by apply IH]. by apply Forall_app.
Qed.

Lemma mayRegister_spec rel what d : exists r, mayRegister rel what d = (d, r) /\
  (r = Ok tt -> m_topLevelPrefixes d = [] /\ Forall (fun x => apart (fst x) rel) (m_handlers d)).
Proof.
  unfold mayRegister. rewrite bindM_self. unfold throwM_if, liftR, throw_if, mbind, M_bind.
  destruct (bool_decide_reflect (m_topLevelPrefixes d = [])) as [E|E]; cbn [negb]; [|by eexists].
  eexists. split; [done|]. destruct (isOverlappedWithOthers rel d) eqn:Eo; [done|]. intros _. split; [done|].
  apply overlaps_apart. unfold isOverlappedWithOthers in Eo. by apply orb_false_iff in Eo as [? _].
Qed.

(** A handler for a prefix that overlaps with none. *)
Lemma setHandler_inv rel h d : inv d -> m_topLevelPrefixes d = [] -> Forall (fun x => apart (fst x) rel) (m_handlers d) ->
  exists d', setHandler rel h d = (d', Ok tt) /\ inv d' /\ m_topLevelPrefixes d' = [] /\ m_handlers d' = m_handlers d ++ [(rel, h)].
Proof.
  intros (H1 & _ & _) Ht Ha. unfold setHandler, modify. eexists. split; [done|]. unfold inv. cbn. rewrite Ht, assign_new by done.
  split_and!; [|by constructor|by constructor|done|done]. rewrite fmap_app. apply pairs_snoc; [done|]. by apply Forall_fmap.
Qed.

(** A registration: the two tests, then steps that keep the invariant. *)
Lemma register_inv rel what (m : M t unit) d : inv d ->
  (m_topLevelPrefixes d = [] -> Forall (fun x => apart (fst x) rel) (m_handlers d) -> inv (fst (m d))) ->
  inv (fst ((mayRegister rel what ≫= fun _ => m) d)).
Proof.
  intros Hi Hm. destruct (mayRegister_spec rel what d) as (r & E & Hr). unfold mbind, M_bind. rewrite E.
  destruct r as [[]|e]; [|done]. destruct (Hr eq_refl). by apply Hm.
Qed.

Lemma filtersOf_spec prefix handlers : exists l, filtersOf prefix handlers = Ok l /\
  Forall2 (fun h x => NameFacts.keys (fst x) = NameFacts.keys prefix ++ NameFacts.keys (fst h) /\ snd x = (fun i => snd h prefix i)) handlers l.
Proof.
  unfold InterestHandler in *. induction handlers as [|h l IH]; [by exists []|]. destruct IH as (fs & E & H). unfold filtersOf in *.
  destruct (NameFacts.appendName_spec (fst h) prefix) as (n & En & Hn). cbn [mapR]. rewrite En. cbn [mbind result_bind]. rewrite E.
  eexists. split; [done|]. constructor; [|done]. cbn. split; [|done]. unfold NameFacts.keys. by rewrite Hn, fmap_app.
Qed.

Lemma addTopPrefix_inv prefix want d : inv d -> inv (fst (addTopPrefix prefix want d)).
Proof.
  intros Hi. pose proof Hi as (H1 & H2 & H3). unfold addTopPrefix. rewrite bindM_self. destruct (overlaps prefix (m_topLevelPrefixes d)) eqn:Eo; [done|].
  rewrite bindM_pass by done. apply overlaps_apart in Eo. rewrite bindM_modify. destruct (filtersOf_spec prefix (m_handlers d)) as (fs & E & _).
  rewrite E. unfold liftR, mbind, M_bind. cbn [fst modify]. unfold inv. cbn. rewrite (assign_new prefix (mkEntry want [])) by done. set (e := mkEntry want fs).
  assert (assign prefix e (m_topLevelPrefixes d ++ [(prefix, mkEntry want [])]) = m_topLevelPrefixes d ++ [(prefix, e)]) as ->.
  { clear - Eo. induction Eo as [|[k x] l [H _] _ IH]; cbn [assign app].
    - rewrite NameFacts.nequals_spec, bool_decide_true by done. done.
    - rewrite NameFacts.nequals_spec. destruct (bool_decide_reflect (NameFacts.keys k = NameFacts.keys prefix)) as [Ek|_]; [|by rewrite IH].
      destruct H. cbn. by rewrite Ek. }
  split_and!; [done| |apply Forall_app; split; [done|by repeat constructor]].
  rewrite fmap_app. apply pairs_snoc; [done|]. by apply Forall_fmap.
Qed.

Lemma sublist_map {A B} (f : A -> B) (l k : list A) : l `sublist_of` k -> (f <$> l) `sublist_of` (f <$> k).
Proof. induction 1 as [|x l k _ IH|x l k _ IH]; cbn; [done|by apply sublist_skip|by apply sublist_cons]. Qed.

Lemma removeTopPrefix_inv prefix d : inv d -> inv (removeTopPrefix prefix d).
Proof.
  intros (H1 & H2 & H3). unfold inv, removeTopPrefix. cbn. pose proof (filterb_sublist (fun x => negb (Name.equals (fst x) prefix)) (m_topLevelPrefixes d)) as Hs.
  split_and!; [done| |by eapply Forall_sublist]. eapply pairs_sublist; [|exact H2]. by apply sublist_map.
Qed.

Lemma outputting_inv {A} (m : P output A) d d' r : inv d -> outputting m d = Some (d', r) -> inv d'.
Proof. intros Hi. unfold outputting. destruct (m _) as [[o r']|]; intros [= <- <-]. exact Hi. Qed.

Section invariant.
Variables (sha256 : bytes -> bytes) (conv : name.Conventions) (sign : M Data.t unit).

Lemma dispatcher_step_inv d d' : inv d -> step sha256 conv sign d d' -> inv d'.
Proof.
  intros Hi Hs. destruct Hs as [d rel auth val h|d now rel auth h|d rel|d b rel d' r E|d prefix want|d prefix|d full f i d' r _ E].
  - unfold addControlCommand. apply register_inv; [done|]. intros Ht Ha. match goal with |- inv (fst (setHandler _ ?f _)) => destruct (setHandler_inv rel f d Hi Ht Ha) as (d' & -> & H & _) end. done.
  - unfold addStatusDataset. apply register_inv; [done|]. intros Ht Ha. match goal with |- inv (fst (setHandler _ ?f _)) => destruct (setHandler_inv rel f d Hi Ht Ha) as (d' & -> & H & _) end. done.
  - unfold addNotificationStream. apply register_inv; [done|]. intros Ht Ha.
    match goal with |- inv (fst ((setHandler _ ?f ≫= _) _)) => destruct (setHandler_inv rel f d Hi Ht Ha) as (d' & E & H & _) end.
    rewrite (bindM_ok _ _ _ _ _ E). exact H.
  - revert E. unfold postNotification, selfP, mbind, P_bind. destruct (m_topLevelPrefixes d) as [|[top e] [|? ?]] eqn:Et; [by intros [= <- <-]| |by intros [= <- <-]].
    unfold liftP. destruct (Name.appendName rel top) as [n|e0]; [|by intros [= <- <-]]. unfold modifyP.
    destruct (Name.appendSequenceNumber _ _ _) as [m|e0]; [|by intros [= <- <-]]. by apply outputting_inv.
  - by apply addTopPrefix_inv.
  - by apply removeTopPrefix_inv.
  - by eapply outputting_inv.
Qed.

Lemma dispatcher_reachable_inv imsCapacity d : reachable sha256 conv sign imsCapacity d -> inv d.
Proof.
  induction 1 as [|d d' _ IH Hs]; [|by eapply dispatcher_step_inv]. unfold inv, init. cbn. split_and!; constructor.
Qed.

End invariant.

(** ** The filters do not compete *)

Lemma apart_app a b r s (k l : Name.t) : NameFacts.keys k = NameFacts.keys a ++ r -> NameFacts.keys l = NameFacts.keys b ++ s -> apart a b -> apart k l.
Proof.
  intros Hk Hl [H1 H2].
  assert (forall x y : list (Z * Z * Z), x `prefix_of` y -> forall u v, u `prefix_of` x -> v `prefix_of` y -> u `prefix_of` v \/ v `prefix_of` u) as Hcmp.
  { intros x y Hxy u v Hu Hv. apply (prefix_weak_total _ _ y); [by etransitivity|done]. }
  unfold apart. rewrite Hk, Hl. split; intros Hp.
  - destruct (Hcmp _ _ Hp (NameFacts.keys a) (NameFacts.keys b)); try done; by apply prefix_app_r.
  - destruct (Hcmp _ _ Hp (NameFacts.keys b) (NameFacts.keys a)); try done; by apply prefix_app_r.
Qed.

Lemma apart_same a r s (k l : Name.t) : NameFacts.keys k = NameFacts.keys a ++ NameFacts.keys r -> NameFacts.keys l = NameFacts.keys a ++ NameFacts.keys s ->
  apart r s -> apart k l.
Proof. intros Hk Hl [H1 H2]. unfold apart. rewrite Hk, Hl. by split; intros ?%prefix_app_inv. Qed.

Lemma filters_of_one top handlers l : filtersOf top handlers = Ok l -> ForallOrdPairs apart handlers.*1 -> ForallOrdPairs apart l.*1.
Proof.
  intros E. destruct (filtersOf_spec top handlers) as (l' & E' & H). rewrite E in E'. injection E' as <-. clear E.
  induction H as [|h x hs xs [Hx _] Hf IH]; cbn; [constructor|]. intros Hp. inversion Hp as [|? ? Hh Hp']; subst. constructor; [|by apply IH].
  clear IH Hp Hp'. induction Hf as [|h' y hs ys [Hy _] _ IH]; cbn; [constructor|]. inversion Hh; subst. constructor; [|by apply IH].
  by eapply apart_same.
Qed.

Lemma filtersOf_keys top handlers l x : filtersOf top handlers = Ok l -> In x l -> exists rel, NameFacts.keys (fst x) = NameFacts.keys top ++ NameFacts.keys rel.
Proof.
  intros E. destruct (filtersOf_spec top handlers) as (l' & E' & H). rewrite E in E'. injection E' as <-. clear E.
  induction H as [|h y hs ys [Hy _] _ IH]; [done|]. intros [<-|Hin]; [by exists (fst h)|by apply IH].
Qed.

Lemma filters_apart d : inv d -> ForallOrdPairs apart (filters d).*1.
Proof.
  intros (H1 & H2 & H3). unfold filters. induction (m_topLevelPrefixes d) as [|[top e] l IH]; [constructor|].
  inversion H2 as [|? ? H2a H2b]; inversion H3 as [|? ? H3a H3b]; subst. cbn [mbind list_bind fst snd] in *. rewrite fmap_app.
  apply pairs_app; [by eapply filters_of_one|by apply IH|]. apply Forall_fmap, Forall_forall. intros x Hx. cbn.
  destruct (filtersOf_keys _ _ _ _ H3a Hx) as [rel Hk]. apply Forall_fmap, Forall_forall. intros y Hy. cbn.
  clear - H2a H3b Hk Hy. induction l as [|[top' e'] l IH]; [done|]. inversion H2a; inversion H3b; subst. cbn [mbind list_bind fst snd] in *.
  apply in_app_or in Hy as [Hy|Hy]; [|by apply IH]. destruct (filtersOf_keys top' (m_handlers d) _ y ltac:(done) Hy) as [rel' Hk']. by eapply apart_app.
Qed.

(** Among names that are apart, at most one is a prefix of a name. *)
Lemma apart_unique {V} (l : list (Name.t * V)) n : ForallOrdPairs apart l.*1 -> (length (List.filter (fun x => Name.isPrefixOf (fst x) n) l) <= 1)%nat.
Proof.
  induction l as [|x l IH]; [cbn; lia|]. intros Hp. inversion Hp as [|? ? Hx Hp']; subst. cbn [List.filter].
  destruct (Name.isPrefixOf (fst x) n) eqn:E; [|by apply IH]. cbn [length].
  assert (List.filter (fun x => Name.isPrefixOf (fst x) n) l = []) as ->; [|cbn; lia]. clear IH Hp Hp'.
  rewrite NameFacts.isPrefixOf_spec, bool_decide_eq_true in E. induction l as [|y l IH]; [done|]. inversion Hx as [|? ? [H1 H2] Hx']; subst. cbn [List.filter].
  destruct (Name.isPrefixOf (fst y) n) eqn:Ey; [|by apply IH]. rewrite NameFacts.isPrefixOf_spec, bool_decide_eq_true in Ey.
  destruct (prefix_weak_total _ _ _ E Ey); done.
Qed.

End DispatcherFacts.

Module DispatcherTheorems.
Import Dispatcher FieldFacts DispatcherFacts.

(** C14: whatever is registered and whatever Interests arrive, the handlers of a
    dispatcher never compete: for every top-level prefix and every handler there
    is a filter of the joined name, which calls the handler with the top-level
    prefix, and at most one of all filters matches an Interest. *)
Theorem dispatcher_unique_handler sha256 conv sign imsCapacity (d : t) (n : Name.t) (Hd : reachable sha256 conv sign imsCapacity d) :
  (length (List.filter (fun f => Name.isPrefixOf (fst f) n) (filters d)) <= 1)%nat /\
  forall top e rel h, In (top, e) (m_topLevelPrefixes d) -> In (rel, h) (m_handlers d) ->
    exists full, In (full, fun i => h top i) (filters d) /\ NameFacts.keys full = NameFacts.keys top ++ NameFacts.keys rel.
Proof.
  pose proof (dispatcher_reachable_inv _ _ _ _ _ Hd) as Hi. split; [by apply apart_unique, filters_apart|].
  intros top e rel h He Hh. destruct Hi as (_ & _ & H3). rewrite List.Forall_forall in H3. specialize (H3 _ He). cbn in H3.
  destruct (filtersOf_spec top (m_handlers d)) as (l & E & Hf). rewrite H3 in E. injection E as <-.
  apply list_elem_of_In, list_elem_of_lookup in Hh as [i Hi]. destruct (Forall2_lookup_l _ _ _ _ _ Hf Hi) as ([full f] & Hl & Hk & Hs). cbn in *. subst f.
  exists full. split; [|done]. unfold filters. apply list_elem_of_In, list_elem_of_bind. exists (top, e). cbn. split; [by eapply list_elem_of_lookup_2|by apply list_elem_of_In].
Qed.

(** The name under which a handler of command [c] is registered. *)
Definition commandPrefix (c : ControlCommand.cmd) : result Name.t :=
  module_ ← Component.ofString (ControlCommand.m_module c);
  verb ← Component.ofString (ControlCommand.m_verb c);
  Ok (Name.append verb (Name.append module_ Name.empty)).

Lemma len_value_fits ty v : is_u64 (len (tlv_bytes ty v)) -> is_u64 (len v).
Proof. intros H. pose proof (BlockFacts.len_value_tlv ty v). pose proof (len_nonneg v). width. lia. Qed.

Lemma parser_of_wire p : Block.hasWire (ControlParameters.m_wire p) = false -> ControlFacts.ok p ->
  is_u64 (len (tlv_bytes tlv_nfd.ControlParameters (BlockFacts.tlv_seq (ControlFacts.seq p)))) -> exists p',
  parser (Block.of_tlv tlv.GenericNameComponent (tlv_bytes tlv_nfd.ControlParameters (BlockFacts.tlv_seq (ControlFacts.seq p)))) = Ok p' /\
  forall f, ControlFacts.view p' f = ControlFacts.norm_value <$> ControlFacts.view p f.
Proof.
  intros Hw Hok Hl. set (v := BlockFacts.tlv_seq (ControlFacts.seq p)) in *.
  assert (is_u64 (len v)) as Hv by (by eapply len_value_fits).
  destruct (ControlFacts.decode_spec p Hok Hv ControlParameters.init) as (p' & Hd & _ & _ & Hview); [done|].
  exists p'. split; [|done]. unfold parser, Block.blockFromValue, Block.value_size. rewrite DatasetContextTheorems.value_of_tlv.
  pose proof (tlv_bytes_nonempty tlv_nfd.ControlParameters v []) as Hne. rewrite app_nil_r in Hne.
  replace (len (tlv_bytes tlv_nfd.ControlParameters v) =? 0) with false by (symmetry; apply Z.eqb_neq; intros ?%len_zero; done).
  cbn [throw_if mbind result_bind]. rewrite BlockFacts.fromRange_of_tlv by done. cbn [mbind result_bind].
  unfold ControlParameters.ofBlock, exec.
  change (Block.of_tlv tlv_nfd.ControlParameters v) with (seq_block tlv_nfd.ControlParameters (ControlFacts.seq p)). by rewrite Hd.
Qed.

(** The name of a request: prefix, module, verb and the encoded parameters. *)
Lemma getRequestName_spec c prefix n p : Block.hasWire (ControlParameters.m_wire p) = false ->
  is_u64 (len (tlv_bytes tlv_nfd.ControlParameters (BlockFacts.tlv_seq (ControlFacts.seq p)))) ->
  ControlCommand.getRequestName c prefix p = Some (Ok n) -> exists mo ve,
  Component.ofString (ControlCommand.m_module c) = Ok mo /\ Component.ofString (ControlCommand.m_verb c) = Ok ve /\
  Name.components n = Name.components prefix ++
    [mo; ve; Block.of_tlv tlv.GenericNameComponent (tlv_bytes tlv_nfd.ControlParameters (BlockFacts.tlv_seq (ControlFacts.seq p)))].
Proof.
  intros Hw Hl. set (w := tlv_bytes _ _) in *. assert (Component.ofRange tlv.GenericNameComponent w = Ok (Block.of_tlv tlv.GenericNameComponent w)) as Hr.
  { unfold Component.ofRange. destruct (BlockHelpers.makeBinaryBlock_fast_slow tlv.GenericNameComponent w) as (_ & H1 & H2); [done|done|]. by rewrite H1. }
  assert (exists p1 b, ControlParameters.wireEncode p = (p1, Ok b) /\ Block.wire b = Ok w) as (p1 & b & He & Hb).
  { eexists _, _. split; [apply ControlTheorems.params_encode_spec; [done|by eapply len_value_fits]|]. apply DatasetTheorems.seq_block_wire. }
  clearbody w. unfold ControlCommand.getRequestName. destruct (ControlCommand.validateRequest c p) as [[[]|]|]; [|done..].
  rewrite He. clear He. unfold mbind, option_bind, result_bind. cbn [snd]. intros Hn. apply Some_inj in Hn. revert Hn.
  destruct (Component.ofString (ControlCommand.m_module c)) as [mo|]; [|done].
  destruct (Component.ofString (ControlCommand.m_verb c)) as [ve|]; [|done]. rewrite Hb, Hr. intros Hn. injection Hn as <-. exists mo, ve.
  split_and!; [done..|]. rewrite !NameFacts.components_append, <- !app_assoc. done.
Qed.

(** C26: a command Interest that a client makes reaches its handler intact: the
    name [ControlCommand::getRequestName] returns is under the prefix of the
    handler, and, also when more components follow, the dispatcher asks for
    authorization with parameters that have the same fields, with equal values. *)
Theorem dispatcher_command_roundtrip (c : ControlCommand.cmd) (prefix n : Name.t) (p : ControlParameters.t) (interest : Interest.t) (extra : list Component.t)
    (Hw : Block.hasWire (ControlParameters.m_wire p) = false) (Hok : ControlFacts.ok p)
    (Hl : is_u64 (len (tlv_bytes tlv_nfd.ControlParameters (BlockFacts.tlv_seq (ControlFacts.seq p)))))
    (Hn : ControlCommand.getRequestName c prefix p = Some (Ok n))
    (Hi : Name.components (Interest.m_name interest) = Name.components n ++ extra) :
  exists rel p', commandPrefix c = Ok rel /\ NameFacts.keys prefix ++ NameFacts.keys rel `prefix_of` NameFacts.keys (Interest.m_name interest) /\
    (forall f, ControlFacts.view p' f = ControlFacts.norm_value <$> ControlFacts.view p f) /\
    forall auth accepted rejected o, processControlCommandInterest prefix rel interest auth accepted rejected o =
      auth prefix interest (Some p') (fun req => accepted req prefix interest p') (fun reply => rejected reply interest) o.
Proof.
  destruct (parser_of_wire p Hw Hok Hl) as (p' & Hp & Hv). destruct (getRequestName_spec c prefix n p Hw Hl Hn) as (mo & ve & Hm & Hve & Hc).
  set (w := Block.of_tlv _ _) in *. clearbody w. unfold commandPrefix. rewrite Hm, Hve. cbn [mbind result_bind]. eexists _, p'. split; [done|].
  rewrite Hc, <- app_assoc in Hi. split; [|split; [done|]].
  - unfold NameFacts.keys. rewrite Hi, !NameFacts.components_append. exists (ComponentFacts.key <$> w :: extra). rewrite !fmap_app, <- app_assoc. done.
  - intros auth accepted rejected o. unfold processControlCommandInterest.
    rewrite (bindP_run _ _ _ o w); [by rewrite Hp|].
    unfold definedP. rewrite !NameFacts.size_len, !NameFacts.components_append.
    match goal with |- context [Name.get ?i _] => replace i with (Z.of_nat (length (Name.components prefix) + 2)) by (unfold len; rewrite !length_app; cbn; lia) end.
    rewrite NameFacts.get_nat, Hi. rewrite lookup_app_r, Nat.add_comm, Nat.add_sub by lia. done.
Qed.

(** What the dispatcher does with a command Interest it cannot parse: one
    whose component of parameters is not an encoding of them is dropped without a
    trace, before any authorization; for one whose name ends where the parameters
    should be, such as the registered prefix itself, it reads past the end of the
    name. *)
Theorem dispatcher_short_command (prefix rel : Name.t) (interest : Interest.t) auth accepted rejected (o : output) :
  (Name.size (Interest.m_name interest) <= Name.size prefix + Name.size rel ->
     processControlCommandInterest prefix rel interest auth accepted rejected o = None) /\
  (forall pc e, Name.get (Name.size prefix + Name.size rel) (Interest.m_name interest) = Some pc -> parser pc = Throw e -> is_tlv_error e = true ->
     processControlCommandInterest prefix rel interest auth accepted rejected o = Some (o, Ok tt)).
Proof.
  split.
  - intros H. unfold processControlCommandInterest, mbind, P_bind, definedP, Name.get.
    pose proof (len_nonneg (Name.components prefix)). pose proof (len_nonneg (Name.components rel)). rewrite !NameFacts.size_len in *.
    assert (len (Name.components prefix) + len (Name.components rel) <? 0 = false) as E by (apply Z.ltb_ge; lia).
    rewrite E, E, lookup_ge_None_2; [done|]. unfold len in *. lia.
  - intros pc e Hg Hp He. unfold processControlCommandInterest. rewrite (bindP_run _ _ _ o pc) by (unfold definedP; by rewrite Hg).
    by rewrite Hp, He.
Qed.

(** *** Notifications *)

Section notifications.
Variables (sha256 : bytes -> bytes) (conv : name.Conventions) (sign : M Data.t unit).
(** Signing does not rename a packet. *)
Hypothesis sign_name : forall k, keeps (fun x => NameFacts.keys (Data.m_name x) = k) sign.

Lemma resetWire_name k : keeps (fun x => NameFacts.keys (Data.m_name x) = k) Data.resetWire.
Proof. apply keeps_bind; [by apply keeps_modify|]. intros _. by apply keeps_modify. Qed.

Lemma packet_name k content mi : keeps (fun x => NameFacts.keys (Data.m_name x) = k)
  (_ ← Data.setContentBlock content; _ ← Data.setMetaInfo mi; _ ← Data.setFreshnessPeriod 1000; sign).
Proof.
  apply keeps_bind; [|intros _; apply keeps_bind; [|intros _; apply keeps_bind; [|intros _; apply sign_name]]].
  - apply keeps_throw_if. intros _. apply keeps_bind; [destruct (_ =? _); [apply keeps_ret|apply keeps_lift]|]. intros c.
    apply keeps_bind; [by apply keeps_modify|]. intros _. apply resetWire_name.
  - apply keeps_bind; [by apply keeps_modify|]. intros _. apply resetWire_name.
  - apply keeps_self. intros d Hd. destruct (negb _); [|apply keeps_ret]. apply keeps_bind; [|intros _; apply resetWire_name].
    intros x Hx. unfold zoom. destruct (MetaInfo.setFreshnessPeriod _ _) as [y [|]]; exact Hx.
Qed.

Lemma fullName_name d : Data.m_name (fst (Data.getFullName sha256 d)) = Data.m_name d.
Proof.
  assert (keeps (fun x => Data.m_name x = Data.m_name d) (Data.getFullName sha256)) as H.
  { apply keeps_self. intros x Hx. destruct (Name.isEmpty _); [|apply keeps_ret]. destruct (negb _); [apply keeps_throw|].
    apply keeps_bind; [by apply keeps_modify|]. intros _. apply keeps_bind; [apply keeps_lift|]. intros w.
    apply keeps_bind; [apply keeps_lift|]. intros n. apply keeps_bind; [by apply keeps_modify|]. intros _. apply keeps_ret. }
  destruct (Data.getFullName sha256 d) as [x r] eqn:E. exact (keeps_run _ _ _ _ _ H eq_refl E).
Qed.

Lemma sendData_face n content mi o o' : sendData sha256 sign n content mi FACE_AND_IMS o = Some (o', Ok tt) ->
  exists pkt, m_face o' = m_face o ++ [pkt] /\ NameFacts.keys (Data.m_name (untag pkt)) = NameFacts.keys n.
Proof.
  unfold sendData. pose proof (packet_name (NameFacts.keys n) content mi) as Hk. set (m := mbind _ (Data.setContentBlock content)) in *. clearbody m.
  unfold mbind, P_bind, liftP, exec. destruct (m (Data.ofName n)) as [x [[]|]] eqn:E; [|done].
  apply (keeps_run _ _ _ _ _ Hk) in E; [|done]. unfold zoomP. destruct (ims.insert _ _ _ _) as [st [[]|]]; [|done]. unfold sendOnFace, modifyP. intros [= <-].
  eexists. split; [done|]. cbn. by rewrite fullName_name.
Qed.

Definition sequenced (stream : Name.t) (i : Z) : Name.t :=
  match Name.appendSequenceNumber conv (u64 i) stream with Ok n => n | Throw _ => stream end.

Lemma sequenced_spec stream i : Name.appendSequenceNumber conv (u64 i) stream = Ok (sequenced stream i).
Proof.
  unfold sequenced, Name.appendSequenceNumber. pose proof (ComponentTheorems.from_kind Kind.SequenceNumber conv (u64 i)) as H.
  cbn [Kind.from] in H. rewrite H; [done|]. unfold is_u64, u64. width. pose proof (Z.mod_pos_bound i (2 ^ 64)). lia.
Qed.

Lemma value_of_assign {V} zero n (v : V) l : value_of zero n (assign n v l) = v.
Proof.
  assert (Name.equals n n = true) as Hn by (rewrite NameFacts.nequals_spec; by apply bool_decide_true).
  induction l as [|[k x] l IH]; cbn [assign value_of]; [by rewrite Hn|]. destruct (Name.equals k n) eqn:E; cbn [value_of]; by rewrite E.
Qed.

Lemma post_spec top e rel stream b d d' i : m_topLevelPrefixes d = [(top, e)] -> Name.appendName rel top = Ok stream ->
  value_of 0 stream (m_streams d) = u64 i -> postNotification sha256 conv sign b rel d = Some (d', Ok tt) ->
  m_topLevelPrefixes d' = [(top, e)] /\ value_of 0 stream (m_streams d') = u64 (i + 1) /\
  exists pkt, m_face (m_output d') = m_face (m_output d) ++ [pkt] /\ NameFacts.keys (Data.m_name (untag pkt)) = NameFacts.keys (sequenced stream i).
Proof.
  intros Ht Hs Hv. unfold postNotification. rewrite (bindP_run _ _ d d d) by done. rewrite Ht.
  rewrite (bindP_run _ _ d d stream) by (unfold liftP; by rewrite Hs). rewrite Hv.
  rewrite (bindP_run _ _ d (with_streams (assign stream (u64 (u64 i + 1)) (m_streams d)) d) tt) by done.
  rewrite (bindP_run _ _ _ (with_streams (assign stream (u64 (u64 i + 1)) (m_streams d)) d) (sequenced stream i)) by (unfold liftP; by rewrite sequenced_spec).
  unfold outputting. cbn [m_output with_streams]. destruct (sendData _ _ _ _ _ _ _) as [[o r]|] eqn:E; [|done]. intros [= <- ->].
  cbn. split_and!; [done| |by apply sendData_face in E]. rewrite value_of_assign. unfold u64. by rewrite Zplus_mod_idemp_l.
Qed.

Fixpoint post_all (notes : list Block.t) (rel : Name.t) : P t unit :=
  match notes with
  | [] => mret tt
  | b :: notes => _ ← postNotification sha256 conv sign b rel; post_all notes rel
  end.

Lemma post_all_spec top e rel stream notes : Name.appendName rel top = Ok stream -> forall d d' i,
  m_topLevelPrefixes d = [(top, e)] -> value_of 0 stream (m_streams d) = u64 i -> post_all notes rel d = Some (d', Ok tt) ->
  exists pkts, m_face (m_output d') = m_face (m_output d) ++ pkts /\
    (fun x => NameFacts.keys (Data.m_name (untag x))) <$> pkts = imap (fun k _ => NameFacts.keys (sequenced stream (i + Z.of_nat k))) notes /\
    value_of 0 stream (m_streams d') = u64 (i + len notes).
Proof.
  intros Hs. induction notes as [|b notes IH]; intros d d' i Ht Hv.
  - intros [= <-]. exists []. rewrite app_nil_r. split_and!; [done..|]. rewrite Hv. f_equal. unfold len. cbn. lia.
  - cbn [post_all]. unfold mbind, P_bind. destruct (postNotification _ _ _ _ _ _) as [[d1 [[]|]]|] eqn:E; [|done..]. intros H.
    destruct (post_spec top e rel stream b d d1 i Ht Hs Hv E) as (H1 & H2 & pkt & H3 & H4).
    destruct (IH d1 d' (i + 1) H1 H2 H) as (pkts & H5 & H6 & H7). exists (pkt :: pkts). rewrite H5, H3, <- app_assoc. split; [done|]. split.
    + cbn. rewrite H4, H6, Z.add_0_r. f_equal. apply imap_ext. intros k x _. cbn. do 2 f_equal. lia.
    + rewrite H7, len_cons. f_equal. lia.
Qed.

End notifications.

(** The notifications of a stream are numbered without gaps: while there is
    one top-level prefix, those that are posted in a row are put on the face in
    order under the name of the stream and consecutive sequence numbers, which
    start at zero for a stream that has not been used. *)
Theorem dispatcher_notification_sequence sha256 conv sign (top rel stream : Name.t) (e : TopPrefixEntry) (notes : list Block.t) (d d' : t) (i : Z)
    (Hsign : forall k, keeps (fun x => NameFacts.keys (Data.m_name x) = k) sign) (Ht : m_topLevelPrefixes d = [(top, e)]) (Hs : Name.appendName rel top = Ok stream)
    (Hi : i = value_of 0 stream (m_streams d)) (Hu : is_u64 i) (Hrun : post_all sha256 conv sign notes rel d = Some (d', Ok tt)) :
  NameFacts.keys stream = NameFacts.keys top ++ NameFacts.keys rel /\
  (Forall (fun x => ~ NameFacts.keys (fst x) = NameFacts.keys stream) (m_streams d) -> i = 0) /\
  exists pkts, m_face (m_output d') = m_face (m_output d) ++ pkts /\
    (fun x => NameFacts.keys (Data.m_name (untag x))) <$> pkts = imap (fun k _ => NameFacts.keys (sequenced conv stream (i + Z.of_nat k))) notes /\
    value_of 0 stream (m_streams d') = u64 (i + len notes).
Proof.
  split_and!.
  - destruct (NameFacts.appendName_spec rel top) as (r & E & H). rewrite Hs in E. injection E as <-. unfold NameFacts.keys. by rewrite H, fmap_app.
  - subst i. clear. induction 1 as [|[k v] l H _ IH]; [done|]. cbn [value_of]. rewrite NameFacts.nequals_spec, bool_decide_false by done. exact IH.
  - eapply post_all_spec; [exact Hsign|exact Hs|exact Ht| |exact Hrun]. rewrite <- Hi. unfold u64. rewrite Z.mod_small; [done|]. width. lia.
Qed.

(** *** Examples *)

Definition toy_digest := InterestTheorems.toy_digest.

(** A signature of three octets, and the encoding. *)
Definition toy_sign : M Data.t unit :=
  _ ← Data.setSignatureInfo (SignatureInfo.make 0 None);
  _ ← Data.setSignatureValue (Some (str "sig"));
  d ← self;
  f ← liftR (Data.wireEncode_template false d);
  b ← liftR (makeBlock f);
  modify (Data.with_wire b).

Lemma toy_sign_name k : keeps (fun x => NameFacts.keys (Data.m_name x) = k) toy_sign.
Proof.
  apply keeps_bind; [apply keeps_bind; [by apply keeps_modify|intros _; apply resetWire_name]|]. intros _.
  apply keeps_bind; [apply keeps_bind; [by apply keeps_modify|intros _; apply resetWire_name]|]. intros _.
  apply keeps_self. intros d Hd. apply keeps_bind; [apply keeps_lift|]. intros f. apply keeps_bind; [apply keeps_lift|]. intros b. by apply keeps_modify.
Qed.

Definition word (s : string) : Component.t := Block.of_tlv 8 (str s).
Definition sample_top : Name.t := Name.append (word "nfd") (Name.append (word "localhost") Name.empty).
Definition sample_rel : Name.t := Name.append (word "register") (Name.append (word "rib") Name.empty).
Definition sample_events : Name.t := Name.append (word "events") (Name.append (word "faces") Name.empty).
Definition d0 : t := init 20.
Definition d1 : t := fst (addControlCommand toy_digest toy_sign sample_rel makeAcceptAllAuthorization (fun _ => true)
  (fun _ _ _ respond => respond (ControlResponse.make 200 [])) d0).
Definition d2 : t := fst (addNotificationStream toy_digest sample_events d1).
Definition d3 : t := fst (addTopPrefix sample_top true d2).

Lemma d3_reachable : reachable toy_digest name.defaultConventions toy_sign 20 d3.
Proof.
  eapply reachable_step; [|apply step_addTop]. eapply reachable_step; [|apply step_stream].
  eapply reachable_step; [|apply step_command]. apply reachable_init.
Qed.

Lemma dispatcher_unique_handler_witness :
  (length (List.filter (fun f => Name.isPrefixOf (fst f) (Name.append (word "x") sample_top)) (filters d3)) <= 1)%nat.
Proof. exact (proj1 (dispatcher_unique_handler toy_digest name.defaultConventions toy_sign 20 d3 (Name.append (word "x") sample_top) d3_reachable)). Defined.

Lemma register_view f : ControlFacts.view CommandTheorems.register f =
  match f with ControlParameters.CONTROL_PARAMETER_NAME => Some (ControlFacts.VName Name.empty) | _ => None end.
Proof. by destruct f. Qed.

Lemma register_ok : ControlFacts.ok CommandTheorems.register.
Proof. intros f v. rewrite register_view. destruct f; intros [= <-]. constructor. Qed.

Definition sample_request : Name.t :=
  match ControlCommand.getRequestName ControlCommand.RibRegisterCommand sample_top CommandTheorems.register with
  | Some (Ok n) => n
  | _ => Name.empty
  end.

Lemma sample_request_ok : ControlCommand.getRequestName ControlCommand.RibRegisterCommand sample_top CommandTheorems.register = Some (Ok sample_request).
Proof. unfold sample_request. destruct (ControlCommand.getRequestName _ _ _) as [[n|]|] eqn:E; [done|vm_compute in E; discriminate E..]. Qed.

Lemma dispatcher_command_roundtrip_witness : exists rel p', commandPrefix ControlCommand.RibRegisterCommand = Ok rel /\
  ControlFacts.view p' ControlParameters.CONTROL_PARAMETER_NAME = Some (ControlFacts.norm_value (ControlFacts.VName Name.empty)) /\
  forall o, processControlCommandInterest sample_top rel (Interest.with_name sample_request Interest.init) makeAcceptAllAuthorization
    (fun _ _ _ _ => mret tt) (fun _ _ => undefinedP) o = Some (o, Ok tt).
Proof.
  destruct (dispatcher_command_roundtrip ControlCommand.RibRegisterCommand sample_top sample_request CommandTheorems.register
    (Interest.with_name sample_request Interest.init) []) as (rel & p' & H1 & _ & H2 & H3).
  - reflexivity.
  - exact register_ok.
  - by vm_compute.
  - exact sample_request_ok.
  - symmetry. apply app_nil_r.
  - exists rel, p'. split; [exact H1|]. split; [rewrite H2, register_view; reflexivity|]. intros o. rewrite H3. reflexivity.
Defined.

Lemma dispatcher_short_command_witness :
  processControlCommandInterest sample_top sample_rel (Interest.with_name sample_top Interest.init) makeAcceptAllAuthorization
    (fun _ _ _ _ => mret tt) (fun _ _ => mret tt) (m_output d3) = None.
Proof.
  apply (proj1 (dispatcher_short_command sample_top sample_rel (Interest.with_name sample_top Interest.init) makeAcceptAllAuthorization
    (fun _ _ _ _ => mret tt) (fun _ _ => mret tt) (m_output d3))). vm_compute. discriminate.
Defined.

Definition sample_entry : TopPrefixEntry := match m_topLevelPrefixes d3 with [(_, e)] => e | _ => mkEntry false [] end.
Definition sample_stream : Name.t := match Name.appendName sample_events sample_top with Ok n => n | Throw _ => Name.empty end.
Definition sample_notes : list Block.t := [word "up"; word "down"].
Definition d4 : t := match post_all toy_digest name.defaultConventions toy_sign sample_notes sample_events d3 with Some (d, Ok tt) => d | _ => d0 end.

Lemma sample_posted : post_all toy_digest name.defaultConventions toy_sign sample_notes sample_events d3 = Some (d4, Ok tt).
Proof.
  unfold d4. assert ((match post_all toy_digest name.defaultConventions toy_sign sample_notes sample_events d3 with Some (_, Ok tt) => true | _ => false end) = true) as H
    by (vm_compute; reflexivity).
  by destruct (post_all _ _ _ _ _ _) as [[d [[]|]]|].
Qed.

Lemma dispatcher_notification_sequence_witness : exists pkts, m_face (m_output d4) = m_face (m_output d3) ++ pkts /\
  (fun x => NameFacts.keys (Data.m_name (untag x))) <$> pkts =
    [NameFacts.keys (sequenced name.defaultConventions sample_stream 0); NameFacts.keys (sequenced name.defaultConventions sample_stream 1)].
Proof.
  destruct (dispatcher_notification_sequence toy_digest name.defaultConventions toy_sign sample_top sample_events sample_stream sample_entry sample_notes d3 d4 0)
    as (_ & _ & pkts & H1 & H2 & _).
  - exact toy_sign_name.
  - reflexivity.
  - reflexivity.
  - reflexivity.
  - by vm_compute.
  - exact sample_posted.
  - exists pkts. split; [exact H1|exact H2].
Defined.

End DispatcherTheorems.
